(* ===== verification/_CoqProject ===== *)
-Q . S2P
Prelude.v
Json.v
Errors.v
Identifiers.v
Provider.v
Tools.v
Replay.v
RunData.v
Run.v
Hoare.v
RunSafety.v
RunEffects.v
RunTotality.v
RunExamples.v
Records.v
Store.v
History.v
Session.v
RunStore.v
StoreSafety.v
StoreCommands.v
StoreGuarantees.v
StoreContents.v
Prefix.v
StoreExamples.v
Persist.v
Rebuild.v
Prepare.v
Submit.v
PersistStore.v
PersistClaims.v
Faithful.v
FaithfulExamples.v
Text.v
Sse.v
Lifecycle.v
Service.v
Finalized.v
Codec.v
Recovered.v
Consistency.v
CodexState.v
Continuation.v
CodexSession.v
CodexStream.v
CodexExamples.v
Wire.v
Positions.v
Cursors.v
Chunks.v
Projection.v
Fields.v
Contents.v
Projector.v
Shown.v
Displays.v
DisplayExamples.v
RunAudit.v
AuditWrites.v
AuditKeeps.v
AuditSessions.v
Valid.v
Catalog.v
Creation.v
CatalogFacts.v
CreationSafety.v
Stores.v
Recovery.v
CatalogExamples.v
Repair.v
RepairFacts.v
Repairs.v
Inspected.v
Rebuilt.v
RepairExamples.v
Frontmatter.v
Skills.v
SkillFacts.v
Profiles.v
Credentials.v
