(* ===== verification/Prelude.v ===== *)
(** * A verification library for Wi, a Rust agent runtime

    Wi drives a language model through a provider, executes the tools the model
    asks for and records everything it does in a session database.  This library
    models that program from its sources under src/src/ and proves what makes its
    core correct.

    ** The parts and where they are modelled

    - Provider contracts (provider.rs, error.rs, identifiers.rs): Provider.v,
      Errors.v, Identifiers.v, on the JSON values of Json.v.
    - Tools (tools.rs): Tools.v.  A registry with its cached results, the
      preflight of a whole response and the executor of a checked batch.  What the
      executor needs from its caller is the class [ToolHost]; the run controller
      ([run_host] of Run.v) and the plain [execute_response] are its two instances.
    - Replay values (provider/replay.rs): Replay.v.
    - Gateway and run data (gateway.rs, run/events.rs, run/collect.rs): RunData.v.
    - The run controller (run/mod.rs, run/observer.rs): Run.v.  [State] has the
      fields of the source's [State] and the locals of [drive]; the observer, the
      provider session, the cancellation token, the identifier source and the
      tools are the class [Environment] over an arbitrary world.
    - The session database (storage/): Records.v has what may be recorded
      (error.rs, ids.rs, records.rs, replay_metadata.rs, dto.rs), Store.v the tables
      and statements with the constraints of session_v2.sql, History.v the typed
      reads of the log (history.rs), Session.v creation, validation, receipts,
      transactions and rename (session_schema.rs, session.rs, database.rs),
      RunStore.v the recorded runs (run_store.rs, run_store/replay.rs,
      interruption.rs), Prefix.v the digests of history prefixes
      (history_prefix.rs), RunAudit.v the audit that repair makes of a recorded run
      (run_store/repair.rs).
    - The catalog (storage/catalog.rs, catalog_ops.rs, catalog_sync.rs): Catalog.v,
      its tables, their inspection and its operations; creating and opening sessions
      (creation.rs, connection() of session.rs): Creation.v.  A [Store] is the
      catalog, the session files and what is under way; [store_step] interleaves the
      steps of creations with commands and refreshes, each step in a [Weather] that
      says what the file system and SQLite refuse or lose.
    - The repair of the catalog (catalog_repair.rs): Repair.v.  A [Scan] is what the
      directories list and what happens to the work on each entry.
    - Submissions (execution/mod.rs, observer.rs, types.rs, the session handle of
      storage/session.rs): Persist.v and Submit.v.  A run reports to its observer,
      which records every report as a command on a session before the run goes on;
      [persist_env] is that observer as an [Environment] of the run, over a
      [World] that holds the session, and [run_owned] is the whole submission:
      receipt lookups, preparation of the replay, admission, acceptance, run, last
      record.  What the store does around an operation (refusal, fate of the
      transaction, failed close) and what other handles do in between is the class
      [StoreHost].
    - Replay preparation (execution/replay.rs, replay/reconstruct.rs): Rebuild.v has
      the builder that turns stored events back into exchanges, Prepare.v the page
      loop and the selection of the history.
    - Lifecycle of the store (storage/lifecycle.rs): Lifecycle.v, and the service
      layer (service/mod.rs, tickets.rs, types.rs): Service.v, both as interleavings
      of the steps that their locks make atomic.
    - The OpenAI Codex provider (providers/openai_codex/): Text.v and Sse.v (sse.rs,
      the bytes of a stream), Wire.v (the receiving half of wire.rs),
      Finalized.v (finalized.rs), Codec.v (codec.rs, the decoder of a response),
      Consistency.v (consistency.rs), CodexState.v (state.rs, replay.rs, the
      conversation and the requests made of it), CodexSession.v (session.rs and
      mod.rs, the worker of a session over the class [CodexWorld] of what the wire,
      the consumer and the provider do).
    - Credentials of that provider: Profiles.v (managed_store.rs, managed_auth.rs,
      profile_selection.rs), the program's own logins on a disk whose calls may fail and
      which may lose what was not made durable; Credentials.v (auth.rs and of
      browser_login.rs the callback and the token response).
    - The values of the conversation view (conversation/): Positions.v (ids.rs and
      the order keys of primitives.rs), Chunks.v (its text chunks), Cursors.v
      (cursors.rs), Projection.v (projection.rs, interpretation.rs, safe_code.rs: what
      of a response is display content, and where).
    - The display projector (storage/conversation/): Fields.v has the tables of
      session_v3.sql with their constraints and the fields of an entry, whose texts are
      kept in chunks (fields.rs, projector/content.rs); Projector.v what every event does
      to blocks and entries (projector.rs, projector/rows.rs, projector/runtime.rs).
      [rows_display] is the projector as an instance of the class [Display], which is all
      that the commands on a session (Session.v) ask of it.
    - Context and skills (context.rs, context/): Frontmatter.v reads the head of a skill
      file (frontmatter.rs); Skills.v discovers skills in a snapshot of the file system
      ([Fs]), loads them and prepares a run (skill_loading.rs, preparation.rs).

    ** How the code is translated

    Fallible code returns [result]; code with state is in the monad [SM], whose
    errors keep the state, so that what was done before a failure stays visible.
    A command on a session is a computation on [Db]; [transaction] adds what
    SQLite adds: rollback on an error, and a commit that may be reported unknown
    with its effects kept or lost ([Fate]).  Integers are [Z], with the checked and
    wrapping operations of their width written out.  Strings are their UTF-8 bytes.

    Code outside the repository is a class: [UuidLib] (uuid), [SerdeJson],
    [ProviderSerde], [ReplaySerde], [ResponseSerde], [EventSerde], [StorageSerde] and
    [RowSerde] (serde_json and the SHA-256 of ring), [Base64], [KindText] (the
    derived spelling of error kinds), [YamlLib] (yaml_rust2), [ProfileSerde]
    and [AuthSerde] (the JSON of credentials), [PathText] (the escaping
    of labels), with the laws the code relies on in
    [StorageSerdeLaws], [CursorLaws], [ProfileLaws] and [DisplayLaws] (decoding undoes encoding),
    [DigestLength] and [DigestLaws] (two places of an entry have two digests).
    [DisplaySerde] is the JSON of the display rows and the digests that are their keys.

    ** What is proved

    - Runs, for every behaviour of the environment: RunSafety.v (numbering and
      framing of events, silence after a failed delivery, one close of the
      session), RunEffects.v (tools run validated, announced and at most once per
      call id; counters and inputs), RunTotality.v (every run returns, and
      reports completion only when the model is done).
    - Tools and replay: in their own files.
    - Sessions: StoreSafety.v (each statement respects [evolves] and keeps
      [sound]), StoreCommands.v (whole transactions), StoreGuarantees.v (any
      sequence of attempts: append-only, all or nothing, lasting receipts, conflicts,
      interruption, creation), StoreContents.v (pages; what was
      recorded is what is read back), Prefix.v (checkpoints).
    - The audit: RunAudit.v (it leaves the tables no freedom, given the log),
      AuditWrites.v (it is stable under what others write) and
      AuditKeeps.v (a record appended to an accepted run leaves it accepted),
      AuditSessions.v (so does every command, hence every session made and worked on
      through the store passes; and a command that is tried again returns its receipt,
      the selection of a history being read back).
    - Sessions stay valid: Valid.v (no sequence of commands makes a session fail the
      validation the next one starts with).
    - The catalog, for every interleaving: CatalogFacts.v (what its rows say),
      CreationSafety.v (each operation keeps the invariant [catalog_ok]), Stores.v (so
      does every step; creations happen once, what is ready opens), Recovery.v (an
      interrupted creation completes when it is repeated).
    - Repair: RepairFacts.v (a repair as the list of its findings, and what the catalog
      says of each, [drawn] being the files that a contest reaches), Repairs.v (whole
      sessions that are not drawn into a contest open again, contested ones do not, an
      interrupted repair keeps the store shut), Inspected.v (sessions worked on through
      the store pass the inspection of repair if their selected histories are [honest],
      named by the digest of the log, which the store does not check) and Rebuilt.v (so
      a lost catalog is made anew from them).
    - Submissions, the two halves together: PersistStore.v (what commands on and
      beside a run do to its events, [HostLaws] being what is assumed of the
      surroundings; the session shows exactly the acknowledged deliveries),
      PersistClaims.v (executed, failed and repeated submissions - after a failure at
      most the record it names is shown besides, and only if its commit is [unsure] -
      and that each returns).
    - Replay, the way back from the store: PersistClaims.v (preparation only reads and
      ends), Faithful.v (a prepared replay is the recorded conversation).
    - Lifecycle.v and Service.v, for every interleaving: the lock outlives the work,
      closing ends, tickets settle once, a shutdown is reported clean only when it
      was.
    - The provider: Recovered.v (what the decoder keeps; the output of a decoded
      response is replaced only where it is empty), Continuation.v (which requests may follow a response, and that a request, continued, restored
      or whole, stands for the same conversation), and CodexStream.v
      (whatever arrives, the published stream is one the run's collector accepts,
      so that the provider refines what RunData.v asks of one), Wire.v (the events
      of an accepted body do not depend on how it is cut into chunks, and of a refused
      one only how many come before its error does).
    - Credentials: Profiles.v (a refresh token is presented once, over every history of
      operations, failures and crashes; selection is fair), Credentials.v (which requests
      the callback of a login takes).
    - The conversation view: order keys sort as their texts do, cursors are accepted
      exactly when issued, chunks join to the text; the projection of a response is what
      its items have to show ([item_shows] of Projection.v).
    - The display rows: Fields.v (what each operation on a field does to its text,
      [well_stored]), Contents.v (deltas and snapshots against [contents], the abstract
      map from places to texts), Shown.v (the invariant [displayed] and what one event
      may change, [advanced]), Displays.v (events of a response refine what they should
      show, a finished response is shown as it is, the end of a run settles it, and a
      reader's positions stay valid).
    - Context and skills: Frontmatter.v (the parser accepts exactly the documents that
      JSON can say), SkillFacts.v (discovery ends, its catalog is exact and well-formed,
      loading gives what was advertised, and a prepared run is accepted by the store and
      the controller).
    - RunExamples.v, StoreExamples.v, FaithfulExamples.v, CodexExamples.v,
      CatalogExamples.v, RepairExamples.v and DisplayExamples.v, and the ends of
      SkillFacts.v and Credentials.v, run concrete scenarios and instantiate the theorems
      at them.

    The proofs about stateful code are triples (Hoare.v): [holds] with both
    postconditions, [guarded] for invariants, [within] for the errors that can
    come, [yields] for what success leaves.

    ** Fuel

    The loops of a run take fuel, one unit per iteration.  Each iteration
    delivers an event and the event counter is a checked [u64], so any fuel above
    [u64_max] is enough; RunTotality.v proves that and that more fuel changes
    nothing.  The loop of [drive] of a provider session takes one unit per message;
    the decoder counts messages and refuses the 4097th, so 4097 is enough, which
    CodexStream.v proves.  The chunks of a text take one unit each and the length of
    the text is enough, which Chunks.v proves.  The event loop of the audit takes one
    unit per row of the log and one for its end; RunAudit.v proves that [validate_run],
    which starts with that much, always returns.  The loops of repair over a table take
    one unit per row and one for the end, which Repair.v proves enough.  The lines of a
    skill's head take one unit each and its length is enough (Frontmatter.v); discovery
    takes one per directory, which suffices on every file system of bounded depth, and
    a search of the catalog one per entry (SkillFacts.v).  The comparison of a stored
    text takes one unit per chunk and one for the end (Contents.v); the loop that settles
    a run one per entry and one for the end, which Shown.v proves enough.

    ** Not modelled

    The reads of the display rows (storage/conversation/reads/, and of conversation/
    the values they return and their wire form), the migration of old sessions,
    the requests a provider session puts on the network, and the HTTP, command-line, login
    and file-system code, which is input and output.  The order in which they are
    worth adding: the conversation reads, the handles of a provider session as an
    interleaving with its worker. *)

From Stdlib Require Export Sorted Ascii ZArith Lia.
From stdpp Require Export base decidable option strings numbers pretty gmap list.

#[global] Open Scope Z_scope.
#[export] Set Default Proof Using "Type".

(** ** Results and errors

    Rust's [Result<T, E>].  The source threads it with [?]; the model threads
    it with [let?], and with [let!] where a mutable state is threaded too. *)
Inductive result (A E : Type) : Type :=
| Ok (a : A)
| Err (e : E).
Arguments Ok {A E} a.
Arguments Err {A E} e.

Declare Scope wi_scope.
Delimit Scope wi_scope with wi.
#[global] Open Scope wi_scope.

Notation "'let?' x := c 'in' k" :=
  (match c with Ok x => k | Err e => Err e end)
  (at level 10, x name, c at level 100, k at level 200) : wi_scope.
Notation "'check?' c 'in' k" :=
  (match c with Ok _ => k | Err e => Err e end)
  (at level 10, c at level 100, k at level 200) : wi_scope.

Definition is_ok {A E} (r : result A E) : bool :=
  match r with Ok _ => true | Err _ => false end.

Definition ok_or {A E} (o : option A) (e : E) : result A E :=
  match o with Some a => Ok a | None => Err e end.

Definition map_err {A E F} (r : result A E) (f : E -> F) : result A F :=
  match r with Ok a => Ok a | Err e => Err (f e) end.

Definition is_some {A} (o : option A) : bool :=
  match o with Some _ => true | None => false end.

Definition is_none {A} (o : option A) : bool := negb (is_some o).

(** [Option::is_some_and] and [Option::is_none_or]. *)
Definition is_some_and {A} (o : option A) (p : A -> bool) : bool :=
  match o with Some a => p a | None => false end.

Definition is_none_or {A} (o : option A) (p : A -> bool) : bool :=
  match o with Some a => p a | None => true end.

(** ** Computations over a mutable state

    A [&mut self] method that can fail: the state is kept on the error path,
    as it is in Rust. *)
Definition SM (S E A : Type) : Type := S -> result A E * S.

Definition ret {S E A} (a : A) : SM S E A := fun s => (Ok a, s).
Definition throw {S E A} (e : E) : SM S E A := fun s => (Err e, s).
Definition lift {S E A} (r : result A E) : SM S E A := fun s => (r, s).
Definition gets {S E A} (f : S -> A) : SM S E A := fun s => (Ok (f s), s).
Definition modify {S E} (f : S -> S) : SM S E unit := fun s => (Ok tt, f s).
Definition bind {S E A B} (c : SM S E A) (k : A -> SM S E B) : SM S E B :=
  fun s => match c s with
           | (Ok a, s') => k a s'
           | (Err e, s') => (Err e, s')
           end.

Notation "'let!' x := c 'in' k" := (bind c (fun x => k))
  (at level 10, x name, c at level 100, k at level 200) : wi_scope.
Notation "'do!' c 'in' k" := (bind c (fun _ => k))
  (at level 10, c at level 100, k at level 200) : wi_scope.
(** ** Machine integers

    Integers are kept in [Z]; the widths the source relies on are written out. *)
Definition u64_max : Z := 18446744073709551615.
Definition i64_max : Z := 9223372036854775807.
Definition i64_min : Z := -9223372036854775808.

Definition in_u64 (z : Z) : bool := (0 <=? z) && (z <=? u64_max).
Definition in_i64 (z : Z) : bool := (i64_min <=? z) && (z <=? i64_max).

(** [u64::checked_add] and [i64::checked_add]. *)
Definition checked_add_u64 (a b : Z) : option Z :=
  if in_u64 (a + b) then Some (a + b) else None.
Definition checked_add_i64 (a b : Z) : option Z :=
  if in_i64 (a + b) then Some (a + b) else None.

(** [i64::try_from] of an unsigned value, and [u64::try_from] of a signed one. *)
Definition i64_try_from (z : Z) : option Z := if in_i64 z then Some z else None.
Definition u64_try_from (z : Z) : option Z := if in_u64 z then Some z else None.

(** The wrapping casts [as i64] and [as u64]. *)
Definition as_u64 (z : Z) : Z := z mod 2 ^ 64.
Definition as_i64 (z : Z) : Z :=
  let m := z mod 2 ^ 64 in if i64_max <? m then m - 2 ^ 64 else m.

(** ** Strings

    A Rust string is modelled by its UTF-8 bytes, so [str::len] is the length. *)
Definition len (s : string) : Z := Z.of_nat (String.length s).
Definition str_is_empty (s : string) : bool :=
  match s with EmptyString => true | String _ _ => false end.

Fixpoint bytes_all (p : Ascii.ascii -> bool) (s : string) : bool :=
  match s with
  | EmptyString => true
  | String c s => p c && bytes_all p s
  end.

Definition byte_in (lo hi : Z) (c : Ascii.ascii) : bool :=
  let n := Z.of_nat (Ascii.nat_of_ascii c) in (lo <=? n) && (n <=? hi).

Definition is_ascii (s : string) : bool := bytes_all (byte_in 0 127) s.
Definition is_ascii_digit : Ascii.ascii -> bool := byte_in 48 57.
Definition is_ascii_alphanumeric (c : Ascii.ascii) : bool :=
  byte_in 48 57 c || byte_in 65 90 c || byte_in 97 122 c.

(** [str::trim] removes characters of the Unicode [White_Space] property, so
    [s.trim().is_empty()] says that every character has it.  The encodings of
    those characters are: 09-0D and 20; C2 85 and C2 A0; E1 9A 80;
    E2 80 80-8A, E2 80 A8, E2 80 A9, E2 80 AF; E2 81 9F; E3 80 80. *)
Fixpoint trim_is_empty (s : string) : bool :=
  match s with
  | EmptyString => true
  | String a rest =>
      if byte_in 9 13 a || byte_in 32 32 a then trim_is_empty rest
      else match rest with
           | String b rest2 =>
               if byte_in 194 194 a && (byte_in 133 133 b || byte_in 160 160 b)
               then trim_is_empty rest2
               else match rest2 with
                    | String c rest3 =>
                        if (byte_in 225 225 a && byte_in 154 154 b && byte_in 128 128 c)
                           || (byte_in 226 226 a && byte_in 128 128 b
                               && (byte_in 128 138 c || byte_in 168 169 c || byte_in 175 175 c))
                           || (byte_in 226 226 a && byte_in 129 129 b && byte_in 159 159 c)
                           || (byte_in 227 227 a && byte_in 128 128 b && byte_in 128 128 c)
                        then trim_is_empty rest3 else false
                    | EmptyString => false
                    end
           | EmptyString => false
           end
  end.

(** [u64::to_string]: the shortest decimal spelling. *)
Definition decimal (z : Z) : string := pretty (Z.to_N z).

(** [str::strip_prefix]. *)
Fixpoint strip_prefix (p s : string) : option string :=
  match p, s with
  | EmptyString, _ => Some s
  | String a p', String b s' => if Ascii.eqb a b then strip_prefix p' s' else None
  | String _ _, EmptyString => None
  end.

(** ** Automation *)
Create HintDb wi.

Ltac inv H := inversion H; subst; clear H.

(** Split every [match] or [if] that stands in a hypothesis, closing the
    branches the hypothesis refutes. *)
Ltac step_in H :=
  repeat (simpl in H;
    match type of H with
    | Ok _ = Ok _ => injection H as H; subst
    | Err _ = Err _ => injection H as H; subst
    | Some _ = Some _ => injection H as H; subst
    | context [match ?x with _ => _ end] =>
        let E := fresh "E" in destruct x eqn:E; try discriminate H
    end).

(** Turn boolean tests in the context into propositions. *)
Ltac prop_bools :=
  repeat match goal with
  | H : (_ && _) = true |- _ => apply andb_true_iff in H as [? ?]
  | H : (_ || _) = false |- _ => apply orb_false_iff in H as [? ?]
  | H : negb _ = true |- _ => apply negb_true_iff in H
  | H : negb _ = false |- _ => apply negb_false_iff in H
  | H : bool_decide _ = true |- _ => apply bool_decide_eq_true_1 in H
  | H : bool_decide _ = false |- _ => apply bool_decide_eq_false_1 in H
  | H : (_ <=? _) = true |- _ => apply Z.leb_le in H
  | H : (_ <=? _) = false |- _ => apply Z.leb_gt in H
  | H : (_ <? _) = true |- _ => apply Z.ltb_lt in H
  | H : (_ <? _) = false |- _ => apply Z.ltb_ge in H
  | H : (_ =? _) = true |- _ => apply Z.eqb_eq in H
  | H : (_ =? _) = false |- _ => apply Z.eqb_neq in H
  end.

(** ** Generic lemmas *)
Lemma in_u64_spec z : in_u64 z = true <-> 0 <= z <= u64_max.
Proof. unfold in_u64. rewrite andb_true_iff, !Z.leb_le. tauto. Qed.

Lemma in_i64_spec z : in_i64 z = true <-> i64_min <= z <= i64_max.
Proof. unfold in_i64. rewrite andb_true_iff, !Z.leb_le. tauto. Qed.

Lemma checked_add_u64_Some a b c :
  checked_add_u64 a b = Some c <-> c = a + b /\ 0 <= a + b <= u64_max.
Proof.
  unfold checked_add_u64. pose proof (in_u64_spec (a + b)).
  destruct (in_u64 (a + b)); naive_solver congruence.
Qed.

Lemma checked_add_i64_Some a b c :
  checked_add_i64 a b = Some c <-> c = a + b /\ i64_min <= a + b <= i64_max.
Proof.
  unfold checked_add_i64. pose proof (in_i64_spec (a + b)).
  destruct (in_i64 (a + b)); naive_solver congruence.
Qed.

Lemma i64_try_from_Some a c :
  i64_try_from a = Some c <-> c = a /\ i64_min <= a <= i64_max.
Proof.
  unfold i64_try_from. pose proof (in_i64_spec a).
  destruct (in_i64 a); naive_solver congruence.
Qed.

Lemma as_u64_small z : 0 <= z <= u64_max -> as_u64 z = z.
Proof. intros. apply Z.mod_small. unfold u64_max in *. lia. Qed.

Lemma as_i64_small z : 0 <= z <= i64_max -> as_i64 z = z.
Proof.
  intros H. unfold as_i64, i64_max in *. rewrite Z.mod_small by lia.
  destruct (Z.ltb_spec 9223372036854775807 z); lia.
Qed.

Lemma str_is_empty_spec s : str_is_empty s = true <-> s = EmptyString.
Proof. by destruct s. Qed.

Lemma str_is_empty_false s : s <> EmptyString -> str_is_empty s = false.
Proof. by destruct s. Qed.

Lemma len_nonneg s : 0 <= len s.
Proof. unfold len. lia. Qed.

Lemma append_assoc a b c : String.append (String.append a b) c = String.append a (String.append b c).
Proof. induction a as [|x a IH]; [done | exact (f_equal (String x) IH)]. Qed.

Lemma append_empty a : String.append a EmptyString = a.
Proof. induction a as [|x a IH]; [done | exact (f_equal (String x) IH)]. Qed.

Lemma string_length_app s t :
  String.length (String.append s t) = (String.length s + String.length t)%nat.
Proof. induction s as [|c s IH]; simpl; [done | by rewrite IH]. Qed.

Lemma len_app s t : len (String.append s t) = len s + len t.
Proof. unfold len. rewrite string_length_app. lia. Qed.

Lemma strip_prefix_Some p s r : strip_prefix p s = Some r <-> s = String.append p r.
Proof.
  revert s. induction p as [|a p IH]; intros s; simpl.
  - split; [by intros [= ->] | by intros ->].
  - destruct s as [|b s]; [by split|].
    destruct (Ascii.eqb_spec a b) as [->|Hn].
    + rewrite IH. split; [by intros -> | by intros [= ->]].
    + split; [discriminate | intros [= ? _]; congruence].
Qed.

Lemma strip_prefix_app p r : strip_prefix p (String.append p r) = Some r.
Proof. by apply strip_prefix_Some. Qed.

Lemma decimal_inj a b : 0 <= a -> 0 <= b -> decimal a = decimal b -> a = b.
Proof. unfold decimal. intros Ha Hb H%(inj pretty). lia. Qed.

Lemma ok_or_Ok {A E} (o : option A) (e : E) a : ok_or o e = Ok a <-> o = Some a.
Proof. destruct o; naive_solver. Qed.

Lemma ok_or_Err {A E} (o : option A) (e e' : E) : ok_or o e = Err e' <-> o = None /\ e' = e.
Proof. destruct o; naive_solver. Qed.

Lemma map_err_Ok {A E F} (r : result A E) (f : E -> F) a : map_err r f = Ok a <-> r = Ok a.
Proof. destruct r; naive_solver. Qed.

Lemma is_some_false {A} (o : option A) : is_some o = false <-> o = None.
Proof. by destruct o. Qed.

Lemma is_some_true {A} (o : option A) : is_some o = true <-> exists a, o = Some a.
Proof. destruct o; naive_solver. Qed.

(** Put the facts a passed check leaves behind into their usable form. *)
Ltac simp_checks :=
  repeat match goal with
  | H : ok_or _ _ = Ok _ |- _ => apply ok_or_Ok in H
  | H : ok_or _ _ = Err _ |- _ => apply ok_or_Err in H as [? ?]
  | H : map_err _ _ = Ok _ |- _ => apply map_err_Ok in H
  | H : is_some _ = false |- _ => apply is_some_false in H
  | H : is_some _ = true |- _ => apply is_some_true in H as [? ?]
  | u : unit |- _ => destruct u
  | _ => progress prop_bools
  end.

(** Inversion of a computation that went through. *)
Lemma bind_Ok {S E A B} (c : SM S E A) (k : A -> SM S E B) s b s' :
  bind c k s = (Ok b, s') -> exists a s1, c s = (Ok a, s1) /\ k a s1 = (Ok b, s').
Proof. unfold bind. destruct (c s) as [[a|e] s1] eqn:E0; [eauto | discriminate]. Qed.

Lemma bind_inv {S E A B} (c : SM S E A) (k : A -> SM S E B) s r s' :
  bind c k s = (r, s') ->
  (exists a s1, c s = (Ok a, s1) /\ k a s1 = (r, s')) \/
  (exists e, c s = (Err e, s') /\ r = Err e).
Proof. unfold bind. destruct (c s) as [[a|e] s1] eqn:E0; [eauto | intros [= <- <-]; eauto]. Qed.

(** The outcome of a run and the state it leaves, as one equation. *)
Lemma run_eta {A B C} (x : A * (B * C)) a : fst x = a -> x = (a, (fst (snd x), snd (snd x))).
Proof. destruct x as [? [? ?]]. by intros <-. Qed.

(** [unbind H] takes the first step of a successful sequence apart. *)
Ltac unbind H :=
  let a := fresh "a" in let s := fresh "s" in let Hc := fresh "Hc" in
  apply bind_Ok in H as (a & s & Hc & H).

#[export] Hint Rewrite len_app strip_prefix_app : wi.
#[export] Hint Resolve len_nonneg : wi.
