(* ===== verification/Json.v ===== *)
(** * JSON values

    [serde_json::Value] as the source uses it: the data type, the accessors
    ([get], [as_str], [is_null], [is_object]) and its equality.  Without the
    [preserve_order] feature an object is a [BTreeMap], so an object is an
    association list in key order.  The text codec of the crate is a parameter
    ([SerdeJson]): the model never invents its output. *)
From S2P Require Import Prelude.

(** A JSON number as the crate keeps it: a non-negative [u64], a negative
    [i64], or the bits of a finite [f64]. *)
Inductive Number : Type :=
| PosInt (n : Z)
| NegInt (n : Z)
| Float (bits : Z).

Inductive Value : Type :=
| Null
| VBool (b : bool)
| VNumber (n : Number)
| VString (s : string)
| VArray (l : list Value)
| VObject (fields : list (string * Value)).

(** [f64] equality on finite values identifies the two zeros. *)
Definition float_is_zero (bits : Z) : bool := (bits =? 0) || (bits =? 2 ^ 63).

Definition number_eqb (a b : Number) : bool :=
  match a, b with
  | PosInt x, PosInt y => x =? y
  | NegInt x, NegInt y => x =? y
  | Float x, Float y => (x =? y) || (float_is_zero x && float_is_zero y)
  | _, _ => false
  end.

(** The derived [PartialEq] of [Value]. *)
Fixpoint value_eqb (a b : Value) {struct a} : bool :=
  match a, b with
  | Null, Null => true
  | VBool x, VBool y => Bool.eqb x y
  | VNumber x, VNumber y => number_eqb x y
  | VString x, VString y => bool_decide (x = y)
  | VArray x, VArray y =>
      (fix go l r := match l, r with
                     | [], [] => true
                     | v :: l, w :: r => value_eqb v w && go l r
                     | _, _ => false
                     end) x y
  | VObject x, VObject y =>
      (fix go l r := match l, r with
                     | [], [] => true
                     | (k, v) :: l, (j, w) :: r => bool_decide (k = j) && value_eqb v w && go l r
                     | _, _ => false
                     end) x y
  | _, _ => false
  end.

Fixpoint assoc (k : string) (l : list (string * Value)) : option Value :=
  match l with
  | [] => None
  | (j, v) :: l => if bool_decide (j = k) then Some v else assoc k l
  end.

(** [Value::get] with a string index: only an object has fields. *)
Definition get (v : Value) (k : string) : option Value :=
  match v with VObject fields => assoc k fields | _ => None end.

Definition as_str (v : Value) : option string :=
  match v with VString s => Some s | _ => None end.

Definition is_null (v : Value) : bool := match v with Null => true | _ => false end.
Definition is_object (v : Value) : bool := match v with VObject _ => true | _ => false end.

(** The text codec of the crate: [serde_json::from_str::<Value>] and
    [serde_json::to_string]. *)
Class SerdeJson := {
  from_str : string -> option Value;
  to_string : Value -> option string
}.

(** [serde_json] deserializes an [i64] field from an integer that fits it. *)
Definition i64_of_value (v : Value) : option Z :=
  match v with
  | VNumber (PosInt n) => if n <=? i64_max then Some n else None
  | VNumber (NegInt n) => Some n
  | _ => None
  end.

(** ** Equality is an equivalence *)
Lemma number_eqb_refl n : number_eqb n n = true.
Proof. destruct n; simpl; rewrite Z.eqb_refl; done. Qed.

Lemma number_eqb_sym a b : number_eqb a b = number_eqb b a.
Proof.
  destruct a, b; simpl; try done; rewrite (Z.eqb_sym _ n) || rewrite (Z.eqb_sym _ bits); try done.
  by rewrite (andb_comm (float_is_zero bits)).
Qed.

Section value_induction.
Variable P : Value -> Prop.
Hypothesis Hnull : P Null.
Hypothesis Hbool : forall b, P (VBool b).
Hypothesis Hnum : forall n, P (VNumber n).
Hypothesis Hstr : forall s, P (VString s).
Hypothesis Harr : forall l, Forall P l -> P (VArray l).
Hypothesis Hobj : forall l, Forall (fun kv => P kv.2) l -> P (VObject l).

(** Induction through the arrays and objects of a value. *)
Fixpoint value_ind' (v : Value) : P v :=
  match v with
  | Null => Hnull
  | VBool b => Hbool b
  | VNumber n => Hnum n
  | VString s => Hstr s
  | VArray l =>
      Harr l ((fix go l : Forall P l :=
                 match l with
                 | [] => List.Forall_nil _
                 | v :: l => List.Forall_cons _ _ _ (value_ind' v) (go l)
                 end) l)
  | VObject l =>
      Hobj l ((fix go l : Forall (fun kv => P kv.2) l :=
                 match l with
                 | [] => List.Forall_nil _
                 | kv :: l => List.Forall_cons _ _ _ (value_ind' kv.2) (go l)
                 end) l)
  end.
End value_induction.

Lemma value_eqb_refl v : value_eqb v v = true.
Proof.
  induction v as [| | | |l IH|l IH] using value_ind'; simpl; try done.
  - by destruct b.
  - apply number_eqb_refl.
  - by rewrite bool_decide_eq_true_2.
  - induction IH as [|v l Hv _ IHl]; [done | by rewrite Hv, IHl].
  - induction IH as [|[k v] l Hv _ IHl]; [done|].
    simpl in *. by rewrite bool_decide_eq_true_2, Hv, IHl.
Qed.

#[export] Hint Resolve value_eqb_refl number_eqb_refl : wi.

(** * JSON values, continued

    What the decoders use of [serde_json::Value] besides the accessors: indexing,
    numbers, arrays, and the building of objects. *)

Definition as_u64_value (v : Value) : option Z := match v with VNumber (PosInt n) => Some n | _ => None end.
Definition as_array (v : Value) : option (list Value) := match v with VArray l => Some l | _ => None end.

(** [v[k]]: a missing field reads as null. *)
Definition field (v : Value) (k : string) : Value := default Null (get v k).

(** [v.pointer("/a/b")] for names that are no array indices. *)
Definition pointer (v : Value) (a b : string) : option Value := get v a ≫= fun w => get w b.

(** [v == k] for a string. *)
Definition is_str (v : Value) (s : string) : bool := bool_decide (as_str v = Some s).

Definition one_of (s : string) (l : list string) : bool := existsb (fun t => bool_decide (s = t)) l.
Definition has_prefix (p s : string) : bool := is_some (strip_prefix p s).

(** [str::ends_with]. *)
Fixpoint has_suffix (p s : string) : bool :=
  bool_decide (p = s) || match s with EmptyString => false | String _ rest => has_suffix p rest end.
(** [str::contains]. *)
Fixpoint has_infix (p s : string) : bool :=
  has_prefix p s || match s with EmptyString => false | String _ rest => has_infix p rest end.

(** An object keeps its fields in the order of their names. *)
Fixpoint insert_field (k : string) (v : Value) (l : list (string * Value)) : list (string * Value) :=
  match l with
  | [] => [(k, v)]
  | (j, w) :: rest =>
      match String.compare k j with
      | Lt => (k, v) :: l
      | Eq => (k, v) :: rest
      | Gt => (j, w) :: insert_field k v rest
      end
  end.

(** [json!({ ... })]. *)
Definition object (fields : list (string * Value)) : Value :=
  VObject (fold_left (fun l kv => insert_field (fst kv) (snd kv) l) fields []).

(** [v[k] = w] for an object. *)
Definition set_field (k : string) (w v : Value) : Value :=
  match v with VObject l => VObject (insert_field k w l) | _ => v end.

Lemma compare_refl s : String.compare s s = Eq.
Proof. pose proof (String.compare_antisym s s) as H. by destruct (String.compare s s). Qed.

Lemma string_compare_trans a b c : String.compare a b = Lt -> String.compare b c = Lt -> String.compare a c = Lt.
Proof.
  revert b c. induction a as [|x a IH]; intros [|y b] [|z c]; cbn [String.compare]; try done. unfold Ascii.compare.
  destruct (N.compare_spec (Ascii.N_of_ascii x) (Ascii.N_of_ascii y)) as [Hxy|Hxy|Hxy], (N.compare_spec (Ascii.N_of_ascii y) (Ascii.N_of_ascii z)) as [Hyz|Hyz|Hyz],
    (N.compare_spec (Ascii.N_of_ascii x) (Ascii.N_of_ascii z)); try done; try lia. apply IH.
Qed.

Lemma assoc_insert_eq k v l : assoc k (insert_field k v l) = Some v.
Proof.
  induction l as [|[j w] l IH]; simpl; [by rewrite bool_decide_eq_true_2|].
  destruct (String.compare k j) eqn:Hc; simpl; [by rewrite bool_decide_eq_true_2..|].
  rewrite bool_decide_eq_false_2; [done|]. intros ->. by rewrite compare_refl in Hc.
Qed.

Lemma assoc_insert_ne k j v l : k <> j -> assoc j (insert_field k v l) = assoc j l.
Proof.
  intros Hne. induction l as [|[i w] l IH]; simpl; [by rewrite bool_decide_eq_false_2|].
  destruct (String.compare k i) eqn:Hc; simpl.
  - apply String.compare_eq_iff in Hc as ->. by rewrite !bool_decide_eq_false_2.
  - by rewrite (bool_decide_eq_false_2 (k = j)).
  - by rewrite IH.
Qed.

Lemma get_set_eq k w l : get (set_field k w (VObject l)) k = Some w.
Proof. apply assoc_insert_eq. Qed.
Lemma get_set_ne k j w v : k <> j -> get (set_field k w v) j = get v j.
Proof. intros Hne. destruct v; try done. by apply assoc_insert_ne. Qed.
