(* ===== verification/Errors.v ===== *)
(** * Gateway errors (src/src/error.rs)

    The error type of the provider-neutral layer and the safe code each error
    reports. *)
From S2P Require Import Prelude.

(** [std::io::ErrorKind], by its discriminant. *)
Definition ErrorKind : Type := Z.

Inductive GatewayError : Type :=
| InvalidRequest (what : string)
| UnknownProvider
| DuplicateProvider
| UnsupportedFeature (what : string)
| Busy
| SessionClosed
| HomeUnavailable
| AuthRead (kind : ErrorKind)
| AuthFileType
| AuthFileTooLarge
| AuthPermissions
| InvalidAuth (what : string)
| AuthExpired
| AuthAccountChanged
| Clock
| ClientConfiguration
| Timeout
| TransportError
| Unauthorized
| Forbidden
| RateLimited (retry_after_seconds : option Z)
| Http (status : Z)
| UnexpectedContentType
| Protocol (what : string)
| ProviderFailed
| UnexpectedEnd
| StreamTooLarge
| SlowConsumer
| Cancelled
| UnsupportedOutput
| NotCompleted
| UnknownTool
| InvalidToolArguments
| ToolFailed
| NoToolCall
| TurnLimit
| IoError (kind : ErrorKind)
| Serialization.

(** [GatewayError::code]. *)
Definition code (e : GatewayError) : string :=
  match e with
  | Unauthorized => "unauthorized"
  | Forbidden => "forbidden"
  | RateLimited _ => "rate_limited"
  | AuthExpired => "auth_expired"
  | AuthAccountChanged => "auth_account_changed"
  | Timeout => "timeout"
  | TransportError => "transport_error"
  | UnexpectedContentType => "unexpected_content_type"
  | Cancelled => "locally_cancelled"
  | SlowConsumer => "slow_consumer"
  | UnexpectedEnd => "unexpected_end"
  | Protocol _ => "protocol_error"
  | ProviderFailed => "provider_error"
  | InvalidRequest _ => "invalid_request"
  | StreamTooLarge => "output_limit"
  | UnsupportedOutput => "unsupported_output"
  | UnsupportedFeature _ => "unsupported_feature"
  | Http _ => "http_error"
  | _ => "gateway_error"
  end.
