(* ===== verification/Identifiers.v ===== *)
(** * Wi-owned identifiers (src/src/identifiers.rs)

    The admission predicates on request, run and event identities.  The [uuid]
    crate is a parameter ([UuidLib]); everything the file computes from it is
    translated. *)
From S2P Require Import Prelude.

(** What the source uses of the [uuid] crate. *)
Class UuidLib := {
  Uuid : Type;
  parse_str : string -> option Uuid;
  is_nil : Uuid -> bool;
  hyphenated : Uuid -> string
}.

(** [providers::openai_codex::PROVIDER_ID]. *)
Definition PROVIDER_ID : string := "openai-codex".

Section identifiers.
Context `{UuidLib}.

Definition is_canonical_uuid (value : string) : bool :=
  if negb (len value =? 36) || negb (is_ascii value) then false
  else match parse_str value with
       | None => false
       | Some id => negb (is_nil id) && bool_decide (hyphenated id = value)
       end.

Definition is_local_event_id (event session : string) (sequence : Z) : bool :=
  if negb (is_canonical_uuid session) || (sequence =? 0) || (57 <? len event) then false
  else match strip_prefix session event with
       | None => false
       | Some suffix =>
           match strip_prefix ":" suffix with
           | None => false
           | Some decimal_text => bool_decide (decimal_text = decimal sequence)
           end
       end.

Lemma is_canonical_uuid_len value : is_canonical_uuid value = true -> len value = 36.
Proof.
  unfold is_canonical_uuid. destruct (Z.eqb_spec (len value) 36); [done|]. simpl. done.
Qed.

Lemma is_canonical_uuid_nonempty value : is_canonical_uuid value = true -> str_is_empty value = false.
Proof. intros E%is_canonical_uuid_len. by destruct value. Qed.

(** A decimal spelling grows by one digit per power of ten. *)
Lemma pretty_N_go_length k x s :
  (x < 10 ^ N.of_nat k)%N -> (String.length (pretty_N_go x s) <= k + String.length s)%nat.
Proof.
  revert x s. induction k as [|k IH]; intros x s Hx.
  - assert (x = 0)%N as -> by (simpl in Hx; lia). done.
  - destruct (decide (x = 0)%N) as [->|Hne]; [simpl; rewrite pretty_N_go_0; lia|].
    rewrite pretty_N_go_step by lia. etrans.
    + apply IH. apply N.Div0.div_lt_upper_bound.
      rewrite Nat2N.inj_succ, N.pow_succ_r' in Hx. done.
    + simpl. lia.
Qed.

Lemma decimal_u64_len n : 0 <= n <= u64_max -> len (decimal n) <= 20.
Proof.
  intros Hn. unfold decimal, pretty, pretty_N, len.
  destruct (decide (Z.to_N n = 0)%N); [simpl; lia|].
  pose proof (pretty_N_go_length 20 (Z.to_N n) "") as Hl. simpl in Hl.
  unfold u64_max in Hn. lia.
Qed.

Lemma local_event_id_accepted session sequence :
  is_canonical_uuid session = true -> 0 < sequence <= u64_max ->
  is_local_event_id (String.append session (String ":"%char (decimal sequence))) session sequence = true.
Proof.
  intros Hc Hseq. unfold is_local_event_id. rewrite Hc. cbn [negb orb].
  destruct (Z.eqb_spec sequence 0); [lia|]. cbn [negb orb].
  rewrite strip_prefix_app. simpl.
  replace (57 <? _) with false; [by rewrite bool_decide_eq_true_2|].
  symmetry. apply Z.ltb_ge. rewrite len_app, (is_canonical_uuid_len session Hc).
  pose proof (decimal_u64_len sequence ltac:(lia)). unfold len in *. simpl. lia.
Qed.

(** The admission check on a provider's local event id accepts exactly one
    spelling: for a [u64] sequence, [is_local_event_id] holds iff the session is
    a canonical UUID, the sequence is positive and the id is the session, a
    colon and the decimal of the sequence.  In particular the 57-byte bound the
    code applies first never rejects a well-formed id. *)
Lemma local_event_id_exact event session sequence :
  0 <= sequence <= u64_max ->
  is_local_event_id event session sequence = true <->
  is_canonical_uuid session = true /\ 0 < sequence /\
  event = String.append session (String ":"%char (decimal sequence)).
Proof.
  intros Hseq. split.
  - unfold is_local_event_id. destruct (is_canonical_uuid session) eqn:Hc; [|done]. cbn [negb orb andb].
    destruct (Z.eqb_spec sequence 0); [done|]. cbn [negb orb andb].
    destruct (57 <? len event); [done|].
    destruct (strip_prefix session event) as [suffix|] eqn:E1; [|done].
    destruct (strip_prefix ":" suffix) as [d|] eqn:E2; [|done].
    intros Hd%bool_decide_eq_true_1. apply strip_prefix_Some in E1, E2. subst.
    split; [done|split; [lia|done]].
  - intros (Hc & Hpos & ->). apply local_event_id_accepted; [done|lia].
Qed.
End identifiers.

(** A concrete library for the witnesses: the hyphenated form only. *)
Definition hex_digit (c : Ascii.ascii) : bool :=
  is_ascii_digit c || byte_in 97 102 c || byte_in 65 70 c.

Fixpoint hyphenated_shape (i : nat) (s : string) : bool :=
  match s with
  | EmptyString => Nat.eqb i 36
  | String c s =>
      (if Nat.eqb i 8 || Nat.eqb i 13 || Nat.eqb i 18 || Nat.eqb i 23
       then Ascii.eqb c "-"%char else hex_digit c) && hyphenated_shape (S i) s
  end.

Definition lower_hex (c : Ascii.ascii) : Ascii.ascii :=
  if byte_in 65 70 c then Ascii.ascii_of_nat (Ascii.nat_of_ascii c + 32) else c.

Fixpoint string_map (f : Ascii.ascii -> Ascii.ascii) (s : string) : string :=
  match s with EmptyString => EmptyString | String c s => String (f c) (string_map f s) end.

Definition example_uuid : UuidLib := {|
  Uuid := string;
  parse_str s := if hyphenated_shape 0 s then Some (string_map lower_hex s) else None;
  is_nil u := bytes_all (fun c => Ascii.eqb c "0"%char || Ascii.eqb c "-"%char) u;
  hyphenated u := u
|}.

(** The property applies to the session and sequence of the code's own tests. *)
Lemma local_event_id_exact_witness :
  (0 <= 999 <= u64_max) /\
  @is_local_event_id example_uuid
    "01234567-89ab-1cde-8fab-0123456789ab:999" "01234567-89ab-1cde-8fab-0123456789ab" 999 = true.
Proof.
  split; [done|].
  apply (@local_event_id_exact example_uuid); [done|]. vm_compute. done.
Defined.
