(* ===== verification/Provider.v ===== *)
(** * Provider-neutral contracts (src/src/provider.rs)

    The data exchanged between the run controller, the tools and a provider
    plugin, and the admission checks on it: tool definitions, session options
    and inputs.  [serde_json::to_vec] of a structure is only used for its
    length, which is a parameter ([ProviderSerde]). *)
From S2P Require Import Prelude Json Errors.

Definition MAX_INPUT_BYTES : Z := 1024 * 1024.
Definition MAX_INPUT_ITEMS : Z := 128.
Definition MAX_HISTORY_BYTES : Z := 8 * 1024 * 1024.
Definition MAX_TOOLS : Z := 32.

Inductive Transport : Type := WebSocket | Sse.

Inductive Feature : Type := NativeSteering | ToolSearch | ProgrammaticTools | AsyncTools.
#[export] Instance Feature_eq_dec : EqDecision Feature.
Proof. solve_decision. Defined.

(** [Feature::name]. *)
Definition feature_name (f : Feature) : string :=
  match f with
  | NativeSteering => "native_steering"
  | ToolSearch => "tool_search"
  | ProgrammaticTools => "programmatic_tools"
  | AsyncTools => "async_tools"
  end.

Record Capability : Type := { implemented : bool; verification : string }.
Record FeatureCapability : Type := { feature : Feature; capability : Capability }.
Record ProviderCapabilities : Type := {
  websocket : Capability;
  sse : Capability;
  continuation : Capability;
  function_tools : Capability;
  advanced : list FeatureCapability
}.

(** [ProviderCapabilities::require]: the first feature without an implemented
    capability is reported. *)
Fixpoint require (c : ProviderCapabilities) (features : list Feature) : result unit GatewayError :=
  match features with
  | [] => Ok tt
  | f :: rest =>
      if existsb (fun fc => bool_decide (feature fc = f) && implemented (capability fc)) (advanced c)
      then require c rest
      else Err (UnsupportedFeature (feature_name f))
  end.

Record ToolDefinition : Type := {
  td_name : string;
  td_description : string;
  td_parameters : Value;
  td_strict : bool
}.

(** [ToolDefinition::validate]. *)
Definition tool_name_byte (b : ascii) : bool :=
  is_ascii_alphanumeric b || Ascii.eqb b "_"%char || Ascii.eqb b "-"%char.

Definition validate_definition (t : ToolDefinition) : result unit GatewayError :=
  if str_is_empty (td_name t) || (64 <? len (td_name t))
     || negb (bytes_all tool_name_byte (td_name t))
  then Err (InvalidRequest "invalid tool name")
  else if (8192 <? len (td_description t))
          || negb (bool_decide ((get (td_parameters t) "type" ≫= as_str) = Some "object"))
  then Err (InvalidRequest "tool requires an object parameter schema and bounded description")
  else Ok tt.

Record SessionOptions : Type := {
  model : string;
  instructions : string;
  tools : list ToolDefinition;
  transport : Transport;
  required_features : list Feature
}.

(** [SessionOptions::new]. *)
Definition new_options (m : string) : SessionOptions := {|
  model := m;
  instructions := "You are a helpful assistant.";
  tools := [];
  transport := WebSocket;
  required_features := []
|}.

Inductive InputItem : Type :=
| User (text : string)
| ToolResult (call_id output : string).

(** The byte length of [serde_json::to_vec], or its failure. *)
Class ProviderSerde := {
  options_json_len : SessionOptions -> option Z;
  input_json_len : list InputItem -> option Z
}.

(** The loop of [SessionOptions::validate] over the tools. *)
Fixpoint validate_tools (seen : gset string) (ts : list ToolDefinition) : result unit GatewayError :=
  match ts with
  | [] => Ok tt
  | t :: rest =>
      check? validate_definition t in
      if bool_decide (td_name t ∈ seen) then Err (InvalidRequest "duplicate tool name")
      else validate_tools ({[td_name t]} ∪ seen) rest
  end.

Definition validate_options `{ProviderSerde} (o : SessionOptions) : result unit GatewayError :=
  if trim_is_empty (model o) || (256 <? len (model o)) || trim_is_empty (instructions o)
  then Err (InvalidRequest "model and instructions are required")
  else if MAX_TOOLS <? Z.of_nat (length (tools o)) then Err (InvalidRequest "too many tools")
  else
    check? validate_tools ∅ (tools o) in
    match options_json_len o with
    | None => Err Serialization
    | Some n =>
        if MAX_INPUT_BYTES <? n
        then Err (InvalidRequest "session configuration exceeds 1 MiB")
        else Ok tt
    end.

(** The loop of [validate_input] over the items. *)
Fixpoint validate_items (input : list InputItem) : result unit GatewayError :=
  match input with
  | [] => Ok tt
  | User text :: rest =>
      if trim_is_empty text then Err (InvalidRequest "empty user input") else validate_items rest
  | ToolResult call_id _ :: rest =>
      if str_is_empty call_id || (512 <? len call_id)
      then Err (InvalidRequest "invalid tool call identifier") else validate_items rest
  end.

Definition validate_input `{ProviderSerde} (input : list InputItem) : result unit GatewayError :=
  if match input with [] => true | _ => false end
     || (MAX_INPUT_ITEMS <? Z.of_nat (length input))
  then Err (InvalidRequest "input must contain 1..128 items")
  else
    check? validate_items input in
    match input_json_len input with
    | None => Err Serialization
    | Some n =>
        if MAX_INPUT_BYTES <? n then Err (InvalidRequest "input exceeds 1 MiB") else Ok tt
    end.

Inductive ItemKind : Type :=
| KMessage | KReasoning | KFunctionCall | KCustomToolCall | KToolSearchCall
| KToolSearchOutput | KProgram | KProgramOutput | KUnknown.
#[export] Instance ItemKind_eq_dec : EqDecision ItemKind.
Proof. solve_decision. Defined.

Inductive CallOrigin : Type := Direct | Programmatic | UnknownOrigin.
#[export] Instance CallOrigin_eq_dec : EqDecision CallOrigin.
Proof. solve_decision. Defined.

Record FunctionCall : Type := {
  call_id : string;
  name : string;
  arguments : string;
  origin : CallOrigin;
  namespace : option string;
  complete : bool
}.

Record OutputItem : Type := {
  item_id : option string;
  kind : ItemKind;
  native_type : string;
  function_call : option FunctionCall;
  native : Value
}.

Inductive ResponseOutcome : Type :=
| RCompleted
| RIncomplete (reason : option string)
| RFailed
| RCancelled.
#[export] Instance ResponseOutcome_eq_dec : EqDecision ResponseOutcome.
Proof. solve_decision. Defined.

Record Usage : Type := {
  input_tokens : Z;
  output_tokens : Z;
  total_tokens : Z;
  cached_input_tokens : option Z;
  reasoning_tokens : option Z
}.

Inductive OutputProvenance : Type := NativeTerminal | ValidatedOutputItemDone.

Record ModelResponse : Type := {
  output_provenance : OutputProvenance;
  response_id : string;
  response_model : option string;
  outcome : ResponseOutcome;
  output : list OutputItem;
  text : string;
  usage : option Usage;
  response_native : Value
}.

Inductive DeltaKind : Type :=
| DText | DRefusal | DReasoningSummary | DReasoningText | DFunctionArguments | DCustomToolInput.

Inductive UpstreamOutcome : Type := NotSubmitted | UpstreamUnknown | TerminalReceived.
#[export] Instance UpstreamOutcome_eq_dec : EqDecision UpstreamOutcome.
Proof. solve_decision. Defined.

Inductive ProviderEvent : Type :=
| PSessionClosed (reason : string)
| PResponseStarted (response_id : string)
| PResponseStatus (response_id status : string)
| POutputItemStarted (response_id : string) (output_index : Z) (item : OutputItem)
| POutputItemUpdated (response_id item_id : string) (output_index : Z)
    (content_index summary_index : option Z) (kind : DeltaKind) (delta : string)
| POutputItemFinished (response_id : string) (output_index : Z) (item : OutputItem)
| PResponseFinished (response : ModelResponse)
| PRequestFailed (code message : string) (upstream_outcome : UpstreamOutcome)
| PProviderExtension (event_type : string) (payload : Value).

Record EventEnvelope : Type := {
  env_schema_version : Z;
  env_sequence : Z;
  env_event_id : string;
  env_session_id : string;
  env_request_id : option string;
  env_provider : string;
  env_provider_sequence : option Z;
  env_event : ProviderEvent
}.

(** ** Lemmas *)

(** What every item of a validated input satisfies. *)
Definition item_ok (i : InputItem) : Prop :=
  match i with
  | User text => trim_is_empty text = false
  | ToolResult id _ => str_is_empty id = false /\ len id <= 512
  end.

Lemma validate_items_Forall input : validate_items input = Ok tt <-> Forall item_ok input.
Proof.
  induction input as [|[t|id out] rest IH]; simpl.
  - by split.
  - destruct (trim_is_empty t) eqn:E.
    + split; [done|]. intros F. inv F. simpl in *. congruence.
    + rewrite IH. split; [by constructor | by intros F; inv F].
  - destruct (str_is_empty id) eqn:E1; simpl.
    { split; [done|]. intros F. inv F. simpl in *. naive_solver congruence. }
    destruct (Z.ltb_spec 512 (len id)).
    { split; [done|]. intros F. inv F. simpl in *. lia. }
    rewrite IH. split; [by constructor | by intros F; inv F].
Qed.

Lemma validate_tools_spec seen ts :
  validate_tools seen ts = Ok tt <->
  Forall (fun t => validate_definition t = Ok tt) ts /\
  NoDup (td_name <$> ts) /\ Forall (fun t => td_name t ∉ seen) ts.
Proof.
  revert seen. induction ts as [|t ts IH]; intros seen; cbn [validate_tools]; rewrite ?fmap_cons.
  - split; [|done]. intros _. repeat split; constructor.
  - destruct (validate_definition t) as [[]|e] eqn:E.
    2:{ split; [done|]. intros (F & _). inv F. congruence. }
    rewrite NoDup_cons, !Forall_cons, E.
    destruct (decide (td_name t ∈ seen)) as [Hin|Hin].
    { rewrite bool_decide_eq_true_2 by done. split; [done|]. intros (_ & _ & ? & _). done. }
    rewrite bool_decide_eq_false_2, IH by done.
    rewrite !Forall_forall. split.
    + intros (Hv & Hnd & Hs). repeat split; try done.
      * intros (u & Hu & Hin')%list_elem_of_fmap_1. specialize (Hs u Hin'). set_solver.
      * intros u Hu. specialize (Hs u Hu). set_solver.
    + intros ([_ Hv] & [Hn Hnd] & [_ Hs]). repeat split; try done.
      intros u Hu [E'%elem_of_singleton|?]%elem_of_union; [|by apply (Hs u)].
      apply Hn. rewrite <- E'. by apply list_elem_of_fmap_2.
Qed.
