(* ===== verification/Tools.v ===== *)
(** * The tool registry and its executor (src/src/tools.rs)

    A [ToolRegistry] holds the registered tools and the results cached in its
    scope.  [preflight] checks a whole response before anything runs;
    [execute_next_observed] runs one call of the checked batch.  What the
    executor asks of its surroundings (the stop check, the observer, the tool
    itself) is the class [ToolHost], which the run controller and the plain
    [execute_response] implement differently. *)
From S2P Require Import Prelude Json Errors Provider.

(** A registered [dyn Tool]: its definition and its local validation.  Its
    asynchronous [execute] belongs to the host ([th_execute]). *)
Record Tool : Type := {
  definition : ToolDefinition;
  validate : Value -> result unit GatewayError
}.

Inductive ToolExecutionEvent : Type :=
| ToolExecutionStarted (call_id tool_name : string)
| ToolExecutionFinished (call_id tool_name : string) (is_error : bool)
| ToolResultReused (call_id tool_name : string).

Record CachedResult : Type := {
  cached_name : string;
  cached_arguments : Value;
  cached_output : string
}.

Record ToolRegistry : Type := {
  registered : gmap string Tool;
  results : gmap string CachedResult
}.

Definition new_registry : ToolRegistry := {| registered := ∅; results := ∅ |}.

(** [ToolRegistry::fresh_scope]. *)
Definition fresh_scope (r : ToolRegistry) : ToolRegistry :=
  {| registered := registered r; results := ∅ |}.

(** [ToolRegistry::register]. *)
Definition register (r : ToolRegistry) (t : Tool) : result ToolRegistry GatewayError :=
  check? validate_definition (definition t) in
  if is_some (registered r !! td_name (definition t))
  then Err (InvalidRequest "duplicate tool registration")
  else Ok {| registered := <[td_name (definition t) := t]> (registered r); results := results r |}.

(** Insertion sort by name, the order of [sort_by(|a, b| a.name.cmp(&b.name))];
    byte order is the order of [str]. *)
Fixpoint insert_definition (d : ToolDefinition) (l : list ToolDefinition) : list ToolDefinition :=
  match l with
  | [] => [d]
  | e :: rest => if String.leb (td_name d) (td_name e) then d :: l else e :: insert_definition d rest
  end.

(** [ToolRegistry::definitions]. *)
Definition definitions (r : ToolRegistry) : list ToolDefinition :=
  foldr insert_definition [] ((fun kt => definition kt.2) <$> map_to_list (registered r)).

(** ** Preflight *)
Record PreparedCall : Type := {
  pc_call : FunctionCall;
  pc_arguments : Value;
  pc_tool : Tool
}.

Definition MAX_CALL_BYTES : Z := 64 * 1024.

Section preflight.
Context `{SerdeJson}.

(** One [FunctionCall] item of the loop of [preflight]; [ids] are the call ids
    already seen in this response. *)
Definition preflight_call (r : ToolRegistry) (ids : gset string) (item : OutputItem)
  : result PreparedCall GatewayError :=
  let? call := ok_or (function_call item) UnsupportedOutput in
  if negb (complete call)
     || negb (bool_decide (origin call = Direct))
     || is_some (namespace call)
     || is_some_and (get (native item) "namespace") (fun v => negb (is_null v))
  then Err UnsupportedOutput
  else if str_is_empty (call_id call) || (512 <? len (call_id call))
          || bool_decide (call_id call ∈ ids)
  then Err (Protocol "empty, oversized, or duplicate tool call identity")
  else if MAX_CALL_BYTES <? len (arguments call) then Err InvalidToolArguments
  else
    let? args := ok_or (from_str (arguments call)) InvalidToolArguments in
    if negb (is_object args) then Err InvalidToolArguments
    else
      let? tool := ok_or (registered r !! name call) UnknownTool in
      check? validate tool args in
      if is_some_and (results r !! call_id call)
           (fun saved => negb (bool_decide (cached_name saved = name call))
                         || negb (value_eqb (cached_arguments saved) args))
      then Err (Protocol "call identity reused with different arguments")
      else Ok {| pc_call := call; pc_arguments := args; pc_tool := tool |}.

Fixpoint preflight_items (r : ToolRegistry) (ids : gset string) (items : list OutputItem)
  : result (list PreparedCall) GatewayError :=
  match items with
  | [] => Ok []
  | item :: rest =>
      match kind item with
      | KMessage | KReasoning => preflight_items r ids rest
      | KFunctionCall =>
          let? pc := preflight_call r ids item in
          let? pcs := preflight_items r ({[call_id (pc_call pc)]} ∪ ids) rest in
          Ok (pc :: pcs)
      | _ => Err UnsupportedOutput
      end
  end.

(** [ToolRegistry::preflight]. *)
Definition preflight (r : ToolRegistry) (response : ModelResponse)
  : result (list PreparedCall) GatewayError :=
  if negb (bool_decide (outcome response = RCompleted)) then Err NotCompleted
  else
    let? calls := preflight_items r ∅ (output response) in
    if MAX_INPUT_ITEMS <? Z.of_nat (length calls)
    then Err (InvalidRequest "tool results exceed input item capacity")
    else Ok calls.
End preflight.

(** ** Execution *)

(** What the executor needs of its host: the [checkpoint] closure, the
    [ToolObserver], the race of the stop future against [tool.execute], and
    [E: From<GatewayError>]. *)
Class ToolHost (S E : Type) := {
  th_checkpoint : SM S E unit;
  th_event : ToolExecutionEvent -> SM S E unit;
  th_result : string -> string -> bool -> SM S E unit;
  th_execute : Tool -> Value -> SM S E (result Value GatewayError);
  th_from : GatewayError -> E
}.

(** [json!({"error":{"code":code}})]. *)
Definition error_value (c : string) : Value :=
  VObject [("error", VObject [("code", VString c)])].

(** The text [{"error":{"code":"tool_output_limit"}}]. *)
Definition quoted (s : string) : string :=
  let q := String (ascii_of_nat 34) EmptyString in (q +:+ s +:+ q)%string.
Definition tool_output_limit : string :=
  ("{" +:+ quoted "error" +:+ ":{" +:+ quoted "code" +:+ ":" +:+ quoted "tool_output_limit" +:+ "}}")%string.

Definition cache (id : string) (c : CachedResult) (r : ToolRegistry) : ToolRegistry :=
  {| registered := registered r; results := <[id := c]> (results r) |}.

Section execution.
Context {S E : Type} `{ToolHost S E} `{SerdeJson}.

(** Run a host action beside the registry. *)
Definition host {R A} (c : SM S E A) : SM (R * S) E A :=
  fun rs => let '(a, s) := c (snd rs) in (a, (fst rs, s)).

Definition on_registry {R} (f : R -> R) : SM (R * S) E unit := modify (fun rs => (f (fst rs), snd rs)).

(** The output and error flag a finished execution records. *)
Definition settle (executed : result Value GatewayError) : result (string * bool) GatewayError :=
  let '(value, is_error) :=
    match executed with
    | Ok value => (value, false)
    | Err error => (error_value (code error), true)
    end in
  let? output := ok_or (to_string value) Serialization in
  Ok (if MAX_CALL_BYTES <? len output then (tool_output_limit, true) else (output, is_error)).

(** The async block of [execute_next_observed], for one call of the batch. *)
Definition run_call (pc : PreparedCall) : SM (ToolRegistry * S) E InputItem :=
  let id := call_id (pc_call pc) in
  let tool_name := name (pc_call pc) in
  do! host th_checkpoint in
  let! saved := gets (fun rs => results (fst rs) !! id) in
  match saved with
  | Some saved =>
      do! host (th_event (ToolResultReused id tool_name)) in
      ret (ToolResult id (cached_output saved))
  | None =>
      do! host (th_event (ToolExecutionStarted id tool_name)) in
      do! host th_checkpoint in
      let! executed := host (th_execute (pc_tool pc) (pc_arguments pc)) in
      let! settled := lift (map_err (settle executed) th_from) in
      let output := fst settled in
      let is_error := snd settled in
      do! on_registry (cache id {| cached_name := tool_name;
                                   cached_arguments := pc_arguments pc;
                                   cached_output := output |}) in
      do! host (th_result id output is_error) in
      do! host (th_event (ToolExecutionFinished id tool_name is_error)) in
      ret (ToolResult id output)
  end.

(** The prepared batch: the registry it borrows and the calls still to run. *)
Record PreparedBatch : Type := { registry : ToolRegistry; calls : list PreparedCall }.

(** [PreparedBatch::execute_next_observed]: an error discards the rest. *)
Definition execute_next_observed : SM (PreparedBatch * S) E (option InputItem) :=
  fun bs =>
    match calls (fst bs) with
    | [] => (Ok None, bs)
    | pc :: rest =>
        match run_call pc (registry (fst bs), snd bs) with
        | (Ok item, (r, s)) => (Ok (Some item), ({| registry := r; calls := rest |}, s))
        | (Err e, (r, s)) => (Err e, ({| registry := r; calls := [] |}, s))
        end
    end.

(** [while let Some(result) = batch.execute_next..? { body(result); push }].
    One unit of fuel per iteration; a batch of [n] calls needs [n + 1]. *)
Fixpoint drain_batch (fuel : nat) (body : InputItem -> SM S E unit)
  : SM (PreparedBatch * S) E (option (list InputItem)) :=
  match fuel with
  | O => ret None
  | Datatypes.S fuel =>
      let! next := execute_next_observed in
      match next with
      | None => ret (Some [])
      | Some item =>
          do! host (body item) in
          let! rest := drain_batch fuel body in
          ret (cons item <$> rest)
      end
  end.

Definition execute_batch (body : InputItem -> SM S E unit) (cs : list PreparedCall)
  : SM (ToolRegistry * S) E (option (list InputItem)) :=
  fun rs =>
    let '(out, (b, s)) :=
      drain_batch (Datatypes.S (length cs)) body ({| registry := fst rs; calls := cs |}, snd rs) in
    (out, (registry b, s)).
End execution.

(** ** [execute_response]: no stop, a plain [emit] callback *)
Section execute_response.
Context `{SerdeJson}.
Context {W : Type}.
Variable emit : ToolExecutionEvent -> W -> W.
Variable execute : Tool -> Value -> W -> result Value GatewayError * W.

(** The host of [execute_response]: [|| Ok(())], [pending()], an infallible
    observer that ignores results. *)
Definition plain_host : ToolHost W GatewayError := {|
  th_checkpoint := ret tt;
  th_event e := modify (emit e);
  th_result _ _ _ := ret tt;
  th_execute t v := fun w => let '(r, w') := execute t v w in (Ok r, w');
  th_from e := e
|}.

Definition execute_response (response : ModelResponse)
  : SM (ToolRegistry * W) GatewayError (option (list InputItem)) :=
  fun rs =>
    match preflight (fst rs) response with
    | Err e => (Err e, rs)
    | Ok cs => @execute_batch W GatewayError plain_host _ (fun _ => ret tt) cs rs
    end.
End execute_response.

(** ** The [add_numbers] tool *)
Record AddArguments : Type := { add_a : Z; add_b : Z }.

(** The derived deserializer with [deny_unknown_fields]: an object with exactly
    the two fields, or the two-element sequence form serde also accepts. *)
Definition add_arguments (v : Value) : option AddArguments :=
  match v with
  | VObject fields =>
      if forallb (fun kv => bool_decide (kv.1 = "a") || bool_decide (kv.1 = "b")) fields
      then match assoc "a" fields, assoc "b" fields with
           | Some a, Some b =>
               match i64_of_value a, i64_of_value b with
               | Some a, Some b => Some {| add_a := a; add_b := b |}
               | _, _ => None
               end
           | _, _ => None
           end
      else None
  | VArray [a; b] =>
      match i64_of_value a, i64_of_value b with
      | Some a, Some b => Some {| add_a := a; add_b := b |}
      | _, _ => None
      end
  | _ => None
  end.

Definition add_numbers_definition : ToolDefinition :=
  let integer := VObject [("type", VString "integer")] in {|
  td_name := "add_numbers";
  td_description := "Add two signed 64-bit integers; no file, process, or network access.";
  td_parameters := VObject [
    ("additionalProperties", VBool false);
    ("properties", VObject [("a", integer); ("b", integer)]);
    ("required", VArray [VString "a"; VString "b"]);
    ("type", VString "object")];
  td_strict := true
|}.

Definition add_numbers_validate (v : Value) : result unit GatewayError :=
  check? ok_or (add_arguments v) InvalidToolArguments in Ok tt.

Definition add_numbers : Tool :=
  {| definition := add_numbers_definition; validate := add_numbers_validate |}.

(** [json!(sum)] of an [i64]. *)
Definition number_of_i64 (z : Z) : Number := if z <? 0 then NegInt z else PosInt z.

Definition add_numbers_execute (v : Value) : result Value GatewayError :=
  let? args := ok_or (add_arguments v) InvalidToolArguments in
  let? sum := ok_or (checked_add_i64 (add_a args) (add_b args)) ToolFailed in
  Ok (VObject [("sum", VNumber (number_of_i64 sum))]).

(** ** Properties of preflight *)

Section preflight_facts.
Context `{SerdeJson}.

(** What a call must satisfy before any call of its response may run. *)
Definition call_ready (r : ToolRegistry) (item : OutputItem) (pc : PreparedCall) : Prop :=
  let call := pc_call pc in
  function_call item = Some call /\
  complete call = true /\ origin call = Direct /\ namespace call = None /\
  is_some_and (get (native item) "namespace") (fun v => negb (is_null v)) = false /\
  str_is_empty (call_id call) = false /\ len (call_id call) <= 512 /\
  len (arguments call) <= MAX_CALL_BYTES /\
  from_str (arguments call) = Some (pc_arguments pc) /\ is_object (pc_arguments pc) = true /\
  registered r !! name call = Some (pc_tool pc) /\
  validate (pc_tool pc) (pc_arguments pc) = Ok tt /\
  (forall saved, results r !! call_id call = Some saved ->
     cached_name saved = name call /\ value_eqb (cached_arguments saved) (pc_arguments pc) = true).

Lemma preflight_call_spec r ids item pc :
  preflight_call r ids item = Ok pc <->
  call_ready r item pc /\ call_id (pc_call pc) ∉ ids.
Proof.
  unfold preflight_call, call_ready. destruct pc as [call args tool]; simpl. split.
  - intros Hp. step_in Hp. simp_checks. simpl in *. repeat split; try done.
    all: match goal with Hs : _ !! _ = Some ?saved |- _ => rewrite Hs in * end.
    all: simpl in *; prop_bools; done.
  - intros ((Hf & Hc & Ho & Hn & Hnn & He & Hl & Ha & Hj & Hobj & Ht & Hv & Hs) & Hid).
    rewrite Hf. simpl. rewrite Hc, Ho, Hn, Hnn, He. simpl.
    rewrite (proj2 (Z.ltb_ge 512 _) Hl), (bool_decide_eq_false_2 _ Hid). simpl.
    rewrite (proj2 (Z.ltb_ge MAX_CALL_BYTES _) Ha), Hj. simpl. rewrite Hobj, Ht. simpl. rewrite Hv.
    destruct (results r !! call_id call) as [saved|]; simpl; [|done].
    destruct (Hs saved eq_refl) as [-> ->]. by rewrite bool_decide_eq_true_2.
Qed.

(** The executable items of a response. *)
Definition call_items (items : list OutputItem) : list OutputItem :=
  filter (fun item => kind item = KFunctionCall) items.

Definition supported_kind (item : OutputItem) : Prop :=
  kind item = KMessage \/ kind item = KReasoning \/ kind item = KFunctionCall.

Lemma preflight_items_spec r ids items pcs :
  preflight_items r ids items = Ok pcs <->
  Forall supported_kind items /\ Forall2 (call_ready r) (call_items items) pcs /\
  NoDup ((call_id ∘ pc_call) <$> pcs) /\
  Forall (fun pc => call_id (pc_call pc) ∉ ids) pcs.
Proof.
  revert ids pcs. induction items as [|item items IH]; intros ids pcs; cbn [preflight_items].
  - split.
    + intros [= <-]. repeat split; constructor.
    + intros (_ & F & _). by inv F.
  - unfold call_items. rewrite filter_cons, Forall_cons. fold (call_items items).
    unfold supported_kind at 1.
    destruct (kind item) eqn:Hk; rewrite ?IH;
      try (rewrite decide_False by done; split; [done|intros [[[?|[?|?]] _] _]; discriminate]);
      try (rewrite decide_False by done; split; naive_solver).
    rewrite decide_True by done.
    destruct (preflight_call r ids item) as [pc|e] eqn:Hc.
    2:{ split; [done|]. intros (_ & F & _ & Hid).
        destruct pcs as [|y pcs]; [by apply Forall2_cons_nil_inv in F|].
        apply Forall2_cons in F as [Hy _]. apply Forall_cons in Hid as [Hid _].
        assert (preflight_call r ids item = Ok y) by by apply preflight_call_spec. congruence. }
    apply preflight_call_spec in Hc as [Hready Hid]. split.
    + intros Hp. destruct (preflight_items r _ items) as [pcs'|] eqn:Hi; [|done].
      injection Hp as <-. apply IH in Hi as (Hk' & HF & Hnd & Hout).
      split; [naive_solver|]. split; [by constructor|]. rewrite fmap_cons, NoDup_cons.
      split; [split; [|done]|constructor; [done|]].
      * intros (pc' & E & Hin)%list_elem_of_fmap_1. rewrite Forall_forall in Hout.
        specialize (Hout pc' Hin). simpl in E. set_solver.
      * eapply Forall_impl; [exact Hout|]. set_solver.
    + intros ([_ Hk'] & HF & Hnd & Hout).
      destruct pcs as [|y pcs]; [by apply Forall2_cons_nil_inv in HF|].
      apply Forall2_cons in HF as [Hy HF]. apply Forall_cons in Hout as [_ Hout].
      assert (y = pc) as ->.
      { destruct Hready as (? & _ & _ & _ & _ & _ & _ & _ & ? & _ & ? & _).
        destruct Hy as (? & _ & _ & _ & _ & _ & _ & _ & ? & _ & ? & _).
        destruct y, pc. simpl in *. congruence. }
      rewrite fmap_cons, NoDup_cons in Hnd. destruct Hnd as [Hn Hnd].
      rewrite (proj2 (IH _ pcs)); [done|]. repeat split; try done.
      rewrite Forall_forall in Hout |- *. intros pc' Hin.
      specialize (Hout pc' Hin). intros [E'%elem_of_singleton|?]%elem_of_union; [|done].
      apply Hn. simpl. rewrite <- E'. by apply (list_elem_of_fmap_2 (call_id ∘ pc_call)).
Qed.

Lemma preflight_spec r response pcs :
  preflight r response = Ok pcs <->
  outcome response = RCompleted /\
  Forall supported_kind (output response) /\
  Forall2 (call_ready r) (call_items (output response)) pcs /\
  NoDup ((call_id ∘ pc_call) <$> pcs) /\
  Z.of_nat (length pcs) <= MAX_INPUT_ITEMS.
Proof.
  unfold preflight. split.
  - destruct (bool_decide_reflect (outcome response = RCompleted)) as [->|]; [simpl|done].
    intros Hp. destruct (preflight_items r ∅ (output response)) as [cs|] eqn:Hi; [|done].
    destruct (Z.ltb_spec MAX_INPUT_ITEMS (Z.of_nat (length cs))); [done|].
    injection Hp as <-. apply preflight_items_spec in Hi as (? & ? & ? & _). done.
  - intros (-> & Hk & HF & Hnd & Hlen). simpl.
    rewrite (proj2 (preflight_items_spec r ∅ (output response) pcs)).
    + by rewrite (proj2 (Z.ltb_ge _ _) Hlen).
    + repeat split; try done. apply Forall_forall. set_solver.
Qed.

(** Preflight accepts a response exactly when it is completed, every item
    is a message, reasoning or function call, every function call is ready
    (complete, direct, without namespace, bounded, with object arguments that a
    registered tool validates, and consistent with the cached result of its id),
    the call ids are distinct and the results fit one request; it then returns
    the calls in response order.  Anything else is an error, so no call of a
    response that fails the check is ever executed. *)
Lemma preflight_exact r response pcs :
  preflight r response = Ok pcs <->
  outcome response = RCompleted /\
  Forall supported_kind (output response) /\
  Forall2 (call_ready r) (call_items (output response)) pcs /\
  NoDup ((call_id ∘ pc_call) <$> pcs) /\
  Z.of_nat (length pcs) <= MAX_INPUT_ITEMS.
Proof. apply preflight_spec. Qed.
End preflight_facts.

(** ** Properties of execution, for every host *)

Section execution_facts.
Context {S E : Type} `{ToolHost S E} `{SerdeJson}.

(** The registrations stay, and a recorded result is never replaced. *)
Definition registry_grows (r r' : ToolRegistry) : Prop :=
  registered r' = registered r /\ results r ⊆ results r'.

#[local] Instance registry_grows_preorder : PreOrder registry_grows.
Proof.
  split.
  - intros r. by split.
  - intros r1 r2 r3 [E1 S1] [E2 S2]. split; [by rewrite E2|]. by etrans.
Qed.

Lemma cache_grows id c r : results r !! id = None -> registry_grows r (cache id c r).
Proof. intros Hn. split; [done|]. simpl. by apply insert_subseteq. Qed.

(** Every cached output fits the result boundary. *)
Definition outputs_bounded (r : ToolRegistry) : Prop :=
  map_Forall (fun _ c => len (cached_output c) <= MAX_CALL_BYTES) (results r).

Lemma settle_bounded x o b : settle x = Ok (o, b) -> len o <= MAX_CALL_BYTES.
Proof.
  intros Hs. unfold settle in Hs.
  destruct (match x with Ok v => _ | Err e => _ end) as [v e].
  destruct (to_string v) as [out|]; [|done]. simpl in Hs.
  destruct (Z.ltb_spec MAX_CALL_BYTES (len out)); injection Hs as <- <-; [by vm_compute | done].
Qed.

(** One call, whatever its outcome: the cache only grows and stays bounded. *)
Lemma run_call_registry pc r s res r' s' :
  run_call pc (r, s) = (res, (r', s')) ->
  registry_grows r r' /\ (outputs_bounded r -> outputs_bounded r').
Proof.
  unfold run_call, host, on_registry, gets, modify, lift, ret, bind. cbn [fst snd].
  cbn [fst snd]; destruct (th_checkpoint s) as [[[]|e] s1]; [|intros [= <- <- <-]; done].
  cbn [fst snd]; destruct (results r !! call_id (pc_call pc)) as [saved|] eqn:Hr; cbn [fst snd].
  { destruct (th_event _ s1) as [[]]; intros [= <- <- <-]; done. }
  cbn [fst snd]; destruct (th_event _ s1) as [[[]|e] s2]; [|intros [= <- <- <-]; done].
  cbn [fst snd]; destruct (th_checkpoint s2) as [[[]|e] s3]; [|intros [= <- <- <-]; done].
  cbn [fst snd]; destruct (th_execute _ _ s3) as [[x|e] s4]; [|intros [= <- <- <-]; done].
  cbn [fst snd]; destruct (settle x) as [[o b]|e] eqn:Hx; cbn [map_err]; [|intros [= <- <- <-]; done].
  assert (forall c, cached_output c = o ->
    registry_grows r (cache (call_id (pc_call pc)) c r) /\
    (outputs_bounded r -> outputs_bounded (cache (call_id (pc_call pc)) c r))) as Hcache.
  { intros c Hc. split; [by apply cache_grows|]. intros Hb.
    apply map_Forall_insert_2; [rewrite Hc; by eapply settle_bounded | done]. }
  cbn [fst snd]; destruct (th_result _ _ _ s4) as [[[]|e] s5]; [|intros [= <- <- <-]; by apply Hcache].
  cbn [fst snd]; destruct (th_event _ s5) as [[[]|e] s6]; intros [= <- <- <-]; by apply Hcache.
Qed.

(** The result a successful call returns is the one recorded under its id. *)
Definition recorded_result (r : ToolRegistry) (pc : PreparedCall) (item : InputItem) : Prop :=
  exists c, results r !! call_id (pc_call pc) = Some c /\
            item = ToolResult (call_id (pc_call pc)) (cached_output c).

Lemma recorded_result_grows r r' pc item :
  registry_grows r r' -> recorded_result r pc item -> recorded_result r' pc item.
Proof. intros [_ Hs] (c & Hc & ->). exists c. split; [|done]. by eapply lookup_weaken. Qed.

Lemma run_call_result pc r s item r' s' :
  run_call pc (r, s) = (Ok item, (r', s')) -> recorded_result r' pc item.
Proof.
  unfold run_call, host, on_registry, gets, modify, lift, ret, bind. cbn [fst snd].
  cbn [fst snd]; destruct (th_checkpoint s) as [[[]|e] s1]; [|done].
  cbn [fst snd]; destruct (results r !! call_id (pc_call pc)) as [saved|] eqn:Hr; cbn [fst snd].
  { destruct (th_event _ s1) as [[]]; intros [= <- <- <-]. by exists saved. }
  cbn [fst snd]; destruct (th_event _ s1) as [[[]|e] s2]; [|done].
  cbn [fst snd]; destruct (th_checkpoint s2) as [[[]|e] s3]; [|done].
  cbn [fst snd]; destruct (th_execute _ _ s3) as [[x|e] s4]; [|done].
  cbn [fst snd]; destruct (settle x) as [[o b]|e]; cbn [map_err]; [|done].
  cbn [fst snd]; destruct (th_result _ _ _ s4) as [[[]|e] s5]; [|done].
  cbn [fst snd]; destruct (th_event _ s5) as [[[]|e] s6]; [|done].
  intros [= <- <- <-]. eexists. simpl. by rewrite lookup_insert_eq.
Qed.

Lemma drain_registry fuel body b s res b' s' :
  drain_batch fuel body (b, s) = (res, (b', s')) ->
  registry_grows (registry b) (registry b') /\
  (outputs_bounded (registry b) -> outputs_bounded (registry b')).
Proof.
  revert b s res b' s'. induction fuel as [|fuel IH]; intros b s res b' s'; simpl.
  { intros [= <- <- <-]. done. }
  unfold bind at 1, execute_next_observed. simpl.
  destruct (calls b) as [|pc rest]; [by intros [= <- <- <-]|].
  destruct (run_call pc (registry b, s)) as [[item|e] [r1 s1]] eqn:Hr.
  all: apply run_call_registry in Hr as [Hg Hb].
  2:{ intros [= <- <- <-]. done. }
  unfold bind at 1, host. simpl. destruct (body item s1) as [[[]|e] s2]; [|by intros [= <- <- <-]].
  unfold bind. destruct (drain_batch fuel body _) as [[o|e] [b2 s3]] eqn:Hd.
  all: intros [= <- <- <-]; apply IH in Hd as [Hg' Hb']; simpl in *.
  all: split; [by etrans | tauto].
Qed.

Lemma drain_results fuel body b s out b' s' :
  (length (calls b) < fuel)%nat ->
  drain_batch fuel body (b, s) = (Ok out, (b', s')) ->
  exists items, out = Some items /\ Forall2 (recorded_result (registry b')) (calls b) items.
Proof.
  revert b s out b' s'. induction fuel as [|fuel IH]; intros b s out b' s' Hlen; [lia|]. simpl.
  unfold bind at 1, execute_next_observed. simpl.
  destruct (calls b) as [|pc rest]; simpl in *; [intros [= <- <- <-]; by exists []|].
  destruct (run_call pc (registry b, s)) as [[item|e] [r1 s1]] eqn:Hr; [|done].
  apply run_call_result in Hr.
  unfold bind at 1, host. simpl. destruct (body item s1) as [[[]|e] s2]; [|done].
  unfold bind. destruct (drain_batch fuel body _) as [[o|e] [b2 s3]] eqn:Hd; [|done].
  intros [= <- <- <-]. pose proof (drain_registry _ _ _ _ _ _ _ Hd) as [Hg _]. simpl in Hg.
  apply IH in Hd as (items & -> & HF); simpl in *; [|lia].
  exists (item :: items). split; [done|]. constructor; [|done]. by eapply recorded_result_grows.
Qed.

(** A batch that finishes returns exactly one result per call, in call order, under
    the call's id and with the output recorded for that id; no result recorded
    before is changed, and no registration either. *)
Lemma batch_results body cs r s out r' s' :
  execute_batch body cs (r, s) = (Ok out, (r', s')) ->
  exists items, out = Some items /\
    Forall2 (recorded_result r') cs items /\ registry_grows r r'.
Proof.
  unfold execute_batch. cbn [fst snd].
  destruct (drain_batch _ body _) as [res [b s1]] eqn:Hd. intros [= -> <- <-].
  pose proof (drain_registry _ _ _ _ _ _ _ Hd) as [Hg _].
  apply drain_results in Hd as (items & -> & HF); [|simpl; lia]. eauto.
Qed.

Lemma execute_batch_bounded body cs r s res r' s' :
  execute_batch body cs (r, s) = (res, (r', s')) ->
  outputs_bounded r -> outputs_bounded r'.
Proof.
  unfold execute_batch. cbn [fst snd].
  destruct (drain_batch _ body _) as [o [b s1]] eqn:Hd. intros [= -> <- <-].
  by apply drain_registry in Hd as [_ Hb].
Qed.

(** The results of a preflighted batch are acceptable as the next input:
    every item passes the per-item checks of [validate_input] and every output
    is at most 64 KiB, so only the empty batch or the total size can still make
    [validate_input] reject them. *)
Lemma batch_results_valid `{ProviderSerde} response body cs r s items r' s' :
  preflight r response = Ok cs ->
  outputs_bounded r ->
  execute_batch body cs (r, s) = (Ok (Some items), (r', s')) ->
  validate_items items = Ok tt /\
  Z.of_nat (length items) <= MAX_INPUT_ITEMS /\
  Forall (fun i => match i with ToolResult _ o => len o <= MAX_CALL_BYTES | User _ => False end) items.
Proof.
  intros (_ & _ & Hready & _ & Hlen)%preflight_spec Hb Hx.
  pose proof (execute_batch_bounded _ _ _ _ _ _ _ Hx Hb) as Hb'.
  apply batch_results in Hx as (items' & [= <-] & HF & _).
  assert (Forall (fun pc => str_is_empty (call_id (pc_call pc)) = false /\
                            len (call_id (pc_call pc)) <= 512) cs) as Hids.
  { eapply Forall2_Forall_r; [exact Hready|]. apply Forall_true. intros item pc R.
    destruct R as (_ & _ & _ & _ & _ & ? & ? & _). done. }
  rewrite validate_items_Forall, <- (Forall2_length _ _ _ HF). split; [|split; [done|]].
  - eapply Forall2_Forall_r; [exact HF|]. eapply Forall_impl; [exact Hids|].
    intros pc Hpc item (c & _ & ->). exact Hpc.
  - eapply Forall2_Forall_r; [exact HF|]. apply Forall_true.
    intros pc item (c & Hc & ->). exact (Hb' _ _ Hc).
Qed.
End execution_facts.

(** ** The registry *)

(** Each tool is registered under the name of its definition, which is valid. *)
Definition registry_ok (r : ToolRegistry) : Prop :=
  map_Forall (fun n t => td_name (definition t) = n /\ validate_definition (definition t) = Ok tt)
    (registered r).

Lemma register_ok r t r' : registry_ok r -> register r t = Ok r' -> registry_ok r'.
Proof.
  unfold register. intros Hr Hreg. step_in Hreg. simp_checks.
  apply map_Forall_insert_2; [done | exact Hr].
Qed.

Lemma insert_definition_perm d l : insert_definition d l ≡ₚ d :: l.
Proof.
  induction l as [|e l IH]; simpl; [done|].
  destruct (String.leb _ _); [done|]. rewrite IH. constructor.
Qed.

Lemma sort_definitions_perm l : foldr insert_definition [] l ≡ₚ l.
Proof. induction l as [|d l IH]; simpl; [done|]. by rewrite insert_definition_perm, IH. Qed.

(** Registering in order, as every caller builds its registry. *)
Fixpoint register_all (r : ToolRegistry) (ts : list Tool) : result ToolRegistry GatewayError :=
  match ts with
  | [] => Ok r
  | t :: ts => let? r := register r t in register_all r ts
  end.

Lemma register_all_ok ts r r' : registry_ok r -> register_all r ts = Ok r' -> registry_ok r'.
Proof.
  revert r. induction ts as [|t ts IH]; simpl; intros r Hr Hreg; [by injection Hreg as <-|].
  destruct (register r t) as [r1|] eqn:E; [|done]. eapply IH; [|done]. by eapply register_ok.
Qed.

(** The definitions of a registry built by [register] are a permutation of
    the registered ones and always pass the tool loop of
    [SessionOptions::validate]: names are valid and distinct, so admission can
    reject a run's tools only for their number or total size. *)
Lemma registered_definitions_valid ts r :
  register_all new_registry ts = Ok r ->
  validate_tools ∅ (definitions r) = Ok tt /\
  definitions r ≡ₚ (fun kt => definition kt.2) <$> map_to_list (registered r).
Proof.
  intros Hreg. assert (registry_ok r) as Hok.
  { eapply register_all_ok; [|done]. apply map_Forall_empty. }
  assert (definitions r ≡ₚ (fun kt => definition kt.2) <$> map_to_list (registered r)) as Hp
    by apply sort_definitions_perm.
  split; [|done]. apply validate_tools_spec. rewrite !Hp.
  assert (forall k t, (k, t) ∈ map_to_list (registered r) ->
    td_name (definition t) = k /\ validate_definition (definition t) = Ok tt) as Hin.
  { intros k t Hkt%elem_of_map_to_list. by apply Hok in Hkt. }
  split; [|split].
  - apply Forall_fmap, Forall_forall. intros [k t] Hkt. by apply Hin in Hkt as [_ ?].
  - rewrite <- list_fmap_compose.
    rewrite (list_fmap_ext _ fst); [apply NoDup_fst_map_to_list|].
    intros i [k t] Hkt%list_elem_of_lookup_2. by apply Hin in Hkt as [? _].
  - apply Forall_fmap, Forall_forall. set_solver.
Qed.

(** ** [execute_response] *)

Section plain_facts.
Context `{SerdeJson} {W : Type}.
Variable emit : ToolExecutionEvent -> W -> W.
Variable execute : Tool -> Value -> W -> result Value GatewayError * W.
Hypothesis serializes : forall v, is_some (to_string v) = true.
#[local] Existing Instance plain_host.

Lemma settle_total x : exists ob, settle x = Ok ob.
Proof using serializes.
  unfold settle. destruct (match x with Ok v => _ | Err e => _ end) as [v e].
  pose proof (serializes v) as Hv. destruct (to_string v); [simpl; eauto | done].
Qed.

Lemma plain_call_total pc r w :
  exists item r' w', run_call (H := plain_host emit execute) pc (r, w) = (Ok item, (r', w')).
Proof using serializes.
  unfold run_call, host, bind, gets, lift, on_registry, modify, ret. simpl.
  destruct (results r !! call_id (pc_call pc)); simpl; [eauto|].
  destruct (execute (pc_tool pc) (pc_arguments pc) _) as [x w2]. simpl.
  destruct (settle_total x) as [ob ->]. simpl. eauto.
Qed.

Lemma plain_drain_total fuel body b w :
  (forall i w1, body i w1 = (Ok tt, w1)) ->
  (length (calls b) < fuel)%nat ->
  exists items b' w', drain_batch (H := plain_host emit execute) fuel body (b, w)
                      = (Ok items, (b', w')).
Proof using serializes.
  intros Hbody. revert b w. induction fuel as [|fuel IH]; intros b w Hlen; [lia|]. simpl.
  unfold bind at 1, execute_next_observed. cbn [fst snd].
  destruct (calls b) as [|pc rest]; simpl in *; [eauto|].
  destruct (plain_call_total pc (registry b) w) as (item & r2 & w2 & ->).
  unfold bind, host, ret. cbn [fst snd]. rewrite Hbody.
  destruct (IH {| registry := r2; calls := rest |} w2) as (items & b' & w3 & ->); [simpl; lia|].
  eauto.
Qed.

(** [execute_response] always returns: with a serializer that succeeds, a
    response that fails preflight is an error that changes neither the registry
    nor the world, and every other response yields one result per call. *)
Lemma execute_response_total response r w :
  match preflight r response with
  | Err e => execute_response emit execute response (r, w) = (Err e, (r, w))
  | Ok cs => exists items r' w',
      execute_response emit execute response (r, w) = (Ok (Some items), (r', w')) /\
      Forall2 (recorded_result r') cs items
  end.
Proof using serializes.
  unfold execute_response. cbn [fst].
  destruct (preflight r response) as [cs|e]; [|done].
  destruct (plain_drain_total (S (length cs)) (fun _ => ret tt) {| registry := r; calls := cs |} w)
    as (items & b' & w2 & Hd); [done | simpl; lia |].
  destruct (execute_batch (H := plain_host emit execute) (fun _ => ret tt) cs (r, w))
    as [out [r' w']] eqn:Hx.
  assert (out = Ok items) as ->.
  { unfold execute_batch in Hx. cbn [fst snd] in Hx. rewrite Hd in Hx. by injection Hx as <- _ _. }
  destruct (batch_results _ _ _ _ _ _ _ Hx) as (items' & -> & HF & _). eauto 10.
Qed.
End plain_facts.

(** ** [add_numbers] *)

(** [add_numbers] adds in 64-bit signed arithmetic without wrapping: on
    arguments its validation accepts it returns the exact sum when that fits an
    [i64], which deserializes back to it, and [ToolFailed] otherwise. *)
Lemma add_numbers_exact v :
  add_numbers_validate v = Ok tt ->
  exists a b, add_arguments v = Some {| add_a := a; add_b := b |} /\
    add_numbers_execute v =
      (if in_i64 (a + b) then Ok (VObject [("sum", VNumber (number_of_i64 (a + b)))])
       else Err ToolFailed) /\
    (in_i64 (a + b) = true -> i64_of_value (VNumber (number_of_i64 (a + b))) = Some (a + b)).
Proof.
  unfold add_numbers_validate, add_numbers_execute.
  destruct (add_arguments v) as [[a b]|]; [|done]. intros _. exists a, b. simpl.
  split; [done|]. unfold checked_add_i64. split; [by destruct (in_i64 (a + b))|].
  intros [_ Hhi]%in_i64_spec. unfold number_of_i64.
  destruct (Z.ltb_spec (a + b) 0); simpl; [done|].
  by rewrite (proj2 (Z.leb_le _ _) Hhi).
Qed.

(** ** Witnesses *)

(** A codec on the texts the examples use. *)
Definition example_json : SerdeJson := {|
  from_str s :=
    if bool_decide (s = "{a:2,b:3}")
    then Some (VObject [("a", VNumber (PosInt 2)); ("b", VNumber (PosInt 3))]) else None;
  to_string v :=
    match get v "sum" with Some (VNumber (PosInt n)) => Some (decimal n) | _ => Some "null" end
|}.

Definition example_call (id : string) : OutputItem := {|
  item_id := None; kind := KFunctionCall; native_type := "function_call";
  function_call := Some {| call_id := id; name := "add_numbers"; arguments := "{a:2,b:3}";
                           origin := Direct; namespace := None; complete := true |};
  native := VObject []
|}.

Definition example_response (items : list OutputItem) : ModelResponse := {|
  output_provenance := NativeTerminal; response_id := "resp-1"; response_model := None;
  outcome := RCompleted; output := items; text := ""; usage := None; response_native := Null
|}.

Definition example_registry : ToolRegistry :=
  {| registered := {["add_numbers" := add_numbers]}; results := ∅ |}.

Definition example_execute (t : Tool) (v : Value) (w : list ToolExecutionEvent)
  : result Value GatewayError * list ToolExecutionEvent := (add_numbers_execute v, w).

Definition example_serde : ProviderSerde :=
  {| options_json_len _ := Some 10; input_json_len _ := Some 10 |}.

Definition example_items : list InputItem := [ToolResult "call-1" "5"].

Definition example_calls : list PreparedCall :=
  match preflight (H := example_json) example_registry (example_response [example_call "call-1"])
  with Ok cs => cs | Err _ => [] end.

Definition example_run
  : result (option (list InputItem)) GatewayError * (ToolRegistry * list ToolExecutionEvent) :=
  execute_batch (H := plain_host cons example_execute) (H0 := example_json)
    (fun _ => ret tt) example_calls (example_registry, []).

Lemma batch_results_valid_witness : validate_items example_items = Ok tt.
Proof.
  refine (proj1 (@batch_results_valid (list ToolExecutionEvent) GatewayError
    (plain_host cons example_execute) example_json example_serde
    (example_response [example_call "call-1"]) (fun _ => ret tt) example_calls
    example_registry [] example_items (fst (snd example_run)) (snd (snd example_run)) _ _ _)).
  - reflexivity.
  - apply map_Forall_empty.
  - apply run_eta. vm_compute. reflexivity.
Defined.

Lemma registered_definitions_valid_witness :
  validate_tools ∅ (definitions example_registry) = Ok tt.
Proof.
  refine (proj1 (registered_definitions_valid [add_numbers] example_registry _)). reflexivity.
Defined.

Lemma execute_response_total_witness :
  exists items r' w',
    execute_response (H := example_json) (W := list ToolExecutionEvent) cons example_execute
      (example_response [example_call "call-1"; example_call "call-2"]) (example_registry, [])
    = (Ok (Some items), (r', w')).
Proof.
  destruct (@execute_response_total example_json (list ToolExecutionEvent) cons example_execute
    ltac:(intros v; simpl; destruct (get v "sum") as [[| |[]| | |]|]; reflexivity)
    (example_response [example_call "call-1"; example_call "call-2"]) example_registry [])
    as (items & r' & w' & E & _).
  exists items, r', w'. exact E.
Defined.

Lemma add_numbers_exact_witness :
  exists a b,
    add_arguments (VArray [VNumber (PosInt i64_max); VNumber (PosInt 1)])
      = Some {| add_a := a; add_b := b |} /\
    add_numbers_execute (VArray [VNumber (PosInt i64_max); VNumber (PosInt 1)])
      = (if in_i64 (a + b) then Ok (VObject [("sum", VNumber (number_of_i64 (a + b)))])
         else Err ToolFailed).
Proof.
  destruct (add_numbers_exact (VArray [VNumber (PosInt i64_max); VNumber (PosInt 1)]) eq_refl)
    as (a & b & E1 & E2 & _).
  exists a, b. split; [exact E1 | exact E2].
Defined.
