(* ===== verification/Replay.v ===== *)
(** * Stored conversations for provider replay (src/src/provider/replay.rs)

    The validated values a provider is given to restore an old conversation:
    identities, exchanges (a completed response with the results of its calls),
    runs and the whole conversation.  Each [new] is the source's constructor,
    which is also what its deserializer calls. *)
From S2P Require Import Prelude Json Errors Provider Tools.

Record ReplayIdentity : Type := {
  ri_provider_id : string;
  ri_format : string;
  ri_principal_digest : string
}.
#[export] Instance ReplayIdentity_eq_dec : EqDecision ReplayIdentity.
Proof. solve_decision. Defined.

(** [valid_digest]: 64 lowercase hexadecimal digits. *)
Definition valid_digest (value : string) : bool :=
  (len value =? 64) && bytes_all (fun b => is_ascii_digit b || byte_in 97 102 b) value.

(** [ReplayIdentity::new]. *)
Definition new_identity (provider_id format principal_digest : string)
  : result ReplayIdentity GatewayError :=
  if trim_is_empty provider_id || trim_is_empty format || negb (valid_digest principal_digest)
  then Err (InvalidRequest "invalid replay identity")
  else Ok {| ri_provider_id := provider_id; ri_format := format;
             ri_principal_digest := principal_digest |}.

Definition invalid_replay : GatewayError := InvalidRequest "invalid conversation replay".

(** [validate_response]: only completed ordinary calls. *)
Section validate_response.
Context `{SerdeJson}.

Definition replay_call_ok (ids : gset string) (item : OutputItem) (call : FunctionCall) : bool :=
  negb (negb (complete call)
        || negb (bool_decide (origin call = Direct))
        || is_some (namespace call)
        || is_some_and (get (native item) "namespace") (fun v => negb (is_null v))
        || str_is_empty (call_id call)
        || (512 <? len (call_id call))
        || str_is_empty (name call)
        || bool_decide (call_id call ∈ ids)
        || (64 * 1024 <? len (arguments call))
        || negb (is_some_and (from_str (arguments call)) is_object)).

Fixpoint validate_output (ids : gset string) (items : list OutputItem) : result unit GatewayError :=
  match items with
  | [] => Ok tt
  | item :: rest =>
      match kind item with
      | KMessage | KReasoning =>
          if is_none (function_call item) then validate_output ids rest else Err invalid_replay
      | KFunctionCall =>
          let? call := ok_or (function_call item) invalid_replay in
          if replay_call_ok ids item call
          then validate_output ({[call_id call]} ∪ ids) rest else Err invalid_replay
      | _ => Err invalid_replay
      end
  end.

Definition validate_response (response : ModelResponse) : result unit GatewayError :=
  if str_is_empty (response_id response) || negb (bool_decide (outcome response = RCompleted))
  then Err invalid_replay
  else validate_output ∅ (output response).
End validate_response.

Record ReplayExchange : Type := { re_response : ModelResponse; re_tool_results : list InputItem }.

(** The calls of a response, in order. *)
Definition response_calls (response : ModelResponse) : list FunctionCall :=
  omap function_call (output response).

(** The paired iteration of [ReplayExchange::new]. *)
Fixpoint results_match (calls : list FunctionCall) (results : list InputItem) : bool :=
  match calls, results with
  | [], [] => true
  | call :: calls, ToolResult id _ :: results =>
      bool_decide (id = call_id call) && results_match calls results
  | _, _ => false
  end.

(** [ReplayExchange::new]. *)
Definition new_exchange `{SerdeJson} (response : ModelResponse) (tool_results : list InputItem)
  : result ReplayExchange GatewayError :=
  check? validate_response response in
  if results_match (response_calls response) tool_results
  then Ok {| re_response := response; re_tool_results := tool_results |}
  else Err invalid_replay.

Record ReplayRun : Type := {
  rr_source_run_id : string;
  rr_prepared_prompt : string;
  rr_exchanges : list ReplayExchange
}.

(** [ReplayRun::new]: every exchange but the last has tool results. *)
Definition new_run (source_run_id prepared_prompt : string) (exchanges : list ReplayExchange)
  : result ReplayRun GatewayError :=
  if trim_is_empty source_run_id || trim_is_empty prepared_prompt
     || match exchanges with [] => true | _ => false end
     || existsb (fun e => match re_tool_results e with [] => true | _ => false end)
          (take (length exchanges - 1) exchanges)
  then Err invalid_replay
  else Ok {| rr_source_run_id := source_run_id; rr_prepared_prompt := prepared_prompt;
             rr_exchanges := exchanges |}.

Record ConversationReplay : Type := {
  cr_version : Z;
  cr_provider_id : string;
  cr_requested_model : string;
  cr_expected_identity : option ReplayIdentity;
  cr_runs : list ReplayRun
}.

(** [ConversationReplay::new]. *)
Definition new_conversation (provider_id requested_model : string)
    (expected_identity : option ReplayIdentity) (runs : list ReplayRun)
  : result ConversationReplay GatewayError :=
  if trim_is_empty provider_id || trim_is_empty requested_model || (256 <? len requested_model)
     || is_some_and expected_identity (fun i => negb (bool_decide (ri_provider_id i = provider_id)))
     || (match runs with [] => false | _ => true end && is_none expected_identity)
     || negb (bool_decide (NoDup (rr_source_run_id <$> runs)))
  then Err invalid_replay
  else Ok {| cr_version := 1; cr_provider_id := provider_id; cr_requested_model := requested_model;
             cr_expected_identity := expected_identity; cr_runs := runs |}.

(** ** Properties *)
Section replay_facts.
Context `{SerdeJson}.

(** A message or reasoning item carries no call, as normalization leaves it. *)
Definition normalized (response : ModelResponse) : Prop :=
  response_id response <> EmptyString /\
  Forall (fun item => kind item <> KFunctionCall -> function_call item = None) (output response).

Lemma validate_output_ready r ids items pcs :
  registry_ok r ->
  Forall supported_kind items ->
  Forall (fun item => kind item <> KFunctionCall -> function_call item = None) items ->
  Forall2 (call_ready r) (call_items items) pcs ->
  NoDup ((call_id ∘ pc_call) <$> pcs) ->
  Forall (fun pc => call_id (pc_call pc) ∉ ids) pcs ->
  validate_output ids items = Ok tt /\ omap function_call items = pc_call <$> pcs.
Proof.
  intros Hreg. revert ids pcs.
  induction items as [|item items IH]; intros ids pcs Hk Hn HF Hnd Hid.
  { by inv HF. }
  cbn [validate_output].
  change (omap function_call (item :: items)) with
    (match function_call item with
     | Some call => call :: omap function_call items
     | None => omap function_call items
     end).
  apply Forall_cons in Hk as [Hk Hks]. apply Forall_cons in Hn as [Hn Hns].
  unfold call_items in HF. rewrite filter_cons in HF. fold (call_items items) in HF.
  destruct (decide (kind item = KFunctionCall)) as [E|E].
  - destruct pcs as [|pc pcs]; [by apply Forall2_cons_nil_inv in HF|].
    apply Forall2_cons in HF as [Hready HF].
    apply Forall_cons in Hid as [Hid Hids]. rewrite fmap_cons, NoDup_cons in Hnd.
    destruct Hnd as [Hnew Hnd].
    destruct (IH ({[call_id (pc_call pc)]} ∪ ids) pcs) as [Hv Ho]; [done..| |].
    { rewrite Forall_forall in Hids |- *. intros q Hq [E'%elem_of_singleton|?]%elem_of_union.
      - apply Hnew. simpl. rewrite <- E'. by apply (list_elem_of_fmap_2 (call_id ∘ pc_call)).
      - by apply (Hids q). }
    destruct Hready as (Hf & Hc & Hor & Hns' & Hnat & He & Hl & Ha & Hj & Hobj & Ht & Hval & _).
    rewrite E, Hf, Ho. cbn [ok_or]. rewrite Hv. split; [|done].
    apply Hreg in Ht as [Hname Hdef]. unfold replay_call_ok.
    rewrite Hc, Hor, Hns', Hnat, He, Hj. simpl. rewrite Hobj.
    rewrite (proj2 (Z.ltb_ge _ _) Hl), (bool_decide_eq_false_2 _ Hid).
    unfold MAX_CALL_BYTES in Ha. rewrite (proj2 (Z.ltb_ge _ _) Ha).
    unfold validate_definition in Hdef. rewrite Hname in Hdef.
    destruct (str_is_empty (name (pc_call pc))); [done|]. done.
  - destruct (IH ids pcs) as [Hv Ho]; [done..|]. rewrite (Hn E), Ho.
    destruct Hk as [->|[->|?]]; [done..|congruence].
Qed.

Lemma results_match_recorded r pcs items :
  Forall2 (recorded_result r) pcs items -> results_match (pc_call <$> pcs) items = true.
Proof.
  induction 1 as [|pc item pcs items (c & _ & ->) _ IH]; [done|].
  simpl. by rewrite bool_decide_eq_true_2.
Qed.

(** Live execution and replay agree on what a completed exchange is: a
    normalized response that passed preflight, paired with the results its
    batch returned, is accepted by [ReplayExchange::new], which keeps both
    unchanged. *)
Lemma executed_exchange_replayable {S E} `{ToolHost S E} response body r s pcs items r' s' :
  registry_ok r -> normalized response ->
  preflight r response = Ok pcs ->
  execute_batch body pcs (r, s) = (Ok (Some items), (r', s')) ->
  new_exchange response items = Ok {| re_response := response; re_tool_results := items |}.
Proof.
  intros Hreg [Hid Hnorm] (Hout & Hk & HF & Hnd & _)%preflight_spec Hx.
  apply batch_results in Hx as (items' & [= <-] & HR & _).
  destruct (validate_output_ready r ∅ (output response) pcs) as [Hv Ho]; try done.
  { apply Forall_forall. set_solver. }
  unfold new_exchange, validate_response, response_calls. rewrite Hout, Hv, Ho.
  rewrite (results_match_recorded r' pcs items HR).
  by destruct (response_id response).
Qed.
End replay_facts.

Lemma executed_exchange_replayable_witness :
  new_exchange (H := example_json) (example_response [example_call "call-1"]) example_items
  = Ok {| re_response := example_response [example_call "call-1"];
          re_tool_results := example_items |}.
Proof.
  apply (@executed_exchange_replayable example_json (list ToolExecutionEvent) GatewayError
    (plain_host cons example_execute) (example_response [example_call "call-1"])
    (fun _ => ret tt) example_registry [] example_calls example_items
    (fst (snd example_run)) (snd (snd example_run))).
  - apply map_Forall_singleton. split; reflexivity.
  - split; [discriminate | repeat constructor]. simpl. congruence.
  - reflexivity.
  - apply run_eta. vm_compute. reflexivity.
Defined.
