(* ===== verification/RunData.v ===== *)
(** * Gateway and run data (src/src/gateway.rs, src/src/run/events.rs, src/src/run/collect.rs)

    The provider registry, the values a run reports (outcome, summary, events,
    result) and the [Collector] that checks the identity and order of provider
    events. *)
From S2P Require Import Prelude Json Errors Identifiers Provider Tools Replay.

(** ** The gateway *)

(** A registered [dyn Provider]; its [open_session] is an effect of the run's
    environment. *)
Record Provider : Type := {
  provider_id : string;
  capabilities : ProviderCapabilities;
  provider_validate_replay :
    SessionOptions -> ConversationReplay -> list InputItem -> result unit GatewayError
}.

Record Gateway : Type := { providers : gmap string Provider }.

Definition new_gateway : Gateway := {| providers := ∅ |}.

(** [Gateway::register]. *)
Definition register_provider (g : Gateway) (p : Provider) : result Gateway GatewayError :=
  if is_some (providers g !! provider_id p) then Err DuplicateProvider
  else Ok {| providers := <[provider_id p := p]> (providers g) |}.

(** [Gateway::capabilities]. *)
Definition gateway_capabilities (g : Gateway) (id : string)
  : result ProviderCapabilities GatewayError :=
  let? p := ok_or (providers g !! id) UnknownProvider in Ok (capabilities p).

(** [Gateway::validate_replay]. *)
Definition gateway_validate_replay (g : Gateway) (id : string) (o : SessionOptions)
    (replay : ConversationReplay) (input : list InputItem) : result unit GatewayError :=
  let? p := ok_or (providers g !! id) UnknownProvider in provider_validate_replay p o replay input.

(** The checks of [Gateway::open_session] before it reaches the provider. *)
Definition gateway_open_checks `{ProviderSerde} (g : Gateway) (id : string) (o : SessionOptions)
  : result Provider GatewayError :=
  check? validate_options o in
  let? p := ok_or (providers g !! id) UnknownProvider in
  check? require (capabilities p) (required_features o) in
  Ok p.

(** ** Run data *)
Record RunRequest : Type := {
  rq_provider_id : string;
  rq_options : SessionOptions;
  rq_prompt : string
}.

Inductive RunOutcome : Type :=
| Completed
| Failed (code : string)
| CancelledLocally.
#[export] Instance RunOutcome_eq_dec : EqDecision RunOutcome.
Proof. solve_decision. Defined.

Record RunSummary : Type := {
  turns_started : Z;
  turns_finished : Z;
  model_requests_attempted : Z;
  model_requests_admitted : Z;
  new_tool_dispatches : Z;
  tool_results_prepared : Z;
  reused_results : Z;
  last_request_id : option string;
  last_upstream_outcome : option UpstreamOutcome
}.

(** [RunSummary::default]. *)
Definition default_summary : RunSummary := {|
  turns_started := 0; turns_finished := 0; model_requests_attempted := 0;
  model_requests_admitted := 0; new_tool_dispatches := 0; tool_results_prepared := 0;
  reused_results := 0; last_request_id := None; last_upstream_outcome := None
|}.

Inductive RunSinkError : Type := SinkFull | SinkClosed | SinkFailed.
#[export] Instance RunSinkError_eq_dec : EqDecision RunSinkError.
Proof. solve_decision. Defined.

Record RunResult : Type := {
  res_run_id : string;
  res_session_id : option string;
  res_outcome : RunOutcome;
  res_summary : RunSummary;
  res_last_response : option ModelResponse;
  res_events_complete : bool;
  res_sink_error : option RunSinkError
}.

Inductive TurnOutcome : Type :=
| ModelCompleted
| ToolsPrepared
| Stopped (reason : RunOutcome).

Inductive RunEvent : Type :=
| RunStarted
| TurnStarted (number : Z)
| EProviderEvent (event : EventEnvelope)
| EToolEvent (event : ToolExecutionEvent)
| TurnFinished (number : Z) (response_id : option string) (outcome : TurnOutcome)
    (upstream_outcome : option UpstreamOutcome)
| RunFinished (outcome : RunOutcome) (summary : RunSummary).

Record RunEventEnvelope : Type := {
  ev_schema_version : Z;
  ev_sequence : Z;
  ev_event_id : string;
  ev_run_id : string;
  ev_turn_id : option string;
  ev_session_id : option string;
  ev_request_id : option string;
  ev_event : RunEvent
}.

(** [failed]. *)
Definition failed (code : string) : RunOutcome := Failed code.

(** [increment]: a counter fails rather than wraps. *)
Definition increment (counter : Z) : result Z RunOutcome :=
  ok_or (checked_add_u64 counter 1) (failed "counter_overflow").

(** ** The collector *)
Record Collector : Type := {
  col_response_id : option string;
  col_started : bool;
  col_terminal : bool
}.

Definition default_collector : Collector :=
  {| col_response_id := None; col_started := false; col_terminal := false |}.

Definition correlation_error : RunOutcome := failed "provider_correlation".

(** The response id an event carries, with the marks it leaves. *)
Definition observed_id (c : Collector) (e : ProviderEvent)
  : result (option string) RunOutcome * Collector :=
  match e with
  | PSessionClosed _ => (Err (failed "session_closed"), c)
  | PResponseStarted id =>
      if col_started c then (Err correlation_error, c)
      else (Ok (Some id), {| col_response_id := col_response_id c; col_started := true;
                             col_terminal := col_terminal c |})
  | PResponseStatus id _ | POutputItemStarted id _ _ | POutputItemUpdated id _ _ _ _ _ _
  | POutputItemFinished id _ _ => (Ok (Some id), c)
  | PResponseFinished response =>
      (Ok (Some (response_id response)),
       {| col_response_id := col_response_id c; col_started := col_started c; col_terminal := true |})
  | PRequestFailed _ _ _ =>
      (Ok None, {| col_response_id := col_response_id c; col_started := col_started c;
                   col_terminal := true |})
  | PProviderExtension _ _ => (Ok None, c)
  end.

(** [Collector::observe]; the state is the collector and the caller's last
    provider sequence. *)
Definition observe `{UuidLib} (envelope : EventEnvelope) (session provider request : string)
  : SM (Collector * option Z) RunOutcome unit :=
  fun cs =>
    let '(c, sequence) := cs in
    if negb (bool_decide (env_session_id envelope = session))
       || negb (bool_decide (env_provider envelope = provider))
       || negb (bool_decide (env_request_id envelope = Some request))
       || is_some_and sequence (fun previous => env_sequence envelope <=? previous)
       || col_terminal c
    then (Err correlation_error, cs)
    else if bool_decide (provider = PROVIDER_ID)
            && negb (is_local_event_id (env_event_id envelope) (env_session_id envelope)
                       (env_sequence envelope))
    then (Err correlation_error, cs)
    else
      let sequence := Some (env_sequence envelope) in
      match observed_id c (env_event envelope) with
      | (Err e, c) => (Err e, (c, sequence))
      | (Ok None, c) => (Ok tt, (c, sequence))
      | (Ok (Some id), c) =>
          if str_is_empty id || is_some_and (col_response_id c) (fun known => negb (bool_decide (known = id)))
          then (Err correlation_error, (c, sequence))
          else (Ok tt, ({| col_response_id := Some id; col_started := col_started c;
                           col_terminal := col_terminal c |}, sequence))
      end.

(** ** Properties *)
Lemma increment_Ok n m : increment n = Ok m <-> m = n + 1 /\ 0 <= n + 1 <= u64_max.
Proof. unfold increment. rewrite ok_or_Ok, checked_add_u64_Some. done. Qed.

Lemma increment_Err n o : increment n = Err o -> o = failed "counter_overflow".
Proof. unfold increment. by intros [_ ->]%ok_or_Err. Qed.

Lemma observe_Err `{UuidLib} envelope session provider request cs o cs' :
  observe envelope session provider request cs = (Err o, cs') -> exists c, o = failed c.
Proof.
  unfold observe, observed_id, correlation_error. destruct cs as [c q]. intros Ho.
  repeat case_match; simplify_eq; eauto.
Qed.

(** What an accepted event established. *)
Lemma observe_Ok `{UuidLib} envelope session provider request c q c' q' :
  observe envelope session provider request (c, q) = (Ok tt, (c', q')) ->
  env_session_id envelope = session /\ env_provider envelope = provider /\
  env_request_id envelope = Some request /\
  (forall previous, q = Some previous -> previous < env_sequence envelope) /\
  col_terminal c = false /\ q' = Some (env_sequence envelope) /\
  (provider = PROVIDER_ID ->
     is_local_event_id (env_event_id envelope) session (env_sequence envelope) = true).
Proof.
  unfold observe. intros Ho.
  destruct (_ || col_terminal c) eqn:E1 in Ho; [done|].
  destruct (bool_decide (provider = PROVIDER_ID) && _) eqn:E2 in Ho; [done|].
  prop_bools. subst.
  assert (q' = Some (env_sequence envelope)) as ->.
  { destruct (observed_id c _) as [[[id|]|e] c1]; [|congruence|congruence].
    destruct (_ || _) in Ho; congruence. }
  repeat split; try done.
  - intros p ->. simpl in *. prop_bools. lia.
  - intros E. rewrite bool_decide_eq_true_2 in E2 by done. simpl in E2. by prop_bools.
Qed.

(** A run of accepted events. *)
Inductive collected `{UuidLib} (session provider request : string)
  : Collector * option Z -> list EventEnvelope -> Collector * option Z -> Prop :=
| collected_nil cs : collected session provider request cs [] cs
| collected_cons cs e cs1 es cs2 :
    observe e session provider request cs = (Ok tt, cs1) ->
    collected session provider request cs1 es cs2 ->
    collected session provider request cs (e :: es) cs2.

(** Whether an event ends its request. *)
Definition is_terminal (e : ProviderEvent) : bool :=
  match e with PResponseFinished _ | PRequestFailed _ _ _ => true | _ => false end.

Lemma observe_terminal `{UuidLib} envelope session provider request c q c' q' :
  observe envelope session provider request (c, q) = (Ok tt, (c', q')) ->
  col_terminal c' = is_terminal (env_event envelope).
Proof.
  intros Ho. pose proof Ho as (_ & _ & _ & _ & Ht & _)%observe_Ok.
  unfold observe in Ho. destruct (_ || col_terminal c) in Ho; [done|].
  destruct (bool_decide (provider = PROVIDER_ID) && _) in Ho; [done|].
  destruct (observed_id c _) as [[[id|]|e] c1] eqn:E.
  - destruct (_ || _) in Ho; [done|]. injection Ho as <- _. simpl.
    unfold observed_id in E. destruct (env_event envelope); simplify_eq; try done.
    destruct (col_started c); by simplify_eq.
  - injection Ho as <- _. unfold observed_id in E.
    destruct (env_event envelope); simplify_eq; try done. by destruct (col_started c).
  - done.
Qed.

(** The events one request's collector accepts all carry the run's session,
    provider and request, their sequence numbers strictly increase, and only the
    last can be terminal: nothing is accepted after a terminal event. *)
Lemma collected_ordered `{UuidLib} session provider request cs es cs' :
  collected session provider request cs es cs' ->
  Forall (fun e => env_session_id e = session /\ env_provider e = provider /\
                   env_request_id e = Some request) es /\
  StronglySorted Z.lt (match snd cs with Some q => [q] | None => [] end ++ (env_sequence <$> es)) /\
  (forall before e after, es = before ++ e :: after ->
     is_terminal (env_event e) = true -> after = []).
Proof.
  induction 1 as [[c [q|]]|[c q] e [c1 q1] es cs2 Ho Hc (IHF & IHS & IHT)].
  - simpl. repeat constructor. intros [] ? ?; simplify_eq/=; done.
  - simpl. repeat constructor. intros [] ? ?; simplify_eq/=; done.
  - pose proof (observe_terminal _ _ _ _ _ _ _ _ Ho) as Hterm.
    apply observe_Ok in Ho as (Hs & Hp & Hr & Hq & Ht & -> & _). simpl in *.
    split; [by constructor|]. split.
    + destruct q as [q|]; simpl; [|done]. constructor; [done|].
      apply StronglySorted_inv in IHS as [_ IHS]. specialize (Hq q eq_refl).
      constructor; [done|]. eapply Forall_impl; [exact IHS|]. simpl. intros. lia.
    + intros [|e0 before] e' after E He'; simplify_eq/=.
      * inversion Hc as [|? e2 [c3 q3] ? ? Ho2 _]; subst; [done|].
        apply observe_Ok in Ho2 as (_ & _ & _ & _ & Ht2 & _). congruence.
      * by eapply IHT.
Qed.

(** A request whose response starts and finishes. *)
Definition example_event (n : Z) (e : ProviderEvent) : EventEnvelope := {|
  env_schema_version := 1; env_sequence := n; env_event_id := "e"; env_session_id := "s";
  env_request_id := Some "r"; env_provider := "fixture"; env_provider_sequence := None;
  env_event := e
|}.

Lemma collected_ordered_witness :
  StronglySorted Z.lt (env_sequence <$>
    [example_event 4 (PResponseStarted "resp-1");
     example_event 9 (PResponseFinished (example_response []))]).
Proof.
  refine (proj1 (proj2 (@collected_ordered example_uuid "s" "fixture" "r" (default_collector, None)
    [example_event 4 (PResponseStarted "resp-1");
     example_event 9 (PResponseFinished (example_response []))] _ _))).
  eapply collected_cons; [reflexivity|]. eapply collected_cons; [reflexivity|]. apply collected_nil.
Defined.
