(* ===== verification/Run.v ===== *)
(** * The run controller (src/src/run/mod.rs)

    One run: admission, the session, and the loop of turns in which a model
    request is submitted, its events are collected and its tool calls are
    executed.  The surroundings (cancellation token, identifier source,
    observer, provider session, tools) are the class [Environment] over an
    arbitrary world, so every theorem holds for every behaviour of them,
    adversarial ones included.  The state keeps, beside the fields of [State]
    and the locals of [drive], a log of the effects performed, newest first;
    no definition reads it.

    The two loops take fuel, one unit per iteration; [Stop] separates running
    out of it from the outcomes of the code.  [RunTotality.v] shows that a fixed
    amount is always enough. *)
From S2P Require Import Prelude Json Errors Identifiers Provider Tools Replay RunData.

(** ** The environment *)

(** The effects of a run.  An operation the source wraps in [cancellable]
    returns [None] when the cancellation wins while the operation is pending;
    [is_cancelled] is what the token says when it is polled. *)
Class Environment (W : Type) := {
  is_cancelled : W -> bool * W;
  new_uuid : W -> string * W;
  observer_event : RunEventEnvelope -> W -> result unit RunSinkError * W;
  observer_provider_opened :
    string -> string -> ReplayIdentity -> W -> result unit RunSinkError * W;
  observer_tool_result :
    string -> string -> string -> bool -> W -> result unit RunSinkError * W;
  provider_open : Provider -> SessionOptions -> W -> option (result string GatewayError) * W;
  replay_identity : W -> option ReplayIdentity * W;
  install_replay : ConversationReplay -> W -> option (result unit GatewayError) * W;
  provider_generate : list InputItem -> W -> option (result string GatewayError) * W;
  provider_next : W -> option (option EventEnvelope) * W;
  tool_execute : Tool -> Value -> W -> option (result Value GatewayError) * W;
  provider_close : W -> W
}.

(** The effects the log records. *)
Inductive Action : Type :=
| ASend (envelope : RunEventEnvelope) (delivered : result unit RunSinkError)
| AOpen (session : string)
| AOpened (session requested_model : string) (identity : ReplayIdentity)
    (delivered : result unit RunSinkError)
| AToolResult (request call output : string) (is_error : bool) (delivered : result unit RunSinkError)
| AGenerate (input : list InputItem)
| AExecute (tool : Tool) (args : Value)
| AClose.

(** Why a run stops: an outcome of the code, or one of the two things the code
    never does (exhausting the fuel of the model, failing an [unwrap]). *)
Inductive Stop : Type :=
| Reason (o : RunOutcome)
| OutOfFuel
| Panic.

(** ** State *)
Record State (W : Type) : Type := mkState {
  world : W;
  sequence : Z;
  run_id : string;
  session_id : option string;
  turn_id : option string;
  request_id : option string;
  sink_error : option RunSinkError;
  summary : RunSummary;
  last_response : option ModelResponse;
  guard : bool;
  provider_sequence : option Z;
  collector : Collector;
  log : list Action
}.
Arguments world {W} _.
Arguments sequence {W} _.
Arguments run_id {W} _.
Arguments session_id {W} _.
Arguments turn_id {W} _.
Arguments request_id {W} _.
Arguments sink_error {W} _.
Arguments summary {W} _.
Arguments last_response {W} _.
Arguments guard {W} _.
Arguments provider_sequence {W} _.
Arguments collector {W} _.
Arguments log {W} _.
Arguments mkState {W}.

Section setters.
Context {W : Type}.
Implicit Types st : State W.

Definition set_world (v : W) st : State W :=
  mkState v (sequence st) (run_id st) (session_id st) (turn_id st) (request_id st) (sink_error st) (summary st) (last_response st) (guard st) (provider_sequence st) (collector st) (log st).
Definition set_sequence (v : Z) st : State W :=
  mkState (world st) v (run_id st) (session_id st) (turn_id st) (request_id st) (sink_error st) (summary st) (last_response st) (guard st) (provider_sequence st) (collector st) (log st).
Definition set_run_id (v : string) st : State W :=
  mkState (world st) (sequence st) v (session_id st) (turn_id st) (request_id st) (sink_error st) (summary st) (last_response st) (guard st) (provider_sequence st) (collector st) (log st).
Definition set_session_id (v : option string) st : State W :=
  mkState (world st) (sequence st) (run_id st) v (turn_id st) (request_id st) (sink_error st) (summary st) (last_response st) (guard st) (provider_sequence st) (collector st) (log st).
Definition set_turn_id (v : option string) st : State W :=
  mkState (world st) (sequence st) (run_id st) (session_id st) v (request_id st) (sink_error st) (summary st) (last_response st) (guard st) (provider_sequence st) (collector st) (log st).
Definition set_request_id (v : option string) st : State W :=
  mkState (world st) (sequence st) (run_id st) (session_id st) (turn_id st) v (sink_error st) (summary st) (last_response st) (guard st) (provider_sequence st) (collector st) (log st).
Definition set_sink_error (v : option RunSinkError) st : State W :=
  mkState (world st) (sequence st) (run_id st) (session_id st) (turn_id st) (request_id st) v (summary st) (last_response st) (guard st) (provider_sequence st) (collector st) (log st).
Definition set_summary (v : RunSummary) st : State W :=
  mkState (world st) (sequence st) (run_id st) (session_id st) (turn_id st) (request_id st) (sink_error st) v (last_response st) (guard st) (provider_sequence st) (collector st) (log st).
Definition set_last_response (v : option ModelResponse) st : State W :=
  mkState (world st) (sequence st) (run_id st) (session_id st) (turn_id st) (request_id st) (sink_error st) (summary st) v (guard st) (provider_sequence st) (collector st) (log st).
Definition set_guard (v : bool) st : State W :=
  mkState (world st) (sequence st) (run_id st) (session_id st) (turn_id st) (request_id st) (sink_error st) (summary st) (last_response st) v (provider_sequence st) (collector st) (log st).
Definition set_provider_sequence (v : option Z) st : State W :=
  mkState (world st) (sequence st) (run_id st) (session_id st) (turn_id st) (request_id st) (sink_error st) (summary st) (last_response st) (guard st) v (collector st) (log st).
Definition set_collector (v : Collector) st : State W :=
  mkState (world st) (sequence st) (run_id st) (session_id st) (turn_id st) (request_id st) (sink_error st) (summary st) (last_response st) (guard st) (provider_sequence st) v (log st).
Definition set_log (v : list Action) st : State W :=
  mkState (world st) (sequence st) (run_id st) (session_id st) (turn_id st) (request_id st) (sink_error st) (summary st) (last_response st) (guard st) (provider_sequence st) (collector st) v.

Definition record (a : Action) st : State W := set_log (a :: log st) st.
End setters.

Definition with_turns_started (v : Z) (s : RunSummary) : RunSummary :=
  {| turns_started := v; turns_finished := turns_finished s; model_requests_attempted := model_requests_attempted s; model_requests_admitted := model_requests_admitted s; new_tool_dispatches := new_tool_dispatches s; tool_results_prepared := tool_results_prepared s; reused_results := reused_results s; last_request_id := last_request_id s; last_upstream_outcome := last_upstream_outcome s |}.
Definition with_turns_finished (v : Z) (s : RunSummary) : RunSummary :=
  {| turns_started := turns_started s; turns_finished := v; model_requests_attempted := model_requests_attempted s; model_requests_admitted := model_requests_admitted s; new_tool_dispatches := new_tool_dispatches s; tool_results_prepared := tool_results_prepared s; reused_results := reused_results s; last_request_id := last_request_id s; last_upstream_outcome := last_upstream_outcome s |}.
Definition with_model_requests_attempted (v : Z) (s : RunSummary) : RunSummary :=
  {| turns_started := turns_started s; turns_finished := turns_finished s; model_requests_attempted := v; model_requests_admitted := model_requests_admitted s; new_tool_dispatches := new_tool_dispatches s; tool_results_prepared := tool_results_prepared s; reused_results := reused_results s; last_request_id := last_request_id s; last_upstream_outcome := last_upstream_outcome s |}.
Definition with_model_requests_admitted (v : Z) (s : RunSummary) : RunSummary :=
  {| turns_started := turns_started s; turns_finished := turns_finished s; model_requests_attempted := model_requests_attempted s; model_requests_admitted := v; new_tool_dispatches := new_tool_dispatches s; tool_results_prepared := tool_results_prepared s; reused_results := reused_results s; last_request_id := last_request_id s; last_upstream_outcome := last_upstream_outcome s |}.
Definition with_new_tool_dispatches (v : Z) (s : RunSummary) : RunSummary :=
  {| turns_started := turns_started s; turns_finished := turns_finished s; model_requests_attempted := model_requests_attempted s; model_requests_admitted := model_requests_admitted s; new_tool_dispatches := v; tool_results_prepared := tool_results_prepared s; reused_results := reused_results s; last_request_id := last_request_id s; last_upstream_outcome := last_upstream_outcome s |}.
Definition with_tool_results_prepared (v : Z) (s : RunSummary) : RunSummary :=
  {| turns_started := turns_started s; turns_finished := turns_finished s; model_requests_attempted := model_requests_attempted s; model_requests_admitted := model_requests_admitted s; new_tool_dispatches := new_tool_dispatches s; tool_results_prepared := v; reused_results := reused_results s; last_request_id := last_request_id s; last_upstream_outcome := last_upstream_outcome s |}.
Definition with_reused_results (v : Z) (s : RunSummary) : RunSummary :=
  {| turns_started := turns_started s; turns_finished := turns_finished s; model_requests_attempted := model_requests_attempted s; model_requests_admitted := model_requests_admitted s; new_tool_dispatches := new_tool_dispatches s; tool_results_prepared := tool_results_prepared s; reused_results := v; last_request_id := last_request_id s; last_upstream_outcome := last_upstream_outcome s |}.
Definition with_last_request_id (v : option string) (s : RunSummary) : RunSummary :=
  {| turns_started := turns_started s; turns_finished := turns_finished s; model_requests_attempted := model_requests_attempted s; model_requests_admitted := model_requests_admitted s; new_tool_dispatches := new_tool_dispatches s; tool_results_prepared := tool_results_prepared s; reused_results := reused_results s; last_request_id := v; last_upstream_outcome := last_upstream_outcome s |}.
Definition with_last_upstream_outcome (v : option UpstreamOutcome) (s : RunSummary) : RunSummary :=
  {| turns_started := turns_started s; turns_finished := turns_finished s; model_requests_attempted := model_requests_attempted s; model_requests_admitted := model_requests_admitted s; new_tool_dispatches := new_tool_dispatches s; tool_results_prepared := tool_results_prepared s; reused_results := reused_results s; last_request_id := last_request_id s; last_upstream_outcome := v |}.

(** ** Steps *)
Section run.
Context {W : Type} `{Environment W} `{UuidLib} `{SerdeJson} `{ProviderSerde}.

Notation RunM := (SM (State W) Stop).

(** An effect on the world alone. *)
Definition ask {A} (f : W -> A * W) : RunM A :=
  fun st => let '(a, w) := f (world st) in (Ok a, set_world w st).

Definition stop {A} (o : RunOutcome) : RunM A := throw (Reason o).
Definition fail {A} (code : string) : RunM A := stop (failed code).

(** [Option::unwrap]. *)
Definition unwrap {A} (o : option A) : RunM A :=
  match o with Some a => ret a | None => throw Panic end.

(** [increment] of a counter of the summary. *)
Definition bump (get : RunSummary -> Z) (set : Z -> RunSummary -> RunSummary) : RunM unit :=
  fun st => match increment (get (summary st)) with
            | Ok n => (Ok tt, set_summary (set n (summary st)) st)
            | Err o => (Err (Reason o), st)
            end.

Definition on_summary (f : RunSummary -> RunSummary) : RunM unit :=
  modify (fun st => set_summary (f (summary st)) st).

(** [checkpoint]. *)
Definition checkpoint : RunM unit :=
  let! c := ask is_cancelled in if c then stop CancelledLocally else ret tt.

(** [cancellable]: the biased select polls the token first, so a ready
    cancellation wins and the operation is not started. *)
Definition cancellable {A} (op : W -> option A * W) : RunM A :=
  do! checkpoint in
  let! r := ask op in
  match r with Some a => ret a | None => stop CancelledLocally end.

(** [State::send]. *)
Definition send (event : RunEvent) : RunM unit :=
  fun st =>
    if is_some (sink_error st) then (Err (Reason (failed "event_sink")), st)
    else match increment (sequence st) with
         | Err o => (Err (Reason o), st)
         | Ok n =>
             let st := set_sequence n st in
             let '(id, w) := new_uuid (world st) in
             let envelope := {|
               ev_schema_version := 2; ev_sequence := n; ev_event_id := id; ev_run_id := run_id st;
               ev_turn_id := turn_id st; ev_session_id := session_id st;
               ev_request_id := request_id st; ev_event := event |} in
             let '(r, w) := observer_event envelope w in
             let st := record (ASend envelope r) (set_world w st) in
             match r with
             | Ok _ => (Ok tt, st)
             | Err e => (Err (Reason (failed "event_sink")), set_sink_error (Some e) st)
             end
         end.

(** [<State as ToolObserver>::event]. *)
Definition tool_event (event : ToolExecutionEvent) : RunM unit :=
  do! match event with
      | ToolExecutionStarted _ _ => bump new_tool_dispatches with_new_tool_dispatches
      | ToolResultReused _ _ => bump reused_results with_reused_results
      | ToolExecutionFinished _ _ _ => ret tt
      end in
  send (EToolEvent event).

(** A delivery to the observer has returned: a failure is kept and stops the run. *)
Definition settle_delivery (a : result unit RunSinkError -> Action) (r : result unit RunSinkError)
  : RunM unit :=
  do! modify (record (a r)) in
  match r with
  | Ok _ => ret tt
  | Err e => do! modify (set_sink_error (Some e)) in fail "event_sink"
  end.

(** [<State as ToolObserver>::result]. *)
Definition tool_result (call output : string) (is_error : bool) : RunM unit :=
  let! failed_sink := gets (fun st => is_some (sink_error st)) in
  if failed_sink then fail "event_sink"
  else
    let! request := gets request_id in
    let! request := unwrap request in
    let! r := ask (observer_tool_result request call output is_error) in
    settle_delivery (AToolResult request call output is_error) r.

(** The race of the stop future against [tool.execute]. *)
Definition execute_tool (t : Tool) (args : Value) : RunM (result Value GatewayError) :=
  do! checkpoint in
  do! modify (record (AExecute t args)) in
  let! r := ask (tool_execute t args) in
  match r with Some x => ret x | None => stop CancelledLocally end.

(** [E: From<GatewayError>] for [RunOutcome], and the rest of the host. *)
#[local] Instance run_host : ToolHost (State W) Stop := {|
  th_checkpoint := checkpoint;
  th_event := tool_event;
  th_result := tool_result;
  th_execute := execute_tool;
  th_from _ := Reason (failed "tool_execution")
|}.

(** ** Tools of a turn *)

Definition unsupported (item : OutputItem) : bool :=
  match kind item with KMessage | KReasoning | KFunctionCall => false | _ => true end.
Definition is_call (item : OutputItem) : bool :=
  match kind item with KFunctionCall => true | _ => false end.

(** [prepare_tools]; [None] ends the run, [Some] is the next input. *)
Definition prepare_tools : SM (ToolRegistry * State W) Stop (option (list InputItem)) :=
  let! response := host (gets last_response) in
  let! response := host (unwrap response) in
  match outcome response with
  | RIncomplete _ => host (fail "model_incomplete")
  | RFailed => host (fail "model_failed")
  | RCancelled => host (fail "model_cancelled")
  | RCompleted =>
      if existsb unsupported (output response) then host (fail "unsupported_output")
      else if negb (existsb is_call (output response)) then ret None
      else
        do! host checkpoint in
        let! registry := gets fst in
        match preflight registry response with
        | Err _ => host (fail "tool_preflight")
        | Ok calls =>
            do! host checkpoint in
            let! drained :=
              execute_batch (fun _ => bump tool_results_prepared with_tool_results_prepared) calls in
            match drained with
            | None => host (throw OutOfFuel)
            | Some results =>
                do! host checkpoint in
                match validate_input results with
                | Err _ => host (fail "tool_result_input")
                | Ok _ => ret (Some results)
                end
            end
        end
  end.

(** ** Collecting a response *)

(** [collector.observe(..)?] on the locals of [drive]. *)
Definition observe_event (event : EventEnvelope) (session provider request : string) : RunM unit :=
  fun st =>
    let '(r, (c, q)) := observe event session provider request (collector st, provider_sequence st) in
    (map_err r Reason, set_provider_sequence q (set_collector c st)).

(** What a terminal event decides, before it is delivered. *)
Definition note_terminal (event : EventEnvelope) : RunM (option (result unit RunOutcome)) :=
  match env_event event with
  | PResponseFinished response =>
      do! on_summary (with_last_upstream_outcome (Some TerminalReceived)) in
      do! modify (set_last_response (Some response)) in
      ret (Some (Ok tt))
  | PRequestFailed _ _ upstream =>
      do! on_summary (with_last_upstream_outcome (Some upstream)) in
      ret (Some (Err (failed "provider_request_failed")))
  | _ => ret None
  end.

Fixpoint collect_response (fuel : nat) (session provider : string) : RunM unit :=
  match fuel with
  | O => throw OutOfFuel
  | S fuel =>
      do! checkpoint in
      let! next := cancellable provider_next in
      match next with
      | None => fail "provider_eof"
      | Some event =>
          let! request := gets request_id in
          let! request := unwrap request in
          do! observe_event event session provider request in
          let! terminal := note_terminal event in
          do! send (EProviderEvent event) in
          match terminal with
          | None => collect_response fuel session provider
          | Some (Ok _) => ret tt
          | Some (Err o) => stop o
          end
      end
  end.

(** ** Turns *)

(** [session.control.generate] under [cancellable]: counted when polled. *)
Definition submit (input : list InputItem) : RunM string :=
  do! checkpoint in
  do! bump model_requests_attempted with_model_requests_attempted in
  do! on_summary (with_last_upstream_outcome (Some UpstreamUnknown)) in
  do! modify (record (AGenerate input)) in
  let! r := ask (provider_generate input) in
  match r with
  | None => stop CancelledLocally
  | Some (Err _) =>
      do! on_summary (with_last_upstream_outcome (Some NotSubmitted)) in
      fail "generate_rejected"
  | Some (Ok request) => ret request
  end.

(** The async block of one turn in [drive]. *)
Definition turn_body (fuel : nat) (session provider : string) (input : list InputItem)
  : SM (ToolRegistry * State W) Stop (option (list InputItem)) :=
  let! number := host (gets (turns_started ∘ summary)) in
  do! host (send (TurnStarted number)) in
  do! host checkpoint in
  let! request := host (submit input) in
  if negb (is_canonical_uuid request) then host (fail "provider_correlation")
  else
    do! host (bump model_requests_admitted with_model_requests_admitted) in
    do! host (modify (set_request_id (Some request))) in
    do! host (on_summary (with_last_request_id (Some request))) in
    do! host (collect_response fuel session provider) in
    prepare_tools.

Definition turn_outcome (turn : result (option (list InputItem)) RunOutcome) : TurnOutcome :=
  match turn with
  | Ok (Some _) => ToolsPrepared
  | Ok None => ModelCompleted
  | Err reason => Stopped reason
  end.

(** Keep an outcome of the code as a value ([let turn = async { .. }.await]). *)
Definition attempt {S A} (c : SM S Stop A) : SM S Stop (result A RunOutcome) :=
  fun s => match c s with
           | (Ok a, s) => (Ok (Ok a), s)
           | (Err (Reason o), s) => (Ok (Err o), s)
           | (Err e, s) => (Err e, s)
           end.

(** The head of an iteration of [drive]. *)
Definition begin_turn : RunM unit :=
  do! checkpoint in
  let! id := ask new_uuid in
  do! modify (set_turn_id (Some id)) in
  do! modify (set_request_id None) in
  do! bump turns_started with_turns_started in
  do! on_summary (with_last_upstream_outcome (Some NotSubmitted)) in
  modify (set_collector default_collector).

(** The delivery of [TurnFinished], skipped once the sink has failed. *)
Definition finish_turn (turn : result (option (list InputItem)) RunOutcome) : RunM unit :=
  let! failed_sink := gets (fun st => is_some (sink_error st)) in
  if failed_sink then ret tt
  else
    do! bump turns_finished with_turns_finished in
    let! st := gets id in
    send (TurnFinished (turns_started (summary st)) (col_response_id (collector st))
            (turn_outcome turn) (last_upstream_outcome (summary st))).

Fixpoint drive (fuel : nat) (session provider : string) (input : list InputItem)
  : SM (ToolRegistry * State W) Stop unit :=
  match fuel with
  | O => host (throw OutOfFuel)
  | S fuel =>
      do! host begin_turn in
      let! turn := attempt (turn_body fuel session provider input) in
      do! host (finish_turn turn) in
      match turn with
      | Ok (Some results) => drive fuel session provider results
      | Ok None => ret tt
      | Err o => host (stop o)
      end
  end.

(** ** Admission *)
Record AdmittedRun : Type := {
  adm_provider_id : string;
  adm_options : SessionOptions;
  adm_input : list InputItem;
  adm_scope : ToolRegistry;
  adm_replay : option ConversationReplay
}.

(** [serde_json::to_value] equality of tool definitions. *)
Definition definition_eqb (a b : ToolDefinition) : bool :=
  bool_decide (td_name a = td_name b) && bool_decide (td_description a = td_description b)
  && value_eqb (td_parameters a) (td_parameters b) && Bool.eqb (td_strict a) (td_strict b).

Fixpoint definitions_eqb (a b : list ToolDefinition) : bool :=
  match a, b with
  | [], [] => true
  | x :: a, y :: b => definition_eqb x y && definitions_eqb a b
  | _, _ => false
  end.

Definition with_tools (ts : list ToolDefinition) (o : SessionOptions) : SessionOptions :=
  {| model := model o; instructions := instructions o; tools := ts; transport := transport o;
     required_features := required_features o |}.

(** [admit_with_snapshot]; [cancelled] is the token when it is read at the end. *)
Definition admit_with_snapshot (g : Gateway) (request : RunRequest) (registry : ToolRegistry)
    (cancelled : bool) (recorded : option (list ToolDefinition)) : result AdmittedRun GatewayError :=
  if match tools (rq_options request) with [] => false | _ => true end
  then Err (InvalidRequest "caller tools must be empty")
  else
    let input := [User (rq_prompt request)] in
    check? validate_input input in
    let scope := fresh_scope registry in
    let options := with_tools (definitions scope) (rq_options request) in
    if is_some_and recorded (fun r => negb (definitions_eqb (tools options) r))
    then Err (InvalidRequest "recorded tool definitions do not match registry")
    else
      check? validate_options options in
      let? caps := gateway_capabilities g (rq_provider_id request) in
      let t := match transport options with WebSocket => websocket caps | Sse => sse caps end in
      let has_tools := match tools options with [] => false | _ => true end in
      if negb (implemented t) then Err (UnsupportedFeature "transport")
      else if has_tools && negb (implemented (function_tools caps))
      then Err (UnsupportedFeature "function_tools")
      else if has_tools && negb (implemented (continuation caps))
      then Err (UnsupportedFeature "continuation")
      else
        check? require caps (required_features options) in
        if cancelled then Err (InvalidRequest "run pre-cancelled")
        else Ok {| adm_provider_id := rq_provider_id request; adm_options := options;
                   adm_input := input; adm_scope := scope; adm_replay := None |}.

(** [admit]. *)
Definition admit_run (g : Gateway) (request : RunRequest) (registry : ToolRegistry) (cancelled : bool)
  : result AdmittedRun GatewayError := admit_with_snapshot g request registry cancelled None.

(** [AdmittedRun::with_replay]. *)
Definition with_replay (a : AdmittedRun) (g : Gateway) (replay : ConversationReplay)
  : result AdmittedRun GatewayError :=
  check? gateway_validate_replay g (adm_provider_id a) (adm_options a) replay (adm_input a) in
  Ok {| adm_provider_id := adm_provider_id a; adm_options := adm_options a;
        adm_input := adm_input a; adm_scope := adm_scope a; adm_replay := Some replay |}.

(** ** The whole run *)

(** [gateway.open_session] under [cancellable]. *)
Definition open_session (g : Gateway) (provider : string) (options : SessionOptions) : RunM string :=
  do! checkpoint in
  match gateway_open_checks g provider options with
  | Err _ => fail "session_open"
  | Ok p =>
      let! r := ask (provider_open p options) in
      match r with
      | None => stop CancelledLocally
      | Some (Err _) => fail "session_open"
      | Some (Ok id) => ret id
      end
  end.

(** [observer.provider_opened(..)], with its failure as the sink's. *)
Definition announce (session requested_model : string) (identity : ReplayIdentity) : RunM unit :=
  let! r := ask (observer_provider_opened session requested_model identity) in
  settle_delivery (AOpened session requested_model identity) r.

(** The [if let Some(replay)] block of [run_admitted]. *)
Definition restore (session requested_model : string) (replay : option ConversationReplay) : RunM unit :=
  match replay with
  | None => ret tt
  | Some replay =>
      let! identity := ask replay_identity in
      match identity with
      | None => fail "history_identity"
      | Some identity =>
          do! announce session requested_model identity in
          if match cr_runs replay with [] => false | _ => true end
             && negb (bool_decide (cr_expected_identity replay = Some identity))
          then fail "history_identity"
          else
            do! checkpoint in
            let! installed := cancellable (install_replay replay) in
            match installed with Ok _ => ret tt | Err _ => fail "history_restore" end
      end
  end.

(** [guard.0 = Some(session)]: the session is ours to close. *)
Definition take_session (session : string) : RunM unit :=
  modify (fun st => record (AOpen session) (set_guard true st)).

(** The [execution] block of [run_admitted] after its first event. *)
Definition session_phase (fuel : nat) (g : Gateway) (a : AdmittedRun)
  : SM (ToolRegistry * State W) Stop unit :=
  do! host checkpoint in
  let! session := host (open_session g (adm_provider_id a) (adm_options a)) in
  do! host (take_session session) in
  if bool_decide (adm_provider_id a = PROVIDER_ID) && negb (is_canonical_uuid session)
  then host (fail "provider_correlation")
  else
    do! host (modify (set_session_id (Some session))) in
    do! host (restore session (model (adm_options a)) (adm_replay a)) in
    drive fuel session (adm_provider_id a) (adm_input a).

(** The [execution] block of [run_admitted]. *)
Definition execution (fuel : nat) (g : Gateway) (a : AdmittedRun)
  : SM (ToolRegistry * State W) Stop unit :=
  do! host (send RunStarted) in
  session_phase fuel g a.

(** [CloseGuard::close]: at most once, and only an opened session. *)
Definition close_guard (st : State W) : State W :=
  if guard st then record AClose (set_guard false (set_world (provider_close (world st)) st)) else st.

Definition initial_state (id : string) (w : W) : State W :=
  mkState w 0 id None None None None default_summary None false None default_collector [].

(** The end of [run_admitted]: close the session, deliver the last event. *)
Definition conclude (execution : result unit RunOutcome) (st : State W) : RunResult * State W :=
  let outcome := match execution with Ok _ => Completed | Err reason => reason end in
  let st := set_turn_id None (close_guard st) in
  let '(delivered, st) := send (RunFinished outcome (summary st)) st in
  ({| res_run_id := run_id st; res_session_id := session_id st; res_outcome := outcome;
      res_summary := summary st; res_last_response := last_response st;
      res_events_complete := is_ok delivered; res_sink_error := sink_error st |}, st).

(** [run_admitted]. *)
Definition run_admitted (fuel : nat) (g : Gateway) (a : AdmittedRun) (id : string) (w : W)
  : result RunResult Stop * State W :=
  let '(execution, (_, st)) := attempt (execution fuel g a) (adm_scope a, initial_state id w) in
  match execution with
  | Err e => (Err e, st)
  | Ok execution => let '(res, st) := conclude execution st in (Ok res, st)
  end.

(** [run]: admission, then the run under a fresh id. *)
Definition run (fuel : nat) (g : Gateway) (request : RunRequest) (registry : ToolRegistry) (w : W)
  : result (result RunResult Stop * State W) GatewayError :=
  let '(cancelled, w) := is_cancelled w in
  let? a := admit_run g request registry cancelled in
  let '(id, w) := new_uuid w in
  Ok (run_admitted fuel g a id w).
End run.
