(* ===== verification/Hoare.v ===== *)
(** * Triples for stateful computations

    [holds P c Q R]: from a state in [P], the computation [c] ends in [Q] when
    it succeeds and in [R] when it fails.  Errors keep their state, so both
    postconditions matter.  The rules follow the combinators of [SM]; [guard_auto]
    and [within_auto] apply them, using the lemmas of the hint database [hoare]
    for the operations of a component. *)
From S2P Require Import Prelude Json Errors Provider Tools.

Definition holds {S E A} (P : S -> Prop) (c : SM S E A) (Q : A -> S -> Prop) (R : E -> S -> Prop)
  : Prop :=
  forall s, P s -> match c s with
                   | (Ok a, s') => Q a s'
                   | (Err e, s') => R e s'
                   end.

(** [I] as long as the computation goes on, [J] once it has failed. *)
Definition guarded {S E A} (I J : S -> Prop) (c : SM S E A) : Prop :=
  holds I c (fun _ => I) (fun _ => J).

(** An invariant: kept by success and by failure. *)
Notation keeps I c := (guarded I I c).

Create HintDb hoare.

Section rules.
Context {S E : Type}.
Implicit Types P : S -> Prop.

Lemma holds_conseq {A} P P' (c : SM S E A) (Q Q' : A -> S -> Prop) (R R' : E -> S -> Prop) :
  holds P' c Q' R' ->
  (forall s, P s -> P' s) -> (forall a s, Q' a s -> Q a s) -> (forall e s, R' e s -> R e s) ->
  holds P c Q R.
Proof.
  intros Hc HP HQ HR s Hs. specialize (Hc s (HP s Hs)).
  destruct (c s) as [[a|e] s']; auto.
Qed.

Lemma holds_bind {A B} P (c : SM S E A) (k : A -> SM S E B) Q R Q' :
  holds P c Q R -> (forall a, holds (Q a) (k a) Q' R) -> holds P (bind c k) Q' R.
Proof.
  intros Hc Hk s Hs. unfold bind. specialize (Hc s Hs).
  destruct (c s) as [[a|e] s']; [|done]. by apply Hk.
Qed.

Lemma holds_ret {A} (a : A) (Q : A -> S -> Prop) (R : E -> S -> Prop) : holds (Q a) (ret a) Q R.
Proof. intros s Hs. exact Hs. Qed.

Lemma holds_throw {A} (e : E) (Q : A -> S -> Prop) (R : E -> S -> Prop) : holds (R e) (throw e) Q R.
Proof. intros s Hs. exact Hs. Qed.

Lemma holds_lift {A} (r : result A E) (Q : A -> S -> Prop) (R : E -> S -> Prop) :
  holds (fun s => match r with Ok a => Q a s | Err e => R e s end) (lift r) Q R.
Proof. intros s Hs. unfold lift. by destruct r. Qed.

Lemma holds_and {A} P P' (c : SM S E A) Q Q' R R' :
  holds P c Q R -> holds P' c Q' R' ->
  holds (fun s => P s /\ P' s) c (fun a s => Q a s /\ Q' a s) (fun e s => R e s /\ R' e s).
Proof.
  intros H1 H2 s [Hs Hs']. specialize (H1 s Hs). specialize (H2 s Hs').
  destruct (c s) as [[a|e] s']; done.
Qed.

(** Facts that do not depend on the state travel with any triple. *)
Lemma holds_pure {A} (F : Prop) P (c : SM S E A) Q R :
  (F -> holds P c Q R) -> holds (fun s => F /\ P s) c Q R.
Proof. intros H1 s [HF Hs]. by apply H1. Qed.

Lemma guarded_bind {A B} (I J : S -> Prop) (c : SM S E A) (k : A -> SM S E B) :
  guarded I J c -> (forall a, guarded I J (k a)) -> guarded I J (bind c k).
Proof. intros Hc Hk. eapply holds_bind; [exact Hc|]. intros a. apply Hk. Qed.

Lemma guarded_ret {A} (I J : S -> Prop) (a : A) : guarded I J (@ret S E A a).
Proof. by intros s Hs. Qed.

Lemma guarded_throw {A} (I J : S -> Prop) (e : E) :
  (forall s, I s -> J s) -> guarded I J (@throw S E A e).
Proof. intros HIJ s Hs. by apply HIJ. Qed.

Lemma guarded_lift {A} (I J : S -> Prop) (r : result A E) :
  (forall s, I s -> J s) -> guarded I J (lift r).
Proof. intros HIJ s Hs. unfold lift. destruct r; [done | by apply HIJ]. Qed.

Lemma guarded_gets {A} (I J : S -> Prop) (f : S -> A) : guarded I J (@gets S E A f).
Proof. by intros s Hs. Qed.

Lemma guarded_modify (I J : S -> Prop) f :
  (forall s, I s -> I (f s)) -> guarded I J (@modify S E f).
Proof. intros Hf s Hs. by apply Hf. Qed.

Lemma keeps_guarded {A} (I J : S -> Prop) (c : SM S E A) :
  (forall s, I s -> J s) -> keeps I c -> guarded I J c.
Proof. intros HIJ Hc s Hs. specialize (Hc s Hs). destruct (c s) as [[a|e] s']; auto. Qed.

(** Whatever happens, [J] holds in the end. *)
Lemma guarded_settled {A} (I J : S -> Prop) (c : SM S E A) s :
  guarded I J c -> (forall s, I s -> J s) -> I s ->
  match c s with (Ok _, s') => J s' | (Err _, s') => J s' end.
Proof.
  intros Hc HIJ Hs. specialize (Hc s Hs). destruct (c s) as [[a|e] s']; auto.
Qed.
End rules.

#[export] Hint Resolve guarded_ret guarded_throw guarded_lift guarded_gets : hoare.

(** ** A computation beside a second component

    The tools of a run work on the pair of a registry and the host's state; an
    invariant may relate the two. *)
Definition beside {R S} (I : R -> S -> Prop) (rs : R * S) : Prop := I (fst rs) (snd rs).

Section beside.
Context {R S E : Type}.
Variable I J : R -> S -> Prop.

Lemma guarded_throw_beside {A} (e : E) :
  (forall r s, I r s -> J r s) -> guarded (beside I) (beside J) (@throw (R * S) E A e).
Proof. intros HIJ. apply guarded_throw. intros [r s]. apply HIJ. Qed.

Lemma guarded_lift_beside {A} (x : result A E) :
  (forall r s, I r s -> J r s) -> guarded (beside I) (beside J) (@lift (R * S) E A x).
Proof. intros HIJ. apply guarded_lift. intros [r s]. apply HIJ. Qed.

Lemma guarded_host {A} (c : SM S E A) :
  (forall r, guarded (I r) (J r) c) -> guarded (beside I) (beside J) (host c).
Proof.
  intros Hc [r s] Hs. unfold host, beside in *. simpl in *. specialize (Hc r s Hs).
  destruct (c s) as [[a|e] s']; done.
Qed.
End beside.

#[export] Hint Resolve guarded_throw_beside guarded_lift_beside : hoare.

Lemma guarded_on_registry {R S E} (I J : S -> Prop) (f : R -> R) :
  guarded (beside (fun _ => I)) (beside (fun _ => J)) (@on_registry S E R f).
Proof. apply guarded_modify. by intros [r s]. Qed.

(** Split the program of the goal along its structure. *)
Ltac guard_step :=
  first
    [ solve [eauto with hoare]
    | apply guarded_bind; [|intros ?]
    | apply guarded_host; intros ?
    | apply guarded_on_registry
    | match goal with |- guarded _ _ (match ?x with _ => _ end) => destruct x end
    | match goal with |- guarded _ _ (if ?x then _ else _) => destruct x end ].
Ltac guard_auto := repeat guard_step.

(** ** Tool batches *)

(** One call keeps what each operation of its host keeps. *)
Lemma guarded_run_call {S E} `{ToolHost S E} `{SerdeJson} (I J : S -> Prop) pc :
  (forall s, I s -> J s) ->
  guarded I J th_checkpoint -> (forall e, guarded I J (th_event e)) ->
  (forall c o b, guarded I J (th_result c o b)) -> (forall t v, guarded I J (th_execute t v)) ->
  guarded (beside (fun _ => I)) (beside (fun _ => J)) (run_call pc).
Proof. intros IJ Hc He Hr Hx. unfold run_call. guard_auto. Qed.

(** A batch keeps what each of its calls and the loop body keep. *)
Section batch.
Context {S E : Type} `{ToolHost S E} `{SerdeJson}.
Variable I J : ToolRegistry -> S -> Prop.
Hypothesis IJ : forall r s, I r s -> J r s.
Variable P : PreparedCall -> Prop.
Hypothesis I_call : forall pc, P pc -> guarded (beside I) (beside J) (run_call pc).
Variable body : InputItem -> SM S E unit.
Hypothesis I_body : forall i r, guarded (I r) (J r) (body i).

(** The invariant of the loop: of the registry the batch holds, with its calls
    still to run all in [P]. *)
Definition batch_inv (K : ToolRegistry -> S -> Prop) (b : PreparedBatch) (s : S) : Prop :=
  K (registry b) s /\ Forall P (calls b).

Lemma guarded_drain fuel :
  guarded (beside (batch_inv I)) (beside (batch_inv J)) (drain_batch fuel body).
Proof using IJ I_call I_body.
  induction fuel as [|fuel IH]; simpl; [apply guarded_ret|].
  apply guarded_bind.
  - intros [b s] [Hs HP]. unfold execute_next_observed. simpl in *.
    destruct (calls b) as [|pc rest] eqn:Hb; [unfold beside, batch_inv; simpl; by rewrite Hb|].
    apply Forall_cons in HP as [Hpc HP].
    pose proof (I_call pc Hpc (registry b, s) Hs) as Hr.
    destruct (run_call pc (registry b, s)) as [[item|e] [r1 s1]]; by split.
  - intros [item|]; [|guard_auto]. apply guarded_bind; [|intros _; guard_auto].
    apply guarded_host. intros b s [Hs HP]. specialize (I_body item _ s Hs).
    destruct (body item s) as [[[]|e] s']; by split.
Qed.

Lemma guarded_execute_batch cs :
  Forall P cs -> guarded (beside I) (beside J) (execute_batch body cs).
Proof using IJ I_call I_body.
  intros HP [r s] Hs. unfold execute_batch. cbn [fst snd].
  pose proof (guarded_drain (Datatypes.S (length cs)) ({| registry := r; calls := cs |}, s)
    (conj Hs HP)) as Hd.
  destruct (drain_batch _ body _) as [[o|e] [b s1]]; apply Hd.
Qed.
End batch.

(** ** Which errors can come

    [within I F c]: [c] keeps [I], and fails only with errors in [F]. *)
Definition within {S E A} (I : S -> Prop) (F : E -> Prop) (c : SM S E A) : Prop :=
  holds I c (fun _ => I) (fun e s => F e /\ I s).

Section within.
Context {S E : Type} (I : S -> Prop) (F : E -> Prop).

Lemma within_bind {A B} (c : SM S E A) (k : A -> SM S E B) :
  within I F c -> (forall a, within I F (k a)) -> within I F (bind c k).
Proof. intros Hc Hk. eapply holds_bind; [exact Hc|]. intros a. apply Hk. Qed.

Lemma within_ret {A} (a : A) : within I F (@ret S E A a).
Proof. by intros s Hs. Qed.

Lemma within_gets {A} (f : S -> A) : within I F (@gets S E A f).
Proof. by intros s Hs. Qed.

Lemma within_throw {A} (e : E) : F e -> within I F (@throw S E A e).
Proof. by intros He s Hs. Qed.

Lemma within_lift {A} (r : result A E) : (forall e, r = Err e -> F e) -> within I F (lift r).
Proof. intros Hr s Hs. unfold lift. destruct r; [done | by split; [apply Hr|]]. Qed.

Lemma within_modify f : (forall s, I s -> I (f s)) -> within I F (@modify S E f).
Proof. intros Hf s Hs. by apply Hf. Qed.
End within.

Lemma within_host {R S E A} (I : S -> Prop) (F : E -> Prop) (c : SM S E A) :
  within I F c -> within (beside (fun _ : R => I)) F (host c).
Proof.
  intros Hc [r s] Hs. unfold host. cbn [fst snd]. specialize (Hc s Hs).
  destruct (c s) as [[a|e] s']; done.
Qed.

Lemma within_on_registry {R S E} (I : S -> Prop) (F : E -> Prop) (f : R -> R) :
  within (beside (fun _ => I)) F (@on_registry S E R f).
Proof. apply within_modify. by intros [r s]. Qed.

#[export] Hint Resolve within_ret within_gets within_throw : hoare.

Ltac within_step :=
  first
    [ solve [eauto with hoare]
    | apply within_bind; [|intros ?]
    | apply within_host
    | apply within_on_registry
    | match goal with |- within _ _ (match ?x with _ => _ end) => destruct x end
    | match goal with |- within _ _ (if ?x then _ else _) => destruct x end ].
Ltac within_auto := repeat within_step.

(** A batch fails only the way its host and its conversion of errors do. *)
Section within_batch.
Context {S E : Type} `{ToolHost S E} `{SerdeJson} (I : S -> Prop) (F : E -> Prop).
Context (F_from : forall e, F (th_from e)) (F_checkpoint : within I F th_checkpoint)
  (F_event : forall e, within I F (th_event e)) (F_result : forall c o b, within I F (th_result c o b))
  (F_execute : forall t v, within I F (th_execute t v)).
Context (body : InputItem -> SM S E unit) (F_body : forall i, within I F (body i)).

Lemma within_run_call pc : within (beside (fun _ => I)) F (run_call pc).
Proof using F_from F_checkpoint F_event F_result F_execute.
  unfold run_call. within_auto. apply within_lift. intros e.
  destruct (settle _); simpl; [done | intros [= <-]; apply F_from].
Qed.

Lemma within_drain fuel : within (beside (fun _ => I)) F (drain_batch fuel body).
Proof using F_from F_checkpoint F_event F_result F_execute F_body.
  induction fuel as [|fuel IH]; simpl; [apply within_ret|].
  apply within_bind; [|intros [item|]; within_auto].
  intros [b s] Hs. unfold execute_next_observed. cbn [fst snd].
  destruct (calls b) as [|pc rest]; [done|].
  pose proof (within_run_call pc (registry b, s) Hs) as Hr.
  destruct (run_call pc (registry b, s)) as [[item|e] [r1 s1]]; done.
Qed.

Lemma within_execute_batch cs : within (beside (fun _ => I)) F (execute_batch body cs).
Proof using F_from F_checkpoint F_event F_result F_execute F_body.
  intros [r s] Hs. unfold execute_batch. cbn [fst snd].
  pose proof (within_drain (Datatypes.S (length cs)) ({| registry := r; calls := cs |}, s) Hs) as Hd.
  destruct (drain_batch _ body _) as [[o|e] [b s1]]; done.
Qed.
End within_batch.

(** ** Successful computations

    [yields P c Q]: from a state in [P], if [c] succeeds it ends in [Q]. *)
Definition yields {S E A} (P : S -> Prop) (c : SM S E A) (Q : A -> S -> Prop) : Prop :=
  holds P c Q (fun _ _ => True).

Section yields.
Context {S E : Type}.
Implicit Types P : S -> Prop.

Lemma yields_bind {A B} P (c : SM S E A) (k : A -> SM S E B) Q Q' :
  yields P c Q -> (forall a, yields (Q a) (k a) Q') -> yields P (bind c k) Q'.
Proof. apply holds_bind. Qed.

Lemma yields_ret {A} P (a : A) (Q : A -> S -> Prop) :
  (forall s, P s -> Q a s) -> yields P (@ret S E A a) Q.
Proof. intros HQ s Hs. by apply HQ. Qed.

Lemma yields_throw {A} P (e : E) (Q : A -> S -> Prop) : yields P (@throw S E A e) Q.
Proof. by intros s Hs. Qed.

Lemma yields_lift {A} P (r : result A E) (Q : A -> S -> Prop) :
  (forall a s, r = Ok a -> P s -> Q a s) -> yields P (lift r) Q.
Proof. intros HQ s Hs. unfold lift. destruct r; [by apply HQ | done]. Qed.

Lemma yields_gets {A} P (f : S -> A) (Q : A -> S -> Prop) :
  (forall s, P s -> Q (f s) s) -> yields P (@gets S E A f) Q.
Proof. intros HQ s Hs. by apply HQ. Qed.

Lemma yields_modify P (f : S -> S) (Q : unit -> S -> Prop) :
  (forall s, P s -> Q tt (f s)) -> yields P (@modify S E f) Q.
Proof. intros HQ s Hs. by apply HQ. Qed.

Lemma yields_conseq {A} P P' (c : SM S E A) (Q Q' : A -> S -> Prop) :
  yields P' c Q' -> (forall s, P s -> P' s) -> (forall a s, Q' a s -> Q a s) -> yields P c Q.
Proof. intros Hc HP HQ. by eapply holds_conseq. Qed.

Lemma yields_Ok {A} P (c : SM S E A) Q s a s' :
  yields P c Q -> P s -> c s = (Ok a, s') -> Q a s'.
Proof. intros Hc Hs Heq. specialize (Hc s Hs). by rewrite Heq in Hc. Qed.
End yields.
