(* ===== verification/RunSafety.v ===== *)
(** * Safety of the run controller

    Invariants of every state a run reaches, whatever its environment does and
    however far it gets: the numbering of events, the silence after a failed
    delivery, the accounting of model requests and tool executions.  [stable]
    collects what an invariant must survive; [keeps_execution] lifts it to the
    whole run. *)
From S2P Require Import Prelude Json Errors Identifiers Provider Tools Replay RunData Run Hoare.

Section safety.
Context {W : Type} `{Environment W} `{UuidLib} `{SerdeJson} `{ProviderSerde}.
#[local] Existing Instance run_host.
Implicit Types st : State W.

(** The events between the first and the last of a run. *)
Definition inner_event (e : RunEvent) : bool :=
  match e with RunStarted | RunFinished _ _ => false | _ => true end.

(** The events a run sends outside its tool batches. *)
Definition step_event (e : RunEvent) : bool :=
  match e with RunStarted | RunFinished _ _ | EToolEvent _ => false | _ => true end.

Lemma step_event_inner e : step_event e = true -> inner_event e = true.
Proof. by destruct e. Qed.

(** The effects of a run that are neither deliveries nor recorded in its log. *)
Inductive effect : forall A : Type, (W -> A * W) -> Prop :=
| effect_cancelled : effect _ is_cancelled
| effect_uuid : effect _ new_uuid
| effect_open p o : effect _ (provider_open p o)
| effect_identity : effect _ replay_identity
| effect_install r : effect _ (install_replay r)
| effect_next : effect _ provider_next.
#[local] Hint Constructors effect : hoare.

(** What the pair of a running invariant [I] and a stopped invariant [J] must
    satisfy for the steps of a run to respect it.  [Q] is what the invariant
    needs of the inputs that are submitted. *)
Record stable (Q : list InputItem -> Prop) (I J : State W -> Prop) : Prop := {
  stable_le : forall st, I st -> J st;
  stable_ask : forall A (f : W -> A * W), effect A f -> guarded I J (ask f);
  stable_turn_id : forall v st, I st -> I (set_turn_id v st);
  stable_request_id : forall v st, I st -> I (set_request_id v st);
  stable_session_id : forall v st, I st -> I (set_session_id v st);
  stable_last_response : forall v st, I st -> I (set_last_response v st);
  stable_collector : forall v st, I st -> I (set_collector v st);
  stable_provider_sequence : forall v st, I st -> I (set_provider_sequence v st);
  stable_take : forall s st, I st -> I (record (AOpen s) (set_guard true st));
  stable_send : forall e, step_event e = true -> guarded I J (send e);
  stable_submit : forall i, Q i -> guarded I J (submit i);
  stable_announce : forall s m i, guarded I J (announce s m i);
  stable_upstream : forall v, guarded I J (on_summary (with_last_upstream_outcome v));
  stable_last_request : forall v, guarded I J (on_summary (with_last_request_id v));
  stable_turns_started : guarded I J (bump turns_started with_turns_started);
  stable_turns_finished : guarded I J (bump turns_finished with_turns_finished);
  stable_admitted : guarded I J (bump model_requests_admitted with_model_requests_admitted);
  stable_prepared : guarded I J (bump tool_results_prepared with_tool_results_prepared);
  stable_finish : forall o, guarded J J (finish_turn (Err o))
}.

(** What the tool observer and the executor must keep besides. *)
Record tool_stable (I J : State W -> Prop) : Prop := {
  stable_tool_event : forall e, guarded I J (tool_event e);
  stable_tool_result : forall c o b, guarded I J (tool_result c o b);
  stable_execute_tool : forall t v, guarded I J (execute_tool t v)
}.

Section steps.
Context (Q : list InputItem -> Prop) (I J : State W -> Prop) (HI : stable Q I J).

Lemma IJ st : I st -> J st.
Proof using HI. apply (stable_le Q I J HI). Qed.

Hint Extern 1 (guarded _ _ (modify _)) =>
  apply guarded_modify; intros ? ?;
  first [ apply (stable_turn_id Q I J HI) | apply (stable_request_id Q I J HI)
        | apply (stable_session_id Q I J HI) | apply (stable_last_response Q I J HI)
        | apply (stable_collector Q I J HI) | apply (stable_provider_sequence Q I J HI) ];
  assumption : hoare.
Hint Resolve IJ stable_ask stable_send stable_announce
  stable_upstream stable_last_request stable_turns_started stable_turns_finished stable_admitted
  stable_prepared HI : hoare.

Lemma guarded_checkpoint : guarded I J checkpoint.
Proof using HI. unfold checkpoint, stop. guard_auto. Qed.
Hint Resolve guarded_checkpoint : hoare.

Lemma guarded_cancellable {A} (op : W -> option A * W) : effect _ op -> guarded I J (cancellable op).
Proof using HI. intros Hop. unfold cancellable, stop. guard_auto. Qed.
Hint Resolve guarded_cancellable : hoare.

Lemma guarded_unwrap {A} (o : option A) : guarded I J (unwrap o).
Proof using HI. unfold unwrap. guard_auto. Qed.
Hint Resolve guarded_unwrap : hoare.

Lemma guarded_fail {A} c : guarded I J (@fail W A c).
Proof using HI. unfold fail, stop. guard_auto. Qed.

Lemma guarded_observe_event e s p r : guarded I J (observe_event e s p r).
Proof using HI.
  intros st Hst. unfold observe_event.
  destruct (observe e s p r _) as [x [c q]].
  assert (I (set_provider_sequence q (set_collector c st))) as Hs.
  { apply (stable_provider_sequence Q I J HI). by apply (stable_collector Q I J HI). }
  destruct x; [done | by apply IJ].
Qed.

Lemma guarded_note_terminal e : guarded I J (note_terminal e).
Proof using HI. unfold note_terminal. guard_auto. Qed.
Hint Resolve guarded_observe_event guarded_note_terminal : hoare.

Lemma guarded_collect_response fuel s p : guarded I J (collect_response fuel s p).
Proof using HI. induction fuel as [|fuel IH]; simpl; unfold fail, stop; guard_auto. Qed.

Lemma guarded_begin_turn : guarded I J begin_turn.
Proof using HI. unfold begin_turn. guard_auto. Qed.

Lemma guarded_finish_turn t : guarded I J (finish_turn t).
Proof using HI. unfold finish_turn. guard_auto. Qed.

Lemma guarded_open_session g p o : guarded I J (open_session g p o).
Proof using HI. unfold open_session, fail, stop. guard_auto. Qed.

Lemma guarded_restore s m r : guarded I J (restore s m r).
Proof using HI. unfold restore, fail, stop. guard_auto. Qed.

Lemma guarded_take s : guarded I J (take_session s).
Proof using HI. apply guarded_modify. intros st. apply (stable_take Q I J HI). Qed.

(** A batch of an invariant that leaves the registry aside. *)
Lemma guarded_plain_batch cs :
  tool_stable I J ->
  guarded (beside (fun _ => I)) (beside (fun _ => J))
    (execute_batch (fun _ => bump tool_results_prepared with_tool_results_prepared) cs).
Proof using HI.
  intros HT. apply (guarded_execute_batch (fun _ => I) (fun _ => J) (fun _ => IJ) (fun _ => True)).
  - intros pc _. apply guarded_run_call; eauto using stable_tool_event, stable_tool_result,
      stable_execute_tool with hoare.
  - eauto with hoare.
  - by apply Forall_true.
Qed.
End steps.

(** ** Lifting to the whole run

    The invariant may now relate the registry and the state; a batch that
    passed [preflight] must keep it. *)
Section lifting.
Context (Q : list InputItem -> Prop) (I J : ToolRegistry -> State W -> Prop).
Context (HI : forall r, stable Q (I r) (J r)).
Context (HQ : forall i, validate_input i = Ok tt -> Q i).
Context (HB : forall response cs r st, I r st -> preflight r response = Ok cs ->
  match execute_batch (fun _ => bump tool_results_prepared with_tool_results_prepared) cs (r, st) with
  | (Ok _, rs) => beside I rs
  | (Err _, rs) => beside J rs
  end).

Lemma IJ_beside r st : I r st -> J r st.
Proof using HI. apply (stable_le _ _ _ (HI r)). Qed.

Hint Resolve IJ_beside guarded_checkpoint guarded_cancellable guarded_unwrap guarded_fail
  guarded_collect_response guarded_begin_turn guarded_finish_turn guarded_open_session
  guarded_restore guarded_take stable_send stable_admitted stable_last_request HI : hoare.
Hint Extern 1 (guarded _ _ (modify _)) =>
  apply guarded_modify; intros ? ?;
  first [ eapply stable_request_id | eapply stable_session_id ];
  [apply HI | assumption] : hoare.

(** One operation of the host, then the rest. *)
Ltac host_step :=
  eapply holds_bind with (Q := fun _ => beside I); [apply (guarded_host I J); eauto with hoare|].

Lemma guarded_prepare_tools :
  holds (beside I) prepare_tools
    (fun out rs => beside I rs /\ forall i, out = Some i -> Q i) (fun _ => beside J).
Proof using HI HQ HB.
  unfold prepare_tools.
  host_step; intros resp.
  host_step; intros response.
  assert (forall {A} c (K : A -> _), holds (beside I) (host (@fail W A c)) K (fun _ => beside J)) as Hf.
  { intros A c K [r st] Hst. simpl. by apply IJ_beside. }
  destruct (outcome response); try apply Hf.
  destruct (existsb unsupported _); [apply Hf|]. destruct (existsb is_call _); simpl; [|by intros rs Hrs].
  host_step; intros _.
  intros rs Hrs. unfold bind at 1, gets. cbn [fst snd].
  destruct (preflight (fst rs) response) as [cs|e] eqn:Hp; [|by apply Hf].
  revert Hrs. destruct rs as [r st]. intros Hrs. unfold bind at 1, host at 1. cbn [fst snd].
  pose proof (guarded_checkpoint _ _ _ (HI r) st Hrs) as Hc.
  destruct (checkpoint st) as [[[]|e] st1]; [|done].
  unfold bind at 1. pose proof (HB response cs r st1 Hc Hp) as Hb.
  destruct (execute_batch _ cs (r, st1)) as [[[items|]|e] rs1]; [| |done].
  - revert rs1 Hb. host_step; intros _.
    destruct (validate_input items) as [[]|] eqn:Hv; [|apply Hf].
    intros rs1 Hrs1. split; [done|]. intros i [= <-]. by apply HQ.
  - destruct rs1 as [r1 st2]. simpl. by apply IJ_beside.
Qed.

Lemma guarded_turn_body fuel s p i :
  Q i ->
  holds (beside I) (turn_body fuel s p i)
    (fun out rs => beside I rs /\ forall i, out = Some i -> Q i) (fun _ => beside J).
Proof using HI HQ HB.
  intros Hi. unfold turn_body.
  host_step; intros n.
  host_step; intros _.
  host_step; intros _.
  eapply holds_bind with (Q := fun _ => beside I);
    [apply (guarded_host I J); intros; by eapply stable_submit|intros req].
  destruct (is_canonical_uuid req); simpl.
  - do 4 (host_step; intros _).
    apply guarded_prepare_tools.
  - intros [r st] Hst. simpl. by apply IJ_beside.
Qed.

Lemma guarded_drive fuel s p i : Q i -> guarded (beside I) (beside J) (drive fuel s p i).
Proof using HI HQ HB.
  revert i. induction fuel as [|fuel IH]; intros i Hi; simpl; [guard_auto|].
  apply guarded_bind; [guard_auto|]. intros _ rs Hrs.
  unfold bind at 1, attempt. pose proof (guarded_turn_body fuel s p i Hi rs Hrs) as Ht.
  destruct (turn_body fuel s p i rs) as [[t|[o| |]] [r st]]; [| |exact Ht|exact Ht].
  - destruct Ht as [Ht Hout].
    refine (guarded_bind _ _ _ _ _ _ (r, st) Ht); [guard_auto|]. intros _. destruct t as [l|]; [|guard_auto].
    apply IH. by apply Hout.
  - pose proof (guarded_host J J _ (fun r => stable_finish _ _ _ (HI r) o) (r, st) Ht) as Hf.
    unfold bind. by destruct (host (finish_turn (Err o)) (r, st)) as [[[]|e] [r' st']].
Qed.
Hint Resolve guarded_drive : hoare.

Lemma guarded_session_phase fuel g a :
  Q (adm_input a) -> guarded (beside I) (beside J) (session_phase fuel g a).
Proof using HI HQ HB. intros Hi. unfold session_phase. guard_auto. Qed.

(** An invariant that holds after the first event holds when the execution ends. *)
Lemma execution_after fuel g a id w :
  Q (adm_input a) ->
  match send RunStarted (initial_state id w) with
  | (Ok _, st) => I (adm_scope a) st
  | (Err _, st) => J (adm_scope a) st
  end ->
  match execution fuel g a (adm_scope a, initial_state id w) with
  | (Ok _, rs) => beside I rs
  | (Err _, rs) => beside J rs
  end.
Proof using HI HQ HB.
  intros Hi Hs. unfold execution, bind, host at 1. cbn [fst snd].
  destruct (send RunStarted (initial_state id w)) as [[[]|e] st]; [|exact Hs].
  exact (guarded_session_phase fuel g a Hi (adm_scope a, st) Hs).
Qed.
End lifting.

(** ** What the observer sees *)

(** The events offered to the observer, newest first. *)
Definition sends (l : list Action) : list RunEventEnvelope :=
  omap (fun a => match a with ASend e _ => Some e | _ => None end) l.

#[local] Arguments sends : simpl never.

Lemma sends_send e r l : sends (ASend e r :: l) = e :: sends l.
Proof. done. Qed.

(** Whether an action is not a failed delivery. *)
Definition delivered (a : Action) : bool :=
  match a with
  | ASend _ r | AOpened _ _ _ r | AToolResult _ _ _ _ r => is_ok r
  | _ => true
  end.

Definition opening (e : RunEventEnvelope) : Prop := ev_event e = RunStarted.
Definition inner (e : RunEventEnvelope) : Prop := inner_event (ev_event e) = true.

(** Events numbered down to one, all of run [id]: the first opens the run, the
    others are inner. *)
Fixpoint numbered (id : string) (l : list RunEventEnvelope) : Prop :=
  match l with
  | [] => True
  | e :: l => ev_sequence e = Z.of_nat (length l) + 1 /\ ev_run_id e = id /\
              ev_schema_version e = 2 /\ (match l with [] => opening e | _ => inner e end) /\
              numbered id l
  end.

#[local] Arguments numbered : simpl never.

(** While the run goes on: every delivery succeeded, nothing was closed. *)
Record observing (id : string) (st : State W) : Prop := {
  observing_run : run_id st = id;
  observing_sequence : sequence st = Z.of_nat (length (sends (log st)));
  observing_started : sends (log st) <> [];
  observing_numbered : numbered id (sends (log st));
  observing_open : AClose ∉ log st;
  observing_sink : sink_error st = None;
  observing_delivered : Forall (fun a => delivered a = true) (log st)
}.

(** After a stop: the same, or the last action is the one delivery that failed. *)
Record halted (id : string) (st : State W) : Prop := {
  halted_run : run_id st = id;
  halted_sequence : sequence st = Z.of_nat (length (sends (log st)));
  halted_started : sends (log st) <> [];
  halted_numbered : numbered id (sends (log st));
  halted_open : AClose ∉ log st;
  halted_sink :
    (sink_error st = None /\ Forall (fun a => delivered a = true) (log st)) \/
    (exists a older e, log st = a :: older /\ delivered a = false /\
       Forall (fun a => delivered a = true) older /\ sink_error st = Some e)
}.

Lemma observing_halted id st : observing id st -> halted id st.
Proof. intros []. split; auto. Qed.

Lemma halted_observing id st : halted id st -> sink_error st = None -> observing id st.
Proof.
  intros [Hr Hs Hne Hn Ho [[He Hd]|(a & o & e & _ & _ & _ & Hk)]] Hn0; [by split | congruence].
Qed.

(** Nothing but the log, the counter and the sink matters. *)
Lemma observing_same id st st' :
  run_id st' = run_id st -> sequence st' = sequence st -> sink_error st' = sink_error st ->
  log st' = log st -> observing id st -> observing id st'.
Proof. intros Hr Hs Hk Hl []. split; rewrite ?Hr, ?Hs, ?Hk, ?Hl; done. Qed.

Lemma halted_same id st st' :
  run_id st' = run_id st -> sequence st' = sequence st -> sink_error st' = sink_error st ->
  log st' = log st -> halted id st -> halted id st'.
Proof. intros Hr Hs Hk Hl []. split; rewrite ?Hr, ?Hs, ?Hk, ?Hl; done. Qed.

(** A silent action: not an event, not a close. *)
Lemma observing_record id a st :
  delivered a = true -> sends [a] = [] -> a <> AClose -> observing id st -> observing id (record a st).
Proof.
  intros Hd Ha Hc [].
  assert (sends (a :: log st) = sends (log st)) as Hl.
  { change (a :: log st) with ([a] ++ log st). unfold sends in *. by rewrite omap_app, Ha. }
  split; simpl; rewrite ?Hl; try done; [set_solver | by constructor].
Qed.

Lemma halted_record id a e st :
  delivered a = false -> sends [a] = [] -> observing id st ->
  halted id (set_sink_error (Some e) (record a st)).
Proof.
  intros Hd Ha [].
  assert (sends (a :: log st) = sends (log st)) as Hl.
  { change (a :: log st) with ([a] ++ log st). unfold sends in *. by rewrite omap_app, Ha. }
  split; simpl; rewrite ?Hl; try done.
  - rewrite not_elem_of_cons. split; [by intros <- | done].
  - right. by eexists _, _, _.
Qed.

Lemma numbered_cons id e l :
  l <> [] -> numbered id l -> ev_sequence e = Z.of_nat (length l) + 1 -> ev_run_id e = id ->
  ev_schema_version e = 2 -> inner e -> numbered id (e :: l).
Proof. intros Hl Hn ? ? ? ?. destruct l; [done|]. refine (conj _ (conj _ (conj _ (conj _ _)))); done. Qed.

Lemma send_observing id e : inner_event e = true -> guarded (observing id) (halted id) (send e).
Proof.
  intros He st Hst. pose proof (observing_halted id st Hst) as Hh.
  destruct Hst as [Hr Hs Hne Hn Ho Hk Hd].
  unfold send. rewrite Hk. simpl.
  destruct (increment (sequence st)) as [n|o] eqn:Hi; [|exact Hh].
  apply increment_Ok in Hi as [-> _].
  destruct (new_uuid _) as [u w]. destruct (observer_event _ w) as [[[]|x] w'].
  - split; simpl; rewrite ?sends_send; try done.
    + rewrite Hs. simpl. lia.
    + apply numbered_cons; simpl; try done; by rewrite Hs.
    + set_solver.
    + by constructor.
  - split; simpl; rewrite ?sends_send; try done.
    + rewrite Hs. simpl. lia.
    + apply numbered_cons; simpl; try done; by rewrite Hs.
    + set_solver.
    + right. by eexists _, _, _.
Qed.

Lemma bump_observing id get set :
  guarded (observing id) (halted id) (bump get set).
Proof.
  intros st Hst. unfold bump. destruct (increment _); [|by apply observing_halted].
  by eapply observing_same, Hst.
Qed.

Lemma on_summary_observing id f : guarded (observing id) (halted id) (on_summary f).
Proof. apply guarded_modify. intros st. by apply observing_same. Qed.

Lemma ask_observing {A} id (f : W -> A * W) : guarded (observing id) (halted id) (ask f).
Proof.
  intros st Hst. unfold ask. destruct (f (world st)). by eapply observing_same, Hst.
Qed.

Hint Resolve step_event_inner observing_halted send_observing bump_observing on_summary_observing @ask_observing : hoare.
Hint Extern 1 (guarded (observing _) _ (modify (record _))) =>
  apply guarded_modify; intros ? ?; by apply observing_record : hoare.

Lemma finish_turn_halted id o : guarded (halted id) (halted id) (finish_turn (Err o)).
Proof.
  intros st Hst. unfold finish_turn. cbn [bind gets].
  destruct (sink_error st) as [e|] eqn:Hk; [exact Hst|]. cbn [is_some].
  apply (guarded_settled (observing id)); [|eauto with hoare|by apply halted_observing].
  guard_auto.
Qed.

(** A recorded delivery, and the stop when it failed. *)
Lemma deliver_observing id (a : result unit RunSinkError -> Action) (r : result unit RunSinkError) :
  (forall x, sends [a x] = []) -> (forall x, delivered (a x) = is_ok x) -> (forall x, a x <> AClose) ->
  guarded (observing id) (halted id)
    (settle_delivery a r).
Proof.
  intros Ha Hd Hc st Hst. unfold settle_delivery. destruct r as [[]|e]; simpl.
  - apply observing_record; eauto; by rewrite Hd.
  - apply halted_record; eauto; by rewrite Hd.
Qed.

Hint Extern 1 (guarded (observing _) _ (settle_delivery _ _)) => by apply deliver_observing : hoare.

Definition any_input (i : list InputItem) : Prop := True.

Lemma observing_stable id : stable any_input (observing id) (halted id).
Proof.
  split; try (intros ? st; by apply observing_same); try solve [eauto with hoare].
  - intros s st Hst. apply observing_record; try done. by eapply observing_same, Hst.
  - intros i _. unfold submit, checkpoint, fail, stop. guard_auto.
  - intros s m i. unfold announce. guard_auto.
  - apply finish_turn_halted.
Qed.

Lemma observing_tools id : tool_stable (observing id) (halted id).
Proof.
  split.
  - intros e. unfold tool_event. guard_auto.
  - intros c o b. unfold tool_result, fail, stop, unwrap. guard_auto.
  - intros t v. unfold execute_tool, checkpoint, stop. guard_auto.
Qed.

(** The lifting for an invariant that leaves registry and inputs aside. *)
Lemma execution_plain (I J : State W -> Prop) fuel g a id w :
  stable any_input I J -> tool_stable I J ->
  match send RunStarted (initial_state id w) with (Ok _, st) => I st | (Err _, st) => J st end ->
  match execution fuel g a (adm_scope a, initial_state id w) with
  | (Ok _, (_, st)) => I st
  | (Err _, (_, st)) => J st
  end.
Proof.
  intros HI HT Hs.
  pose proof (execution_after any_input (fun _ => I) (fun _ => J) (fun _ => HI)
    (fun _ _ => Logic.I)
    (fun _ cs r st Hst _ => guarded_plain_batch any_input I J HI cs HT (r, st) Hst)
    fuel g a id w Logic.I Hs) as He.
  by destruct (execution fuel g a _) as [[[]|e] [r st]].
Qed.

(** ** The observer's contract *)

(** The first event of a run, from its initial state. *)
Lemma send_started id w :
  match send RunStarted (initial_state id w) with
  | (Ok _, st) => observing id st
  | (Err _, st) => halted id st
  end.
Proof.
  unfold send. simpl. destruct (new_uuid w) as [u w1]. destruct (observer_event _ w1) as [[[]|x] w2].
  - split; simpl; rewrite ?sends_send; try done; [set_solver | by constructor].
  - split; simpl; rewrite ?sends_send; try done; [set_solver|]. right. by eexists _, _, _.
Qed.

Lemma execution_halted fuel g a id w :
  match execution fuel g a (adm_scope a, initial_state id w) with
  | (Ok _, (_, st)) => observing id st
  | (Err _, (_, st)) => halted id st
  end.
Proof. apply execution_plain; [apply observing_stable | apply observing_tools | apply send_started]. Qed.

(** A run that returns is its execution followed by [conclude]. *)
Lemma run_admitted_Ok fuel g a id w res st :
  run_admitted fuel g a id w = (Ok res, st) ->
  exists r x reg st0, execution fuel g a (adm_scope a, initial_state id w) = (x, (reg, st0)) /\
    conclude r st0 = (res, st) /\
    match x with Ok _ => r = Ok tt | Err e => exists o, e = Reason o /\ r = Err o end.
Proof.
  unfold run_admitted, attempt.
  destruct (execution fuel g a _) as [[[]|[o| |]] [reg st0]]; [| |discriminate..];
    destruct (conclude _ st0) as [res' st'] eqn:Hc; intros [= <- <-]; eexists _, _, _, _; eauto.
Qed.

Lemma run_admitted_halted fuel g a id w res st :
  run_admitted fuel g a id w = (Ok res, st) ->
  exists r st0, halted id st0 /\ conclude r st0 = (res, st).
Proof.
  intros (r & x & reg & st0 & Hx & Hc & _)%run_admitted_Ok. exists r, st0. split; [|done].
  pose proof (execution_halted fuel g a id w) as He. rewrite Hx in He.
  destruct x; [by apply observing_halted | done].
Qed.

(** What [conclude] adds to the log. *)
Definition closing (st : State W) : list Action := if guard st then [AClose] else [].

Lemma conclude_log id r st res st' :
  halted id st -> conclude r st = (res, st') ->
  res_run_id res = id /\
  if res_events_complete res then
    sink_error st = None /\ res_sink_error res = None /\
    exists e, log st' = ASend e (Ok tt) :: closing st ++ log st /\
      ev_sequence e = Z.of_nat (length (sends (log st))) + 1 /\ ev_run_id e = id /\
      ev_schema_version e = 2 /\ ev_event e = RunFinished (res_outcome res) (res_summary res)
  else
    (sink_error st = res_sink_error res /\ log st' = closing st ++ log st) \/
    (sink_error st = None /\ exists e x, log st' = ASend e (Err x) :: closing st ++ log st /\
      res_sink_error res = Some x /\
      ev_sequence e = Z.of_nat (length (sends (log st))) + 1 /\ ev_run_id e = id /\
      ev_schema_version e = 2 /\ ev_event e = RunFinished (res_outcome res) (res_summary res)).
Proof.
  intros Hh. unfold conclude, closing, close_guard.
  destruct (guard st); simpl; unfold send; simpl;
  (destruct (sink_error st) as [x|] eqn:Hk; simpl;
   [intros [= <- <-]; simpl; split; [apply Hh | left; by rewrite Hk]|];
   destruct (increment (sequence st)) as [n|o] eqn:Hi; simpl;
   [apply increment_Ok in Hi as [-> _]
   |intros [= <- <-]; simpl; split; [apply Hh | left; by rewrite Hk]];
   destruct (new_uuid _) as [u w]; destruct (observer_event _ w) as [[[]|x] w'];
   intros [= <- <-]; simpl; (split; [apply Hh|]); rewrite ?Hk;
   [split; [done|]; split; [done|] | right; split; [done|]]; repeat eexists; simpl;
   by rewrite ?(halted_sequence id st Hh), ?(halted_run id st Hh)).
Qed.

(** The events offered to the observer, oldest first. *)
Definition events (st : State W) : list RunEventEnvelope := reverse (sends (log st)).

Definition is_finished (e : RunEvent) : bool :=
  match e with RunFinished _ _ => true | _ => false end.

(** An event at its place in the stream of run [id]. *)
Definition placed (id : string) (i : nat) (e : RunEventEnvelope) : Prop :=
  ev_sequence e = Z.of_nat i + 1 /\ ev_run_id e = id /\ ev_schema_version e = 2.

Lemma numbered_lookup id l i e :
  numbered id l -> reverse l !! i = Some e ->
  placed id i e /\ (if decide (i = O) then opening e else inner e).
Proof.
  revert i e. induction l as [|x l IH]; intros i e Hn; [done|].
  destruct Hn as (Hs & Hr & Hv & Hx & Hn). rewrite reverse_cons.
  intros [Hl|[Hl Hi]]%lookup_app_Some; [by apply IH|].
  apply list_lookup_singleton_Some in Hi as [Hi <-]. rewrite length_reverse in *.
  assert (i = length l) as -> by lia. split; [done|]. by destruct l.
Qed.

Lemma sends_closing st l : sends (closing st ++ l) = sends l.
Proof. unfold closing. by destruct (guard st). Qed.

(** Where events stand: the first opens the run, the last may finish it. *)
Definition stream (id : string) (l : list RunEventEnvelope) : Prop :=
  forall i e, l !! i = Some e ->
    placed id i e /\ (ev_event e = RunStarted <-> i = O) /\
    (is_finished (ev_event e) = true -> S i = length l).

Lemma numbered_stream id l : numbered id l -> stream id (reverse l).
Proof.
  intros Hn i e Hi. destruct (numbered_lookup id l i e Hn Hi) as [Hp Hd]. split; [done|].
  destruct (decide (i = O)) as [->|Hne].
  - unfold opening in Hd. by rewrite Hd.
  - unfold inner in Hd. by destruct (ev_event e).
Qed.

Lemma stream_finished id l e o s :
  l <> [] -> numbered id l -> placed id (length l) e -> ev_event e = RunFinished o s ->
  stream id (reverse (e :: l)).
Proof.
  intros Hne Hn Hp He i x. rewrite reverse_cons, length_app, length_reverse. simpl.
  intros [Hl|[Hl Hi]]%lookup_app_Some.
  - destruct (numbered_stream id l Hn i x Hl) as (H3 & H4 & H5). split; [done|]. split; [done|].
    intros Hf. destruct (numbered_lookup id l i x Hn Hl) as [_ Hd].
    case_decide; unfold opening, inner in Hd; destruct (ev_event x); done.
  - apply list_lookup_singleton_Some in Hi as [Hi <-]. rewrite length_reverse in *.
    assert (i = length l) as -> by lia. split; [done|]. rewrite He. split; [|lia].
    destruct l; [done|]. by split.
Qed.

Lemma conclude_stream id r st res st' :
  halted id st -> conclude r st = (res, st') ->
  stream id (events st') /\
  (res_events_complete res = true ->
   exists e, last (events st') = Some e /\ ev_event e = RunFinished (res_outcome res) (res_summary res)).
Proof.
  intros Hh Hc. destruct (conclude_log id r st res st' Hh Hc) as [_ Hl].
  pose proof (halted_numbered _ _ Hh) as Hn. pose proof (halted_started _ _ Hh) as Hs.
  unfold events. destruct (res_events_complete res).
  - destruct Hl as (_ & _ & e & -> & H3 & H4 & H5 & H6). rewrite sends_send, sends_closing.
    split; [eapply stream_finished; try done; by split_and!|].
    intros _. exists e. by rewrite reverse_cons, last_snoc.
  - split; [|done]. destruct Hl as [[_ ->]|(_ & e & x & -> & _ & H3 & H4 & H5 & H6)].
    + rewrite sends_closing. by apply numbered_stream.
    + rewrite sends_send, sends_closing. eapply stream_finished; try done; by split_and!.
Qed.

(** C2. Whatever the provider, the tools, the cancellation token and the
    observer do, the events a run offers to its observer are numbered 1, 2, 3, ...
    without gaps, all carry the run's id and schema version 2, [RunStarted] is
    exactly the first one, [RunFinished] can only be the last one; and when the
    result claims a complete stream, the last event is [RunFinished] with the
    very outcome and summary that are returned. *)
Theorem run_event_stream fuel g a id w res st :
  run_admitted fuel g a id w = (Ok res, st) ->
  stream id (events st) /\ res_run_id res = id /\
  (res_events_complete res = true ->
   exists e, last (events st) = Some e /\ ev_event e = RunFinished (res_outcome res) (res_summary res)).
Proof.
  intros (r & st0 & Hh & Hc)%run_admitted_halted.
  destruct (conclude_stream id r st0 res st Hh Hc). split; [done|]. split; [|done].
  by destruct (conclude_log id r st0 res st Hh Hc).
Qed.

Lemma sole_failure {A} (p : A -> bool) pre a post newer x older :
  Forall (fun y => p y = true) pre -> Forall (fun y => p y = true) post ->
  pre ++ a :: post = newer ++ x :: older -> p x = false -> newer = pre.
Proof.
  revert newer. induction pre as [|y pre IH]; intros newer Hpre Hpost Heq Hx.
  - destruct newer as [|z newer]; [done|]. simpl in Heq. injection Heq as -> ->.
    exfalso. rewrite Forall_app, Forall_cons in Hpost. naive_solver congruence.
  - inv Hpre. destruct newer as [|z newer]; simpl in Heq; injection Heq as -> Heq; [congruence|].
    f_equal. by apply IH.
Qed.

Lemma no_failure {A} (p : A -> bool) l newer x older :
  Forall (fun y => p y = true) l -> l = newer ++ x :: older -> p x = false -> False.
Proof. intros Hl -> Hx. rewrite Forall_app, Forall_cons in Hl. naive_solver congruence. Qed.

Lemma closing_delivered st : Forall (fun a => delivered a = true) (closing st).
Proof. unfold closing. destruct (guard st); by repeat constructor. Qed.

Lemma closing_closes st : Forall (eq AClose) (closing st).
Proof. unfold closing. destruct (guard st); by repeat constructor. Qed.

Lemma conclude_delivered id r st res st' :
  halted id st -> conclude r st = (res, st') ->
  Forall (fun x => delivered x = true) (log st') \/
  (exists pre a post, log st' = pre ++ a :: post /\ Forall (eq AClose) pre /\ delivered a = false /\
     Forall (fun x => delivered x = true) pre /\ Forall (fun x => delivered x = true) post /\
     res_events_complete res = false /\ is_some (res_sink_error res) = true).
Proof.
  intros Hh Hc. destruct (conclude_log id r st res st' Hh Hc) as [_ Hl].
  pose proof (closing_delivered st) as Hcd. pose proof (closing_closes st) as Hcc.
  destruct (res_events_complete res) eqn:Hec.
  - destruct Hl as (Hk & _ & e & -> & _). left. apply (halted_observing id) in Hh; [|done].
    constructor; [done|]. apply Forall_app. split; [done | apply Hh].
  - destruct Hl as [[Hk ->]|(Hk & e & x & -> & Hx & _)].
    + destruct (halted_sink _ _ Hh) as [[_ Hd]|(a & o & e & Hlog & Ha & Ho & He)].
      * left. by apply Forall_app.
      * right. exists (closing st), a, o. rewrite Hlog. split_and!; try done. by rewrite <- Hk, He.
    + right. apply (halted_observing id) in Hh; [|done]. exists [], (ASend e (Err x)), (closing st ++ log st).
      rewrite Hx. split_and!; try done. apply Forall_app. split; [done | apply Hh].
Qed.

(** Once a delivery to the observer has failed, the run performs nothing
    more than closing its session: no further event, tool execution or model
    request follows; the result then says that the stream is incomplete and
    carries the sink's error, and a result with a complete stream had no failed
    delivery at all. *)
Lemma run_silent_after_failure fuel g a id w res st :
  run_admitted fuel g a id w = (Ok res, st) ->
  (forall newer x older, log st = newer ++ x :: older -> delivered x = false ->
     Forall (eq AClose) newer /\ res_events_complete res = false /\ is_some (res_sink_error res) = true) /\
  (res_events_complete res = true -> Forall (fun x => delivered x = true) (log st)).
Proof.
  intros (r & st0 & Hh & Hc)%run_admitted_halted.
  destruct (conclude_delivered id r st0 res st Hh Hc) as [Hd|(pre & y & post & Hl & Hp & Hy & H3 & H4 & H5 & H6)].
  - split; [|done]. intros newer x older Hl Hx. by destruct (no_failure delivered _ _ _ _ Hd Hl Hx).
  - split; [|congruence]. intros newer x older Hlog Hx. rewrite Hl in Hlog.
    by rewrite (sole_failure delivered pre y post newer x older H3 H4 Hlog Hx).
Qed.

(** ** The session is closed *)

(** An action of the steps themselves. *)
Definition plain (a : Action) : bool := match a with AOpen _ | AClose => false | _ => true end.

Lemma send_log (I : State W -> Prop) e :
  (forall st st', guard st' = guard st -> log st' = log st -> I st -> I st') ->
  (forall a st, plain a = true -> I st -> I (record a st)) -> guarded I I (send e).
Proof.
  intros Hsame Hrec st Hst. unfold send. destruct (is_some _); [done|].
  destruct (increment _) as [n|o]; [|done]. destruct (new_uuid _) as [u w].
  destruct (observer_event _ w) as [[[]|x] w'];
    [apply Hrec|eapply Hsame, Hrec]; try done; by eapply Hsame, Hst.
Qed.

(** An invariant of the log and the guard alone. *)
Lemma stable_log (I : State W -> Prop) :
  (forall st st', guard st' = guard st -> log st' = log st -> I st -> I st') ->
  (forall a st, plain a = true -> I st -> I (record a st)) ->
  (forall s st, I st -> I (record (AOpen s) (set_guard true st))) ->
  stable any_input I I /\ tool_stable I I.
Proof.
  intros Hsame Hrec Htake.
  assert (forall e, guarded I I (send e)) as Hsend by (intros e; by apply send_log).
  assert (forall {A} (f : W -> A * W), guarded I I (ask f)) as Hask.
  { intros A f st Hst. unfold ask. destruct (f (world st)). by eapply Hsame, Hst. }
  assert (forall x y, guarded I I (bump x y)) as Hbump.
  { intros x y st Hst. unfold bump. destruct (increment _); [by eapply Hsame, Hst | done]. }
  assert (forall f, guarded I I (on_summary f)) as Hsum.
  { intros f. apply guarded_modify. intros st. by apply Hsame. }
  assert (forall a, plain a = true -> guarded I I (modify (E := Stop) (record a))) as Hmod.
  { intros a Ha. apply guarded_modify. intros st. by apply Hrec. }
  assert (forall a r, (forall r, plain (a r) = true) -> guarded I I (settle_delivery a r)) as Hset.
  { intros a r Ha. unfold settle_delivery, fail, stop. guard_auto.
    apply guarded_modify. intros st. by apply Hsame. }
  split; split; try (intros ? st; by apply Hsame); try done; intros;
    unfold tool_event, tool_result, execute_tool, submit, announce, finish_turn, checkpoint, unwrap, fail, stop;
    repeat first [solve [eauto with hoare] | apply Hset; done | apply Hmod; done | guard_step].
Qed.

(** The guard holds a session exactly when one was taken, and none is closed. *)
Definition guarding (st : State W) : Prop :=
  AClose ∉ log st /\ (guard st = true <-> exists s, AOpen s ∈ log st).

Lemma guarding_same st st' : guard st' = guard st -> log st' = log st -> guarding st -> guarding st'.
Proof. unfold guarding. by intros -> ->. Qed.

Lemma guarding_record a st : plain a = true -> guarding st -> guarding (record a st).
Proof.
  intros Ha [Hc Hg]. split; simpl; [set_solver|]. rewrite Hg.
  split; intros [s Hs]; exists s; [by right|]. by apply elem_of_cons in Hs as [<-|].
Qed.

Lemma guarding_stable : stable any_input guarding guarding /\ tool_stable guarding guarding.
Proof.
  apply stable_log; [apply guarding_same | apply guarding_record|].
  intros s st [Hc Hg]. split; simpl; [set_solver|]. split; [|done]. intros _. exists s. by left.
Qed.

Lemma run_admitted_guarding fuel g a id w res st :
  run_admitted fuel g a id w = (Ok res, st) ->
  exists r st0, halted id st0 /\ guarding st0 /\ conclude r st0 = (res, st).
Proof.
  intros (r & x & reg & st0 & Hx & Hc & _)%run_admitted_Ok. exists r, st0.
  pose proof (execution_halted fuel g a id w) as He. rewrite Hx in He.
  assert (guarding st0).
  { assert (guarding (initial_state id w)) as Hi.
    { split; simpl; [set_solver|]. split; [done | intros [s Hs]; set_solver]. }
    destruct guarding_stable as [Hst Htool].
    pose proof (execution_plain _ _ fuel g a id w Hst Htool
      (send_log _ RunStarted guarding_same guarding_record _ Hi)) as Hg.
    rewrite Hx in Hg. by destruct x. }
  split_and!; [destruct x; [by apply observing_halted | done] | done | done].
Qed.

Lemma conclude_closing id r st res st' :
  halted id st -> conclude r st = (res, st') ->
  exists final, log st' = final ++ closing st ++ log st /\
    Forall (fun x => exists e d, x = ASend e d /\ is_finished (ev_event e) = true) final.
Proof.
  intros Hh Hc. destruct (conclude_log id r st res st' Hh Hc) as [_ Hl].
  destruct (res_events_complete res).
  - destruct Hl as (_ & _ & e & -> & _ & _ & _ & He). exists [ASend e (Ok tt)]. split; [done|].
    constructor; [|done]. eexists _, _. split; [done|]. by rewrite He.
  - destruct Hl as [[_ ->]|(_ & e & x & -> & _ & _ & _ & _ & He)]; [by exists []|].
    exists [ASend e (Err x)]. split; [done|].
    constructor; [|done]. eexists _, _. split; [done|]. by rewrite He.
Qed.

Lemma close_unique {A} (x : A) pre post pre' post' :
  x ∉ pre -> x ∉ post -> pre ++ x :: post = pre' ++ x :: post' -> pre' = pre /\ post' = post.
Proof.
  revert pre'. induction pre as [|y pre IH]; intros [|z pre'] Hpre Hpost Heq; simpl in Heq;
    injection Heq as Heq; subst.
  - done.
  - exfalso. apply Hpost. set_solver.
  - exfalso. apply Hpre. set_solver.
  - destruct (IH pre') as [-> ->]; try done. set_solver.
Qed.

(** The provider session is closed exactly when one was opened, exactly
    once, on every path (completion, failure, cancellation, failed delivery),
    and the only thing a run does after closing is to deliver [RunFinished]. *)
Lemma run_closes_session fuel g a id w res st :
  run_admitted fuel g a id w = (Ok res, st) ->
  (AClose ∈ log st <-> exists s, AOpen s ∈ log st) /\
  (forall newer older, log st = newer ++ AClose :: older ->
     AClose ∉ newer /\ AClose ∉ older /\
     Forall (fun x => exists e d, x = ASend e d /\ is_finished (ev_event e) = true) newer).
Proof.
  intros (r & st0 & Hh & [Hno Hg] & Hc)%run_admitted_guarding.
  destruct (conclude_closing id r st0 res st Hh Hc) as (final & -> & Hf).
  assert (AClose ∉ final) as Hnf.
  { intros Hin. rewrite Forall_forall in Hf. by destruct (Hf _ Hin) as (e & d & ? & _). }
  assert (forall s, AOpen s ∉ final) as Hns.
  { intros s Hin. rewrite Forall_forall in Hf. by destruct (Hf _ Hin) as (e & d & ? & _). }
  unfold closing. split.
  - setoid_rewrite elem_of_app. setoid_rewrite elem_of_app. destruct (guard st0).
    + split; [|set_solver]. intros _. destruct (proj1 Hg eq_refl) as [s Hs]. exists s. auto.
    + split; [set_solver|]. intros [s [Hs|[Hs|Hs]]]; [by apply Hns in Hs | set_solver|].
      assert (false = true) by (apply Hg; by exists s). done.
  - destruct (guard st0).
    + intros newer older Heq. by apply close_unique in Heq as [-> ->].
    + intros newer older Heq. exfalso. assert (AClose ∈ final ++ [] ++ log st0) as Hin; [|set_solver].
      rewrite Heq. set_solver.
Qed.
End safety.
