(* ===== verification/RunEffects.v ===== *)
(** * What a run does to the world

    The tools a run executes and the requests it submits: a tool runs only when
    it is registered and accepted its arguments, after its start was delivered,
    and at most once per call id; a request carries only validated input; the
    summary counts both. *)
From S2P Require Import Prelude Json Errors Identifiers Provider Tools Replay RunData Run Hoare RunSafety.

Section effects.
Context {W : Type} `{Environment W} `{UuidLib} `{SerdeJson} `{ProviderSerde}.
#[local] Existing Instance run_host.
Implicit Types st : State W.

(** The tools the run was admitted with. *)
Variable R0 : gmap string Tool.

(** The call ids whose execution was announced, newest first. *)
Definition started (l : list Action) : list string :=
  omap (fun a => match a with
                 | ASend e _ => match ev_event e with
                                | EToolEvent (ToolExecutionStarted c _) => Some c
                                | _ => None
                                end
                 | _ => None
                 end) l.
#[local] Arguments started : simpl never.

Definition is_generate (a : Action) : bool := match a with AGenerate _ => true | _ => false end.
Definition is_execute (a : Action) : bool := match a with AExecute _ _ => true | _ => false end.

(** How many actions of a kind a log holds. *)
Fixpoint count (p : Action -> bool) (l : list Action) : Z :=
  match l with
  | [] => 0
  | a :: l => (if p a then 1 else 0) + count p l
  end.

(** An action after the older ones: an execution directly follows the delivered
    announcement of its call, its tool is the registered one of that name and
    accepted the arguments; a request carries validated input. *)
Definition effect_ok (a : Action) (older : list Action) : Prop :=
  match a with
  | AExecute t v => exists e older' c n,
      older = ASend e (Ok tt) :: older' /\ ev_event e = EToolEvent (ToolExecutionStarted c n) /\
      R0 !! n = Some t /\ validate t v = Ok tt /\ is_object v = true
  | AGenerate i => validate_input i = Ok tt
  | _ => True
  end.

Fixpoint effects_ok (l : list Action) : Prop :=
  match l with
  | [] => True
  | a :: older => effect_ok a older /\ effects_ok older
  end.

Record core (r : ToolRegistry) (st : State W) : Prop := {
  core_registered : registered r = R0;
  core_effects : effects_ok (log st);
  core_once : NoDup (started (log st));
  core_attempted : count is_generate (log st) = model_requests_attempted (summary st);
  core_dispatched : count is_execute (log st) <= new_tool_dispatches (summary st)
}.

(** Between two calls every announced call has its result in the scope. *)
Definition settled (r : ToolRegistry) (st : State W) : Prop :=
  core r st /\ forall c, c ∈ started (log st) -> is_some (results r !! c) = true.

Lemma core_same r st st' :
  log st' = log st -> model_requests_attempted (summary st') = model_requests_attempted (summary st) ->
  new_tool_dispatches (summary st') = new_tool_dispatches (summary st) -> core r st -> core r st'.
Proof. intros Hl Ha Hd []. split; rewrite ?Hl, ?Ha, ?Hd; done. Qed.

Lemma settled_same r st st' :
  log st' = log st -> model_requests_attempted (summary st') = model_requests_attempted (summary st) ->
  new_tool_dispatches (summary st') = new_tool_dispatches (summary st) -> settled r st -> settled r st'.
Proof. intros Hl Ha Hd [Hc Hs]. split; [by eapply core_same | by rewrite Hl]. Qed.

(** An action with nothing to account for. *)
Definition idle (a : Action) : Prop :=
  started [a] = [] /\ is_generate a = false /\ is_execute a = false.

Lemma started_idle a l : started [a] = [] -> started (a :: l) = started l.
Proof. intros Ha. change (a :: l) with ([a] ++ l). unfold started in *. by rewrite omap_app, Ha. Qed.

Lemma core_record r a st : idle a -> core r st -> core r (record a st).
Proof.
  intros (Hs & Hg & He) [Hr Hf Hn Ha Hd]. split; simpl; rewrite ?(started_idle a _ Hs); try done.
  - split; [|done]. by destruct a.
  - by rewrite Hg.
  - by rewrite He.
Qed.

Lemma settled_record r a st : idle a -> settled r st -> settled r (record a st).
Proof.
  intros Hi [Hc Hs]. split; [by apply core_record|]. simpl.
  destruct Hi as [Hi _]. by rewrite (started_idle a _ Hi).
Qed.

Lemma settled_core r st : settled r st -> core r st.
Proof. by intros []. Qed.

(** ** The steps outside tool batches *)

(** Any delivery that announces no execution. *)
Definition no_start (e : RunEvent) : Prop :=
  match e with EToolEvent (ToolExecutionStarted _ _) => False | _ => True end.

Lemma idle_send e d : no_start (ev_event e) -> idle (ASend e d).
Proof. unfold idle, no_start, started. simpl. by destruct (ev_event e) as [| | |[]| |]. Qed.

Section invariant.
(** Both invariants of the account survive the same steps. *)
Context (K : State W -> Prop).
Context (K_same : forall st st', log st' = log st ->
  model_requests_attempted (summary st') = model_requests_attempted (summary st) ->
  new_tool_dispatches (summary st') = new_tool_dispatches (summary st) -> K st -> K st').
Context (K_record : forall a st, idle a -> K st -> K (record a st)).

Lemma keeps_ask {A} (f : W -> A * W) : keeps K (ask f).
Proof using K_same.
  intros st Hst. unfold ask. destruct (f (world st)). by eapply K_same, Hst.
Qed.

Lemma keeps_send e : no_start e -> keeps K (send e).
Proof using K_same K_record.
  intros He st Hst. unfold send. destruct (is_some _); [done|].
  destruct (increment _) as [n|o]; [|done]. destruct (new_uuid _) as [u w].
  destruct (observer_event _ w) as [[[]|x] w'].
  - apply K_record; [by apply idle_send|]. by eapply K_same, Hst.
  - eapply K_same, K_record; [done..| |]; [by apply idle_send|]. by eapply K_same, Hst.
Qed.

Lemma keeps_bump get set :
  (forall n s, model_requests_attempted (set n s) = model_requests_attempted s /\
               new_tool_dispatches (set n s) = new_tool_dispatches s) ->
  keeps K (bump get set).
Proof using K_same.
  intros Hset st Hst. unfold bump. destruct (increment _) as [n|]; [|done].
  destruct (Hset n (summary st)). by eapply K_same, Hst.
Qed.

Lemma keeps_summary f :
  (forall s, model_requests_attempted (f s) = model_requests_attempted s /\
             new_tool_dispatches (f s) = new_tool_dispatches s) ->
  keeps K (on_summary f).
Proof using K_same.
  intros Hf. apply guarded_modify. intros st Hst. destruct (Hf (summary st)). by eapply K_same, Hst.
Qed.

Lemma keeps_settle a r : (forall x, idle (a x)) -> keeps K (settle_delivery a r).
Proof using K_same K_record.
  intros Ha st Hst. unfold settle_delivery.
  destruct r as [[]|e]; simpl; [by apply K_record|].
  apply (K_same (record (a (Err e)) st)); [done..|]. by apply K_record.
Qed.
End invariant.

Hint Resolve settled_core keeps_ask : hoare.
Hint Resolve settled_same core_same settled_record core_record : wi.

Hint Extern 2 (guarded (settled _) (core _) _) =>
  apply keeps_guarded; [apply settled_core|] : hoare.
Hint Extern 1 (keeps (settled ?r) (send _)) =>
  apply (keeps_send (settled r) (settled_same r) (settled_record r)); done : hoare.
Hint Extern 1 (keeps (core ?r) (send _)) =>
  apply (keeps_send (core r) (core_same r) (core_record r)); done : hoare.
Hint Extern 1 (keeps (settled ?r) (ask _)) => apply (keeps_ask (settled r) (settled_same r)) : hoare.
Hint Extern 1 (keeps (core ?r) (ask _)) => apply (keeps_ask (core r) (core_same r)) : hoare.
Hint Extern 1 (keeps (settled ?r) (bump _ _)) =>
  apply (keeps_bump (settled r) (settled_same r)); done : hoare.
Hint Extern 1 (keeps (core ?r) (bump _ _)) =>
  apply (keeps_bump (core r) (core_same r)); done : hoare.
Hint Extern 1 (keeps (settled ?r) (on_summary _)) =>
  apply (keeps_summary (settled r) (settled_same r)); done : hoare.
Hint Extern 1 (keeps (settled ?r) (settle_delivery _ _)) =>
  apply (keeps_settle (settled r) (settled_same r) (settled_record r)); done : hoare.

Lemma submit_settled r i :
  validate_input i = Ok tt -> guarded (settled r) (core r) (submit i).
Proof.
  intros Hi. unfold submit.
  apply guarded_bind; [unfold checkpoint, stop; guard_auto|]. intros _ st [[Hr Hf Hn Ha Hd] Hs].
  unfold bind at 1, bump. destruct (increment _) as [n|o] eqn:Hn'; [|by split].
  apply increment_Ok in Hn' as [-> _].
  assert (settled r (record (AGenerate i) (set_summary (with_last_upstream_outcome
    (Some UpstreamUnknown) (with_model_requests_attempted (model_requests_attempted (summary st) + 1)
    (summary st))) st))) as Hst1.
  { split; [|exact Hs]. split; try done; simpl in *. rewrite Ha. lia. }
  unfold on_summary at 1, modify at 1, bind at 1; unfold modify at 1, bind at 1.
  refine ((_ : guarded (settled r) (core r) _) _ Hst1). unfold fail, stop. guard_auto.
Qed.

(** The invariants of the account survive every step outside a batch. *)
Lemma settled_stable r : stable (fun i => validate_input i = Ok tt) (settled r) (core r).
Proof.
  split; try (intros ? st; by apply settled_same); try done; try solve [eauto with hoare].
  - intros s st Hst. apply settled_record; [done|]. by eapply settled_same, Hst.
  - intros e He. apply keeps_guarded; [apply settled_core|].
    apply (keeps_send (settled r) (settled_same r) (settled_record r)). by destruct e.
  - apply submit_settled.
  - intros s m i. unfold announce. guard_auto.
  - intros o. unfold finish_turn. guard_auto.
Qed.
(** ** One call of a batch *)

(** A call that passed [preflight]. *)
Definition ready_call (pc : PreparedCall) : Prop :=
  R0 !! name (pc_call pc) = Some (pc_tool pc) /\
  validate (pc_tool pc) (pc_arguments pc) = Ok tt /\ is_object (pc_arguments pc) = true.

(** While call [c] runs: it is announced, its result not recorded yet. *)
Definition running (c : string) (r : ToolRegistry) (st : State W) : Prop :=
  core r st /\ forall c', c' ∈ started (log st) -> c' = c \/ is_some (results r !! c') = true.

(** Just announced: the delivery of the announcement is the last action. *)
Definition announced (c n : string) (r : ToolRegistry) (st : State W) : Prop :=
  running c r st /\ count is_execute (log st) < new_tool_dispatches (summary st) /\
  exists e older, log st = ASend e (Ok tt) :: older /\
    ev_event e = EToolEvent (ToolExecutionStarted c n).

Lemma running_same c r st st' :
  log st' = log st -> model_requests_attempted (summary st') = model_requests_attempted (summary st) ->
  new_tool_dispatches (summary st') = new_tool_dispatches (summary st) -> running c r st -> running c r st'.
Proof. intros Hl Ha Hd [Hc Hs]. split; [by eapply core_same | by rewrite Hl]. Qed.

Lemma announced_same c n r st st' :
  log st' = log st -> model_requests_attempted (summary st') = model_requests_attempted (summary st) ->
  new_tool_dispatches (summary st') = new_tool_dispatches (summary st) ->
  announced c n r st -> announced c n r st'.
Proof.
  intros Hl Ha Hd (Hr & Hlt & He). split; [by eapply running_same|]. by rewrite Hl, Hd.
Qed.

(** The announcement of a call whose result is not recorded. *)
Lemma tool_event_started c n r :
  results r !! c = None ->
  holds (settled r) (tool_event (ToolExecutionStarted c n))
    (fun _ => announced c n r) (fun _ => core r).
Proof.
  intros Hc st [[Hr Hf Hn Ha Hd] Hs]. unfold tool_event, bind, bump.
  destruct (increment _) as [m|o] eqn:Hm; [|by split]. apply increment_Ok in Hm as [-> _].
  unfold send. simpl. destruct (is_some (sink_error st)); [split; simpl; try done; lia|].
  destruct (increment (sequence st)) as [k|o]; [|split; simpl; try done; lia].
  assert (c ∉ started (log st)) as Hfresh.
  { intros Hin. apply Hs in Hin. by rewrite Hc in Hin. }
  destruct (new_uuid _) as [u w]. destruct (observer_event _ w) as [[[]|x] w'].
  - split_and!; simpl; [split|lia|eauto].
    + split; simpl; try done; [by constructor | lia].
    + intros c' [->|Hin]%elem_of_cons; [by left | right; by apply Hs].
  - split; simpl; try done; [by constructor | lia].
Qed.

Lemma execute_tool_announced c r pc :
  ready_call pc ->
  holds (announced c (name (pc_call pc)) r) (execute_tool (pc_tool pc) (pc_arguments pc))
    (fun _ => running c r) (fun _ => core r).
Proof.
  intros (Hreg & Hval & Hobj). unfold execute_tool.
  eapply holds_bind with (Q := fun _ => announced c (name (pc_call pc)) r).
  { apply keeps_guarded; [by intros st [[]]|]. unfold checkpoint, stop. guard_auto.
    apply (keeps_ask _ (announced_same c _ r)). }
  intros _. eapply holds_bind with (Q := fun _ => running c r).
  - intros st ([[Hr Hf Hn Ha Hd] Hs] & Hlt & e & older & Hl & He). simpl. split; [|exact Hs].
    split; simpl; try done; [|lia]. split; [|done]. by exists e, older, c, (name (pc_call pc)).
  - intros []. apply (guarded_bind (running c r) (core r)); [|intros [x|]; unfold stop; guard_auto].
    + apply keeps_guarded; [by intros st []|]. apply (keeps_ask _ (running_same c r)).
    + by intros st [].
Qed.

Lemma settled_checkpoint r : guarded (settled r) (core r) checkpoint.
Proof. exact (guarded_checkpoint _ _ _ (settled_stable r)). Qed.

Lemma tool_event_other r e :
  no_start (EToolEvent e) -> guarded (settled r) (core r) (tool_event e).
Proof.
  intros He. apply keeps_guarded; [apply settled_core|]. unfold tool_event.
  apply guarded_bind; [destruct e; guard_auto|]. intros _.
  by apply (keeps_send (settled r) (settled_same r) (settled_record r)).
Qed.

Lemma tool_result_settled r c o b : guarded (settled r) (core r) (tool_result c o b).
Proof.
  apply keeps_guarded; [apply settled_core|]. unfold tool_result, unwrap, fail, stop. guard_auto.
Qed.

(** Recording the result of the running call settles it. *)
Lemma cache_settles c x r st : running c r st -> settled (cache c x r) st.
Proof.
  intros [[Hr Hf Hn Ha Hd] Hs]. split; [by split|]. intros c' Hin. simpl.
  destruct (decide (c' = c)) as [->|Hne]; [by rewrite lookup_insert_eq|].
  rewrite lookup_insert_ne by done. destruct (Hs c' Hin) as [->|?]; done.
Qed.

Hint Resolve settled_checkpoint tool_event_other tool_result_settled : hoare.

Lemma run_call_settled pc :
  ready_call pc -> guarded (beside settled) (beside core) (run_call pc).
Proof.
  intros Hpc. unfold run_call.
  apply guarded_bind; [by apply guarded_host; eauto with hoare|]. intros _ [r st] Hst.
  unfold bind at 1, gets. cbn [fst snd].
  destruct (results r !! call_id (pc_call pc)) as [saved|] eqn:Hres.
  { revert Hst. apply (guarded_bind (beside settled) (beside core) _ _); [|intros _; guard_auto].
    apply guarded_host. intros r'. by apply tool_event_other. }
  set (c := call_id (pc_call pc)) in *. set (n := name (pc_call pc)) in *.
  unfold bind at 1, host at 1. cbn [fst snd].
  pose proof (tool_event_started c n r Hres st Hst) as He. cbn [th_event run_host].
  destruct (tool_event _ st) as [[[]|e] st1]; [|exact He].
  unfold bind at 1, host at 1. cbn [fst snd th_checkpoint run_host].
  assert (keeps (announced c n r) checkpoint) as Hck.
  { unfold checkpoint, stop. guard_auto. apply (keeps_ask _ (announced_same c n r)). }
  specialize (Hck st1 He). destruct (checkpoint st1) as [[[]|e] st2]; [|by destruct Hck as [[]]].
  unfold bind at 1, host at 1. cbn [fst snd th_execute run_host].
  pose proof (execute_tool_announced c r pc Hpc st2 Hck) as Hx.
  destruct (execute_tool _ _ st2) as [[x|e] st3]; [|exact Hx].
  unfold bind at 1, lift. destruct (map_err (settle x) _) as [[o b]|e]; [|by destruct Hx].
  unfold bind at 1, on_registry, modify. cbn [fst snd].
  pose proof (cache_settles c {| cached_name := n; cached_arguments := pc_arguments pc; cached_output := o |}
    r st3 Hx) as Hs.
  refine ((_ : guarded (beside settled) (beside core) _) (_, _) Hs).
  apply guarded_bind; [by apply guarded_host; eauto with hoare|]. intros _.
  apply guarded_bind; [|intros _; guard_auto]. apply guarded_host. intros r'. by apply tool_event_other.
Qed.

Lemma preflight_ready r response cs :
  registered r = R0 -> preflight r response = Ok cs -> Forall ready_call cs.
Proof.
  intros Hr (_ & _ & HF & _)%preflight_spec. eapply Forall2_Forall_r; [exact HF|].
  apply Forall_true. intros item pc (_ & _ & _ & _ & _ & _ & _ & _ & _ & Hobj & Hreg & Hval & _).
  unfold ready_call. by rewrite <- Hr.
Qed.

Lemma batch_settled response cs r st :
  settled r st -> preflight r response = Ok cs ->
  match execute_batch (fun _ => bump tool_results_prepared with_tool_results_prepared) cs (r, st) with
  | (Ok _, rs) => beside settled rs
  | (Err _, rs) => beside core rs
  end.
Proof.
  intros Hst Hp. refine (guarded_execute_batch settled core settled_core ready_call run_call_settled
    _ _ cs _ (r, st) Hst).
  - intros _ r'. guard_auto.
  - eapply preflight_ready; [|done]. apply Hst.
Qed.

(** [conclude] only closes and delivers. *)
Lemma conclude_core r x st res st' : core r st -> conclude x st = (res, st') -> core r st'.
Proof.
  intros Hst. unfold conclude.
  assert (core r (set_turn_id None (close_guard st))) as Hc.
  { apply (core_same r (close_guard st)); [done..|]. unfold close_guard. destruct (guard st); [|done].
    apply core_record; [done|]. by eapply core_same, Hst. }
  pose proof (keeps_send (core r) (core_same r) (core_record r)
    (RunFinished (match x with Ok _ => Completed | Err reason => reason end)
       (summary (set_turn_id None (close_guard st)))) Logic.I _ Hc) as Hs.
  destruct (send _ _) as [[[]|e] st1]; intros [= _ <-]; exact Hs.
Qed.

Lemma run_core fuel g a id w res st :
  validate_input (adm_input a) = Ok tt -> results (adm_scope a) = ∅ -> registered (adm_scope a) = R0 ->
  run_admitted fuel g a id w = (res, st) -> exists r, core r st.
Proof.
  intros Hi He Hr.
  assert (settled (adm_scope a) (initial_state id w)) as H0'.
  { split; [split; simpl; try done; by constructor|]. unfold started. simpl. set_solver. }
  pose proof (keeps_send _ (settled_same (adm_scope a)) (settled_record (adm_scope a)) RunStarted
    Logic.I _ H0') as Hs.
  assert (match send RunStarted (initial_state id w) with
          | (Ok _, st) => settled (adm_scope a) st | (Err _, st) => core (adm_scope a) st end) as Hs'.
  { destruct (send _ _) as [[[]|e] s1]; [done | by apply settled_core]. }
  pose proof (execution_after _ settled core settled_stable (fun i Hi => Hi) batch_settled
    fuel g a id w Hi Hs') as Hx.
  unfold run_admitted, attempt.
  destruct (execution fuel g a _) as [[[]|[o| |]] [r st0]].
  - destruct (conclude _ st0) as [res' st'] eqn:Hc. intros [= _ <-].
    exists r. by eapply conclude_core, Hc; [apply Hx].
  - destruct (conclude _ st0) as [res' st'] eqn:Hc. intros [= _ <-].
    exists r. by eapply conclude_core, Hc.
  - intros [= _ <-]. eauto.
  - intros [= _ <-]. eauto.
Qed.
End effects.

(** ** Admitted runs *)
Section admitted.
Context {W : Type} `{Environment W} `{UuidLib} `{SerdeJson} `{ProviderSerde}.
Implicit Types st : State W.

(** The runs the program starts: admitted with a registry, possibly replayed. *)
Inductive admission (g : Gateway) (tools : gmap string Tool) : AdmittedRun -> Prop :=
| admission_new request registry cancelled recorded a :
    registered registry = tools ->
    admit_with_snapshot g request registry cancelled recorded = Ok a -> admission g tools a
| admission_replay a replay a' :
    admission g tools a -> with_replay a g replay = Ok a' -> admission g tools a'.

Lemma admission_facts g tools a :
  admission g tools a ->
  validate_input (adm_input a) = Ok tt /\ results (adm_scope a) = ∅ /\ registered (adm_scope a) = tools.
Proof.
  induction 1 as [request registry cancelled recorded a Hr Ha|a replay a' _ IH Hw].
  - unfold admit_with_snapshot in Ha. destruct (validate_input [User (rq_prompt request)]) as [[]|] eqn:Hv.
    + step_in Ha. by simp_checks.
    + by destruct (Provider.tools (rq_options request)).
  - unfold with_replay in Hw. step_in Hw. exact IH.
Qed.

Lemma admitted_core fuel g tools a id w res st :
  admission g tools a -> run_admitted fuel g a id w = (res, st) -> exists r, core tools r st.
Proof. intros (Hv & He & Hr)%admission_facts. by apply run_core. Qed.

Lemma effects_ok_split tools l newer a older :
  effects_ok tools l -> l = newer ++ a :: older -> effect_ok tools a older.
Proof.
  intros Hl ->. induction newer as [|x newer IH]; simpl in Hl; [by destruct Hl | tauto].
Qed.

(** A run executes a tool only after the delivery of the announcement of
    its call succeeded, directly after it; the tool is the one registered at
    admission under the announced name and its own validation accepted the
    arguments, which are a JSON object.  This holds for every response of the
    model and for runs that fail or never end. *)
Lemma run_executes_validated fuel g tools a id w res st newer t v older :
  admission g tools a -> run_admitted fuel g a id w = (res, st) ->
  log st = newer ++ AExecute t v :: older ->
  exists e older' call_id tool_name,
    older = ASend e (Ok tt) :: older' /\
    ev_event e = EToolEvent (ToolExecutionStarted call_id tool_name) /\
    tools !! tool_name = Some t /\ validate t v = Ok tt /\ is_object v = true.
Proof.
  intros Ha Hr Hl. destruct (admitted_core _ _ _ _ _ _ _ _ Ha Hr) as [r Hc].
  exact (effects_ok_split tools _ _ _ _ (core_effects _ _ _ Hc) Hl).
Qed.

(** C1. No call id is announced for execution twice in a run, over all its
    turns: a call that comes back is answered from the recorded result.  With
    [run_executes_validated], no call is executed twice. *)
Theorem run_executes_once fuel g tools a id w res st :
  admission g tools a -> run_admitted fuel g a id w = (res, st) -> NoDup (started (log st)).
Proof.
  intros Ha Hr. destruct (admitted_core _ _ _ _ _ _ _ _ Ha Hr) as [r Hc]. apply Hc.
Qed.

(** Every request a run submits carries input that passed
    [validate_input]; the summary counts the submissions exactly, and never
    fewer dispatches than tools executed. *)
Lemma run_accounts_effects fuel g tools a id w res st :
  admission g tools a -> run_admitted fuel g a id w = (res, st) ->
  (forall i, AGenerate i ∈ log st -> validate_input i = Ok tt) /\
  count is_generate (log st) = model_requests_attempted (summary st) /\
  count is_execute (log st) <= new_tool_dispatches (summary st).
Proof.
  intros Ha Hr. destruct (admitted_core _ _ _ _ _ _ _ _ Ha Hr) as [r Hc].
  split; [|by split; apply Hc]. intros i (newer & older & Hl)%list_elem_of_split.
  exact (effects_ok_split tools _ _ _ _ (core_effects _ _ _ Hc) Hl).
Qed.
End admitted.
