(* ===== verification/RunTotality.v ===== *)
(** * Every run returns

    The loops of a run are bounded by its own event counter: every iteration
    delivers at least one event, and the counter is a checked [u64].  So fuel
    above [u64::MAX] is never exhausted, and no [unwrap] fails: [run_admitted]
    returns a result for every behaviour of its surroundings, and the same one
    for every larger fuel. *)
From S2P Require Import Prelude Json Errors Identifiers Provider Tools Replay RunData Run Hoare RunSafety.

Section totality.
Context {W : Type} `{Environment W} `{UuidLib} `{SerdeJson} `{ProviderSerde}.
#[local] Existing Instance run_host.
Implicit Types st : State W.

(** At least [n] events were sent; a request id is known if [q], a response if [l]. *)
Definition ready (n : Z) (q l : bool) (st : State W) : Prop :=
  n <= sequence st <= u64_max /\
  (q = true -> is_some (request_id st) = true) /\
  (l = true -> is_some (last_response st) = true).

(** The reasons the code stops for: a failure or a cancellation. *)
Definition reason (e : Stop) : Prop := exists o, e = Reason o /\ o <> Completed.

Lemma reason_Reason o : o <> Completed -> reason (Reason o).
Proof. by exists o. Qed.

Lemma reason_failed c : reason (Reason (failed c)).
Proof. by exists (failed c). Qed.

Lemma reason_cancelled : reason (Reason CancelledLocally).
Proof. by exists CancelledLocally. Qed.
Hint Resolve reason_failed reason_cancelled : hoare.

Lemma ready_same n q l st st' :
  sequence st' = sequence st -> request_id st' = request_id st -> last_response st' = last_response st ->
  ready n q l st -> ready n q l st'.
Proof. unfold ready. by intros -> -> ->. Qed.

Lemma ready_less n m q l q' l' st :
  m <= n -> (q' = true -> q = true) -> (l' = true -> l = true) -> ready n q l st -> ready m q' l' st.
Proof. intros Hm Hq Hl (? & ? & ?). split_and!; [lia|lia|tauto|tauto]. Qed.

Lemma within_ask {A} n q l (f : W -> A * W) : within (ready n q l) reason (ask f).
Proof. intros st Hst. unfold ask. destruct (f (world st)). by eapply ready_same, Hst. Qed.

Lemma within_fail {A} n q l c : within (ready n q l) reason (@fail W A c).
Proof. apply within_throw. apply reason_failed. Qed.

Lemma within_cancel {A} n q l : within (ready n q l) reason (@stop W A CancelledLocally).
Proof. apply within_throw. apply reason_cancelled. Qed.

Lemma within_bump n q l get set : within (ready n q l) reason (bump get set).
Proof.
  intros st Hst. unfold bump. destruct (increment _) as [|o] eqn:Hi; [by eapply ready_same, Hst|].
  apply increment_Err in Hi as ->. split; [apply reason_failed | done].
Qed.

Lemma within_summary n q l f : within (ready n q l) reason (on_summary f).
Proof. apply within_modify. intros st. by apply ready_same. Qed.

Hint Resolve within_ask within_fail within_cancel within_bump within_summary : hoare.
Hint Extern 1 (within _ _ (modify _)) =>
  apply within_modify; intros ?; by apply ready_same : hoare.

Lemma send_counts n q l e :
  holds (ready n q l) (send e) (fun _ => ready (n + 1) q l) (fun x st => reason x /\ ready n q l st).
Proof.
  intros st Hst. pose proof Hst as (Hn & Hq & Hl). unfold send.
  destruct (is_some (sink_error st)); [split; [apply reason_failed | done]|].
  destruct (increment (sequence st)) as [m|o] eqn:Hm.
  2:{ apply increment_Err in Hm as ->. split; [apply reason_failed | done]. }
  apply increment_Ok in Hm as [-> Hm]. destruct (new_uuid _) as [u w].
  destruct (observer_event _ w) as [[[]|x] w']; simpl.
  - split_and!; simpl; auto; lia.
  - split; [apply reason_failed|]. split_and!; simpl; auto; lia.
Qed.

Lemma within_send n q l e : within (ready n q l) reason (send e).
Proof.
  eapply holds_conseq; [apply send_counts|done| |done].
  intros [] st. apply ready_less; [lia|done|done].
Qed.
Hint Resolve within_send : hoare.

Lemma within_checkpoint n q l : within (ready n q l) reason checkpoint.
Proof. unfold checkpoint. within_auto. Qed.
Hint Resolve within_checkpoint : hoare.

Lemma within_cancellable {A} n q l (op : W -> option A * W) :
  within (ready n q l) reason (cancellable op).
Proof. unfold cancellable. within_auto. Qed.
Hint Resolve within_cancellable : hoare.

Lemma within_settle n q l a r : within (ready n q l) reason (settle_delivery a r).
Proof. unfold settle_delivery, fail. within_auto. Qed.
Hint Resolve within_settle : hoare.

Lemma unwrap_request n l :
  holds (ready n true l)
    (let! r := gets request_id in unwrap r) (fun _ => ready n true l)
    (fun x st => reason x /\ ready n true l st).
Proof.
  intros st Hst. pose proof Hst as (_ & Hq & _). specialize (Hq eq_refl).
  unfold bind, gets. by destruct (request_id st).
Qed.

Lemma within_tool_event n q l e : within (ready n q l) reason (tool_event e).
Proof. unfold tool_event. within_auto. Qed.

Lemma within_tool_result n l c o b : within (ready n true l) reason (tool_result c o b).
Proof.
  unfold tool_result. apply within_bind; [within_auto|]. intros [|]; [within_auto|].
  intros st Hst. pose proof Hst as (_ & Hq & _). specialize (Hq eq_refl).
  unfold bind at 1, gets. destruct (request_id st); [|done]. revert st Hst Hq.
  assert (within (ready n true l) reason (let! r := ask (observer_tool_result s c o b) in
    settle_delivery (AToolResult s c o b) r)) as Hw by within_auto.
  intros st Hst _. exact (Hw st Hst).
Qed.

Lemma within_execute_tool n q l t v : within (ready n q l) reason (execute_tool t v).
Proof. unfold execute_tool. within_auto. Qed.

Lemma within_batch n l cs :
  within (beside (fun _ => ready n true l)) reason
    (execute_batch (fun _ => bump tool_results_prepared with_tool_results_prepared) cs).
Proof.
  apply within_execute_batch; [intros; apply reason_failed | apply within_checkpoint
    | intros; apply within_tool_event | intros; apply within_tool_result
    | intros; apply within_execute_tool | intros; apply within_bump].
Qed.

Lemma prepare_tools_total n :
  holds (beside (fun _ => ready n true true)) prepare_tools
    (fun _ => beside (fun _ => ready n true true))
    (fun e rs => reason e /\ beside (fun _ => ready n true true) rs).
Proof.
  intros [r st] Hst. pose proof Hst as (_ & _ & Hl). specialize (Hl eq_refl). simpl in Hl.
  unfold prepare_tools, bind at 1, host at 1, gets at 1. cbn [fst snd].
  destruct (last_response st) as [response|]; [|done]. clear Hl. revert Hst.
  unfold unwrap, bind at 1, host at 1, ret at 1. cbn [fst snd].
  refine ((_ : within _ _ _) (r, st)). unfold fail. destruct (outcome response); try by within_auto.
  destruct (existsb unsupported _); [within_auto|]. destruct (existsb is_call _); simpl; [|within_auto].
  apply within_bind; [within_auto|intros _]. apply within_bind; [within_auto|intros r'].
  destruct (preflight r' response) as [cs|]; [|within_auto].
  apply within_bind; [within_auto|intros _]. 
  intros rs Hrs. unfold bind at 1. pose proof (within_batch n true cs rs Hrs) as Hb.
  destruct (execute_batch _ cs rs) as [[out|e] rs'] eqn:Hx; [|exact Hb].
  destruct rs as [r0 s0], rs' as [r1 s1]. apply batch_results in Hx as (items & -> & _).
  revert Hb. refine ((_ : within _ _ _) (r1, s1)). within_auto.
Qed.

(** ** Collecting a response *)

Lemma within_observe_event n q l e s p r : within (ready n q l) reason (observe_event e s p r).
Proof.
  intros st Hst. unfold observe_event. destruct (observe e s p r _) as [[[]|o] [c x]] eqn:Ho; simpl.
  - by eapply ready_same, Hst.
  - apply observe_Err in Ho as [code ->]. split; [apply reason_failed | by eapply ready_same, Hst].
Qed.

Lemma note_terminal_total n l e :
  holds (ready n true l) (note_terminal e)
    (fun t st => match t with Some (Err o) => o <> Completed | _ => True end /\
                 ready n true (match t with Some (Ok _) => true | _ => l end) st)
    (fun x st => reason x /\ ready n true l st).
Proof.
  intros st (Hn & Hq & Hl). unfold note_terminal.
  destruct (env_event e); simpl; split_and!; simpl; try done; lia.
Qed.

Lemma collect_response_total fuel n l s p :
  u64_max - n < Z.of_nat fuel ->
  holds (ready n true l) (collect_response fuel s p) (fun _ => ready n true true)
    (fun x st => reason x /\ ready n false false st).
Proof.
  revert n l. induction fuel as [|fuel IH]; intros n l Hfuel.
  { intros st (Hn & _). lia. }
  cbn [collect_response].
  assert (forall {A} (c : SM (State W) Stop A) Q, 
    holds (ready n true l) c Q (fun x st => reason x /\ ready n true l st) ->
    holds (ready n true l) c Q (fun x st => reason x /\ ready n false false st)) as Hw.
  { intros A c Q Hc. eapply holds_conseq; [exact Hc|done|done|]. intros e st [He Hst].
    split; [done|]. by eapply ready_less, Hst. }
  apply (holds_bind _ _ _ _ _ _ (Hw _ _ _ (within_checkpoint n true l))). intros _.
  apply (holds_bind _ _ _ _ _ _ (Hw _ _ _ (within_cancellable n true l provider_next))).
  intros [event|].
  2:{ apply Hw. intros st Hst. by split; [apply reason_failed|]. }
  intros st Hst. pose proof Hst as (_ & Hq & _). specialize (Hq eq_refl).
  unfold bind at 1, gets. destruct (request_id st) as [request|]; [|done]. clear Hq.
  revert st Hst. refine ((_ : holds _ _ _ _)). unfold unwrap.
  eapply holds_bind with (Q := fun _ => ready n true l); [by intros st Hst|]. intros request'.
  apply (holds_bind _ _ _ _ _ _ (Hw _ _ _ (within_observe_event n true l event s p request'))). intros _.
  apply (holds_bind _ _ _ _ _ _ (Hw _ _ _ (note_terminal_total n l event))). intros t.
  apply holds_pure. intros Ht.
  eapply holds_bind with (Q := fun _ => ready (n + 1) true (match t with Some (Ok _) => true | _ => l end)).
  { eapply holds_conseq; [apply send_counts|done|done|]. intros e st [He Hst].
    split; [done|]. by eapply ready_less, Hst. }
  intros _. destruct t as [[[]|o]|].
  - intros st Hst. simpl. eapply ready_less, Hst; [lia|done|done].
  - intros st Hst. simpl. split; [by apply reason_Reason|]. eapply ready_less, Hst; [lia|done|done].
  - eapply holds_conseq; [apply (IH (n + 1) l)|done| |]; [lia| |].
    + intros [] st Hst. eapply ready_less, Hst; [lia|done|done].
    + intros e st [He Hst]. split; [done|]. eapply ready_less, Hst; [lia|done|done].
Qed.

(** ** Turns *)

(** The triples of the driver: progress on success, a reason on failure. *)
Definition ends {A} (n m : Z) (c : SM (ToolRegistry * State W) Stop A) : Prop :=
  holds (beside (fun _ => ready n false false)) c (fun _ => beside (fun _ => ready m false false))
    (fun e rs => reason e /\ beside (fun _ => ready n false false) rs).

Lemma ends_bind {A B} n m k (c : SM (ToolRegistry * State W) Stop A) (f : A -> SM _ Stop B) :
  n <= m -> ends n m c -> (forall a, ends m k (f a)) -> ends n k (bind c f).
Proof.
  intros Hnm Hc Hf. eapply holds_bind; [exact Hc|]. intros a.
  eapply holds_conseq; [apply Hf|done|done|]. intros e [r st] [He Hst]. split; [done|].
  unfold beside in *. eapply ready_less, Hst; [lia|done|done].
Qed.

Lemma ends_within {A} n (c : SM (State W) Stop A) :
  within (ready n false false) reason c -> ends n n (host c).
Proof. intros Hc. by apply within_host. Qed.

Lemma ends_send n e : ends n (n + 1) (host (send e)).
Proof.
  intros [r st] Hst. pose proof (send_counts n false false e st Hst) as Hs.
  unfold host. cbn [fst snd]. by destruct (send e st) as [[[]|x] st'].
Qed.

Lemma within_submit n q l i : within (ready n q l) reason (submit i).
Proof. unfold submit, fail. within_auto. Qed.

Lemma within_finish n q l t : within (ready n q l) reason (finish_turn t).
Proof. unfold finish_turn. within_auto. Qed.

Lemma begin_turn_total n q l : holds (ready n q l) begin_turn (fun _ => ready n false false)
  (fun e st => reason e /\ ready n false false st).
Proof.
  assert (within (ready n false false) reason begin_turn) as Hb.
  { unfold begin_turn. within_auto.
    apply within_modify. intros st (Hn & _). by split_and!; simpl; try lia. }
  eapply holds_conseq; [exact Hb| |done|done]. intros st. by apply ready_less.
Qed.

Lemma turn_body_total fuel n s p i :
  u64_max - (n + 1) < Z.of_nat fuel -> ends n (n + 1) (turn_body fuel s p i).
Proof.
  intros Hfuel. unfold turn_body.
  apply (ends_bind n n); [lia|apply ends_within; within_auto|]. intros num.
  apply (ends_bind n (n + 1)); [lia|apply ends_send|]. intros _.
  apply (ends_bind _ (n + 1)); [lia|apply ends_within; within_auto|]. intros _.
  apply (ends_bind _ (n + 1)); [lia|apply ends_within, within_submit|]. intros request.
  unfold fail. destruct (negb _); [apply ends_within; within_auto|].
  apply (ends_bind _ (n + 1)); [lia|apply ends_within; within_auto|]. intros _.
  intros [r st] Hst.
  unfold bind at 1, host at 1, modify at 1. cbn [fst snd].
  assert (ready (n + 1) true false (set_request_id (Some request) st)) as Hs1.
  { destruct Hst as (Hn & _). by split_and!; simpl in *; try lia. }
  unfold bind at 1, host at 1, on_summary, modify at 1. cbn [fst snd].
  eapply (ready_same _ _ _ _ (set_summary (with_last_request_id (Some request)
    (summary (set_request_id (Some request) st))) (set_request_id (Some request) st))) in Hs1; [|done..].
  unfold bind, host at 1. cbn [fst snd].
  pose proof (collect_response_total fuel (n + 1) false s p Hfuel _ Hs1) as Hc.
  destruct (collect_response fuel s p _) as [[[]|e] st2].
  - pose proof (prepare_tools_total (n + 1) (r, st2) Hc) as Hp.
    destruct (prepare_tools (r, st2)) as [[o|e] [r3 st3]]; simpl in *; unfold beside in *; simpl in *.
    + by eapply ready_less, Hp.
    + destruct Hp as [He Hp]. split; [done|]. by eapply ready_less, Hp; [lia|..].
  - destruct Hc as [He Hc]. split; [done|]. unfold beside. simpl. eapply ready_less, Hc; [lia|done|done].
Qed.

Lemma drive_total fuel n s p i :
  u64_max - n < Z.of_nat fuel ->
  holds (beside (fun _ => ready n false false)) (drive fuel s p i)
    (fun _ => beside (fun _ => ready n false false))
    (fun e _ => reason e).
Proof.
  revert n i. induction fuel as [|fuel IH]; intros n i Hfuel.
  { intros [r st] (Hn & _). simpl in Hn. lia. }
  cbn [drive]. intros [r st] Hst.
  unfold bind at 1, host at 1. cbn [fst snd]. pose proof (begin_turn_total n false false st Hst) as Hb.
  destruct (begin_turn st) as [[[]|e] st1]; [|by destruct Hb].
  unfold bind at 1, attempt.
  pose proof (turn_body_total fuel n s p i ltac:(lia) (r, st1) Hb) as Ht.
  destruct (turn_body fuel s p i (r, st1)) as [[t|e] [r2 st2]].
  - unfold bind, host at 1. cbn [fst snd].
    pose proof (within_finish (n + 1) false false (Ok t) st2 Ht) as Hf.
    destruct (finish_turn (Ok t) st2) as [[[]|e] st3]; [|by destruct Hf]. destruct t as [results|].
    + specialize (IH (n + 1) results ltac:(lia) (r2, st3) Hf).
      destruct (drive fuel s p results (r2, st3)) as [[[]|e] [r4 st4]]; [|exact IH].
      unfold beside in *. simpl in *. eapply ready_less, IH; [lia|done|done].
    + unfold beside in *. simpl in *. eapply ready_less, Hf; [lia|done|done].
  - destruct Ht as [(o & -> & Ho) Ht]. unfold bind, host at 1. cbn [fst snd].
    pose proof (within_finish n false false (Err o) st2 Ht) as Hf.
    destruct (finish_turn (Err o) st2) as [[[]|e] st3]; [|by destruct Hf]. simpl. by apply reason_Reason.
Qed.

Lemma within_restore n q l s m r : within (ready n q l) reason (restore s m r).
Proof. unfold restore, announce, fail. within_auto. Qed.

Lemma within_open n q l g p o : within (ready n q l) reason (open_session g p o).
Proof. unfold open_session, fail. within_auto. Qed.

Lemma execution_total fuel g a id w :
  u64_max < Z.of_nat fuel ->
  match execution fuel g a (adm_scope a, initial_state id w) with
  | (Ok _, _) => True
  | (Err e, _) => reason e
  end.
Proof.
  intros Hfuel.
  assert (holds (beside (fun _ => ready 0 false false)) (execution fuel g a)
    (fun _ _ => True) (fun e _ => reason e)) as Hx.
  { assert (forall {A} (c : SM (State W) Stop A), within (ready 0 false false) reason c ->
      holds (beside (fun _ => ready 0 false false)) (host c)
        (fun _ => beside (fun _ : ToolRegistry => ready 0 false false)) (fun e _ => reason e)) as Hw.
    { intros A c Hc. eapply holds_conseq; [by apply ends_within|done|done|by intros e s []]. }
    unfold execution, session_phase.
    apply (holds_bind _ _ _ _ _ _ (Hw _ _ (within_send _ _ _ _))). intros _.
    apply (holds_bind _ _ _ _ _ _ (Hw _ _ (within_checkpoint _ _ _))). intros _.
    apply (holds_bind _ _ _ _ _ _ (Hw _ _ (within_open _ _ _ _ _ _))). intros session.
    eapply holds_bind; [apply Hw; unfold take_session; within_auto|]. intros u. simpl. clear u.
    destruct (bool_decide _ && negb _).
    { intros [r st] _. simpl. apply reason_failed. }
    eapply holds_bind; [apply Hw; within_auto|]. intros u. simpl. clear u.
    apply (holds_bind _ _ _ _ _ _ (Hw _ _ (within_restore _ _ _ _ _ _))). intros _.
    eapply holds_conseq; [apply (drive_total fuel 0); lia|done|done|done]. }
  specialize (Hx (adm_scope a, initial_state id w)).
  destruct (execution fuel g a _) as [[[]|e] rs]; [done|].
  apply Hx. unfold beside, ready. simpl. unfold u64_max. split_and!; done.
Qed.

(** ** More fuel changes nothing *)

(** [c'] agrees with [c] wherever [c] does not run out of fuel. *)
Definition more {S A} (c c' : SM S Stop A) : Prop :=
  forall s, fst (c s) <> Err OutOfFuel -> c' s = c s.

Lemma more_refl {S A} (c : SM S Stop A) : more c c.
Proof. by intros s _. Qed.

Lemma more_bind {S A B} (c c' : SM S Stop A) (k k' : A -> SM S Stop B) :
  more c c' -> (forall a, more (k a) (k' a)) -> more (bind c k) (bind c' k').
Proof.
  intros Hc Hk s. unfold bind. specialize (Hc s). destruct (c s) as [[a|e] s1]; simpl in *.
  - intros Hx. rewrite Hc by done. by apply Hk.
  - intros Hx. rewrite Hc; [done|]. intros [= ->]. by apply Hx.
Qed.

Lemma more_host {A} (c c' : SM (State W) Stop A) :
  more c c' -> more (host (R := ToolRegistry) c) (host c').
Proof.
  intros Hc [r st]. unfold host. cbn [fst snd]. specialize (Hc st).
  destruct (c st) as [x st1]. intros Hx. by rewrite Hc.
Qed.

Lemma more_attempt {S A} (c c' : SM S Stop A) : more c c' -> more (attempt c) (attempt c').
Proof.
  intros Hc s. unfold attempt. specialize (Hc s).
  destruct (c s) as [[a|[o| |]] s1]; simpl in *; intros Hx; [| |done|]; by rewrite Hc.
Qed.

Ltac more_auto :=
  repeat first [ apply more_refl | apply more_bind; [|intros ?] | apply more_host | apply more_attempt
    | match goal with |- more (match ?x with _ => _ end) _ => destruct x end ].

Lemma collect_more f f' s p :
  (f <= f')%nat -> more (collect_response f s p) (collect_response f' s p).
Proof.
  revert f'. induction f as [|f IH]; intros f' Hle; [by intros st Hx|].
  destruct f' as [|f']; [lia|]. cbn [collect_response]. more_auto. apply IH. lia.
Qed.

Lemma drive_more f f' s p i : (f <= f')%nat -> more (drive f s p i) (drive f' s p i).
Proof.
  revert f' i. induction f as [|f IH]; intros f' i Hle; [by intros [r st] Hx|].
  destruct f' as [|f']; [lia|]. cbn [drive]. unfold turn_body. more_auto;
    [apply collect_more; lia | apply IH; lia].
Qed.

Lemma run_admitted_more f f' g a id w :
  (f <= f')%nat -> fst (run_admitted f g a id w) <> Err OutOfFuel ->
  run_admitted f' g a id w = run_admitted f g a id w.
Proof.
  intros Hle. unfold run_admitted.
  assert (more (attempt (execution f g a)) (attempt (execution f' g a))) as Hm.
  { unfold execution, session_phase. more_auto. by apply drive_more. }
  specialize (Hm (adm_scope a, initial_state id w)).
  destruct (attempt (execution f g a) _) as [[r|e] [reg st]]; intros Hx; rewrite Hm; try done.
  intros [= ->]. by apply Hx.
Qed.

Lemma run_admitted_total fuel g a id w :
  u64_max < Z.of_nat fuel -> exists res, fst (run_admitted fuel g a id w) = Ok res.
Proof.
  intros Hfuel. pose proof (execution_total fuel g a id w Hfuel) as Hx. unfold run_admitted, attempt.
  destruct (execution fuel g a _) as [[[]|e] [r st]]; [|destruct Hx as (o & -> & _)];
    destruct (conclude _ st) as [res st']; by exists res.
Qed.

(** C38. Every admitted run returns: whatever the provider streams, the tools
    answer, the observer and the cancellation do, [run_admitted] ends with a
    result and never with a failed [unwrap]; the loops need at most [u64::MAX]
    iterations because every one of them delivers a numbered event, and any
    larger amount of fuel gives the same result and the same effects. *)
Theorem run_returns fuel fuel' g a id w :
  u64_max < Z.of_nat fuel -> (fuel <= fuel')%nat ->
  (exists res, fst (run_admitted fuel g a id w) = Ok res) /\
  run_admitted fuel' g a id w = run_admitted fuel g a id w.
Proof.
  intros Hfuel Hle. destruct (run_admitted_total fuel g a id w Hfuel) as [res Hres].
  split; [by exists res|]. apply run_admitted_more; [done|]. by rewrite Hres.
Qed.

(** ** What completion means *)

(** The model has nothing more to ask for. *)
Definition final_response (st : State W) : Prop :=
  exists response, last_response st = Some response /\ outcome response = RCompleted /\
    Forall (fun item => unsupported item = false /\ is_call item = false) (output response).

Lemma existsb_Forall {A} (p : A -> bool) l : existsb p l = false -> Forall (fun x => p x = false) l.
Proof.
  induction l as [|x l IH]; simpl; [by constructor|]. intros [Hx Hl]%orb_false_iff. auto.
Qed.

Lemma prepare_tools_final r st rs' :
  prepare_tools (r, st) = (Ok None, rs') -> rs' = (r, st) /\ final_response st.
Proof.
  unfold prepare_tools, bind at 1, host at 1, gets at 1. cbn [fst snd].
  unfold bind at 1, host at 1. cbn [fst snd]. unfold unwrap.
  destruct (last_response st) as [response|] eqn:Hl; [|done]. cbn [ret].
  destruct (outcome response) eqn:Ho; try done.
  destruct (existsb unsupported _) eqn:Hu; [done|]. destruct (existsb is_call _) eqn:Hc; cbn [negb].
  - intros Hx. exfalso. unbind Hx. unbind Hx. destruct (preflight _ _); [|done]. unbind Hx. unbind Hx.
    destruct a3; [|done]. unbind Hx. by destruct (validate_input _).
  - intros [= <-]. split; [done|]. exists response. split_and!; try done.
    apply Forall_and. split; by apply existsb_Forall.
Qed.

Lemma send_response e st x st' : send e st = (x, st') -> last_response st' = last_response st.
Proof.
  unfold send. destruct (is_some _); [by intros [= _ <-]|].
  destruct (increment _); [|by intros [= _ <-]]. destruct (new_uuid _) as [u w].
  by destruct (observer_event _ w) as [[[]|y] w']; intros [= _ <-].
Qed.

Lemma finish_turn_response t st x st' :
  finish_turn t st = (x, st') -> last_response st' = last_response st.
Proof.
  unfold finish_turn, bind at 1, gets at 1. destruct (is_some _); [by intros [= _ <-]|].
  unfold bind at 1, bump. destruct (increment _); [|by intros [= _ <-]].
  unfold bind, gets. by intros ->%send_response.
Qed.

Lemma drive_final fuel s p i rs rs' :
  drive fuel s p i rs = (Ok tt, rs') -> final_response (snd rs').
Proof.
  revert i rs. induction fuel as [|fuel IH]; intros i rs; cbn [drive]; [done|]. intros Hd.
  unbind Hd. unbind Hd. unfold attempt in Hc0.
  destruct (turn_body fuel s p i s0) as [[t|[o| |]] s2] eqn:Ht; try done; injection Hc0 as <- <-.
  - unbind Hd. destruct t as [items|]; [by eapply IH|]. injection Hd as <-.
    unfold turn_body in Ht. do 4 (unbind Ht). destruct (negb _); [done|]. do 4 (unbind Ht).
    destruct s10 as [r9 st9].
    apply prepare_tools_final in Ht as [-> (response & Hl & Hr)]. exists response.
    unfold host in Hc0. cbn [fst snd] in Hc0.
    destruct (finish_turn (Ok None) st9) as [y st10] eqn:Hf. injection Hc0 as -> <-. simpl.
    apply finish_turn_response in Hf. by rewrite Hf.
  - unbind Hd. done.
Qed.

(** A run reports [Completed] only when the last response it returns is a
    completed one whose items are all messages or reasoning: every tool call of
    the conversation was answered and the model asked for nothing more.  A run
    that was cancelled, that failed or whose sink failed never reports it. *)
Lemma run_completed_final fuel g a id w res st :
  run_admitted fuel g a id w = (Ok res, st) -> res_outcome res = Completed ->
  exists response, res_last_response res = Some response /\ outcome response = RCompleted /\
    Forall (fun item => unsupported item = false /\ is_call item = false) (output response).
Proof.
  intros Hr Hout. set (f := Nat.max fuel (Z.to_nat (u64_max + 1))).
  assert (u64_max < Z.of_nat f) as Hfuel.
  { unfold f. rewrite Nat2Z.inj_max, Z2Nat.id; unfold u64_max; lia. }
  rewrite <- (run_admitted_more fuel f) in Hr; [|lia|by rewrite Hr].
  pose proof (execution_total f g a id w Hfuel) as Hx.
  apply run_admitted_Ok in Hr as (r & x & reg & st0 & He & Hc & Hm). rewrite He in Hx.
  assert (res_last_response res = last_response st0 /\
          res_outcome res = match r with Ok _ => Completed | Err o => o end) as [-> Hres].
  { revert Hc. unfold conclude, close_guard.
    destruct (guard st0); destruct (send _ _) as [y st1] eqn:Hs; apply send_response in Hs;
      intros [= <- <-]; simpl in *; by rewrite Hs. }
  destruct x as [[]|e].
  - unfold execution, session_phase in He. do 4 (unbind He). destruct (_ && _); [done|].
    do 2 (unbind He). by apply drive_final in He.
  - destruct Hx as (o & -> & Ho), Hm as (o' & [= <-] & ->). congruence.
Qed.
End totality.
