(* ===== verification/RunExamples.v ===== *)
(** * A concrete run

    A scripted provider, one tool call and a final answer: the hypotheses of the
    theorems about runs hold of it, so none of them is vacuous. *)
From S2P Require Import Prelude Json Errors Identifiers Provider Tools Replay RunData Run Hoare RunSafety RunEffects RunTotality.

(** The world is the list of provider events still to come. *)
Definition script_env : Environment (list EventEnvelope) := {|
  is_cancelled w := (false, w);
  new_uuid w := ("event", w);
  observer_event _ w := (Ok tt, w);
  observer_provider_opened _ _ _ w := (Ok tt, w);
  observer_tool_result _ _ _ _ w := (Ok tt, w);
  provider_open _ _ w := (Some (Ok "s"), w);
  replay_identity w := (None, w);
  install_replay _ w := (None, w);
  provider_generate _ w := (Some (Ok "01234567-89ab-1cde-8fab-0123456789ab"), w);
  provider_next w := match w with [] => (Some None, []) | e :: w => (Some (Some e), w) end;
  tool_execute _ v w := (Some (add_numbers_execute v), w);
  provider_close w := w
|}.

#[local] Existing Instances script_env example_uuid example_json example_serde.

Definition script_event (n : Z) (e : ProviderEvent) : EventEnvelope := {|
  env_schema_version := 1; env_sequence := n; env_event_id := "e"; env_session_id := "s";
  env_request_id := Some "01234567-89ab-1cde-8fab-0123456789ab"; env_provider := "fixture";
  env_provider_sequence := None; env_event := e
|}.

Definition answer : OutputItem := {|
  item_id := None; kind := KMessage; native_type := "message"; function_call := None;
  native := VObject []
|}.

Definition script : list EventEnvelope :=
  [script_event 1 (PResponseStarted "resp-1");
   script_event 2 (PResponseFinished (example_response [example_call "call-1"]));
   script_event 3 (PResponseFinished (example_response [answer]))].

Definition yes : Capability := {| implemented := true; verification := "test" |}.
Definition fixture : Provider := {|
  provider_id := "fixture";
  capabilities := {| websocket := yes; sse := yes; continuation := yes; function_tools := yes; advanced := [] |};
  provider_validate_replay _ _ _ := Ok tt
|}.
Definition example_gateway : Gateway := {| providers := {["fixture" := fixture]} |}.

Definition example_request : RunRequest := {|
  rq_provider_id := "fixture";
  rq_options := {| model := "m"; instructions := "i"; tools := []; transport := Sse; required_features := [] |};
  rq_prompt := "2+3?"
|}.

Definition example_admission : result AdmittedRun GatewayError :=
  admit_run example_gateway example_request example_registry false.
Definition example_admitted : AdmittedRun :=
  match example_admission with
  | Ok a => a
  | Err _ => {| adm_provider_id := ""; adm_options := rq_options example_request; adm_input := [];
                adm_scope := new_registry; adm_replay := None |}
  end.

Lemma example_admission_ok : example_admission = Ok example_admitted.
Proof.
  unfold example_admitted. destruct example_admission eqn:E; [done|].
  assert (is_ok example_admission = true) as Hok by (vm_compute; reflexivity).
  by rewrite E in Hok.
Qed.

Lemma example_admission_holds :
  admission example_gateway (registered example_registry) example_admitted.
Proof. by eapply admission_new, example_admission_ok. Qed.

Definition example_result : result RunResult Stop * State (list EventEnvelope) :=
  run_admitted 10 example_gateway example_admitted "run-1" script.

(** A computation that returned, as an equation. *)
Lemma returned {A E S} (x : result A E * S) : is_ok (fst x) = true -> exists a, x = (Ok a, snd x).
Proof. destruct x as [[a|e] s]; [by exists a | done]. Qed.

Lemma example_run_ok :
  exists res, run_admitted 10 example_gateway example_admitted "run-1" script = (Ok res, snd example_result).
Proof. apply (returned example_result). vm_compute. reflexivity. Qed.

Lemma run_event_stream_witness :
  exists res, run_admitted 10 example_gateway example_admitted "run-1" script = (Ok res, snd example_result) /\
    stream "run-1" (events (snd example_result)) /\ length (events (snd example_result)) = 11%nat.
Proof.
  destruct example_run_ok as [res Hr]. exists res. split; [exact Hr|]. split.
  - exact (proj1 (run_event_stream 10 example_gateway example_admitted "run-1" script res _ Hr)).
  - vm_compute. reflexivity.
Defined.

(** A run whose observer refuses its fifth event. *)
Definition refusing_env : Environment (list EventEnvelope) := {|
  is_cancelled w := (false, w);
  new_uuid w := ("event", w);
  observer_event e w := (if ev_sequence e =? 5 then Err SinkFailed else Ok tt, w);
  observer_provider_opened _ _ _ w := (Ok tt, w);
  observer_tool_result _ _ _ _ w := (Ok tt, w);
  provider_open _ _ w := (Some (Ok "s"), w);
  replay_identity w := (None, w);
  install_replay _ w := (None, w);
  provider_generate _ w := (Some (Ok "01234567-89ab-1cde-8fab-0123456789ab"), w);
  provider_next w := match w with [] => (Some None, []) | e :: w => (Some (Some e), w) end;
  tool_execute _ v w := (Some (add_numbers_execute v), w);
  provider_close w := w
|}.

Definition refused_result : result RunResult Stop * State (list EventEnvelope) :=
  run_admitted (H := refusing_env) 10 example_gateway example_admitted "run-1" script.

Lemma existsb_split {A} (p : A -> bool) l :
  existsb p l = true -> exists newer x older, l = newer ++ x :: older /\ p x = true.
Proof.
  intros (x & Hin & Hx)%existsb_exists. apply in_split in Hin as (newer & older & ->). eauto.
Qed.

Lemma run_silent_after_failure_witness :
  exists res newer x older,
    log (snd refused_result) = newer ++ x :: older /\ delivered x = false /\
    Forall (eq AClose) newer /\ res_events_complete res = false /\ is_some (res_sink_error res) = true.
Proof.
  destruct (returned refused_result) as [res Hr]; [vm_compute; reflexivity|].
  destruct (existsb_split (fun a => negb (delivered a)) (log (snd refused_result)))
    as (newer & x & older & Hl & Hx%negb_true_iff); [vm_compute; reflexivity|].
  exists res, newer, x, older. split; [exact Hl|]. split; [exact Hx|].
  exact (proj1 (@run_silent_after_failure _ refusing_env _ _ _ 10 example_gateway example_admitted
    "run-1" script res _ Hr) newer x older Hl Hx).
Defined.

Lemma run_closes_session_witness :
  exists s, AOpen s ∈ log (snd example_result).
Proof.
  destruct example_run_ok as [res Hr].
  apply (proj1 (run_closes_session 10 example_gateway example_admitted "run-1" script res _ Hr)).
  destruct (existsb_split (fun a => match a with AClose => true | _ => false end)
    (log (snd example_result))) as (newer & x & older & Hl & Hx); [vm_compute; reflexivity|].
  destruct x; try discriminate Hx. rewrite Hl. apply elem_of_app. right. apply elem_of_cons. by left.
Defined.

Lemma run_executes_validated_witness :
  exists newer t v older, log (snd example_result) = newer ++ AExecute t v :: older /\
    exists e older' call_id tool_name, older = ASend e (Ok tt) :: older' /\
      ev_event e = EToolEvent (ToolExecutionStarted call_id tool_name) /\
      registered example_registry !! tool_name = Some t /\ validate t v = Ok tt /\ is_object v = true.
Proof.
  destruct (existsb_split is_execute (log (snd example_result)))
    as (newer & x & older & Hl & Hx); [vm_compute; reflexivity|].
  destruct x as [| | | | |t v|]; try discriminate Hx. exists newer, t, v, older. split; [exact Hl|].
  exact (run_executes_validated 10 example_gateway _ example_admitted "run-1" script
    (fst example_result) (snd example_result) newer t v older example_admission_holds
    (surjective_pairing _) Hl).
Defined.

Lemma run_executes_once_witness : NoDup (started (log (snd example_result))).
Proof.
  exact (run_executes_once 10 example_gateway _ example_admitted "run-1" script
    (fst example_result) (snd example_result) example_admission_holds (surjective_pairing _)).
Defined.

Lemma run_accounts_effects_witness :
  count is_generate (log (snd example_result)) = 2 /\
  count is_generate (log (snd example_result)) = model_requests_attempted (summary (snd example_result)).
Proof.
  split; [vm_compute; reflexivity|].
  exact (proj1 (proj2 (run_accounts_effects 10 example_gateway _ example_admitted "run-1" script
    (fst example_result) (snd example_result) example_admission_holds (surjective_pairing _)))).
Defined.

(** Fuel above [u64::MAX], never evaluated. *)
Definition enough : nat := Z.to_nat (u64_max + 1).

Lemma enough_is_enough : u64_max < Z.of_nat enough.
Proof. unfold enough. rewrite Z2Nat.id; unfold u64_max; lia. Qed.

Lemma run_returns_witness :
  u64_max < Z.of_nat enough /\
  exists res, fst (run_admitted enough example_gateway example_admitted "run-1" script) = Ok res.
Proof.
  split; [exact enough_is_enough|].
  exact (proj1 (run_returns enough enough example_gateway example_admitted "run-1" script
    enough_is_enough (le_n _))).
Defined.

Lemma run_completed_final_witness :
  exists res response, fst example_result = Ok res /\ res_outcome res = Completed /\
    res_last_response res = Some response /\
    Forall (fun item => unsupported item = false /\ is_call item = false) (output response).
Proof.
  destruct example_run_ok as [res Hr].
  assert (res_outcome res = Completed) as Ho.
  { assert (match fst example_result with Ok r => Some (res_outcome r) | Err _ => None end = Some Completed)
      as Hc by (vm_compute; reflexivity).
    unfold example_result in Hc. rewrite Hr in Hc. injection Hc as Hc. exact Hc. }
  destruct (run_completed_final 10 example_gateway example_admitted "run-1" script res _ Hr Ho)
    as (response & Hl & _ & HF).
  exists res, response. unfold example_result. rewrite Hr. repeat split; assumption.
Defined.
