(* ===== verification/Records.v ===== *)
(** * Stored values (src/src/storage: error.rs, ids.rs, records.rs, replay_metadata.rs, dto.rs, history.rs)

    What the session database holds and what may enter it: identifiers, receipts,
    creation provenance, the records a run appends, and the payloads of stored
    events, with the checks that construct them.  JSON texts and digests are
    strings; [serde_json] and SHA-256 are the class [StorageSerde]. *)
From S2P Require Import Prelude Json Errors Identifiers Provider Tools Replay RunData.

(** ** Errors *)
Module CommitCertainty.
Inductive t : Type := NotApplicable | NotCommitted | Unknown.
End CommitCertainty.

Module StorageErrorKind.
Inductive t : Type :=
| InvalidInput | Busy | Closed | NotFound | Unavailable | UnsupportedVersion | Integrity
| CommandConflict | InvalidTransition | ActiveRunExists | StaleHistory | CatalogRepairRequired
| CreationIncomplete | Io | CommitUnknown.
#[global] Instance eq_dec : EqDecision t.
Proof. solve_decision. Defined.
End StorageErrorKind.

Record StorageError : Type := {
  se_kind : StorageErrorKind.t;
  se_certainty : CommitCertainty.t
}.

(** [StorageError::new]. *)
Definition storage_error (k : StorageErrorKind.t) : StorageError := {|
  se_kind := k;
  se_certainty := match k with
                  | StorageErrorKind.CommitUnknown => CommitCertainty.Unknown
                  | _ => CommitCertainty.NotApplicable
                  end
|}.

(** [StorageError::not_committed]. *)
Definition not_committed (e : StorageError) : StorageError :=
  {| se_kind := se_kind e; se_certainty := CommitCertainty.NotCommitted |}.

(** [StorageError::code] and [StorageError::from_code]. *)
Definition kind_code (k : StorageErrorKind.t) : string :=
  match k with
  | StorageErrorKind.InvalidInput => "storage.invalid_input"
  | StorageErrorKind.Busy => "storage.busy"
  | StorageErrorKind.Closed => "storage.closed"
  | StorageErrorKind.NotFound => "storage.not_found"
  | StorageErrorKind.Unavailable => "storage.unavailable"
  | StorageErrorKind.UnsupportedVersion => "storage.unsupported_version"
  | StorageErrorKind.Integrity => "storage.integrity"
  | StorageErrorKind.CommandConflict => "storage.command_conflict"
  | StorageErrorKind.InvalidTransition => "storage.invalid_transition"
  | StorageErrorKind.ActiveRunExists => "storage.active_run_exists"
  | StorageErrorKind.StaleHistory => "storage.stale_history"
  | StorageErrorKind.CatalogRepairRequired => "storage.catalog_repair_required"
  | StorageErrorKind.CreationIncomplete => "storage.creation_incomplete"
  | StorageErrorKind.Io => "storage.io"
  | StorageErrorKind.CommitUnknown => "storage.commit_unknown"
  end.

Definition from_code (code : string) : option StorageError :=
  find (fun e => bool_decide (kind_code (se_kind e) = code))
    (storage_error <$>
       [StorageErrorKind.InvalidInput; StorageErrorKind.Busy; StorageErrorKind.Closed;
        StorageErrorKind.NotFound; StorageErrorKind.Unavailable; StorageErrorKind.UnsupportedVersion;
        StorageErrorKind.Integrity; StorageErrorKind.CommandConflict; StorageErrorKind.InvalidTransition;
        StorageErrorKind.ActiveRunExists; StorageErrorKind.CatalogRepairRequired;
        StorageErrorKind.CreationIncomplete; StorageErrorKind.Io; StorageErrorKind.CommitUnknown;
        StorageErrorKind.StaleHistory]).

Definition invalid : StorageError := storage_error StorageErrorKind.InvalidInput.
Definition integrity : StorageError := storage_error StorageErrorKind.Integrity.
Definition transition : StorageError := storage_error StorageErrorKind.InvalidTransition.
Definition conflict : StorageError := storage_error StorageErrorKind.CommandConflict.

Notation SResult A := (result A StorageError).

(** ** Identifiers *)

(** [FromStr] of [ApplicationSessionId], which [OperationId], [RunId] and
    [StoredEventId] share; an identifier is its canonical spelling. *)
Definition parse_id `{UuidLib} (value : string) : SResult string :=
  let? id := ok_or (parse_str value) invalid in
  if is_nil id || negb (bool_decide (hyphenated id = value)) then Err invalid else Ok value.

(** [str::split_once(':')]. *)
Fixpoint split_colon (s : string) : option (string * string) :=
  match s with
  | EmptyString => None
  | String c rest =>
      if Ascii.eqb c ":"%char then Some (EmptyString, rest)
      else match split_colon rest with
           | Some (a, b) => Some (String c a, b)
           | None => None
           end
  end.

Fixpoint ends_with_dash (s : string) : bool :=
  match s with
  | EmptyString => false
  | String c EmptyString => Ascii.eqb c "-"%char
  | String _ rest => ends_with_dash rest
  end.

Fixpoint contains_dashes (s : string) : bool :=
  match s with
  | String c ((String d _) as rest) =>
      (Ascii.eqb c "-"%char && Ascii.eqb d "-"%char) || contains_dashes rest
  | _ => false
  end.

(** [valid_name] of a skill. *)
Definition valid_name (n : string) : bool :=
  negb (str_is_empty n) && (len n <=? 64)
  && bytes_all (fun b => byte_in 97 122 b || is_ascii_digit b || Ascii.eqb b "-"%char) n
  && negb (match n with String c _ => Ascii.eqb c "-"%char | EmptyString => false end)
  && negb (ends_with_dash n) && negb (contains_dashes n).

(** Whether [FromStr for SkillId] accepts a spelling. *)
Definition is_skill_id (value : string) : bool :=
  match split_colon value with
  | None => false
  | Some (scope, n) =>
      (bool_decide (scope = "global") || bool_decide (scope = "project")) && valid_name n
  end.

(** ** Run input *)
Record RecordedRunInput : Type := {
  user_text : string;
  prepared_request : RunRequest;
  tool_definitions : list ToolDefinition;
  available_skills : list string;
  active_skills : list string;
  project_instructions_source : option string
}.

(** The loop over [available_skills], with the set it builds. *)
Fixpoint available_set (seen : gset string) (ids : list string) : SResult (gset string) :=
  match ids with
  | [] => Ok seen
  | id :: ids =>
      if negb (is_skill_id id) then Err invalid
      else if bool_decide (id ∈ seen) then Err invalid
      else available_set ({[id]} ∪ seen) ids
  end.

(** The loop over [active_skills]. *)
Fixpoint active_ok (available seen : gset string) (ids : list string) : SResult unit :=
  match ids with
  | [] => Ok tt
  | id :: ids =>
      if negb (bool_decide (id ∈ available)) || bool_decide (id ∈ seen) then Err invalid
      else active_ok available ({[id]} ∪ seen) ids
  end.

(** [RecordedRunInput::new]. *)
Definition new_run_input `{ProviderSerde} (text : string) (request : RunRequest)
    (definitions : list ToolDefinition) (available active : list string) (source : option string)
  : SResult RecordedRunInput :=
  if match tools (rq_options request) with [] => false | _ => true end then Err invalid
  else
    check? map_err (validate_input [User text]) (fun _ => invalid) in
    check? map_err (validate_input [User (rq_prompt request)]) (fun _ => invalid) in
    let o := rq_options request in
    let options := {| model := model o; instructions := instructions o; tools := definitions;
                      transport := transport o; required_features := required_features o |} in
    check? map_err (validate_options options) (fun _ => invalid) in
    let? known := available_set ∅ available in
    check? active_ok known ∅ active in
    if is_some_and source (fun s => negb (bool_decide (s = "project:AGENTS.md"))) then Err invalid
    else Ok {| user_text := text; prepared_request := request; tool_definitions := definitions;
               available_skills := available; active_skills := active;
               project_instructions_source := source |}.

(** ** Replay metadata *)
Record StoredHistorySelection : Type := {
  hs_policy : string;
  hs_through_sequence : Z;
  hs_history_digest : string;
  hs_provider_id : string;
  hs_requested_model : string;
  hs_expected_identity : option ReplayIdentity
}.
#[export] Instance StoredHistorySelection_eq_dec : EqDecision StoredHistorySelection.
Proof. solve_decision. Defined.

(** [StoredHistorySelection::new]. *)
Definition new_selection `{ProviderSerde} (through : Z) (digest provider requested_model : string)
    (identity : option ReplayIdentity) : SResult StoredHistorySelection :=
  if (through =? 0) || (i64_max <? through) || negb (valid_digest digest) || trim_is_empty provider
     || is_some_and identity (fun i => negb (bool_decide (ri_provider_id i = provider)))
  then Err invalid
  else
    check? map_err (validate_options (new_options requested_model)) (fun _ => invalid) in
    Ok {| hs_policy := "closed-exchanges-v1"; hs_through_sequence := through;
          hs_history_digest := digest; hs_provider_id := provider;
          hs_requested_model := requested_model; hs_expected_identity := identity |}.

(** [StoredHistorySelection::matches_input]. *)
Definition selection_matches (s : StoredHistorySelection) (input : RecordedRunInput) : bool :=
  bool_decide (hs_provider_id s = rq_provider_id (prepared_request input))
  && bool_decide (hs_requested_model s = model (rq_options (prepared_request input))).

Record RecordedProviderBinding : Type := {
  pb_run_id : string;
  pb_provider_session_id : string;
  pb_requested_model : string;
  pb_identity : ReplayIdentity
}.

(** [RecordedProviderBinding::new]. *)
Definition new_binding `{ProviderSerde} (run session requested_model : string) (identity : ReplayIdentity)
  : SResult RecordedProviderBinding :=
  if trim_is_empty session then Err invalid
  else
    check? map_err (validate_options (new_options requested_model)) (fun _ => invalid) in
    Ok {| pb_run_id := run; pb_provider_session_id := session;
          pb_requested_model := requested_model; pb_identity := identity |}.

(** [RecordedProviderBinding::matches_input]. *)
Definition binding_matches (b : RecordedProviderBinding) (input : RecordedRunInput) : bool :=
  bool_decide (ri_provider_id (pb_identity b) = rq_provider_id (prepared_request input))
  && bool_decide (pb_requested_model b = model (rq_options (prepared_request input))).

(** ** Records a run appends *)
Inductive AppendRunRecord : Type :=
| RProviderBinding (binding : RecordedProviderBinding)
| RRuntime (event : RunEventEnvelope)
| RToolResult (request_id : option string) (call_id output : string) (is_error : bool)
| RResult (result : RunResult).

Section records.
Context `{UuidLib}.

(** The identities a runtime event must or must not carry. *)
Definition identities_valid (event : RunEventEnvelope) : bool :=
  match ev_event event with
  | RunStarted =>
      is_none (ev_turn_id event) && is_none (ev_session_id event) && is_none (ev_request_id event)
  | TurnStarted _ =>
      is_some (ev_turn_id event) && is_some (ev_session_id event) && is_none (ev_request_id event)
  | EProviderEvent provider =>
      is_some (ev_turn_id event)
      && bool_decide (ev_session_id event = Some (env_session_id provider))
      && is_some (ev_request_id event)
      && bool_decide (ev_request_id event = env_request_id provider)
  | EToolEvent _ =>
      is_some (ev_turn_id event) && is_some (ev_session_id event) && is_some (ev_request_id event)
  | TurnFinished _ _ _ _ => is_some (ev_turn_id event) && is_some (ev_session_id event)
  | RunFinished _ _ => is_none (ev_turn_id event)
  end.

(** [validate_runtime]. *)
Definition validate_runtime (event : RunEventEnvelope) : SResult unit :=
  if negb (ev_schema_version event =? 2)
     || match ev_event event with
        | EProviderEvent e => negb (env_schema_version e =? 1)
        | _ => false
        end
  then Err (storage_error StorageErrorKind.UnsupportedVersion)
  else
    check? parse_id (ev_run_id event) in
    if (ev_sequence event =? 0) || (i64_max <? ev_sequence event) || str_is_empty (ev_event_id event)
    then Err invalid
    else if negb (identities_valid event) then Err transition
    else Ok tt.

(** [AppendRunRecord::validate]. *)
Definition validate_record (r : AppendRunRecord) : SResult unit :=
  match r with
  | RRuntime event => validate_runtime event
  | RResult result => check? parse_id (res_run_id result) in Ok tt
  | RToolResult _ _ _ _ | RProviderBinding _ => Ok tt
  end.

Definition optional_uuid (value : option string) : bool := is_none_or value is_canonical_uuid.
Definition call_valid (value : string) : bool := negb (str_is_empty value) && (len value <=? 512).
Definition tool_call_id (e : ToolExecutionEvent) : string :=
  match e with
  | ToolExecutionStarted c _ | ToolExecutionFinished c _ _ | ToolResultReused c _ => c
  end.

Definition nested_valid (e : RunEvent) : bool :=
  match e with
  | EProviderEvent event => optional_uuid (env_request_id event)
  | RunFinished _ summary => optional_uuid (last_request_id summary)
  | EToolEvent event => call_valid (tool_call_id event)
  | _ => true
  end.

(** [AppendRunRecord::validate_admission]. *)
Definition validate_admission (r : AppendRunRecord) : SResult unit :=
  check? validate_record r in
  let valid :=
    match r with
    | RRuntime event =>
        is_canonical_uuid (ev_run_id event) && is_canonical_uuid (ev_event_id event)
        && optional_uuid (ev_turn_id event) && optional_uuid (ev_request_id event)
        && nested_valid (ev_event event)
    | RToolResult request call _ _ => optional_uuid request && call_valid call
    | RResult result =>
        is_canonical_uuid (res_run_id result) && optional_uuid (last_request_id (res_summary result))
    | RProviderBinding _ => true
    end in
  if negb valid then Err invalid else Ok tt.

(** [AppendRunRecord::validate_provider_admission]. *)
Definition validate_provider_admission (r : AppendRunRecord) (provider : string) : SResult unit :=
  if negb (bool_decide (provider = PROVIDER_ID)) then Ok tt
  else
    let? valid :=
      match r with
      | RRuntime event =>
          match ev_event event with
          | EProviderEvent nested =>
              if negb (bool_decide (env_provider nested = provider)) then Err transition
              else if negb (is_local_event_id (env_event_id nested) (env_session_id nested)
                              (env_sequence nested))
              then Err invalid
              else Ok (optional_uuid (ev_session_id event))
          | _ => Ok (optional_uuid (ev_session_id event))
          end
      | RResult result => Ok (optional_uuid (res_session_id result))
      | RProviderBinding binding => Ok (is_canonical_uuid (pb_provider_session_id binding))
      | RToolResult _ _ _ _ => Ok true
      end in
    if negb valid then Err invalid else Ok tt.
End records.

(** ** Receipts and creation provenance *)
Record CommitReceipt : Type := {
  rc_operation_id : string;
  rc_session_id : string;
  rc_run_id : option string;
  rc_first_sequence : Z;
  rc_last_sequence : Z
}.
#[export] Instance CommitReceipt_eq_dec : EqDecision CommitReceipt.
Proof. solve_decision. Defined.

(** [TryFrom<ReceiptFields> for CommitReceipt]. *)
Definition check_receipt (r : CommitReceipt) : SResult CommitReceipt :=
  if (rc_first_sequence r =? 0) || (rc_last_sequence r <? rc_first_sequence r)
     || (i64_max <? rc_last_sequence r)
  then Err invalid else Ok r.

(** [CommitReceipt::single]. *)
Definition receipt_single (operation session : string) (sequence : Z) : SResult CommitReceipt :=
  let? s := ok_or (u64_try_from sequence) invalid in
  check_receipt {| rc_operation_id := operation; rc_session_id := session; rc_run_id := None;
                   rc_first_sequence := s; rc_last_sequence := s |}.

(** [CommitReceipt::run_batch]. *)
Definition receipt_run_batch (operation session run : string) (first last : Z) : SResult CommitReceipt :=
  let? f := ok_or (u64_try_from first) invalid in
  let? l := ok_or (u64_try_from last) invalid in
  check_receipt {| rc_operation_id := operation; rc_session_id := session; rc_run_id := Some run;
                   rc_first_sequence := f; rc_last_sequence := l |}.

(** [validate_workspace]; an absolute Unix path starts with a slash. *)
Definition has_nul (s : string) : bool := negb (bytes_all (fun b => negb (byte_in 0 0 b)) s).
Definition validate_workspace (w : option string) : SResult unit :=
  if is_some_and w (fun s => negb (match s with
                                   | String c _ => Ascii.eqb c "/"%char
                                   | EmptyString => false
                                   end) || has_nul s)
  then Err invalid else Ok tt.

Record CreateSession : Type := {
  cs_operation_id : string;
  cs_title : string;
  cs_workspace : option string
}.

(** [CreateSession::new]. *)
Definition new_create_session (operation title : string) (workspace : option string)
  : SResult CreateSession :=
  check? validate_workspace workspace in
  Ok {| cs_operation_id := operation; cs_title := title; cs_workspace := workspace |}.

Record CreationRequest : Type := {
  cr_method : string;
  cr_title : string;
  cr_workspace : option string
}.

#[export] Instance CreationRequest_eq_dec : EqDecision CreationRequest.
Proof. solve_decision. Defined.

(** [CreateSession::request]. *)
Definition create_request (c : CreateSession) : CreationRequest :=
  {| cr_method := "create_session"; cr_title := cs_title c; cr_workspace := cs_workspace c |}.

Record CreationProvenance : Type := {
  cp_operation_id : string;
  cp_method : string;
  cp_request_json : string;
  cp_payload_hash : string;
  cp_session_id : string;
  cp_creation_event_id : string;
  cp_created_at_ms : Z;
  cp_receipt : CommitReceipt
}.
#[export] Instance CreationProvenance_eq_dec : EqDecision CreationProvenance.
Proof. solve_decision. Defined.

Record CreatedPayload : Type := {
  cd_title : string;
  cd_workspace : option string;
  cd_creation_provenance : CreationProvenance
}.

(** ** Stored events *)
Record AcceptedPayload : Type := {
  ac_run_id : string;
  ac_input : RecordedRunInput;
  ac_owner_instance_id : string
}.

Record HistorySelectedPayload : Type := {
  sel_run_id : string;
  sel_selection : StoredHistorySelection
}.

Record ToolResultPayload : Type := {
  tr_request_id : option string;
  tr_call_id : string;
  tr_output : string;
  tr_is_error : bool
}.

(** [InterruptionReason] has the one value [ProcessRestart]. *)
Record InterruptedPayload : Type := { in_run_id : string }.

Inductive StoredEventPayload : Type :=
| SessionCreated (payload : CreatedPayload)
| SessionRenamed (title : string)
| RunAccepted (payload : AcceptedPayload)
| RunHistorySelected (payload : HistorySelectedPayload)
| RunProviderBound (binding : RecordedProviderBinding)
| RuntimeObserved (event : RunEventEnvelope)
| ToolResultRecorded (payload : ToolResultPayload)
| RunResultRecorded (result : RunResult)
| RunInterrupted (payload : InterruptedPayload).

(** [StoredEvent::event_type]. *)
Definition event_type (p : StoredEventPayload) : string :=
  match p with
  | SessionCreated _ => "session.created"
  | SessionRenamed _ => "session.renamed"
  | RunAccepted _ => "run.accepted"
  | RunHistorySelected _ => "run.history.selected"
  | RunProviderBound _ => "run.provider.bound"
  | RuntimeObserved _ => "runtime.observed"
  | ToolResultRecorded _ => "tool.result.recorded"
  | RunResultRecorded _ => "run.result.recorded"
  | RunInterrupted _ => "run.interrupted"
  end.

(** The [type] tag [RunEvent] is serialized with. *)
Definition event_tag (e : RunEvent) : string :=
  match e with
  | RunStarted => "run_started"
  | TurnStarted _ => "turn_started"
  | EProviderEvent _ => "provider_event"
  | EToolEvent _ => "tool_event"
  | TurnFinished _ _ _ _ => "turn_finished"
  | RunFinished _ _ => "run_finished"
  end.

(** ** Run mutations *)
Inductive Mutation : Type :=
| Accept (input : RecordedRunInput)
| AcceptHistory (input : RecordedRunInput) (selection : StoredHistorySelection)
| Append (records : list AppendRunRecord).

(** [Mutation::method]. *)
Definition method (m : Mutation) : string :=
  match m with
  | Accept _ => "accept_run"
  | AcceptHistory _ _ => "accept_history_run"
  | Append _ => "append_run_records"
  end.

(** ** Serialization

    What the storage uses of [serde_json], of SQLite's [json_extract] and of the
    digest: [dto::canonical_json] and [dto::decode] at each stored type. *)
Class StorageSerde := {
  sha256 : string -> string;
  payload_to_json : StoredEventPayload -> option string;
  payload_from_json : string -> string -> option StoredEventPayload;
  (* decode::<Value>(text) == to_value(event)["payload"] *)
  json_is_payload : string -> StoredEventPayload -> bool;
  json_type : string -> option string;
  json_turn_id : string -> option string;
  receipt_to_json : CommitReceipt -> option string;
  receipt_from_json : string -> option CommitReceipt;
  provenance_to_json : CreationProvenance -> option string;
  provenance_from_json : string -> option CreationProvenance;
  request_to_json : CreationRequest -> option string;
  request_from_json : string -> option CreationRequest;
  string_to_json : string -> option string;
  string_from_json : string -> option string;
  command_to_json : string -> string -> Mutation -> option string;
  rename_to_json : string -> string -> option string
}.

(** What serialization promises: a decoded text is the value it was encoded
    from, and the extracted fields are the serialized ones. *)
Class StorageSerdeLaws `{StorageSerde} : Prop := {
  payload_round p t :
    payload_to_json p = Some t -> payload_from_json (event_type p) t = Some p;
  payload_kind k t p : payload_from_json k t = Some p -> event_type p = k;
  payload_value p t : payload_to_json p = Some t -> json_is_payload t p = true;
  runtime_type e t :
    payload_to_json (RuntimeObserved e) = Some t -> json_type t = Some (event_tag (ev_event e));
  runtime_turn e t : payload_to_json (RuntimeObserved e) = Some t -> json_turn_id t = ev_turn_id e;
  receipt_round r t : receipt_to_json r = Some t -> receipt_from_json t = Some r;
  provenance_round p t : provenance_to_json p = Some t -> provenance_from_json t = Some p;
  request_round r t : request_to_json r = Some t -> request_from_json t = Some r;
  string_round s t : string_to_json s = Some t -> string_from_json t = Some s
}.

Section provenance.
Context `{StorageSerde}.

(** [dto::decode::<CommitReceipt>]. *)
Definition decode_receipt (t : string) : SResult CommitReceipt :=
  let? r := ok_or (receipt_from_json t) integrity in
  map_err (check_receipt r) (fun _ => integrity).

(** [CreationProvenance::new], with the identifiers and the time it takes. *)
Definition new_provenance (session event : string) (now : SResult Z) (input : CreateSession)
  : SResult CreationProvenance :=
  let? request_json := ok_or (request_to_json (create_request input)) invalid in
  let? receipt := receipt_single (cs_operation_id input) session 1 in
  let? created := now in
  Ok {| cp_operation_id := cs_operation_id input; cp_method := "create_session";
        cp_request_json := request_json; cp_payload_hash := sha256 request_json;
        cp_session_id := session; cp_creation_event_id := event; cp_created_at_ms := created;
        cp_receipt := receipt |}.

(** [CreationProvenance::request]. *)
Definition provenance_request (p : CreationProvenance) : SResult CreateSession :=
  let? request := ok_or (request_from_json (cp_request_json p)) integrity in
  let? expected := receipt_single (cp_operation_id p) (cp_session_id p) 1 in
  if negb (bool_decide (cp_method p = "create_session"))
     || negb (bool_decide (cr_method request = cp_method p))
  then Err integrity
  else
    let? canonical := ok_or (request_to_json request) invalid in
    if negb (bool_decide (canonical = cp_request_json p))
       || negb (bool_decide (sha256 (cp_request_json p) = cp_payload_hash p))
       || negb (bool_decide (cp_receipt p = expected))
       || (cp_created_at_ms p <? 0)
    then Err integrity
    else map_err (new_create_session (cp_operation_id p) (cr_title request) (cr_workspace request))
         (fun _ => integrity).
End provenance.

(** ** Properties *)

(** The code of a storage error determines it: an error made from a kind is
    recovered from its code, so two kinds never share a code. *)
Lemma storage_code_round k : from_code (kind_code k) = Some (storage_error k).
Proof. by destruct k. Qed.

Section provenance_laws.
Context `{StorageSerde} {laws : StorageSerdeLaws}.

(** A creation request survives its provenance: what [CreationProvenance::new]
    records about an admitted request, [request] recovers, all of its integrity
    checks included. *)
Lemma provenance_request_round session event now operation title workspace input p :
  new_create_session operation title workspace = Ok input -> (forall t, now = Ok t -> 0 <= t) ->
  new_provenance session event now input = Ok p -> provenance_request p = Ok input.
Proof using laws.
  intros Hi Hnow Hp. unfold new_create_session in Hi.
  destruct (validate_workspace workspace) as [[]|] eqn:Hw; [|done]. injection Hi as <-.
  unfold new_provenance in Hp. cbn [cs_operation_id] in Hp.
  destruct (request_to_json _) as [t|] eqn:Ht; [|done]. cbn [ok_or] in Hp.
  destruct (receipt_single _ _ _) as [r|] eqn:Hr; [|done]. destruct now as [n|]; [|done]. injection Hp as <-.
  unfold provenance_request. cbn [cp_request_json cp_operation_id cp_session_id cp_method cp_payload_hash cp_receipt cp_created_at_ms].
  rewrite (request_round _ _ Ht). cbn [ok_or]. rewrite Hr. cbn [create_request cr_method cr_title cr_workspace cs_title cs_workspace].
  rewrite !bool_decide_eq_true_2 by done. simpl. rewrite Ht. cbn [ok_or]. rewrite !bool_decide_eq_true_2 by done. simpl.
  specialize (Hnow n eq_refl). destruct (Z.ltb_spec n 0); [lia|]. unfold new_create_session. by rewrite Hw.
Qed.
End provenance_laws.
