(* ===== verification/Store.v ===== *)
(** * The session database (src/src/storage/session_v2.sql, session_v3.sql, history.rs)

    The tables of one session file as a record, the statements the storage layer
    executes on them with the constraints SQLite enforces, and the typed reads of
    the event log.  A constraint violation is the error [database::error] makes of
    it.  [Db] is indexed by the type of the display rows, which only the projector
    touches. *)
From S2P Require Import Prelude Json Errors Identifiers Provider Tools Replay RunData Records.

(** ** Rows *)
Record ManifestRow : Type := {
  mf_session_id : string;
  mf_schema_version : Z;
  mf_format_version : Z;
  mf_title : string;
  mf_workspace_json : option string;
  mf_created_at_ms : Z;
  mf_updated_at_ms : Z;
  mf_head_sequence : Z;
  mf_creation_provenance_json : string
}.

Record EventRow : Type := {
  row_sequence : Z;
  row_event_id : string;
  row_event_type : string;
  row_event_version : Z;
  row_created_at_ms : Z;
  row_run_id : option string;
  row_source_event_id : option string;
  row_source_sequence : option Z;
  row_payload_json : string
}.

Record CommandRow : Type := {
  cmd_operation_id : string;
  cmd_method : string;
  cmd_payload_hash : string;
  cmd_first_sequence : Z;
  cmd_last_sequence : Z;
  cmd_receipt_json : string
}.

Record RunRow : Type := {
  run_accepted_sequence : Z;
  run_state : string;
  run_last_runtime_sequence : Z;
  run_owner_instance_id : string;
  run_provider_session_id : option string;
  run_terminal_sequence : option Z;
  run_terminal_json : option string;
  run_result_sequence : option Z
}.

Record ToolRow : Type := {
  tool_tool_name : string;
  tool_request_id : option string;
  tool_started_sequence : Z;
  tool_finished_sequence : option Z;
  tool_result_sequence : option Z;
  tool_is_error : option bool;
  tool_output : option string
}.

(** The single row of [conversation_projection]. *)
Record ProjectionRow : Type := {
  pr_format_version : Z;
  pr_applied_sequence : Z;
  pr_metadata_sequence : Z
}.

(** What [sqlite_schema] holds: nothing, definitions of tables, indices and
    triggers that [structure] accepts, or anything else. *)
Inductive Schema : Type := No_objects | Released | Foreign.
#[export] Instance Schema_eq_dec : EqDecision Schema.
Proof. solve_decision. Defined.

(** One session file; events are in the order of their integer primary key. *)
Record Db (D : Type) : Type := mkDb {
  application_id : Z;
  user_version : Z;
  schema : Schema;
  manifest : option ManifestRow;
  events : list EventRow;
  commands : list CommandRow;
  runs : gmap string RunRow;
  tool_results : gmap (string * string) ToolRow;
  projection : option ProjectionRow;
  display : D
}.
Arguments mkDb {D}.
Arguments application_id {D} _.
Arguments user_version {D} _.
Arguments schema {D} _.
Arguments manifest {D} _.
Arguments events {D} _.
Arguments commands {D} _.
Arguments runs {D} _.
Arguments tool_results {D} _.
Arguments projection {D} _.
Arguments display {D} _.

Section tables.
Context {D : Type}.
Implicit Types db : Db D.

Definition set_manifest (v : option ManifestRow) db : Db D :=
  mkDb (application_id db) (user_version db) (schema db) v (events db) (commands db) (runs db) (tool_results db) (projection db) (display db).
Definition set_events (v : list EventRow) db : Db D :=
  mkDb (application_id db) (user_version db) (schema db) (manifest db) v (commands db) (runs db) (tool_results db) (projection db) (display db).
Definition set_commands (v : list CommandRow) db : Db D :=
  mkDb (application_id db) (user_version db) (schema db) (manifest db) (events db) v (runs db) (tool_results db) (projection db) (display db).
Definition set_runs (v : gmap string RunRow) db : Db D :=
  mkDb (application_id db) (user_version db) (schema db) (manifest db) (events db) (commands db) v (tool_results db) (projection db) (display db).
Definition set_tool_results (v : gmap (string * string) ToolRow) db : Db D :=
  mkDb (application_id db) (user_version db) (schema db) (manifest db) (events db) (commands db) (runs db) v (projection db) (display db).
Definition set_projection (v : option ProjectionRow) db : Db D :=
  mkDb (application_id db) (user_version db) (schema db) (manifest db) (events db) (commands db) (runs db) (tool_results db) v (display db).
Definition set_display (v : D) db : Db D :=
  mkDb (application_id db) (user_version db) (schema db) (manifest db) (events db) (commands db) (runs db) (tool_results db) (projection db) v.

Notation Sql := (SM (Db D) StorageError).

(** A read inside the transaction. *)
Definition reads {S A} (f : S -> SResult A) : SM S StorageError A := fun s => (f s, s).

(** A statement whose constraint fails is [SQLITE_CONSTRAINT]. *)
Definition require_constraint {S} (p : S -> bool) : SM S StorageError unit :=
  fun s => if p s then (Ok tt, s) else (Err integrity, s).

(** ** Statements *)
Definition has_event (n : Z) db : bool := existsb (fun r => row_sequence r =? n) (events db).
Definition optional_event (n : option Z) db : bool := is_none_or n (fun n => has_event n db).

Definition known_type (k : string) : bool :=
  existsb (fun n => bool_decide (n = k))
    ["session.created"; "session.renamed"; "run.accepted"; "runtime.observed"; "tool.result.recorded";
     "run.result.recorded"; "run.interrupted"; "run.history.selected"; "run.provider.bound"].

(** The CHECK constraints of [events]. *)
Definition event_check (r : EventRow) : bool :=
  (0 <? row_sequence r) && known_type (row_event_type r) && (row_event_version r =? 1)
  && (if bool_decide (row_event_type r = "runtime.observed")
      then is_some (row_source_event_id r) && is_some_and (row_source_sequence r) (fun n => 0 <? n)
      else is_none (row_source_event_id r) && is_none (row_source_sequence r)).

(** Its unique keys: the sequence, the event id, the source id and the pair of
    run and source sequence; NULLs are distinct. *)
Definition event_clash (r q : EventRow) : bool :=
  (row_sequence q =? row_sequence r)
  || bool_decide (row_event_id q = row_event_id r)
  || (is_some (row_source_event_id r) && bool_decide (row_source_event_id q = row_source_event_id r))
  || (is_some (row_source_sequence r) && is_some (row_run_id r)
      && bool_decide (row_source_sequence q = row_source_sequence r)
      && bool_decide (row_run_id q = row_run_id r)).

Fixpoint insert_row (r : EventRow) (l : list EventRow) : list EventRow :=
  match l with
  | [] => [r]
  | q :: l' => if row_sequence r <? row_sequence q then r :: l else q :: insert_row r l'
  end.

(** INSERT INTO events. *)
Definition insert_event_row (r : EventRow) : Sql unit :=
  do! require_constraint (fun db => event_check r && negb (existsb (event_clash r) (events db))) in
  modify (fun db => set_events (insert_row r (events db)) db).

(** INSERT INTO commands. *)
Definition insert_command (c : CommandRow) : Sql unit :=
  do! require_constraint (fun db =>
    negb (existsb (fun q => bool_decide (cmd_operation_id q = cmd_operation_id c)) (commands db))
    && has_event (cmd_first_sequence c) db && has_event (cmd_last_sequence c) db
    && (cmd_first_sequence c <=? cmd_last_sequence c)) in
  modify (fun db => set_commands (commands db ++ [c]) db).

Definition unfinished (state : string) : bool :=
  bool_decide (state = "accepted") || bool_decide (state = "running").

(** The rows of [runs] that satisfy a condition. *)
Definition select_runs (p : string -> RunRow -> bool) db : list (string * RunRow) :=
  filter (fun kr => p kr.1 kr.2 = true) (map_to_list (runs db)).

Definition known_state (s : string) : bool :=
  existsb (fun n => bool_decide (n = s))
    ["accepted"; "running"; "completed"; "failed"; "cancelled_locally"; "interrupted"].

(** The constraints on writing row [r] of [runs] under key [k]. *)
Definition run_check (k : string) (r : RunRow) db : bool :=
  known_state (run_state r) && (0 <=? run_last_runtime_sequence r)
  && has_event (run_accepted_sequence r) db && optional_event (run_terminal_sequence r) db
  && optional_event (run_result_sequence r) db
  && match select_runs (fun k' q => negb (bool_decide (k' = k))
                          && ((run_accepted_sequence q =? run_accepted_sequence r)
                              || (unfinished (run_state q) && unfinished (run_state r)))) db with
     | [] => true
     | _ :: _ => false
     end.

(** INSERT INTO runs. *)
Definition insert_run (k : string) (r : RunRow) : Sql unit :=
  do! require_constraint (fun db => is_none (runs db !! k) && run_check k r db) in
  modify (fun db => set_runs (<[k := r]> (runs db)) db).

(** UPDATE runs SET ... WHERE run_id = k. *)
Definition update_run (k : string) (f : RunRow -> RunRow) : Sql unit :=
  fun db => match runs db !! k with
            | None => (Ok tt, db)
            | Some r => (do! require_constraint (run_check k (f r)) in
                         modify (fun db => set_runs (<[k := f r]> (runs db)) db)) db
            end.

Definition tool_check (k : string * string) (t : ToolRow) db : bool :=
  is_some (runs db !! fst k) && has_event (tool_started_sequence t) db
  && optional_event (tool_finished_sequence t) db && optional_event (tool_result_sequence t) db
  && Bool.eqb (is_some (tool_result_sequence t)) (is_some (tool_output t)).

(** INSERT INTO tool_results. *)
Definition insert_tool (k : string * string) (t : ToolRow) : Sql unit :=
  do! require_constraint (fun db => is_none (tool_results db !! k) && tool_check k t db) in
  modify (fun db => set_tool_results (<[k := t]> (tool_results db)) db).

(** UPDATE tool_results SET ... WHERE run_id = .. AND call_id = ... *)
Definition update_tool (k : string * string) (f : ToolRow -> ToolRow) : Sql unit :=
  fun db => match tool_results db !! k with
            | None => (Ok tt, db)
            | Some t => (do! require_constraint (tool_check k (f t)) in
                         modify (fun db => set_tool_results (<[k := f t]> (tool_results db)) db)) db
            end.

(** INSERT INTO manifest: the singleton row. *)
Definition insert_manifest (m : ManifestRow) : Sql unit :=
  do! require_constraint (fun db => is_none (manifest db) && (0 <? mf_schema_version m)
                                    && (mf_format_version m =? 1) && (0 <=? mf_head_sequence m)) in
  modify (set_manifest (Some m)).

(** UPDATE manifest SET ... WHERE singleton = 1. *)
Definition update_manifest (f : ManifestRow -> ManifestRow) : Sql unit :=
  fun db => match manifest db with
            | None => (Ok tt, db)
            | Some m => (do! require_constraint (fun _ => 0 <=? mf_head_sequence (f m)) in
                         modify (set_manifest (Some (f m)))) db
            end.
End tables.
