(* ===== verification/History.v ===== *)
(** * Reading the event log (src/src/storage/history.rs)

    The typed decoding of an event row, the point read and the page read. *)
From S2P Require Import Prelude Json Errors Identifiers Provider Tools Replay RunData Records Store.

Record StoredEvent : Type := {
  st_application_session_id : string;
  st_sequence : Z;
  st_event_id : string;
  st_created_at_ms : Z;
  st_run_id : option string;
  st_payload : StoredEventPayload
}.

Record HistoryPage : Type := {
  hp_through_sequence : Z;
  hp_next_after : Z;
  hp_has_more : bool;
  hp_records : list StoredEvent
}.

(** [terminal_outcome]. *)
Definition terminal_outcome (e : StoredEvent) : option (RunOutcome * option string) :=
  match st_payload e with
  | RuntimeObserved envelope =>
      match ev_event envelope with
      | RunFinished outcome _ => Some (outcome, ev_session_id envelope)
      | _ => None
      end
  | RunResultRecorded result => Some (res_outcome result, res_session_id result)
  | _ => None
  end.

Section history.
Context {D : Type} `{UuidLib} `{StorageSerde}.
Implicit Types db : Db D.

(** The checks of [TryFrom<StoredEventFields>] on a decoded payload. *)
Definition payload_fits (id : string) (sequence : Z) (event_id : string) (created : Z)
    (run : option string) (p : StoredEventPayload) : SResult unit :=
  let expect (b : bool) : SResult unit := if b then Ok tt else Err integrity in
  match p with
  | SessionCreated payload =>
      let provenance := cd_creation_provenance payload in
      let? original := provenance_request provenance in
      expect ((sequence =? 1) && is_none run
              && bool_decide (cp_session_id provenance = id)
              && bool_decide (cp_creation_event_id provenance = event_id)
              && (cp_created_at_ms provenance =? created)
              && bool_decide (cs_title original = cd_title payload)
              && bool_decide (cs_workspace original = cd_workspace payload))
  | SessionRenamed _ => expect (negb (sequence =? 1) && is_none run)
  | RunAccepted payload => expect (bool_decide (run = Some (ac_run_id payload)))
  | RunHistorySelected payload =>
      expect (bool_decide (run = Some (sel_run_id payload))
              && bool_decide (checked_add_u64 (hs_through_sequence (sel_selection payload)) 2 = Some sequence))
  | RunProviderBound binding => expect (bool_decide (run = Some (pb_run_id binding)))
  | RuntimeObserved event =>
      check? map_err (validate_runtime event) (fun _ => integrity) in
      expect (bool_decide (run = Some (ev_run_id event)))
  | ToolResultRecorded _ => expect (is_some run)
  | RunResultRecorded result => expect (bool_decide (run = Some (res_run_id result)))
  | RunInterrupted payload => expect (bool_decide (run = Some (in_run_id payload)))
  end.

(** The source columns of a row, against its payload. *)
Definition source_fits (p : StoredEventPayload) (source : option string) (sequence : option Z) : bool :=
  match p with
  | RuntimeObserved runtime =>
      bool_decide (source = Some (ev_event_id runtime))
      && bool_decide (sequence = Some (as_i64 (ev_sequence runtime)))
  | _ => is_none source && is_none sequence
  end.

(** [decode]. *)
Definition decode_event (id : string) (row : EventRow) : SResult StoredEvent :=
  let? sequence := ok_or (u64_try_from (row_sequence row)) integrity in
  let? event_id := map_err (parse_id (row_event_id row)) (fun _ => integrity) in
  let? run := match row_run_id row with
              | None => Ok None
              | Some r => let? r := map_err (parse_id r) (fun _ => integrity) in Ok (Some r)
              end in
  if negb (row_event_version row =? 1) || (sequence =? 0) || (i64_max <? sequence)
     || (row_created_at_ms row <? 0)
     || negb (Bool.eqb (sequence =? 1) (bool_decide (row_event_type row = "session.created")))
  then Err integrity
  else
    let? payload := ok_or (payload_from_json (row_event_type row) (row_payload_json row)) integrity in
    check? payload_fits id sequence event_id (row_created_at_ms row) run payload in
    if negb (source_fits payload (row_source_event_id row) (row_source_sequence row)) then Err integrity
    else Ok {| st_application_session_id := id; st_sequence := sequence; st_event_id := event_id;
               st_created_at_ms := row_created_at_ms row; st_run_id := run; st_payload := payload |}.

(** [event]. *)
Definition read_event (id : string) (sequence : Z) db : SResult StoredEvent :=
  let? n := ok_or (i64_try_from sequence) integrity in
  let? row := ok_or (find (fun r => row_sequence r =? n) (events db)) integrity in
  decode_event id row.

(** [page_limit]. *)
Definition page_limit (page_size : Z) : SResult Z :=
  if page_size =? 0 then Err invalid
  else
    let? size := ok_or (checked_add_u64 page_size 1) invalid in
    ok_or (i64_try_from size) invalid.

(** The loop of [page] over the fetched rows. *)
Fixpoint decode_page (id : string) (next_after : Z) (rows : list EventRow)
  : SResult (list StoredEvent * Z) :=
  match rows with
  | [] => Ok ([], next_after)
  | row :: rows =>
      let? record := decode_event id row in
      let? expected := ok_or (checked_add_u64 next_after 1) integrity in
      if negb (st_sequence record =? expected) then Err integrity
      else
        let? rest := decode_page id (st_sequence record) rows in
        Ok (record :: fst rest, snd rest)
  end.

(** [page]. *)
Definition page (id : string) (after : Z) (through : option Z) (limit : Z) db : SResult HistoryPage :=
  let? m := ok_or (manifest db) (storage_error StorageErrorKind.NotFound) in
  let head := mf_head_sequence m in
  let through := match through with Some t => t | None => as_u64 head end in
  if (head <? 1) || (as_u64 head <? through) || (through <? after) then Err invalid
  else
    let rows := take (Z.to_nat limit)
      (List.filter (fun r => (as_i64 after <? row_sequence r) && (row_sequence r <=? as_i64 through))
         (events db)) in
    let has_more := Z.of_nat (length rows) =? limit in
    let? decoded := decode_page id after (take (Z.to_nat (limit - 1)) rows) in
    let next_after := snd decoded in
    if negb has_more && negb (next_after =? through) then Err integrity
    else Ok {| hp_through_sequence := through; hp_next_after := next_after; hp_has_more := has_more;
               hp_records := fst decoded |}.
End history.
