(* ===== verification/Session.v ===== *)
(** * One session: validation, commands, rename (src/src/storage/session_schema.rs, session.rs, database.rs)

    The check every writer runs first, the receipts of earlier commands, the
    head of the display projection, the transaction wrapper and the rename
    command.  The display rows themselves are behind the class [Display]. *)
From S2P Require Import Prelude Json Errors Identifiers Provider Tools Replay RunData Records Store History.

(** ** The projector's head (conversation/projector.rs) *)
Module Input.
Inductive t : Type :=
| Created
| Renamed
| Accepted (input : RecordedRunInput)
| HistorySelected
| ProviderBound
| Runtime (event : RunEventEnvelope)
| ToolResult (request_id : option string) (call_id output : string) (is_error : bool)
| Result (result : RunResult)
| Interrupted.
End Input.

(** What the projector does to the display rows for one event of a run. *)
Class Display (D : Type) := {
  display_step : string -> Z -> Input.t -> D -> SResult D;
  empty_display : D
}.

(** What happened to a transaction: a statement failed before the commit, the
    commit went through, or it failed with the effects kept or lost. *)
Inductive Fate : Type :=
| Failed_statement (e : StorageError)
| Committed
| Unknown_kept
| Unknown_lost.

(** What a command reads from its surroundings: the clock and the identifiers it
    generates, one per inserted event. *)
Record Clock : Type := {
  now_ms : SResult Z;
  fresh_event_id : Z -> string
}.

Record SessionManifest : Type := {
  sm_session_id : string;
  sm_title : string;
  sm_workspace : option string;
  sm_created_at_ms : Z;
  sm_updated_at_ms : Z;
  sm_head_sequence : Z
}.

(** What a caller of a writing operation is told besides its receipt. *)
Inductive CleanupWarning : Type := ConnectionCloseFailed.

Record CommitResult : Type := {
  cm_receipt : CommitReceipt;
  cm_duplicate : bool;
  cm_cleanup_warning : option CleanupWarning
}.

Record Command : Type := {
  c_method : string;
  c_payload_hash : string;
  c_receipt : CommitReceipt
}.

(** [next_sequence]. *)
Definition next_sequence (head : Z) : SResult Z :=
  ok_or (match checked_add_u64 head 1 with Some n => i64_try_from n | None => None end) invalid.

(** [sequence_range]. *)
Definition sequence_range (head : Z) (count : nat) : SResult (Z * Z) :=
  match count with
  | O => Err invalid
  | S _ =>
      let? first := next_sequence head in
      let? last := ok_or (match i64_try_from (Z.of_nat count) with
                          | Some c => checked_add_i64 first (c - 1)
                          | None => None
                          end) invalid in
      Ok (first, last)
  end.

Section session.
Context {D : Type} `{Display D} `{UuidLib} `{StorageSerde}.
Implicit Types db : Db D.
Notation Sql := (SM (Db D) StorageError).

(** [apply]. *)
Definition apply (sequence : Z) (run : option string) (input : Input.t) : Sql unit :=
  do! lift (ok_or (i64_try_from sequence) integrity) in
  let! head := gets projection in
  match input with
  | Input.Created =>
      if negb (sequence =? 1) || is_some run || is_some head then throw integrity
      else modify (set_projection (Some {| pr_format_version := 1; pr_applied_sequence := 1;
                                           pr_metadata_sequence := 1 |}))
  | _ =>
      let! head := lift (ok_or head integrity) in
      let! applied := lift (ok_or (u64_try_from (pr_applied_sequence head)) integrity) in
      let! metadata := lift (ok_or (u64_try_from (pr_metadata_sequence head)) integrity) in
      if negb (pr_format_version head =? 1)
         || negb (bool_decide (checked_add_u64 applied 1 = Some sequence))
         || (metadata =? 0) || (applied <? metadata)
      then throw integrity
      else
        let! metadata :=
          match input with
          | Input.Renamed => if is_some run then throw integrity else ret sequence
          | _ =>
              let! run := lift (ok_or run integrity) in
              let! d := gets display in
              let! d := lift (display_step run sequence input d) in
              do! modify (set_display d) in
              ret metadata
          end in
        modify (set_projection (Some {| pr_format_version := pr_format_version head;
                                        pr_applied_sequence := sequence;
                                        pr_metadata_sequence := metadata |}))
  end.

(** [projection]: the head and the latest event outside every run. *)
Definition validate_projection (head : Z) db : SResult unit :=
  let? row := ok_or (projection db) integrity in
  let metadata := pr_metadata_sequence row in
  if negb (pr_format_version row =? 1) || negb (pr_applied_sequence row =? head)
     || (metadata <? 1) || (head <? metadata)
  then Err integrity
  else
    let? latest := ok_or (last (List.filter (fun r => is_none (row_run_id r) && (row_sequence r <=? head))
                            (events db))) integrity in
    if negb (row_sequence latest =? metadata)
       || ((metadata =? 1) && negb (bool_decide (row_event_type latest = "session.created")))
       || ((1 <? metadata) && negb (bool_decide (row_event_type latest = "session.renamed")))
       || is_some (row_run_id latest)
    then Err integrity else Ok tt.

Definition max_sequence (l : list EventRow) : option Z :=
  match l with
  | [] => None
  | r :: l => Some (foldl (fun n q => Z.max n (row_sequence q)) (row_sequence r) l)
  end.

Definition decode_workspace (json : option string) : SResult (option string) :=
  let? w := match json with
            | None => Ok None
            | Some t => let? s := ok_or (string_from_json t) integrity in Ok (Some s)
            end in
  check? map_err (validate_workspace w) (fun _ => integrity) in
  Ok w.

Definition is_renamed_to (t title : string) : SResult bool :=
  match payload_from_json "session.renamed" t with
  | Some (SessionRenamed renamed) => Ok (bool_decide (renamed = title))
  | _ => Err integrity
  end.

(** [validate]. *)
Definition validate_session (id : string) (expected : option CreationProvenance) db
  : SResult SessionManifest :=
  if negb (application_id db =? 1464423233) then Err integrity
  else if negb ((1 <=? user_version db) && (user_version db <=? 3))
  then Err (storage_error StorageErrorKind.UnsupportedVersion)
  else if negb (bool_decide (schema db = Released)) then Err integrity
  else
    let? row := ok_or (manifest db) integrity in
    if negb (mf_schema_version row =? user_version db) || negb (mf_format_version row =? 1)
       || negb (bool_decide (mf_session_id row = id))
    then Err integrity
    else
      let head := mf_head_sequence row in
      if (head <? 1) || negb (bool_decide (max_sequence (events db) = Some head)) then Err integrity
      else
        let? provenance := ok_or (provenance_from_json (mf_creation_provenance_json row)) integrity in
        let? input := provenance_request provenance in
        let? workspace := decode_workspace (mf_workspace_json row) in
        let m := {| sm_session_id := id; sm_title := mf_title row; sm_workspace := workspace;
                    sm_created_at_ms := mf_created_at_ms row; sm_updated_at_ms := mf_updated_at_ms row;
                    sm_head_sequence := as_u64 head |} in
        if negb (bool_decide (cp_session_id provenance = id))
           || negb (sm_created_at_ms m =? cp_created_at_ms provenance)
           || negb (bool_decide (sm_workspace m = cs_workspace input))
           || (sm_updated_at_ms m <? 0)
           || is_some_and expected (fun e => negb (bool_decide (e = provenance)))
        then Err integrity
        else
          let? created := ok_or (find (fun r => row_sequence r =? 1) (events db)) integrity in
          let? payload := match payload_from_json "session.created" (row_payload_json created) with
                          | Some (SessionCreated p) => Ok p
                          | _ => Err integrity
                          end in
          if negb (bool_decide (row_event_id created = cp_creation_event_id provenance))
             || negb (bool_decide (row_event_type created = "session.created"))
             || negb (row_event_version created =? 1)
             || negb (row_created_at_ms created =? cp_created_at_ms provenance)
             || is_some (row_run_id created) || is_some (row_source_event_id created)
             || is_some (row_source_sequence created)
             || negb (bool_decide (cd_creation_provenance payload = provenance))
             || negb (bool_decide (cd_title payload = cs_title input))
             || negb (bool_decide (cd_workspace payload = cs_workspace input))
          then Err integrity
          else
            let? latest := ok_or (find (fun r => row_sequence r =? head) (events db))
                             (storage_error StorageErrorKind.NotFound) in
            if negb (row_created_at_ms latest =? sm_updated_at_ms m) || negb (row_event_version latest =? 1)
            then Err integrity
            else if (head =? 1) && negb (bool_decide (sm_title m = cs_title input)) then Err integrity
            else
              let? title_ok := if bool_decide (row_event_type latest = "session.renamed")
                               then is_renamed_to (row_payload_json latest) (sm_title m) else Ok true in
              if negb title_ok then Err integrity
              else
                check? (if user_version db =? 3 then validate_projection head db else Ok tt) in
                Ok m.

(** [empty]. *)
Definition empty db : bool :=
  (application_id db =? 0) && (user_version db =? 0) && bool_decide (schema db = No_objects).

(** The DDL of [initialize]: the released tables, with no rows. *)
Definition create_schema : Sql unit :=
  modify (fun _ => mkDb 1464423233 3 Released None [] [] ∅ ∅ None empty_display).

Definition workspace_to_json (w : option string) : SResult (option string) :=
  match w with
  | None => Ok None
  | Some s => let? t := ok_or (string_to_json s) invalid in Ok (Some t)
  end.

(** The body of [initialize]. *)
Definition initialize_body (provenance : CreationProvenance) : Sql SessionManifest :=
  do! reads (fun db => if empty db then Ok tt else Err integrity) in
  do! create_schema in
  let! input := lift (provenance_request provenance) in
  let payload := SessionCreated {| cd_title := cs_title input; cd_workspace := cs_workspace input;
                                   cd_creation_provenance := provenance |} in
  let! workspace := lift (workspace_to_json (cs_workspace input)) in
  let! provenance_json := lift (ok_or (provenance_to_json provenance) invalid) in
  do! insert_manifest {| mf_session_id := cp_session_id provenance; mf_schema_version := 3;
        mf_format_version := 1; mf_title := cs_title input; mf_workspace_json := workspace;
        mf_created_at_ms := cp_created_at_ms provenance;
        mf_updated_at_ms := cp_created_at_ms provenance; mf_head_sequence := 1;
        mf_creation_provenance_json := provenance_json |} in
  let! json := lift (ok_or (payload_to_json payload) invalid) in
  do! insert_event_row {| row_sequence := 1; row_event_id := cp_creation_event_id provenance;
        row_event_type := "session.created"; row_event_version := 1;
        row_created_at_ms := cp_created_at_ms provenance; row_run_id := None;
        row_source_event_id := None; row_source_sequence := None; row_payload_json := json |} in
  do! apply 1 None Input.Created in
  reads (validate_session (cp_session_id provenance) (Some provenance)).

(** [command]: the receipt of an operation, checked against its row. *)
Definition find_command (id operation : string) db : SResult (option Command) :=
  match find (fun c => bool_decide (cmd_operation_id c = operation)) (commands db) with
  | None => Ok None
  | Some row =>
      let? receipt := decode_receipt (cmd_receipt_json row) in
      let? m := ok_or (manifest db) (storage_error StorageErrorKind.NotFound) in
      if negb (bool_decide (rc_operation_id receipt = operation))
         || negb (bool_decide (rc_session_id receipt = id))
         || (cmd_first_sequence row <=? 1)
         || negb (rc_first_sequence receipt =? as_u64 (cmd_first_sequence row))
         || negb (rc_last_sequence receipt =? as_u64 (cmd_last_sequence row))
         || (mf_head_sequence m <? cmd_last_sequence row)
      then Err integrity
      else Ok (Some {| c_method := cmd_method row; c_payload_hash := cmd_payload_hash row;
                       c_receipt := receipt |})
  end.

(** [BEGIN IMMEDIATE] to [finish_transaction]: an error rolls everything back
    and says so; a failed commit leaves it unknown. *)
Definition transaction {S A} (fate : Fate) (c : SM S StorageError A) (db : S) : SResult A * S :=
  match fate with
  | Failed_statement e => (Err (not_committed e), db)
  | _ =>
      match c db with
      | (Err e, _) => (Err (not_committed e), db)
      | (Ok a, db') =>
          match fate with
          | Unknown_kept => (Err (storage_error StorageErrorKind.CommitUnknown), db')
          | Unknown_lost => (Err (storage_error StorageErrorKind.CommitUnknown), db)
          | _ => (Ok a, db')
          end
      end
  end.

Definition advance (last timestamp : Z) (m : ManifestRow) : ManifestRow := {|
  mf_session_id := mf_session_id m; mf_schema_version := mf_schema_version m;
  mf_format_version := mf_format_version m; mf_title := mf_title m;
  mf_workspace_json := mf_workspace_json m; mf_created_at_ms := mf_created_at_ms m;
  mf_updated_at_ms := timestamp; mf_head_sequence := last;
  mf_creation_provenance_json := mf_creation_provenance_json m |}.

Definition retitle (title : string) (m : ManifestRow) : ManifestRow := {|
  mf_session_id := mf_session_id m; mf_schema_version := mf_schema_version m;
  mf_format_version := mf_format_version m; mf_title := title;
  mf_workspace_json := mf_workspace_json m; mf_created_at_ms := mf_created_at_ms m;
  mf_updated_at_ms := mf_updated_at_ms m; mf_head_sequence := mf_head_sequence m;
  mf_creation_provenance_json := mf_creation_provenance_json m |}.

(** [initialize]. *)
Definition initialize (fate : Fate) (provenance : CreationProvenance) : Db D -> SResult SessionManifest * Db D :=
  transaction fate (initialize_body provenance).

(** The body of [rename_transaction]. *)
Definition rename_body (clock : Clock) (provenance : CreationProvenance) (operation title : string)
  : Sql (CommitReceipt * bool) :=
  let id := cp_session_id provenance in
  let! request := lift (ok_or (rename_to_json id title) invalid) in
  let hash := sha256 request in
  let! known := reads (find_command id operation) in
  match known with
  | Some command =>
      if negb (bool_decide (c_method command = "rename"))
         || negb (bool_decide (c_payload_hash command = hash))
      then throw conflict
      else if is_some (rc_run_id (c_receipt command))
              || negb (rc_first_sequence (c_receipt command) =? rc_last_sequence (c_receipt command))
      then throw integrity
      else ret (c_receipt command, true)
  | None =>
      let! m := reads (validate_session id (Some provenance)) in
      let! sequence := lift (next_sequence (sm_head_sequence m)) in
      let! receipt := lift (receipt_single operation id sequence) in
      let! timestamp := lift (now_ms clock) in
      let! json := lift (ok_or (payload_to_json (SessionRenamed title)) invalid) in
      do! insert_event_row {| row_sequence := sequence; row_event_id := fresh_event_id clock sequence;
            row_event_type := "session.renamed"; row_event_version := 1;
            row_created_at_ms := timestamp; row_run_id := None; row_source_event_id := None;
            row_source_sequence := None; row_payload_json := json |} in
      do! update_manifest (fun m => advance sequence timestamp (retitle title m)) in
      do! apply (as_u64 sequence) None Input.Renamed in
      let! receipt_json := lift (ok_or (receipt_to_json receipt) invalid) in
      do! insert_command {| cmd_operation_id := operation; cmd_method := "rename";
            cmd_payload_hash := hash; cmd_first_sequence := sequence; cmd_last_sequence := sequence;
            cmd_receipt_json := receipt_json |} in
      ret (receipt, false)
  end.

(** [rename_transaction]. *)
Definition rename_session (fate : Fate) (clock : Clock) (provenance : CreationProvenance)
    (operation title : string) : Db D -> SResult (CommitReceipt * bool) * Db D :=
  transaction fate (rename_body clock provenance operation title).
End session.
