(* ===== verification/RunStore.v ===== *)
(** * Recorded runs (src/src/storage/run_store.rs, run_store/replay.rs, interruption.rs)

    The typed reads of runs and tool results, the correlation of runtime events,
    the replay metadata, and the commands that accept a run, append to it and
    interrupt it. *)
From S2P Require Import Prelude Json Errors Identifiers Provider Tools Replay RunData Records Store History Session.

Module RecordedRunState.
Inductive t : Type := Accepted | Running | Completed | Failed | CancelledLocally | Interrupted.
#[global] Instance eq_dec : EqDecision t.
Proof. solve_decision. Defined.
End RecordedRunState.
Notation RunState := RecordedRunState.t.

(** [state_name], and the deserialization of a state column. *)
Definition state_name (s : RunState) : string :=
  match s with
  | RecordedRunState.Accepted => "accepted"
  | RecordedRunState.Running => "running"
  | RecordedRunState.Completed => "completed"
  | RecordedRunState.Failed => "failed"
  | RecordedRunState.CancelledLocally => "cancelled_locally"
  | RecordedRunState.Interrupted => "interrupted"
  end.

Definition state_of_name (n : string) : option RunState :=
  find (fun s => bool_decide (state_name s = n))
    [RecordedRunState.Accepted; RecordedRunState.Running; RecordedRunState.Completed;
     RecordedRunState.Failed; RecordedRunState.CancelledLocally; RecordedRunState.Interrupted].

(** [active] and [outcome_state]. *)
Definition active (s : RunState) : bool :=
  match s with RecordedRunState.Accepted | RecordedRunState.Running => true | _ => false end.

Definition outcome_state (o : RunOutcome) : RunState :=
  match o with
  | Completed => RecordedRunState.Completed
  | Failed _ => RecordedRunState.Failed
  | CancelledLocally => RecordedRunState.CancelledLocally
  end.

Record RecordedRun : Type := {
  rr_run_id : string;
  rr_accepted_sequence : Z;
  rr_input : RecordedRunInput;
  rr_state : RunState;
  rr_last_runtime_sequence : Z;
  rr_owner_instance_id : string;
  rr_provider_session_id : option string;
  rr_terminal : option StoredEvent;
  rr_result_sequence : option Z;
  rr_result : option RunResult
}.

Record RecordedToolResult : Type := {
  rt_tool_name : string;
  rt_request_id : option string;
  rt_started_sequence : Z;
  rt_finished_sequence : option Z;
  rt_result_sequence : option Z;
  rt_is_error : option bool;
  rt_output : option string
}.

(** [positive]. *)
Definition positive (v : Z) : SResult Z := if v <=? 0 then Err integrity else Ok (as_u64 v).
Definition positive_opt (v : option Z) : SResult (option Z) :=
  match v with None => Ok None | Some v => let? v := positive v in Ok (Some v) end.

Definition is_tool_event (e : RunEventEnvelope) (p : ToolExecutionEvent -> bool) : bool :=
  match ev_event e with EToolEvent t => p t | _ => false end.

Section reads.
Context {D : Type} `{UuidLib} `{StorageSerde}.
Implicit Types db : Db D.

Definition expect (b : bool) : SResult unit := if b then Ok tt else Err integrity.

(** The terminal event of [run_record]. *)
Definition read_terminal (id run : string) (accepted : Z) (state : RunState) (provider : option string)
    (sequence : option Z) (json : option string) db : SResult (option StoredEvent) :=
  match sequence with
  | None => Ok None
  | Some sequence =>
      let? event := read_event id sequence db in
      check? expect (negb (sequence <=? accepted) && bool_decide (st_run_id event = Some run)) in
      check? (if bool_decide (state = RecordedRunState.Interrupted)
              then expect (match st_payload event with RunInterrupted _ => true | _ => false end)
              else let? op := ok_or (terminal_outcome event) integrity in
                   expect (bool_decide (outcome_state (fst op) = state) && bool_decide (snd op = provider))) in
      let? stored := ok_or json integrity in
      check? expect (json_is_payload stored (st_payload event)) in
      Ok (Some event)
  end.

(** The recorded result of [run_record]. *)
Definition read_result (id run : string) (terminal : option StoredEvent) (sequence : option Z) db
  : SResult (option RunResult) :=
  match sequence with
  | None => Ok None
  | Some sequence =>
      let? event := read_event id sequence db in
      match st_payload event with
      | RunResultRecorded result =>
          let? terminal := ok_or terminal integrity in
          let? op := ok_or (terminal_outcome terminal) integrity in
          check? expect (bool_decide (st_run_id event = Some run)
                         && bool_decide (res_outcome result = fst op)
                         && bool_decide (res_session_id result = snd op)
                         && negb (sequence <? st_sequence terminal)) in
          Ok (Some result)
      | _ => Err integrity
      end
  end.

(** [run_record]. *)
Definition run_record (id run : string) db : SResult (option RecordedRun) :=
  match runs db !! run with
  | None => Ok None
  | Some row =>
      let? accepted_sequence := positive (run_accepted_sequence row) in
      let? event := read_event id accepted_sequence db in
      match st_payload event with
      | RunAccepted accepted =>
          check? expect (bool_decide (ac_run_id accepted = run)
                         && bool_decide (ac_owner_instance_id accepted = run_owner_instance_id row)) in
          let? state := ok_or (state_of_name (run_state row)) integrity in
          check? expect (negb (run_last_runtime_sequence row <? 0)) in
          let? terminal_sequence := positive_opt (run_terminal_sequence row) in
          check? expect (Bool.eqb (is_some terminal_sequence) (is_some (run_terminal_json row))
                         && negb (Bool.eqb (active state) (is_some terminal_sequence))) in
          let? terminal := read_terminal id run accepted_sequence state (run_provider_session_id row)
                             terminal_sequence (run_terminal_json row) db in
          let? result_sequence := positive_opt (run_result_sequence row) in
          let? result := read_result id run terminal result_sequence db in
          Ok (Some {| rr_run_id := run; rr_accepted_sequence := accepted_sequence;
                      rr_input := ac_input accepted; rr_state := state;
                      rr_last_runtime_sequence := as_u64 (run_last_runtime_sequence row);
                      rr_owner_instance_id := ac_owner_instance_id accepted;
                      rr_provider_session_id := run_provider_session_id row;
                      rr_terminal := terminal; rr_result_sequence := result_sequence;
                      rr_result := result |})
      | _ => Err integrity
      end
  end.

(** [RecordedRun::terminal_sequence]. *)
Definition terminal_sequence (r : RecordedRun) : option Z := st_sequence <$> rr_terminal r.

(** Whether the runtime event at a sequence is the wanted tool event. *)
Definition tool_link (id run : string) (request : option string) (sequence : Z)
    (p : ToolExecutionEvent -> bool) db : SResult unit :=
  let? event := read_event id sequence db in
  match st_payload event with
  | RuntimeObserved envelope =>
      expect (bool_decide (st_run_id event = Some run)
              && bool_decide (ev_request_id envelope = request) && is_tool_event envelope p)
  | _ => Err integrity
  end.

(** [tool_result]. *)
Definition read_tool (id run call : string) db : SResult (option RecordedToolResult) :=
  match tool_results db !! (run, call) with
  | None => Ok None
  | Some row =>
      let? started := positive (tool_started_sequence row) in
      let? finished := positive_opt (tool_finished_sequence row) in
      let? result := positive_opt (tool_result_sequence row) in
      let request := tool_request_id row in
      check? expect (Bool.eqb (is_some result) (is_some (tool_output row))
                     && Bool.eqb (is_some result || is_some finished) (is_some (tool_is_error row))) in
      check? tool_link id run request started
        (fun t => match t with
                  | ToolExecutionStarted c n =>
                      bool_decide (c = call) && bool_decide (n = tool_tool_name row)
                  | _ => false
                  end) db in
      check? match finished with
             | None => Ok tt
             | Some sequence =>
                 check? expect (started <? sequence) in
                 tool_link id run request sequence
                   (fun t => match t with
                             | ToolExecutionFinished c n e =>
                                 bool_decide (c = call) && bool_decide (n = tool_tool_name row)
                                 && bool_decide (Some e = tool_is_error row)
                             | _ => false
                             end) db
             end in
      check? match result with
             | None => Ok tt
             | Some sequence =>
                 let? event := read_event id sequence db in
                 match st_payload event with
                 | ToolResultRecorded payload =>
                     expect ((started <? sequence) && bool_decide (st_run_id event = Some run)
                             && bool_decide (tr_call_id payload = call)
                             && bool_decide (tr_request_id payload = request)
                             && bool_decide (Some (tr_output payload) = tool_output row)
                             && bool_decide (Some (tr_is_error payload) = tool_is_error row))
                 | _ => Err integrity
                 end
             end in
      Ok (Some {| rt_tool_name := tool_tool_name row; rt_request_id := request;
                  rt_started_sequence := started; rt_finished_sequence := finished;
                  rt_result_sequence := result; rt_is_error := tool_is_error row;
                  rt_output := tool_output row |})
  end.

(** [latest_runtime]. *)
Definition latest_runtime (id run : string) (kind : option string) db : SResult (option RunEventEnvelope) :=
  match last (List.filter (fun r => bool_decide (row_run_id r = Some run)
                        && bool_decide (row_event_type r = "runtime.observed")
                        && is_none_or kind (fun k => bool_decide (json_type (row_payload_json r) = Some k)))
                (events db)) with
  | None => Ok None
  | Some row =>
      let? stored := decode_event id row in
      match st_payload stored with
      | RuntimeObserved event => Ok (Some event)
      | _ => Err integrity
      end
  end.

(** ** Correlation *)
Record Correlation : Type := {
  co_session : option string;
  co_turn : option (string * Z);
  co_request : option string;
  co_provider_sequence : option Z
}.

Definition default_correlation : Correlation :=
  {| co_session := None; co_turn := None; co_request := None; co_provider_sequence := None |}.

(** Whether an event leaves no turn open. *)
Definition between_turns (e : RunEvent) : bool :=
  match e with RunStarted | TurnFinished _ _ _ _ | RunFinished _ _ => true | _ => false end.

(** [Correlation::load]. *)
Definition load_correlation (id : string) (run : RecordedRun) db : SResult Correlation :=
  let session := rr_provider_session_id run in
  if rr_last_runtime_sequence run =? 0
  then Ok {| co_session := session; co_turn := None; co_request := None; co_provider_sequence := None |}
  else
    let? latest := latest_runtime id (rr_run_id run) None db in
    let? latest := ok_or latest integrity in
    check? expect (ev_sequence latest =? rr_last_runtime_sequence run) in
    let? turn :=
      if between_turns (ev_event latest) then Ok None
      else
        let? started := latest_runtime id (rr_run_id run) (Some "turn_started") db in
        let? started := ok_or started integrity in
        match ev_event started with
        | TurnStarted number =>
            check? expect (bool_decide (ev_turn_id latest = ev_turn_id started)) in
            let? turn := ok_or (ev_turn_id started) integrity in
            Ok (Some (turn, number))
        | _ => Err integrity
        end in
    let? provider := latest_runtime id (rr_run_id run) (Some "provider_event") db in
    let? provider_sequence :=
      match provider with
      | None => Ok None
      | Some e => match ev_event e with
                  | EProviderEvent event => Ok (Some (env_sequence event))
                  | _ => Err integrity
                  end
      end in
    Ok {| co_session := session; co_turn := turn; co_request := ev_request_id latest;
          co_provider_sequence := provider_sequence |}.

Definition seen_source (event_id : string) (before : Z) db : bool :=
  existsb (fun r => bool_decide (row_source_event_id r = Some event_id) && (row_sequence r <? before))
    (events db).

Definition seen_turn (run : string) (turn : option string) (before : Z) db : bool :=
  is_some turn &&
  existsb (fun r => bool_decide (row_run_id r = Some run) && (row_sequence r <? before)
                    && bool_decide (row_event_type r = "runtime.observed")
                    && bool_decide (json_type (row_payload_json r) = Some "turn_started")
                    && bool_decide (json_turn_id (row_payload_json r) = turn)) (events db).

(** The last match of [Correlation::observe]: the turn, the request and the
    provider's order. *)
Definition observe_turn (run : RecordedRun) (event : RunEventEnvelope) (before : Z) (c : Correlation) db
  : SResult Correlation :=
  let inside (k : string * Z -> Correlation -> SResult Correlation) :=
    let? open := ok_or (co_turn c) transition in
    if negb (bool_decide (ev_turn_id event = Some (fst open)))
       || (is_some (co_request c) && negb (bool_decide (co_request c = ev_request_id event)))
    then Err transition
    else k open {| co_session := co_session c; co_turn := co_turn c; co_request := ev_request_id event;
                   co_provider_sequence := co_provider_sequence c |} in
  match ev_event event with
  | RunStarted => Ok c
  | TurnStarted number =>
      if is_some (co_turn c) || seen_turn (rr_run_id run) (ev_turn_id event) before db
      then Err transition
      else
        let? turn := ok_or (ev_turn_id event) transition in
        Ok {| co_session := co_session c; co_turn := Some (turn, number); co_request := None;
              co_provider_sequence := co_provider_sequence c |}
  | EProviderEvent provider =>
      inside (fun _ c =>
        if negb (bool_decide (env_provider provider = rq_provider_id (prepared_request (rr_input run))))
           || is_some_and (co_provider_sequence c) (fun previous => env_sequence provider <=? previous)
        then Err transition
        else Ok {| co_session := co_session c; co_turn := co_turn c; co_request := co_request c;
                   co_provider_sequence := Some (env_sequence provider) |})
  | EToolEvent _ => inside (fun _ c => Ok c)
  | TurnFinished finished _ _ _ =>
      inside (fun open c =>
        if negb (finished =? snd open) then Err transition
        else Ok {| co_session := co_session c; co_turn := None; co_request := co_request c;
                   co_provider_sequence := co_provider_sequence c |})
  | RunFinished _ _ =>
      if is_some (co_turn c) || negb (bool_decide (co_request c = ev_request_id event))
      then Err transition else Ok c
  end.

(** [Correlation::observe]. *)
Definition observe_correlation (run : RecordedRun) (event : RunEventEnvelope) (before : Z) (c : Correlation) db
  : SResult Correlation :=
  if negb (bool_decide (ev_run_id event = rr_run_id run)) then Err invalid
  else if (ev_sequence event <=? rr_last_runtime_sequence run) || seen_source (ev_event_id event) before db
  then Err conflict
  else
    check? match ev_event event with
           | RunStarted => if bool_decide (rr_state run = RecordedRunState.Accepted) then Ok tt else Err transition
           | _ => if bool_decide (rr_state run = RecordedRunState.Running) then Ok tt else Err transition
           end in
    if is_some (co_session c) && negb (bool_decide (co_session c = ev_session_id event))
    then Err transition
    else
      let? c := observe_turn run event before c db in
      Ok {| co_session := ev_session_id event; co_turn := co_turn c; co_request := co_request c;
            co_provider_sequence := co_provider_sequence c |}.
End reads.

(** ** Replay metadata (run_store/replay.rs) *)

(** [no_activity]. *)
Definition no_activity (s : RunSummary) : bool :=
  (turns_started s =? 0) && (turns_finished s =? 0) && (model_requests_attempted s =? 0)
  && (model_requests_admitted s =? 0) && (new_tool_dispatches s =? 0)
  && (tool_results_prepared s =? 0) && (reused_results s =? 0)
  && is_none (last_request_id s) && is_none (last_upstream_outcome s).

(** [validate_unbound_runtime]. *)
Definition validate_unbound_runtime (event : RunEventEnvelope) : SResult unit :=
  match ev_event event with
  | RunStarted => Ok tt
  | RunFinished _ summary =>
      if no_activity summary && is_none (ev_request_id event) then Ok tt else Err transition
  | _ => Err transition
  end.

(** [validate_unbound_result]. *)
Definition validate_unbound_result (r : RunResult) : SResult unit :=
  if negb (no_activity (res_summary r)) || is_some (res_last_response r) then Err transition else Ok tt.

Section metadata.
Context {D : Type} `{UuidLib} `{StorageSerde}.
Implicit Types db : Db D.

(** [command_hash]. *)
Definition command_hash (id run : string) (m : Mutation) : SResult string :=
  let? t := ok_or (command_to_json id run m) invalid in Ok (sha256 t).

(** [metadata_event]: at most one event of a kind. *)
Definition metadata_event (id run kind : string) db : SResult (option StoredEvent) :=
  match List.filter (fun r => bool_decide (row_run_id r = Some run) && bool_decide (row_event_type r = kind))
          (events db) with
  | [] => Ok None
  | [row] => let? e := decode_event id row in Ok (Some e)
  | _ => Err integrity
  end.

(** [history_selection]: the selection event, re-checked against the accepted
    run and the one command that wrote both. *)
Definition history_selection (id run : string) db : SResult (option StoredHistorySelection) :=
  let? event := metadata_event id run "run.history.selected" db in
  match event with
  | None => Ok None
  | Some event =>
      match st_payload event with
      | RunHistorySelected payload =>
          let? record := run_record id run db in
          let? record := ok_or record integrity in
          let selection := sel_selection payload in
          check? expect ((st_sequence event =? rr_accepted_sequence record + 1)
                         && (hs_through_sequence selection =? rr_accepted_sequence record - 1)
                         && selection_matches selection (rr_input record)) in
          match List.filter (fun c => (cmd_first_sequence c <=? st_sequence event)
                                 && (rr_accepted_sequence record <=? cmd_last_sequence c)) (commands db) with
          | [row] =>
              let? operation := map_err (parse_id (cmd_operation_id row)) (fun _ => integrity) in
              let? command := find_command id operation db in
              let? command := ok_or command integrity in
              let mutation := AcceptHistory (rr_input record) selection in
              check? expect (bool_decide (c_method command = method mutation)
                             && bool_decide (rc_run_id (c_receipt command) = Some run)
                             && (rc_first_sequence (c_receipt command) =? rr_accepted_sequence record)
                             && (rc_last_sequence (c_receipt command) =? st_sequence event)) in
              let? hash := command_hash id run mutation in
              check? expect (bool_decide (c_payload_hash command = hash)) in
              Ok (Some selection)
          | _ => Err integrity
          end
      | _ => Err integrity
      end
  end.

(** [validate_binding]: only acceptance, its selection and one [RunStarted] may
    precede a binding. *)
Definition validate_binding (id : string) (run : RecordedRun) (binding : RecordedProviderBinding)
    (sequence : Z) db : SResult unit :=
  if negb (bool_decide (pb_run_id binding = rr_run_id run)) || negb (binding_matches binding (rr_input run))
  then Err transition
  else
    let? selection := history_selection id (rr_run_id run) db in
    if is_none selection then Err transition
    else
      match take 2 (List.filter (fun r => bool_decide (row_run_id r = Some (rr_run_id run))
                            && (as_i64 (rr_accepted_sequence run + 1) <? row_sequence r)
                            && (row_sequence r <? as_i64 sequence)) (events db)) with
      | [row] =>
          let? started := decode_event id row in
          match st_payload started with
          | RuntimeObserved e => match ev_event e with RunStarted => Ok tt | _ => Err transition end
          | _ => Err transition
          end
      | _ => Err transition
      end.

(** [provider_binding]. *)
Definition provider_binding (id run : string) db : SResult (option RecordedProviderBinding) :=
  let? event := metadata_event id run "run.provider.bound" db in
  match event with
  | None => Ok None
  | Some event =>
      match st_payload event with
      | RunProviderBound binding =>
          let? record := run_record id run db in
          let? record := ok_or record integrity in
          check? map_err (validate_binding id record binding (st_sequence event) db)
                   (fun e => if bool_decide (se_kind e = StorageErrorKind.InvalidTransition)
                             then integrity else e) in
          check? expect (bool_decide (rr_provider_session_id record = Some (pb_provider_session_id binding))) in
          Ok (Some binding)
      | _ => Err integrity
      end
  end.
End metadata.

(** ** Commands *)
Section commands.
Context {D : Type} `{Display D} `{UuidLib} `{StorageSerde}.
Implicit Types db : Db D.
Notation Sql := (SM (Db D) StorageError).

(** [insert_event]. *)
Definition insert_event (clock : Clock) (sequence timestamp : Z) (run kind json : string)
    (source : option RunEventEnvelope) : Sql unit :=
  insert_event_row {| row_sequence := sequence; row_event_id := fresh_event_id clock sequence;
    row_event_type := kind; row_event_version := 1; row_created_at_ms := timestamp;
    row_run_id := Some run; row_source_event_id := ev_event_id <$> source;
    row_source_sequence := (fun e => as_i64 (ev_sequence e)) <$> source; row_payload_json := json |}.

(** [require_outputs]. *)
Definition missing_output (run : string) db : bool :=
  match filter (fun kt : string * string * ToolRow =>
                  (bool_decide (kt.1.1 = run) && is_none (tool_result_sequence kt.2)) = true)
          (map_to_list (tool_results db)) with
  | [] => false
  | _ :: _ => true
  end.

Definition require_outputs (run : string) (outcome : RunOutcome) : Sql unit :=
  reads (fun db => if bool_decide (outcome = Completed) && missing_output run db
                   then Err transition else Ok tt).

Definition with_terminal (sequence : Z) (json : string) (r : RunRow) : RunRow := {|
  run_accepted_sequence := run_accepted_sequence r; run_state := run_state r;
  run_last_runtime_sequence := run_last_runtime_sequence r;
  run_owner_instance_id := run_owner_instance_id r;
  run_provider_session_id := run_provider_session_id r; run_terminal_sequence := Some sequence;
  run_terminal_json := Some json; run_result_sequence := run_result_sequence r |}.

Definition with_progress (state : RunState) (last : Z) (provider : option string) (result : option Z)
    (r : RunRow) : RunRow := {|
  run_accepted_sequence := run_accepted_sequence r; run_state := state_name state;
  run_last_runtime_sequence := last; run_owner_instance_id := run_owner_instance_id r;
  run_provider_session_id := provider; run_terminal_sequence := run_terminal_sequence r;
  run_terminal_json := run_terminal_json r; run_result_sequence := result |}.

Definition with_state (state : RunState) (r : RecordedRun) : RecordedRun := {|
  rr_run_id := rr_run_id r; rr_accepted_sequence := rr_accepted_sequence r; rr_input := rr_input r;
  rr_state := state; rr_last_runtime_sequence := rr_last_runtime_sequence r;
  rr_owner_instance_id := rr_owner_instance_id r; rr_provider_session_id := rr_provider_session_id r;
  rr_terminal := rr_terminal r; rr_result_sequence := rr_result_sequence r; rr_result := rr_result r |}.

Definition with_runtime (last : Z) (provider : option string) (r : RecordedRun) : RecordedRun := {|
  rr_run_id := rr_run_id r; rr_accepted_sequence := rr_accepted_sequence r; rr_input := rr_input r;
  rr_state := rr_state r; rr_last_runtime_sequence := last;
  rr_owner_instance_id := rr_owner_instance_id r; rr_provider_session_id := provider;
  rr_terminal := rr_terminal r; rr_result_sequence := rr_result_sequence r; rr_result := rr_result r |}.

Definition with_result_sequence (sequence : Z) (r : RecordedRun) : RecordedRun := {|
  rr_run_id := rr_run_id r; rr_accepted_sequence := rr_accepted_sequence r; rr_input := rr_input r;
  rr_state := rr_state r; rr_last_runtime_sequence := rr_last_runtime_sequence r;
  rr_owner_instance_id := rr_owner_instance_id r; rr_provider_session_id := rr_provider_session_id r;
  rr_terminal := rr_terminal r; rr_result_sequence := Some sequence; rr_result := rr_result r |}.

Definition with_terminal_event (e : StoredEvent) (r : RecordedRun) : RecordedRun := {|
  rr_run_id := rr_run_id r; rr_accepted_sequence := rr_accepted_sequence r; rr_input := rr_input r;
  rr_state := rr_state r; rr_last_runtime_sequence := rr_last_runtime_sequence r;
  rr_owner_instance_id := rr_owner_instance_id r; rr_provider_session_id := rr_provider_session_id r;
  rr_terminal := Some e; rr_result_sequence := rr_result_sequence r; rr_result := rr_result r |}.

(** [terminalize]. *)
Definition terminalize (run : RecordedRun) (sequence : Z) (outcome : RunOutcome) (json : string)
  : Sql RecordedRun :=
  do! update_run (rr_run_id run) (with_terminal sequence json) in
  ret (with_state (outcome_state outcome) run).

Definition finished_tool (sequence : Z) (is_error : bool) (t : ToolRow) : ToolRow := {|
  tool_tool_name := tool_tool_name t; tool_request_id := tool_request_id t;
  tool_started_sequence := tool_started_sequence t; tool_finished_sequence := Some sequence;
  tool_result_sequence := tool_result_sequence t; tool_is_error := Some is_error;
  tool_output := tool_output t |}.

Definition resulted_tool (sequence : Z) (output : string) (is_error : bool) (t : ToolRow) : ToolRow := {|
  tool_tool_name := tool_tool_name t; tool_request_id := tool_request_id t;
  tool_started_sequence := tool_started_sequence t; tool_finished_sequence := tool_finished_sequence t;
  tool_result_sequence := Some sequence; tool_is_error := Some is_error; tool_output := Some output |}.

(** [record_tool_event]. *)
Definition record_tool_event (id : string) (run : RecordedRun) (sequence : Z)
    (envelope : RunEventEnvelope) (event : ToolExecutionEvent) : Sql unit :=
  let! request := lift (ok_or (ev_request_id envelope) transition) in
  match event with
  | ToolExecutionStarted call tool_name =>
      let! known := reads (read_tool id (rr_run_id run) call) in
      if is_some known then throw transition
      else insert_tool (rr_run_id run, call)
             {| tool_tool_name := tool_name; tool_request_id := Some request;
                tool_started_sequence := sequence; tool_finished_sequence := None;
                tool_result_sequence := None; tool_is_error := None; tool_output := None |}
  | ToolExecutionFinished call tool_name is_error =>
      let! saved := reads (read_tool id (rr_run_id run) call) in
      let! saved := lift (ok_or saved transition) in
      if negb (bool_decide (rt_tool_name saved = tool_name))
         || negb (bool_decide (rt_request_id saved = Some request))
         || is_some (rt_finished_sequence saved)
         || is_some_and (rt_is_error saved) (fun observed => negb (Bool.eqb observed is_error))
      then throw transition
      else
        let! started := reads (read_event id (rt_started_sequence saved)) in
        match st_payload started with
        | RuntimeObserved started =>
            if negb (bool_decide (ev_turn_id started = ev_turn_id envelope)) then throw transition
            else update_tool (rr_run_id run, call) (finished_tool sequence is_error)
        | _ => throw integrity
        end
  | ToolResultReused call tool_name =>
      let! saved := reads (read_tool id (rr_run_id run) call) in
      let! saved := lift (ok_or saved transition) in
      if negb (bool_decide (rt_tool_name saved = tool_name))
         || is_none (rt_request_id saved) || is_none (rt_result_sequence saved)
      then throw transition else ret tt
  end.

(** The stored form of a record: its payload and the source it was observed from. *)
Definition record_payload (r : AppendRunRecord) : StoredEventPayload :=
  match r with
  | RProviderBinding binding => RunProviderBound binding
  | RRuntime event => RuntimeObserved event
  | RToolResult request call output is_error =>
      ToolResultRecorded {| tr_request_id := request; tr_call_id := call; tr_output := output;
                            tr_is_error := is_error |}
  | RResult result => RunResultRecorded result
  end.

Definition record_source (r : AppendRunRecord) : option RunEventEnvelope :=
  match r with RRuntime event => Some event | _ => None end.

(** [Event::record]: the projector's view of a record. *)
Definition record_input (run : string) (r : AppendRunRecord) : SResult Input.t :=
  match r with
  | RProviderBinding binding =>
      if bool_decide (pb_run_id binding = run) then Ok Input.ProviderBound else Err integrity
  | RRuntime event => Ok (Input.Runtime event)
  | RToolResult request call output is_error => Ok (Input.ToolResult request call output is_error)
  | RResult result => Ok (Input.Result result)
  end.

(** The effect of a record on its run, after its event is inserted. *)
Definition append_effect (id : string) (run : RecordedRun) (sequence : Z) (json : string)
    (record : AppendRunRecord) : Sql RecordedRun :=
  match record with
  | RProviderBinding binding =>
      ret (with_runtime (rr_last_runtime_sequence run) (Some (pb_provider_session_id binding)) run)
  | RRuntime event =>
      let! run :=
        match ev_event event with
        | RunStarted => ret (with_state RecordedRunState.Running run)
        | RunFinished outcome _ =>
            do! require_outputs (rr_run_id run) outcome in
            terminalize run sequence outcome json
        | EToolEvent tool => do! record_tool_event id run sequence event tool in ret run
        | _ => ret run
        end in
      ret (with_runtime (ev_sequence event) (ev_session_id event) run)
  | RToolResult request call output is_error =>
      if negb (bool_decide (rr_state run = RecordedRunState.Running)) then throw transition
      else
        let! saved := reads (read_tool id (rr_run_id run) call) in
        let! saved := lift (ok_or saved transition) in
        if negb (bool_decide (rt_request_id saved = request)) || is_some (rt_result_sequence saved)
           || is_some_and (rt_is_error saved) (fun observed => negb (Bool.eqb observed is_error))
        then throw transition
        else
          do! update_tool (rr_run_id run, call) (resulted_tool sequence output is_error) in
          ret run
  | RResult result =>
      if negb (bool_decide (res_run_id result = rr_run_id run)) || is_some (rr_result_sequence run)
      then throw transition
      else
        let! run :=
          if active (rr_state run) then
            if res_events_complete result
               || (is_some (rr_provider_session_id run)
                   && negb (bool_decide (rr_provider_session_id run = res_session_id result)))
            then throw transition
            else
              do! require_outputs (rr_run_id run) (res_outcome result) in
              let! run := terminalize run sequence (res_outcome result) json in
              ret (with_runtime (rr_last_runtime_sequence run) (res_session_id result) run)
          else
            let! terminal := lift (ok_or (terminal_sequence run) integrity) in
            let! terminal := reads (read_event id terminal) in
            let! op := lift (ok_or (terminal_outcome terminal) transition) in
            if negb (bool_decide (fst op = res_outcome result))
               || negb (bool_decide (snd op = res_session_id result))
            then throw transition
            else ret run in
        ret (with_result_sequence (as_u64 sequence) run)
  end.

(** [append]. *)
Definition append (clock : Clock) (id : string) (run : RecordedRun) (sequence timestamp : Z)
    (record : AppendRunRecord) : Sql RecordedRun :=
  do! match record with
      | RProviderBinding binding =>
          if negb (bool_decide (rr_state run = RecordedRunState.Running)) then throw transition
          else reads (validate_binding id run binding (as_u64 sequence))
      | _ => ret tt
      end in
  let! json := lift (ok_or (payload_to_json (record_payload record)) invalid) in
  if bool_decide (rr_state run = RecordedRunState.Interrupted)
     || (negb (active (rr_state run)) && match record with RResult _ => false | _ => true end)
  then throw transition
  else
    do! insert_event clock sequence timestamp (rr_run_id run) (event_type (record_payload record)) json
          (record_source record) in
    let! run := append_effect id run sequence json record in
    do! update_run (rr_run_id run)
          (with_progress (rr_state run) (as_i64 (rr_last_runtime_sequence run))
             (rr_provider_session_id run) (as_i64 <$> rr_result_sequence run)) in
    let! run :=
      if negb (active (rr_state run)) && is_none (rr_terminal run)
      then let! e := reads (read_event id (as_u64 sequence)) in ret (with_terminal_event e run)
      else ret run in
    let! input := lift (record_input (rr_run_id run) record) in
    do! apply (as_u64 sequence) (Some (rr_run_id run)) input in
    ret run.

(** The checks of a record while the run is not bound to its provider. *)
Definition validate_unbound (r : AppendRunRecord) : SResult unit :=
  match r with
  | RRuntime event => validate_unbound_runtime event
  | RResult result => validate_unbound_result result
  | RToolResult _ _ _ _ => Err transition
  | RProviderBinding _ => Ok tt
  end.

(** The loop over the records of an [Append]. *)
Fixpoint append_all (clock : Clock) (id : string) (timestamp : Z) (run : RecordedRun) (c : Correlation)
    (unbound : bool) (sequence : Z) (records : list AppendRunRecord) : Sql unit :=
  match records with
  | [] => ret tt
  | record :: records =>
      do! lift (if unbound then validate_unbound record else Ok tt) in
      let! c := match record with
                | RRuntime event => reads (observe_correlation run event sequence c)
                | _ => ret c
                end in
      let! run := append clock id run sequence timestamp record in
      match record with
      | RProviderBinding binding =>
          append_all clock id timestamp run
            {| co_session := Some (pb_provider_session_id binding); co_turn := co_turn c;
               co_request := co_request c; co_provider_sequence := co_provider_sequence c |}
            false (sequence + 1) records
      | _ => append_all clock id timestamp run c unbound (sequence + 1) records
      end
  end.

(** Inserting an accepted run, with its history selection when it has one. *)
Definition accept (clock : Clock) (owner run : string) (first last timestamp : Z)
    (input : RecordedRunInput) (selection : option StoredHistorySelection) : Sql unit :=
  do! reads (fun db => if is_some (runs db !! run) then Err transition else Ok tt) in
  do! reads (fun db => match select_runs (fun _ r => unfinished (run_state r)) db with
                       | [] => Ok tt
                       | _ :: _ => Err (storage_error StorageErrorKind.ActiveRunExists)
                       end) in
  let payload := RunAccepted {| ac_run_id := run; ac_input := input; ac_owner_instance_id := owner |} in
  let! json := lift (ok_or (payload_to_json payload) invalid) in
  do! insert_event clock first timestamp run "run.accepted" json None in
  do! insert_run run {| run_accepted_sequence := first; run_state := "accepted";
        run_last_runtime_sequence := 0; run_owner_instance_id := owner;
        run_provider_session_id := None; run_terminal_sequence := None; run_terminal_json := None;
        run_result_sequence := None |} in
  do! apply (as_u64 first) (Some run) (Input.Accepted input) in
  match selection with
  | None => ret tt
  | Some selection =>
      let payload := RunHistorySelected {| sel_run_id := run; sel_selection := selection |} in
      let! json := lift (ok_or (payload_to_json payload) invalid) in
      do! insert_event clock last timestamp run "run.history.selected" json None in
      apply (as_u64 last) (Some run) Input.HistorySelected
  end.

(** The preflight of every novel record of an [Append]. *)
Fixpoint validate_all {A} (check : A -> SResult unit) (l : list A) : SResult unit :=
  match l with
  | [] => Ok tt
  | a :: l => check? check a in validate_all check l
  end.

Definition record_count (m : Mutation) : nat :=
  match m with Accept _ => 1 | AcceptHistory _ _ => 2 | Append records => length records end.

(** A retry: the receipt of the first execution, if it was the same command. *)
Definition replay_command (id run : string) (mutation : Mutation) (hash : string) (c : Command)
  : Sql (CommitReceipt * bool) :=
  if negb (bool_decide (c_method c = method mutation)) || negb (bool_decide (c_payload_hash c = hash))
  then throw conflict
  else if negb (bool_decide (rc_run_id (c_receipt c) = Some run)) then throw integrity
  else
    do! match mutation with
        | AcceptHistory _ selection =>
            let! known := reads (history_selection id run) in
            if bool_decide (known = Some selection) then ret tt else throw integrity
        | _ => ret tt
        end in
    ret (c_receipt c, true).

(** The body of [mutate]. *)
Definition mutate_body (clock : Clock) (provenance : CreationProvenance) (owner operation run : string)
    (mutation : Mutation) : Sql (CommitReceipt * bool) :=
  let id := cp_session_id provenance in
  let! hash := lift (command_hash id run mutation) in
  let! known := reads (find_command id operation) in
  match known with
  | Some c => replay_command id run mutation hash c
  | None =>
      let! m := reads (validate_session id (Some provenance)) in
      let head := sm_head_sequence m in
      do! lift match mutation with
               | AcceptHistory input selection =>
                   if negb (head =? hs_through_sequence selection)
                   then Err (storage_error StorageErrorKind.StaleHistory)
                   else if negb (selection_matches selection input) then Err invalid else Ok tt
               | _ => Ok tt
               end in
      do! match mutation with
          | Append records =>
              do! lift (validate_all validate_admission records) in
              let! r := reads (run_record id run) in
              let! r := lift (ok_or r transition) in
              lift (validate_all (fun x => validate_provider_admission x
                                             (rq_provider_id (prepared_request (rr_input r)))) records)
          | _ => ret tt
          end in
      let! range := lift (sequence_range head (record_count mutation)) in
      let first := fst range in
      let last := snd range in
      let! timestamp := lift (now_ms clock) in
      do! match mutation with
          | Accept input => accept clock owner run first last timestamp input None
          | AcceptHistory input selection =>
              accept clock owner run first last timestamp input (Some selection)
          | Append records =>
              let! r := reads (run_record id run) in
              let! r := lift (ok_or r transition) in
              let! c := reads (load_correlation id r) in
              let! selected := reads (history_selection id run) in
              let! unbound := (if is_some selected
                               then let! b := reads (provider_binding id run) in ret (is_none b)
                               else ret false) in
              append_all clock id timestamp r c unbound first records
          end in
      let! receipt := lift (receipt_run_batch operation id run first last) in
      do! update_manifest (advance last timestamp) in
      let! receipt_json := lift (ok_or (receipt_to_json receipt) invalid) in
      do! insert_command {| cmd_operation_id := operation; cmd_method := method mutation;
            cmd_payload_hash := hash; cmd_first_sequence := first; cmd_last_sequence := last;
            cmd_receipt_json := receipt_json |} in
      ret (receipt, false)
  end.

(** [mutate]. *)
Definition mutate (fate : Fate) (clock : Clock) (provenance : CreationProvenance)
    (owner operation run : string) (mutation : Mutation) : Db D -> SResult (CommitReceipt * bool) * Db D :=
  transaction fate (mutate_body clock provenance owner operation run mutation).

Definition with_interrupted (sequence : Z) (json : string) (r : RunRow) : RunRow := {|
  run_accepted_sequence := run_accepted_sequence r;
  run_state := "interrupted"; run_last_runtime_sequence := run_last_runtime_sequence r;
  run_owner_instance_id := run_owner_instance_id r;
  run_provider_session_id := run_provider_session_id r; run_terminal_sequence := Some sequence;
  run_terminal_json := Some json; run_result_sequence := run_result_sequence r |}.

(** The body of [reconcile] (interruption.rs). *)
Definition reconcile_body (clock : Clock) (provenance : CreationProvenance) (owner : string) : Sql unit :=
  let id := cp_session_id provenance in
  let! m := reads (validate_session id (Some provenance)) in
  let! stale := gets (select_runs (fun _ r => unfinished (run_state r)
                                      && negb (bool_decide (run_owner_instance_id r = owner)))) in
  match stale with
  | [] => ret tt
  | (key, _) :: _ =>
      let! run := lift (map_err (parse_id key) (fun _ => integrity)) in
      let! record := reads (run_record id run) in
      do! lift (ok_or record integrity) in
      let! sequence := lift (next_sequence (sm_head_sequence m)) in
      let! timestamp := lift (now_ms clock) in
      let! json := lift (ok_or (payload_to_json (RunInterrupted {| in_run_id := run |})) invalid) in
      do! insert_event clock sequence timestamp run "run.interrupted" json None in
      do! update_run run (with_interrupted sequence json) in
      do! update_manifest (advance sequence timestamp) in
      apply (as_u64 sequence) (Some run) Input.Interrupted
  end.

(** [reconcile]. *)
Definition reconcile (fate : Fate) (clock : Clock) (provenance : CreationProvenance) (owner : string)
  : Db D -> SResult unit * Db D :=
  transaction fate (reconcile_body clock provenance owner).
End commands.
