(* ===== verification/StoreSafety.v ===== *)
(** * What no command can undo

    Every command extends the log at its end, keeps the history, the receipts and
    the recorded results it found, and moves runs only forward.  [evolves] is that
    relation between two states of a session; the triples below show that each
    statement of each command respects it. *)
From S2P Require Import Prelude Json Errors Identifiers Provider Tools Replay RunData Hoare Records Store History Session RunStore.

Section safety.
Context {D : Type} `{Display D} `{UuidLib} `{StorageSerde}.
Implicit Types db : Db D.

(** ** The log *)

(** The events are numbered 1, 2, 3, ... *)
Definition log_ok db : Prop :=
  row_sequence <$> events db = seqZ 1 (Z.of_nat (length (events db))).

(** The next event is number [n]. *)
Definition next (n : Z) db : Prop := log_ok db /\ n = Z.of_nat (length (events db)) + 1.

Lemma log_ok_bound db r : log_ok db -> r ∈ events db -> 1 <= row_sequence r <= Z.of_nat (length (events db)).
Proof.
  intros Hl Hr. apply (list_elem_of_fmap_2 row_sequence) in Hr. rewrite Hl in Hr.
  apply elem_of_seqZ in Hr. lia.
Qed.

Lemma insert_row_last r l :
  Forall (fun q => row_sequence q < row_sequence r) l -> insert_row r l = l ++ [r].
Proof.
  induction l as [|q l IH]; simpl; [done|]. intros [Hq Hl]%Forall_cons.
  destruct (Z.ltb_spec (row_sequence r) (row_sequence q)); [lia|]. by rewrite IH.
Qed.

Lemma seqZ_snoc m n : 0 <= n -> seqZ m (n + 1) = seqZ m n ++ [m + n].
Proof. intros Hn. rewrite seqZ_app by lia. done. Qed.

Lemma next_insert db r n :
  next n db -> row_sequence r = n ->
  insert_row r (events db) = events db ++ [r] /\
  next (n + 1) (set_events (insert_row r (events db)) db).
Proof.
  intros [Hl ->] Hr.
  assert (insert_row r (events db) = events db ++ [r]) as Hi.
  { apply insert_row_last. apply Forall_forall. intros q Hq.
    pose proof (log_ok_bound db q Hl Hq). lia. }
  split; [done|]. rewrite Hi. split; simpl.
  - unfold log_ok in *. simpl. rewrite fmap_app, length_app, Hl. simpl.
    rewrite Nat2Z.inj_add. simpl. rewrite seqZ_snoc by lia. rewrite Hr. do 2 f_equal. lia.
  - rewrite length_app. simpl. lia.
Qed.

(** ** Forward moves *)

(** A run row only moves forward: its acceptance and owner stay; once it is
    finished only its result can still be filled in, once. *)
Record run_moves (r r' : RunRow) : Prop := {
  moves_accepted : run_accepted_sequence r' = run_accepted_sequence r;
  moves_owner : run_owner_instance_id r' = run_owner_instance_id r;
  moves_result : forall n, run_result_sequence r = Some n -> run_result_sequence r' = Some n;
  moves_finished : unfinished (run_state r) = false ->
    run_state r' = run_state r /\ run_terminal_sequence r' = run_terminal_sequence r /\
    run_terminal_json r' = run_terminal_json r;
  moves_running : run_state r = "running" -> run_state r' <> "accepted"
}.

(** A tool row keeps its call, and every field that is filled in. *)
Record tool_moves (t t' : ToolRow) : Prop := {
  moves_name : tool_tool_name t' = tool_tool_name t;
  moves_request : tool_request_id t' = tool_request_id t;
  moves_started : tool_started_sequence t' = tool_started_sequence t;
  moves_tool_finished : forall n, tool_finished_sequence t = Some n -> tool_finished_sequence t' = Some n;
  moves_tool_result : forall n, tool_result_sequence t = Some n ->
    tool_result_sequence t' = Some n /\ tool_output t' = tool_output t;
  moves_error : forall b, tool_is_error t = Some b -> tool_is_error t' = Some b
}.

Record evolves db db' : Prop := {
  evolves_events : events db `prefix_of` events db';
  evolves_commands : commands db `prefix_of` commands db';
  evolves_runs : forall k r, runs db !! k = Some r -> exists r', runs db' !! k = Some r' /\ run_moves r r';
  evolves_tools : forall k t, tool_results db !! k = Some t ->
    exists t', tool_results db' !! k = Some t' /\ tool_moves t t';
  evolves_identity : forall m, manifest db = Some m -> exists m', manifest db' = Some m' /\
    mf_session_id m' = mf_session_id m /\ mf_created_at_ms m' = mf_created_at_ms m /\
    mf_creation_provenance_json m' = mf_creation_provenance_json m /\
    mf_head_sequence m <= mf_head_sequence m'
}.

#[global] Instance run_moves_preorder : PreOrder run_moves.
Proof.
  split.
  - intros r. split; try done. intros ->. done.
  - intros r1 r2 r3 H12 H23. destruct H12 as [A1 O1 R1 F1 G1], H23 as [A2 O2 R2 F2 G2].
    split; [congruence|congruence|eauto| |].
    + intros Hu. destruct (F1 Hu) as (S1 & T1 & J1). rewrite <- S1 in Hu.
      destruct (F2 Hu) as (S2 & T2 & J2). split_and!; congruence.
    + intros Hr. destruct (decide (unfinished (run_state r2) = true)) as [Hu|Hu].
      * unfold unfinished in Hu. apply orb_prop in Hu as [Hu|Hu]; apply bool_decide_eq_true in Hu;
          [by destruct (G1 Hr) | by apply G2].
      * apply not_true_is_false in Hu. destruct (F2 Hu) as (-> & _ & _). intros Heq.
        rewrite Heq in Hu. done.
Qed.

#[global] Instance tool_moves_preorder : PreOrder tool_moves.
Proof.
  split.
  - intros t. split; naive_solver.
  - intros t1 t2 t3 [] []. split; try congruence; eauto.
    intros n Hn. destruct (moves_tool_result0 n Hn) as [Hn' Ho].
    destruct (moves_tool_result1 n Hn') as [? ?]. split; congruence.
Qed.

#[global] Instance evolves_preorder : PreOrder evolves.
Proof.
  split.
  - intros db. split; try done; intros; eexists; split; done.
  - intros d1 d2 d3 [E1 C1 R1 T1 M1] [E2 C2 R2 T2 M2]. split.
    + by etrans.
    + by etrans.
    + intros k r Hr. destruct (R1 k r Hr) as (r2 & Hr2 & Hm). destruct (R2 k r2 Hr2) as (r3 & Hr3 & Hm').
      exists r3. split; [done | by etrans].
    + intros k t Ht. destruct (T1 k t Ht) as (t2 & Ht2 & Hm). destruct (T2 k t2 Ht2) as (t3 & Ht3 & Hm').
      exists t3. split; [done | by etrans].
    + intros m Hm. destruct (M1 m Hm) as (m2 & Hm2 & ? & ? & ? & ?).
      destruct (M2 m2 Hm2) as (m3 & Hm3 & ? & ? & ? & ?). exists m3. split_and!; [congruence..|lia].
Qed.

(** ** Sound states *)
Record sound db : Prop := {
  sound_log : log_ok db;
  sound_length : Z.of_nat (length (events db)) <= i64_max;
  sound_one : forall k1 r1 k2 r2, runs db !! k1 = Some r1 -> runs db !! k2 = Some r2 ->
    unfinished (run_state r1) = true -> unfinished (run_state r2) = true -> k1 = k2;
  sound_terminal : forall k r, runs db !! k = Some r ->
    is_some (run_terminal_sequence r) = negb (unfinished (run_state r)) /\
    is_some (run_terminal_json r) = negb (unfinished (run_state r));
  sound_result : forall k r n, runs db !! k = Some r -> run_result_sequence r = Some n ->
    unfinished (run_state r) = false /\ 1 <= n <= i64_max;
  sound_completed : forall k r c t, runs db !! k = Some r -> run_state r = "completed" ->
    tool_results db !! (k, c) = Some t -> is_some (tool_result_sequence t) = true;
  sound_tools : forall k c t, tool_results db !! (k, c) = Some t -> is_some (runs db !! k) = true
}.

(** What one command has done so far: the state evolved from [db0], is sound, and
    the next event is number [n]; receipts and manifest are untouched. *)
Record under (db0 : Db D) (n : Z) db : Prop := {
  under_evolves : evolves db0 db;
  under_sound : sound db;
  under_next : next n db;
  under_commands : commands db = commands db0;
  under_manifest : manifest db = manifest db0
}.

(** The projector and other display state do not matter. *)
Lemma under_same db0 n db db' :
  events db' = events db -> commands db' = commands db -> runs db' = runs db ->
  tool_results db' = tool_results db -> manifest db' = manifest db -> under db0 n db -> under db0 n db'.
Proof.
  intros He Hc Hr Ht Hm [[] [] [] ? ?].
  split; [split| split | split | |]; unfold log_ok in *; rewrite ?He, ?Hc, ?Hr, ?Ht, ?Hm; try done.
Qed.

Lemma apply_same sequence run input db a db' :
  apply sequence run input db = (Ok a, db') ->
  events db' = events db /\ commands db' = commands db /\ runs db' = runs db /\
  tool_results db' = tool_results db /\ manifest db' = manifest db.
Proof.
  unfold apply. intros Ha. unbind Ha. injection Hc as _ <-. unbind Ha. injection Hc as <- <-.
  destruct input; [destruct (_ || _); [done|]; by injection Ha as _ <-|..];
    (do 3 (unbind Ha; injection Hc as _ <-); destruct (_ || _); [done|]; unbind Ha;
     injection Ha as _ <-).
  1: destruct (is_some run); [done|]; by injection Hc as _ <-.
  all: do 3 (unbind Hc; injection Hc0 as _ <-); unbind Hc; injection Hc0 as _ <-; by injection Hc as _ <-.
Qed.

Lemma apply_under db0 n sequence run input :
  yields (under db0 n) (apply sequence run input) (fun _ => under db0 n).
Proof.
  intros db Hdb. destruct (apply sequence run input db) as [[a|e] db'] eqn:Ha; [|done].
  apply apply_same in Ha as (He & Hc & Hr & Ht & Hm). by eapply under_same.
Qed.

Lemma require_constraint_Ok {S} (p : S -> bool) (db : S) a (db' : S) :
  require_constraint p db = (Ok a, db') -> p db = true /\ db' = db.
Proof. unfold require_constraint. destruct (p db); [|done]. by intros [= _ <-]. Qed.

Lemma insert_event_row_Ok r db a db' :
  insert_event_row r db = (Ok a, db') ->
  event_check r = true /\ db' = set_events (insert_row r (events db)) db.
Proof.
  unfold insert_event_row. intros Hi. unbind Hi. apply require_constraint_Ok in Hc as [Hc ->].
  injection Hi as _ <-. by apply andb_prop in Hc as [Hc _].
Qed.

(** The events of a sound state after one more. *)
Lemma sound_snoc db n r :
  sound db -> next n db -> row_sequence r = n -> n <= i64_max ->
  sound (set_events (insert_row r (events db)) db).
Proof.
  intros Hs Hn Hr Hle. destruct (next_insert db r n Hn Hr) as [Hi [Hl Hlen]].
  destruct Hs. split; try done; simpl in *. rewrite Hi, length_app in *. simpl in *. lia.
Qed.

Lemma insert_under db0 n r :
  row_sequence r = n -> n <= i64_max ->
  yields (under db0 n) (insert_event_row r) (fun _ => under db0 (n + 1)).
Proof.
  intros Hr Hle db Hdb. destruct (insert_event_row r db) as [[a|e] db'] eqn:Hi; [|done].
  apply insert_event_row_Ok in Hi as [_ ->]. destruct Hdb as [Hev Hs Hn Hc Hm].
  destruct (next_insert db r n Hn Hr) as [Hrow Hn'].
  split; try done; [|by eapply sound_snoc].
  etrans; [exact Hev|]. split; try done; simpl; [rewrite Hrow; by apply prefix_app_r|..];
    intros; eexists; done.
Qed.

(** ** Runs *)
Lemma update_run_Ok k f db a db' :
  update_run k f db = (Ok a, db') ->
  (runs db !! k = None /\ db' = db) \/
  (exists r, runs db !! k = Some r /\ run_check k (f r) db = true /\
     db' = set_runs (<[k := f r]> (runs db)) db).
Proof.
  unfold update_run. destruct (runs db !! k) as [r|] eqn:Hr; [|intros [= _ <-]; by left].
  intros Hu. unbind Hu. apply require_constraint_Ok in Hc as [Hc ->]. injection Hu as _ <-.
  right. by exists r.
Qed.

Lemma select_runs_In p db k r :
  (k, r) ∈ select_runs p db <-> runs db !! k = Some r /\ p k r = true.
Proof.
  unfold select_runs. rewrite list_elem_of_filter, elem_of_map_to_list. simpl. tauto.
Qed.

Lemma run_check_one k r db :
  run_check k r db = true -> unfinished (run_state r) = true ->
  forall k' r', runs db !! k' = Some r' -> unfinished (run_state r') = true -> k' = k.
Proof.
  unfold run_check. intros Hc Hu k' r' Hr' Hu'. apply andb_prop in Hc as [_ Hc].
  destruct (select_runs _ db) as [|x l] eqn:Hs; [|done].
  destruct (decide (k' = k)) as [|Hne]; [done|]. exfalso.
  assert ((k', r') ∈ select_runs (fun k' q => negb (bool_decide (k' = k))
    && ((run_accepted_sequence q =? run_accepted_sequence r) || unfinished (run_state q) && unfinished (run_state r))) db) as Hin.
  { apply select_runs_In. split; [done|]. rewrite bool_decide_eq_false_2 by done. rewrite Hu, Hu'.
    simpl. apply orb_true_r. }
  rewrite Hs in Hin. by apply not_elem_of_nil in Hin.
Qed.

(** Writing a run row that moves the old one forward. *)
Lemma write_run_under db0 n k r r' db :
  under db0 n db -> runs db !! k = Some r -> run_moves r r' ->
  (unfinished (run_state r') = true -> forall k' q, runs db !! k' = Some q ->
     unfinished (run_state q) = true -> k' = k) ->
  is_some (run_terminal_sequence r') = negb (unfinished (run_state r')) ->
  is_some (run_terminal_json r') = negb (unfinished (run_state r')) ->
  (forall m, run_result_sequence r' = Some m -> unfinished (run_state r') = false /\ 1 <= m <= i64_max) ->
  (run_state r' = "completed" -> forall c t, tool_results db !! (k, c) = Some t ->
     is_some (tool_result_sequence t) = true) ->
  under db0 n (set_runs (<[k := r']> (runs db)) db).
Proof.
  intros [Hev Hs Hn Hc Hm] Hr Hmv Hck Ht Hj Hres Hcomp. split; try done.
  - etrans; [exact Hev|]. split; try done; simpl; try (intros; eexists; done).
    intros k' q Hq. destruct (decide (k' = k)) as [->|Hne].
    + exists r'. rewrite lookup_insert_eq. split; [done|]. by simplify_eq.
    + exists q. by rewrite lookup_insert_ne.
  - destruct Hs as [S1 S2 S3 S4 S5 S6 S7]. split; simpl; try done.
    + intros k1 r1 k2 r2 [[<- <-]|[Hn1 H1']]%lookup_insert_Some [[<- <-]|[Hn2 H2']]%lookup_insert_Some U1 U2.
      * done.
      * symmetry. by eapply Hck.
      * by eapply Hck.
      * by eapply S3.
    + intros k' q [[<- <-]|[_ Hq]]%lookup_insert_Some; [done | by eapply S4].
    + intros k' q m [[<- <-]|[_ Hq]]%lookup_insert_Some Hm'; [by apply Hres | by eapply S5].
    + intros k' q c t [[<- <-]|[_ Hq]]%lookup_insert_Some Hst Htool; [by eapply Hcomp | by eapply S6].
    + intros k' c t Htool. specialize (S7 k' c t Htool).
      destruct (decide (k' = k)) as [->|Hne]; [by rewrite lookup_insert_eq | by rewrite lookup_insert_ne].
Qed.

(** ** Tool results *)

Lemma write_tool_under db0 n k c t' db :
  under db0 n db -> is_some (runs db !! k) = true ->
  (forall t, tool_results db !! (k, c) = Some t -> tool_moves t t') ->
  (forall r, runs db !! k = Some r -> run_state r = "completed" ->
     is_some (tool_result_sequence t') = true) ->
  under db0 n (set_tool_results (<[(k, c) := t']> (tool_results db)) db).
Proof.
  intros [Hev Hs Hn Hc Hm] Hrun Hmv Hcomp. split; try done.
  - etrans; [exact Hev|]. split; try done; simpl; try (intros; eexists; done).
    intros k' t Ht. destruct (decide (k' = (k, c))) as [->|Hne].
    + exists t'. rewrite lookup_insert_eq. split; [done | by apply Hmv].
    + exists t. by rewrite lookup_insert_ne.
  - destruct Hs as [S1 S2 S3 S4 S5 S6 S7]. split; simpl; try done.
    + intros k' r c' t Hr Hst [[[= <- <-] <-]|[_ Ht]]%lookup_insert_Some; [by eapply Hcomp | by eapply S6].
    + intros k' c' t [[[= <- <-] <-]|[_ Ht]]%lookup_insert_Some; [done | by eapply S7].
Qed.

Lemma positive_opt_None v w : positive_opt v = Ok w -> is_some w = is_some v.
Proof. destruct v as [v|]; simpl; [|by intros [= <-]]. destruct (positive v); [|done]. by intros [= <-]. Qed.

(** What a typed tool read says of its row. *)
Lemma read_tool_Some id run call db saved :
  read_tool id run call db = Ok (Some saved) ->
  exists t, tool_results db !! (run, call) = Some t /\ rt_is_error saved = tool_is_error t /\
    is_some (rt_finished_sequence saved) = is_some (tool_finished_sequence t) /\
    is_some (rt_result_sequence saved) = is_some (tool_result_sequence t).
Proof.
  unfold read_tool. destruct (tool_results db !! (run, call)) as [t|]; [|done]. intros Hr.
  destruct (positive (tool_started_sequence t)) as [started|]; [|done].
  destruct (positive_opt (tool_finished_sequence t)) as [finished|] eqn:Hf; [|done].
  destruct (positive_opt (tool_result_sequence t)) as [result|] eqn:Hres; [|done].
  repeat match type of Hr with
         | (match ?x with _ => _ end = _) => destruct x; [|discriminate Hr]
         end.
  injection Hr as <-. exists t. simpl.
  apply positive_opt_None in Hf. apply positive_opt_None in Hres. done.
Qed.

Lemma read_tool_None id run call db :
  read_tool id run call db = Ok None -> tool_results db !! (run, call) = None.
Proof.
  unfold read_tool. destruct (tool_results db !! (run, call)) as [t|]; [|done]. intros Hr.
  repeat match type of Hr with
         | (match ?x with _ => _ end = _) => destruct x; try discriminate Hr
         end.
Qed.

Lemma update_tool_Ok k f db a db' :
  update_tool k f db = (Ok a, db') ->
  (tool_results db !! k = None /\ db' = db) \/
  (exists t, tool_results db !! k = Some t /\
     db' = set_tool_results (<[k := f t]> (tool_results db)) db).
Proof.
  unfold update_tool. destruct (tool_results db !! k) as [t|] eqn:Ht; [|intros [= _ <-]; by left].
  intros Hu. unbind Hu. apply require_constraint_Ok in Hc as [_ ->]. injection Hu as _ <-.
  right. by exists t.
Qed.

(** ** One record *)

(** The run as the command holds it, against its row. *)
Definition mirrors (run : RecordedRun) db : Prop :=
  exists row, runs db !! rr_run_id run = Some row /\ run_state row = state_name (rr_state run) /\
    run_result_sequence row = as_i64 <$> rr_result_sequence run.

(** What the correlation has checked of a runtime event's run. *)
Definition expected_state (run : RecordedRun) (record : AppendRunRecord) : Prop :=
  match record with
  | RRuntime e => rr_state run = match ev_event e with
                                 | RunStarted => RecordedRunState.Accepted
                                 | _ => RecordedRunState.Running
                                 end
  | _ => True
  end.

Lemma state_name_inj s s' : state_name s = state_name s' -> s = s'.
Proof. by destruct s, s'. Qed.

Lemma unfinished_active s : unfinished (state_name s) = active s.
Proof. by destruct s. Qed.

Lemma as_i64_as_u64 n : 1 <= n <= i64_max -> as_i64 (as_u64 n) = n.
Proof.
  intros Hn. rewrite as_u64_small, as_i64_small; [done|lia|].
  unfold u64_max, i64_max in *. lia.
Qed.

Lemma finished_moves n e t :
  tool_finished_sequence t = None -> is_some_and (tool_is_error t) (fun o => negb (Bool.eqb o e)) = false ->
  tool_moves t (finished_tool n e t).
Proof.
  intros Hf He. split; simpl; try done; [by rewrite Hf|].
  intros b Hb. rewrite Hb in He. simpl in He. apply negb_false_iff, eqb_prop in He. by rewrite He.
Qed.

Lemma resulted_moves n o e t :
  tool_result_sequence t = None -> is_some_and (tool_is_error t) (fun x => negb (Bool.eqb x e)) = false ->
  tool_moves t (resulted_tool n o e t).
Proof.
  intros Hf He. split; simpl; try done; [by rewrite Hf|].
  intros b Hb. rewrite Hb in He. simpl in He. apply negb_false_iff, eqb_prop in He. by rewrite He.
Qed.

(** The state while one record is appended: the run is held, its row is [row]. *)
Definition holding (db0 : Db D) (n : Z) (run : RecordedRun) db : Prop :=
  under db0 n db /\ mirrors run db.

Lemma mirrors_exists run db : mirrors run db -> is_some (runs db !! rr_run_id run) = true.
Proof. intros (row & -> & _). done. Qed.

Lemma mirrors_completed run db row :
  mirrors run db -> rr_state run <> RecordedRunState.Completed ->
  runs db !! rr_run_id run = Some row -> run_state row = "completed" -> False.
Proof.
  intros (row' & Hr & Hst & _) Hne Hr' Hc. simplify_eq. rewrite Hst in Hc.
  by apply (state_name_inj _ RecordedRunState.Completed) in Hc.
Qed.

Lemma record_tool_event_holding db0 n id run sequence envelope event :
  rr_state run = RecordedRunState.Running ->
  yields (holding db0 n run) (record_tool_event id run sequence envelope event)
    (fun _ => holding db0 n run).
Proof.
  intros Hst db [Hu Hm]. destruct (record_tool_event _ _ _ _ _ db) as [[a|e] db'] eqn:Hr; [|done].
  pose proof (mirrors_exists run db Hm) as Hex.
  assert (forall row, runs db !! rr_run_id run = Some row -> run_state row = "completed" -> False) as Hnc.
  { intros row. eapply mirrors_completed; [done | by rewrite Hst]. }
  unfold record_tool_event in Hr. unbind Hr. injection Hc as Hreq <-. destruct event as [call nm|call nm er|call nm].
  - unbind Hr. injection Hc as Hk <-. destruct (is_some a1) eqn:Hsome; [done|].
    apply is_some_false in Hsome as ->. apply read_tool_None in Hk.
    unfold insert_tool in Hr. unbind Hr. apply require_constraint_Ok in Hc as [_ ->]. injection Hr as _ <-.
    split; [|exact Hm]. apply write_tool_under; try done.
    + by rewrite Hk.
    + intros row Hrow Hcomp. by destruct (Hnc row Hrow).
  - unbind Hr. injection Hc as Hk <-. unbind Hr. injection Hc as Hs <-. apply ok_or_Ok in Hs as ->.
    destruct (_ || _) eqn:Hcond; [done|]. unbind Hr. injection Hc as _ <-.
    destruct (st_payload a1) as [| | | | |started| | |]; try done. destruct (negb (bool_decide (ev_turn_id started = _))); [done|].
    apply read_tool_Some in Hk as (t & Ht & Herr & Hfin & _).
    apply update_tool_Ok in Hr as [[Hn _]|(t' & Ht' & ->)]; [congruence|]. simplify_eq.
    split; [|exact Hm]. prop_bools. rewrite Herr in *.
    apply write_tool_under; try done.
    + intros t0 Ht0. simplify_eq. apply finished_moves; [|done].
      apply is_some_false. congruence.
    + intros row Hrow Hcomp. by destruct (Hnc row Hrow).
  - unbind Hr. injection Hc as Hk <-. unbind Hr. injection Hc as _ <-.
    destruct (_ || _); [done|]. injection Hr as _ <-. by split.
Qed.

(** The terminal event of a run is written. *)
Definition terminated (db0 : Db D) (n m : Z) (json : string) (run run' : RecordedRun) (db' : Db D) : Prop :=
  exists db row o, holding db0 n run db /\ runs db !! rr_run_id run = Some row /\
    db' = set_runs (<[rr_run_id run := with_terminal m json row]> (runs db)) db /\
    active (rr_state run) = true /\ rr_state run' = outcome_state o /\
    (o = Completed -> missing_output (rr_run_id run) db = false).

(** The run goes on. *)
Definition continued (db0 : Db D) (n : Z) (run run' : RecordedRun) (db' : Db D) : Prop :=
  holding db0 n run db' /\
  (rr_state run' = rr_state run \/
   (rr_state run = RecordedRunState.Accepted /\ rr_state run' = RecordedRunState.Running)).

(** The result sequence: kept, or filled in by a record of a run that is over. *)
Definition result_kept (m : Z) (run run' : RecordedRun) : Prop :=
  rr_result_sequence run' = rr_result_sequence run \/
  (rr_result_sequence run = None /\ rr_result_sequence run' = Some (as_u64 m) /\ active (rr_state run') = false).

Lemma require_outputs_Ok run o db a db' :
  require_outputs run o db = (Ok a, db') -> db' = db /\ (o = Completed -> missing_output run db = false).
Proof.
  unfold require_outputs, reads. destruct (bool_decide (o = Completed)) eqn:Ho; simpl.
  - destruct (missing_output run db); [done|]. by intros [= _ <-].
  - intros [= _ <-]. split; [done|]. intros ->. by rewrite bool_decide_eq_true_2 in Ho.
Qed.

Lemma terminalize_terminated db0 n run m o json db run' db' :
  holding db0 n run db -> active (rr_state run) = true ->
  (o = Completed -> missing_output (rr_run_id run) db = false) ->
  terminalize run m o json db = (Ok run', db') ->
  run' = with_state (outcome_state o) run /\ terminated db0 n m json run run' db'.
Proof.
  intros Hh Ha Ho Ht. unfold terminalize in Ht. unbind Ht. injection Ht as <- <-. split; [done|].
  destruct Hh as [Hu Hm]. pose proof Hm as (row & Hr & _).
  apply update_run_Ok in Hc as [[Hn _]|(r & Hr' & _ & ->)]; [congruence|]. simplify_eq.
  by exists db, r, o.
Qed.

Lemma terminated_same db0 n m json run run' run2 db' :
  rr_state run2 = rr_state run' -> terminated db0 n m json run run' db' -> terminated db0 n m json run run2 db'.
Proof. intros Hs (db & row & o & H3 & H4 & H5 & H6 & H7 & H8). exists db, row, o. split_and!; congruence || done. Qed.

(** What a record does to its run and its row, before the final update. *)
Lemma append_effect_spec db0 n m id run json record db run' db' :
  holding db0 n run db -> expected_state run record ->
  append_effect id run m json record db = (Ok run', db') ->
  rr_run_id run' = rr_run_id run /\ result_kept m run run' /\
  (continued db0 n run run' db' \/ terminated db0 n m json run run' db').
Proof.
  intros Hh Hst Ha. unfold append_effect in Ha. destruct record as [binding|event|request call output err|result].
  - injection Ha as <- <-. split; [done|]. split; [by left|]. left. split; [done|]. by left.
  - unbind Ha. injection Ha as <- <-. simpl in Hst.
    destruct (ev_event event) as [|num|pe|tool|num rid out up|o sm] eqn:He.
    1: injection Hc as <- <-; split; [done|]; split; [by left|]; left; split; [done|]; by right.
    1,2,4: injection Hc as <- <-; split; [done|]; split; [by left|]; left; split; [done|]; by left.
    + unbind Hc. injection Hc as <- <-. split; [done|]. split; [by left|]. left. split; [|by left].
      exact (yields_Ok _ _ _ _ _ _ (record_tool_event_holding db0 n id run m event tool Hst) Hh Hc0).
    + unbind Hc. apply require_outputs_Ok in Hc0 as [-> Ho].
      apply (terminalize_terminated db0 n) in Hc as [-> Ht]; [|done|by rewrite Hst|done].
      split; [done|]. split; [by left|]. right. by eapply terminated_same, Ht.
  - destruct (bool_decide_reflect (rr_state run = RecordedRunState.Running)) as [Hrun|]; [|done]. simpl in Ha.
    unbind Ha. injection Hc as Hk <-. unbind Ha. injection Hc as Hs <-. apply ok_or_Ok in Hs as ->.
    destruct (_ || _) eqn:Hcond; [done|]. unbind Ha. injection Ha as <- <-.
    split; [done|]. split; [by left|]. left. split; [|by left].
    destruct Hh as [Hu Hm]. apply read_tool_Some in Hk as (t & Ht & Herr & _ & Hres).
    apply update_tool_Ok in Hc as [[Hn _]|(t' & Ht' & ->)]; [congruence|]. simplify_eq.
    prop_bools. rewrite Herr in *. split; [|exact Hm].
    apply write_tool_under; try done; [by apply mirrors_exists|].
    intros t0 Ht0. simplify_eq. apply resulted_moves; [|done]. apply is_some_false. congruence.
  - destruct (_ || _) eqn:Hcond; [done|]. apply orb_false_elim in Hcond as [_ Hnone%is_some_false].
    unbind Ha. injection Ha as <- <-. destruct (active (rr_state run)) eqn:Hact.
    + destruct (_ || _); [done|]. unbind Hc. apply require_outputs_Ok in Hc0 as [-> Ho]. unbind Hc.
      injection Hc as <- <-. apply (terminalize_terminated db0 n) in Hc0 as [-> Ht]; try done.
      split; [done|]. split; [right; split_and!; try done; by destruct (res_outcome result)|].
      right. by eapply terminated_same, Ht.
    + unbind Hc. injection Hc0 as _ <-. unbind Hc. injection Hc0 as _ <-. unbind Hc. injection Hc0 as _ <-.
      destruct (_ || _); [done|]. injection Hc as <- <-.
      split; [done|]. split; [by right|]. left. split; [done|]. by left.
Qed.

(** The row a record leaves behind. *)
Lemma continued_row db0 n m run run' last db row :
  continued db0 n run run' db -> result_kept m run run' -> 1 <= m <= i64_max ->
  runs db !! rr_run_id run = Some row ->
  let row' := with_progress (rr_state run') last (rr_provider_session_id run')
                (as_i64 <$> rr_result_sequence run') row in
  run_check (rr_run_id run) row' db = true ->
  under db0 n (set_runs (<[rr_run_id run := row']> (runs db)) db).
Proof.
  intros [[Hu (r & Hr & Hs & Hres)] Hst] Hk Hm Hrow row' Hck.
  assert (r = row) as -> by congruence. clear Hr.
  pose proof Hu as [_ Hsound _ _ _].
  assert (unfinished (run_state row') = unfinished (run_state row)) as Hun.
  { simpl. rewrite Hs, !unfinished_active. destruct Hst as [->|[-> ->]]; done. }
  destruct (sound_terminal db Hsound _ _ Hrow) as [Ht Hj].
  apply write_run_under with row; try done.
  - split; simpl; try done.
    + intros x Hx. rewrite Hres in Hx. destruct Hk as [->|(Hn & _)]; [done|]. by rewrite Hn in Hx.
    + intros Hf. rewrite Hs, unfinished_active in Hf. split; [|done]. rewrite Hs.
      destruct Hst as [->|[Ha _]]; [done|]. by rewrite Ha in Hf.
    + rewrite Hs. intros Hr'. apply (state_name_inj _ RecordedRunState.Running) in Hr'.
      destruct Hst as [->|[_ ->]]; [by rewrite Hr' | done].
  - intros Huf k' q Hq Hqu. by eapply run_check_one.
  - simpl in *. by rewrite Hun.
  - simpl in *. by rewrite Hun.
  - intros x Hx. simpl in Hx. destruct Hk as [Hk|(_ & Hk & Hact)]; rewrite Hk in Hx.
    + rewrite <- Hres in Hx. rewrite Hun. by eapply sound_result.
    + simpl in Hx. injection Hx as <-. rewrite as_i64_as_u64 by done. split; [|done].
      simpl. by rewrite unfinished_active.
  - intros Hcomp c t Htool. simpl in Hcomp.
    apply (state_name_inj _ RecordedRunState.Completed) in Hcomp. destruct Hst as [Hst|[_ Hst]]; [|congruence].
    eapply (sound_completed db Hsound); [exact Hrow| |exact Htool]. rewrite Hs. by rewrite <- Hst, Hcomp.
Qed.

Lemma missing_output_false run db c t :
  missing_output run db = false -> tool_results db !! (run, c) = Some t ->
  is_some (tool_result_sequence t) = true.
Proof.
  unfold missing_output. intros Hm Ht.
  destruct (is_some (tool_result_sequence t)) eqn:Hs; [done|]. exfalso.
  match type of Hm with match ?l with _ => _ end = _ => assert (((run, c), t) ∈ l) as Hin end.
  { apply list_elem_of_filter. split; [|by apply elem_of_map_to_list]. simpl.
    rewrite bool_decide_eq_true_2 by done. unfold is_none. by rewrite Hs. }
  destruct (filter _ _); [by apply not_elem_of_nil in Hin | done].
Qed.

Lemma terminated_row db0 n m json run run' last db row :
  terminated db0 n m json run run' db -> result_kept m run run' -> 1 <= m <= i64_max ->
  runs db !! rr_run_id run = Some row ->
  let row' := with_progress (rr_state run') last (rr_provider_session_id run')
                (as_i64 <$> rr_result_sequence run') row in
  under db0 n (set_runs (<[rr_run_id run := row']> (runs db)) db).
Proof.
  intros (db1 & r & o & [Hu (r1 & Hr1 & Hs & Hres)] & Hr & -> & Hact & Hst & Ho) Hk Hm Hrow row'.
  simpl in Hrow. rewrite lookup_insert_eq in Hrow. simplify_eq. simpl. rewrite insert_insert_eq.
  pose proof Hu as [_ Hsound _ _ _].
  assert (unfinished (run_state row') = false) as Hun.
  { simpl. rewrite unfinished_active, Hst. by destruct o. }
  apply (write_run_under db0 n (rr_run_id run) r1 row' db1); try done.
  - split; simpl; try done.
    + intros x Hx. rewrite Hres in Hx. destruct Hk as [->|(Hn & _)]; [done|]. by rewrite Hn in Hx.
    + intros Hf. rewrite Hs, unfinished_active in Hf. congruence.
    + intros _. rewrite Hst. by destruct o.
  - rewrite Hun. done.
  - by rewrite Hun.
  - by rewrite Hun.
  - intros x Hx. split; [done|]. simpl in Hx. destruct Hk as [Hk|(_ & Hk & _)]; rewrite Hk in Hx.
    + rewrite <- Hres in Hx. by destruct (sound_result db1 Hsound _ _ _ Hr1 Hx).
    + simpl in Hx. injection Hx as <-. by rewrite as_i64_as_u64.
  - intros Hcomp c t Htool. eapply missing_output_false; [|exact Htool]. apply Ho.
    simpl in Hcomp. rewrite Hst in Hcomp. by destruct o.
Qed.

(** One record: the next event is written, the run moved forward. *)
Lemma append_holding db0 n clock id run ts record :
  1 <= n <= i64_max -> expected_state run record ->
  yields (holding db0 n run) (append clock id run n ts record)
    (fun run' db => holding db0 (n + 1) run' db /\ rr_run_id run' = rr_run_id run).
Proof.
  intros Hn Hst db Hh. destruct (append _ _ _ _ _ _ db) as [[run1|e] db1] eqn:Ha; [|done].
  unfold append in Ha. unbind Ha.
  assert (s = db) as ->.
  { destruct record; try by injection Hc as _ <-. destruct (negb _); [done|]. by injection Hc as _ <-. }
  unbind Ha. injection Hc0 as _ <-. destruct (_ || _); [done|]. unbind Ha.
  destruct Hh as [Hu Hm].
  match type of Hc0 with insert_event _ _ _ _ _ _ _ _ = _ => unfold insert_event in Hc0 end.
  match type of Hc0 with insert_event_row ?row _ = _ => pose proof (insert_under db0 n row eq_refl (proj2 Hn)) as Hi end.
  pose proof (yields_Ok _ _ _ _ _ _ Hi Hu Hc0) as Hu1.
  assert (mirrors run s) as Hm1 by (by apply insert_event_row_Ok in Hc0 as [_ ->]).
  unbind Ha. destruct (append_effect_spec db0 (n + 1) n id run a0 record s a2 s0) as (Hid & Hk & Hcase); try done.
  unbind Ha.
  assert (holding db0 (n + 1) a2 s1) as Hh2.
  { apply update_run_Ok in Hc2 as [[Hnone _]|(r & Hr & Hck & ->)].
    - exfalso. rewrite Hid in Hnone. destruct Hcase as [[[_ (x & Hx & _)] _]|(d & x & o & _ & _ & -> & _)]; [congruence|].
      simpl in Hnone. by rewrite lookup_insert_eq in Hnone.
    - split.
      + rewrite Hid in *. destruct Hcase as [Hco|Hte]; [by eapply continued_row | by eapply terminated_row].
      + eexists. simpl. by rewrite lookup_insert_eq. }
  unbind Ha. unbind Ha. injection Hc4 as _ <-. unbind Ha. injection Ha as <- <-.
  assert (s2 = s1 /\ rr_run_id a4 = rr_run_id a2 /\ rr_state a4 = rr_state a2 /\
          rr_result_sequence a4 = rr_result_sequence a2) as (-> & Hid4 & Hs4 & Hr4).
  { destruct (negb _ && _); [|by injection Hc3 as <- <-].
    unbind Hc3. injection Hc3 as <- <-. injection Hc5 as _ <-. done. }
  split; [|congruence]. destruct Hh2 as [Hu2 (row & Hrow & Hrs & Hrr)].
  pose proof (yields_Ok _ _ _ _ _ _ (apply_under db0 (n + 1) _ _ _) Hu2 Hc4) as Hu3.
  apply apply_same in Hc4 as (_ & _ & Hruns & _). split; [done|].
  exists row. rewrite Hruns, Hid4, Hs4, Hr4. done.
Qed.

(** ** Batches of records *)

Lemma state_of_name_Some n s : state_of_name n = Some s -> state_name s = n.
Proof.
  unfold state_of_name. intros Hf. apply find_some in Hf as [_ Hf]. by apply bool_decide_eq_true in Hf.
Qed.

Lemma run_record_mirrors id run db r :
  sound db -> run_record id run db = Ok (Some r) -> mirrors r db /\ rr_run_id r = run.
Proof.
  intros Hs Hr. unfold run_record in Hr. destruct (runs db !! run) as [row|] eqn:Hrow; [|done].
  destruct (positive _) as [accepted|]; [|done]. destruct (read_event _ _ _) as [e|]; [|done].
  destruct (st_payload e) as [| |payload| | | | | |]; try done. destruct (expect _); [|done].
  destruct (state_of_name (run_state row)) as [state|] eqn:Hst; [|done]. cbn [ok_or] in Hr.
  destruct (expect _); [|done]. destruct (positive_opt (run_terminal_sequence row)) as [ts|]; [|done].
  destruct (expect _); [|done]. destruct (read_terminal _ _ _ _ _ _ _ _) as [terminal|]; [|done].
  destruct (positive_opt (run_result_sequence row)) as [rs|] eqn:Hrs; [|done].
  destruct (read_result _ _ _ _ _) as [result|]; [|done]. injection Hr as <-. split; [|done].
  exists row. simpl. split; [done|]. split; [by symmetry; apply state_of_name_Some|].
  destruct (run_result_sequence row) as [v|] eqn:Hv; simpl in Hrs; [|by injection Hrs as <-].
  destruct (sound_result db Hs _ _ _ Hrow Hv) as [_ Hrange].
  unfold positive in Hrs. destruct (Z.leb_spec v 0); [lia|]. injection Hrs as <-. simpl.
  by rewrite as_i64_as_u64.
Qed.

Lemma observe_expected run event before c db c' :
  observe_correlation run event before c db = Ok c' -> expected_state run (RRuntime event).
Proof.
  unfold observe_correlation. intros Ho. destruct (negb _); [done|]. destruct (_ || _); [done|]. simpl.
  destruct (ev_event event);
    [destruct (bool_decide_reflect (rr_state run = RecordedRunState.Accepted))
    |destruct (bool_decide_reflect (rr_state run = RecordedRunState.Running))..]; done.
Qed.

Lemma append_all_under db0 clock id ts records n run c unbound :
  1 <= n -> n + Z.of_nat (length records) - 1 <= i64_max ->
  yields (holding db0 n run) (append_all clock id ts run c unbound n records)
    (fun _ => under db0 (n + Z.of_nat (length records))).
Proof.
  revert n run c unbound. induction records as [|record records IH]; intros n run c unbound Hn Hlen; simpl.
  { apply yields_ret. intros db [Hu _]. by rewrite Z.add_0_r. }
  apply yields_bind with (Q := fun _ => holding db0 n run); [apply yields_lift; auto|intros _].
  apply yields_bind with (Q := fun _ db => holding db0 n run db /\ expected_state run record).
  { destruct record as [|event| |]; try (apply yields_ret; by intros; split).
    intros db Hdb. unfold reads. destruct (observe_correlation _ _ _ _ _) as [c'|] eqn:Ho; [|done].
    split; [done|]. by eapply observe_expected. }
  intros c'. apply yields_bind with (Q := fun run' => holding db0 (n + 1) run').
  { intros db [Hdb He]. simpl in Hlen.
    pose proof (append_holding db0 n clock id run ts record ltac:(lia) He db Hdb) as Ha.
    destruct (append _ _ _ _ _ _ db) as [[run'|e] db']; [apply Ha | done]. }
  intros run'. simpl in Hlen.
  replace (n + Z.of_nat (S (length records))) with (n + 1 + Z.of_nat (length records)) by lia.
  destruct record; apply IH; lia.
Qed.

(** ** Accepting a run *)

Lemma insert_run_under db0 n k row db a db' :
  under db0 n db ->
  run_terminal_sequence row = None -> run_terminal_json row = None -> run_result_sequence row = None ->
  run_state row = "accepted" ->
  insert_run k row db = (Ok a, db') -> under db0 n db'.
Proof.
  intros [Hev Hs Hn Hc Hm] Ht Hj Hr Hst Hi. unfold insert_run in Hi. unbind Hi.
  apply require_constraint_Ok in Hc0 as [Hck ->]. injection Hi as _ <-.
  apply andb_prop in Hck as [Hnone Hck]. unfold is_none in Hnone. apply negb_true_iff, is_some_false in Hnone.
  split; try done.
  - etrans; [exact Hev|]. split; try done; simpl; try (intros; eexists; done).
    intros k' q Hq. exists q. rewrite lookup_insert_ne; [done|]. intros ->. congruence.
  - destruct Hs as [S1 S2 S3 S4 S5 S6 S7]. split; simpl; try done.
    + intros k1 r1 k2 r2 [[<- <-]|[Hn1 H1']]%lookup_insert_Some [[<- <-]|[Hn2 H2']]%lookup_insert_Some U1 U2.
      * done.
      * symmetry. by eapply run_check_one.
      * by eapply run_check_one.
      * by eapply S3.
    + intros k' q [[<- <-]|[_ Hq]]%lookup_insert_Some; [|by eapply S4].
      rewrite Ht, Hj, Hst. done.
    + intros k' q m [[<- <-]|[_ Hq]]%lookup_insert_Some Hm'; [congruence | by eapply S5].
    + intros k' q c t [[<- <-]|[_ Hq]]%lookup_insert_Some Hcomp Htool; [congruence | by eapply S6].
    + intros k' c t Htool. specialize (S7 k' c t Htool).
      destruct (decide (k' = k)) as [->|Hne]; [by rewrite lookup_insert_eq | by rewrite lookup_insert_ne].
Qed.

Lemma insert_event_under db0 n clock ts run kind json source :
  1 <= n <= i64_max ->
  yields (under db0 n) (insert_event clock n ts run kind json source) (fun _ => under db0 (n + 1)).
Proof. intros Hn. apply insert_under; [done | lia]. Qed.

Lemma reads_under {A} db0 n (f : Db D -> SResult A) : yields (under db0 n) (reads f) (fun _ => under db0 n).
Proof. intros db Hdb. unfold reads. by destruct (f db). Qed.

Lemma accept_under db0 clock owner run first last ts input selection :
  1 <= first -> last <= i64_max -> last = first + (if is_some selection then 1 else 0) ->
  yields (under db0 first) (accept clock owner run first last ts input selection)
    (fun _ => under db0 (last + 1)).
Proof.
  intros Hf Hl Hlast. unfold accept. assert (first <= i64_max) by (destruct (is_some selection); lia).
  apply yields_bind with (Q := fun _ => under db0 first); [apply reads_under|intros _].
  apply yields_bind with (Q := fun _ => under db0 first); [apply reads_under|intros _].
  apply yields_bind with (Q := fun _ => under db0 first); [apply yields_lift; auto|intros json].
  apply yields_bind with (Q := fun _ => under db0 (first + 1)); [by apply insert_event_under|intros _].
  apply yields_bind with (Q := fun _ => under db0 (first + 1)).
  { intros db Hdb. destruct (insert_run _ _ db) as [[a|e] db'] eqn:Hi; [|done].
    by eapply (insert_run_under db0 (first + 1)) in Hi. }
  intros _. apply yields_bind with (Q := fun _ => under db0 (first + 1)); [apply apply_under|intros _].
  destruct selection as [selection|]; simpl in Hlast.
  - apply yields_bind with (Q := fun _ => under db0 (first + 1)); [apply yields_lift; auto|intros json'].
    rewrite Hlast. apply yields_bind with (Q := fun _ => under db0 (first + 1 + 1)).
    + apply insert_event_under. lia.
    + intros _. apply apply_under.
  - apply yields_ret. by rewrite Hlast, Z.add_0_r.
Qed.
End safety.
