(* ===== verification/StoreCommands.v ===== *)
(** * Whole commands on a session

    From the statements of StoreSafety.v to the transactions: what rename, accept,
    append and interruption do to the log, the receipts and the manifest, whether
    they succeed, fail or are lost at the commit, and what a retry returns. *)
From S2P Require Import Prelude Json Errors Identifiers Provider Tools Replay RunData Hoare Records Store History Session RunStore StoreSafety.

(** ** The head *)
Lemma max_sequence_bounds l n :
  max_sequence l = Some n -> n ∈ row_sequence <$> l /\ Forall (fun r => row_sequence r <= n) l.
Proof.
  destruct l as [|r l]; simpl; [done|]. intros [= <-].
  assert (forall m, foldl (fun n q => Z.max n (row_sequence q)) m l ∈ m :: (row_sequence <$> l) /\
    m <= foldl (fun n q => Z.max n (row_sequence q)) m l /\
    Forall (fun q => row_sequence q <= foldl (fun n q => Z.max n (row_sequence q)) m l) l) as Hf.
  { induction l as [|q l IH]; intros m; simpl; [split_and!; [left|lia|constructor]|].
    destruct (IH (Z.max m (row_sequence q))) as (Hin & Hle & Hall). split_and!.
    - apply elem_of_cons in Hin as [Heq|Hin]; [|by do 2 right].
      destruct (Z.max_spec m (row_sequence q)) as [[_ Hm]|[_ Hm]]; rewrite Heq, Hm; [right; left|left].
    - lia.
    - constructor; [lia | done]. }
  specialize (Hf (row_sequence r)) as (Hin & Hle & Hall). split; [done|]. by constructor.
Qed.

Section commands.
Context {D : Type} `{Display D} `{UuidLib} `{StorageSerde}.
Implicit Types db : Db D.

Definition size db : Z := Z.of_nat (length (events db)).

(** The manifest names the last event. *)
Definition headed db : Prop := mf_head_sequence <$> manifest db = Some (size db).

Lemma max_sequence_log db n : log_ok db -> max_sequence (events db) = Some n -> n = size db.
Proof.
  intros Hl Hm. apply max_sequence_bounds in Hm as [Hin Hall].
  assert (1 <= n <= size db) as [Hn Hle] by (rewrite Hl in Hin; apply elem_of_seqZ in Hin; unfold size; lia).
  assert (size db ∈ row_sequence <$> events db) as Hs.
  { rewrite Hl. apply elem_of_seqZ. unfold size in *. lia. }
  apply list_elem_of_fmap in Hs as (r & Hr & Hrl). rewrite Forall_forall in Hall.
  specialize (Hall r Hrl). lia.
Qed.

(** A validated session is headed by its last event. *)
Lemma validate_session_head id expected db m :
  sound db -> validate_session id expected db = Ok m ->
  exists row, manifest db = Some row /\ mf_session_id row = id /\
    mf_head_sequence row = size db /\ sm_head_sequence m = size db /\ 1 <= size db <= i64_max.
Proof.
  intros Hs Hv. unfold validate_session in Hv.
  do 3 (destruct (negb _); [done|]).
  destruct (manifest db) as [row|]; [|done]. cbn [ok_or] in Hv.
  destruct (_ || _) eqn:Hid; [done|]. destruct (_ || _) eqn:Hhead in Hv; [done|].
  prop_bools. destruct (provenance_from_json _) as [prov|]; [|done]. cbn [ok_or] in Hv.
  destruct (provenance_request prov) as [input|]; [|done].
  destruct (decode_workspace _) as [w|]; [|done].
  destruct (_ || _) in Hv; [done|].
  destruct (find _ _) as [created|] in Hv; [|done]. cbn [ok_or] in Hv.
  destruct (payload_from_json _ _) as [[]|] in Hv; try done.
  destruct (_ || _) in Hv; [done|].
  destruct (find _ _) as [latest|] in Hv; [|done]. cbn [ok_or] in Hv.
  destruct (_ || _) in Hv; [done|]. destruct (_ && _) in Hv; [done|].
  match type of Hv with context [match ?x with Ok _ => _ | Err _ => _ end] => destruct x as [title_ok|] end; [|done].
  destruct (negb title_ok); [done|].
  match type of Hv with context [match ?x with Ok _ => _ | Err _ => _ end] => destruct x as [[]|] end; [|done].
  injection Hv as <-. destruct Hs as [Hl Hb _ _ _ _ _].
  match goal with Hm : max_sequence _ = Some _ |- _ => apply max_sequence_log in Hm; [|done] end.
  exists row. simpl. unfold size in *. split_and!; try done; try lia.
  rewrite as_u64_small; [done|]. unfold u64_max, i64_max in *. lia.
Qed.

(** ** What a transaction leaves

    The log grew by [count] events at its end, and both manifests name the last
    event of their log. *)
Record extended db (count : Z) db' : Prop := {
  ext_evolves : evolves db db';
  ext_sound : sound db';
  ext_size : size db' = size db + count;
  ext_head_before : headed db;
  ext_head : headed db'
}.

Lemma update_manifest_Ok f db m a db' :
  manifest db = Some m -> update_manifest f db = (Ok a, db') -> db' = set_manifest (Some (f m)) db.
Proof.
  unfold update_manifest. intros -> Hu. unbind Hu. apply require_constraint_Ok in Hc as [_ ->].
  by injection Hu as _ <-.
Qed.

Lemma insert_command_Ok c db a db' :
  insert_command c db = (Ok a, db') ->
  db' = set_commands (commands db ++ [c]) db /\ Forall (fun q => cmd_operation_id q <> cmd_operation_id c) (commands db).
Proof.
  unfold insert_command. intros Hi. unbind Hi. apply require_constraint_Ok in Hc as [Hc ->].
  injection Hi as _ <-. split; [done|]. prop_bools. apply Forall_forall. intros q Hq Heq.
  match goal with He : existsb _ _ = false |- _ => apply not_true_iff_false in He; destruct He end.
  apply existsb_exists. exists q. split; [by apply list_elem_of_In|]. by apply bool_decide_eq_true.
Qed.

(** The manifest is moved to the last event. *)
Lemma under_extended db0 count f m db :
  under db0 (size db0 + count + 1) db -> manifest db0 = Some m -> 1 <= count ->
  mf_head_sequence m = size db0 -> mf_head_sequence (f m) = size db0 + count ->
  mf_session_id (f m) = mf_session_id m -> mf_created_at_ms (f m) = mf_created_at_ms m ->
  mf_creation_provenance_json (f m) = mf_creation_provenance_json m ->
  extended db0 count (set_manifest (Some (f m)) db).
Proof.
  intros [Hev Hs [_ Hn] Hc Hm] Hm0 Hpos Hh Hh' Hid Hcr Hp.
  assert (size db = size db0 + count) as Hsize by (unfold size in *; lia). split.
  - destruct Hev as [E C R T M]. split; try done. intros m' Hm'. assert (m' = m) as -> by congruence.
    exists (f m). split_and!; [done..|lia].
  - destruct Hs. by split.
  - done.
  - unfold headed. rewrite Hm0. simpl. by f_equal.
  - unfold headed. simpl. f_equal. rewrite Hh'. by rewrite <- Hsize.
Qed.

Lemma extended_same db0 count db db' :
  events db' = events db -> commands db' = commands db -> runs db' = runs db ->
  tool_results db' = tool_results db -> manifest db' = manifest db -> extended db0 count db -> extended db0 count db'.
Proof.
  intros He Hc Hr Ht Hm [[] [] Hs Hb Hh]. unfold headed, size in *.
  split; [split|split|..]; unfold headed, log_ok, size in *; rewrite ?He, ?Hc, ?Hr, ?Ht, ?Hm; done.
Qed.

Lemma extended_apply db0 count sequence run input db a db' :
  extended db0 count db -> apply sequence run input db = (Ok a, db') -> extended db0 count db'.
Proof. intros He Ha. apply apply_same in Ha as (? & ? & ? & ? & ?). by eapply extended_same. Qed.

Lemma extended_commands db0 count l db :
  extended db0 count db -> extended db0 count (set_commands (commands db ++ l) db).
Proof.
  intros [[E C R T M] [] Hs Hb Hh]. split; try done; split; try done.
  simpl. by apply prefix_app_r.
Qed.

Lemma under_start db : sound db -> under db (size db + 1) db.
Proof. intros Hs. split; try done. split; [apply Hs | done]. Qed.

(** ** Sequence ranges *)
Lemma next_sequence_Ok head n :
  1 <= head -> next_sequence head = Ok n -> n = head + 1 /\ 1 <= n <= i64_max.
Proof.
  unfold next_sequence. intros Hh Hn. apply ok_or_Ok in Hn.
  destruct (checked_add_u64 head 1) as [k|] eqn:Hk; [|done].
  apply checked_add_u64_Some in Hk as [-> _]. apply i64_try_from_Some in Hn as [-> ?]. lia.
Qed.

Lemma sequence_range_Ok head count r :
  1 <= head -> sequence_range head count = Ok r ->
  fst r = head + 1 /\ snd r = head + Z.of_nat count /\ (0 < count)%nat /\ snd r <= i64_max.
Proof.
  intros Hh. unfold sequence_range. destruct count as [|count]; [done|].
  destruct (next_sequence head) as [first|] eqn:Hf; [|done]. apply next_sequence_Ok in Hf as [-> _]; [|done].
  destruct (i64_try_from _) as [c|] eqn:Hc; [|done]. apply i64_try_from_Some in Hc as [-> _].
  destruct (checked_add_i64 _ _) as [last|] eqn:Hl; [|done]. apply checked_add_i64_Some in Hl as [-> Hl].
  intros [= <-]. simpl. lia.
Qed.

(** ** Accept and append *)

(** A command was executed: its events, its receipt and its command row. *)
Record performed (id operation kind hash : string) (run : option string) db (count : Z)
    (receipt : CommitReceipt) db' : Prop := {
  pf_extended : extended db count db';
  pf_count : 1 <= count;
  pf_created : 1 <= size db;
  pf_session : mf_session_id <$> manifest db' = Some id;
  pf_operation : rc_operation_id receipt = operation;
  pf_session_id : rc_session_id receipt = id;
  pf_run : rc_run_id receipt = run;
  pf_first : rc_first_sequence receipt = size db + 1;
  pf_last : rc_last_sequence receipt = size db';
  pf_novel : Forall (fun q => cmd_operation_id q <> operation) (commands db);
  pf_command : exists json, receipt_to_json receipt = Some json /\
    commands db' = commands db ++ [{| cmd_operation_id := operation; cmd_method := kind;
      cmd_payload_hash := hash; cmd_first_sequence := size db + 1; cmd_last_sequence := size db';
      cmd_receipt_json := json |}]
}.

(** The last two statements of a command: the manifest and the command row. *)
Lemma recorded id operation kind hash run db count m f receipt json db1 a db2 b db3 :
  under db (size db + count + 1) db1 -> manifest db = Some m -> mf_session_id m = id -> 1 <= count -> 1 <= size db ->
  mf_head_sequence m = size db -> mf_head_sequence (f m) = size db + count ->
  mf_session_id (f m) = mf_session_id m -> mf_created_at_ms (f m) = mf_created_at_ms m ->
  mf_creation_provenance_json (f m) = mf_creation_provenance_json m ->
  update_manifest f db1 = (Ok a, db2) ->
  receipt = {| rc_operation_id := operation; rc_session_id := id; rc_run_id := run;
               rc_first_sequence := size db + 1; rc_last_sequence := size db + count |} ->
  receipt_to_json receipt = Some json ->
  insert_command {| cmd_operation_id := operation; cmd_method := kind; cmd_payload_hash := hash;
      cmd_first_sequence := size db + 1; cmd_last_sequence := size db + count;
      cmd_receipt_json := json |} db2 = (Ok b, db3) ->
  performed id operation kind hash run db count receipt db3.
Proof.
  intros Hu Hm Hid Hcount Hone Hh Hh' Hid' Hcr Hp Hum Hr Hj Hi.
  pose proof (under_manifest _ _ _ Hu) as Hm1. rewrite Hm in Hm1.
  apply (update_manifest_Ok f db1 m) in Hum as ->; [|done].
  pose proof (under_extended db count f m db1 Hu Hm Hcount Hh Hh' Hid' Hcr Hp) as He.
  apply insert_command_Ok in Hi as [-> Hn]. pose proof (under_commands _ _ _ Hu) as Hc.
  apply (extended_commands _ _ [{| cmd_operation_id := operation; cmd_method := kind; cmd_payload_hash := hash;
      cmd_first_sequence := size db + 1; cmd_last_sequence := size db + count;
      cmd_receipt_json := json |}]) in He.
  pose proof (ext_size _ _ _ He) as Hsize.
  split; try done; subst receipt; simpl in *; try congruence.
  exists json. split; [done|]. by rewrite Hsize, Hc.
Qed.

Lemma receipt_run_batch_Ok operation id run first last r :
  receipt_run_batch operation id run first last = Ok r ->
  r = {| rc_operation_id := operation; rc_session_id := id; rc_run_id := Some run;
         rc_first_sequence := first; rc_last_sequence := last |} /\ first <= last <= i64_max.
Proof.
  unfold receipt_run_batch, u64_try_from. destruct (in_u64 first) eqn:Hf; [|done].
  destruct (in_u64 last) eqn:Hl; [|done]. unfold check_receipt. simpl. destruct (_ || _) eqn:Hc; [done|].
  intros [= <-]. prop_bools. split; [done | lia].
Qed.

(** The records of a novel accept or append. *)
Lemma append_body_under db0 clock id ts run first records db a db' :
  under db0 first db -> 1 <= first -> first + Z.of_nat (length records) - 1 <= i64_max ->
  (let! r := reads (run_record id run) in
   let! r := lift (ok_or r transition) in
   let! c := reads (load_correlation id r) in
   let! selected := reads (history_selection id run) in
   let! unbound := (if is_some selected
                    then let! b := reads (provider_binding id run) in ret (is_none b)
                    else ret false) in
   append_all clock id ts r c unbound first records) db = (Ok a, db') ->
  under db0 (first + Z.of_nat (length records)) db'.
Proof.
  intros Hu Hf Hl Ha. unbind Ha. injection Hc as Hr <-. unbind Ha. injection Hc as Hs <-.
  apply ok_or_Ok in Hs as ->. unbind Ha. injection Hc as _ <-. unbind Ha. injection Hc as _ <-.
  unbind Ha. assert (s = db) as ->.
  { destruct (is_some a2); [unbind Hc; injection Hc as _ <-; by injection Hc0 as _ <- | by injection Hc as _ <-]. }
  apply run_record_mirrors in Hr as [Hm _]; [|apply Hu].
  exact (yields_Ok _ _ _ _ _ _ (append_all_under db0 clock id ts records first _ _ _ Hf Hl) (conj Hu Hm) Ha).
Qed.

(** The receipt of an earlier execution was found, and nothing was written. *)
Definition replayed (id operation kind hash : string) (run : option string) db (receipt : CommitReceipt) : Prop :=
  exists c, find_command id operation db = Ok (Some c) /\ c_method c = kind /\ c_payload_hash c = hash /\
    c_receipt c = receipt /\ rc_run_id receipt = run.

Lemma replay_command_Ok id run mutation hash c db receipt dup db' :
  replay_command id run mutation hash c db = (Ok (receipt, dup), db') ->
  dup = true /\ db' = db /\ c_method c = method mutation /\ c_payload_hash c = hash /\
  c_receipt c = receipt /\ rc_run_id receipt = Some run.
Proof.
  unfold replay_command. destruct (_ || _) eqn:Hc; [done|].
  destruct (bool_decide_reflect (rc_run_id (c_receipt c) = Some run)) as [Hrun|]; [|done]. simpl.
  intros Hr. unbind Hr. injection Hr as <- <- <-. prop_bools.
  assert (s = db) as ->.
  { destruct mutation; try by injection Hc0 as _ <-. unbind Hc0. injection Hc as _ <-.
    destruct (bool_decide _); [by injection Hc0 as _ <- | done]. }
  done.
Qed.

(** Any accepted or appended command was either found or executed. *)
Lemma mutate_body_spec clock provenance owner operation run mutation db receipt dup db' :
  sound db ->
  mutate_body clock provenance owner operation run mutation db = (Ok (receipt, dup), db') ->
  let id := cp_session_id provenance in
  exists hash, command_hash id run mutation = Ok hash /\
    if dup : bool then db' = db /\ replayed id operation (method mutation) hash (Some run) db receipt
    else performed id operation (method mutation) hash (Some run) db (Z.of_nat (record_count mutation)) receipt db'.
Proof.
  intros Hs Hb id. unfold mutate_body in Hb. fold id in Hb.
  unbind Hb. injection Hc as Hh <-. exists a. split; [done|].
  unbind Hb. injection Hc as Hf <-. destruct a0 as [c|].
  { apply replay_command_Ok in Hb as (-> & -> & ? & ? & ? & ?). split; [done|]. by exists c. }
  unbind Hb. injection Hc as Hv <-. apply validate_session_head in Hv as (m & Hm & Hid & Hhead & Hhd & Hsz); [|done].
  rewrite Hhd in Hb.
  unbind Hb. injection Hc as _ <-. unbind Hb.
  assert (s = db) as ->.
  { destruct mutation; try by injection Hc as _ <-. unbind Hc. injection Hc0 as _ <-.
    unbind Hc. injection Hc0 as _ <-. unbind Hc. injection Hc0 as _ <-. by injection Hc as _ <-. }
  unbind Hb. injection Hc0 as Hr <-. apply sequence_range_Ok in Hr as (Hf1 & Hl1 & Hpos & Hmax); [|lia].
  destruct a3 as [first last]. simpl in Hf1, Hl1, Hmax, Hb.
  unbind Hb. injection Hc0 as _ <-. unbind Hb.
  assert (under db (last + 1) s) as Hu.
  { pose proof (under_start db Hs) as Hu. rewrite <- Hf1 in Hu.
    destruct mutation as [input|input selection|records]; simpl in *.
    - eapply yields_Ok with (Q := fun _ => under db (last + 1)); [|exact Hu|exact Hc0].
      apply accept_under; simpl; lia.
    - eapply yields_Ok with (Q := fun _ => under db (last + 1)); [|exact Hu|exact Hc0].
      apply accept_under; simpl; lia.
    - replace (last + 1) with (first + Z.of_nat (length records)) by lia.
      eapply append_body_under; [exact Hu|lia|lia|exact Hc0]. }
  unbind Hb. injection Hc1 as Hrc <-. apply receipt_run_batch_Ok in Hrc as [Hrc _].
  unbind Hb. unbind Hb. injection Hc2 as Hj <-. apply ok_or_Ok in Hj. unbind Hb. injection Hb as <- <- <-.
  subst first last. eapply (recorded _ _ _ _ _ _ _ m (advance _ _)); try done; lia.
Qed.

(** ** Rename *)
Lemma receipt_single_Ok operation id n r :
  receipt_single operation id n = Ok r ->
  r = {| rc_operation_id := operation; rc_session_id := id; rc_run_id := None;
         rc_first_sequence := n; rc_last_sequence := n |}.
Proof.
  unfold receipt_single, u64_try_from. destruct (in_u64 n); [|done]. unfold check_receipt. simpl.
  destruct (_ || _); [done|]. by intros [= <-].
Qed.

Lemma rename_body_spec clock provenance operation title db receipt dup db' :
  sound db ->
  rename_body clock provenance operation title db = (Ok (receipt, dup), db') ->
  let id := cp_session_id provenance in
  exists request, rename_to_json id title = Some request /\
    if dup : bool then db' = db /\ replayed id operation "rename" (sha256 request) None db receipt
    else performed id operation "rename" (sha256 request) None db 1 receipt db'.
Proof.
  intros Hs Hb id. unfold rename_body in Hb. fold id in Hb.
  unbind Hb. injection Hc as Hq <-. apply ok_or_Ok in Hq. exists a. split; [done|].
  unbind Hb. injection Hc as Hf <-. destruct a0 as [c|].
  { destruct (_ || _) eqn:Hc in Hb; [done|]. destruct (_ || _) eqn:Hc' in Hb; [done|].
    injection Hb as <- <- <-. simp_checks. split; [done|]. by exists c. }
  unbind Hb. injection Hc as Hv <-. apply validate_session_head in Hv as (m & Hm & Hid & Hhead & Hhd & Hsz); [|done].
  rewrite Hhd in Hb. unbind Hb. injection Hc as Hn <-. apply next_sequence_Ok in Hn as [-> Hn]; [|lia].
  unbind Hb. injection Hc as Hr <-. apply receipt_single_Ok in Hr.
  do 2 (unbind Hb; injection Hc as _ <-). unbind Hb.
  match type of Hc with insert_event_row ?row _ = _ =>
    pose proof (yields_Ok _ _ _ _ _ _ (insert_under db (size db + 1) row eq_refl (proj2 Hn)) (under_start db Hs) Hc) as Hu
  end.
  unbind Hb. unbind Hb. unbind Hb. injection Hc2 as Hj <-. apply ok_or_Ok in Hj.
  unbind Hb. injection Hb as <- <- <-.
  pose proof (under_manifest _ _ _ Hu) as Hm1. rewrite Hm in Hm1.
  apply (update_manifest_Ok _ _ m) in Hc0 as ->; [|done].
  pose proof (under_extended db 1 (fun m => advance (size db + 1) a2 (retitle title m)) m s Hu Hm ltac:(lia) Hhead
                eq_refl eq_refl eq_refl eq_refl) as He.
  pose proof (extended_apply _ _ _ _ _ _ _ _ He Hc1) as He'.
  apply apply_same in Hc1 as (_ & Hcm & _ & _ & Hmm). apply insert_command_Ok in Hc2 as [-> Hnov].
  pose proof (extended_commands _ _ [{| cmd_operation_id := operation; cmd_method := "rename"; cmd_payload_hash := sha256 a;
      cmd_first_sequence := size db + 1; cmd_last_sequence := size db + 1; cmd_receipt_json := a7 |}] _ He') as He2.
  pose proof (ext_size _ _ _ He2) as Hsize. pose proof (under_commands _ _ _ Hu) as Hcm0.
  simpl in Hcm, Hmm. rewrite Hcm0 in Hcm.
  split; try done; subst; simpl in *; try congruence; try lia.
  - rewrite Hmm. simpl. congruence.
  - exists a7. split; [done|]. by rewrite Hsize, Hcm.
Qed.

(** ** Interruption *)

(** Every unfinished run belongs to the process [owner]. *)
Definition owned (owner : string) db : Prop :=
  forall k r, runs db !! k = Some r -> unfinished (run_state r) = true -> run_owner_instance_id r = owner.

(** The one stale run [k] was interrupted by the new last event, and nothing else. *)
Record interrupted (k : string) db db' : Prop := {
  ip_extended : extended db 1 db';
  ip_commands : commands db' = commands db;
  ip_tools : tool_results db' = tool_results db;
  ip_run : exists r json, runs db !! k = Some r /\ unfinished (run_state r) = true /\
    payload_to_json (RunInterrupted {| in_run_id := k |}) = Some json /\
    runs db' = <[k := with_interrupted (size db') json r]> (runs db)
}.

Lemma stale_head owner db k r l :
  select_runs (fun _ r => unfinished (run_state r) && negb (bool_decide (run_owner_instance_id r = owner))) db
    = (k, r) :: l ->
  runs db !! k = Some r /\ unfinished (run_state r) = true /\ run_owner_instance_id r <> owner.
Proof.
  intros Hs. assert ((k, r) ∈ (k, r) :: l) as Hin by left. rewrite <- Hs in Hin.
  apply select_runs_In in Hin as [Hr Hp]. prop_bools. done.
Qed.

Lemma stale_none owner db :
  select_runs (fun _ r => unfinished (run_state r) && negb (bool_decide (run_owner_instance_id r = owner))) db = [] ->
  owned owner db.
Proof.
  intros Hs k r Hr Hu. destruct (decide (run_owner_instance_id r = owner)) as [|Hne]; [done|]. exfalso.
  assert ((k, r) ∈ select_runs (fun _ r => unfinished (run_state r)
            && negb (bool_decide (run_owner_instance_id r = owner))) db) as Hin.
  { apply select_runs_In. split; [done|]. by rewrite Hu, bool_decide_eq_false_2. }
  rewrite Hs in Hin. by apply not_elem_of_nil in Hin.
Qed.

Lemma owned_none owner db :
  owned owner db ->
  select_runs (fun _ r => unfinished (run_state r) && negb (bool_decide (run_owner_instance_id r = owner))) db = [].
Proof.
  intros Ho. destruct (select_runs _ db) as [|[k r] l] eqn:Hs; [done|].
  apply stale_head in Hs as (Hr & Hu & Hne). by destruct Hne, (Ho k r Hr Hu).
Qed.

(** The run row of an interruption. *)
Lemma interrupted_under db0 n m k r json db :
  under db0 n db -> runs db !! k = Some r -> unfinished (run_state r) = true -> 
  under db0 n (set_runs (<[k := with_interrupted m json r]> (runs db)) db).
Proof.
  intros Hu Hr Hun. pose proof Hu as [_ Hs _ _ _]. eapply write_run_under; try done.
  - split; try done. simpl. by rewrite Hun.
  - simpl. intros x Hx. destruct (sound_result db Hs _ _ _ Hr Hx). congruence.
Qed.

Lemma reconcile_body_spec clock provenance owner db db' a :
  sound db ->
  reconcile_body clock provenance owner db = (Ok a, db') ->
  owned owner db' /\ ((owned owner db /\ db' = db) \/ exists k, interrupted k db db').
Proof.
  intros Hs Hb. unfold reconcile_body in Hb. unbind Hb. injection Hc as Hv <-.
  apply validate_session_head in Hv as (m & Hm & Hid & Hhead & Hhd & Hsz); [|done].
  unbind Hb. injection Hc as <- <-. destruct (select_runs _ db) as [|[k r] l] eqn:Hsel.
  { injection Hb as _ <-. apply stale_none in Hsel. split; [done|]. by left. }
  apply stale_head in Hsel as (Hr & Hun & Hne).
  unbind Hb. injection Hc as Hp <-. apply map_err_Ok in Hp. unfold parse_id in Hp.
  destruct (parse_str k); [|done]. cbn [ok_or] in Hp. destruct (_ || _) in Hp; [done|]. injection Hp as <-.
  do 2 (unbind Hb; injection Hc as _ <-). unbind Hb. injection Hc as Hn <-. rewrite Hhd in Hn.
  apply next_sequence_Ok in Hn as [-> Hn]; [|lia]. unbind Hb. injection Hc as _ <-.
  unbind Hb. injection Hc as Hj <-. apply ok_or_Ok in Hj. unbind Hb.
  pose proof (yields_Ok _ _ _ _ _ _ (insert_event_under db (size db + 1) _ _ _ _ _ _ Hn) (under_start db Hs) Hc) as Hu.
  assert (runs s = runs db /\ tool_results s = tool_results db) as [Hrs Hts]
    by (by apply insert_event_row_Ok in Hc as [_ ->]).
  unbind Hb. apply update_run_Ok in Hc0 as [[Hnone _]|(r' & Hr' & _ & ->)]; [congruence|].
  assert (r' = r) as -> by congruence. apply (interrupted_under _ _ (size db + 1) k r a4) in Hu; [|congruence|done].
  unbind Hb. apply (update_manifest_Ok _ _ m) in Hc0 as ->; [|by rewrite (under_manifest _ _ _ Hu)].
  pose proof (under_extended db 1 (advance (size db + 1) a3) m _ Hu Hm ltac:(lia) Hhead eq_refl eq_refl eq_refl eq_refl) as He.
  pose proof (extended_apply _ _ _ _ _ _ _ _ He Hb) as He'. pose proof (under_commands _ _ _ Hu) as Hcm.
  apply apply_same in Hb as (_ & Hcm' & Hrs' & Hts' & _). simpl in *.
  assert (runs db' = <[k := with_interrupted (size db') a4 r]> (runs db)) as Hruns.
  { rewrite Hrs', Hrs. by rewrite (ext_size _ _ _ He'). }
  split.
  - intros k' q Hq Hqu. rewrite Hruns in Hq. apply lookup_insert_Some in Hq as [[_ <-]|[Hk Hq]]; [done|].
    destruct Hk. by eapply (sound_one db Hs).
  - right. exists k. split; try congruence. by exists r, a4.
Qed.
End commands.
