(* ===== verification/StoreGuarantees.v ===== *)
(** * What the session store guarantees

    Sequences of commands under every fate of their transactions: the log and the
    receipts are append-only, a command is all or nothing, a retry returns the
    receipt of the first execution, and interruption settles stale runs. *)
From S2P Require Import Prelude Json Errors Identifiers Provider Tools Replay RunData Hoare Records Store History Session RunStore StoreSafety StoreCommands.

(** ** Commands and attempts *)
Inductive Request : Type :=
| Rename (operation title : string)
| Mutate (operation run : string) (mutation : Mutation)
| Reconcile.

(** One attempt at a command: by which process, at what time, with what fate. *)
Record Attempt : Type := {
  at_request : Request;
  at_owner : string;
  at_clock : Clock;
  at_fate : Fate
}.

Section guarantees.
Context {D : Type} `{Display D} `{UuidLib} `{StorageSerde}.
Implicit Types db : Db D.

Definition attempt (provenance : CreationProvenance) (a : Attempt) db : Db D :=
  match at_request a with
  | Rename operation title => snd (rename_session (at_fate a) (at_clock a) provenance operation title db)
  | Mutate operation run mutation =>
      snd (mutate (at_fate a) (at_clock a) provenance (at_owner a) operation run mutation db)
  | Reconcile => snd (reconcile (at_fate a) (at_clock a) provenance (at_owner a) db)
  end.

(** The receipt that an attempt at a command returns, or its error; an interruption has none. *)
Definition attempt_answer (provenance : CreationProvenance) (a : Attempt) db : option (SResult (CommitReceipt * bool)) :=
  match at_request a with
  | Rename operation title => Some (fst (rename_session (at_fate a) (at_clock a) provenance operation title db))
  | Mutate operation run mutation =>
      Some (fst (mutate (at_fate a) (at_clock a) provenance (at_owner a) operation run mutation db))
  | Reconcile => None
  end.

Definition attempts (provenance : CreationProvenance) (l : list Attempt) db : Db D :=
  foldl (fun db a => attempt provenance a db) db l.

(** ** Transactions *)
Lemma transaction_inv {S A} fate (c : SM S StorageError A) (db : S) r (db' : S) :
  transaction fate c db = (r, db') ->
  (exists e, r = Err (not_committed e) /\ db' = db) \/
  (exists a (db1 : S), c db = (Ok a, db1) /\
     ((r = Ok a /\ db' = db1) \/
      (r = Err (storage_error StorageErrorKind.CommitUnknown) /\ (db' = db1 \/ db' = db)))).
Proof.
  unfold transaction. destruct fate as [e| | |]; [intros [= <- <-]; left; by exists e|..];
    (destruct (c db) as [[a|e] db1]; intros [= <- <-]; [right; exists a, db1; split; [done|]|left; by exists e]);
    [by left | right; split; [done|]; by left | right; split; [done|]; by right].
Qed.

(** Whatever a body guarantees of its successful end state, and of no change,
    holds after the transaction. *)
Lemma transaction_keeps {S A} fate (c : SM S StorageError A) (db : S) (P : S -> Prop) :
  P db -> (forall a (db1 : S), c db = (Ok a, db1) -> P db1) -> P (snd (transaction fate c db)).
Proof.
  intros Hdb Hc. destruct (transaction fate c db) as [r db'] eqn:Ht.
  apply transaction_inv in Ht as [(e & _ & ->)|(a & db1 & Hb & [[_ ->]|[_ [->| ->]]])]; eauto.
Qed.

(** What every attempt keeps. *)
Definition kept db db' : Prop := evolves db db' /\ sound db' /\ (headed db -> headed db').

Lemma kept_refl db : sound db -> kept db db.
Proof. by intros. Qed.

Lemma extended_kept db count db' : extended db count db' -> kept db db'.
Proof. by intros []. Qed.

Lemma performed_kept id operation kind hash run db count receipt db' :
  performed id operation kind hash run db count receipt db' -> kept db db'.
Proof. intros Hp. eapply extended_kept, pf_extended, Hp. Qed.

Lemma attempt_keeps provenance a db : sound db -> kept db (attempt provenance a db).
Proof.
  intros Hs. unfold attempt. destruct (at_request a) as [operation title|operation run mutation|].
  - apply (transaction_keeps _ _ _ (kept db)); [by apply kept_refl|].
    intros [receipt dup] db1 Hb. apply rename_body_spec in Hb as (q & _ & Hb); [|done].
    destruct dup; [destruct Hb as [-> _]; by apply kept_refl | by eapply performed_kept].
  - apply (transaction_keeps _ _ _ (kept db)); [by apply kept_refl|].
    intros [receipt dup] db1 Hb. apply mutate_body_spec in Hb as (q & _ & Hb); [|done].
    destruct dup; [destruct Hb as [-> _]; by apply kept_refl | by eapply performed_kept].
  - apply (transaction_keeps _ _ _ (kept db)); [by apply kept_refl|].
    intros x db1 Hb. apply reconcile_body_spec in Hb as [_ [[_ ->]|(k & Hi)]]; [by apply kept_refl| |done].
    by eapply extended_kept, ip_extended.
Qed.

Lemma attempts_keep provenance l db : sound db -> kept db (attempts provenance l db).
Proof.
  revert db. induction l as [|a l IH]; intros db Hs; simpl; [by apply kept_refl|].
  destruct (attempt_keeps provenance a db Hs) as (He & Hs1 & Hh). destruct (IH _ Hs1) as (He' & Hs2 & Hh').
  split; [by etrans | auto].
Qed.

(** C33. Nothing recorded is ever rewritten.  Whatever commands are attempted on a
    session, by whichever processes, whether they succeed, are refused, fail at a
    statement or are lost at the commit: the event log and the command receipts
    grow only at their ends, every run keeps its acceptance and owner and, once
    finished, its state, terminal event and result, every recorded tool outcome
    stays, and the session keeps its identity while its head never goes back. *)
Theorem commands_append_only provenance l db :
  sound db -> evolves db (attempts provenance l db).
Proof. intros Hs. by apply attempts_keep. Qed.

(** C34. Under any sequence of attempts the events stay numbered 1, 2, 3, ...
    within 64 bits, at most one run is unfinished, a run has a terminal event
    exactly when it is finished and a result only then, a completed run has the
    output of every tool call it started, every tool call belongs to a run, and the
    manifest names the last event. *)
Theorem commands_keep_sound provenance l db :
  sound db -> headed db -> sound (attempts provenance l db) /\ headed (attempts provenance l db).
Proof. intros Hs Hh. destruct (attempts_keep provenance l db Hs) as (_ & Hs' & Hh'). auto. Qed.

(** C25. Accept and append are all or nothing.  An error that is not an unknown
    commit left the session as it was and says so; an unknown commit wrote either
    nothing or the whole command; a success is a known receipt with nothing
    written, or one event per record at the end of the log, numbered as the
    receipt says, with the manifest on the last and the receipt stored. *)
Theorem mutate_all_or_nothing fate clock provenance owner operation run mutation db r db' :
  sound db ->
  mutate fate clock provenance owner operation run mutation db = (r, db') ->
  let id := cp_session_id provenance in
  let written hash receipt := performed id operation (method mutation) hash (Some run) db
                                (Z.of_nat (record_count mutation)) receipt db' in
  match r with
  | Ok (receipt, true) => db' = db /\ exists hash, command_hash id run mutation = Ok hash /\
      replayed id operation (method mutation) hash (Some run) db receipt
  | Ok (receipt, false) => exists hash, command_hash id run mutation = Ok hash /\ written hash receipt
  | Err e =>
      (exists e', e = not_committed e' /\ db' = db) \/
      (e = storage_error StorageErrorKind.CommitUnknown /\
       (db' = db \/ exists hash receipt, command_hash id run mutation = Ok hash /\ written hash receipt))
  end.
Proof.
  intros Hs Ht id written. apply transaction_inv in Ht as [(e & -> & ->)|([receipt dup] & db1 & Hb & Hr)].
  { left. by exists e. }
  apply mutate_body_spec in Hb as (hash & Hh & Hb); [|done]. fold id in Hh, Hb.
  destruct Hr as [[-> ->]|[-> [->| ->]]]; [destruct dup; naive_solver|right; split; [done|]..].
  - destruct dup; [left; apply Hb | right; by exists hash, receipt].
  - by left.
Qed.

(** ** Retries *)
Context {laws : StorageSerdeLaws}.

Lemma find_skip {A} (p : A -> bool) l x r :
  Forall (fun q => p q = false) l -> p x = true -> find p ((l ++ [x]) ++ r) = Some x.
Proof. intros Hl Hx. induction Hl as [|q l Hq _ IH]; simpl; [by rewrite Hx | by rewrite Hq]. Qed.

(** The receipt of an executed command is found in every later state. *)
Lemma performed_found id operation kind hash run db count receipt db1 db2 :
  performed id operation kind hash run db count receipt db1 -> evolves db1 db2 ->
  find_command id operation db2 = Ok (Some {| c_method := kind; c_payload_hash := hash; c_receipt := receipt |}).
Proof using laws.
  intros [Hext Hcount Hone Hsess Hop Hsid Hrun Hfirst Hlast Hnov (json & Hj & Hcmd)] Hev.
  destruct Hext as [_ [_ Hlen _ _ _ _ _] Hsize _ Hhead]. unfold headed in Hhead. fold (size db1) in Hlen.
  destruct (manifest db1) as [m1|] eqn:Hm1; [|done]. simpl in Hsess, Hhead.
  destruct (evolves_identity _ _ Hev m1 Hm1) as (m2 & Hm2 & _ & _ & _ & Hle).
  destruct (evolves_commands _ _ Hev) as [l Hl]. unfold find_command. rewrite Hl, Hcmd.
  rewrite find_skip; cycle 1.
  { eapply Forall_impl; [exact Hnov|]. intros q Hq. by apply bool_decide_eq_false. }
  { by apply bool_decide_eq_true. }
  simpl. unfold decode_receipt. rewrite (receipt_round _ _ Hj). cbn [ok_or].
  assert (check_receipt receipt = Ok receipt) as ->.
  { unfold check_receipt. rewrite Hfirst, Hlast.
    destruct (Z.eqb_spec (size db + 1) 0), (Z.ltb_spec (size db1) (size db + 1)),
      (Z.ltb_spec i64_max (size db1)); done || lia. }
  simpl. rewrite Hm2. simpl. rewrite Hfirst, Hlast, !as_u64_small by (unfold u64_max, i64_max in *; lia).
  rewrite !bool_decide_eq_true_2, !Z.eqb_refl by done. simpl.
  injection Hhead as Hhead.
  destruct (Z.leb_spec (size db + 1) 1), (Z.ltb_spec (mf_head_sequence m2) (size db1)); done || lia.
Qed.

(** The receipt a command left, with its range. *)
Definition receipted (id operation kind hash : string) (run : option string) db db1 db2 (receipt : CommitReceipt) : Prop :=
  rc_run_id receipt = run /\ rc_first_sequence receipt = size db + 1 /\ rc_last_sequence receipt = size db1 /\
  find_command id operation db2 = Ok (Some {| c_method := kind; c_payload_hash := hash; c_receipt := receipt |}).

Lemma performed_receipted provenance operation kind hash run db count receipt db1 later :
  let id := cp_session_id provenance in
  performed id operation kind hash run db count receipt db1 ->
  receipted id operation kind hash run db db1 (attempts provenance later db1) receipt.
Proof using laws.
  intros id Hp. split; [by eapply pf_run|]. split; [by eapply pf_first|]. split; [by eapply pf_last|].
  eapply performed_found; [exact Hp|]. apply attempts_keep. by eapply performed_kept.
Qed.

(** An attempt that changed the session ran its body to the end. *)
Lemma transaction_changed {A} fate (c : SM (Db D) StorageError (A * bool)) db r db1 :
  transaction fate c db = (r, db1) -> db1 <> db ->
  exists x dup, c db = (Ok (x, dup), db1) /\ (r = Ok (x, dup) \/ r = Err (storage_error StorageErrorKind.CommitUnknown)).
Proof.
  intros Ht Hne. apply transaction_inv in Ht as [(e & _ & ->)|([x dup] & db2 & Hb & Hr)]; [done|].
  exists x, dup. naive_solver.
Qed.

(** An attempt that changed the session executed its command, and every later
    state has its receipt. *)
Lemma mutate_changed fate clock provenance owner operation run mutation db r db1 later :
  sound db -> mutate fate clock provenance owner operation run mutation db = (r, db1) -> db1 <> db ->
  let id := cp_session_id provenance in
  exists hash receipt, command_hash id run mutation = Ok hash /\
    (r = Ok (receipt, false) \/ r = Err (storage_error StorageErrorKind.CommitUnknown)) /\
    mutate_body clock provenance owner operation run mutation db = (Ok (receipt, false), db1) /\
    receipted id operation (method mutation) hash (Some run) db db1 (attempts provenance later db1) receipt.
Proof using laws.
  intros Hs Ht Hne id. apply transaction_changed in Ht as (receipt & dup & Hb & Hr); [|done]. pose proof Hb as Hspec.
  apply mutate_body_spec in Hspec as (hash & Hh & Hp); [|done]. destruct dup; [by destruct Hp|].
  exists hash, receipt. split_and!; try done. by eapply performed_receipted.
Qed.

Lemma rename_changed fate clock provenance operation title db r db1 later :
  sound db -> rename_session fate clock provenance operation title db = (r, db1) -> db1 <> db ->
  let id := cp_session_id provenance in
  exists request receipt, rename_to_json id title = Some request /\
    (r = Ok (receipt, false) \/ r = Err (storage_error StorageErrorKind.CommitUnknown)) /\
    receipted id operation "rename" (sha256 request) None db db1 (attempts provenance later db1) receipt /\ size db1 = size db + 1.
Proof using laws.
  intros Hs Ht Hne id. apply transaction_changed in Ht as (receipt & dup & Hb & Hr); [|done].
  apply rename_body_spec in Hb as (request & Hq & Hp); [|done]. destruct dup; [by destruct Hp|].
  exists request, receipt. split_and!; try done; [by eapply performed_receipted|]. apply (ext_size _ _ _ (pf_extended _ _ _ _ _ _ _ _ _ Hp)).
Qed.

(** An operation identifier names one command forever: once it was used for
    an accept or append, using it for a command of another kind or content - on
    this or another run, or a rename - is refused as a conflict and writes
    nothing, whatever happened in between. *)
Lemma reused_operation_conflicts fate clock provenance owner operation run mutation db r db1 later :
  sound db -> mutate fate clock provenance owner operation run mutation db = (r, db1) -> db1 <> db ->
  let id := cp_session_id provenance in
  let db2 := attempts provenance later db1 in
  (forall clock' owner' run' mutation' hash,
     command_hash id run' mutation' = Ok hash ->
     method mutation' <> method mutation \/ command_hash id run mutation <> Ok hash ->
     mutate Committed clock' provenance owner' operation run' mutation' db2 = (Err (not_committed conflict), db2)) /\
  (forall clock' title, rename_to_json id title <> None ->
     rename_session Committed clock' provenance operation title db2 = (Err (not_committed conflict), db2)).
Proof using laws.
  intros Hs Ht Hne id db2.
  destruct (mutate_changed _ _ _ _ _ _ _ _ _ _ later Hs Ht Hne) as (hash & receipt & Hh & _ & _ & _ & _ & _ & Hf).
  fold db2 id in Hf, Hh. split.
  - intros clock' owner' run' mutation' hash' Hh' Hdiff.
    unfold mutate, transaction, mutate_body, bind, lift, reads. fold id. rewrite Hh', Hf.
    unfold replay_command. cbn [c_method c_payload_hash].
    destruct (bool_decide_reflect (method mutation = method mutation')), (bool_decide_reflect (hash = hash'));
      simpl; try done. destruct Hdiff; congruence.
  - intros clock' title Hj. destruct (rename_to_json id title) as [t|] eqn:Ht'; [|done].
    unfold rename_session, transaction, rename_body, bind, lift, reads. fold id. rewrite Ht'. cbn [ok_or].
    rewrite Hf. cbn [c_method]. by destruct mutation.
Qed.

(** Interruption settles stale runs.  When [reconcile] succeeds every
    unfinished run belongs to this process: either nothing was stale and nothing
    was written, or the one stale run was closed as interrupted by a new last
    event while receipts, tool results and other runs stayed as they were; and
    reconciling again for the same process changes nothing, whatever its fate. *)
Lemma reconcile_settles clock provenance owner db db' :
  sound db -> reconcile Committed clock provenance owner db = (Ok tt, db') ->
  owned owner db' /\
  ((owned owner db /\ db' = db) \/ exists k, interrupted k db db') /\
  forall fate clock', snd (reconcile fate clock' provenance owner db') = db'.
Proof.
  intros Hs Ht. unfold reconcile, transaction in Ht.
  destruct (reconcile_body _ _ _ db) as [[[]|e] db1] eqn:Hb; [|done]. injection Ht as <-.
  apply reconcile_body_spec in Hb as [Ho Hcase]; [|done]. split; [done|]. split; [done|].
  intros fate clock'. apply (transaction_keeps _ _ _ (fun db2 => db2 = db1)); [done|].
  intros a db2 Hb. unfold reconcile_body in Hb. unbind Hb. injection Hc as _ <-. unbind Hb.
  injection Hc as <- <-. rewrite (owned_none _ _ Ho) in Hb. by injection Hb as _ <-.
Qed.

(** ** Creation *)

(** The tables [initialize] leaves behind. *)
Definition created_db (provenance : CreationProvenance) (input : CreateSession)
    (workspace : option string) (provenance_json json : string) : Db D :=
  mkDb 1464423233 3 Released
    (Some {| mf_session_id := cp_session_id provenance; mf_schema_version := 3; mf_format_version := 1;
             mf_title := cs_title input; mf_workspace_json := workspace;
             mf_created_at_ms := cp_created_at_ms provenance; mf_updated_at_ms := cp_created_at_ms provenance;
             mf_head_sequence := 1; mf_creation_provenance_json := provenance_json |})
    [{| row_sequence := 1; row_event_id := cp_creation_event_id provenance;
        row_event_type := "session.created"; row_event_version := 1;
        row_created_at_ms := cp_created_at_ms provenance; row_run_id := None; row_source_event_id := None;
        row_source_sequence := None; row_payload_json := json |}]
    [] ∅ ∅ (Some {| pr_format_version := 1; pr_applied_sequence := 1; pr_metadata_sequence := 1 |})
    empty_display.

Lemma provenance_request_inv p input :
  provenance_request p = Ok input ->
  0 <= cp_created_at_ms p /\ validate_workspace (cs_workspace input) = Ok tt.
Proof.
  unfold provenance_request. intros Hp. destruct (request_from_json _) as [q|]; [|done]. cbn [ok_or] in Hp.
  destruct (receipt_single _ _ _); [|done]. destruct (_ || _) in Hp; [done|].
  destruct (request_to_json q); [|done]. cbn [ok_or] in Hp. destruct (_ || _) eqn:Hc in Hp; [done|].
  apply map_err_Ok in Hp. unfold new_create_session in Hp.
  destruct (validate_workspace _) as [[]|] eqn:Hw; [|done]. injection Hp as <-. prop_bools. done.
Qed.

Lemma created_validates provenance input workspace provenance_json json :
  provenance_request provenance = Ok input -> workspace_to_json (cs_workspace input) = Ok workspace ->
  provenance_to_json provenance = Some provenance_json ->
  payload_to_json (SessionCreated {| cd_title := cs_title input; cd_workspace := cs_workspace input;
                                     cd_creation_provenance := provenance |}) = Some json ->
  validate_session (cp_session_id provenance) (Some provenance)
    (created_db provenance input workspace provenance_json json)
  = Ok {| sm_session_id := cp_session_id provenance; sm_title := cs_title input;
          sm_workspace := cs_workspace input; sm_created_at_ms := cp_created_at_ms provenance;
          sm_updated_at_ms := cp_created_at_ms provenance; sm_head_sequence := 1 |}.
Proof using laws.
  intros Hr Hw Hp Hj. destruct (provenance_request_inv _ _ Hr) as [Ht Hv].
  assert (decode_workspace workspace = Ok (cs_workspace input)) as Hdw.
  { unfold workspace_to_json in Hw. destruct (cs_workspace input) as [w|]; [|injection Hw as <-; done].
    destruct (string_to_json w) as [t|] eqn:Hst; [|done]. injection Hw as <-. unfold decode_workspace.
    rewrite (string_round _ _ Hst). cbn [ok_or]. by rewrite Hv. }
  unfold validate_session. cbn -[bool_decide decode_workspace provenance_request validate_projection Z.ltb as_u64].
  rewrite (provenance_round _ _ Hp). cbn [ok_or]. rewrite Hr, Hdw.
  rewrite (payload_round _ _ Hj : payload_from_json "session.created" _ = _).
  cbn -[bool_decide Z.ltb]. rewrite !bool_decide_eq_true_2 by done. cbn -[Z.ltb bool_decide].
  rewrite !Z.eqb_refl. destruct (Z.ltb_spec (cp_created_at_ms provenance) 0); [lia|]. done.
Qed.

Lemma created_sound provenance input workspace provenance_json json :
  sound (created_db provenance input workspace provenance_json json) /\
  headed (created_db provenance input workspace provenance_json json).
Proof. by repeat split. Qed.

(** Whatever [initialize] leaves when its body succeeds. *)
Lemma initialize_body_tables provenance db s db' :
  initialize_body provenance db = (Ok s, db') ->
  exists input workspace provenance_json json, db' = created_db provenance input workspace provenance_json json /\
    provenance_request provenance = Ok input /\
    payload_to_json (SessionCreated {| cd_title := cs_title input; cd_workspace := cs_workspace input;
                                       cd_creation_provenance := provenance |}) = Some json /\
    validate_session (cp_session_id provenance) (Some provenance) db' = Ok s /\ empty db = true.
Proof.
  intros Hb. unfold initialize_body in Hb. unbind Hb. unfold reads in Hc. destruct (empty db) eqn:He; [|done]. injection Hc as _ <-.
  unbind Hb. injection Hc as _ <-. unbind Hb. injection Hc as Hr <-. unbind Hb. injection Hc as _ <-.
  unbind Hb. injection Hc as _ <-. unbind Hb. cbn in Hc. injection Hc as _ <-. unbind Hb. injection Hc as Hj <-.
  apply ok_or_Ok in Hj. unbind Hb. apply insert_event_row_Ok in Hc as [_ ->]. cbn -[validate_session] in Hb. injection Hb as Hv <-.
  by eexists _, _, _, _.
Qed.

(** Creating a session: on an empty file, with a request that decodes and
    values that serialize, [initialize] succeeds; the session it leaves passes
    [validate], has the requested title and workspace, head 1, one event, no runs
    and no commands, and satisfies the invariant of all later commands. *)
Lemma initialize_creates provenance input workspace provenance_json json db :
  empty db = true ->
  provenance_request provenance = Ok input -> workspace_to_json (cs_workspace input) = Ok workspace ->
  provenance_to_json provenance = Some provenance_json ->
  payload_to_json (SessionCreated {| cd_title := cs_title input; cd_workspace := cs_workspace input;
                                     cd_creation_provenance := provenance |}) = Some json ->
  exists db', initialize Committed provenance db =
    (Ok {| sm_session_id := cp_session_id provenance; sm_title := cs_title input;
           sm_workspace := cs_workspace input; sm_created_at_ms := cp_created_at_ms provenance;
           sm_updated_at_ms := cp_created_at_ms provenance; sm_head_sequence := 1 |}, db') /\
    sound db' /\ headed db' /\ size db' = 1 /\ commands db' = [] /\ runs db' = ∅ /\ tool_results db' = ∅.
Proof using laws.
  intros He Hr Hw Hp Hj. pose proof (created_validates _ _ _ _ _ Hr Hw Hp Hj) as Hv.
  exists (created_db provenance input workspace provenance_json json). split; [|by split_and!; try apply created_sound].
  assert (initialize_body provenance db
    = (validate_session (cp_session_id provenance) (Some provenance)
         (created_db provenance input workspace provenance_json json),
       created_db provenance input workspace provenance_json json)) as Hb.
  { unfold initialize_body, bind at 1, reads at 1. rewrite He. unfold bind, lift.
    cbn -[validate_session workspace_to_json provenance_request]. rewrite Hr, Hw, Hp.
    cbn -[validate_session]. rewrite Hj. done. }
  unfold initialize, transaction. by rewrite Hb, Hv.
Qed.
End guarantees.
