(* ===== verification/StoreContents.v ===== *)
(** * What the commands write

    Every row a command inserts decodes, and to exactly the payload that was
    recorded: the events of an accept or append are the given ones, in order. *)
From S2P Require Import Prelude Json Errors Identifiers Provider Tools Replay RunData Hoare Records Store History Session RunStore StoreSafety StoreCommands StoreGuarantees.

(** * Reading back what was written

    The rows of the log by their numbers, pages of history, and the invariant that
    every row the commands write decodes to the event that was recorded. *)

(** ** Filters *)
Lemma filter_all {A} (p : A -> bool) l : Forall (fun x => p x = true) l -> List.filter p l = l.
Proof. induction 1 as [|x l Hx _ IH]; simpl; [done|]. by rewrite Hx, IH. Qed.

Lemma filter_nothing {A} (p : A -> bool) l : Forall (fun x => p x = false) l -> List.filter p l = [].
Proof. induction 1 as [|x l Hx _ IH]; simpl; [done|]. by rewrite Hx. Qed.

Lemma find_unique {A} (p : A -> bool) l i x :
  l !! i = Some x -> p x = true -> (forall j y, l !! j = Some y -> p y = true -> j = i) -> find p l = Some x.
Proof.
  revert i. induction l as [|y l IH]; intros i Hi Hp Hu; [done|]. simpl. destruct (p y) eqn:Hy.
  - specialize (Hu 0%nat y eq_refl Hy) as <-. by injection Hi as <-.
  - destruct i as [|i]; [simpl in Hi; congruence|]. apply (IH i); [done|done|].
    intros j z Hj Hz. specialize (Hu (S j) z Hj Hz). lia.
Qed.

Section reads.
Context {D : Type} `{Display D} `{UuidLib} `{StorageSerde}.
Implicit Types db : Db D.

(** ** Rows by number *)
Lemma log_lookup db i r : log_ok db -> events db !! i = Some r -> row_sequence r = Z.of_nat i + 1.
Proof.
  intros Hl Hr. assert ((row_sequence <$> events db) !! i = Some (row_sequence r)) as Hs
    by (by rewrite list_lookup_fmap, Hr).
  rewrite Hl in Hs. apply lookup_seqZ in Hs as [-> _]. lia.
Qed.

Definition between (a t : Z) (r : EventRow) : bool := (a <? row_sequence r) && (row_sequence r <=? t).

(** The rows numbered from [a + 1] to [t]. *)
Lemma log_between db a t :
  log_ok db -> 0 <= a <= t -> t <= size db ->
  List.filter (between a t) (events db) = take (Z.to_nat (t - a)) (drop (Z.to_nat a) (events db)).
Proof.
  intros Hl Ha Ht. set (l := events db).
  rewrite <- (take_drop (Z.to_nat a) l) at 1.
  rewrite <- (take_drop (Z.to_nat (t - a)) (drop (Z.to_nat a) l)) at 1. rewrite drop_drop.
  rewrite !List.filter_app. rewrite (filter_nothing _ (take _ l)), filter_all, (filter_nothing _ (drop _ l)).
  - by rewrite app_nil_r.
  - apply Forall_lookup. intros i r Hr. rewrite lookup_drop in Hr. apply log_lookup in Hr; [|done].
    unfold between. destruct (Z.leb_spec (row_sequence r) t); [lia|]. apply andb_false_r.
  - apply Forall_lookup. intros i r [Hr Hi]%lookup_take_Some. rewrite lookup_drop in Hr.
    apply log_lookup in Hr; [|done]. unfold between.
    destruct (Z.ltb_spec a (row_sequence r)), (Z.leb_spec (row_sequence r) t); done || lia.
  - apply Forall_lookup. intros i r [Hr Hi]%lookup_take_Some. apply log_lookup in Hr; [|done].
    unfold between. by destruct (Z.ltb_spec a (row_sequence r)); [lia|].
Qed.

(** The row a point read finds. *)
Lemma log_find db i r :
  log_ok db -> events db !! i = Some r -> find (fun q => row_sequence q =? Z.of_nat i + 1) (events db) = Some r.
Proof.
  intros Hl Hr. eapply find_unique; [exact Hr| |].
  - apply Z.eqb_eq. by eapply log_lookup.
  - intros j q Hq Hn. apply Z.eqb_eq in Hn. apply log_lookup in Hq; [lia | done].
Qed.

(** ** Pages *)

(** The events of consecutive rows. *)
Definition decoded (id : string) (rows : list EventRow) (es : list StoredEvent) : Prop :=
  Forall2 (fun r e => decode_event id r = Ok e) rows es.

Lemma decode_event_sequence id r e : decode_event id r = Ok e -> st_sequence e = row_sequence r.
Proof.
  unfold decode_event, u64_try_from. destruct (in_u64 _); [|done]. cbn [ok_or]. intros Hd.
  destruct (map_err _ _) as [eid|]; [|done]. destruct (match row_run_id r with Some _ => _ | None => _ end); [|done].
  destruct (_ || _) in Hd; [done|]. destruct (payload_from_json _ _) as [p|]; [|done]. cbn [ok_or] in Hd.
  destruct (payload_fits _ _ _ _ _ _) as [[]|]; [|done]. destruct (negb _); [done|]. by injection Hd as <-.
Qed.

Lemma decode_page_exact id rows es a :
  decoded id rows es -> row_sequence <$> rows = seqZ (a + 1) (Z.of_nat (length rows)) ->
  0 <= a -> a + Z.of_nat (length rows) <= i64_max ->
  decode_page id a rows = Ok (es, a + Z.of_nat (length rows)).
Proof.
  intros Hd. revert a. induction Hd as [|r e rows es Hr _ IH]; intros a Hs Ha Hle; simpl.
  { by rewrite Z.add_0_r. }
  rewrite Hr. simpl in Hs, Hle. rewrite Nat2Z.inj_succ in *. rewrite seqZ_cons in Hs by lia.
  injection Hs as Hseq Hs. rewrite Z.pred_succ in Hs.
  rewrite (proj2 (checked_add_u64_Some a 1 (a + 1))) by (unfold u64_max, i64_max in *; lia). cbn [ok_or].
  rewrite (decode_event_sequence _ _ _ Hr), Hseq, Z.eqb_refl. simpl.
  rewrite IH by (done || lia). simpl. do 2 f_equal. lia.
Qed.

Lemma log_slice db a n :
  log_ok db -> 0 <= a -> (Z.to_nat a + n <= length (events db))%nat ->
  row_sequence <$> take n (drop (Z.to_nat a) (events db)) = seqZ (a + 1) (Z.of_nat n).
Proof.
  intros Hl Ha Hn. apply list_eq. intros i. rewrite list_lookup_fmap.
  destruct (decide (i < n)%nat) as [Hi|Hi].
  - rewrite lookup_take_lt, lookup_drop by done.
    destruct (lookup_lt_is_Some_2 (events db) (Z.to_nat a + i)) as [r Hr]; [lia|]. rewrite Hr. simpl.
    symmetry. apply lookup_seqZ. apply log_lookup in Hr; [|done]. lia.
  - rewrite lookup_take_ge by lia. symmetry. apply lookup_seqZ_ge. lia.
Qed.

(** The rows a page fetches, for a fixed upper bound. *)
Lemma page_unfold id after through limit db :
  sound db -> headed db -> 0 <= after <= through -> 1 <= through <= size db ->
  page id after (Some through) limit db =
    (let rows := take (Z.to_nat limit) (take (Z.to_nat (through - after)) (drop (Z.to_nat after) (events db))) in
     let has_more := Z.of_nat (length rows) =? limit in
     let? decoded := decode_page id after (take (Z.to_nat (limit - 1)) rows) in
     if negb has_more && negb (snd decoded =? through) then Err integrity
     else Ok {| hp_through_sequence := through; hp_next_after := snd decoded; hp_has_more := has_more;
                hp_records := fst decoded |}).
Proof.
  intros Hs Hh Ha Ht. pose proof (sound_length db Hs) as Hlen. fold (size db) in Hlen.
  unfold page, headed in *. destruct (manifest db) as [m|]; [|done]. injection Hh as Hh. cbn [ok_or].
  rewrite Hh, (as_u64_small (size db)) by (unfold u64_max, i64_max in *; lia).
  rewrite (as_i64_small after), (as_i64_small through) by lia.
  destruct (Z.ltb_spec (size db) 1), (Z.ltb_spec (size db) through), (Z.ltb_spec through after); try lia.
  rewrite <- (log_between db after through (sound_log db Hs) Ha (proj2 Ht)). done.
Qed.

(** History pages are exact.  In a sound session whose events decode, a page
    of [page_size] events after [after] up to [through] holds exactly the events
    numbered [after + 1], [after + 2], ... in order and without gaps, stops at the
    bound, says whether more follow, and its cursor is its last event. *)
Lemma page_exact id after through page_size limit db es :
  sound db -> headed db -> decoded id (events db) es ->
  1 <= page_size -> page_limit page_size = Ok limit ->
  0 <= after <= through -> 1 <= through <= size db ->
  let n := Z.min page_size (through - after) in
  page id after (Some through) limit db =
    Ok {| hp_through_sequence := through; hp_next_after := after + n;
          hp_has_more := page_size <? through - after;
          hp_records := take (Z.to_nat n) (drop (Z.to_nat after) es) |}.
Proof.
  intros Hs Hh Hd Hp Hl Ha Ht n. pose proof (sound_length db Hs) as Hlen. fold (size db) in Hlen.
  assert (limit = page_size + 1) as ->.
  { unfold page_limit in Hl. destruct (Z.eqb_spec page_size 0); [done|].
    destruct (checked_add_u64 page_size 1) as [z|] eqn:Hz; [|done]. apply checked_add_u64_Some in Hz as [-> _].
    apply ok_or_Ok in Hl. by apply i64_try_from_Some in Hl as [-> _]. }
  rewrite page_unfold by done. cbv zeta.
  replace (page_size + 1 - 1) with page_size by lia. set (rest := drop (Z.to_nat after) (events db)).
  assert (take (Z.to_nat page_size) (take (Z.to_nat (page_size + 1)) (take (Z.to_nat (through - after)) rest))
          = take (Z.to_nat n) rest) as Hmin by (rewrite !take_take; f_equal; lia).
  rewrite Hmin. unfold size in Ht.
  assert (length (take (Z.to_nat n) rest) = Z.to_nat n) as Hrows.
  { unfold rest. rewrite length_take, length_drop. lia. }
  rewrite (decode_page_exact id _ (take (Z.to_nat n) (drop (Z.to_nat after) es)) after).
  - rewrite Hrows, !length_take. unfold rest. rewrite length_drop. simpl. rewrite Z2Nat.id by lia.
    replace (_ =? page_size + 1) with (page_size <? through - after).
    + destruct (Z.ltb_spec page_size (through - after)); [done|]. simpl.
      destruct (Z.eqb_spec (after + n) through); [done | lia].
    + destruct (Z.ltb_spec page_size (through - after)); symmetry; [apply Z.eqb_eq | apply Z.eqb_neq]; lia.
  - unfold decoded. by apply Forall2_take, Forall2_drop.
  - unfold rest in *. rewrite log_slice, Hrows; [done|apply Hs|lia|lia].
  - lia.
  - rewrite Hrows. unfold size in Hlen. lia.
Qed.

(** A page with a fixed upper bound is a snapshot: in every later state of
    the session the same request returns the same page. *)
Lemma page_stable id after through limit db db' :
  sound db -> headed db -> evolves db db' -> sound db' -> headed db' ->
  0 <= after <= through -> 1 <= through <= size db ->
  page id after (Some through) limit db' = page id after (Some through) limit db.
Proof.
  intros Hs Hh He Hs' Hh' Ha Ht. destruct (evolves_events _ _ He) as [l Hl].
  assert (size db <= size db') as Hle by (unfold size; rewrite Hl, length_app; lia).
  rewrite !page_unfold by (done || lia). unfold size in *.
  rewrite Hl, drop_app_le, take_app_le by (rewrite ?length_drop; lia). done.
Qed.
End reads.

Section contents.
Context {D : Type} `{Display D} `{UuidLib} `{StorageSerde} {laws : StorageSerdeLaws}.
Implicit Types db : Db D.

(** The clock is past the epoch and the generated identifiers are canonical. *)
Definition clock_ok (clock : Clock) : Prop :=
  (forall t, now_ms clock = Ok t -> 0 <= t) /\
  forall n, parse_id (fresh_event_id clock n) = Ok (fresh_event_id clock n).

(** A row that reads as payload [p] of run [run]. *)
Definition shows (id : string) (run : option string) (r : EventRow) (p : StoredEventPayload) : Prop :=
  exists e, decode_event id r = Ok e /\ st_payload e = p /\ st_run_id e = run.

(** The log is that of [db0] and then events with the payloads [ps]. *)
Definition wrote (id : string) (run : option string) db0 (ps : list StoredEventPayload) db : Prop :=
  exists rows, events db = events db0 ++ rows /\ Forall2 (shows id run) rows ps.

Lemma wrote_start id run db : wrote id run db [] db.
Proof. exists []. by rewrite app_nil_r. Qed.

Lemma wrote_same id run db0 ps db db' : events db' = events db -> wrote id run db0 ps db -> wrote id run db0 ps db'.
Proof. intros He (rows & Hr & Hs). exists rows. by rewrite He. Qed.

Lemma row_shows id (run : option string) n event_id ts p json source :
  1 < n <= i64_max -> 0 <= ts -> parse_id event_id = Ok event_id ->
  (forall r, run = Some r -> parse_id r = Ok r) ->
  payload_to_json p = Some json ->
  payload_fits id n event_id ts run p = Ok tt ->
  source_fits p (ev_event_id <$> source) ((fun e => as_i64 (ev_sequence e)) <$> source) = true ->
  event_type p <> "session.created" ->
  shows id run {| row_sequence := n; row_event_id := event_id; row_event_type := event_type p;
    row_event_version := 1; row_created_at_ms := ts; row_run_id := run;
    row_source_event_id := ev_event_id <$> source;
    row_source_sequence := (fun e => as_i64 (ev_sequence e)) <$> source; row_payload_json := json |} p.
Proof using laws.
  intros Hn Hts Hid Hrun Hj Hfits Hsrc Hne. eexists. unfold decode_event. cbn -[bool_decide Z.eqb Z.ltb Bool.eqb].
  unfold u64_try_from. rewrite (proj2 (in_u64_spec n)) by (unfold u64_max, i64_max in *; lia). cbn [ok_or].
  rewrite Hid. cbn [map_err].
  assert (match run with
          | Some r => match map_err (parse_id r) (fun _ => integrity) with Ok r => Ok (Some r) | Err e => Err e end
          | None => Ok None
          end = Ok run) as ->.
  { destruct run as [r|]; [|done]. by rewrite (Hrun r eq_refl). }
  rewrite (bool_decide_eq_false_2 (event_type p = _)) by done.
  destruct (Z.eqb_spec n 1), (Z.eqb_spec n 0), (Z.ltb_spec i64_max n), (Z.ltb_spec ts 0); try lia. simpl.
  rewrite (payload_round _ _ Hj). cbn [ok_or]. rewrite Hfits. rewrite Hsrc. done.
Qed.

Lemma wrote_insert id run db0 ps p n row :
  shows id run row p -> row_sequence row = n ->
  yields (fun db => next n db /\ wrote id run db0 ps db) (insert_event_row row)
    (fun _ db => next (n + 1) db /\ wrote id run db0 (ps ++ [p]) db).
Proof.
  intros Hp Hrow db [Hn (rows & Hr & Hs)]. destruct (insert_event_row row db) as [[a|e] db'] eqn:Hi; [|done].
  apply insert_event_row_Ok in Hi as [_ ->]. destruct (next_insert db row n Hn Hrow) as [Hi Hn'].
  split; [done|]. exists (rows ++ [row]). split; [simpl; by rewrite Hi, Hr, app_assoc|].
  apply Forall2_app; [done|]. by constructor.
Qed.

(** ** Statements that leave the log alone *)
Definition quiet {A} (c : SM (Db D) StorageError A) : Prop :=
  forall db a db', c db = (Ok a, db') -> events db' = events db.

Lemma quiet_bind {A B} (c : SM (Db D) StorageError A) (k : A -> SM (Db D) StorageError B) :
  quiet c -> (forall a, quiet (k a)) -> quiet (bind c k).
Proof. intros Hc Hk db b db' Hb. unbind Hb. apply Hk in Hb. by rewrite Hb, (Hc _ _ _ Hc0). Qed.

Lemma quiet_ret {A} (a : A) : quiet (ret a).
Proof. by intros db x db' [= _ <-]. Qed.

Lemma quiet_throw {A} e : quiet (@throw (Db D) StorageError A e).
Proof. by intros db x db' Ht. Qed.

Lemma quiet_lift {A} (r : SResult A) : quiet (lift r).
Proof. intros db x db' Hl. by injection Hl as _ <-. Qed.

Lemma quiet_reads {A} (f : Db D -> SResult A) : quiet (reads f).
Proof. intros db x db' Hl. by injection Hl as _ <-. Qed.

Lemma quiet_apply n run input : quiet (apply n run input).
Proof. intros db x db' Ha. by apply apply_same in Ha as (-> & _). Qed.

Lemma quiet_update_run k f : quiet (update_run k f).
Proof. intros db x db' Hu. by apply update_run_Ok in Hu as [[_ ->]|(r & _ & _ & ->)]. Qed.

Lemma quiet_update_tool k f : quiet (update_tool k f).
Proof. intros db x db' Hu. by apply update_tool_Ok in Hu as [[_ ->]|(r & _ & ->)]. Qed.

Lemma quiet_insert_tool k t : quiet (insert_tool k t).
Proof. intros db x db' Hi. unfold insert_tool in Hi. unbind Hi. apply require_constraint_Ok in Hc as [_ ->]. by injection Hi as _ <-. Qed.

Lemma quiet_insert_run k t : quiet (insert_run k t).
Proof. intros db x db' Hi. unfold insert_run in Hi. unbind Hi. apply require_constraint_Ok in Hc as [_ ->]. by injection Hi as _ <-. Qed.

Lemma quiet_update_manifest f : quiet (update_manifest f).
Proof.
  intros db x db' Hu. unfold update_manifest in Hu. destruct (manifest db); [|by injection Hu as _ <-].
  unbind Hu. apply require_constraint_Ok in Hc as [_ ->]. by injection Hu as _ <-.
Qed.

Lemma quiet_insert_command c : quiet (insert_command c).
Proof. intros db x db' Hi. by apply insert_command_Ok in Hi as [-> _]. Qed.
End contents.

#[export] Hint Resolve quiet_ret quiet_throw quiet_lift quiet_reads quiet_apply quiet_update_run quiet_update_tool
  quiet_insert_tool quiet_insert_run quiet_update_manifest quiet_insert_command : quiet.

(** Split a program that never inserts an event. *)
Ltac quiet_auto :=
  repeat first
    [ solve [eauto with quiet]
    | apply quiet_bind; [|intros ?]
    | match goal with |- quiet (match ?x with _ => _ end) => destruct x end
    | match goal with |- quiet (if ?x then _ else _) => destruct x end ].

Section records.
Context {D : Type} `{Display D} `{UuidLib} `{StorageSerde} {laws : StorageSerdeLaws}.
Implicit Types db : Db D.

Lemma quiet_append_effect id run n json record : quiet (D := D) (append_effect id run n json record).
Proof. unfold append_effect, record_tool_event, require_outputs, terminalize. quiet_auto. Qed.

(** The record belongs to the run it is appended to. *)
Definition record_run (run : string) (record : AppendRunRecord) : Prop :=
  match record with
  | RProviderBinding binding => pb_run_id binding = run
  | RRuntime event => ev_run_id event = run
  | RToolResult _ _ _ _ => True
  | RResult result => res_run_id result = run
  end.

Lemma record_fits id n event_id ts run record :
  record_run run record -> validate_record record = Ok tt ->
  payload_fits id n event_id ts (Some run) (record_payload record) = Ok tt /\
  source_fits (record_payload record) (ev_event_id <$> record_source record)
    ((fun e => as_i64 (ev_sequence e)) <$> record_source record) = true /\
  event_type (record_payload record) <> "session.created".
Proof.
  intros Hr Hv. destruct record as [binding|event|request call output err|result]; simpl in *; subst.
  - by rewrite bool_decide_eq_true_2.
  - rewrite Hv. simpl. by rewrite !bool_decide_eq_true_2.
  - done.
  - by rewrite bool_decide_eq_true_2.
Qed.

(** What a successful effect says of its record and run. *)
Lemma append_effect_run id run n json record db run' db' :
  append_effect id run n json record db = (Ok run', db') ->
  rr_run_id run' = rr_run_id run /\
  (forall result, record = RResult result -> res_run_id result = rr_run_id run).
Proof.
  unfold append_effect. destruct record as [binding|event|request call output err|result]; intros Ha.
  - by injection Ha as <- _.
  - unbind Ha. injection Ha as <- _. split; [|done]. simpl. destruct (ev_event event); try by injection Hc as <- _.
    + unbind Hc. by injection Hc as <- _.
    + unbind Hc. unfold terminalize in Hc. unbind Hc. by injection Hc as <- _.
  - destruct (negb _); [done|]. unbind Ha. unbind Ha. destruct (_ || _); [done|]. unbind Ha. by injection Ha as <- _.
  - destruct (bool_decide_reflect (res_run_id result = rr_run_id run)) as [Heq|]; [|done]. simpl in Ha.
    destruct (is_some _); [done|]. unbind Ha. injection Ha as <- _. split; [|by intros ? [= <-]]. simpl.
    destruct (active (rr_state run)).
    + destruct (_ || _); [done|]. unbind Hc. unbind Hc. injection Hc as <- _.
      unfold terminalize in Hc1. unbind Hc1. by injection Hc1 as <- _.
    + do 3 unbind Hc. destruct (_ || _); [done|]. by injection Hc as <- _.
Qed.

Lemma append_wrote id run db0 ps clock n ts record :
  clock_ok clock -> 0 <= ts -> 1 < n <= i64_max -> parse_id (rr_run_id run) = Ok (rr_run_id run) ->
  validate_record record = Ok tt ->
  (forall event, record = RRuntime event -> ev_run_id event = rr_run_id run) ->
  yields (fun db => next n db /\ wrote id (Some (rr_run_id run)) db0 ps db)
    (append clock id run n ts record)
    (fun run' db => rr_run_id run' = rr_run_id run /\ next (n + 1) db /\
       wrote id (Some (rr_run_id run)) db0 (ps ++ [record_payload record]) db).
Proof using laws.
  intros [_ Hids] Hts Hn Hrun Hv Hrt db Hdb. destruct (append _ _ _ _ _ _ db) as [[run'|e] db'] eqn:Ha; [|done].
  unfold append in Ha. unbind Ha.
  assert (s = db /\ forall binding, record = RProviderBinding binding -> pb_run_id binding = rr_run_id run) as [-> Hb].
  { destruct record as [binding| | |]; try by injection Hc as _ <-. destruct (negb _); [done|].
    injection Hc as Hb <-. split; [done|]. intros ? [= <-]. unfold validate_binding in Hb.
    destruct (_ || _) eqn:Hor; [done|]. by prop_bools. }
  unbind Ha. injection Hc0 as Hj <-. apply ok_or_Ok in Hj. destruct (_ || _); [done|].
  unbind Ha. unbind Ha. pose proof (append_effect_run _ _ _ _ _ _ _ _ Hc1) as [Hid Hres].
  apply quiet_append_effect in Hc1.
  assert (record_run (rr_run_id run) record) as Hrr by (destruct record; simpl; eauto).
  destruct (record_fits id n (fresh_event_id clock n) ts _ record Hrr Hv) as (Hf & Hs & Hne).
  pose proof (row_shows id (Some (rr_run_id run)) n _ ts _ _ (record_source record) Hn Hts (Hids n)
    ltac:(by intros ? [= <-]) Hj Hf Hs Hne) as Hshow.
  pose proof (yields_Ok _ _ _ _ _ _ (wrote_insert id _ db0 ps _ n _ Hshow eq_refl) Hdb Hc0) as [Hn1 Hw].
  unbind Ha. apply quiet_update_run in Hc2. unbind Ha.
  assert (s2 = s1 /\ rr_run_id a4 = rr_run_id a2) as [-> Hid4].
  { destruct (negb _ && _); [|by injection Hc3 as <- <-]. unbind Hc3. injection Hc3 as <- <-. by injection Hc4 as _ <-. }
  unbind Ha. injection Hc4 as _ <-. unbind Ha. apply quiet_apply in Hc4. injection Ha as <- <-.
  split; [congruence|]. assert (events s2 = events s) as He by congruence.
  split; [|by eapply wrote_same]. destruct Hn1 as [Hl Hlen]. split; [|by rewrite He]. unfold log_ok in *. by rewrite He.
Qed.

Lemma validate_all_Forall {A} (check : A -> SResult unit) l :
  validate_all check l = Ok tt -> Forall (fun a => check a = Ok tt) l.
Proof.
  induction l as [|a l IH]; simpl; [done|]. destruct (check a) as [[]|] eqn:Ha; [|done]. intros Hl. by constructor; auto.
Qed.

Lemma admission_record r : validate_admission r = Ok tt -> validate_record r = Ok tt.
Proof. unfold validate_admission. by destruct (validate_record r) as [[]|]. Qed.

Lemma observe_run run event before c db c' :
  observe_correlation run event before c db = Ok c' -> ev_run_id event = rr_run_id run.
Proof. unfold observe_correlation. by destruct (bool_decide_reflect (ev_run_id event = rr_run_id run)). Qed.

Lemma append_all_wrote id db0 clock ts records rid :
  clock_ok clock -> 0 <= ts -> parse_id rid = Ok rid -> Forall (fun r => validate_record r = Ok tt) records ->
  forall ps n run c unbound, rr_run_id run = rid -> 1 < n -> n + Z.of_nat (length records) - 1 <= i64_max ->
  yields (fun db => next n db /\ wrote id (Some rid) db0 ps db)
    (append_all clock id ts run c unbound n records)
    (fun _ => wrote id (Some rid) db0 (ps ++ (record_payload <$> records))).
Proof using laws.
  intros Hclock Hts Hid Hall. induction Hall as [|record records Hr _ IH]; intros ps n run c unbound Hrun Hn Hlen; cbn [append_all].
  { apply yields_ret. intros db [_ Hw]. by rewrite app_nil_r. }
  set (P := fun db => next n db /\ wrote id (Some rid) db0 ps db). simpl in Hlen.
  apply yields_bind with (Q := fun _ => P); [apply yields_lift; auto|intros _].
  apply yields_bind with (Q := fun _ db => P db /\ forall event, record = RRuntime event -> ev_run_id event = rid).
  { destruct record as [|event| |]; try (apply yields_ret; by intros; split).
    intros db Hdb. unfold reads. destruct (observe_correlation _ _ _ _ _) as [c'|] eqn:Ho; [|done].
    split; [done|]. intros ? [= <-]. rewrite <- Hrun. by eapply observe_run. }
  intros c'.
  apply yields_bind with (Q := fun run' db => rr_run_id run' = rid /\ next (n + 1) db /\
    wrote id (Some rid) db0 (ps ++ [record_payload record]) db).
  { intros db [Hdb He]. subst rid.
    exact (append_wrote id run db0 ps clock n ts record Hclock Hts ltac:(lia) Hid Hr He db Hdb). }
  intros run'.
  replace (ps ++ (record_payload <$> record :: records))
    with ((ps ++ [record_payload record]) ++ (record_payload <$> records)) by by rewrite <- app_assoc.
  assert (forall c u, yields (fun db => rr_run_id run' = rid /\ next (n + 1) db /\
      wrote id (Some rid) db0 (ps ++ [record_payload record]) db)
    (append_all clock id ts run' c u (n + 1) records)
    (fun _ => wrote id (Some rid) db0 ((ps ++ [record_payload record]) ++ (record_payload <$> records)))) as Hrest.
  { intros c0 u db (Hrid & Hdb). apply (IH _ (n + 1) run' c0 u Hrid); [lia|lia|done]. }
  destruct record; apply Hrest.
Qed.

(** The payloads of a command, in the order of its records. *)
Definition payloads (owner run : string) (m : Mutation) : list StoredEventPayload :=
  let accepted input := RunAccepted {| ac_run_id := run; ac_input := input; ac_owner_instance_id := owner |} in
  match m with
  | Accept input => [accepted input]
  | AcceptHistory input selection =>
      [accepted input; RunHistorySelected {| sel_run_id := run; sel_selection := selection |}]
  | Append records => record_payload <$> records
  end.

Lemma next_same n db db' : events db' = events db -> next n db -> next n db'.
Proof. intros He [Hl Hn]. unfold next, log_ok in *. by rewrite He. Qed.

Lemma quiet_yields {A} n id run db0 ps (c : SM (Db D) StorageError A) :
  quiet c -> yields (fun db => next n db /\ wrote id run db0 ps db) c (fun _ db => next n db /\ wrote id run db0 ps db).
Proof.
  intros Hq db [Hn Hw]. destruct (c db) as [[a|e] db'] eqn:Hc; [|done]. apply Hq in Hc.
  split; [by eapply next_same | by eapply wrote_same].
Qed.

(** One inserted event of a run. *)
Lemma insert_event_wrote id db0 ps clock n ts run p json :
  clock_ok clock -> 0 <= ts -> 1 < n <= i64_max -> parse_id run = Ok run -> payload_to_json p = Some json ->
  payload_fits id n (fresh_event_id clock n) ts (Some run) p = Ok tt -> source_fits p None None = true ->
  event_type p <> "session.created" ->
  yields (fun db => next n db /\ wrote id (Some run) db0 ps db)
    (insert_event clock n ts run (event_type p) json None)
    (fun _ db => next (n + 1) db /\ wrote id (Some run) db0 (ps ++ [p]) db).
Proof using laws.
  intros [_ Hids] Hts Hn Hrun Hj Hf Hs Hne. eapply wrote_insert; [|done].
  apply (row_shows id (Some run) n _ ts p json None); try done. by intros ? [= <-].
Qed.

Lemma accept_wrote id db0 clock owner run first last ts input selection :
  clock_ok clock -> 0 <= ts -> parse_id run = Ok run -> 1 < first -> last <= i64_max ->
  match selection with
  | None => last = first
  | Some s => last = first + 1 /\ hs_through_sequence s = first - 1
  end ->
  yields (fun db => next first db /\ wrote id (Some run) db0 [] db)
    (accept clock owner run first last ts input selection)
    (fun _ => wrote id (Some run) db0
       (payloads owner run match selection with None => Accept input | Some s => AcceptHistory input s end)).
Proof using laws.
  intros Hclock Hts Hrun Hf Hl Hlast. unfold accept.
  assert (first <= i64_max) by (destruct selection; lia).
  set (P := fun db => next first db /\ wrote id (Some run) db0 [] db).
  do 2 (apply yields_bind with (Q := fun _ => P); [apply quiet_yields, quiet_reads|intros _]).
  set (p := RunAccepted _).
  apply yields_bind with (Q := fun json db => P db /\ payload_to_json p = Some json).
  { apply yields_lift. intros json db Hj Hdb. by apply ok_or_Ok in Hj. }
  intros json. set (P1 := fun db => next (first + 1) db /\ wrote id (Some run) db0 [p] db).
  apply yields_bind with (Q := fun _ => P1).
  { intros db [Hdb Hj]. refine (insert_event_wrote id db0 [] clock first ts run p json _ _ _ _ _ _ _ _ db Hdb); try done.
    simpl. by rewrite bool_decide_eq_true_2. }
  intros _. do 2 (apply yields_bind with (Q := fun _ => P1);
    [apply quiet_yields; eauto with quiet|intros _]).
  destruct selection as [s|]; [|apply yields_ret; by intros db []].
  destruct Hlast as [-> Hth]. set (q := RunHistorySelected _).
  apply yields_bind with (Q := fun json db => P1 db /\ payload_to_json q = Some json).
  { apply yields_lift. intros j db Hj Hdb. by apply ok_or_Ok in Hj. }
  intros j. set (P2 := fun db => next (first + 1 + 1) db /\ wrote id (Some run) db0 [p; q] db).
  apply yields_bind with (Q := fun _ => P2).
  { intros db [Hdb Hj]. refine (insert_event_wrote id db0 [p] clock (first + 1) ts run q j _ _ _ _ _ _ _ _ db Hdb); try done; [lia|].
    simpl. rewrite (proj2 (checked_add_u64_Some (hs_through_sequence s) 2 (first + 1))) by (unfold u64_max, i64_max in *; lia).
    by rewrite !bool_decide_eq_true_2. }
  intros _. eapply yields_conseq with (P' := P2); [apply quiet_yields; eauto with quiet|done|by intros ? db []].
Qed.

(** ** Whole commands *)
Lemma mutate_body_wrote clock provenance owner operation run mutation db receipt db' :
  sound db -> clock_ok clock -> parse_id run = Ok run ->
  mutate_body clock provenance owner operation run mutation db = (Ok (receipt, false), db') ->
  wrote (cp_session_id provenance) (Some run) db (payloads owner run mutation) db'.
Proof using laws.
  intros Hs Hclock Hrun Hb. unfold mutate_body in Hb. set (id := cp_session_id provenance) in *.
  unbind Hb. injection Hc as _ <-. unbind Hb. injection Hc as Hf <-. destruct a0 as [c|].
  { by apply replay_command_Ok in Hb as (? & _). }
  unbind Hb. injection Hc as Hv <-. apply validate_session_head in Hv as (m & Hm & _ & _ & Hhd & Hsz); [|done].
  rewrite Hhd in Hb. unbind Hb. injection Hc as Hstale <-. unbind Hb.
  assert (s = db /\ forall records, mutation = Append records -> Forall (fun r => validate_record r = Ok tt) records) as [-> Hall].
  { destruct mutation as [| |records]; try by injection Hc as _ <-. unbind Hc. injection Hc0 as Hva <-.
    unbind Hc. injection Hc0 as _ <-. unbind Hc. injection Hc0 as _ <-. injection Hc as _ <-. split; [done|].
    intros ? [= <-]. destruct a3. apply validate_all_Forall in Hva. eapply Forall_impl; [exact Hva|]. apply admission_record. }
  unbind Hb. injection Hc0 as Hr <-. apply sequence_range_Ok in Hr as (Hf1 & Hl1 & Hpos & Hmax); [|lia].
  destruct a3 as [first last]. simpl in Hf1, Hl1, Hmax, Hb. unbind Hb. injection Hc0 as Hts <-.
  apply (proj1 Hclock) in Hts. unbind Hb.
  assert (next first db /\ wrote id (Some run) db [] db) as Hstart.
  { split; [|apply wrote_start]. subst first. apply under_start. done. }
  assert (wrote id (Some run) db (payloads owner run mutation) s) as Hw.
  { destruct mutation as [input|input selection|records].
    - refine (yields_Ok _ _ _ _ _ _ (accept_wrote id db clock owner run first last _ input None Hclock Hts Hrun _ _ _) Hstart Hc0);
        simpl in *; lia.
    - refine (yields_Ok _ _ _ _ _ _ (accept_wrote id db clock owner run first last _ input (Some selection) Hclock Hts Hrun _ _ _) Hstart Hc0);
        simpl in *; try lia. destruct (Z.eqb_spec (size db) (hs_through_sequence selection)); [lia|done].
    - unbind Hc0. injection Hc1 as Hrr <-. unbind Hc0. injection Hc1 as Hsome <-. apply ok_or_Ok in Hsome as ->.
      unbind Hc0. injection Hc1 as _ <-. unbind Hc0. injection Hc1 as _ <-. unbind Hc0.
      assert (s0 = db) as ->.
      { destruct (is_some _) in Hc1; [unbind Hc1; injection Hc1 as _ <-; by injection Hc2 as _ <- | by injection Hc1 as _ <-]. }
      apply run_record_mirrors in Hrr as [_ Hid]; [|done].
      refine (yields_Ok _ _ _ _ _ _ (append_all_wrote id db clock _ records run Hclock Hts Hrun (Hall _ eq_refl)
                [] first _ _ _ Hid _ _) Hstart Hc0); simpl in *; lia. }
  unbind Hb. injection Hc1 as _ <-. unbind Hb. apply quiet_update_manifest in Hc1.
  unbind Hb. injection Hc2 as _ <-. unbind Hb. apply quiet_insert_command in Hc2. injection Hb as _ <-.
  eapply wrote_same; [|exact Hw]. congruence.
Qed.

Lemma rename_body_wrote clock provenance operation title db receipt db' :
  sound db -> clock_ok clock ->
  rename_body clock provenance operation title db = (Ok (receipt, false), db') ->
  wrote (cp_session_id provenance) None db [SessionRenamed title] db'.
Proof using laws.
  intros Hs Hclock Hb. unfold rename_body in Hb. set (id := cp_session_id provenance) in *.
  unbind Hb. injection Hc as _ <-. unbind Hb. injection Hc as Hf <-. destruct a0 as [c|].
  { destruct (_ || _) in Hb; [done|]. by destruct (_ || _) in Hb. }
  unbind Hb. injection Hc as Hv <-. apply validate_session_head in Hv as (m & Hm & _ & _ & Hhd & Hsz); [|done].
  rewrite Hhd in Hb. unbind Hb. injection Hc as Hn <-. apply next_sequence_Ok in Hn as [-> Hn]; [|lia].
  unbind Hb. injection Hc as _ <-. unbind Hb. injection Hc as Hts <-. apply (proj1 Hclock) in Hts.
  unbind Hb. injection Hc as Hj <-. apply ok_or_Ok in Hj. unbind Hb.
  assert (payload_fits id (size db + 1) (fresh_event_id clock (size db + 1)) a2 None (SessionRenamed title) = Ok tt) as Hfit.
  { simpl. by destruct (Z.eqb_spec (size db + 1) 1); [lia|]. }
  pose proof (row_shows id None (size db + 1) _ a2 _ _ None ltac:(lia) Hts (proj2 Hclock _)
    ltac:(done) Hj Hfit eq_refl ltac:(done)) as Hshow.
  assert (next (size db + 1) db /\ wrote id None db [] db) as Hstart.
  { split; [|apply wrote_start]. by apply under_start. }
  pose proof (yields_Ok _ _ _ _ _ _ (wrote_insert id None db [] _ _ _ Hshow eq_refl) Hstart Hc) as W.
  destruct W as [_ Hw]. unbind Hb. apply quiet_update_manifest in Hc0. unbind Hb. apply quiet_apply in Hc1.
  unbind Hb. injection Hc2 as _ <-. unbind Hb. apply quiet_insert_command in Hc2. injection Hb as _ <-.
  eapply wrote_same; [|exact Hw]. congruence.
Qed.

Lemma reconcile_body_wrote clock provenance owner db a db' :
  sound db -> clock_ok clock -> reconcile_body clock provenance owner db = (Ok a, db') ->
  db' = db \/ exists k r, runs db !! k = Some r /\ run_owner_instance_id r <> owner /\
    wrote (cp_session_id provenance) (Some k) db [RunInterrupted {| in_run_id := k |}] db'.
Proof using laws.
  intros Hs Hclock Hb. unfold reconcile_body in Hb. set (id := cp_session_id provenance) in *.
  unbind Hb. injection Hc as Hv <-. apply validate_session_head in Hv as (m & Hm & _ & _ & Hhd & Hsz); [|done].
  unbind Hb. injection Hc as <- <-. destruct (select_runs _ db) as [|[k r] l] eqn:Hsel;
    [left; by injection Hb as _ <-|right]. apply stale_head in Hsel as (Hrk & _ & Hne).
  unbind Hb. injection Hc as Hp <-. apply map_err_Ok in Hp.
  assert (parse_id k = Ok k) as Hpk.
  { unfold parse_id in *. destruct (parse_str k); [|done]. cbn [ok_or] in *. by destruct (_ || _) in *. }
  assert (a1 = k) as ->.
  { unfold parse_id in Hp. destruct (parse_str k); [|done]. cbn [ok_or] in Hp.
    destruct (_ || _) in Hp; [done|]. by injection Hp. }
  do 2 (unbind Hb; injection Hc as _ <-). unbind Hb. injection Hc as Hn <-. rewrite Hhd in Hn.
  apply next_sequence_Ok in Hn as [-> Hn]; [|lia]. unbind Hb. injection Hc as Hts <-. apply (proj1 Hclock) in Hts.
  unbind Hb. injection Hc as Hj <-. apply ok_or_Ok in Hj. unbind Hb.
  assert (next (size db + 1) db /\ wrote id (Some k) db [] db) as Hstart.
  { split; [|apply wrote_start]. by apply under_start. }
  assert (payload_fits id (size db + 1) (fresh_event_id clock (size db + 1)) a3 (Some k)
            (RunInterrupted {| in_run_id := k |}) = Ok tt) as Hfit by (simpl; by rewrite bool_decide_eq_true_2).
  pose proof (yields_Ok _ _ _ _ _ _ (insert_event_wrote id db [] clock (size db + 1) _ k _ _ Hclock Hts ltac:(lia) Hpk Hj
    Hfit eq_refl ltac:(done)) Hstart Hc) as W.
  destruct W as [_ Hw]. unbind Hb. apply quiet_update_run in Hc0. unbind Hb. apply quiet_update_manifest in Hc1.
  apply quiet_apply in Hb. exists k, r. split_and!; [done..|]. eapply wrote_same; [|exact Hw]. congruence.
Qed.

(** ** Claims *)

(** C35. What was recorded is what is read back.  When an accept or append changed
    the session, the events it added decode, in order, to exactly the payloads of
    the command - the accepted input and its history selection, or one payload
    per appended record - each attributed to the command's run; and the events
    that were there before are still there before them. *)
Theorem mutate_writes_records fate clock provenance owner operation run mutation db r db' :
  sound db -> clock_ok clock -> parse_id run = Ok run ->
  mutate fate clock provenance owner operation run mutation db = (r, db') -> db' <> db ->
  wrote (cp_session_id provenance) (Some run) db (payloads owner run mutation) db'.
Proof using laws.
  intros Hs Hclock Hrun Ht Hne. apply transaction_inv in Ht as [(e & _ & ->)|([receipt dup] & db1 & Hb & Hr)]; [done|].
  assert (db1 = db') as -> by naive_solver. destruct dup.
  - apply mutate_body_spec in Hb as (hash & _ & -> & _); done.
  - by eapply mutate_body_wrote.
Qed.

(** Every row of the log decodes. *)
Definition readable (id : string) db : Prop := Forall (fun r => is_ok (decode_event id r) = true) (events db).

Lemma wrote_readable id run db ps db' : wrote id run db ps db' -> readable id db -> readable id db'.
Proof.
  intros (rows & He & Hs) Hr. unfold readable. rewrite He. apply Forall_app. split; [done|].
  clear He Hr. induction Hs as [|r p rows ps (e & He & _) _ IH]; constructor; [by rewrite He | done].
Qed.

(** What the surroundings give an attempt. *)
Definition attempt_ok (a : Attempt) : Prop :=
  clock_ok (at_clock a) /\
  match at_request a with Mutate _ run _ => parse_id run = Ok run | _ => True end.

Lemma attempt_readable provenance a db :
  sound db -> attempt_ok a -> readable (cp_session_id provenance) db ->
  readable (cp_session_id provenance) (attempt provenance a db).
Proof using laws.
  intros Hs [Hclock Hrun] Hr. unfold attempt. destruct (at_request a) as [operation title|operation run mutation|].
  - apply (transaction_keeps _ _ _ (readable (cp_session_id provenance))); [done|]. intros [receipt dup] db1 Hb. destruct dup.
    + by apply rename_body_spec in Hb as (q & _ & -> & _).
    + by eapply wrote_readable; [eapply rename_body_wrote|].
  - apply (transaction_keeps _ _ _ (readable (cp_session_id provenance))); [done|]. intros [receipt dup] db1 Hb. destruct dup.
    + by apply mutate_body_spec in Hb as (q & _ & -> & _).
    + by eapply wrote_readable; [eapply mutate_body_wrote|].
  - apply (transaction_keeps _ _ _ (readable (cp_session_id provenance))); [done|]. intros x db1 Hb.
    apply reconcile_body_wrote in Hb as [->|(k & q & _ & _ & Hw)]; [done|by eapply wrote_readable|done|done].
Qed.

(** No command ever writes an event that cannot be read.  Starting from a
    session whose events all decode, they all decode after any sequence of
    attempts, provided clocks are past the epoch and identifiers canonical. *)
Lemma commands_readable provenance l db :
  sound db -> Forall attempt_ok l -> readable (cp_session_id provenance) db ->
  readable (cp_session_id provenance) (attempts provenance l db).
Proof using laws.
  intros Hs Hl. revert db Hs. induction Hl as [|a l Ha _ IH]; intros db Hs Hr; simpl; [done|].
  apply IH; [by apply attempt_keeps | by apply attempt_readable].
Qed.
End records.
