(* ===== verification/Prefix.v ===== *)
(** * Digests of history prefixes (src/src/storage/history_prefix.rs)

    A digest covers the canonical rows of the log up to a sequence; digests
    recorded earlier are checked on the way.  Recorded digests stay valid because
    the prefix never changes. *)
From S2P Require Import Prelude Json Errors Identifiers Provider Tools Replay RunData Hoare Records Store History Session RunStore StoreSafety StoreCommands StoreContents.

(** The canonical JSON of a row (its payload decoded and written again), and the
    size of a SHA-256 digest. *)
Class RowSerde := { canonical_row : EventRow -> option string }.
Class DigestLength `{StorageSerde} : Prop := { sha256_length t : String.length (sha256 t) = 32%nat }.

(** [hex]. *)
Definition hex_digit (n : nat) : ascii :=
  Ascii.ascii_of_nat (if Nat.ltb n 10 then 48 + n else 87 + n).
Fixpoint hex (bytes : string) : string :=
  match bytes with
  | EmptyString => EmptyString
  | String b rest =>
      let n := Ascii.nat_of_ascii b in
      String (hex_digit (n / 16)) (String (hex_digit (n mod 16)) (hex rest))
  end.

(** [u64::to_be_bytes]: the last [k] base-256 digits. *)
Fixpoint be_bytes (k : nat) (n : Z) : string :=
  match k with
  | O => EmptyString
  | S k => String.append (be_bytes k (n / 256)) (String (Ascii.ascii_of_nat (Z.to_nat (n mod 256))) EmptyString)
  end.

Section prefix.
Context {D : Type} `{StorageSerde} `{RowSerde}.
Implicit Types db : Db D.

(** The loop over the checkpoints. *)
Fixpoint expected_digests (through : Z) (known : gmap Z string) (checkpoints : list (Z * string))
  : SResult (gmap Z string) :=
  match checkpoints with
  | [] => Ok known
  | (sequence, digest) :: rest =>
      if (sequence =? 0) || (through <? sequence) || negb (valid_digest digest) then Err integrity
      else if is_some_and (known !! sequence) (fun old => negb (bool_decide (old = digest))) then Err integrity
      else expected_digests through (<[sequence := digest]> known) rest
  end.

Definition prefix_start : string := String.append "wi.history-prefix.v1" (String (Ascii.ascii_of_nat 0) EmptyString).

(** What one row adds to the digested bytes. *)
Definition framed (json : string) : string := String.append (be_bytes 8 (len json)) json.

(** The loop over the rows: the bytes digested so far and the last sequence. *)
Fixpoint digest_rows (expected : gmap Z string) (context : string) (sequence : Z) (rows : list EventRow)
  : SResult (string * Z) :=
  match rows with
  | [] => Ok (context, sequence)
  | row :: rows =>
      let sequence := sequence + 1 in
      if negb (as_u64 (row_sequence row) =? sequence) then Err integrity
      else
        let? json := ok_or (canonical_row row) integrity in
        let context := String.append context (framed json) in
        if is_some_and (expected !! sequence) (fun digest => negb (bool_decide (hex (sha256 context) = digest)))
        then Err integrity
        else digest_rows expected context sequence rows
  end.

(** [digest]. *)
Definition prefix_digest (through : Z) (checkpoints : list (Z * string)) db : SResult string :=
  if (through =? 0) || (i64_max <? through) then Err invalid
  else
    let? expected := expected_digests through ∅ checkpoints in
    let? m := ok_or (manifest db) (storage_error StorageErrorKind.NotFound) in
    let head := mf_head_sequence m in
    if (head <? 1) || (as_u64 head <? through) then Err invalid
    else
      let? r := digest_rows expected prefix_start 0
                  (List.filter (fun row => row_sequence row <=? as_i64 through) (events db)) in
      if negb (snd r =? through) then Err integrity else Ok (hex (sha256 (fst r))).

(** ** The digested bytes *)

(** The bytes of a sequence of rows that have canonical forms. *)
Fixpoint row_bytes (rows : list EventRow) : option string :=
  match rows with
  | [] => Some EmptyString
  | row :: rows => json ← canonical_row row; rest ← row_bytes rows; Some (String.append (framed json) rest)
  end.

(** Every checkpoint a loop passes is the digest of the rows up to it. *)
Definition checked (expected : gmap Z string) (context : string) (sequence : Z) (rows : list EventRow) : Prop :=
  forall n digest bytes, (0 < n <= length rows)%nat -> expected !! (sequence + Z.of_nat n) = Some digest ->
    row_bytes (take n rows) = Some bytes -> hex (sha256 (String.append context bytes)) = digest.

Lemma checked_cons expected context sequence row json rows :
  canonical_row row = Some json ->
  checked expected context sequence (row :: rows) <->
  (forall digest, expected !! (sequence + 1) = Some digest ->
     hex (sha256 (String.append context (framed json))) = digest) /\
  checked expected (String.append context (framed json)) (sequence + 1) rows.
Proof.
  intros Hj. split.
  - intros Hc. split.
    + intros digest Hd. rewrite <- (append_empty (framed json)). apply (Hc 1%nat); [simpl; lia|done|].
      simpl. by rewrite Hj.
    + intros n digest bytes Hn Hd Hb. rewrite append_assoc. apply (Hc (S n)); [simpl; lia| |simpl; by rewrite Hj, Hb].
      rewrite <- Hd. f_equal. lia.
  - intros [H1 Hr] n digest bytes Hn Hd Hb. destruct n as [|n]; [lia|]. simpl in Hb. rewrite Hj in Hb. simpl in Hb.
    destruct (row_bytes (take n rows)) as [rest|] eqn:Hrest; [|done]. injection Hb as <-. rewrite <- append_assoc.
    destruct n as [|n].
    + injection Hrest as <-. rewrite append_empty. by apply H1.
    + apply (Hr (S n)); [simpl in Hn; lia| |done]. rewrite <- Hd. f_equal. lia.
Qed.

(** The loop succeeds exactly when every row has a canonical form and every
    checkpoint agrees, with the bytes of all rows. *)
Lemma digest_rows_exact expected context sequence rows :
  0 <= sequence -> sequence + Z.of_nat (length rows) <= i64_max ->
  row_sequence <$> rows = seqZ (sequence + 1) (Z.of_nat (length rows)) ->
  match digest_rows expected context sequence rows with
  | Ok r => exists bytes, row_bytes rows = Some bytes /\ checked expected context sequence rows /\
              r = (String.append context bytes, sequence + Z.of_nat (length rows))
  | Err e => e = integrity /\ ~ (is_some (row_bytes rows) = true /\ checked expected context sequence rows)
  end.
Proof.
  revert context sequence. induction rows as [|row rows IH]; intros context sequence Hs Hle Hseq.
  { exists EmptyString. split; [done|]. split; [|by simpl; rewrite append_empty, Z.add_0_r].
    intros n digest bytes Hn. simpl in Hn. lia. }
  simpl length in *. rewrite Nat2Z.inj_succ in *. rewrite fmap_cons, seqZ_cons in Hseq by lia.
  injection Hseq as Hrow Hseq. rewrite Z.pred_succ in Hseq. cbn [digest_rows row_bytes].
  rewrite Hrow, as_u64_small, Z.eqb_refl by (unfold u64_max, i64_max in *; lia). simpl negb. cbv iota.
  destruct (canonical_row row) as [json|] eqn:Hj; cbn [ok_or]; [|by split; [done|]; intros []].
  pose proof (checked_cons expected context sequence row json rows Hj) as Hcc.
  specialize (IH (String.append context (framed json)) (sequence + 1) ltac:(lia) ltac:(lia) Hseq).
  destruct (is_some_and _ _) eqn:Hck.
  { split; [done|]. intros [_ [H1 _]%Hcc]. destruct (expected !! (sequence + 1)) as [d|]; [|done]. simpl in Hck.
    by rewrite bool_decide_eq_true_2 in Hck by (by apply H1). }
  assert (forall digest, expected !! (sequence + 1) = Some digest ->
     hex (sha256 (String.append context (framed json))) = digest) as H1.
  { intros d Hd. rewrite Hd in Hck. simpl in Hck. by prop_bools. }
  destruct (digest_rows _ _ _ rows) as [r|e].
  - destruct IH as (bytes & Hb & Hc & ->). exists (String.append (framed json) bytes). rewrite Hb. split; [done|].
    split; [by apply Hcc|]. rewrite append_assoc. f_equal. lia.
  - destruct IH as [-> Hno]. split; [done|]. intros [Hb [_ Hc]%Hcc]. apply Hno. split; [|done].
    simpl in Hb. by destruct (row_bytes rows).
Qed.

Lemma hex_valid bytes : bytes_all (fun b => is_ascii_digit b || byte_in 97 102 b) (hex bytes) = true.
Proof.
  induction bytes as [|b bytes IH]; [done|]. cbn [hex bytes_all].
  assert (forall n, (n < 16)%nat -> is_ascii_digit (hex_digit n) || byte_in 97 102 (hex_digit n) = true) as Hd.
  { intros n Hn. do 16 (destruct n as [|n]; [done|]). lia. }
  pose proof (Ascii.nat_ascii_bounded b). rewrite !Hd, IH; [done|..].
  - apply Nat.mod_upper_bound. lia.
  - apply Nat.Div0.div_lt_upper_bound. lia.
Qed.

Lemma hex_length bytes : String.length (hex bytes) = (2 * String.length bytes)%nat.
Proof. induction bytes as [|b bytes IH]; [done|]. cbn [hex String.length]. rewrite IH. lia. Qed.

Lemma digest_valid `{!DigestLength} context : valid_digest (hex (sha256 context)) = true.
Proof. unfold valid_digest, len. by rewrite hex_length, sha256_length, hex_valid. Qed.

Lemma prefix_rows db through :
  log_ok db -> 0 <= through <= size db ->
  List.filter (fun row => row_sequence row <=? through) (events db) = take (Z.to_nat through) (events db).
Proof.
  intros Hl Ht. pose proof (log_between db 0 through Hl ltac:(lia) ltac:(lia)) as Hb.
  rewrite Z.sub_0_r in Hb. change (drop (Z.to_nat 0) (events db)) with (events db) in Hb.
  rewrite <- Hb. apply List.filter_ext_in. intros r Hr.
  apply list_elem_of_In in Hr. pose proof (log_ok_bound db r Hl Hr). unfold between.
  by destruct (Z.ltb_spec 0 (row_sequence r)); [|lia].
Qed.

(** What [digest] computes in a sound session. *)
Lemma prefix_digest_spec through checkpoints expected db :
  sound db -> headed db -> 1 <= through <= size db -> expected_digests through ∅ checkpoints = Ok expected ->
  let rows := take (Z.to_nat through) (events db) in
  match prefix_digest through checkpoints db with
  | Ok d => exists bytes, row_bytes rows = Some bytes /\ checked expected prefix_start 0 rows /\
              d = hex (sha256 (String.append prefix_start bytes))
  | Err e => e = integrity /\ ~ (is_some (row_bytes rows) = true /\ checked expected prefix_start 0 rows)
  end.
Proof.
  intros Hs Hh Ht He rows. pose proof (sound_length db Hs) as Hlen. fold (size db) in Hlen.
  unfold prefix_digest, headed in *. rewrite He. destruct (manifest db) as [m|]; [|done]. injection Hh as Hh. cbn [ok_or].
  rewrite Hh, (as_u64_small (size db)) by (unfold u64_max, i64_max in *; lia). rewrite (as_i64_small through) by lia.
  rewrite prefix_rows by (apply Hs || lia). fold rows.
  destruct (Z.eqb_spec through 0), (Z.ltb_spec i64_max through), (Z.ltb_spec (size db) 1), (Z.ltb_spec (size db) through);
    try lia. cbn [orb].
  assert (Z.of_nat (length rows) = through) as Hrows by (unfold rows, size in *; rewrite length_take; lia).
  assert (row_sequence <$> rows = seqZ (0 + 1) (Z.of_nat (length rows))) as Hseq.
  { pose proof (log_slice db 0 (Z.to_nat through) (sound_log db Hs)) as Hsl.
    change (drop (Z.to_nat 0) (events db)) with (events db) in Hsl. fold rows in Hsl.
    rewrite Hsl, Hrows; [f_equal; lia|lia|]. unfold size in *. lia. }
  pose proof (digest_rows_exact expected prefix_start 0 rows ltac:(lia) ltac:(lia)) as Hd.
  destruct (digest_rows _ _ _ rows) as [r|e].
  - destruct (Hd Hseq) as (bytes & Hb & Hc & ->).
    cbn [fst snd]. rewrite Hrows, Z.add_0_l, Z.eqb_refl. cbn [negb]. by exists bytes.
  - by apply Hd.
Qed.

Lemma expected_none through : expected_digests through ∅ [] = Ok ∅.
Proof. done. Qed.

Lemma expected_one through n digest :
  1 <= n <= through -> valid_digest digest = true ->
  expected_digests through ∅ [(n, digest)] = Ok {[n := digest]}.
Proof.
  intros Hn Hv. cbn [expected_digests]. rewrite Hv, lookup_empty.
  destruct (Z.eqb_spec n 0), (Z.ltb_spec through n); try lia. done.
Qed.

(** A recorded digest vouches for its prefix.  If the digest of the first
    [n] events was [d] at some time, then at any later time, for any longer
    prefix, the checkpoint [(n, d)] is accepted and changes nothing, and any other
    digest for [n] is refused as an integrity failure. *)
Lemma checkpoint_exact `{!DigestLength} n through d d' db db' :
  sound db -> headed db -> evolves db db' -> sound db' -> headed db' ->
  1 <= n <= size db -> n <= through <= size db' ->
  prefix_digest n [] db = Ok d -> prefix_digest through [] db' = Ok d' ->
  prefix_digest through [(n, d)] db' = Ok d' /\
  forall other, other <> d -> prefix_digest through [(n, other)] db' = Err integrity.
Proof.
  intros Hs Hh Hev Hs' Hh' Hn Ht Hd Hd'.
  pose proof (prefix_digest_spec n [] _ db Hs Hh Hn (expected_none n)) as Hd1. rewrite Hd in Hd1.
  destruct Hd1 as (bytes & Hb & _ & ->).
  pose proof (prefix_digest_spec through [] _ db' Hs' Hh' ltac:(lia) (expected_none through)) as Hd2. rewrite Hd' in Hd2.
  destruct Hd2 as (bytes' & Hb' & _ & Heq').
  set (rows := take (Z.to_nat through) (events db')) in *.
  assert (take (Z.to_nat n) rows = take (Z.to_nat n) (events db)) as Htake.
  { destruct (evolves_events _ _ Hev) as [l Hl]. unfold rows. rewrite take_take, Hl, take_app_le.
    - f_equal. lia.
    - unfold size in *. lia. }
  assert (forall x, checked {[n := x]} prefix_start 0 rows <-> x = hex (sha256 (String.append prefix_start bytes))) as Hck.
  { intros x. split.
    - intros Hc. symmetry. apply (Hc (Z.to_nat n)).
      + unfold rows, size in *. rewrite length_take. lia.
      + rewrite Z.add_0_l, Z2Nat.id by lia. apply lookup_singleton_eq.
      + by rewrite Htake.
    - intros -> k digest bs Hk Hx Hbs. apply lookup_singleton_Some in Hx as [Hx <-].
      replace k with (Z.to_nat n) in Hbs by lia. rewrite Htake in Hbs. congruence. }
  split.
  - pose proof (prefix_digest_spec through _ _ db' Hs' Hh' ltac:(lia)
      (expected_one through n _ ltac:(lia) (digest_valid (String.append prefix_start bytes)))) as Hd3.
    cbv zeta in Hd3. fold rows in Hd3. destruct (prefix_digest through [_] db') as [x|e].
    + destruct Hd3 as (b3 & Hb3 & _ & ->). congruence.
    + destruct Hd3 as [_ Hno]. destruct Hno. rewrite Hb'. split; [done|]. by apply Hck.
  - intros other Hne. destruct (valid_digest other) eqn:Hv.
    + pose proof (prefix_digest_spec through _ _ db' Hs' Hh' ltac:(lia) (expected_one through n other ltac:(lia) Hv)) as Hd3.
      cbv zeta in Hd3. fold rows in Hd3. destruct (prefix_digest through [_] db') as [x|e]; [|by destruct Hd3 as [-> _]].
      destruct Hd3 as (b3 & _ & Hc & _). by apply Hck in Hc.
    + unfold prefix_digest. destruct (Z.eqb_spec through 0), (Z.ltb_spec i64_max through); try lia;
        pose proof (sound_length db' Hs'); unfold size in *; try lia.
      cbn [orb expected_digests]. by rewrite Hv, orb_true_r.
Qed.
End prefix.
