(* ===== verification/StoreExamples.v ===== *)
(** * A concrete session

    A session that is created, accepts a run, records it and is taken over by a
    second process: the hypotheses of the theorems about the store hold of it. *)
From S2P Require Import Prelude Json Errors Identifiers Provider Tools Replay RunData Hoare Records Store History Session RunStore StoreSafety StoreCommands StoreGuarantees StoreContents Prefix.

(** * Decidable equality of the recorded data

    Every value the storage records can be compared; nested JSON values first. *)

#[export] Instance Number_eq_dec : EqDecision Number.
Proof. solve_decision. Defined.

Fixpoint value_eq_dec (x y : Value) {struct x} : Decision (x = y).
Proof.
  refine match x, y with
         | Null, Null => left eq_refl
         | VBool a, VBool b => cast_if (decide (a = b))
         | VNumber a, VNumber b => cast_if (decide (a = b))
         | VString a, VString b => cast_if (decide (a = b))
         | VArray l, VArray l' => cast_if (@list_eq_dec _ value_eq_dec l l')
         | VObject l, VObject l' => cast_if (@list_eq_dec _ (@prod_eq_dec _ _ _ value_eq_dec) l l')
         | _, _ => right _
         end; congruence.
Defined.
#[export] Existing Instance value_eq_dec.

#[export] Instance Transport_eq_dec : EqDecision Transport.
Proof. solve_decision. Defined.
#[export] Instance ToolDefinition_eq_dec : EqDecision ToolDefinition.
Proof. solve_decision. Defined.
#[export] Instance SessionOptions_eq_dec : EqDecision SessionOptions.
Proof. solve_decision. Defined.
#[export] Instance RunRequest_eq_dec : EqDecision RunRequest.
Proof. solve_decision. Defined.
#[export] Instance FunctionCall_eq_dec : EqDecision FunctionCall.
Proof. solve_decision. Defined.
#[export] Instance OutputItem_eq_dec : EqDecision OutputItem.
Proof. solve_decision. Defined.
#[export] Instance Usage_eq_dec : EqDecision Usage.
Proof. solve_decision. Defined.
#[export] Instance OutputProvenance_eq_dec : EqDecision OutputProvenance.
Proof. solve_decision. Defined.
#[export] Instance ModelResponse_eq_dec : EqDecision ModelResponse.
Proof. solve_decision. Defined.
#[export] Instance DeltaKind_eq_dec : EqDecision DeltaKind.
Proof. solve_decision. Defined.
#[export] Instance ProviderEvent_eq_dec : EqDecision ProviderEvent.
Proof. solve_decision. Defined.
#[export] Instance EventEnvelope_eq_dec : EqDecision EventEnvelope.
Proof. solve_decision. Defined.
#[export] Instance ToolExecutionEvent_eq_dec : EqDecision ToolExecutionEvent.
Proof. solve_decision. Defined.
#[export] Instance RunSummary_eq_dec : EqDecision RunSummary.
Proof. solve_decision. Defined.
#[export] Instance RunResult_eq_dec : EqDecision RunResult.
Proof. solve_decision. Defined.
#[export] Instance TurnOutcome_eq_dec : EqDecision TurnOutcome.
Proof. solve_decision. Defined.
#[export] Instance RunEvent_eq_dec : EqDecision RunEvent.
Proof. solve_decision. Defined.
#[export] Instance RunEventEnvelope_eq_dec : EqDecision RunEventEnvelope.
Proof. solve_decision. Defined.
#[export] Instance RecordedRunInput_eq_dec : EqDecision RecordedRunInput.
Proof. solve_decision. Defined.
#[export] Instance RecordedProviderBinding_eq_dec : EqDecision RecordedProviderBinding.
Proof. solve_decision. Defined.
#[export] Instance CreatedPayload_eq_dec : EqDecision CreatedPayload.
Proof. solve_decision. Defined.
#[export] Instance AcceptedPayload_eq_dec : EqDecision AcceptedPayload.
Proof. solve_decision. Defined.
#[export] Instance HistorySelectedPayload_eq_dec : EqDecision HistorySelectedPayload.
Proof. solve_decision. Defined.
#[export] Instance ToolResultPayload_eq_dec : EqDecision ToolResultPayload.
Proof. solve_decision. Defined.
#[export] Instance InterruptedPayload_eq_dec : EqDecision InterruptedPayload.
Proof. solve_decision. Defined.
#[export] Instance StoredEventPayload_eq_dec : EqDecision StoredEventPayload.
Proof. solve_decision. Defined.

(** ** A serialization by table *)
Section table.
Context {A : Type} `{EqDecision A} (table : list (string * A)).

Definition encode (a : A) : option string := fst <$> find (fun x => bool_decide (snd x = a)) table.
Definition decode (t : string) : option A := snd <$> find (fun x => bool_decide (fst x = t)) table.

Lemma encode_decode a t : NoDup (fst <$> table) -> encode a = Some t -> decode t = Some a.
Proof.
  unfold encode, decode. induction table as [|[u b] l IH]; simpl; [done|]. intros [Hn Hl]%NoDup_cons.
  destruct (bool_decide_reflect (b = a)) as [->|_]; simpl.
  - intros [= ->]. by rewrite bool_decide_eq_true_2.
  - intros Ht. destruct (bool_decide_reflect (u = t)) as [->|_]; [|by apply IH]. destruct Hn.
    destruct (find _ l) as [[v c]|] eqn:Hf; [|done]. injection Ht as <-.
    apply find_some in Hf as [Hin _]. apply list_elem_of_fmap. exists (v, c). split; [done|]. by apply list_elem_of_In.
Qed.
End table.

(** A stand-in for the digest: the first 32 bytes, filled up. *)
Fixpoint pad (n : nat) (s : string) : string :=
  match n with
  | O => EmptyString
  | S n => match s with
           | EmptyString => String "0"%char (pad n EmptyString)
           | String c s => String c (pad n s)
           end
  end.
Definition digest32 : string -> string := pad 32.

Lemma pad_length n s : String.length (pad n s) = n.
Proof. revert s. induction n as [|n IH]; intros [|c s]; simpl; [done..| |]; by rewrite IH. Qed.

(** ** Names *)
Definition sid : string := "01234567-89ab-1cde-8fab-000000000001".
Definition rid : string := "01234567-89ab-1cde-8fab-000000000002".
Definition op1 : string := "01234567-89ab-1cde-8fab-000000000011".
Definition op2 : string := "01234567-89ab-1cde-8fab-000000000012".
Definition op3 : string := "01234567-89ab-1cde-8fab-000000000013".
Definition owner1 : string := "01234567-89ab-1cde-8fab-000000000021".
Definition owner2 : string := "01234567-89ab-1cde-8fab-000000000022".

Definition clock : Clock := {|
  now_ms := Ok 1000;
  fresh_event_id n :=
    if n =? 2 then "01234567-89ab-1cde-8fab-000000000102"
    else if n =? 3 then "01234567-89ab-1cde-8fab-000000000103"
    else if n =? 4 then "01234567-89ab-1cde-8fab-000000000104"
    else if n =? 5 then "01234567-89ab-1cde-8fab-000000000105"
    else "01234567-89ab-1cde-8fab-000000000106"
|}.

Definition request : CreationRequest :=
  {| cr_method := "create_session"; cr_title := "first"; cr_workspace := Some "/w" |}.

Definition provenance : CreationProvenance := {|
  cp_operation_id := op3; cp_method := "create_session"; cp_request_json := "request";
  cp_payload_hash := digest32 "request"; cp_session_id := sid;
  cp_creation_event_id := "01234567-89ab-1cde-8fab-000000000101"; cp_created_at_ms := 900;
  cp_receipt := {| rc_operation_id := op3; rc_session_id := sid; rc_run_id := None;
                   rc_first_sequence := 1; rc_last_sequence := 1 |}
|}.

Definition creation : CreatedPayload :=
  {| cd_title := "first"; cd_workspace := Some "/w"; cd_creation_provenance := provenance |}.

Definition input : RecordedRunInput := {|
  user_text := "2+3?";
  prepared_request := {| rq_provider_id := "fixture"; rq_options := new_options "m"; rq_prompt := "2+3?" |};
  tool_definitions := []; available_skills := []; active_skills := [];
  project_instructions_source := None
|}.

Definition accepted (owner : string) : StoredEventPayload :=
  RunAccepted {| ac_run_id := rid; ac_input := input; ac_owner_instance_id := owner |}.

Definition started : RunEventEnvelope := {|
  ev_schema_version := 2; ev_sequence := 1; ev_event_id := "01234567-89ab-1cde-8fab-000000000201";
  ev_run_id := rid; ev_turn_id := None; ev_session_id := None; ev_request_id := None;
  ev_event := RunStarted
|}.

Definition finished : RunEventEnvelope := {|
  ev_schema_version := 2; ev_sequence := 2; ev_event_id := "01234567-89ab-1cde-8fab-000000000202";
  ev_run_id := rid; ev_turn_id := None; ev_session_id := None; ev_request_id := None;
  ev_event := RunFinished CancelledLocally default_summary
|}.

Definition cancelled : RunResult := {|
  res_run_id := rid; res_session_id := None; res_outcome := CancelledLocally; res_summary := default_summary;
  res_last_response := None; res_events_complete := true; res_sink_error := None
|}.

(** The selection of a history that holds the creation alone. *)
Definition selection : StoredHistorySelection := {|
  hs_policy := "closed-exchanges-v1"; hs_through_sequence := 1;
  hs_history_digest := hex (digest32 (String.append prefix_start (framed "created")));
  hs_provider_id := "fixture"; hs_requested_model := "m"; hs_expected_identity := None
|}.

Definition payload_table : list (string * StoredEventPayload) :=
  [("created", SessionCreated creation); ("accepted", accepted owner1); ("started", RuntimeObserved started);
   ("finished", RuntimeObserved finished); ("renamed", SessionRenamed "second"); ("result", RunResultRecorded cancelled);
   ("interrupted", RunInterrupted {| in_run_id := rid |});
   ("selected", RunHistorySelected {| sel_run_id := rid; sel_selection := selection |})].

Definition receipt (operation : string) (run : option string) (first last : Z) : CommitReceipt :=
  {| rc_operation_id := operation; rc_session_id := sid; rc_run_id := run;
     rc_first_sequence := first; rc_last_sequence := last |}.

Definition receipt_table : list (string * CommitReceipt) :=
  [("r1", receipt op1 (Some rid) 2 2); ("r2", receipt op2 (Some rid) 3 4); ("r3", receipt op3 None 3 3);
   ("r4", receipt op3 None 5 5); ("r5", receipt "0" (Some rid) 3 3); ("r6", receipt "1" (Some rid) 4 4);
   ("r7", receipt "2" (Some rid) 5 5); ("r8", receipt op1 (Some rid) 2 3); ("r9", receipt "0" (Some rid) 4 4);
   ("r10", receipt "1" (Some rid) 5 5); ("r11", receipt "2" (Some rid) 6 6)].

(** The serialization of two tables. *)
Definition runtime_of (payloads : list (string * StoredEventPayload)) (t : string) : option RunEventEnvelope :=
  match decode payloads t with Some (RuntimeObserved e) => Some e | _ => None end.

Definition table_serde_of (provenances : list (string * CreationProvenance)) (payloads : list (string * StoredEventPayload))
    (receipts : list (string * CommitReceipt)) : StorageSerde := {|
  sha256 := digest32;
  payload_to_json := encode payloads;
  payload_from_json k t :=
    match decode payloads t with
    | Some p => if bool_decide (event_type p = k) then Some p else None
    | None => None
    end;
  json_is_payload t p := bool_decide (decode payloads t = Some p);
  json_type t := event_tag ∘ ev_event <$> runtime_of payloads t;
  json_turn_id t := runtime_of payloads t ≫= ev_turn_id;
  receipt_to_json := encode receipts;
  receipt_from_json := decode receipts;
  provenance_to_json := encode provenances;
  provenance_from_json := decode provenances;
  request_to_json r := if bool_decide (r = request) then Some "request" else None;
  request_from_json t := if bool_decide (t = "request") then Some request else None;
  string_to_json s := Some s;
  string_from_json s := Some s;
  command_to_json _ run m := Some (String.append run (method m));
  rename_to_json _ title := Some title
|}.

Definition table_serde (payloads : list (string * StoredEventPayload)) (receipts : list (string * CommitReceipt)) : StorageSerde :=
  table_serde_of [("provenance", provenance)] payloads receipts.

Lemma table_serde_of_laws provenances payloads receipts :
  NoDup provenances.*1 -> NoDup payloads.*1 -> NoDup receipts.*1 -> @StorageSerdeLaws (table_serde_of provenances payloads receipts).
Proof.
  intros Hvs Hps Hrs.
  assert (forall p t, encode payloads p = Some t -> decode payloads t = Some p) as Hp.
  { intros p t. by apply encode_decode. }
  split; simpl.
  - intros p t Ht. rewrite (Hp _ _ Ht). by rewrite bool_decide_eq_true_2.
  - intros k t p Ht. destruct (decode payloads t) as [q|]; [|done].
    destruct (bool_decide_reflect (event_type q = k)); [|done]. by injection Ht as <-.
  - intros p t Ht. by rewrite (Hp _ _ Ht), bool_decide_eq_true_2.
  - intros e t Ht. unfold runtime_of. by rewrite (Hp _ _ Ht).
  - intros e t Ht. unfold runtime_of. by rewrite (Hp _ _ Ht).
  - intros r t. by apply encode_decode.
  - intros p t. by apply encode_decode.
  - intros r t Ht. destruct (bool_decide_reflect (r = request)) as [->|]; [|done]. injection Ht as <-.
    by rewrite bool_decide_eq_true_2.
  - by intros s t [= <-].
Qed.

Lemma table_serde_laws payloads receipts :
  NoDup payloads.*1 -> NoDup receipts.*1 -> @StorageSerdeLaws (table_serde payloads receipts).
Proof. intros Hps Hrs. apply table_serde_of_laws; [|done|done]. apply NoDup_singleton. Qed.

#[export] Instance serde : StorageSerde := table_serde payload_table receipt_table.

#[export] Instance serde_laws : StorageSerdeLaws.
Proof. apply table_serde_laws; apply (bool_decide_unpack _); vm_compute; reflexivity. Qed.

#[export] Instance no_display : Display unit := {| display_step _ _ _ _ := Ok tt; empty_display := tt |}.
#[local] Existing Instance example_uuid.

(** ** The session *)
Definition blank : Db unit := mkDb 0 0 No_objects None [] [] ∅ ∅ None tt.
Definition db1 : Db unit := snd (initialize Committed provenance blank).
Definition records : list AppendRunRecord := [RRuntime started; RRuntime finished].

Definition db2 : Db unit := snd (mutate Committed clock provenance owner1 op1 rid (Accept input) db1).
Definition db3 : Db unit := snd (mutate Committed clock provenance owner1 op2 rid (Append records) db2).


Definition run_attempt (request : Request) (owner : string) (fate : Fate) : Attempt :=
  {| at_request := request; at_owner := owner; at_clock := clock; at_fate := fate |}.

(** Accepting the run with a commit that is reported unknown, recording it after a
    failed attempt, a rename, a take-over by the other process. *)
Definition story : list Attempt :=
  [run_attempt (Mutate op1 rid (Accept input)) owner1 Unknown_kept;
   run_attempt (Mutate op2 rid (Append records)) owner1 (Failed_statement integrity);
   run_attempt (Mutate op2 rid (Append records)) owner1 Committed;
   run_attempt (Rename op3 "second") owner2 Committed;
   run_attempt Reconcile owner2 Committed].

Lemma db1_created : db1 = created_db provenance
  {| cs_operation_id := op3; cs_title := "first"; cs_workspace := Some "/w" |} (Some "/w") "provenance" "created".
Proof. vm_compute. reflexivity. Qed.

Lemma db1_sound : sound db1 /\ headed db1.
Proof. rewrite db1_created. apply created_sound. Qed.

Lemma db2_sound : sound db2 /\ headed db2.
Proof.
  pose proof (attempts_keep provenance [run_attempt (Mutate op1 rid (Accept input)) owner1 Committed] db1 (proj1 db1_sound))
    as (_ & Hs & Hh). split; [exact Hs | apply Hh, db1_sound].
Qed.

Lemma clock_is_ok : clock_ok clock.
Proof.
  split; [by intros t [= <-]|]. intros n. unfold clock. simpl.
  repeat match goal with |- context [if ?b then _ else _] => destruct b end; vm_compute; reflexivity.
Qed.

(** Two sessions of different length are different. *)
Lemma size_differs (a b : Db unit) : negb (size a =? size b) = true -> a <> b.
Proof. intros Hs ->. by rewrite Z.eqb_refl in Hs. Qed.

Lemma pair_eta {A B} (x : A * B) : x = (fst x, snd x).
Proof. by destruct x. Qed.

Lemma provenance_request_round_witness :
  provenance_request provenance = Ok {| cs_operation_id := op3; cs_title := "first"; cs_workspace := Some "/w" |}.
Proof.
  apply (provenance_request_round sid "01234567-89ab-1cde-8fab-000000000101" (Ok 900) op3 "first" (Some "/w"));
    [vm_compute; reflexivity | by intros t [= <-] | vm_compute; reflexivity].
Defined.

Lemma initialize_creates_witness :
  exists db', initialize Committed provenance blank =
    (Ok {| sm_session_id := sid; sm_title := "first"; sm_workspace := Some "/w"; sm_created_at_ms := 900;
           sm_updated_at_ms := 900; sm_head_sequence := 1 |}, db') /\
    sound db' /\ headed db' /\ size db' = 1 /\ commands db' = [] /\ runs db' = ∅ /\ tool_results db' = ∅.
Proof.
  apply (initialize_creates provenance
    {| cs_operation_id := op3; cs_title := "first"; cs_workspace := Some "/w" |} (Some "/w") "provenance" "created");
    vm_compute; reflexivity.
Defined.

Lemma commands_append_only_witness :
  evolves db1 (attempts provenance story db1) /\ size db1 = 1 /\ size (attempts provenance story db1) = 5.
Proof.
  split; [apply commands_append_only; exact (proj1 db1_sound)|]. split; vm_compute; reflexivity.
Defined.

Lemma commands_keep_sound_witness :
  (sound (attempts provenance story db1) /\ headed (attempts provenance story db1)) /\
  size (attempts provenance story db1) = 5.
Proof.
  split; [apply commands_keep_sound; apply db1_sound | vm_compute; reflexivity].
Defined.

Lemma db3_appended :
  mutate Committed clock provenance owner1 op2 rid (Append records) db2 = (Ok (receipt op2 (Some rid) 3 4, false), db3).
Proof.
  assert (fst (mutate Committed clock provenance owner1 op2 rid (Append records) db2) = Ok (receipt op2 (Some rid) 3 4, false))
    as Hf by (vm_compute; reflexivity).
  unfold db3. rewrite (pair_eta (mutate _ _ _ _ _ _ _ _)) at 1. by rewrite Hf.
Qed.

Lemma mutate_all_or_nothing_witness :
  exists hash, command_hash (cp_session_id provenance) rid (Append records) = Ok hash /\
    performed (cp_session_id provenance) op2 (method (Append records)) hash (Some rid) db2
      (Z.of_nat (record_count (Append records))) (receipt op2 (Some rid) 3 4) db3.
Proof.
  exact (mutate_all_or_nothing Committed clock provenance owner1 op2 rid (Append records) db2 _ db3
    (proj1 db2_sound) db3_appended).
Defined.

(** The story after its first attempt. *)
Definition rest : list Attempt := skipn 1 story.
Lemma reused_operation_conflicts_witness :
  let later := attempts provenance rest db2 in
  mutate Committed clock provenance owner1 op1 rid (Append records) later = (Err (not_committed conflict), later) /\
  rename_session Committed clock provenance op1 "second" later = (Err (not_committed conflict), later).
Proof.
  set (x := mutate Committed clock provenance owner1 op1 rid (Accept input) db1).
  destruct (reused_operation_conflicts Committed clock provenance owner1 op1 rid (Accept input) db1 (fst x) (snd x)
    rest (proj1 db1_sound) (pair_eta x) (size_differs (snd x) db1 ltac:(vm_compute; reflexivity))) as [Hm Hr].
  split; [|apply Hr; done].
  apply (Hm clock owner1 rid (Append records) _ eq_refl). left. done.
Defined.

Lemma db2_reconciles : fst (reconcile Committed clock provenance owner2 db2) = Ok tt.
Proof. vm_compute. reflexivity. Qed.

Lemma reconcile_settles_witness :
  let db' := snd (reconcile Committed clock provenance owner2 db2) in
  owned owner2 db' /\ size db' = 3.
Proof.
  split; [|vm_compute; reflexivity].
  apply (reconcile_settles clock provenance owner2 db2); [apply db2_sound|].
  rewrite (pair_eta (reconcile _ _ _ _ _)) at 1. by rewrite db2_reconciles.
Defined.

(** ** Reading it *)
Lemma db1_readable : readable (cp_session_id provenance) db1.
Proof. rewrite db1_created. constructor; [vm_compute; reflexivity | constructor]. Qed.

Lemma db3_kept : kept db2 db3.
Proof.
  pose proof (attempt_keeps provenance (run_attempt (Mutate op2 rid (Append records)) owner1 Committed) db2 (proj1 db2_sound)) as Hk.
  unfold attempt, run_attempt in Hk. cbn [at_request at_owner at_clock at_fate] in Hk. exact Hk.
Qed.

Lemma db3_sound : sound db3 /\ headed db3.
Proof. destruct db3_kept as (_ & Hs & Hh). split; [exact Hs | apply Hh, db2_sound]. Qed.

(** The events of rows that decode. *)
Definition events_of (id : string) (rows : list EventRow) : list StoredEvent :=
  flat_map (fun r => match decode_event id r with Ok e => [e] | Err _ => [] end) rows.

Lemma decoded_events id rows :
  forallb (fun r => is_ok (decode_event id r)) rows = true -> decoded id rows (events_of id rows).
Proof.
  induction rows as [|r rows IH]; simpl; [constructor|]. intros [Hr Hrs]%andb_prop.
  destruct (decode_event id r) as [e|] eqn:He; [|done]. constructor; [done | by apply IH].
Qed.

Lemma page_exact_witness :
  page sid 1 (Some 4) 3 db3 =
    Ok {| hp_through_sequence := 4; hp_next_after := 3; hp_has_more := true;
          hp_records := take 2 (drop 1 (events_of sid (events db3))) |}.
Proof.
  apply (page_exact sid 1 4 2 3 db3 (events_of sid (events db3))).
  - apply db3_sound.
  - apply db3_sound.
  - apply decoded_events. vm_compute. reflexivity.
  - lia.
  - reflexivity.
  - lia.
  - assert (size db3 = 4) as -> by (vm_compute; reflexivity). lia.
Defined.

Lemma page_stable_witness :
  page sid 0 (Some 2) 2 db3 = page sid 0 (Some 2) 2 db2 /\ size db2 = 2 /\ size db3 = 4.
Proof.
  split; [|split; vm_compute; reflexivity].
  apply page_stable; [apply db2_sound|apply db2_sound|apply db3_kept|apply db3_sound|apply db3_sound|lia|].
  assert (size db2 = 2) as -> by (vm_compute; reflexivity). lia.
Defined.

Lemma mutate_writes_records_witness :
  wrote (cp_session_id provenance) (Some rid) db2 [RuntimeObserved started; RuntimeObserved finished] db3.
Proof.
  exact (mutate_writes_records Committed clock provenance owner1 op2 rid (Append records) db2 _ db3
    (proj1 db2_sound) clock_is_ok ltac:(vm_compute; reflexivity) db3_appended
    (size_differs db3 db2 ltac:(vm_compute; reflexivity))).
Defined.

Lemma commands_readable_witness :
  readable (cp_session_id provenance) (attempts provenance story db1) /\ size (attempts provenance story db1) = 5.
Proof.
  split; [|vm_compute; reflexivity].
  apply commands_readable; [apply db1_sound| |apply db1_readable].
  repeat (apply Forall_cons; split; [split; [apply clock_is_ok | try exact I; vm_compute; reflexivity]|]).
  constructor.
Defined.

#[export] Instance row_serde : RowSerde := {| canonical_row r := Some (row_payload_json r) |}.
#[export] Instance digest_length : DigestLength.
Proof. split. intros t. apply pad_length. Qed.

Definition digest_of (x : SResult string) : string := match x with Ok d => d | Err _ => EmptyString end.

Lemma checkpoint_exact_witness :
  prefix_digest 4 [(2, digest_of (prefix_digest 2 [] db2))] db3 = Ok (digest_of (prefix_digest 4 [] db3)) /\
  prefix_digest 4 [(2, "other")] db3 = Err integrity.
Proof.
  destruct (checkpoint_exact 2 4 (digest_of (prefix_digest 2 [] db2)) (digest_of (prefix_digest 4 [] db3)) db2 db3)
    as [Hok Hno].
  - apply db2_sound.
  - apply db2_sound.
  - apply db3_kept.
  - apply db3_sound.
  - apply db3_sound.
  - assert (size db2 = 2) as -> by (vm_compute; reflexivity). lia.
  - assert (size db3 = 4) as -> by (vm_compute; reflexivity). lia.
  - vm_compute. reflexivity.
  - vm_compute. reflexivity.
  - split; [exact Hok|]. apply Hno. vm_compute. discriminate.
Defined.
