(* ===== verification/Persist.v ===== *)
(** * Persisted runs (src/src/execution/observer.rs, types.rs, storage/session.rs)

    A run whose observer records every report in a session before the run goes
    on: the failures it reports, the operations of a session handle it uses, and
    the observer.  The world of the run is extended by the session; other handles
    may work on the session before each operation. *)
From S2P Require Import Prelude Json Errors Identifiers Provider Tools Replay RunData Run.
From S2P Require Import Records Store History Session RunStore StoreGuarantees.

(** ** Results and failures (types.rs) *)
Record PersistentRunRequest : Type := {
  pq_operation_id : string;
  pq_run_id : string;
  pq_input : RecordedRunInput
}.

Inductive PersistentRunResult : Type :=
| Executed (acceptance final_record : CommitResult) (result : RunResult)
| Duplicate (acceptance : CommitResult) (run : RecordedRun).

Module PersistentRunStage.
Inductive t : Type :=
| Lookup | Preflight | History | Acceptance | ProviderBinding | RuntimeEvent | ToolResult | FinalResult.
#[global] Instance eq_dec : EqDecision t.
Proof. solve_decision. Defined.
End PersistentRunStage.

Inductive PersistentRunCause : Type :=
| CauseGateway (e : GatewayError)
| CauseStorage (e : StorageError)
| CauseCleanup (warning : CleanupWarning) (commit : CommitResult).

Record PersistentRunFailure : Type := {
  fl_stage : PersistentRunStage.t;
  fl_cause : PersistentRunCause;
  fl_operation_id : option string;
  fl_acceptance : option CommitReceipt;
  fl_observed_result : option RunResult
}.

(** [PersistentRunFailure::new], [storage], [history], [preflight], [with_acceptance] and
    [with_execution]. *)
Definition new_failure (stage : PersistentRunStage.t) (operation : option string)
    (cause : PersistentRunCause) : PersistentRunFailure :=
  {| fl_stage := stage; fl_cause := cause; fl_operation_id := operation;
     fl_acceptance := None; fl_observed_result := None |}.
Definition storage_failure (stage : PersistentRunStage.t) (operation : string) (e : StorageError)
  : PersistentRunFailure := new_failure stage (Some operation) (CauseStorage e).
Definition history_failure (cause : PersistentRunCause) : PersistentRunFailure :=
  new_failure PersistentRunStage.History None cause.
Definition preflight_failure (e : GatewayError) : PersistentRunFailure :=
  new_failure PersistentRunStage.Preflight None (CauseGateway e).
Definition with_acceptance (acceptance : CommitResult) (f : PersistentRunFailure) : PersistentRunFailure :=
  {| fl_stage := fl_stage f; fl_cause := fl_cause f; fl_operation_id := fl_operation_id f;
     fl_acceptance := Some (cm_receipt acceptance); fl_observed_result := fl_observed_result f |}.
Definition with_execution (acceptance : CommitResult) (r : RunResult) (f : PersistentRunFailure)
  : PersistentRunFailure :=
  with_acceptance acceptance
    {| fl_stage := fl_stage f; fl_cause := fl_cause f; fl_operation_id := fl_operation_id f;
       fl_acceptance := fl_acceptance f; fl_observed_result := Some r |}.

(** [check_commit]: a cleanup warning stops the work, except after the last record. *)
Definition check_commit (stage : PersistentRunStage.t) (operation : string) (r : SResult CommitResult)
  : result CommitResult PersistentRunFailure :=
  let? commit := map_err r (storage_failure stage operation) in
  if bool_decide (stage = PersistentRunStage.FinalResult) then Ok commit
  else match cm_cleanup_warning commit with
       | None => Ok commit
       | Some warning =>
           let f := new_failure stage (Some operation) (CauseCleanup warning commit) in
           Err (if bool_decide (stage = PersistentRunStage.Acceptance) then with_acceptance commit f else f)
       end.

(** ** The store around a session *)

(** How an operation of the store ends: refused before its transaction (the
    store is closing, the session does not open), run with the fate of its
    transaction and of the connection's close, or lost with its task. *)
Inductive Operation : Type :=
| Refused (e : StorageError)
| Ran (clock : Clock) (fate : Fate) (close_failed : bool)
| Panicked (clock : Clock) (fate : Fate).

Class StoreHost (W : Type) := {
  others : W -> list Attempt * W;
  operation : W -> Operation * W;
  read_refused : W -> option StorageError * W;
  hold_refused : W -> option StorageError * W;
  hold_finish : W -> W
}.

(** [OperationId::new], given the identifiers the session already has. *)
Class OperationIds := { new_operation : list string -> string }.

(** The world of a persisted run: the surroundings, the session and the
    observer's first failure. *)
Record World (W D : Type) : Type := mkWorld {
  outer : W;
  session : Db D;
  failure : option PersistentRunFailure
}.
Arguments mkWorld {W D}.
Arguments outer {W D} _.
Arguments session {W D} _.
Arguments failure {W D} _.

(** How a submission ends without a result: a failure it reports, or one of the
    things [Stop] names besides. *)
Inductive Halt : Type :=
| Failure (f : PersistentRunFailure)
| Died (s : Stop).

Section persist.
Context {W D : Type} `{Display D} `{UuidLib} `{SerdeJson} `{ProviderSerde} `{StorageSerde}.
Context `{Environment W} `{StoreHost W} `{OperationIds}.
Context (provenance : CreationProvenance) (owner : string).
Implicit Types w : World W D.

Definition set_outer (o : W) w : World W D := mkWorld o (session w) (failure w).
Definition set_failure (f : option PersistentRunFailure) w : World W D := mkWorld (outer w) (session w) f.

(** What other handles did since the last operation. *)
Definition catch_up w : World W D :=
  let '(l, o) := others (outer w) in mkWorld o (attempts provenance l (session w)) (failure w).

(** [SessionHandle::record]. *)
Definition handle_record (operation_id run : string) (mutation : Mutation) w : SResult CommitResult * World W D :=
  let w := catch_up w in
  let '(op, o) := operation (outer w) in
  match op with
  | Refused e => (Err (not_committed e), set_outer o w)
  | Ran clock fate close_failed =>
      let '(r, db) := mutate fate clock provenance owner operation_id run mutation (session w) in
      ((let? x := r in
        Ok {| cm_receipt := fst x; cm_duplicate := snd x;
              cm_cleanup_warning := if close_failed then Some ConnectionCloseFailed else None |}),
       mkWorld o db (failure w))
  | Panicked clock fate =>
      let '(_, db) := mutate fate clock provenance owner operation_id run mutation (session w) in
      (Err (storage_error StorageErrorKind.CommitUnknown), mkWorld o db (failure w))
  end.

(** A read of the handle: refused, or evaluated on the session. *)
Definition handle_read {A} (f : Db D -> SResult A) w : SResult A * World W D :=
  let w := catch_up w in
  let '(e, o) := read_refused (outer w) in
  (match e with Some e => Err e | None => f (session w) end, set_outer o w).

(** [SessionHandle::lookup_receipt]. *)
Definition lookup_receipt (operation_id : string) : World W D -> SResult (option CommitReceipt) * World W D :=
  handle_read (fun db => let? c := find_command (cp_session_id provenance) operation_id db in
                         Ok (c_receipt <$> c)).

(** ** The observer (observer.rs) *)

Definition fresh_operation w : string := new_operation (cmd_operation_id <$> commands (session w)).

(** [PersistentObserver::append]. *)
Definition observer_append (run : string) (stage : PersistentRunStage.t) (record : AppendRunRecord) w
  : result unit RunSinkError * World W D :=
  if is_some (failure w) then (Err SinkFailed, w)
  else
    let operation_id := fresh_operation (catch_up w) in
    let '(r, w) := handle_record operation_id run (Append [record]) w in
    match check_commit stage operation_id r with
    | Ok _ => (Ok tt, w)
    | Err f => (Err SinkFailed, set_failure (Some f) w)
    end.

(** [provider_opened]. *)
Definition persist_opened (run session_id requested_model : string) (identity : ReplayIdentity) w
  : result unit RunSinkError * World W D :=
  if is_some (failure w) then (Err SinkFailed, w)
  else match new_binding run session_id requested_model identity with
       | Err e => (Err SinkFailed,
                   set_failure (Some (storage_failure PersistentRunStage.ProviderBinding (fresh_operation w) e)) w)
       | Ok binding => observer_append run PersistentRunStage.ProviderBinding (RProviderBinding binding) w
       end.

Definition persist_event (run : string) (event : RunEventEnvelope) : World W D -> result unit RunSinkError * World W D :=
  observer_append run PersistentRunStage.RuntimeEvent (RRuntime event).

Definition persist_tool_result (run request call output : string) (is_error : bool)
  : World W D -> result unit RunSinkError * World W D :=
  observer_append run PersistentRunStage.ToolResult (RToolResult (Some request) call output is_error).

(** An effect of the surroundings alone. *)
Definition on_outer {A} (f : W -> A * W) w : A * World W D :=
  let '(a, o) := f (outer w) in (a, set_outer o w).

(** The environment of a run whose observer is the session. *)
Definition persist_env (run : string) : Environment (World W D) := {|
  is_cancelled := on_outer is_cancelled;
  new_uuid := on_outer new_uuid;
  observer_event := persist_event run;
  observer_provider_opened := persist_opened run;
  observer_tool_result := persist_tool_result run;
  provider_open p o := on_outer (provider_open p o);
  replay_identity := on_outer replay_identity;
  install_replay r := on_outer (install_replay r);
  provider_generate i := on_outer (provider_generate i);
  provider_next := on_outer provider_next;
  tool_execute t v := on_outer (tool_execute t v);
  provider_close w := set_outer (provider_close (outer w)) w
|}.

(** ** Submissions as computations *)

Notation PM := (SM (World W D) Halt).

Definition or_fail {A} (stage : PersistentRunStage.t) (operation_id : string)
    (c : World W D -> SResult A * World W D) : PM A :=
  fun w => let '(r, w) := c w in
           (map_err r (fun e => Failure (storage_failure stage operation_id e)), w).

Definition on_world {A} (c : World W D -> A * World W D) : PM A :=
  fun w => let '(a, w) := c w in (Ok a, w).

Definition settled {A} (r : result A PersistentRunFailure) : PM A := lift (map_err r Failure).
End persist.
