(* ===== verification/Rebuild.v ===== *)
(** * Rebuilding runs from the history (src/src/execution/replay/reconstruct.rs)

    The state a stored run is rebuilt in, event by event: its turns, the
    exchanges they complete, the results of its tools; and the evidence a closed
    run must have before it is replayed.  Every method is a function of the state
    that fails with the error of the source; on failure the whole preparation ends,
    so the state is not kept. *)
From S2P Require Import Prelude Json Errors Identifiers Provider Tools Replay RunData.
From S2P Require Import Records History Session RunStore.

(** ** Failures of a preparation *)
Inductive RebuildError : Type :=
| Incomplete
| NoProvenance
| Inconsistent
| Incompatible.

Notation Rebuilt A := (result A RebuildError).

(** What [reconstruct.rs] uses of [serde_json::to_value]. *)
Class ReplaySerde := {
  response_value : option ModelResponse -> option Value;
  summary_value : RunSummary -> option Value
}.

(** [equal]. *)
Definition equal {A} (to_value : A -> option Value) (left right : A) : Rebuilt bool :=
  let? l := ok_or (to_value left) Inconsistent in
  let? r := ok_or (to_value right) Inconsistent in
  Ok (value_eqb l r).

(** [arguments]. *)
Definition parse_arguments `{SerdeJson} (encoded : string) : Rebuilt Value := ok_or (from_str encoded) Incomplete.

(** ** State *)
Record SavedResult : Type := {
  sv_name : string;
  sv_arguments : Value;
  sv_request : string;
  sv_output : string;
  sv_is_error : bool
}.

Record Turn : Type := mkTurn {
  tn_id : string;
  tn_request : option string;
  tn_response_id : option string;
  tn_response_started : bool;
  tn_response : option ModelResponse;
  tn_results : list InputItem;
  tn_intent : option string;
  tn_unfinished_result : option string
}.

Definition set_tn_request (v : option string) (t : Turn) : Turn :=
  mkTurn (tn_id t) v (tn_response_id t) (tn_response_started t) (tn_response t) (tn_results t) (tn_intent t) (tn_unfinished_result t).
Definition set_tn_response_id (v : option string) (t : Turn) : Turn :=
  mkTurn (tn_id t) (tn_request t) v (tn_response_started t) (tn_response t) (tn_results t) (tn_intent t) (tn_unfinished_result t).
Definition set_tn_response_started (v : bool) (t : Turn) : Turn :=
  mkTurn (tn_id t) (tn_request t) (tn_response_id t) v (tn_response t) (tn_results t) (tn_intent t) (tn_unfinished_result t).
Definition set_tn_response (v : option ModelResponse) (t : Turn) : Turn :=
  mkTurn (tn_id t) (tn_request t) (tn_response_id t) (tn_response_started t) v (tn_results t) (tn_intent t) (tn_unfinished_result t).
Definition set_tn_results (v : list InputItem) (t : Turn) : Turn :=
  mkTurn (tn_id t) (tn_request t) (tn_response_id t) (tn_response_started t) (tn_response t) v (tn_intent t) (tn_unfinished_result t).
Definition set_tn_intent (v : option string) (t : Turn) : Turn :=
  mkTurn (tn_id t) (tn_request t) (tn_response_id t) (tn_response_started t) (tn_response t) (tn_results t) v (tn_unfinished_result t).
Definition set_tn_unfinished_result (v : option string) (t : Turn) : Turn :=
  mkTurn (tn_id t) (tn_request t) (tn_response_id t) (tn_response_started t) (tn_response t) (tn_results t) (tn_intent t) v.

Record ActiveRun : Type := mkActive {
  ar_run_id : string;
  ar_accepted_sequence : Z;
  ar_prompt : string;
  ar_provider : string;
  ar_model : string;
  ar_selection : option StoredHistorySelection;
  ar_binding : option RecordedProviderBinding;
  ar_started : bool;
  ar_runtime_sequence : Z;
  ar_provider_sequence : option Z;
  ar_turns_started : Z;
  ar_turns_finished : Z;
  ar_last_turn : option (TurnOutcome * option UpstreamOutcome);
  ar_next_turn_allowed : bool;
  ar_request_ids : gset string;
  ar_turn_ids : gset string;
  ar_last_request : option string;
  ar_runtime_request : option string;
  ar_turn : option Turn;
  ar_unfinished_result : bool;
  ar_exchanges : list ReplayExchange;
  ar_saved : gmap string SavedResult;
  ar_terminal : option (RunOutcome * RunSummary)
}.

Definition set_ar_selection (v : option StoredHistorySelection) (a : ActiveRun) : ActiveRun :=
  mkActive (ar_run_id a) (ar_accepted_sequence a) (ar_prompt a) (ar_provider a) (ar_model a) v (ar_binding a) (ar_started a) (ar_runtime_sequence a) (ar_provider_sequence a) (ar_turns_started a) (ar_turns_finished a) (ar_last_turn a) (ar_next_turn_allowed a) (ar_request_ids a) (ar_turn_ids a) (ar_last_request a) (ar_runtime_request a) (ar_turn a) (ar_unfinished_result a) (ar_exchanges a) (ar_saved a) (ar_terminal a).
Definition set_ar_binding (v : option RecordedProviderBinding) (a : ActiveRun) : ActiveRun :=
  mkActive (ar_run_id a) (ar_accepted_sequence a) (ar_prompt a) (ar_provider a) (ar_model a) (ar_selection a) v (ar_started a) (ar_runtime_sequence a) (ar_provider_sequence a) (ar_turns_started a) (ar_turns_finished a) (ar_last_turn a) (ar_next_turn_allowed a) (ar_request_ids a) (ar_turn_ids a) (ar_last_request a) (ar_runtime_request a) (ar_turn a) (ar_unfinished_result a) (ar_exchanges a) (ar_saved a) (ar_terminal a).
Definition set_ar_started (v : bool) (a : ActiveRun) : ActiveRun :=
  mkActive (ar_run_id a) (ar_accepted_sequence a) (ar_prompt a) (ar_provider a) (ar_model a) (ar_selection a) (ar_binding a) v (ar_runtime_sequence a) (ar_provider_sequence a) (ar_turns_started a) (ar_turns_finished a) (ar_last_turn a) (ar_next_turn_allowed a) (ar_request_ids a) (ar_turn_ids a) (ar_last_request a) (ar_runtime_request a) (ar_turn a) (ar_unfinished_result a) (ar_exchanges a) (ar_saved a) (ar_terminal a).
Definition set_ar_runtime_sequence (v : Z) (a : ActiveRun) : ActiveRun :=
  mkActive (ar_run_id a) (ar_accepted_sequence a) (ar_prompt a) (ar_provider a) (ar_model a) (ar_selection a) (ar_binding a) (ar_started a) v (ar_provider_sequence a) (ar_turns_started a) (ar_turns_finished a) (ar_last_turn a) (ar_next_turn_allowed a) (ar_request_ids a) (ar_turn_ids a) (ar_last_request a) (ar_runtime_request a) (ar_turn a) (ar_unfinished_result a) (ar_exchanges a) (ar_saved a) (ar_terminal a).
Definition set_ar_provider_sequence (v : option Z) (a : ActiveRun) : ActiveRun :=
  mkActive (ar_run_id a) (ar_accepted_sequence a) (ar_prompt a) (ar_provider a) (ar_model a) (ar_selection a) (ar_binding a) (ar_started a) (ar_runtime_sequence a) v (ar_turns_started a) (ar_turns_finished a) (ar_last_turn a) (ar_next_turn_allowed a) (ar_request_ids a) (ar_turn_ids a) (ar_last_request a) (ar_runtime_request a) (ar_turn a) (ar_unfinished_result a) (ar_exchanges a) (ar_saved a) (ar_terminal a).
Definition set_ar_last_turn (v : option (TurnOutcome * option UpstreamOutcome)) (a : ActiveRun) : ActiveRun :=
  mkActive (ar_run_id a) (ar_accepted_sequence a) (ar_prompt a) (ar_provider a) (ar_model a) (ar_selection a) (ar_binding a) (ar_started a) (ar_runtime_sequence a) (ar_provider_sequence a) (ar_turns_started a) (ar_turns_finished a) v (ar_next_turn_allowed a) (ar_request_ids a) (ar_turn_ids a) (ar_last_request a) (ar_runtime_request a) (ar_turn a) (ar_unfinished_result a) (ar_exchanges a) (ar_saved a) (ar_terminal a).
Definition set_ar_turns_finished (v : Z) (a : ActiveRun) : ActiveRun :=
  mkActive (ar_run_id a) (ar_accepted_sequence a) (ar_prompt a) (ar_provider a) (ar_model a) (ar_selection a) (ar_binding a) (ar_started a) (ar_runtime_sequence a) (ar_provider_sequence a) (ar_turns_started a) v (ar_last_turn a) (ar_next_turn_allowed a) (ar_request_ids a) (ar_turn_ids a) (ar_last_request a) (ar_runtime_request a) (ar_turn a) (ar_unfinished_result a) (ar_exchanges a) (ar_saved a) (ar_terminal a).
Definition set_ar_turn (v : option Turn) (a : ActiveRun) : ActiveRun :=
  mkActive (ar_run_id a) (ar_accepted_sequence a) (ar_prompt a) (ar_provider a) (ar_model a) (ar_selection a) (ar_binding a) (ar_started a) (ar_runtime_sequence a) (ar_provider_sequence a) (ar_turns_started a) (ar_turns_finished a) (ar_last_turn a) (ar_next_turn_allowed a) (ar_request_ids a) (ar_turn_ids a) (ar_last_request a) (ar_runtime_request a) v (ar_unfinished_result a) (ar_exchanges a) (ar_saved a) (ar_terminal a).
Definition set_ar_unfinished_result (v : bool) (a : ActiveRun) : ActiveRun :=
  mkActive (ar_run_id a) (ar_accepted_sequence a) (ar_prompt a) (ar_provider a) (ar_model a) (ar_selection a) (ar_binding a) (ar_started a) (ar_runtime_sequence a) (ar_provider_sequence a) (ar_turns_started a) (ar_turns_finished a) (ar_last_turn a) (ar_next_turn_allowed a) (ar_request_ids a) (ar_turn_ids a) (ar_last_request a) (ar_runtime_request a) (ar_turn a) v (ar_exchanges a) (ar_saved a) (ar_terminal a).
Definition set_ar_exchanges (v : list ReplayExchange) (a : ActiveRun) : ActiveRun :=
  mkActive (ar_run_id a) (ar_accepted_sequence a) (ar_prompt a) (ar_provider a) (ar_model a) (ar_selection a) (ar_binding a) (ar_started a) (ar_runtime_sequence a) (ar_provider_sequence a) (ar_turns_started a) (ar_turns_finished a) (ar_last_turn a) (ar_next_turn_allowed a) (ar_request_ids a) (ar_turn_ids a) (ar_last_request a) (ar_runtime_request a) (ar_turn a) (ar_unfinished_result a) v (ar_saved a) (ar_terminal a).
Definition set_ar_saved (v : gmap string SavedResult) (a : ActiveRun) : ActiveRun :=
  mkActive (ar_run_id a) (ar_accepted_sequence a) (ar_prompt a) (ar_provider a) (ar_model a) (ar_selection a) (ar_binding a) (ar_started a) (ar_runtime_sequence a) (ar_provider_sequence a) (ar_turns_started a) (ar_turns_finished a) (ar_last_turn a) (ar_next_turn_allowed a) (ar_request_ids a) (ar_turn_ids a) (ar_last_request a) (ar_runtime_request a) (ar_turn a) (ar_unfinished_result a) (ar_exchanges a) v (ar_terminal a).
Definition set_ar_terminal (v : option (RunOutcome * RunSummary)) (a : ActiveRun) : ActiveRun :=
  mkActive (ar_run_id a) (ar_accepted_sequence a) (ar_prompt a) (ar_provider a) (ar_model a) (ar_selection a) (ar_binding a) (ar_started a) (ar_runtime_sequence a) (ar_provider_sequence a) (ar_turns_started a) (ar_turns_finished a) (ar_last_turn a) (ar_next_turn_allowed a) (ar_request_ids a) (ar_turn_ids a) (ar_last_request a) (ar_runtime_request a) (ar_turn a) (ar_unfinished_result a) (ar_exchanges a) (ar_saved a) v.
Definition set_ar_turns_started (v : Z) (a : ActiveRun) : ActiveRun :=
  mkActive (ar_run_id a) (ar_accepted_sequence a) (ar_prompt a) (ar_provider a) (ar_model a) (ar_selection a) (ar_binding a) (ar_started a) (ar_runtime_sequence a) (ar_provider_sequence a) v (ar_turns_finished a) (ar_last_turn a) (ar_next_turn_allowed a) (ar_request_ids a) (ar_turn_ids a) (ar_last_request a) (ar_runtime_request a) (ar_turn a) (ar_unfinished_result a) (ar_exchanges a) (ar_saved a) (ar_terminal a).
Definition set_ar_next_turn_allowed (v : bool) (a : ActiveRun) : ActiveRun :=
  mkActive (ar_run_id a) (ar_accepted_sequence a) (ar_prompt a) (ar_provider a) (ar_model a) (ar_selection a) (ar_binding a) (ar_started a) (ar_runtime_sequence a) (ar_provider_sequence a) (ar_turns_started a) (ar_turns_finished a) (ar_last_turn a) v (ar_request_ids a) (ar_turn_ids a) (ar_last_request a) (ar_runtime_request a) (ar_turn a) (ar_unfinished_result a) (ar_exchanges a) (ar_saved a) (ar_terminal a).
Definition set_ar_turn_ids (v : gset string) (a : ActiveRun) : ActiveRun :=
  mkActive (ar_run_id a) (ar_accepted_sequence a) (ar_prompt a) (ar_provider a) (ar_model a) (ar_selection a) (ar_binding a) (ar_started a) (ar_runtime_sequence a) (ar_provider_sequence a) (ar_turns_started a) (ar_turns_finished a) (ar_last_turn a) (ar_next_turn_allowed a) (ar_request_ids a) v (ar_last_request a) (ar_runtime_request a) (ar_turn a) (ar_unfinished_result a) (ar_exchanges a) (ar_saved a) (ar_terminal a).
Definition set_ar_request_ids (v : gset string) (a : ActiveRun) : ActiveRun :=
  mkActive (ar_run_id a) (ar_accepted_sequence a) (ar_prompt a) (ar_provider a) (ar_model a) (ar_selection a) (ar_binding a) (ar_started a) (ar_runtime_sequence a) (ar_provider_sequence a) (ar_turns_started a) (ar_turns_finished a) (ar_last_turn a) (ar_next_turn_allowed a) v (ar_turn_ids a) (ar_last_request a) (ar_runtime_request a) (ar_turn a) (ar_unfinished_result a) (ar_exchanges a) (ar_saved a) (ar_terminal a).
Definition set_ar_last_request (v : option string) (a : ActiveRun) : ActiveRun :=
  mkActive (ar_run_id a) (ar_accepted_sequence a) (ar_prompt a) (ar_provider a) (ar_model a) (ar_selection a) (ar_binding a) (ar_started a) (ar_runtime_sequence a) (ar_provider_sequence a) (ar_turns_started a) (ar_turns_finished a) (ar_last_turn a) (ar_next_turn_allowed a) (ar_request_ids a) (ar_turn_ids a) v (ar_runtime_request a) (ar_turn a) (ar_unfinished_result a) (ar_exchanges a) (ar_saved a) (ar_terminal a).
Definition set_ar_runtime_request (v : option string) (a : ActiveRun) : ActiveRun :=
  mkActive (ar_run_id a) (ar_accepted_sequence a) (ar_prompt a) (ar_provider a) (ar_model a) (ar_selection a) (ar_binding a) (ar_started a) (ar_runtime_sequence a) (ar_provider_sequence a) (ar_turns_started a) (ar_turns_finished a) (ar_last_turn a) (ar_next_turn_allowed a) (ar_request_ids a) (ar_turn_ids a) (ar_last_request a) v (ar_turn a) (ar_unfinished_result a) (ar_exchanges a) (ar_saved a) (ar_terminal a).

Record ClosedRun : Type := {
  cl_run_id : string;
  cl_prompt : string;
  cl_selection : StoredHistorySelection;
  cl_binding : option RecordedProviderBinding;
  cl_exchanges : list ReplayExchange;
  cl_terminal : option (RunOutcome * RunSummary);
  cl_turns_started : Z;
  cl_turns_finished : Z;
  cl_last_turn : option (TurnOutcome * option UpstreamOutcome);
  cl_new_tool_dispatches : Z;
  cl_last_request : option string;
  cl_interrupted : bool;
  cl_result_seen : bool
}.

(** [ActiveRun::new]. *)
Definition new_active (accepted_sequence : Z) (accepted : AcceptedPayload) : ActiveRun :=
  let request := prepared_request (ac_input accepted) in
  mkActive (ac_run_id accepted) accepted_sequence (rq_prompt request) (rq_provider_id request)
    (model (rq_options request)) None None false 0 None 0 0 None true ∅ ∅ None None None false [] ∅ None.

(** [Turn { id, ..Turn::default() }]. *)
Definition new_turn (id : string) : Turn := mkTurn id None None false None [] None None.

Definition guard_not (b : bool) (e : RebuildError) : Rebuilt unit := if b then Err e else Ok tt.

(** [require_selection]. *)
Definition require_selection (a : ActiveRun) : Rebuilt unit :=
  check? ok_or (ar_selection a) NoProvenance in Ok tt.

(** [select]. *)
Definition select_history (sequence : Z) (selection : StoredHistorySelection) (a : ActiveRun) : Rebuilt ActiveRun :=
  check? guard_not (is_some (ar_selection a)
                    || negb (sequence =? ar_accepted_sequence a + 1)
                    || negb (hs_through_sequence selection =? ar_accepted_sequence a - 1)
                    || negb (bool_decide (hs_provider_id selection = ar_provider a))
                    || negb (bool_decide (hs_requested_model selection = ar_model a))) Inconsistent in
  Ok (set_ar_selection (Some selection) a).

(** [bind]. *)
Definition bind_provider (binding : RecordedProviderBinding) (a : ActiveRun) : Rebuilt ActiveRun :=
  check? require_selection a in
  check? guard_not (negb (ar_started a)
                    || negb (ar_runtime_sequence a =? 1)
                    || is_some (ar_binding a)
                    || negb (bool_decide (pb_run_id binding = ar_run_id a))
                    || negb (bool_decide (ri_provider_id (pb_identity binding) = ar_provider a))
                    || negb (bool_decide (pb_requested_model binding = ar_model a))) Inconsistent in
  Ok (set_ar_binding (Some binding) a).

Section rebuild.
Context `{SerdeJson} `{ReplaySerde}.

(** ** Turns *)

(** The response id of an event, with what the event leaves in the turn. *)
Definition provider_step (event : ProviderEvent) (t : Turn) : Rebuilt (option string * Turn) :=
  match event with
  | PResponseStarted response_id =>
      if tn_response_started t then Err Incomplete
      else Ok (Some response_id, set_tn_response_started true t)
  | PResponseStatus response_id _
  | POutputItemStarted response_id _ _
  | POutputItemUpdated response_id _ _ _ _ _ _
  | POutputItemFinished response_id _ _ => Ok (Some response_id, t)
  | PResponseFinished response =>
      check? map_err (validate_response response) (fun _ => Incomplete) in
      Ok (Some (response_id response), set_tn_response (Some response) t)
  | PProviderExtension _ _ => Ok (None, t)
  | PRequestFailed _ _ _ | PSessionClosed _ => Err Incomplete
  end.

(** [Turn::provider]. *)
Definition turn_provider (event : ProviderEvent) (t : Turn) : Rebuilt Turn :=
  let? x := provider_step event t in
  let t := snd x in
  match fst x with
  | None => Ok t
  | Some id =>
      if str_is_empty id || is_some_and (tn_response_id t) (fun old => negb (bool_decide (old = id)))
      then Err Incomplete
      else Ok (set_tn_response_id (Some id) t)
  end.

(** [next_call]. *)
Definition next_call (t : Turn) : Rebuilt FunctionCall :=
  let? response := ok_or (tn_response t) Incomplete in
  ok_or (response_calls response !! length (tn_results t)) Incomplete.

(** [Turn::tool_event]. *)
Definition turn_tool_event (event : ToolExecutionEvent) (saved : gmap string SavedResult) (t : Turn)
  : Rebuilt Turn :=
  match event with
  | ToolExecutionFinished call tool_name is_error =>
      let? old := ok_or (saved !! call) Incomplete in
      if negb (bool_decide (tn_unfinished_result t = Some call))
         || negb (bool_decide (sv_name old = tool_name))
         || negb (Bool.eqb (sv_is_error old) is_error)
         || negb (bool_decide (tn_request t = Some (sv_request old)))
      then Err Incomplete
      else Ok (set_tn_unfinished_result None t)
  | ToolExecutionStarted call tool_name =>
      check? guard_not (is_some (tn_intent t) || is_some (tn_unfinished_result t)) Incomplete in
      let? expected := next_call t in
      if negb (bool_decide (call_id expected = call)) || negb (bool_decide (name expected = tool_name))
         || is_some (saved !! call)
      then Err Incomplete
      else Ok (set_tn_intent (Some call) t)
  | ToolResultReused call tool_name =>
      check? guard_not (is_some (tn_intent t) || is_some (tn_unfinished_result t)) Incomplete in
      let? expected := next_call t in
      let? old := ok_or (saved !! call) Incomplete in
      check? guard_not (negb (bool_decide (call_id expected = call))
                        || negb (bool_decide (name expected = tool_name))
                        || negb (bool_decide (sv_name old = tool_name))) Incomplete in
      let? args := parse_arguments (arguments expected) in
      if negb (value_eqb (sv_arguments old) args) || bool_decide (tn_request t = Some (sv_request old))
      then Err Incomplete
      else Ok (set_tn_results (tn_results t ++ [ToolResult call (sv_output old)]) t)
  end.

(** ** The active run *)

(** [ActiveRun::finish_turn]. *)
Definition finish_active_turn (a : ActiveRun) : Rebuilt ActiveRun :=
  let? t := ok_or (ar_turn a) Incomplete in
  let a := set_ar_unfinished_result (ar_unfinished_result a || is_some (tn_unfinished_result t))
             (set_ar_turn None a) in
  match tn_response t with
  | Some response =>
      check? guard_not (is_some (tn_intent t)) Incomplete in
      let? exchange := map_err (new_exchange response (tn_results t)) (fun _ => Incomplete) in
      Ok (set_ar_exchanges (ar_exchanges a ++ [exchange]) a)
  | None => check? guard_not (is_some (tn_request t) || is_some (tn_response_id t)) Incomplete in Ok a
  end.

(** The request an event of a turn belongs to. *)
Definition observe_request (event : RunEventEnvelope) (t : Turn) (a : ActiveRun) : Rebuilt (Turn * ActiveRun) :=
  match ev_request_id event with
  | Some request =>
      check? guard_not (is_some_and (tn_request t) (fun old => negb (bool_decide (old = request)))
                        || str_is_empty request) Incomplete in
      if is_none (tn_request t) then
        check? guard_not (bool_decide (request ∈ ar_request_ids a)) Incomplete in
        Ok (set_tn_request (Some request) t,
            set_ar_runtime_request (Some request)
              (set_ar_last_request (Some request)
                 (set_ar_request_ids ({[request]} ∪ ar_request_ids a) a)))
      else Ok (t, a)
  | None => check? guard_not (is_some (tn_request t)) Incomplete in Ok (t, a)
  end.

(** The checks of a [TurnFinished] against the turn it closes. *)
Definition turn_evidence (t : Turn) (outcome : TurnOutcome) (upstream : option UpstreamOutcome) : bool :=
  match tn_response t with
  | Some response =>
      let calls := existsb (fun item => is_some (function_call item)) (output response) in
      bool_decide (upstream = Some TerminalReceived)
      && match outcome with
         | ToolsPrepared => calls
         | ModelCompleted => negb calls
         | Stopped _ => true
         end
  | None =>
      match outcome with Stopped _ => true | _ => false end && bool_decide (upstream = Some NotSubmitted)
  end.

(** The events of an open turn. *)
Definition runtime_turn (event : RunEventEnvelope) (a : ActiveRun) : Rebuilt ActiveRun :=
  let? t := ok_or (ar_turn a) Incomplete in
  check? guard_not (negb (bool_decide (ev_turn_id event = Some (tn_id t)))) Incomplete in
  let? x := observe_request event t a in
  let t := fst x in
  let a := set_ar_turn (Some t) (snd x) in
  match ev_event event with
  | EProviderEvent provider =>
      check? guard_not (negb (bool_decide (env_provider provider = ar_provider a))
                        || negb (bool_decide (env_request_id provider = tn_request t))) Incomplete in
      let? session := ok_or (ev_session_id event) Inconsistent in
      check? guard_not (negb (bool_decide (env_session_id provider = session))
                        || is_some_and (ar_provider_sequence a) (fun old => env_sequence provider <=? old)
                        || is_some (tn_response t)) Incomplete in
      let a := set_ar_provider_sequence (Some (env_sequence provider)) a in
      let? t := turn_provider (env_event provider) t in
      Ok (set_ar_turn (Some t) a)
  | EToolEvent tool =>
      let? t := turn_tool_event tool (ar_saved a) t in
      Ok (set_ar_turn (Some t) a)
  | TurnFinished number response_id outcome upstream =>
      check? guard_not (negb (number =? ar_turns_started a)
                        || negb (bool_decide (response_id = tn_response_id t))) Incomplete in
      check? guard_not (negb (turn_evidence t outcome upstream)) Incomplete in
      let a := set_ar_next_turn_allowed
                 (match outcome with ToolsPrepared => is_none (tn_unfinished_result t) | _ => false end)
                 (set_ar_last_turn (Some (outcome, upstream)) a) in
      let? a := finish_active_turn a in
      Ok (set_ar_turns_finished (ar_turns_finished a + 1) a)
  | _ => Err Inconsistent
  end.

(** [ActiveRun::runtime]. *)
Definition runtime (event : RunEventEnvelope) (a : ActiveRun) : Rebuilt ActiveRun :=
  check? require_selection a in
  check? guard_not (negb (bool_decide (ev_run_id event = ar_run_id a))
                    || negb (ev_sequence event =? ar_runtime_sequence a + 1)
                    || is_some (ar_terminal a)) Incomplete in
  let a := set_ar_runtime_sequence (ev_sequence event) a in
  check? guard_not (is_some_and (ar_binding a) (fun b =>
                      negb (bool_decide (ev_session_id event = Some (pb_provider_session_id b))))) Inconsistent in
  match ev_event event with
  | RunStarted =>
      check? guard_not (ar_started a || negb (ev_sequence event =? 1)) Inconsistent in
      Ok (set_ar_started true a)
  | RunFinished outcome summary =>
      check? guard_not (is_some (ar_turn a) || negb (bool_decide (ev_request_id event = ar_runtime_request a)))
               Incomplete in
      Ok (set_ar_terminal (Some (outcome, summary)) a)
  | TurnStarted number =>
      check? guard_not (negb (ar_started a) || is_none (ar_binding a) || is_some (ar_turn a)
                        || negb (ar_next_turn_allowed a)
                        || negb (number =? ar_turns_started a + 1)
                        || is_some_and (last (ar_exchanges a)) (fun x =>
                             match re_tool_results x with [] => true | _ => false end)) Incomplete in
      let? id := ok_or (ev_turn_id event) Inconsistent in
      check? guard_not (bool_decide (id ∈ ar_turn_ids a)) Incomplete in
      Ok (set_ar_turn (Some (new_turn id))
            (set_ar_runtime_request None
               (set_ar_turns_started (ar_turns_started a + 1)
                  (set_ar_turn_ids ({[id]} ∪ ar_turn_ids a) a))))
  | _ => runtime_turn event a
  end.

(** [ActiveRun::tool_result]. *)
Definition active_tool_result (r : ToolResultPayload) (a : ActiveRun) : Rebuilt ActiveRun :=
  check? require_selection a in
  let? t := ok_or (ar_turn a) Incomplete in
  let? call := next_call t in
  check? guard_not (negb (bool_decide (tn_intent t = Some (tr_call_id r)))
                    || negb (bool_decide (call_id call = tr_call_id r))
                    || negb (bool_decide (tr_request_id r = tn_request t))
                    || is_some (ar_saved a !! tr_call_id r)) Incomplete in
  let? args := parse_arguments (arguments call) in
  let? request := ok_or (tn_request t) Incomplete in
  let saved := {| sv_name := name call; sv_arguments := args; sv_request := request;
                  sv_output := tr_output r; sv_is_error := tr_is_error r |} in
  Ok (set_ar_turn
        (Some (set_tn_unfinished_result (Some (tr_call_id r))
                 (set_tn_intent None
                    (set_tn_results (tn_results t ++ [ToolResult (tr_call_id r) (tr_output r)]) t))))
        (set_ar_saved (<[call_id call := saved]> (ar_saved a)) a)).

(** [ActiveRun::close]. *)
Definition close_run (interrupted : bool) (a : ActiveRun) : Rebuilt ClosedRun :=
  let? selection := ok_or (ar_selection a) NoProvenance in
  check? guard_not (ar_unfinished_result a) Incomplete in
  let? a := if is_some (ar_turn a) then finish_active_turn a else Ok a in
  check? guard_not (ar_unfinished_result a && negb interrupted) Incomplete in
  Ok {| cl_run_id := ar_run_id a; cl_prompt := ar_prompt a; cl_selection := selection;
        cl_binding := ar_binding a; cl_exchanges := ar_exchanges a; cl_terminal := ar_terminal a;
        cl_turns_started := ar_turns_started a; cl_turns_finished := ar_turns_finished a;
        cl_last_turn := ar_last_turn a; cl_new_tool_dispatches := Z.of_nat (size (ar_saved a));
        cl_last_request := ar_last_request a; cl_interrupted := interrupted; cl_result_seen := false |}.

(** ** Closed runs *)
Definition exchange_count (c : ClosedRun) : Z := Z.of_nat (length (cl_exchanges c)).
Definition seen (c : ClosedRun) : ClosedRun := {|
  cl_run_id := cl_run_id c; cl_prompt := cl_prompt c; cl_selection := cl_selection c;
  cl_binding := cl_binding c; cl_exchanges := cl_exchanges c; cl_terminal := cl_terminal c;
  cl_turns_started := cl_turns_started c; cl_turns_finished := cl_turns_finished c;
  cl_last_turn := cl_last_turn c; cl_new_tool_dispatches := cl_new_tool_dispatches c;
  cl_last_request := cl_last_request c; cl_interrupted := cl_interrupted c; cl_result_seen := true |}.

Definition no_results (x : ReplayExchange) : bool := match re_tool_results x with [] => true | _ => false end.

(** [ClosedRun::result]. *)
Definition closed_result (result : RunResult) (c : ClosedRun) : Rebuilt ClosedRun :=
  let s := res_summary result in
  check? guard_not (cl_result_seen c || negb (bool_decide (res_run_id result = cl_run_id c))
                    || negb (model_requests_attempted s =? exchange_count c)
                    || negb (model_requests_admitted s =? exchange_count c)
                    || negb (turns_started s =? cl_turns_started c)
                    || (turns_finished s <? cl_turns_finished c)
                    || (cl_turns_started c <? turns_finished s)
                    || negb (bool_decide (last_request_id s = cl_last_request c))) Incomplete in
  let? same := equal response_value (res_last_response result) (re_response <$> last (cl_exchanges c)) in
  check? guard_not (negb same) Incomplete in
  check? guard_not (is_some_and (cl_binding c) (fun b =>
                      negb (bool_decide (res_session_id result = Some (pb_provider_session_id b))))) Inconsistent in
  check? match cl_terminal c with
         | Some (outcome, summary) =>
             check? guard_not (negb (bool_decide (outcome = res_outcome result))) Incomplete in
             let? same := equal summary_value summary s in guard_not (negb same) Incomplete
         | None => guard_not (res_events_complete result) Incomplete
         end in
  check? guard_not (bool_decide (res_outcome result = Completed)
                    && is_none_or (last (cl_exchanges c)) (fun x => negb (no_results x))) Incomplete in
  check? guard_not (match cl_exchanges c with [] => true | _ => false end
                    && (negb (new_tool_dispatches s =? 0) || negb (tool_results_prepared s =? 0)
                        || negb (reused_results s =? 0))) Incomplete in
  Ok (seen c).

(** The results all exchanges of a run hold. *)
Definition prepared_results (c : ClosedRun) : Z :=
  Z.of_nat (sum_list_with (fun x => length (re_tool_results x)) (cl_exchanges c)).

(** Whether the last turn explains the outcome of the run. *)
Definition outcome_matches (c : ClosedRun) (outcome : RunOutcome) : bool :=
  match fst <$> cl_last_turn c with
  | Some ModelCompleted => bool_decide (outcome = Completed)
  | Some (Stopped reason) => negb (bool_decide (reason = Completed)) && bool_decide (outcome = reason)
  | Some ToolsPrepared =>
      bool_decide (outcome = CancelledLocally) || bool_decide (outcome = Failed "counter_overflow")
  | None => negb (bool_decide (outcome = Completed))
  end.

(** [ClosedRun::require_result]; the subtraction is the source's on [u64]. *)
Definition require_result (c : ClosedRun) : Rebuilt unit :=
  check? match cl_terminal c with
         | None => Ok tt
         | Some (outcome, s) =>
             guard_not (negb (outcome_matches c outcome)
                        || negb (turns_started s =? cl_turns_started c)
                        || negb (turns_finished s =? cl_turns_finished c)
                        || negb (cl_turns_finished c =? cl_turns_started c)
                        || negb (model_requests_attempted s =? exchange_count c)
                        || negb (model_requests_admitted s =? exchange_count c)
                        || negb (new_tool_dispatches s =? cl_new_tool_dispatches c)
                        || negb (tool_results_prepared s =? prepared_results c)
                        || negb (reused_results s =? as_u64 (prepared_results c - cl_new_tool_dispatches c))
                        || negb (bool_decide (last_request_id s = cl_last_request c))
                        || negb (bool_decide (last_upstream_outcome s = (cl_last_turn c ≫= snd)))) Incomplete
         end in
  guard_not (negb (cl_result_seen c)
             && (match cl_exchanges c with [] => true | _ => false end
                 || (is_none (cl_terminal c)
                     && (negb (cl_interrupted c) || negb (cl_turns_started c =? exchange_count c))))) Incomplete.
End rebuild.
