(* ===== verification/Prepare.v ===== *)
(** * Replay preparation (src/src/execution/replay.rs)

    The history of a session, read page by page up to its head and rebuilt into
    the runs a new run continues from; the selection names the prefix it was
    rebuilt from. *)
From S2P Require Import Prelude Json Errors Identifiers Provider Tools Replay RunData Run.
From S2P Require Import Records Store History Session RunStore StoreGuarantees Prefix Persist Rebuild.

(** [incomplete], [provenance], [metadata] and [incompatible]. *)
Definition history_message (e : RebuildError) : string :=
  match e with
  | Incomplete => "stored history is incomplete for native replay"
  | NoProvenance => "stored history has no replay provenance"
  | Inconsistent => "stored history replay metadata is inconsistent"
  | Incompatible => "stored history provider or model is incompatible"
  end.
Definition rebuild_failure (e : RebuildError) : PersistentRunFailure :=
  history_failure (CauseGateway (InvalidRequest (history_message e))).

(** [storage]. *)
Definition history_storage (e : StorageError) : PersistentRunFailure := history_failure (CauseStorage e).

(** ** Results *)
Inductive ReplayExclusionDisposition : Type := DefinitelyUnsubmitted.

Record ExcludedReplayRun : Type := {
  ex_run_id : string;
  ex_disposition : ReplayExclusionDisposition
}.

Record PreparedSessionReplay : Type := {
  pr_selection : StoredHistorySelection;
  pr_replay : ConversationReplay;
  pr_included_exchange_count : Z;
  pr_excluded_runs : list ExcludedReplayRun
}.

(** [included_run_count]. *)
Definition included_run_count (p : PreparedSessionReplay) : Z := Z.of_nat (length (cr_runs (pr_replay p))).

(** ** The builder *)
Record Builder : Type := mkBuilder {
  bd_active : option ActiveRun;
  bd_closed : list ClosedRun;
  bd_closed_ids : gmap string nat;
  bd_checkpoints : list (Z * string)
}.

(** [Builder::default]. *)
Definition new_builder : Builder := mkBuilder None [] ∅ [].

Definition with_active (a : option ActiveRun) (b : Builder) : Builder :=
  mkBuilder a (bd_closed b) (bd_closed_ids b) (bd_checkpoints b).
Definition checkpoint (s : StoredHistorySelection) (b : Builder) : Builder :=
  mkBuilder (bd_active b) (bd_closed b) (bd_closed_ids b)
    (bd_checkpoints b ++ [(hs_through_sequence s, hs_history_digest s)]).

Section prepare.
Context `{SerdeJson} `{ReplaySerde}.

(** [Builder::close_active]. *)
Definition close_active (interrupted : bool) (b : Builder) : Rebuilt Builder :=
  let? a := ok_or (bd_active b) Inconsistent in
  let? c := close_run interrupted a in
  Ok (mkBuilder None (bd_closed b ++ [c]) (<[cl_run_id c := length (bd_closed b)]> (bd_closed_ids b))
        (bd_checkpoints b)).

(** [Builder::result]; the index is of a run that was closed. *)
Definition builder_result (r : RunResult) (b : Builder) : Rebuilt Builder :=
  let? b := if is_some_and (bd_active b) (fun a => bool_decide (ar_run_id a = res_run_id r)) then
              check? guard_not (res_events_complete r) Incomplete in close_active false b
            else Ok b in
  let? index := ok_or (bd_closed_ids b !! res_run_id r) Inconsistent in
  let? c := ok_or (bd_closed b !! index) Inconsistent in
  let? c := closed_result r c in
  Ok (mkBuilder (bd_active b) (<[index := c]> (bd_closed b)) (bd_closed_ids b) (bd_checkpoints b)).

(** What a payload of the active run changes in [observe]. *)
Definition observe_active (sequence : Z) (payload : StoredEventPayload) (a : ActiveRun) (b : Builder)
  : Rebuilt Builder :=
  match payload with
  | RunHistorySelected p =>
      let? a := select_history sequence (sel_selection p) a in
      Ok (checkpoint (sel_selection p) (with_active (Some a) b))
  | RunProviderBound binding => let? a := bind_provider binding a in Ok (with_active (Some a) b)
  | RuntimeObserved event =>
      let? a := runtime event a in
      let b := with_active (Some a) b in
      match ev_event event with RunFinished _ _ => close_active false b | _ => Ok b end
  | ToolResultRecorded r => let? a := active_tool_result r a in Ok (with_active (Some a) b)
  | RunInterrupted _ => close_active true b
  | _ => Err Inconsistent
  end.

(** [Builder::observe]. *)
Definition observe (event : StoredEvent) (b : Builder) : Rebuilt Builder :=
  check? match bd_active b with
         | Some a => if negb (st_sequence event =? ar_accepted_sequence a + 1) then require_selection a else Ok tt
         | None => Ok tt
         end in
  match st_payload event with
  | SessionCreated _ | SessionRenamed _ => Ok b
  | RunAccepted accepted =>
      check? guard_not (is_some (bd_active b) || is_some (bd_closed_ids b !! ac_run_id accepted)) Incomplete in
      Ok (with_active (Some (new_active (st_sequence event) accepted)) b)
  | RunResultRecorded result => builder_result result b
  | payload =>
      let? a := ok_or (bd_active b) Inconsistent in
      check? guard_not (negb (bool_decide (st_run_id event = Some (ar_run_id a)))) Inconsistent in
      observe_active (st_sequence event) payload a b
  end.

(** The loop over the records of a page. *)
Fixpoint observe_page (through sequence : Z) (records : list StoredEvent) (b : Builder) : Rebuilt (Z * Builder) :=
  match records with
  | [] => Ok (sequence, b)
  | event :: records =>
      check? guard_not (negb (st_sequence event =? sequence + 1) || (through <? st_sequence event)) Inconsistent in
      let? b := observe event b in
      observe_page through (st_sequence event) records b
  end.

(** ** The closed runs *)
Record Selected : Type := mkSelected {
  sl_identity : option ReplayIdentity;
  sl_runs : list ReplayRun;
  sl_excluded : list ExcludedReplayRun;
  sl_exchanges : Z
}.

(** The body of the loop over the closed runs. *)
Definition select_run (provider requested_model : string) (c : ClosedRun) (s : Selected) : Rebuilt Selected :=
  let selected := cl_selection c in
  check? guard_not (negb (bool_decide (hs_expected_identity selected = sl_identity s))) Inconsistent in
  check? require_result c in
  match cl_exchanges c with
  | [] => Ok (mkSelected (sl_identity s) (sl_runs s)
                (sl_excluded s ++ [{| ex_run_id := cl_run_id c; ex_disposition := DefinitelyUnsubmitted |}])
                (sl_exchanges s))
  | exchanges =>
      let? binding := ok_or (cl_binding c) NoProvenance in
      let identity := pb_identity binding in
      check? guard_not (negb (bool_decide (hs_provider_id selected = provider))
                        || negb (bool_decide (hs_requested_model selected = requested_model))
                        || negb (bool_decide (ri_provider_id identity = provider))
                        || negb (bool_decide (pb_requested_model binding = requested_model))
                        || is_some_and (sl_identity s) (fun old => negb (bool_decide (ri_format old = ri_format identity))))
               Incompatible in
      check? guard_not (is_some_and (sl_identity s) (fun old => negb (bool_decide (old = identity)))) Inconsistent in
      let? run := map_err (new_run (cl_run_id c) (cl_prompt c) exchanges) (fun _ => Incomplete) in
      Ok (mkSelected (Some identity) (sl_runs s ++ [run]) (sl_excluded s)
            (sl_exchanges s + Z.of_nat (length exchanges)))
  end.

Fixpoint select_runs (provider requested_model : string) (closed : list ClosedRun) (s : Selected) : Rebuilt Selected :=
  match closed with
  | [] => Ok s
  | c :: closed => let? s := select_run provider requested_model c s in select_runs provider requested_model closed s
  end.
End prepare.

(** ** The preparation *)
Section session.
Context {W D : Type} `{Display D} `{UuidLib} `{SerdeJson} `{ProviderSerde} `{StorageSerde} `{RowSerde} `{ReplaySerde}.
Context `{Environment W} `{StoreHost W}.
Context (provenance : CreationProvenance).
Implicit Types w : World W D.
Notation PM := (SM (World W D) Halt).

(** [SessionHandle::history_page]. *)
Definition history_page (after : Z) (through : option Z) (page_size : Z) w : SResult HistoryPage * World W D :=
  match page_limit page_size with
  | Err e => (Err e, w)
  | Ok limit =>
      if (i64_max <? after) || is_some_and through (fun s => i64_max <? s) then (Err invalid, w)
      else handle_read provenance (page (cp_session_id provenance) after through limit) w
  end.

(** [SessionHandle::history_prefix_digest]. *)
Definition history_prefix_digest (through : Z) (checkpoints : list (Z * string))
  : World W D -> SResult string * World W D :=
  handle_read provenance (prefix_digest through checkpoints).

Definition rebuilt {A} (r : Rebuilt A) : PM A := lift (map_err r (fun e => Failure (rebuild_failure e))).
Definition stored {A} (c : World W D -> SResult A * World W D) : PM A :=
  fun w => let '(r, w) := c w in (map_err r (fun e => Failure (history_storage e)), w).

(** The loop over the pages: every page is observed, the last one ends it. *)
Fixpoint read_pages (fuel : nat) (through sequence : Z) (b : Builder) (p : HistoryPage) : PM (Z * Builder) :=
  match fuel with
  | O => throw (Died OutOfFuel)
  | S fuel =>
      let! x := rebuilt (observe_page through sequence (hp_records p) b) in
      let sequence := fst x in
      if negb (hp_has_more p) then ret x
      else
        do! rebuilt (guard_not (negb (hp_next_after p =? sequence)) Inconsistent) in
        let! p := stored (history_page sequence (Some through) 128) in
        read_pages fuel through sequence (snd x) p
  end.

(** [prepare_session_replay]. *)
Definition prepare_session_replay (fuel : nat) (provider requested_model : string) : PM PreparedSessionReplay :=
  do! rebuilt (map_err (new_conversation provider requested_model None []) (fun _ => Incompatible)) in
  let! p := stored (history_page 0 None 128) in
  let through := hp_through_sequence p in
  let! x := read_pages fuel through 0 new_builder p in
  let b := snd x in
  do! rebuilt (guard_not (negb (fst x =? through)) Inconsistent) in
  do! rebuilt (match bd_active b with
               | Some a => check? require_selection a in Err Incomplete
               | None => Ok tt
               end) in
  let! digest := stored (history_prefix_digest through (bd_checkpoints b)) in
  let! s := rebuilt (select_runs provider requested_model (bd_closed b) (mkSelected None [] [] 0)) in
  let! selection := stored (fun w => (new_selection through digest provider requested_model (sl_identity s), w)) in
  let! replay := rebuilt (map_err (new_conversation provider requested_model (sl_identity s) (sl_runs s))
                            (fun _ => Inconsistent)) in
  ret {| pr_selection := selection; pr_replay := replay; pr_included_exchange_count := sl_exchanges s;
         pr_excluded_runs := sl_excluded s |}.
End session.
