(* ===== verification/Submit.v ===== *)
(** * Submissions (src/src/execution/mod.rs, storage/acceptance.rs)

    One submission of a run to a session: the lookup of its receipt, the
    preparation of the history, the admission, the acceptance, the run and its
    last record. *)
From S2P Require Import Prelude Json Errors Identifiers Provider Tools Replay RunData Run.
From S2P Require Import Records Store History Session RunStore StoreGuarantees Prefix Persist Rebuild Prepare.

Section submit.
Context {W D : Type} `{Display D} `{UuidLib} `{SerdeJson} `{ProviderSerde} `{StorageSerde} `{RowSerde} `{ReplaySerde}.
Context `{Environment W} `{StoreHost W} `{OperationIds}.
Context (provenance : CreationProvenance) (owner : string).
Implicit Types w : World W D.
Notation PM := (SM (World W D) Halt).

(** [RunMode]; a notification changes the surroundings. *)
Record RunMode : Type := {
  restore_history : bool;
  accepted : option (CommitResult -> W -> W)
}.

(** [RunAcceptance::accept_run], [accept_history_run] and [repeat_history_run]. *)
Definition accept_run (operation_id run : string) (input : RecordedRunInput)
  : World W D -> SResult CommitResult * World W D :=
  handle_record provenance owner operation_id run (Accept input).

Definition accept_history_run (operation_id run : string) (input : RecordedRunInput)
    (selection : StoredHistorySelection) : World W D -> SResult CommitResult * World W D :=
  handle_record provenance owner operation_id run (AcceptHistory input selection).

Definition repeat_history_run (operation_id run : string) (input : RecordedRunInput)
    (receipt : CommitReceipt) w : SResult CommitResult * World W D :=
  match rc_run_id receipt with
  | None => (Err (not_committed conflict), w)
  | Some original =>
      let '(r, w) := handle_read provenance (history_selection (cp_session_id provenance) original) w in
      match r with
      | Err e => (Err e, w)
      | Ok None => (Err (not_committed conflict), w)
      | Ok (Some selection) => accept_history_run operation_id run input selection w
      end
  end.

(** [accepted_run_record]. *)
Definition accepted_run_record (run : string) : World W D -> SResult RecordedRun * World W D :=
  handle_read provenance (fun db => let? r := run_record (cp_session_id provenance) run db in ok_or r integrity).

Definition notify (mode : RunMode) (acceptance : CommitResult) : PM unit :=
  match accepted mode with
  | None => ret tt
  | Some f => modify (fun w => set_outer (f acceptance (outer w)) w)
  end.

(** [duplicate]. *)
Definition duplicate (run : string) (acceptance : CommitResult) : PM PersistentRunResult :=
  let! r := on_world (accepted_run_record run) in
  match r with
  | Ok record => ret (Duplicate acceptance record)
  | Err e => throw (Failure (with_acceptance acceptance
               (storage_failure PersistentRunStage.Lookup (rc_operation_id (cm_receipt acceptance)) e)))
  end.

(** The acceptance has returned: a failure ends the submission, a receipt is
    announced. *)
Definition settle_acceptance (mode : RunMode) (operation_id : string) (r : SResult CommitResult)
  : PM CommitResult :=
  let! acceptance := settled (check_commit PersistentRunStage.Acceptance operation_id r) in
  do! notify mode acceptance in
  ret acceptance.

(** The run itself, its observer and its last record. *)
Definition run_accepted (fuel : nat) (g : Gateway) (a : AdmittedRun) (run : string)
    (acceptance : CommitResult) : PM PersistentRunResult :=
  fun w =>
    let '(r, st) := @run_admitted _ (persist_env provenance owner run) _ _ _ fuel g a run (set_failure None w) in
    let w := world st in
    match r with
    | Err s => (Err (Died s), w)
    | Ok res =>
        match failure w with
        | Some f => (Err (Failure (with_execution acceptance res f)), w)
        | None =>
            let operation_id := fresh_operation (catch_up provenance w) in
            let '(r, w) := handle_record provenance owner operation_id run (Append [RResult res]) w in
            match check_commit PersistentRunStage.FinalResult operation_id r with
            | Ok final_record => (Ok (Executed acceptance final_record res), w)
            | Err f => (Err (Failure (with_execution acceptance res f)), w)
            end
        end
    end.

(** A submission whose operation has a receipt already. *)
Definition repeat_submission (mode : RunMode) (q : PersistentRunRequest) (receipt : CommitReceipt)
  : PM PersistentRunResult :=
  let! r := on_world (if restore_history mode
                      then repeat_history_run (pq_operation_id q) (pq_run_id q) (pq_input q) receipt
                      else accept_run (pq_operation_id q) (pq_run_id q) (pq_input q)) in
  let! acceptance := settle_acceptance mode (pq_operation_id q) r in
  duplicate (pq_run_id q) acceptance.

(** The replay of the session's history, when the mode asks for it. *)
Definition prepare (fuel : nat) (mode : RunMode) (request : RunRequest) : PM (option PreparedSessionReplay) :=
  if restore_history mode then
    let! prepared := prepare_session_replay provenance fuel (rq_provider_id request) (model (rq_options request)) in
    ret (Some prepared)
  else ret None.

(** Admission with the recorded tool definitions, and with the replay. *)
Definition admit_submission (g : Gateway) (registry : ToolRegistry) (input : RecordedRunInput)
    (prepared : option PreparedSessionReplay) : PM AdmittedRun :=
  let! cancelled := on_world (on_outer is_cancelled) in
  let! a := settled (map_err (admit_with_snapshot g (prepared_request input) registry cancelled
                                (Some (tool_definitions input))) preflight_failure) in
  match prepared with
  | None => ret a
  | Some p => settled (map_err (with_replay a g (pr_replay p)) preflight_failure)
  end.

(** [run_held]. *)
Definition run_held (fuel : nat) (g : Gateway) (registry : ToolRegistry) (mode : RunMode)
    (q : PersistentRunRequest) : PM PersistentRunResult :=
  let operation_id := pq_operation_id q in
  let run := pq_run_id q in
  let! receipt := or_fail PersistentRunStage.Lookup operation_id (lookup_receipt provenance operation_id) in
  let! receipt := match receipt with
                  | None => or_fail PersistentRunStage.Lookup operation_id (lookup_receipt provenance operation_id)
                  | Some receipt => ret (Some receipt)
                  end in
  match receipt with
  | Some receipt => repeat_submission mode q receipt
  | None =>
      let! prepared := prepare fuel mode (prepared_request (pq_input q)) in
      let! a := admit_submission g registry (pq_input q) prepared in
      let! r := on_world match prepared with
                         | None => accept_run operation_id run (pq_input q)
                         | Some p => accept_history_run operation_id run (pq_input q) (pr_selection p)
                         end in
      let! acceptance := settle_acceptance mode operation_id r in
      if cm_duplicate acceptance then duplicate run acceptance
      else run_accepted fuel g a run acceptance
  end.

(** [run_owned]. *)
Definition run_owned (fuel : nat) (g : Gateway) (registry : ToolRegistry) (mode : RunMode)
    (q : PersistentRunRequest) : PM PersistentRunResult :=
  fun w =>
    let '(refused, o) := hold_refused (outer w) in
    let w := set_outer o w in
    match refused with
    | Some e => (Err (Failure (storage_failure PersistentRunStage.Lookup (pq_operation_id q) e)), w)
    | None => let '(r, w) := run_held fuel g registry mode q w in (r, set_outer (hold_finish (outer w)) w)
    end.

(** [run_in_session], [run_in_session_notifying] and [run_persisted]. *)
Definition run_in_session (fuel : nat) (g : Gateway) (registry : ToolRegistry) (q : PersistentRunRequest)
  : PM PersistentRunResult :=
  run_owned fuel g registry {| restore_history := true; accepted := None |} q.
Definition run_in_session_notifying (fuel : nat) (g : Gateway) (registry : ToolRegistry)
    (q : PersistentRunRequest) (accepted : CommitResult -> W -> W) : PM PersistentRunResult :=
  run_owned fuel g registry {| restore_history := true; accepted := Some accepted |} q.
Definition run_persisted (fuel : nat) (g : Gateway) (registry : ToolRegistry) (q : PersistentRunRequest)
  : PM PersistentRunResult :=
  run_owned fuel g registry {| restore_history := false; accepted := None |} q.
End submit.
