(* ===== verification/PersistStore.v ===== *)
(** * A session under one run

    What the operations of a persisted run do to the events of its run, while
    other handles of the same process work on the same session: they rename it,
    open it again, and accept and append other runs. *)
From S2P Require Import Prelude Json Errors Identifiers Provider Tools Replay RunData Run Hoare RunSafety Records Store History Session RunStore StoreSafety StoreCommands StoreGuarantees StoreContents Persist.

Section rows.
Context {D : Type} `{Display D} `{UuidLib} `{StorageSerde}.
Implicit Types db : Db D.

(** ** Which rows of [runs] a command creates *)

(** Every row was there with the same owner, or is a new one that [N] allows. *)
Definition places {A} (N : string -> RunRow -> Prop) (c : SM (Db D) StorageError A) : Prop :=
  forall db a db', c db = (Ok a, db') -> forall k r', runs db' !! k = Some r' ->
    (exists r, runs db !! k = Some r /\ run_owner_instance_id r' = run_owner_instance_id r) \/ N k r'.

Lemma places_same {A} N (c : SM (Db D) StorageError A) :
  (forall db a db', c db = (Ok a, db') -> runs db' = runs db) -> places N c.
Proof. intros Hc db a db' Hr k r Hk. rewrite (Hc _ _ _ Hr) in Hk. left. by exists r. Qed.

Lemma places_bind {A B} N (c : SM (Db D) StorageError A) (k : A -> SM (Db D) StorageError B) :
  (forall key r r', N key r -> run_owner_instance_id r' = run_owner_instance_id r -> N key r') ->
  places N c -> (forall a, places N (k a)) -> places N (bind c k).
Proof.
  intros HN Hc Hk db b db' Hb key r' Hr'. unbind Hb.
  destruct (Hk _ _ _ _ Hb _ _ Hr') as [(r1 & Hr1 & Ho)|]; [|by right].
  destruct (Hc _ _ _ Hc0 _ _ Hr1) as [(r & Hr & Ho')|Hn]; [left; exists r; split; [done|congruence]|].
  right. by eapply HN.
Qed.

Lemma places_ret {A} N (a : A) : places N (ret a).
Proof. apply places_same. by intros db x db' [= _ <-]. Qed.
Lemma places_throw {A} N e : places N (@throw (Db D) StorageError A e).
Proof. by intros db x db' Ht. Qed.
Lemma places_lift {A} N (r : SResult A) : places N (lift r).
Proof. apply places_same. intros db x db' Hl. by injection Hl as _ <-. Qed.
Lemma places_reads {A} N (f : Db D -> SResult A) : places N (reads f).
Proof. apply places_same. intros db x db' Hl. by injection Hl as _ <-. Qed.
Lemma places_apply N n run input : places N (apply n run input).
Proof. apply places_same. intros db x db' Ha. by apply apply_same in Ha as (_ & _ & -> & _). Qed.
Lemma places_insert_event_row N row : places N (insert_event_row row).
Proof. apply places_same. intros db x db' Ha. by apply insert_event_row_Ok in Ha as [_ ->]. Qed.

Lemma places_update_run N key f :
  (forall r, run_owner_instance_id (f r) = run_owner_instance_id r) -> places N (update_run key f).
Proof.
  intros Hf db x db' Hu k r' Hr'. left. apply update_run_Ok in Hu as [[_ ->]|(r & Hr & _ & ->)]; [by exists r'|].
  simpl in Hr'. apply lookup_insert_Some in Hr' as [[<- <-]|[_ Hr']]; [by exists r | by exists r'].
Qed.

Lemma places_update_tool N k f : places N (update_tool k f).
Proof. apply places_same. intros db x db' Hu. by apply update_tool_Ok in Hu as [[_ ->]|(r & _ & ->)]. Qed.

Lemma places_insert_tool N k t : places N (insert_tool k t).
Proof.
  apply places_same. intros db x db' Hi. unfold insert_tool in Hi. unbind Hi.
  apply require_constraint_Ok in Hc as [_ ->]. by injection Hi as _ <-.
Qed.

Lemma places_insert_run (N : string -> RunRow -> Prop) k r : N k r -> places N (insert_run k r).
Proof.
  intros HN db x db' Hi. unfold insert_run in Hi. unbind Hi. apply require_constraint_Ok in Hc as [_ ->].
  injection Hi as _ <-. intros k' r'. simpl. intros [[<- <-]|[_ Hr]]%lookup_insert_Some; [by right|].
  left. by exists r'.
Qed.

Lemma places_update_manifest N f : places N (update_manifest f).
Proof.
  apply places_same. intros db x db' Hu. unfold update_manifest in Hu.
  destruct (manifest db); [|by injection Hu as _ <-].
  unbind Hu. apply require_constraint_Ok in Hc as [_ ->]. by injection Hu as _ <-.
Qed.

Lemma places_insert_command N c : places N (insert_command c).
Proof. apply places_same. intros db x db' Hi. by apply insert_command_Ok in Hi as [-> _]. Qed.
End rows.

Create HintDb places.
#[export] Hint Resolve places_ret places_throw places_lift places_reads places_apply places_insert_event_row
  places_update_run places_update_tool places_insert_tool places_update_manifest places_insert_command : places.

(** Split a program along its structure; [HN] is the side condition of a bind. *)
Ltac places_auto HN :=
  repeat first
    [ solve [eauto with places]
    | match goal with |- places _ (bind _ _) => apply places_bind; [exact HN| |intros ?] end
    | match goal with |- places _ (match ?x with _ => _ end) => destruct x end
    | match goal with |- places _ (if ?x then _ else _) => destruct x end ].

Section commands.
Context {D : Type} `{Display D} `{UuidLib} `{StorageSerde}.
Implicit Types db : Db D.
Context (N : string -> RunRow -> Prop).
Context (HN : forall key r r', N key r -> run_owner_instance_id r' = run_owner_instance_id r -> N key r').
Notation places := (places (D := D) N).

Lemma places_terminalize run n o json : places (terminalize run n o json).
Proof using HN. unfold terminalize. places_auto HN. Qed.
Lemma places_record_tool_event id run n e t : places (record_tool_event id run n e t).
Proof using HN. unfold record_tool_event. places_auto HN. Qed.
Lemma places_require_outputs run o : places (require_outputs run o).
Proof using HN. unfold require_outputs. places_auto HN. Qed.
Hint Resolve places_terminalize places_record_tool_event places_require_outputs : places.

Lemma places_append_effect id run n json record : places (append_effect id run n json record).
Proof using HN. unfold append_effect. places_auto HN. Qed.
Hint Resolve places_append_effect : places.

Lemma places_append clock id run n ts record : places (append clock id run n ts record).
Proof using HN. unfold append, insert_event. places_auto HN. Qed.
Hint Resolve places_append : places.

Lemma places_append_all clock id ts records :
  forall n run c u, places (append_all clock id ts run c u n records).
Proof using HN. induction records as [|record records IH]; intros n run c u; simpl; places_auto HN. Qed.

Lemma places_reconcile_body clock provenance owner : places (reconcile_body clock provenance owner).
Proof using HN. unfold reconcile_body, insert_event. places_auto HN. Qed.

Lemma places_rename_body clock provenance operation title : places (rename_body clock provenance operation title).
Proof using HN. unfold rename_body. places_auto HN. Qed.
End commands.

Section bodies.
Context {D : Type} `{Display D} `{UuidLib} `{StorageSerde}.
Implicit Types db : Db D.

(** An accept creates its own run, for its owner; nothing else creates one. *)
Lemma places_mutate_body clock provenance owner operation run mutation :
  places (D := D) (fun k r => k = run /\ run_owner_instance_id r = owner)
    (mutate_body clock provenance owner operation run mutation).
Proof.
  set (N := fun k r => _).
  assert (forall key r r', N key r -> run_owner_instance_id r' = run_owner_instance_id r -> N key r') as HN.
  { intros key r r' [-> <-] Ho. by split. }
  assert (forall first last ts input selection,
    places (D := D) N (accept clock owner run first last ts input selection)) as Ha.
  { intros. unfold accept, insert_event. places_auto HN. by apply places_insert_run. }
  unfold mutate_body, replay_command. places_auto HN.
  all: eauto using places_append_all.
Qed.

(** ** The events of one run *)
Definition of_run (run : string) (r : EventRow) : bool := bool_decide (row_run_id r = Some run).

(** What the session shows of a run: the payload of each of its events. *)
Definition run_log (id run : string) db : list (SResult StoredEventPayload) :=
  (fun r => let? e := decode_event id r in Ok (st_payload e)) <$> List.filter (of_run run) (events db).

Lemma decode_event_run id r e : decode_event id r = Ok e -> st_run_id e = row_run_id r.
Proof.
  unfold decode_event. intros Hd. destruct (u64_try_from _) as [n|]; [|done]. cbn [ok_or] in Hd.
  destruct (parse_id (row_event_id r)) as [eid|]; [|done]. cbn [map_err] in Hd.
  destruct (row_run_id r) as [run|].
  - destruct (parse_id run) as [run'|] eqn:Hp; [|done]. cbn [map_err] in Hd.
    assert (run' = run) as ->.
    { unfold parse_id in Hp. destruct (parse_str run); [|done]. cbn [ok_or] in Hp.
      destruct (_ || _) in Hp; [done|]. by injection Hp. }
    destruct (_ || _) in Hd; [done|]. destruct (payload_from_json _ _); [|done]. cbn [ok_or] in Hd.
    destruct (payload_fits _ _ _ _ _ _); [|done]. destruct (negb _) in Hd; [done|]. by injection Hd as <-.
  - destruct (_ || _) in Hd; [done|]. destruct (payload_from_json _ _); [|done]. cbn [ok_or] in Hd.
    destruct (payload_fits _ _ _ _ _ _); [|done]. destruct (negb _) in Hd; [done|]. by injection Hd as <-.
Qed.

Lemma wrote_run_log id run owner db ps db' :
  wrote id owner db ps db' ->
  run_log id run db' = run_log id run db ++ (if bool_decide (owner = Some run) then Ok <$> ps else []).
Proof.
  intros (rows & He & Hs). unfold run_log. rewrite He, List.filter_app, fmap_app. f_equal. clear He.
  induction Hs as [|r p rows ps (e & He & Hp & Hr) _ IH]; simpl; [by destruct (bool_decide _)|].
  rewrite (decode_event_run _ _ _ He) in Hr. unfold of_run at 1. rewrite Hr.
  destruct (bool_decide_reflect (owner = Some run)) as [Ho|Ho]; [|done].
  simpl. rewrite He, Hp. by f_equal.
Qed.
End bodies.

(** ** Other handles *)

(** What another handle of process [owner] may attempt beside run [run]: anything
    but a command on that run. *)
Definition foreign `{UuidLib} (owner run : string) (a : Attempt) : Prop :=
  attempt_ok a /\ at_owner a = owner /\
  match at_request a with Mutate _ run' _ => run' <> run | _ => True end.

Section session.
Context {D : Type} `{Display D} `{UuidLib} `{StorageSerde} {laws : StorageSerdeLaws}.
Context (provenance : CreationProvenance) (owner run : string).
Implicit Types db : Db D.
Notation id := (cp_session_id provenance).

(** The run, if it was accepted, belongs to this process. *)
Definition mine db : Prop := forall r, runs db !! run = Some r -> run_owner_instance_id r = owner.

(** A sound session that shows exactly [l] of the run. *)
Record shown_db (l : list (SResult StoredEventPayload)) db : Prop := {
  shown_sound : sound db;
  shown_mine : mine db;
  shown_log : run_log id run db = l
}.

Lemma mine_places {A} (N : string -> RunRow -> Prop) (c : SM (Db D) StorageError A) db a db' :
  places N c -> (forall r, N run r -> run_owner_instance_id r = owner) ->
  c db = (Ok a, db') -> mine db -> mine db'.
Proof.
  intros Hp HN Hc Hm r' Hr'. destruct (Hp _ _ _ Hc _ _ Hr') as [(r & Hr & ->)|Hn]; [by apply Hm | by apply HN].
Qed.

Lemma shown_wrote l db o ps db' :
  shown_db l db -> kept db db' -> mine db' -> wrote id o db ps db' ->
  shown_db (l ++ if bool_decide (o = Some run) then Ok <$> ps else []) db'.
Proof. intros [Hs Hm Hl] (_ & Hs' & _) Hm' Hw. split; [done..|]. by rewrite (wrote_run_log _ _ _ _ _ _ Hw), Hl. Qed.

(** What another handle does leaves the events of the run as they are. *)
Lemma shown_foreign l a db : foreign owner run a -> shown_db l db -> shown_db l (attempt provenance a db).
Proof using laws.
  intros ([Hclock Hrun] & Ho & Hf) Hsh. pose proof Hsh as [Hs Hm Hl].
  unfold attempt. destruct (at_request a) as [operation title|operation run' mutation|].
  - apply (transaction_keeps _ _ _ (shown_db l)); [done|]. intros [receipt dup] db1 Hb.
    pose proof Hb as Hsp. apply rename_body_spec in Hsp as (q & _ & Hsp); [|done].
    destruct dup; [by destruct Hsp as [-> _]|].
    rewrite <- (app_nil_r l). eapply (shown_wrote l db None); [done|by eapply performed_kept| |by eapply rename_body_wrote].
    eapply (mine_places (fun _ _ => False)); [apply places_rename_body; done|done|exact Hb|done].
  - apply (transaction_keeps _ _ _ (shown_db l)); [done|]. intros [receipt dup] db1 Hb.
    pose proof Hb as Hsp. apply mutate_body_spec in Hsp as (q & _ & Hsp); [|done].
    destruct dup; [by destruct Hsp as [-> _]|].
    replace l with (l ++ if bool_decide (Some run' = Some run) then Ok <$> payloads (at_owner a) run' mutation else [])
      by (rewrite bool_decide_eq_false_2 by congruence; apply app_nil_r).
    eapply shown_wrote; [done|by eapply performed_kept| |by eapply mutate_body_wrote].
    eapply mine_places; [apply places_mutate_body| |exact Hb|done]. intros r [<- _]. done.
  - apply (transaction_keeps _ _ _ (shown_db l)); [done|]. intros x db1 Hb. rewrite Ho in Hb.
    assert (kept db db1 /\ mine db1) as [Hk Hm1].
    { split; [|by eapply (mine_places (fun _ _ => False)); [apply places_reconcile_body| |exact Hb|]].
      apply reconcile_body_spec in Hb as [_ [[_ ->]|(k & Hi)]]; [by apply kept_refl| |done].
      by eapply extended_kept, ip_extended. }
    apply reconcile_body_wrote in Hb as [->|(k & q & Hq & Hne & Hw)]; [done| |done|done].
    assert (k <> run) as Hkr by (intros ->; by apply Hne, Hm).
    replace l with (l ++ if bool_decide (Some k = Some run) then Ok <$> [RunInterrupted {| in_run_id := k |}] else [])
      by (rewrite bool_decide_eq_false_2 by congruence; apply app_nil_r).
    by eapply shown_wrote.
Qed.
End session.

(** ** The operations of the handle *)

(** What the theorems assume of the surroundings of a run of process [owner]:
    clocks are past the epoch and their identifiers canonical, other handles keep
    off the run, and a new operation identifier is one the session does not know. *)
Class HostLaws {W : Type} `{UuidLib} `{StoreHost W} `{OperationIds} (owner run : string) := {
  run_canonical : parse_id run = Ok run;
  others_foreign : forall o, Forall (foreign owner run) (fst (others o));
  operation_clock : forall o, match fst (operation o) with
                              | Refused _ => True
                              | Ran clock _ _ | Panicked clock _ => clock_ok clock
                              end;
  operation_new : forall l, new_operation l ∉ l
}.

Section handle.
Context {W D : Type} `{Display D} `{UuidLib} `{StorageSerde} {laws : StorageSerdeLaws}.
Context `{StoreHost W} `{OperationIds}.
Context (provenance : CreationProvenance) (owner run : string) {hl : HostLaws owner run}.
Notation id := (cp_session_id provenance).
Notation shown l w := (shown_db provenance owner run l (session w)).
Implicit Types w : World W D.

Lemma catch_up_shown l w : shown l w -> shown l (catch_up provenance w).
Proof using laws hl.
  intros Hs. unfold catch_up. pose proof (others_foreign (outer w)) as Hf.
  destruct (others (outer w)) as [as_ o]. simpl in *. revert Hs. generalize (session w).
  induction Hf as [|a as_ Ha _ IH]; intros db Hs; simpl; [done|]. by apply IH, shown_foreign.
Qed.

Lemma catch_up_failure w : failure (catch_up provenance w) = failure w.
Proof. unfold catch_up. by destruct (others (outer w)). Qed.

Lemma handle_read_shown {A} (f : Db D -> SResult A) l w r w' :
  shown l w -> handle_read provenance f w = (r, w') -> shown l w' /\ failure w' = failure w.
Proof using laws hl.
  intros Hs. unfold handle_read. destruct (read_refused _) as [e o]. intros [= _ <-]. simpl.
  split; [by apply catch_up_shown | apply catch_up_failure].
Qed.

Lemma find_command_known operation (db : Db D) c :
  find_command id operation db = Ok (Some c) -> operation ∈ cmd_operation_id <$> commands db.
Proof.
  unfold find_command. destruct (find _ _) as [row|] eqn:Hf; [|done]. intros _.
  apply find_some in Hf as [Hin Hop]. apply bool_decide_eq_true in Hop as <-.
  apply list_elem_of_fmap. exists row. split; [done|]. by apply list_elem_of_In.
Qed.

(** A command on the run itself adds its payloads, or nothing. *)
Lemma mutate_shown fate clock operation mutation l db r db' :
  clock_ok clock -> shown_db provenance owner run l db ->
  mutate fate clock provenance owner operation run mutation db = (r, db') ->
  let added := l ++ (Ok <$> payloads owner run mutation) in
  match r with
  | Ok (_, true) => shown_db provenance owner run l db' /\ operation ∈ cmd_operation_id <$> commands db
  | Ok (_, false) => shown_db provenance owner run added db'
  | Err e => shown_db provenance owner run l db' \/ se_certainty e = CommitCertainty.Unknown /\ shown_db provenance owner run added db'
  end.
Proof using laws hl.
  intros Hclock Hsh Ht added. apply transaction_inv in Ht as [(e & -> & ->)|([receipt dup] & db1 & Hb & Hr)]; [by left|].
  assert (if dup then db1 = db /\ operation ∈ cmd_operation_id <$> commands db
          else shown_db provenance owner run added db1) as Hd.
  { pose proof Hb as Hsp. apply mutate_body_spec in Hsp as (q & _ & Hsp); [|apply Hsh]. destruct dup.
    - destruct Hsp as [-> (c & Hc & _)]. split; [done|]. by eapply find_command_known.
    - unfold added. replace (Ok <$> payloads owner run mutation) with
        (if bool_decide (Some run = Some run) then Ok (E := StorageError) <$> payloads owner run mutation else [])
        by by rewrite bool_decide_eq_true_2.
      eapply shown_wrote; [exact Hsh|by eapply performed_kept| |].
      + eapply mine_places; [apply places_mutate_body| |exact Hb|apply Hsh]. by intros r' [_ ->].
      + eapply mutate_body_wrote; [apply Hsh|done|apply run_canonical|exact Hb]. }
  destruct Hr as [[-> ->]|[-> [->| ->]]].
  - destruct dup; [|done]. by destruct Hd as [-> ?].
  - destruct dup; [left; by destruct Hd as [-> _] | by right].
  - by left.
Qed.

(** What an operation of the handle leaves behind. *)
Lemma handle_record_shown operation_id mutation l w r w' :
  shown l w -> handle_record provenance owner operation_id run mutation w = (r, w') ->
  let added := l ++ (Ok <$> payloads owner run mutation) in
  failure w' = failure w /\
  match r with
  | Ok c => if cm_duplicate c
            then shown l w' /\ operation_id ∈ cmd_operation_id <$> commands (session (catch_up provenance w))
            else shown added w'
  | Err e => shown l w' \/ se_certainty e = CommitCertainty.Unknown /\ shown added w'
  end.
Proof using laws hl.
  intros Hs%catch_up_shown Hr added. unfold handle_record in Hr. rewrite <- (catch_up_failure w).
  revert Hs Hr. generalize (catch_up provenance w). intros u Hs Hr.
  pose proof (operation_clock (outer u)) as Hc. destruct (operation (outer u)) as [[e|clock fate close|clock fate] o]; simpl in Hc.
  - injection Hr as <- <-. split; [done|]. by left.
  - destruct (mutate _ _ _ _ _ _ _ _) as [m db] eqn:Hm. apply (mutate_shown _ _ _ _ l) in Hm; [|done..].
    injection Hr as <- <-. split; [done|]. destruct m as [[receipt []]|e]; exact Hm.
  - destruct (mutate _ _ _ _ _ _ _ _) as [m db] eqn:Hm. apply (mutate_shown _ _ _ _ l) in Hm; [|done..].
    injection Hr as <- <-. split; [done|]. destruct m as [[receipt []]|e]; [left; apply Hm|by right|]. destruct Hm as [?|[_ ?]]; [by left|by right].
Qed.

(** An operation the session knows. *)
Definition known (operation_id : string) w : Prop := operation_id ∈ cmd_operation_id <$> commands (session w).

Lemma catch_up_known operation_id l w : shown l w -> known operation_id w -> known operation_id (catch_up provenance w).
Proof.
  intros [Hs _ _] Hk. unfold known, catch_up in *. destruct (others (outer w)) as [as_ o]. simpl.
  destruct (attempts_keep provenance as_ (session w) Hs) as [[_ [more Hc] _ _ _] _]. rewrite Hc, fmap_app.
  apply elem_of_app. by left.
Qed.

(** A known operation is never performed again, whatever becomes of the attempt. *)
Lemma known_record_shown operation_id mutation l w r w' :
  shown l w -> known operation_id w ->
  handle_record provenance owner operation_id run mutation w = (r, w') -> shown l w'.
Proof using laws hl.
  intros Hs Hk Hr. unfold handle_record in Hr. apply (catch_up_known _ l) in Hk; [|done].
  apply catch_up_shown in Hs. revert Hs Hk Hr. generalize (catch_up provenance w). intros u Hs Hk Hr.
  assert (forall fate clock m db, mutate fate clock provenance owner operation_id run mutation (session u) = (m, db) ->
    db = session u) as Hm.
  { intros fate clock m db Hm. apply transaction_inv in Hm as [(e & _ & ->)|([receipt dup] & db1 & Hb & Hm)]; [done|].
    assert (db1 = session u) as ->; [|naive_solver].
    apply mutate_body_spec in Hb as (h & _ & Hb); [|apply Hs]. destruct dup; [by destruct Hb|].
    exfalso. apply list_elem_of_fmap in Hk as (c & Hc & Hin).
    pose proof (pf_novel _ _ _ _ _ _ _ _ _ Hb) as Hn. rewrite Forall_forall in Hn. by apply (Hn c Hin). }
  destruct (operation (outer u)) as [[e|clock fate close|clock fate] o].
  - by injection Hr as <- <-.
  - destruct (mutate _ _ _ _ _ _ _ _) as [m db] eqn:Hx. apply Hm in Hx as ->. by injection Hr as _ <-.
  - destruct (mutate _ _ _ _ _ _ _ _) as [m db] eqn:Hx. apply Hm in Hx as ->. by injection Hr as _ <-.
Qed.

(** With a new operation identifier nothing is found: success has written. *)
Lemma fresh_record_shown mutation l w r w' :
  shown l w ->
  handle_record provenance owner (fresh_operation (catch_up provenance w)) run mutation w = (r, w') ->
  failure w' = failure w /\
  match r with
  | Ok _ => shown (l ++ (Ok <$> payloads owner run mutation)) w'
  | Err e => shown l w' \/ se_certainty e = CommitCertainty.Unknown /\ shown (l ++ (Ok <$> payloads owner run mutation)) w'
  end.
Proof using laws hl.
  intros Hs Hr. apply (handle_record_shown _ _ l) in Hr as [Hf Hr]; [|done]. split; [done|].
  destruct r as [c|e]; [|done]. destruct (cm_duplicate c); [|done].
  destruct Hr as [_ Hin]. by apply operation_new in Hin.
Qed.
End handle.

(** * What a persisted run leaves in its session

    The controller's deliveries (Run.v) and the session's events (RunStore.v)
    brought together: whatever the provider, the tools, the cancellation token,
    the store and the other handles do, the session shows exactly what the
    observer acknowledged. *)

Section deliveries.
Context `{ProviderSerde} (run : string).

(** The record that a delivery is to write, and the stage it is reported under. *)
Definition intended (a : Action) : option StoredEventPayload :=
  match a with
  | ASend e _ => Some (RuntimeObserved e)
  | AOpened session requested_model identity _ =>
      match new_binding run session requested_model identity with
      | Ok binding => Some (RunProviderBound binding)
      | Err _ => None
      end
  | AToolResult request call output is_error _ =>
      Some (ToolResultRecorded {| tr_request_id := Some request; tr_call_id := call; tr_output := output;
                                  tr_is_error := is_error |})
  | _ => None
  end.

Definition stage_of (a : Action) : PersistentRunStage.t :=
  match a with
  | AOpened _ _ _ _ => PersistentRunStage.ProviderBinding
  | AToolResult _ _ _ _ _ => PersistentRunStage.ToolResult
  | _ => PersistentRunStage.RuntimeEvent
  end.

(** The record of an acknowledged delivery. *)
Definition delivery (a : Action) : option StoredEventPayload := if delivered a then intended a else None.

(** The acknowledged deliveries of a log, oldest first. *)
Definition deliveries (l : list Action) : list StoredEventPayload := omap delivery (reverse l).

Lemma deliveries_cons a l : deliveries (a :: l) = deliveries l ++ from_option (fun p => [p]) [] (delivery a).
Proof. unfold deliveries. rewrite reverse_cons, omap_app. simpl. by destruct (delivery a). Qed.

(** The first delivery that was refused. *)
Definition refusal (l : list Action) : option Action := List.find (fun a => negb (delivered a)) (reverse l).

Lemma refusal_cons a l : refusal (a :: l) = match refusal l with Some b => Some b | None => if delivered a then None else Some a end.
Proof.
  unfold refusal. rewrite reverse_cons. induction (reverse l) as [|b k IH]; simpl; [by destruct (delivered a)|]. by destruct (negb (delivered b)).
Qed.

Lemma refusal_none l : Forall (fun a => delivered a = true) l -> refusal l = None.
Proof. induction 1 as [|a l Ha _ IH]; [done|]. by rewrite refusal_cons, IH, Ha. Qed.
End deliveries.

(** A failure that leaves open whether its record was written: the commit was reported
    unknown, or it was made and the connection did not close. *)
Definition unsure (f : PersistentRunFailure) : Prop :=
  match fl_cause f with
  | CauseStorage e => se_certainty e = CommitCertainty.Unknown
  | CauseCleanup _ _ => True
  | CauseGateway _ => False
  end.

Lemma check_commit_reports stage op r f :
  check_commit stage op r = Err f ->
  fl_stage f = stage /\ match r with Ok _ => unsure f | Err e => fl_cause f = CauseStorage e end.
Proof.
  unfold check_commit. destruct r as [x|e]; cbn [map_err]; [|by intros [= <-]].
  destruct (bool_decide _); [done|]. destruct (cm_cleanup_warning x); [|done]. intros [= <-]. by destruct (bool_decide _).
Qed.

Section persisted.
Context {W D : Type} `{Display D} `{UuidLib} `{SerdeJson} `{ProviderSerde} `{StorageSerde} {laws : StorageSerdeLaws}.
Context `{Environment W} `{StoreHost W} `{OperationIds}.
Context (provenance : CreationProvenance) (owner run : string) {hl : HostLaws owner run}.
Notation shown l w := (shown_db provenance owner run l (session w)).
Implicit Types w : World W D.
#[local] Instance penv : Environment (World W D) := persist_env provenance owner run.
Context (base : list (SResult StoredEventPayload)).

(** What may be shown after a failure at action [a]: nothing more, or its record. *)
Definition leftover (f : PersistentRunFailure) (intent : option StoredEventPayload) (extra : list StoredEventPayload) : Prop :=
  extra = [] \/ unsure f /\ exists p, intent = Some p /\ extra = [p].

(** After the actions [l] the session shows the acknowledged deliveries, and none
    failed; once the observer has failed, at the first delivery that was refused, it
    may show the record of that delivery. *)
Definition recorded_so_far (l : list Action) w : Prop :=
  exists extra, shown (base ++ (Ok <$> deliveries run l ++ extra)) w /\
    match failure w with
    | None => extra = [] /\ Forall (fun a => delivered a = true) l
    | Some f => exists a, refusal l = Some a /\ fl_stage f = stage_of a /\ leftover f (intended run a) extra
    end.

Definition tracking (st : State (World W D)) : Prop := recorded_so_far (log st) (world st).

(** How action [a] of a delivery that returned [r] shows record [p]. *)
Definition delivers (stage : PersistentRunStage.t) (p : StoredEventPayload) (r : result unit RunSinkError) (a : Action) : Prop :=
  delivered a = is_ok r /\ stage_of a = stage /\ intended run a = Some p.

(** Nothing is delivered once the observer has failed. *)
Lemma recorded_failed l a w :
  recorded_so_far l w -> failure w <> None -> delivered a = false -> recorded_so_far (a :: l) w.
Proof.
  intros (extra & Hs & Hn) Hf Ha. exists extra. unfold delivery. rewrite deliveries_cons. unfold delivery. rewrite Ha. simpl. rewrite app_nil_r.
  split; [done|]. destruct (failure w) as [f|]; [|done]. destruct Hn as (b & Hb & Hx). exists b. by rewrite refusal_cons, Hb.
Qed.

(** A refused delivery: the observer fails, and the record may be shown. *)
Lemma recorded_refused l extra a w f :
  shown (base ++ (Ok <$> deliveries run l ++ extra)) w -> Forall (fun a => delivered a = true) l -> delivered a = false ->
  failure w = Some f -> fl_stage f = stage_of a -> leftover f (intended run a) extra -> recorded_so_far (a :: l) w.
Proof.
  intros Hs Hl Ha Hf Hst He. exists extra. rewrite deliveries_cons. unfold delivery. rewrite Ha. simpl. rewrite app_nil_r. split; [done|].
  rewrite Hf. exists a. by rewrite refusal_cons, refusal_none, Ha.
Qed.

(** One record: acknowledged and shown, or refused and perhaps shown. *)
Lemma observer_append_recorded l stage record a w r w' :
  recorded_so_far l w -> observer_append provenance owner run stage record w = (r, w') ->
  delivers stage (record_payload record) r a -> recorded_so_far (a :: l) w'.
Proof using laws hl.
  intros Hl Hr (Hd & Hst & Ha). unfold observer_append in Hr. destruct (failure w) as [f|] eqn:Hf; simpl in Hr.
  { injection Hr as <- <-. apply recorded_failed; [done|congruence|done]. }
  destruct Hl as (extra & Hs & Hn). rewrite Hf in Hn. destruct Hn as [-> Hall]. rewrite app_nil_r in Hs.
  destruct (handle_record _ _ _ _ _ w) as [c u] eqn:Hc. apply (fresh_record_shown _ _ _ _ _ _ _ _ Hs) in Hc as [Hfu Hc].
  change (payloads owner run (Append [record])) with [record_payload record] in Hc.
  rewrite <- app_assoc, <- fmap_app in Hc.
  destruct (check_commit _ _ c) as [c'|f] eqn:Hk; injection Hr as <- <-.
  - exists []. rewrite app_nil_r, deliveries_cons. unfold delivery. rewrite Hd, Ha, Hfu, Hf. split; [by destruct c|]. split; [done|]. by constructor.
  - apply check_commit_reports in Hk as [Hfs Hk].
    assert (forall extra, shown (base ++ (Ok <$> deliveries run l ++ extra)) u -> leftover f (intended run a) extra ->
      recorded_so_far (a :: l) (set_failure (Some f) u)) as Hx.
    { intros extra Hx Hle. eapply recorded_refused; [exact Hx|done|done|done|by rewrite Hst|done]. }
    destruct c as [c|e]; [apply (Hx [record_payload record]); [done|right; split; [done|]; by eexists]|].
    destruct Hc as [Hc|[Hu Hc]]; [apply (Hx []); [by rewrite app_nil_r|by left]|].
    apply (Hx [record_payload record]); [done|]. right. split; [unfold unsure; by rewrite Hk|]. by eexists.
Qed.

Lemma persist_event_recorded l e w r w' :
  recorded_so_far l w -> observer_event e w = (r, w') -> recorded_so_far (ASend e r :: l) w'.
Proof using laws hl.
  intros Hs Hr. change (observer_event e w) with (persist_event provenance owner run e w) in Hr.
  by eapply observer_append_recorded.
Qed.

Lemma persist_tool_recorded l q c o b w r w' :
  recorded_so_far l w -> observer_tool_result q c o b w = (r, w') -> recorded_so_far (AToolResult q c o b r :: l) w'.
Proof using laws hl.
  intros Hs Hr. change (observer_tool_result q c o b w) with (persist_tool_result provenance owner run q c o b w) in Hr.
  by eapply observer_append_recorded.
Qed.

Lemma persist_opened_recorded l s m i w r w' :
  recorded_so_far l w -> observer_provider_opened s m i w = (r, w') -> recorded_so_far (AOpened s m i r :: l) w'.
Proof using laws hl.
  intros Hs Hr. change (observer_provider_opened s m i w) with (persist_opened provenance owner run s m i w) in Hr.
  unfold persist_opened in Hr. destruct (failure w) as [f|] eqn:Hf; simpl in Hr.
  { injection Hr as <- <-. apply recorded_failed; [done|congruence|done]. }
  destruct (new_binding run s m i) as [b|e] eqn:Hb.
  - eapply observer_append_recorded; [done..|]. split; [done|]. split; [done|]. simpl. by rewrite Hb.
  - injection Hr as <- <-. destruct Hs as (extra & Hx & Hn). rewrite Hf in Hn. destruct Hn as [-> Hall].
    eapply recorded_refused; try done. by left.
Qed.

(** ** The run *)
Lemma tracking_same st st' :
  session (world st') = session (world st) -> failure (world st') = failure (world st) ->
  log st' = log st -> tracking st -> tracking st'.
Proof. unfold tracking, recorded_so_far, deliveries. by intros -> -> ->. Qed.

(** An action that is no delivery. *)
Definition silent (a : Action) : bool := delivered a && is_none (delivery run a).

Lemma tracking_record a st : silent a = true -> tracking st -> tracking (Run.record a st).
Proof.
  unfold silent. intros [Hd Ha]%andb_prop (extra & Hs & Hn). exists extra. simpl.
  destruct (delivery run a) eqn:Hx; [done|]. rewrite deliveries_cons, Hx. simpl. rewrite app_nil_r. split; [done|].
  destruct (failure (world st)) as [f|]; [|destruct Hn; split; [done|by constructor]].
  destruct Hn as (b & Hb & Hrest). exists b. by rewrite refusal_cons, Hb.
Qed.

Lemma tracking_outer {A} (f : W -> A * W) : keeps tracking (ask (on_outer f)).
Proof. intros st Hst. unfold ask, on_outer. destruct (f _) as [a o]. by eapply tracking_same, Hst. Qed.

Lemma tracking_effect A (f : World W D -> A * World W D) : effect A f -> keeps tracking (ask f).
Proof. intros []; apply tracking_outer. Qed.

Lemma tracking_send e : keeps tracking (send e).
Proof using laws hl.
  intros st Hst. unfold send. destruct (is_some _); [done|]. destruct (increment _) as [n|o]; [|done].
  cbn [world set_sequence new_uuid penv persist_env]. unfold on_outer.
  destruct (new_uuid (outer (world st))) as [u o]. set (env := {| ev_schema_version := _ |}).
  destruct (observer_event env _) as [r w'] eqn:Hr.
  apply (persist_event_recorded (log st)) in Hr; [|exact Hst]. by destruct r as [[]|x].
Qed.

(** A delivery, its record in the log, and the stop when it failed. *)
Lemma tracking_deliver (f : World W D -> result unit RunSinkError * World W D) a :
  (forall l w r w', recorded_so_far l w -> f w = (r, w') -> recorded_so_far (a r :: l) w') ->
  keeps tracking (let! r := ask f in settle_delivery a r).
Proof.
  intros Hf st Hst. unfold bind at 1, ask. destruct (f (world st)) as [r w'] eqn:Hr.
  apply (Hf _ _ _ _ Hst) in Hr. by destruct r as [[]|x].
Qed.

Lemma tracking_announce s m i : keeps tracking (announce s m i).
Proof using laws hl. apply tracking_deliver. intros l w r w'. apply persist_opened_recorded. Qed.

Lemma tracking_stable : stable any_input tracking tracking /\ tool_stable tracking tracking.
Proof using laws hl.
  assert (forall x y, keeps tracking (bump x y)) as Hbump.
  { intros x y st Hst. unfold bump. destruct (increment _); [by eapply tracking_same, Hst | done]. }
  assert (forall f, keeps tracking (on_summary f)) as Hsum.
  { intros f. apply guarded_modify. intros st. by apply tracking_same. }
  assert (forall a, silent a = true -> keeps tracking (modify (E := Stop) (Run.record a))) as Hmod.
  { intros a Ha. apply guarded_modify. intros st. by apply tracking_record. }
  assert (forall p o, keeps tracking (ask (tool_execute p o))) by (intros; apply tracking_outer).
  assert (forall i, keeps tracking (ask (provider_generate i))) by (intros; apply tracking_outer).
  pose proof tracking_effect. pose proof tracking_send. pose proof tracking_announce.
  assert (forall q c o b, keeps tracking
    (let! r := ask (observer_tool_result q c o b) in settle_delivery (AToolResult q c o b) r)).
  { intros. apply tracking_deliver. intros l w r w'. apply persist_tool_recorded. }
  split; split; try (intros ? st; by apply tracking_same); try done; intros;
    try (apply tracking_record; [done|]; by eapply tracking_same);
    unfold tool_event, tool_result, execute_tool, submit, finish_turn, checkpoint, unwrap, fail, stop;
    repeat first [solve [eauto using effect with hoare] | apply Hmod; done | guard_step].
Qed.

Lemma run_admitted_tracking fuel g a w res st :
  recorded_so_far [] w -> run_admitted fuel g a run w = (Ok res, st) -> tracking st.
Proof using laws hl.
  intros Hw (r & x & reg & st0 & Hx & Hc & _)%run_admitted_Ok. destruct tracking_stable as [Hst Htool].
  assert (tracking (initial_state run w)) as Hi by exact Hw.
  pose proof (execution_plain _ _ fuel g a run w Hst Htool (tracking_send RunStarted _ Hi)) as Ht.
  rewrite Hx in Ht. assert (tracking st0) as Hst0 by by destruct x. unfold conclude in Hc.
  set (st1 := set_turn_id None (close_guard st0)) in Hc.
  assert (tracking st1) as Hst1.
  { unfold st1, close_guard. destruct (guard st0); [|by eapply tracking_same, Hst0].
    eapply tracking_same, (tracking_record AClose st0); done. }
  pose proof (tracking_send (RunFinished (match r with Ok _ => Completed | Err reason => reason end) (summary st1)) _ Hst1) as Hs.
  destruct (send _ st1) as [[[]|e] st2]; by injection Hc as _ <-.
Qed.
End persisted.
