(* ===== verification/PersistClaims.v ===== *)
(** * Submissions

    What one submission leaves in its session, on every way it can end, and that
    it ends. *)
From S2P Require Import Prelude Json Errors Identifiers Provider Tools Replay RunData Run Hoare RunSafety RunTotality Records Store History Session RunStore StoreSafety StoreCommands StoreGuarantees StoreContents Prefix Persist Rebuild Prepare Submit PersistStore.

(** * Preparations end and only read

    Reading the pages of a history ends, since every page but the last holds
    records; a preparation leaves the session as the other handles left it. *)

Lemma as_u64_range z : 0 <= as_u64 z <= u64_max.
Proof.
  unfold as_u64, u64_max. change (2 ^ 64) with 18446744073709551616.
  pose proof (Z.mod_pos_bound z 18446744073709551616). lia.
Qed.

(** ** Pages *)
Section pages.
Context {D : Type} `{UuidLib} `{SerdeJson} `{ProviderSerde} `{StorageSerde}.
Implicit Types db : Db D.

Lemma decode_page_decoded id after rows d : decode_page id after rows = Ok d -> decoded id rows (fst d).
Proof.
  revert after d. induction rows as [|row rows IH]; intros after d; simpl; [by intros [= <-]; constructor|].
  destruct (decode_event id row) as [e|] eqn:He; [|done]. destruct (ok_or _ _) as [n|]; [|done].
  destruct (negb _); [done|]. destruct (decode_page id _ rows) as [rest|] eqn:Hr; [|done]. intros [= <-].
  simpl. constructor; [done | by eapply IH].
Qed.

(** A page that is not the last one holds records. *)
Lemma page_grows id after through limit db p :
  2 <= limit -> page id after through limit db = Ok p ->
  hp_through_sequence p <= Z.max u64_max (match through with Some t => t | None => 0 end) /\
  (hp_has_more p = true -> (0 < length (hp_records p))%nat).
Proof.
  intros Hlimit. unfold page. destruct (manifest db) as [m|]; [|done]. cbn [ok_or].
  destruct (_ || _); [done|]. destruct (decode_page _ _ _) as [d|] eqn:Hd; [|done]. destruct (_ && _); [done|].
  intros [= <-]. cbn [hp_through_sequence hp_has_more hp_records]. split.
  - destruct through; [lia|]. pose proof (as_u64_range (mf_head_sequence m)). lia.
  - apply decode_page_decoded, Forall2_length in Hd. revert Hd.
    generalize (take (Z.to_nat limit) (List.filter (fun r => (as_i64 after <? row_sequence r) && (row_sequence r <=?
      as_i64 (match through with Some t => t | None => as_u64 (mf_head_sequence m) end))) (events db))).
    intros rows <-. rewrite length_take. intros Hm%Z.eqb_eq. lia.
Qed.
End pages.

Lemma observe_page_length `{SerdeJson} `{ReplaySerde} through records sequence b x :
  observe_page through sequence records b = Ok x ->
  fst x = sequence + Z.of_nat (length records) /\ (records <> [] -> fst x <= through).
Proof.
  revert sequence b. induction records as [|e records IH]; intros sequence b; simpl.
  { intros [= <-]. simpl. split; [lia | done]. }
  unfold guard_not. destruct (_ || _) eqn:Hg; [done|]. apply orb_false_iff in Hg as [Hs Ht].
  apply negb_false_iff, Z.eqb_eq in Hs. apply Z.ltb_ge in Ht.
  destruct (observe e b) as [b'|]; [|done]. intros Hx. apply IH in Hx as [-> Hle]. split; [lia|]. intros _.
  destruct records; simpl in *; [lia|]. by apply Hle.
Qed.

Section preparation.
Context {W D : Type} `{Display D} `{UuidLib} `{SerdeJson} `{ProviderSerde} `{StorageSerde} `{RowSerde} `{ReplaySerde}.
Context `{Environment W} `{StoreHost W}.
Context (provenance : CreationProvenance).
Implicit Types w : World W D.

(** An end that is a failure the caller is told. *)
Definition reported (e : Halt) : Prop := exists f, e = Failure f.
Notation reports := (within (fun _ : World W D => True) reported).

Lemma reports_rebuilt {A} (r : Rebuilt A) : reports (rebuilt r).
Proof. apply within_lift. destruct r; [done|]. intros x [= <-]. by eexists. Qed.

Lemma reports_stored {A} (c : World W D -> SResult A * World W D) : reports (stored c).
Proof. intros w _. unfold stored. destruct (c w) as [[a|e] u]; [done|]. split; [by eexists | done]. Qed.

(** A page that was read. *)
Definition readable (p : HistoryPage) : Prop := hp_has_more p = true -> (0 < length (hp_records p))%nat.

Lemma stored_page after through :
  holds (fun _ : World W D => True) (stored (history_page provenance after through 128))
    (fun p _ => readable p /\ (through = None -> hp_through_sequence p <= u64_max)) (fun e _ => reported e).
Proof.
  intros w _. unfold stored, history_page. change (page_limit 128) with (Ok (E := StorageError) 129). cbv iota.
  destruct (_ || _); [by eexists|]. unfold handle_read. destruct (read_refused _) as [[e|] o]; [by eexists|].
  destruct (page _ _ _ _ _) as [p|e] eqn:Hp; [|by eexists]. apply page_grows in Hp as [Hle Hm]; [|lia].
  split; [done|]. intros ->. unfold u64_max in *. lia.
Qed.

Lemma reports_pages fuel through sequence b p :
  readable p -> through - sequence < Z.of_nat fuel -> (0 < fuel)%nat ->
  reports (read_pages provenance fuel through sequence b p).
Proof.
  revert sequence b p. induction fuel as [|fuel IH]; intros sequence b p Hp Hf Hpos; [lia|]. cbn [read_pages].
  intros w _. unfold rebuilt at 1, bind at 1, lift.
  destruct (observe_page _ _ _ _) as [x|e] eqn:Hx; cbn [map_err]; [|split; [by eexists | done]].
  apply observe_page_length in Hx as [Hl Hle]. destruct (hp_has_more p) eqn:Hm; cbn [negb]; [|done].
  specialize (Hp Hm). assert (hp_records p <> []) as Hne by (intros Hn; rewrite Hn in Hp; simpl in Hp; lia).
  specialize (Hle Hne).
  refine (within_bind _ _ _ _ (reports_rebuilt _) _ w I). intros _.
  intros u _. unfold bind. pose proof (stored_page (fst x) (Some through) u I) as Hs.
  destruct (stored _ u) as [[q|e] v]; [|done]. apply IH; [apply Hs|lia|lia|done].
Qed.

Lemma reports_prepare fuel provider requested_model :
  u64_max < Z.of_nat fuel -> reports (prepare_session_replay (D := D) provenance fuel provider requested_model).
Proof.
  intros Hfuel. unfold prepare_session_replay. apply within_bind; [apply reports_rebuilt|]. intros _.
  apply holds_bind with (Q := fun p _ => readable p /\ hp_through_sequence p <= u64_max).
  { eapply holds_conseq; [apply (stored_page 0 None)|done|intros p w [Hr Ht]; auto|by intros e w]. }
  intros p. eapply holds_conseq; [apply (holds_pure (readable p /\ hp_through_sequence p <= u64_max) (fun _ => True))|
    intros w Hp; exact (conj Hp I)|intros a w Hq; exact Hq|intros e w Hq; exact Hq].
  intros [Hp Ht]. unfold u64_max in *. apply within_bind; [apply reports_pages; [done|lia|lia]|]. intros x.
  repeat first [apply within_bind; [|intros ?] | apply reports_rebuilt | apply reports_stored | apply within_ret].
Qed.
End preparation.

(** ** What a preparation leaves behind *)
Section shown.
Context {W D : Type} `{Display D} `{UuidLib} `{SerdeJson} `{ProviderSerde} `{StorageSerde} {laws : StorageSerdeLaws}.
Context `{RowSerde} `{ReplaySerde} `{StoreHost W} `{OperationIds}.
Context (provenance : CreationProvenance) (owner run : string) {hl : HostLaws owner run}.
Context (l : list (SResult StoredEventPayload)).
Notation shown := (fun w : World W D => shown_db provenance owner run l (session w)).

(** A failure that names no execution. *)
Definition unexecuted (e : Halt) : Prop :=
  match e with Failure f => fl_observed_result f = None | Died _ => True end.
Notation reads := (within shown unexecuted).

Lemma reads_rebuilt {A} (r : Rebuilt A) : reads (rebuilt r).
Proof. apply within_lift. destruct r; [done|]. by intros x [= <-]. Qed.

Lemma reads_stored {A} (c : World W D -> SResult A * World W D) :
  (forall w r w', shown w -> c w = (r, w') -> shown w') -> reads (stored c).
Proof.
  intros Hc w Hw. unfold stored. destruct (c w) as [[a|e] u] eqn:Hu; apply Hc in Hu; done.
Qed.

Lemma reads_page after through size : reads (stored (history_page provenance after through size)).
Proof using laws hl.
  apply reads_stored. intros w r w' Hw. unfold history_page. destruct (page_limit size); [|by intros [= _ <-]].
  destruct (_ || _); [by intros [= _ <-]|]. intros Hr. by apply (handle_read_shown _ _ _ _ l) in Hr as [Hu _].
Qed.

Lemma reads_digest through checkpoints : reads (stored (history_prefix_digest provenance through checkpoints)).
Proof using laws hl. apply reads_stored. intros w r w' Hw Hr. by apply (handle_read_shown _ _ _ _ l) in Hr as [Hu _]. Qed.

Lemma reads_selection through digest provider requested_model identity :
  reads (stored (fun w => (new_selection through digest provider requested_model identity, w))).
Proof. apply reads_stored. by intros w r w' Hw [= _ <-]. Qed.

Ltac reads_step := first [apply within_bind; [|intros ?] | apply reads_rebuilt | apply reads_page | apply reads_digest
  | apply reads_selection | apply within_ret | by apply within_throw].

Lemma reads_pages fuel through : forall sequence b p, reads (read_pages provenance fuel through sequence b p).
Proof using laws hl.
  induction fuel as [|fuel IH]; intros sequence b p; cbn [read_pages]; repeat reads_step.
  destruct (negb _); repeat reads_step. apply IH.
Qed.

Lemma reads_prepare fuel provider requested_model :
  reads (prepare_session_replay provenance fuel provider requested_model).
Proof using laws hl. unfold prepare_session_replay. repeat first [apply reads_pages | reads_step]. Qed.
End shown.

Section submissions.
Context {W D : Type} `{Display D} `{UuidLib} `{SerdeJson} `{ProviderSerde} `{StorageSerde} {laws : StorageSerdeLaws}.
Context `{RowSerde} `{ReplaySerde} `{Environment W} `{StoreHost W} `{OperationIds}.
Context (provenance : CreationProvenance) (owner run : string) {hl : HostLaws owner run}.
Notation id := (cp_session_id provenance).
Notation shown l := (fun w : World W D => shown_db provenance owner run l (session w)).
Implicit Types w : World W D.
#[local] Existing Instance penv.

(** The acceptance a submission writes. *)
Definition accepting (mode : RunMode (W := W)) (q : PersistentRunRequest) (m : Mutation) : Prop :=
  if restore_history mode then exists s, m = AcceptHistory (pq_input q) s else m = Accept (pq_input q).

(** The run was executed with result [res] and final state [st]. *)
Definition ran (fuel : nat) (g : Gateway) (res : RunResult) (st : State (World W D)) : Prop :=
  exists a u, @run_admitted _ (penv provenance owner run) _ _ _ fuel g a run u = (Ok res, st).

(** The record at which an execution failed: that of the first delivery refused, or the
    result. *)
Definition failed_record (res : RunResult) (log : list Action) : option StoredEventPayload :=
  match refusal log with Some a => intended run a | None => Some (RunResultRecorded res) end.

Definition failed_stage (log : list Action) : PersistentRunStage.t :=
  match refusal log with Some a => stage_of a | None => PersistentRunStage.FinalResult end.

(** What the session shows of the run when a submission has ended. *)
Definition ends (l : list (SResult StoredEventPayload)) (fuel : nat) (g : Gateway) (mode : RunMode (W := W))
    (q : PersistentRunRequest) (r : result PersistentRunResult Halt) w : Prop :=
  match r with
  | Ok (Executed acceptance final_record res) => exists m st, accepting mode q m /\ ran fuel g res st /\
      Forall (fun a => delivered a = true) (log st) /\
      shown (l ++ (Ok <$> payloads owner run m ++ deliveries run (log st) ++ [RunResultRecorded res])) w
  | Ok (Duplicate acceptance record) => shown l w
  | Err (Failure f) =>
      match fl_observed_result f with
      | Some res => exists m st extra, accepting mode q m /\ ran fuel g res st /\
          fl_stage f = failed_stage (log st) /\ leftover f (failed_record res (log st)) extra /\
          shown (l ++ (Ok <$> payloads owner run m ++ deliveries run (log st) ++ extra)) w
      | None => shown l w \/ unsure f /\ exists m, accepting mode q m /\ shown (l ++ (Ok <$> payloads owner run m)) w
      end
  | Err (Died _) => True
  end.

(** A submission that has ended without executing or writing anything. *)
Definition idle (l : list (SResult StoredEventPayload)) (r : result PersistentRunResult Halt) w : Prop :=
  shown l w /\
  match r with
  | Ok (Duplicate _ _) => True
  | Err (Failure f) => fl_observed_result f = None
  | _ => False
  end.

Lemma idle_ends l fuel g mode q r w : idle l r w -> ends l fuel g mode q r w.
Proof. intros [Hs Hr]. destruct r as [[]|[f|s]]; simpl in *; try done. rewrite Hr. by left. Qed.

Section outcome.
Context (l : list (SResult StoredEventPayload)) (fuel : nat) (g : Gateway) (mode : RunMode (W := W)).
Context (q : PersistentRunRequest) (Hq : pq_run_id q = run).
Notation ends := (ends l fuel g mode q).
Notation idle := (idle l).

(** A computation that goes on or ends the submission. *)
Notation leads P c Q := (holds P c Q (fun e => ends (Err e))).
(** The same, before anything was written. *)
Notation waits P c Q := (holds P c Q (fun e => idle (Err e))).

Lemma waits_leads {A} P (c : SM (World W D) Halt A) Q : waits P c Q -> leads P c Q.
Proof. intros Hc. eapply holds_conseq; [exact Hc|done|done|]. intros e w. apply idle_ends. Qed.

Lemma waits_lookup stage op :
  waits (shown l) (or_fail stage op (lookup_receipt provenance op))
    (fun r w => shown l w /\ (is_some r = true -> known op w)).
Proof using laws hl.
  intros w Hw. unfold or_fail, lookup_receipt.
  destruct (handle_read provenance _ w) as [[a|e] u] eqn:Hr; pose proof Hr as Hs;
    apply (handle_read_shown _ _ _ _ l) in Hs as [Hu _]; try done.
  split; [done|]. unfold handle_read in Hr. destruct (read_refused _) as [[x|] o]; [done|].
  injection Hr as Hr <-. destruct (find_command _ _ _) as [[c|]|] eqn:Hf in Hr; try done; injection Hr as <-; [|done].
  intros _. by apply find_command_known in Hf.
Qed.

Lemma duplicate_idle acceptance :
  waits (shown l) (duplicate provenance run acceptance) (fun r => idle (Ok r)).
Proof using laws hl.
  intros w Hw. unfold duplicate, bind, on_world.
  destruct (accepted_run_record provenance run w) as [r u] eqn:Hr.
  apply (handle_read_shown _ _ _ _ l) in Hr as [Hu _]; [|done]. by destruct r.
Qed.

Lemma notify_leads P acceptance R :
  (forall o w, P w -> P (set_outer o w)) -> holds P (notify (D := D) mode acceptance) (fun _ => P) R.
Proof. intros HP w Hw. unfold notify. destruct (accepted mode); [|done]. by apply HP. Qed.

Lemma check_commit_Ok stage op r c : check_commit stage op r = Ok c -> r = Ok c.
Proof.
  unfold check_commit. destruct r as [x|e]; [|done]. cbn [map_err]. destruct (bool_decide _); [by intros [= ->]|].
  destruct (cm_cleanup_warning x); [done|]. by intros [= ->].
Qed.

Lemma check_commit_Err stage op r f : check_commit stage op r = Err f -> fl_observed_result f = None.
Proof.
  unfold check_commit. destruct r as [x|e]; cbn [map_err]; [|by intros [= <-]].
  destruct (bool_decide _); [done|]. destruct (cm_cleanup_warning x); [|done]. intros [= <-].
  by destruct (bool_decide _).
Qed.

(** What an acceptance has written when it returns. *)
Definition attempted (m : Mutation) (r : SResult CommitResult) w : Prop :=
  match r with
  | Ok c => if cm_duplicate c then shown l w else shown (l ++ (Ok <$> payloads owner run m)) w
  | Err e => shown l w \/ se_certainty e = CommitCertainty.Unknown /\ shown (l ++ (Ok <$> payloads owner run m)) w
  end.

Lemma accept_attempted m :
  leads (shown l) (on_world (handle_record provenance owner (pq_operation_id q) run m)) (attempted m).
Proof using laws hl.
  intros w Hw. unfold on_world. destruct (handle_record _ _ _ _ _ w) as [r u] eqn:Hr.
  apply (handle_record_shown _ _ _ _ _ l) in Hr as [_ Hr]; [|done].
  destruct r as [c|e]; [|done]. simpl. by destruct (cm_duplicate c); [destruct Hr|].
Qed.

Lemma settle_acceptance_leads op m r :
  accepting mode q m ->
  leads (attempted m r) (settle_acceptance mode op r) (fun c => attempted m (Ok c)).
Proof.
  intros Hm. unfold settle_acceptance.
  apply holds_bind with (Q := fun c => attempted m (Ok c)).
  - intros w Hw. unfold settled, lift. destruct (check_commit _ op r) as [c|f] eqn:Hc.
    + by apply check_commit_Ok in Hc as ->.
    + simpl. rewrite (check_commit_Err _ _ _ _ Hc). apply check_commit_reports in Hc as [_ Hc].
      destruct r as [c|e]; simpl in Hw; [destruct (cm_duplicate c); [by left | right; split; [done|]; by exists m]|].
      destruct Hw as [Hw|[Hu Hw]]; [by left|]. right. split; [unfold unsure; by rewrite Hc|]. by exists m.
  - intros c. apply holds_bind with (Q := fun _ => attempted m (Ok c)); [by apply notify_leads | by intros [] w Hw].
Qed.

(** A submission whose operation is known writes nothing. *)
Lemma repeat_idle receipt :
  waits (fun w => shown l w /\ known (pq_operation_id q) w) (repeat_submission provenance owner mode q receipt)
    (fun r => idle (Ok r)).
Proof using laws hl Hq.
  unfold repeat_submission. rewrite Hq.
  apply holds_bind with (Q := fun _ => shown l).
  - intros w [Hw Hk]. unfold on_world. destruct (restore_history mode).
    + unfold repeat_history_run. destruct (rc_run_id receipt) as [original|]; [|done].
      destruct (handle_read provenance _ w) as [r u] eqn:Hr. pose proof Hr as Hs.
      apply (handle_read_shown _ _ _ _ l) in Hs as [Hu _]; [|done]. destruct r as [[s|]|e]; [|done..].
      assert (known (pq_operation_id q) u) as Hku.
      { unfold handle_read in Hr. destruct (read_refused _) as [x o]. injection Hr as _ <-. by eapply (catch_up_known _ _ _ _ l). }
      destruct (accept_history_run _ _ _ _ _ _ u) as [c v] eqn:Hc. by eapply known_record_shown in Hc.
    + destruct (accept_run _ _ _ _ _ w) as [c v] eqn:Hc. by eapply known_record_shown in Hc.
  - intros r. apply holds_bind with (Q := fun _ => shown l); [|intros c; apply duplicate_idle].
    unfold settle_acceptance. apply holds_bind with (Q := fun _ => shown l).
    + intros w Hw. unfold settled, lift. destruct (check_commit _ _ r) as [c|f] eqn:Hc; [done|].
      split; [done|]. by apply check_commit_Err in Hc.
    + intros c. apply holds_bind with (Q := fun _ => shown l); [by apply notify_leads | by intros [] w Hw].
Qed.

(** The accepted run, its observer and its last record. *)
Lemma run_accepted_ends m a acceptance :
  accepting mode q m ->
  holds (shown (l ++ (Ok <$> payloads owner run m))) (run_accepted provenance owner fuel g a run acceptance)
    (fun r => ends (Ok r)) (fun e => ends (Err e)).
Proof using laws hl.
  intros Hm w Hw. unfold run_accepted. set (base := l ++ (Ok <$> payloads owner run m)) in Hw.
  destruct (@run_admitted _ (persist_env provenance owner run) _ _ _ fuel g a run (set_failure None w)) as [r st] eqn:Hr.
  destruct r as [res|s]; [|done].
  assert (recorded_so_far provenance owner run base [] (set_failure None w)) as Hi.
  { exists []. split; [|done]. simpl. by rewrite app_nil_r. }
  assert (ran fuel g res st) as Hran by by exists a, (set_failure None w).
  pose proof (run_admitted_tracking _ _ _ _ _ _ _ _ _ _ Hi Hr) as (extra & Hs & Hn).
  assert (forall x, base ++ (Ok <$> deliveries run (log st) ++ x)
    = l ++ (Ok <$> payloads owner run m ++ deliveries run (log st) ++ x)) as Hx.
  { intros x. unfold base. by rewrite <- app_assoc, <- fmap_app. }
  destruct (failure (world st)) as [f|] eqn:Hf.
  { simpl. destruct Hn as (b & Hb & Hst & He). exists m, st, extra. unfold failed_stage, failed_record. rewrite Hb, <- Hx. by split_and!. }
  destruct Hn as [-> Hall]. rewrite app_nil_r in Hs.
  destruct (handle_record _ _ _ _ _ (world st)) as [c u] eqn:Hc.
  apply (fresh_record_shown _ _ _ _ _ _ _ _ Hs) in Hc as [_ Hc].
  change (payloads owner run (Append [RResult res])) with [RunResultRecorded res] in Hc.
  rewrite <- app_assoc, <- fmap_app in Hc.
  destruct (check_commit _ _ c) as [c'|f] eqn:Hk.
  - apply check_commit_Ok in Hk as ->. exists m, st. split_and!; try done. by rewrite <- Hx.
  - apply check_commit_reports in Hk as [Hst Hk].
    assert (forall extra, shown (base ++ (Ok <$> deliveries run (log st) ++ extra)) u -> leftover f (Some (RunResultRecorded res)) extra ->
      ends (Err (Failure (with_execution acceptance res f))) u) as Hend.
    { intros extra Hsh Hle. simpl. exists m, st, extra. unfold failed_stage, failed_record. rewrite (refusal_none _ Hall), <- Hx. by split_and!. }
    destruct c as [c|e]; [apply (Hend [RunResultRecorded res]); [done|]; right; split; [done|by eexists]|].
    destruct Hc as [Hc|[Hu Hc]]; [apply (Hend []); [by rewrite app_nil_r|by left]|].
    apply (Hend [RunResultRecorded res]); [done|]. right. split; [unfold unsure; by rewrite Hk|by eexists].
Qed.

Lemma prepare_leads request :
  leads (shown l) (prepare provenance fuel mode request)
    (fun p w => shown l w /\ is_some p = restore_history mode).
Proof using laws hl.
  unfold prepare. destruct (restore_history mode); [|by intros w Hw].
  apply holds_bind with (Q := fun _ => shown l); [|by intros p w Hw].
  eapply holds_conseq; [apply (reads_prepare provenance owner run l)|done|done|].
  intros [f|s] w [He Hw]; simpl in *; [|done]. rewrite He. by left.
Qed.

Lemma admit_leads registry input prepared :
  leads (shown l) (admit_submission g registry input prepared) (fun _ => shown l).
Proof.
  intros w Hw. unfold admit_submission, bind, on_world, on_outer.
  destruct (is_cancelled (outer w)) as [c o]. unfold settled, lift.
  destruct (admit_with_snapshot _ _ _ _ _) as [a|e]; simpl; [|by left].
  destruct prepared as [p|]; [|done]. destruct (with_replay _ _ _) as [a'|e]; simpl; [done | by left].
Qed.

Lemma run_held_ends registry :
  holds (shown l) (run_held provenance owner fuel g registry mode q)
    (fun r => ends (Ok r)) (fun e => ends (Err e)).
Proof using laws hl Hq.
  unfold run_held. rewrite Hq.
  eapply holds_bind; [apply waits_leads, waits_lookup|]. intros first.
  apply holds_bind with (Q := fun r w => shown l w /\ (is_some r = true -> known (pq_operation_id q) w)).
  { destruct first as [receipt|]; [by intros w Hw|].
    eapply holds_conseq; [apply waits_leads, waits_lookup|by intros w []|done|done]. }
  intros [receipt|].
  { eapply holds_conseq; [apply repeat_idle|intros w [Hw Hk]; split; [done | by apply Hk]|intros r w; apply idle_ends|
      intros e w; apply idle_ends]. }
  eapply holds_bind; [eapply holds_conseq; [apply prepare_leads|by intros w []|done|done]|]. intros p.
  eapply holds_bind with (Q := fun _ w => shown l w /\ is_some p = restore_history mode).
  { intros w [Hw Hp]. pose proof (admit_leads registry (pq_input q) p w Hw) as Ha.
    destruct (admit_submission _ _ _ p w) as [[a|e] u]; done. }
  intros a. set (m := match p with None => Accept (pq_input q) | Some p => AcceptHistory (pq_input q) (pr_selection p) end).
  apply holds_bind with (Q := fun r w => attempted m r w /\ accepting mode q m).
  { intros w [Hw Hp]. pose proof (accept_attempted m w Hw) as Hx.
    assert (accepting mode q m) as Hm.
    { unfold accepting, m. rewrite <- Hp. destruct p as [p|]; [by exists (pr_selection p) | done]. }
    by destruct p; destruct (on_world _ w) as [[r|e] u]. }
  intros r. apply holds_bind with (Q := fun c w => attempted m (Ok c) w /\ accepting mode q m).
  { intros w [Hw Hm]. pose proof (settle_acceptance_leads (pq_operation_id q) m r Hm w Hw) as Hx.
    by destruct (settle_acceptance _ _ _ w) as [[c|e] u]. }
  intros c w [Hw Hm]. simpl in Hw. destruct (cm_duplicate c); [|by apply (run_accepted_ends m)].
  pose proof (duplicate_idle c w Hw) as Hd. destruct (duplicate _ _ _ w) as [[x|e] u]; by apply idle_ends.
Qed.

(** A known operation ends a submission before it starts. *)
Lemma run_held_known registry :
  holds (fun w => shown l w /\ known (pq_operation_id q) w)
    (run_held provenance owner fuel g registry mode q)
    (fun r => idle (Ok r)) (fun e => idle (Err e)).
Proof using laws hl Hq.
  unfold run_held. rewrite Hq.
  apply holds_bind with (Q := fun r w => (shown l w /\ known (pq_operation_id q) w) /\ is_some r = true).
  - intros w [Hw Hk]. pose proof (waits_lookup PersistentRunStage.Lookup (pq_operation_id q) w Hw) as Hl.
    destruct (or_fail _ _ _ w) as [[r|e] u] eqn:Hr; [|done]. destruct Hl as [Hu Hku].
    destruct r as [c|]; [by split; [split; [|apply Hku]|]|]. exfalso.
    unfold or_fail, lookup_receipt, handle_read in Hr. apply (catch_up_known provenance owner run _ l) in Hk; [|done].
    destruct (read_refused _) as [[x|] o]; [done|]. injection Hr as Hr _.
    unfold find_command in Hr. destruct (find _ _) as [row|] eqn:Hf in Hr.
    + destruct (decode_receipt _); [|done]. destruct (ok_or _ _); [|done]. by destruct (_ || _) in Hr.
    + apply list_elem_of_fmap in Hk as (c & Hc & Hin). apply list_elem_of_In in Hin.
      apply (List.find_none _ _ Hf) in Hin. by apply bool_decide_eq_false in Hin.
  - intros [receipt|]; [|by intros w [_ Hx]]. unfold bind at 1. cbn [ret].
    eapply holds_conseq; [apply repeat_idle|by intros w [Hw _]|done|done].
Qed.
End outcome.

(** ** Claims *)

Lemma run_owned_ends fuel g registry mode q w r w' :
  pq_run_id q = run -> sound (session w) -> mine owner run (session w) ->
  run_owned provenance owner fuel g registry mode q w = (r, w') ->
  ends (run_log id run (session w)) fuel g mode q r w'.
Proof using laws hl.
  intros Hq Hs Hm Hr. unfold run_owned in Hr. destruct (hold_refused (outer w)) as [refused o].
  assert (shown (run_log id run (session w)) (set_outer o w)) as Hsh by done.
  destruct refused as [e|]; [injection Hr as <- <-; by left|].
  pose proof (run_held_ends _ fuel g mode q Hq registry _ Hsh) as He.
  destruct (run_held _ _ _ _ _ _ _ _) as [[x|x] u]; by injection Hr as <- <-.
Qed.

(** C3. A run that was executed is recorded exactly.  When a submission returns
    an executed run, its session shows of that run - after what it showed before -
    the acceptance, then every delivery of the run in its order (its events,
    the provider binding and the tool results; none was refused), then the result
    that is returned, and nothing else.  This holds whatever the provider, the
    tools, the cancellation token and the store do, while other handles of the
    process rename or open the session or work on other runs. *)
Theorem executed_run_recorded fuel g registry mode q w acceptance final_record res w' :
  pq_run_id q = run -> sound (session w) -> mine owner run (session w) ->
  run_owned provenance owner fuel g registry mode q w
    = (Ok (Executed acceptance final_record res), w') ->
  exists m st, accepting mode q m /\ ran fuel g res st /\
    Forall (fun a => delivered a = true) (log st) /\ sound (session w') /\
    run_log id run (session w') = run_log id run (session w)
      ++ (Ok <$> payloads owner run m ++ deliveries run (log st) ++ [RunResultRecorded res]).
Proof using laws hl.
  intros Hq Hs Hm (m & st & Ha & Hr & Hd & [Hs' _ Hl])%run_owned_ends; try done.
  by exists m, st.
Qed.

(** C26. A submission that fails loses nothing it acknowledged and invents nothing.
    When a failure carries a result, the session shows the acceptance and exactly the
    acknowledged deliveries of that run; and the failure names the stage of the first
    delivery that was refused, or of the result if none was.  Only if the failure says
    that its commit is unknown, or was made by a connection that did not close, may the
    session show one record more, and it is the record of that delivery, or the result.
    A failure without a result left nothing; or it left the acceptance, and says so in
    the same way. *)
Theorem failed_run_recorded fuel g registry mode q w f w' :
  pq_run_id q = run -> sound (session w) -> mine owner run (session w) ->
  run_owned provenance owner fuel g registry mode q w = (Err (Failure f), w') ->
  let before := run_log id run (session w) in
  sound (session w') /\
  match fl_observed_result f with
  | Some res => exists m st extra, accepting mode q m /\ ran fuel g res st /\
      fl_stage f = failed_stage (log st) /\ leftover f (failed_record res (log st)) extra /\
      run_log id run (session w') =
        before ++ (Ok <$> payloads owner run m ++ deliveries run (log st) ++ extra)
  | None => run_log id run (session w') = before \/
      unsure f /\ exists m, accepting mode q m /\ run_log id run (session w') = before ++ (Ok <$> payloads owner run m)
  end.
Proof using laws hl.
  intros Hq Hs Hm He before. apply run_owned_ends in He; [|done..]. simpl in He.
  destruct (fl_observed_result f) as [res|].
  - destruct He as (m & st & extra & Ha & Hr & Hst & Hx & [Hs' _ Hl]). split; [done|]. by exists m, st, extra.
  - destruct He as [[Hs' _ Hl]|(Hu & m & Ha & [Hs' _ Hl])]; (split; [done|]); [by left | right; split; [done|]; by exists m].
Qed.

(** A submission is executed at most once.  When the session already has the
    operation's receipt - of this or an earlier process - submitting again never
    executes the run and adds nothing to it, whatever the request says and
    however the submission ends. *)
Lemma resubmission_writes_nothing fuel g registry mode q w r w' :
  pq_run_id q = run -> sound (session w) -> mine owner run (session w) -> known (pq_operation_id q) w ->
  run_owned provenance owner fuel g registry mode q w = (r, w') ->
  run_log id run (session w') = run_log id run (session w) /\
  forall acceptance final_record res, r <> Ok (Executed acceptance final_record res).
Proof using laws hl.
  intros Hq Hs Hm Hk Hr. unfold run_owned in Hr. destruct (hold_refused (outer w)) as [refused o].
  destruct refused as [e|]; [by injection Hr as <- <-|].
  assert (shown (run_log id run (session w)) (set_outer o w)) as Hsh by done.
  pose proof (run_held_known _ fuel g mode q Hq registry (set_outer o w) (conj Hsh Hk)) as He.
  destruct (run_held _ _ _ _ _ _ _ _) as [[x|x] u]; injection Hr as <- <-; destruct He as [[_ _ Hl] Hx];
    (split; [done|]); [by destruct x | done].
Qed.

(** ** Termination *)
Notation reports := (within (fun _ : World W D => True) reported).

Lemma reports_or_fail {A} s op (c : World W D -> SResult A * World W D) : reports (or_fail s op c).
Proof. intros u _. unfold or_fail. destruct (c u) as [[a|x] v]; [done|]. split; [by eexists | done]. Qed.

Lemma reports_on_world {A} (c : World W D -> A * World W D) : reports (on_world c).
Proof. intros u _. unfold on_world. by destruct (c u). Qed.

Lemma reports_settled {A} (r : result A PersistentRunFailure) : reports (settled r).
Proof. apply within_lift. destruct r; [done|]. intros x [= <-]. by eexists. Qed.

Lemma reports_throw {A} f : reports (@throw _ _ A (Failure f)).
Proof. apply within_throw. by eexists. Qed.

Lemma reports_notify mode c : reports (notify (D := D) mode c).
Proof. intros u _. unfold notify. by destruct (accepted mode). Qed.

Lemma reports_run_accepted fuel g a id c :
  u64_max < Z.of_nat fuel -> reports (run_accepted provenance owner fuel g a id c).
Proof.
  intros Hfuel u _. unfold run_accepted.
  pose proof (@run_admitted_total _ (persist_env provenance owner id) _ _ _ fuel g a id (set_failure None u) Hfuel) as [res Hres].
  destruct (run_admitted fuel g a id (set_failure None u)) as [r st]. simpl in Hres. subst r.
  destruct (failure (world st)); [split; [by eexists|done]|].
  destruct (handle_record _ _ _ _ _ _) as [x v]. destruct (check_commit _ _ _); [done | split; [by eexists|done]].
Qed.

(** A submission ends: with [u64::MAX] iterations of fuel it returns an
    executed run, a duplicate or a failure it reports, never anything else. *)
Lemma submission_returns fuel g registry mode q w :
  u64_max < Z.of_nat fuel ->
  match fst (run_owned provenance owner fuel g registry mode q w) with
  | Ok _ | Err (Failure _) => True
  | Err (Died _) => False
  end.
Proof.
  intros Hfuel. unfold run_owned. destruct (hold_refused (outer w)) as [[e|] o]; [done|].
  assert (reports (run_held provenance owner fuel g registry mode q)) as Hw.
  { pose proof reports_run_accepted. pose proof (reports_prepare (D := D) provenance fuel). unfold run_held, repeat_submission, prepare, admit_submission, settle_acceptance, duplicate.
    repeat first [within_step | apply reports_or_fail | apply reports_on_world | apply reports_settled
                 | apply reports_notify | apply reports_throw]. }
  specialize (Hw (set_outer o w) I). destruct (run_held _ _ _ _ _ _ _ _) as [[x|x] u]; [done|].
  by destruct Hw as [[f ->] _].
Qed.
End submissions.
