(* ===== verification/Faithful.v ===== *)
(** * Faithful replays

    What a prepared replay says of the history it was rebuilt from: every response
    the history finished is in it, in order, under the run it was recorded for;
    every tool result in it was recorded for that run; every prompt is the accepted
    one. *)
From S2P Require Import Prelude Json Errors Identifiers Provider Tools Replay RunData Run Hoare Records Store History Session RunStore StoreSafety StoreCommands StoreGuarantees StoreContents Prefix Persist PersistStore Rebuild Prepare PersistClaims.

(** ** What a history says *)

(** The response an event finishes, with its run. *)
Definition event_response (event : ProviderEvent) : option ModelResponse :=
  match event with PResponseFinished r => Some r | _ => None end.
Definition runtime_responses (event : RunEventEnvelope) : list (string * ModelResponse) :=
  match ev_event event with
  | EProviderEvent p => match event_response (env_event p) with Some r => [(ev_run_id event, r)] | None => [] end
  | _ => []
  end.
Definition finished_response (e : StoredEvent) : list (string * ModelResponse) :=
  match st_payload e with RuntimeObserved event => runtime_responses event | _ => [] end.
Definition finished_responses (es : list StoredEvent) : list (string * ModelResponse) := es ≫= finished_response.

(** A tool result that was recorded for a run. *)
Definition recorded_result (es : list StoredEvent) (run : string) (item : InputItem) : Prop :=
  exists e r, e ∈ es /\ st_run_id e = Some run /\ st_payload e = ToolResultRecorded r /\
    item = ToolResult (tr_call_id r) (tr_output r).

(** A run that was accepted with a prompt. *)
Definition accepted_prompt (es : list StoredEvent) (run prompt : string) : Prop :=
  exists e a, e ∈ es /\ st_payload e = RunAccepted a /\ ac_run_id a = run /\
    rq_prompt (prepared_request (ac_input a)) = prompt.

Section faithful.
Context `{SerdeJson} `{ReplaySerde}.

(** An exchange that is valid and whose results were recorded for its run. *)
Definition exchange_ok (es : list StoredEvent) (run : string) (x : ReplayExchange) : Prop :=
  new_exchange (re_response x) (re_tool_results x) = Ok x /\ Forall (recorded_result es run) (re_tool_results x).

(** ** What the rebuilt runs say *)
Definition exchange_responses (run : string) (xs : list ReplayExchange) : list (string * ModelResponse) :=
  (fun x => (run, re_response x)) <$> xs.
Definition turn_response (run : string) (t : option Turn) : list (string * ModelResponse) :=
  match t ≫= tn_response with Some r => [(run, r)] | None => [] end.
Definition active_responses (a : ActiveRun) : list (string * ModelResponse) :=
  exchange_responses (ar_run_id a) (ar_exchanges a) ++ turn_response (ar_run_id a) (ar_turn a).
Definition closed_responses (cs : list ClosedRun) : list (string * ModelResponse) :=
  cs ≫= (fun c => exchange_responses (cl_run_id c) (cl_exchanges c)).
Definition replayed_responses (r : ConversationReplay) : list (string * ModelResponse) :=
  cr_runs r ≫= (fun run => exchange_responses (rr_source_run_id run) (rr_exchanges run)).

Record active_ok (es : list StoredEvent) (a : ActiveRun) : Prop := {
  ao_prompt : accepted_prompt es (ar_run_id a) (ar_prompt a);
  ao_exchanges : Forall (exchange_ok es (ar_run_id a)) (ar_exchanges a);
  ao_turn : forall t, ar_turn a = Some t -> Forall (recorded_result es (ar_run_id a)) (tn_results t);
  ao_saved : forall call sv, ar_saved a !! call = Some sv ->
    recorded_result es (ar_run_id a) (ToolResult call (sv_output sv))
}.

Record closed_ok (es : list StoredEvent) (c : ClosedRun) : Prop := {
  co_prompt : accepted_prompt es (cl_run_id c) (cl_prompt c);
  co_exchanges : Forall (exchange_ok es (cl_run_id c)) (cl_exchanges c)
}.

(** The history only grows. *)
Section grows.
Context (es : list StoredEvent) (e : StoredEvent).

Lemma recorded_result_more run item : recorded_result es run item -> recorded_result (es ++ [e]) run item.
Proof. intros (x & r & Hin & Hx). exists x, r. split; [|done]. apply elem_of_app. by left. Qed.

Lemma accepted_prompt_more run prompt : accepted_prompt es run prompt -> accepted_prompt (es ++ [e]) run prompt.
Proof. intros (x & a & Hin & Hx). exists x, a. split; [|done]. apply elem_of_app. by left. Qed.
Hint Resolve recorded_result_more accepted_prompt_more : core.

Lemma exchange_ok_more run x : exchange_ok es run x -> exchange_ok (es ++ [e]) run x.
Proof. intros [Hv Hr]. split; [done|]. eapply Forall_impl; eauto. Qed.
Hint Resolve exchange_ok_more : core.

Lemma active_ok_more a : active_ok es a -> active_ok (es ++ [e]) a.
Proof. intros []. split; eauto using Forall_impl. Qed.

Lemma closed_ok_more c : closed_ok es c -> closed_ok (es ++ [e]) c.
Proof. intros []. split; eauto using Forall_impl. Qed.
End grows.

(** ** One step of a run *)

(** A step of an active run that finishes the responses [news]. *)
Record run_step (es : list StoredEvent) (news : list (string * ModelResponse)) (a a' : ActiveRun) : Prop := {
  rs_run : ar_run_id a' = ar_run_id a;
  rs_responses : active_responses a' = active_responses a ++ news;
  rs_ok : active_ok es a -> active_ok es a'
}.

Ltac cases H :=
  repeat match type of H with
         | context [match ?x with _ => _ end] =>
             lazymatch x with context [match _ with _ => _ end] => fail | _ => destruct x eqn:?; try discriminate H end
         end.

Section steps.
Context (es : list StoredEvent).

Lemma guard_not_Ok b e x : guard_not b e = Ok x -> b = false.
Proof. unfold guard_not. by destruct b. Qed.

Lemma select_history_step sequence s a a' : select_history sequence s a = Ok a' -> run_step es [] a a'.
Proof.
  unfold select_history. intros Hs. cases Hs. injection Hs as <-. split; [done|by rewrite app_nil_r|].
  intros []. by split.
Qed.

Lemma bind_provider_step b a a' : bind_provider b a = Ok a' -> run_step es [] a a'.
Proof.
  unfold bind_provider. intros Hs. cases Hs. injection Hs as <-. split; [done|by rewrite app_nil_r|].
  intros []. by split.
Qed.

Lemma observe_request_step event t a x :
  observe_request event t a = Ok x ->
  tn_response (fst x) = tn_response t /\ tn_results (fst x) = tn_results t /\
  ar_run_id (snd x) = ar_run_id a /\ ar_prompt (snd x) = ar_prompt a /\
  ar_exchanges (snd x) = ar_exchanges a /\ ar_saved (snd x) = ar_saved a.
Proof. unfold observe_request. intros Hs. cases Hs; by injection Hs as <-. Qed.

Lemma turn_provider_step event t t' :
  turn_provider event t = Ok t' -> tn_response t = None ->
  tn_response t' = event_response event /\ tn_results t' = tn_results t.
Proof.
  unfold turn_provider. intros Hs Hn. destruct (provider_step event t) as [[id u]|] eqn:Hp; [|done].
  assert (tn_response u = event_response event /\ tn_results u = tn_results t) as [Hr Hu].
  { unfold provider_step in Hp. cases Hp; by injection Hp as _ <-. }
  cbn [fst snd] in Hs. cases Hs; by injection Hs as <-.
Qed.

Lemma turn_tool_step run event saved t t' :
  turn_tool_event event saved t = Ok t' ->
  (forall call sv, saved !! call = Some sv -> recorded_result es run (ToolResult call (sv_output sv))) ->
  Forall (recorded_result es run) (tn_results t) ->
  tn_response t' = tn_response t /\ Forall (recorded_result es run) (tn_results t').
Proof.
  unfold turn_tool_event. intros Hs Hsaved Hres. destruct event as [call tool|call tool err|call tool].
  - cases Hs. by injection Hs as <-.
  - cases Hs. by injection Hs as <-.
  - destruct (guard_not _ _); [|done]. destruct (next_call t); [|done].
    destruct (saved !! call) as [sv|] eqn:Hsv; [|done]. cases Hs. injection Hs as <-. split; [done|].
    apply Forall_app. split; [done|]. apply Forall_singleton. simplify_eq/=. by apply Hsaved.
Qed.

(** A turn that ends becomes an exchange, or leaves nothing. *)
Lemma finish_active_turn_step a a' :
  finish_active_turn a = Ok a' -> run_step es [] a a' /\ ar_turn a' = None /\ ar_prompt a' = ar_prompt a.
Proof.
  unfold finish_active_turn. destruct (ar_turn a) as [t|] eqn:Ht; [|done]. cbn [ok_or].
  destruct (tn_response t) as [r|] eqn:Hr; intros Hs.
  - destruct (guard_not _ _); [|done]. destruct (new_exchange r (tn_results t)) as [x|] eqn:Hx; [|done].
    cbn [map_err] in Hs. injection Hs as <-.
    assert (re_response x = r /\ re_tool_results x = tn_results t) as [Hxr Hxt].
    { unfold new_exchange in Hx. cases Hx. by injection Hx as <-. }
    split; [|done]. split; [done| |].
    + unfold active_responses, exchange_responses, turn_response. rewrite Ht. simpl. rewrite Hr, fmap_app, !app_nil_r.
      simpl. by rewrite Hxr.
    + intros [Hp He Htr Hsv]. split; [done| |done|done]. apply Forall_app. split; [done|]. apply Forall_singleton.
      split; [by rewrite Hxr, Hxt | rewrite Hxt; by apply Htr].
  - cases Hs. injection Hs as <-. split; [|done]. split; [done| |].
    + unfold active_responses, turn_response. rewrite Ht. simpl. by rewrite Hr, !app_nil_r.
    + intros []. by split.
Qed.

Lemma runtime_turn_step event a a' :
  runtime_turn event a = Ok a' -> ev_run_id event = ar_run_id a ->
  run_step es (runtime_responses event) a a'.
Proof.
  unfold runtime_turn. destruct (ar_turn a) as [t|] eqn:Ht; [|done]. cbn [ok_or]. intros Hs Hrun.
  destruct (guard_not _ _); [|done]. destruct (observe_request event t a) as [[u b]|] eqn:Ho; [|done].
  apply observe_request_step in Ho as (Hr & Hres & Hid & Hp & Hx & Hsv). cbn [fst snd] in *. unfold runtime_responses.
  assert (active_ok es a -> active_ok es (set_ar_turn (Some u) b)) as Hok.
  { intros [H1 H2 H3 H4]. split; simpl; rewrite ?Hid, ?Hp, ?Hx, ?Hsv; try done.
    intros v [= <-]. rewrite Hres. by apply H3. }
  assert (active_responses a = exchange_responses (ar_run_id b) (ar_exchanges b) ++ turn_response (ar_run_id b) (Some u)) as Ha.
  { unfold active_responses, turn_response. rewrite Ht, Hid, Hx. simpl. by rewrite Hr. }
  destruct (ev_event event) as [|number|p|tool|number response outcome upstream|outcome summary] eqn:He; try done.
  - destruct (guard_not _ _); [|done]. destruct (ok_or _ _); [|done].
    destruct (guard_not _ _) eqn:Hg; [|done]. apply guard_not_Ok in Hg. apply orb_false_iff in Hg as [_ Hn].
    destruct (tn_response u) eqn:Hu; [done|]. clear Hn.
    destruct (turn_provider _ _) as [v|] eqn:Hv; [|done]. apply turn_provider_step in Hv as [Hvr Hvt]; [|done].
    injection Hs as <-. split; [done| |].
    + rewrite Ha. unfold active_responses, turn_response. simpl. rewrite Hvr, Hu, app_nil_r, Hrun, <- Hid. done.
    + intros [H1 H2 H3 H4]%Hok. split; try done. simpl. intros z [= <-]. rewrite Hvt. by apply (H3 u).
  - destruct (turn_tool_event _ _ _) as [v|] eqn:Hv; [|done]. injection Hs as <-.
    split; [done| |].
    + rewrite Ha, app_nil_r. unfold active_responses, turn_response. simpl. f_equal.
      unfold turn_tool_event in Hv. cases Hv; by injection Hv as <-.
    + intros [H1 H2 H3 H4]%Hok. apply (turn_tool_step (ar_run_id b)) in Hv as [_ Hv]; [|done|by apply (H3 u)].
      split; try done. simpl. by intros z [= <-].
  - destruct (guard_not _ _); [|done]. destruct (guard_not _ _); [|done].
    destruct (finish_active_turn _) as [b'|] eqn:Hf; [|done]. apply finish_active_turn_step in Hf as ([H1 H2 H3] & Hb & Hpb).
    injection Hs as <-. split; [simpl; rewrite H1; exact Hid| |].
    + rewrite app_nil_r in *. unfold active_responses in *. simpl in *. rewrite H2, Ha. done.
    + intros Hao. destruct H3 as [K1 K2 K3 K4]; [|by split]. destruct (Hok Hao). by split.
Qed.

Lemma runtime_step event a a' : runtime event a = Ok a' -> run_step es (runtime_responses event) a a'.
Proof.
  unfold runtime. intros Hs. destruct (require_selection a); [|done].
  destruct (guard_not _ _) eqn:Hg; [|done]. apply guard_not_Ok in Hg.
  apply orb_false_iff in Hg as [[Hrun _]%orb_false_iff _]. apply negb_false_iff, bool_decide_eq_true in Hrun.
  destruct (guard_not _ _); [|done].
  destruct (ev_event event) as [|number|p|tool|number response outcome upstream|outcome summary] eqn:He.
  3,4,5: apply runtime_turn_step in Hs as [H1 H2 H3]; [|done]; (split; [exact H1 | exact H2 | intros [K1 K2 K3 K4]; apply H3; by split]).
  - unfold runtime_responses. rewrite He. cases Hs. injection Hs as <-. split; [done|by rewrite app_nil_r|].
    intros []. by split.
  - unfold runtime_responses. rewrite He. destruct (guard_not _ _) eqn:Hg; [|done]. apply guard_not_Ok in Hg.
    assert (ar_turn a = None) as Ht.
    { simpl in Hg. repeat rewrite orb_false_iff in Hg. destruct Hg as [[[[_ Ht] _] _] _]. by destruct (ar_turn a). }
    destruct (ev_turn_id event); [|done]. cbn [ok_or] in Hs. destruct (guard_not _ _); [|done]. injection Hs as <-.
    split; [done| |].
    + unfold active_responses, turn_response. rewrite Ht. simpl. by rewrite !app_nil_r.
    + intros []. split; try done. simpl. by intros t [= <-].
  - unfold runtime_responses. rewrite He. cases Hs. injection Hs as <-. split; [done|by rewrite app_nil_r|].
    intros []. by split.
Qed.

Lemma active_tool_result_step e r a a' :
  e ∈ es -> st_run_id e = Some (ar_run_id a) -> st_payload e = ToolResultRecorded r ->
  active_tool_result r a = Ok a' -> run_step es [] a a'.
Proof.
  intros Hin Hrun Hpay. unfold active_tool_result. intros Hs. destruct (require_selection a); [|done].
  destruct (ar_turn a) as [t|] eqn:Ht; [|done]. cbn [ok_or] in Hs. destruct (next_call t) as [call|]; [|done].
  destruct (guard_not _ _) eqn:Hg; [|done]. apply guard_not_Ok in Hg. repeat rewrite orb_false_iff in Hg.
  destruct Hg as [[[_ Hc] _] _]. apply negb_false_iff, bool_decide_eq_true in Hc.
  destruct (parse_arguments _); [|done]. destruct (tn_request t); [|done]. cbn [ok_or] in Hs. injection Hs as <-.
  assert (recorded_result es (ar_run_id a) (ToolResult (tr_call_id r) (tr_output r))) as Hrec by by exists e, r.
  split; [done| |].
  - unfold active_responses, turn_response. rewrite Ht. simpl. by rewrite app_nil_r.
  - intros [H1 H2 H3 H4]. split; try done; simpl.
    + intros u [= <-]. simpl. apply Forall_app. split; [by apply H3 | by apply Forall_singleton].
    + intros k sv Hk. destruct (decide (k = call_id call)) as [->|Hne].
      * rewrite lookup_insert_eq in Hk. injection Hk as <-. by rewrite Hc.
      * rewrite lookup_insert_ne in Hk by done. by apply H4.
Qed.

Lemma close_run_step interrupted a c :
  close_run interrupted a = Ok c ->
  cl_run_id c = ar_run_id a /\ exchange_responses (cl_run_id c) (cl_exchanges c) = active_responses a /\
  (active_ok es a -> closed_ok es c).
Proof.
  unfold close_run. intros Hs. destruct (ok_or _ _); [|done]. destruct (guard_not _ _); [|done].
  assert (exists b, (if is_some (ar_turn a) then finish_active_turn a else Ok a) = Ok b /\
    run_step es [] a b /\ ar_turn b = None) as (b & Hb & [H1 H2 H3] & Hn).
  { destruct (ar_turn a) eqn:Ht; simpl in *.
    - destruct (finish_active_turn a) as [b|] eqn:Hf; [|done]. exists b. split; [done|].
      by apply finish_active_turn_step in Hf as (? & ? & _).
    - exists a. split; [done|]. split; [|done]. split; [done|by rewrite app_nil_r|done]. }
  rewrite Hb in Hs. destruct (guard_not _ _); [|done]. injection Hs as <-. simpl.
  split; [done|]. rewrite app_nil_r in H2. split.
  - rewrite <- H2. unfold active_responses, turn_response. rewrite Hn. by rewrite app_nil_r.
  - intros [K1 K2 K3 K4]%H3. by split.
Qed.
End steps.

(** ** The builder *)
Definition open_responses (a : option ActiveRun) : list (string * ModelResponse) :=
  match a with Some a => active_responses a | None => [] end.

(** What the builder holds after the events [es], when they finish [rs]. *)
Record builder_ok (es : list StoredEvent) (rs : list (string * ModelResponse)) (b : Builder) : Prop := {
  bo_responses : closed_responses (bd_closed b) ++ open_responses (bd_active b) = rs;
  bo_closed : Forall (closed_ok es) (bd_closed b);
  bo_active : forall a, bd_active b = Some a -> active_ok es a;
  bo_index : forall k i, bd_closed_ids b !! k = Some i -> is_Some (bd_closed b !! i)
}.

Lemma builder_ok_more es rs b e : builder_ok es rs b -> builder_ok (es ++ [e]) rs b.
Proof.
  intros []. split; eauto using active_ok_more. eapply Forall_impl; [done|]. intros c. apply closed_ok_more.
Qed.

Lemma with_active_ok es rs news a a' b :
  builder_ok es rs b -> bd_active b = Some a -> run_step es news a a' ->
  builder_ok es (rs ++ news) (with_active (Some a') b).
Proof.
  intros [H1 H2 H3 H4] Ha [S1 S2 S3]. rewrite Ha in H1. split; simpl; [|done| |done].
  - by rewrite S2, app_assoc, <- H1.
  - intros x [= <-]. by apply S3, H3.
Qed.

Lemma close_active_ok es rs interrupted b b' :
  builder_ok es rs b -> close_active interrupted b = Ok b' -> builder_ok es rs b'.
Proof.
  intros [H1 H2 H3 H4]. unfold close_active. destruct (bd_active b) as [a|] eqn:Ha; [|done]. cbn [ok_or].
  destruct (close_run interrupted a) as [c|] eqn:Hc; [|done]. intros [= <-].
  apply (close_run_step es) in Hc as (Hid & Hr & Hok). split; simpl.
  - unfold closed_responses in *. rewrite bind_app. simpl. by rewrite Hr, !app_nil_r.
  - apply Forall_app. split; [done|]. apply Forall_singleton. by apply Hok, H3.
  - done.
  - intros k i Hk. destruct (decide (k = cl_run_id c)) as [->|Hne].
    + rewrite lookup_insert_eq in Hk. injection Hk as <-. rewrite list_lookup_middle by done. by eexists.
    + rewrite lookup_insert_ne in Hk by done. destruct (H4 k i Hk) as [x Hx]. exists x. by apply lookup_app_l_Some.
Qed.

Lemma closed_result_same r c c' :
  closed_result r c = Ok c' ->
  cl_run_id c' = cl_run_id c /\ cl_prompt c' = cl_prompt c /\ cl_exchanges c' = cl_exchanges c.
Proof. unfold closed_result. intros Hs. cases Hs; by injection Hs as <-. Qed.

(** A result is noted at the run it names; the index is always of a closed run. *)
Lemma builder_result_ok es rs r b b' :
  builder_ok es rs b -> builder_result r b = Ok b' -> builder_ok es rs b'.
Proof.
  intros Hb. unfold builder_result.
  assert (forall u, builder_ok es rs u ->
    (let? index := ok_or (bd_closed_ids u !! res_run_id r) Inconsistent in
     let? c := ok_or (bd_closed u !! index) Inconsistent in
     let? c := closed_result r c in
     Ok (mkBuilder (bd_active u) (<[index := c]> (bd_closed u)) (bd_closed_ids u) (bd_checkpoints u))) = Ok b' ->
    builder_ok es rs b') as Hnote.
  { intros u [H1 H2 H3 H4] Hs. destruct (bd_closed_ids u !! res_run_id r) as [i|]; [|done]. cbn [ok_or] in Hs.
    destruct (bd_closed u !! i) as [c|] eqn:Hc; [|done]. cbn [ok_or] in Hs.
    destruct (closed_result r c) as [c'|] eqn:Hr; [|done]. apply closed_result_same in Hr as (R1 & R2 & R3).
    injection Hs as <-. pose proof (take_drop_middle _ _ _ Hc) as Hsplit.
    pose proof (lookup_lt_Some _ _ _ Hc) as Hlt.
    assert (<[i := c']> (bd_closed u) = take i (bd_closed u) ++ c' :: drop (S i) (bd_closed u)) as Hins
      by by apply insert_take_drop.
    split; simpl; [| |done|].
    - rewrite Hins. rewrite <- H1. rewrite <- Hsplit at 3. unfold closed_responses. rewrite !bind_app, !bind_cons.
      by rewrite R1, R3.
    - apply Forall_insert; [done|]. rewrite Forall_lookup in H2. destruct (H2 _ _ Hc). split; by rewrite R1, ?R2, ?R3.
    - intros k j Hk. apply H4 in Hk. apply lookup_lt_is_Some in Hk.
      apply lookup_lt_is_Some. by rewrite length_insert. }
  destruct (is_some_and _ _); [|by apply Hnote]. destruct (guard_not _ _); [|done].
  destruct (close_active false b) as [u|] eqn:Hc; [|done]. apply Hnote. by eapply close_active_ok.
Qed.

Lemma observe_active_ok es rs e a b b' :
  builder_ok es rs b -> bd_active b = Some a -> e ∈ es -> st_run_id e = Some (ar_run_id a) ->
  observe_active (st_sequence e) (st_payload e) a b = Ok b' -> builder_ok es (rs ++ finished_response e) b'.
Proof.
  intros Hb Ha Hin Hrun Hs. unfold finished_response.
  destruct (st_payload e) as [| | |p|binding|event|r| |] eqn:Hp; try done; simpl in Hs.
  - destruct (select_history _ _ a) as [a'|] eqn:Hx; [|done]. injection Hs as <-.
    apply (select_history_step es) in Hx. destruct (with_active_ok _ _ _ _ _ _ Hb Ha Hx). by split.
  - destruct (bind_provider _ a) as [a'|] eqn:Hx; [|done]. injection Hs as <-.
    apply (bind_provider_step es) in Hx. by eapply with_active_ok.
  - destruct (runtime event a) as [a'|] eqn:Hx; [|done]. apply (runtime_step es) in Hx.
    pose proof (with_active_ok _ _ _ _ _ _ Hb Ha Hx) as Hw.
    destruct (ev_event event); try (by injection Hs as <-). by eapply close_active_ok.
  - destruct (active_tool_result r a) as [a'|] eqn:Hx; [|done]. injection Hs as <-.
    eapply active_tool_result_step in Hx; [|done..]. by eapply with_active_ok.
  - rewrite app_nil_r. by eapply close_active_ok.
Qed.

Lemma observe_ok es e b b' :
  builder_ok es (finished_responses es) b -> observe e b = Ok b' ->
  builder_ok (es ++ [e]) (finished_responses (es ++ [e])) b'.
Proof.
  intros Hb. apply (builder_ok_more _ _ _ e) in Hb. unfold finished_responses. rewrite bind_app. simpl. rewrite app_nil_r.
  fold (finished_responses es). unfold observe. intros Hs. destruct (match bd_active b with Some _ => _ | None => _ end) as [[]|]; [|done].
  assert (e ∈ es ++ [e]) as Hin by set_solver.
  assert (forall p, p = st_payload e -> (let? a := ok_or (bd_active b) Inconsistent in
    check? guard_not (negb (bool_decide (st_run_id e = Some (ar_run_id a)))) Inconsistent in
    observe_active (st_sequence e) p a b) = Ok b' ->
    builder_ok (es ++ [e]) (finished_responses es ++ finished_response e) b') as Hact.
  { intros p -> Hx. destruct (bd_active b) as [a|] eqn:Ha; [|done]. cbn [ok_or] in Hx.
    destruct (guard_not _ _) eqn:Hg; [|done]. apply guard_not_Ok, negb_false_iff, bool_decide_eq_true in Hg.
    by eapply observe_active_ok. }
  destruct (st_payload e) as [c|title|acc|p|binding|event|r|result|i] eqn:Hp; try (by apply (Hact _ eq_refl) in Hs).
  - injection Hs as <-. unfold finished_response. by rewrite Hp, app_nil_r.
  - injection Hs as <-. unfold finished_response. by rewrite Hp, app_nil_r.
  - destruct (guard_not _ _) eqn:Hg; [|done]. apply guard_not_Ok, orb_false_iff in Hg as [Hg _].
    injection Hs as <-. unfold finished_response. rewrite Hp, app_nil_r. destruct Hb as [H1 H2 H3 H4].
    destruct (bd_active b) eqn:Ha; [done|]. split; simpl; [done|done| |done].
    intros x [= <-]. split; simpl; [|done|done|done]. by exists e, acc.
  - unfold finished_response. rewrite Hp, app_nil_r. by eapply builder_result_ok.
Qed.

Lemma observe_page_ok through sequence records b x es :
  builder_ok es (finished_responses es) b -> observe_page through sequence records b = Ok x ->
  builder_ok (es ++ records) (finished_responses (es ++ records)) (snd x).
Proof.
  revert sequence b es. induction records as [|e records IH]; intros sequence b es Hb Hs; simpl in Hs.
  { injection Hs as <-. by rewrite app_nil_r. }
  destruct (guard_not _ _); [|done]. destruct (observe e b) as [b'|] eqn:Ho; [|done].
  apply (observe_ok es) in Ho; [|done]. apply (IH _ _ (es ++ [e])) in Hs; [|done]. by rewrite <- app_assoc in Hs.
Qed.

Lemma new_builder_ok : builder_ok [] (finished_responses []) new_builder.
Proof. split; [done..|]. intros k i. unfold new_builder. cbn [bd_closed_ids]. by rewrite lookup_empty. Qed.

(** ** The closed runs *)
Definition run_ok (es : list StoredEvent) (r : ReplayRun) : Prop :=
  accepted_prompt es (rr_source_run_id r) (rr_prepared_prompt r) /\
  Forall (exchange_ok es (rr_source_run_id r)) (rr_exchanges r).
Definition runs_responses (runs : list ReplayRun) : list (string * ModelResponse) :=
  runs ≫= (fun run => exchange_responses (rr_source_run_id run) (rr_exchanges run)).

Lemma select_runs_ok es provider requested_model closed s s' :
  Forall (closed_ok es) closed -> Forall (run_ok es) (sl_runs s) ->
  select_runs provider requested_model closed s = Ok s' ->
  Forall (run_ok es) (sl_runs s') /\
  runs_responses (sl_runs s') = runs_responses (sl_runs s) ++ closed_responses closed.
Proof.
  intros Hc. revert s. induction Hc as [|c closed [Hp Hx] _ IH]; intros s Hr Hs; simpl in Hs.
  { injection Hs as <-. split; [done|]. by rewrite app_nil_r. }
  destruct (select_run _ _ c s) as [t|] eqn:Ht; [|done].
  assert (Forall (run_ok es) (sl_runs t) /\
    runs_responses (sl_runs t) = runs_responses (sl_runs s) ++ exchange_responses (cl_run_id c) (cl_exchanges c)) as [Ht1 Ht2].
  { unfold select_run in Ht. destruct (guard_not _ _); [|done]. destruct (require_result c); [|done].
    destruct (cl_exchanges c) as [|x xs] eqn:Hxs; [injection Ht as <-; by rewrite app_nil_r|].
    destruct (ok_or _ _); [|done]. destruct (guard_not _ _); [|done]. destruct (guard_not _ _); [|done].
    destruct (new_run _ _ _) as [r|] eqn:Hn; [|done]. cbn [map_err] in Ht. injection Ht as <-. simpl.
    assert (rr_source_run_id r = cl_run_id c /\ rr_prepared_prompt r = cl_prompt c /\ rr_exchanges r = x :: xs)
      as (R1 & R2 & R3).
    { unfold new_run in Hn. destruct (_ || _) in Hn; [done|]. by injection Hn as <-. }
    split.
    - apply Forall_app. split; [done|]. apply Forall_singleton. split; by rewrite R1, ?R2, ?R3.
    - unfold runs_responses. rewrite bind_app. simpl. by rewrite R1, R3, app_nil_r. }
  apply IH in Hs as [H1 H2]; [|done]. split; [done|]. rewrite H2, Ht2, <- app_assoc. done.
Qed.
End faithful.

(** ** The session *)
Section session.
Context {W D : Type} `{Display D} `{UuidLib} `{SerdeJson} `{ProviderSerde} `{StorageSerde} `{RowSerde} `{ReplaySerde}.
Context `{StoreHost W}.
Context (provenance : CreationProvenance).
Notation id := (cp_session_id provenance).
Implicit Types (w : World W D) (db : Db D).

(** A session whose first events are [es]. *)
Definition covers (es : list StoredEvent) db : Prop :=
  sound db /\ headed db /\ decoded id (take (length es) (events db)) es.

Lemma covers_length es db : covers es db -> (length es <= length (events db))%nat.
Proof. intros (_ & _ & Hd). apply Forall2_length in Hd. rewrite length_take in Hd. lia. Qed.

Lemma covers_catch_up es w : covers es (session w) -> covers es (session (catch_up provenance w)).
Proof.
  intros Hc. pose proof (covers_length _ _ Hc) as Hlen. destruct Hc as (Hs & Hh & Hd). unfold catch_up.
  destruct (others (outer w)) as [l o]. simpl.
  destruct (attempts_keep provenance l (session w) Hs) as ([[more Hev] _ _ _ _] & Hs' & Hh').
  split; [done|]. split; [by apply Hh'|]. by rewrite Hev, take_app_le.
Qed.

Lemma take_self {A} n (l : list A) : take (length (take n l)) l = take n l.
Proof. rewrite length_take. destruct (Nat.le_ge_cases n (length l)).
  - by rewrite Nat.min_l.
  - by rewrite Nat.min_r, !take_ge by lia.
Qed.

(** A page continues the events that were read. *)
Lemma page_covers es through limit db p :
  covers es db -> page id (Z.of_nat (length es)) through limit db = Ok p ->
  covers (es ++ hp_records p) db /\ hp_through_sequence p = default (size db) through /\
  Z.of_nat (length es) <= hp_through_sequence p <= size db.
Proof.
  intros (Hs & Hh & Hd). pose proof (sound_length db Hs) as Hlen. fold (size db) in Hlen. set (a := Z.of_nat (length es)).
  unfold page. unfold headed in Hh. destruct (manifest db) as [m|] eqn:Hm; [|done]. injection Hh as Hhead. cbn [ok_or].
  rewrite Hhead, as_u64_small by (unfold u64_max, i64_max, size in *; lia).
  set (t := match through with Some t => t | None => size db end).
  destruct (_ || _) eqn:Hg; [done|]. apply orb_false_iff in Hg as [[_ Ht%Z.ltb_ge]%orb_false_iff Ha%Z.ltb_ge].
  destruct (decode_page _ _ _) as [d|] eqn:Hp; [|done]. destruct (_ && _); [done|]. intros [= <-].
  cbn [hp_records hp_through_sequence]. apply decode_page_decoded in Hp.
  rewrite (as_i64_small a), (as_i64_small t) in Hp by lia. fold (between a t) in Hp.
  rewrite (log_between db a t (sound_log db Hs)), !take_take in Hp by lia.
  split; [|split; [by destruct through | lia]]. split; [done|]. split; [unfold headed; rewrite Hm; simpl; by f_equal|].
  rewrite length_app. replace (take (length es + length d.1) (events db)) with
    (take (length es) (events db) ++ take (length d.1) (drop (length es) (events db))) by apply take_take_drop.
  apply Forall2_app; [done|]. rewrite <- (Forall2_length _ _ _ Hp).
  unfold a in *. rewrite Nat2Z.id in *. by rewrite take_self.
Qed.

Lemma stored_page_covers es through :
  holds (fun w => covers es (session w))
    (stored (history_page provenance (Z.of_nat (length es)) through 128))
    (fun p w => covers (es ++ hp_records p) (session w))
    (fun _ _ => True).
Proof.
  intros w Hw%covers_catch_up. unfold stored, history_page. change (page_limit 128) with (Ok (E := StorageError) 129).
  cbv iota. destruct (_ || _); [done|]. unfold handle_read. destruct (read_refused _) as [[e|] o]; [done|].
  destruct (page _ _ _ _ _) as [p|e] eqn:Hp; [|done].
  by apply page_covers in Hp as [Hp _].
Qed.

(** The loop observes the events of the session in order. *)
Lemma read_pages_covers fuel through : forall es sequence b p,
  sequence = Z.of_nat (length es) -> builder_ok es (finished_responses es) b ->
  holds (fun w => covers (es ++ hp_records p) (session w)) (read_pages provenance fuel through sequence b p)
    (fun x w => exists es', covers es' (session w) /\ fst x = Z.of_nat (length es') /\
       builder_ok es' (finished_responses es') (snd x))
    (fun _ _ => True).
Proof.
  induction fuel as [|fuel IH]; intros es sequence b p Hseq Hb; cbn [read_pages]; [by intros w|].
  intros w Hw. unfold rebuilt at 1, bind at 1, lift. destruct (observe_page _ _ _ _) as [x|] eqn:Hx; [|done]. cbn [map_err].
  pose proof (observe_page_ok _ _ _ _ _ _ Hb Hx) as Hb'. apply observe_page_length in Hx as [Hl _].
  assert (fst x = Z.of_nat (length (es ++ hp_records p))) as Hf by (rewrite length_app; lia).
  destruct (negb _); [by exists (es ++ hp_records p)|]. unfold bind at 1, rebuilt at 1, lift.
  destruct (guard_not _ _); [|done]. cbn [map_err]. rewrite Hf.
  eapply (holds_bind (fun w => covers (es ++ hp_records p) (session w))); [apply stored_page_covers| |exact Hw].
  intros q. eapply holds_conseq; [by apply (IH (es ++ hp_records p))|done|done|done].
Qed.

Lemma stored_head_covers n :
  holds (fun w => covers [] (session w) /\ n <= size (session w)) (stored (history_page provenance 0 None 128))
    (fun p w => covers (hp_records p) (session w) /\ n <= hp_through_sequence p) (fun _ _ => True).
Proof.
  intros w [Hw Hn]. assert (n <= size (session (catch_up provenance w))) as Hn'.
  { destruct Hw as (Hs & _). unfold catch_up. destruct (others (outer w)) as [l o]. simpl.
    destruct (attempts_keep provenance l (session w) Hs) as ([[more Hev] _ _ _ _] & _).
    unfold size in *. rewrite Hev, length_app. lia. }
  apply covers_catch_up in Hw. unfold stored, history_page. change (page_limit 128) with (Ok (E := StorageError) 129).
  cbv iota. destruct (_ || _); [done|]. unfold handle_read. destruct (read_refused _) as [[e|] o]; [done|].
  destruct (page _ _ _ _ _) as [p|e] eqn:Hp; [|done]. apply (page_covers []) in Hp as (Hp & Ht & _); [|done].
  split; [done|]. simpl in Ht. cbn. by rewrite Ht.
Qed.

(** The digest does not depend on the checkpoints it was computed with. *)
Lemma prefix_digest_plain through checkpoints db d :
  sound db -> headed db -> 0 <= through ->
  prefix_digest through checkpoints db = Ok d -> prefix_digest through [] db = Ok d.
Proof.
  intros Hs Hh Hpos Hd. pose proof Hd as Hd'. unfold prefix_digest in Hd'.
  destruct (_ || _) eqn:Hg in Hd'; [done|]. apply orb_false_iff in Hg as [Hz%Z.eqb_neq _].
  destruct (expected_digests _ _ checkpoints) as [expected|] eqn:He; [|done].
  assert (through <= size db) as Hle.
  { unfold headed in Hh. destruct (manifest db) as [m|]; [|done]. injection Hh as Hh. cbn [ok_or] in Hd'. rewrite Hh in Hd'.
    destruct (_ || _) eqn:Hg in Hd'; [done|]. apply orb_false_iff in Hg as [_ Hg%Z.ltb_ge].
    pose proof (sound_length db Hs) as Hlen. fold (size db) in Hlen. rewrite as_u64_small in Hg; [done|].
    unfold u64_max, i64_max, size in *. lia. }
  pose proof (prefix_digest_spec through checkpoints expected db Hs Hh ltac:(lia) He) as Hsp. rewrite Hd in Hsp.
  destruct Hsp as (bytes & Hb & _ & ->).
  pose proof (prefix_digest_spec through [] ∅ db Hs Hh ltac:(lia) (expected_none through)) as Hsp.
  destruct (prefix_digest through [] db) as [d|e].
  - destruct Hsp as (bytes' & Hb' & _ & ->). congruence.
  - destruct Hsp as [_ Hno]. destruct Hno. rewrite Hb. split; [done|].
    intros n digest bs _ Hl. by rewrite lookup_empty in Hl.
Qed.

Lemma stored_digest_covers es checkpoints :
  holds (fun w => covers es (session w))
    (stored (history_prefix_digest provenance (Z.of_nat (length es)) checkpoints))
    (fun d w => covers es (session w) /\ prefix_digest (Z.of_nat (length es)) [] (session w) = Ok d) (fun _ _ => True).
Proof.
  intros w Hw%covers_catch_up. unfold stored, history_prefix_digest, handle_read.
  destruct (read_refused _) as [[e|] o]; [done|]. destruct (prefix_digest _ _ _) as [d|] eqn:Hd; [|done].
  split; [done|]. eapply prefix_digest_plain; [apply Hw..|lia|exact Hd].
Qed.

(** What a prepared replay says of a session. *)
Definition faithful (p : PreparedSessionReplay) db : Prop :=
  let s := pr_selection p in
  exists es, covers es db /\ hs_through_sequence s = Z.of_nat (length es) /\
    prefix_digest (hs_through_sequence s) [] db = Ok (hs_history_digest s) /\
    replayed_responses (pr_replay p) = finished_responses es /\
    Forall (run_ok es) (cr_runs (pr_replay p)).

Lemma rebuilt_holds {A} (P : World W D -> Prop) (r : Rebuilt A) :
  holds P (rebuilt r) (fun a w => P w /\ r = Ok a) (fun _ _ => True).
Proof. intros w Hw. unfold rebuilt, lift. by destruct r. Qed.

Lemma prepare_faithful fuel provider requested_model n :
  holds (fun w => covers [] (session w) /\ n <= size (session w))
    (prepare_session_replay provenance fuel provider requested_model)
    (fun p w => faithful p (session w) /\ n <= hs_through_sequence (pr_selection p)) (fun _ _ => True).
Proof.
  unfold prepare_session_replay. eapply holds_bind; [apply rebuilt_holds|]. intros unchecked.
  eapply holds_bind; [eapply holds_conseq; [apply (stored_head_covers n)|by intros w []|done|done]|]. intros p.
  apply holds_bind with (Q := fun x w => n <= hp_through_sequence p /\ exists es, covers es (session w) /\
    fst x = Z.of_nat (length es) /\ builder_ok es (finished_responses es) (snd x)).
  { intros w [Hw Hn]. pose proof (read_pages_covers fuel (hp_through_sequence p) [] 0 new_builder p eq_refl new_builder_ok w Hw) as Hr.
    destruct (read_pages _ _ _ _ _ _ w) as [[x|] u]; done. }
  intros [through b] w (Hn & es & Hc & Hl & Hb). cbn [fst snd] in *. rewrite Hl. clear through Hl.
  unfold bind at 1. unfold rebuilt at 1, lift. destruct (guard_not _ _) as [[]|] eqn:Hg; [|done]. cbn [map_err].
  apply guard_not_Ok, negb_false_iff, Z.eqb_eq in Hg. rewrite <- Hg in *. clear Hg.
  unfold bind at 1. unfold rebuilt at 1, lift. destruct (bd_active b) as [a|] eqn:Ha.
  { by destruct (require_selection a). }
  cbn [map_err].
  refine ((_ : holds (fun w => covers es (session w)) _ _ _) w Hc).
  eapply holds_bind; [apply stored_digest_covers|]. intros d.
  eapply holds_bind; [apply rebuilt_holds|]. intros sl.
  intros u ([Hcu Hd] & Hsl). unfold bind, stored, rebuilt, lift. destruct (new_selection _ _ _ _ _) as [sel|] eqn:Hsel; [|done].
  cbn [map_err]. destruct (new_conversation _ _ _ _) as [conv|] eqn:Hconv; [|done]. cbn [map_err ret pr_selection].
  assert (hs_through_sequence sel = Z.of_nat (length es) /\ hs_history_digest sel = d) as [S1 S2].
  { unfold new_selection in Hsel. destruct (_ || _) in Hsel; [done|]. destruct (map_err _ _) in Hsel; [|done].
    by injection Hsel as <-. }
  assert (cr_runs conv = sl_runs sl) as Hruns.
  { unfold new_conversation in Hconv. destruct (_ || _) in Hconv; [done|]. by injection Hconv as <-. }
  destruct Hb as [B1 B2 _ _]. rewrite Ha in B1. simpl in B1. rewrite app_nil_r in B1.
  apply (select_runs_ok es) in Hsl as [R1 R2]; [|done|done]. simpl in R2.
  split; [|by rewrite S1]. exists es. cbn [pr_selection pr_replay]. rewrite S1, S2. split_and!; try done.
  - unfold replayed_responses. rewrite Hruns. change (runs_responses (sl_runs sl) = finished_responses es). congruence.
  - by rewrite Hruns.
Qed.

(** C4. A prepared replay is the history.  When a preparation succeeds, there are
    the events of the session up to the selected sequence - at least all that the
    session held when it started, whatever other handles append meanwhile - such
    that: the recorded digest is the digest of exactly these events; the responses
    of the replay, run by run, are exactly the responses these events finished, in
    their order; every prompt is the accepted one; every exchange is valid, and
    every tool result in it was recorded for its run. *)
Theorem prepared_replay_faithful fuel provider requested_model w p w' :
  sound (session w) -> headed (session w) ->
  prepare_session_replay provenance fuel provider requested_model w = (Ok p, w') ->
  faithful p (session w') /\ size (session w) <= hs_through_sequence (pr_selection p).
Proof.
  intros Hs Hh Hp.
  pose proof (prepare_faithful fuel provider requested_model (size (session w)) w) as Hf. rewrite Hp in Hf.
  refine (Hf (conj (conj Hs (conj Hh _)) (Z.le_refl _))). apply Forall2_nil_2.
Qed.
End session.
