(* ===== verification/FaithfulExamples.v ===== *)
(** * A concrete replay

    A session that holds a finished run - a tool call, its result and an answer -
    is prepared for another run, while a second handle keeps opening it. *)
From S2P Require Import Prelude Json Errors Identifiers Provider Tools Replay RunData Run Hoare RunSafety RunTotality RunExamples Records Store History Session RunStore StoreSafety StoreCommands StoreGuarantees StoreContents Prefix StoreExamples Persist Rebuild Prepare Submit PersistStore PersistClaims Faithful.

(** * A concrete submission

    A run that is accepted, cancelled at its first checkpoint and recorded, while
    another handle keeps opening the session: the hypotheses of the theorems about
    submissions hold of it. *)
From stdpp Require Import infinite.

(** The surroundings count what they were asked. *)
Record Counts : Type := { polls : nat; ids : nat; operations : nat }.

Definition poll (c : Counts) : Counts := {| polls := S (polls c); ids := ids c; operations := operations c |}.
Definition next_id (c : Counts) : Counts := {| polls := polls c; ids := S (ids c); operations := operations c |}.
Definition next_operation (c : Counts) : Counts := {| polls := polls c; ids := ids c; operations := S (operations c) |}.

(** The token is cancelled after the admission. *)
Definition cancelling_env : Environment Counts := {|
  is_cancelled c := (Nat.ltb 0 (polls c), poll c);
  new_uuid c := (match ids c with
                 | O => "01234567-89ab-1cde-8fab-000000000201"
                 | _ => "01234567-89ab-1cde-8fab-000000000202"
                 end, next_id c);
  observer_event _ c := (Ok tt, c);
  observer_provider_opened _ _ _ c := (Ok tt, c);
  observer_tool_result _ _ _ _ c := (Ok tt, c);
  provider_open _ _ c := (None, c);
  replay_identity c := (None, c);
  install_replay _ c := (None, c);
  provider_generate _ c := (None, c);
  provider_next c := (None, c);
  tool_execute _ _ c := (None, c);
  provider_close c := c
|}.

(** Operation [bad] is lost at its commit, with its effects kept; another handle
    opens the session before every operation. *)
Definition host (bad : nat) : StoreHost Counts := {|
  others c := ([run_attempt Reconcile owner1 Committed], c);
  operation c := (Ran clock (if Nat.eqb (operations c) bad then Unknown_kept else Committed) false, next_operation c);
  read_refused c := (None, c);
  hold_refused c := (None, c);
  hold_finish c := c
|}.

Definition operation_ids : OperationIds := {| new_operation l := fresh l |}.

#[local] Existing Instances example_uuid example_json example_serde cancelling_env operation_ids.

Lemma host_laws bad : @HostLaws Counts example_uuid (host bad) operation_ids owner1 rid.
Proof.
  split.
  - vm_compute. reflexivity.
  - intros c. simpl. constructor; [|done]. split; [|done]. split; [exact clock_is_ok | done].
  - intros c. simpl. exact clock_is_ok.
  - intros l. exact (infinite_is_fresh l).
Qed.

(** The values of responses and summaries do not matter here: no run is replayed. *)
Definition example_replay : ReplaySerde := {| response_value _ := None; summary_value _ := None |}.
#[local] Existing Instances example_replay.

Definition submission : PersistentRunRequest := {| pq_operation_id := op1; pq_run_id := rid; pq_input := input |}.
Definition mode (restore : bool) : RunMode (W := Counts) := {| restore_history := restore; Submit.accepted := None |}.

Definition world0 : World Counts unit := mkWorld {| polls := 0; ids := 0; operations := 0 |} db1 None.

Definition submit_run (restore : bool) (bad : nat) (w : World Counts unit) : result PersistentRunResult Halt * World Counts unit :=
  run_owned (H7 := host bad) provenance owner1 10 example_gateway new_registry (mode restore) submission w.

Definition kind_of (r : result PersistentRunResult Halt) : nat :=
  match r with
  | Ok (Executed _ _ _) => 0
  | Ok (Duplicate _ _) => 1
  | Err (Failure f) => if is_some (fl_observed_result f) then 2 else 3
  | Err (Died _) => 4
  end.

Lemma world0_ready : sound (session world0) /\ mine owner1 rid (session world0).
Proof.
  split; [exact (proj1 db1_sound)|]. intros r Hr. change (runs db1 !! rid = Some r) in Hr.
  rewrite db1_created in Hr. discriminate Hr.
Qed.

Lemma kind_executed r : kind_of r = 0%nat -> exists a f res, r = Ok (Executed a f res).
Proof. destruct r as [[a f res|]|[f|]]; simpl; try destruct (is_some _); try done. by exists a, f, res. Qed.

Lemma kind_failed r : kind_of r = 2%nat -> exists f res, r = Err (Failure f) /\ fl_observed_result f = Some res.
Proof.
  destruct r as [[a f res|]|[f|]]; simpl; try done. destruct (fl_observed_result f) as [res|] eqn:Hf; [|done].
  by exists f, res.
Qed.

Lemma executed_run_recorded_witness :
  exists res m st, accepting (mode true) submission m /\
    run_log sid rid (session (snd (submit_run true 9 world0))) =
      [] ++ (Ok <$> payloads owner1 rid m ++ deliveries rid (log (W := World Counts unit) st) ++ [RunResultRecorded res]) /\
    length (run_log sid rid (session (snd (submit_run true 9 world0)))) = 5%nat.
Proof.
  destruct (kind_executed (fst (submit_run true 9 world0))) as (a & f & res & Hr); [vm_compute; reflexivity|].
  destruct (@executed_run_recorded _ _ _ _ _ _ _ _ _ _ _ (host 9) _ provenance owner1 rid (host_laws 9)
    10 example_gateway new_registry (mode true) submission world0 a f res (snd (submit_run true 9 world0)) eq_refl
    (proj1 world0_ready) (proj2 world0_ready)) as (m & st & Hm & _ & _ & _ & Hl).
  - rewrite <- Hr. exact (pair_eta (submit_run true 9 world0)).
  - exists res, m, st. split; [exact Hm|]. split; [|vm_compute; reflexivity].
    rewrite <- (eq_refl : run_log sid rid (session world0) = []). exact Hl.
Defined.

(** The third record is lost at its commit, but kept. *)
Lemma failed_run_recorded_witness :
  exists f res m st extra, fst (submit_run true 2 world0) = Err (Failure f) /\ accepting (mode true) submission m /\
    fl_stage f = failed_stage (log (W := World Counts unit) st) /\ leftover f (failed_record rid res (log st)) extra /\
    run_log sid rid (session (snd (submit_run true 2 world0))) =
      run_log sid rid (session world0)
        ++ (Ok <$> payloads owner1 rid m ++ deliveries rid (log st) ++ extra).
Proof.
  destruct (kind_failed (fst (submit_run true 2 world0))) as (f & res & Hr & Hf); [vm_compute; reflexivity|].
  pose proof (@failed_run_recorded _ _ _ _ _ _ _ _ _ _ _ (host 2) _ provenance owner1 rid (host_laws 2)
    10 example_gateway new_registry (mode true) submission world0 f (snd (submit_run true 2 world0)) eq_refl
    (proj1 world0_ready) (proj2 world0_ready)) as Hx.
  rewrite <- Hr, Hf in Hx.
  destruct (Hx (pair_eta (submit_run true 2 world0))) as [_ (m & st & extra & Hm & _ & Hst & He & Hl)].
  exists f, res, m, st, extra. split; [exact Hr|]. split; [exact Hm|]. split; [exact Hst|]. split; [exact He | exact Hl].
Defined.

(** The same submission again, after the first one. *)
Definition world1 : World Counts unit := mkWorld {| polls := 0; ids := 0; operations := 0 |} db2 None.

Lemma resubmission_writes_nothing_witness :
  known op1 world1 /\
  run_log sid rid (session (snd (submit_run false 9 world1))) = run_log sid rid (session world1) /\
  kind_of (fst (submit_run false 9 world1)) = 1%nat.
Proof.
  assert (known op1 world1) as Hk.
  { unfold known. apply (bool_decide_unpack _). vm_compute. reflexivity. }
  split; [exact Hk|]. split; [|vm_compute; reflexivity].
  refine (proj1 (@resubmission_writes_nothing _ _ _ _ _ _ _ _ _ _ _ (host 9) _ provenance owner1 rid (host_laws 9)
    10 example_gateway new_registry (mode false) submission world1 (fst (submit_run false 9 world1)) (snd (submit_run false 9 world1))
    eq_refl (proj1 db2_sound) _ Hk (pair_eta (submit_run false 9 world1)))).
  intros r Hr. assert (run_owner_instance_id <$> runs db2 !! rid = Some owner1) as Ho by (vm_compute; reflexivity).
  change (runs db2 !! rid = Some r) in Hr. rewrite Hr in Ho. by injection Ho.
Defined.

Definition submitted : result PersistentRunResult Halt * World Counts unit :=
  run_owned (H7 := host 9) provenance owner1 enough example_gateway new_registry (mode true) submission world0.

Lemma submission_returns_witness :
  (u64_max < Z.of_nat enough)%Z /\
  match fst submitted with Err (Died _) => False | _ => True end.
Proof.
  split; [exact enough_is_enough|]. unfold submitted. apply (submission_returns (H7 := host 9)). exact enough_is_enough.
Defined.

(** ** The recorded run *)
#[local] Open Scope Z_scope.
Definition digits (n : Z) : string :=
  String (Ascii.ascii_of_nat (Z.to_nat (48 + n / 10))) (String (Ascii.ascii_of_nat (Z.to_nat (48 + n mod 10))) EmptyString).
Definition row_id (n : Z) : string := String.append "01234567-89ab-1cde-8fab-0000000001" (digits n).
Definition event_id (n : Z) : string := String.append "01234567-89ab-1cde-8fab-0000000002" (digits n).
Definition tick : Clock := {| now_ms := Ok 1000; fresh_event_id := row_id |}.

Definition identity : ReplayIdentity := {|
  ri_provider_id := "fixture"; ri_format := "native"; ri_principal_digest := hex (digest32 "principal") |}.
Definition binding : RecordedProviderBinding := {|
  pb_run_id := rid; pb_provider_session_id := "s"; pb_requested_model := "m"; pb_identity := identity |}.

Definition answered : ModelResponse := {|
  output_provenance := NativeTerminal; response_id := "resp-2"; response_model := None;
  outcome := RCompleted; output := [answer]; text := "5"; usage := None; response_native := Null |}.
Definition called : ModelResponse := example_response [example_call "call-1"].

Definition event (n : Z) (turn session request : option string) (e : RunEvent) : RunEventEnvelope := {|
  ev_schema_version := 2; ev_sequence := n; ev_event_id := event_id n; ev_run_id := rid;
  ev_turn_id := turn; ev_session_id := session; ev_request_id := request; ev_event := e |}.

Definition from_provider (n : Z) (request : string) (r : ModelResponse) : RunEvent := EProviderEvent {|
  env_schema_version := 1; env_sequence := n; env_event_id := "e"; env_session_id := "s";
  env_request_id := Some request; env_provider := "fixture"; env_provider_sequence := None;
  env_event := PResponseFinished r |}.

Definition request1 : string := "01234567-89ab-1cde-8fab-000000000301".
Definition request2 : string := "01234567-89ab-1cde-8fab-000000000302".
Definition turn1 : string := "01234567-89ab-1cde-8fab-000000000401".
Definition turn2 : string := "01234567-89ab-1cde-8fab-000000000402".

Definition summary : RunSummary := {|
  turns_started := 2; turns_finished := 2; model_requests_attempted := 2; model_requests_admitted := 2;
  new_tool_dispatches := 1; tool_results_prepared := 1; reused_results := 0;
  last_request_id := Some request2; last_upstream_outcome := Some TerminalReceived |}.

Definition completed : RunResult := {|
  res_run_id := rid; res_session_id := Some "s"; res_outcome := Completed; res_summary := summary;
  res_last_response := Some answered; res_events_complete := true; res_sink_error := None |}.

Definition history : list AppendRunRecord :=
  [RRuntime (event 1 None None None RunStarted);
   RProviderBinding binding;
   RRuntime (event 2 (Some turn1) (Some "s") None (TurnStarted 1));
   RRuntime (event 3 (Some turn1) (Some "s") (Some request1) (from_provider 1 request1 called));
   RRuntime (event 4 (Some turn1) (Some "s") (Some request1) (EToolEvent (ToolExecutionStarted "call-1" "add_numbers")));
   RToolResult (Some request1) "call-1" "5" false;
   RRuntime (event 5 (Some turn1) (Some "s") (Some request1) (EToolEvent (ToolExecutionFinished "call-1" "add_numbers" false)));
   RRuntime (event 6 (Some turn1) (Some "s") (Some request1)
               (TurnFinished 1 (Some "resp-1") ToolsPrepared (Some TerminalReceived)));
   RRuntime (event 7 (Some turn2) (Some "s") None (TurnStarted 2));
   RRuntime (event 8 (Some turn2) (Some "s") (Some request2) (from_provider 2 request2 answered));
   RRuntime (event 9 (Some turn2) (Some "s") (Some request2)
               (TurnFinished 2 (Some "resp-2") ModelCompleted (Some TerminalReceived)));
   RRuntime (event 10 None (Some "s") (Some request2) (RunFinished Completed summary));
   RResult completed].

(** ** The session *)
Definition history_payloads : list (string * StoredEventPayload) :=
  imap (fun i p => (digits (Z.of_nat i), p)) (payloads owner1 rid (Append history)).
Definition history_receipts : list (string * CommitReceipt) :=
  [("h1", receipt op1 (Some rid) 2 3); ("h2", receipt op2 (Some rid) 4 16)].

Definition history_serde : StorageSerde := table_serde (payload_table ++ history_payloads) history_receipts.
#[local] Remove Hints serde serde_laws : typeclass_instances.
#[local] Existing Instances example_uuid example_json example_serde history_serde operation_ids.

Definition recording : list Attempt :=
  [{| at_request := Mutate op1 rid (AcceptHistory input selection); at_owner := owner1; at_clock := tick; at_fate := Committed |};
   {| at_request := Mutate op2 rid (Append history); at_owner := owner1; at_clock := tick; at_fate := Committed |}].
Definition recorded : Db unit := attempts provenance recording (snd (initialize Committed provenance blank)).

Lemma recorded_size : length (events recorded) = 16%nat.
Proof. vm_compute. reflexivity. Qed.

Lemma recorded_sound : sound recorded /\ headed recorded.
Proof.
  assert (sound (D := unit) (snd (initialize Committed provenance blank)) /\ headed (snd (initialize Committed provenance blank))) as [Hs Hh].
  { assert (snd (initialize Committed provenance blank) = created_db provenance
      {| cs_operation_id := op3; cs_title := "first"; cs_workspace := Some "/w" |} (Some "/w") "provenance" "created") as ->
      by (vm_compute; reflexivity). apply created_sound. }
  destruct (attempts_keep provenance recording _ Hs) as (_ & Hs' & Hh'). split; [exact Hs' | exact (Hh' Hh)].
Qed.

(** ** The replay *)
Definition history_values : ReplaySerde := {|
  response_value r := Some (match r with Some r => VString (response_id r) | None => Null end);
  summary_value s := Some (VNumber (PosInt (turns_finished s)))
|}.
#[local] Existing Instance history_values.

Definition ready : World Counts unit := mkWorld {| polls := 0; ids := 0; operations := 0 |} recorded None.
Definition prepared : result PreparedSessionReplay Halt * World Counts unit :=
  prepare_session_replay (H7 := host 9) provenance 3 "fixture" "m" ready.

Lemma prepared_ok : match fst prepared with
                    | Ok p => replayed_responses (pr_replay p) = [(rid, called); (rid, answered)]
                    | Err _ => False
                    end.
Proof. vm_compute. reflexivity. Qed.

Lemma prepared_replay_faithful_witness :
  exists p, fst prepared = Ok p /\ faithful provenance p (session (snd prepared)) /\
    replayed_responses (pr_replay p) = [(rid, called); (rid, answered)].
Proof.
  pose proof prepared_ok as Hp. destruct (fst prepared) as [p|] eqn:He; [|destruct Hp].
  exists p. split; [reflexivity|]. split; [|exact Hp].
  refine (proj1 (prepared_replay_faithful (H6 := host 9) provenance 3 "fixture" "m" ready p (snd prepared)
    (proj1 recorded_sound) (proj2 recorded_sound) _)).
  rewrite <- He. exact (pair_eta prepared).
Defined.
