(* ===== verification/Text.v ===== *)
(** * Text

    What several components use of [str]: UTF-8 validity and control characters.
    A string is the list of its bytes. *)
From S2P Require Import Prelude.

Notation byte b := (Ascii.ascii_of_nat b) (only parsing).

(** A continuation byte. *)
Definition continuation : Ascii.ascii -> bool := byte_in 128 191.

(** [str::from_utf8]: whether the bytes are the encoding of some characters. *)
Fixpoint from_utf8 (s : string) : bool :=
  match s with
  | EmptyString => true
  | String a s1 =>
      if byte_in 0 127 a then from_utf8 s1
      else match s1 with
           | EmptyString => false
           | String b s2 =>
               if byte_in 194 223 a then continuation b && from_utf8 s2
               else match s2 with
                    | EmptyString => false
                    | String c s3 =>
                        if byte_in 224 239 a then
                          (if byte_in 224 224 a then byte_in 160 191 b
                           else if byte_in 237 237 a then byte_in 128 159 b else continuation b)
                          && continuation c && from_utf8 s3
                        else match s3 with
                             | EmptyString => false
                             | String d s4 =>
                                 byte_in 240 244 a
                                 && (if byte_in 240 240 a then byte_in 144 191 b
                                     else if byte_in 244 244 a then byte_in 128 143 b else continuation b)
                                 && continuation c && continuation d && from_utf8 s4
                             end
                    end
           end
  end.

(** [text.chars().any(|c| c.is_control() && c != '\t')] of valid text: the control
    characters are 00-1F, 7F and C2 80 - C2 9F. *)
Fixpoint has_control (s : string) : bool :=
  match s with
  | EmptyString => false
  | String a rest =>
      (byte_in 0 31 a && negb (byte_in 9 9 a)) || byte_in 127 127 a
      || (byte_in 194 194 a && match rest with String b _ => byte_in 128 159 b | EmptyString => false end)
      || has_control rest
  end.

(** [str::trim_start] of valid text; see [trim_is_empty]. *)
Fixpoint trim_start (s : string) : string :=
  match s with
  | EmptyString => EmptyString
  | String a rest =>
      if byte_in 9 13 a || byte_in 32 32 a then trim_start rest
      else match rest with
           | String b rest2 =>
               if byte_in 194 194 a && (byte_in 133 133 b || byte_in 160 160 b) then trim_start rest2
               else match rest2 with
                    | String c rest3 =>
                        if (byte_in 225 225 a && byte_in 154 154 b && byte_in 128 128 c)
                           || (byte_in 226 226 a && byte_in 128 128 b
                               && (byte_in 128 138 c || byte_in 168 169 c || byte_in 175 175 c))
                           || (byte_in 226 226 a && byte_in 129 129 b && byte_in 159 159 c)
                           || (byte_in 227 227 a && byte_in 128 128 b && byte_in 128 128 c)
                        then trim_start rest3 else s
                    | EmptyString => s
                    end
           | EmptyString => s
           end
  end.

(** [String::pop] of a string that ends with a one-byte character. *)
Fixpoint pop (s : string) : string :=
  match s with
  | EmptyString => EmptyString
  | String _ EmptyString => EmptyString
  | String a rest => String a (pop rest)
  end.

Definition snoc (s : string) (a : Ascii.ascii) : string := String.append s (String a EmptyString).

Lemma append_snoc s a t : String.append (snoc s a) t = String.append s (String a t).
Proof. unfold snoc. induction s as [|b s IH]; [done | exact (f_equal (String b) IH)]. Qed.

Lemma pop_snoc s a : pop (snoc s a) = s.
Proof.
  induction s as [|b s IH]; [done|]. change (snoc (String b s) a) with (String b (snoc s a)).
  destruct (snoc s a) as [|c t] eqn:Hs; [by destruct s|]. simpl. simpl in IH. by rewrite IH.
Qed.

Lemma snoc_length s a : String.length (snoc s a) = S (String.length s).
Proof. unfold snoc. rewrite string_length_app. simpl. lia. Qed.

(** ** Numbers as texts of their bits *)
Fixpoint bits (p : positive) : string :=
  match p with xH => EmptyString | xO p => String "0"%char (bits p) | xI p => String "1"%char (bits p) end.
Fixpoint unbits (s : string) : positive :=
  match s with
  | EmptyString => xH
  | String c s => if Ascii.eqb c "0"%char then xO (unbits s) else xI (unbits s)
  end.
Lemma unbits_bits p : unbits (bits p) = p.
Proof. induction p as [p IH|p IH|]; simpl; by rewrite ?IH. Qed.
