(* ===== verification/Sse.v ===== *)
(** * Server-sent events (src/src/providers/openai_codex/sse.rs)

    The incremental decoder, byte by byte, and what it must compute: the frames of
    the whole stream, split into lines at LF, CR or CRLF.  However the stream is
    cut into chunks, the decoder yields those frames. *)
From S2P Require Import Prelude Errors Records Text.

Definition MAX_FRAME_BYTES : Z := 8 * 1024 * 1024.

Definition CR : Ascii.ascii := byte 13.
Definition LF : Ascii.ascii := byte 10.
Definition newline : string := String LF EmptyString.
(** ['\u{feff}']. *)
Definition BOM : string := String (byte 239) (String (byte 187) (String (byte 191) EmptyString)).

(** ** The decoder *)
Record SseDecoder : Type := mkDecoder {
  line : string;
  data : string;
  after_cr : bool;
  first_line_seen : bool;
  frame_bytes : Z;
  strict_prolog : bool;
  event_label : string;
  dispatched_label : string
}.

(** [SseDecoder::default] and [SseDecoder::strict_prolog]. *)
Definition new_decoder (strict : bool) : SseDecoder := mkDecoder "" "" false false 0 strict "" "".

Definition set_line (l : string) (d : SseDecoder) : SseDecoder :=
  mkDecoder l (data d) (after_cr d) (first_line_seen d) (frame_bytes d) (strict_prolog d) (event_label d) (dispatched_label d).
Definition set_data (x : string) (d : SseDecoder) : SseDecoder :=
  mkDecoder (line d) x (after_cr d) (first_line_seen d) (frame_bytes d) (strict_prolog d) (event_label d) (dispatched_label d).
Definition set_after_cr (b : bool) (d : SseDecoder) : SseDecoder :=
  mkDecoder (line d) (data d) b (first_line_seen d) (frame_bytes d) (strict_prolog d) (event_label d) (dispatched_label d).
Definition set_first_line_seen (d : SseDecoder) : SseDecoder :=
  mkDecoder (line d) (data d) (after_cr d) true (frame_bytes d) (strict_prolog d) (event_label d) (dispatched_label d).
Definition set_frame_bytes (n : Z) (d : SseDecoder) : SseDecoder :=
  mkDecoder (line d) (data d) (after_cr d) (first_line_seen d) n (strict_prolog d) (event_label d) (dispatched_label d).
Definition set_label (l : string) (d : SseDecoder) : SseDecoder :=
  mkDecoder (line d) (data d) (after_cr d) (first_line_seen d) (frame_bytes d) (strict_prolog d) l (dispatched_label d).
Definition dispatch_label (d : SseDecoder) : SseDecoder :=
  mkDecoder (line d) (data d) (after_cr d) (first_line_seen d) (frame_bytes d) (strict_prolog d) "" (event_label d).

Notation Sse := (SM SseDecoder GatewayError).

(** [value.strip_prefix(' ').unwrap_or(value)]. *)
Definition strip_space (value : string) : string := default value (strip_prefix " " value).

(** [dispatch]: the frames it pushes. *)
Definition dispatch : Sse (list string) :=
  fun d =>
    let '(frames, d) := if str_is_empty (data d) then ([], d) else ([pop (data d)], set_data "" d) in
    let d := if strict_prolog d then dispatch_label d else d in
    (Ok frames, set_frame_bytes 0 d).

(** The label a line of a strict prolog leaves; other lines are refused. *)
Definition prolog_label (text : string) (label : string) : result string GatewayError :=
  if has_control text then Err UnexpectedContentType
  else if negb (str_is_empty text) && negb (is_some (strip_prefix ":" text)) then
    let '(field, value) := default (text, EmptyString) (split_colon text) in
    let value := strip_space value in
    if bool_decide (field = "data") || bool_decide (field = "id") then Ok label
    else if bool_decide (field = "event") then Ok value
    else if bool_decide (field = "retry") && negb (str_is_empty value) && bytes_all is_ascii_digit value then Ok label
    else Err UnexpectedContentType
  else Ok label.

(** What a line does: a blank one dispatches, a data field adds its value. *)
Definition apply_text (text : string) : Sse (list string) :=
  if str_is_empty text then dispatch
  else
    let! x := gets data in
    do! match strip_prefix "data:" text with
        | Some value => modify (set_data (snoc (String.append x (strip_space value)) LF))
        | None => if bool_decide (text = "data") then modify (set_data (snoc x LF)) else ret tt
        end in
    ret [].

(** [finish_line]. *)
Definition finish_line : Sse (list string) :=
  let! bytes := gets line in
  do! modify (set_line "") in
  do! lift (if from_utf8 bytes then Ok tt else Err (Protocol "SSE line is not UTF-8")) in
  let! seen := gets first_line_seen in
  do! modify set_first_line_seen in
  let text := if seen then bytes else default bytes (strip_prefix BOM bytes) in
  let! strict := gets strict_prolog in
  let! label := gets event_label in
  do! (if strict then let! label := lift (prolog_label text label) in modify (set_label label) else ret tt) in
  apply_text text.

(** The body of the loop of [feed]. *)
Definition feed_byte (b : Ascii.ascii) : Sse (list string) :=
  let! cr := gets after_cr in
  do! modify (set_after_cr false) in
  if cr && Ascii.eqb b LF then ret []
  else
    do! modify (fun d => set_frame_bytes (frame_bytes d + 1) d) in
    let! n := gets frame_bytes in
    if MAX_FRAME_BYTES <? n then throw StreamTooLarge
    else if Ascii.eqb b CR then
      let! frames := finish_line in
      do! modify (set_after_cr true) in
      ret frames
    else if Ascii.eqb b LF then finish_line
    else do! modify (fun d => set_line (snoc (line d) b) d) in ret [].

(** [feed]. *)
Fixpoint feed (bytes : string) : Sse (list string) :=
  match bytes with
  | EmptyString => ret []
  | String b rest =>
      let! frames := feed_byte b in
      let! more := feed rest in
      ret (frames ++ more)
  end.

(** [finish]. *)
Definition finish : Sse (list string) :=
  let! l := gets line in
  let! frames := if str_is_empty l then ret [] else finish_line in
  let! more := dispatch in
  ret (frames ++ more).

(** A whole stream, as its chunks arrive. *)
Fixpoint feed_chunks (chunks : list string) : Sse (list string) :=
  match chunks with
  | [] => ret []
  | chunk :: chunks => let! frames := feed chunk in let! more := feed_chunks chunks in ret (frames ++ more)
  end.
Definition decode (chunks : list string) : Sse (list string) :=
  let! frames := feed_chunks chunks in
  let! more := finish in
  ret (frames ++ more).

(** ** The frames of a stream *)

(** [v] without the LF that completes a CR. *)
Definition skip_lf (v : string) : string :=
  match v with String c rest => if Ascii.eqb c LF then rest else v | EmptyString => v end.

(** The lines of a text; the last one need not be ended. *)
Fixpoint all_lines (s : string) : list string :=
  match s with
  | EmptyString => []
  | String b s' =>
      if Ascii.eqb b LF then EmptyString :: all_lines s'
      else if Ascii.eqb b CR then
        EmptyString :: match s' with
                       | String c s'' => if Ascii.eqb c LF then all_lines s'' else all_lines s'
                       | EmptyString => []
                       end
      else match all_lines s' with
           | [] => [String b EmptyString]
           | l :: ls => String b l :: ls
           end
  end.

(** The text of a line: valid, without a leading byte order mark, and of the
    allowed fields where the prolog is strict. *)
Definition line_text (strict seen : bool) (l : string) : result string GatewayError :=
  if negb (from_utf8 l) then Err (Protocol "SSE line is not UTF-8")
  else
    let text := if seen then l else default l (strip_prefix BOM l) in
    if strict then let? label := prolog_label text "" in Ok text else Ok text.

(** The value of a data field. *)
Definition data_value (text : string) : option string :=
  match strip_prefix "data:" text with
  | Some value => Some (strip_space value)
  | None => if bool_decide (text = "data") then Some EmptyString else None
  end.

(** The frame of some data fields: their values, one per line. *)
Definition frame (values : list string) : list string :=
  match values with [] => [] | _ => [String.concat newline values] end.

(** A blank line or the end of the stream ends a frame. *)
Fixpoint frames (strict seen : bool) (values ls : list string) : result (list string) GatewayError :=
  match ls with
  | [] => Ok (frame values)
  | l :: ls =>
      let? text := line_text strict seen l in
      if str_is_empty text then let? rest := frames strict true [] ls in Ok (frame values ++ rest)
      else frames strict true (match data_value text with Some v => values ++ [v] | None => values end) ls
  end.
Definition stream_frames (strict : bool) (s : string) : result (list string) GatewayError :=
  frames strict false [] (all_lines s).

(** ** The decoder computes them *)
Fixpoint no_eol (s : string) : bool :=
  match s with EmptyString => true | String b s => negb (Ascii.eqb b LF) && negb (Ascii.eqb b CR) && no_eol s end.

Lemma no_eol_snoc s b : no_eol s = true -> b <> LF -> b <> CR -> no_eol (snoc s b) = true.
Proof.
  intros Hs Hl Hc. induction s as [|a s IH].
  - change (snoc EmptyString b) with (String b EmptyString). cbn [no_eol]. by destruct (Ascii.eqb_spec b LF), (Ascii.eqb_spec b CR).
  - cbn [no_eol] in Hs. apply andb_true_iff in Hs as [Ha Hs]. change (snoc (String a s) b) with (String a (snoc s b)).
    cbn [no_eol]. rewrite Ha. by apply IH.
Qed.

Lemma all_lines_line s v : no_eol s = true -> all_lines (String.append s (String LF v)) = s :: all_lines v.
Proof.
  induction s as [|b s IH]; intros Hs; [done|]. simpl in Hs. apply andb_true_iff in Hs as [[Hl Hc]%andb_true_iff Hs].
  change (String.append (String b s) (String LF v)) with (String b (String.append s (String LF v))).
  cbn [all_lines]. apply negb_true_iff in Hl, Hc. rewrite Hl, Hc. by rewrite IH.
Qed.

Lemma all_lines_cr s v : no_eol s = true -> all_lines (String.append s (String CR v)) = s :: all_lines (skip_lf v).
Proof.
  induction s as [|b s IH]; intros Hs.
  { change (String.append EmptyString (String CR v)) with (String CR v).
    cbn [all_lines]. change (Ascii.eqb CR LF) with false. change (Ascii.eqb CR CR) with true. cbv iota. f_equal.
    destruct v as [|c v]; [done|]. cbn [skip_lf]. by destruct (Ascii.eqb c LF). }
  simpl in Hs. apply andb_true_iff in Hs as [[Hl Hc]%andb_true_iff Hs].
  change (String.append (String b s) (String CR v)) with (String b (String.append s (String CR v))).
  cbn [all_lines]. apply negb_true_iff in Hl, Hc. rewrite Hl, Hc. by rewrite IH.
Qed.

Lemma all_lines_end s : no_eol s = true -> all_lines s = if str_is_empty s then [] else [s].
Proof.
  induction s as [|b s IH]; intros Hs; [done|]. simpl in *. apply andb_true_iff in Hs as [[Hl Hc]%andb_true_iff Hs].
  apply negb_true_iff in Hl, Hc. rewrite Hl, Hc, IH by done. by destruct s.
Qed.

(** The data of a decoder that has read some values. *)
Definition joined (values : list string) : string :=
  match values with [] => EmptyString | _ => snoc (String.concat newline values) LF end.

Lemma joined_snoc values v : joined (values ++ [v]) = snoc (String.append (joined values) v) LF.
Proof.
  assert (forall x xs, String.concat newline (x :: xs ++ [v])
    = String.append (snoc (String.concat newline (x :: xs)) LF) v) as Hc.
  { intros x xs. revert x. induction xs as [|y xs IH]; intros x.
    - unfold snoc. cbn [String.concat app]. by rewrite append_assoc.
    - cbn [app]. change (String.concat newline (x :: y :: xs ++ [v]))
        with (String.append x (String.append newline (String.concat newline (y :: xs ++ [v])))).
      rewrite IH. unfold snoc. change (String.concat newline (x :: y :: xs))
        with (String.append x (String.append newline (String.concat newline (y :: xs)))).
      by rewrite !append_assoc. }
  destruct values as [|x xs]; [done|]. cbn [app joined]. by rewrite Hc.
Qed.

Lemma joined_empty values : str_is_empty (joined values) = match values with [] => true | _ => false end.
Proof. destruct values; [done|]. cbn [joined]. by destruct (String.concat _ _). Qed.

Lemma dispatch_spec values d :
  data d = joined values ->
  exists d', dispatch d = (Ok (frame values), d') /\ data d' = "" /\ line d' = line d /\ after_cr d' = after_cr d /\
    first_line_seen d' = first_line_seen d /\ strict_prolog d' = strict_prolog d /\ frame_bytes d' = 0.
Proof.
  intros Hd. unfold dispatch. rewrite Hd, joined_empty. destruct values as [|v values]; cbn [frame joined].
  - eexists. split; [reflexivity|]. by destruct (strict_prolog d) eqn:Hs; cbn; rewrite ?Hs.
  - rewrite pop_snoc. eexists. split; [reflexivity|]. by destruct (strict_prolog d) eqn:Hs; cbn; rewrite ?Hs.
Qed.

(** Labels do not decide whether a line is allowed. *)
Lemma prolog_label_any text a b :
  match prolog_label text a with
  | Ok _ => exists l, prolog_label text b = Ok l
  | Err e => prolog_label text b = Err e /\ e = UnexpectedContentType
  end.
Proof.
  unfold prolog_label. destruct (has_control text); [done|]. destruct (_ && _); [|by eexists].
  destruct (default _ _) as [field value]. destruct (_ || _); [by eexists|]. destruct (bool_decide _); [by eexists|].
  destruct (_ && _); [by eexists | done].
Qed.

(** What a line must leave in the decoder. *)
Record line_ended (d d' : SseDecoder) : Prop := {
  le_line : line d' = "";
  le_cr : after_cr d' = after_cr d;
  le_seen : first_line_seen d' = true;
  le_strict : strict_prolog d' = strict_prolog d;
  le_bytes : frame_bytes d' = frame_bytes d \/ frame_bytes d' = 0
}.

Lemma apply_text_spec text values d d2 :
  data d2 = joined values -> line_ended d d2 ->
  exists fs d' values', apply_text text d2 = (Ok fs, d') /\ data d' = joined values' /\ line_ended d d' /\
    forall strict ls,
      (if str_is_empty text then let? rest := frames strict true [] ls in Ok (frame values ++ rest)
       else frames strict true (match data_value text with Some v => values ++ [v] | None => values end) ls)
      = (let? r := frames strict true values' ls in Ok (fs ++ r)).
Proof.
  intros Hd [L1 L2 L3 L4 L5]. unfold apply_text. destruct (str_is_empty text).
  - destruct (dispatch_spec values d2 Hd) as (d3 & -> & D1 & D2 & D3 & D4 & D5 & D6).
    eexists _, _, []. split; [reflexivity|]. split; [done|]. split; [split; try congruence; by right | done].
  - unfold data_value.
    destruct (strip_prefix "data:" text) as [value|]; [|destruct (bool_decide (text = "data"))];
      eexists _, _, _; (split; [reflexivity|]); cbn;
      [split; [by rewrite Hd, <- joined_snoc|]
      |split; [by rewrite Hd; rewrite <- (append_empty (joined values)), <- joined_snoc|]
      |split; [exact Hd|]]; (split; [by split|]); intros strict ls; by destruct (frames _ _ _ ls).
Qed.

Lemma finish_line_spec d values :
  data d = joined values ->
  match finish_line d with
  | (Ok fs, d') => exists values', data d' = joined values' /\ line_ended d d' /\
      forall ls, frames (strict_prolog d) (first_line_seen d) values (line d :: ls)
               = (let? r := frames (strict_prolog d) true values' ls in Ok (fs ++ r))
  | (Err e, _) => e <> StreamTooLarge /\
      forall ls, frames (strict_prolog d) (first_line_seen d) values (line d :: ls) = Err e
  end.
Proof.
  intros Hd. unfold finish_line, bind, gets, modify, lift. cbn [frames]. unfold line_text.
  destruct (from_utf8 (line d)); cbn [negb]; [|done].
  cbn [first_line_seen set_line set_first_line_seen strict_prolog event_label].
  set (text := if first_line_seen d then line d else default (line d) (strip_prefix BOM (line d))).
  set (d1 := set_first_line_seen (set_line "" d)).
  assert (forall d2, data d2 = data d -> line_ended d d2 -> exists fs d' values', apply_text text d2 = (Ok fs, d') /\ 
    data d' = joined values' /\ line_ended d d' /\ forall strict ls,
      (if str_is_empty text then let? rest := frames strict true [] ls in Ok (frame values ++ rest)
       else frames strict true (match data_value text with Some v => values ++ [v] | None => values end) ls)
      = (let? r := frames strict true values' ls in Ok (fs ++ r))) as Htail.
  { intros d2 H2 Hl. apply apply_text_spec; [congruence | done]. }
  destruct (strict_prolog d) eqn:Hstrict.
  - pose proof (prolog_label_any text (event_label d) "") as Hlabel.
    destruct (prolog_label text (event_label d)) as [label|e]; [|by destruct Hlabel as [-> ->]].
    destruct Hlabel as [l ->].
    destruct (Htail (set_label label d1)) as (fs & d' & values' & -> & Hx & Hl & Hf); [done|by split; [..|left]|].
    exists values'. split; [done|]. split; [done|]. intros ls. apply Hf.
  - cbn [ret]. destruct (Htail d1) as (fs & d' & values' & -> & Hx & Hl & Hf); [done|by split; [..|left]|].
    exists values'. split; [done|]. split; [done|]. intros ls. apply Hf.
Qed.

(** What is still to come: the frames of [v] after what the decoder holds. *)
Definition remaining (d : SseDecoder) (values : list string) (v : string) : result (list string) GatewayError :=
  frames (strict_prolog d) (first_line_seen d) values
    (all_lines (String.append (line d) (if after_cr d then skip_lf v else v))).

Record holding (d : SseDecoder) (values : list string) : Prop := {
  ho_data : data d = joined values;
  ho_line : no_eol (line d) = true;
  ho_bytes : 0 <= frame_bytes d
}.

(** The outcome of reading [bytes]: the frames, with what is to come after them; or
    the error of the stream; or a frame that is too large. *)
Definition computes (d : SseDecoder) (values : list string) (bytes : string)
    (r : result (list string) GatewayError * SseDecoder) : Prop :=
  match r with
  | (Ok fs, d') => exists values', holding d' values' /\ frame_bytes d' <= frame_bytes d + len bytes /\
      forall v, remaining d values (String.append bytes v) = (let? rest := remaining d' values' v in Ok (fs ++ rest))
  | (Err e, _) =>
      (e = StreamTooLarge /\ MAX_FRAME_BYTES < frame_bytes d + len bytes) \/
      (e <> StreamTooLarge /\ forall v, remaining d values (String.append bytes v) = Err e)
  end.

Lemma computes_nothing d values : holding d values -> computes d values EmptyString (Ok [], d).
Proof.
  intros Hh. exists values. split; [done|]. split; [unfold len; simpl; lia|]. intros v.
  change (String.append EmptyString v) with v. by destruct (remaining d values v).
Qed.

Lemma computes_app d values a b (c k : Sse (list string)) :
  computes d values a (c d) ->
  (forall d' values', holding d' values' -> computes d' values' b (k d')) ->
  computes d values (String.append a b) ((let! fs := c in let! more := k in ret (fs ++ more)) d).
Proof.
  intros Ha Hb. unfold bind. unfold computes in Ha. pose proof (len_nonneg b) as Hlb. pose proof (len_nonneg a) as Hla.
  destruct (c d) as [[fs|e] d1].
  - destruct Ha as (values1 & Hh & Hn & Ha). specialize (Hb d1 values1 Hh). unfold computes in Hb.
    destruct (k d1) as [[more|e] d2]; cbn [ret computes].
    + destruct Hb as (values2 & Hh2 & Hn2 & Hb). exists values2. split; [done|]. split; [rewrite len_app; lia|].
      intros v. rewrite append_assoc, Ha, Hb. destruct (remaining d2 values2 v); [|done]. by rewrite app_assoc.
    + destruct Hb as [[-> Hb]|[He Hb]]; [left; split; [done|]; rewrite len_app; lia|].
      right. split; [done|]. intros v. by rewrite append_assoc, Ha, Hb.
  - destruct Ha as [[-> Ha]|[He Ha]]; [left; split; [done|]; rewrite len_app; lia|].
    right. split; [done|]. intros v. by rewrite append_assoc, Ha.
Qed.

(** The end of a line, after its terminator was counted. *)
Lemma finish_line_computes d0 d values b cr :
  holding d values -> line d = line d0 -> strict_prolog d = strict_prolog d0 -> first_line_seen d = first_line_seen d0 ->
  frame_bytes d = frame_bytes d0 + 1 -> 0 <= frame_bytes d0 ->
  (forall v, all_lines (String.append (line d0) (if after_cr d0 then skip_lf (String b v) else String b v))
             = line d0 :: all_lines (if cr : bool then skip_lf v else v)) ->
  computes d0 values (String b EmptyString)
    ((let! fs := finish_line in do! modify (set_after_cr cr) in ret fs) d).
Proof.
  intros [Hd Hl _] El Es Ef En H0 Hlines. unfold bind at 1. pose proof (finish_line_spec d values Hd) as Hspec.
  destruct (finish_line d) as [[fs|e] d'].
  - destruct Hspec as (values' & Hd' & [L1 L2 L3 L4 L5] & Hf). cbn [bind modify ret computes]. exists values'.
    split; [split; [done|simpl; by rewrite L1|simpl; lia]|]. split; [unfold len; simpl; lia|]. intros v.
    unfold remaining. change (String.append (String b EmptyString) v) with (String b v). rewrite Hlines.
    rewrite <- Es, <- Ef, <- El, Hf. simpl. rewrite L1, L3, L4. done.
  - destruct Hspec as [He Hf]. right. split; [done|]. intros v. unfold remaining.
    change (String.append (String b EmptyString) v) with (String b v). rewrite Hlines, <- Es, <- Ef, <- El. apply Hf.
Qed.

Lemma feed_byte_computes b d values : holding d values -> computes d values (String b EmptyString) (feed_byte b d).
Proof.
  intros [Hd Hl H0]. unfold feed_byte, gets, modify. unfold bind at 1 2. cbn [after_cr].
  destruct (after_cr d && Ascii.eqb b LF) eqn:Hskip.
  { apply andb_true_iff in Hskip as [Hcr ->%Ascii.eqb_eq]. exists values. split; [by split|].
    split; [unfold len; simpl; lia|]. intros v. unfold remaining. rewrite Hcr. simpl.
    change (skip_lf (String.append newline v)) with v. by destruct (frames _ _ _ _). }
  assert (forall v, (if after_cr d then skip_lf (String b v) else String b v) = String b v) as Hv.
  { intros v. destruct (after_cr d); [|done]. simpl in *. by rewrite Hskip. }
  unfold bind at 1 2. cbn [frame_bytes set_frame_bytes set_after_cr].
  destruct (Z.ltb_spec MAX_FRAME_BYTES (frame_bytes d + 1)) as [Hbig|Hsmall].
  { left. split; [done|]. exact Hbig. }
  set (d1 := set_frame_bytes (frame_bytes d + 1) (set_after_cr false d)).
  assert (holding d1 values) as Hh1 by (split; [done|done|simpl; lia]).
  destruct (Ascii.eqb_spec b CR) as [->|Hcr].
  { apply (finish_line_computes d d1 values CR true); try done. intros v. rewrite Hv. by apply all_lines_cr. }
  destruct (Ascii.eqb_spec b LF) as [->|Hlf].
  { assert (finish_line d1 = (let! fs := finish_line in do! modify (set_after_cr false) in ret fs) d1) as ->.
    { unfold bind. pose proof (finish_line_spec d1 values Hd) as Hs. destruct (finish_line d1) as [[fs|e] d'] eqn:Hf; [|done].
      destruct Hs as (_ & _ & [_ Hc _ _ _] & _). simpl in Hc. unfold modify, ret. f_equal. destruct d'; simpl in *. by subst. }
    apply (finish_line_computes d d1 values LF false); try done. intros v. rewrite Hv. by apply all_lines_line. }
  exists values. split; [split; [done|by apply no_eol_snoc|simpl; lia]|]. split; [unfold len; simpl; lia|].
  intros v. unfold remaining. change (String.append (String b EmptyString) v) with (String b v). rewrite Hv. simpl.
  rewrite append_snoc. by destruct (frames _ _ _ _).
Qed.

Lemma feed_computes bytes : forall d values, holding d values -> computes d values bytes (feed bytes d).
Proof.
  induction bytes as [|b bytes IH]; intros d values Hh; cbn [feed]; [by apply computes_nothing|].
  change (String b bytes) with (String.append (String b EmptyString) bytes).
  apply computes_app; [by apply feed_byte_computes | done].
Qed.

Lemma feed_chunks_computes chunks : forall d values,
  holding d values -> computes d values (String.concat EmptyString chunks) (feed_chunks chunks d).
Proof.
  induction chunks as [|chunk chunks IH]; intros d values Hh; cbn [feed_chunks]; [by apply computes_nothing|].
  replace (String.concat EmptyString (chunk :: chunks)) with (String.append chunk (String.concat EmptyString chunks)).
  - apply computes_app; [by apply feed_computes | done].
  - destruct chunks; [apply append_empty | done].
Qed.

Lemma finish_spec d values : holding d values -> fst (finish d) = remaining d values EmptyString.
Proof.
  intros [Hd Hl _]. unfold finish, remaining, gets. unfold bind at 1.
  replace (if after_cr d then skip_lf EmptyString else EmptyString) with EmptyString by by destruct (after_cr d).
  rewrite append_empty, all_lines_end by done. destruct (str_is_empty (line d)).
  - unfold bind. cbn [ret]. by destruct (dispatch_spec values d Hd) as (d' & -> & _).
  - unfold bind at 1. pose proof (finish_line_spec d values Hd) as Hs. destruct (finish_line d) as [[fs|e] d1].
    + destruct Hs as (values1 & Hd1 & _ & Hf). unfold bind. destruct (dispatch_spec values1 d1 Hd1) as (d2 & -> & _).
      by rewrite Hf.
    + destruct Hs as [He Hf]. by rewrite Hf.
Qed.

(** The decoder is the decoding.  However a stream is cut into chunks - inside
    a character, between CR and LF - feeding them and finishing yields exactly the
    frames of the whole stream, and fails exactly with the stream's first error; the
    only other outcome is that some frame exceeds the limit. *)
Lemma decode_frames strict chunks :
  let stream := String.concat EmptyString chunks in
  fst (decode chunks (new_decoder strict)) = stream_frames strict stream \/
  (fst (decode chunks (new_decoder strict)) = Err StreamTooLarge /\ MAX_FRAME_BYTES < len stream).
Proof.
  intros stream. assert (holding (new_decoder strict) []) as Hh by by split.
  pose proof (feed_chunks_computes chunks _ _ Hh) as Hc. fold stream in Hc.
  assert (remaining (new_decoder strict) [] stream = stream_frames strict stream) as Hr by done.
  unfold decode, bind. destruct (feed_chunks chunks _) as [[fs|e] d].
  - destruct Hc as (values & Hd & _ & Hf). left. specialize (Hf EmptyString). rewrite append_empty, Hr in Hf.
    rewrite Hf, <- (finish_spec d values Hd). by destruct (finish d) as [[more|e] d'].
  - destruct Hc as [[-> Hb]|[_ Hf]]; [right; split; [done|exact Hb]|]. left. specialize (Hf EmptyString).
    by rewrite append_empty, Hr in Hf.
Qed.


(** The stream of a keep-alive, an event and an unended last frame, cut anywhere. *)
Definition sample : string :=
  String.append BOM (String.append ": keepalive" (String CR (String LF (String.append "data: one" (String CR (String LF
    (String.append "data:two" (String CR (String LF (String CR (String LF "data: [DONE]"))))))))))).

Example sample_frames :
  stream_frames false sample = Ok [String.append "one" (String LF "two"); "[DONE]"] /\
  (fun n => fst (decode [String.substring 0 n sample; String.substring n 100 sample] (new_decoder false))) <$> seq 0 50
  = replicate 50 (stream_frames false sample).
Proof. split; vm_compute; reflexivity. Qed.
