(* ===== verification/Lifecycle.v ===== *)
(** * The life of a store (src/src/storage/lifecycle.rs)

    Operations are admitted under a guard; closing refuses new ones, waits for the
    admitted ones and releases the lease on the store's directory.  The methods are
    functions of the locked state; the store with its guards, its closers and the
    operating system's lock is a state machine of their interleavings. *)
From S2P Require Import Prelude Records.

(** ** State (the fields of [State], and the cancellation token) *)
Record State : Type := mkState {
  lease : bool;
  admitted : Z;
  closing : bool;
  unhealthy : bool;
  cancelled : bool
}.

(** [Lifecycle::new]. *)
Definition new_state : State := mkState true 0 false false false.

(** ** Methods *)

(** [Lifecycle::admit]; a [usize] has 64 bits. *)
Definition admit_operation (s : State) : SResult State :=
  if closing s then Err (storage_error StorageErrorKind.Closed)
  else
    let? n := ok_or (checked_add_u64 (admitted s) 1) (storage_error StorageErrorKind.InvalidInput) in
    Ok (mkState (lease s) n (closing s) (unhealthy s) (cancelled s)).

(** [Lifecycle::quarantine]. *)
Definition quarantine (s : State) : State := mkState (lease s) (admitted s) true true true.

(** [release_lease], given whether [unlock] succeeds. *)
Definition release_lease (unlocked : bool) (s : State) : SResult unit * State :=
  if negb (lease s) then (Ok tt, s)
  else if negb unlocked then
    (Err (storage_error StorageErrorKind.Io), mkState (lease s) (admitted s) (closing s) true (cancelled s))
  else (Ok tt, mkState false (admitted s) (closing s) (unhealthy s) (cancelled s)).

(** [Drop for OperationGuard]; also whether the waiters are notified. *)
Definition drop_guard (finished unlocked : bool) (s : State) : State * bool :=
  let s := if negb finished then mkState (lease s) (admitted s) true true true else s in
  let s := mkState (lease s) (admitted s - 1) (closing s) (unhealthy s) (cancelled s) in
  if admitted s =? 0 then
    (if closing s && negb (unhealthy s) then snd (release_lease unlocked s) else s, true)
  else (s, false).

(** One pass of the loop of [Lifecycle::close]; [None] is to wait. *)
Definition close_pass (unlocked : bool) (s : State) : option (SResult unit) * State :=
  let s := mkState (lease s) (admitted s) true (unhealthy s) true in
  if admitted s =? 0 then
    if unhealthy s then (Some (Err (storage_error StorageErrorKind.Io)), s)
    else let '(r, s) := release_lease unlocked s in (Some r, s)
  else (None, s).

(** [Drop for Lifecycle]: whether the lease file is closed, and so unlocked. *)
Definition drop_lifecycle (s : State) : bool := lease s && negb (unhealthy s).

(** ** The store *)

(** A call of [close]: with its notification registered, waiting for it, or done. *)
Inductive Closer : Type :=
| Registered (notified : bool)
| Awaiting (notified : bool)
| Returned (r : SResult unit).

(** [Notify::notify_waiters]. *)
Definition notified (c : Closer) : Closer :=
  match c with Registered _ => Registered true | Awaiting _ => Awaiting true | Returned r => Returned r end.

(** [locked] is the lock as the operating system has it; [lost] remembers that
    a guard was dropped unfinished. *)
Record Store : Type := mkStore {
  state : State;
  guards : gset nat;
  closers : gmap nat Closer;
  locked : bool;
  lost : bool;
  dropped : bool
}.

Definition new_store : Store := mkStore new_state ∅ ∅ true false false.

Inductive Event : Type :=
| Admit (g : nat)
| Retire (g : nat) (finished unlocked : bool)
| Quarantine
| Close (c : nat)
| Pass (c : nat) (unlocked : bool)
| Wake (c : nat)
| Abandon (c : nat)
| Drop.

Definition pending (c : Closer) : bool := match c with Returned _ => false | _ => true end.
Definition any_pending (cs : gmap nat Closer) : bool := existsb (fun x => pending (snd x)) (map_to_list cs).

(** One step of some task; [None] when the task cannot take it. *)
Definition fire (e : Event) (w : Store) : option Store :=
  if dropped w then None
  else match e with
  | Admit g =>
      if bool_decide (g ∈ guards w) then None
      else match admit_operation (state w) with
           | Err _ => Some w
           | Ok s => Some (mkStore s ({[g]} ∪ guards w) (closers w) (locked w) (lost w) false)
           end
  | Retire g finished unlocked =>
      if bool_decide (g ∈ guards w) then
        let '(s, notify) := drop_guard finished unlocked (state w) in
        Some (mkStore s (guards w ∖ {[g]}) (if notify then notified <$> closers w else closers w)
                (locked w && (lease s || negb (lease (state w)))) (lost w || negb finished) false)
      else None
  | Quarantine => Some (mkStore (quarantine (state w)) (guards w) (closers w) (locked w) (lost w) false)
  | Close c =>
      match closers w !! c with
      | Some _ => None
      | None => Some (mkStore (state w) (guards w) (<[c := Registered false]> (closers w)) (locked w) (lost w) false)
      end
  | Pass c unlocked =>
      match closers w !! c with
      | Some (Registered n) =>
          let '(r, s) := close_pass unlocked (state w) in
          let k := match r with Some r => Returned r | None => Awaiting n end in
          Some (mkStore s (guards w) (<[c := k]> (closers w)) (locked w && (lease s || negb (lease (state w))))
                  (lost w) false)
      | _ => None
      end
  | Wake c =>
      match closers w !! c with
      | Some (Awaiting true) =>
          Some (mkStore (state w) (guards w) (<[c := Registered false]> (closers w)) (locked w) (lost w) false)
      | _ => None
      end
  | Abandon c =>
      match closers w !! c with
      | Some k => if pending k
                  then Some (mkStore (state w) (guards w) (delete c (closers w)) (locked w) (lost w) false) else None
      | None => None
      end
  | Drop =>
      if bool_decide (guards w = ∅) && negb (any_pending (closers w))
      then Some (mkStore (state w) (guards w) (closers w) (locked w && negb (drop_lifecycle (state w))) (lost w) true)
      else None
  end.

(** Any interleaving of the tasks. *)
Inductive runs : Store -> list Event -> Store -> Prop :=
| runs_nil w : runs w [] w
| runs_cons w e w1 es w2 : fire e w = Some w1 -> runs w1 es w2 -> runs w (e :: es) w2.
Definition reachable (w : Store) : Prop := exists es, runs new_store es w.

(** ** The invariant *)
Definition waiting (k : Closer) : bool := match k with Awaiting _ => true | _ => false end.

Record inv (w : Store) : Prop := {
  inv_admitted : admitted (state w) = Z.of_nat (size (guards w));
  inv_cancelled : cancelled (state w) = closing (state w);
  inv_unhealthy : unhealthy (state w) = true -> closing (state w) = true;
  inv_lease : dropped w = false -> locked w = lease (state w);
  inv_free : dropped w = false -> locked w = false -> closing (state w) = true;
  inv_idle : locked w = false -> guards w = ∅;
  inv_lost : lost w = true -> unhealthy (state w) = true /\ locked w = true;
  inv_waiting : forall c k, closers w !! c = Some k -> waiting k = true -> closing (state w) = true;
  inv_heard : forall c, closers w !! c = Some (Awaiting false) -> guards w <> ∅;
  inv_closed : forall c, closers w !! c = Some (Returned (Ok tt)) -> locked w = false
}.

Lemma inv_new : inv new_store.
Proof. split; try done; intros c; try intros k; cbn; by rewrite lookup_empty. Qed.

Lemma size_zero (X : gset nat) : Z.of_nat (size X) =? 0 = bool_decide (X = ∅).
Proof.
  destruct (Z.eqb_spec (Z.of_nat (size X)) 0) as [H|H]; symmetry.
  - apply bool_decide_eq_true. apply leibniz_equiv, size_empty_inv. lia.
  - apply bool_decide_eq_false. intros ->. by rewrite size_empty in H.
Qed.

Lemma notified_lookup (cs : gmap nat Closer) c k :
  (notified <$> cs) !! c = Some k -> exists k0, cs !! c = Some k0 /\ k = notified k0.
Proof. rewrite lookup_fmap. destruct (cs !! c) as [k0|]; [|done]. intros [= <-]. by exists k0. Qed.

Lemma inv_admit g w w' : inv w -> fire (Admit g) w = Some w' -> inv w'.
Proof.
  intros Hi. unfold fire. destruct (dropped w) eqn:Hd; [done|].
  destruct (bool_decide_reflect (g ∈ guards w)) as [|Hg]; [done|]. unfold admit_operation.
  destruct (closing (state w)) eqn:Hc; [by intros [= <-]|].
  destruct (checked_add_u64 _ 1) as [n|] eqn:Hn; [|by intros [= <-]]. cbn [ok_or]. intros [= <-].
  apply checked_add_u64_Some in Hn as [-> _]. destruct Hi as [H1 H2 H3 H4 H5 H6 H7 H8 H9 H10].
  assert (locked w = true) as Hlk by (destruct (locked w) eqn:Hl; [done|]; rewrite (H5 Hd eq_refl) in Hc; done).
  split; cbn; rewrite ?Hc in *; try done; try congruence.
  - rewrite size_union by set_solver. rewrite size_singleton. lia.
  - intros _. by apply H4.
  - intros c _. set_solver.
Qed.

Lemma inv_quarantine w w' : inv w -> fire Quarantine w = Some w' -> inv w'.
Proof.
  intros Hi. unfold fire. destruct (dropped w) eqn:Hd; [done|]. intros [= <-]. destruct Hi as [H1 H2 H3 H4 H5 H6 H7 H8 H9 H10].
  split; cbn; try done; [by intros _; apply H4|]. intros Hl. split; [done|]. by apply H7.
Qed.

(** What the last guard does to the lease. *)
Lemma drop_guard_spec finished unlocked s :
  lease s = true ->
  let '(s', n) := drop_guard finished unlocked s in
  admitted s' = admitted s - 1 /\ n = (admitted s - 1 =? 0) /\
  closing s' = closing s || negb finished /\ cancelled s' = cancelled s || negb finished /\
  (unhealthy s = true \/ finished = false -> unhealthy s' = true /\ lease s' = true) /\
  (unhealthy s' = true -> unhealthy s = true \/ closing s' = true) /\
  (lease s' = false -> closing s' = true /\ n = true).
Proof.
  intros Hl. unfold drop_guard. destruct finished; cbn.
  - destruct (admitted s - 1 =? 0); cbn; rewrite ?orb_false_r; [|intuition congruence].
    destruct (closing s) eqn:Hc, (unhealthy s) eqn:Hu; cbn; rewrite ?Hc, ?Hu; try intuition congruence.
    unfold release_lease. cbn. rewrite Hl. cbn. destruct unlocked; cbn; intuition congruence.
  - rewrite !orb_true_r. destruct (admitted s - 1 =? 0); cbn; intuition congruence.
Qed.

Lemma inv_retire g finished unlocked w w' : inv w -> fire (Retire g finished unlocked) w = Some w' -> inv w'.
Proof.
  intros Hi. unfold fire. destruct (dropped w) eqn:Hd; [done|].
  destruct (bool_decide_reflect (g ∈ guards w)) as [Hg|]; [|done].
  assert (size (guards w) = S (size (guards w ∖ {[g]}))) as Hsize.
  { rewrite (union_difference_singleton_L g (guards w)) at 1 by done. rewrite size_union by set_solver.
    by rewrite size_singleton. }
  assert (locked w = true) as Hlk.
  { destruct (locked w) eqn:Hl; [done|]. rewrite (inv_idle w Hi Hl) in Hg. set_solver. }
  destruct Hi as [H1 H2 H3 H4 H5 H6 H7 H8 H9 H10]. specialize (H4 Hd). rewrite Hlk in H4. symmetry in H4.
  pose proof (drop_guard_spec finished unlocked (state w) H4) as Hs.
  destruct (drop_guard finished unlocked (state w)) as [s n]. destruct Hs as (A1 & A2 & A3 & A4 & A5 & A6 & A7).
  assert (n = bool_decide (guards w ∖ {[g]} = ∅)) as Hn.
  { rewrite A2, <- size_zero. f_equal. lia. }
  rewrite Hlk, H4. cbn. rewrite orb_false_r. intros [= <-]. split; cbn.
  - lia.
  - by rewrite A3, A4, H2.
  - intros Hu. destruct (A6 Hu) as [Hu'|]; [|done]. by rewrite A3, (H3 Hu').
  - done.
  - intros _ Hf. by apply A7.
  - intros Hf. destruct (A7 Hf) as [_ Hz]. rewrite Hz in Hn. symmetry in Hn. by apply bool_decide_eq_true in Hn.
  - intros [Hl|Hf]%orb_true_iff; apply A5; [left; by apply H7 | right; by destruct finished].
  - intros c k Hk Hw. rewrite A3. destruct n; [apply notified_lookup in Hk as (k0 & Hk & ->)|];
      rewrite (H8 c _ Hk); try done; by destruct k0.
  - intros c Hk. destruct n; [apply notified_lookup in Hk as ([] & Hk & Heq); discriminate Heq|].
    intros He. by rewrite bool_decide_eq_true_2 in Hn.
  - intros c Hk. assert (closers w !! c = Some (Returned (Ok tt))) as Hk'.
    { destruct n; [apply notified_lookup in Hk as ([] & Hk & Heq); try discriminate Heq; by rewrite Heq | done]. }
    rewrite (H10 c Hk') in Hlk. done.
Qed.

Lemma close_pass_spec unlocked s :
  let '(r, s') := close_pass unlocked s in
  admitted s' = admitted s /\ closing s' = true /\ cancelled s' = true /\ (unhealthy s = true -> unhealthy s' = true) /\
  (unhealthy s = true -> lease s' = lease s) /\ (lease s = false -> lease s' = false) /\
  (lease s' = false -> lease s = true -> admitted s = 0) /\
  is_some r = (admitted s =? 0) /\ (r = Some (Ok tt) -> lease s' = false).
Proof.
  unfold close_pass. cbn. destruct (admitted s =? 0) eqn:Ha; cbn; [|intuition congruence].
  apply Z.eqb_eq in Ha. destruct (unhealthy s) eqn:Hu; cbn; rewrite ?Hu; [intuition congruence|].
  unfold release_lease. cbn. destruct (lease s) eqn:Hl; cbn; rewrite ?Hl; [|intuition congruence].
  destruct unlocked; cbn; intuition congruence.
Qed.

Lemma inv_pass c unlocked w w' : inv w -> fire (Pass c unlocked) w = Some w' -> inv w'.
Proof.
  intros [H1 H2 H3 H4 H5 H6 H7 H8 H9 H10]. unfold fire. destruct (dropped w) eqn:Hd; [done|].
  destruct (closers w !! c) as [[n|n|r]|] eqn:Hc; try done.
  pose proof (close_pass_spec unlocked (state w)) as Hs.
  destruct (close_pass unlocked (state w)) as [r s]. destruct Hs as (A1 & A2 & A3 & A4 & A5 & A6 & A7 & A8 & A9).
  specialize (H4 eq_refl). rewrite <- H4 in *.
  assert (locked w && (lease s || negb (locked w)) = lease s) as ->.
  { destruct (locked w) eqn:Hl; cbn; [apply orb_false_r | symmetry; by apply A6]. }
  intros [= <-]. rewrite H1, size_zero in A8. split; cbn; rewrite ?A2; try done.
  - by rewrite A1.
  - intros Hl. destruct (locked w) eqn:Hlk; [|by apply H6]. pose proof (A7 Hl eq_refl) as Hz.
    apply leibniz_equiv, size_empty_inv. lia.
  - intros [Hu Hl]%H7. split; [by apply A4|]. by rewrite A5, Hl.
  - intros c' Hk. destruct (decide (c' = c)) as [->|Hne].
    + rewrite lookup_insert_eq in Hk. destruct r; [done|]. intros He. simpl in A8. by rewrite bool_decide_eq_true_2 in A8.
    + rewrite lookup_insert_ne in Hk by done. by apply (H9 c').
  - intros c' Hk. destruct (decide (c' = c)) as [->|Hne].
    + rewrite lookup_insert_eq in Hk. destruct r as [r|]; [|done]. injection Hk as ->. by apply A9.
    + rewrite lookup_insert_ne in Hk by done. apply A6. by apply (H10 c').
Qed.

Lemma inv_fire e w w' : inv w -> fire e w = Some w' -> inv w'.
Proof.
  intros Hi. destruct e as [g|g f u| |c|c u|c|c|].
  - by apply inv_admit.
  - by apply inv_retire.
  - by apply inv_quarantine.
  - destruct Hi as [H1 H2 H3 H4 H5 H6 H7 H8 H9 H10]. unfold fire. destruct (dropped w) eqn:Hd; [done|].
    destruct (closers w !! c) eqn:Hc; [done|]. intros [= <-]. split; cbn; eauto; intros c';
      destruct (decide (c' = c)) as [->|Hne]; rewrite ?lookup_insert_eq, ?lookup_insert_ne by done;
      try done; try (by intros k [= <-]); eauto.
  - by apply inv_pass.
  - destruct Hi as [H1 H2 H3 H4 H5 H6 H7 H8 H9 H10]. unfold fire. destruct (dropped w) eqn:Hd; [done|].
    destruct (closers w !! c) as [[n|[]|r]|] eqn:Hc; try done. intros [= <-]. split; cbn; eauto; intros c';
      destruct (decide (c' = c)) as [->|Hne]; rewrite ?lookup_insert_eq, ?lookup_insert_ne by done;
      try done; try (by intros k [= <-]); eauto.
  - destruct Hi as [H1 H2 H3 H4 H5 H6 H7 H8 H9 H10]. unfold fire. destruct (dropped w) eqn:Hd; [done|].
    destruct (closers w !! c) as [k|] eqn:Hc; [|done]. destruct (pending k); [|done]. intros [= <-].
    split; cbn; eauto; intros c'; [intros k'|..]; rewrite lookup_delete_Some; intros [_ Hk]; eauto.
  - destruct Hi as [H1 H2 H3 H4 H5 H6 H7 H8 H9 H10]. unfold fire. destruct (dropped w) eqn:Hd; [done|].
    destruct (bool_decide_reflect (guards w = ∅)) as [Hg|]; [|done]. destruct (any_pending (closers w)) eqn:Hp; [done|].
    intros [= <-]. split; cbn; eauto; try done.
    + intros [Hu Hl]%H7. split; [done|]. unfold drop_lifecycle. rewrite Hu, Hl. by rewrite andb_false_r.
    + intros c' Hk. by rewrite (H10 c' Hk).
Qed.

Lemma inv_runs w es w' : inv w -> runs w es w' -> inv w'.
Proof. intros Hi Hr. revert Hi. induction Hr; intros Hi; [done|]. eauto using inv_fire. Qed.

Lemma inv_reachable w : reachable w -> inv w.
Proof. intros [es Hr]. eapply inv_runs; [apply inv_new | done]. Qed.

(** A lock that was given up is not taken again. *)
Lemma locked_fire e w w' : fire e w = Some w' -> locked w = false -> locked w' = false.
Proof.
  unfold fire. destruct (dropped w); [done|]. intros Hf Hl.
  destruct e; repeat match type of Hf with
    | context [match ?x with _ => _ end] => destruct x; try discriminate Hf
    end; injection Hf as <-; cbn; by rewrite ?Hl.
Qed.

(** C6. The lease outlives the work.  In every reachable state in which the lock
    of the store's directory is given up, no operation is under way, none was
    abandoned unfinished, and whatever happens next none will be admitted and
    the lock is not taken back: another owner never works beside this one. *)
Theorem lease_outlives_work w es w' :
  reachable w -> locked w = false -> runs w es w' ->
  guards w = ∅ /\ lost w = false /\ guards w' = ∅ /\ locked w' = false.
Proof.
  intros Hi%inv_reachable Hl Hr.
  assert (inv w' /\ locked w' = false) as [Hi' Hl'].
  { revert Hi Hl. induction Hr as [|w e w1 es w2 Hf Hr IH]; intros Hi Hl; [done|].
    apply IH; [by eapply inv_fire | by eapply locked_fire]. }
  split_and!; [by apply inv_idle| |by apply inv_idle|done].
  destruct (lost w) eqn:Hlost; [|done]. apply (inv_lost w Hi) in Hlost as [_ Hlost]. congruence.
Qed.

(** ** Closing ends *)

(** The steps of its own a call of [close] still has to take, once nothing is
    admitted any more. *)
Definition rank (k : Closer) : nat :=
  match k with Awaiting _ => 2 | Registered _ => 1 | Returned _ => 0 end.

Definition owned (c : nat) (e : Event) : bool :=
  match e with Pass c' _ | Wake c' => bool_decide (c' = c) | _ => false end.

Definition drained (w : Store) : Prop := closing (state w) = true /\ guards w = ∅.

(** One step, of the call itself or of any other task. *)
Lemma drained_fire e w w' c k :
  inv w -> drained w -> fire e w = Some w' -> e <> Abandon c -> closers w !! c = Some k ->
  drained w' /\ exists k', closers w' !! c = Some k' /\ (rank k' + (if owned c e then 1 else 0) <= rank k)%nat.
Proof.
  intros Hi [Hc Hg] Hf Ha Hk. unfold fire in Hf. destruct (dropped w); [done|].
  destruct e as [g|g f u| |c0|c0 u|c0|c0|]; cbn [owned].
  - destruct (bool_decide _); [done|]. unfold admit_operation in Hf. rewrite Hc in Hf. injection Hf as <-.
    split; [done|]. exists k. split; [done | lia].
  - rewrite Hg, bool_decide_eq_false_2 in Hf by set_solver. done.
  - injection Hf as <-. split; [done|]. exists k. split; [done | lia].
  - destruct (closers w !! c0) eqn:Hc0; [done|]. injection Hf as <-. split; [done|]. exists k. cbn.
    rewrite lookup_insert_ne by (intros ->; congruence). split; [done | lia].
  - destruct (closers w !! c0) as [[n|n|r]|] eqn:Hc0; try done.
    pose proof (close_pass_spec u (state w)) as Hs. destruct (close_pass u (state w)) as [r s].
    destruct Hs as (_ & Hcl & _ & _ & _ & _ & _ & Hr & _). injection Hf as <-.
    rewrite (inv_admitted w Hi), size_zero, bool_decide_eq_true_2 in Hr by done. destruct r as [r|]; [|done].
    split; [done|]. cbn. destruct (decide (c0 = c)) as [->|Hne].
    + rewrite bool_decide_eq_true_2, lookup_insert_eq by done. exists (Returned r). rewrite Hc0 in Hk. injection Hk as <-. done.
    + rewrite bool_decide_eq_false_2, lookup_insert_ne by done. exists k. split; [done | lia].
  - destruct (closers w !! c0) as [[n|[]|r]|] eqn:Hc0; try done. injection Hf as <-. split; [done|]. cbn.
    destruct (decide (c0 = c)) as [->|Hne].
    + rewrite bool_decide_eq_true_2, lookup_insert_eq by done. eexists. rewrite Hc0 in Hk. injection Hk as <-.
      split; [done|]. simpl. lia.
    + rewrite bool_decide_eq_false_2, lookup_insert_ne by done. exists k. split; [done | lia].
  - destruct (closers w !! c0) as [k0|] eqn:Hc0; [|done]. destruct (pending k0); [|done]. injection Hf as <-.
    split; [done|]. cbn. exists k. rewrite lookup_delete_ne by (intros ->; done). split; [done | lia].
  - destruct (_ && _); [|done]. injection Hf as <-. split; [done|]. exists k. split; [done | lia].
Qed.

Definition own (c : nat) (es : list Event) : nat := length (List.filter (owned c) es).

(** C5. Closing ends.  A call of [close] can always take a step of its own unless
    an operation is still under way: no notification is lost, however the calls
    and the operations interleave.  And once the store is closing and the last
    operation has retired, the call takes at most two more steps of its own until
    it returns, whatever else happens meanwhile; it returns [Ok] only after the
    lock was given up. *)
Theorem close_ends w c k :
  reachable w -> dropped w = false -> closers w !! c = Some k ->
  (pending k = true -> guards w = ∅ -> exists e w', owned c e = true /\ fire e w = Some w') /\
  (closing (state w) = true -> guards w = ∅ -> forall es w', runs w es w' -> Abandon c ∉ es ->
     exists k', closers w' !! c = Some k' /\ (own c es + rank k' <= rank k)%nat /\ (rank k <= 2)%nat) /\
  (k = Returned (Ok tt) -> locked w = false).
Proof.
  intros Hi%inv_reachable Hd Hk. split_and!.
  - intros Hp Hg. destruct k as [n|[]|r]; [| | |done].
    + exists (Pass c true). unfold fire. rewrite Hd, Hk. destruct (close_pass _ _) as [r s]. eexists.
      split; [by apply bool_decide_eq_true_2 | reflexivity].
    + exists (Wake c). unfold fire. rewrite Hd, Hk. eexists. split; [by apply bool_decide_eq_true_2 | reflexivity].
    + by apply (inv_heard w Hi c) in Hk.
  - intros Hc Hg es w' Hr. assert (drained w) as Hdr by done. clear Hd Hc Hg. revert k Hi Hdr Hk.
    induction Hr as [w|w e w1 es w2 Hf Hr IH]; intros k Hi Hdr Hk Hab.
    + exists k. split; [done|]. split; [done|]. destruct k; simpl; lia.
    + apply not_elem_of_cons in Hab as [Hne Hab].
      destruct (drained_fire e w w1 c k Hi Hdr Hf (not_eq_sym Hne) Hk) as (Hdr' & k1 & Hk1 & Hle).
      destruct (IH k1 (inv_fire _ _ _ Hi Hf) Hdr' Hk1 Hab) as (k2 & Hk2 & Hle2 & _). exists k2. split; [done|].
      unfold own in *. simpl. destruct (owned c e); simpl in *; (split; [lia | destruct k; simpl; lia]).
  - intros ->. by apply (inv_closed w Hi c).
Qed.

(** ** A concrete closing *)
Fixpoint fire_all (es : list Event) (w : Store) : option Store :=
  match es with [] => Some w | e :: es => fire e w ≫= fire_all es end.

Lemma fire_all_runs es w w' : fire_all es w = Some w' -> runs w es w'.
Proof.
  revert w. induction es as [|e es IH]; intros w; simpl; [intros [= <-]; constructor|].
  destruct (fire e w) as [w1|] eqn:Hf; [|done]. intros Hr. econstructor; [exact Hf | by apply IH].
Qed.

(** A call waits for an operation, whose end gives up the lock and wakes it. *)
Definition closing_story : list Event := [Admit 0; Close 7; Pass 7 true; Admit 1; Retire 0 true true].
Definition after_story : Store := default new_store (fire_all closing_story new_store).
Definition later : list Event := [Admit 2; Wake 7; Quarantine; Pass 7 true].
Definition after_later : Store := default new_store (fire_all later after_story).

Lemma after_story_reachable : reachable after_story.
Proof. exists closing_story. apply fire_all_runs. reflexivity. Qed.
Lemma later_runs : runs after_story later after_later.
Proof. apply fire_all_runs. reflexivity. Qed.

Lemma lease_outlives_work_witness :
  locked after_story = false /\ guards after_later = ∅ /\ locked after_later = false.
Proof.
  split; [reflexivity|].
  destruct (lease_outlives_work after_story later after_later after_story_reachable eq_refl later_runs) as (_ & _ & Hg & Hl).
  split; [exact Hg | exact Hl].
Defined.

Lemma close_ends_witness :
  closers after_story !! 7%nat = Some (Awaiting true) /\
  exists k', closers after_later !! 7%nat = Some k' /\ (own 7 later + rank k' <= 2)%nat.
Proof.
  split; [reflexivity|].
  destruct (close_ends after_story 7 (Awaiting true) after_story_reachable eq_refl eq_refl) as (_ & Hc & _).
  destruct (Hc eq_refl eq_refl later after_later later_runs) as (k' & Hk & Hle & _).
  - unfold later. rewrite !not_elem_of_cons. repeat split; try discriminate. apply not_elem_of_nil.
  - exists k'. split; [exact Hk | exact Hle].
Defined.
