(* ===== verification/Service.v ===== *)
(** * The host of runs (src/src/service/mod.rs, tickets.rs, types.rs)

    Submissions are registered behind a gate and worked on by tracked tasks; a
    ticket tells their acceptance and completion; shutdown closes the gate, waits
    for the tasks and closes the store.  The methods are functions; the host with
    its workers and its shutdown coordinator is a state machine of their
    interleavings.  A worker finishes in one step: what it does after it released
    the gate touches only its own ticket and guard, and its task is tracked until
    later. *)
From S2P Require Import Prelude Json Errors Identifiers Provider Tools Replay RunData Run Records Store History Session RunStore StoreGuarantees Persist.

(** ** Types (types.rs) *)
Inductive RunHostError : Type := RuntimeUnavailable | HostClosed | ActiveRun.

Definition host_error_code (e : RunHostError) : string :=
  match e with
  | RuntimeUnavailable => "host.runtime_unavailable"
  | HostClosed => "host.closed"
  | ActiveRun => "host.active_run"
  end.

Inductive CancelDisposition : Type := Requested | NotTracked | CancelClosed.

Inductive RunCompletion : Type :=
| Execution (r : result PersistentRunResult PersistentRunFailure)
| SessionOpenFailed (e : StorageError)
| WorkerLost.

Inductive ShutdownOutcome : Type :=
| Closed
| IncompleteShutdown (worker_lost : bool) (storage_error : option StorageError).

(** ** Tickets (tickets.rs) *)
Record TicketState : Type := {
  tk_acceptance : option CommitResult;
  tk_completion : option RunCompletion
}.
Definition new_ticket : TicketState := {| tk_acceptance := None; tk_completion := None |}.

(** What [accepted] answers, [None] is to wait. *)
Definition ticket_accepted (t : TicketState) : option (result CommitResult RunCompletion) :=
  match tk_acceptance t with
  | Some acceptance => Some (Ok acceptance)
  | None => Err <$> tk_completion t
  end.

(** [publish_acceptance] and [publish_completion]. *)
Definition publish_acceptance (commit : CommitResult) (t : TicketState) : TicketState :=
  if is_none (tk_acceptance t) && is_none (tk_completion t)
  then {| tk_acceptance := Some commit; tk_completion := tk_completion t |} else t.
Definition publish_completion (c : RunCompletion) (t : TicketState) : TicketState :=
  if is_none (tk_completion t) then {| tk_acceptance := tk_acceptance t; tk_completion := Some c |} else t.

(** ** The host (mod.rs) *)
Record Entry : Type := {
  en_session : string;
  en_operation : string;
  en_run : string;
  en_cancelled : bool
}.

Record Gate : Type := mkGate {
  g_closing : bool;
  g_worker_lost : bool;
  g_entries : gmap string Entry
}.

(** [Gate::has_other_operation]. *)
Definition has_other_operation (session operation : string) (g : Gate) : bool :=
  existsb (fun x => bool_decide (en_session (snd x) = session) && negb (bool_decide (en_operation (snd x) = operation)))
    (map_to_list (g_entries g)).

(** A tracked task, and the coordinator of the shutdown. *)
Inductive Worker : Type := Live | Finished.
Inductive Coordinator : Type := NotStarted | Draining | ClosingStore | Ended.

(** [HostInner] with the tasks and tickets it gave out; [store_closed] remembers
    that the store reported a clean close. *)
Record Host : Type := mkHost {
  gate : Gate;
  tracked : gmap string Worker;
  tracker_closed : bool;
  cancel : bool;
  shutdown : option ShutdownOutcome;
  coordinator : Coordinator;
  tickets : gmap string TicketState;
  store_closed : bool
}.

Definition new_host : Host :=
  mkHost (mkGate false false ∅) ∅ false false None NotStarted ∅ false.

Definition set_gate (g : Gate) (h : Host) : Host :=
  mkHost g (tracked h) (tracker_closed h) (cancel h) (shutdown h) (coordinator h) (tickets h) (store_closed h).
Definition set_coordinator (c : Coordinator) (h : Host) : Host :=
  mkHost (gate h) (tracked h) (tracker_closed h) (cancel h) (shutdown h) c (tickets h) (store_closed h).
Definition on_ticket (d : string) (f : TicketState -> TicketState) (h : Host) : Host :=
  mkHost (gate h) (tracked h) (tracker_closed h) (cancel h) (shutdown h) (coordinator h) (alter f d (tickets h)) (store_closed h).

(** [HostInner::register]: the gate, the entry, the tracked task and its ticket. *)
Definition register (d session operation run : string) (exclusive : bool) (h : Host) : result unit RunHostError * Host :=
  let g := gate h in
  if g_closing g then (Err HostClosed, h)
  else if exclusive && has_other_operation session operation g then (Err ActiveRun, h)
  else
    let entry := {| en_session := session; en_operation := operation; en_run := run; en_cancelled := false |} in
    (Ok tt, mkHost (mkGate (g_closing g) (g_worker_lost g) (<[d := entry]> (g_entries g)))
              (<[d := Live]> (tracked h)) (tracker_closed h) (cancel h) (shutdown h) (coordinator h)
              (<[d := new_ticket]> (tickets h)) (store_closed h)).

(** [RunClient::has_other_active_operation], of a host that is there. *)
Definition has_other_active_operation (session operation : string) (h : Host) : bool :=
  negb (g_closing (gate h)) && has_other_operation session operation (gate h).

(** [RunClient::cancel], of a host that is there. *)
Definition cancel_run (session run : string) (h : Host) : CancelDisposition * Host :=
  let g := gate h in
  if g_closing g then (CancelClosed, h)
  else
    let asked e := bool_decide (en_session e = session) && bool_decide (en_run e = run) in
    (if existsb (fun x => asked (snd x)) (map_to_list (g_entries g)) then Requested else NotTracked,
     set_gate (mkGate (g_closing g) (g_worker_lost g)
       ((fun e => if asked e then {| en_session := en_session e; en_operation := en_operation e; en_run := en_run e;
                                     en_cancelled := true |} else e) <$> g_entries g)) h).

(** [close_gate]. *)
Definition close_gate (h : Host) : bool * Host :=
  let g := gate h in
  if g_closing g then (false, h)
  else (true, mkHost (mkGate true (g_worker_lost g) (g_entries g)) (tracked h) true true (shutdown h) (coordinator h)
                (tickets h) (store_closed h)).

(** [spawn_shutdown] and [begin_shutdown]. *)
Definition spawn_shutdown (h : Host) : Host := set_coordinator Draining h.
Definition begin_shutdown (h : Host) : Host :=
  let '(start, h) := close_gate h in if start then spawn_shutdown h else h.

(** The entry removed, the ticket completed, the guard finished. *)
Definition retire (d : string) (c : RunCompletion) (h : Host) : Host :=
  let g := gate h in
  mkHost (mkGate (g_closing g) (g_worker_lost g) (delete d (g_entries g))) (<[d := Finished]> (tracked h))
    (tracker_closed h) (cancel h) (shutdown h) (coordinator h)
    (alter (publish_completion c) d (tickets h)) (store_closed h).

Definition lose_worker (h : Host) : Host :=
  let g := gate h in set_gate (mkGate (g_closing g) true (g_entries g)) h.

(** [WorkerGuard::finish]; a guard dropped unfinished finishes with [WorkerLost]. *)
Definition worker_finish (d : string) (c : RunCompletion) (h : Host) : Host :=
  let '(start, h) := match c with WorkerLost => close_gate (lose_worker h) | _ => (false, h) end in
  let h := retire d c h in
  if start then spawn_shutdown h else h.

(** [ShutdownGuard::finish]. *)
Definition shutdown_finish (o : ShutdownOutcome) (h : Host) : Host :=
  mkHost (gate h) (tracked h) (tracker_closed h) (cancel h)
    (match shutdown h with None => Some o | Some old => Some old end) Ended (tickets h) (store_closed h).

(** The end of the coordinator, when the store has closed. *)
Definition shutdown_outcome (storage_error : option StorageError) (h : Host) : ShutdownOutcome :=
  if g_worker_lost (gate h) || is_some storage_error
  then IncompleteShutdown (g_worker_lost (gate h)) storage_error else Closed.
Definition set_store_closed (b : bool) (h : Host) : Host :=
  mkHost (gate h) (tracked h) (tracker_closed h) (cancel h) (shutdown h) (coordinator h) (tickets h) b.

(** ** Interleavings *)
Inductive Event : Type :=
| Register (d session operation run : string) (exclusive : bool)
| Cancel (session run : string)
| Accept (d : string) (commit : CommitResult)
| Finish (d : string) (c : RunCompletion)
| Untrack (d : string)
| Shutdown
| Drained
| StoreDone (e : option StorageError)
| CoordinatorLost.

Definition is_live (w : option Worker) : bool := match w with Some Live => true | _ => false end.

Definition fire (e : Event) (h : Host) : option Host :=
  match e with
  | Register d session operation run exclusive =>
      if is_some (tickets h !! d) then None else Some (snd (register d session operation run exclusive h))
  | Cancel session run => Some (snd (cancel_run session run h))
  | Accept d commit => if is_live (tracked h !! d) then Some (on_ticket d (publish_acceptance commit) h) else None
  | Finish d c => if is_live (tracked h !! d) then Some (worker_finish d c h) else None
  | Untrack d =>
      match tracked h !! d with
      | Some Finished => Some (mkHost (gate h) (delete d (tracked h)) (tracker_closed h) (cancel h) (shutdown h)
                                 (coordinator h) (tickets h) (store_closed h))
      | _ => None
      end
  | Shutdown => Some (begin_shutdown h)
  | Drained =>
      match coordinator h with
      | Draining => if tracker_closed h && bool_decide (tracked h = ∅) then Some (set_coordinator ClosingStore h) else None
      | _ => None
      end
  | StoreDone e =>
      match coordinator h with
      | ClosingStore => let h := set_store_closed (is_none e) h in Some (shutdown_finish (shutdown_outcome e h) h)
      | _ => None
      end
  | CoordinatorLost =>
      match coordinator h with
      | Draining | ClosingStore =>
          Some (shutdown_finish (IncompleteShutdown true None) (lose_worker h))
      | _ => None
      end
  end.

Inductive runs : Host -> list Event -> Host -> Prop :=
| runs_nil h : runs h [] h
| runs_cons h e h1 es h2 : fire e h = Some h1 -> runs h1 es h2 -> runs h (e :: es) h2.
Definition reachable (h : Host) : Prop := exists es, runs new_host es h.

(** ** The invariant *)
Record host_inv (h : Host) : Prop := {
  iv_tracker : tracker_closed h = g_closing (gate h);
  iv_started : coordinator h = NotStarted <-> g_closing (gate h) = false;
  iv_entries : forall d, is_Some (g_entries (gate h) !! d) -> tracked h !! d = Some Live;
  iv_tickets : forall d, is_Some (tracked h !! d) -> is_Some (tickets h !! d);
  iv_live : forall d t, tickets h !! d = Some t -> (tk_completion t = None <-> tracked h !! d = Some Live);
  iv_lost : forall d t, tickets h !! d = Some t -> tk_completion t = Some WorkerLost -> g_worker_lost (gate h) = true;
  iv_drained : coordinator h = ClosingStore -> tracked h = ∅;
  iv_open : coordinator h <> Ended -> shutdown h = None;
  iv_closed : shutdown h = Some Closed ->
    coordinator h = Ended /\ tracked h = ∅ /\ g_worker_lost (gate h) = false /\ store_closed h = true
}.

Lemma host_inv_new : host_inv new_host.
Proof.
  split; cbn; try done; intros d; rewrite ?lookup_empty; try (by intros []); intros t; by rewrite lookup_empty.
Qed.

(** The host with its gate closed and its coordinator started. *)
Lemma host_inv_begin_shutdown h : host_inv h -> host_inv (begin_shutdown h).
Proof.
  intros Hi. unfold begin_shutdown, close_gate. destruct (g_closing (gate h)) eqn:Hc; [done|]. destruct Hi as [H1 H2 H3 H4 H5 H6 H7 H8 H9].
  assert (coordinator h = NotStarted) as Hn by by apply H2.
  split; cbn; try done; eauto.
  - intros _. apply H8. by rewrite Hn.
  - intros Hs. rewrite H8 in Hs; [done|]. by rewrite Hn.
Qed.

Lemma host_inv_register h d session operation run exclusive :
  host_inv h -> tickets h !! d = None -> host_inv (snd (register d session operation run exclusive h)).
Proof.
  intros Hi Hd. unfold register. destruct (g_closing (gate h)) eqn:Hc; [done|]. destruct (_ && _); [done|].
  destruct Hi as [H1 H2 H3 H4 H5 H6 H7 H8 H9]. assert (coordinator h = NotStarted) as Hn by by apply H2.
  split; cbn; try done; try congruence.
  - intros d'. destruct (decide (d' = d)) as [->|]; [by rewrite !lookup_insert_eq|]. rewrite !lookup_insert_ne by done. apply H3.
  - intros d'. destruct (decide (d' = d)) as [->|]; [by rewrite !lookup_insert_eq|]. rewrite !lookup_insert_ne by done. apply H4.
  - intros d' t. destruct (decide (d' = d)) as [->|]; [rewrite !lookup_insert_eq; by intros [= <-]|].
    rewrite !lookup_insert_ne by done. apply H5.
  - intros d' t. destruct (decide (d' = d)) as [->|]; [rewrite !lookup_insert_eq; by intros [= <-]|].
    rewrite !lookup_insert_ne by done. apply H6.
  - intros Hs. apply H9 in Hs as (He & _). congruence.
Qed.

Lemma host_inv_cancel h session run : host_inv h -> host_inv (snd (cancel_run session run h)).
Proof.
  intros Hi. unfold cancel_run. destruct (g_closing (gate h)) eqn:Hc; [done|]. destruct Hi as [H1 H2 H3 H4 H5 H6 H7 H8 H9].
  split; cbn; rewrite ?Hc in *; try done. intros d. rewrite lookup_fmap. intros Hs. apply H3. by destruct (_ !! d); [|destruct Hs].
Qed.

(** A change of one live worker's ticket. *)
Lemma host_inv_accept h d commit :
  host_inv h -> tracked h !! d = Some Live -> host_inv (on_ticket d (publish_acceptance commit) h).
Proof.
  intros [H1 H2 H3 H4 H5 H6 H7 H8 H9] Hd.
  assert (forall t, tk_completion (publish_acceptance commit t) = tk_completion t) as Hp.
  { intros t. unfold publish_acceptance. by destruct (_ && _). }
  split; cbn; try done.
  - intros d' Hs. apply H4 in Hs. destruct (decide (d' = d)) as [->|].
    + rewrite lookup_alter_eq. by apply fmap_is_Some.
    + by rewrite lookup_alter_ne.
  - intros d' t. destruct (decide (d' = d)) as [->|].
    + rewrite lookup_alter_eq. destruct (tickets h !! d) as [t0|] eqn:Ht; [|done]. intros [= <-]. rewrite Hp. exact (H5 d t0 Ht).
    + rewrite lookup_alter_ne by done. apply H5.
  - intros d' t. destruct (decide (d' = d)) as [->|].
    + rewrite lookup_alter_eq. destruct (tickets h !! d) as [t0|] eqn:Ht; [|done]. intros [= <-]. rewrite Hp. exact (H6 d t0 Ht).
    + rewrite lookup_alter_ne by done. apply H6.
Qed.

Lemma host_inv_lose h : host_inv h -> shutdown h <> Some Closed -> host_inv (lose_worker h).
Proof. intros [H1 H2 H3 H4 H5 H6 H7 H8 H9] Hn. split; cbn; try done. Qed.

(** A worker finishes: with its entry gone and its ticket completed. *)
Lemma host_inv_retire h d c :
  host_inv h -> tracked h !! d = Some Live -> (c = WorkerLost -> g_worker_lost (gate h) = true) -> host_inv (retire d c h).
Proof.
  intros [H1 H2 H3 H4 H5 H6 H7 H8 H9] Hd Hlost. split; cbn; try done.
  - intros d'. destruct (decide (d' = d)) as [->|].
    + rewrite lookup_delete_eq. by intros [].
    + rewrite lookup_delete_ne, lookup_insert_ne by done. apply H3.
  - intros d' Hs. assert (is_Some (tickets h !! d')) as Ht.
    { destruct (decide (d' = d)) as [->|]; apply H4; [by rewrite Hd|]. by rewrite lookup_insert_ne in Hs. }
    destruct (decide (d' = d)) as [->|]; [rewrite lookup_alter_eq; by apply fmap_is_Some | by rewrite lookup_alter_ne].
  - intros d' t. destruct (decide (d' = d)) as [->|].
    + rewrite lookup_alter_eq, lookup_insert_eq. destruct (tickets h !! d) as [t0|] eqn:Ht; [|done]. intros [= <-].
      unfold publish_completion. rewrite (proj2 (H5 d t0 Ht)) by done. done.
    + rewrite lookup_alter_ne, lookup_insert_ne by done. apply H5.
  - intros d' t. destruct (decide (d' = d)) as [->|].
    + rewrite lookup_alter_eq. destruct (tickets h !! d) as [t0|] eqn:Ht; [|done]. intros [= <-].
      unfold publish_completion. rewrite (proj2 (H5 d t0 Ht)) by done. cbn. intros [= ->]. by apply Hlost.
    + rewrite lookup_alter_ne by done. apply H6.
  - intros Hc. rewrite (H7 Hc), lookup_empty in Hd. done.
  - intros Hs. apply H9 in Hs as (_ & Ht & _). rewrite Ht, lookup_empty in Hd. done.
Qed.

Lemma worker_finish_lost d h : worker_finish d WorkerLost h = retire d WorkerLost (begin_shutdown (lose_worker h)).
Proof. unfold worker_finish, begin_shutdown, close_gate. by destruct (g_closing _). Qed.

Lemma begin_shutdown_same h :
  tracked (begin_shutdown h) = tracked h /\ tickets (begin_shutdown h) = tickets h /\
  shutdown (begin_shutdown h) = shutdown h /\ g_worker_lost (gate (begin_shutdown h)) = g_worker_lost (gate h).
Proof. unfold begin_shutdown, close_gate. by destruct (g_closing _). Qed.

Lemma host_inv_finish h d c : host_inv h -> tracked h !! d = Some Live -> host_inv (worker_finish d c h).
Proof.
  intros Hi Hd. destruct c as [r|e|]; [by apply host_inv_retire..|]. rewrite worker_finish_lost.
  destruct (begin_shutdown_same (lose_worker h)) as (Ht & _ & _ & Hl). apply host_inv_retire.
  - apply host_inv_begin_shutdown, host_inv_lose; [done|]. intros (_ & Hn & _)%(iv_closed h Hi). by rewrite Hn, lookup_empty in Hd.
  - by rewrite Ht.
  - by rewrite Hl.
Qed.

Lemma host_inv_fire e h h' : host_inv h -> fire e h = Some h' -> host_inv h'.
Proof.
  intros Hi. destruct e as [d s o r x|s r|d c|d c|d| | |e|]; cbn [fire].
  - destruct (tickets h !! d) eqn:Hd; [done|]. intros [= <-]. by apply host_inv_register.
  - intros [= <-]. by apply host_inv_cancel.
  - destruct (tracked h !! d) as [[]|] eqn:Hd; try done. intros [= <-]. by apply host_inv_accept.
  - destruct (tracked h !! d) as [[]|] eqn:Hd; try done. intros [= <-]. by apply host_inv_finish.
  - destruct (tracked h !! d) as [[]|] eqn:Hd; try done. intros [= <-]. destruct Hi as [H1 H2 H3 H4 H5 H6 H7 H8 H9].
    assert (forall d', tracked h !! d' = Some Live <-> delete d (tracked h) !! d' = Some Live) as Hlive.
    { intros d'. rewrite lookup_delete_Some. split; [|by intros []]. intros Hl. split; [|done]. intros ->. congruence. }
    split; cbn; try done.
    + intros d' Hs. by apply Hlive, H3.
    + intros d' [w Hw]. apply lookup_delete_Some in Hw as [_ Hw]. by apply H4.
    + intros d' t Ht. rewrite <- Hlive. by apply H5.
    + intros Hc. by rewrite (H7 Hc), delete_empty.
    + intros Hs. destruct (H9 Hs) as (He & Ht & Hr). by rewrite Ht, delete_empty.
  - intros [= <-]. by apply host_inv_begin_shutdown.
  - destruct (coordinator h) eqn:Hc; try done. destruct (tracker_closed h) eqn:Ht; [|done].
    destruct (bool_decide_reflect (tracked h = ∅)) as [He|]; [|done]. intros [= <-].
    destruct Hi as [H1 H2 H3 H4 H5 H6 H7 H8 H9]. split; cbn; try done.
    + split; [done|]. congruence.
    + intros _. apply H8. by rewrite Hc.
    + intros Hs. by apply H9 in Hs as (He' & _); rewrite Hc in He'.
  - destruct (coordinator h) eqn:Hc; try done. intros [= <-]. destruct Hi as [H1 H2 H3 H4 H5 H6 H7 H8 H9].
    assert (g_closing (gate h) = true) as Hcl by (apply not_false_iff_true; intros Hg%H2; congruence).
    assert (shutdown h = None) as Hn by (apply H8; by rewrite Hc).
    split; cbn; rewrite ?Hn; try done; [by split; [|congruence]|].
    unfold shutdown_outcome. cbn. destruct (g_worker_lost (gate h)) eqn:Hl, e; try done. intros _. by split_and!; [|apply H7|..].
  - assert (coordinator h = Draining \/ coordinator h = ClosingStore ->
      host_inv (shutdown_finish (IncompleteShutdown true None) (lose_worker h))) as Hx.
    { intros Hc. destruct Hi as [H1 H2 H3 H4 H5 H6 H7 H8 H9].
      assert (shutdown h = None) as Hn by (apply H8; destruct Hc; congruence).
      split; cbn; rewrite ?Hn; try done. split; [done|]. intros Hg%H2. destruct Hc; congruence. }
    destruct (coordinator h) eqn:Hc; try done; intros [= <-]; apply Hx; auto.
Qed.

Lemma host_inv_runs h es h' : host_inv h -> runs h es h' -> host_inv h'.
Proof. intros Hi Hr. revert Hi. induction Hr; intros Hi; [done|]. eauto using host_inv_fire. Qed.

Lemma host_inv_reachable h : reachable h -> host_inv h.
Proof. intros [es Hr]. eapply host_inv_runs; [apply host_inv_new | done]. Qed.

(** Nothing changes a host that has closed. *)
Lemma closed_fire e h h' : host_inv h -> shutdown h = Some Closed -> fire e h = Some h' -> h' = h.
Proof.
  intros Hi Hs Hf. destruct (iv_closed h Hi Hs) as (Hc & Ht & _ & _).
  assert (g_closing (gate h) = true) as Hcl.
  { apply not_false_iff_true. intros Hg%(iv_started h Hi). congruence. }
  destruct e; cbn [fire] in Hf; rewrite ?Ht, ?lookup_empty, ?Hc in Hf; try discriminate Hf.
  - destruct (is_some _); [done|]. unfold register in Hf. rewrite Hcl in Hf. by injection Hf.
  - unfold cancel_run in Hf. rewrite Hcl in Hf. by injection Hf.
  - unfold begin_shutdown, close_gate in Hf. rewrite Hcl in Hf. by injection Hf.
Qed.

(** C12. A clean shutdown is true.  When the host has reported [Closed] - whatever
    submissions, cancellations, lost workers and shutdowns raced - its store closed
    without an error, every submission that was given a ticket has a completion
    and none of them was lost, and nothing that happens later changes anything. *)
Theorem clean_shutdown h :
  reachable h -> shutdown h = Some Closed ->
  store_closed h = true /\ g_closing (gate h) = true /\ tracked h = ∅ /\
  (forall d t, tickets h !! d = Some t -> exists c, tk_completion t = Some c /\ c <> WorkerLost) /\
  (forall es h', runs h es h' -> h' = h).
Proof.
  intros Hi%host_inv_reachable Hs. destruct (iv_closed h Hi Hs) as (Hc & Ht & Hl & Hst).
  split_and!; try done.
  - apply not_false_iff_true. intros Hg%(iv_started h Hi). congruence.
  - intros d t Hd. destruct (tk_completion t) as [c|] eqn:Hcomp.
    + exists c. split; [done|]. intros ->. rewrite (iv_lost h Hi d t Hd Hcomp) in Hl. done.
    + apply (iv_live h Hi d t Hd) in Hcomp. by rewrite Ht, lookup_empty in Hcomp.
  - intros es h' Hr. revert Hi Hs. clear Hc Ht Hl Hst. induction Hr as [|h e h1 es h2 Hf Hr IH]; intros Hi Hs; [done|].
    pose proof (closed_fire e h h1 Hi Hs Hf) as ->. by apply IH.
Qed.

(** ** Tickets settle once *)

(** What may happen to a ticket: an acceptance while there is none, a completion,
    and nothing after it. *)
Definition settles (t t' : TicketState) : Prop :=
  (forall a, tk_acceptance t = Some a -> tk_acceptance t' = Some a) /\
  (forall c, tk_completion t = Some c -> t' = t).
#[global] Instance settles_preorder : PreOrder settles.
Proof.
  split; [by intros t|]. intros t u v [A1 C1] [A2 C2]. split; [eauto|].
  intros c Hc. pose proof (C1 c Hc) as ->. by apply (C2 c).
Qed.

Lemma settles_acceptance commit t : settles t (publish_acceptance commit t).
Proof. unfold publish_acceptance. split; intros x Hx; rewrite Hx; [done|]. by destruct (tk_acceptance t). Qed.
Lemma settles_completion c t : settles t (publish_completion c t).
Proof. unfold publish_completion. split; intros x Hx; [by destruct (tk_completion t) | by rewrite Hx]. Qed.

Lemma alter_settles f d (ts : gmap string TicketState) k t :
  (forall t, settles t (f t)) -> ts !! k = Some t -> exists t', alter f d ts !! k = Some t' /\ settles t t'.
Proof.
  intros Hf Ht. destruct (decide (d = k)) as [->|Hne].
  - rewrite lookup_alter_eq, Ht. exists (f t). split; [done | apply Hf].
  - rewrite lookup_alter_ne by done. by exists t.
Qed.

Lemma fire_settles e h h' d t :
  fire e h = Some h' -> tickets h !! d = Some t -> exists t', tickets h' !! d = Some t' /\ settles t t'.
Proof.
  intros Hf Ht. destruct e as [d' s o r x|s r|d' c|d' c|d'| | |e|]; cbn [fire] in Hf.
  - destruct (tickets h !! d') eqn:Hd; [done|]. injection Hf as <-. exists t. split; [|done]. unfold register.
    destruct (g_closing _); [done|]. destruct (_ && _); [done|]. cbn. rewrite lookup_insert_ne; [done|]. congruence.
  - injection Hf as <-. exists t. split; [|done]. unfold cancel_run. by destruct (g_closing _).
  - destruct (is_live _); [|done]. injection Hf as <-. cbn. by apply alter_settles, Ht; apply settles_acceptance.
  - destruct (is_live _); [|done]. injection Hf as <-.
    assert (tickets (worker_finish d' c h) = alter (publish_completion c) d' (tickets h)) as ->.
    { destruct c as [r|e|]; [done..|]. rewrite worker_finish_lost. cbn.
      by destruct (begin_shutdown_same (lose_worker h)) as (_ & -> & _). }
    by apply alter_settles, Ht; apply settles_completion.
  - destruct (tracked h !! d') as [[]|]; try done. injection Hf as <-. by exists t.
  - injection Hf as <-. destruct (begin_shutdown_same h) as (_ & -> & _). by exists t.
  - destruct (coordinator h); try done. destruct (_ && _); [|done]. injection Hf as <-. by exists t.
  - destruct (coordinator h); try done. injection Hf as <-. by exists t.
  - destruct (coordinator h); try done; injection Hf as <-; by exists t.
Qed.

(** A ticket settles once.  Whatever happens to the host, an acceptance a
    ticket has told stays what it is, and a ticket with a completion never changes
    again: it is not accepted afterwards, and keeps its completion. *)
Lemma ticket_settles h es h' d t :
  runs h es h' -> tickets h !! d = Some t -> exists t', tickets h' !! d = Some t' /\ settles t t'.
Proof.
  intros Hr. revert t. induction Hr as [|h e h1 es h2 Hf Hr IH]; intros t Ht; [by exists t|].
  destruct (fire_settles _ _ _ _ _ Hf Ht) as (t1 & Ht1 & Hs1). destruct (IH t1 Ht1) as (t2 & Ht2 & Hs2).
  exists t2. split; [done|]. by etrans.
Qed.

(** ** A concrete host *)
Fixpoint fire_all (es : list Event) (h : Host) : option Host :=
  match es with [] => Some h | e :: es => fire e h ≫= fire_all es end.

Lemma host_fire_all_runs es h h' : fire_all es h = Some h' -> runs h es h'.
Proof.
  revert h. induction es as [|e es IH]; intros h; simpl; [intros [= <-]; constructor|].
  destruct (fire e h) as [h1|] eqn:Hf; [|done]. intros Hr. econstructor; [exact Hf | by apply IH].
Qed.

Definition commit : CommitResult := {|
  cm_receipt := {| rc_operation_id := "o"; rc_session_id := "s"; rc_run_id := Some "r";
                   rc_first_sequence := 2; rc_last_sequence := 2 |};
  cm_duplicate := false; cm_cleanup_warning := None |}.

(** Shutdown begins while a submission runs. *)
Definition first_half : list Event :=
  [Register "d" "s" "o" "r" true; Register "e" "s" "o2" "r2" true; Accept "d" commit; Shutdown; Register "f" "s" "o" "r" false].
Definition second_half : list Event :=
  [Cancel "s" "r"; Finish "d" (SessionOpenFailed conflict); Untrack "d"; Drained; StoreDone None].
Definition half_host : Host := default new_host (fire_all first_half new_host).
Definition closed_host : Host := default new_host (fire_all second_half half_host).

Lemma half_runs : runs new_host first_half half_host.
Proof. apply host_fire_all_runs. reflexivity. Qed.
Lemma closed_runs : runs half_host second_half closed_host.
Proof. apply host_fire_all_runs. reflexivity. Qed.
Lemma closed_reachable : reachable closed_host.
Proof. exists (first_half ++ second_half). apply host_fire_all_runs. reflexivity. Qed.

Lemma clean_shutdown_witness :
  shutdown closed_host = Some Closed /\ size (tickets closed_host) = 1%nat /\ store_closed closed_host = true.
Proof.
  split; [reflexivity|]. split; [reflexivity|].
  destruct (clean_shutdown closed_host closed_reachable eq_refl) as (Hs & _). exact Hs.
Defined.

Lemma ticket_settles_witness :
  exists t', tickets closed_host !! "d" = Some t' /\
    settles {| tk_acceptance := Some commit; tk_completion := None |} t'.
Proof. apply (ticket_settles half_host second_half closed_host "d" _ closed_runs). reflexivity. Defined.
