(* ===== verification/Finalized.v ===== *)
(** * Recovery of finalized output (src/src/providers/openai_codex/finalized.rs)

    A completed response may arrive with an empty output although its items were
    announced one by one.  The events that concern items are collected, within
    limits, and the items are recovered only if every event agrees with them. *)
From S2P Require Import Prelude Json Errors.

Definition LIMIT : Z := 1024 * 1024.

Record FinalizedItems : Type := mkFinalized {
  fz_events : list Value;
  fz_count : Z;
  fz_bytes : Z;
  fz_invalid : bool;
  fz_evidence : bool
}.
Definition new_finalized : FinalizedItems := mkFinalized [] 0 0 false false.

Notation "'need' b 'in' k" := (if b then k else None) (at level 200, b at level 100, k at level 200, right associativity).

(** [associated]. *)
Definition associated (v : Value) : bool :=
  let kind := default EmptyString (as_str (field v "type")) in
  existsb (fun k => is_some (get v k)) ["item"; "item_id"; "output_index"; "content_index"; "summary_index"; "call_id"]
  || existsb (fun p => has_prefix p kind)
       ["response.output_item."; "response.output_text."; "response.refusal."; "response.content_part.";
        "response.function_call_arguments."; "response.reasoning_"; "response.custom_tool_call_input."].

(** [bounded]. *)
Definition bounded (v : Value) : option string :=
  s ← as_str v; if negb (str_is_empty s) && (len s <=? 512) then Some s else None.

(** The body of the loop of [parts]. *)
Definition part_ok (kinds : list (string * string)) (part : Value) : option unit :=
  kind ← as_str (field part "type");
  kf ← find (fun k => bool_decide (fst k = kind)) kinds;
  _ ← as_str (field part (snd kf));
  _ ← match get part "annotations" with Some a => (fun _ => tt) <$> as_array a | None => Some tt end;
  match get part "logprobs" with Some a => (fun _ => tt) <$> as_array a | None => Some tt end.

(** [parts]. *)
Definition parts (v : Value) (kinds : list (string * string)) : option unit :=
  l ← as_array v; _ ← mapM (part_ok kinds) l; Some tt.

Section finalized.
Context `{SerdeJson}.

(** [ordinary_item]. *)
Definition ordinary_item (item : Value) : option unit :=
  need match get item "status" with Some status => is_str status "completed" | None => true end in
  kind ← as_str (field item "type");
  if bool_decide (kind = "message") then
    need match get item "role" with Some v => is_str v "assistant" | None => true end in
    parts (field item "content") [("output_text", "text"); ("refusal", "refusal")]
  else if bool_decide (kind = "reasoning") then
    need negb (is_none (get item "summary") && is_none (get item "content")
               && is_none_or (get item "encrypted_content") is_null) in
    _ ← match get item "summary" with Some s => parts s [("summary_text", "text")] | None => Some tt end;
    _ ← match get item "content" with Some c => parts c [("reasoning_text", "text")] | None => Some tt end;
    match get item "encrypted_content" with
    | Some e => if is_null e then Some tt else (fun _ => tt) <$> as_str e
    | None => Some tt
    end
  else if bool_decide (kind = "function_call") then
    _ ← bounded (field item "call_id");
    _ ← bounded (field item "name");
    args ← as_str (field item "arguments");
    need len args <=? LIMIT in
    v ← from_str args;
    need is_object v in
    need negb (is_some_and (get item "namespace") (fun v => negb (is_null v))) in
    need negb (is_some_and (get item "caller") (fun v => negb (is_null v) && negb (is_str (field v "type") "direct"))) in
    Some tt
  else None.

(** [complete]. *)
Definition complete_item (item : Value) : option unit := _ ← bounded (field item "id"); ordinary_item item.

(** The kinds of events that can be part of a recovery. *)
Definition known_kind (kind : string) : bool :=
  one_of kind
    ["response.output_item.added"; "response.output_item.done"; "response.output_text.delta";
     "response.output_text.done"; "response.refusal.delta"; "response.refusal.done";
     "response.function_call_arguments.delta"; "response.function_call_arguments.done";
     "response.content_part.added"; "response.content_part.done";
     "response.reasoning_summary_text.delta"; "response.reasoning_summary_text.done";
     "response.reasoning_summary_part.added"; "response.reasoning_summary_part.done";
     "response.reasoning_text.delta"; "response.reasoning_text.done";
     "response.reasoning_text_part.added"; "response.reasoning_text_part.done"].

(** An event collected before for the same item. *)
Definition duplicate_event (v : Value) (kind : string) (old : Value) : bool :=
  value_eqb (field old "output_index") (field v "output_index")
  && (is_str (field old "type") "response.output_item.done"
      || (is_str (field old "type") kind && bool_decide (kind = "response.output_item.added"))).

(** [observe]: what a collected event does, given its length; *)
Definition collect (v : Value) (length : Z) (f : FinalizedItems) : FinalizedItems :=
  let kind := default EmptyString (as_str (field v "type")) in
  let invalid := negb (known_kind kind)
    || is_none_or (as_u64_value (field v "output_index")) (fun i => 512 <=? i)
    || existsb (duplicate_event v kind) (fz_events f)
    || (bool_decide (kind = "response.output_item.done") && is_none (complete_item (field v "item"))) in
  mkFinalized (if invalid then fz_events f else fz_events f ++ [v]) (fz_count f) (fz_bytes f + length) invalid (fz_evidence f).

Definition invalidate (f : FinalizedItems) : FinalizedItems :=
  mkFinalized (fz_events f) (fz_count f) (fz_bytes f) true (fz_evidence f).

(** and the whole method; [to_writer] fails when the text exceeds what is left. *)
Definition observe_item (v : Value) (f : FinalizedItems) : FinalizedItems :=
  let count := Z.min (fz_count f + 1) u64_max in
  let f := mkFinalized (fz_events f) count (fz_bytes f) (fz_invalid f || (4096 <? count)) (fz_evidence f || associated v) in
  let f := if negb (fz_invalid f) && associated v then
             match to_string v with
             | Some t => if len t <=? LIMIT - fz_bytes f then collect v (len t) f else invalidate f
             | None => invalidate f
             end
           else f in
  if fz_invalid f then mkFinalized [] (fz_count f) (fz_bytes f) true (fz_evidence f) else f.

(** ** The recovery *)

(** [compatible]. *)
Definition compatible (value item : Value) : option unit :=
  need forallb (fun k =>
         match get value k with
         | None => true
         | Some present =>
             is_str (field item "type") "function_call"
             && (bool_decide (k = "arguments")
                 || match get item k with Some w => value_eqb present w | None => false end)
         end) ["call_id"; "name"; "caller"; "namespace"; "arguments"] in
  need negb (is_some_and (get value "role") (fun role =>
               negb (is_str (field item "type") "message") || negb (is_str role "assistant")
               || is_some_and (get item "role") (fun done_role => negb (value_eqb role done_role)))
             || (is_some (get value "content") && is_str (field item "type") "function_call")
             || (is_some (get value "summary") && negb (is_str (field item "type") "reasoning"))) in
  Some tt.

(** The text field of a part, by the item, the array and the part's type. *)
Definition text_field (item array part : string) : option string :=
  if (bool_decide (item = "message") && bool_decide (array = "content") && bool_decide (part = "output_text"))
     || (bool_decide (item = "reasoning") && bool_decide (array = "content") && bool_decide (part = "reasoning_text"))
     || (bool_decide (item = "reasoning") && bool_decide (array = "summary") && bool_decide (part = "summary_text"))
  then Some "text"
  else if bool_decide (item = "message") && bool_decide (array = "content") && bool_decide (part = "refusal")
  then Some "refusal" else None.

(** The inner loop of [provisional_content]. *)
Fixpoint provisional_parts (item : Value) (array : string) (provided finalized : list Value) : option unit :=
  match provided, finalized with
  | part :: provided, target :: finalized =>
      kind ← as_str (field item "type");
      t ← as_str (field part "type");
      f ← text_field kind array t;
      need value_eqb (field part "type") (field target "type") in
      whole ← as_str (field target f);
      given ← as_str (field part f);
      need has_prefix given whole in
      provisional_parts item array provided finalized
  | _, _ => Some tt
  end.

Definition provisional_array (value item : Value) (array : string) : option unit :=
  match get value array with
  | None => Some tt
  | Some provided =>
      provided ← as_array provided;
      finalized ← match get item array with Some l => as_array l | None => Some [] end;
      need Nat.leb (length provided) (length finalized) in
      provisional_parts item array provided finalized
  end.

(** [provisional_content]. *)
Definition provisional_content (value item : Value) : option unit :=
  _ ← match get value "arguments" with
      | None => Some tt
      | Some arguments =>
          whole ← as_str (field item "arguments"); given ← as_str arguments; need has_prefix given whole in Some tt
      end;
  _ ← provisional_array value item "content";
  provisional_array value item "summary".

(** The first loop of [validate]: the finished items. *)
Record Finished : Type := mkFinished {
  fn_done : gmap Z Value;
  fn_ids : gset string;
  fn_calls : gset string
}.

Definition finished_event (response_id : string) (v : Value) (s : Finished) : option Finished :=
  need negb (is_some_and (get v "response_id") (fun id => negb (is_str id response_id))
             || is_some_and (pointer v "response" "id") (fun id => negb (is_str id response_id))) in
  if is_str (field v "type") "response.output_item.done" then
    index ← as_u64_value (field v "output_index");
    need index <? 512 in
    item ← get v "item";
    _ ← complete_item item;
    id ← as_str (field item "id");
    need negb (bool_decide (id ∈ fn_ids s)) && is_none (fn_done s !! index) in
    let s := mkFinished (<[index := item]> (fn_done s)) ({[id]} ∪ fn_ids s) (fn_calls s) in
    if is_str (field item "type") "function_call" then
      call ← as_str (field item "call_id");
      need negb (bool_decide (call ∈ fn_calls s)) in
      Some (mkFinished (fn_done s) (fn_ids s) ({[call]} ∪ fn_calls s))
    else Some s
  else Some s.

Fixpoint finished_events (response_id : string) (vs : list Value) (s : Finished) : option Finished :=
  match vs with
  | [] => Some s
  | v :: vs => s ← finished_event response_id v s; finished_events response_id vs s
  end.

(** The second loop: every event agrees with the finished items. *)
Notation Key := (Z * string * Z)%type.
Record Progress : Type := mkProgress {
  pg_added : gset Z;
  pg_finished : gset Z;
  pg_finals : gset (Key * string);
  pg_fragments : gmap Key string
}.

(** The family, the text field, the part and the target of an event of a part. *)
Definition event_target (v item : Value) (kind : string) : option (string * string * Z * Value) :=
  if one_of kind ["response.function_call_arguments.delta"; "response.function_call_arguments.done"] then
    need is_str (field item "type") "function_call" in Some ("arguments", "arguments", 0, item)
  else if one_of kind
    ["response.output_text.delta"; "response.output_text.done"; "response.refusal.delta"; "response.refusal.done";
     "response.content_part.added"; "response.content_part.done"; "response.reasoning_text.delta";
     "response.reasoning_text.done"; "response.reasoning_text_part.added"; "response.reasoning_text_part.done"] then
    i ← as_u64_value (field v "content_index");
    content ← as_array (field item "content");
    target ← content !! Z.to_nat i;
    t ← as_str (field target "type");
    ef ← (if bool_decide (t = "output_text") then Some ("message", "text")
          else if bool_decide (t = "refusal") then Some ("message", "refusal")
          else if bool_decide (t = "reasoning_text") then Some ("reasoning", "text") else None);
    need is_str (field item "type") (fst ef) in
    need (if has_prefix "response.content_part." kind then true
          else if has_prefix "response.reasoning_text_part." kind then bool_decide (t = "reasoning_text")
          else has_prefix (String.append "response." (String.append t ".")) kind) in
    Some ("content", snd ef, i, target)
  else if one_of kind
    ["response.reasoning_summary_text.delta"; "response.reasoning_summary_text.done";
     "response.reasoning_summary_part.added"; "response.reasoning_summary_part.done"] then
    need is_str (field item "type") "reasoning" in
    i ← as_u64_value (field v "summary_index");
    summary ← as_array (field item "summary");
    target ← summary !! Z.to_nat i;
    Some ("summary", "text", i, target)
  else None.

(** The text of an event of a part, against the final text. *)
Definition part_event (v : Value) (kind : string) (key : Key) (f : string) (target : Value) (s : Progress) : option Progress :=
  final_text ← as_str (field target f);
  if has_suffix ".delta" kind then
    need negb (bool_decide ((key, "field") ∈ pg_finals s) || bool_decide ((key, "part") ∈ pg_finals s)) in
    delta ← as_str (field v "delta");
    let text := String.append (default EmptyString (pg_fragments s !! key)) delta in
    need has_prefix text final_text in
    Some (mkProgress (pg_added s) (pg_finished s) (pg_finals s) (<[key := text]> (pg_fragments s)))
  else if has_infix "part." kind then
    let part := field v "part" in
    need value_eqb (field part "type") (field target "type") in
    text ← as_str (field part f);
    if has_suffix ".done" kind then
      need negb (bool_decide ((key, "part") ∈ pg_finals s)) && value_eqb part target in
      Some (mkProgress (pg_added s) (pg_finished s) ({[(key, "part")]} ∪ pg_finals s) (pg_fragments s))
    else
      need negb (bool_decide ((key, "added") ∈ pg_finals s)) && negb (bool_decide ((key, "part") ∈ pg_finals s))
           && has_prefix text final_text in
      Some (mkProgress (pg_added s) (pg_finished s) ({[(key, "added")]} ∪ pg_finals s) (pg_fragments s))
  else
    need negb (bool_decide ((key, "field") ∈ pg_finals s)) in
    given ← as_str (field v f);
    need bool_decide (given = final_text) in
    Some (mkProgress (pg_added s) (pg_finished s) ({[(key, "field")]} ∪ pg_finals s) (pg_fragments s)).

Definition check_event (done : gmap Z Value) (v : Value) (s : Progress) : option Progress :=
  index ← as_u64_value (field v "output_index");
  item ← done !! index;
  kind ← as_str (field v "type");
  need negb (is_some_and (get v "item_id") (fun id => negb (value_eqb id (field item "id")))) in
  _ ← compatible v item;
  _ ← (if one_of kind ["response.output_item.added"; "response.output_item.done"] then
         need negb (existsb (fun k => is_some (get v k))
                      ["content_index"; "summary_index"; "part"; "delta"; "text"; "refusal"; "arguments"]) in
         nested ← get v "item";
         _ ← compatible nested item;
         need forallb (fun k => match get nested k, get item k with
                                | Some a, Some b => value_eqb a b
                                | None, None => true
                                | _, _ => false
                                end) ["id"; "type"] in Some tt
       else need is_none (get v "item") in Some tt);
  if bool_decide (kind = "response.output_item.done") then
    Some (mkProgress (pg_added s) ({[index]} ∪ pg_finished s) (pg_finals s) (pg_fragments s))
  else
    need negb (bool_decide (index ∈ pg_finished s)) in
    if bool_decide (kind = "response.output_item.added") then
      _ ← provisional_content (field v "item") item;
      need negb (bool_decide (index ∈ pg_added s)) in
      Some (mkProgress ({[index]} ∪ pg_added s) (pg_finished s) (pg_finals s) (pg_fragments s))
    else
      need value_eqb (field v "item_id") (field item "id") in
      t ← event_target v item kind;
      let '(family, f, part_index, target) := t in
      need negb ((negb (bool_decide (family = "content")) && is_some (get v "content_index"))
                 || (negb (bool_decide (family = "summary")) && is_some (get v "summary_index"))) in
      part_event v kind (index, family, part_index) f target s.

Fixpoint check_events (done : gmap Z Value) (vs : list Value) (s : Progress) : option Progress :=
  match vs with
  | [] => Some s
  | v :: vs => s ← check_event done v s; check_events done vs s
  end.

(** [validate]; the keys of the items are [0..n]. *)
Definition validate (vs : list Value) (response_id : string) : option (list Value) :=
  s ← finished_events response_id vs (mkFinished ∅ ∅ ∅);
  let done := fn_done s in
  let indices := seqZ 0 (Z.of_nat (size done)) in
  need negb (bool_decide (done = ∅)) && forallb (fun i => is_some (done !! i)) indices in
  _ ← check_events done vs (mkProgress ∅ ∅ ∅ ∅);
  Some (omap (fun i => done !! i) indices).

(** [recover]. *)
Definition recover (response_id : string) (f : FinalizedItems) : result (list Value) GatewayError * FinalizedItems :=
  let result := if fz_invalid f then None
                else if negb (fz_evidence f) then Some []
                else validate (fz_events f) response_id in
  (ok_or result (Protocol "invalid finalized output recovery"),
   mkFinalized [] (fz_count f) (fz_bytes f) (fz_invalid f || is_none result) (fz_evidence f)).
End finalized.
