(* ===== verification/Codec.v ===== *)
(** * Decoding responses (src/src/providers/openai_codex/codec.rs)

    The events of one response, from the messages of either transport. *)
From S2P Require Import Prelude Json Errors Provider Finalized.

Definition MAX_ITEMS : Z := 512.

Notation Decoded A := (result A GatewayError).

(** [required_str], [required_u64] and [required_response_id]. *)
Definition required_str (v : Value) (k : string) : Decoded string :=
  ok_or (get v k ≫= as_str) (Protocol "required string missing").
Definition required_u64 (v : Value) (k : string) : Decoded Z :=
  ok_or (get v k ≫= as_u64_value) (Protocol "required integer missing").
Definition required_response_id (v : Value) : Decoded string :=
  let? id := required_str v "id" in
  if str_is_empty id then Err (Protocol "empty response identity") else Ok id.

Definition item_kind (native_type : string) : ItemKind :=
  if bool_decide (native_type = "message") then KMessage
  else if bool_decide (native_type = "reasoning") then KReasoning
  else if bool_decide (native_type = "function_call") then KFunctionCall
  else if bool_decide (native_type = "custom_tool_call") then KCustomToolCall
  else if bool_decide (native_type = "tool_search_call") then KToolSearchCall
  else if bool_decide (native_type = "tool_search_output") then KToolSearchOutput
  else if bool_decide (native_type = "program") then KProgram
  else if bool_decide (native_type = "program_output") then KProgramOutput
  else KUnknown.

Definition call_origin (native : Value) : CallOrigin :=
  match get native "caller" with
  | None | Some Null => Direct
  | Some c =>
      let kind := get c "type" ≫= as_str in
      if bool_decide (kind = Some "direct") then Direct
      else if bool_decide (kind = Some "program") then Programmatic else UnknownOrigin
  end.

Definition call_complete (native : Value) : bool :=
  match get native "status" with
  | None => true
  | Some (VString status) => bool_decide (status = "completed")
  | Some _ => false
  end.

(** [parse_item]. *)
Definition parse_item (native : Value) : Decoded OutputItem :=
  let? native_type := required_str native "type" in
  let kind := item_kind native_type in
  let? call :=
    if bool_decide (kind = KFunctionCall) then
      let? call_id := required_str native "call_id" in
      let? name := required_str native "name" in
      Ok (Some {| call_id := call_id; name := name;
                  arguments := default EmptyString (get native "arguments" ≫= as_str);
                  origin := call_origin native; namespace := get native "namespace" ≫= as_str;
                  complete := call_complete native |})
    else Ok None in
  Ok {| item_id := get native "id" ≫= as_str; kind := kind; native_type := native_type;
        function_call := call; native := native |}.

Fixpoint parse_items (l : list Value) : Decoded (list OutputItem) :=
  match l with
  | [] => Ok []
  | v :: l => let? item := parse_item v in let? rest := parse_items l in Ok (item :: rest)
  end.

Definition parse_outcome (native : Value) : Decoded ResponseOutcome :=
  let? status := required_str native "status" in
  if bool_decide (status = "completed") then Ok RCompleted
  else if bool_decide (status = "incomplete")
  then Ok (RIncomplete (pointer native "incomplete_details" "reason" ≫= as_str))
  else if bool_decide (status = "failed") then Ok RFailed
  else if bool_decide (status = "cancelled") then Ok RCancelled
  else Err (Protocol "non-terminal or unknown terminal status").

Definition parse_output (native : Value) (outcome : ResponseOutcome) : Decoded (list OutputItem) :=
  match get native "output" with
  | Some (VArray items) => if Z.of_nat (length items) <=? MAX_ITEMS then parse_items items else Err StreamTooLarge
  | None | Some Null =>
      match outcome with
      | RFailed | RCancelled => Ok []
      | _ => Err (Protocol "invalid response output")
      end
  | _ => Err (Protocol "invalid response output")
  end.

(** The text of the parts of a message, and of all messages. *)
Fixpoint parts_text (text : string) (parts : list Value) : Decoded string :=
  match parts with
  | [] => Ok text
  | part :: parts =>
      let kind := get part "type" ≫= as_str in
      if bool_decide (kind = Some "output_text") then
        let? t := required_str part "text" in parts_text (String.append text t) parts
      else if bool_decide (kind = Some "refusal") then
        let? t := required_str part "refusal" in parts_text (String.append text t) parts
      else parts_text text parts
  end.
Fixpoint output_text (text : string) (items : list OutputItem) : Decoded string :=
  match items with
  | [] => Ok text
  | item :: items =>
      let? text := match kind item, get (native item) "content" ≫= as_array with
                   | KMessage, Some parts => parts_text text parts
                   | _, _ => Ok text
                   end in
      output_text text items
  end.

Definition parse_usage (native : Value) : Decoded (option Usage) :=
  match get native "usage" with
  | None | Some Null => Ok None
  | Some u =>
      let? input := required_u64 u "input_tokens" in
      let? output := required_u64 u "output_tokens" in
      let? total := required_u64 u "total_tokens" in
      Ok (Some {| input_tokens := input; output_tokens := output; total_tokens := total;
                  cached_input_tokens := pointer u "input_tokens_details" "cached_tokens" ≫= as_u64_value;
                  reasoning_tokens := pointer u "output_tokens_details" "reasoning_tokens" ≫= as_u64_value |})
  end.

(** [parse_response]. *)
Definition parse_response (native : Value) : Decoded ModelResponse :=
  let? id := required_response_id native in
  let? outcome := parse_outcome native in
  let? output := parse_output native outcome in
  let? text := output_text EmptyString output in
  let? usage := parse_usage native in
  Ok {| output_provenance := NativeTerminal; response_id := id;
        response_model := get native "model" ≫= as_str; outcome := outcome; output := output;
        text := text; usage := usage; response_native := native |}.

(** ** The decoder *)
Record ResponseDecoder : Type := mkResponseDecoder {
  rd_response_id : option string;
  rd_finished : bool;
  rd_terminal_received : bool;
  rd_finalized : FinalizedItems
}.
Definition new_response_decoder : ResponseDecoder := mkResponseDecoder None false false new_finalized.

Notation Codec := (SM ResponseDecoder GatewayError).

Definition set_response_id (id : string) (d : ResponseDecoder) : ResponseDecoder :=
  mkResponseDecoder (Some id) (rd_finished d) (rd_terminal_received d) (rd_finalized d).
Definition set_finished (d : ResponseDecoder) : ResponseDecoder :=
  mkResponseDecoder (rd_response_id d) true (rd_terminal_received d) (rd_finalized d).
Definition set_terminal_received (d : ResponseDecoder) : ResponseDecoder :=
  mkResponseDecoder (rd_response_id d) (rd_finished d) true (rd_finalized d).
Definition set_finalized (f : FinalizedItems) (d : ResponseDecoder) : ResponseDecoder :=
  mkResponseDecoder (rd_response_id d) (rd_finished d) (rd_terminal_received d) f.

(** [ResponseDecoder::response_id]. *)
Definition event_response_id (event : Value) (d : ResponseDecoder) : Decoded string :=
  let? id := ok_or (rd_response_id d) (Protocol "content before response identity") in
  let reported := match get event "response_id" ≫= as_str with
                  | Some id => Some id
                  | None => pointer event "response" "id" ≫= as_str
                  end in
  if is_some_and reported (fun other => negb (bool_decide (other = id)))
  then Err (Protocol "cross-response event") else Ok id.

Definition delta_kind (kind : string) : DeltaKind :=
  if bool_decide (kind = "response.output_text.delta") then DText
  else if bool_decide (kind = "response.refusal.delta") then DRefusal
  else if bool_decide (kind = "response.reasoning_summary_text.delta") then DReasoningSummary
  else if bool_decide (kind = "response.reasoning_text.delta") then DReasoningText
  else if bool_decide (kind = "response.function_call_arguments.delta") then DFunctionArguments
  else DCustomToolInput.

(** The response with the recovered items. *)
Definition with_recovered (response : ModelResponse) (recovered : list Value) : Decoded ModelResponse :=
  let? parsed := parse_response (set_field "output" (VArray recovered) (response_native response)) in
  Ok {| output_provenance := ValidatedOutputItemDone; response_id := response_id response;
        response_model := response_model response; outcome := outcome response; output := output parsed;
        text := text parsed; usage := usage response; response_native := response_native response |}.

Section codec.
Context `{SerdeJson}.

(** The recovery of a completed response with an empty output. *)
Definition recover_output (success : bool) (response : ModelResponse) : Codec ModelResponse :=
  if success && bool_decide (outcome response = RCompleted)
     && is_some_and (get (response_native response) "output" ≫= as_array) (fun l => match l with [] => true | _ => false end)
  then
    let! d := gets (fun d => d) in
    let '(r, f) := recover (response_id response) (rd_finalized d) in
    do! modify (set_finalized f) in
    let! recovered := lift r in
    match recovered with [] => ret response | _ => lift (with_recovered response recovered) end
  else ret response.

(** A terminal event. *)
Definition apply_terminal (kind : string) (value : Value) : Codec (list ProviderEvent) :=
  let success := one_of kind ["response.completed"; "response.done"] in
  let! native := lift (ok_or (get value "response") (Protocol "terminal response missing")) in
  let! response := lift (parse_response native) in
  do! lift (if negb success && bool_decide (outcome response = RCompleted)
            then Err (Protocol "non-success terminal event claims completed status") else Ok tt) in
  let! known := gets rd_response_id in
  let! started := match known with
                  | Some id => lift (if bool_decide (id = response_id response) then Ok []
                                     else Err (Protocol "response ID changed"))
                  | None => do! modify (set_response_id (response_id response)) in
                            ret [PResponseStarted (response_id response)]
                  end in
  do! modify set_terminal_received in
  let! response := recover_output success response in
  do! modify set_finished in
  ret (started ++ [PResponseFinished response]).

(** [apply]. *)
Definition apply (value : Value) : Codec (list ProviderEvent) :=
  let! finished := gets rd_finished in
  do! lift (if finished then Err (Protocol "event after terminal response") else Ok tt) in
  let! kind := lift (ok_or (get value "type" ≫= as_str) (Protocol "missing event type")) in
  do! modify (fun d => set_finalized (observe_item value (rd_finalized d)) d) in
  let! d := gets (fun d => d) in
  if bool_decide (kind = "response.created") then
    let! response := lift (ok_or (get value "response") (Protocol "response missing")) in
    let! id := lift (required_response_id response) in
    do! lift (if is_some (rd_response_id d) then Err (Protocol "duplicate response.created") else Ok tt) in
    do! modify (set_response_id id) in
    ret [PResponseStarted id]
  else if one_of kind ["response.in_progress"; "response.queued"] then
    let! id := lift (event_response_id value d) in
    ret [PResponseStatus id (default kind (strip_prefix "response." kind))]
  else if one_of kind ["response.output_item.added"; "response.output_item.done"] then
    let! id := lift (event_response_id value d) in
    let! index := lift (required_u64 value "output_index") in
    let! native := lift (ok_or (get value "item") (Protocol "missing output item")) in
    let! item := lift (parse_item native) in
    ret [if has_suffix ".added" kind then POutputItemStarted id index item else POutputItemFinished id index item]
  else if one_of kind
    ["response.output_text.delta"; "response.refusal.delta"; "response.reasoning_summary_text.delta";
     "response.reasoning_text.delta"; "response.function_call_arguments.delta";
     "response.custom_tool_call_input.delta"] then
    let! id := lift (event_response_id value d) in
    let! item := lift (required_str value "item_id") in
    let! index := lift (required_u64 value "output_index") in
    let! delta := lift (required_str value "delta") in
    ret [POutputItemUpdated id item index (get value "content_index" ≫= as_u64_value)
           (get value "summary_index" ≫= as_u64_value) (delta_kind kind) delta]
  else if one_of kind
    ["response.completed"; "response.done"; "response.incomplete"; "response.failed"; "response.cancelled"]
  then apply_terminal kind value
  else if bool_decide (kind = "error") then throw ProviderFailed
  else ret [PProviderExtension kind value].

(** The messages of one stream. *)
Fixpoint apply_all (values : list Value) : Codec (list ProviderEvent) :=
  match values with
  | [] => ret []
  | v :: values => let! es := apply v in let! more := apply_all values in ret (es ++ more)
  end.
End codec.
