(* ===== verification/Recovered.v ===== *)
(** * What a recovered response holds

    When a completed response comes with an empty output, its items are those that
    were announced as done, each at its index, and nothing else. *)
From S2P Require Import Prelude Json Errors Provider Finalized Codec.

(** * The events of the decoder

    Every message the decoder accepts gives events that follow each other the way
    the collector of a run wants them: one start, one identity, a terminal last. *)

(** The identity known after an event, if the event is allowed. *)
Definition next_id (o : option string) (e : ProviderEvent) : option (option string) :=
  match e with
  | PResponseStarted id => if is_none o && negb (str_is_empty id) then Some (Some id) else None
  | PResponseStatus id _ | POutputItemStarted id _ _ | POutputItemUpdated id _ _ _ _ _ _ | POutputItemFinished id _ _ =>
      if bool_decide (o = Some id) then Some o else None
  | PResponseFinished response => if bool_decide (o = Some (response_id response)) then Some o else None
  | PProviderExtension _ _ => Some o
  | PSessionClosed _ | PRequestFailed _ _ _ => None
  end.
Fixpoint next_ids (o : option string) (es : list ProviderEvent) : option (option string) :=
  match es with [] => Some o | e :: es => next_id o e ≫= fun o => next_ids o es end.

Definition id_ok (o : option string) : Prop := forall id, o = Some id -> id <> EmptyString.

Definition finished_event (e : ProviderEvent) : bool := match e with PResponseFinished _ => true | _ => false end.

(** A start or nothing, then anything but a terminal, or the terminal alone. *)
Lemma next_ids_app o es es' : next_ids o (es ++ es') = next_ids o es ≫= fun o => next_ids o es'.
Proof.
  revert o. induction es as [|e es IH]; intros o; simpl; [done|]. destruct (next_id o e); simpl; [apply IH | done].
Qed.

Lemma event_response_id_Ok value d id : event_response_id value d = Ok id -> rd_response_id d = Some id.
Proof.
  unfold event_response_id. destruct (rd_response_id d) as [i|]; [|done]. cbn [ok_or].
  destruct (is_some_and _ _); [done|]. congruence.
Qed.

Lemma required_response_id_Ok v id : required_response_id v = Ok id -> id <> EmptyString.
Proof.
  unfold required_response_id. destruct (required_str v "id") as [i|]; [|done].
  destruct (str_is_empty i) eqn:E; [done|]. intros [= <-] ->. done.
Qed.

Lemma parse_response_id native r : parse_response native = Ok r -> response_id r <> EmptyString.
Proof.
  unfold parse_response. destruct (required_response_id native) as [id|] eqn:Ei; [|done]. intros Hp.
  step_in Hp. by apply required_response_id_Ok in Ei.
Qed.

Section codec_facts.
Context `{SerdeJson}.

Lemma recover_output_id success response d r d' :
  recover_output success response d = (Ok r, d') ->
  response_id r = response_id response /\ rd_response_id d' = rd_response_id d.
Proof.
  unfold recover_output. destruct (_ && _); [|by intros [= <- <-]].
  unfold bind, gets. destruct (recover (response_id response) (rd_finalized d)) as [[l|e] f]; unfold modify, lift; simpl; [|done].
  destruct l; [by intros [= <- <-]|].
  unfold with_recovered. destruct (parse_response _); [|done]. by intros [= <- <-].
Qed.

Definition admitted (o : option string) (es : list ProviderEvent) (o' : option string) : Prop :=
  next_ids o es = Some o' /\ id_ok o' /\ es <> [] /\
  exists before last, es = before ++ [last] /\ existsb finished_event before = false.

Lemma admitted_one o e o' : next_id o e = Some o' -> id_ok o' -> admitted o [e] o'.
Proof. intros Hn Hok. repeat split; [by simpl; rewrite Hn | done | done | by exists [], e]. Qed.

Lemma admitted_same id e : next_id (Some id) e = (if bool_decide (Some id = Some id) then Some (Some id) else None) ->
  id_ok (Some id) -> admitted (Some id) [e] (Some id).
Proof. rewrite bool_decide_eq_true_2 by done. intros. by apply admitted_one. Qed.

Lemma apply_terminal_admitted kind value d es d' :
  apply_terminal kind value d = (Ok es, d') -> id_ok (rd_response_id d) ->
  admitted (rd_response_id d) es (rd_response_id d').
Proof.
  unfold apply_terminal. intros Ha Hok. do 3 unbind Ha.
  unfold lift in Hc, Hc0. injection Hc as Hnat <-. injection Hc0 as Hparse <-. apply parse_response_id in Hparse.
  unfold lift in Hc1. injection Hc1 as _ <-. unbind Ha. unfold gets in Hc. injection Hc as <- <-.
  unbind Ha. rename a2 into started. rename s into d1.
  unbind Ha. unfold modify in Hc0. injection Hc0 as <- <-. unbind Ha. apply recover_output_id in Hc0 as [Hid Hd].
  unbind Ha. unfold modify in Hc0. injection Hc0 as <- <-. unfold ret in Ha. injection Ha as <- <-. simpl in *.
  rewrite Hd. clear Hd. destruct (rd_response_id d) as [id|] eqn:Er.
  - unfold lift in Hc. case_bool_decide as Hi; [|done]. injection Hc as <- <-. rewrite Er.
    apply admitted_one; [|done]. simpl. by rewrite bool_decide_eq_true_2 by congruence.
  - unbind Hc. unfold modify, ret in *. injection Hc0 as <- <-. injection Hc as <- <-. simpl.
    repeat split; [|by intros ? [= <-]|done|by eexists [_], _].
    simpl. apply str_is_empty_false in Hparse. rewrite Hparse. simpl. by rewrite bool_decide_eq_true_2 by congruence.
Qed.

(** The kinds of messages, by what they give. *)
Inductive applied (value : Value) (d : ResponseDecoder) : list ProviderEvent -> ResponseDecoder -> Prop :=
| applied_created id :
    get value "type" ≫= as_str = Some "response.created" -> rd_response_id d = None -> id <> EmptyString ->
    applied value d [PResponseStarted id] (set_response_id id d)
| applied_status id kind :
    get value "type" ≫= as_str = Some kind -> one_of kind ["response.in_progress"; "response.queued"] = true ->
    rd_response_id d = Some id ->
    applied value d [PResponseStatus id (default kind (strip_prefix "response." kind))] d
| applied_started id index item native :
    get value "type" ≫= as_str = Some "response.output_item.added" -> rd_response_id d = Some id ->
    get value "output_index" ≫= as_u64_value = Some index -> get value "item" = Some native -> parse_item native = Ok item ->
    applied value d [POutputItemStarted id index item] d
| applied_done id index item native :
    get value "type" ≫= as_str = Some "response.output_item.done" -> rd_response_id d = Some id ->
    get value "output_index" ≫= as_u64_value = Some index -> get value "item" = Some native -> parse_item native = Ok item ->
    applied value d [POutputItemFinished id index item] d
| applied_delta id kind item index c s k delta :
    get value "type" ≫= as_str = Some kind -> has_suffix ".delta" kind = true -> rd_response_id d = Some id ->
    applied value d [POutputItemUpdated id item index c s k delta] d
| applied_terminal kind es d' :
    get value "type" ≫= as_str = Some kind ->
    one_of kind ["response.completed"; "response.done"; "response.incomplete"; "response.failed"; "response.cancelled"] = true ->
    apply_terminal kind value d = (Ok es, d') -> applied value d es d'
| applied_extension kind :
    get value "type" ≫= as_str = Some kind -> kind <> "response.output_item.done" ->
    applied value d [PProviderExtension kind value] d.

Lemma one_of_In s l : one_of s l = true <-> In s l.
Proof.
  unfold one_of. rewrite existsb_exists. split.
  - by intros (t & Ht & ->%bool_decide_eq_true_1).
  - intros Hs. exists s. split; [done|]. by rewrite bool_decide_eq_true_2.
Qed.

Lemma apply_applied value d es d' :
  apply value d = (Ok es, d') ->
  rd_finished d = false /\ applied value (set_finalized (observe_item value (rd_finalized d)) d) es d'.
Proof.
  unfold apply. intros Ha. do 2 unbind Ha. unfold gets in Hc. injection Hc as <- <-.
  unfold lift in Hc0. injection Hc0 as Hfin <-. split; [by destruct (rd_finished d)|].
  unbind Ha. unfold lift in Hc. injection Hc as Ht%ok_or_Ok <-.
  unbind Ha. unfold modify in Hc. injection Hc as <- <-. unbind Ha. unfold gets in Hc. injection Hc as <- <-.
  set (d1 := set_finalized _ d) in *. clearbody d1. clear Hfin d. rename a into kind.
  destruct (bool_decide (kind = "response.created")) eqn:Ek.
  { apply bool_decide_eq_true_1 in Ek as ->.
    do 3 unbind Ha. unfold lift in *. injection Hc as _ <-. injection Hc0 as Hid <-. apply required_response_id_Ok in Hid.
    destruct (rd_response_id d1) eqn:Er; [done|]. injection Hc1 as <- <-. unbind Ha. unfold modify in Hc.
    injection Hc as <- <-. injection Ha as <- <-. by constructor. }
  assert (forall id : string, event_response_id value d1 = Ok id -> rd_response_id d1 = Some id) as Hsame.
  { intros id. apply event_response_id_Ok. }
  destruct (one_of kind ["response.in_progress"; _]) eqn:Est.
  { unbind Ha. unfold lift in Hc. injection Hc as Hid%Hsame <-. injection Ha as <- <-. by econstructor. }
  destruct (one_of kind ["response.output_item.added"; _]) eqn:Eitem.
  { do 4 unbind Ha. unfold lift in *. injection Hc as Hid%Hsame <-. injection Hc0 as Hi%ok_or_Ok <-.
    injection Hc1 as Hn%ok_or_Ok <-. injection Hc2 as Hp <-. injection Ha as <- <-.
    apply one_of_In in Eitem as [<-|[<-|[]]]; simpl; by econstructor. }
  destruct (one_of kind ("response.output_text.delta" :: _)) eqn:Edelta.
  { do 4 unbind Ha. unfold lift in *. injection Hc as Hid%Hsame <-. injection Hc0 as _ <-. injection Hc1 as _ <-.
    injection Hc2 as _ <-. injection Ha as <- <-. eapply applied_delta; [done| |done].
    apply one_of_In in Edelta as [<-|[<-|[<-|[<-|[<-|[<-|[]]]]]]]; done. }
  destruct (one_of kind ("response.completed" :: _)) eqn:Eterm; [by econstructor|].
  destruct (bool_decide (kind = "error")); [done|]. injection Ha as <- <-. constructor; [done|].
  intros ->. done.
Qed.

Lemma apply_admitted value d es d' :
  apply value d = (Ok es, d') -> id_ok (rd_response_id d) ->
  admitted (rd_response_id d) es (rd_response_id d').
Proof.
  intros [_ Ha]%apply_applied Hok.
  change (rd_response_id d) with (rd_response_id (set_finalized (observe_item value (rd_finalized d)) d)) in *.
  set (d1 := set_finalized _ d) in *. clearbody d1. clear d.
  inv Ha; repeat match goal with X : rd_response_id _ = _ |- _ => rewrite X in * end; try by apply admitted_same.
  - apply admitted_one; [|by intros ? [= <-]]. simpl. by rewrite str_is_empty_false.
  - by eapply apply_terminal_admitted.
  - by apply admitted_one.
Qed.
End codec_facts.

(** An event that finishes the item [item] at [i]. *)
Definition done_at (v : Value) (i : Z) (item : Value) : Prop :=
  is_str (field v "type") "response.output_item.done" = true /\
  as_u64_value (field v "output_index") = Some i /\ get v "item" = Some item.
Definition done_in (vs : list Value) (i : Z) (item : Value) : Prop := exists v, v ∈ vs /\ done_at v i item.

Lemma done_in_cons v vs i item : done_in (v :: vs) i item <-> done_at v i item \/ done_in vs i item.
Proof.
  unfold done_in. split.
  - intros (w & [-> |Hw]%elem_of_cons & Hd); eauto.
  - intros [Hd|(w & Hw & Hd)]; eexists; (split; [|exact Hd]); [by left | by right].
Qed.
Lemma done_in_snoc vs v i item : done_in (vs ++ [v]) i item <-> done_in vs i item \/ done_at v i item.
Proof.
  unfold done_in. split.
  - intros (w & [Hw|Hw%list_elem_of_singleton]%elem_of_app & Hd); [eauto | subst; eauto].
  - intros [(w & Hw & Hd)|Hd]; eexists; (split; [|exact Hd]); apply elem_of_app; [by left | right; by left].
Qed.

Section recovered.
Context `{SerdeJson}.

Lemma finished_event_spec response_id v s s' :
  Finalized.finished_event response_id v s = Some s' ->
  forall i item, fn_done s' !! i = Some item <-> fn_done s !! i = Some item \/ done_at v i item.
Proof.
  unfold Finalized.finished_event, done_at. destruct (negb _); [|done].
  destruct (is_str (field v "type") "response.output_item.done").
  2:{ intros [= <-] i item. split; [by left|]. intros [?|[? _]]; done. }
  destruct (as_u64_value (field v "output_index")) as [index|]; [|done]. simpl.
  destruct (index <? 512); [|done]. destruct (get v "item") as [it|]; [|done]. simpl.
  destruct (complete_item it); [|done]. simpl. destruct (as_str (field it "id")) as [id|]; [|done]. simpl.
  destruct (negb (bool_decide (id ∈ fn_ids s)) && is_none (fn_done s !! index)) eqn:Ed; [|done].
  apply andb_true_iff in Ed as [_ Hnone]. assert (fn_done s !! index = None) as Hn by (by destruct (fn_done s !! index)).
  intros Hs i item.
  assert (fn_done s' = <[index := it]> (fn_done s)) as ->.
  { destruct (is_str (field it "type") "function_call"); [|by injection Hs as <-].
    destruct (as_str (field it "call_id")); [|done]. simpl in Hs. destruct (negb _); [|done]. by injection Hs as <-. }
  rewrite lookup_insert_Some. split.
  - intros [[-> ->]|[_ ?]]; [by right | by left].
  - intros [Hl|(_ & [= <-] & [= <-])]; [|by left]. right. split; [|done]. intros ->. congruence.
Qed.

Lemma finished_events_spec response_id vs s s' :
  finished_events response_id vs s = Some s' ->
  forall i item, fn_done s' !! i = Some item <-> fn_done s !! i = Some item \/ done_in vs i item.
Proof.
  revert s. induction vs as [|v vs IH]; intros s Hs i item; simpl in Hs.
  - injection Hs as <-. split; [by left|]. intros [?|(w & ?%elem_of_nil & _)]; done.
  - destruct (Finalized.finished_event response_id v s) as [s1|] eqn:E; [|done]. simpl in Hs.
    rewrite (IH _ Hs), (finished_event_spec _ _ _ _ E), done_in_cons. tauto.
Qed.

(** A map with [n] keys that has the keys [0 .. n-1] has no others. *)
Lemma dense_keys (m : gmap Z Value) :
  Forall (fun i => is_Some (m !! i)) (seqZ 0 (Z.of_nat (size m))) ->
  forall i, is_Some (m !! i) -> 0 <= i < Z.of_nat (size m).
Proof.
  intros HF i Hi.
  assert ((list_to_set (seqZ 0 (Z.of_nat (size m))) : gset Z) = dom m) as Hdom.
  { apply set_subseteq_size_eq.
    - intros j Hj. apply elem_of_list_to_set in Hj. rewrite Forall_forall in HF. apply elem_of_dom. by apply HF.
    - rewrite size_list_to_set by apply NoDup_seqZ. rewrite length_seqZ, size_dom. lia. }
  apply elem_of_dom in Hi. rewrite <- Hdom, elem_of_list_to_set, elem_of_seqZ in Hi. lia.
Qed.

Lemma omap_lookup_seqZ (m : gmap Z Value) n k :
  Forall (fun i => is_Some (m !! i)) (seqZ 0 (Z.of_nat n)) ->
  omap (fun i => m !! i) (seqZ 0 (Z.of_nat n)) !! k = if bool_decide (k < n)%nat then m !! Z.of_nat k else None.
Proof.
  intros HF. assert (forall l, Forall (fun i => is_Some (m !! i)) l ->
    omap (fun i => m !! i) l !! k = l !! k ≫= fun i => m !! i) as Hx.
  { intros l. revert k. induction l as [|x l IH]; intros k Hl; [done|]. inv Hl.
    match goal with X : is_Some _ |- _ => destruct X as [y Hy] end. cbn [omap list_omap]. rewrite Hy.
    destruct k; simpl; [done | by apply IH]. }
  rewrite Hx by done. case_bool_decide as Hk.
  - by rewrite lookup_seqZ_lt by lia.
  - by rewrite lookup_seqZ_ge by lia.
Qed.

Lemma validate_exact vs response_id items :
  validate vs response_id = Some items ->
  forall k item, items !! k = Some item <-> done_in vs (Z.of_nat k) item.
Proof.
  unfold validate. destruct (finished_events response_id vs _) as [s|] eqn:Es; [|done]. simpl.
  destruct (_ && forallb _ _) eqn:Ef; [|done]. apply andb_true_iff in Ef as [_ Ef].
  destruct (check_events _ _ _); [|done]. intros [= <-] k item.
  assert (Forall (fun i => is_Some (fn_done s !! i)) (seqZ 0 (Z.of_nat (size (fn_done s))))) as HF.
  { apply Forall_forall. intros i Hi%list_elem_of_In. rewrite forallb_forall in Ef.
    apply Ef, is_some_true in Hi as [x Hx]. by exists x. }
  rewrite omap_lookup_seqZ by done.
  pose proof (finished_events_spec _ _ _ _ Es (Z.of_nat k) item) as Hspec.
  simpl in Hspec. rewrite lookup_empty in Hspec.
  case_bool_decide as Hk; [rewrite Hspec; split; [by intros [?|?] | by right]|].
  split; [done|]. intros Hd. exfalso.
  assert (0 <= Z.of_nat k < Z.of_nat (size (fn_done s))) as Hr; [|lia].
  apply dense_keys; [done|]. exists item. apply Hspec. by right.
Qed.

Lemma validate_filled vs response_id : validate vs response_id <> Some [].
Proof.
  intros E. pose proof (validate_exact _ _ _ E) as Hx. unfold validate in E. destruct (finished_events response_id vs _) as [s|] eqn:Es; [|done]. simpl in E.
  destruct (bool_decide (fn_done s = ∅)) eqn:Ed; [done|]. simpl in E. apply bool_decide_eq_false_1, map_choose in Ed as (i & x & Hi).
  destruct (forallb _ _) eqn:Ef; [|done]. assert (0 <= i < Z.of_nat (size (fn_done s))) as Hr.
  { apply dense_keys; [|by exists x]. apply Forall_forall. intros j Hj%list_elem_of_In. rewrite forallb_forall in Ef. apply Ef, is_some_true in Hj as [y Hy]. by exists y. }
  pose proof (finished_events_spec _ _ _ _ Es i x) as Hspec. simpl in Hspec. rewrite lookup_empty in Hspec. apply Hspec in Hi as [Hi|Hi]; [done|].
  replace i with (Z.of_nat (Z.to_nat i)) in Hi by lia. by apply Hx in Hi.
Qed.

(** ** Through the decoder *)

(** The announcements collected are those published. *)
Definition finished_in (events : list ProviderEvent) (i : Z) (v : Value) : Prop :=
  exists id item, POutputItemFinished id i item ∈ events /\ native item = v.

Definition tracks (events : list ProviderEvent) (d : ResponseDecoder) : Prop :=
  fz_invalid (rd_finalized d) = false ->
  forall i v, done_in (fz_events (rd_finalized d)) i v <-> finished_in events i v.

Lemma observe_item_valid v f :
  fz_invalid (observe_item v f) = false ->
  fz_invalid f = false /\ fz_events (observe_item v f) = fz_events f ++ (if associated v then [v] else []).
Proof.
  unfold observe_item. cbn [fz_invalid fz_events fz_count fz_bytes fz_evidence].
  destruct (fz_invalid f); simpl; [by destruct (associated v)|].
  destruct (4096 <? _); [by destruct (associated v)|]. simpl.
  destruct (associated v); [|by rewrite app_nil_r].
  destruct (to_string v) as [t|]; [|done]. destruct (len t <=? _); [|done].
  unfold collect. cbn [fz_invalid fz_events]. destruct (_ || _); done.
Qed.

(** An announcement is collected, and nothing else is taken for one. *)
Lemma done_associated v i item : done_at v i item -> associated v = true.
Proof.
  intros [Ht _]. unfold associated, is_str in *. apply bool_decide_eq_true_1 in Ht. rewrite Ht. cbn [default].
  apply orb_true_iff. by right.
Qed.

Lemma parse_item_native v item : parse_item v = Ok item -> native item = v.
Proof. unfold parse_item. intros Hp. step_in Hp; done. Qed.

Lemma parse_items_native l items : parse_items l = Ok items -> native <$> items = l.
Proof.
  revert items. induction l as [|v l IH]; intros items Hp; simpl in Hp; [by injection Hp as <-|].
  destruct (parse_item v) as [item|] eqn:Ei; [|done]. destruct (parse_items l) as [rest|]; [|done].
  injection Hp as <-. rewrite fmap_cons, (parse_item_native _ _ Ei), IH; done.
Qed.

Lemma parse_response_output v l r :
  parse_response v = Ok r -> get v "output" = Some (VArray l) -> native <$> output r = l.
Proof.
  unfold parse_response, parse_output. intros Hp Hg. rewrite Hg in Hp.
  destruct (required_response_id v); [|done]. destruct (parse_outcome v); [|done].
  destruct (_ <=? _); [|done]. destruct (parse_items l) as [items|] eqn:Ei; [|done].
  destruct (output_text _ _); [|done]. destruct (parse_usage v); [|done]. injection Hp as <-. by apply parse_items_native.
Qed.

Lemma parse_response_native v r :
  parse_response v = Ok r -> response_native r = v /\ output_provenance r = NativeTerminal /\ exists l, v = VObject l.
Proof.
  intros Hp. assert (exists l, v = VObject l) as Hv.
  { destruct v; try done. eauto. }
  unfold parse_response in Hp. step_in Hp. eauto.
Qed.

(** What the decoder may make of the terminal response: with an output of its own, or
    without success, it is the response; else the collected items are its output. *)
Definition unanswered (r : ModelResponse) : Prop :=
  outcome r = RCompleted /\ get (response_native r) "output" = Some (VArray []).
Record rebuilt (r0 r : ModelResponse) : Prop := {
  rb_id : response_id r = response_id r0;
  rb_model : response_model r = response_model r0;
  rb_outcome : outcome r = outcome r0;
  rb_usage : usage r = usage r0;
  rb_native : response_native r = response_native r0;
  rb_provenance : output_provenance r = ValidatedOutputItemDone;
  rb_text : exists parsed, parse_response (set_field "output" (VArray (native <$> output r)) (response_native r0)) = Ok parsed /\
              output parsed = output r /\ text parsed = text r
}.
Definition output_source (f : FinalizedItems) (value : Value) (r : ModelResponse) : Prop :=
  exists v r0, get value "response" = Some v /\ parse_response v = Ok r0 /\
    ((~ unanswered r0 /\ r = r0) \/
     (unanswered r0 /\ ((r = r0 /\ fz_evidence f = false) \/
       (fz_invalid f = false /\ validate (fz_events f) (response_id r0) = Some (native <$> output r) /\ output r <> [] /\ rebuilt r0 r)))).

Lemma recover_output_source success v response d r d' :
  parse_response v = Ok response -> (negb success && bool_decide (outcome response = RCompleted) = false) ->
  recover_output success response d = (Ok r, d') ->
  (~ unanswered response /\ r = response) \/
  (unanswered response /\ ((r = response /\ fz_evidence (rd_finalized d) = false) \/
    (fz_invalid (rd_finalized d) = false /\ validate (fz_events (rd_finalized d)) (response_id response) = Some (native <$> output r) /\ output r <> [] /\ rebuilt response r))).
Proof.
  intros Hp Hsucc Hr. pose proof (parse_response_native _ _ Hp) as (Hn & Hprov & fields & Hv).
  unfold recover_output in Hr. match type of Hr with (if ?b then _ else _) _ = _ => destruct b eqn:Eg end.
  2:{ left. injection Hr as <- <-. split; [|done]. intros [Ho Hout]. rewrite Hout, (bool_decide_eq_true_2 _ Ho) in Eg. rewrite (bool_decide_eq_true_2 _ Ho) in Hsucc.
      by destruct success. }
  right. apply andb_true_iff in Eg as [[_ Ho%bool_decide_eq_true_1]%andb_true_iff Eg]. split.
  { split; [done|]. destruct (get (response_native response) "output") as [[| | | |[|? ?]|]|]; done. }
  unfold bind, gets, recover in Hr. unfold modify, lift in Hr. simpl in Hr.
  destruct (fz_invalid (rd_finalized d)) eqn:Einv; [done|].
  destruct (fz_evidence (rd_finalized d)) eqn:Eev; simpl in Hr; [|by injection Hr as <- <-; left].
  destruct (validate (fz_events (rd_finalized d)) (response_id response)) as [items|] eqn:Ev; [|done].
  simpl in Hr. destruct items as [|x items]; [by apply validate_filled in Ev|].
  unfold with_recovered in Hr. destruct (parse_response (set_field _ _ _)) as [parsed|] eqn:Epar; [|done].
  right. injection Hr as <- <-. split; [done|]. cbn [output response_id].
  assert (native <$> output parsed = x :: items) as Hitems by (eapply parse_response_output; [exact Epar|]; rewrite Hn, Hv; apply get_set_eq).
  split; [by rewrite Hitems|]. split; [by intros E; rewrite E in Hitems|]. split; try done. exists parsed. cbn [output text]. by rewrite Hitems.
Qed.

Lemma apply_terminal_source kind value d es d' :
  apply_terminal kind value d = (Ok es, d') ->
  exists started r, es = started ++ [PResponseFinished r] /\ rd_finished d' = true /\
    (started = [] \/ exists id, started = [PResponseStarted id]) /\ output_source (rd_finalized d) value r.
Proof.
  unfold apply_terminal. intros Ha. do 3 unbind Ha.
  unfold lift in Hc, Hc0, Hc1. injection Hc as Hget%ok_or_Ok <-. injection Hc0 as Hparse <-. injection Hc1 as Hsucc <-.
  unbind Ha. unfold gets in Hc. injection Hc as <- <-. unbind Ha. rename a2 into started, s into d1.
  assert (rd_finalized d1 = rd_finalized d /\ (started = [] \/ exists id, started = [PResponseStarted id])) as [Hd Hstart].
  { destruct (rd_response_id d).
    - unfold lift in Hc. case_bool_decide; [|done]. injection Hc as <- <-. eauto.
    - unfold bind, modify, ret in Hc. injection Hc as <- <-. eauto. }
  unbind Ha. unfold modify in Hc0. injection Hc0 as <- <-. unbind Ha.
  apply (recover_output_source _ _ _ _ _ _ Hparse) in Hc0; [|by destruct (_ && _)]. simpl in Hc0. rewrite Hd in Hc0.
  unbind Ha. unfold modify in Hc1. injection Hc1 as <- <-. unfold ret in Ha. injection Ha as <- <-.
  eexists _, _. split; [done|]. split; [done|]. split; [done|]. by eexists _, _.
Qed.

(** ** The whole stream *)
Lemma done_at_type v i item : done_at v i item -> get v "type" ≫= as_str = Some "response.output_item.done".
Proof.
  intros [Ht _]. apply bool_decide_eq_true_1 in Ht. unfold field in Ht. by destruct (get v "type").
Qed.

Lemma finished_in_app es es' i v : finished_in (es ++ es') i v <-> finished_in es i v \/ finished_in es' i v.
Proof.
  unfold finished_in. setoid_rewrite elem_of_app. naive_solver.
Qed.

(** The announcements of one message. *)
Lemma applied_finished value d es d' i v :
  applied value d es d' -> finished_in es i v <-> done_at value i v.
Proof.
  intros Ha. assert (forall k, get value "type" ≫= as_str = Some k -> k <> "response.output_item.done" ->
    ~ done_at value i v) as Hno by (intros k Hk Hne Hd%done_at_type; congruence).
  assert (forall k, get value "type" ≫= as_str = Some k -> k <> "response.output_item.done" ->
    (forall id item, POutputItemFinished id i item ∉ es) -> finished_in es i v <-> done_at value i v) as Hskip.
  { intros k Hk Hne Hes. split; [|intros Hd; by apply (Hno k) in Hd].
    intros (id & item & Hin & _). by apply Hes in Hin. }
  inv Ha.
  - eapply Hskip; [done..|]. set_solver.
  - eapply Hskip; [done| |set_solver]. intros ->. done.
  - eapply Hskip; [done..|]. set_solver.
  - unfold finished_in, done_at, is_str, field.
    match goal with X : parse_item _ = _ |- _ => apply parse_item_native in X end.
    destruct (get value "type") as [t|]; [|done]. destruct (get value "output_index") as [n|]; [|done]. simpl in *.
    rewrite bool_decide_eq_true_2 by done. split.
    + intros (id' & item' & Hin%list_elem_of_singleton & <-). simplify_eq. by repeat split.
    + intros (_ & Hi & Hn). simplify_eq. eexists _, _. split; [by left | done].
  - eapply Hskip; [done| |set_solver]. intros ->. done.
  - eapply Hskip; [done| |]; [by intros ->|].
    match goal with X : apply_terminal _ _ _ = _ |- _ => apply apply_terminal_source in X as (st & r & -> & _ & Hst & _) end.
    intros id item [Hin|Hin]%elem_of_app; [|by apply list_elem_of_singleton in Hin].
    destruct Hst as [-> |[id' ->]]; [by apply elem_of_nil in Hin | by apply list_elem_of_singleton in Hin].
  - eapply Hskip; [done..|]. set_solver.
Qed.

Lemma tracks_apply events value d es d' :
  tracks events d -> apply value d = (Ok es, d') ->
  tracks (events ++ es) (set_finalized (observe_item value (rd_finalized d)) d).
Proof.
  intros Ht [_ Ha]%apply_applied Hv. simpl in *. apply observe_item_valid in Hv as [Hf ->]. intros i v.
  rewrite finished_in_app, (applied_finished _ _ _ _ _ _ Ha), <- (Ht Hf).
  destruct (associated value) eqn:Eas.
  - by rewrite done_in_snoc.
  - rewrite app_nil_r. split; [by left|]. intros [?|Hd]; [done|]. apply done_associated in Hd. congruence.
Qed.

Lemma applied_final value d es d' :
  applied value d es d' ->
  (rd_finalized d' = rd_finalized d /\ forall r, PResponseFinished r ∉ es) \/
  (rd_finished d' = true /\ forall r, PResponseFinished r ∈ es -> output_source (rd_finalized d) value r).
Proof.
  intros Ha. inv Ha; try (left; split; [done | set_solver]). right.
  match goal with X : apply_terminal _ _ _ = _ |- _ => apply apply_terminal_source in X as (st & r & -> & Hf & Hst & Hs) end.
  split; [done|]. intros r' [Hin|Hin]%elem_of_app; [|apply list_elem_of_singleton in Hin; by injection Hin as ->].
  destruct Hst as [-> |[id ->]]; [by apply elem_of_nil in Hin | by apply list_elem_of_singleton in Hin].
Qed.

Lemma apply_all_finished values d es d' :
  rd_finished d = true -> apply_all values d = (Ok es, d') -> es = [] /\ values = [].
Proof.
  destruct values as [|v values]; simpl; [by intros _ [= <- _]|]. intros Hf Ha. unbind Ha.
  apply apply_applied in Hc as [Hc _]. congruence.
Qed.

(** Where there is no evidence of an item, none was announced. *)
Definition evident (events : list ProviderEvent) (d : ResponseDecoder) : Prop :=
  fz_evidence (rd_finalized d) = false -> forall i v, ~ finished_in events i v.

Lemma observe_evidence v f : fz_evidence (observe_item v f) = fz_evidence f || associated v.
Proof.
  unfold observe_item. set (f1 := mkFinalized _ _ _ _ _).
  assert (forall g, fz_evidence g = fz_evidence f || associated v ->
    fz_evidence (if fz_invalid g then mkFinalized [] (fz_count g) (fz_bytes g) true (fz_evidence g) else g) = fz_evidence f || associated v) as Hg
    by (intros g E; by destruct (fz_invalid g)).
  apply Hg. destruct (_ && _); [|done]. destruct (to_string v) as [t|]; [|done]. by destruct (_ <=? _).
Qed.

Lemma evident_apply events value d es d' :
  evident events d -> apply value d = (Ok es, d') -> evident (events ++ es) (set_finalized (observe_item value (rd_finalized d)) d).
Proof.
  intros He [_ Ha]%apply_applied Hv. cbn [rd_finalized set_finalized] in Hv. rewrite observe_evidence in Hv. apply orb_false_iff in Hv as [Hv Has].
  intros i v. rewrite finished_in_app, (applied_finished _ _ _ _ _ _ Ha). intros [Hf|Hd]; [by apply (He Hv i v)|]. apply done_associated in Hd. congruence.
Qed.

Lemma apply_all_source events values d es d' r :
  tracks events d -> evident events d -> apply_all values d = (Ok es, d') -> PResponseFinished r ∈ es ->
  exists value f, last values = Some value /\ output_source f value r /\
    (fz_invalid f = false -> forall i v, done_in (fz_events f) i v <-> finished_in (events ++ es) i v) /\
    (fz_evidence f = false -> forall i v, ~ finished_in (events ++ es) i v).
Proof.
  revert events d es. induction values as [|value values IH]; intros events d es Ht He Ha Hin; simpl in Ha.
  { injection Ha as <- _. by apply elem_of_nil in Hin. }
  do 2 unbind Ha. unfold ret in Ha. injection Ha as <- <-.
  pose proof (tracks_apply _ _ _ _ _ Ht Hc) as Ht1. pose proof (evident_apply _ _ _ _ _ He Hc) as He1. apply apply_applied in Hc as [_ Hap].
  destruct (applied_final _ _ _ _ Hap) as [[Hfin Hno]|[Hdone Hsrc]].
  - apply elem_of_app in Hin as [Hin|Hin]; [by apply Hno in Hin|].
    destruct (IH (events ++ a) s a0) as (v & f & Hv & Hx); [..|rewrite <- app_assoc in Hx; exists v, f; split; [by destruct values|done]]; try done.
    + intros Hv. rewrite Hfin in Hv |- *. by apply Ht1.
    + intros Hv. rewrite Hfin in Hv. by apply He1.
  - apply apply_all_finished in Hc0 as [-> ->]; [|done]. rewrite app_nil_r in *. eexists value, _. split; [done|]. split; [by apply Hsrc|]. by split.
Qed.

(** C10. The output of a decoded response is never made up.  It is the response of the last
    message of the stream; unless that one is completed with an empty output array, it is
    published as it is.  Otherwise its output is exactly the items announced as done
    during the stream, each at its index, none missing and none added, its text is the text
    of these items, and nothing else of it is changed. *)
Theorem recovered_output_exact values es d r :
  apply_all values new_response_decoder = (Ok es, d) ->
  PResponseFinished r ∈ es ->
  exists value v r0, last values = Some value /\ get value "response" = Some v /\ parse_response v = Ok r0 /\
    ((~ unanswered r0 /\ r = r0) \/
     (unanswered r0 /\ (r = r0 \/ rebuilt r0 r) /\
      (forall i v, (native <$> output r) !! i = Some v <->
         exists id item, POutputItemFinished id (Z.of_nat i) item ∈ es /\ native item = v))).
Proof.
  intros Ha Hin. destruct (apply_all_source [] values new_response_decoder es d r) as (value & f & Hv & (v & r0 & Hg & Hp & Hcase) & Hdone & Hev); [| |done|done|].
  { intros _ i v. split; [by intros (w & ?%elem_of_nil & _) | by intros (? & ? & ?%elem_of_nil & _)]. }
  { by intros _ i v (? & ? & ?%elem_of_nil & _). }
  exists value, v, r0. split; [done|]. split; [done|]. split; [done|]. destruct Hcase as [Hn|[Hu Hcase]]; [by left|right]. split; [done|].
  destruct Hcase as [[-> He]|(Hi & Hval & _ & Hr)].
  - split; [by left|]. intros i w. pose proof (parse_response_native _ _ Hp) as (Hn & _). destruct Hu as [_ Ho]. rewrite Hn in Ho.
    rewrite (parse_response_output _ _ _ Hp Ho). split; [done|]. intros Hf. by destruct (Hev He (Z.of_nat i) w).
  - split; [by right|]. intros i w. rewrite (validate_exact _ _ _ Hval). by apply Hdone.
Qed.
End recovered.
