(* ===== verification/Consistency.v ===== *)
(** * Consistency of a stream (src/src/providers/openai_codex/consistency.rs)

    What was streamed to the consumer is tracked, within limits, and compared with
    the terminal response before that is settled or published. *)
From S2P Require Import Prelude Json Errors Provider Hoare.

Definition MAX_BYTES : Z := 1024 * 1024.
Definition MAX_EVENTS : Z := 4096.
Definition MAX_TRACKED : Z := 512.

Definition inconsistent : GatewayError :=
  Protocol "streamed output is inconsistent with terminal output or exceeds tracking limits".

(** The byte length of the JSON of an event, or its failure. *)
Class EventSerde := { event_json_len : ProviderEvent -> option Z }.

#[export] Instance DeltaKind_eq_dec : EqDecision DeltaKind.
Proof. solve_decision. Defined.

Record Part : Type := mkPart { p_index : Z; p_content : Z; p_kind : DeltaKind; p_text : string }.

Record Lifecycle : Type := mkLifecycle {
  l_bytes : Z;
  l_events : Z;
  l_identities : list (Z * string);
  l_kinds : list (Z * ItemKind);
  l_parts : list Part;
  l_finalized : list (Z * Value);
  l_rendered : string
}.
Definition new_lifecycle : Lifecycle := mkLifecycle 0 0 [] [] [] [] EmptyString.

Definition set_bytes n l := mkLifecycle n (l_events l) (l_identities l) (l_kinds l) (l_parts l) (l_finalized l) (l_rendered l).
Definition set_events n l := mkLifecycle (l_bytes l) n (l_identities l) (l_kinds l) (l_parts l) (l_finalized l) (l_rendered l).
Definition set_identities x l := mkLifecycle (l_bytes l) (l_events l) x (l_kinds l) (l_parts l) (l_finalized l) (l_rendered l).
Definition set_kinds x l := mkLifecycle (l_bytes l) (l_events l) (l_identities l) x (l_parts l) (l_finalized l) (l_rendered l).
Definition set_parts x l := mkLifecycle (l_bytes l) (l_events l) (l_identities l) (l_kinds l) x (l_finalized l) (l_rendered l).
Definition set_tracked x l := mkLifecycle (l_bytes l) (l_events l) (l_identities l) (l_kinds l) (l_parts l) x (l_rendered l).
Definition set_rendered x l := mkLifecycle (l_bytes l) (l_events l) (l_identities l) (l_kinds l) (l_parts l) (l_finalized l) x.

Notation Tracked := (SM Lifecycle GatewayError).

Definition ensure_consistent (b : bool) : Tracked unit := lift (if b then Ok tt else Err inconsistent).

(** [Budget::write]; what a refused text wrote before its end is not counted,
    since the first refusal ends the request. *)
Definition charge (n : option Z) : Tracked unit :=
  let! n := lift (ok_or n inconsistent) in
  let! bytes := gets l_bytes in
  do! ensure_consistent (n <=? MAX_BYTES - bytes) in
  modify (set_bytes (bytes + n)).

(** [Lifecycle::identity]. *)
Definition track_identity (index : Z) (id : string) : Tracked unit :=
  do! ensure_consistent (negb (str_is_empty id || (MAX_TRACKED <=? index))) in
  let! known := gets l_identities in
  match find (fun p => bool_decide (fst p = index) || bool_decide (snd p = id)) known with
  | Some (i, s) => ensure_consistent (bool_decide (i = index) && bool_decide (s = id))
  | None => modify (set_identities (known ++ [(index, id)]))
  end.

(** [Lifecycle::kind]. *)
Definition track_kind (index : Z) (k : ItemKind) : Tracked unit :=
  do! ensure_consistent (negb (MAX_TRACKED <=? index)) in
  let! known := gets l_kinds in
  match find (fun p => bool_decide (fst p = index)) known with
  | Some (_, old) => ensure_consistent (bool_decide (old = k))
  | None => modify (set_kinds (known ++ [(index, k)]))
  end.

(** An item that starts ([finished] false) or finishes. *)
Definition track_item (finished : bool) (index : Z) (item : OutputItem) : Tracked unit :=
  do! track_kind index (kind item) in
  if bool_decide (kind item = KMessage) || bool_decide (kind item = KFunctionCall) then
    let expected := if bool_decide (kind item = KMessage) then "message" else "function_call" in
    do! ensure_consistent (bool_decide (native_type item = expected)
                           && bool_decide ((get (native item) "type" ≫= as_str) = Some expected)) in
    let! id := lift (ok_or (item_id item) inconsistent) in
    do! track_identity index id in
    do! ensure_consistent (bool_decide ((get (native item) "id" ≫= as_str) = Some id)) in
    if finished then
      let! tracked := gets l_finalized in
      do! ensure_consistent (negb (MAX_TRACKED <=? Z.of_nat (length tracked))) in
      do! ensure_consistent (negb (existsb (fun p => bool_decide (fst p = index)
                                                     && negb (value_eqb (snd p) (native item))) tracked)) in
      modify (set_tracked (tracked ++ [(index, native item)]))
    else ret tt
  else ret tt.

(** The first part at a position gets the text; a new position is added. *)
Fixpoint push_part (index content : Z) (k : DeltaKind) (delta : string) (l : list Part) : option (list Part) :=
  match l with
  | [] => Some [mkPart index content k delta]
  | p :: l =>
      if bool_decide (p_index p = index) && bool_decide (p_content p = content) then
        if bool_decide (p_kind p = k)
        then Some (mkPart index content k (String.append (p_text p) delta) :: l) else None
      else cons p <$> push_part index content k delta l
  end.

(** A text or refusal delta. *)
Definition track_text (index : Z) (item : string) (content : option Z) (k : DeltaKind) (delta : string) : Tracked unit :=
  if str_is_empty delta then ret tt
  else
    do! track_identity index item in
    do! track_kind index KMessage in
    do! charge (Some (len delta)) in
    let! content := lift (ok_or content inconsistent) in
    do! ensure_consistent (negb (MAX_TRACKED <=? content)) in
    let! parts := gets l_parts in
    let! parts := lift (ok_or (push_part index content k delta parts) inconsistent) in
    do! modify (set_parts parts) in
    let! rendered := gets l_rendered in
    modify (set_rendered (String.append rendered delta)).

Section lifecycle.
Context `{EventSerde}.

(** [Lifecycle::observe]. *)
Definition track (event : ProviderEvent) : Tracked unit :=
  let! n := gets l_events in
  do! modify (set_events (n + 1)) in
  do! ensure_consistent (n + 1 <=? MAX_EVENTS) in
  match event with
  | POutputItemStarted _ index item =>
      do! charge (event_json_len event) in track_item false index item
  | POutputItemFinished _ index item =>
      do! charge (event_json_len event) in track_item true index item
  | POutputItemUpdated _ item index content _ k delta =>
      do! charge (event_json_len event) in
      match k with
      | DText | DRefusal => track_text index item content k delta
      | _ => ret tt
      end
  | _ => ret tt
  end.

Fixpoint track_all (events : list ProviderEvent) : Tracked unit :=
  match events with [] => ret tt | e :: events => do! track e in track_all events end.
End lifecycle.

(** The output item at an index. *)
Definition output_at (response : ModelResponse) (index : Z) : option OutputItem := output response !! Z.to_nat index.

(** The body of the second loop of [Lifecycle::validate]. *)
Definition part_confirmed (l : Lifecycle) (response : ModelResponse) (p : Part) : bool :=
  match output_at response (p_index p) with
  | None => false
  | Some item =>
      let id := snd <$> find (fun i => bool_decide (fst i = p_index p)) (l_identities l) in
      bool_decide (kind item = KMessage) && bool_decide (native_type item = "message")
      && bool_decide ((get (native item) "type" ≫= as_str) = Some "message")
      && bool_decide (item_id item = id)
      && bool_decide ((get (native item) "id" ≫= as_str) = id)
      && match (get (native item) "content" ≫= as_array) ≫= (fun l : list Value => l !! Z.to_nat (p_content p)) with
         | None => false
         | Some part =>
             let '(part_kind, f) := if bool_decide (p_kind p = DText) then ("output_text", "text") else ("refusal", "refusal") in
             bool_decide ((get part "type" ≫= as_str) = Some part_kind)
             && is_some_and (get part f ≫= as_str) (has_prefix (p_text p))
         end
  end.

(** [Lifecycle::validate]. *)
Definition confirm (l : Lifecycle) (response : ModelResponse) : result unit GatewayError :=
  if negb (bool_decide (outcome response = RCompleted)) then Ok tt
  else if forallb (fun p => is_some_and (output_at response (fst p))
                              (fun item => value_eqb (native item) (snd p))) (l_finalized l)
          && forallb (part_confirmed l response) (l_parts l)
  then Ok tt else Err inconsistent.

(** ** What was streamed is in the response

    The text streamed so far for a part, of one kind. *)
Definition delta_of (k : DeltaKind) (index content : Z) (e : ProviderEvent) : string :=
  match e with
  | POutputItemUpdated _ _ i c _ k' delta =>
      if bool_decide (i = index) && bool_decide (c = Some content) && bool_decide (k' = k) then delta else EmptyString
  | _ => EmptyString
  end.
Fixpoint streamed (k : DeltaKind) (index content : Z) (events : list ProviderEvent) : string :=
  match events with
  | [] => EmptyString
  | e :: events => String.append (delta_of k index content e) (streamed k index content events)
  end.

(** The text field of the part of a response that a kind of delta belongs to. *)
Definition shown (k : DeltaKind) (index content : Z) (response : ModelResponse) : option string :=
  item ← output_at response index;
  parts ← get (native item) "content" ≫= as_array;
  part ← parts !! Z.to_nat content;
  let '(t, f) := if bool_decide (k = DText) then ("output_text", "text") else ("refusal", "refusal") in
  if bool_decide ((get part "type" ≫= as_str) = Some t) then get part f ≫= as_str else None.

Definition part_at (index content : Z) (p : Part) : bool :=
  bool_decide (p_index p = index) && bool_decide (p_content p = content).
Definition text_at (k : DeltaKind) (index content : Z) (l : list Part) : string :=
  match find (part_at index content) l with
  | Some p => if bool_decide (p_kind p = k) then p_text p else EmptyString
  | None => EmptyString
  end.

Lemma push_part_text index content k delta l l' k' i c :
  push_part index content k delta l = Some l' ->
  text_at k' i c l' = String.append (text_at k' i c l)
    (if bool_decide (index = i) && bool_decide (content = c) && bool_decide (k = k') then delta else EmptyString).
Proof.
  unfold text_at. revert l'. induction l as [|p l IH]; intros l' Hp; simpl in Hp.
  - injection Hp as <-. simpl. unfold part_at. simpl. by repeat (case_bool_decide; simpl).
  - destruct (bool_decide (p_index p = index) && bool_decide (p_content p = content)) eqn:Ek.
    + prop_bools. subst. case_bool_decide as Hk; [|done]. injection Hp as <-. simpl. unfold part_at at 1 3. simpl.
      repeat (case_bool_decide; subst; simpl); rewrite ?append_empty; done.
    + destruct (push_part index content k delta l) as [l1|]; [|done]. injection Hp as <-. simpl.
      destruct (part_at i c p) eqn:Ep; [|by apply IH].
      unfold part_at in Ep. prop_bools. subst i c. rewrite (bool_decide_ext (index = p_index p) (p_index p = index)) by done.
      rewrite (bool_decide_ext (content = p_content p) (p_content p = content)) by done.
      by rewrite Ek, append_empty.
Qed.

(** The checks that only read or bound leave what was streamed alone. *)
Definition view (l : Lifecycle) : list Part * list (Z * Value) * Z := (l_parts l, l_finalized l, l_events l).

Lemma charge_view n v : guarded (fun l => view l = v) (fun _ => True) (charge n).
Proof. unfold charge, ensure_consistent. guard_auto. by apply guarded_modify. Qed.
Lemma track_identity_view i s v : guarded (fun l => view l = v) (fun _ => True) (track_identity i s).
Proof. unfold track_identity, ensure_consistent. guard_auto. by apply guarded_modify. Qed.
Lemma track_kind_view i k v : guarded (fun l => view l = v) (fun _ => True) (track_kind i k).
Proof. unfold track_kind, ensure_consistent. guard_auto. by apply guarded_modify. Qed.

Lemma yields_ensure P b : yields P (ensure_consistent b) (fun _ l => b = true /\ P l).
Proof. apply yields_lift. by destruct b. Qed.

(** Whether an item has to be found again in the response. *)
Definition tracked_kind (item : OutputItem) : bool :=
  bool_decide (kind item = KMessage) || bool_decide (kind item = KFunctionCall).

Lemma track_item_yields finished index item ps fs n :
  yields (fun l => view l = (ps, fs, n)) (track_item finished index item)
    (fun _ l => exists fs', view l = (ps, fs ++ fs', n) /\
       (finished = true -> tracked_kind item = true -> (index, native item) ∈ fs')).
Proof.
  unfold track_item. eapply yields_bind; [apply track_kind_view|]. intros ?.
  fold (tracked_kind item). destruct (tracked_kind item) eqn:Ek.
  2:{ apply yields_ret. intros l ->. exists []. by rewrite app_nil_r. }
  eapply yields_bind; [apply yields_ensure|]. intros ?. apply holds_pure. intros _.
  eapply yields_bind; [apply (guarded_lift _ (fun _ => True)); done|]. intros id.
  eapply yields_bind; [apply track_identity_view|]. intros ?.
  eapply yields_bind; [apply yields_ensure|]. intros ?. apply holds_pure. intros _.
  destruct finished; [|apply yields_ret; intros l ->; exists []; by rewrite app_nil_r].
  eapply yields_bind with (Q := fun t l => t = fs /\ view l = (ps, fs, n)).
  { apply yields_gets. intros l Hl. split; [by injection Hl | done]. }
  intros t. apply holds_pure. intros ->.
  eapply yields_bind; [apply yields_ensure|]. intros ?. apply holds_pure. intros _.
  eapply yields_bind; [apply yields_ensure|]. intros ?. apply holds_pure. intros _.
  apply yields_modify. intros l [= <- <- <-]. exists [(index, native item)]. split; [done|]. intros _ _. by left.
Qed.

Lemma track_text_yields index item content k delta ps fs n :
  yields (fun l => view l = (ps, fs, n)) (track_text index item content k delta)
    (fun _ l => exists ps', view l = (ps', fs, n) /\
       (delta = EmptyString /\ ps' = ps \/
        exists c, content = Some c /\ push_part index c k delta ps = Some ps')).
Proof.
  unfold track_text. destruct (str_is_empty delta) eqn:Ed.
  { apply yields_ret. intros l ->. apply str_is_empty_spec in Ed. eauto. }
  eapply yields_bind; [apply track_identity_view|]. intros ?.
  eapply yields_bind; [apply track_kind_view|]. intros ?.
  eapply yields_bind; [apply charge_view|]. intros ?.
  eapply yields_bind with (Q := fun c l => content = Some c /\ view l = (ps, fs, n)).
  { apply yields_lift. by intros c l ->%ok_or_Ok Hl. }
  intros c. apply holds_pure. intros ->.
  eapply yields_bind; [apply yields_ensure|]. intros ?. apply holds_pure. intros _.
  eapply yields_bind with (Q := fun t l => t = ps /\ view l = (ps, fs, n)).
  { apply yields_gets. intros l Hl. split; [by injection Hl | done]. }
  intros t. apply holds_pure. intros ->.
  eapply yields_bind with (Q := fun ps' l => push_part index c k delta ps = Some ps' /\ view l = (ps, fs, n)).
  { apply yields_lift. by intros ps' l ?%ok_or_Ok Hl. }
  intros ps'. apply holds_pure. intros Hps.
  eapply yields_bind with (Q := fun _ l => view l = (ps', fs, n)).
  { apply yields_modify. by intros l [= <- <- <-]. }
  intros ?. eapply yields_bind; [by apply (guarded_gets _ (fun _ => True))|]. intros r.
  apply yields_modify. intros l Hl. exists ps'. split; [exact Hl|]. right. eauto.
Qed.

(** What a lifecycle knows of the events it observed. *)
Record Seen (events : list ProviderEvent) (l : Lifecycle) : Prop := {
  seen_text : forall k i c, k = DText \/ k = DRefusal -> text_at k i c (l_parts l) = streamed k i c events;
  seen_finished : forall r i item, POutputItemFinished r i item ∈ events -> tracked_kind item = true ->
                    (i, native item) ∈ l_finalized l;
  seen_events : l_events l = Z.of_nat (length events);
  seen_bound : l_events l <= MAX_EVENTS
}.

Lemma streamed_snoc k i c events e :
  streamed k i c (events ++ [e]) = String.append (streamed k i c events) (delta_of k i c e).
Proof.
  induction events as [|e' events IH]; simpl; [by rewrite append_empty|]. by rewrite IH, append_assoc.
Qed.

(** The observed state after an event that adds the parts [ps'] and items [fs']. *)
Lemma Seen_snoc events e l l' ps' fs' :
  Seen events l -> Z.of_nat (length events) + 1 <= MAX_EVENTS ->
  view l' = (ps', l_finalized l ++ fs', l_events l + 1) ->
  (forall k i c, k = DText \/ k = DRefusal ->
     text_at k i c ps' = String.append (text_at k i c (l_parts l)) (delta_of k i c e)) ->
  (forall r i item, e = POutputItemFinished r i item -> tracked_kind item = true -> (i, native item) ∈ fs') ->
  Seen (events ++ [e]) l'.
Proof.
  intros [Ht Hf He Hb] Hn [= Hp Hfin Hev] Htext Hitem. split.
  - intros k i c Hk. rewrite Hp, Htext, Ht, streamed_snoc by done. done.
  - intros r i item Hin Hk. rewrite Hfin. apply elem_of_app.
    apply elem_of_app in Hin as [Hin|Hin%list_elem_of_singleton]; [left; eauto | right; eauto].
  - rewrite Hev, length_app, He. simpl. lia.
  - lia.
Qed.

Section seen.
Context `{EventSerde}.

Lemma track_yields events e : yields (Seen events) (track e) (fun _ => Seen (events ++ [e])).
Proof.
  intros l Hl. unfold track, gets, modify, bind at 1 2 3. cbn [ensure_consistent].
  unfold ensure_consistent, lift. destruct (Z.leb_spec (l_events l + 1) MAX_EVENTS) as [Hn|]; [|done].
  rewrite (seen_events _ _ Hl) in Hn.
  set (l1 := set_events (l_events l + 1) l).
  assert (view l1 = (l_parts l, l_finalized l, l_events l + 1)) as Hv by done.
  pose proof (fun k i c => append_empty (text_at k i c (l_parts l))) as Hsame.
  destruct e as [| | |r i item|r item i c sum k delta|r i item| | |];
    try (eapply Seen_snoc with (fs' := []); [done..|by rewrite app_nil_r|by intros; rewrite Hsame|done]).
  - eapply holds_bind; [apply charge_view | | exact Hv]. intros ?.
    eapply yields_conseq; [apply track_item_yields | intros ? Hs; exact Hs |]. intros _ l' (fs' & Hv' & _).
    eapply Seen_snoc; [done..|by intros; rewrite Hsame|done].
  - eapply holds_bind; [apply charge_view | | exact Hv]. intros ?.
    destruct (decide (k = DText \/ k = DRefusal)) as [Hk|Hk].
    2:{ assert (forall k' i' c', k' = DText \/ k' = DRefusal ->
                  delta_of k' i' c' (POutputItemUpdated r item i c sum k delta) = EmptyString) as Hno.
        { intros k' i' c' Hk'. simpl. destruct (bool_decide (k = k')) eqn:E; [prop_bools; by subst|].
          by rewrite andb_false_r. }
        destruct k; try (exfalso; tauto); (apply yields_ret; intros l' Hv';
          eapply Seen_snoc with (fs' := []); [done..|by rewrite app_nil_r|by intros; rewrite Hno, Hsame|done]). }
    eapply yields_conseq with (P' := fun l' => view l' = _); [|intros l' Hl'; exact Hl'|].
    { destruct Hk as [-> | ->]; apply (track_text_yields i item c). }
    intros _ l' (ps' & Hv' & Hps). eapply Seen_snoc with (fs' := []); [done..|by rewrite app_nil_r| |done].
    intros k' i' c' Hk'. destruct Hps as [[-> ->]|(c0 & -> & Hps)].
    + simpl. destruct (_ && _); by rewrite Hsame.
    + simpl. rewrite (push_part_text _ _ _ _ _ _ _ _ _ Hps).
      by rewrite (bool_decide_ext (Some c0 = Some c') (c0 = c')) by (split; congruence).
  - eapply holds_bind; [apply charge_view | | exact Hv]. intros ?.
    eapply yields_conseq; [apply track_item_yields | intros ? Hs; exact Hs |]. intros _ l' (fs' & Hv' & Hin).
    eapply Seen_snoc; [done..|by intros; rewrite Hsame|]. intros ? ? ? [= <- <- <-]. auto.
Qed.

Lemma track_all_yields before events : yields (Seen before) (track_all events) (fun _ => Seen (before ++ events)).
Proof.
  revert before. induction events as [|e events IH]; intros before; simpl.
  - apply yields_ret. by rewrite app_nil_r.
  - eapply yields_bind; [apply track_yields|]. intros ?.
    replace (before ++ e :: events) with ((before ++ [e]) ++ events) by by rewrite <- app_assoc. apply IH.
Qed.

Lemma new_seen : Seen [] new_lifecycle.
Proof. split; [done | by intros ? ? ? ?%elem_of_nil | done | done]. Qed.
End seen.

Lemma has_prefix_spec p s : has_prefix p s = true <-> exists rest, s = String.append p rest.
Proof.
  unfold has_prefix. destruct (strip_prefix p s) as [rest|] eqn:E; simpl.
  - apply strip_prefix_Some in E. split; eauto.
  - split; [done|]. intros [rest Hr]. apply strip_prefix_Some in Hr. congruence.
Qed.

Lemma confirm_spec l response :
  confirm l response = Ok tt -> outcome response = RCompleted ->
  (forall i v, (i, v) ∈ l_finalized l ->
     exists item, output_at response i = Some item /\ value_eqb (native item) v = true) /\
  (forall p, p ∈ l_parts l -> part_confirmed l response p = true).
Proof.
  unfold confirm. intros Hc Ho. rewrite bool_decide_eq_true_2 in Hc by done. simpl in Hc.
  destruct (_ && _) eqn:E in Hc; [|done]. apply andb_true_iff in E as [Hf Hp].
  rewrite forallb_forall in Hf, Hp. split.
  - intros i v Hin%list_elem_of_In. specialize (Hf _ Hin). simpl in Hf.
    destruct (output_at response i) as [item|]; [eauto|done].
  - intros p Hin%list_elem_of_In. by apply Hp.
Qed.

Lemma part_confirmed_shown l response p :
  part_confirmed l response p = true ->
  exists rest, shown (p_kind p) (p_index p) (p_content p) response = Some (String.append (p_text p) rest).
Proof.
  unfold part_confirmed, shown. destruct (output_at response (p_index p)) as [item|]; [|done].
  intros [_ Hm]%andb_true_iff. simpl. destruct (get (native item) "content" ≫= as_array) as [parts|]; [|done].
  simpl in *. destruct (parts !! Z.to_nat (p_content p)) as [part|]; [|done]. simpl in *.
  destruct (bool_decide (p_kind p = DText)); apply andb_true_iff in Hm as [-> Hs]; simpl;
    (destruct (get part _ ≫= as_str) as [s|]; [|done]); apply has_prefix_spec in Hs as [rest ->]; eauto.
Qed.

(** Everything streamed is in the response. *)
Definition confirmed (events : list ProviderEvent) (response : ModelResponse) : Prop :=
  (forall k i c, k = DText \/ k = DRefusal -> streamed k i c events <> EmptyString ->
     exists rest, shown k i c response = Some (String.append (streamed k i c events) rest)) /\
  (forall r i item, POutputItemFinished r i item ∈ events -> tracked_kind item = true ->
     exists final, output_at response i = Some final /\ value_eqb (native final) (native item) = true).

Lemma Seen_confirmed events l response :
  Seen events l -> confirm l response = Ok tt -> outcome response = RCompleted -> confirmed events response.
Proof.
  intros [Hs Hf He Hb] Hc Ho. destruct (confirm_spec l response Hc Ho) as [Hfin Hparts].
  split; [|eauto].
  intros k i c Hk Hne. rewrite <- Hs in * by done. unfold text_at in *.
  destruct (find (part_at i c) (l_parts l)) as [p|] eqn:Ef; [|done].
  case_bool_decide as Hp; [|done]. apply find_some in Ef as [Hin%list_elem_of_In Hat].
  unfold part_at in Hat. prop_bools. subst. by apply part_confirmed_shown with l, Hparts.
Qed.
