(* ===== verification/CodexState.v ===== *)
(** * The conversation of a provider session
    (src/src/providers/openai_codex/state.rs, replay.rs, mod.rs)

    A session keeps the native items of its conversation, the calls that still need
    a result and the last response; a request is built from them for either
    transport.  A stored conversation compiles to the same native items. *)
From S2P Require Import Prelude Json Errors Identifiers Provider Replay Finalized Codec.

Record Conversation : Type := mkConversation {
  cv_history : list Value;
  cv_last_response : option string;
  cv_pending_calls : gset string;
  cv_advanced_output : bool;
  cv_settled_ids : gset string
}.
Definition default_conversation : Conversation := mkConversation [] None ∅ false ∅.

Definition native_input (input : InputItem) : Value :=
  match input with
  | User t => object [("role", VString "user");
                      ("content", VArray [object [("type", VString "input_text"); ("text", VString t)]])]
  | ToolResult id out => object [("type", VString "function_call_output"); ("call_id", VString id); ("output", VString out)]
  end.

Definition context_limit : GatewayError :=
  InvalidRequest "session context limit reached; this milestone has no automatic compaction".

Definition native_tool (t : ToolDefinition) : Value :=
  object [("type", VString "function"); ("name", VString (td_name t)); ("description", VString (td_description t));
          ("parameters", td_parameters t); ("strict", VBool (td_strict t))].

(** The loop of [prepare] over the input. *)
Fixpoint supplied_results (pending supplied : gset string) (input : list InputItem) : result (gset string) GatewayError :=
  match input with
  | [] => Ok supplied
  | User _ :: input => supplied_results pending supplied input
  | ToolResult id _ :: input =>
      if negb (bool_decide (id ∈ pending)) || bool_decide (id ∈ supplied)
      then Err (InvalidRequest "unknown or duplicate tool result")
      else supplied_results pending ({[id]} ∪ supplied) input
  end.

(** The loop of [settle] over the output. *)
Fixpoint settle_items (pending : gset string) (advanced : bool) (items : list OutputItem)
  : result (gset string * bool) GatewayError :=
  match items with
  | [] => Ok (pending, advanced)
  | item :: items =>
      match kind item with
      | KMessage | KReasoning => settle_items pending advanced items
      | KFunctionCall =>
          if negb (is_some_and (function_call item) complete) then settle_items pending true items
          else
            let? id := match get (native item) "call_id" ≫= as_str with
                       | Some id => if str_is_empty id then Err (Protocol "function call has no call_id") else Ok id
                       | None => Err (Protocol "function call has no call_id")
                       end in
            if bool_decide (id ∈ pending) then Err (Protocol "duplicate call_id")
            else
              let advanced := advanced
                || is_some_and (get (native item) "caller")
                     (fun c => negb (is_null c) && negb (bool_decide ((get c "type" ≫= as_str) = Some "direct")))
                || is_some_and (get (native item) "namespace") (fun v => negb (is_null v)) in
              settle_items ({[id]} ∪ pending) advanced items
      | _ => settle_items pending true items
      end
  end.

Section conversation.
Context `{SerdeJson} `{ProviderSerde}.

Definition check_history (history : list Value) : result unit GatewayError :=
  if 2048 <? Z.of_nat (length history) then Err context_limit
  else
    let? text := ok_or (to_string (VArray history)) Serialization in
    if MAX_HISTORY_BYTES <? len text then Err context_limit else Ok tt.

(** The request before the choice of transport. *)
Definition request_body (options : SessionOptions) (full_input : list Value) : Value :=
  object
    [("model", VString (model options));
     ("instructions", VString (instructions options));
     ("store", VBool false);
     ("tools", VArray (native_tool <$> tools options));
     ("tool_choice", VString (match tools options with [] => "none" | _ => "auto" end));
     ("parallel_tool_calls", VBool true);
     ("include", VArray [VString "reasoning.encrypted_content"]);
     ("input", VArray full_input)].

(** [Conversation::prepare]. *)
Definition prepare (c : Conversation) (options : SessionOptions) (input : list InputItem)
  : result (Value * list Value) GatewayError :=
  check? validate_input input in
  if cv_advanced_output c then Err UnsupportedOutput
  else
    let? supplied := supplied_results (cv_pending_calls c) ∅ input in
    if negb (bool_decide (supplied = cv_pending_calls c))
    then Err (InvalidRequest "supply exactly the outstanding tool results before continuing")
    else
      let delta := native_input <$> input in
      let full_input := cv_history c ++ delta in
      check? check_history full_input in
      let body := request_body options full_input in
      let body :=
        match transport options with
        | WebSocket =>
            let body := set_field "type" (VString "response.create") body in
            match cv_last_response c with
            | Some id => set_field "input" (VArray delta) (set_field "previous_response_id" (VString id) body)
            | None => body
            end
        | Sse => set_field "stream" (VBool true) body
        end in
      Ok (body, full_input).

(** [Conversation::settle]. *)
Definition settle (full_input : list Value) (response : ModelResponse) : SM Conversation GatewayError unit :=
  fun c =>
    if negb (bool_decide (outcome response = RCompleted)) then (Ok tt, c)
    else if bool_decide (response_id response ∈ cv_settled_ids c) then (Err (Protocol "response ID reused"), c)
    else
      match settle_items ∅ false (output response) with
      | Err e => (Err e, c)
      | Ok (pending, advanced) =>
          let history := full_input ++ (native <$> output response) in
          match check_history history with
          | Err e => (Err e, c)
          | Ok _ => (Ok tt, mkConversation history (Some (response_id response)) pending advanced
                              ({[response_id response]} ∪ cv_settled_ids c))
          end
      end.
End conversation.

(** ** Stored conversations *)
Definition FORMAT : string := "responses-input-v1".

(** [OpenAiCodexProvider::capability_report]. *)
Definition capability_report : ProviderCapabilities :=
  let implemented := {| implemented := true; verification := "source_implemented_live_unverified" |} in
  {| websocket := implemented; sse := implemented; continuation := implemented; function_tools := implemented;
     advanced := (fun f => {| feature := f;
                              capability := {| implemented := false;
                                verification := "not_implemented_subscription_support_unverified" |} |})
                 <$> [NativeSteering; ToolSearch; ProgrammaticTools; AsyncTools] |}.

(** [serde_json::to_value] of a response. *)
Class ResponseSerde := { response_value : ModelResponse -> option Value }.

Definition inconsistent_replay : GatewayError := Protocol "inconsistent native replay response".

Definition set_provenance_native (p : OutputProvenance) (v : Value) (r : ModelResponse) : ModelResponse :=
  {| output_provenance := p; response_id := response_id r; response_model := response_model r;
     outcome := outcome r; output := output r; text := text r; usage := usage r; response_native := v |}.

Section compile.
Context `{SerdeJson} `{ProviderSerde} `{ResponseSerde}.

(** The items of a stored response: ordinary, with distinct identities. *)
Fixpoint replay_items (ids : gset string) (items : list OutputItem) : result unit GatewayError :=
  match items with
  | [] => Ok tt
  | item :: items =>
      let? _ := ok_or (ordinary_item (native item)) inconsistent_replay in
      match get (native item) "id" with
      | None => replay_items ids items
      | Some v =>
          match as_str v with
          | None => Err inconsistent_replay
          | Some id =>
              if str_is_empty id || bool_decide (id ∈ ids) then Err inconsistent_replay
              else replay_items ({[id]} ∪ ids) items
          end
      end
  end.

(** [validate_response]. *)
Definition validate_stored (response : ModelResponse) : result unit GatewayError :=
  let? parsed := parse_response (response_native response) in
  let? parsed :=
    match output_provenance response with
    | NativeTerminal => Ok parsed
    | ValidatedOutputItemDone =>
        if (match output parsed with [] => false | _ => true end)
           || (match output response with [] => true | _ => false end)
        then Err inconsistent_replay
        else if negb (forallb (fun item => is_some (complete_item (native item))) (output response))
        then Err inconsistent_replay
        else
          let? effective := parse_response (set_field "output" (VArray (native <$> output response)) (response_native response)) in
          Ok (set_provenance_native ValidatedOutputItemDone (response_native response) effective)
    end in
  check? replay_items ∅ (output parsed) in
  check? Replay.validate_response parsed in
  let? a := ok_or (response_value parsed) Serialization in
  let? b := ok_or (response_value response) Serialization in
  if value_eqb a b then Ok tt else Err inconsistent_replay.

(** The inner loop of [compile]. *)
Fixpoint compile_exchanges (ids : gset string) (history : list Value) (exchanges : list ReplayExchange)
  : result (list Value) GatewayError :=
  match exchanges with
  | [] => Ok history
  | x :: exchanges =>
      let response := re_response x in
      if bool_decide (response_id response ∈ ids) then Err (Protocol "response ID reused")
      else
        check? validate_stored response in
        compile_exchanges ({[response_id response]} ∪ ids)
          ((history ++ (native <$> output response)) ++ (native_input <$> re_tool_results x)) exchanges
  end.
Fixpoint compile_runs (history : list Value) (runs : list ReplayRun) : result (list Value) GatewayError :=
  match runs with
  | [] => Ok history
  | run :: runs =>
      let? history := compile_exchanges ∅ (history ++ [native_input (User (rr_prepared_prompt run))]) (rr_exchanges run) in
      compile_runs history runs
  end.

(** [compile]. *)
Definition compile (options : SessionOptions) (replay : ConversationReplay) : result (list Value) GatewayError :=
  check? validate_options options in
  check? require capability_report (required_features options) in
  if negb (cr_version replay =? 1)
     || negb (bool_decide (cr_provider_id replay = PROVIDER_ID))
     || negb (bool_decide (cr_requested_model replay = model options))
     || is_some_and (cr_expected_identity replay)
          (fun i => negb (bool_decide (ri_provider_id i = PROVIDER_ID)) || negb (bool_decide (ri_format i = FORMAT)))
  then Err (InvalidRequest "incompatible conversation replay")
  else
    let? history := compile_runs [] (cr_runs replay) in
    check? check_history history in
    Ok history.

(** [Conversation::from_replay]. *)
Definition from_replay (options : SessionOptions) (replay : ConversationReplay) : result Conversation GatewayError :=
  let? history := compile options replay in Ok (mkConversation history None ∅ false ∅).

(** [validate_replay] of the provider. *)
Definition codex_validate_replay (options : SessionOptions) (replay : ConversationReplay) (new_input : list InputItem)
  : result unit GatewayError :=
  check? validate_input new_input in
  let? c := from_replay options replay in
  check? prepare c options new_input in Ok tt.
End compile.
