(* ===== verification/Continuation.v ===== *)
(** * What a request tells the model

    A WebSocket request names the previous response and sends only the new items;
    an SSE request sends everything.  Both mean the whole conversation, live or
    restored, and ask for exactly the results that are outstanding. *)
From S2P Require Import Prelude Json Errors Identifiers Provider Replay Finalized Codec CodexState.

(** ** Meaning of a request

    What the other side knows: for every response, the items that led to it and its
    own.  A request with a parent extends what the parent knows. *)
Notation Known := (gmap string (list Value)).

Definition request_context (known : Known) (body : Value) : option (list Value) :=
  input ← get body "input" ≫= as_array;
  match get body "previous_response_id" with
  | Some id => id ← as_str id; before ← known !! id; Some (before ++ input)
  | None => Some input
  end.

(** A turn: an input and the response it got. *)
Notation Turn := (list InputItem * ModelResponse)%type.
Definition turn_items (t : Turn) : list Value := (native_input <$> fst t) ++ (native <$> output (snd t)).
Definition turns_items (ts : list Turn) : list Value := concat (turn_items <$> ts).

Lemma turns_items_app ts ts' : turns_items (ts ++ ts') = turns_items ts ++ turns_items ts'.
Proof. unfold turns_items. by rewrite fmap_app, concat_app. Qed.
Lemma turns_items_cons input response ts :
  turns_items ((input, response) :: ts) = (native_input <$> input) ++ (native <$> output response) ++ turns_items ts.
Proof. exact (eq_sym (app_assoc _ _ _)). Qed.

Section conversed.
Context `{SerdeJson} `{ProviderSerde}.

(** A session that started with the items [base] and settled the turns [ts]. *)
Inductive conversed (options : SessionOptions) (base : list Value) : list Turn -> Conversation -> Known -> Prop :=
| conversed_start c :
    cv_history c = base -> cv_last_response c = None -> conversed options base [] c ∅
| conversed_turn ts c known input body full context response c' :
    conversed options base ts c known ->
    prepare c options input = Ok (body, full) ->
    request_context known body = Some context ->
    outcome response = RCompleted ->
    settle full response c = (Ok tt, c') ->
    conversed options base (ts ++ [(input, response)]) c'
      (<[response_id response := context ++ (native <$> output response)]> known).

Lemma prepare_spec c options input body full :
  prepare c options input = Ok (body, full) ->
  full = cv_history c ++ (native_input <$> input) /\
  (get body "input" = Some (VArray full) /\ get body "previous_response_id" = None \/
   exists id, cv_last_response c = Some id /\ get body "input" = Some (VArray (native_input <$> input)) /\
              get body "previous_response_id" = Some (VString id)).
Proof.
  unfold prepare. intros Hp. destruct (validate_input input); [|done]. destruct (cv_advanced_output c); [done|].
  destruct (supplied_results _ _ _); [|done]. destruct (negb _); [done|]. destruct (check_history _); [|done].
  injection Hp as <- <-. split; [done|].
  destruct (transport options); [destruct (cv_last_response c) as [id|]|]; [right; by exists id | by left..].
Qed.

Lemma settle_spec full response c c' :
  settle full response c = (Ok tt, c') -> outcome response = RCompleted ->
  settle_items ∅ false (output response) = Ok (cv_pending_calls c', cv_advanced_output c') /\
  cv_history c' = full ++ (native <$> output response) /\ cv_last_response c' = Some (response_id response) /\
  response_id response ∉ cv_settled_ids c.
Proof.
  unfold settle. intros Hs Ho. rewrite bool_decide_eq_true_2 in Hs by done. simpl in Hs.
  case_bool_decide; [done|]. destruct (settle_items _ _ _) as [[p a]|]; [|done].
  destruct (check_history _); [|done]. by injection Hs as <-.
Qed.

(** The parent knows the history, and the history is the turns. *)
Lemma conversed_known options base ts c known :
  conversed options base ts c known ->
  cv_history c = base ++ turns_items ts /\
  (forall id, cv_last_response c = Some id -> known !! id = Some (cv_history c)).
Proof.
  induction 1 as [c Hb Hl|ts c known input body full context response c' Hc [IHh IHk] Hp Hx Ho Hs].
  - split; [by rewrite app_nil_r|]. intros id E. congruence.
  - apply settle_spec in Hs as (_ & Hh & Hl & _); [|done].
    apply prepare_spec in Hp as [-> Hbody].
    assert (context = cv_history c ++ (native_input <$> input)) as ->.
    { unfold request_context in Hx. destruct Hbody as [[Hi Hn]|(id & Hid & Hi & Hn)]; rewrite Hi, Hn in Hx; simpl in Hx.
      - by injection Hx as <-.
      - rewrite (IHk id Hid) in Hx. by injection Hx as <-. }
    split.
    + by rewrite Hh, IHh, turns_items_app, turns_items_cons, app_nil_r, !app_assoc.
    + intros id E. rewrite Hl in E. injection E as <-. by rewrite Hh, lookup_insert_eq.
Qed.

(** What a prepared request means. *)
Lemma prepare_context options base ts c known input body full :
  conversed options base ts c known -> prepare c options input = Ok (body, full) ->
  full = base ++ turns_items ts ++ (native_input <$> input) /\ request_context known body = Some full.
Proof.
  intros Hc Hp. apply conversed_known in Hc as [Hh Hk]. apply prepare_spec in Hp as [-> Hbody].
  split; [by rewrite Hh, app_assoc|].
  unfold request_context. destruct Hbody as [[-> ->]|(id & Hid & -> & ->)]; simpl; [done|]. by rewrite (Hk id Hid).
Qed.

(** C9. On either transport a request means the whole conversation: read with what
    the other side knows of the previous response, it stands for the items the
    session started with, every input and output since in order, and the new
    input. *)
Theorem request_means_history options base ts c known input body full :
  conversed options base ts c known ->
  prepare c options input = Ok (body, full) ->
  request_context known body = Some (base ++ turns_items ts ++ (native_input <$> input)).
Proof. intros Hc Hp. by destruct (prepare_context _ _ _ _ _ _ _ _ Hc Hp) as [-> ?]. Qed.

End conversed.

(** ** Restored conversations

    The turns a live session would have had: the results of an exchange go with the
    next response, those of the last one with the next prompt. *)
Fixpoint exchange_turns (input : list InputItem) (xs : list ReplayExchange) : list Turn * list InputItem :=
  match xs with
  | [] => ([], input)
  | x :: xs => let '(ts, rest) := exchange_turns (re_tool_results x) xs in ((input, re_response x) :: ts, rest)
  end.
Fixpoint run_turns (input : list InputItem) (runs : list ReplayRun) : list Turn * list InputItem :=
  match runs with
  | [] => ([], input)
  | run :: runs =>
      let '(ts, rest) := exchange_turns (input ++ [User (rr_prepared_prompt run)]) (rr_exchanges run) in
      let '(ts', rest) := run_turns rest runs in (ts ++ ts', rest)
  end.

Section restored.
Context `{SerdeJson} `{ProviderSerde} `{ResponseSerde}.

Lemma compile_exchanges_turns ids base input xs h ts rest :
  compile_exchanges ids (base ++ (native_input <$> input)) xs = Ok h ->
  exchange_turns input xs = (ts, rest) -> h = base ++ turns_items ts ++ (native_input <$> rest).
Proof.
  revert ids base input ts. induction xs as [|x xs IH]; intros ids base input ts Hc Ht; simpl in *.
  - by simplify_eq.
  - destruct (bool_decide _); [done|]. destruct (validate_stored _); [|done].
    destruct (exchange_turns (re_tool_results x) xs) as [ts1 rest1] eqn:E. injection Ht as <- <-.
    apply (IH _ ((base ++ (native_input <$> input)) ++ (native <$> output (re_response x)))) with (ts := ts1) in Hc as ->; [|done].
    by rewrite turns_items_cons, <- !app_assoc.
Qed.

Lemma compile_runs_turns base input runs h ts rest :
  compile_runs (base ++ (native_input <$> input)) runs = Ok h ->
  run_turns input runs = (ts, rest) -> h = base ++ turns_items ts ++ (native_input <$> rest).
Proof.
  revert base input ts. induction runs as [|run runs IH]; intros base input ts Hc Ht; cbn [compile_runs run_turns] in *.
  - by simplify_eq.
  - destruct (compile_exchanges _ _ _) as [h1|] eqn:E; [|done].
    destruct (exchange_turns _ _) as [ts1 rest1] eqn:E1. destruct (run_turns rest1 runs) as [ts2 rest2] eqn:E2.
    injection Ht as <- <-.
    rewrite <- app_assoc in E. change [native_input (User ?p)] with (native_input <$> [User p]) in E. rewrite <- fmap_app in E.
    eapply compile_exchanges_turns in E as Hh; [|exact E1]. rewrite Hh, app_assoc in Hc.
    eapply IH in Hc as ->; [|exact E2].
    by rewrite turns_items_app, !app_assoc.
Qed.

(** C8. A restored session continues where the live one would have: when the turns
    of a stored conversation were held live, the next request of the live session and
    of one restored from the store mean the same items, whatever transport either
    uses. *)
Theorem restored_continues_live options live_options replay c ts rest live known input body full body' full' :
  from_replay options replay = Ok c ->
  run_turns [] (cr_runs replay) = (ts, rest) ->
  conversed live_options [] ts live known ->
  prepare live live_options (rest ++ input) = Ok (body, full) ->
  prepare c options input = Ok (body', full') ->
  full' = full /\ request_context known body = Some full /\ request_context ∅ body' = Some full.
Proof.
  unfold from_replay. intros Hr Ht Hc Hp Hp'.
  destruct (compile options replay) as [h|] eqn:Eh; [|done]. injection Hr as <-.
  destruct (prepare_context _ _ _ _ _ _ _ _ Hc Hp) as [Hfull Hctx].
  destruct (prepare_context options h [] (mkConversation h None ∅ false ∅) ∅ _ _ _ ltac:(by constructor) Hp')
    as [Hfull' Hctx'].
  assert (h = turns_items ts ++ (native_input <$> rest)) as ->.
  { unfold compile in Eh. destruct (validate_options options); [|done]. destruct (require _ _); [|done].
    destruct (_ || _); [done|]. destruct (compile_runs [] _) as [h'|] eqn:E; [|done].
    destruct (check_history h'); [|done]. injection Eh as <-.
    by apply (compile_runs_turns [] []) with (ts := ts) (rest := rest) in E. }
  assert (full' = full) as ->.
  { rewrite Hfull, Hfull'. simpl. by rewrite fmap_app, <- app_assoc. }
  done.
Qed.
End restored.

(** ** Outstanding results *)
Definition result_ids (input : list InputItem) : list string :=
  omap (fun i => match i with ToolResult id _ => Some id | User _ => None end) input.

(** The calls of a response that can be answered, by their native ids. *)
Definition answerable (item : OutputItem) : bool :=
  bool_decide (kind item = KFunctionCall) && is_some_and (function_call item) complete.
Definition call_ids (items : list OutputItem) : list string :=
  omap (fun item => if answerable item then get (native item) "call_id" ≫= as_str else None) items.

(** Output this client cannot continue from. *)
Definition beyond (item : OutputItem) : bool :=
  match kind item with
  | KMessage | KReasoning => false
  | KFunctionCall =>
      negb (is_some_and (function_call item) complete)
      || is_some_and (get (native item) "caller")
           (fun c => negb (is_null c) && negb (bool_decide ((get c "type" ≫= as_str) = Some "direct")))
      || is_some_and (get (native item) "namespace") (fun v => negb (is_null v))
  | _ => true
  end.

Lemma settle_items_spec pending advanced items p a :
  settle_items pending advanced items = Ok (p, a) ->
  p = pending ∪ list_to_set (call_ids items) /\ NoDup (call_ids items) /\
  (forall id, id ∈ call_ids items -> id ∉ pending) /\ a = advanced || existsb beyond items.
Proof.
  revert pending advanced. induction items as [|item items IH]; intros pending advanced Hs.
  { simpl in Hs. injection Hs as <- <-. simpl. rewrite orb_false_r. repeat split; [set_solver|constructor|set_solver]. }
  assert (forall a0 b, settle_items pending a0 items = Ok (p, a) -> answerable item = false -> a0 = advanced || b -> beyond item = b ->
            p = pending ∪ list_to_set (call_ids (item :: items)) /\ NoDup (call_ids (item :: items)) /\
            (forall id, id ∈ call_ids (item :: items) -> id ∉ pending) /\ a = advanced || existsb beyond (item :: items)) as Hskip.
  { intros a0 b Hs' Ha -> <-. apply IH in Hs' as (Hp & Hn & Hd & Hadv).
    unfold call_ids. cbn [omap list_omap]. rewrite Ha. fold (call_ids items). simpl. by rewrite orb_assoc. }
  unfold answerable, beyond in Hskip. simpl in Hs.
  destruct (kind item) eqn:Ek; try (eapply Hskip; [exact Hs|done| |reflexivity]; by rewrite ?orb_false_r, ?orb_true_r).
  destruct (is_some_and (function_call item) complete) eqn:Ec; simpl in Hs.
  2:{ eapply Hskip; [exact Hs|done| |reflexivity]. by rewrite orb_true_r. }
  clear Hskip. destruct (get (native item) "call_id" ≫= as_str) as [id|] eqn:Eid; [|done].
  destruct (str_is_empty id); [done|]. case_bool_decide as Hin; [done|].
  apply IH in Hs as (-> & Hn & Hd & ->).
  assert (call_ids (item :: items) = id :: call_ids items) as ->.
  { unfold call_ids. cbn [omap list_omap]. unfold answerable at 1. by rewrite Ek, bool_decide_eq_true_2, Ec, Eid. }
  repeat split.
  - simpl. set_solver.
  - constructor; [|done]. intros Hid. apply (Hd id Hid). set_solver.
  - intros x [-> |Hx]%elem_of_cons; [done|]. intros Hp. apply (Hd x Hx). set_solver.
  - simpl. unfold beyond at 2. rewrite Ek, Ec. simpl. by rewrite !orb_assoc.
Qed.

Lemma supplied_results_spec pending supplied input s :
  supplied_results pending supplied input = Ok s <->
  s = supplied ∪ list_to_set (result_ids input) /\ NoDup (result_ids input) /\
  Forall (fun id => id ∈ pending /\ id ∉ supplied) (result_ids input).
Proof.
  revert supplied. induction input as [|[t|id out] input IH]; intros supplied; simpl.
  - split; [intros [= <-]|intros (-> & _)]; [|f_equal; set_solver]. repeat split; [set_solver|constructor..].
  - apply IH.
  - fold (result_ids input). change (result_ids (ToolResult id out :: input)) with (id :: result_ids input).
    rewrite NoDup_cons, Forall_cons.
    destruct (decide (id ∈ pending)) as [Hp|Hp];
      [rewrite (bool_decide_eq_true_2 (id ∈ pending)) by done | rewrite (bool_decide_eq_false_2 (id ∈ pending)) by done];
      simpl; [|split; [done | tauto]].
    destruct (decide (id ∈ supplied)) as [Hs|Hs];
      [rewrite bool_decide_eq_true_2 by done; split; [done | tauto] | rewrite bool_decide_eq_false_2 by done].
    rewrite IH, !Forall_forall. simpl. split.
    + intros (-> & Hn & Hd). split; [set_solver|]. split; [split; [|done]|split; [done|intros x Hx]].
      * intros Hid. destruct (Hd id Hid). set_solver.
      * destruct (Hd _ Hx). set_solver.
    + intros (-> & [Hni Hn] & _ & Hd). split; [set_solver|]. split; [done|]. intros x Hx. split.
      * by destruct (Hd x).
      * intros [->%elem_of_singleton|?]%elem_of_union; [done|]. by destruct (Hd x).
Qed.

Section outstanding.
Context `{SerdeJson} `{ProviderSerde}.

Lemma prepare_Ok c options input :
  is_ok (prepare c options input) = true <->
  validate_input input = Ok tt /\ cv_advanced_output c = false /\
  NoDup (result_ids input) /\ list_to_set (result_ids input) = cv_pending_calls c /\
  check_history (cv_history c ++ (native_input <$> input)) = Ok tt.
Proof.
  unfold prepare. destruct (validate_input input) as [[]|]; [|naive_solver].
  destruct (cv_advanced_output c); [naive_solver|].
  destruct (supplied_results _ _ _) as [s|e] eqn:Es.
  - apply supplied_results_spec in Es as (-> & Hn & HF). rewrite union_empty_l_L.
    case_bool_decide as Hp; simpl; [|naive_solver].
    destruct (check_history _) as [[]|]; simpl; naive_solver.
  - split; [done|]. intros (_ & _ & Hn & Hp & _).
    enough (supplied_results (cv_pending_calls c) ∅ input = Ok (∅ ∪ list_to_set (result_ids input))) by congruence.
    apply supplied_results_spec. rewrite <- Hp, Forall_forall. set_solver.
Qed.

(** After a completed response the next request is accepted exactly when it is a
    valid input, the response holds nothing this client cannot continue from, every
    answerable call of the response has exactly one result in it, no other call has
    one, and the context still fits. *)
Lemma outstanding_results_exact full response c c' options input :
  settle full response c = (Ok tt, c') ->
  outcome response = RCompleted ->
  is_ok (prepare c' options input) = true <->
  validate_input input = Ok tt /\
  existsb beyond (output response) = false /\
  result_ids input ≡ₚ call_ids (output response) /\
  check_history (full ++ (native <$> output response) ++ (native_input <$> input)) = Ok tt.
Proof.
  intros Hs Ho. apply settle_spec in Hs as (Hi & Hh & _); [|done].
  apply settle_items_spec in Hi as (Hp & Hn & _ & Ha). simpl in Ha. rewrite union_empty_l_L in Hp.
  rewrite prepare_Ok, Ha, Hp, Hh, <- app_assoc.
  enough (NoDup (result_ids input) /\ (list_to_set (result_ids input) : gset string) = list_to_set (call_ids (output response))
          <-> result_ids input ≡ₚ call_ids (output response)) by tauto.
  split.
  - intros [Hr Heq]. apply NoDup_Permutation; [done..|]. intros x. by rewrite <- !(elem_of_list_to_set (C := gset string)), Heq.
  - intros Hperm. by rewrite Hperm.
Qed.
End outstanding.
