(* ===== verification/CodexSession.v ===== *)
(** * A provider session (src/src/providers/openai_codex/session.rs)

    The worker of a session: it takes one command at a time, drives a request over
    the wire, publishes the events of the response and settles it.  The wire, the
    clock, the cancellation token and the consumer of the events are the class
    [CodexWorld]; a theorem about the worker holds for all of their behaviours.

    The loop of [drive] takes fuel, one unit per message of the provider. *)
From S2P Require Import Prelude Json Errors Identifiers Provider Replay Finalized Codec Consistency CodexState.

(** [GatewayError]'s [Display]; the text of an [io::ErrorKind] is the standard library's. *)
Class KindText := { kind_text : ErrorKind -> string }.

Definition option_text (o : option Z) : string :=
  match o with
  | Some n => String.append "Some(" (String.append (decimal n) ")")
  | None => "None"
  end.

Definition error_message `{KindText} (e : GatewayError) : string :=
  match e with
  | InvalidRequest what => String.append "invalid request: " what
  | UnknownProvider => "provider not registered"
  | DuplicateProvider => "provider already registered"
  | UnsupportedFeature what => String.append "feature not implemented by this adapter: " what
  | Busy => "session already has an accepted request; finish it before submitting another"
  | SessionClosed => "session is closed; create a new session explicitly"
  | HomeUnavailable => "home directory unavailable; pass --auth-file"
  | AuthRead k => String.append "cannot read credential file (" (String.append (kind_text k)
      "); sign in with Codex/Pi; keyring-only storage is not supported by the file reader")
  | AuthFileType => "credentials must be in a regular, non-symlink file"
  | AuthFileTooLarge => "credential file exceeds 1 MiB"
  | AuthPermissions => "credential file allows group/other access; restrict to your user (chmod 600 on Unix)"
  | InvalidAuth what => String.append "invalid subscription credentials: " what
  | AuthExpired => "login expired or expires within 30 seconds; renew Wi-managed credentials through Wi, or external credentials through Codex/Pi; then open a new provider session; established WebSockets cannot renew in place"
  | AuthAccountChanged => "credential account changed during this session; open a new session explicitly"
  | Clock => "clock is before the Unix epoch"
  | ClientConfiguration => "could not configure the HTTP/TLS client"
  | Timeout => "provider transport timed out; no automatic retry"
  | TransportError => "provider transport failed; no automatic retry"
  | Unauthorized => "OpenAI rejected the login (401); refresh in the originating client"
  | Forbidden => "OpenAI denied access (403); check the account and model entitlement"
  | RateLimited after => String.append "provider rate/usage limit (429); retry-after seconds: " (option_text after)
  | Http status => String.append "provider returned HTTP " (String.append (decimal status) "; body withheld")
  | UnexpectedContentType => "expected text/event-stream"
  | Protocol what => String.append "invalid provider protocol: " what
  | ProviderFailed => "provider rejected the request; error details withheld"
  | UnexpectedEnd => "provider stream ended without a terminal response"
  | StreamTooLarge => "provider output exceeds the configured safety limit"
  | SlowConsumer => "event consumer is too slow; session closed without retry"
  | Cancelled => "locally interrupted; upstream execution may still be running"
  | UnsupportedOutput => "unsupported output; no unknown tool/program is executed"
  | NotCompleted => "response is not completed; tools must not execute"
  | UnknownTool => "tool is not in the explicitly registered allowlist"
  | InvalidToolArguments => "tool arguments failed local validation"
  | ToolFailed => "tool failed; details withheld"
  | NoToolCall => "demo expected a tool call but the model did not request one"
  | TurnLimit => "demo exceeded its bounded tool-round-trip limit"
  | IoError k => String.append "local I/O failed (" (String.append (kind_text k) ")")
  | Serialization => "could not serialize data"
  end.

(** ** The surroundings *)

(** What an awaited operation comes to: an answer, the cancellation of the session,
    the timeout of the operation, or the deadline of the whole request. *)
Inductive Awaited (A : Type) : Type :=
| Ready (a : A)
| WhenCancelled
| IdleElapsed
| DeadlinePassed.
Arguments Ready {A} a.
Arguments WhenCancelled {A}.
Arguments IdleElapsed {A}.
Arguments DeadlinePassed {A}.

Inductive TrySend : Type := TSent | TFull | TClosed.

Class CodexWorld (W : Type) := {
  token_cancelled : W -> bool * W;
  (** [Wire::send] also reports how far the submission got. *)
  wire_send : Value -> string -> W -> (Awaited (result unit GatewayError) * UpstreamOutcome) * W;
  wire_receive : W -> Awaited (result (option Value) GatewayError) * W;
  wire_end_response : W -> W;
  wire_identity : W -> ReplayIdentity;
  new_request_id : W -> string * W;
  (** [mpsc::Sender::send] and [try_send] of the bounded event queue. *)
  queue_send : EventEnvelope -> W -> Awaited (result unit GatewayError) * W;
  queue_try_send : EventEnvelope -> W -> TrySend * W
}.

(** Why a request stops early; [NoFuel] is only of the model. *)
Inductive Interrupt : Type := Failure (e : GatewayError) | NoFuel.

(** ** The worker's state *)
Record Worker (W : Type) : Type := mkWorker {
  wk_world : W;
  wk_conversation : Conversation;
  wk_session : string;
  wk_sequence : Z;
  wk_upstream : UpstreamOutcome;
  wk_busy : bool;
  wk_closed : bool;
  wk_used : bool;
  (** What the queue took, oldest first, and the final slot. *)
  wk_sent : list EventEnvelope;
  wk_slot : option EventEnvelope
}.
Arguments mkWorker {W}.
Arguments wk_world {W} _.
Arguments wk_conversation {W} _.
Arguments wk_session {W} _.
Arguments wk_sequence {W} _.
Arguments wk_upstream {W} _.
Arguments wk_busy {W} _.
Arguments wk_closed {W} _.
Arguments wk_used {W} _.
Arguments wk_sent {W} _.
Arguments wk_slot {W} _.

Section setters.
Context {W : Type}.
Implicit Types s : Worker W.

Definition set_wk_world w s : Worker W :=
  mkWorker w (wk_conversation s) (wk_session s) (wk_sequence s) (wk_upstream s) (wk_busy s) (wk_closed s) (wk_used s) (wk_sent s) (wk_slot s).
Definition set_conversation c s : Worker W :=
  mkWorker (wk_world s) c (wk_session s) (wk_sequence s) (wk_upstream s) (wk_busy s) (wk_closed s) (wk_used s) (wk_sent s) (wk_slot s).
Definition set_wk_sequence n s : Worker W :=
  mkWorker (wk_world s) (wk_conversation s) (wk_session s) n (wk_upstream s) (wk_busy s) (wk_closed s) (wk_used s) (wk_sent s) (wk_slot s).
Definition set_upstream u s : Worker W :=
  mkWorker (wk_world s) (wk_conversation s) (wk_session s) (wk_sequence s) u (wk_busy s) (wk_closed s) (wk_used s) (wk_sent s) (wk_slot s).
Definition set_flags busy closed used s : Worker W :=
  mkWorker (wk_world s) (wk_conversation s) (wk_session s) (wk_sequence s) (wk_upstream s) busy closed used (wk_sent s) (wk_slot s).
Definition push_sent e s : Worker W :=
  mkWorker (wk_world s) (wk_conversation s) (wk_session s) (wk_sequence s) (wk_upstream s) (wk_busy s) (wk_closed s) (wk_used s) (wk_sent s ++ [e]) (wk_slot s).
Definition set_slot e s : Worker W :=
  mkWorker (wk_world s) (wk_conversation s) (wk_session s) (wk_sequence s) (wk_upstream s) (wk_busy s) (wk_closed s) (wk_used s) (wk_sent s) (Some e).

Definition set_busy b s := set_flags b (wk_closed s) (wk_used s) s.
Definition set_closed s := set_flags (wk_busy s) true (wk_used s) s.
Definition set_used s := set_flags (wk_busy s) (wk_closed s) true s.
End setters.

(** What the consumer of the session gets: the queue, then the final slot. *)
Definition published {W} (s : Worker W) : list EventEnvelope :=
  wk_sent s ++ match wk_slot s with Some e => [e] | None => [] end.

Section session.
Context {W : Type} `{CodexWorld W} `{SerdeJson} `{ProviderSerde} `{EventSerde} `{ResponseSerde} `{KindText}.
Notation Work := (SM (Worker W) Interrupt).

(** A question to the surroundings. *)
Definition ask {A} (f : W -> A * W) : Work A :=
  fun s => let '(a, w) := f (wk_world s) in (Ok a, set_wk_world w s).
Definition try {A} (r : result A GatewayError) : Work A := lift (map_err r Failure).
Definition awaited {A} (a : Awaited (result A GatewayError)) : Work A :=
  try match a with
      | Ready r => r
      | WhenCancelled => Err Cancelled
      | IdleElapsed | DeadlinePassed => Err Timeout
      end.

(** ** [EventSink] *)
Definition envelope (request : option string) (seq : option Z) (event : ProviderEvent) : Work EventEnvelope :=
  do! modify (fun s => set_wk_sequence (as_u64 (wk_sequence s + 1)) s) in
  gets (fun s => {|
    env_schema_version := 1;
    env_sequence := wk_sequence s;
    env_event_id := String.append (wk_session s) (String ":"%char (decimal (wk_sequence s)));
    env_session_id := wk_session s;
    env_request_id := request;
    env_provider := PROVIDER_ID;
    env_provider_sequence := seq;
    env_event := event |}).

(** [emit]: the timeout of the consumer is [SlowConsumer]. *)
Definition emit (request : string) (seq : option Z) (event : ProviderEvent) : Work unit :=
  let! e := envelope (Some request) seq event in
  let! answer := ask (queue_send e) in
  match answer with
  | Ready (Ok _) => modify (push_sent e)
  | Ready (Err _) => throw (Failure SessionClosed)
  | WhenCancelled => throw (Failure Cancelled)
  | IdleElapsed => throw (Failure SlowConsumer)
  | DeadlinePassed => throw (Failure Timeout)
  end.

(** [terminal]. *)
Definition terminal (request : option string) (seq : option Z) (event : ProviderEvent) : Work bool :=
  let! e := envelope request seq event in
  let! answer := ask (queue_try_send e) in
  match answer with
  | TSent => do! modify (push_sent e) in ret true
  | TFull => do! modify (set_slot e) in ret false
  | TClosed => ret false
  end.

(** ** [drive] *)

Definition tracking (l : Lifecycle) (event : ProviderEvent) : Work Lifecycle :=
  let '(r, l') := track event l in let! _ := try r in ret l'.

Definition settle_response (full_input : list Value) (response : ModelResponse) : Work unit :=
  fun s => let '(r, c) := settle full_input response (wk_conversation s) in
           (map_err r Failure, set_conversation c s).

(** The second inner loop: the events of one message, until a terminal one. *)
Fixpoint publish (full_input : list Value) (request : string) (seq : option Z) (l : Lifecycle)
    (events : list ProviderEvent) : Work (Lifecycle * option ModelResponse) :=
  match events with
  | [] => ret (l, None)
  | event :: events =>
      let! l := tracking l event in
      match event with
      | PResponseFinished response =>
          do! try (confirm l response) in
          do! settle_response full_input response in
          do! modify (fun s => set_wk_world (wire_end_response (wk_world s)) s) in
          ret (l, Some response)
      | _ => do! emit request seq event in publish full_input request seq l events
      end
  end.

Definition has_finished (events : list ProviderEvent) : bool :=
  existsb (fun e => match e with PResponseFinished _ => true | _ => false end) events.

(** One message of the provider. *)
Definition drive_message (full_input : list Value) (request : string) (d : ResponseDecoder) (l : Lifecycle)
  : Work (ResponseDecoder * Lifecycle * option (ModelResponse * option Z)) :=
  let! answer := ask wire_receive in
  let! received := awaited answer in
  let! value := try (ok_or received UnexpectedEnd) in
  let seq := get value "sequence_number" ≫= as_u64_value in
  let '(decoded, d) := apply value d in
  do! (if rd_terminal_received d then modify (set_upstream TerminalReceived) else ret tt) in
  let! events := try decoded in
  do! (if has_finished events then modify (set_upstream TerminalReceived) else ret tt) in
  let! r := publish full_input request seq l events in
  ret (d, fst r, (fun response => (response, seq)) <$> snd r).

(** The loop of [drive]. *)
Fixpoint drive_loop (fuel : nat) (full_input : list Value) (request : string) (d : ResponseDecoder) (l : Lifecycle)
  : Work (ModelResponse * option Z) :=
  match fuel with
  | O => throw NoFuel
  | S fuel =>
      let! r := drive_message full_input request d l in
      match r with
      | (_, _, Some done) => ret done
      | (d, l, None) => drive_loop fuel full_input request d l
      end
  end.

Definition drive (fuel : nat) (body : Value) (full_input : list Value) (request : string)
  : Work (ModelResponse * option Z) :=
  let! stopped := ask token_cancelled in
  do! try (if stopped then Err Cancelled else Ok tt) in
  let! sent := ask (wire_send body request) in
  do! modify (set_upstream (snd sent)) in
  do! awaited (fst sent) in
  drive_loop fuel full_input request new_response_decoder new_lifecycle.

(** ** The worker *)

(** The end of a request: whether the session goes on.  The error of [drive] becomes
    the terminal event; running out of fuel is passed on. *)
Definition finish_request (request : string) (r : result (ModelResponse * option Z) Interrupt) : Work bool :=
  match r with
  | Ok (response, seq) =>
      let completed := bool_decide (outcome response = RCompleted) in
      do! modify (fun s => set_flags false (wk_closed s || negb completed) (wk_used s) s) in
      let! delivered := terminal (Some request) seq (PResponseFinished response) in
      ret (completed && delivered)
  | Err (Failure error) =>
      do! modify (fun s => set_flags false true (wk_used s) s) in
      let! upstream := gets wk_upstream in
      let! _ := terminal (Some request) None (PRequestFailed (code error) (error_message error) upstream) in
      ret false
  | Err NoFuel => throw NoFuel
  end.

(** [Command::Generate]: the reply it sends, and whether the session goes on.
    [listening] says whether the caller still waits for its receipt. *)
Definition generate_command (fuel : nat) (options : SessionOptions) (input : list InputItem) (listening : bool)
  : Work (result string GatewayError * bool) :=
  let! c := gets wk_conversation in
  match prepare c options input with
  | Err error => do! modify (set_busy false) in ret (Err error, true)
  | Ok (body, full_input) =>
      let! request := ask new_request_id in
      let! session := gets wk_session in
      let body := set_field "prompt_cache_key" (VString session) body in
      if listening then
        do! modify (set_upstream NotSubmitted) in
        let! more := (fun s => let '(r, s) := drive fuel body full_input request s in finish_request request r s) in
        ret (Ok request, more)
      else do! modify (set_busy false) in ret (Ok request, true)
  end.

(** [Command::Install]: [abandoned] when the session is cancelled or the caller gone. *)
Definition install_command (options : SessionOptions) (replay : ConversationReplay) (abandoned : bool) (delivered : bool)
  : Work (option (result unit GatewayError) * bool) :=
  let! identity := gets (fun s => wire_identity (wk_world s)) in
  let prepared :=
    if is_some_and (cr_expected_identity replay) (fun expected => negb (bool_decide (expected = identity)))
    then Err (InvalidRequest "replay identity mismatch") else from_replay options replay in
  if abandoned then ret (None, false)
  else
    do! match prepared with
        | Ok restored => modify (fun s => set_used (set_conversation restored s))
        | Err _ => ret tt
        end in
    do! modify (set_busy false) in
    ret (Some (let? _ := prepared in Ok tt), delivered).

(** The wire speaks while no request is active. *)
Definition idle_event (idle : result (option Value) GatewayError) : Work bool :=
  let reason := match idle with
                | Ok None => "provider_closed_idle_connection"
                | Ok (Some _) => "unexpected_idle_provider_event"
                | Err _ => "idle_transport_error"
                end in
  do! modify set_closed in
  let! _ := terminal None None (PSessionClosed reason) in
  ret false.

(** The end of the worker. *)
Definition worker_end (s : Worker W) : Worker W := set_flags false true (wk_used s) s.

(** What reaches the worker. *)
Inductive Step : Type :=
| OnGenerate (input : list InputItem) (listening : bool)
| OnInstall (replay : ConversationReplay) (abandoned delivered : bool)
| OnIdle (idle : result (option Value) GatewayError)
| OnStop.

Definition worker_step (fuel : nat) (options : SessionOptions) (step : Step) : Work bool :=
  match step with
  | OnGenerate input listening => let! r := generate_command fuel options input listening in ret (snd r)
  | OnInstall replay abandoned delivered => let! r := install_command options replay abandoned delivered in ret (snd r)
  | OnIdle idle => idle_event idle
  | OnStop => ret false
  end.

(** [worker]: the steps until one ends the session. *)
Fixpoint worker (fuel : nat) (options : SessionOptions) (steps : list Step) : Work unit :=
  match steps with
  | [] => ret tt
  | step :: steps =>
      let! more := worker_step fuel options step in
      if more then worker fuel options steps else modify worker_end
  end.
End session.

Arguments Step : clear implicits.
