(* ===== verification/CodexStream.v ===== *)
(** * The stream of a provider session is a stream the run accepts

    The worker of a session publishes, for every request, events that the collector
    of a run accepts from first to last, whatever the wire and the consumer do. *)
From S2P Require Import Prelude Json Errors Identifiers Provider RunData Hoare Finalized Codec Recovered Consistency CodexState CodexSession.

(** The collector after events with the identity [o], none of them terminal. *)
Definition col (o : option string) : Collector :=
  {| col_response_id := o; col_started := is_some o; col_terminal := false |}.

Section accepted.
Context `{UuidLib}.

(** The envelope number [n] of a session for a request. *)
Definition numbered (session request : string) (n : Z) (e : EventEnvelope) : Prop :=
  env_session_id e = session /\ env_provider e = PROVIDER_ID /\ env_request_id e = Some request /\
  env_sequence e = n /\ env_event_id e = String.append session (String ":"%char (decimal n)).

Lemma observe_numbered session request n e o q :
  is_canonical_uuid session = true -> 0 < n <= u64_max -> numbered session request n e ->
  is_none_or q (fun p => p <? n) = true -> id_ok o ->
  (exists o', next_id o (env_event e) = Some o') \/ (exists c m u, env_event e = PRequestFailed c m u) ->
  exists c', observe e session PROVIDER_ID request (col o, q) = (Ok tt, (c', Some n)) /\
    (forall o', next_id o (env_event e) = Some o' -> finished_event (env_event e) = false -> c' = col o').
Proof.
  intros Hu Hn (Hs & Hp & Hr & Hseq & Hid) Hq Hok He. unfold observe.
  rewrite Hs, Hp, Hr, Hseq, Hid, !bool_decide_eq_true_2, local_event_id_accepted by done. simpl.
  replace (is_some_and q (fun p => n <=? p)) with false.
  2:{ destruct q as [p|]; simpl in *; [|done]. symmetry. apply Z.leb_gt. by apply Z.ltb_lt. }
  simpl. destruct He as [[o' He]|(c & m & u & ->)]; [|by eexists].
  assert (forall id, Some id = o -> str_is_empty id = false) as Hne.
  { intros id <-. apply str_is_empty_false. by apply Hok. }
  destruct (env_event e); simpl in *; try done;
    repeat (case_bool_decide || destruct o as [?|]); simplify_eq/=; try done;
    rewrite ?Hne, ?bool_decide_eq_true_2 by done; simpl;
    try (destruct (str_is_empty response_id); [done|]; simpl); (eexists; split; [reflexivity|]; by intros ? [= <-]).
Qed.

Lemma collected_snoc session provider request cs es c q e c' :
  collected session provider request cs es (c, q) ->
  observe e session provider request (c, q) = (Ok tt, c') ->
  collected session provider request cs (es ++ [e]) c'.
Proof.
  intros Hc Ho. remember (c, q) as cq eqn:E. induction Hc as [cs|cs e0 cs1 es cs2 Ho' _ IH]; subst; simpl.
  - econstructor; [exact Ho|constructor].
  - econstructor; [exact Ho'|]. by apply IH.
Qed.
End accepted.

(** A completed response at the end of a request agrees with the text and refusals
    streamed and the messages and calls finished before. *)
Definition shows_streamed (es : list EventEnvelope) : Prop :=
  forall before e response, es = before ++ [e] -> env_event e = PResponseFinished response ->
    outcome response = RCompleted -> confirmed (env_event <$> es) response.

Section stream.
Context {W : Type} `{CodexWorld W} `{SerdeJson} `{ProviderSerde} `{EventSerde} `{ResponseSerde} `{KindText} `{UuidLib}.
Variable s0 : Worker W.
Variable request : string.
Variable q0 : option Z.
Hypothesis Huuid : is_canonical_uuid (wk_session s0) = true.
Hypothesis Hsequence : 0 <= wk_sequence s0 <= u64_max - MAX_EVENTS - 1.
Hypothesis Hq0 : is_none_or q0 (fun p => p <=? wk_sequence s0) = true.
Hypothesis Hslot : wk_slot s0 = None.

(** The events [events] have been published since [s0], and the collector took them. *)
Definition streamed_since (events : list ProviderEvent) (c : Collector) (s : Worker W) : Prop :=
  exists es q, published s = published s0 ++ es /\ env_event <$> es = events /\
    collected (wk_session s0) PROVIDER_ID request (default_collector, q0) es (c, q) /\
    is_none_or q (fun p => p <=? wk_sequence s) = true.

(** In a request, before its terminal event; the sequence has room for [n] events. *)
Definition streaming (events : list ProviderEvent) (o : option string) (s : Worker W) : Prop :=
  streamed_since events (col o) s /\ id_ok o /\ wk_session s = wk_session s0 /\ wk_slot s = None /\
  0 <= wk_sequence s <= wk_sequence s0 + Z.of_nat (length events).

(** The same without an exact count, as a failure leaves it. *)
Definition open_stream (events : list ProviderEvent) (o : option string) (s : Worker W) : Prop :=
  streamed_since events (col o) s /\ id_ok o /\ wk_session s = wk_session s0 /\ wk_slot s = None /\
  0 <= wk_sequence s <= wk_sequence s0 + MAX_EVENTS.

(** A request that failed: what was published stays accepted. *)
Definition interrupted (e : Interrupt) (s : Worker W) : Prop :=
  e <> NoFuel /\ exists events o, open_stream events o s.

Lemma streaming_open events o s :
  streaming events o s -> Z.of_nat (length events) <= MAX_EVENTS -> open_stream events o s.
Proof. intros (Hs & Ho & Hw & Hsl & Hn) Hl. repeat split; try done; lia. Qed.

Lemma streaming_interrupted events o s e :
  streaming events o s -> Z.of_nat (length events) <= MAX_EVENTS -> interrupted (Failure e) s.
Proof. intros Hs Hl. split; [done|]. exists events, o. by apply streaming_open. Qed.

Lemma try_streaming {A} events o (r : result A GatewayError) :
  Z.of_nat (length events) <= MAX_EVENTS ->
  holds (streaming events o) (try r) (fun a s => r = Ok a /\ streaming events o s) interrupted.
Proof. intros Hl s Hs. unfold try, lift. destruct r; simpl; [done|]. by eapply streaming_interrupted. Qed.

Lemma ask_streaming {A} events o (f : W -> A * W) R :
  holds (streaming events o) (ask f) (fun _ => streaming events o) R.
Proof. intros s Hs. unfold ask. by destruct (f (wk_world s)). Qed.

(** Publishing one more event. *)
Lemma streamed_push events o e s s' :
  open_stream events o s ->
  numbered (wk_session s0) request (wk_sequence s + 1) e ->
  (exists o', next_id o (env_event e) = Some o') \/ (exists c m u, env_event e = PRequestFailed c m u) ->
  published s' = published s ++ [e] -> wk_sequence s' = wk_sequence s + 1 ->
  exists c, streamed_since (events ++ [env_event e]) c s' /\ col_terminal c = is_terminal (env_event e) /\
    (forall o', next_id o (env_event e) = Some o' -> finished_event (env_event e) = false -> c = col o').
Proof using Huuid Hsequence.
  intros ((es & q & Hp & He & Hc & Hq) & Ho & Hw & Hsl & Hn) Hnum Hev Hp' Hs'.
  destruct (observe_numbered (wk_session s0) request (wk_sequence s + 1) e o q) as (c' & Hobs & Hc'); try done.
  - unfold u64_max, MAX_EVENTS in *. lia.
  - destruct q as [p|]; simpl in *; [|done]. apply Z.ltb_lt. apply Z.leb_le in Hq. lia.
  - exists c'. split; [|split; [by eapply observe_terminal|done]].
    exists (es ++ [e]), (Some (wk_sequence s + 1)). repeat split.
    + by rewrite Hp', Hp, app_assoc.
    + by rewrite fmap_app, He.
    + by eapply collected_snoc.
    + simpl. apply Z.leb_le. lia.
Qed.

Lemma envelope_numbered events o s seq event :
  open_stream events o s ->
  exists e, envelope (Some request) seq event s = (Ok e, set_wk_sequence (wk_sequence s + 1) s) /\
    numbered (wk_session s0) request (wk_sequence s + 1) e /\ env_event e = event.
Proof using Hsequence.
  intros (_ & _ & Hw & _ & Hn).
  assert (as_u64 (wk_sequence s + 1) = wk_sequence s + 1) as Hu
    by (apply as_u64_small; unfold u64_max, MAX_EVENTS in *; lia).
  eexists. unfold envelope, bind, modify, gets. rewrite Hu. split; [done|].
  unfold numbered. simpl. by rewrite Hw.
Qed.

Lemma emit_streaming events o o' seq event :
  Z.of_nat (length events) < MAX_EVENTS ->
  next_id o event = Some o' -> finished_event event = false -> id_ok o' ->
  holds (streaming events o) (emit request seq event) (fun _ => streaming (events ++ [event]) o') interrupted.
Proof using Huuid Hsequence.
  intros Hl Hid Hf Hok s Hs. assert (open_stream events o s) as Hopen by (apply streaming_open; [done|lia]).
  destruct (envelope_numbered events o s seq event Hopen) as (e & He & Hnum & Hev).
  unfold emit, bind at 1. rewrite He. unfold bind, ask. simpl.
  destruct (queue_send e (wk_world s)) as [answer w]. set (s1 := set_wk_world w (set_wk_sequence (wk_sequence s + 1) s)).
  pose proof Hs as ((es & q & Hp & Hes & Hc & Hq) & Ho & Hw & Hsl & Hn).
  assert (forall x, interrupted (Failure x) s1) as Hint.
  { intros x. split; [done|]. exists events, o. repeat split; try done; simpl; [|lia..].
    exists es, q. repeat split; try done. destruct q; simpl in *; [|done]. apply Z.leb_le. apply Z.leb_le in Hq. lia. }
  destruct answer as [[[]|]| | |]; try apply Hint. unfold modify. rewrite <- Hev in *.
  split; [|repeat split; try done; rewrite ?length_app; simpl; lia].
  destruct (streamed_push events o e s (push_sent e s1)) as (c & Hst & _ & Hcol); try done; [by eauto| |].
  { unfold published. simpl. by rewrite Hsl, !app_nil_r. }
  by rewrite (Hcol o') in Hst.
Qed.

(** What a terminal response needs to be accepted, and what it confirms. *)
Definition concluding (events : list ProviderEvent) (o : option string) (l : Lifecycle) (response : ModelResponse) : Prop :=
  next_id o (PResponseFinished response) = Some o /\ Seen (events ++ [PResponseFinished response]) l /\
  confirm l response = Ok tt.

Lemma tracking_streaming events o l event :
  Seen events l ->
  holds (streaming events o) (tracking l event) (fun l' s => Seen (events ++ [event]) l' /\ streaming events o s) interrupted.
Proof.
  intros Hl s Hs. unfold tracking. pose proof (track_yields events event l Hl) as Ht.
  destruct (track event l) as [[[]|e] l']; unfold bind, try, lift; simpl; [done|].
  apply (streaming_interrupted events o); [done|]. rewrite <- (seen_events _ _ Hl). apply (seen_bound _ _ Hl).
Qed.

Lemma settle_streaming events o full response :
  Z.of_nat (length events) <= MAX_EVENTS ->
  holds (streaming events o) (settle_response full response) (fun _ => streaming events o) interrupted.
Proof.
  intros Hl s Hs. unfold settle_response. destruct (settle full response (wk_conversation s)) as [[[]|e] c]; simpl; [done|].
  by apply (streaming_interrupted events o).
Qed.

Lemma next_id_ok o e o' : next_id o e = Some o' -> id_ok o -> id_ok o'.
Proof.
  destruct e; simpl; intros He Hok; repeat case_bool_decide; simplify_eq; try done.
  destruct (is_none o); [|done]. destruct (str_is_empty response_id) eqn:E; [done|].
  simplify_eq/=. intros id [= <-] ->. done.
Qed.

Lemma Seen_room events l : Seen events l -> Z.of_nat (length events) <= MAX_EVENTS.
Proof. intros Hl. rewrite <- (seen_events _ _ Hl). apply (seen_bound _ _ Hl). Qed.

(** The state after the events of a message. *)
Definition message_done (events es : list ProviderEvent) (o' : option string)
    (r : Lifecycle * option ModelResponse) (s : Worker W) : Prop :=
  match snd r with
  | None => streaming (events ++ es) o' s /\ Seen (events ++ es) (fst r)
  | Some response => exists evs o, streaming evs o s /\ concluding evs o (fst r) response
  end.

Lemma publish_streaming full seq events o l es o' :
  Seen events l -> next_ids o es = Some o' ->
  holds (streaming events o) (publish full request seq l es) (message_done events es o') interrupted.
Proof using Huuid Hsequence.
  revert events o l. induction es as [|e es IH]; intros events o l Hl Hids.
  - injection Hids as <-. intros s Hs. simpl. unfold message_done. simpl. by rewrite app_nil_r.
  - simpl in Hids. destruct (next_id o e) as [o1|] eqn:He; [|done]. simpl in Hids.
    cbn [publish]. eapply holds_bind; [by apply tracking_streaming|]. intros l1. apply holds_pure. intros Hl1.
    pose proof (Seen_room _ _ Hl) as Hroom. pose proof (Seen_room _ _ Hl1) as Hroom1.
    rewrite length_app in Hroom1. simpl in Hroom1.
    destruct (finished_event e) eqn:Hf.
    + destruct e; try done. simpl in He. case_bool_decide as Ho; [|done]. injection He as <-.
      eapply holds_bind; [by apply try_streaming|]. intros []. apply holds_pure. intros Hconf.
      eapply holds_bind; [by apply settle_streaming|]. intros ?.
      intros s Hs. simpl. exists events, o. split; [exact Hs|]. split; [|done]. simpl. by rewrite bool_decide_eq_true_2.
    + assert (holds (streaming events o)
                (do! emit request seq e in publish full request seq l1 es) (message_done events (e :: es) o') interrupted) as Hgo.
      { intros s Hs. eapply holds_bind; [| |exact Hs].
        - apply emit_streaming with (o' := o1); [lia|done|done|]. destruct Hs as (_ & Hok & _). by eapply next_id_ok.
        - intros ?. eapply holds_conseq; [by apply IH|done| |done].
          intros [l2 [r|]] s2; unfold message_done; simpl; [done|].
          by replace (events ++ e :: es) with ((events ++ [e]) ++ es) by by rewrite <- app_assoc. }
      by destruct e.
Qed.

Lemma drive_message_streaming full events d l :
  Seen events l -> 
  holds (streaming events (rd_response_id d)) (drive_message full request d l)
    (fun r s => match snd r with
                | None => exists es, es <> [] /\ streaming (events ++ es) (rd_response_id (fst (fst r))) s /\
                            Seen (events ++ es) (snd (fst r))
                | Some (response, _) => exists evs o l, streaming evs o s /\ concluding evs o l response
                end) interrupted.
Proof using Huuid Hsequence.
  intros Hl. pose proof (Seen_room _ _ Hl) as Hroom.
  unfold drive_message. eapply holds_bind; [apply ask_streaming|]. intros answer.
  eapply holds_bind; [by apply try_streaming|]. intros received. apply holds_pure. intros _.
  eapply holds_bind; [by apply try_streaming|]. intros value. apply holds_pure. intros _.
  destruct (apply value d) as [decoded d1] eqn:Ea.
  eapply holds_bind with (Q := fun _ => streaming events (rd_response_id d)).
  { intros s Hs. by destruct (rd_terminal_received d1). }
  intros ?. eapply holds_bind; [by apply try_streaming|]. intros es. apply holds_pure. intros ->.
  eapply holds_bind with (Q := fun _ => streaming events (rd_response_id d)).
  { intros s Hs. by destruct (has_finished es). }
  intros ?. intros s Hs. pose proof Hs as (_ & Hok & _).
  apply apply_admitted in Ea as (Hids & _ & Hne & _); [|done].
  eapply holds_bind; [by apply publish_streaming| |exact Hs].
  intros [l1 [r|]] s1; unfold message_done, ret; simpl.
  - intros (evs & o & Hs1 & Hcon). eauto.
  - intros [Hs1 Hl1]. eauto.
Qed.

(** A request has at most [MAX_EVENTS] messages. *)
Lemma drive_loop_streaming fuel full events d l :
  Seen events l -> MAX_EVENTS < Z.of_nat fuel + Z.of_nat (length events) ->
  holds (streaming events (rd_response_id d)) (drive_loop fuel full request d l)
    (fun r s => exists evs o l, streaming evs o s /\ concluding evs o l (fst r)) interrupted.
Proof using Huuid Hsequence.
  revert events d l. induction fuel as [|fuel IH]; intros events d l Hl Hfuel.
  - pose proof (Seen_room _ _ Hl). lia.
  - cbn [drive_loop]. eapply holds_bind; [by apply drive_message_streaming|].
    intros [[d1 l1] [[r seq]|]]; simpl; [by intros s Hs|].
    intros s (es & Hne & Hs & Hl1). eapply IH; [exact Hl1| |exact Hs].
    destruct es; [done|]. rewrite length_app. simpl. lia.
Qed.

Lemma drive_streaming fuel body full :
  MAX_EVENTS < Z.of_nat fuel ->
  holds (streaming [] None) (drive fuel body full request)
    (fun r s => exists evs o l, streaming evs o s /\ concluding evs o l (fst r)) interrupted.
Proof using Huuid Hsequence.
  intros Hfuel. unfold drive. eapply holds_bind; [apply ask_streaming|]. intros stopped.
  eapply holds_bind; [by apply try_streaming|]. intros []. apply holds_pure. intros _.
  eapply holds_bind; [apply ask_streaming|]. intros sent.
  eapply holds_bind with (Q := fun _ => streaming [] None); [by intros s Hs|]. intros ?.
  eapply holds_bind; [by apply try_streaming|]. intros ?. apply holds_pure. intros _.
  apply (drive_loop_streaming fuel full [] new_response_decoder new_lifecycle); [apply new_seen | simpl; lia].
Qed.

(** The terminal event is published, except when the consumer is gone. *)
Lemma terminal_published events o seq event s :
  open_stream events o s ->
  (exists o', next_id o event = Some o') \/ (exists c m u, event = PRequestFailed c m u) ->
  exists delivered s', terminal (Some request) seq event s = (Ok delivered, s') /\
    wk_session s' = wk_session s0 /\ wk_sequence s <= wk_sequence s' <= wk_sequence s + 1 /\
    (streamed_since events (col o) s' /\ delivered = false \/
     (delivered = true -> wk_slot s' = None) /\
     exists c, streamed_since (events ++ [event]) c s' /\ col_terminal c = is_terminal event).
Proof using Huuid Hsequence.
  intros Hs Hev. destruct (envelope_numbered events o s seq event Hs) as (e & He & Hnum & <-).
  unfold terminal, bind at 1. rewrite He. unfold bind, ask. simpl.
  destruct (queue_try_send e (wk_world s)) as [answer w]. set (s1 := set_wk_world w (set_wk_sequence (wk_sequence s + 1) s)).
  pose proof Hs as ((es & q & Hp & Hes & Hc & Hq) & Ho & Hw & Hsl & Hn).
  destruct answer; eexists _, _; (split; [reflexivity|]); (split; [done|]); (split; [simpl; lia|]).
  - right. split; [done|]. destruct (streamed_push events o e s (push_sent e s1)) as (c & Hst & Ht & _); try done; [|by exists c].
    unfold published. simpl. by rewrite Hsl, !app_nil_r.
  - right. split; [done|]. destruct (streamed_push events o e s (set_slot e s1)) as (c & Hst & Ht & _); try done; [|by exists c].
    unfold published. simpl. by rewrite Hsl, !app_nil_r.
  - left. split; [|done]. exists es, q. repeat split; try done.
    destruct q; simpl in *; [|done]. apply Z.leb_le. apply Z.leb_le in Hq. lia.
Qed.

Lemma collected_last session provider request' cs es e c q :
  collected session provider request' cs (es ++ [e]) (c, q) -> col_terminal c = is_terminal (env_event e).
Proof.
  revert cs. induction es as [|e0 es IH]; intros cs Hc; simpl in Hc.
  - inv Hc. match goal with X : collected _ _ _ _ [] _ |- _ => inv X end. destruct cs. by eapply observe_terminal.
  - inv Hc. by eapply IH.
Qed.

(** What a driven request leaves. *)
Definition request_done (more : bool) (s : Worker W) : Prop :=
  exists es c q, published s = published s0 ++ es /\
    collected (wk_session s0) PROVIDER_ID request (default_collector, q0) es (c, q) /\
    is_none_or q (fun p => p <=? wk_sequence s) = true /\ shows_streamed es /\
    (more = true -> wk_slot s = None /\ exists before e response,
       es = before ++ [e] /\ env_event e = PResponseFinished response /\ outcome response = RCompleted).

Lemma request_done_failed events c s :
  streamed_since events c s -> (forall r, last events <> Some (PResponseFinished r)) -> request_done false s.
Proof.
  intros (es & q & Hp & He & Hc & Hq) Hl. exists es, c, q. do 3 (split; [done|]). split; [|done].
  intros before e response -> Hev; exfalso; apply (Hl response); by rewrite <- He, fmap_snoc, last_snoc, Hev.
Qed.

Lemma finish_published r s :
  match r with
  | Ok r => exists evs o l, streaming evs o s /\ concluding evs o l (fst r)
  | Err e => interrupted e s
  end ->
  exists more s', finish_request request r s = (Ok more, s') /\ wk_session s' = wk_session s0 /\
    0 <= wk_sequence s' <= wk_sequence s0 + MAX_EVENTS + 1 /\ request_done more s'.
Proof using Huuid Hsequence.
  assert (forall events o s', streamed_since events (col o) s' -> request_done false s') as Hopen.
  { intros events o s' Hs. apply (request_done_failed events (col o)); [done|]. intros r0 Hl.
    destruct Hs as (es & q & _ & <- & Hc & _). destruct es as [|e es _] using rev_ind; [done|].
    apply collected_last in Hc. rewrite fmap_snoc, last_snoc in Hl. injection Hl as Hl. by rewrite Hl in Hc. }
  destruct r as [[response seq]|[error|]].
  - intros (evs & o & l & Hs & Hid & Hseen & Hconf). simpl in *. unfold finish_request, bind at 1. simpl.
    assert (open_stream evs o s) as Ho.
    { apply streaming_open; [done|]. apply Seen_room in Hseen. rewrite length_app in Hseen. lia. }
    destruct (terminal_published evs o seq (PResponseFinished response)
                (set_flags false (wk_closed s || negb (bool_decide (outcome response = RCompleted))) (wk_used s) s) Ho)
      as (delivered & s' & Ht & Hw & Hn & Hpub); [by eauto|].
    unfold bind. rewrite Ht. eexists _, _. split; [done|]. split; [done|].
    split; [destruct Ho as (_ & _ & _ & _ & ?); simpl in Hn; lia|].
    destruct Hpub as [[Hst ->]|(Hslot' & c & (es & q & Hp & He & Hc & Hq) & Hterm)].
    { rewrite andb_false_r. by eapply Hopen. }
    assert (exists before e, es = before ++ [e] /\ env_event e = PResponseFinished response) as (before & e & -> & Hev).
    { destruct es as [|e es _] using rev_ind; [by destruct evs|]. rewrite fmap_app in He.
      apply app_inj_tail in He as [_ He]. by exists es, e. }
    exists (before ++ [e]), c, q. do 3 (split; [done|]). split.
    + intros ? ? ? [-> ->]%app_inj_tail Hev' Hcomp. rewrite Hev in Hev'. injection Hev' as <-.
      rewrite He. by eapply Seen_confirmed.
    + intros Hmore. apply andb_true_iff in Hmore as [Hcomp ->]. apply bool_decide_eq_true_1 in Hcomp.
      split; [by apply Hslot'|]. by exists before, e, response.
  - intros (_ & events & o & Ho). unfold finish_request, bind at 1. simpl. unfold bind, gets.
    destruct (terminal_published events o None (PRequestFailed (code error) (error_message error) (wk_upstream s))
                (set_flags false true (wk_used s) s) Ho) as (delivered & s' & Ht & Hw & Hn & Hpub); [by eauto|].
    simpl in *. rewrite Ht. eexists _, _. split; [done|]. split; [done|].
    split; [destruct Ho as (_ & _ & _ & _ & ?); simpl in Hn; lia|].
    destruct Hpub as [[Hst _]|(_ & c & Hst & _)]; [by eapply Hopen|].
    eapply request_done_failed; [exact Hst|]. intros r. by rewrite last_snoc.
  - by intros [? _].
Qed.
End stream.

(** ** A whole session *)

(** The requests a consumer sees: each accepted on its own, with the sequence numbers
    running on; only the last one may lack a completed response. *)
Inductive served `{UuidLib} (session : string) : option Z -> list (string * list EventEnvelope) -> Prop :=
| served_none q : served session q []
| served_last q request es c q' :
    collected session PROVIDER_ID request (default_collector, q) es (c, q') -> shows_streamed es ->
    served session q [(request, es)]
| served_more q request before e response c q' requests :
    collected session PROVIDER_ID request (default_collector, q) (before ++ [e]) (c, q') ->
    shows_streamed (before ++ [e]) -> env_event e = PResponseFinished response -> outcome response = RCompleted ->
    served session q' requests ->
    served session q ((request, before ++ [e]) :: requests).

Section whole.
Context {W : Type} `{CodexWorld W} `{SerdeJson} `{ProviderSerde} `{EventSerde} `{ResponseSerde} `{KindText} `{UuidLib}.
Implicit Types s : Worker W.

(** A session that can take the next [n] requests; the consumer is at [q]. *)
Definition ready_for (n : nat) (q : option Z) s : Prop :=
  is_canonical_uuid (wk_session s) = true /\
  0 <= wk_sequence s <= u64_max - (MAX_EVENTS + 1) * Z.of_nat n /\
  is_none_or q (fun p => p <=? wk_sequence s) = true /\ wk_slot s = None.

(** A command of a caller: nothing is published, or one whole request. *)
Lemma generate_published fuel options input listening n q s :
  MAX_EVENTS < Z.of_nat fuel -> ready_for (S n) q s ->
  exists reply more s', generate_command fuel options input listening s = (Ok (reply, more), s') /\
    wk_session s' = wk_session s /\
    0 <= wk_sequence s' <= u64_max - (MAX_EVENTS + 1) * Z.of_nat n /\
    (published s' = published s /\ more = true /\ ready_for n q s' \/
     exists request, reply = Ok request /\ request_done s request q more s').
Proof.
  intros Hfuel (Hu & Hn & Hq & Hsl).
  assert (0 <= wk_sequence s <= u64_max - (MAX_EVENTS + 1) * Z.of_nat n) as Hn' by (unfold MAX_EVENTS in *; lia).
  assert (0 <= wk_sequence s <= u64_max - MAX_EVENTS - 1) as Hroom by (unfold MAX_EVENTS in *; lia).
  unfold generate_command, bind at 1, gets.
  destruct (prepare (wk_conversation s) options input) as [[body full]|e].
  2:{ eexists _, _, _. split; [done|]. do 2 (split; [done|]). by left. }
  unfold bind, ask. destruct (new_request_id (wk_world s)) as [request w] eqn:Er. simpl.
  destruct listening.
  2:{ eexists _, _, _. split; [done|]. do 2 (split; [done|]). by left. }
  simpl. set (s1 := set_upstream NotSubmitted (set_wk_world w s)).
  pose proof (drive_streaming s1 request q Hu Hroom fuel (set_field "prompt_cache_key" (VString (wk_session s)) body) full Hfuel s1) as Hd.
  destruct (drive fuel _ full request s1) as [r s2]. destruct (finish_published s1 request q Hu Hroom r s2) as (more & s' & Hf & Hw & Hseq & Hdone).
  { assert (streaming s1 request q [] None s1) as Hst.
    { split; [|repeat split; try done; simpl; lia]. exists [], q. repeat split; [by rewrite app_nil_r|constructor|done]. }
    specialize (Hd Hst). by destruct r. }
  rewrite Hf. eexists _, _, _. split; [done|]. split; [done|].
  split; [simpl in *; unfold MAX_EVENTS in *; lia|]. right. by exists request.
Qed.

(** What a session published from [s] to [s'], for a consumer at [q]. *)
Definition session_published (q : option Z) s s' : Prop :=
  exists requests closing,
    published s' = published s ++ concat (snd <$> requests) ++ closing /\
    served (wk_session s) q requests /\
    (closing = [] \/ exists e reason, closing = [e] /\ env_event e = PSessionClosed reason).

Lemma published_nothing q s s' : published s' = published s -> session_published q s s'.
Proof. intros Hp. exists [], []. rewrite Hp. simpl. rewrite app_nil_r. split; [done|]. split; [constructor | by left]. Qed.

Lemma worker_total fuel options steps q s :
  MAX_EVENTS < Z.of_nat fuel -> ready_for (length steps) q s ->
  exists s', worker fuel options steps s = (Ok tt, s') /\ session_published q s s'.
Proof.
  intros Hfuel. revert q s. induction steps as [|step steps IH]; intros q s Hs.
  { eexists. split; [done|]. by apply published_nothing. }
  assert (forall s1, wk_session s1 = wk_session s -> published s1 = published s -> ready_for (length steps) q s1 ->
            exists s', worker fuel options steps s1 = (Ok tt, s') /\ session_published q s s') as Hgo.
  { intros s1 Hw Hp Hr. destruct (IH q s1 Hr) as (s' & Hx & requests & closing & Hpub & Hsv & Hcl).
    exists s'. split; [done|]. exists requests, closing. by rewrite <- Hw, <- Hp. }
  cbn [worker]. destruct step as [input listening|replay abandoned delivered|idle|]; unfold bind at 1; cbn [worker_step].
  - destruct (generate_published fuel options input listening (length steps) q s Hfuel Hs)
      as (reply & more & s1 & Hg & Hw & Hn & Hcase).
    unfold bind. rewrite Hg. simpl. destruct Hcase as [(Hp & -> & Hr)|(request & _ & Hdone)]; [by apply Hgo|].
    destruct Hdone as (es & c & q1 & Hp & Hc & Hq & Hshow & Hmore). destruct more.
    + destruct (Hmore eq_refl) as (Hsl & before & e & response & -> & Hev & Hcomp).
      destruct (IH q1 s1) as (s' & Hx & requests & closing & Hpub & Hsv & Hcl).
      { destruct Hs as (Hu & _). by rewrite <- Hw in Hu. }
      exists s'. split; [done|]. exists ((request, before ++ [e]) :: requests), closing.
      rewrite Hpub, Hp. simpl. rewrite <- !app_assoc. split; [done|]. split; [|done].
      econstructor; [done..|]. by rewrite <- Hw.
    + eexists. split; [done|]. exists [(request, es)], []. unfold published in *. simpl. rewrite !app_nil_r.
      split; [done|]. split; [by econstructor | by left].
  - unfold install_command, bind, gets. simpl. destruct abandoned; simpl.
    { eexists. split; [done|]. by apply published_nothing. }
    assert (ready_for (length steps) q s) as Hr.
    { destruct Hs as (? & ? & ? & ?). split; [done|]. split; [unfold MAX_EVENTS in *; cbn [length] in *; lia | done]. }
    destruct (if is_some_and _ _ then _ else from_replay options replay) as [restored|e]; simpl;
      (destruct delivered; [by apply Hgo | eexists; split; [done|]; by apply published_nothing]).
  - unfold idle_event, bind, modify, terminal, bind, envelope, bind, modify, gets, ask, ret. simpl.
    match goal with |- context [queue_try_send ?x ?w] => set (e := x); destruct (queue_try_send e w) as [answer w'] end.
    destruct Hs as (_ & _ & _ & Hsl).
    destruct answer; simpl; (eexists; split; [done|]); [| |by apply published_nothing].
    all: exists [], [e]; unfold published; simpl; rewrite Hsl, !app_nil_r; split; [done|]; split; [constructor|]; right; by eexists e, _.
  - eexists. split; [done|]. by apply published_nothing.
Qed.

(** C7. Whatever the wire, the provider and the consumer do, a session serves its
    commands to the end, and what its consumer receives is one stream per request
    that the collector of a run accepts from the first event to the last, with one
    numbering through the session; only the last request can end without a completed
    response; a completed response agrees with the text and refusals streamed and the
    messages and calls finished before it; after that at most one notice that the
    session closed follows. *)
Theorem session_stream_accepted fuel options steps q s :
  MAX_EVENTS < Z.of_nat fuel ->
  is_canonical_uuid (wk_session s) = true ->
  0 <= wk_sequence s <= u64_max - (MAX_EVENTS + 1) * Z.of_nat (length steps) ->
  is_none_or q (fun p => p <=? wk_sequence s) = true ->
  wk_slot s = None ->
  exists s' requests closing,
    worker fuel options steps s = (Ok tt, s') /\
    published s' = published s ++ concat (snd <$> requests) ++ closing /\
    served (wk_session s) q requests /\
    (closing = [] \/ exists e reason, closing = [e] /\ env_event e = PSessionClosed reason).
Proof.
  intros Hfuel Hu Hn Hq Hsl.
  destruct (worker_total fuel options steps q s Hfuel) as (s' & Hw & requests & closing & Hp & Hs & Hc); [done|].
  by exists s', requests, closing.
Qed.
End whole.
