(* ===== verification/CodexExamples.v ===== *)
(** * Concrete provider sessions

    A scripted wire plays two requests: a call announced as done with an empty
    terminal output, and a streamed message; the theorems are instantiated there. *)
From S2P Require Import Prelude Json Errors Identifiers Provider Replay RunData Finalized Codec Recovered Consistency CodexState Continuation CodexSession CodexStream.

#[local] Instance codex_json : SerdeJson := {|
  from_str s := if bool_decide (s = "{}") then Some (VObject []) else None;
  to_string _ := Some "json"
|}.
#[local] Instance codex_provider_serde : ProviderSerde := {|
  options_json_len _ := Some 100;
  input_json_len _ := Some 100
|}.
#[local] Instance codex_event_serde : EventSerde := {| event_json_len _ := Some 10 |}.
#[local] Instance codex_response_serde : ResponseSerde := {| response_value r := Some (response_native r) |}.
#[local] Instance codex_kind_text : KindText := {| kind_text _ := "Other" |}.

(** ** The messages *)
Definition event_value (kind : string) (rest : list (string * Value)) : Value :=
  object (("type", VString kind) :: rest).
Definition call_item : Value :=
  object [("type", VString "function_call"); ("id", VString "fc_1"); ("call_id", VString "call_1");
          ("name", VString "add_numbers"); ("arguments", VString "{}"); ("status", VString "completed")].
Definition message_item : Value :=
  object [("type", VString "message"); ("id", VString "msg_1"); ("role", VString "assistant");
          ("content", VArray [object [("type", VString "output_text"); ("text", VString "hello")]])].

Definition first_stream : list Value :=
  [event_value "response.created" [("response", object [("id", VString "resp_1")])];
   event_value "response.output_item.done" [("output_index", VNumber (PosInt 0)); ("item", call_item)];
   event_value "response.completed"
     [("response", object [("id", VString "resp_1"); ("status", VString "completed"); ("output", VArray [])])]].

Definition second_stream : list Value :=
  [event_value "response.created" [("response", object [("id", VString "resp_2")])];
   event_value "response.output_text.delta"
     [("item_id", VString "msg_1"); ("output_index", VNumber (PosInt 0)); ("content_index", VNumber (PosInt 0));
      ("delta", VString "hel")];
   event_value "response.completed"
     [("response", object [("id", VString "resp_2"); ("status", VString "completed"); ("output", VArray [message_item])])]].

(** ** The decoder *)
Definition decoded_events (values : list Value) : list ProviderEvent :=
  match fst (apply_all values new_response_decoder) with Ok es => es | Err _ => [] end.
Definition finished_responses (es : list ProviderEvent) : list ModelResponse :=
  omap (fun e => match e with PResponseFinished r => Some r | _ => None end) es.
Definition nth_response (values : list Value) : ModelResponse :=
  default {| output_provenance := NativeTerminal; response_id := ""; response_model := None; outcome := RFailed;
             output := []; text := ""; usage := None; response_native := Null |}
    (head (finished_responses (decoded_events values))).
Definition first_response : ModelResponse := nth_response first_stream.
Definition second_response : ModelResponse := nth_response second_stream.

Lemma recovered_output_exact_witness :
  output_provenance first_response = ValidatedOutputItemDone /\ native <$> output first_response = [call_item] /\
  exists id item, POutputItemFinished id 0 item ∈ decoded_events first_stream /\ native item = call_item.
Proof.
  assert (output_provenance first_response = ValidatedOutputItemDone) as E by (vm_compute; reflexivity).
  split; [exact E|]. split; [vm_compute; reflexivity|].
  assert (apply_all first_stream new_response_decoder =
          (Ok (decoded_events first_stream), snd (apply_all first_stream new_response_decoder))) as Ha by (vm_compute; reflexivity).
  assert (PResponseFinished first_response ∈ decoded_events first_stream) as Hin
    by (apply list_elem_of_In; vm_compute; right; right; left; reflexivity).
  pose proof (recovered_output_exact first_stream (decoded_events first_stream) (snd (apply_all first_stream new_response_decoder)) first_response Ha Hin) as Hr.
  clear Ha Hin. destruct Hr as (value & v & r0 & _ & _ & Hp & [[_ Hr]|(_ & _ & Hr)]).
  - exfalso. pose proof (parse_response_native _ _ Hp) as (_ & Hprov & _). rewrite <- Hr, E in Hprov. discriminate Hprov.
  - apply (Hr 0%nat call_item). vm_compute. reflexivity.
Defined.

(** ** The conversation *)
Definition codex_options (t : Transport) : SessionOptions := {|
  model := "gpt-test"; instructions := "Be helpful."; tools := []; transport := t; required_features := []
|}.
Definition ok_or_default {A} (r : result A GatewayError) (a : A) : A := match r with Ok a => a | Err _ => a end.

(** One turn of a conversation, with what the other side learns. *)
Definition turn (t : Transport) (input : list InputItem) (response : ModelResponse) (ck : Conversation * Known)
  : Conversation * Known :=
  let '(c, known) := ck in
  let '(body, full) := ok_or_default (prepare c (codex_options t) input) (Null, []) in
  (snd (settle full response c),
   <[response_id response := default [] (request_context known body) ++ (native <$> output response)]> known).

Definition turn_ok (t : Transport) (input : list InputItem) (response : ModelResponse) (ck : Conversation * Known) : bool :=
  match prepare (fst ck) (codex_options t) input with
  | Ok (body, full) =>
      is_some (request_context (snd ck) body) && bool_decide (outcome response = RCompleted)
      && is_ok (fst (settle full response (fst ck)))
  | Err _ => false
  end.

Lemma turn_conversed t base ts input response ck :
  conversed (codex_options t) base ts (fst ck) (snd ck) -> turn_ok t input response ck = true ->
  conversed (codex_options t) base (ts ++ [(input, response)]) (fst (turn t input response ck)) (snd (turn t input response ck)).
Proof.
  destruct ck as [c known]. unfold turn, turn_ok. cbn [fst snd].
  destruct (prepare c (codex_options t) input) as [[body full]|e] eqn:Ep; [|done]. intros Hc Hok. cbn [ok_or_default].
  apply andb_true_iff in Hok as [[Hx Ho]%andb_true_iff Hs]. apply bool_decide_eq_true_1 in Ho.
  apply is_some_true in Hx as [context Hx]. rewrite Hx. cbn [fst snd default].
  destruct (settle full response c) as [[[]|e] c'] eqn:Es; [|done]. by econstructor.
Qed.

Definition first_input : list InputItem := [User "add two numbers"].
Definition second_input : list InputItem := [ToolResult "call_1" "5"].
Definition started : Conversation * Known := (default_conversation, ∅).
Definition answered (t : Transport) : Conversation * Known := turn t first_input first_response started.
Definition live (t : Transport) : Conversation * Known := turn t second_input second_response (answered t).

Lemma live_conversed t :
  conversed (codex_options t) [] [(first_input, first_response); (second_input, second_response)] (fst (live t)) (snd (live t)).
Proof.
  apply (turn_conversed t [] [(first_input, first_response)]); [|destruct t; vm_compute; reflexivity].
  apply (turn_conversed t [] []); [by constructor | destruct t; vm_compute; reflexivity].
Qed.

Definition next_input : list InputItem := [User "thanks"].
Definition request_of (c : Conversation) (t : Transport) : Value * list Value :=
  ok_or_default (prepare c (codex_options t) next_input) (Null, []).

(** The WebSocket request holds one item and means five. *)
Lemma request_means_history_witness :
  get (fst (request_of (fst (live WebSocket)) WebSocket)) "input" = Some (VArray (native_input <$> next_input)) /\
  request_context (snd (live WebSocket)) (fst (request_of (fst (live WebSocket)) WebSocket)) =
    Some (turns_items [(first_input, first_response); (second_input, second_response)] ++ (native_input <$> next_input)).
Proof.
  split; [vm_compute; reflexivity|].
  apply (request_means_history (codex_options WebSocket) []
    [(first_input, first_response); (second_input, second_response)] (fst (live WebSocket)) (snd (live WebSocket))
    next_input (fst (request_of (fst (live WebSocket)) WebSocket)) (snd (request_of (fst (live WebSocket)) WebSocket))).
  - apply live_conversed.
  - vm_compute. reflexivity.
Defined.

(** The same turns as a stored conversation. *)
Definition codex_replay : ConversationReplay := {|
  cr_version := 1; cr_provider_id := PROVIDER_ID; cr_requested_model := "gpt-test";
  cr_expected_identity := Some {| ri_provider_id := PROVIDER_ID; ri_format := FORMAT; ri_principal_digest := "d" |};
  cr_runs := [{| rr_source_run_id := "run-1"; rr_prepared_prompt := "add two numbers";
                 rr_exchanges := [{| re_response := first_response; re_tool_results := second_input |};
                                  {| re_response := second_response; re_tool_results := [] |}] |}]
|}.
Definition restored : Conversation := ok_or_default (from_replay (codex_options Sse) codex_replay) default_conversation.

Lemma restored_continues_live_witness :
  request_context (snd (live WebSocket)) (fst (request_of (fst (live WebSocket)) WebSocket)) =
  request_context ∅ (fst (request_of restored Sse)).
Proof.
  destruct (restored_continues_live (codex_options Sse) (codex_options WebSocket) codex_replay restored
    [(first_input, first_response); (second_input, second_response)] [] (fst (live WebSocket)) (snd (live WebSocket))
    next_input (fst (request_of (fst (live WebSocket)) WebSocket)) (snd (request_of (fst (live WebSocket)) WebSocket))
    (fst (request_of restored Sse)) (snd (request_of restored Sse))) as (_ & Hlive & Hrestored).
  - vm_compute. reflexivity.
  - reflexivity.
  - apply live_conversed.
  - vm_compute. reflexivity.
  - vm_compute. reflexivity.
  - etrans; [exact Hlive | symmetry; exact Hrestored].
Defined.

(** After the call only its result is accepted. *)
Lemma outstanding_results_exact_witness :
  is_ok (prepare (fst (answered WebSocket)) (codex_options WebSocket) second_input) = true /\
  is_ok (prepare (fst (answered WebSocket)) (codex_options WebSocket) next_input) = false.
Proof.
  split.
  - apply (outstanding_results_exact (snd (ok_or_default (prepare default_conversation (codex_options WebSocket) first_input) (Null, [])))
      first_response default_conversation (fst (answered WebSocket)) (codex_options WebSocket) second_input).
    + vm_compute. reflexivity.
    + vm_compute. reflexivity.
    + split; [vm_compute; reflexivity|]. split; [vm_compute; reflexivity|]. split; [|vm_compute; reflexivity].
      vm_compute. reflexivity.
  - vm_compute. reflexivity.
Defined.

(** ** A session *)

(** The messages the wire still has, and how many requests were made. *)
Record Script : Type := mkScript { inbox : list Value; requests_made : nat }.

#[local] Instance scripted : CodexWorld Script := {|
  token_cancelled w := (false, w);
  wire_send _ _ w := ((Ready (Ok tt), UpstreamUnknown), w);
  wire_receive w := match inbox w with
                    | [] => (Ready (Ok None), w)
                    | v :: rest => (Ready (Ok (Some v)), mkScript rest (requests_made w))
                    end;
  wire_end_response w := w;
  wire_identity _ := {| ri_provider_id := PROVIDER_ID; ri_format := FORMAT; ri_principal_digest := "d" |};
  new_request_id w := ("request", mkScript (inbox w) (S (requests_made w)));
  queue_send _ w := (Ready (Ok tt), w);
  queue_try_send _ w := (TSent, w)
|}.
#[local] Instance codex_uuid : UuidLib := example_uuid.

Definition session_start : Worker Script :=
  mkWorker (mkScript (first_stream ++ second_stream) 0) default_conversation "01234567-89ab-1cde-8fab-0123456789ab"
    0 NotSubmitted false false false [] None.
Definition two_requests : list (Step) := [OnGenerate first_input true; OnGenerate second_input true; OnStop].
Definition enough_messages : nat := Z.to_nat 4097.

Definition session_end : Worker Script := snd (worker enough_messages (codex_options WebSocket) two_requests session_start).

(** Six events reach the consumer, in two requests. *)
Lemma session_stream_accepted_witness :
  (env_sequence <$> published session_end) = [1; 2; 3; 4; 5; 6] /\
  exists requests, concat (snd <$> requests) = published session_end /\ served (wk_session session_start) None requests.
Proof.
  split; [vm_compute; reflexivity|].
  destruct (session_stream_accepted enough_messages (codex_options WebSocket) two_requests None session_start)
    as (s' & requests & closing & Hw & Hp & Hs & Hc).
  - vm_compute. reflexivity.
  - vm_compute. reflexivity.
  - split; vm_compute; discriminate.
  - reflexivity.
  - reflexivity.
  - exists requests. split; [|exact Hs].
    assert (s' = session_end) as -> by (unfold session_end; by rewrite Hw).
    destruct Hc as [-> |(e & reason & -> & He)]; [by rewrite Hp; simpl; rewrite app_nil_r|].
    exfalso. assert (last (published session_end) = Some e) as Hl by by rewrite Hp, app_assoc, last_snoc.
    vm_compute in Hl. injection Hl as <-. discriminate He.
Defined.
