(* ===== verification/Wire.v ===== *)
(** * The wire (src/src/providers/openai_codex/wire.rs)

    What either transport makes of what the network delivers: the messages of a
    socket and the chunks of an HTTP body come as lists, and an operation that finds
    none is still waiting.  A body without a media type is admitted by its first
    frame, and then decoded from its first byte. *)
From S2P Require Import Prelude Json Errors Provider Text Sse Finalized Codec.

Definition MAX_RESPONSE_BYTES : Z := 32 * 1024 * 1024.
Definition MAX_SSE_PROLOG : Z := 65536.

(** [usize::saturating_add]. *)
Definition saturating_add (a b : Z) : Z := Z.min (a + b) u64_max.

(** [s.trim() == t] for a text [t] that begins and ends with no white space. *)
Definition trims_to (t s : string) : bool :=
  match strip_prefix t (trim_start s) with Some rest => trim_is_empty rest | None => false end.

(** [http_error]. *)
Definition http_error (status : Z) (retry_after_seconds : option Z) : GatewayError :=
  if status =? 401 then Unauthorized
  else if status =? 403 then Forbidden
  else if status =? 429 then RateLimited retry_after_seconds
  else Http status.

(** ** WebSocket *)
Inductive Message : Type :=
| MText (text : string)
| MPing (flushed : result unit GatewayError)
| MPong
| MClose
| MBinary
| MFrame
| MError (e : GatewayError)
| MEnd.

Notation Received := (option (result (option Value) GatewayError)).

Section wire.
Context `{SerdeJson}.

(** [receive] of a socket: the value, or [None] while it waits for a message. *)
Fixpoint receive_ws (messages : list Message) (received : Z) : Received * (list Message * Z) :=
  match messages with
  | [] => (None, ([], received))
  | MText text :: rest =>
      let received := saturating_add received (len text) in
      (Some (if MAX_RESPONSE_BYTES <? received then Err StreamTooLarge
             else map_err (ok_or (Some <$> from_str text) tt) (fun _ => Protocol "WebSocket event is not valid JSON")),
       (rest, received))
  | MPing flushed :: rest =>
      match flushed with Ok _ => receive_ws rest received | Err e => (Some (Err e), (rest, received)) end
  | MPong :: rest | MFrame :: rest => receive_ws rest received
  | MClose :: rest | MEnd :: rest => (Some (Ok None), (rest, received))
  | MBinary :: rest => (Some (Err (Protocol "unexpected binary WebSocket event")), (rest, received))
  | MError e :: rest => (Some (Err e), (rest, received))
  end.

(** ** Server-sent events *)
Inductive Chunk : Type :=
| CData (bytes : string)
| CError (e : GatewayError)
| CEnd.

(** A running response; without one a session waits for ever. *)
Record SseWire : Type := mkSseWire {
  ss_stream : option (list Chunk);
  ss_decoder : SseDecoder;
  ss_frames : list string;
  ss_eof : bool;
  ss_received : Z
}.

(** The frames that carry no event. *)
Definition no_event (frame : string) : bool := trim_is_empty frame || trims_to "[DONE]" frame.

Fixpoint pop_frame (frames : list string) : option (result Value GatewayError) * list string :=
  match frames with
  | [] => (None, [])
  | frame :: frames =>
      if no_event frame then pop_frame frames
      else (Some (ok_or (from_str frame) (Protocol "SSE data is not valid JSON")), frames)
  end.

(** One round of the loop of [receive] on the frames, then the chunks. *)
Fixpoint receive_chunks (chunks : list Chunk) (d : SseDecoder) (frames : list string) (received : Z) : Received * SseWire :=
  match pop_frame frames with
  | (Some r, frames) => (Some (let? v := r in Ok (Some v)), mkSseWire (Some chunks) d frames false received)
  | (None, frames) =>
      match chunks with
      | [] => (None, mkSseWire (Some []) d frames false received)
      | CData bytes :: chunks =>
          let received := saturating_add received (len bytes) in
          if MAX_RESPONSE_BYTES <? received then (Some (Err StreamTooLarge), mkSseWire (Some chunks) d frames false received)
          else match feed bytes d with
               | (Ok fs, d) => receive_chunks chunks d fs received
               | (Err e, d) => (Some (Err e), mkSseWire (Some chunks) d frames false received)
               end
      | CError e :: chunks => (Some (Err e), mkSseWire (Some chunks) d frames false received)
      | CEnd :: chunks =>
          match finish d with
          | (Ok fs, d) =>
              match pop_frame fs with
              | (Some r, fs) => (Some (let? v := r in Ok (Some v)), mkSseWire (Some chunks) d fs true received)
              | (None, fs) => (Some (Ok None), mkSseWire (Some chunks) d fs true received)
              end
          | (Err e, d) => (Some (Err e), mkSseWire (Some chunks) d frames false received)
          end
      end
  end.

Definition receive_sse (w : SseWire) : Received * SseWire :=
  if ss_eof w then
    match pop_frame (ss_frames w) with
    | (Some r, frames) => (Some (let? v := r in Ok (Some v)), mkSseWire (ss_stream w) (ss_decoder w) frames true (ss_received w))
    | (None, frames) => (Some (Ok None), mkSseWire (ss_stream w) (ss_decoder w) frames true (ss_received w))
    end
  else match ss_stream w with
       | Some chunks => receive_chunks chunks (ss_decoder w) (ss_frames w) (ss_received w)
       | None =>
           match pop_frame (ss_frames w) with
           | (Some r, frames) => (Some (let? v := r in Ok (Some v)), mkSseWire None (ss_decoder w) frames false (ss_received w))
           | (None, frames) => (None, mkSseWire None (ss_decoder w) frames false (ss_received w))
           end
       end.

(** A response that was just accepted, and the end of one ([end_response]). *)
Definition open_response (chunks : list Chunk) : SseWire := mkSseWire (Some chunks) (new_decoder false) [] false 0.
Definition end_response (w : SseWire) : SseWire := mkSseWire None (new_decoder false) [] false (ss_received w).

(** ** Admission of a body without a media type *)

(** [qualifies_sse_prolog]. *)
Definition qualifies_sse_prolog (data label : string) : bool :=
  match from_str data with
  | None => false
  | Some value =>
      match get value "type" ≫= as_str with
      | None => false
      | Some kind =>
          if negb (str_is_empty label) && negb (bool_decide (label = kind)) then false
          else if negb (is_some_and (pointer value "response" "id" ≫= as_str)
                          (fun id => negb (str_is_empty id) && (len id <=? 512))) then false
          else
            let created := bool_decide (kind = "response.created") in
            if negb created
               && negb (one_of kind ["response.completed"; "response.done"; "response.incomplete"; "response.failed"; "response.cancelled"])
            then false
            else match fst (apply value new_response_decoder) with
                 | Ok events => existsb (fun e => match e with
                                                  | PResponseStarted _ => created
                                                  | PResponseFinished _ => negb created
                                                  | _ => false
                                                  end) events
                 | Err _ => false
                 end
      end
  end.

(** How the probe of a prolog ends. *)
Inductive Prolog : Type := PrologOk | PrologRejected | PrologTimeout | PrologReadError | PrologTruncated (too_large : bool).

(** A chunk as it arrives: whether the deadline has passed when it comes, and when its
    first frame has been examined. *)
Record Arrival : Type := mkArrival { ar_late : bool; ar_chunk : Chunk; ar_frame_late : bool }.

(** The inner loop over the bytes of a chunk: a decision, or the state after them. *)
Fixpoint probe_bytes (frame_late : bool) (bytes : string) (d : SseDecoder) (inspected : Z) : Prolog + (SseDecoder * Z) :=
  match bytes with
  | EmptyString => inr (d, inspected)
  | String b bytes =>
      let inspected := inspected + 1 in
      match feed (String b EmptyString) d with
      | (Err _, _) => inl PrologRejected
      | (Ok (data :: _), d) =>
          inl (if negb (qualifies_sse_prolog data (dispatched_label d)) then PrologRejected
               else if frame_late then PrologTimeout else PrologOk)
      | (Ok [], d) => if inspected =? MAX_SSE_PROLOG then inl (PrologTruncated false) else probe_bytes frame_late bytes d inspected
      end
  end.

(** The loop over the chunks: how it ends, the chunks read and those left. *)
Fixpoint probe (arrivals : list Arrival) (d : SseDecoder) (inspected fetched : Z) (replay : list Chunk)
  : Prolog * list Chunk * list Arrival :=
  match arrivals with
  | [] => (PrologTimeout, replay, [])
  | a :: rest =>
      match ar_chunk a with
      | CEnd => (PrologRejected, replay, rest)
      | CError e =>
          (if ar_late a then PrologTimeout
           else match e with StreamTooLarge => PrologTruncated true | _ => PrologReadError end, replay, rest)
      | CData bytes =>
          let fetched := saturating_add fetched (len bytes) in
          if ar_late a then (PrologTimeout, replay, rest)
          else if MAX_RESPONSE_BYTES <? fetched then (PrologTruncated true, replay, rest)
          else match probe_bytes (ar_frame_late a) bytes d inspected with
               | inl PrologOk => (PrologOk, replay ++ [CData bytes], rest)
               | inl p => (p, replay, rest)
               | inr (d, inspected) => probe rest d inspected fetched (replay ++ [CData bytes])
               end
      end
  end.

(** [admit_sse_prolog]: the stream the response is then decoded from. *)
Definition admit_sse_prolog (arrivals : list Arrival) : result (list Chunk) GatewayError :=
  match probe arrivals (new_decoder true) 0 0 [] with
  | (PrologOk, replay, rest) => Ok (replay ++ (ar_chunk <$> rest))
  | (PrologTruncated true, _, _) => Err StreamTooLarge
  | _ => Err UnexpectedContentType
  end.

(** ** What a response yields *)

(** The events of some frames, and how they end. *)
Fixpoint frame_values (frames : list string) : list Value * result (option Value) GatewayError :=
  match frames with
  | [] => ([], Ok None)
  | frame :: frames =>
      if no_event frame then frame_values frames
      else match from_str frame with
           | Some v => let '(vs, r) := frame_values frames in (v :: vs, r)
           | None => ([], Err (Protocol "SSE data is not valid JSON"))
           end
  end.

(** All calls of [receive] until one gives no event; [None] while it waits. *)
Fixpoint receive_all (fuel : nat) (w : SseWire) : option (list Value * result (option Value) GatewayError) :=
  match fuel with
  | O => None
  | S fuel =>
      match receive_sse w with
      | (Some (Ok (Some v)), w) => (fun vr => (v :: fst vr, snd vr)) <$> receive_all fuel w
      | (Some r, _) => Some ([], r)
      | (None, _) => None
      end
  end.

Lemma pop_frame_values frames rest :
  match pop_frame frames with
  | (Some (Ok v), frames') =>
      frame_values (frames ++ rest) = (v :: fst (frame_values (frames' ++ rest)), snd (frame_values (frames' ++ rest))) /\
      (length frames' < length frames)%nat
  | (Some (Err e), _) => frame_values (frames ++ rest) = ([], Err e)
  | (None, frames') => frame_values (frames ++ rest) = frame_values rest /\ frames' = []
  end.
Proof.
  induction frames as [|f frames IH]; simpl; [done|]. destruct (no_event f).
  - destruct (pop_frame frames) as [[[v|e]|] frames']; [|done|done]. destruct IH as [-> ?]. split; [done|lia].
  - destruct (from_str f) as [v|]; simpl; [|done]. destruct (frame_values (frames ++ rest)). split; [done|lia].
Qed.

(** The events of some frames, then [last] unless one of them is not an event. *)
Definition answers (fs : list string) (last : result (option Value) GatewayError) : list Value * result (option Value) GatewayError :=
  (fst (frame_values fs), match snd (frame_values fs) with Ok _ => last | Err e => Err e end).

(** How the network ends a body. *)
Definition end_chunk (stop : option GatewayError) : Chunk := match stop with Some e => CError e | None => CEnd end.

(** What the chunks of a body are decoded to: the frames of those before the first that
    fails, and how it ends. *)
Fixpoint read_chunks (cs : list string) (stop : option GatewayError) (d : SseDecoder) : list string * result (option Value) GatewayError :=
  match cs with
  | [] => match stop with
          | Some e => ([], Err e)
          | None => match finish d with (Ok fs, _) => (fs, Ok None) | (Err e, _) => ([], Err e) end
          end
  | c :: cs => match feed c d with
               | (Ok fs, d) => let '(more, last) := read_chunks cs stop d in (fs ++ more, last)
               | (Err e, _) => ([], Err e)
               end
  end.

(** The frames a wire still has to give, and its end. *)
Inductive due : SseWire -> list string -> result (option Value) GatewayError -> Prop :=
| due_end w : ss_eof w = true -> due w (ss_frames w) (Ok None)
| due_stream w cs stop rest last :
    ss_eof w = false -> ss_stream w = Some ((CData <$> cs) ++ [end_chunk stop]) ->
    read_chunks cs stop (ss_decoder w) = (rest, last) -> 0 <= ss_received w ->
    ss_received w + len (String.concat EmptyString cs) <= MAX_RESPONSE_BYTES ->
    due w (ss_frames w ++ rest) last.

(** One call of [receive] against the frames due. *)
Definition gives (fs : list string) (last : result (option Value) GatewayError) (rw : Received * SseWire) : Prop :=
  match rw with
  | (Some (Ok (Some v)), w) => exists fs', due w fs' last /\ (length fs' < length fs)%nat /\
      answers fs last = (v :: fst (answers fs' last), snd (answers fs' last))
  | (Some r, _) => answers fs last = ([], r)
  | (None, _) => False
  end.

Lemma gives_frame frames rest last (w : list string -> SseWire) (k : list string -> Received * SseWire) :
  (forall frames', due (w frames') (frames' ++ rest) last) ->
  gives rest last (k []) ->
  gives (frames ++ rest) last
    (match pop_frame frames with
     | (Some r, frames') => (Some (let? v := r in Ok (Some v)), w frames')
     | (None, frames') => k frames'
     end).
Proof.
  intros Hw Hk. pose proof (pop_frame_values frames rest) as Hp. unfold gives, answers in *. destruct (pop_frame frames) as [[[v|e]|] frames'].
  - destruct Hp as [Hp Hl]. exists (frames' ++ rest). split; [done|]. split; [rewrite !length_app; lia | by rewrite Hp].
  - by rewrite Hp.
  - destruct Hp as [Hp ->]. destruct (k []) as [[[[v|]|e]|] w']; [|by rewrite Hp..|done].
    destruct Hk as (fs' & Hd & Hl & Hf). exists fs'. rewrite length_app, Hp. split; [done|]. split; [lia | done].
Qed.

Lemma concat_cons c cs : String.concat EmptyString (c :: cs) = String.append c (String.concat EmptyString cs).
Proof. destruct cs; [symmetry; apply append_empty | done]. Qed.

Lemma receive_end_gives stop d frames received rest last :
  read_chunks [] stop d = (rest, last) -> 0 <= received <= MAX_RESPONSE_BYTES ->
  gives (frames ++ rest) last (receive_chunks [end_chunk stop] d frames received).
Proof.
  intros Hd Hr.
  assert (forall f, due (mkSseWire (Some [end_chunk stop]) d f false received) (f ++ rest) last) as Hdue.
  { intros f. apply (due_stream (mkSseWire (Some [end_chunk stop]) d f false received) [] stop rest last); try done; cbn; unfold len; simpl; lia. }
  destruct stop as [e|]; cbn [end_chunk read_chunks] in *.
  - injection Hd as <- <-. exact (gives_frame frames [] (Err e) _ (fun f => (Some (Err e), mkSseWire (Some []) d f false received)) Hdue eq_refl).
  - apply (gives_frame frames rest last _ (fun f => match finish d with
          | (Ok fs, d) => match pop_frame fs with
              | (Some r, fs) => (Some (let? v := r in Ok (Some v)), mkSseWire (Some []) d fs true received)
              | (None, fs) => (Some (Ok None), mkSseWire (Some []) d fs true received)
              end
          | (Err e, d) => (Some (Err e), mkSseWire (Some []) d f false received)
          end) Hdue).
    destruct (finish d) as [[fs|e] d']; injection Hd as <- <-; [|done].
    rewrite <- (app_nil_r fs) at 1.
    apply gives_frame with (w := fun f => mkSseWire (Some []) d' f true received)
      (k := fun f => (Some (Ok None), mkSseWire (Some []) d' f true received)); [|done].
    intros f. rewrite app_nil_r. by apply due_end.
Qed.

Lemma receive_chunks_gives cs stop d frames received rest last :
  read_chunks cs stop d = (rest, last) -> 0 <= received ->
  received + len (String.concat EmptyString cs) <= MAX_RESPONSE_BYTES ->
  gives (frames ++ rest) last (receive_chunks ((CData <$> cs) ++ [end_chunk stop]) d frames received).
Proof.
  revert d frames received rest last. induction cs as [|c cs IH]; intros d frames received rest last Hd H0 Hlen.
  - apply receive_end_gives; [done|]. change (String.concat EmptyString []) with EmptyString in Hlen. change (len EmptyString) with 0 in Hlen. lia.
  - pose proof Hlen as Hlen'. rewrite concat_cons, len_app in Hlen. pose proof (len_nonneg c). pose proof (len_nonneg (String.concat EmptyString cs)).
    assert (saturating_add received (len c) = received + len c) as Hsat
      by (unfold saturating_add, u64_max, MAX_RESPONSE_BYTES in *; lia).
    rewrite fmap_cons. cbn [receive_chunks app]. rewrite Hsat.
    rewrite (proj2 (Z.ltb_ge MAX_RESPONSE_BYTES (received + len c))) by lia.
    apply gives_frame with (w := fun f => mkSseWire (Some (CData c :: (CData <$> cs) ++ [end_chunk stop])) d f false received)
      (k := fun f => match feed c d with
          | (Ok fs, d) => receive_chunks ((CData <$> cs) ++ [end_chunk stop]) d fs (received + len c)
          | (Err e, d) => (Some (Err e), mkSseWire (Some ((CData <$> cs) ++ [end_chunk stop])) d f false (received + len c))
          end).
    { intros f. by apply (due_stream (mkSseWire (Some (CData c :: (CData <$> cs) ++ [end_chunk stop])) d f false received) (c :: cs) stop rest last). }
    cbn [read_chunks] in Hd. destruct (feed c d) as [[fs|e] d1]; [|by injection Hd as <- <-].
    destruct (read_chunks cs stop d1) as [more r] eqn:E2. injection Hd as <- <-. apply IH; [done|lia|lia].
Qed.

Lemma receive_sse_gives w fs last : due w fs last -> gives fs last (receive_sse w).
Proof.
  intros Hd. unfold receive_sse. inv Hd.
  - match goal with X : ss_eof w = true |- _ => rewrite X end. rewrite <- (app_nil_r (ss_frames w)) at 1.
    apply gives_frame with (w := fun f => mkSseWire (ss_stream w) (ss_decoder w) f true (ss_received w))
      (k := fun f => (Some (Ok None), mkSseWire (ss_stream w) (ss_decoder w) f true (ss_received w))); [|done].
    intros f. rewrite app_nil_r. by apply due_end.
  - match goal with X : ss_eof w = false |- _ => rewrite X end. match goal with X : ss_stream w = _ |- _ => rewrite X end.
    by apply receive_chunks_gives.
Qed.

Lemma receive_all_due fuel w fs last : due w fs last -> (length fs < fuel)%nat -> receive_all fuel w = Some (answers fs last).
Proof.
  revert w fs. induction fuel as [|fuel IH]; intros w fs Hd Hl; [lia|]. simpl.
  pose proof (receive_sse_gives w fs last Hd) as Hg. destruct (receive_sse w) as [[[[v|]|e]|] w']; simpl in Hg; [|by rewrite Hg..|done].
  destruct Hg as (fs' & Hd' & Hl' & ->). by rewrite (IH w' fs') by (done || lia).
Qed.

(** However it is cut, a body is refused with the same error, or accepted with the same frames. *)
Lemma sse_feed_app a b d : feed (String.append a b) d = (let! fs := feed a in let! more := feed b in ret (fs ++ more)) d.
Proof.
  revert d. induction a as [|c a IH]; intros d.
  - unfold bind, ret. simpl. change (String.append EmptyString b) with b. by destruct (feed b d) as [[]].
  - change (String.append (String c a) b) with (String c (String.append a b)). cbn [feed]. unfold bind in *.
    destruct (feed_byte c d) as [[fs|e] d1]; [|done]. rewrite IH. unfold ret. destruct (feed a d1) as [[fs1|e] d2]; [|done].
    destruct (feed b d2) as [[fs2|e] d3]; [|done]. by rewrite app_assoc.
Qed.

Lemma read_chunks_whole cs stop d fs last : read_chunks cs stop d = (fs, last) ->
  last = snd (read_chunks [String.concat EmptyString cs] stop d) /\
  (last = Ok None -> fs = fst (read_chunks [String.concat EmptyString cs] stop d)) /\
  (forall e, last = Err e -> exists a b d', String.concat EmptyString cs = String.append a b /\ feed a d = (Ok fs, d')).
Proof.
  revert d fs. induction cs as [|c cs IH]; intros d fs Hr.
  - cbn [read_chunks String.concat feed] in *. unfold ret. destruct stop as [e|]; [injection Hr as <- <-|destruct (finish d) as [[fin|e] d'] eqn:Ef; injection Hr as <- <-]; split_and!; try done;
      intros e0 _; by exists EmptyString, EmptyString, d.
  - rewrite concat_cons. cbn [read_chunks] in Hr |- *. pose proof (sse_feed_app c (String.concat EmptyString cs) d) as Ha. unfold bind in Ha. destruct (feed c d) as [[f1|e] d1] eqn:E1.
    2:{ rewrite Ha. injection Hr as <- <-. split_and!; try done. intros e' _. by exists EmptyString, (String.append c (String.concat EmptyString cs)), d. }
    destruct (read_chunks cs stop d1) as [more r] eqn:E2. injection Hr as <- <-. destruct (IH d1 more E2) as (Hl & Hok & Herr). cbn [read_chunks] in Hl, Hok.
    assert (forall e, r = Err e -> exists a b d', String.append c (String.concat EmptyString cs) = String.append a b /\ feed a d = (Ok (f1 ++ more), d')) as Herr'.
    { intros e Hn. destruct (Herr e Hn) as (a & b & d' & -> & Hf). exists (String.append c a), b, d'. split; [by rewrite append_assoc|].
      rewrite sse_feed_app. unfold bind. by rewrite E1, Hf. }
    rewrite Ha. clear Ha IH E2. destruct (feed (String.concat EmptyString cs) d1) as [[f2|e] d2]; cbn [ret].
    + destruct stop as [|]; [|destruct (finish d2) as [[]]]; cbn [fst snd] in *; (split; [done|split; [|done]]); intros Hn; rewrite (Hok Hn); by rewrite app_assoc.
    + cbn [fst snd] in *. split; [done|]. split; [congruence | done].
Qed.

(** The probe of a prolog gives every chunk back. *)
Lemma probe_replays arrivals d inspected fetched replay p replay' rest :
  probe arrivals d inspected fetched replay = (p, replay', rest) -> p = PrologOk ->
  replay' ++ (ar_chunk <$> rest) = replay ++ (ar_chunk <$> arrivals).
Proof.
  revert d inspected fetched replay. induction arrivals as [|a arrivals IH]; intros d inspected fetched replay Hp ->; simpl in Hp; [done|].
  destruct (ar_chunk a) as [bytes|e|] eqn:Ea; [|by destruct (ar_late a), e|done].
  destruct (ar_late a); [done|]. destruct (_ <? _); [done|].
  destruct (probe_bytes _ _ _ _) as [[| | | |]|[d1 n]]; try done.
  - injection Hp as <- <-. by rewrite fmap_cons, Ea, <- app_assoc.
  - apply IH in Hp; [|done]. by rewrite Hp, fmap_cons, Ea, <- app_assoc.
Qed.

Lemma admitted_stream arrivals stream : admit_sse_prolog arrivals = Ok stream -> stream = ar_chunk <$> arrivals.
Proof.
  unfold admit_sse_prolog. destruct (probe _ _ _ _ _) as [[p replay] rest] eqn:Ep.
  destruct p as [| | | |[]]; try done. intros [= <-]. by apply probe_replays in Ep.
Qed.

(** C11. A response body within the limit of a response gives the same events however the
    network cuts it, and whether or not its beginning was examined first for want of a media
    type.  If it is accepted in one piece, repeated calls of [receive] return exactly the
    values of the frames of the whole body, in order, without blank frames and the end
    marker, and then its end.  If in one piece it is refused, or the network fails, they
    return the values of the frames of a beginning of it, and then never a clean end but
    the same error, unless a frame that is not JSON came before. *)
Theorem sse_receive_exact cs stop stream :
  let body := String.concat EmptyString cs in
  stream = (CData <$> cs) ++ [end_chunk stop] \/
  (exists arrivals, ar_chunk <$> arrivals = (CData <$> cs) ++ [end_chunk stop] /\ admit_sse_prolog arrivals = Ok stream) ->
  len body <= MAX_RESPONSE_BYTES ->
  match read_chunks [body] stop (new_decoder false) with
  | (fs, Ok _) => stream_frames false body = Ok fs /\ stop = None /\ receive_all (S (length fs)) (open_response stream) = Some (frame_values fs)
  | (_, Err e) => exists a b fs d, body = String.append a b /\ feed a (new_decoder false) = (Ok fs, d) /\
      receive_all (S (length fs)) (open_response stream) = Some (fst (frame_values fs), match snd (frame_values fs) with Ok _ => Err e | Err e' => Err e' end)
  end.
Proof.
  intros body Hstream Hlen. assert (stream = (CData <$> cs) ++ [end_chunk stop]) as ->.
  { destruct Hstream as [?|(arrivals & <- & Ha)]; [done|]. by apply admitted_stream. }
  destruct (read_chunks cs stop (new_decoder false)) as [fs last] eqn:Er. destruct (read_chunks_whole _ _ _ _ _ Er) as (Hl & Hok & Herr). fold body in Hl, Hok, Herr.
  assert (receive_all (S (length fs)) (open_response ((CData <$> cs) ++ [end_chunk stop])) = Some (answers fs last)) as Hall.
  { apply receive_all_due; [|lia]. by apply (due_stream (open_response ((CData <$> cs) ++ [end_chunk stop])) cs stop fs last). }
  pose proof (decode_frames false [body]) as Hdec. cbv zeta in Hdec. change (String.concat EmptyString [body]) with body in Hdec. unfold decode, bind, feed_chunks, bind in Hdec.
  cbn [read_chunks] in Hl, Hok |- *. destruct (feed body (new_decoder false)) as [[f1|e] d1] eqn:Ef.
  2:{ cbn [fst snd] in *. subst last. destruct (Herr e eq_refl) as (a & b & d' & Hb & Hfa). exists a, b, fs, d'. by split_and!. }
  assert (forall e, last = Err e -> exists a b fs0 d, body = String.append a b /\ feed a (new_decoder false) = (Ok fs0, d) /\
    receive_all (S (length fs0)) (open_response ((CData <$> cs) ++ [end_chunk stop])) = Some (fst (frame_values fs0), match snd (frame_values fs0) with Ok _ => Err e | Err e' => Err e' end)) as Herr'.
  { intros e ->. destruct (Herr e eq_refl) as (a & b & d' & Hb & Hfa). exists a, b, fs, d'. by split_and!. }
  destruct stop as [e|]; [by apply Herr'|]. cbn [ret] in Hdec. rewrite app_nil_r in Hdec. destruct (finish d1) as [[f2|e] d2]; [|by apply Herr'].
  cbn [fst snd] in *. subst last. rewrite (Hok eq_refl) in Hall. split; [|split; [done|]].
  - destruct Hdec as [<- |[? _]]; done.
  - rewrite Hall. unfold answers. assert (forall l, match snd (frame_values l) with Ok _ => Ok None | Err e => Err e end = snd (frame_values l)) as Hx.
    { induction l as [|f l IH]; [done|]. cbn [frame_values]. destruct (no_event f); [done|]. destruct (from_str f); [|done]. by destruct (frame_values l). }
    rewrite Hx. by destruct (frame_values _).
Qed.
End wire.

(** A body of one event, the end marker and a final event, cut inside a line ending. *)
#[local] Instance wire_json : SerdeJson := {|
  from_str s :=
    if bool_decide (s = "created")
    then Some (object [("type", VString "response.created"); ("response", object [("id", VString "resp_1")])])
    else if bool_decide (s = "done") then Some (VString "done") else None;
  to_string _ := Some "json"
|}.
Definition blank_line : string := String CR (String LF (String CR (String LF EmptyString))).
Definition body_chunks : list string :=
  ["data: crea"; String.append "ted" (String CR EmptyString); String LF (String CR (String LF "data: [DONE]"));
   String.append blank_line "data: done"].

Definition body_stream : list Chunk := (CData <$> body_chunks) ++ [CEnd].
Lemma sse_receive_exact_witness :
  receive_all 4 (open_response body_stream) =
  Some ([object [("type", VString "response.created"); ("response", object [("id", VString "resp_1")])]; VString "done"], Ok None) /\
  exists e, snd (read_chunks [String.append "data: done" (String LF (String (byte 255) EmptyString))] None (new_decoder false)) = Err e.
Proof.
  split; [|by eexists; vm_compute].
  assert (admit_sse_prolog ((fun c => mkArrival false c false) <$> body_stream) = Ok body_stream) as Ha by (vm_compute; reflexivity).
  assert (len (String.concat EmptyString body_chunks) <= MAX_RESPONSE_BYTES) as Hl by (vm_compute; discriminate).
  assert (body_stream = (CData <$> body_chunks) ++ [end_chunk None] \/ (exists arrivals, ar_chunk <$> arrivals = (CData <$> body_chunks) ++ [end_chunk None] /\ admit_sse_prolog arrivals = Ok body_stream)) as Hs.
  { right. exists ((fun c => mkArrival false c false) <$> body_stream). split; [reflexivity | exact Ha]. }
  pose proof (sse_receive_exact body_chunks None body_stream Hs Hl) as Hr.
  assert (read_chunks [String.concat EmptyString body_chunks] None (new_decoder false) = (["created"; "[DONE]"; "done"], Ok None)) as E by (vm_compute; reflexivity).
  rewrite E in Hr. destruct Hr as (_ & _ & Hr). etrans; [exact Hr|]. vm_compute. reflexivity.
Defined.
