(* ===== verification/Positions.v ===== *)
(** * Positions of the conversation view
    (src/src/conversation/ids.rs, primitives.rs, mod.rs)

    The identities of entries, and the keys that order the fields of one: a key is
    stored as text, and the order of the texts is the order of the keys. *)
From S2P Require Import Prelude Records.

(** ** Numbers *)

Definition digit_value (c : Ascii.ascii) : Z :=
  let n := Z.of_nat (Ascii.nat_of_ascii c) in if n <=? 57 then n - 48 else n - 87.
Definition hex_char (d : Z) : Ascii.ascii :=
  Ascii.ascii_of_nat (Z.to_nat (if d <? 10 then 48 + d else 87 + d)).
Definition is_lower_hex (c : Ascii.ascii) : bool := is_ascii_digit c || byte_in 97 102 c.

(** [str::parse::<u64>] and [u64::from_str_radix] of digits. *)
Fixpoint digits_value (radix acc : Z) (s : string) : Z :=
  match s with EmptyString => acc | String c s => digits_value radix (acc * radix + digit_value c) s end.

(** [conversation::decimal]. *)
Definition parse_decimal (value : string) : option Z :=
  if str_is_empty value || negb (bytes_all is_ascii_digit value)
     || ((1 <? len value) && match value with String c _ => Ascii.eqb c "0"%char | EmptyString => false end)
  then None
  else let n := digits_value 10 0 value in if n <=? u64_max then Some n else None.

(** [format!("{value:016x}")], by its number of digits. *)
Fixpoint hex_digits (k : nat) (v : Z) : string :=
  match k with O => EmptyString | S k => String (hex_char (v / 16 ^ Z.of_nat k)) (hex_digits k (v mod 16 ^ Z.of_nat k)) end.
Definition hex (v : Z) : string := hex_digits 16 v.

Definition parse_hex (value : string) : option Z :=
  if negb (len value =? 16) || negb (bytes_all is_lower_hex value) then None else Some (digits_value 16 0 value).

(** ** Entry identities *)
Record EntryId : Type := mkEntryId { first_sequence : Z; position_slot : Z }.
#[export] Instance EntryId_eq_dec : EqDecision EntryId.
Proof. solve_decision. Defined.

Definition new_entry_id (sequence slot : Z) : option EntryId :=
  if sequence =? 0 then None else Some (mkEntryId sequence slot).

Definition parse_entry_id (value : string) : option EntryId :=
  rest ← strip_prefix "e:" value;
  parts ← split_colon rest;
  sequence ← parse_decimal (fst parts);
  slot ← parse_decimal (snd parts);
  new_entry_id sequence slot.

Definition show_entry_id (e : EntryId) : string :=
  String.append "e:" (String.append (decimal (first_sequence e)) (String ":"%char (decimal (position_slot e)))).

(** ** Order keys *)
Inductive FieldRank : Type :=
| Summary | Fallback | Content | FunctionName | FunctionArguments | ToolName | ToolOutput | Unsupported | Notice.
#[export] Instance FieldRank_eq_dec : EqDecision FieldRank.
Proof. solve_decision. Defined.

Definition rank_code (r : FieldRank) : Z :=
  match r with
  | Summary => 0 | Fallback => 1 | Content => 2 | FunctionName => 3 | FunctionArguments => 4
  | ToolName => 5 | ToolOutput => 6 | Unsupported => 7 | Notice => 8
  end.
Definition rank_group (r : FieldRank) : Z :=
  match r with
  | Summary => 0 | Fallback | Content => 1 | FunctionName => 2 | FunctionArguments => 3
  | ToolName => 4 | ToolOutput => 5 | Unsupported => 6 | Notice => 7
  end.
Definition rank_of_code (n : Z) : option FieldRank :=
  find (fun r => rank_code r =? n)
    [Summary; Fallback; Content; FunctionName; FunctionArguments; ToolName; ToolOutput; Unsupported; Notice].

Record OrderKey : Type := mkOrderKey {
  ok_output : option Z;
  ok_rank : FieldRank;
  ok_summary : option Z;
  ok_content : option Z
}.

(** [Ord]: the lexicographic order of [sortable_tuple]; null sorts before zero. *)
Definition compare_option (a b : option Z) : comparison :=
  match a, b with
  | None, None => Eq
  | None, Some _ => Lt
  | Some _, None => Gt
  | Some x, Some y => x ?= y
  end.
Definition then_compare (a b : comparison) : comparison := match a with Eq => b | _ => a end.
Definition key_compare (a b : OrderKey) : comparison :=
  then_compare (compare_option (ok_output a) (ok_output b))
    (then_compare (rank_group (ok_rank a) ?= rank_group (ok_rank b))
      (then_compare (compare_option (ok_summary a) (ok_summary b))
        (then_compare (compare_option (ok_content a) (ok_content b))
          (rank_code (ok_rank a) ?= rank_code (ok_rank b))))).

(** [component] and its parser. *)
Definition component (v : option Z) : string :=
  match v with None => "0" | Some v => String "1"%char (hex v) end.
Definition parse_component (value : string) : option (option Z) :=
  if bool_decide (value = "0") then Some None
  else rest ← strip_prefix "1" value; Some <$> parse_hex rest.

(** [Display]. *)
Definition colon (a b : string) : string := String.append a (String ":"%char b).
Definition show_key (k : OrderKey) : string :=
  colon (component (ok_output k))
    (colon (hex (rank_group (ok_rank k)))
      (colon (component (ok_summary k)) (colon (component (ok_content k)) (hex (rank_code (ok_rank k)))))).

(** [str::split(':')]. *)
Fixpoint split_all (s : string) : list string :=
  match s with
  | EmptyString => [EmptyString]
  | String c s =>
      if Ascii.eqb c ":"%char then EmptyString :: split_all s
      else match split_all s with [] => [String c EmptyString] | p :: ps => String c p :: ps end
  end.

(** [FromStr]. *)
Definition parse_key (value : string) : option OrderKey :=
  match split_all value with
  | [o; g; s; c; r] =>
      output ← parse_component o;
      group ← parse_hex g;
      summary ← parse_component s;
      content ← parse_component c;
      code ← parse_hex r;
      rank ← rank_of_code code;
      if group =? rank_group rank then Some (mkOrderKey output rank summary content) else None
  | _ => None
  end.

(** [source_spelling]: what the identity of a field is hashed from. *)
Definition source_spelling (k : OrderKey) : string :=
  let content := if bool_decide (ok_rank k = Fallback) then None else ok_content k in
  colon (component (ok_output k)) (colon (decimal (rank_code (ok_rank k))) (colon (component (ok_summary k)) (component content))).

(** [output_range]: the texts of the fields of one output. *)
Definition output_range (output : Z) : string * string :=
  let prefix := component (Some output) in (String.append prefix ":", String.append prefix ";").

(** A key whose numbers are [u64]. *)
Definition u64_option (v : option Z) : Prop := forall n, v = Some n -> 0 <= n <= u64_max.
Definition u64_key (k : OrderKey) : Prop :=
  u64_option (ok_output k) /\ u64_option (ok_summary k) /\ u64_option (ok_content k).

(** ** Hexadecimal *)
Lemma digit_cases d : 0 <= d < 16 -> In d (Z.of_nat <$> seq 0 16).
Proof. intros Hd. simpl. lia. Qed.

(** The sixteen digits are in the order of their characters. *)
Lemma hex_char_facts d : 0 <= d < 16 -> digit_value (hex_char d) = d /\ is_lower_hex (hex_char d) = true.
Proof.
  intros Hd%digit_cases. simpl in Hd.
  repeat (destruct Hd as [<-|Hd]; [by vm_compute|]). done.
Qed.

Lemma hex_char_compare c d : 0 <= c < 16 -> 0 <= d < 16 -> Ascii.compare (hex_char c) (hex_char d) = (c ?= d).
Proof.
  intros Hc%digit_cases Hd%digit_cases. simpl in Hc, Hd.
  repeat (destruct Hc as [<-|Hc]; [repeat (destruct Hd as [<-|Hd]; [by vm_compute|]); done|]). done.
Qed.

Lemma lower_hex_char c : is_lower_hex c = true -> 0 <= digit_value c < 16 /\ hex_char (digit_value c) = c.
Proof.
  unfold is_lower_hex, is_ascii_digit, byte_in, digit_value, hex_char. intros Hc.
  pose proof (Ascii.ascii_nat_embedding c) as He. set (n := Ascii.nat_of_ascii c) in *.
  apply orb_true_iff in Hc. rewrite !andb_true_iff, !Z.leb_le in Hc.
  destruct (Z.leb_spec (Z.of_nat n) 57) as [Hs|Hs].
  - split; [lia|]. destruct (Z.ltb_spec (Z.of_nat n - 48) 10); [|lia]. rewrite <- He. f_equal. lia.
  - split; [lia|]. destruct (Z.ltb_spec (Z.of_nat n - 87) 10); [lia|]. rewrite <- He. f_equal. lia.
Qed.

Lemma pow16_succ k : 16 ^ Z.of_nat (S k) = 16 * 16 ^ Z.of_nat k.
Proof. rewrite Nat2Z.inj_succ, Z.pow_succ_r by lia. done. Qed.

Lemma pow16_pos k : 0 < 16 ^ Z.of_nat k.
Proof. apply Z.pow_pos_nonneg; lia. Qed.

(** The first digit and the rest. *)
Lemma digit_split k v : 0 <= v < 16 ^ Z.of_nat (S k) ->
  0 <= v / 16 ^ Z.of_nat k < 16 /\ 0 <= v mod 16 ^ Z.of_nat k < 16 ^ Z.of_nat k /\
  v = 16 ^ Z.of_nat k * (v / 16 ^ Z.of_nat k) + v mod 16 ^ Z.of_nat k.
Proof.
  rewrite pow16_succ. pose proof (pow16_pos k). intros Hv. split; [|split].
  - split; [apply Z.div_pos; lia | apply Z.div_lt_upper_bound; lia].
  - by apply Z.mod_pos_bound.
  - apply Z.div_mod. lia.
Qed.

Lemma hex_digits_length k v : String.length (hex_digits k v) = k.
Proof. revert v. induction k as [|k IH]; intros v; simpl; [done | by rewrite IH]. Qed.

Lemma hex_digits_lower k v : 0 <= v < 16 ^ Z.of_nat k -> bytes_all is_lower_hex (hex_digits k v) = true.
Proof.
  revert v. induction k as [|k IH]; intros v Hv; [done|]. apply digit_split in Hv as (Hd & Hm & _). simpl.
  rewrite (proj2 (hex_char_facts _ Hd)). by apply IH.
Qed.

Lemma hex_digits_value k v acc : 0 <= v < 16 ^ Z.of_nat k ->
  digits_value 16 acc (hex_digits k v) = acc * 16 ^ Z.of_nat k + v.
Proof.
  revert v acc. induction k as [|k IH]; intros v acc Hv; [simpl in *; lia|].
  pose proof Hv as (Hd & Hm & Hs)%digit_split. cbn [hex_digits digits_value].
  rewrite (proj1 (hex_char_facts _ Hd)), IH by done. rewrite pow16_succ. nia.
Qed.

Lemma hex_digits_compare k v w : 0 <= v < 16 ^ Z.of_nat k -> 0 <= w < 16 ^ Z.of_nat k ->
  String.compare (hex_digits k v) (hex_digits k w) = (v ?= w).
Proof.
  revert v w. induction k as [|k IH]; intros v w Hv Hw; [simpl in *; symmetry; apply Z.compare_eq_iff; lia|].
  apply digit_split in Hv as (Hdv & Hmv & Hsv). apply digit_split in Hw as (Hdw & Hmw & Hsw).
  cbn [hex_digits String.compare]. rewrite hex_char_compare, IH by done.
  set (p := 16 ^ Z.of_nat k) in *. destruct (Z.compare_spec (v / p) (w / p)) as [E|E|E].
  - rewrite Hsv at 2. rewrite Hsw at 2. rewrite E. symmetry. apply Zcompare_plus_compat.
  - symmetry. apply Z.compare_lt_iff. nia.
  - symmetry. apply Z.compare_gt_iff. nia.
Qed.

(** Sixteen digits hold a [u64]. *)
Lemma u64_hex v : 0 <= v <= u64_max <-> 0 <= v < 16 ^ Z.of_nat 16.
Proof. change (16 ^ Z.of_nat 16) with 18446744073709551616. unfold u64_max. lia. Qed.

Lemma parse_hex_hex v : 0 <= v <= u64_max -> parse_hex (hex v) = Some v.
Proof.
  intros Hv%u64_hex. unfold parse_hex, hex, len. rewrite hex_digits_length, hex_digits_lower by done.
  change (negb (Z.of_nat 16 =? 16) || negb true) with false. cbv iota. by rewrite hex_digits_value.
Qed.

Lemma digits_value_acc radix acc s : digits_value radix acc s = acc * radix ^ len s + digits_value radix 0 s.
Proof.
  unfold len. revert acc. induction s as [|c s IH]; intros acc; [simpl; lia|]. cbn [digits_value String.length].
  rewrite IH, (IH (0 * radix + digit_value c)), Nat2Z.inj_succ, Z.pow_succ_r by lia. ring.
Qed.

(** Digits spell their value, and no other digits do. *)
Lemma hex_digits_spelled s : bytes_all is_lower_hex s = true ->
  0 <= digits_value 16 0 s < 16 ^ len s /\ hex_digits (String.length s) (digits_value 16 0 s) = s.
Proof.
  unfold len. induction s as [|c s IH]; intros Hs; [split; [simpl; lia | done]|]. cbn [bytes_all] in Hs.
  apply andb_true_iff in Hs as [Hc Hs]. apply lower_hex_char in Hc as [Hd Hch]. destruct (IH Hs) as [Hv Hh].
  cbn [digits_value String.length]. rewrite (digits_value_acc 16 (0 * 16 + digit_value c)). unfold len.
  replace (0 * 16 + digit_value c) with (digit_value c) by lia. rewrite pow16_succ.
  set (p := 16 ^ Z.of_nat (String.length s)) in *. set (x := digits_value 16 0 s) in *.
  split; [nia|]. cbn [hex_digits]. fold p.
  rewrite Z.div_add_l, (Z.div_small x p), Z.add_0_r, Z.add_comm, Z.mod_add, (Z.mod_small x p) by lia.
  by rewrite Hch, Hh.
Qed.

Lemma parse_hex_Some s v : parse_hex s = Some v <-> 0 <= v <= u64_max /\ s = hex v.
Proof.
  split; [|intros [Hv ->]; by apply parse_hex_hex].
  unfold parse_hex. destruct (Z.eqb_spec (len s) 16) as [Hl|]; [|done].
  destruct (bytes_all is_lower_hex s) eqn:Hb; [|done]. intros [= <-]. apply hex_digits_spelled in Hb as [Hv Hh].
  rewrite Hl in Hv. split; [unfold u64_max in *; simpl in *; lia|].
  unfold hex. rewrite <- Hh at 1. f_equal. unfold len in Hl. lia.
Qed.

(** ** The order of the texts *)
Lemma compare_app a b s t : String.length a = String.length b ->
  String.compare (String.append a s) (String.append b t) = then_compare (String.compare a b) (String.compare s t).
Proof.
  revert b. induction a as [|x a IH]; intros [|y b] Hl; try done. 
  change (String.append (String x a) s) with (String x (String.append a s)).
  change (String.append (String y b) t) with (String y (String.append b t)).
  cbn [String.compare]. injection Hl as Hl. destruct (Ascii.compare x y); [by apply IH | done..].
Qed.

Lemma compare_colon s t : String.compare (String ":"%char s) (String ":"%char t) = String.compare s t.
Proof. done. Qed.

(** A text that starts with a number. *)
Lemma compare_hex v w s t : 0 <= v <= u64_max -> 0 <= w <= u64_max ->
  String.compare (colon (hex v) s) (colon (hex w) t) = then_compare (v ?= w) (String.compare s t).
Proof.
  intros Hv%u64_hex Hw%u64_hex. unfold colon, hex.
  by rewrite compare_app, hex_digits_compare, compare_colon by (rewrite ?hex_digits_length; done).
Qed.

Lemma compare_component a b s t : u64_option a -> u64_option b ->
  String.compare (colon (component a) s) (colon (component b) t) = then_compare (compare_option a b) (String.compare s t).
Proof. intros Ha Hb. destruct a as [v|], b as [w|]; [apply compare_hex; [by apply Ha | by apply Hb]|done..]. Qed.

Lemma rank_codes r : 0 <= rank_group r <= u64_max /\ 0 <= rank_code r <= u64_max.
Proof. by destruct r. Qed.

(** The stored text of an order key sorts as the key does: comparing two texts
    byte by byte, as the database does, gives exactly the order of the keys, so a page
    of fields read in text order is in display order. *)
Lemma order_text_exact a b :
  u64_key a -> u64_key b -> String.compare (show_key a) (show_key b) = key_compare a b.
Proof.
  intros (Ho & Hs & Hc) (Ho' & Hs' & Hc'). destruct (rank_codes (ok_rank a)) as [Hg Hr], (rank_codes (ok_rank b)) as [Hg' Hr'].
  unfold show_key, key_compare.
  rewrite compare_component, compare_hex, !compare_component by done.
  unfold hex. by rewrite hex_digits_compare by (by apply u64_hex).
Qed.

(** ** Reading a key *)
Fixpoint no_colon (s : string) : bool :=
  match s with EmptyString => true | String c s => negb (Ascii.eqb c ":"%char) && no_colon s end.

Lemma split_all_colon a s : no_colon a = true -> split_all (colon a s) = a :: split_all s.
Proof.
  induction a as [|c a IH]; intros Ha; [done|]. simpl in Ha. apply andb_true_iff in Ha as [Hc Ha].
  apply negb_true_iff in Hc. change (colon (String c a) s) with (String c (colon a s)). cbn [split_all].
  by rewrite Hc, IH.
Qed.

Lemma split_all_one a : no_colon a = true -> split_all a = [a].
Proof.
  induction a as [|c a IH]; intros Ha; [done|]. simpl in *. apply andb_true_iff in Ha as [Hc Ha].
  apply negb_true_iff in Hc. by rewrite Hc, IH.
Qed.

(** Putting the parts together again. *)
Lemma split_all_join s : exists p ps, split_all s = p :: ps /\ s = fold_left colon ps p /\ Forall (fun q => no_colon q = true) (p :: ps).
Proof.
  induction s as [|c s (p & ps & Hp & Hs & HF)]; [exists EmptyString, []; split; [done|]; split; [done|]; by repeat constructor|].
  cbn [split_all]. destruct (Ascii.eqb_spec c ":"%char) as [-> |Hc].
  - rewrite Hp. exists EmptyString, (p :: ps). split; [done|]. split; [|by constructor].
    rewrite Hs at 1. clear. change (String ":"%char (fold_left colon ps p)) with (colon EmptyString (fold_left colon ps p)).
    simpl. generalize (EmptyString : string) as x. revert p. induction ps as [|q ps IH]; intros p x; [done|]. simpl.
    rewrite IH. f_equal. unfold colon. by rewrite append_assoc.
  - rewrite Hp. exists (String c p), ps. split; [done|]. split.
    + rewrite Hs at 1. clear. revert p. induction ps as [|q ps IH]; intros p; [done|]. simpl. by rewrite IH.
    + inv HF. constructor; [|done]. cbn [no_colon]. destruct (Ascii.eqb_spec c ":"%char); done.
Qed.

Lemma lower_hex_no_colon s : bytes_all is_lower_hex s = true -> no_colon s = true.
Proof.
  induction s as [|c s IH]; [done|]. cbn [bytes_all no_colon]. intros [Hc Hs]%andb_true_iff. rewrite IH by done.
  destruct (Ascii.eqb_spec c ":"%char) as [-> |]; [by vm_compute in Hc | done].
Qed.

Lemma hex_no_colon v : 0 <= v <= u64_max -> no_colon (hex v) = true.
Proof. intros Hv%u64_hex. by apply lower_hex_no_colon, hex_digits_lower. Qed.

Lemma component_no_colon v : u64_option v -> no_colon (component v) = true.
Proof. intros Hv. destruct v as [n|]; [|done]. simpl. by apply hex_no_colon, Hv. Qed.

Lemma parse_component_Some s v : parse_component s = Some v <-> u64_option v /\ s = component v.
Proof.
  unfold parse_component. case_bool_decide as E; [subst; split|].
  - intros [= <-]. done.
  - intros [_ Hs]. destruct v; [by apply (f_equal (fun x => match x with String c _ => Some c | _ => None end)) in Hs | done].
  - split.
    + destruct (strip_prefix "1" s) as [rest|] eqn:Es; [|done]. simpl. apply strip_prefix_Some in Es as ->.
      destruct (parse_hex rest) as [n|] eqn:En; [|done]. intros [= <-]. apply parse_hex_Some in En as [Hn ->].
      split; [by intros ? [= <-] | done].
    + intros [Hv ->]. destruct v as [n|]; [|done]. change (component (Some n)) with (String.append "1" (hex n)).
      rewrite strip_prefix_app. simpl. by rewrite parse_hex_hex by by apply Hv.
Qed.

Lemma rank_of_code_Some n r : rank_of_code n = Some r <-> n = rank_code r.
Proof.
  split; [|intros ->; by destruct r]. unfold rank_of_code. intros Hf. apply find_some in Hf as [_ Hn]. by apply Z.eqb_eq in Hn.
Qed.

Lemma colon_assoc a b c : colon (colon a b) c = colon a (colon b c).
Proof. unfold colon. by rewrite append_assoc. Qed.

(** A text is read as a key only if it is the text of that key. *)
Lemma parse_key_Some s k : parse_key s = Some k <-> u64_key k /\ s = show_key k.
Proof.
  split.
  - unfold parse_key. destruct (split_all_join s) as (o & ps & -> & Hs & _).
    destruct ps as [|g [|su [|c [|r [|]]]]]; try done. simpl in Hs.
    destruct (parse_component o) as [output|] eqn:Eo; [|done]. destruct (parse_hex g) as [group|] eqn:Eg; [|done].
    destruct (parse_component su) as [summary|] eqn:Es; [|done]. destruct (parse_component c) as [content|] eqn:Ec; [|done].
    destruct (parse_hex r) as [n|] eqn:Er; [|done]. simpl. destruct (rank_of_code n) as [rank|] eqn:En; [|done]. simpl.
    destruct (Z.eqb_spec group (rank_group rank)) as [-> |]; [|done]. intros [= <-].
    apply parse_component_Some in Eo as [Ho ->], Es as [Hsu ->], Ec as [Hc ->].
    apply parse_hex_Some in Eg as [_ ->], Er as [_ ->]. apply rank_of_code_Some in En as ->.
    split; [done|]. rewrite Hs. unfold show_key. simpl. by rewrite !colon_assoc.
  - intros [(Ho & Hs & Hc) ->]. unfold parse_key, show_key. destruct (rank_codes (ok_rank k)) as [Hg Hr].
    rewrite !split_all_colon, split_all_one by (done || by apply component_no_colon || by apply hex_no_colon).
    rewrite (proj2 (parse_component_Some _ _) (conj Ho eq_refl)), (proj2 (parse_component_Some _ _) (conj Hs eq_refl)),
      (proj2 (parse_component_Some _ _) (conj Hc eq_refl)), !parse_hex_hex by done. simpl.
    rewrite (proj2 (rank_of_code_Some _ _) eq_refl). simpl. rewrite Z.eqb_refl. by destruct k.
Qed.

(** ** Decimals *)
Lemma pretty_char_facts d : (d < 10)%N -> digit_value (pretty_N_char d) = Z.of_N d /\ is_ascii_digit (pretty_N_char d) = true /\
  (Ascii.eqb (pretty_N_char d) "0"%char = true -> d = 0%N).
Proof.
  intros Hd. assert (In (Z.of_N d) (Z.of_nat <$> seq 0 10)) as Hin by (simpl; lia).
  replace d with (Z.to_N (Z.of_N d)) by lia. simpl in Hin.
  repeat (destruct Hin as [<-|Hin]; [by vm_compute|]). done.
Qed.

Lemma pretty_go_value x s : digits_value 10 0 (pretty_N_go x s) = digits_value 10 (Z.of_N x) s.
Proof.
  revert s. induction (N.lt_wf_0 x) as [x _ IH]. intros s. destruct (decide (x = 0)%N) as [-> |Hx]; [done|].
  rewrite pretty_N_go_step by lia. rewrite IH by (apply N.div_lt; lia). cbn [digits_value].
  rewrite (proj1 (pretty_char_facts _ ltac:(apply N.mod_lt; lia))). f_equal.
  pose proof (N.div_mod x 10 ltac:(lia)). lia.
Qed.

Lemma pretty_go_digits x s : bytes_all is_ascii_digit s = true -> bytes_all is_ascii_digit (pretty_N_go x s) = true.
Proof.
  revert s. induction (N.lt_wf_0 x) as [x _ IH]. intros s Hs. destruct (decide (x = 0)%N) as [-> |Hx]; [done|].
  rewrite pretty_N_go_step by lia. apply IH; [apply N.div_lt; lia|]. cbn [bytes_all].
  by rewrite (proj1 (proj2 (pretty_char_facts _ ltac:(apply N.mod_lt; lia)))).
Qed.

Lemma pretty_go_app x s : pretty_N_go x s = String.append (pretty_N_go x EmptyString) s.
Proof.
  revert s. induction (N.lt_wf_0 x) as [x _ IH]. intros s. destruct (decide (x = 0)%N) as [-> |Hx]; [done|].
  rewrite !(pretty_N_go_step x) by lia. rewrite IH by (apply N.div_lt; lia).
  rewrite (IH (x `div` 10)%N ltac:(apply N.div_lt; lia) (String (pretty_N_char (x `mod` 10)) EmptyString)), append_assoc. done.
Qed.

Lemma decimal_step n : 10 <= n -> decimal n = String.append (decimal (n / 10)) (String (pretty_N_char (Z.to_N (n mod 10))) EmptyString).
Proof.
  intros Hn. unfold decimal, pretty, pretty_N.
  assert (0 < n / 10) by (apply Z.div_str_pos; lia).
  destruct (decide (Z.to_N n = 0)%N); [lia|]. destruct (decide (Z.to_N (n / 10) = 0)%N); [lia|].
  rewrite pretty_N_go_step by lia. rewrite pretty_go_app. do 2 f_equal.
  - by rewrite Z2N.inj_div by lia.
  - by rewrite Z2N.inj_mod by lia.
Qed.

Lemma decimal_digit n : 0 <= n < 10 -> decimal n = String (pretty_N_char (Z.to_N n)) EmptyString.
Proof.
  intros Hn. unfold decimal, pretty, pretty_N. destruct (decide (Z.to_N n = 0)%N) as [-> |]; [done|].
  rewrite pretty_N_go_step by lia. rewrite N.div_small, N.mod_small by lia. apply pretty_N_go_0.
Qed.

Lemma decimal_value n : 0 <= n -> digits_value 10 0 (decimal n) = n.
Proof.
  intros Hn. unfold decimal, pretty, pretty_N. destruct (decide (Z.to_N n = 0)%N) as [E|].
  - assert (n = 0) as -> by lia. done.
  - rewrite pretty_go_value. cbn [digits_value]. lia.
Qed.

Lemma decimal_digits n : bytes_all is_ascii_digit (decimal n) = true.
Proof. unfold decimal, pretty, pretty_N. destruct (decide _); [done | by apply pretty_go_digits]. Qed.

(** No spelling but ["0"] starts with a zero. *)
Definition leading_zero (s : string) : bool := match s with String c _ => Ascii.eqb c "0"%char | EmptyString => false end.

Lemma decimal_no_zero n : 0 < n -> leading_zero (decimal n) = false /\ decimal n <> EmptyString.
Proof.
  intros Hn. assert (0 <= n) as H0 by lia. revert Hn. pattern n. apply Zlt_0_ind; [|done]. clear n H0. intros n IH H0 Hn.
  destruct (Z_lt_ge_dec n 10) as [Hs|Hb].
  - rewrite decimal_digit by lia. split; [|done]. cbn [leading_zero].
    destruct (Ascii.eqb (pretty_N_char (Z.to_N n)) "0"%char) eqn:E; [|done].
    apply (pretty_char_facts (Z.to_N n)) in E; lia.
  - assert (0 < n / 10) by (apply Z.div_str_pos; lia). rewrite decimal_step by lia.
    destruct (IH (n / 10)) as [Hz He]; [split; [lia|]; apply Z.div_lt; lia | done |].
    by destruct (decimal (n / 10)).
Qed.

Lemma ascii_digit_char c : is_ascii_digit c = true -> 0 <= digit_value c < 10 /\ pretty_N_char (Z.to_N (digit_value c)) = c.
Proof.
  intros Hc. assert (is_lower_hex c = true) as [Hd Hch]%lower_hex_char by (unfold is_lower_hex; by rewrite Hc).
  assert (digit_value c < 10).
  { unfold is_ascii_digit, byte_in, digit_value in *. rewrite andb_true_iff, !Z.leb_le in Hc.
    destruct (Z.leb_spec (Z.of_nat (Ascii.nat_of_ascii c)) 57); lia. }
  split; [lia|]. rewrite <- Hch at 2. assert (In (digit_value c) (Z.of_nat <$> seq 0 10)) as Hin by (simpl; lia).
  simpl in Hin. repeat (destruct Hin as [<-|Hin]; [by vm_compute|]). done.
Qed.

Lemma digits_value_snoc s c : digits_value 10 0 (String.append s (String c EmptyString)) = digits_value 10 0 s * 10 + digit_value c.
Proof.
  generalize 0 as acc. induction s as [|a s IH]; intros acc; [done|]. exact (IH (acc * 10 + digit_value a)).
Qed.

Lemma string_snoc_ind (P : string -> Prop) :
  P EmptyString -> (forall s c, P s -> P (String.append s (String c EmptyString))) -> forall s, P s.
Proof.
  intros H0 Hs s. enough (forall t u, P u -> P (String.append u t)) as Hall by exact (Hall s EmptyString H0).
  induction t as [|c t IH]; intros u Hu; [by rewrite append_empty|].
  change (String c t) with (String.append (String c EmptyString) t). rewrite <- append_assoc. by apply IH, Hs.
Qed.

Lemma bytes_all_app p s t : bytes_all p (String.append s t) = bytes_all p s && bytes_all p t.
Proof. induction s as [|c s IH]; [done|]. change (String.append (String c s) t) with (String c (String.append s t)). simpl. by rewrite IH, andb_assoc. Qed.

(** The canonical digits of a number are its decimal. *)
Lemma decimal_spelled s : bytes_all is_ascii_digit s = true -> s <> EmptyString -> (leading_zero s = true -> s = "0") ->
  0 <= digits_value 10 0 s /\ (digits_value 10 0 s = 0 -> s = "0") /\ s = decimal (digits_value 10 0 s).
Proof.
  induction s as [|s c IH] using string_snoc_ind; [done|]. rewrite bytes_all_app. intros [Hs Hc]%andb_true_iff _ Hz.
  cbn [bytes_all] in Hc. rewrite andb_true_r in Hc. apply ascii_digit_char in Hc as [Hd Hch]. rewrite digits_value_snoc.
  destruct s as [|a s].
  - change (digits_value 10 0 EmptyString) with 0. replace (0 * 10 + digit_value c) with (digit_value c) by lia.
    change (String.append EmptyString (String c EmptyString)) with (String c EmptyString).
    rewrite decimal_digit, Hch by done. split; [lia|]. split; [|done]. intros E. by rewrite <- Hch, E.
  - destruct (IH Hs) as (Hv & H0 & Hdec); [done| |].
    { intros Hl. specialize (Hz Hl). by apply (f_equal String.length) in Hz; rewrite string_length_app in Hz; simpl in Hz; lia. }
    set (v := digits_value 10 0 (String a s)) in *.
    assert (v <> 0) as Hne.
    { intros E. apply H0 in E. rewrite E in Hz. specialize (Hz eq_refl). discriminate Hz. }
    split; [lia|]. split; [lia|]. rewrite decimal_step by lia.
    rewrite Z.div_add_l, Z.div_small, Z.add_0_r by lia.
    rewrite Z.add_comm, Z.mod_add, Z.mod_small by lia. by rewrite Hch, <- Hdec.
Qed.

Lemma parse_decimal_Some s n : parse_decimal s = Some n <-> 0 <= n <= u64_max /\ s = decimal n.
Proof.
  unfold parse_decimal. fold (leading_zero s). split.
  - destruct (str_is_empty s) eqn:Ee; [done|]. destruct (bytes_all is_ascii_digit s) eqn:Ed; [|done]. simpl.
    destruct ((1 <? len s) && leading_zero s) eqn:Ez; [done|].
    destruct (Z.leb_spec (digits_value 10 0 s) u64_max) as [Hu|]; [|done]. intros [= <-].
    destruct (decimal_spelled s Ed) as (Hv & _ & Hdec); [by intros ->| |].
    { intros Hl. rewrite Hl, andb_true_r in Ez. apply Z.ltb_ge in Ez. destruct s as [|c [|]]; try done.
      - simpl in Hl. by apply Ascii.eqb_eq in Hl as ->.
      - unfold len in Ez. simpl in Ez. lia. }
    split; [lia | done].
  - intros [Hn ->]. rewrite decimal_digits, decimal_value by lia.
    assert (str_is_empty (decimal n) = false /\ (1 <? len (decimal n)) && leading_zero (decimal n) = false) as [-> ->].
    { destruct (decide (n = 0)) as [-> |Hne]; [done|]. destruct (decimal_no_zero n) as [-> He]; [lia|].
      rewrite andb_false_r. split; [by apply str_is_empty_false | done]. }
    simpl. by rewrite (proj2 (Z.leb_le _ _) (proj2 Hn)).
Qed.

(** ** Reading an entry identity *)
Lemma split_colon_Some s a b : split_colon s = Some (a, b) -> s = colon a b /\ no_colon a = true.
Proof.
  revert a. induction s as [|c s IH]; intros a; [done|]. cbn [split_colon]. destruct (Ascii.eqb_spec c ":"%char) as [-> |Hc].
  - by intros [= <- <-].
  - destruct (split_colon s) as [[a' b']|]; [|done]. intros [= <- <-]. destruct (IH a' eq_refl) as [-> Ha].
    split; [done|]. cbn [no_colon]. rewrite Ha. by destruct (Ascii.eqb_spec c ":"%char).
Qed.

Lemma split_colon_colon a b : no_colon a = true -> split_colon (colon a b) = Some (a, b).
Proof.
  induction a as [|c a IH]; intros Ha; [done|]. cbn [no_colon] in Ha. apply andb_true_iff in Ha as [Hc Ha].
  apply negb_true_iff in Hc. change (colon (String c a) b) with (String c (colon a b)). cbn [split_colon]. by rewrite Hc, IH.
Qed.

Lemma digits_no_colon s : bytes_all is_ascii_digit s = true -> no_colon s = true.
Proof.
  intros Hs. apply lower_hex_no_colon. induction s as [|c s IH]; [done|]. cbn [bytes_all] in *.
  apply andb_true_iff in Hs as [Hc Hs]. rewrite IH by done.
  assert (is_lower_hex c = true) as -> by (unfold is_lower_hex; by rewrite Hc). done.
Qed.

Definition entry_id_ok (e : EntryId) : Prop := 0 < first_sequence e <= u64_max /\ 0 <= position_slot e <= u64_max.

Lemma parse_entry_id_Some s e : parse_entry_id s = Some e <-> entry_id_ok e /\ s = show_entry_id e.
Proof.
  unfold parse_entry_id, entry_id_ok, show_entry_id. split.
  - destruct (strip_prefix "e:" s) as [rest|] eqn:Es; [|done]. apply strip_prefix_Some in Es as ->. simpl.
    destruct (split_colon rest) as [[a b]|] eqn:Ec; [|done]. apply split_colon_Some in Ec as [-> _]. simpl.
    destruct (parse_decimal a) as [n|] eqn:Ea; [|done]. destruct (parse_decimal b) as [m|] eqn:Eb; [|done]. simpl.
    apply parse_decimal_Some in Ea as [Hn ->], Eb as [Hm ->]. unfold new_entry_id.
    destruct (Z.eqb_spec n 0); [done|]. intros [= <-]. simpl. split; [lia | done].
  - intros [[Hn Hm] ->]. rewrite strip_prefix_app. simpl. fold (colon (decimal (first_sequence e)) (decimal (position_slot e))).
    rewrite split_colon_colon by apply digits_no_colon, decimal_digits. simpl.
    rewrite (proj2 (parse_decimal_Some _ _) (conj (conj (Z.lt_le_incl _ _ (proj1 Hn)) (proj2 Hn)) eq_refl)).
    rewrite (proj2 (parse_decimal_Some _ _) (conj Hm eq_refl)). simpl. unfold new_entry_id.
    rewrite (proj2 (Z.eqb_neq _ _)) by lia. by destruct e.
Qed.
