(* ===== verification/Cursors.v ===== *)
(** * Cursors (src/src/conversation/cursors.rs)

    The opaque tokens a client pages with: a prefix and the base64 of a JSON array of
    texts.  Parsing accepts exactly the tokens that were issued. *)
From S2P Require Import Prelude Json Identifiers Records Positions.

Definition MAX_CURSOR_BYTES : Z := 4096.

(** [URL_SAFE_NO_PAD] of the [base64] crate. *)
Class Base64 := {
  b64_encode : string -> string;
  b64_decode : string -> option string
}.

(** [valid_field_id]. *)
Definition valid_field_id (value : string) : bool :=
  bool_decide (value = "text") || ((len value =? 64) && bytes_all is_lower_hex value).

Section cursors.
Context `{UuidLib} `{SerdeJson} `{Base64}.

(** [decode]: the fields of a token, all of them. *)
Definition decode_cursor (n : nat) (value prefix : string) : option (list Value) :=
  if MAX_CURSOR_BYTES <? len value then None
  else
    encoded ← strip_prefix prefix value;
    bytes ← b64_decode encoded;
    fields ← from_str bytes ≫= as_array;
    if negb (bool_decide ((head fields ≫= as_u64_value) = Some 1))
       || negb (bool_decide (to_string (VArray fields) = Some bytes))
    then None
    else if Nat.eqb (length fields) n then Some fields else None.

Definition number (v : Value) : option Z := as_str v ≫= parse_decimal.
Definition parse_identifier (v : Value) : option string :=
  value ← as_str v; match parse_id value with Ok id => Some id | Err _ => None end.

(** [encode]. *)
Definition encode_cursor (prefix : string) (fields : list string) : option string :=
  text ← to_string (VArray (VNumber (PosInt 1) :: (VString <$> fields)));
  Some (String.append prefix (b64_encode text)).

(** ** The four kinds *)
Record BlockCursor : Type := mkBlock { bc_session : string; bc_before : Z }.
Definition new_block (session : string) (before : Z) : option BlockCursor :=
  if before =? 0 then None else Some (mkBlock session before).
Definition parse_block (value : string) : option BlockCursor :=
  fields ← decode_cursor 3 value "g11b.";
  match fields with
  | [_; s; n] => session ← parse_identifier s; before ← number n; new_block session before
  | _ => None
  end.
Definition show_block (c : BlockCursor) : option string :=
  encode_cursor "g11b." [bc_session c; decimal (bc_before c)].

Record ActivityCursor : Type := mkActivity { ac_session : string; ac_run : string; ac_sequence : Z; ac_slot : Z }.
Definition new_activity (session run : string) (sequence slot : Z) : option ActivityCursor :=
  if sequence =? 0 then None else Some (mkActivity session run sequence slot).
Definition parse_activity (value : string) : option ActivityCursor :=
  fields ← decode_cursor 5 value "g11s.";
  match fields with
  | [_; s; r; n; m] =>
      session ← parse_identifier s; run ← parse_identifier r; sequence ← number n; slot ← number m;
      new_activity session run sequence slot
  | _ => None
  end.
Definition show_activity (c : ActivityCursor) : option string :=
  encode_cursor "g11s." [ac_session c; ac_run c; decimal (ac_sequence c); decimal (ac_slot c)].

Record ContentCursor : Type := mkContent {
  cc_session : string; cc_run : string; cc_entry : EntryId; cc_epoch : Z;
  cc_field : string; cc_generation : Z; cc_byte : Z
}.
Definition show_content (c : ContentCursor) : option string :=
  encode_cursor "g11c." [cc_session c; cc_run c; show_entry_id (cc_entry c); decimal (cc_epoch c);
                         cc_field c; decimal (cc_generation c); decimal (cc_byte c)].
(** A token too long to be parsed is not constructed. *)
Definition new_content (session run : string) (entry : EntryId) (epoch : Z) (fid : string) (generation byte : Z)
  : option ContentCursor :=
  if (epoch <? first_sequence entry) || (generation <? first_sequence entry) || negb (valid_field_id fid) then None
  else
    let c := mkContent session run entry epoch fid generation byte in
    token ← show_content c;
    if MAX_CURSOR_BYTES <? len token then None else Some c.
Definition parse_content (value : string) : option ContentCursor :=
  fields ← decode_cursor 8 value "g11c.";
  match fields with
  | [_; s; r; e; n; f; g; b] =>
      session ← parse_identifier s; run ← parse_identifier r; entry ← as_str e ≫= parse_entry_id;
      epoch ← number n; fid ← as_str f; generation ← number g; byte ← number b;
      new_content session run entry epoch fid generation byte
  | _ => None
  end.

Record LiveCursor : Type := mkLive {
  lc_session : string; lc_sequence : Z; lc_rank : Z; lc_run : option string; lc_entry : option EntryId
}.
Definition new_live (session : string) (sequence rank : Z) (run : option string) (entry : option EntryId) : option LiveCursor :=
  let valid_identity :=
    if (rank =? 0) || (rank =? 3) then is_none run && is_none entry
    else if rank =? 1 then is_some run && is_none entry
    else if rank =? 2 then is_some run && is_some entry else false in
  if (sequence =? 0) || negb valid_identity || is_some_and entry (fun e => sequence <? first_sequence e)
  then None else Some (mkLive session sequence rank run entry).
(** An empty text stands for no identity. *)
Definition parse_optional {A} (f : Value -> option A) (v : Value) : option (option A) :=
  t ← as_str v; if str_is_empty t then Some None else Some <$> f v.
Definition parse_live (value : string) : option LiveCursor :=
  fields ← decode_cursor 6 value "g11l.";
  match fields with
  | [_; s; n; k; r; e] =>
      rank ← number k;
      run ← parse_optional parse_identifier r;
      entry ← parse_optional (fun v => as_str v ≫= parse_entry_id) e;
      session ← parse_identifier s; sequence ← number n;
      if rank <=? 255 then new_live session sequence rank run entry else None
  | _ => None
  end.
Definition show_live (c : LiveCursor) : option string :=
  encode_cursor "g11l." [lc_session c; decimal (lc_sequence c); decimal (lc_rank c);
                         default EmptyString (lc_run c); default EmptyString (show_entry_id <$> lc_entry c)].
End cursors.

(** ** Tokens are exact *)

(** A text that JSON writes as it is. *)
Definition plain : string -> bool :=
  bytes_all (fun c => byte_in 32 126 c && negb (byte_in 34 34 c) && negb (byte_in 92 92 c)).
Definition quote : string := String (Ascii.ascii_of_nat 34) EmptyString.
Fixpoint quoted_texts (strs : list string) : string :=
  match strs with
  | [] => "]"
  | s :: strs => String.append "," (String.append quote (String.append s (String.append quote (quoted_texts strs))))
  end.
(** The compact JSON of the number one and some plain texts. *)
Definition texts_json (strs : list string) : string := String.append "[1" (quoted_texts strs).

(** What the crates document: strict base64 of the usual length, compact JSON, and
    36 characters in a hyphenated UUID. *)
Class CursorLaws `{UuidLib} `{SerdeJson} `{Base64} : Prop := {
  b64_inverse : forall s, b64_decode (b64_encode s) = Some s;
  b64_strict : forall e s, b64_decode e = Some s -> b64_encode s = e;
  b64_length : forall s, 3 * len (b64_encode s) <= 4 * len s + 2;
  json_writes_texts : forall strs, forallb plain strs = true ->
    to_string (VArray (VNumber (PosInt 1) :: (VString <$> strs))) = Some (texts_json strs);
  json_reads_texts : forall strs, forallb plain strs = true ->
    from_str (texts_json strs) = Some (VArray (VNumber (PosInt 1) :: (VString <$> strs)));
  uuid_text : forall s u, parse_str s = Some u -> len (hyphenated u) = 36 /\ plain (hyphenated u) = true
}.

(** The bytes of some texts in a token. *)
Definition text_bytes (strs : list string) : Z := fold_right (fun s n => len s + n) 0 strs.

Lemma quoted_texts_len strs : len (quoted_texts strs) = 1 + 3 * Z.of_nat (length strs) + text_bytes strs.
Proof.
  induction strs as [|s strs IH]; [done|]. cbn [quoted_texts text_bytes fold_right length]. rewrite !len_app, IH.
  change (len ",") with 1. change (len quote) with 1. fold (text_bytes strs). lia.
Qed.

Lemma text_bytes_bound b strs : 0 <= b -> Forall (fun s => len s <= b) strs -> 0 <= text_bytes strs <= b * Z.of_nat (length strs).
Proof.
  intros Hb. induction 1 as [|s strs Hs _ IH]; [simpl; lia|]. cbn [text_bytes fold_right length]. fold (text_bytes strs).
  pose proof (len_nonneg s). lia.
Qed.

#[local] Set Default Proof Using "All".
Section tokens.
Context `{UuidLib} `{SerdeJson} `{Base64} `{!CursorLaws}.

(** A few short texts make a token. *)
Lemma encode_plain prefix strs :
  forallb plain strs = true -> Forall (fun s => len s <= 64) strs -> (length strs <= 7)%nat -> len prefix = 5 ->
  exists token, encode_cursor prefix strs = Some token /\ len token <= MAX_CURSOR_BYTES /\
    decode_cursor (S (length strs)) token prefix = Some (VNumber (PosInt 1) :: (VString <$> strs)).
Proof.
  intros Hp Hl Hn Hpre. unfold encode_cursor. rewrite json_writes_texts by done. cbn [mbind option_bind].
  eexists. split; [done|].
  assert (len (String.append prefix (b64_encode (texts_json strs))) <= MAX_CURSOR_BYTES) as Hlen.
  { rewrite len_app. pose proof (b64_length (texts_json strs)) as Hb. unfold texts_json in Hb at 2.
    rewrite len_app, quoted_texts_len in Hb. change (len "[1") with 2 in Hb.
    pose proof (text_bytes_bound 64 strs ltac:(lia) Hl). unfold MAX_CURSOR_BYTES. lia. }
  split; [done|]. unfold decode_cursor. rewrite (proj2 (Z.ltb_ge _ _) Hlen), strip_prefix_app. cbn [mbind option_bind].
  rewrite b64_inverse. cbn [mbind option_bind]. rewrite json_reads_texts by done. cbn [mbind option_bind as_array].
  rewrite json_writes_texts by done. rewrite !bool_decide_eq_true_2 by done. cbn [negb orb].
  cbn [length]. by rewrite length_fmap, Nat.eqb_refl.
Qed.

(** A parsed token is the token of its fields. *)
Lemma decode_cursor_Some n value prefix fields :
  decode_cursor n value prefix = Some fields ->
  exists rest, fields = VNumber (PosInt 1) :: rest /\ length fields = n /\
    forall strs, rest = VString <$> strs -> encode_cursor prefix strs = Some value.
Proof.
  unfold decode_cursor. destruct (_ <? _); [done|]. destruct (strip_prefix prefix value) as [encoded|] eqn:Es; [|done].
  apply strip_prefix_Some in Es as ->. cbn [mbind option_bind].
  destruct (b64_decode encoded) as [bytes|] eqn:Eb; [|done]. apply b64_strict in Eb as <-. cbn [mbind option_bind].
  destruct (from_str bytes) as [v|]; [|done]. cbn [mbind option_bind].
  destruct (as_array v) as [l|]; [|done]. cbn [mbind option_bind].
  destruct (_ || _) eqn:Ec; [done|]. apply orb_false_iff in Ec as [Hh Ht]. apply negb_false_iff in Hh, Ht.
  apply bool_decide_eq_true_1 in Hh, Ht. destruct (Nat.eqb_spec (length l) n) as [Hl|]; [|done]. intros [= <-].
  destruct l as [|x rest]; [done|]. cbn [head mbind option_bind] in Hh. exists rest.
  assert (x = VNumber (PosInt 1)) as ->.
  { destruct x as [| |[k|k|k]| | |]; cbn [as_u64_value] in Hh; try done. by injection Hh as ->. }
  split; [done|]. split; [done|]. intros strs ->. unfold encode_cursor. by rewrite Ht.
Qed.

Lemma parse_id_text s : parse_id s = Ok s -> len s = 36 /\ plain s = true.
Proof.
  unfold parse_id. destruct (parse_str s) as [u|] eqn:E; [|done]. cbn [ok_or].
  destruct (is_nil u); [done|]. case_bool_decide as Hs; [|done]. intros _. rewrite <- Hs. by eapply uuid_text.
Qed.

Lemma parse_id_same s t : parse_id s = Ok t -> t = s.
Proof.
  unfold parse_id. destruct (parse_str s); [|done]. cbn [ok_or]. destruct (_ || _); [done|]. by intros [= <-].
Qed.

Lemma bytes_all_weaken (p q : Ascii.ascii -> bool) s :
  (forall c, p c = true -> q c = true) -> bytes_all p s = true -> bytes_all q s = true.
Proof.
  intros Hpq. induction s as [|c s IH]; [done|]. cbn [bytes_all]. intros [Hc Hs]%andb_true_iff. by rewrite (Hpq c Hc), IH.
Qed.

Lemma hex_plain s : bytes_all is_lower_hex s = true -> plain s = true.
Proof.
  apply bytes_all_weaken. intros c. unfold is_lower_hex, is_ascii_digit, byte_in.
  set (n := Z.of_nat (Ascii.nat_of_ascii c)). rewrite orb_true_iff, !andb_true_iff, !Z.leb_le. intros Hn.
  destruct (Z.leb_spec 32 n), (Z.leb_spec n 126), (Z.leb_spec 34 n), (Z.leb_spec n 34), (Z.leb_spec 92 n), (Z.leb_spec n 92); try done; lia.
Qed.

Lemma decimal_text n : 0 <= n <= u64_max -> len (decimal n) <= 64 /\ plain (decimal n) = true.
Proof.
  intros Hn. pose proof (decimal_u64_len n Hn). split; [lia|]. apply hex_plain.
  eapply bytes_all_weaken; [|apply decimal_digits]. intros c Hc. unfold is_lower_hex. by rewrite Hc.
Qed.

Lemma entry_text e : entry_id_ok e -> len (show_entry_id e) <= 64 /\ plain (show_entry_id e) = true.
Proof.
  intros [Hn Hm]. unfold show_entry_id, plain. rewrite !bytes_all_app.
  change (String ":"%char (decimal (position_slot e))) with (String.append ":" (decimal (position_slot e))).
  rewrite bytes_all_app, !len_app. change (len "e:") with 2. change (len ":") with 1.
  destruct (decimal_text (first_sequence e)) as [_ Hp1]; [lia|]. destruct (decimal_text _ Hm) as [_ Hp2].
  pose proof (decimal_u64_len (first_sequence e) ltac:(lia)). pose proof (decimal_u64_len _ Hm).
  unfold plain in Hp1, Hp2. rewrite Hp1, Hp2. split; [lia | done].
Qed.

Lemma field_text s : valid_field_id s = true -> len s <= 64 /\ plain s = true.
Proof.
  unfold valid_field_id. case_bool_decide as Hs; [by subst|]. simpl. intros [Hl Hb]%andb_true_iff.
  apply Z.eqb_eq in Hl. split; [lia | by apply hex_plain].
Qed.

(** ** What each kind of token may hold *)
Definition id_valid (s : string) : Prop := parse_id s = Ok s.
Definition is_u64 (n : Z) : Prop := 0 <= n <= u64_max.

Definition block_valid (c : BlockCursor) : Prop := id_valid (bc_session c) /\ 0 < bc_before c <= u64_max.
Definition activity_valid (c : ActivityCursor) : Prop :=
  id_valid (ac_session c) /\ id_valid (ac_run c) /\ 0 < ac_sequence c <= u64_max /\ is_u64 (ac_slot c).
Definition content_valid (c : ContentCursor) : Prop :=
  id_valid (cc_session c) /\ id_valid (cc_run c) /\ entry_id_ok (cc_entry c) /\
  first_sequence (cc_entry c) <= cc_epoch c <= u64_max /\ first_sequence (cc_entry c) <= cc_generation c <= u64_max /\
  valid_field_id (cc_field c) = true /\ is_u64 (cc_byte c).
(** The identities a rank needs. *)
Definition rank_identity (rank : Z) (run : option string) (entry : option EntryId) : Prop :=
  match run, entry with
  | None, None => rank = 0 \/ rank = 3
  | Some _, None => rank = 1
  | Some _, Some _ => rank = 2
  | None, Some _ => False
  end.

(** A position in the changes. *)
Definition live_valid (c : LiveCursor) : Prop :=
  id_valid (lc_session c) /\ 0 < lc_sequence c <= u64_max /\
  (forall r, lc_run c = Some r -> id_valid r) /\
  (forall e, lc_entry c = Some e -> entry_id_ok e /\ first_sequence e <= lc_sequence c) /\
  rank_identity (lc_rank c) (lc_run c) (lc_entry c).

Lemma parse_identifier_Some v id : parse_identifier v = Some id <-> v = VString id /\ id_valid id.
Proof.
  unfold parse_identifier, id_valid. split.
  - destruct v as [| | |s| |]; try done. cbn [as_str mbind option_bind]. destruct (parse_id s) as [t|] eqn:E; [|done].
    intros [= <-]. pose proof (parse_id_same _ _ E) as ->. done.
  - intros [-> Hid]. cbn [as_str mbind option_bind]. by rewrite Hid.
Qed.

Lemma number_Some v n : number v = Some n <-> v = VString (decimal n) /\ is_u64 n.
Proof.
  unfold number. split.
  - destruct v as [| | |s| |]; try done. cbn [as_str mbind option_bind]. intros [Hn ->]%parse_decimal_Some. done.
  - intros [-> Hn]. cbn [as_str mbind option_bind]. by apply parse_decimal_Some.
Qed.

Lemma entry_Some v e : as_str v ≫= parse_entry_id = Some e <-> v = VString (show_entry_id e) /\ entry_id_ok e.
Proof.
  split.
  - destruct v as [| | |s| |]; try done. cbn [as_str mbind option_bind]. intros [Hn ->]%parse_entry_id_Some. done.
  - intros [-> Hn]. cbn [as_str mbind option_bind]. by apply parse_entry_id_Some.
Qed.

Lemma as_str_Some v s : as_str v = Some s <-> v = VString s.
Proof. split; [by destruct v; try done; intros [= ->] | by intros ->]. Qed.

Lemma id_text s : id_valid s -> len s <= 64 /\ plain s = true.
Proof. intros [Hl Hp]%parse_id_text. split; [lia | done]. Qed.

(** Reading the fields of a token that was built from plain texts. *)
Lemma issued prefix strs n {C} (read : list Value -> option C) c :
  Forall (fun s => len s <= 64 /\ plain s = true) strs -> n = S (length strs) -> (length strs <= 7)%nat -> len prefix = 5 ->
  read (VNumber (PosInt 1) :: (VString <$> strs)) = Some c ->
  exists token, encode_cursor prefix strs = Some token /\ len token <= MAX_CURSOR_BYTES /\
    (decode_cursor n token prefix ≫= read) = Some c.
Proof.
  intros HF -> Hn Hp Hr. destruct (encode_plain prefix strs) as (token & He & Hl & Hd); try done.
  - apply forallb_forall. intros s Hs%list_elem_of_In. rewrite Forall_forall in HF. by apply HF.
  - eapply Forall_impl; [exact HF|]. by intros s [? _].
  - exists token. split; [done|]. split; [done|]. by rewrite Hd.
Qed.

(** Take the fields of a successful parse apart. *)
Ltac parsed X :=
  repeat (apply bind_Some in X as (? & ? & X));
  repeat match goal with
  | Y : parse_identifier _ = Some _ |- _ => apply parse_identifier_Some in Y as [-> Y]
  | Y : number _ = Some _ |- _ => apply number_Some in Y as [-> Y]
  | Y : mbind parse_entry_id (as_str _) = Some _ |- _ => apply entry_Some in Y as [-> Y]
  | Y : as_str _ = Some _ |- _ => apply as_str_Some in Y as ->
  end.

(** The fields read back; [facts] are what the texts are. *)
Ltac reads :=
  repeat (cbn [mbind option_bind as_str]; match goal with
  | |- context [parse_identifier (VString ?s)] => rewrite (proj2 (parse_identifier_Some (VString s) s)) by done
  | |- context [number (VString (decimal ?n))] => rewrite (proj2 (number_Some (VString (decimal n)) n)) by (unfold is_u64 in *; split; [done | lia])
  | |- context [parse_entry_id (show_entry_id ?e)] => rewrite (proj2 (parse_entry_id_Some (show_entry_id e) e)) by done
  end); cbn [mbind option_bind as_str].

(** The texts of a token are short and plain. *)
Ltac plain_texts :=
  repeat apply Forall_cons_2; try apply Forall_nil_2;
  first [by apply id_text | by apply entry_text | by apply field_text | apply decimal_text; unfold is_u64 in *; lia].

Lemma block_exact s c : parse_block s = Some c <-> block_valid c /\ show_block c = Some s.
Proof.
  split.
  - unfold parse_block. intros (fields & Hd & Hp)%bind_Some. apply decode_cursor_Some in Hd as (rest & -> & Hl & He).
    destruct rest as [|v1 [|v2 [|]]]; try done. parsed Hp.
    unfold new_block in Hp. case_match eqn:E; [done|]. apply Z.eqb_neq in E. injection Hp as <-.
    split; [split; [done|]; unfold is_u64 in *; simpl; lia|]. by apply He.
  - intros [[Hs Hb] Hshow]. unfold show_block in Hshow.
    destruct (issued "g11b." [bc_session c; decimal (bc_before c)] 3 (fun fields =>
      match fields with [_; s; n] => session ← parse_identifier s; before ← number n; new_block session before | _ => None end) c)
      as (token & Ht & _ & Hd); [| done | simpl; lia | done | | by rewrite Hshow in Ht; injection Ht as <-].
    + plain_texts.
    + cbn [fmap list_fmap]. reads. unfold new_block. rewrite (proj2 (Z.eqb_neq _ _)) by lia. by destruct c.
Qed.

Lemma activity_exact s c : parse_activity s = Some c <-> activity_valid c /\ show_activity c = Some s.
Proof.
  split.
  - unfold parse_activity. intros (fields & Hd & Hp)%bind_Some. apply decode_cursor_Some in Hd as (rest & -> & Hl & He).
    destruct rest as [|v1 [|v2 [|v3 [|v4 [|]]]]]; try done. parsed Hp.
    unfold new_activity in Hp. case_match eqn:E; [done|]. apply Z.eqb_neq in E. injection Hp as <-.
    split; [|by apply He]. unfold activity_valid, is_u64 in *. simpl. split; [done|]. split; [done|]. lia.
  - intros [(Hs & Hr & Hn & Hm) Hshow]. unfold show_activity in Hshow.
    destruct (issued "g11s." [ac_session c; ac_run c; decimal (ac_sequence c); decimal (ac_slot c)] 5 (fun fields =>
      match fields with
      | [_; s; r; n; m] =>
          session ← parse_identifier s; run ← parse_identifier r; sequence ← number n; slot ← number m;
          new_activity session run sequence slot
      | _ => None
      end) c) as (token & Ht & _ & Hd); [| done | simpl; lia | done | | by rewrite Hshow in Ht; injection Ht as <-].
    + plain_texts.
    + cbn [fmap list_fmap]. reads. unfold new_activity. rewrite (proj2 (Z.eqb_neq _ _)) by lia. by destruct c.
Qed.

Lemma content_exact s c : parse_content s = Some c <-> content_valid c /\ show_content c = Some s.
Proof.
  split.
  - unfold parse_content. intros (fields & Hd & Hp)%bind_Some. apply decode_cursor_Some in Hd as (rest & -> & Hl & He).
    destruct rest as [|v1 [|v2 [|v3 [|v4 [|v5 [|v6 [|v7 [|]]]]]]]]; try done.
    parsed Hp. unfold new_content in Hp. case_match eqn:E; [done|].
    apply bind_Some in Hp as (token & Ht & Hp). case_match; [done|]. injection Hp as <-.
    split; [|by apply He]. apply orb_false_iff in E as [[E1 E2]%orb_false_iff E3].
    apply Z.ltb_ge in E1, E2. apply negb_false_iff in E3. unfold content_valid, is_u64 in *. simpl.
    do 3 (split; [done|]). split; [lia|]. split; [lia|]. done.
  - intros [(Hs & Hr & He & Hn & Hg & Hf & Hb) Hshow]. pose proof He as [He1 He2].
    destruct (issued "g11c." [cc_session c; cc_run c; show_entry_id (cc_entry c); decimal (cc_epoch c);
        cc_field c; decimal (cc_generation c); decimal (cc_byte c)] 8 (fun fields =>
      match fields with
      | [_; s; r; e; n; f; g; b] =>
          session ← parse_identifier s; run ← parse_identifier r; entry ← as_str e ≫= parse_entry_id;
          epoch ← number n; fid ← as_str f; generation ← number g; byte ← number b;
          new_content session run entry epoch fid generation byte
      | _ => None
      end) c) as (token & Ht & _ & Hd); [| done | simpl; lia | done | | by unfold show_content in Hshow; rewrite Hshow in Ht; injection Ht as <-].
    + plain_texts.
    + cbn [fmap list_fmap]. reads. unfold new_content.
      rewrite (proj2 (Z.ltb_ge _ _)), (proj2 (Z.ltb_ge (cc_generation c) _)), Hf by lia. cbn [negb orb].
      replace (mkContent (cc_session c) (cc_run c) (cc_entry c) (cc_epoch c) (cc_field c) (cc_generation c) (cc_byte c)) with c by by destruct c.
      destruct (encode_plain "g11c." [cc_session c; cc_run c; show_entry_id (cc_entry c); decimal (cc_epoch c);
        cc_field c; decimal (cc_generation c); decimal (cc_byte c)]) as (token & Ht & Hlen & _); [| |simpl; lia|done|].
      * cbn [forallb]. by rewrite (proj2 (id_text _ Hs)), (proj2 (id_text _ Hr)), (proj2 (entry_text _ He)), (proj2 (field_text _ Hf)),
          !(fun n Hn => proj2 (decimal_text n Hn)) by (unfold is_u64 in *; lia).
      * eapply Forall_impl with (P := fun s => len s <= 64 /\ plain s = true); [plain_texts | by intros ? [? _]].
      * change (show_content c) with (encode_cursor "g11c." [cc_session c; cc_run c; show_entry_id (cc_entry c); decimal (cc_epoch c);
          cc_field c; decimal (cc_generation c); decimal (cc_byte c)]). rewrite Ht. cbn [mbind option_bind].
        by rewrite (proj2 (Z.ltb_ge _ _) Hlen).
Qed.

Lemma parse_optional_Some {A} (f : Value -> option A) v o :
  parse_optional f v = Some o <->
  (v = VString EmptyString /\ o = None) \/ exists t a, v = VString t /\ t <> EmptyString /\ o = Some a /\ f v = Some a.
Proof.
  unfold parse_optional. split.
  - intros (t & ->%as_str_Some & Hp)%bind_Some. destruct t as [|x t]; [left; split; [done | by injection Hp as <-]|]. simpl in Hp.
    destruct (f _) as [a|] eqn:E; [|done]. injection Hp as <-. right. by exists (String x t), a.
  - intros [[-> ->]|(t & a & -> & Hne & -> & Hf)]; [done|]. cbn [as_str mbind option_bind].
    rewrite (str_is_empty_false _ Hne), Hf. done.
Qed.

Lemma id_nonempty r : id_valid r -> r <> EmptyString.
Proof. intros [Hl _]%parse_id_text ->. done. Qed.

Lemma run_text o : (forall r, o = Some r -> id_valid r) ->
  parse_optional parse_identifier (VString (default EmptyString o)) = Some o /\
  len (default EmptyString o) <= 64 /\ plain (default EmptyString o) = true.
Proof.
  intros Ho. destruct o as [r|]; [|done]. specialize (Ho r eq_refl). simpl. split; [|by apply id_text].
  apply parse_optional_Some. right. exists r, r. split; [done|]. split; [by apply id_nonempty|]. split; [done|].
  by apply parse_identifier_Some.
Qed.

Lemma optional_entry_text o : (forall e, o = Some e -> entry_id_ok e) ->
  parse_optional (fun v => as_str v ≫= parse_entry_id) (VString (default EmptyString (show_entry_id <$> o))) = Some o /\
  len (default EmptyString (show_entry_id <$> o)) <= 64 /\ plain (default EmptyString (show_entry_id <$> o)) = true.
Proof.
  intros Ho. destruct o as [e|]; [|done]. specialize (Ho e eq_refl). simpl. split; [|by apply entry_text].
  apply parse_optional_Some. right. exists (show_entry_id e), e. split; [done|]. split; [done|]. split; [done|].
  by apply entry_Some.
Qed.

Lemma rank_identity_spec rank run entry :
  (if (rank =? 0) || (rank =? 3) then is_none run && is_none entry
   else if rank =? 1 then is_some run && is_none entry
   else if rank =? 2 then is_some run && is_some entry else false) = true <-> rank_identity rank run entry.
Proof.
  destruct run, entry; unfold rank_identity; cbn [is_none is_some negb andb];
    destruct (Z.eqb_spec rank 0), (Z.eqb_spec rank 3), (Z.eqb_spec rank 1), (Z.eqb_spec rank 2); cbn [orb];
    split; intros ?; try done; try lia; auto.
Qed.

(** [new] of a live cursor, as what it accepts. *)
Lemma new_live_Some session sequence rank run entry c :
  new_live session sequence rank run entry = Some c <->
  c = mkLive session sequence rank run entry /\ sequence <> 0 /\
  (forall e, entry = Some e -> first_sequence e <= sequence) /\ rank_identity rank run entry.
Proof.
  unfold new_live. pose proof (rank_identity_spec rank run entry) as Hr.
  destruct (Z.eqb_spec sequence 0) as [-> |Hs]; [naive_solver|]. cbn [orb].
  destruct (if (rank =? 0) || (rank =? 3) then _ else _); cbn [negb orb]; [|split; [done|]; intros (_ & _ & _ & ?%Hr); done].
  assert (is_some_and entry (fun e => sequence <? first_sequence e) = false <->
          forall e, entry = Some e -> first_sequence e <= sequence) as He.
  { destruct entry as [e|]; simpl; [rewrite Z.ltb_ge; naive_solver | naive_solver]. }
  destruct (is_some_and entry _).
  - split; [done|]. intros (_ & _ & Hx & _). by apply He in Hx.
  - split; [intros [= <-]; repeat split; [done | by apply He | by apply Hr] | by intros [-> _]].
Qed.

Lemma live_exact s c : parse_live s = Some c <-> live_valid c /\ show_live c = Some s.
Proof.
  split.
  - unfold parse_live. intros (fields & Hd & Hp)%bind_Some. apply decode_cursor_Some in Hd as (rest & -> & Hl & He).
    destruct rest as [|v1 [|v2 [|v3 [|v4 [|v5 [|]]]]]]; try done.
    apply bind_Some in Hp as (rank & [-> Hk]%number_Some & Hp). apply bind_Some in Hp as (run & Hr & Hp).
    apply bind_Some in Hp as (entry & Hen & Hp). apply bind_Some in Hp as (session & [-> Hs]%parse_identifier_Some & Hp).
    apply bind_Some in Hp as (sequence & [-> Hn]%number_Some & Hp). destruct (rank <=? 255); [|done].
    apply new_live_Some in Hp as (-> & Hz & Hfirst & Hid).
    assert (v4 = VString (default EmptyString run) /\ forall r, run = Some r -> id_valid r) as [-> Hrun].
    { apply parse_optional_Some in Hr as [[-> ->]|(t & a & -> & _ & -> & [[= ->] Ha]%parse_identifier_Some)]; [done|].
      split; [done|]. by intros ? [= <-]. }
    assert (v5 = VString (default EmptyString (show_entry_id <$> entry)) /\ forall e, entry = Some e -> entry_id_ok e) as [-> Hentry].
    { apply parse_optional_Some in Hen as [[-> ->]|(t & a & -> & _ & -> & [[= ->] Ha]%entry_Some)]; [done|].
      split; [done|]. by intros ? [= <-]. }
    split; [|by apply He]. unfold is_u64 in *. split; [done|]. split; [simpl; lia|]. split; [done|]. split; [|done].
    intros e E. split; [by apply Hentry | by apply Hfirst].
  - intros [(Hs & Hn & Hrun & Hentry & Hid) Hshow]. unfold show_live in Hshow.
    destruct (run_text (lc_run c) Hrun) as (Hpr & Hrt). destruct (optional_entry_text (lc_entry c)) as (Hpe & Het); [intros e E; by apply Hentry|].
    assert (0 <= lc_rank c <= 3) as Hk by (destruct (lc_run c), (lc_entry c); simpl in Hid; lia).
    destruct (issued "g11l." [lc_session c; decimal (lc_sequence c); decimal (lc_rank c);
        default EmptyString (lc_run c); default EmptyString (show_entry_id <$> lc_entry c)] 6 (fun fields =>
      match fields with
      | [_; s; n; k; r; e] =>
          rank ← number k;
          run ← parse_optional parse_identifier r;
          entry ← parse_optional (fun v => as_str v ≫= parse_entry_id) e;
          session ← parse_identifier s; sequence ← number n;
          if rank <=? 255 then new_live session sequence rank run entry else None
      | _ => None
      end) c) as (token & Ht & _ & Hd); [| done | simpl; lia | done | | by rewrite Hshow in Ht; injection Ht as <-].
    + repeat apply Forall_cons_2; try apply Forall_nil_2; [by apply id_text | apply decimal_text; lia | apply decimal_text; unfold u64_max; lia | done | done].
    + cbn [fmap list_fmap].
      rewrite (proj2 (number_Some (VString (decimal (lc_rank c))) (lc_rank c))) by (unfold is_u64, u64_max; split; [done | lia]).
      cbn [mbind option_bind]. rewrite Hpr, Hpe. reads. rewrite (proj2 (Z.leb_le _ _)) by lia.
      apply new_live_Some. split; [by destruct c|]. split; [lia|]. split; [|done]. intros e E. by apply Hentry.
Qed.

(** C39. A token is accepted exactly when it was issued: for each of the four kinds,
    parsing a text gives a cursor if and only if the cursor satisfies the rules of its
    constructor and the text is the token the cursor displays as.  So parsing undoes
    display, no two texts are the same cursor, and no issued token exceeds the limit
    of the parser. *)
Theorem cursors_exact :
  (forall s c, parse_block s = Some c <-> block_valid c /\ show_block c = Some s) /\
  (forall s c, parse_activity s = Some c <-> activity_valid c /\ show_activity c = Some s) /\
  (forall s c, parse_content s = Some c <-> content_valid c /\ show_content c = Some s) /\
  (forall s c, parse_live s = Some c <-> live_valid c /\ show_live c = Some s).
Proof.
  split; [intros; apply block_exact|]. split; [intros; apply activity_exact|].
  split; [intros; apply content_exact | intros; apply live_exact].
Qed.
End tokens.

(** ** A library that satisfies the laws *)
Definition quote_char : Ascii.ascii := Ascii.ascii_of_nat 34.
Fixpoint until_quote (s : string) : option (string * string) :=
  match s with
  | EmptyString => None
  | String c s =>
      if Ascii.eqb c quote_char then Some (EmptyString, s)
      else ab ← until_quote s; Some (String c (fst ab), snd ab)
  end.
Fixpoint read_texts (fuel : nat) (s : string) : option (list string) :=
  match fuel with
  | O => None
  | S fuel =>
      if bool_decide (s = "]") then Some []
      else
        rest ← strip_prefix (String.append "," quote) s;
        ab ← until_quote rest;
        strs ← read_texts fuel (snd ab);
        Some (fst ab :: strs)
  end.

Definition cursor_json : SerdeJson := {|
  from_str t :=
    rest ← strip_prefix "[1" t;
    strs ← read_texts (S (String.length rest)) rest;
    Some (VArray (VNumber (PosInt 1) :: (VString <$> strs)));
  to_string v :=
    match v with
    | VArray (VNumber (PosInt 1) :: vs) => strs ← mapM as_str vs; Some (texts_json strs)
    | _ => None
    end
|}.
Definition cursor_base64 : Base64 := {| b64_encode s := s; b64_decode s := Some s |}.

Lemma until_quote_plain s t : plain s = true -> until_quote (String.append s (String.append quote t)) = Some (s, t).
Proof.
  induction s as [|c s IH]; intros Hp; [done|].
  change (String.append (String c s) (String.append quote t)) with (String c (String.append s (String.append quote t))).
  unfold plain in Hp. cbn [bytes_all] in Hp. apply andb_true_iff in Hp as [Hc Hp]. cbn [until_quote].
  destruct (Ascii.eqb_spec c quote_char) as [-> |]; [by vm_compute in Hc|]. by rewrite IH.
Qed.

Lemma read_quoted fuel strs : forallb plain strs = true -> (length strs < fuel)%nat -> read_texts fuel (quoted_texts strs) = Some strs.
Proof.
  revert strs. induction fuel as [|fuel IH]; intros strs Hp Hl; [lia|]. destruct strs as [|s strs]; [done|].
  cbn [forallb] in Hp. apply andb_true_iff in Hp as [Hs Hp]. cbn [length] in Hl. cbn [read_texts quoted_texts].
  rewrite bool_decide_eq_false_2 by done.
  rewrite <- append_assoc, strip_prefix_app. cbn [mbind option_bind]. rewrite until_quote_plain by done.
  cbn [mbind option_bind fst snd]. by rewrite IH by (done || lia).
Qed.

Lemma mapM_texts strs : mapM as_str (VString <$> strs) = Some strs.
Proof. by apply mapM_Some_2, Forall2_fmap_l, Forall_Forall2_diag, Forall_true. Qed.

Lemma shape_text i s : hyphenated_shape i s = true -> (i <= 36)%nat ->
  String.length s = (36 - i)%nat /\ plain (string_map lower_hex s) = true.
Proof.
  revert i. induction s as [|c s IH]; intros i Hs Hi; [apply Nat.eqb_eq in Hs as ->; done|].
  cbn [hyphenated_shape] in Hs. apply andb_true_iff in Hs as [Hc Hs].
  assert (i <> 36)%nat as Hne.
  { intros ->. clear -Hs. assert (forall j t, (36 < j)%nat -> hyphenated_shape j t = false) as Hno.
    { intros j t. revert j. induction t as [|x t IHt]; intros j Hj; cbn [hyphenated_shape]; [apply Nat.eqb_neq; lia|].
      by rewrite IHt, andb_false_r by lia. }
    rewrite Hno in Hs; [done|lia]. }
  destruct (IH (S i) Hs) as [Hl Hp]; [lia|]. split; [simpl; lia|]. cbn [string_map plain bytes_all]. unfold plain in *. cbn [bytes_all].
  rewrite Hp, andb_true_r. clear -Hc.
  assert (hex_digit c = true \/ c = "-"%char) as [Hx| ->]; [|unfold hex_digit, is_ascii_digit in Hx|done].
  { destruct (_ || _) in Hc; [right; by apply Ascii.eqb_eq | by left]. }
  destruct c as [[] [] [] [] [] [] [] []]; vm_compute in Hx; vm_compute; done.
Qed.

Lemma string_map_length f s : String.length (string_map f s) = String.length s.
Proof. induction s as [|c s IH]; simpl; [done | by rewrite IH]. Qed.

Lemma example_laws : @CursorLaws example_uuid cursor_json cursor_base64.
Proof.
  split; cbn [b64_encode b64_decode cursor_base64].
  - done.
  - by intros e s [= <-].
  - intros s. pose proof (len_nonneg s). lia.
  - intros strs _. cbn [to_string cursor_json]. by rewrite mapM_texts.
  - intros strs Hp. cbn [from_str cursor_json]. unfold texts_json. rewrite strip_prefix_app. cbn [mbind option_bind].
    rewrite read_quoted; [done..|]. pose proof (quoted_texts_len strs) as Hl. unfold len in Hl.
    assert (0 <= text_bytes strs); [|lia]. clear. induction strs as [|s strs IH]; [done|]. cbn [text_bytes fold_right].
    fold (text_bytes strs). pose proof (len_nonneg s). lia.
  - intros s u. cbn [parse_str example_uuid]. destruct (hyphenated_shape 0 s) eqn:Es; [|done]. intros [= <-].
    apply shape_text in Es as [Hl Hp]; [|lia]. cbn [hyphenated example_uuid]. unfold len. by rewrite string_map_length, Hl.
Qed.

(** A page token of the session used throughout. *)
Definition example_block : BlockCursor := mkBlock "01234567-89ab-1cde-8fab-0123456789ab" 12.
Lemma cursors_exact_witness :
  exists token, @show_block cursor_json cursor_base64 example_block = Some token /\
    @parse_block example_uuid cursor_json cursor_base64 token = Some example_block.
Proof.
  eexists. split; [vm_compute; reflexivity|].
  apply (proj1 (@cursors_exact example_uuid cursor_json cursor_base64 example_laws)). vm_compute. split; [|reflexivity].
  split; [reflexivity|]. split; [reflexivity | discriminate].
Defined.

(** Two fields of one output: the summary sorts before the content. *)
Lemma order_text_exact_witness :
  String.compare (show_key (mkOrderKey (Some 3) Summary (Some 0) None)) (show_key (mkOrderKey (Some 3) Content None (Some 18446744073709551615))) = Lt.
Proof.
  etrans; [apply (order_text_exact (mkOrderKey (Some 3) Summary (Some 0) None) (mkOrderKey (Some 3) Content None (Some 18446744073709551615)))|reflexivity].
  - split; [|split]; intros n E; vm_compute in E; try discriminate E; injection E as <-; split; vm_compute; discriminate.
  - split; [|split]; intros n E; vm_compute in E; try discriminate E; injection E as <-; split; vm_compute; discriminate.
Defined.
