(* ===== verification/Chunks.v ===== *)
(** * Chunks of a text (src/src/conversation/primitives.rs)

    A text is stored in pieces of at most 8192 bytes that end between characters. *)
From S2P Require Import Prelude Text.

Definition CHUNK_BYTES : Z := 8192.

Record TextChunk : Type := mkChunk { ch_start : Z; ch_text : string }.

(** [str::is_char_boundary]. *)
Definition is_char_boundary (s : string) (i : nat) : bool :=
  match i with
  | O => true
  | _ => match String.get i s with
         | Some c => negb (continuation c)
         | None => Nat.eqb i (String.length s)
         end
  end.

(** [while !is_char_boundary(end) { end -= 1; }] *)
Fixpoint boundary_before (s : string) (i : nat) : nat :=
  if is_char_boundary s i then i else match i with O => O | S i => boundary_before s i end.

(** [str::split_at]. *)
Fixpoint split_at (i : nat) (s : string) : string * string :=
  match i, s with
  | S i, String c s => let '(a, b) := split_at i s in (String c a, b)
  | _, _ => (EmptyString, s)
  end.

(** [TextChunks::next]. *)
Definition next_chunk (remaining : string) (next_byte : Z) : option (TextChunk * (string * Z)) :=
  if str_is_empty remaining then None
  else
    let i := boundary_before remaining (Z.to_nat (Z.min (len remaining) CHUNK_BYTES)) in
    let '(text, rest) := split_at i remaining in
    Some (mkChunk next_byte text, (rest, next_byte + Z.of_nat i)).

(** The chunks of an iterator; [None] if it does not end within the fuel. *)
Fixpoint collect_chunks (fuel : nat) (remaining : string) (next_byte : Z) : option (list TextChunk) :=
  match fuel with
  | O => None
  | S fuel =>
      match next_chunk remaining next_byte with
      | None => Some []
      | Some (c, (rest, n)) => cons c <$> collect_chunks fuel rest n
      end
  end.

(** [TextChunks::new] and all its chunks. *)
Definition text_chunks (text : string) (start_byte : Z) : option (list TextChunk) :=
  _ ← checked_add_u64 start_byte (len text); collect_chunks (S (String.length text)) text start_byte.

(** ** Characters *)
Definition is_char (ch : string) : Prop :=
  exists a tail, ch = String a tail /\ continuation a = false /\ bytes_all continuation tail = true /\
    (String.length tail <= 3)%nat /\ forall t, from_utf8 (String.append ch t) = from_utf8 t.

Definition texts (chs : list string) : string := fold_right String.append EmptyString chs.

Lemma texts_app a b : texts (a ++ b) = String.append (texts a) (texts b).
Proof. induction a as [|x a IH]; [done|]. cbn [texts fold_right app]. fold (texts (a ++ b)) (texts a). by rewrite IH, append_assoc. Qed.

Lemma first_byte a : byte_in 0 127 a = true \/ byte_in 194 244 a = true -> continuation a = false.
Proof.
  unfold continuation, byte_in. set (n := Z.of_nat (Ascii.nat_of_ascii a)). rewrite !andb_true_iff, !Z.leb_le. intros Hn.
  apply andb_false_iff. rewrite !Z.leb_gt. lia.
Qed.

(** The first character of a text. *)
Lemma utf8_first s : from_utf8 s = true -> s <> EmptyString ->
  exists ch rest, s = String.append ch rest /\ is_char ch /\ from_utf8 rest = true.
Proof.
  destruct s as [|a s1]; [done|]. intros Hs _. cbn [from_utf8] in Hs.
  destruct (byte_in 0 127 a) eqn:E1.
  { exists (String a EmptyString), s1. split; [done|]. split; [|done]. exists a, EmptyString.
    split; [done|]. split; [apply first_byte; by left|]. split; [done|]. split; [simpl; lia|].
    intros t. change (String.append (String a EmptyString) t) with (String a t). cbn [from_utf8]. by rewrite E1. }
  destruct s1 as [|b s2]; [done|]. destruct (byte_in 194 223 a) eqn:E2.
  { apply andb_true_iff in Hs as [Hb Hs]. exists (String a (String b EmptyString)), s2. split; [done|]. split; [|done].
    exists a, (String b EmptyString). split; [done|]. split; [apply first_byte; right; unfold byte_in in *; lia|].
    split; [simpl; by rewrite Hb|]. split; [simpl; lia|].
    intros t. change (String.append (String a (String b EmptyString)) t) with (String a (String b t)). cbn [from_utf8]. by rewrite E1, E2, Hb. }
  assert (forall lo hi c, (128 <=? lo) && (hi <=? 191) = true -> byte_in lo hi c = true -> continuation c = true) as Hcont.
  { intros lo hi c. unfold continuation, byte_in. lia. }
  destruct s2 as [|c s3]; [done|]. destruct (byte_in 224 239 a) eqn:E3.
  { apply andb_true_iff in Hs as [[Hb Hc]%andb_true_iff Hs]. exists (String a (String b (String c EmptyString))), s3.
    split; [done|]. split; [|done]. exists a, (String b (String c EmptyString)). split; [done|].
    split; [apply first_byte; right; unfold byte_in in *; lia|]. split.
    { cbn [bytes_all]. rewrite Hc, !andb_true_r. destruct (byte_in 224 224 a); [by apply (Hcont 160 191)|].
      destruct (byte_in 237 237 a); [by apply (Hcont 128 159) | done]. }
    split; [simpl; lia|]. intros t.
    change (String.append (String a (String b (String c EmptyString))) t) with (String a (String b (String c t))).
    cbn [from_utf8]. by rewrite E1, E2, E3, Hb, Hc. }
  destruct s3 as [|d s4]; [done|]. apply andb_true_iff in Hs as [[[[Ha Hb]%andb_true_iff Hc]%andb_true_iff Hd]%andb_true_iff Hs].
  exists (String a (String b (String c (String d EmptyString)))), s4. split; [done|]. split; [|done].
  exists a, (String b (String c (String d EmptyString))). split; [done|].
  split; [apply first_byte; right; unfold byte_in in *; lia|]. split.
  { cbn [bytes_all]. rewrite Hc, Hd, !andb_true_r. destruct (byte_in 240 240 a); [by apply (Hcont 144 191)|].
    destruct (byte_in 244 244 a); [by apply (Hcont 128 143) | done]. }
  split; [simpl; lia|]. intros t.
  change (String.append (String a (String b (String c (String d EmptyString)))) t) with (String a (String b (String c (String d t)))).
  cbn [from_utf8]. by rewrite E1, E2, E3, Ha, Hb, Hc, Hd.
Qed.

Lemma utf8_chars s : from_utf8 s = true -> exists chs, s = texts chs /\ Forall is_char chs.
Proof.
  remember (String.length s) as n eqn:Hn. revert s Hn. induction (lt_wf n) as [n _ IH]. intros s -> Hs.
  destruct (decide (s = EmptyString)) as [-> |Hne]; [by exists []|].
  destruct (utf8_first s Hs Hne) as (ch & rest & -> & Hch & Hrest).
  destruct (IH (String.length rest)) with (s := rest) as (chs & -> & HF); [|done|done|].
  { rewrite string_length_app. destruct Hch as (a & tail & -> & _). simpl. lia. }
  exists (ch :: chs). split; [done | by constructor].
Qed.

Lemma chars_utf8 chs : Forall is_char chs -> from_utf8 (texts chs) = true.
Proof.
  induction 1 as [|ch chs (a & tail & -> & _ & _ & _ & Ht) _ IH]; [done|]. cbn [texts fold_right]. by rewrite Ht.
Qed.

(** ** Boundaries *)
Lemma get_append a b i : String.get i (String.append a b) =
  if Nat.ltb i (String.length a) then String.get i a else String.get (i - String.length a) b.
Proof.
  revert i. induction a as [|c a IH]; intros i.
  - change (String.append EmptyString b) with b. simpl. by rewrite Nat.sub_0_r.
  - change (String.append (String c a) b) with (String c (String.append a b)). destruct i as [|i]; [done|]. cbn [String.get]. rewrite IH.
    change (Nat.ltb (S i) (String.length (String c a))) with (Nat.ltb i (String.length a)). done.
Qed.

Lemma get_tail tail i c : bytes_all continuation tail = true -> String.get i tail = Some c -> continuation c = true.
Proof.
  revert i. induction tail as [|x tail IH]; intros i; [done|]. cbn [bytes_all]. intros [Hx Ht]%andb_true_iff.
  destruct i as [|i]; cbn [String.get]; [by intros [= <-] | by apply IH].
Qed.

Lemma get_Some s i : (i < String.length s)%nat -> exists c, String.get i s = Some c.
Proof.
  revert i. induction s as [|x s IH]; intros i Hi; simpl in Hi; [lia|]. destruct i as [|i]; [by exists x|]. apply IH. lia.
Qed.

(** A boundary is the end of some characters, *)
Lemma boundary_chars chs i : Forall is_char chs -> (i <= String.length (texts chs))%nat -> is_char_boundary (texts chs) i = true ->
  exists pre post, chs = pre ++ post /\ String.length (texts pre) = i.
Proof.
  intros HF. revert i. induction HF as [|ch chs Hch HF IH]; intros i Hi Hb.
  { simpl in Hi. exists [], []. split; [done|]. simpl. lia. }
  destruct i as [|i]; [by exists [], (ch :: chs)|].
  cbn [texts fold_right] in Hi, Hb. fold (texts chs) in Hi, Hb. rewrite string_length_app in Hi.
  unfold is_char_boundary in Hb. rewrite get_append in Hb.
  destruct (Nat.ltb_spec (S i) (String.length ch)) as [Hlt|Hge].
  - exfalso. destruct Hch as (a & tail & -> & _ & Ht & _). cbn [String.get] in Hb. simpl in Hlt.
    destruct (get_Some tail i ltac:(lia)) as [c Hc]. rewrite Hc in Hb. apply (get_tail _ _ _ Ht) in Hc. by rewrite Hc in Hb.
  - destruct (IH (S i - String.length ch)%nat) as (pre & post & -> & Hl); [lia| |].
    + unfold is_char_boundary. destruct (S i - String.length ch)%nat as [|j] eqn:E; [done|]. rewrite <- E in *.
      destruct (String.get _ _) as [c|]; [done|]. apply Nat.eqb_eq in Hb. rewrite string_length_app in Hb. apply Nat.eqb_eq. lia.
    + exists (ch :: pre), post. split; [done|]. cbn [texts fold_right]. fold (texts pre). rewrite string_length_app. lia.
Qed.

(** and there is one at most three bytes back. *)
Lemma chars_boundary pre post : Forall is_char (pre ++ post) ->
  is_char_boundary (texts (pre ++ post)) (String.length (texts pre)) = true.
Proof.
  intros HF. unfold is_char_boundary. destruct (String.length (texts pre)) as [|n] eqn:E; [done|]. rewrite <- E.
  rewrite texts_app, get_append, Nat.ltb_irrefl, Nat.sub_diag. destruct post as [|ch post].
  - simpl. rewrite append_empty. by apply Nat.eqb_eq.
  - apply Forall_app in HF as [_ HF]. apply Forall_cons in HF as [(a & tail & -> & Ha & _) _].
    change (String.get 0 (texts (String a tail :: post))) with (Some a). cbv beta iota. by rewrite Ha.
Qed.

Lemma near_boundary chs i : Forall is_char chs -> (i <= String.length (texts chs))%nat ->
  exists pre post, chs = pre ++ post /\ (String.length (texts pre) <= i <= String.length (texts pre) + 3)%nat.
Proof.
  intros HF. revert i. induction HF as [|ch chs Hch HF IH]; intros i Hi; [exists [], []; simpl in *; split; [done|lia]|].
  cbn [texts fold_right] in Hi. fold (texts chs) in Hi. rewrite string_length_app in Hi.
  destruct (decide (i < String.length ch)%nat) as [Hlt|Hge].
  - exists [], (ch :: chs). split; [done|]. destruct Hch as (a & tail & -> & _ & _ & Hl & _). simpl in *. lia.
  - destruct (IH (i - String.length ch)%nat) as (pre & post & -> & Hl); [lia|].
    exists (ch :: pre), post. split; [done|]. cbn [texts fold_right]. fold (texts pre). rewrite string_length_app. lia.
Qed.

Lemma boundary_before_spec s i :
  is_char_boundary s (boundary_before s i) = true /\ (boundary_before s i <= i)%nat /\
  forall b, (b <= i)%nat -> is_char_boundary s b = true -> (b <= boundary_before s i)%nat.
Proof.
  induction i as [|i (Hb & Hle & Hmax)]; [split; [done|]; split; [done|]; simpl; lia|].
  cbn [boundary_before]. destruct (is_char_boundary s (S i)) eqn:E; [done|]. split; [done|]. split; [lia|].
  intros b Hbi Hbb. destruct (decide (b = S i)) as [-> |]; [congruence|]. apply Hmax; [lia | done].
Qed.

Lemma split_at_append a b : split_at (String.length a) (String.append a b) = (a, b).
Proof.
  induction a as [|c a IH]; [by destruct b|]. change (String.append (String c a) b) with (String c (String.append a b)).
  cbn [String.length split_at]. by rewrite IH.
Qed.

(** A chunk takes whole characters off the front. *)
Lemma next_chunk_chars chs n : Forall is_char chs -> chs <> [] ->
  exists pre post, chs = pre ++ post /\ pre <> [] /\ len (texts pre) <= CHUNK_BYTES /\
    next_chunk (texts chs) n = Some (mkChunk n (texts pre), (texts post, n + len (texts pre))).
Proof.
  intros HF Hne. unfold next_chunk.
  assert (0 < String.length (texts chs))%nat as Hpos.
  { destruct chs as [|ch chs]; [done|]. apply Forall_cons in HF as [(a & tail & -> & _) _]. simpl. lia. }
  destruct (texts chs) as [|x s] eqn:Et; [simpl in Hpos; lia|]. cbn [str_is_empty]. rewrite <- Et in *. clear x s Et.
  set (m := Z.to_nat (Z.min (len (texts chs)) CHUNK_BYTES)).
  assert ((m <= String.length (texts chs))%nat /\ Z.of_nat m <= CHUNK_BYTES) as [Hm Hmc] by (unfold m, len, CHUNK_BYTES; lia).
  destruct (boundary_before_spec (texts chs) m) as (Hb & Hle & Hmax). set (i := boundary_before (texts chs) m) in *.
  destruct (boundary_chars chs i HF) as (pre & post & -> & Hi); [lia | done |].
  assert (pre <> []) as Hpre.
  { intros ->. destruct post as [|ch post]; [done|]. pose proof (Forall_inv HF) as (a & tail & -> & _ & _ & Hl & _).
    pose proof (chars_boundary [String a tail] post HF) as Hb1. assert (String.length (texts [String a tail]) = S (String.length tail)) as Hone by (cbn [texts fold_right]; by rewrite append_empty).
    rewrite Hone in Hb1. apply Hmax in Hb1; [simpl in Hi; lia|].
    unfold m, len, CHUNK_BYTES. cbn [texts fold_right app]. rewrite string_length_app. simpl. lia. }
  exists pre, post. split; [done|]. split; [done|]. split; [unfold len; lia|].
  rewrite texts_app at 1. rewrite <- Hi, split_at_append. by unfold len.
Qed.

(** The chunks follow each other from [start]. *)
Fixpoint consecutive (start : Z) (cs : list TextChunk) : Prop :=
  match cs with [] => True | c :: cs => ch_start c = start /\ consecutive (start + len (ch_text c)) cs end.

Lemma collect_chunks_exact fuel chs n : Forall is_char chs -> (length chs < fuel)%nat ->
  exists cs, collect_chunks fuel (texts chs) n = Some cs /\ texts (ch_text <$> cs) = texts chs /\ consecutive n cs /\
    Forall (fun c => 0 < len (ch_text c) <= CHUNK_BYTES /\ from_utf8 (ch_text c) = true) cs.
Proof.
  revert chs n. induction fuel as [|fuel IH]; intros chs n HF Hl; [lia|]. cbn [collect_chunks].
  destruct chs as [|ch chs]; [by exists []|]. set (all := ch :: chs) in *.
  destruct (next_chunk_chars all n HF) as (pre & post & Hall & Hpre & Hlen & ->); [done|].
  rewrite Hall in HF. apply Forall_app in HF as [HFpre HFpost].
  destruct (IH post (n + len (texts pre)) HFpost) as (cs & Hc & Ht & Hcons & HFc).
  { apply (f_equal length) in Hall. rewrite length_app in Hall. unfold all in *. destruct pre; [done|]. cbn [length app] in *. lia. }
  exists (mkChunk n (texts pre) :: cs). rewrite Hc. split; [done|]. split.
  { rewrite Hall, texts_app, <- Ht. done. }
  split; [done|]. constructor; [|done]. simpl. split; [|by apply chars_utf8]. split; [|done].
  destruct pre as [|x pre]; [done|]. apply Forall_cons in HFpre as [(a & tail & -> & _) _]. unfold len. simpl. lia.
Qed.

(** A valid text is cut into finitely many pieces that put together are the text:
    each is a valid text of its own of 1 to 8192 bytes, and each starts at the byte
    where the one before it ended; only a range that does not fit a [u64] is refused. *)
Lemma text_chunks_exact text start :
  from_utf8 text = true -> 0 <= start ->
  match text_chunks text start with
  | Some cs => texts (ch_text <$> cs) = text /\ consecutive start cs /\
      Forall (fun c => 0 < len (ch_text c) <= CHUNK_BYTES /\ from_utf8 (ch_text c) = true) cs
  | None => u64_max < start + len text
  end.
Proof.
  intros Hu Hs. unfold text_chunks. pose proof (len_nonneg text).
  destruct (checked_add_u64 start (len text)) as [z|] eqn:E; cbn [mbind option_bind].
  - destruct (utf8_chars text Hu) as (chs & -> & HF).
    destruct (collect_chunks_exact (S (String.length (texts chs))) chs start HF) as (cs & -> & Ht & Hc & HFc); [|done].
    clear -HF. induction HF as [|ch chs (a & tail & -> & _) _ IH]; [simpl; lia|].
    cbn [texts fold_right length]. fold (texts chs). rewrite string_length_app. simpl. lia.
  - unfold checked_add_u64, in_u64 in E. destruct (_ && _) eqn:E2; [done|]. lia.
Qed.

(** Nine thousand bytes of a three-byte character need two chunks. *)
Fixpoint repeat_text (n : nat) (s : string) : string :=
  match n with O => EmptyString | S n => String.append s (repeat_text n s) end.
Definition euro : string := String (byte 226) (String (byte 130) (String (byte 172) EmptyString)).

Lemma text_chunks_exact_witness :
  exists a b, text_chunks (repeat_text 3000 euro) 5 = Some [a; b] /\ len (ch_text a) = 8190 /\ ch_start b = 8195 /\
    consecutive 5 [a; b].
Proof.
  assert (exists a b, text_chunks (repeat_text 3000 euro) 5 = Some [a; b] /\ len (ch_text a) = 8190 /\ ch_start b = 8195) as (a & b & Hc & Ha & Hb).
  { eexists _, _. split; [vm_compute; reflexivity|]. split; vm_compute; reflexivity. }
  exists a, b. pose proof (text_chunks_exact (repeat_text 3000 euro) 5 ltac:(vm_compute; reflexivity) ltac:(lia)) as Ht.
  rewrite Hc in Ht. destruct Ht as (_ & Ht & _). split; [exact Hc|]. split; [exact Ha|]. split; [exact Hb | exact Ht].
Defined.
