(* ===== verification/Projection.v ===== *)
(** * What is shown of a response (src/src/conversation/projection.rs, interpretation.rs, safe_code.rs)

    The parts of an item or of a whole response that are display content, the place
    each has in its entry, and the states an entry goes through. *)
From stdpp Require Import sorting.
From S2P Require Import Prelude Json Errors Provider Tools Replay RunData Positions.

(** ** Kinds *)
Module FieldKind.
Inductive t : Type :=
| Text | Refusal | ReasoningSummary | ReasoningText | FunctionName | FunctionArguments
| ToolName | ToolResult | AuthoritativeText | Unsupported | Notice.
#[global] Instance eq_dec : EqDecision t.
Proof. solve_decision. Defined.
End FieldKind.

(** [safe_code]: the code itself when it is one of these. *)
Definition SAFE_CODES : list string :=
  ["unauthorized"; "forbidden"; "rate_limited"; "auth_expired"; "auth_account_changed"; "timeout"; "transport_error";
   "unexpected_content_type"; "locally_cancelled"; "slow_consumer"; "unexpected_end"; "protocol_error"; "provider_error";
   "invalid_request"; "output_limit"; "unsupported_output"; "unsupported_feature"; "http_error"; "gateway_error";
   "event_sink"; "counter_overflow"; "tool_execution"; "provider_open"; "provider_request_failed";
   "provider_correlation"; "history_identity"; "history_restore"].
Definition safe_code (code : string) : string := if bool_decide (code ∈ SAFE_CODES) then code else "upstream_error".

(** ** States (interpretation.rs) *)
Module State.
Inductive t : Type := Accepted | InProgress | Completed | Incomplete | Failed | Cancelled | Interrupted | Unknown.
#[global] Instance eq_dec : EqDecision t.
Proof. solve_decision. Defined.

Definition response (o : ResponseOutcome) : t :=
  match o with
  | RCompleted => Completed
  | RIncomplete _ => Incomplete
  | RFailed => Failed
  | RCancelled => Cancelled
  end.
Definition status (s : string) : t :=
  if bool_decide (s = "queued") || bool_decide (s = "in_progress") then InProgress
  else if bool_decide (s = "completed") then Completed
  else if bool_decide (s = "incomplete") then Incomplete
  else if bool_decide (s = "failed") then Failed
  else if bool_decide (s = "cancelled") then Cancelled
  else Unknown.
Definition unfinished (o : RunOutcome) : t :=
  match o with
  | RunData.Completed => Unknown
  | RunData.Failed _ => Failed
  | CancelledLocally => Cancelled
  end.
End State.

(** ** Parts (projection.rs) *)
Inductive PartSource : Type :=
| PSummary (index : option Z)
| PContent (index : option Z)
| PFunctionName
| PFunctionArguments
| PFallback (index : option Z)
| PUnsupported.

Record DisplayPart : Type := mkPart {
  dp_kind : FieldKind.t;
  dp_text : string;
  dp_source : PartSource
}.

Definition unsupported (source : PartSource) : DisplayPart := mkPart FieldKind.Unsupported "Unsupported content" source.
Definition answer (p : DisplayPart) : bool :=
  match dp_kind p with FieldKind.Text | FieldKind.Refusal => true | _ => false end.

(** What one element of a content list shows: the kind and the named string. *)
Definition scalar_part (reasoning : bool) (part : Value) : option (FieldKind.t * string) :=
  ty ← (get part "type" ≫= as_str);
  kf ← (if negb reasoning && bool_decide (ty = "output_text") then Some (FieldKind.Text, "text")
        else if negb reasoning && bool_decide (ty = "refusal") then Some (FieldKind.Refusal, "refusal")
        else if reasoning && bool_decide (ty = "summary_text") then Some (FieldKind.ReasoningSummary, "text")
        else if reasoning && bool_decide (ty = "reasoning_text") then Some (FieldKind.ReasoningText, "text")
        else None);
  text ← (get part (snd kf) ≫= as_str);
  Some (fst kf, text).

(** [parts], from an index on. *)
Definition part_source (summary : bool) (index : option Z) : PartSource := if summary then PSummary index else PContent index.
Fixpoint parts_from (index : Z) (l : list Value) (reasoning summary : bool) : list DisplayPart :=
  match l with
  | [] => []
  | part :: l =>
      match scalar_part reasoning part with
      | Some (kind, text) => mkPart kind text (part_source summary (Some index))
      | None => unsupported (part_source summary (Some index))
      end :: parts_from (index + 1) l reasoning summary
  end.
Definition parts (value : option Value) (reasoning summary : bool) : list DisplayPart :=
  match value with
  | Some (VArray l) => parts_from 0 l reasoning summary
  | _ => [unsupported (part_source summary None)]
  end.

(** [project_item], its parts. *)
Definition project_item (item : OutputItem) : list DisplayPart :=
  match kind item with
  | KMessage => parts (get (native item) "content") false false
  | KReasoning =>
      let summary := get (native item) "summary" in
      let content := get (native item) "content" in
      (if negb (is_some summary) && negb (is_some content) then [unsupported PUnsupported] else [])
      ++ (if is_some summary then parts summary true true else [])
      ++ (if is_some content then parts content true false else [])
  | KFunctionCall =>
      match function_call item with
      | Some call => [mkPart FieldKind.FunctionName (name call) PFunctionName;
                      mkPart FieldKind.FunctionArguments (arguments call) PFunctionArguments]
      | None => [unsupported PUnsupported]
      end
  | _ => [unsupported PUnsupported]
  end.

Record ResponseField : Type := mkField { rf_output_index : Z; rf_part : DisplayPart }.

Fixpoint fields_from (index : Z) (items : list OutputItem) : list ResponseField :=
  match items with
  | [] => []
  | item :: items => (mkField index <$> project_item item) ++ fields_from (index + 1) items
  end.

(** [answers.join("\n")]. *)
Fixpoint join_lines (l : list string) : string :=
  match l with
  | [] => EmptyString
  | [s] => s
  | s :: l => String.append s (String "010"%char (join_lines l))
  end.

(** Whether the text of a response shows in its answers. *)
Definition represented (text : string) (fields : list ResponseField) : bool :=
  let answers := (fun f => dp_text (rf_part f)) <$> List.filter (fun f => answer (rf_part f)) fields in
  str_is_empty text || existsb (fun a => has_infix text a) answers
  || has_infix text (foldr String.append EmptyString answers) || has_infix text (join_lines answers).

(** An answer that the text covers. *)
Definition covered (text : string) (f : ResponseField) : bool :=
  answer (rf_part f) && negb (str_is_empty (dp_text (rf_part f))) && has_infix (dp_text (rf_part f)) text.

(** The loop that puts the fallback before the first answer. *)
Fixpoint with_fallback (fallback : option ResponseField) (text : string) (fields : list ResponseField) : list ResponseField :=
  match fields with
  | [] => match fallback with Some f => [f] | None => [] end
  | f :: rest =>
      let '(before, fallback) := if answer (rf_part f) then (fallback, None) else (None, fallback) in
      match before with Some b => [b] | None => [] end
      ++ (if covered text f then [] else [f]) ++ with_fallback fallback text rest
  end.

(** [project_response], its fields. *)
Definition project_response (response : ModelResponse) : list ResponseField :=
  let fields := fields_from 0 (output response) in
  let text := Provider.text response in
  if represented text fields then fields
  else
    let first := List.find (fun f => answer (rf_part f)) fields in
    let output_index := match first with Some f => rf_output_index f | None => Z.of_nat (length (output response)) end in
    let content_index := match first with
                         | Some f => match dp_source (rf_part f) with PContent index => index | _ => None end
                         | None => None
                         end in
    with_fallback (Some (mkField output_index (mkPart FieldKind.AuthoritativeText text (PFallback content_index)))) text fields.

(** ** Places (interpretation.rs) *)

(** [part_order]: the key, when its index fits. *)
Definition part_key (output : Z) (source : PartSource) : OrderKey :=
  match source with
  | PSummary index => mkOrderKey (Some output) Summary index None
  | PContent index => mkOrderKey (Some output) Content None index
  | PFunctionName => mkOrderKey (Some output) FunctionName None None
  | PFunctionArguments => mkOrderKey (Some output) FunctionArguments None None
  | PFallback index => mkOrderKey (Some output) Fallback None index
  | PUnsupported => mkOrderKey (Some output) Unsupported None None
  end.
Definition part_order (output : Z) (source : PartSource) : option OrderKey :=
  match source with
  | PSummary (Some index) | PContent (Some index) | PFallback (Some index) => _ ← u64_try_from index; Some (part_key output source)
  | _ => Some (part_key output source)
  end.

(** [delta_field]. *)
Definition delta_field (output : Z) (summary content : option Z) (k : DeltaKind) : OrderKey * FieldKind.t :=
  let '(rank, fk) := match k with
                     | DText => (Content, FieldKind.Text)
                     | DRefusal => (Content, FieldKind.Refusal)
                     | DReasoningSummary => (Summary, FieldKind.ReasoningSummary)
                     | DReasoningText => (Content, FieldKind.ReasoningText)
                     | DFunctionArguments => (FunctionArguments, FieldKind.FunctionArguments)
                     | DCustomToolInput => (Unsupported, FieldKind.Unsupported)
                     end in
  (mkOrderKey (Some output) rank summary content, fk).

(** ** The order of the fields *)

Definition key_lt (a b : OrderKey) : Prop := key_compare a b = Lt.
Definition field_order (f : ResponseField) : OrderKey := part_key (rf_output_index f) (dp_source (rf_part f)).

(** A key as the numbers that are compared. *)
Definition option_numbers (v : option Z) : list Z := match v with None => [0; 0] | Some n => [1; n] end.
Definition key_numbers (k : OrderKey) : list Z :=
  option_numbers (ok_output k) ++ [rank_group (ok_rank k)] ++ option_numbers (ok_summary k)
  ++ option_numbers (ok_content k) ++ [rank_code (ok_rank k)].
Fixpoint numbers_lt (a b : list Z) : Prop :=
  match a, b with
  | x :: a, y :: b => x < y \/ (x = y /\ numbers_lt a b)
  | _, _ => False
  end.

Lemma numbers_lt_trans a b c : numbers_lt a b -> numbers_lt b c -> numbers_lt a c.
Proof.
  revert b c. induction a as [|x a IH]; intros [|y b] [|z c]; simpl; try done.
  intros [?|[-> ?]] [?|[-> ?]]; [left; lia | by left | by left | right; eauto].
Qed.

Lemma then_lt a b : then_compare a b = Lt <-> a = Lt \/ (a = Eq /\ b = Lt).
Proof. destruct a; simpl; intuition congruence. Qed.

Lemma option_numbers_lt a b x y r : (r = Lt <-> numbers_lt x y) ->
  then_compare (compare_option a b) r = Lt <-> numbers_lt (option_numbers a ++ x) (option_numbers b ++ y).
Proof.
  intros Hr. rewrite then_lt. destruct a as [a|], b as [b|]; simpl; rewrite ?Hr; try (split; intros; intuition (congruence || lia)).
  rewrite Z.compare_lt_iff, Z.compare_eq_iff. intuition lia.
Qed.

Lemma number_lt a b x y r : (r = Lt <-> numbers_lt x y) -> then_compare (a ?= b) r = Lt <-> numbers_lt (a :: x) (b :: y).
Proof. intros Hr. by rewrite then_lt, Z.compare_lt_iff, Z.compare_eq_iff, Hr. Qed.

Lemma key_lt_numbers a b : key_lt a b <-> numbers_lt (key_numbers a) (key_numbers b).
Proof.
  unfold key_lt, key_compare, key_numbers. apply option_numbers_lt, number_lt, option_numbers_lt, option_numbers_lt.
  rewrite Z.compare_lt_iff. simpl. intuition.
Qed.

#[export] Instance key_lt_trans : Transitive key_lt.
Proof. intros a b c. rewrite !key_lt_numbers. apply numbers_lt_trans. Qed.

Lemma key_lt_irrefl a : ~ key_lt a a.
Proof.
  rewrite key_lt_numbers. generalize (key_numbers a). induction l as [|x l IH]; simpl; [tauto|]. intros [?|[_ ?]]; [lia | tauto].
Qed.

Lemma key_lt_tail o k k' : ok_output k = Some o -> ok_output k' = Some o ->
  (rank_group (ok_rank k) < rank_group (ok_rank k') \/
   (rank_group (ok_rank k) = rank_group (ok_rank k') /\
    (compare_option (ok_summary k) (ok_summary k') = Lt \/
     (ok_summary k = ok_summary k' /\
      (compare_option (ok_content k) (ok_content k') = Lt \/
       (ok_content k = ok_content k' /\ rank_code (ok_rank k) < rank_code (ok_rank k'))))))) <-> key_lt k k'.
Proof.
  assert (forall a b, compare_option a b = Eq <-> a = b) as Heq.
  { intros [a|] [b|]; simpl; rewrite ?Z.compare_eq_iff; intuition congruence. }
  intros Ho Ho'. unfold key_lt, key_compare. rewrite Ho, Ho', !then_lt, !Z.compare_lt_iff, !Z.compare_eq_iff, !Heq. simpl.
  rewrite Z.compare_lt_iff. intuition lia.
Qed.

(** The parts of an item, in their order. *)
Definition in_order (o : Z) (l : list DisplayPart) : Prop := StronglySorted key_lt ((fun p => part_key o (dp_source p)) <$> l).

Lemma part_output o s : ok_output (part_key o s) = Some o.
Proof. by destruct s. Qed.

Lemma parts_from_sources i l reasoning summary p : In p (parts_from i l reasoning summary) ->
  exists j, i <= j < i + Z.of_nat (length l) /\ dp_source p = part_source summary (Some j).
Proof.
  revert i. induction l as [|v l IH]; intros i; cbn [parts_from length]; [done|]. intros [<-|Hin].
  - exists i. split; [lia|]. by destruct (scalar_part reasoning v) as [[]|].
  - apply IH in Hin as (j & Hj & ->). exists j. split; [lia | done].
Qed.

Lemma parts_from_order o i l reasoning summary : in_order o (parts_from i l reasoning summary).
Proof.
  unfold in_order. revert i. induction l as [|v l IH]; intros i; cbn [parts_from fmap list_fmap]; constructor; [apply IH|].
  apply Forall_forall. intros k (p & -> & Hp)%list_elem_of_fmap. apply list_elem_of_In, parts_from_sources in Hp as (j & Hj & ->).
  assert (dp_source match scalar_part reasoning v with Some (kind, text) => mkPart kind text (part_source summary (Some i))
    | None => unsupported (part_source summary (Some i)) end = part_source summary (Some i)) as ->.
  { by destruct (scalar_part reasoning v) as [[]|]. }
  apply (key_lt_tail o); [apply part_output | apply part_output |]. destruct summary; simpl; rewrite Z.compare_lt_iff; right; (split; [done|]).
  - left. lia.
  - right. split; [done|]. left. lia.
Qed.

Lemma parts_order o value reasoning summary : in_order o (parts value reasoning summary).
Proof.
  destruct value as [[]|]; try (repeat constructor; done). apply parts_from_order.
Qed.

Lemma parts_sources value reasoning summary p : In p (parts value reasoning summary) ->
  exists j, dp_source p = part_source summary j /\ (answer p = true -> is_some j = true).
Proof.
  destruct value as [[]|]; try (intros [<-|[]]; exists None; split; [by destruct summary | by destruct summary]).
  intros Hp. apply parts_from_sources in Hp as (j & _ & ->). by exists (Some j).
Qed.

Lemma project_item_order o item : in_order o (project_item item).
Proof.
  unfold project_item. destruct (kind item); try (repeat constructor; done).
  - apply parts_order.
  - unfold in_order. destruct (get (native item) "summary") as [summary|], (get (native item) "content") as [content|];
      cbn [is_some negb andb app]; rewrite ?app_nil_r; try (repeat constructor; done); try apply parts_order.
    rewrite fmap_app. apply StronglySorted_app_2; [|apply parts_order|apply parts_order].
    intros k k' (p & -> & Hp)%list_elem_of_fmap (p' & -> & Hp')%list_elem_of_fmap.
    apply list_elem_of_In, parts_sources in Hp as (j & -> & _), Hp' as (j' & -> & _).
    apply (key_lt_tail o); [done | done |]. left. simpl. lia.
  - destruct (function_call item); repeat constructor. simpl. apply (key_lt_tail o); [done | done |]. left. simpl. lia.
Qed.

(** A field of an item: never a fallback, and an answer has its place in the content. *)
Definition item_field (p : DisplayPart) : Prop :=
  (forall i, dp_source p <> PFallback i) /\ (answer p = true -> exists j, dp_source p = PContent (Some j)).

Lemma scalar_part_reasoning v k t : scalar_part true v = Some (k, t) -> answer (mkPart k t PUnsupported) = false.
Proof.
  unfold scalar_part. destruct (get v "type" ≫= as_str) as [ty|]; [|done]. cbn [mbind option_bind negb andb].
  destruct (bool_decide _); [|destruct (bool_decide _); [|done]];
    cbn [mbind option_bind fst snd]; (destruct (get v "text" ≫= as_str); [|done]); by intros [= <- <-].
Qed.

Lemma parts_field value reasoning summary : implb summary reasoning = true -> Forall item_field (parts value reasoning summary).
Proof.
  intros Hrs. destruct value as [[]|]; try (repeat constructor; by destruct summary). cbn [parts]. generalize 0.
  induction l as [|v l IH]; intros i; cbn [parts_from]; constructor; [|apply IH].
  destruct (scalar_part reasoning v) as [[k t]|] eqn:E; [|split; [by destruct summary | done]].
  split; [by destruct summary|]. destruct reasoning, summary; try done; try (by exists i).
  all: apply scalar_part_reasoning in E; unfold answer in *; cbn [dp_kind] in *; by rewrite E.
Qed.

Lemma project_item_field item : Forall item_field (project_item item).
Proof.
  unfold project_item. destruct (kind item); try (repeat constructor; done).
  - by apply parts_field.
  - destruct (get (native item) "summary"), (get (native item) "content"); cbn [is_some negb andb app]; rewrite ?app_nil_r;
      try (repeat constructor; done); rewrite ?Forall_app; by repeat (split || apply parts_field).
  - destruct (function_call item); repeat constructor; done.
Qed.

Lemma fields_from_in i items f : f ∈ fields_from i items ->
  i <= rf_output_index f < i + Z.of_nat (length items) /\ item_field (rf_part f).
Proof.
  revert i. induction items as [|item items IH]; intros i; cbn [fields_from length]; [by intros ?%not_elem_of_nil|].
  intros [(p & -> & Hp)%list_elem_of_fmap|Hf]%elem_of_app.
  - split; [simpl; lia|]. exact (proj1 (Forall_forall _ _) (project_item_field item) p Hp).
  - apply IH in Hf as [? ?]. split; [lia | done].
Qed.

Lemma fields_from_order i items : StronglySorted key_lt (field_order <$> fields_from i items).
Proof.
  revert i. induction items as [|item items IH]; intros i; cbn [fields_from]; [constructor|]. rewrite fmap_app.
  apply StronglySorted_app_2; [|rewrite <- list_fmap_compose; exact (project_item_order i item) | apply IH].
  intros k k' (f & -> & (p & -> & Hp)%list_elem_of_fmap)%list_elem_of_fmap (f' & -> & Hf')%list_elem_of_fmap.
  apply fields_from_in in Hf' as [Hf' _]. unfold key_lt, key_compare, field_order. rewrite !part_output. simpl.
  by rewrite (proj2 (Z.compare_lt_iff i (rf_output_index f'))) by lia.
Qed.

(** ** The fallback *)

(** Up to the first answer nothing is left out; it stands just before that answer. *)
Lemma with_fallback_none text fields : with_fallback None text fields = List.filter (fun f => negb (covered text f)) fields.
Proof.
  induction fields as [|f fields IH]; [done|]. cbn [with_fallback List.filter].
  assert ((if answer (rf_part f) then (None, None) else (None, None)) = (@None ResponseField, @None ResponseField)) as ->
    by by destruct (answer _).
  rewrite IH. by destruct (covered text f).
Qed.

Lemma with_fallback_first b text before f after :
  Forall (fun f => answer (rf_part f) = false) before -> answer (rf_part f) = true ->
  with_fallback (Some b) text (before ++ f :: after)
  = before ++ b :: List.filter (fun f => negb (covered text f)) (f :: after).
Proof.
  induction 1 as [|x before Hx _ IH]; intros Hf.
  - cbn [app with_fallback List.filter]. rewrite Hf, with_fallback_none. by destruct (covered text f).
  - cbn [app with_fallback]. rewrite Hx. unfold covered at 1. rewrite Hx. cbn [andb app]. by rewrite IH.
Qed.

Lemma with_fallback_last b text fields :
  Forall (fun f => answer (rf_part f) = false) fields -> with_fallback (Some b) text fields = fields ++ [b].
Proof.
  induction 1 as [|x fields Hx _ IH]; [done|]. cbn [app with_fallback]. rewrite Hx. unfold covered at 1. rewrite Hx. cbn [andb app]. by rewrite IH.
Qed.

(** The two shapes of a projection with a fallback. *)
Definition plain_fields (response : ModelResponse) : list ResponseField := fields_from 0 (output response).
Definition fallback_at (response : ModelResponse) (output : Z) (content : option Z) : ResponseField :=
  mkField output (mkPart FieldKind.AuthoritativeText (Provider.text response) (PFallback content)).

Lemma project_response_cases r :
  (represented (Provider.text r) (plain_fields r) = true /\ project_response r = plain_fields r) \/
  (represented (Provider.text r) (plain_fields r) = false /\
   Forall (fun f => answer (rf_part f) = false) (plain_fields r) /\
   project_response r = plain_fields r ++ [fallback_at r (Z.of_nat (length (output r))) None]) \/
  (represented (Provider.text r) (plain_fields r) = false /\
   exists before f after j, plain_fields r = before ++ f :: after /\ answer (rf_part f) = true /\
     dp_source (rf_part f) = PContent (Some j) /\ Forall (fun f => answer (rf_part f) = false) before /\
     project_response r = before ++ fallback_at r (rf_output_index f) (Some j)
       :: List.filter (fun f => negb (covered (Provider.text r) f)) (f :: after)).
Proof.
  unfold project_response. fold (plain_fields r). destruct (represented _ _); [by left|right].
  destruct (List.find (fun f => answer (rf_part f)) (plain_fields r)) as [f|] eqn:E.
  - right. split; [done|].
    assert (exists before after, plain_fields r = before ++ f :: after /\ answer (rf_part f) = true /\
      Forall (fun f => answer (rf_part f) = false) before) as (before & after & Hsplit & Hf & Hb).
    { revert E. generalize (plain_fields r). induction l as [|x l IH]; [done|]. cbn [List.find].
      destruct (answer (rf_part x)) eqn:Ex; [intros [= ->]; by exists [], l|]. intros (b & a & -> & ? & ?)%IH.
      exists (x :: b), a. split; [done|]. split; [done | by constructor]. }
    assert (f ∈ fields_from 0 (output r)) as [_ [_ Hs]]%fields_from_in.
    { fold (plain_fields r). rewrite Hsplit. apply elem_of_app. right. by left. }
    destruct (Hs Hf) as [j Hj]. exists before, f, after, j. rewrite Hj, Hsplit. repeat split; try done.
    by apply with_fallback_first.
  - left. split; [done|].
    assert (Forall (fun f => answer (rf_part f) = false) (plain_fields r)) as Hall.
    { apply Forall_forall. intros f Hf%list_elem_of_In. exact (List.find_none _ _ E f Hf). }
    split; [done|]. by apply with_fallback_last.
Qed.

Lemma Forall_fmap_in {A B} (f : A -> B) (P : B -> Prop) l : Forall P (f <$> l) <-> forall x, x ∈ l -> P (f x).
Proof. rewrite Forall_forall. setoid_rewrite list_elem_of_fmap. naive_solver. Qed.

Lemma filter_fields_sorted p fields : StronglySorted key_lt (field_order <$> fields) ->
  StronglySorted key_lt (field_order <$> List.filter p fields).
Proof.
  induction fields as [|f fields IH]; [done|]. rewrite fmap_cons, StronglySorted_cons. intros [Hf Hs]. cbn [List.filter].
  destruct (p f); [|by apply IH]. rewrite fmap_cons. apply StronglySorted_cons. split; [|by apply IH].
  apply Forall_fmap_in. intros g Hg%list_elem_of_In. apply List.filter_In in Hg as [Hg%list_elem_of_In _].
  rewrite Forall_fmap_in in Hf. by apply Hf.
Qed.

Lemma project_response_order r : StronglySorted key_lt (field_order <$> project_response r).
Proof.
  pose proof (fields_from_order 0 (output r)) as Hs. fold (plain_fields r) in Hs.
  destruct (project_response_cases r) as [[_ ->]|[(_ & _ & ->)|(_ & before & f & after & j & Hsplit & Hf & Hj & Hb & ->)]]; [done| |].
  - rewrite fmap_app. apply StronglySorted_app_2; [|done | repeat constructor].
    intros k k' (g & -> & Hg)%list_elem_of_fmap ->%list_elem_of_singleton. apply fields_from_in in Hg as [Hg _].
    unfold key_lt, key_compare, field_order. rewrite !part_output. simpl.
    by rewrite (proj2 (Z.compare_lt_iff _ (Z.of_nat (length (output r))))) by lia.
  - set (b := fallback_at r (rf_output_index f) (Some j)).
    assert (key_lt (field_order b) (field_order f)) as Hbf.
    { unfold field_order. rewrite Hj. apply (key_lt_tail (rf_output_index f)); [done | done |]. simpl. right. split; [done|]. right. split; [done|].
      right. split; [done | lia]. }
    rewrite Hsplit, fmap_app, fmap_cons in Hs. apply StronglySorted_app in Hs as (Hlt & Hs1 & Hs2).
    rewrite fmap_app, fmap_cons. apply StronglySorted_app_2; [|done|].
    + assert (forall g, g ∈ before -> key_lt (field_order g) (field_order b)) as Hbefore.
      { intros g Hg. specialize (Hlt (field_order g) (field_order f)).
        rewrite list_elem_of_fmap in Hlt. specialize (Hlt ltac:(by exists g) ltac:(by left)).
        assert (g ∈ fields_from 0 (output r)) as [_ [Hnf _]]%fields_from_in by (fold (plain_fields r); rewrite Hsplit; apply elem_of_app; by left).
        unfold field_order in Hlt. rewrite Hj in Hlt. revert Hlt Hnf. unfold field_order, b. cbn [rf_output_index rf_part fallback_at dp_source].
        generalize (rf_output_index g), (rf_output_index f), (dp_source (rf_part g)). clear. intros o o' s Hlt Hnf.
        apply key_lt_numbers. apply key_lt_numbers in Hlt. destruct s as [i|i| | |i|]; try (by destruct (Hnf i));
          try destruct i; simpl in *; lia. }
      intros k k' (g & -> & Hg)%list_elem_of_fmap [->|(h & -> & Hh)%list_elem_of_fmap]%elem_of_cons; [by apply Hbefore|].
      apply list_elem_of_In, List.filter_In in Hh as [Hh%list_elem_of_In _]. apply Hlt; [by apply list_elem_of_fmap; exists g|].
      rewrite <- fmap_cons. apply list_elem_of_fmap. by exists h.
    + apply StronglySorted_cons. rewrite <- fmap_cons in Hs2. split; [|by apply filter_fields_sorted].
      apply Forall_fmap_in. intros g Hg%list_elem_of_In. apply List.filter_In in Hg as [Hg%list_elem_of_In _].
      apply elem_of_cons in Hg as [->|Hg]; [done|]. etransitivity; [exact Hbf|].
      rewrite fmap_cons in Hs2. apply StronglySorted_cons in Hs2 as [Hall _]. rewrite Forall_fmap_in in Hall. by apply Hall.
Qed.

(** ** What a response has to show *)

(** The display string of one element of a list of contents. *)
Inductive element_shows (v : Value) : bool -> FieldKind.t -> string -> Prop :=
| shows_text t : get v "type" = Some (VString "output_text") -> get v "text" = Some (VString t) -> element_shows v false FieldKind.Text t
| shows_refusal t : get v "type" = Some (VString "refusal") -> get v "refusal" = Some (VString t) -> element_shows v false FieldKind.Refusal t
| shows_summary t : get v "type" = Some (VString "summary_text") -> get v "text" = Some (VString t) -> element_shows v true FieldKind.ReasoningSummary t
| shows_reasoning t : get v "type" = Some (VString "reasoning_text") -> get v "text" = Some (VString t) -> element_shows v true FieldKind.ReasoningText t.

(** What is shown of a list of contents: each element at its index, by its string or by
    the marker of what cannot be shown; one marker where there is no list. *)
Definition marker (source : PartSource) : DisplayPart := mkPart FieldKind.Unsupported "Unsupported content" source.
Inductive list_shows (value : option Value) (reasoning : bool) (source : option Z -> PartSource) : DisplayPart -> Prop :=
| shows_element l j v k t : value = Some (VArray l) -> l !! j = Some v -> element_shows v reasoning k t ->
    list_shows value reasoning source (mkPart k t (source (Some (Z.of_nat j))))
| shows_marker l j v : value = Some (VArray l) -> l !! j = Some v -> (forall k t, ~ element_shows v reasoning k t) ->
    list_shows value reasoning source (marker (source (Some (Z.of_nat j))))
| shows_nothing : (forall l, value <> Some (VArray l)) -> list_shows value reasoning source (marker (source None)).

Inductive item_shows (item : OutputItem) : DisplayPart -> Prop :=
| shows_message p : kind item = KMessage -> list_shows (get (native item) "content") false PContent p -> item_shows item p
| shows_thought v p : kind item = KReasoning -> get (native item) "summary" = Some v -> list_shows (Some v) true PSummary p -> item_shows item p
| shows_content v p : kind item = KReasoning -> get (native item) "content" = Some v -> list_shows (Some v) true PContent p -> item_shows item p
| shows_bare : kind item = KReasoning -> get (native item) "summary" = None -> get (native item) "content" = None -> item_shows item (marker PUnsupported)
| shows_name call : kind item = KFunctionCall -> function_call item = Some call ->
    item_shows item (mkPart FieldKind.FunctionName (name call) PFunctionName)
| shows_arguments call : kind item = KFunctionCall -> function_call item = Some call ->
    item_shows item (mkPart FieldKind.FunctionArguments (arguments call) PFunctionArguments)
| shows_no_call : kind item = KFunctionCall -> function_call item = None -> item_shows item (marker PUnsupported)
| shows_other : kind item ∉ [KMessage; KReasoning; KFunctionCall] -> item_shows item (marker PUnsupported).

Lemma string_field v k s : (get v k ≫= as_str) = Some s <-> get v k = Some (VString s).
Proof. destruct (get v k) as [w|]; [|done]. destruct w; cbn; naive_solver. Qed.

Lemma scalar_part_spec reasoning v k t : scalar_part reasoning v = Some (k, t) <-> element_shows v reasoning k t.
Proof.
  unfold scalar_part. split.
  - destruct (get v "type" ≫= as_str) as [ty|] eqn:Ety; [|done]. apply string_field in Ety. cbn [mbind option_bind].
    destruct reasoning; cbn [negb andb].
    + destruct (bool_decide (ty = "summary_text")) eqn:E1; [|destruct (bool_decide (ty = "reasoning_text")) eqn:E2; [|done]]; cbn [mbind option_bind fst snd]; prop_bools; subst ty;
        (destruct (get v "text" ≫= as_str) as [s|] eqn:Et; [|done]); apply string_field in Et; intros [= <- <-]; by constructor.
    + destruct (bool_decide (ty = "output_text")) eqn:E1; [|destruct (bool_decide (ty = "refusal")) eqn:E2; [|done]]; cbn [mbind option_bind fst snd]; prop_bools; subst ty;
        (destruct (get v _ ≫= as_str) as [s|] eqn:Et; [|done]); apply string_field in Et; intros [= <- <-]; by constructor.
  - intros Hs. assert (forall f (kd : FieldKind.t), (get v f ≫= as_str) = Some t -> (text ← (get v f ≫= as_str); Some (kd, text)) = Some (kd, t)) as Hf by (intros f kd E; rewrite E; done).
    destruct Hs as [s A%string_field B%string_field|s A%string_field B%string_field|s A%string_field B%string_field|s A%string_field B%string_field]; rewrite A;
      [exact (Hf "text" FieldKind.Text B) | exact (Hf "refusal" FieldKind.Refusal B) | exact (Hf "text" FieldKind.ReasoningSummary B) | exact (Hf "text" FieldKind.ReasoningText B)].
Qed.

Lemma parts_from_spec i l reasoning summary p : p ∈ parts_from i l reasoning summary <->
  exists j v, l !! j = Some v /\
    ((exists k t, element_shows v reasoning k t /\ p = mkPart k t (part_source summary (Some (i + Z.of_nat j)))) \/
     ((forall k t, ~ element_shows v reasoning k t) /\ p = marker (part_source summary (Some (i + Z.of_nat j))))).
Proof.
  revert i. induction l as [|v l IH]; intros i; cbn [parts_from]; [split; [by intros ?%not_elem_of_nil | by intros (j & w & ? & _)]|].
  rewrite elem_of_cons, IH. split.
  - intros [-> |(j & w & Hj & Hp)].
    + exists 0%nat, v. split; [done|]. rewrite Z.add_0_r. destruct (scalar_part reasoning v) as [[k t]|] eqn:E.
      * left. exists k, t. split; [by apply scalar_part_spec | done].
      * right. split; [|done]. intros k t Hs%scalar_part_spec. congruence.
    + exists (S j), w. split; [done|]. by replace (i + Z.of_nat (S j)) with (i + 1 + Z.of_nat j) by lia.
  - intros ([|j] & w & Hj & Hp); [left|right].
    + injection Hj as <-. rewrite Z.add_0_r in Hp. destruct Hp as [(k & t & Hs%scalar_part_spec & ->)|[Hn ->]]; [by rewrite Hs|].
      destruct (scalar_part reasoning v) as [[k t]|] eqn:E; [|done]. by apply scalar_part_spec, Hn in E.
    + exists j, w. split; [done|]. by replace (i + 1 + Z.of_nat j) with (i + Z.of_nat (S j)) by lia.
Qed.

Lemma parts_spec value reasoning summary p : p ∈ parts value reasoning summary <-> list_shows value reasoning (part_source summary) p.
Proof.
  split.
  - intros Hp. destruct value as [v|]; [destruct v as [| | | |l|]|]; cbn [parts] in Hp; try (apply list_elem_of_singleton in Hp as ->; by constructor).
    apply parts_from_spec in Hp as (j & v & Hj & [(k & t & Hs & ->)|[Hn ->]]); rewrite Z.add_0_l; by econstructor.
  - intros []; [subst value; cbn [parts]; apply parts_from_spec; exists j, v; rewrite Z.add_0_l; naive_solver..|].
    destruct value as [v|]; [|by left]. destruct v as [| | | |l|]; try (by left). naive_solver.
Qed.

Lemma project_item_spec item p : p ∈ project_item item <-> item_shows item p.
Proof.
  unfold project_item. split.
  - destruct (kind item) eqn:Ek; try (intros ->%list_elem_of_singleton; apply shows_other; rewrite Ek; set_solver).
    + intros Hp%parts_spec. by apply shows_message.
    + rewrite !elem_of_app. destruct (get (native item) "summary") as [u|] eqn:Es, (get (native item) "content") as [c|] eqn:Ec; cbn [is_some negb andb];
        rewrite ?elem_of_nil, ?list_elem_of_singleton, ?parts_spec; intros Hp; destruct_or?; try done; subst;
        first [by apply shows_bare | by eapply shows_thought | by eapply shows_content].
    + destruct (function_call item) as [call|] eqn:Ec.
      * rewrite elem_of_cons, list_elem_of_singleton. intros [-> | ->]; [by apply shows_name | by apply shows_arguments].
      * intros ->%list_elem_of_singleton. by apply shows_no_call.
  - intros Hs. destruct Hs as [p Hk Hp|v p Hk Hg Hp|v p Hk Hg Hp|Hk H1 H2|call Hk Hc|call Hk Hc|Hk Hc|Hk].
    + rewrite Hk. by apply parts_spec.
    + rewrite Hk, Hg. cbn [is_some negb andb]. rewrite !elem_of_app, parts_spec. by right; left.
    + rewrite Hk, Hg. rewrite !elem_of_app. cbn [is_some negb]. rewrite !parts_spec. by right; right.
    + rewrite Hk, H1, H2. by left.
    + rewrite Hk, Hc. by left.
    + rewrite Hk, Hc. right. by left.
    + rewrite Hk, Hc. by left.
    + destruct (kind item); try (by left); exfalso; apply Hk; set_solver.
Qed.

Lemma fields_from_spec i items f : f ∈ fields_from i items <->
  exists n item, items !! n = Some item /\ rf_output_index f = i + Z.of_nat n /\ item_shows item (rf_part f).
Proof.
  revert i. induction items as [|item items IH]; intros i; cbn [fields_from]; [split; [by intros ?%not_elem_of_nil | by intros (n & x & ? & _)]|].
  rewrite elem_of_app, IH, list_elem_of_fmap. split.
  - intros [(p & -> & Hp%project_item_spec)|(n & x & Hn & Hi & Hs)]; [exists 0%nat, item; split_and!; [done|cbn;lia|done] | exists (S n), x; split_and!; [done|lia|done]].
  - intros ([|n] & x & Hn & Hi & Hs); [left|right].
    + injection Hn as <-. exists (rf_part f). split; [destruct f; cbn in *; f_equal; lia | by apply project_item_spec].
    + exists n, x. split_and!; [done|lia|done].
Qed.

(** The text of a response shows in the answers that are shown. *)
Definition answer_texts (fields : list ResponseField) : list string := (fun f => dp_text (rf_part f)) <$> List.filter (fun f => answer (rf_part f)) fields.
Definition text_shown (text : string) (fields : list ResponseField) : Prop :=
  text = EmptyString \/ (exists a, a ∈ answer_texts fields /\ has_infix text a = true) \/
  has_infix text (foldr String.append EmptyString (answer_texts fields)) = true \/ has_infix text (join_lines (answer_texts fields)) = true.
Lemma represented_shown text fields : represented text fields = true -> text_shown text fields.
Proof.
  unfold represented. fold (answer_texts fields). rewrite !orb_true_iff, existsb_exists. intros [[[He|(a & Ha%list_elem_of_In & Hi)]|Hc]|Hj].
  - left. by destruct text.
  - right. left. by exists a.
  - right. right. by left.
  - by right; right; right.
Qed.

