(* ===== verification/Fields.v ===== *)
(** * Display rows (src/src/storage/session_v3.sql, conversation/fields.rs, projector/rows.rs, projector/content.rs)

    The tables that hold what is shown of a session, and the operations on the fields
    of an entry: their texts are kept in chunks.  A statement that breaks a constraint
    of a table fails as [SQLITE_CONSTRAINT]; the rows of [runs] and [events] that the
    display rows refer to are inserted by the caller before.  JSON columns and the keys
    that are digests are behind the class [DisplaySerde]. *)
From stdpp Require Import sorting.
From S2P Require Import Prelude Json Errors Identifiers Provider Tools Replay RunData Records Store History Session RunStore Text Positions Chunks Projection.

(** ** What the JSON columns hold (rows.rs) *)

Module Outcome.
Inductive t : Type := Completed | Failed (code : string) | CancelledLocally.
#[global] Instance eq_dec : EqDecision t.
Proof. solve_decision. Defined.

Definition new (o : RunOutcome) : t :=
  match o with
  | RunData.Completed => Completed
  | RunData.Failed code => Failed (safe_code code)
  | RunData.CancelledLocally => CancelledLocally
  end.
Definition state (o : t) : RunState :=
  match o with
  | Completed => RecordedRunState.Completed
  | Failed _ => RecordedRunState.Failed
  | CancelledLocally => RecordedRunState.CancelledLocally
  end.
End Outcome.

(** [BlockHeader]; its summary holds the numbers of a [RunSummary]. *)
Record BlockHeader : Type := mkHeader {
  bh_human : string;
  bh_state : RunState;
  bh_result_recorded : bool;
  bh_outcome : option Outcome.t;
  bh_summary : option RunSummary;
  bh_events_complete : option bool;
  bh_sink_error : option RunSinkError;
  bh_current_turn : option string;
  bh_current_assistant : option string
}.

Module Source.
Inductive t : Type :=
| Human
| Assistant (turn_id : string)
| Tool (call_id : string)
| Reuse (sequence slot : Z)
| Notice (sequence slot : Z).
#[global] Instance eq_dec : EqDecision t.
Proof. solve_decision. Defined.

Definition kind (s : t) : string :=
  match s with
  | Human => "human"
  | Assistant _ => "assistant"
  | Tool _ => "tool"
  | Reuse _ _ => "reuse"
  | Notice _ _ => "notice"
  end.
End Source.

Record EntryMetadata : Type := mkMetadata {
  em_source : Source.t;
  em_state : State.t;
  em_provisional : bool;
  em_response_id : option string;
  em_provenance : option OutputProvenance;
  em_turn_id : option string;
  em_request_id : option string;
  em_reference : option string;
  em_result_recorded : option bool;
  em_finish_recorded : option bool;
  em_is_error : option bool;
  em_finish_is_error : option bool;
  em_failure : option string;
  em_upstream_outcome : option UpstreamOutcome;
  em_closed : bool
}.
Definition new_metadata (source : Source.t) (state : State.t) (provisional : bool) : EntryMetadata :=
  mkMetadata source state provisional None None None None None None None None None None None false.

(** ** The tables *)
Record BlockRow : Type := mkBlockRow {
  br_accepted_sequence : Z;
  br_changed_sequence : Z;
  br_header_json : string
}.
Record EntryRow : Type := mkEntryRow {
  er_source_key : string;
  er_first_sequence : Z;
  er_position_slot : Z;
  er_changed_sequence : Z;
  er_content_epoch : Z;
  er_kind : string;
  er_metadata_json : string
}.
Record FieldRow : Type := mkFieldRow {
  fr_order_key : string;
  fr_generation : Z;
  fr_byte_length : Z;
  fr_kind : string;
  fr_metadata_json : string
}.

(** The rows by their primary keys: of a run, of an entry of a run, of a field of an
    entry.  The chunks of a field are in the order of [start_byte]. *)
Notation EntryRef := (string * string)%type.
Notation FieldRef := (string * string * string)%type.
Record Rows : Type := mkRows {
  d_blocks : gmap string BlockRow;
  d_entries : gmap EntryRef EntryRow;
  d_fields : gmap FieldRef FieldRow;
  d_chunks : gmap FieldRef (list TextChunk)
}.
Definition with_blocks (v : gmap string BlockRow) (d : Rows) : Rows := mkRows v (d_entries d) (d_fields d) (d_chunks d).
Definition with_entries (v : gmap EntryRef EntryRow) (d : Rows) : Rows := mkRows (d_blocks d) v (d_fields d) (d_chunks d).
Definition with_fields (v : gmap FieldRef FieldRow) (d : Rows) : Rows := mkRows (d_blocks d) (d_entries d) v (d_chunks d).
Definition with_chunks (v : gmap FieldRef (list TextChunk)) (d : Rows) : Rows := mkRows (d_blocks d) (d_entries d) (d_fields d) v.

Definition chunk_rows (d : Rows) (ref : FieldRef) : list TextChunk := default [] (d_chunks d !! ref).

(** ** Keys *)

(** What a [SourceKey] is the digest of. *)
Inductive KeyTuple : Type :=
| EntryTuple (version : Z) (tag run : string) (source : Source.t)
| FieldTuple (version : Z) (tag run entry order : string).

Class DisplaySerde := {
  hash_tuple : KeyTuple -> option string;
  header_to_json : BlockHeader -> option string;
  header_from_json : string -> option BlockHeader;
  metadata_to_json : EntryMetadata -> option string;
  metadata_from_json : string -> option EntryMetadata;
  (* serde_json::from_str::<FieldMetadata> *)
  field_metadata : string -> bool;
  (* json_extract(metadata_json,'$.provisional')=1 *)
  json_provisional : string -> bool
}.

Definition integer (value : Z) : SResult Z := ok_or (i64_try_from value) integrity.
Definition unsigned (value : Z) : SResult Z := ok_or (u64_try_from value) integrity.
Definition length_of (text : string) : SResult Z :=
  let? length := ok_or (u64_try_from (len text)) integrity in
  check? integer length in
  Ok length.

Module FieldOrder.
Inductive t : Type := Human | Indexed (order : OrderKey).
Definition encode (o : t) : string := match o with Human => "0" | Indexed order => show_key order end.
Definition decode (value : string) : SResult t :=
  if bool_decide (value = "0") then Ok Human else ok_or (Indexed <$> parse_key value) integrity.
End FieldOrder.
#[export] Instance OrderKey_eq_dec : EqDecision OrderKey.
Proof. solve_decision. Defined.
#[export] Instance FieldOrder_eq_dec : EqDecision FieldOrder.t.
Proof. solve_decision. Defined.

(** [KINDS]. *)
Definition KINDS : list (FieldKind.t * string) :=
  [(FieldKind.Text, "text"); (FieldKind.Refusal, "refusal"); (FieldKind.ReasoningSummary, "reasoning_summary");
   (FieldKind.ReasoningText, "reasoning_text"); (FieldKind.FunctionName, "function_name");
   (FieldKind.FunctionArguments, "function_arguments"); (FieldKind.ToolName, "tool_name");
   (FieldKind.ToolResult, "tool_result"); (FieldKind.AuthoritativeText, "authoritative_text");
   (FieldKind.Unsupported, "unsupported"); (FieldKind.Notice, "notice")].
Definition decode_kind (value : string) : SResult FieldKind.t :=
  ok_or (fst <$> List.find (fun k => bool_decide (snd k = value)) KINDS) integrity.
(** [kind_code]; every kind is in the list. *)
Definition field_code (kind : FieldKind.t) : string :=
  default EmptyString (snd <$> List.find (fun k => bool_decide (fst k = kind)) KINDS).

(** [SourceKey::field_id]: the bytes in hexadecimal. *)
Fixpoint hex_bytes (s : string) : string :=
  match s with
  | EmptyString => EmptyString
  | String c s => String.append (hex_digits 2 (Z.of_nat (Ascii.nat_of_ascii c))) (hex_bytes s)
  end.

Record FieldKey : Type := mkFieldKey {
  fk_run : string;
  fk_entry : EntryId;
  fk_id : string;
  fk_order : FieldOrder.t;
  fk_kind : FieldKind.t
}.
Definition fk_ref (key : FieldKey) : FieldRef := (fk_run key, show_entry_id (fk_entry key), fk_id key).

Section fields.
Context `{DisplaySerde}.
Notation Sql := (SM Rows StorageError).

(** [SourceKey::entry] and [SourceKey::field]. *)
Definition entry_key (run : string) (source : Source.t) : SResult string :=
  ok_or (hash_tuple (EntryTuple 1 "wi.conversation.entry" run source)) integrity.
Definition field_key (run : string) (entry : EntryId) (order : OrderKey) : SResult string :=
  ok_or (hash_tuple (FieldTuple 1 "wi.conversation.field" run (show_entry_id entry) (source_spelling order))) integrity.

(** [FieldKey::new]. *)
Definition new_key (run : string) (entry : EntryId) (order : FieldOrder.t) (kind : FieldKind.t) : SResult FieldKey :=
  check? integer (first_sequence entry) in
  check? integer (position_slot entry) in
  let? field_id := match order with
                   | FieldOrder.Human => if bool_decide (kind = FieldKind.Text) then Ok "text" else Err integrity
                   | FieldOrder.Indexed order => let? key := field_key run entry order in Ok (hex_bytes key)
                   end in
  Ok (mkFieldKey run entry field_id order kind).

(** [FieldKey::generation]. *)
Definition key_generation (key : FieldKey) (generation : Z) : SResult Z :=
  if generation <? first_sequence (fk_entry key) then Err integrity else integer generation.

(** [validate_entry]. *)
Definition validate_entry (key : FieldKey) (d : Rows) : SResult unit :=
  let? row := ok_or (d_entries d !! (fk_run key, show_entry_id (fk_entry key))) integrity in
  let? first := unsigned (er_first_sequence row) in
  let? slot := unsigned (er_position_slot row) in
  if negb (first =? first_sequence (fk_entry key)) || negb (slot =? position_slot (fk_entry key))
     || negb (one_of (er_kind row) ["human"; "assistant"; "tool"; "reuse"; "notice"])
     || negb (bool_decide (er_kind row = "human" <-> fk_order key = FieldOrder.Human))
  then Err integrity else Ok tt.

Record FieldDescriptor : Type := mkDescriptor { fd_generation : Z; fd_byte_length : Z }.

Definition starts_object (text : string) : bool :=
  match trim_start text with String c _ => Ascii.eqb c "{"%char | EmptyString => false end.

(** [load]. *)
Definition load_field (key : FieldKey) (d : Rows) : SResult FieldDescriptor :=
  check? validate_entry key d in
  let? row := ok_or (d_fields d !! fk_ref key) integrity in
  let? order := FieldOrder.decode (fr_order_key row) in
  let? generation := unsigned (fr_generation row) in
  let? byte_length := unsigned (fr_byte_length row) in
  if negb (starts_object (fr_metadata_json row)) then Err integrity
  else if negb (field_metadata (fr_metadata_json row)) then Err integrity
  else
    check? key_generation key generation in
    if negb (bool_decide (order = fk_order key)) || negb (bool_decide (fr_kind row = field_code (fk_kind key)))
    then Err integrity
    else Ok (mkDescriptor generation byte_length).

(** [tail]: the last chunk, when it ends where the text does and starts where the one before it ends. *)
Definition field_tail (key : FieldKey) (total : Z) (d : Rows) : SResult (option TextChunk) :=
  match last (chunk_rows d (fk_ref key)) with
  | None => if negb (total =? 0) then Err integrity else Ok None
  | Some row =>
      let? start := unsigned (ch_start row) in
      if (len (ch_text row) =? 0) || (CHUNK_BYTES <? len (ch_text row)) then Err integrity
      else if negb (from_utf8 (ch_text row)) then Err integrity
      else
        let? length := length_of (ch_text row) in
        let? stop := ok_or (checked_add_u64 start length) integrity in
        if negb (stop =? total) then Err integrity
        else
          check? integer start in
          let? previous_end :=
            match last (List.filter (fun c => ch_start c <? start) (chunk_rows d (fk_ref key))) with
            | None => Ok 0
            | Some c =>
                let size := len (ch_text c) in
                if (size =? 0) || (CHUNK_BYTES <? size) then Err integrity
                else
                  let? offset := unsigned (ch_start c) in
                  ok_or (checked_add_u64 offset size) integrity
            end in
          if negb (previous_end =? start) then Err integrity
          else Ok (Some (mkChunk start (ch_text row)))
  end.

(** INSERT INTO conversation_chunks. *)
Fixpoint place_chunk (c : TextChunk) (rows : list TextChunk) : list TextChunk :=
  match rows with
  | [] => [c]
  | r :: rows => if ch_start c <? ch_start r then c :: r :: rows else r :: place_chunk c rows
  end.
Definition insert_chunk (ref : FieldRef) (c : TextChunk) : Sql unit :=
  do! require_constraint (fun d => (0 <=? ch_start c) && (0 <? len (ch_text c)) && (len (ch_text c) <=? CHUNK_BYTES)
        && negb (existsb (fun r => ch_start r =? ch_start c) (chunk_rows d ref)) && is_some (d_fields d !! ref)) in
  modify (fun d => with_chunks (<[ref := place_chunk c (chunk_rows d ref)]> (d_chunks d)) d).

(** [insert_chunks]. *)
Fixpoint insert_all (ref : FieldRef) (cs : list TextChunk) : Sql unit :=
  match cs with
  | [] => ret tt
  | c :: cs => do! lift (integer (ch_start c)) in do! insert_chunk ref c in insert_all ref cs
  end.
Definition insert_chunks (key : FieldKey) (text : string) (start : Z) : Sql unit :=
  let! length := lift (length_of text) in
  let! stop := lift (ok_or (checked_add_u64 start length) integrity) in
  do! lift (integer stop) in
  let! chunks := lift (ok_or (text_chunks text start) integrity) in
  insert_all (fk_ref key) chunks.

(** INSERT INTO conversation_fields. *)
Definition insert_row (ref : FieldRef) (row : FieldRow) : Sql unit :=
  do! require_constraint (fun d => (0 <=? fr_byte_length row) && is_none (d_fields d !! ref) && is_some (d_entries d !! fst ref)
        && bool_decide (map_Forall (fun k r => fst k = fst ref -> fr_order_key r <> fr_order_key row) (d_fields d))) in
  modify (fun d => with_fields (<[ref := row]> (d_fields d)) d).
(** UPDATE conversation_fields. *)
Definition update_row (ref : FieldRef) (f : FieldRow -> FieldRow) : Sql unit :=
  do! require_constraint (fun d => is_none_or (d_fields d !! ref) (fun r => 0 <=? fr_byte_length (f r))) in
  modify (fun d => with_fields (alter f ref (d_fields d)) d).
(** DELETE FROM conversation_chunks and conversation_fields. *)
Definition delete_chunks (ref : FieldRef) : Sql unit := modify (fun d => with_chunks (delete ref (d_chunks d)) d).
Definition delete_row (ref : FieldRef) : Sql unit :=
  do! require_constraint (fun d => match chunk_rows d ref with [] => true | _ => false end) in
  modify (fun d => with_fields (delete ref (d_fields d)) d).

(** [insert]. *)
Definition insert_field (key : FieldKey) (generation : Z) (text : string) : Sql FieldDescriptor :=
  let! generation_sql := lift (key_generation key generation) in
  let! byte_length := lift (length_of text) in
  do! reads (validate_entry key) in
  let! byte_length_sql := lift (integer byte_length) in
  do! insert_row (fk_ref key)
        (mkFieldRow (FieldOrder.encode (fk_order key)) generation_sql byte_length_sql (field_code (fk_kind key)) "{}") in
  do! insert_chunks key text 0 in
  ret (mkDescriptor generation byte_length).

(** [append]. *)
Definition set_length (n : Z) (r : FieldRow) : FieldRow :=
  mkFieldRow (fr_order_key r) (fr_generation r) n (fr_kind r) (fr_metadata_json r).
Definition update_chunk (ref : FieldRef) (start : Z) (text : string) : Sql unit :=
  do! require_constraint (fun d => negb (existsb (fun r => ch_start r =? start) (chunk_rows d ref))
        || (0 <? len text) && (len text <=? CHUNK_BYTES)) in
  modify (fun d => with_chunks (alter (fmap (fun r => if ch_start r =? start then mkChunk start text else r)) ref (d_chunks d)) d).
Definition append_field (key : FieldKey) (delta : string) : Sql FieldDescriptor :=
  let! field := reads (load_field key) in
  let! length := lift (length_of delta) in
  let! new_length := lift (ok_or (checked_add_u64 (fd_byte_length field) length) integrity) in
  do! lift (integer new_length) in
  let! tail := reads (field_tail key (fd_byte_length field)) in
  if str_is_empty delta then ret field
  else
    let consumed :=
      match tail with
      | None => O
      | Some tail => boundary_before delta (Z.to_nat (Z.min (CHUNK_BYTES - len (ch_text tail)) (len delta)))
      end in
    let '(front, rest) := split_at consumed delta in
    do! match tail with
        | Some tail =>
            if Nat.ltb 0 consumed
            then (do! lift (integer (ch_start tail)) in
                  update_chunk (fk_ref key) (ch_start tail) (String.append (ch_text tail) front))
            else ret tt
        | None => ret tt
        end in
    let! start := lift (ok_or (checked_add_u64 (fd_byte_length field) (Z.of_nat consumed)) integrity) in
    do! insert_chunks key rest start in
    do! update_row (fk_ref key) (set_length new_length) in
    ret (mkDescriptor (fd_generation field) new_length).

(** [replace]. *)
Definition replace_field (key : FieldKey) (generation : Z) (text : string) : Sql FieldDescriptor :=
  let! generation_sql := lift (key_generation key generation) in
  let! byte_length := lift (length_of text) in
  let! field := reads (load_field key) in
  if generation <=? fd_generation field then throw integrity
  else
    do! reads (field_tail key (fd_byte_length field)) in
    do! delete_chunks (fk_ref key) in
    let! byte_length_sql := lift (integer byte_length) in
    do! update_row (fk_ref key) (fun r =>
          mkFieldRow (fr_order_key r) generation_sql byte_length_sql (fr_kind r) (fr_metadata_json r)) in
    do! insert_chunks key text 0 in
    ret (mkDescriptor generation byte_length).

(** ** The content of an entry (content.rs) *)

(** [Entry]. *)
Record Entry : Type := mkEntry { e_id : EntryId; e_epoch : Z; e_revision : Z; e_metadata : EntryMetadata }.
Definition with_epoch (n : Z) (e : Entry) : Entry := mkEntry (e_id e) n (e_revision e) (e_metadata e).

Record Part : Type := mkDisplay { pt_order : OrderKey; pt_kind : FieldKind.t; pt_text : string }.

(** [remove]. *)
Definition remove_field (key : FieldKey) : Sql unit :=
  do! append_field key EmptyString in
  do! delete_chunks (fk_ref key) in
  delete_row (fk_ref key).

(** Whether a field stands later in the entry than an order. *)
Definition has_later (ref : EntryRef) (order : string) (d : Rows) : bool :=
  negb (bool_decide (map_Forall (fun k r => fst k = ref -> String.compare (fr_order_key r) order <> Gt) (d_fields d))).

(** [delta], which returns the entry it changes. *)
Definition delta (run : string) (entry : Entry) (sequence : Z) (part : Part) : Sql Entry :=
  let! key := lift (new_key run (e_id entry) (FieldOrder.Indexed (pt_order part)) (pt_kind part)) in
  let! old := gets (fun d => d_fields d !! fk_ref key) in
  match old with
  | Some old =>
      let! old_kind := lift (decode_kind (fr_kind old)) in
      if negb (bool_decide (old_kind = pt_kind part)) then
        let! old_key := lift (new_key run (e_id entry) (FieldOrder.Indexed (pt_order part)) old_kind) in
        let! field := reads (load_field old_key) in
        if e_revision entry <? fd_generation field then throw integrity
        else
          do! remove_field old_key in
          do! insert_field key sequence (pt_text part) in
          ret (with_epoch sequence entry)
      else
        let text := if bool_decide (pt_kind part = FieldKind.Unsupported) then EmptyString else pt_text part in
        let! field := append_field key text in
        if e_revision entry <? fd_generation field then throw integrity else ret entry
  | None =>
      let! later := gets (has_later (run, show_entry_id (e_id entry)) (show_key (pt_order part))) in
      do! insert_field key sequence (pt_text part) in
      ret (if later then with_epoch sequence entry else entry)
  end.

(** [same_text]: each chunk in turn against its place in the text. *)
Definition slice (text : string) (from to : Z) : option string :=
  if (from <=? to) && (to <=? len text) then Some (String.substring (Z.to_nat from) (Z.to_nat (to - from)) text) else None.
Fixpoint same_chunks (fuel : nat) (ref : FieldRef) (total offset : Z) (text : string) (d : Rows) : SResult bool :=
  match fuel with
  | O => Err integrity
  | S fuel =>
      check? integer offset in
      match List.find (fun c => offset <=? ch_start c) (chunk_rows d ref) with
      | None => if negb (offset =? total) then Err integrity else Ok true
      | Some row =>
          let? start := unsigned (ch_start row) in
          if negb (start =? offset) || (len (ch_text row) =? 0) || (CHUNK_BYTES <? len (ch_text row))
             || negb (from_utf8 (ch_text row))
          then Err integrity
          else
            let? stop := ok_or (checked_add_u64 offset (len (ch_text row))) integrity in
            if total <? stop then Err integrity
            else if negb (bool_decide (slice text offset stop = Some (ch_text row))) then Ok false
            else same_chunks fuel ref total stop text d
      end
  end.
Definition same_text (key : FieldKey) (entry : Entry) (text : string) (d : Rows) : SResult bool :=
  let? descriptor := load_field key d in
  if e_revision entry <? fd_generation descriptor then Err integrity
  else
    let? size := ok_or (u64_try_from (len text)) integrity in
    if negb (fd_byte_length descriptor =? size) then Ok false
    else same_chunks (S (length (chunk_rows d (fk_ref key)))) (fk_ref key) (fd_byte_length descriptor) 0 text d.

(** The rows of an entry with a text between two others, in the order of it. *)
Definition order_le (a b : string * FieldRow) : Prop := String.compare (fr_order_key (snd a)) (fr_order_key (snd b)) <> Gt.
#[export] Instance order_le_dec a b : Decision (order_le a b).
Proof. unfold order_le. apply _. Defined.
Definition rows_between (ref : EntryRef) (lower upper : string) (d : Rows) : list (string * FieldRow) :=
  merge_sort order_le
    (List.filter (fun kr => match String.compare (fr_order_key (snd kr)) lower with Lt => false | _ => true end
                            && match String.compare (fr_order_key (snd kr)) upper with Lt => true | _ => false end)
      (omap (fun kr => if bool_decide (fst (fst kr) = ref) then Some (snd (fst kr), snd kr) else None) (map_to_list (d_fields d)))).

(** The first loop of [snapshot]: an old field stays where a part has its place and its
    kind, with its text or with a new one, and goes otherwise.  What is returned is
    whether one went, and the orders that stay. *)
Fixpoint keep_old (run : string) (entry : Entry) (sequence : Z) (parts : list Part) (old : list (string * FieldRow))
    (changed : bool) (retained : list OrderKey) : Sql (bool * list OrderKey) :=
  match old with
  | [] => ret (changed, retained)
  | (field_id, row) :: old =>
      let! order := lift (FieldOrder.decode (fr_order_key row)) in
      let! kind := lift (decode_kind (fr_kind row)) in
      let! key := lift (new_key run (e_id entry) order kind) in
      if negb (bool_decide (fk_id key = field_id)) then throw integrity
      else
        let! field := reads (load_field key) in
        if e_revision entry <? fd_generation field then throw integrity
        else
          match List.find (fun p => bool_decide (FieldOrder.Indexed (pt_order p) = order) && bool_decide (pt_kind p = kind)) parts with
          | Some part =>
              let! same := reads (same_text key entry (pt_text part)) in
              do! (if same then ret tt else do! replace_field key sequence (pt_text part) in ret tt) in
              keep_old run entry sequence parts old changed (pt_order part :: retained)
          | None =>
              do! remove_field key in
              keep_old run entry sequence parts old true retained
          end
  end.

(** The second loop: the parts that have no field yet. *)
Fixpoint add_new (run : string) (entry : Entry) (sequence : Z) (retained : list OrderKey) (parts : list Part)
    (unique : list OrderKey) (changed : bool) : Sql bool :=
  match parts with
  | [] => ret changed
  | part :: parts =>
      if bool_decide (pt_order part ∈ unique) then throw integrity
      else if negb (bool_decide (pt_order part ∈ retained)) then
        let! key := lift (new_key run (e_id entry) (FieldOrder.Indexed (pt_order part)) (pt_kind part)) in
        do! insert_field key sequence (pt_text part) in
        add_new run entry sequence retained parts (pt_order part :: unique) true
      else add_new run entry sequence retained parts (pt_order part :: unique) changed
  end.

(** [snapshot], which returns the entry it changes. *)
Definition snapshot (run : string) (entry : Entry) (sequence : Z) (output : option Z) (parts : list Part) : Sql Entry :=
  let '(lower, upper) := match output with
                         | Some index => output_range index
                         | None => (EmptyString, "~")
                         end in
  let! old := gets (rows_between (run, show_entry_id (e_id entry)) lower upper) in
  let! kept := keep_old run entry sequence parts old false [] in
  let! changed := add_new run entry sequence (snd kept) parts [] (fst kept) in
  ret (if changed then with_epoch sequence entry else entry).
End fields.

(** What serialization and the digest promise: a text that was encoded decodes to the
    value it was encoded from and is an object, these values all have a text and every
    tuple a digest, and what is extracted from a text is what was written in it. *)
Class DisplayLaws `{DisplaySerde} : Prop := {
  empty_metadata : field_metadata "{}" = true;
  hash_total t : is_Some (hash_tuple t);
  header_total h : is_Some (header_to_json h);
  header_round h t : header_to_json h = Some t -> header_from_json t = Some h /\ starts_object t = true;
  metadata_total m : is_Some (metadata_to_json m);
  metadata_round m t : metadata_to_json m = Some t -> metadata_from_json t = Some m /\ starts_object t = true;
  provisional_round m t : metadata_to_json m = Some t -> json_provisional t = em_provisional m
}.

(** * The texts behind the display rows

    The chunks of a field are a text cut at character boundaries.  Each operation on a
    field is what it says it is for that text, and the rows of an entry implement a map
    from the places of the entry to kinds and texts. *)

(** ** Chunks *)
Definition chunk_ok (c : TextChunk) : Prop := 0 < len (ch_text c) <= CHUNK_BYTES /\ from_utf8 (ch_text c) = true.
Definition chunks_ok (rows : list TextChunk) : Prop := consecutive 0 rows /\ Forall chunk_ok rows.
Definition text_of (rows : list TextChunk) : string := texts (ch_text <$> rows).

Lemma text_of_app a b : text_of (a ++ b) = String.append (text_of a) (text_of b).
Proof. unfold text_of. by rewrite fmap_app, texts_app. Qed.

Lemma text_of_one c : text_of [c] = ch_text c.
Proof. unfold text_of. cbn. apply append_empty. Qed.

Lemma consecutive_app s a b : consecutive s (a ++ b) <-> consecutive s a /\ consecutive (s + len (text_of a)) b.
Proof.
  revert s. induction a as [|c a IH]; intros s; [cbn; by rewrite Z.add_0_r, (left_id True and)|].
  cbn [app consecutive]. rewrite IH. change (text_of (c :: a)) with (String.append (ch_text c) (text_of a)). rewrite len_app, Z.add_assoc. tauto.
Qed.

Lemma consecutive_starts s rows : consecutive s rows ->
  Forall (fun c => s <= ch_start c /\ ch_start c + len (ch_text c) <= s + len (text_of rows)) rows.
Proof.
  revert s. induction rows as [|c rows IH]; intros s; [constructor|]. intros [Hs Hc].
  change (text_of (c :: rows)) with (String.append (ch_text c) (text_of rows)). rewrite len_app.
  pose proof (len_nonneg (ch_text c)). pose proof (len_nonneg (text_of rows)). constructor; [lia|].
  eapply Forall_impl; [by apply IH|]. simpl. lia.
Qed.

Lemma place_chunk_last c rows : Forall (fun r => ch_start r <= ch_start c) rows -> place_chunk c rows = rows ++ [c].
Proof. induction 1 as [|r rows Hr _ IH]; [done|]. cbn [place_chunk]. destruct (Z.ltb_spec (ch_start c) (ch_start r)); [lia|]. by rewrite IH. Qed.

Lemma utf8_app a b : from_utf8 a = true -> from_utf8 (String.append a b) = from_utf8 b.
Proof.
  intros (chs & -> & HF)%utf8_chars. induction HF as [|ch chs (x & tail & -> & _ & _ & _ & Ht) _ IH]; [done|].
  cbn [texts fold_right]. rewrite append_assoc, Ht. exact IH.
Qed.

Lemma text_of_utf8 rows : Forall chunk_ok rows -> from_utf8 (text_of rows) = true.
Proof.
  induction 1 as [|c rows [_ Hu] _ IH]; [done|]. change (text_of (c :: rows)) with (String.append (ch_text c) (text_of rows)). by rewrite utf8_app.
Qed.

(** The pieces of a text, after what is already there. *)
Lemma text_chunks_spec text start :
  from_utf8 text = true -> 0 <= start -> start + len text <= u64_max ->
  exists cs, text_chunks text start = Some cs /\ text_of cs = text /\ consecutive start cs /\ Forall chunk_ok cs.
Proof.
  intros Hu Hs Hmax. unfold text_chunks. pose proof (len_nonneg text).
  rewrite (proj2 (checked_add_u64_Some start (len text) (start + len text))) by lia. cbn [mbind option_bind].
  destruct (utf8_chars text Hu) as (chs & -> & HF).
  destruct (collect_chunks_exact (S (String.length (texts chs))) chs start HF) as (cs & -> & Ht & Hc & HFc); [|by exists cs].
  clear -HF. induction HF as [|ch chs (a & tail & -> & _) _ IH]; [simpl; lia|].
  cbn [texts fold_right length]. fold (texts chs). rewrite string_length_app. simpl. lia.
Qed.

(** Where the last chunk takes in what it has room for. *)
Lemma split_boundary text n : from_utf8 text = true -> (n <= String.length text)%nat ->
  exists front rest, split_at (boundary_before text n) text = (front, rest) /\ text = String.append front rest /\
    String.length front = boundary_before text n /\ (boundary_before text n <= n)%nat /\ from_utf8 front = true /\ from_utf8 rest = true.
Proof.
  intros (chs & -> & HF)%utf8_chars Hn. destruct (boundary_before_spec (texts chs) n) as (Hb & Hle & _).
  destruct (boundary_chars chs (boundary_before (texts chs) n) HF) as (pre & post & -> & Hl); [lia | done |].
  exists (texts pre), (texts post). apply Forall_app in HF as [Hpre Hpost].
  rewrite texts_app at 2. rewrite <- Hl, split_at_append. rewrite Hl. rewrite texts_app at 1.
  repeat split; try done; by apply chars_utf8.
Qed.

(** ** Statements *)

(** What a statement on the chunks of one field changes, *)
Record chunks_to (ref : FieldRef) (rows : list TextChunk) (d d' : Rows) : Prop := {
  ct_blocks : d_blocks d' = d_blocks d;
  ct_entries : d_entries d' = d_entries d;
  ct_fields : d_fields d' = d_fields d;
  ct_rows : chunk_rows d' ref = rows;
  ct_others ref' : ref' <> ref -> chunk_rows d' ref' = chunk_rows d ref'
}.

(** and one on the field itself. *)
Record field_to (ref : FieldRef) (new : option (FieldRow * list TextChunk)) (d d' : Rows) : Prop := {
  ft_blocks : d_blocks d' = d_blocks d;
  ft_entries : d_entries d' = d_entries d;
  ft_fields : d_fields d' = partial_alter (fun _ => fst <$> new) ref (d_fields d);
  ft_rows : chunk_rows d' ref = default [] (snd <$> new);
  ft_others ref' : ref' <> ref -> chunk_rows d' ref' = chunk_rows d ref'
}.

Lemma insert_chunk_to ref c d :
  0 <= ch_start c -> chunk_ok c -> Forall (fun r => ch_start r < ch_start c) (chunk_rows d ref) -> is_Some (d_fields d !! ref) ->
  exists d', insert_chunk ref c d = (Ok tt, d') /\ chunks_to ref (chunk_rows d ref ++ [c]) d d'.
Proof.
  intros Hs [Hl _] HF [row Hrow]. unfold insert_chunk, bind, require_constraint.
  assert (existsb (fun r => ch_start r =? ch_start c) (chunk_rows d ref) = false) as ->.
  { apply not_true_is_false. intros (r & Hr%list_elem_of_In & He%Z.eqb_eq)%existsb_exists. rewrite Forall_forall in HF. specialize (HF r Hr). lia. }
  rewrite Hrow, (proj2 (Z.leb_le _ _) Hs), (proj2 (Z.ltb_lt _ _) (proj1 Hl)), (proj2 (Z.leb_le _ _) (proj2 Hl)). cbn [andb negb is_some].
  eexists. split; [reflexivity|]. rewrite place_chunk_last by (eapply Forall_impl; [exact HF|]; simpl; lia).
  split; try done; unfold chunk_rows; cbn [d_chunks with_chunks].
  - by rewrite lookup_insert_eq.
  - intros ref' Hn. by rewrite lookup_insert_ne.
Qed.

Lemma insert_all_to ref cs d :
  consecutive (len (text_of (chunk_rows d ref))) cs -> consecutive 0 (chunk_rows d ref) -> Forall chunk_ok (chunk_rows d ref) ->
  Forall chunk_ok cs -> len (text_of (chunk_rows d ref)) + len (text_of cs) <= i64_max -> is_Some (d_fields d !! ref) ->
  exists d', insert_all ref cs d = (Ok tt, d') /\ chunks_to ref (chunk_rows d ref ++ cs) d d'.
Proof.
  revert d. induction cs as [|c cs IH]; intros d Hcs Hc Hold HF Hmax Hrow.
  { exists d. split; [done|]. by split; rewrite ?app_nil_r. }
  destruct Hcs as [Hs Hcs]. apply Forall_cons in HF as [Hok HF].
  change (text_of (c :: cs)) with (String.append (ch_text c) (text_of cs)) in Hmax. rewrite len_app in Hmax.
  pose proof (len_nonneg (text_of (chunk_rows d ref))). pose proof (len_nonneg (text_of cs)). destruct Hok as [Hl Hu].
  cbn [insert_all]. unfold bind at 1. unfold integer, lift. rewrite (proj2 (i64_try_from_Some (ch_start c) (ch_start c))) by (unfold i64_min; lia). cbn [ok_or].
  destruct (insert_chunk_to ref c d) as (d1 & E & Hto); [lia | done | | done |].
  { apply consecutive_starts in Hc. apply Forall_and in Hc as [_ Hc]. apply Forall_forall. intros r Hr.
    rewrite Forall_forall in Hc, Hold. specialize (Hc r Hr). destruct (Hold r Hr) as [? _]. lia. }
  unfold bind. rewrite E. destruct Hto as [H1 H2 H3 H4 H5].
  assert (text_of (chunk_rows d1 ref) = String.append (text_of (chunk_rows d ref)) (ch_text c)) as Ht by by rewrite H4, text_of_app, text_of_one.
  destruct (IH d1) as (d2 & E2 & [H1' H2' H3' H4' H5']).
  - by rewrite Ht, len_app.
  - rewrite H4, consecutive_app. split; [done|]. by split.
  - rewrite H4. apply Forall_app. split; [done|]. by apply Forall_singleton.
  - done.
  - rewrite Ht, len_app. lia.
  - by rewrite H3.
  - exists d2. split; [done|]. split; try congruence; [by rewrite H4', H4, <- app_assoc|]. intros ref' Hn. by rewrite H5', H5.
Qed.

Lemma integer_ok n : 0 <= n <= i64_max -> integer n = Ok n.
Proof. intros. unfold integer. by rewrite (proj2 (i64_try_from_Some n n)) by (unfold i64_min; lia). Qed.

Lemma i64_u64 n : n <= i64_max -> n <= u64_max.
Proof. unfold i64_max, u64_max. lia. Qed.

Lemma unsigned_ok n : 0 <= n <= i64_max -> unsigned n = Ok n.
Proof. intros [? Hn%i64_u64]. unfold unsigned, u64_try_from. by rewrite (proj2 (in_u64_spec n)) by lia. Qed.

Lemma length_of_ok text : len text <= i64_max -> length_of text = Ok (len text).
Proof.
  intros Hl. pose proof (len_nonneg text). pose proof (i64_u64 _ Hl). unfold length_of, u64_try_from.
  rewrite (proj2 (in_u64_spec _)) by lia. cbn [ok_or]. by rewrite integer_ok.
Qed.

Lemma checked_ok a b : 0 <= a -> 0 <= b -> a + b <= i64_max -> checked_add_u64 a b = Some (a + b).
Proof. intros ? ? Hl%i64_u64. apply checked_add_u64_Some. lia. Qed.

Lemma bind_ok_eq {S E A B} (c : SM S E A) (k : A -> SM S E B) s a s' : c s = (Ok a, s') -> bind c k s = k a s'.
Proof. unfold bind. by intros ->. Qed.

Lemma lift_ok {S E A} (r : result A E) a (s : S) : r = Ok a -> lift r s = (Ok a, s).
Proof. unfold lift. by intros ->. Qed.

Lemma reads_ok {S A} (f : S -> SResult A) a (s : S) : f s = Ok a -> reads f s = (Ok a, s).
Proof. unfold reads. by intros ->. Qed.

Lemma ok_or_some {A E} (o : option A) (e : E) a : o = Some a -> ok_or o e = Ok a.
Proof. by intros ->. Qed.

(** The next step of a computation that goes through. *)
Ltac ok_by E := rewrite (bind_ok_eq _ _ _ _ _ E); cbv beta.
Ltac ok := erewrite bind_ok_eq; [cbv beta | first [apply lift_ok | apply reads_ok | idtac]].

Lemma insert_chunks_to key text start d :
  from_utf8 text = true -> chunks_ok (chunk_rows d (fk_ref key)) -> start = len (text_of (chunk_rows d (fk_ref key))) ->
  start + len text <= i64_max -> is_Some (d_fields d !! fk_ref key) ->
  exists rows d', insert_chunks key text start d = (Ok tt, d') /\ chunks_to (fk_ref key) rows d d' /\
    chunks_ok rows /\ text_of rows = String.append (text_of (chunk_rows d (fk_ref key))) text.
Proof.
  intros Hu [Hc Hold] Hstart Hmax Hrow. assert (0 <= start) by (rewrite Hstart; apply len_nonneg). pose proof (len_nonneg text).
  destruct (text_chunks_spec text start Hu) as (cs & Hcs & Ht & Hcon & HF); [lia | by apply i64_u64 |].
  unfold insert_chunks. ok; [|apply length_of_ok; lia]. ok; [|by apply ok_or_some, checked_ok].
  ok; [|apply integer_ok; lia]. ok; [|by apply ok_or_some]. subst start.
  destruct (insert_all_to (fk_ref key) cs d) as (d' & E & Hto); rewrite ?Ht; try done.
  exists (chunk_rows d (fk_ref key) ++ cs), d'. split; [done|]. split; [done|]. split; [split|].
  - by rewrite consecutive_app.
  - by apply Forall_app.
  - by rewrite text_of_app, Ht.
Qed.

(** ** One field *)
Section field.
Context `{DisplaySerde} {laws : DisplayLaws}.
#[local] Set Default Proof Using "All".

(** A field that is stored as its key says. *)
Record stored_field (d : Rows) (key : FieldKey) (row : FieldRow) : Prop := {
  sf_entry : validate_entry key d = Ok tt;
  sf_row : d_fields d !! fk_ref key = Some row;
  sf_order : fr_order_key row = FieldOrder.encode (fk_order key);
  sf_decode : FieldOrder.decode (fr_order_key row) = Ok (fk_order key);
  sf_kind : fr_kind row = field_code (fk_kind key);
  sf_metadata : fr_metadata_json row = "{}";
  sf_generation : 0 <= first_sequence (fk_entry key) <= fr_generation row;
  sf_i64 : fr_generation row <= i64_max;
  sf_chunks : chunks_ok (chunk_rows d (fk_ref key));
  sf_length : fr_byte_length row = len (text_of (chunk_rows d (fk_ref key)));
  sf_bound : fr_byte_length row <= i64_max
}.

Lemma load_field_ok d key row : stored_field d key row ->
  load_field key d = Ok (mkDescriptor (fr_generation row) (fr_byte_length row)).
Proof.
  intros [He Hr Ho Hd Hk Hm Hg Hi Hc Hl Hb]. unfold load_field. rewrite He, Hr. cbn [ok_or]. rewrite Hd. rewrite unsigned_ok by lia.
  rewrite unsigned_ok by (rewrite Hl in *; pose proof (len_nonneg (text_of (chunk_rows d (fk_ref key)))); lia).
  rewrite Hm. change (starts_object "{}") with true. rewrite empty_metadata. cbn [negb]. unfold key_generation.
  destruct (Z.ltb_spec (fr_generation row) (first_sequence (fk_entry key))); [lia|]. rewrite integer_ok by lia.
  rewrite bool_decide_eq_true_2 by done. rewrite Hk, bool_decide_eq_true_2 by done. done.
Qed.

Lemma field_tail_ok d key : chunks_ok (chunk_rows d (fk_ref key)) -> len (text_of (chunk_rows d (fk_ref key))) <= i64_max ->
  field_tail key (len (text_of (chunk_rows d (fk_ref key)))) d = Ok (last (chunk_rows d (fk_ref key))).
Proof using Type.
  intros [Hc HF] Hmax. unfold field_tail. destruct (last (chunk_rows d (fk_ref key))) as [c|] eqn:El.
  2:{ apply last_None in El. by rewrite El. }
  apply last_Some in El as [rows El]. rewrite El in *. rewrite consecutive_app in Hc. destruct Hc as [Hc [Hs _]].
  apply Forall_app in HF as [HF [[Hl Hu] _]%Forall_cons]. rewrite text_of_app, text_of_one, len_app in *. rewrite Z.add_0_l in Hs.
  pose proof (len_nonneg (text_of rows)). rewrite unsigned_ok by lia.
  rewrite (proj2 (Z.eqb_neq _ _)) by lia. rewrite (proj2 (Z.ltb_ge _ _)) by lia. cbn [orb]. rewrite Hu. cbn [negb].
  rewrite length_of_ok by lia. rewrite checked_ok by lia. cbn [ok_or]. rewrite Hs, Z.eqb_refl. cbn [negb].
  rewrite integer_ok by lia.
  assert (List.filter (fun r => ch_start r <? len (text_of rows)) (rows ++ [c]) = rows) as ->.
  { rewrite List.filter_app. cbn [List.filter]. rewrite Hs, Z.ltb_irrefl, app_nil_r. apply consecutive_starts in Hc. clear -Hc HF.
    assert (Forall (fun r => ch_start r < len (text_of rows)) rows) as Hlt.
    { apply Forall_forall. intros r Hr. rewrite Forall_forall in Hc, HF. specialize (Hc r Hr). destruct (HF r Hr) as [? _]. lia. }
    clear HF Hc. revert Hlt. generalize (len (text_of rows)). intros n Hlt. induction Hlt as [|r rows Hr _ IH]; [done|].
    cbn [List.filter]. rewrite (proj2 (Z.ltb_lt _ _) Hr). by rewrite IH. }
  destruct (last rows) as [c'|] eqn:El'.
  - apply last_Some in El' as [rows' ->]. rewrite consecutive_app in Hc. destruct Hc as [_ [Hs' _]].
    apply Forall_app in HF as [_ [[Hl' _] _]%Forall_cons]. rewrite Z.add_0_l in Hs'. rewrite text_of_app, text_of_one, len_app in *.
    pose proof (len_nonneg (text_of rows')).
    rewrite (proj2 (Z.eqb_neq _ _)) by lia. rewrite (proj2 (Z.ltb_ge _ _)) by lia. cbn [orb].
    rewrite unsigned_ok by lia. rewrite checked_ok by lia. cbn [ok_or]. rewrite Hs', Z.eqb_refl. cbn [negb]. rewrite <- Hs. by destruct c.
  - apply last_None in El' as ->. change (len (text_of [])) with 0 in *. rewrite Z.eqb_refl, <- Hs. by destruct c.
Qed.

Lemma insert_field_ok d key generation text :
  validate_entry key d = Ok tt -> 0 <= first_sequence (fk_entry key) <= generation -> generation <= i64_max ->
  from_utf8 text = true -> len text <= i64_max ->
  d_fields d !! fk_ref key = None -> chunk_rows d (fk_ref key) = [] ->
  (forall ref row, d_fields d !! ref = Some row -> fst ref = fst (fk_ref key) -> fr_order_key row <> FieldOrder.encode (fk_order key)) ->
  exists rows d', insert_field key generation text d = (Ok (mkDescriptor generation (len text)), d') /\
    field_to (fk_ref key) (Some (mkFieldRow (FieldOrder.encode (fk_order key)) generation (len text) (field_code (fk_kind key)) "{}", rows)) d d' /\
    chunks_ok rows /\ text_of rows = text.
Proof.
  intros Hv Hg Hi Hu Hl Hnone Hrows Horder. pose proof (len_nonneg text). unfold insert_field.
  ok; [|unfold key_generation; rewrite (proj2 (Z.ltb_ge _ _)) by lia; apply integer_ok; lia].
  ok; [|by apply length_of_ok]. ok; [|exact Hv]. ok; [|apply integer_ok; lia].
  set (row := mkFieldRow _ _ _ _ _). set (d1 := with_fields (<[fk_ref key := row]> (d_fields d)) d).
  assert (insert_row (fk_ref key) row d = (Ok tt, d1)) as Hins.
  { unfold insert_row, bind, require_constraint. rewrite Hnone. cbn [is_none is_some negb]. rewrite (proj2 (Z.leb_le _ _)) by (simpl; lia).
    assert (is_some (d_entries d !! fst (fk_ref key)) = true) as ->.
    { unfold validate_entry in Hv. cbn [fst fk_ref]. destruct (d_entries d !! _); [done|]. discriminate Hv. }
    rewrite bool_decide_eq_true_2; [done|]. intros ref r Hr Hf. exact (Horder ref r Hr Hf). }
  ok_by Hins. destruct (insert_chunks_to key text 0 d1) as (rows & d' & E & [H1 H2 H3 H4 H5] & Hok & Ht); try done.
  - change (chunk_rows d1 (fk_ref key)) with (chunk_rows d (fk_ref key)). rewrite Hrows. by split.
  - change (chunk_rows d1 (fk_ref key)) with (chunk_rows d (fk_ref key)). by rewrite Hrows.
  - cbn. by rewrite lookup_insert_eq.
  - change (chunk_rows d1 (fk_ref key)) with (chunk_rows d (fk_ref key)) in Ht. rewrite Hrows in Ht.
    ok_by E. exists rows, d'. split; [done|]. split; [|done]. split; try done.
Qed.

Lemma update_row_ok ref f d : (forall r, d_fields d !! ref = Some r -> 0 <= fr_byte_length (f r)) ->
  update_row ref f d = (Ok tt, with_fields (alter f ref (d_fields d)) d).
Proof using Type.
  intros Hf. unfold update_row, bind, require_constraint. destruct (d_fields d !! ref) as [r|]; cbn [is_none_or]; [|done].
  by rewrite (proj2 (Z.leb_le _ _)) by auto.
Qed.

Lemma alter_known {A} (f : A -> A) (m : gmap FieldRef A) k x : m !! k = Some x -> alter f k m = partial_alter (fun _ => Some (f x)) k m.
Proof using Type.
  intros Hx. apply map_eq. intros k'. destruct (decide (k' = k)) as [-> |Hn].
  - by rewrite lookup_alter_eq, lookup_partial_alter_eq, Hx.
  - by rewrite lookup_alter_ne, lookup_partial_alter_ne.
Qed.

(** The last chunk takes what it has room for. *)
Lemma update_chunk_to ref rows c text d :
  chunk_rows d ref = rows ++ [c] -> Forall (fun r => ch_start r < ch_start c) rows -> 0 < len text <= CHUNK_BYTES ->
  exists d', update_chunk ref (ch_start c) text d = (Ok tt, d') /\ chunks_to ref (rows ++ [mkChunk (ch_start c) text]) d d'.
Proof using Type.
  intros Hr HF Hl. unfold update_chunk, bind, require_constraint.
  rewrite (proj2 (Z.ltb_lt _ _) (proj1 Hl)), (proj2 (Z.leb_le _ _) (proj2 Hl)), orb_true_r.
  eexists. split; [reflexivity|]. split; try done; unfold chunk_rows in *; cbn [d_chunks with_chunks].
  - rewrite lookup_alter_eq. destruct (d_chunks d !! ref) as [l|]; [|by destruct rows]. cbn in Hr |- *. subst l.
    rewrite fmap_app. cbn. rewrite Z.eqb_refl. f_equal. clear -HF. induction HF as [|r rows Hr _ IH]; [done|]. cbn.
    rewrite (proj2 (Z.eqb_neq _ _)) by lia. by rewrite IH.
  - intros ref' Hn. by rewrite lookup_alter_ne.
Qed.

Lemma append_tail d key row delta :
  stored_field d key row -> from_utf8 delta = true -> fr_byte_length row + len delta <= i64_max ->
  let tail := last (chunk_rows d (fk_ref key)) in
  let consumed := match tail with
                  | None => O
                  | Some tail => boundary_before delta (Z.to_nat (Z.min (CHUNK_BYTES - len (ch_text tail)) (len delta)))
                  end in
  exists front rest d1 rows, split_at consumed delta = (front, rest) /\ delta = String.append front rest /\
    String.length front = consumed /\ from_utf8 rest = true /\
    match tail with
    | Some tail =>
        if Nat.ltb 0 consumed
        then (do! lift (integer (ch_start tail)) in
              update_chunk (fk_ref key) (ch_start tail) (String.append (ch_text tail) front))
        else ret tt
    | None => ret tt
    end d = (Ok tt, d1) /\ chunks_to (fk_ref key) rows d d1 /\ chunks_ok rows /\
    text_of rows = String.append (text_of (chunk_rows d (fk_ref key))) front.
Proof.
  intros [_ Hr _ _ _ _ _ _ [Hc HF] Hlen Hb] Hu Hmax. cbv zeta. pose proof (len_nonneg delta).
  destruct (last (chunk_rows d (fk_ref key))) as [c|] eqn:El.
  2:{ exists EmptyString, delta, d, (chunk_rows d (fk_ref key)). rewrite append_empty. by destruct delta. }
  apply last_Some in El as [rows El]. rewrite El in Hc, HF. pose proof Hc as Hc0. rewrite consecutive_app in Hc. destruct Hc as [Hc [Hs _]].
  pose proof HF as HF0. apply Forall_app in HF as [HF [[Hl Hcu] _]%Forall_cons]. rewrite Z.add_0_l in Hs.
  rewrite Hlen, El, text_of_app, text_of_one, len_app in Hmax. pose proof (len_nonneg (text_of rows)).
  destruct (split_boundary delta (Z.to_nat (Z.min (CHUNK_BYTES - len (ch_text c)) (len delta))) Hu) as (front & rest & Hsp & Hd & Hfl & Hle & Hfu & Hru);
    [unfold len in *; lia|].
  exists front, rest. rewrite Hsp. destruct (Nat.ltb_spec 0 (boundary_before delta (Z.to_nat (Z.min (CHUNK_BYTES - len (ch_text c)) (len delta))))) as [Hgt|Hz].
  - destruct (update_chunk_to (fk_ref key) rows c (String.append (ch_text c) front) d El) as (d1 & E & Hto).
    { apply consecutive_starts in Hc. apply Forall_forall. intros r Hin. rewrite Forall_forall in Hc, HF. specialize (Hc r Hin). destruct (HF r Hin) as [? _]. lia. }
    { rewrite len_app. unfold len in *. lia. }
    exists d1, (rows ++ [mkChunk (ch_start c) (String.append (ch_text c) front)]). split; [done|]. split; [done|]. split; [done|]. split; [done|].
    split; [ok; [exact E | apply integer_ok; lia]|]. split; [done|]. split; [split|].
    + rewrite consecutive_app. by repeat split.
    + apply Forall_app. split; [done|]. apply Forall_singleton. split; simpl; [rewrite len_app; unfold len in *; lia | by rewrite utf8_app].
    + by rewrite El, !text_of_app, !text_of_one, append_assoc.
  - exists d, (rows ++ [c]). destruct front; [|simpl in Hfl; lia]. rewrite append_empty, El. by repeat split.
Qed.

Lemma append_field_ok d key row delta :
  stored_field d key row -> from_utf8 delta = true -> fr_byte_length row + len delta <= i64_max ->
  exists rows d', append_field key delta d = (Ok (mkDescriptor (fr_generation row) (fr_byte_length row + len delta)), d') /\
    field_to (fk_ref key) (Some (set_length (fr_byte_length row + len delta) row, rows)) d d' /\
    chunks_ok rows /\ text_of rows = String.append (text_of (chunk_rows d (fk_ref key))) delta.
Proof.
  intros Hst Hu Hmax. pose proof Hst as [_ Hr _ _ _ _ _ _ Hok Hlen _]. pose proof (len_nonneg delta).
  pose proof (len_nonneg (text_of (chunk_rows d (fk_ref key)))) as Hpos. unfold append_field.
  ok; [|by apply load_field_ok]. cbn [fd_byte_length]. ok; [|apply length_of_ok; lia].
  ok; [|by apply ok_or_some, checked_ok; lia]. ok; [|apply integer_ok; lia].
  ok; [|rewrite Hlen; apply field_tail_ok; [done | lia]].
  destruct delta as [|x delta0] eqn:Edelta.
  { cbn [str_is_empty]. exists (chunk_rows d (fk_ref key)), d. change (len EmptyString) with 0. rewrite !Z.add_0_r, append_empty. split; [done|].
    split; [|done]. split; try done. cbn. assert (set_length (fr_byte_length row) row = row) as -> by by destruct row. rewrite <- Hr. by rewrite partial_alter_self. }
  cbn [str_is_empty]. rewrite <- Edelta in *. clear x delta0 Edelta.
  destruct (append_tail d key row delta Hst Hu Hmax) as (front & rest & d1 & rows1 & Hsplit & Hd & Hl & Hrest & Hstep & Hto & Hok1 & Ht1).
  rewrite Hsplit. ok_by Hstep. destruct Hto as [H1 H2 H3 H4 H5].
  ok; [|apply ok_or_some, checked_ok; [lia | lia | rewrite Hd, len_app in Hmax; pose proof (len_nonneg rest); unfold len in *; lia]].
  rewrite <- H4 in Ht1, Hok1.
  destruct (insert_chunks_to key rest (len (text_of (chunk_rows d1 (fk_ref key)))) d1) as (rows & d2 & E & [H1' H2' H3' H4' H5'] & Hok2 & Ht2).
  { done. } { done. } { done. } { rewrite Ht1, len_app, <- Hlen. rewrite Hd, len_app in Hmax. lia. } { rewrite H3. by exists row. }
  ok; [|rewrite Ht1, len_app, <- Hlen in E; replace (len front) with (Z.of_nat (String.length front)) in E by done; rewrite Hl in E; exact E].
  ok; [|apply update_row_ok; intros r _; simpl; lia].
  eexists rows, _. split; [reflexivity|]. split; [|split; [done | by rewrite Ht2, Ht1, Hd, append_assoc]].
  split; unfold chunk_rows in *; cbn [d_blocks d_entries d_fields d_chunks with_fields]; [congruence | congruence | | done |].
  - rewrite H3', H3. exact (alter_known (set_length (fr_byte_length row + len delta)) _ _ _ Hr).
  - intros ref' Hn. by rewrite H5', H5.
Qed.

Lemma delete_chunks_rows ref d : exists d', delete_chunks ref d = (Ok tt, d') /\ chunks_to ref [] d d'.
Proof using Type.
  eexists. split; [reflexivity|]. split; try done; unfold chunk_rows; cbn [d_chunks with_chunks].
  - by rewrite lookup_delete_eq.
  - intros ref' Hn. by rewrite lookup_delete_ne.
Qed.

Definition renewed (generation n : Z) (r : FieldRow) : FieldRow :=
  mkFieldRow (fr_order_key r) generation n (fr_kind r) (fr_metadata_json r).

Lemma replace_field_ok d key row generation text :
  stored_field d key row -> fr_generation row < generation <= i64_max -> from_utf8 text = true -> len text <= i64_max ->
  exists rows d', replace_field key generation text d = (Ok (mkDescriptor generation (len text)), d') /\
    field_to (fk_ref key) (Some (renewed generation (len text) row, rows)) d d' /\ chunks_ok rows /\ text_of rows = text.
Proof.
  intros Hst Hg Hu Hl. pose proof Hst as [_ Hr _ _ _ _ Hgen _ Hok Hlen Hb]. pose proof (len_nonneg text). unfold replace_field.
  ok; [|unfold key_generation; rewrite (proj2 (Z.ltb_ge _ _)) by lia; apply integer_ok; lia].
  ok; [|by apply length_of_ok]. ok; [|by apply load_field_ok]. cbn [fd_generation fd_byte_length].
  rewrite (proj2 (Z.leb_gt _ _)) by lia. ok; [|rewrite Hlen; apply field_tail_ok; [done | lia]].
  destruct (delete_chunks_rows (fk_ref key) d) as (d1 & E1 & [H1 H2 H3 H4 H5]). ok_by E1. ok; [|apply integer_ok; lia].
  ok; [|apply update_row_ok; intros r _; simpl; lia]. set (d2 := with_fields _ d1).
  destruct (insert_chunks_to key text 0 d2) as (rows & d' & E & [H1' H2' H3' H4' H5'] & Hok' & Ht).
  { done. } { change (chunk_rows d2 (fk_ref key)) with (chunk_rows d1 (fk_ref key)). rewrite H4. by split. }
  { change (chunk_rows d2 (fk_ref key)) with (chunk_rows d1 (fk_ref key)). by rewrite H4. } { done. }
  { cbn. rewrite lookup_alter_eq, H3, Hr. by eexists. }
  ok_by E. change (chunk_rows d2 (fk_ref key)) with (chunk_rows d1 (fk_ref key)) in Ht. rewrite H4 in Ht.
  exists rows, d'. split; [done|]. split; [|done]. split; [by rewrite H1' | by rewrite H2' | | done |].
  - rewrite H3'. cbn [d2 with_fields d_fields]. rewrite H3. exact (alter_known (renewed generation (len text)) _ _ _ Hr).
  - intros ref' Hn. rewrite H5' by done. by apply H5.
Qed.

Lemma remove_field_ok d key row : stored_field d key row ->
  exists d', remove_field key d = (Ok tt, d') /\ field_to (fk_ref key) None d d'.
Proof.
  intros Hst. pose proof Hst as [_ Hr _ _ _ _ _ _ Hok _ Hb]. unfold remove_field.
  destruct (append_field_ok d key row EmptyString Hst) as (rows & d1 & E & [H1 H2 H3 H4 H5] & _); [done | change (len EmptyString) with 0; lia|].
  ok_by E. destruct (delete_chunks_rows (fk_ref key) d1) as (d2 & E2 & [H1' H2' H3' H4' H5']). ok_by E2.
  unfold delete_row, bind, require_constraint. rewrite H4'. eexists. split; [reflexivity|].
  split; cbn [d_blocks d_entries d_fields with_fields]; [congruence | congruence | | exact H4' |].
  - rewrite H3', H3. apply map_eq. intros k. cbn. destruct (decide (k = fk_ref key)) as [-> |Hn].
    + by rewrite lookup_delete_eq, lookup_partial_alter_eq.
    + by rewrite lookup_delete_ne, !lookup_partial_alter_ne.
  - intros ref' Hn. change (chunk_rows (with_fields _ d2) ref') with (chunk_rows d2 ref'). by rewrite H5', H5.
Qed.

(** ** All the fields *)

(** Every field is stored as its key says, no two of an entry have the same place, and
    only fields have chunks. *)
Record well_stored (d : Rows) : Prop := {
  ws_field ref row : d_fields d !! ref = Some row ->
    exists key, new_key (fk_run key) (fk_entry key) (fk_order key) (fk_kind key) = Ok key /\ fk_ref key = ref /\ stored_field d key row;
  ws_order ref ref' row row' : d_fields d !! ref = Some row -> d_fields d !! ref' = Some row' ->
    fst ref = fst ref' -> fr_order_key row = fr_order_key row' -> ref = ref';
  ws_chunks ref : d_fields d !! ref = None -> chunk_rows d ref = []
}.

(** What is shown: the kind and the text at each place of each entry. *)
Definition contents (d : Rows) : gmap FieldRef (string * string) :=
  list_to_map ((fun kr => ((fst (fst kr), fr_order_key (snd kr)), (fr_kind (snd kr), text_of (chunk_rows d (fst kr)))))
    <$> map_to_list (d_fields d)).

Lemma contents_lookup d e o kt : well_stored d ->
  contents d !! (e, o) = Some kt <->
  exists id row, d_fields d !! (e, id) = Some row /\ fr_order_key row = o /\ kt = (fr_kind row, text_of (chunk_rows d (e, id))).
Proof.
  intros [_ Hord _]. unfold contents. rewrite <- elem_of_list_to_map.
  - rewrite list_elem_of_fmap. split.
    + intros ([[e' id] row] & [= -> -> ->] & Hin%elem_of_map_to_list). by exists id, row.
    + intros (id & row & Hr & <- & ->). exists ((e, id), row). split; [done|]. by apply elem_of_map_to_list.
  - rewrite <- list_fmap_compose. apply NoDup_fmap_2_strong; [|apply NoDup_map_to_list].
    intros [ref row] [ref' row'] Hr%elem_of_map_to_list Hr'%elem_of_map_to_list [= He Ho].
    assert (ref = ref') as -> by (eapply Hord; eauto). congruence.
Qed.

Lemma contents_none d e o : well_stored d -> contents d !! (e, o) = None ->
  forall id row, d_fields d !! (e, id) = Some row -> fr_order_key row <> o.
Proof.
  intros Hws Hn id row Hr Ho. assert (contents d !! (e, o) = Some (fr_kind row, text_of (chunk_rows d (e, id)))) by (apply contents_lookup; eauto). congruence.
Qed.

Lemma contents_insert d d' e id row rows : well_stored d -> well_stored d' -> field_to (e, id) (Some (row, rows)) d d' ->
  (forall old, d_fields d !! (e, id) = Some old -> fr_order_key old = fr_order_key row) ->
  contents d' = <[(e, fr_order_key row) := (fr_kind row, text_of rows)]> (contents d).
Proof.
  intros Hws Hws' [_ _ Hf Hr Ho] Hold. cbn in Hf, Hr.
  assert (d_fields d' !! (e, id) = Some row) as Hrow by by rewrite Hf, lookup_partial_alter_eq.
  apply map_eq. intros [e' o]. apply option_eq. intros kt. destruct (decide ((e', o) = (e, fr_order_key row))) as [[= -> ->]|Hn].
  - rewrite lookup_insert_eq, contents_lookup by done. split.
    + intros (id' & row' & Hr' & Ho' & ->). assert ((e, id') = (e, id)) as [= ->] by (eapply (ws_order d'); eauto).
      rewrite Hrow in Hr'. injection Hr' as <-. by rewrite Hr.
    + intros [= <-]. exists id, row. by rewrite Hr.
  - rewrite lookup_insert_ne by done. rewrite !contents_lookup by done. split; intros (id' & row' & Hr' & Ho' & ->); exists id', row'.
    + destruct (decide ((e', id') = (e, id))) as [[= -> ->]|Hne]; [rewrite Hrow in Hr'; congruence|].
      rewrite Hf, lookup_partial_alter_ne in Hr' by done. by rewrite Ho.
    + destruct (decide ((e', id') = (e, id))) as [[= -> ->]|Hne]; [apply Hold in Hr'; congruence|].
      rewrite Hf, lookup_partial_alter_ne by done. by rewrite Ho.
Qed.

Lemma contents_delete d d' e id row : well_stored d -> well_stored d' -> field_to (e, id) None d d' ->
  d_fields d !! (e, id) = Some row -> contents d' = delete (e, fr_order_key row) (contents d).
Proof.
  intros Hws Hws' [_ _ Hf _ Ho] Hrow. cbn in Hf. apply map_eq. intros [e' o]. apply option_eq. intros kt.
  destruct (decide ((e', o) = (e, fr_order_key row))) as [[= -> ->]|Hn].
  - rewrite lookup_delete_eq. split; [|done]. rewrite contents_lookup by done. intros (id' & row' & Hr' & Ho' & ->). exfalso.
    destruct (decide (id' = id)) as [-> |Hne]; [by rewrite Hf, lookup_partial_alter_eq in Hr'|].
    rewrite Hf, lookup_partial_alter_ne in Hr' by congruence. assert ((e, id') = (e, id)) by (eapply (ws_order d); eauto). congruence.
  - rewrite lookup_delete_ne by done. rewrite !contents_lookup by done. split; intros (id' & row' & Hr' & Ho' & ->); exists id', row'.
    + destruct (decide ((e', id') = (e, id))) as [[= -> ->]|Hne]; [by rewrite Hf, lookup_partial_alter_eq in Hr'|].
      rewrite Hf, lookup_partial_alter_ne in Hr' by done. by rewrite Ho.
    + destruct (decide ((e', id') = (e, id))) as [[= -> ->]|Hne]; [congruence|].
      rewrite Hf, lookup_partial_alter_ne by done. by rewrite Ho.
Qed.

Lemma stored_field_frame d d' key row : d_entries d' = d_entries d -> d_fields d' !! fk_ref key = d_fields d !! fk_ref key ->
  chunk_rows d' (fk_ref key) = chunk_rows d (fk_ref key) -> stored_field d key row -> stored_field d' key row.
Proof using Type.
  intros He Hf Hc [H1 H2 H3 H4 H5 H6 H7 H8 H9 H10 H11]. split; rewrite ?Hf, ?Hc; try done.
  unfold validate_entry in *. by rewrite He.
Qed.

Lemma field_to_stored d d' ref new : well_stored d -> field_to ref new d d' ->
  (forall row rows, new = Some (row, rows) ->
    (exists key, new_key (fk_run key) (fk_entry key) (fk_order key) (fk_kind key) = Ok key /\ fk_ref key = ref /\ stored_field d' key row) /\
    (forall ref' row', d_fields d !! ref' = Some row' -> ref' <> ref -> fst ref' = fst ref -> fr_order_key row' <> fr_order_key row)) ->
  well_stored d'.
Proof.
  intros [W1 W2 W3] [_ He Hf Hr Ho] Hnew.
  assert (d_fields d' !! ref = fst <$> new) as Hat by by rewrite Hf, lookup_partial_alter_eq.
  assert (forall ref', ref' <> ref -> d_fields d' !! ref' = d_fields d !! ref') as Hne by (intros; by rewrite Hf, lookup_partial_alter_ne).
  split.
  - intros ref' row Hrow. destruct (decide (ref' = ref)) as [-> |Hn].
    + rewrite Hat in Hrow. destruct new as [[row' rows]|]; [|done]. injection Hrow as <-. by destruct (Hnew _ _ eq_refl) as [? _].
    + rewrite Hne in Hrow by done. destruct (W1 _ _ Hrow) as (key & Hk & Hkr & Hst). exists key. split; [done|]. split; [done|].
      rewrite <- Hkr in Hn. eapply stored_field_frame; [done | by apply Hne | by apply Ho | done].
  - intros ra rb row row' Ha Hb Hsame Hord. destruct (decide (ra = ref)) as [-> |Hna], (decide (rb = ref)) as [-> |Hnb]; [done| | |].
    + rewrite Hat in Ha. rewrite Hne in Hb by done. destruct new as [[nr rows]|]; [|done]. injection Ha as <-.
      destruct (Hnew _ _ eq_refl) as [_ Hx]. by destruct (Hx _ _ Hb Hnb).
    + rewrite Hat in Hb. rewrite Hne in Ha by done. destruct new as [[nr rows]|]; [|done]. injection Hb as <-.
      destruct (Hnew _ _ eq_refl) as [_ Hx]. by destruct (Hx _ _ Ha Hna).
    + rewrite Hne in Ha, Hb by done. by apply (W2 ra rb row row').
  - intros ref' Hn. destruct (decide (ref' = ref)) as [-> |Hd].
    + rewrite Hat in Hn. destruct new; [done|]. by rewrite Hr.
    + rewrite Hne in Hn by done. rewrite Ho by done. by apply W3.
Qed.
End field.
