(* ===== verification/Contents.v ===== *)
(** * The content of an entry (src/src/storage/conversation/projector/content.rs)

    The steps of a delta and of a snapshot on the map of what is shown, and what a
    reader that has seen an earlier state may rely on. *)
From stdpp Require Import sorting.
From S2P Require Import Prelude Json Errors Identifiers Provider Tools Replay RunData Records Store History Session RunStore Text Positions Chunks Projection Fields.

(** ** Keys *)
Definition order_ok (o : FieldOrder.t) : Prop := match o with FieldOrder.Human => True | FieldOrder.Indexed k => u64_key k end.

Lemma show_key_long k : show_key k <> "0".
Proof.
  intros E%(f_equal String.length). revert E. unfold show_key, colon at 1. rewrite string_length_app. simpl.
  destruct (ok_output k); simpl; lia.
Qed.

Lemma decode_order o : order_ok o -> FieldOrder.decode (FieldOrder.encode o) = Ok o.
Proof.
  destruct o as [|k]; [done|]. intros Hk. unfold FieldOrder.decode, FieldOrder.encode.
  rewrite bool_decide_eq_false_2 by apply show_key_long. by rewrite (proj2 (parse_key_Some _ k) (conj Hk eq_refl)).
Qed.

Lemma decode_order_ok t o : FieldOrder.decode t = Ok o -> order_ok o /\ t = FieldOrder.encode o.
Proof.
  unfold FieldOrder.decode. destruct (bool_decide (t = "0")) eqn:E; [prop_bools; by intros [= <-]|].
  destruct (parse_key t) as [k|] eqn:Ek; [|done]. intros [= <-]. by apply parse_key_Some in Ek.
Qed.

Lemma decode_field_code k : decode_kind (field_code k) = Ok k.
Proof. by destruct k. Qed.

Lemma field_code_inj k k' : field_code k = field_code k' -> k = k'.
Proof. intros E%(f_equal decode_kind). rewrite !decode_field_code in E. congruence. Qed.

Lemma decode_kind_code t k : decode_kind t = Ok k -> t = field_code k.
Proof.
  unfold decode_kind. destruct (List.find _ KINDS) as [[k' c]|] eqn:E; [|done]. intros [= <-].
  apply List.find_some in E as [Hin Hc]. prop_bools. simpl in *. subst c. repeat (destruct Hin as [[= <- <-]|Hin]; [done|]). done.
Qed.

Section contents.
Context `{DisplaySerde} {laws : DisplayLaws}.
#[local] Set Default Proof Using "All".

Lemma validate_nonneg key d : validate_entry key d = Ok tt -> 0 <= first_sequence (fk_entry key) /\ 0 <= position_slot (fk_entry key).
Proof using Type.
  unfold validate_entry. destruct (d_entries d !! _) as [row|]; [|done]. cbn [ok_or]. unfold unsigned, u64_try_from.
  destruct (in_u64 (er_first_sequence row)) eqn:E1; [|done]. destruct (in_u64 (er_position_slot row)) eqn:E2; [|done]. cbn [ok_or].
  apply in_u64_spec in E1, E2. destruct (er_first_sequence row =? _) eqn:E3; [|done]. destruct (er_position_slot row =? _) eqn:E4; [|done].
  prop_bools. lia.
Qed.

Lemma show_entry_id_inj a b : 0 <= first_sequence a -> 0 <= position_slot a -> 0 <= first_sequence b -> 0 <= position_slot b ->
  show_entry_id a = show_entry_id b -> a = b.
Proof using Type.
  intros H1 H2 H3 H4 E. unfold show_entry_id in E. apply (f_equal (strip_prefix "e:")) in E. rewrite !strip_prefix_app in E. injection E as E.
  assert (forall n, no_colon (decimal n) = true) as Hc by (intros; apply digits_no_colon, decimal_digits).
  apply (f_equal split_colon) in E. change (String.append ?x (String ":" ?y)) with (colon x y) in E. rewrite !split_colon_colon in E by done.
  injection E as E1%decimal_inj E2%decimal_inj; [|done..]. destruct a, b. simpl in *. congruence.
Qed.

(** The key of a stored field is the one its place and kind give. *)
Lemma stored_at d key row : well_stored d -> validate_entry key d = Ok tt -> d_fields d !! fk_ref key = Some row ->
  fr_order_key row = FieldOrder.encode (fk_order key) -> order_ok (fk_order key) -> fr_kind row = field_code (fk_kind key) ->
  stored_field d key row.
Proof.
  intros Hws Hv Hr Ho Hok Hk. destruct (ws_field d Hws _ _ Hr) as (key' & _ & Href & Hst).
  assert (key' = key) as -> ; [|done]. pose proof (validate_nonneg _ _ Hv) as [? ?]. pose proof (validate_nonneg _ _ (sf_entry _ _ _ Hst)) as [? ?].
  destruct Hst as [_ _ Ho' Hd' Hk' _ _ _ _ _ _]. destruct key as [run e id o k], key' as [run' e' id' o' k']. 
  pose proof (f_equal (fun r => fst (fst r)) Href) as Hrun. pose proof (f_equal (fun r => snd (fst r)) Href) as He. pose proof (f_equal snd Href) as Hid. cbn [fk_ref fst snd fk_run fk_entry fk_id fk_order fk_kind] in *.
  apply show_entry_id_inj in He; [|done..]. subst e' run' id'.
  rewrite Ho, decode_order in Hd' by done. rewrite Hk in Hk'. apply field_code_inj in Hk'. congruence.
Qed.

(** ** What a step on the fields of an entry leaves *)

(** The fields of other entries are as they were; a field of this entry is new with
    number [n], or was there under its number with its place, its kind, and a text that
    has only grown. *)
Record revised (e : EntryRef) (n : Z) (d d' : Rows) : Prop := {
  rv_blocks : d_blocks d' = d_blocks d;
  rv_entries : d_entries d' = d_entries d;
  rv_others ref : fst ref <> e -> d_fields d' !! ref = d_fields d !! ref /\ chunk_rows d' ref = chunk_rows d ref;
  rv_fields id row' : d_fields d' !! (e, id) = Some row' -> fr_generation row' = n \/
    exists row more, d_fields d !! (e, id) = Some row /\ fr_generation row' = fr_generation row /\ fr_order_key row' = fr_order_key row /\
      fr_kind row' = fr_kind row /\ text_of (chunk_rows d' (e, id)) = String.append (text_of (chunk_rows d (e, id))) more
}.

#[export] Instance revised_preorder e n : PreOrder (revised e n).
Proof using Type.
  split.
  - intros d. split; try done. intros id row Hr. right. exists row, EmptyString. by rewrite append_empty.
  - intros d1 d2 d3 [A1 A2 A3 A4] [B1 B2 B3 B4]. split; [congruence | congruence | |].
    + intros ref Hn. destruct (A3 ref Hn), (B3 ref Hn). split; congruence.
    + intros id row Hr. destruct (B4 id row Hr) as [Hg|(row2 & more2 & Hr2 & Hg2 & Ho2 & Hk2 & Ht2)]; [by left|].
      destruct (A4 id row2 Hr2) as [Hg|(row1 & more1 & Hr1 & Hg1 & Ho1 & Hk1 & Ht1)]; [left; congruence|].
      right. exists row1, (String.append more1 more2). split_and!; [done | congruence | congruence | congruence |]. by rewrite Ht2, Ht1, append_assoc.
Qed.

Lemma field_to_revised e id n new d d' : field_to (e, id) new d d' ->
  (forall row rows, new = Some (row, rows) -> fr_generation row = n \/
    exists old more, d_fields d !! (e, id) = Some old /\ fr_generation row = fr_generation old /\ fr_order_key row = fr_order_key old /\
      fr_kind row = fr_kind old /\ text_of rows = String.append (text_of (chunk_rows d (e, id))) more) ->
  revised e n d d'.
Proof using Type.
  intros [H1 H2 H3 H4 H5] Hnew. split; [done | done | |].
  - intros ref Hn. split; [|by apply H5; intros ->]. rewrite H3, lookup_partial_alter_ne; [done|]. by intros <-.
  - intros id' row Hr. destruct (decide (id' = id)) as [-> |Hn].
    + rewrite H3, lookup_partial_alter_eq in Hr. destruct new as [[nr rows]|]; [|done]. injection Hr as ->. rewrite H4. by apply Hnew.
    + assert ((e, id') <> (e, id)) by congruence. rewrite H3, lookup_partial_alter_ne in Hr by done.
      right. exists row, EmptyString. by rewrite append_empty, H5.
Qed.

(** Every other field is as it was. *)
Definition untouched (ref : FieldRef) (d d' : Rows) : Prop :=
  forall ref', ref' <> ref -> d_fields d' !! ref' = d_fields d !! ref' /\ chunk_rows d' ref' = chunk_rows d ref'.

Lemma field_to_untouched ref new d d' : field_to ref new d d' -> untouched ref d d'.
Proof using Type. intros [_ _ Hf _ Hc] ref' Hn. split; [by rewrite Hf, lookup_partial_alter_ne | by apply Hc]. Qed.

(** ** The steps *)

Notation entry_of key := (fst (fk_ref key)).
Notation place_of key := (fst (fk_ref key), FieldOrder.encode (fk_order key)).
Definition a_key (key : FieldKey) : Prop :=
  new_key (fk_run key) (fk_entry key) (fk_order key) (fk_kind key) = Ok key /\ order_ok (fk_order key).

Lemma fk_ref_eta key : fk_ref key = (entry_of key, fk_id key).
Proof using Type. done. Qed.

Lemma insert_step d key n text : well_stored d -> a_key key -> validate_entry key d = Ok tt ->
  first_sequence (fk_entry key) <= n <= i64_max -> from_utf8 text = true -> len text <= i64_max ->
  d_fields d !! fk_ref key = None -> contents d !! place_of key = None ->
  exists d', insert_field key n text d = (Ok (mkDescriptor n (len text)), d') /\ well_stored d' /\ revised (entry_of key) n d d' /\ untouched (fk_ref key) d d' /\
    is_Some (d_fields d' !! fk_ref key) /\ contents d' = <[place_of key := (field_code (fk_kind key), text)]> (contents d).
Proof.
  intros Hws [Hkey Hok] Hv Hn Hu Hl Hnone Hplace. pose proof (validate_nonneg _ _ Hv) as [Hpos _].
  pose proof (contents_none _ _ _ Hws Hplace) as Hfree.
  destruct (insert_field_ok d key n text Hv) as (rows & d' & E & Hto & Hrows & Ht); try done.
  { lia. } { lia. } { by apply (ws_chunks d). } { intros [e id] row Hr He. cbn in He. subst e. exact (Hfree id row Hr). }
  set (row := mkFieldRow _ _ _ _ _) in Hto.
  assert (well_stored d') as Hws'.
  { eapply field_to_stored; [done | exact Hto |]. intros row0 rows0 [= <- <-]. split.
    - exists key. split; [done|]. split; [done|]. destruct Hto as [_ He Hf Hc _]. cbn in Hf, Hc. split; cbn [row fr_order_key fr_generation fr_byte_length fr_kind fr_metadata_json]; try done; try lia.
      + unfold validate_entry in *. by rewrite He.
      + by rewrite Hf, lookup_partial_alter_eq.
      + by apply decode_order.
      + by rewrite Hc.
      + by rewrite Hc, Ht.
    - intros [e id] row' Hr _ He. cbn in He. subst e. exact (Hfree id row' Hr). }
  exists d'. split; [done|]. split; [done|]. pose proof (field_to_untouched _ _ _ _ Hto) as Hun.
  assert (is_Some (d_fields d' !! fk_ref key)) as Hsome by (destruct Hto as [_ _ -> _ _]; rewrite lookup_partial_alter_eq; by eexists).
  rewrite fk_ref_eta in Hto. split; [|split; [done|split; [done|]]].
  - eapply field_to_revised; [exact Hto|]. intros row0 rows0 [= <- <-]. by left.
  - rewrite (contents_insert d d' _ _ row rows Hws Hws' Hto), Ht; [done|]. intros old Hold. rewrite fk_ref_eta in Hnone. congruence.
Qed.

(** A field that is there, under the key of its place. *)
Record kept_at (d : Rows) (key : FieldKey) (row : FieldRow) : Prop := {
  ka_key : a_key key;
  ka_stored : stored_field d key row
}.

Lemma kept_at_place d key row : well_stored d -> kept_at d key row ->
  contents d !! place_of key = Some (field_code (fk_kind key), text_of (chunk_rows d (fk_ref key))).
Proof.
  intros Hws [_ [_ Hr Ho _ Hk _ _ _ _ _ _]]. apply contents_lookup; [done|]. exists (fk_id key), row. rewrite <- fk_ref_eta, Hk. by repeat split.
Qed.

(** The field stays at its place with a new row and new chunks. *)
Lemma field_to_kept d d' key row row' rows n : well_stored d -> kept_at d key row ->
  field_to (fk_ref key) (Some (row', rows)) d d' -> chunks_ok rows ->
  fr_order_key row' = fr_order_key row -> fr_kind row' = fr_kind row -> fr_metadata_json row' = fr_metadata_json row ->
  fr_byte_length row' = len (text_of rows) -> fr_byte_length row' <= i64_max -> fr_generation row' <= i64_max ->
  (fr_generation row' = n /\ fr_generation row <= n) \/
    (fr_generation row' = fr_generation row /\ exists more, text_of rows = String.append (text_of (chunk_rows d (fk_ref key))) more) ->
  well_stored d' /\ revised (entry_of key) n d d' /\
  contents d' = <[place_of key := (field_code (fk_kind key), text_of rows)]> (contents d) /\ kept_at d' key row'.
Proof.
  intros Hws [[Hkey Hok] Hst] Hto Hrows Ho Hk Hm Hl Hb Hi Hg. pose proof Hto as [_ He Hf Hc _]. cbn in Hf, Hc.
  assert (stored_field d' key row') as Hst'.
  { destruct Hst as [S1 S2 S3 S4 S5 S6 S7 S8 S9 S10 S11]. split; rewrite ?Ho, ?Hk, ?Hm, ?Hc; try done.
    - unfold validate_entry in *. by rewrite He.
    - by rewrite Hf, lookup_partial_alter_eq.
    - destruct Hg as [[? ?]|[? _]]; lia. }
  assert (well_stored d') as Hws'.
  { eapply field_to_stored; [done | exact Hto |]. intros r rs [= <- <-]. split; [by exists key|].
    intros ref' r' Hr' Hn He' Heq. apply Hn. eapply (ws_order d); [done | exact Hr' | exact (sf_row _ _ _ Hst) | done | congruence]. }
  split; [done|]. rewrite fk_ref_eta in Hto. split; [|split; [|by split]].
  - eapply field_to_revised; [exact Hto|]. intros r rs [= <- <-]. destruct Hg as [[? _]|[? [more ?]]]; [by left|right].
    exists row, more. rewrite <- fk_ref_eta. split_and!; try done. exact (sf_row _ _ _ Hst).
  - rewrite (contents_insert d d' _ _ row' rows Hws Hws' Hto); [by rewrite Ho, Hk, (sf_order _ _ _ Hst), (sf_kind _ _ _ Hst)|].
    intros old Hold. rewrite <- fk_ref_eta, (sf_row _ _ _ Hst) in Hold. injection Hold as <-. done.
Qed.

Lemma append_step d key row text n : well_stored d -> kept_at d key row -> from_utf8 text = true -> fr_byte_length row + len text <= i64_max ->
  exists d', append_field key text d = (Ok (mkDescriptor (fr_generation row) (fr_byte_length row + len text)), d') /\
    well_stored d' /\ revised (entry_of key) n d d' /\
    contents d' = <[place_of key := (field_code (fk_kind key), String.append (text_of (chunk_rows d (fk_ref key))) text)]> (contents d).
Proof.
  intros Hws Hka Hu Hl. destruct (append_field_ok d key row text (ka_stored _ _ _ Hka) Hu Hl) as (rows & d' & E & Hto & Hrows & Ht).
  destruct (field_to_kept d d' key row _ rows n Hws Hka Hto Hrows) as (Hws' & Hrev & Hc & _); cbn; try done.
  { by rewrite Ht, len_app, (sf_length _ _ _ (ka_stored _ _ _ Hka)). } { exact (sf_i64 _ _ _ (ka_stored _ _ _ Hka)). }
  { right. split; [done|]. by exists text. }
  exists d'. rewrite Hc, Ht. done.
Qed.

Lemma replace_step d key row text n : well_stored d -> kept_at d key row -> fr_generation row < n <= i64_max ->
  from_utf8 text = true -> len text <= i64_max ->
  exists d', replace_field key n text d = (Ok (mkDescriptor n (len text)), d') /\
    well_stored d' /\ revised (entry_of key) n d d' /\ untouched (fk_ref key) d d' /\
    contents d' = <[place_of key := (field_code (fk_kind key), text)]> (contents d).
Proof.
  intros Hws Hka Hn Hu Hl. destruct (replace_field_ok d key row n text (ka_stored _ _ _ Hka) Hn Hu Hl) as (rows & d' & E & Hto & Hrows & Ht).
  destruct (field_to_kept d d' key row _ rows n Hws Hka Hto Hrows) as (Hws' & Hrev & Hc & _); cbn; try done; rewrite ?Ht; try done.
  { lia. } { left. lia. }
  exists d'. rewrite Hc, Ht. pose proof (field_to_untouched _ _ _ _ Hto). done.
Qed.

Lemma remove_step d key row n : well_stored d -> kept_at d key row ->
  exists d', remove_field key d = (Ok tt, d') /\ well_stored d' /\ revised (entry_of key) n d d' /\ untouched (fk_ref key) d d' /\
    d_fields d' = delete (fk_ref key) (d_fields d) /\ contents d' = delete (place_of key) (contents d).
Proof.
  intros Hws [_ Hst]. destruct (remove_field_ok d key row Hst) as (d' & E & Hto). exists d'. split; [done|].
  assert (well_stored d') as Hws' by (eapply field_to_stored; [done | exact Hto | done]). split; [done|].
  split; [eapply field_to_revised; [exact Hto | done]|]. split; [exact (field_to_untouched _ _ _ _ Hto)|]. split.
  - destruct Hto as [_ _ Hf _ _]. exact Hf.
  - rewrite <- (sf_order _ _ _ Hst). apply (contents_delete d d' _ _ _ Hws Hws' Hto). exact (sf_row _ _ _ Hst).
Qed.

(** ** An entry that takes content *)
Definition entry_ready (d : Rows) (run : string) (e : EntryId) : Prop :=
  exists row, d_entries d !! (run, show_entry_id e) = Some row /\ er_first_sequence row = first_sequence e /\
    er_position_slot row = position_slot e /\ er_kind row ∈ ["assistant"; "tool"; "reuse"; "notice"] /\
    0 <= first_sequence e <= i64_max /\ 0 <= position_slot e <= i64_max.

Definition field_id (run : string) (e : EntryId) (o : OrderKey) : string :=
  match field_key run e o with Ok key => hex_bytes key | Err _ => EmptyString end.
Definition the_key (run : string) (e : EntryId) (o : OrderKey) (k : FieldKind.t) : FieldKey :=
  mkFieldKey run e (field_id run e o) (FieldOrder.Indexed o) k.

(** No other place of the entry has the digest of this one. *)
Definition apart (d : Rows) (run : string) (e : EntryId) (o : OrderKey) : Prop :=
  forall row, d_fields d !! ((run, show_entry_id e), field_id run e o) = Some row -> fr_order_key row = show_key o.

Lemma ready_key d run e o k : entry_ready d run e -> u64_key o ->
  new_key run e (FieldOrder.Indexed o) k = Ok (the_key run e o k) /\ a_key (the_key run e o k) /\
  validate_entry (the_key run e o k) d = Ok tt.
Proof.
  intros (row & Hr & Hf & Hs & Hk & Hfb & Hsb) Ho.
  assert (new_key run e (FieldOrder.Indexed o) k = Ok (the_key run e o k)) as Hnew.
  { unfold new_key. rewrite !integer_ok by done. unfold the_key, field_id. unfold field_key.
    destruct (hash_total (FieldTuple 1 "wi.conversation.field" run (show_entry_id e) (source_spelling o))) as [h ->]. done. }
  split; [done|]. split; [by split|]. unfold validate_entry. cbn [fk_run fk_entry the_key fk_order]. rewrite Hr. cbn [ok_or].
  rewrite Hf, Hs, !unsigned_ok, !Z.eqb_refl by done. cbn [negb orb].
  assert (er_kind row <> "human" /\ one_of (er_kind row) ["human"; "assistant"; "tool"; "reuse"; "notice"] = true) as [Hh ->].
  { set_unfold in Hk. destruct Hk as [-> |[-> |[-> |[-> |[]]]]]; by split. }
  cbn [negb orb]. rewrite bool_decide_eq_true_2; [done|]. split; [done | by intros [=]].
Qed.

Lemma entry_ready_frame d d' run e : d_entries d' = d_entries d -> entry_ready d run e -> entry_ready d' run e.
Proof using Type. intros He (row & Hr & Hx). exists row. by rewrite He. Qed.

(** The fields of an entry are no newer than a revision of it. *)
Definition generations (d : Rows) (e : EntryRef) (n : Z) : Prop :=
  forall id row, d_fields d !! (e, id) = Some row -> fr_generation row <= n.

Lemma revised_generations e n m d d' : revised e n d d' -> generations d e m -> m <= n -> generations d' e n.
Proof using Type.
  intros Hrev Hg Hmn id row' Hr. destruct (rv_fields _ _ _ _ Hrev id row' Hr) as [-> |(row & _ & Hr0 & -> & _)]; [lia|].
  specialize (Hg id row Hr0). lia.
Qed.

(** A field is found under the key of its place. *)
Lemma found_at d run e o k row : well_stored d -> entry_ready d run e -> u64_key o ->
  d_fields d !! fk_ref (the_key run e o k) = Some row -> fr_order_key row = show_key o -> fr_kind row = field_code k ->
  kept_at d (the_key run e o k) row.
Proof.
  intros Hws Hre Ho Hr Hord Hk. destruct (ready_key d run e o k Hre Ho) as (_ & Hak & Hv). split; [done|]. by apply stored_at; try apply Hak.
Qed.

Lemma place_free d run e o k : well_stored d -> entry_ready d run e -> u64_key o ->
  d_fields d !! fk_ref (the_key run e o k) = None -> contents d !! ((run, show_entry_id e), show_key o) = None.
Proof.
  intros Hws Hre Ho Hn. destruct (contents d !! _) as [kt|] eqn:E; [exfalso|done].
  apply contents_lookup in E as (id & row & Hr & Hord & _); [|done].
  destruct (ws_field d Hws _ _ Hr) as (key & Hnew & Href & Hst). destruct Hst as [Hv _ Ho' Hd _ _ _ _ _ _ _].
  rewrite Hord in Ho', Hd. change (show_key o) with (FieldOrder.encode (FieldOrder.Indexed o)) in Hd. rewrite decode_order in Hd by done.
  destruct (ready_key d run e o (fk_kind key) Hre Ho) as (Hnew' & _ & Hv'). pose proof (validate_nonneg _ _ Hv) as [? ?]. pose proof (validate_nonneg _ _ Hv') as [? ?].
  pose proof (f_equal (fun r => fst (fst r)) Href) as Hrun. pose proof (f_equal (fun r => snd (fst r)) Href) as He. pose proof (f_equal snd Href) as Hid.
  cbn [fk_ref fst snd fk_run fk_entry fk_id] in *. apply show_entry_id_inj in He; [|done..]. injection Hd as Hd. rewrite Hrun, He, <- Hd, Hnew' in Hnew. injection Hnew as Hkey.
  rewrite <- Hkey in Hid. cbn in Hid. subst id. change (fk_ref (the_key run e o k)) with ((run, show_entry_id e), field_id run e o) in Hn. congruence.
Qed.

(** ** Delta *)
Definition shown_delta (place : FieldRef) (part : Part) (m : gmap FieldRef (string * string)) : gmap FieldRef (string * string) :=
  let new := (field_code (pt_kind part), pt_text part) in
  match m !! place with
  | Some (k, t) =>
      if bool_decide (k = field_code (pt_kind part))
      then <[place := (k, String.append t (if bool_decide (pt_kind part = FieldKind.Unsupported) then EmptyString else pt_text part))]> m
      else <[place := new]> m
  | None => <[place := new]> m
  end.

(** What a reader of the entry at an earlier epoch relies on: the places it knows are
    still there with their kinds, and a new one comes after all of them. *)
Definition stable (e : EntryRef) (m m' : gmap FieldRef (string * string)) : Prop :=
  (forall o k t, m !! (e, o) = Some (k, t) -> exists t', m' !! (e, o) = Some (k, t')) /\
  (forall o o', m !! (e, o) = None -> is_Some (m' !! (e, o)) -> is_Some (m !! (e, o')) -> String.compare o' o = Lt).

Lemma stable_insert e m o k t : (forall k' t', m !! (e, o) = Some (k', t') -> k' = k) ->
  (m !! (e, o) = None -> forall o', is_Some (m !! (e, o')) -> String.compare o' o = Lt) -> stable e m (<[(e, o) := (k, t)]> m).
Proof using Type.
  intros Hk Hlt. split.
  - intros o0 k0 t0 Ho. destruct (decide (o0 = o)) as [-> |Hn]; [rewrite lookup_insert_eq; exists t; by rewrite (Hk _ _ Ho)|].
    rewrite lookup_insert_ne by congruence. by exists t0.
  - intros o0 o' Hnone Hs Ho'. destruct (decide (o0 = o)) as [-> |Hn]; [by apply Hlt|].
    rewrite lookup_insert_ne in Hs by congruence. rewrite Hnone in Hs. by destruct Hs.
Qed.

Lemma not_later d e o : well_stored d -> has_later e o d = false -> contents d !! (e, o) = None ->
  forall o', is_Some (contents d !! (e, o')) -> String.compare o' o = Lt.
Proof.
  intros Hws Hl Hn o' [kt Ho']. unfold has_later in Hl. prop_bools. rewrite contents_lookup in Ho' by done. destruct Ho' as (id & row & Hr & <- & _).
  specialize (Hl _ _ Hr eq_refl). destruct (String.compare (fr_order_key row) o) eqn:Ec; [|done|done]. apply String.compare_eq_iff in Ec.
  by destruct (contents_none _ _ _ Hws Hn id row Hr).
Qed.

Lemma delta_step d run entry n part :
  let e := (run, show_entry_id (e_id entry)) in
  let place := (e, show_key (pt_order part)) in
  well_stored d -> entry_ready d run (e_id entry) -> u64_key (pt_order part) -> generations d e (e_revision entry) ->
  apart d run (e_id entry) (pt_order part) -> first_sequence (e_id entry) <= n <= i64_max -> from_utf8 (pt_text part) = true ->
  len (match contents d !! place with Some (_, t) => t | None => EmptyString end) + len (pt_text part) <= i64_max ->
  exists d' entry', delta run entry n part d = (Ok entry', d') /\ well_stored d' /\ revised e n d d' /\
    contents d' = shown_delta place part (contents d) /\
    (entry' = with_epoch n entry \/ (entry' = entry /\ stable e (contents d) (contents d'))).
Proof.
  intros e place Hws Hre Ho Hg Hap Hn Hu Hl. unfold delta, shown_delta. destruct part as [o k t]. cbn [pt_order pt_kind pt_text] in *.
  destruct (ready_key d run (e_id entry) o k Hre Ho) as (Hnew & Hak & Hv). ok; [|exact Hnew]. unfold gets, bind at 1.
  pose proof (len_nonneg t). set (key := the_key run (e_id entry) o k) in *.
  destruct (d_fields d !! fk_ref key) as [row|] eqn:Hr.
  - pose proof (Hap row Hr) as Hord. destruct (ws_field d Hws _ _ Hr) as (key0 & _ & _ & Hst0). rewrite (sf_kind _ _ _ Hst0).
    set (k0 := fk_kind key0) in *. ok; [|apply decode_field_code].
    assert (kept_at d (the_key run (e_id entry) o k0) row) as Hka by (apply found_at; try done; exact (sf_kind _ _ _ Hst0)).
    pose proof (kept_at_place _ _ _ Hws Hka) as Hpl. change (fst (fk_ref (the_key run (e_id entry) o k0)), FieldOrder.encode (fk_order (the_key run (e_id entry) o k0))) with place in Hpl.
    rewrite Hpl in Hl |- *. cbn [fk_kind the_key] in *.
    assert (len t <= i64_max) by (pose proof (len_nonneg (text_of (chunk_rows d (fk_ref (the_key run (e_id entry) o k0))))); lia).
    specialize (Hg _ _ Hr). destruct (decide (k0 = k)) as [Hkk|Hkk].
    + rewrite (bool_decide_eq_true_2 (k0 = k)) by done. cbn [negb]. rewrite (bool_decide_eq_true_2 (field_code k0 = field_code k)) by exact (f_equal field_code Hkk). rewrite Hkk in Hka, Hl.
      assert (from_utf8 (if bool_decide (k = FieldKind.Unsupported) then EmptyString else t) = true) as Hu' by by destruct (bool_decide _).
      destruct (append_step d key row (if bool_decide (k = FieldKind.Unsupported) then EmptyString else t) n Hws Hka Hu') as (d' & E & Hws' & Hrev & Hc).
      { rewrite (sf_length _ _ _ (ka_stored _ _ _ Hka)).
        destruct (bool_decide _); change (len EmptyString) with 0; lia. }
      ok_by E. cbn [fd_generation]. rewrite (proj2 (Z.ltb_ge _ _)) by lia. exists d', entry. split; [done|]. split; [done|]. split; [done|].
      split; [rewrite Hc, Hkk; done|]. right. split; [done|]. rewrite Hc. apply (stable_insert e _ (show_key o)); fold place; rewrite Hpl; [|done].
      intros k' t' [= <- _]. exact (f_equal field_code Hkk).
    + rewrite (bool_decide_eq_false_2 (k0 = k)) by done. cbn [negb]. rewrite (bool_decide_eq_false_2 (field_code k0 = field_code k)) by (by intros ?%field_code_inj).
      destruct (ready_key d run (e_id entry) o k0 Hre Ho) as (Hnew0 & _ & _). ok; [|exact Hnew0]. ok; [|by apply load_field_ok, Hka].
      cbn [fd_generation]. rewrite (proj2 (Z.ltb_ge _ _)) by lia.
      destruct (remove_step d _ row n Hws Hka) as (d1 & E1 & Hws1 & Hrev1 & _ & Hf1 & Hc1). ok_by E1.
      destruct (insert_step d1 key n t Hws1 Hak) as (d2 & E2 & Hws2 & Hrev2 & _ & _ & Hc2); try done.
      { unfold validate_entry in *. by rewrite (rv_entries _ _ _ _ Hrev1). }
      { rewrite Hf1. apply lookup_delete_eq. } { rewrite Hc1. apply lookup_delete_eq. }
      ok_by E2. exists d2, (with_epoch n entry). split; [done|]. split; [done|]. split; [by etransitivity|]. split; [|by left].
      rewrite Hc2, Hc1. by rewrite insert_delete_eq.
  - pose proof (place_free d run (e_id entry) o k Hws Hre Ho Hr) as Hpl. fold e in Hpl. fold place in Hpl. rewrite Hpl in Hl |- *. change (len EmptyString) with 0 in Hl.
    destruct (insert_step d key n t Hws Hak Hv) as (d' & E & Hws' & Hrev & _ & _ & Hc); try done.
    unfold bind at 1. ok_by E. destruct (has_later _ _ d) eqn:El; eexists d', _; (split; [reflexivity|]); (split; [done|]); (split; [done|]); (split; [done|]); [by left|right].
    split; [done|]. rewrite Hc. apply (stable_insert e _ (show_key o)); fold place; rewrite Hpl; [done|]. intros _. exact (not_later d e _ Hws El Hpl).
Qed.

(** ** Comparison with a text *)
Lemma substring_append a b c : String.substring (String.length a) (String.length b) (String.append a (String.append b c)) = b.
Proof using Type.
  induction a as [|x a IH].
  - cbn [String.length]. change (String.append EmptyString ?y) with y. induction b as [|y b IHb]; [by destruct c|].
    change (String.append (String y b) c) with (String y (String.append b c)). cbn [String.length String.substring]. by rewrite IHb.
  - change (String.append (String x a) ?y) with (String x (String.append a y)). cbn [String.length String.substring]. exact IH.
Qed.

Lemma split_length s n : (n <= String.length s)%nat -> exists a b, s = String.append a b /\ String.length a = n.
Proof using Type.
  revert n. induction s as [|x s IH]; intros n Hn; cbn in Hn.
  - exists EmptyString, EmptyString. split; [done|]. simpl. lia.
  - destruct n as [|n]; [by exists EmptyString, (String x s)|]. destruct (IH n) as (a & b & -> & <-); [lia|]. by exists (String x a), b.
Qed.

Lemma append_cancel a b c d : String.append a b = String.append c d -> String.length a = String.length c -> a = c /\ b = d.
Proof using Type.
  revert c. induction a as [|x a IH]; intros [|y c] E Hl; try discriminate Hl; [done|].
  change (String x (String.append a b) = String y (String.append c d)) in E. injection E as -> E. destruct (IH c E) as [-> ->]; [simpl in Hl; lia | done].
Qed.

Lemma same_chunks_ok d ref text pre post fuel : chunk_rows d ref = pre ++ post -> chunks_ok (pre ++ post) ->
  len text = len (text_of (pre ++ post)) -> len text <= i64_max -> (length post < fuel)%nat ->
  (exists rest, text = String.append (text_of pre) rest) ->
  same_chunks fuel ref (len text) (len (text_of pre)) text d = Ok (bool_decide (text = text_of (pre ++ post))).
Proof.
  intros Hrows Hok Hlen Hmax Hfuel Hpre. revert pre Hrows Hok Hlen Hfuel Hpre. revert fuel.
  induction post as [|c post IH]; intros fuel pre Hrows Hok Hlen Hfuel [rest Ht]; (destruct fuel as [|fuel]; [simpl in Hfuel; lia|]); cbn [same_chunks].
  - rewrite app_nil_r in *. pose proof (len_nonneg (text_of pre)). rewrite integer_ok by lia. rewrite Hrows.
    assert (List.find (fun c => len (text_of pre) <=? ch_start c) pre = None) as ->.
    { destruct (List.find _ pre) as [c|] eqn:E; [|done]. apply List.find_some in E as [Hin%list_elem_of_In Hc]. prop_bools.
      destruct Hok as [Hcon HF]. apply consecutive_starts in Hcon. rewrite Forall_forall in Hcon, HF. specialize (Hcon c Hin). destruct (HF c Hin) as [? _]. lia. }
    rewrite Hlen, Z.eqb_refl. cbn [negb]. f_equal. symmetry. apply bool_decide_eq_true_2. subst text. rewrite len_app in Hlen.
    destruct rest; [by rewrite append_empty|]. unfold len in Hlen. simpl in Hlen. lia.
  - pose proof Hok as [Hcon HF]. rewrite consecutive_app in Hcon. destruct Hcon as [Hcon [Hs Hcon']]. rewrite Z.add_0_l in Hs.
    apply Forall_app in HF as [HF [[Hl Hu] HF']%Forall_cons]. pose proof (len_nonneg (text_of pre)). pose proof (len_nonneg (text_of post)).
    assert (len text = len (text_of pre) + len (ch_text c) + len (text_of post)) as Hlen'.
    { rewrite Hlen. change (c :: post) with ([c] ++ post). rewrite !text_of_app, text_of_one, !len_app. lia. }
    rewrite integer_ok by lia. rewrite Hrows.
    assert (List.find (fun r => len (text_of pre) <=? ch_start r) (pre ++ c :: post) = Some c) as ->.
    { assert (Forall (fun r => ch_start r < len (text_of pre)) pre) as Hlt.
      { apply consecutive_starts in Hcon. apply Forall_forall. intros r Hr. rewrite Forall_forall in Hcon, HF. specialize (Hcon r Hr). destruct (HF r Hr) as [? _]. lia. }
      clear -Hlt Hs. revert Hlt Hs. generalize (len (text_of pre)). intros n Hlt Hs. induction Hlt as [|r pre0 Hr _ IHl]; cbn [app List.find]; [rewrite Hs, Z.leb_refl; done|]. by rewrite (proj2 (Z.leb_gt _ _) Hr). }
    rewrite unsigned_ok by lia. rewrite Hs, Z.eqb_refl, (proj2 (Z.eqb_neq _ 0)), (proj2 (Z.ltb_ge CHUNK_BYTES _)), Hu by lia. cbn [negb orb].
    rewrite checked_ok by lia. cbn [ok_or]. rewrite (proj2 (Z.ltb_ge _ _)) by lia.
    destruct (split_length rest (String.length (ch_text c))) as (b & rest' & -> & Hbl).
    { subst text. rewrite len_app in Hlen'. unfold len in *. lia. }
    assert (slice text (len (text_of pre)) (len (text_of pre) + len (ch_text c)) = Some b) as ->.
    { unfold slice. rewrite (proj2 (Z.leb_le _ _)), (proj2 (Z.leb_le _ _)) by lia. cbn [andb]. f_equal.
      replace (Z.to_nat (len (text_of pre))) with (String.length (text_of pre)) by (unfold len; lia).
      replace (Z.to_nat (_ - _)) with (String.length b) by (unfold len; lia). rewrite Ht. apply substring_append. }
    destruct (decide (b = ch_text c)) as [-> |Hne].
    + rewrite (bool_decide_eq_true_2 (Some _ = _)) by done. cbn [negb].
      specialize (IH fuel (pre ++ [c])). rewrite <- !app_assoc in IH. cbn [app] in IH. rewrite (text_of_app pre [c]), text_of_one, len_app in IH.
      apply IH; try done; [simpl in Hfuel; lia|]. exists rest'. by rewrite append_assoc.
    + rewrite (bool_decide_eq_false_2 (Some _ = _)) by congruence. cbn [negb]. f_equal. symmetry. apply bool_decide_eq_false_2.
      intros E. rewrite Ht in E. change (c :: post) with ([c] ++ post) in E. rewrite !text_of_app, text_of_one in E.
      apply append_cancel in E as [_ E]; [|done]. apply append_cancel in E as [E _]; done.
Qed.

Lemma same_text_ok d key row entry text : stored_field d key row -> fr_generation row <= e_revision entry -> len text <= i64_max ->
  same_text key entry text d = Ok (bool_decide (text = text_of (chunk_rows d (fk_ref key)))).
Proof.
  intros Hst Hg Hl. pose proof (len_nonneg text). unfold same_text. rewrite (load_field_ok _ _ _ Hst). cbn [fd_generation fd_byte_length].
  rewrite (proj2 (Z.ltb_ge _ _)) by lia. unfold u64_try_from. rewrite (proj2 (in_u64_spec _)) by (apply i64_u64 in Hl; lia). cbn [ok_or].
  rewrite (sf_length _ _ _ Hst). destruct (Z.eqb_spec (len (text_of (chunk_rows d (fk_ref key)))) (len text)) as [Heq|Hne]; cbn [negb].
  - rewrite Heq. apply (same_chunks_ok d (fk_ref key) text [] (chunk_rows d (fk_ref key))); try done; [exact (sf_chunks _ _ _ Hst) | lia | by exists text].
  - f_equal. symmetry. apply bool_decide_eq_false_2. congruence.
Qed.

(** ** Snapshot *)

(** The key of a field of an entry that is not a human's. *)
Lemma row_key d run e id row : well_stored d -> entry_ready d run e -> d_fields d !! ((run, show_entry_id e), id) = Some row ->
  exists o k, u64_key o /\ fr_order_key row = show_key o /\ fr_kind row = field_code k /\ id = field_id run e o /\ kept_at d (the_key run e o k) row.
Proof.
  intros Hws Hre Hr. destruct (ws_field d Hws _ _ Hr) as (key & Hnew & Href & Hst). pose proof Hst as [Hv _ Ho Hd Hk _ _ _ _ _ _].
  apply decode_order_ok in Hd as [Hok _]. pose proof Hre as (erow & Her & Hfs & Hps & Hkind & Hfb & Hsb).
  pose proof (validate_nonneg _ _ Hv) as [? ?].
  pose proof (f_equal (fun r => fst (fst r)) Href) as Hrun. pose proof (f_equal (fun r => snd (fst r)) Href) as He. pose proof (f_equal snd Href) as Hid.
  cbn [fk_ref fst snd] in Hrun, He, Hid. apply show_entry_id_inj in He; [|done|done|lia|lia].
  destruct (fk_order key) as [|o] eqn:Eo.
  - exfalso. unfold validate_entry in Hv. rewrite Hrun, He, Her in Hv. cbn [ok_or] in Hv. rewrite Hfs, Hps, !unsigned_ok, !Z.eqb_refl in Hv by done. cbn [negb orb] in Hv.
    assert (er_kind erow <> "human" /\ one_of (er_kind erow) ["human"; "assistant"; "tool"; "reuse"; "notice"] = true) as [Hh Hone].
    { set_unfold in Hkind. destruct Hkind as [-> |[-> |[-> |[-> |[]]]]]; by split. }
    rewrite Hone in Hv. cbn [negb orb] in Hv. rewrite bool_decide_eq_false_2 in Hv; [done|]. rewrite Eo. intros [_ Hx]. by apply Hh, Hx.
  - cbn in Hok. destruct (ready_key d run e o (fk_kind key) Hre Hok) as (Hnew' & Hak & _). rewrite Hrun, He, Hnew' in Hnew. injection Hnew as Hkey.
    exists o, (fk_kind key). split; [done|]. split; [done|]. split; [done|]. split; [rewrite <- Hid, <- Hkey; done|]. rewrite Hkey in Hak |- *. by split.
Qed.

Definition between (lower upper o : string) : bool :=
  match String.compare o lower with Lt => false | _ => true end && match String.compare o upper with Lt => true | _ => false end.

Lemma rows_between_in e lower upper d id row : (id, row) ∈ rows_between e lower upper d <->
  d_fields d !! (e, id) = Some row /\ between lower upper (fr_order_key row) = true.
Proof using Type.
  unfold rows_between. rewrite merge_sort_Permutation, list_elem_of_In, List.filter_In, <- list_elem_of_In, list_elem_of_omap. split.
  - intros [([[e' id'] row'] & Hin%elem_of_map_to_list & He) Hb]. cbn in He. destruct (bool_decide (e' = e)) eqn:E; [|done].
    prop_bools. injection He as -> ->. subst e'. split; [done|]. by apply andb_true_iff.
  - intros [Hr Hb]. split; [|exact Hb]. exists ((e, id), row). split; [by apply elem_of_map_to_list|]. cbn. by rewrite bool_decide_eq_true_2.
Qed.

Lemma rows_between_nodup e lower upper d : NoDup (fst <$> rows_between e lower upper d).
Proof using Type.
  unfold rows_between. rewrite merge_sort_Permutation.
  pose proof (NoDup_fst_map_to_list (d_fields d)) as Hnd. revert Hnd. generalize (map_to_list (d_fields d)).
  induction l as [|[[e' id] row] l IH]; [intros; constructor|]. cbn [fmap list_fmap fst]. rewrite NoDup_cons. intros [Hn Hnd]. cbn [omap list_omap fst snd].
  destruct (bool_decide (e' = e)) eqn:E; [|by apply IH]. prop_bools. subst e'. cbn [List.filter].
  destruct (_ && _); [|by apply IH]. cbn [fmap list_fmap fst]. apply NoDup_cons. split; [|by apply IH].
  intros ([id' row'] & -> & Hin%list_elem_of_In)%list_elem_of_fmap. apply List.filter_In in Hin as [Hin%list_elem_of_In _].
  apply list_elem_of_omap in Hin as ([[e'' id''] row''] & Hin & He). cbn in He. destruct (bool_decide (e'' = e)) eqn:E''; [|done]. prop_bools. injection He as -> ->. subst e''.
  apply Hn. cbn. apply list_elem_of_fmap. by exists ((e, id'), row').
Qed.

(** The part that an old field stays for. *)
Definition part_for (parts : list Part) (row : FieldRow) : option Part :=
  List.find (fun p => bool_decide (show_key (pt_order p) = fr_order_key row) && bool_decide (field_code (pt_kind p) = fr_kind row)) parts.

Lemma part_for_find parts row o k : Forall (fun p => u64_key (pt_order p)) parts -> u64_key o -> fr_order_key row = show_key o -> fr_kind row = field_code k ->
  List.find (fun p => bool_decide (FieldOrder.Indexed (pt_order p) = FieldOrder.Indexed o) && bool_decide (pt_kind p = k)) parts = part_for parts row.
Proof using Type.
  intros HF Ho Hord Hk. unfold part_for. induction HF as [|p parts Hp _ IH]; [done|]. cbn [List.find].
  assert (bool_decide (FieldOrder.Indexed (pt_order p) = FieldOrder.Indexed o) = bool_decide (show_key (pt_order p) = fr_order_key row)) as ->.
  { apply bool_decide_ext. rewrite Hord. split; [by intros [= ->]|]. intros E%(f_equal parse_key).
    rewrite (proj2 (parse_key_Some _ _) (conj Hp eq_refl)), (proj2 (parse_key_Some _ _) (conj Ho eq_refl)) in E. congruence. }
  assert (bool_decide (pt_kind p = k) = bool_decide (field_code (pt_kind p) = fr_kind row)) as ->.
  { apply bool_decide_ext. rewrite Hk. split; [by intros -> | by intros ?%field_code_inj]. }
  by rewrite IH.
Qed.

Definition part_ok (p : Part) : Prop := u64_key (pt_order p) /\ from_utf8 (pt_text p) = true /\ len (pt_text p) <= i64_max.

(** An old field after its turn. *)
Definition turned (e : EntryRef) (parts : list Part) (retained : list OrderKey) (d' : Rows) (id : string) (row : FieldRow) : Prop :=
  match part_for parts row with
  | Some p => (exists row', d_fields d' !! (e, id) = Some row' /\ fr_order_key row' = fr_order_key row) /\
      contents d' !! (e, fr_order_key row) = Some (field_code (pt_kind p), pt_text p) /\ pt_order p ∈ retained
  | None => d_fields d' !! (e, id) = None /\ contents d' !! (e, fr_order_key row) = None
  end.

Lemma keep_one d run entry n parts id row old changed retained :
  let e := (run, show_entry_id (e_id entry)) in
  well_stored d -> entry_ready d run (e_id entry) -> d_fields d !! (e, id) = Some row ->
  fr_generation row <= e_revision entry -> fr_generation row < n -> n <= i64_max -> Forall part_ok parts ->
  exists d', keep_old run entry n parts ((id, row) :: old) changed retained d
    = keep_old run entry n parts old (if is_some (part_for parts row) then changed else true)
        (match part_for parts row with Some p => pt_order p :: retained | None => retained end) d' /\
    well_stored d' /\ revised e n d d' /\ untouched (e, id) d d' /\
    (forall r, (forall p, part_for parts row = Some p -> pt_order p ∈ r) -> turned e parts r d' id row) /\
    (forall place, place <> (e, fr_order_key row) -> contents d' !! place = contents d !! place).
Proof.
  intros e Hws Hre Hr Hrev Hgen Hn Hparts. destruct (row_key d run (e_id entry) id row Hws Hre Hr) as (o & k & Ho & Hord & Hk & -> & Hka).
  destruct (ready_key d run (e_id entry) o k Hre Ho) as (Hnew & _ & _). pose proof (ka_stored _ _ _ Hka) as Hst.
  cbn [keep_old]. rewrite Hord, Hk. change (show_key o) with (FieldOrder.encode (FieldOrder.Indexed o)). ok; [|by apply decode_order]. ok; [|apply decode_field_code].
  ok; [|exact Hnew]. cbn [fk_id the_key]. rewrite bool_decide_eq_true_2 by done. cbn [negb]. ok; [|by apply load_field_ok].
  cbn [fd_generation]. rewrite (proj2 (Z.ltb_ge _ _)) by lia.
  rewrite (part_for_find parts row o k); [|eapply Forall_impl; [exact Hparts | by intros p [? _]]|done..].
  unfold turned. destruct (part_for parts row) as [p|] eqn:Ep; cbn [is_some].
  - assert (part_ok p /\ pt_order p = o /\ pt_kind p = k) as ((Hpo & Hpu & Hpl) & Heo & Hek).
    { apply List.find_some in Ep as [Hin%list_elem_of_In Hp]. prop_bools. rewrite Forall_forall in Hparts. split; [by apply Hparts|].
      rewrite Hord in *. rewrite Hk in *. split; [|by apply field_code_inj].
      assert (parse_key (show_key (pt_order p)) = parse_key (show_key o)) as E by congruence.
      rewrite (proj2 (parse_key_Some _ _) (conj (proj1 (Hparts p Hin)) eq_refl)), (proj2 (parse_key_Some _ _) (conj Ho eq_refl)) in E. congruence. }
    ok; [|by apply (same_text_ok d _ row)]. destruct (bool_decide (pt_text p = _)) eqn:Et.
    + prop_bools. exists d. unfold bind at 1. cbn [ret]. split; [done|]. split; [done|]. split; [done|]. split; [by intros ? ?|]. split; [|done].
      intros r Hin. split; [by exists row|]. split; [|by apply Hin]. rewrite Hord, Hek, Et. exact (kept_at_place _ _ _ Hws Hka).
    + destruct (replace_step d _ row (pt_text p) n Hws Hka) as (d' & E & Hws' & Hrv & Hun & Hc); [lia | done | done |].
      exists d'. unfold bind at 1. unfold bind at 1. rewrite E. cbn [ret]. split; [done|]. split; [done|]. split; [done|]. split; [done|]. split.
      * intros r Hin. rewrite Hord. assert (contents d' !! (e, show_key o) = Some (field_code (pt_kind p), pt_text p)) as Hat by (rewrite Hc, Hek; apply lookup_insert_eq).
        split; [|split; [done | by apply Hin]]. apply contents_lookup in Hat as (id & row' & Hr' & Ho' & _); [|done]. exists row'. split; [|done].
        destruct (row_key d' run (e_id entry) id row' Hws') as (o' & k' & Hou' & Ho'' & _ & -> & _);
          [eapply entry_ready_frame; [exact (rv_entries _ _ _ _ Hrv) | done] | done |].
        assert (parse_key (show_key o') = parse_key (show_key o)) as E' by congruence.
        rewrite (proj2 (parse_key_Some _ _) (conj Hou' eq_refl)), (proj2 (parse_key_Some _ _) (conj Ho eq_refl)) in E'. injection E' as ->. exact Hr'.
      * intros place Hp. rewrite Hc. apply lookup_insert_ne. by intros <-.
  - destruct (remove_step d _ row n Hws Hka) as (d' & E & Hws' & Hrv & Hun & Hf & Hc). exists d'. ok_by E.
    split; [done|]. split; [done|]. split; [done|]. split; [done|]. split.
    + intros r _. rewrite Hf, Hc, Hord. split; apply lookup_delete_eq.
    + intros place Hp. rewrite Hc. apply lookup_delete_ne. by intros <-.
Qed.

Lemma turned_frame e parts r r' d d' id row : turned e parts r d id row -> (forall o, o ∈ r -> o ∈ r') ->
  d_fields d' !! (e, id) = d_fields d !! (e, id) -> contents d' !! (e, fr_order_key row) = contents d !! (e, fr_order_key row) ->
  turned e parts r' d' id row.
Proof. unfold turned. intros Ht Hr Hf Hc. rewrite Hf, Hc. destruct (part_for parts row); [|done]. destruct Ht as (? & ? & ?). auto. Qed.

Lemma keep_old_ok run entry n parts old : forall d changed retained,
  let e := (run, show_entry_id (e_id entry)) in
  well_stored d -> entry_ready d run (e_id entry) -> NoDup (fst <$> old) ->
  (forall id row, (id, row) ∈ old -> d_fields d !! (e, id) = Some row /\ fr_generation row <= e_revision entry /\ fr_generation row < n) ->
  n <= i64_max -> Forall part_ok parts ->
  exists d' changed' retained', keep_old run entry n parts old changed retained d = (Ok (changed', retained'), d') /\
    well_stored d' /\ revised e n d d' /\
    (forall id, id ∉ fst <$> old -> d_fields d' !! (e, id) = d_fields d !! (e, id)) /\
    (forall id row, (id, row) ∈ old -> turned e parts retained' d' id row) /\
    (forall place, (forall id row, (id, row) ∈ old -> place <> (e, fr_order_key row)) -> contents d' !! place = contents d !! place) /\
    (forall o, o ∈ retained' -> o ∈ retained \/ exists id row p, (id, row) ∈ old /\ part_for parts row = Some p /\ pt_order p = o) /\
    (forall o, o ∈ retained -> o ∈ retained') /\
    (changed' = false -> changed = false /\ forall id row, (id, row) ∈ old -> part_for parts row <> None).
Proof.
  induction old as [|[id row] old IH]; intros d changed retained e Hws Hre Hnd Hold Hn Hparts.
  { exists d, changed, retained. split; [done|]. split; [done|]. split; [done|]. split; [done|]. split; [by intros ? ? ?%not_elem_of_nil|].
    split; [done|]. split; [by left|]. split; [done|]. intros ->. split; [done|]. by intros ? ? ?%not_elem_of_nil. }
  cbn [fmap list_fmap fst] in Hnd. apply NoDup_cons in Hnd as [Hid Hnd]. destruct (Hold id row) as (Hr & Hrev & Hgen); [by left|].
  destruct (keep_one d run entry n parts id row old changed retained Hws Hre Hr Hrev Hgen Hn Hparts) as (d1 & -> & Hws1 & Hrv1 & Hun1 & Hturn1 & Hc1).
  assert (forall id' row', (id', row') ∈ old -> id' <> id) as Hne.
  { intros id' row' Hin ->. apply Hid. apply list_elem_of_fmap. by exists (id, row'). }
  destruct (IH d1 (if is_some (part_for parts row) then changed else true) (match part_for parts row with Some p => pt_order p :: retained | None => retained end))
    as (d2 & c2 & r2 & E & Hws2 & Hrv2 & Hf2 & Hturn2 & Hc2 & Hr2 & Hsub2 & Hch2); try done.
  { eapply entry_ready_frame; [exact (rv_entries _ _ _ _ Hrv1) | done]. }
  { intros id' row' Hin. destruct (Hold id' row') as (Hr' & ? & ?); [by right|]. split; [|done].
    destruct (Hun1 (e, id')) as [Hx _]; [intros [= ->]; by apply (Hne _ _ Hin)|]. exact (eq_trans Hx Hr'). }
  exists d2, c2, r2. split; [done|]. split; [done|]. split; [by etransitivity|].
  assert (forall p, part_for parts row = Some p -> pt_order p ∈ r2) as Hin2 by (intros p Hp; apply Hsub2; rewrite Hp; by left).
  split; [|split; [|split; [|split; [|split]]]].
  - intros id' Hn'. rewrite fmap_cons, not_elem_of_cons in Hn'. destruct Hn' as [Hn1 Hn2]. rewrite Hf2 by done. apply Hun1. by intros [= ->].
  - intros id' row' [[= -> ->]|Hin]%elem_of_cons; [|by apply Hturn2].
    apply (turned_frame _ _ r2 _ d1); [by apply Hturn1 | done | by apply Hf2 |]. apply Hc2. intros id' row' Hin [= Ho].
    destruct (Hold id' row') as (Hr' & _ & _); [by right|]. apply (Hne _ _ Hin). assert ((e, id') = (e, id)) as [= ?] by (eapply (ws_order d); eauto). done.
  - intros place Hp. rewrite Hc2, Hc1; [done | by apply (Hp id row); left | intros id' row' Hin; apply (Hp id' row'); by right].
  - intros o Ho. destruct (Hr2 o Ho) as [Hin|(id' & row' & p & Hin & Hp & Hpo)]; [|right; exists id', row', p; split; [by right | done]].
    destruct (part_for parts row) as [p|] eqn:Ep; [|by left]. apply elem_of_cons in Hin as [-> |Hin]; [|by left].
    right. exists id, row, p. split; [by left | done].
  - intros o Ho. apply Hsub2. destruct (part_for parts row); [by right | done].
  - intros Hf. destruct (Hch2 Hf) as [Hc Hall]. destruct (part_for parts row) as [p|] eqn:Ep; cbn in Hc; [|done]. split; [done|].
    intros id' row' [[= -> ->]|Hin]%elem_of_cons; [by rewrite Ep | by apply (Hall id' row')].
Qed.

(** The parts that have no field yet get one. *)
Lemma add_new_ok run entry n retained parts : forall d unique changed,
  let e := (run, show_entry_id (e_id entry)) in
  well_stored d -> entry_ready d run (e_id entry) -> first_sequence (e_id entry) <= n <= i64_max -> Forall part_ok parts ->
  NoDup (pt_order <$> parts) -> (forall p, p ∈ parts -> pt_order p ∉ unique) ->
  (forall p, p ∈ parts -> pt_order p ∉ retained -> d_fields d !! (e, field_id run (e_id entry) (pt_order p)) = None) ->
  (forall p q, p ∈ parts -> q ∈ parts -> field_id run (e_id entry) (pt_order p) = field_id run (e_id entry) (pt_order q) -> pt_order p = pt_order q) ->
  exists d' changed', add_new run entry n retained parts unique changed d = (Ok changed', d') /\ well_stored d' /\ revised e n d d' /\
    (forall p, p ∈ parts -> pt_order p ∉ retained -> contents d' !! (e, show_key (pt_order p)) = Some (field_code (pt_kind p), pt_text p)) /\
    (forall place, (forall p, p ∈ parts -> pt_order p ∉ retained -> place <> (e, show_key (pt_order p))) -> contents d' !! place = contents d !! place) /\
    (changed' = false -> changed = false /\ forall p, p ∈ parts -> pt_order p ∈ retained).
Proof.
  induction parts as [|p parts IH]; intros d unique changed e Hws Hre Hn Hok Hnd Huniq Hfree Hap.
  { exists d, changed. split; [done|]. split; [done|]. split; [done|]. split; [by intros ? ?%not_elem_of_nil|]. split; [done|].
    intros ->. split; [done|]. by intros ? ?%not_elem_of_nil. }
  apply Forall_cons in Hok as [(Hpo & Hpu & Hpl) Hok]. rewrite fmap_cons, NoDup_cons in Hnd. destruct Hnd as [Hp Hnd].
  assert (forall q, q ∈ parts -> pt_order q <> pt_order p) as Hpq.
  { intros q Hq Heq. apply Hp. apply list_elem_of_fmap. by exists q. }
  cbn [add_new]. rewrite bool_decide_eq_false_2 by (apply Huniq; by left).
  assert (forall q, q ∈ parts -> pt_order q ∉ pt_order p :: unique) as Huniq'.
  { intros q Hq [He|Hin]%elem_of_cons; [by apply (Hpq q)|]. apply (Huniq q); [by right | done]. }
  destruct (decide (pt_order p ∈ retained)) as [Hin|Hnin].
  - rewrite bool_decide_eq_true_2 by done. cbn [negb].
    destruct (IH d (pt_order p :: unique) changed) as (d' & c' & E & Hws' & Hrv & Hnew & Hsame & Hch); try done.
    { intros q Hq. apply Hfree. by right. } { intros q q' Hq Hq'. apply Hap; by right. }
    exists d', c'. split; [done|]. split; [done|]. split; [done|]. split; [|split].
    + intros q [-> |Hq]%elem_of_cons Hnr; [done | by apply Hnew].
    + intros place Hpl'. apply Hsame. intros q Hq. apply Hpl'. by right.
    + intros Hf. destruct (Hch Hf) as [? Hall]. split; [done|]. intros q [-> |Hq]%elem_of_cons; [done | by apply Hall].
  - rewrite bool_decide_eq_false_2 by done. cbn [negb]. destruct (ready_key d run (e_id entry) (pt_order p) (pt_kind p) Hre Hpo) as (Hnew & Hak & Hv).
    ok; [|exact Hnew]. pose proof (Hfree p ltac:(by left) Hnin) as Hnone.
    destruct (insert_step d (the_key run (e_id entry) (pt_order p) (pt_kind p)) n (pt_text p) Hws Hak Hv) as (d1 & E1 & Hws1 & Hrv1 & Hun1 & Hs1 & Hc1); try done.
    { exact (place_free d run (e_id entry) (pt_order p) (pt_kind p) Hws Hre Hpo Hnone). }
    ok_by E1. destruct (IH d1 (pt_order p :: unique) true) as (d2 & c2 & E & Hws2 & Hrv2 & Hnew2 & Hsame2 & Hch2); try done.
    { eapply entry_ready_frame; [exact (rv_entries _ _ _ _ Hrv1) | done]. }
    { intros q Hq Hnr. destruct (Hun1 (e, field_id run (e_id entry) (pt_order q))) as [Hx _].
      - intros E2%(f_equal snd). cbn in E2. apply (Hpq q Hq). apply Hap; [by right | by left | done].
      - exact (eq_trans Hx (Hfree q ltac:(by right) Hnr)). }
    { intros q q' Hq Hq'. apply Hap; by right. }
    assert (contents d1 !! (e, show_key (pt_order p)) = Some (field_code (pt_kind p), pt_text p)) as Hat by (rewrite Hc1; apply lookup_insert_eq).
    assert (forall q, q ∈ parts -> show_key (pt_order q) <> show_key (pt_order p)) as Hsk.
    { intros q Hq E2%(f_equal parse_key). rewrite Forall_forall in Hok. destruct (Hok q Hq) as [Hqo _].
      rewrite (proj2 (parse_key_Some _ _) (conj Hqo eq_refl)), (proj2 (parse_key_Some _ _) (conj Hpo eq_refl)) in E2. apply (Hpq q Hq). congruence. }
    exists d2, c2. split; [done|]. split; [done|]. split; [by etransitivity|]. split; [|split].
    + intros q [-> |Hq]%elem_of_cons Hnr; [|by apply Hnew2]. rewrite Hsame2; [done|]. intros q Hq _ [= E2]. by apply (Hsk q Hq).
    + intros place Hp'. rewrite Hsame2 by (intros q Hq; apply Hp'; by right). rewrite Hc1. apply lookup_insert_ne. intros <-.
      by apply (Hp' p ltac:(by left) Hnin).
    + intros Hf. by destruct (Hch2 Hf).
Qed.

(** What a snapshot shows: in the range it covers exactly its parts, and elsewhere what was there. *)
Definition covers (output : option Z) : string * string :=
  match output with Some index => output_range index | None => (EmptyString, "~") end.
Definition in_snapshot (e : EntryRef) (output : option Z) (place : FieldRef) : Prop :=
  fst place = e /\ between (fst (covers output)) (snd (covers output)) (snd place) = true.
Definition part_places (e : EntryRef) (parts : list Part) : list (FieldRef * (string * string)) :=
  (fun p => ((e, show_key (pt_order p)), (field_code (pt_kind p), pt_text p))) <$> parts.
Definition shown_snapshot (e : EntryRef) (output : option Z) (parts : list Part) (m : gmap FieldRef (string * string)) : gmap FieldRef (string * string) :=
  list_to_map (part_places e parts) ∪ filter (fun kv => ~ in_snapshot e output (fst kv)) m.

Lemma show_key_inj a b : u64_key a -> u64_key b -> show_key a = show_key b -> a = b.
Proof using Type.
  intros Ha Hb E%(f_equal parse_key). rewrite (proj2 (parse_key_Some _ _) (conj Ha eq_refl)), (proj2 (parse_key_Some _ _) (conj Hb eq_refl)) in E. congruence.
Qed.

Lemma part_for_Some parts row p : part_for parts row = Some p ->
  p ∈ parts /\ show_key (pt_order p) = fr_order_key row /\ field_code (pt_kind p) = fr_kind row.
Proof using Type. intros [Hin%list_elem_of_In Hp]%List.find_some. by prop_bools. Qed.

(** The parts a snapshot is given: typed, in its range, each at a place and with a digest of its own. *)
Record snapshot_parts (d : Rows) (run : string) (e : EntryId) (output : option Z) (parts : list Part) : Prop := {
  sp_ok : Forall part_ok parts;
  sp_range p : p ∈ parts -> in_snapshot (run, show_entry_id e) output ((run, show_entry_id e), show_key (pt_order p));
  sp_nodup : NoDup (pt_order <$> parts);
  sp_apart p q : p ∈ parts -> q ∈ parts -> field_id run e (pt_order p) = field_id run e (pt_order q) -> pt_order p = pt_order q;
  sp_free p row : p ∈ parts -> d_fields d !! ((run, show_entry_id e), field_id run e (pt_order p)) = Some row ->
    in_snapshot (run, show_entry_id e) output ((run, show_entry_id e), fr_order_key row)
}.

Lemma part_places_lookup e parts p : Forall part_ok parts -> NoDup (pt_order <$> parts) -> p ∈ parts ->
  (list_to_map (part_places e parts) : gmap FieldRef (string * string)) !! (e, show_key (pt_order p)) = Some (field_code (pt_kind p), pt_text p).
Proof using Type.
  intros Hok Hnd Hp. apply elem_of_list_to_map.
  - unfold part_places. rewrite <- list_fmap_compose. revert Hok Hnd. clear Hp. induction parts as [|q parts IH]; [intros; constructor|].
    rewrite Forall_cons, !fmap_cons, !NoDup_cons. intros [Hq Hok] [Hn Hnd]. split; [|by apply IH].
    intros (q' & E & Hin)%list_elem_of_fmap. cbn in E. injection E as E. apply Hn. rewrite Forall_forall in Hok.
    apply show_key_inj in E; [|by apply Hq | by apply Hok]. rewrite E. by apply list_elem_of_fmap_2.
  - by apply (list_elem_of_fmap_2 (fun p => ((e, show_key (pt_order p)), (field_code (pt_kind p), pt_text p)))).
Qed.

Lemma part_places_none e parts place : (forall p, p ∈ parts -> place <> (e, show_key (pt_order p))) ->
  (list_to_map (part_places e parts) : gmap FieldRef (string * string)) !! place = None.
Proof using Type.
  intros Hn. apply not_elem_of_list_to_map. unfold part_places. rewrite <- list_fmap_compose. intros (p & E & Hp)%list_elem_of_fmap. exact (Hn p Hp E).
Qed.

Lemma snapshot_step d run entry n output parts :
  let e := (run, show_entry_id (e_id entry)) in
  well_stored d -> entry_ready d run (e_id entry) -> generations d e (e_revision entry) -> generations d e (n - 1) ->
  first_sequence (e_id entry) <= n <= i64_max -> snapshot_parts d run (e_id entry) output parts ->
  exists d' entry', snapshot run entry n output parts d = (Ok entry', d') /\ well_stored d' /\ revised e n d d' /\
    contents d' = shown_snapshot e output parts (contents d) /\
    (entry' = with_epoch n entry \/ (entry' = entry /\ stable e (contents d) (contents d'))).
Proof.
  intros e Hws Hre Hg Hgn Hn [Hok Hrange Hnd Hap Hfree]. unfold snapshot. fold (covers output). destruct (covers output) as [lower upper] eqn:Ecov.
  assert (forall place, in_snapshot e output place <-> fst place = e /\ between lower upper (snd place) = true) as Hin by (intros; unfold in_snapshot; by rewrite Ecov).
  unfold gets, bind at 1. set (old := rows_between e lower upper d).
  assert (forall id row, (id, row) ∈ old <-> d_fields d !! (e, id) = Some row /\ between lower upper (fr_order_key row) = true) as Hold by (intros; apply rows_between_in).
  destruct (keep_old_ok run entry n parts old d false [] Hws Hre) as (d1 & changed & retained & E1 & Hws1 & Hrv1 & Hf1 & Hturn & Hc1 & Hret & _ & Hch1).
  { apply rows_between_nodup. } { intros id row [Hr _]%Hold. split; [done|]. split; [by apply (Hg id)|]. specialize (Hgn id row Hr). lia. } { lia. } { done. }
  fold e in Hrv1, Hf1, Hturn, Hc1, Hrange, Hfree. ok_by E1. cbn [fst snd].
  assert (forall o, o ∈ retained -> exists id row p, (id, row) ∈ old /\ part_for parts row = Some p /\ pt_order p = o) as Hret'.
  { intros o Ho. destruct (Hret o Ho) as [?%not_elem_of_nil|?]; done. }
  assert (forall p q, p ∈ parts -> q ∈ parts -> pt_order p = pt_order q -> p = q) as Huniq.
  { clear -Hnd. induction parts as [|x parts IH]; [by intros ? ? ?%not_elem_of_nil|]. rewrite fmap_cons, NoDup_cons in Hnd. destruct Hnd as [Hx Hnd].
    intros p q [-> |Hp]%elem_of_cons [-> |Hq]%elem_of_cons E; [done| | |by apply IH].
    - exfalso. apply Hx. rewrite E. by apply list_elem_of_fmap_2.
    - exfalso. apply Hx. rewrite <- E. by apply list_elem_of_fmap_2. }
  rewrite Forall_forall in Hok.
  destruct (add_new_ok run entry n retained parts d1 [] changed Hws1) as (d2 & changed2 & E2 & Hws2 & Hrv2 & Hnew & Hsame & Hch2).
  { eapply entry_ready_frame; [exact (rv_entries _ _ _ _ Hrv1) | done]. } { done. } { by apply Forall_forall. } { done. } { by intros ? _ ?%not_elem_of_nil. }
  { intros p Hp Hnr. destruct (d_fields d1 !! _) as [row1|] eqn:Er; [exfalso|done]. fold e in Er.
    destruct (decide (field_id run (e_id entry) (pt_order p) ∈ fst <$> old)) as [Hx|Hx].
    - apply list_elem_of_fmap in Hx as ([id row] & Hid & Hx). cbn in Hid. subst id. pose proof (Hturn _ _ Hx) as Ht. unfold turned in Ht.
      destruct (part_for parts row) as [q|] eqn:Eq; [|destruct Ht as [Hx1 _]; discriminate (eq_trans (eq_sym Er) Hx1)]. destruct Ht as (_ & _ & Hqr). apply part_for_Some in Eq as (Hq & Hqo & _).
      apply Hold in Hx as [Hx _]. destruct (row_key d run (e_id entry) _ row Hws Hre Hx) as (o & k & Ho & Hord & _ & Hid & _).
      rewrite Hord in Hqo. apply show_key_inj in Hqo; [|by apply Hok | done]. subst o. apply Hnr. by rewrite (Hap p q Hp Hq Hid).
    - rewrite Hf1 in Er by done. apply Hx. apply list_elem_of_fmap. exists (field_id run (e_id entry) (pt_order p), row1). split; [done|].
      apply Hold. split; [done|]. exact (proj2 (proj1 (Hin _) (Hfree p row1 Hp Er))). }
  { done. }
  fold e in Hrv2, Hnew, Hsame. ok_by E2.
  assert (forall p, p ∈ parts -> pt_order p ∈ retained -> exists id row, (id, row) ∈ old /\ part_for parts row = Some p) as Hkept.
  { intros p Hp Hr. destruct (Hret' _ Hr) as (id & row & q & Hx & Eq & Ho). exists id, row. split; [done|]. rewrite Eq. f_equal.
    apply part_for_Some in Eq as (Hq & _ & _). by apply Huniq. }
  assert (forall p, p ∈ parts -> contents d2 !! (e, show_key (pt_order p)) = Some (field_code (pt_kind p), pt_text p)) as Hparts.
  { intros p Hp. destruct (decide (pt_order p ∈ retained)) as [Hr|Hr]; [|by apply Hnew].
    destruct (Hkept p Hp Hr) as (id & row & Hx & Ep). pose proof (Hturn _ _ Hx) as Ht. unfold turned in Ht. rewrite Ep in Ht. destruct Ht as (_ & Ht & _).
    apply part_for_Some in Ep as (_ & Hpo & _). rewrite <- Hpo in Ht. rewrite Hsame; [done|]. intros q Hq Hnr [= E]. fold e in E. apply Hnr.
    apply show_key_inj in E; [|by apply Hok..]. by rewrite <- E. }
  assert (contents d2 = shown_snapshot e output parts (contents d)) as Hcontents.
  { apply map_eq. intros place. unfold shown_snapshot.
    destruct (decide (Exists (fun p => place = (e, show_key (pt_order p))) parts)) as [(p & Hp & ->)%Exists_exists|Hno].
    - rewrite Hparts by done. symmetry. apply lookup_union_Some_l. apply part_places_lookup; [by apply Forall_forall | done | done].
    - assert (forall p, p ∈ parts -> place <> (e, show_key (pt_order p))) as Hnp by (intros p Hp Eq; apply Hno, Exists_exists; eauto).
      rewrite Hsame by auto. rewrite lookup_union_r by by apply part_places_none.
      destruct (decide (in_snapshot e output place)) as [Hp|Hp].
      + rewrite map_lookup_filter_None_2 by (right; intros kt _ Hx; by apply Hx). apply Hin in Hp as [He Hb]. destruct place as [e' o]. cbn in He, Hb. subst e'.
        destruct (contents d !! (e, o)) as [kt|] eqn:Ek.
        * pose proof Ek as Ek'. apply contents_lookup in Ek' as (id & row & Hr & Hro & _); [|done]. assert ((id, row) ∈ old) as Hx by (apply Hold; by rewrite Hro).
          pose proof (Hturn _ _ Hx) as Ht. unfold turned in Ht. rewrite Hro in Ht. destruct (part_for parts row) as [q|] eqn:Eq; [|by destruct Ht].
          apply part_for_Some in Eq as (Hq & Hqo & _). destruct (Hnp q Hq). by rewrite Hqo, Hro.
        * rewrite Hc1; [done|]. intros id row [Hr _]%Hold [= E]. by apply (contents_none _ _ _ Hws Ek id row Hr).
      + rewrite Hc1 by (intros id row [_ Hb]%Hold ->; apply Hp, Hin; by split).
        symmetry. apply option_eq. intros kt. rewrite map_lookup_filter_Some. naive_solver. }
  eexists d2, _. split; [reflexivity|]. split; [done|]. split; [by etransitivity|]. split; [done|].
  destruct changed2; [by left|right]. split; [done|]. destruct (Hch2 eq_refl) as [-> Hall]. destruct (Hch1 eq_refl) as [_ Hkeep].
  assert (forall o k t, contents d !! (e, o) = Some (k, t) -> exists t', contents d2 !! (e, o) = Some (k, t')) as Hstay.
  { intros o k t Ho. pose proof Ho as Ho'. apply contents_lookup in Ho' as (id & row & Hr & Hro & [= Hk _]); [|done].
    destruct (between lower upper o) eqn:Hb.
    - assert ((id, row) ∈ old) as Hx by (apply Hold; by rewrite Hro). destruct (part_for parts row) as [q|] eqn:Eq; [|by destruct (Hkeep _ _ Hx)].
      apply part_for_Some in Eq as (Hq & Hqo & Hqk). exists (pt_text q). rewrite <- Hro, <- Hqo, Hk, <- Hqk. by apply Hparts.
    - exists t. rewrite Hsame, Hc1; [done| |].
      + intros id' row' [_ Hb']%Hold [= E]. rewrite <- E in Hb'. congruence.
      + intros p Hp _ [= E]. destruct (proj1 (Hin _) (Hrange p Hp)) as [_ Hb']. cbn in Hb'. fold e in E. congruence. }
  split; [done|]. intros o o' Hnone [kt Hs]. exfalso. destruct (decide (Exists (fun p => o = show_key (pt_order p)) parts)) as [(p & Hp & ->)%Exists_exists|Hno].
  - destruct (Hkept p Hp (Hall p Hp)) as (id & row & [Hx _]%Hold & (_ & Hpo & _)%part_for_Some). by apply (contents_none _ _ _ Hws Hnone id row Hx).
  - rewrite Hcontents in Hs. unfold shown_snapshot in Hs. rewrite lookup_union_r in Hs by (apply part_places_none; intros p Hp [= ->]; apply Hno, Exists_exists; eauto).
    apply map_lookup_filter_Some in Hs as [Hs _]. congruence.
Qed.
End contents.
