(* ===== verification/Projector.v ===== *)
(** * The display projector (src/src/storage/conversation/projector.rs, projector/rows.rs, projector/runtime.rs)

    What each stored event does to the display rows: the block of a run, the entries
    of its human, of its turns, of its tool calls and of its notices, and their fields. *)
From stdpp Require Import sorting.
From S2P Require Import Prelude Json Errors Identifiers Provider Tools Replay RunData Records Store History Session RunStore Text Positions Chunks Projection Fields.

(** ** Headers and metadata, one field at a time *)
Definition bh_set_state (v : RunState) (h : BlockHeader) : BlockHeader :=
  mkHeader (bh_human h) v (bh_result_recorded h) (bh_outcome h) (bh_summary h) (bh_events_complete h) (bh_sink_error h) (bh_current_turn h) (bh_current_assistant h).
Definition bh_set_turn (turn assistant : option string) (h : BlockHeader) : BlockHeader :=
  mkHeader (bh_human h) (bh_state h) (bh_result_recorded h) (bh_outcome h) (bh_summary h) (bh_events_complete h) (bh_sink_error h) turn assistant.
Definition bh_set_outcome (o : Outcome.t) (summary : RunSummary) (h : BlockHeader) : BlockHeader :=
  mkHeader (bh_human h) (bh_state h) (bh_result_recorded h) (Some o) (Some summary) (bh_events_complete h) (bh_sink_error h) (bh_current_turn h) (bh_current_assistant h).
Definition bh_set_result (complete : bool) (sink : option RunSinkError) (h : BlockHeader) : BlockHeader :=
  mkHeader (bh_human h) (bh_state h) true (bh_outcome h) (bh_summary h) (Some complete) sink (bh_current_turn h) (bh_current_assistant h).

Definition em_set_state (v : State.t) (m : EntryMetadata) : EntryMetadata :=
  mkMetadata (em_source m) v (em_provisional m) (em_response_id m) (em_provenance m) (em_turn_id m) (em_request_id m) (em_reference m)
    (em_result_recorded m) (em_finish_recorded m) (em_is_error m) (em_finish_is_error m) (em_failure m) (em_upstream_outcome m) (em_closed m).
Definition em_set_provisional (v : bool) (m : EntryMetadata) : EntryMetadata :=
  mkMetadata (em_source m) (em_state m) v (em_response_id m) (em_provenance m) (em_turn_id m) (em_request_id m) (em_reference m)
    (em_result_recorded m) (em_finish_recorded m) (em_is_error m) (em_finish_is_error m) (em_failure m) (em_upstream_outcome m) (em_closed m).
Definition em_set_response (v : string) (m : EntryMetadata) : EntryMetadata :=
  mkMetadata (em_source m) (em_state m) (em_provisional m) (Some v) (em_provenance m) (em_turn_id m) (em_request_id m) (em_reference m)
    (em_result_recorded m) (em_finish_recorded m) (em_is_error m) (em_finish_is_error m) (em_failure m) (em_upstream_outcome m) (em_closed m).
Definition em_set_provenance (v : OutputProvenance) (m : EntryMetadata) : EntryMetadata :=
  mkMetadata (em_source m) (em_state m) (em_provisional m) (em_response_id m) (Some v) (em_turn_id m) (em_request_id m) (em_reference m)
    (em_result_recorded m) (em_finish_recorded m) (em_is_error m) (em_finish_is_error m) (em_failure m) (em_upstream_outcome m) (em_closed m).
Definition em_set_request (turn request : option string) (m : EntryMetadata) : EntryMetadata :=
  mkMetadata (em_source m) (em_state m) (em_provisional m) (em_response_id m) (em_provenance m) turn request (em_reference m)
    (em_result_recorded m) (em_finish_recorded m) (em_is_error m) (em_finish_is_error m) (em_failure m) (em_upstream_outcome m) (em_closed m).
Definition em_set_reference (v : string) (m : EntryMetadata) : EntryMetadata :=
  mkMetadata (em_source m) (em_state m) (em_provisional m) (em_response_id m) (em_provenance m) (em_turn_id m) (em_request_id m) (Some v)
    (em_result_recorded m) (em_finish_recorded m) (em_is_error m) (em_finish_is_error m) (em_failure m) (em_upstream_outcome m) (em_closed m).
Definition em_set_recorded (result finish error finish_error : option bool) (m : EntryMetadata) : EntryMetadata :=
  mkMetadata (em_source m) (em_state m) (em_provisional m) (em_response_id m) (em_provenance m) (em_turn_id m) (em_request_id m) (em_reference m)
    result finish error finish_error (em_failure m) (em_upstream_outcome m) (em_closed m).
Definition em_set_upstream (v : option UpstreamOutcome) (m : EntryMetadata) : EntryMetadata :=
  mkMetadata (em_source m) (em_state m) (em_provisional m) (em_response_id m) (em_provenance m) (em_turn_id m) (em_request_id m) (em_reference m)
    (em_result_recorded m) (em_finish_recorded m) (em_is_error m) (em_finish_is_error m) (em_failure m) v (em_closed m).
Definition em_set_failure (v : string) (m : EntryMetadata) : EntryMetadata :=
  mkMetadata (em_source m) (em_state m) (em_provisional m) (em_response_id m) (em_provenance m) (em_turn_id m) (em_request_id m) (em_reference m)
    (em_result_recorded m) (em_finish_recorded m) (em_is_error m) (em_finish_is_error m) (Some v) (em_upstream_outcome m) (em_closed m).
Definition em_set_closed (m : EntryMetadata) : EntryMetadata :=
  mkMetadata (em_source m) (em_state m) (em_provisional m) (em_response_id m) (em_provenance m) (em_turn_id m) (em_request_id m) (em_reference m)
    (em_result_recorded m) (em_finish_recorded m) (em_is_error m) (em_finish_is_error m) (em_failure m) (em_upstream_outcome m) true.
Definition with_metadata (f : EntryMetadata -> EntryMetadata) (e : Entry) : Entry :=
  mkEntry (e_id e) (e_epoch e) (e_revision e) (f (e_metadata e)).

(** [State::Accepted | State::InProgress | State::Unknown]. *)
Definition unsettled (s : State.t) : bool :=
  match s with State.Accepted | State.InProgress | State.Unknown => true | _ => false end.
(** [RecordedRunState::Accepted | RecordedRunState::Running]. *)
Definition open_state (s : RunState) : bool :=
  match s with RecordedRunState.Accepted | RecordedRunState.Running => true | _ => false end.
Definition is_notice (s : Source.t) : bool := match s with Source.Notice _ _ => true | _ => false end.
Definition is_reuse (s : Source.t) : bool := match s with Source.Reuse _ _ => true | _ => false end.
Definition is_tool (s : Source.t) : bool := match s with Source.Tool _ => true | _ => false end.

Section projector.
Context `{DisplaySerde}.
Notation Sql := (SM Rows StorageError).

(** ** Rows (rows.rs) *)

(** [encode] and [decode]. *)
Definition encode_header (h : BlockHeader) : SResult string := ok_or (header_to_json h) integrity.
Definition decode_header (text : string) : SResult BlockHeader :=
  if negb (starts_object text) then Err integrity else ok_or (header_from_json text) integrity.
Definition encode_metadata (m : EntryMetadata) : SResult string := ok_or (metadata_to_json m) integrity.
Definition decode_metadata (text : string) : SResult EntryMetadata :=
  if negb (starts_object text) then Err integrity else ok_or (metadata_from_json text) integrity.

(** [block]. *)
Definition block (run : string) (sequence : Z) (d : Rows) : SResult BlockHeader :=
  let? row := ok_or (d_blocks d !! run) integrity in
  let? accepted := unsigned (br_accepted_sequence row) in
  let? changed := unsigned (br_changed_sequence row) in
  let? header := decode_header (br_header_json row) in
  let? human := ok_or (parse_entry_id (bh_human header)) integrity in
  if (accepted =? 0) || negb (first_sequence human =? accepted) || negb (position_slot human =? 0)
     || (changed <? accepted) || (sequence <=? changed)
     || is_some_and (bh_outcome header) (fun o => match o with
                                                 | Outcome.Failed code => negb (bool_decide (safe_code code = code))
                                                 | _ => false
                                                 end)
  then Err integrity else Ok header.

(** [save_block]. *)
Definition save_block (run : string) (sequence : Z) (header : BlockHeader) : Sql unit :=
  let! changed := lift (integer sequence) in
  let! json := lift (encode_header header) in
  let! row := gets (fun d => d_blocks d !! run) in
  match row with
  | Some row => modify (fun d => with_blocks (<[run := mkBlockRow (br_accepted_sequence row) changed json]> (d_blocks d)) d)
  | None => throw integrity
  end.

(** [target >= id] of two entry identities. *)
Definition entry_le (a b : EntryId) : bool :=
  (first_sequence a <? first_sequence b) || ((first_sequence a =? first_sequence b) && (position_slot a <=? position_slot b)).

(** [entry_row]. *)
Definition metadata_wrong (run : string) (id : EntryId) (m : EntryMetadata) : bool :=
  let tool := is_tool (em_source m) || is_reuse (em_source m) in
  match em_source m with
  | Source.Reuse sequence slot | Source.Notice sequence slot =>
      negb (sequence =? first_sequence id) || negb (slot =? position_slot id)
  | _ => false
  end
  || negb (eqb tool (is_some (em_result_recorded m)))
  || negb (eqb tool (is_some (em_finish_recorded m)))
  || (is_reuse (em_source m) && negb (bool_decide (em_result_recorded m = Some true)))
  || (tool && bool_decide (em_result_recorded m = Some true) && is_none (em_is_error m))
  || negb (eqb (is_reuse (em_source m)) (is_some (em_reference m)))
  || (negb tool && (is_some (em_is_error m) || is_some (em_finish_is_error m))).
Definition entry_row (run : string) (sequence : Z) (entry_id : string) (row : EntryRow) : SResult Entry :=
  let? id := ok_or (parse_entry_id entry_id) integrity in
  let? first := unsigned (er_first_sequence row) in
  let? slot := unsigned (er_position_slot row) in
  let? changed := unsigned (er_changed_sequence row) in
  let? epoch := unsigned (er_content_epoch row) in
  let? m := decode_metadata (er_metadata_json row) in
  let? key := entry_key run (em_source m) in
  if negb (first_sequence id =? first) || negb (position_slot id =? slot) || (epoch <? first) || (changed <? epoch)
     || (sequence <? changed) || negb (bool_decide (er_source_key row = key)) || negb (bool_decide (er_kind row = Source.kind (em_source m)))
     || is_some_and (em_failure m) (fun code => negb (bool_decide (safe_code code = code)))
  then Err integrity
  else if metadata_wrong run id m then Err integrity
  else
    check? match em_reference m with
           | Some reference =>
               let? target := ok_or (parse_entry_id reference) integrity in
               if entry_le id target then Err integrity else Ok tt
           | None => Ok tt
           end in
    Ok (mkEntry id epoch changed m).

(** [lookup]. *)
Definition find_source (run key : string) (d : Rows) : option (EntryRef * EntryRow) :=
  List.find (fun kr => bool_decide (fst (fst kr) = run) && bool_decide (er_source_key (snd kr) = key)) (map_to_list (d_entries d)).
Definition lookup_entry (run : string) (sequence : Z) (source : Source.t) (d : Rows) : SResult (option Entry) :=
  let? key := entry_key run source in
  match find_source run key d with
  | None => Ok None
  | Some (ref, row) =>
      let? entry := entry_row run sequence (snd ref) row in
      if negb (bool_decide (em_source (e_metadata entry) = source)) then Err integrity else Ok (Some entry)
  end.

(** INSERT INTO conversation_entries; a digest always has its 32 bytes. *)
Definition insert_entry (ref : EntryRef) (row : EntryRow) : Sql unit :=
  do! require_constraint (fun d => (0 <=? er_position_slot row) && one_of (er_kind row) ["human"; "assistant"; "tool"; "reuse"; "notice"]
        && is_none (d_entries d !! ref)
        && bool_decide (map_Forall (fun k r => fst k = fst ref -> er_source_key r <> er_source_key row
             /\ (er_first_sequence r, er_position_slot r) <> (er_first_sequence row, er_position_slot row)) (d_entries d))) in
  modify (fun d => with_entries (<[ref := row]> (d_entries d)) d).

(** [create]. *)
Definition create (run : string) (sequence : Z) (metadata : EntryMetadata) : Sql Entry :=
  let! old := reads (lookup_entry run sequence (em_source metadata)) in
  if is_some old then throw integrity
  else
    let! id := lift (ok_or (new_entry_id sequence 0) integrity) in
    let! key := lift (entry_key run (em_source metadata)) in
    let! n := lift (integer sequence) in
    let! json := lift (encode_metadata metadata) in
    do! insert_entry (run, show_entry_id id) (mkEntryRow key n 0 n n (Source.kind (em_source metadata)) json) in
    ret (mkEntry id sequence sequence metadata).

(** [save]. *)
Definition save (run : string) (sequence : Z) (entry : Entry) : Sql unit :=
  let ref := (run, show_entry_id (e_id entry)) in
  let! changed := lift (integer sequence) in
  let! epoch := lift (integer (e_epoch entry)) in
  let! json := lift (encode_metadata (e_metadata entry)) in
  let! key := lift (entry_key run (em_source (e_metadata entry))) in
  let! row := gets (fun d => d_entries d !! ref) in
  match row with
  | Some row =>
      if bool_decide (er_source_key row = key)
      then modify (fun d => with_entries (<[ref := mkEntryRow (er_source_key row) (er_first_sequence row) (er_position_slot row)
                                                     changed epoch (er_kind row) json]> (d_entries d)) d)
      else throw integrity
  | None => throw integrity
  end.

(** ** Settling (runtime.rs) *)

(** The next provisional entry of an assistant or a tool after a position. *)
Definition entry_before (a b : EntryRef * EntryRow) : Prop :=
  er_first_sequence (snd a) < er_first_sequence (snd b)
  \/ (er_first_sequence (snd a) = er_first_sequence (snd b) /\ er_position_slot (snd a) <= er_position_slot (snd b)).
#[local] Instance entry_before_dec a b : Decision (entry_before a b).
Proof. unfold entry_before. apply _. Defined.
Definition is_after (after : Z * Z) (r : EntryRow) : bool :=
  (fst after <? er_first_sequence r) || ((er_first_sequence r =? fst after) && (snd after <? er_position_slot r)).
Definition next_provisional (run : string) (after : Z * Z) (d : Rows) : option (EntryRef * EntryRow) :=
  head (merge_sort entry_before
    (List.filter (fun kr => bool_decide (fst (fst kr) = run) && is_after after (snd kr)
        && one_of (er_kind (snd kr)) ["assistant"; "tool"] && json_provisional (er_metadata_json (snd kr)))
      (map_to_list (d_entries d)))).

(** [settle]. *)
Definition settled_metadata (state : State.t) (m : EntryMetadata) : EntryMetadata :=
  if is_tool (em_source m) then em_set_state State.Unknown m
  else if unsettled (em_state m) then em_set_state state m
  else m.
Fixpoint settle_from (fuel : nat) (run : string) (sequence : Z) (state : State.t) (after : Z * Z) : Sql unit :=
  match fuel with
  | O => throw integrity
  | S fuel =>
      let! row := gets (next_provisional run after) in
      match row with
      | None => ret tt
      | Some (ref, row) =>
          let! entry := lift (entry_row run sequence (snd ref) row) in
          do! save run sequence (with_metadata (settled_metadata state) entry) in
          let! first := lift (integer (first_sequence (e_id entry))) in
          let! slot := lift (integer (position_slot (e_id entry))) in
          settle_from fuel run sequence state (first, slot)
      end
  end.
(** The loop visits an entry at most once, so it ends within as many steps as there are entries. *)
Definition settle (run : string) (sequence : Z) (state : State.t) : Sql unit :=
  let! n := gets (fun d => size (d_entries d)) in
  settle_from (S n) run sequence state (0, 0).

(** ** Events of a run (runtime.rs) *)
Definition current_turn (header : BlockHeader) (event : RunEventEnvelope) : SResult string :=
  let? turn := ok_or (bh_current_turn header) integrity in
  if negb (bool_decide (ev_turn_id event = Some turn)) then Err integrity else Ok turn.

(** [assistant]. *)
Definition assistant (run : string) (sequence : Z) (turn response_id : string) (expected : option string) : Sql Entry :=
  let source := Source.Assistant turn in
  let! entry := reads (lookup_entry run sequence source) in
  match entry with
  | Some entry => if negb (bool_decide (expected = Some (show_entry_id (e_id entry)))) then throw integrity else ret entry
  | None =>
      if is_some expected then throw integrity
      else create run sequence (em_set_response response_id (new_metadata source State.InProgress true))
  end.

(** [observation]. *)
Definition failed_metadata (failure : option (string * UpstreamOutcome)) (m : EntryMetadata) : EntryMetadata :=
  match failure with
  | Some (code, upstream) =>
      let m := em_set_upstream (Some upstream) (em_set_failure code m) in
      if em_provisional m || is_notice (em_source m) then em_set_state State.Failed m else m
  | None => m
  end.
Definition closed_metadata (m : EntryMetadata) : EntryMetadata :=
  let m := em_set_closed m in
  if em_provisional m && is_none (em_failure m) then em_set_state State.Unknown m else m.
Definition observed_metadata (failure : option (string * UpstreamOutcome)) (closed : bool) (m : EntryMetadata) : EntryMetadata :=
  let m := failed_metadata failure m in if closed then closed_metadata m else m.
Definition observation (run : string) (sequence : Z) (header : BlockHeader) (envelope : RunEventEnvelope)
    (failure : option (string * UpstreamOutcome)) (closed : bool) : Sql unit :=
  let! current := match current_turn header envelope with
                  | Ok turn =>
                      let! entry := reads (lookup_entry run sequence (Source.Assistant turn)) in
                      if negb (bool_decide ((fun e => show_entry_id (e_id e)) <$> entry = bh_current_assistant header))
                      then throw integrity else ret entry
                  | Err _ => ret None
                  end in
  let! entry := match current with
                | Some entry => ret entry
                | None => create run sequence (new_metadata (Source.Notice sequence 0) State.Unknown false)
                end in
  let entry := with_metadata (observed_metadata failure closed) entry in
  let! entry := delta run entry sequence
                  (mkDisplay (mkOrderKey None Notice None (Some sequence)) FieldKind.Notice
                     (if closed then "Response closed" else "Request failed")) in
  save run sequence entry.

(** The parts of a projection with their orders; the index of an output is a [u64]. *)
Fixpoint ordered_parts (fields : list ResponseField) : SResult (list Part) :=
  match fields with
  | [] => Ok []
  | f :: fields =>
      let? output := ok_or (u64_try_from (rf_output_index f)) integrity in
      let? order := ok_or (part_order output (dp_source (rf_part f))) integrity in
      let? rest := ordered_parts fields in
      Ok (mkDisplay order (dp_kind (rf_part f)) (dp_text (rf_part f)) :: rest)
  end.

(** What the events that carry a response do to its entry. *)
Definition response_event (run : string) (sequence : Z) (entry : Entry) (event : ProviderEvent) : Sql Entry :=
  match event with
  | PResponseStarted _ => ret entry
  | PResponseStatus _ status => ret (with_metadata (em_set_state (State.status status)) entry)
  | POutputItemUpdated _ _ output_index content_index summary_index kind text =>
      let '(order, field_kind) := delta_field output_index summary_index content_index kind in
      delta run entry sequence
        (mkDisplay order field_kind (if bool_decide (field_kind = FieldKind.Unsupported) then "Unsupported content" else text))
  | POutputItemStarted _ output_index item | POutputItemFinished _ output_index item =>
      let! parts := lift (ordered_parts (mkField output_index <$> project_item item)) in
      snapshot run entry sequence (Some output_index) parts
  | PResponseFinished response =>
      let! parts := lift (ordered_parts (project_response response)) in
      let! entry := snapshot run entry sequence None parts in
      ret (with_metadata (fun m => em_set_provenance (output_provenance response)
             (em_set_provisional false (em_set_state (State.response (outcome response)) m))) entry)
  | _ => throw integrity
  end.
Definition changes_content (event : ProviderEvent) : bool :=
  match event with
  | POutputItemUpdated _ _ _ _ _ _ _ | POutputItemStarted _ _ _ | POutputItemFinished _ _ _ => true
  | _ => false
  end.

(** [provider_event], which returns the header it changes. *)
Definition provider_event (run : string) (sequence : Z) (header : BlockHeader) (envelope : RunEventEnvelope) (event : ProviderEvent)
  : Sql BlockHeader :=
  let responds (response_id : string) : Sql BlockHeader :=
    let! turn := lift (current_turn header envelope) in
    let! entry := assistant run sequence turn response_id (bh_current_assistant header) in
    let header := bh_set_turn (bh_current_turn header) (Some (show_entry_id (e_id entry))) header in
    let entry := with_metadata (em_set_response response_id) entry in
    let entry := if changes_content event
                 then with_metadata (fun m => em_set_state State.InProgress (em_set_provisional true m)) entry
                 else entry in
    let! entry := response_event run sequence entry event in
    do! save run sequence entry in
    ret header in
  match event with
  | PResponseStarted id | PResponseStatus id _ | POutputItemStarted id _ _ | POutputItemUpdated id _ _ _ _ _ _
  | POutputItemFinished id _ _ => responds id
  | PResponseFinished response => responds (Provider.response_id response)
  | PRequestFailed code _ upstream =>
      do! observation run sequence header envelope (Some (safe_code code, upstream)) false in ret header
  | PSessionClosed _ => do! observation run sequence header envelope None true in ret header
  | PProviderExtension _ _ =>
      let! entry := create run sequence (new_metadata (Source.Notice sequence 0) State.Unknown false) in
      do! delta run entry sequence (mkDisplay (mkOrderKey None Unsupported None None) FieldKind.Unsupported "Unsupported content") in
      ret header
  end.

Definition tool_order (rank : FieldRank) : OrderKey := mkOrderKey None rank None None.

(** [tool_event]. *)
Definition tool_event (run : string) (sequence : Z) (envelope : RunEventEnvelope) (event : ToolExecutionEvent) : Sql unit :=
  let recorded (call_id tool_name : string) : Sql Entry :=
    let! entry := reads (lookup_entry run sequence (Source.Tool call_id)) in
    let! entry := lift (ok_or entry integrity) in
    let! key := lift (new_key run (e_id entry) (FieldOrder.Indexed (tool_order ToolName)) FieldKind.ToolName) in
    let! same := reads (same_text key entry tool_name) in
    if negb same then throw integrity else ret entry in
  match event with
  | ToolExecutionStarted call_id tool_name =>
      let metadata := em_set_recorded (Some false) (Some false) None None
        (em_set_request (ev_turn_id envelope) (ev_request_id envelope) (new_metadata (Source.Tool call_id) State.InProgress true)) in
      let! entry := create run sequence metadata in
      do! delta run entry sequence (mkDisplay (tool_order ToolName) FieldKind.ToolName tool_name) in
      ret tt
  | ToolExecutionFinished call_id tool_name is_error =>
      let! entry := recorded call_id tool_name in
      let m := e_metadata entry in
      if negb (bool_decide (em_finish_recorded m = Some false)) || negb (bool_decide (em_turn_id m = ev_turn_id envelope))
         || negb (bool_decide (em_request_id m = ev_request_id envelope))
      then throw integrity
      else
        let first := bool_decide (em_result_recorded m = Some false) in
        let m := em_set_recorded (em_result_recorded m) (Some true) (if first then Some is_error else em_is_error m) (Some is_error) m in
        save run sequence (with_metadata (fun _ => if first then em_set_state State.Unknown m else m) entry)
  | ToolResultReused call_id tool_name =>
      let! entry := recorded call_id tool_name in
      let m := e_metadata entry in
      if negb (bool_decide (em_result_recorded m = Some true)) then throw integrity
      else
        do! create run sequence
              (em_set_recorded (em_result_recorded m) (em_finish_recorded m) (em_is_error m) (em_finish_is_error m)
                (em_set_request (ev_turn_id envelope) (ev_request_id envelope)
                  (em_set_reference (show_entry_id (e_id entry)) (new_metadata (Source.Reuse sequence 0) (em_state m) false)))) in
        ret tt
  end.

(** [observe]. *)
Definition observe (run : string) (sequence : Z) (event : RunEventEnvelope) : Sql unit :=
  if negb (bool_decide (ev_run_id event = run)) || negb (ev_schema_version event =? 2) then throw integrity
  else
    let! header := reads (block run sequence) in
    if negb (open_state (bh_state header)) then throw integrity
    else
      let! header :=
        match ev_event event with
        | RunStarted =>
            if negb (bool_decide (bh_state header = RecordedRunState.Accepted)) then throw integrity
            else ret (bh_set_state RecordedRunState.Running header)
        | TurnStarted _ =>
            if is_some (bh_current_turn header) then throw integrity
            else let! turn := lift (ok_or (ev_turn_id event) integrity) in ret (bh_set_turn (Some turn) None header)
        | TurnFinished _ _ outcome upstream =>
            let! turn := lift (current_turn header event) in
            let! entry := reads (lookup_entry run sequence (Source.Assistant turn)) in
            if negb (bool_decide ((fun e => show_entry_id (e_id e)) <$> entry = bh_current_assistant header)) then throw integrity
            else
              do! match entry with
                  | Some entry =>
                      if em_provisional (e_metadata entry) then
                        let m := e_metadata entry in
                        let m := match outcome with
                                 | Stopped reason => if unsettled (em_state m) then em_set_state (State.unfinished reason) m else m
                                 | _ => m
                                 end in
                        save run sequence (with_metadata (fun _ => em_set_upstream upstream m) entry)
                      else ret tt
                  | None => ret tt
                  end in
              ret (bh_set_turn None None header)
        | RunFinished outcome summary =>
            let view := Outcome.new outcome in
            let header := bh_set_turn None None (bh_set_outcome view summary (bh_set_state (Outcome.state view) header)) in
            do! settle run sequence (State.unfinished outcome) in
            ret header
        | EProviderEvent provider =>
            if negb (env_schema_version provider =? 1) then throw integrity
            else provider_event run sequence header event (env_event provider)
        | EToolEvent tool =>
            do! lift (current_turn header event) in
            do! tool_event run sequence event tool in
            ret header
        end in
      save_block run sequence header.

(** [tool_result]. *)
Definition tool_result (run : string) (sequence : Z) (request : option string) (call output : string) (is_error : bool) : Sql unit :=
  let! header := reads (block run sequence) in
  if negb (bool_decide (bh_state header = RecordedRunState.Running)) then throw integrity
  else
    let! entry := reads (lookup_entry run sequence (Source.Tool call)) in
    let! entry := lift (ok_or entry integrity) in
    let m := e_metadata entry in
    if negb (bool_decide (em_result_recorded m = Some false)) || negb (bool_decide (em_request_id m = request)) then throw integrity
    else
      let! key := lift (new_key run (e_id entry) (FieldOrder.Indexed (tool_order ToolOutput)) FieldKind.ToolResult) in
      do! insert_field key sequence output in
      save run sequence (with_metadata (fun m =>
        em_set_state (if is_error then State.Failed else State.Completed) (em_set_provisional false
          (em_set_recorded (Some true) (em_finish_recorded m) (Some is_error) (em_finish_is_error m) m))) entry).

(** ** Events of a session (projector.rs) *)

(** [accept]. *)
Definition insert_block (run : string) (row : BlockRow) : Sql unit :=
  do! require_constraint (fun d => is_none (d_blocks d !! run)
        && bool_decide (map_Forall (fun _ r => br_accepted_sequence r <> br_accepted_sequence row) (d_blocks d))) in
  modify (fun d => with_blocks (<[run := row]> (d_blocks d)) d).
Definition accept (run : string) (sequence : Z) (input : RecordedRunInput) : Sql unit :=
  let! id := lift (ok_or (new_entry_id sequence 0) integrity) in
  let header := mkHeader (show_entry_id id) RecordedRunState.Accepted false None None None None None None in
  let! n := lift (integer sequence) in
  let! json := lift (encode_header header) in
  do! insert_block run (mkBlockRow n n json) in
  let! entry := create run sequence (new_metadata Source.Human State.Accepted false) in
  let! key := lift (new_key run (e_id entry) FieldOrder.Human FieldKind.Text) in
  do! insert_field key sequence (user_text input) in
  ret tt.

(** What [apply] does for an event of a run. *)
Definition project (run : string) (sequence : Z) (input : Input.t) : Sql unit :=
  match input with
  | Input.Accepted input => accept run sequence input
  | Input.HistorySelected | Input.ProviderBound => do! reads (block run sequence) in ret tt
  | Input.Runtime event => observe run sequence event
  | Input.ToolResult request call output is_error => tool_result run sequence request call output is_error
  | Input.Result result =>
      if negb (bool_decide (res_run_id result = run)) then throw integrity
      else
        let! header := reads (block run sequence) in
        if bh_result_recorded header || bool_decide (bh_state header = RecordedRunState.Interrupted) then throw integrity
        else
          let view := Outcome.new (res_outcome result) in
          if is_some_and (bh_outcome header) (fun old => negb (bool_decide (old = view)))
             || (is_none (bh_outcome header) && res_events_complete result)
          then throw integrity
          else
            let header := bh_set_turn None None (bh_set_result (res_events_complete result) (res_sink_error result)
                            (bh_set_outcome view (res_summary result) (bh_set_state (Outcome.state view) header))) in
            do! settle run sequence (State.unfinished (res_outcome result)) in
            save_block run sequence header
  | Input.Interrupted =>
      let! header := reads (block run sequence) in
      if negb (open_state (bh_state header)) then throw integrity
      else
        do! settle run sequence State.Interrupted in
        save_block run sequence (bh_set_turn None None (bh_set_state RecordedRunState.Interrupted header))
  | Input.Created | Input.Renamed => throw integrity
  end.

(** An error leaves the rows of the transaction as they were. *)
#[export] Instance rows_display : Display Rows := {|
  display_step run sequence input d := match project run sequence input d with (Ok _, d') => Ok d' | (Err e, _) => Err e end;
  empty_display := mkRows ∅ ∅ ∅ ∅
|}.
End projector.
