(* ===== verification/Shown.v ===== *)
(** * What the projector shows

    The invariant of the display rows, what one event may change of what a reader has
    seen, and what is shown after a response and after the end of a run. *)
From stdpp Require Import sorting.
From S2P Require Import Prelude Json Errors Identifiers Provider Tools Replay RunData Records Store History Session RunStore Text Positions Chunks Projection Fields Contents Projector.

(** No two places of an entry have the same digest. *)
Class DigestLaws `{DisplaySerde} : Prop := {
  field_digest run e o o' h : hash_tuple (FieldTuple 1 "wi.conversation.field" run e o) = Some h ->
    hash_tuple (FieldTuple 1 "wi.conversation.field" run e o') = Some h -> o = o'
}.

(** ** Orders *)
Lemma range_between i k : u64_key k -> ok_output k = Some i ->
  between (fst (output_range i)) (snd (output_range i)) (show_key k) = true.
Proof.
  intros _ Ho. unfold between, output_range. cbn [fst snd]. unfold show_key. rewrite Ho. unfold colon at 1. set (rest := colon _ _). unfold colon at 1.
  rewrite !compare_app, !compare_refl by done. cbn [then_compare]. by destruct rest.
Qed.

Lemma all_between k : u64_key k -> between EmptyString "~" (show_key k) = true.
Proof. intros _. unfold between, show_key. destruct (ok_output k); done. Qed.

Lemma placed_content k : u64_option (ok_content k) -> u64_option (if bool_decide (ok_rank k = Fallback) then None else ok_content k).
Proof. intros Hk. destruct (bool_decide _); [by intros n [=] | done]. Qed.

(** The spelling of a key gives back all of it but where a fallback is placed. *)
Lemma spelling_inj a b : u64_key a -> u64_key b -> source_spelling a = source_spelling b ->
  ok_output a = ok_output b /\ ok_rank a = ok_rank b /\ (ok_rank a = Fallback \/ a = b).
Proof.
  intros (Ho & Hs & Hc) (Ho' & Hs' & Hc'). unfold source_spelling.
  set (ca := if bool_decide (ok_rank a = Fallback) then None else ok_content a). set (cb := if bool_decide (ok_rank b = Fallback) then None else ok_content b).
  assert (u64_option ca /\ u64_option cb) as [Hca Hcb] by (split; by apply placed_content).
  assert (forall r, no_colon (decimal (rank_code r)) = true) as Hd by (intros; apply digits_no_colon, decimal_digits).
  assert (forall v w, u64_option v -> u64_option w -> component v = component w -> v = w) as Hcomp.
  { intros v w Hv Hw E%(f_equal parse_component). rewrite (proj2 (parse_component_Some _ _) (conj Hv eq_refl)), (proj2 (parse_component_Some _ _) (conj Hw eq_refl)) in E. congruence. }
  intros E%(f_equal split_all). rewrite !split_all_colon in E by (try apply Hd; by apply component_no_colon).
  rewrite !split_all_one in E by by apply component_no_colon. injection E as E1%Hcomp E2 E3%Hcomp E4%Hcomp; try done.
  assert (ok_rank a = ok_rank b) as Hr.
  { apply decimal_inj in E2; [|by destruct (ok_rank a) | by destruct (ok_rank b)]. by destruct (ok_rank a), (ok_rank b). }
  split; [done|]. split; [done|]. destruct (decide (ok_rank a = Fallback)) as [Hf|Hf]; [by left|right].
  unfold ca, cb in E4. rewrite <- Hr, bool_decide_eq_false_2 in E4 by done. destruct a, b. simpl in *. congruence.
Qed.

Lemma hex_bytes_inj a b : hex_bytes a = hex_bytes b -> a = b.
Proof.
  revert b. induction a as [|x a IH]; intros [|y b] E; [done|by apply (f_equal String.length) in E; cbn [hex_bytes] in E; rewrite string_length_app, hex_digits_length in E..|].
  cbn [hex_bytes] in E. apply append_cancel in E as [E1 E2]; [|by rewrite !hex_digits_length]. f_equal; [|by apply IH].
  apply (f_equal (digits_value 16 0)) in E1. 
  rewrite !hex_digits_value in E1; [|pose proof (Ascii.nat_ascii_bounded y); change (16 ^ Z.of_nat 2) with 256; lia|pose proof (Ascii.nat_ascii_bounded x); change (16 ^ Z.of_nat 2) with 256; lia].
  rewrite <- (Ascii.ascii_nat_embedding x), <- (Ascii.ascii_nat_embedding y). f_equal. lia.
Qed.

Section shown.
Context `{DisplaySerde} {laws : DisplayLaws} {digests : DigestLaws}.
#[local] Set Default Proof Using "All".

Lemma field_id_spelling run e o o' : field_id run e o = field_id run e o' -> source_spelling o = source_spelling o'.
Proof.
  unfold field_id, field_key.
  destruct (hash_total (FieldTuple 1 "wi.conversation.field" run (show_entry_id e) (source_spelling o))) as [h Hh].
  destruct (hash_total (FieldTuple 1 "wi.conversation.field" run (show_entry_id e) (source_spelling o'))) as [h' Hh'].
  rewrite Hh, Hh'. cbn [ok_or]. intros ->%hex_bytes_inj. exact (field_digest _ _ _ _ _ Hh Hh').
Qed.

Lemma apart_ok d run e o : well_stored d -> entry_ready d run e -> u64_key o -> ok_rank o <> Fallback -> apart d run e o.
Proof.
  intros Hws Hre Ho Hf row Hr. destruct (row_key d run e _ row Hws Hre Hr) as (o' & k & Ho' & Hord & _ & Hid & _).
  apply field_id_spelling in Hid. apply spelling_inj in Hid as (_ & _ & [?|<-]); done.
Qed.

(** The parts of a projection are fit for a snapshot. *)
Lemma parts_fit d run e output parts : well_stored d -> entry_ready d run e -> Forall part_ok parts ->
  NoDup (pt_order <$> parts) ->
  (forall p q, p ∈ parts -> q ∈ parts -> ok_rank (pt_order p) = Fallback -> ok_rank (pt_order q) = Fallback -> pt_order p = pt_order q) ->
  (forall i p, output = Some i -> p ∈ parts -> ok_output (pt_order p) = Some i) ->
  snapshot_parts d run e output parts.
Proof.
  intros Hws Hre Hok Hnd Hfall Hout. assert (forall p, p ∈ parts -> part_ok p) as Hpo by by apply Forall_forall.
  assert (forall o, u64_key o -> (forall i, output = Some i -> ok_output o = Some i) ->
    in_snapshot (run, show_entry_id e) output ((run, show_entry_id e), show_key o)) as Hrange.
  { intros o Ho Hi. split; [done|]. destruct output as [i|]; [by apply range_between, Hi | by apply all_between]. }
  split; [done| |done| |].
  - intros p Hp. apply Hrange; [by apply Hpo | intros i Hi; by apply (Hout i)].
  - intros p q Hp Hq E%field_id_spelling. apply spelling_inj in E as (_ & Hr & [Hf| ->]); [|done|by apply Hpo..].
    apply Hfall; [done | done | done | by rewrite <- Hr].
  - intros p row Hp Hr. destruct (row_key d run e _ row Hws Hre Hr) as (o & k & Ho & Hord & _ & Hid & _). rewrite Hord.
    apply field_id_spelling in Hid. apply spelling_inj in Hid as (Hoo & _ & _); [|by apply Hpo|done].
    apply Hrange; [done|]. intros i Hi. rewrite <- Hoo. by apply (Hout i).
Qed.

(** ** The invariant *)

(** Metadata that the reader of an entry accepts. *)
Definition entry_valid (run : string) (id : EntryId) (m : EntryMetadata) : Prop :=
  metadata_wrong run id m = false /\
  (forall code, em_failure m = Some code -> safe_code code = code) /\
  (forall r, em_reference m = Some r -> exists target, parse_entry_id r = Some target /\ entry_le id target = false).

(** The entry of a tool call shows the name of the tool and its output. *)
Definition tool_places (d : Rows) (e : EntryRef) (m : EntryMetadata) : Prop :=
  match em_source m with
  | Source.Tool _ => forall fid row, d_fields d !! (e, fid) = Some row ->
      fr_order_key row = show_key (tool_order ToolName) \/ fr_order_key row = show_key (tool_order ToolOutput)
  | _ => True
  end.

(** The row of an entry, whose fields are no newer than it. *)
Record entry_at (d : Rows) (n : Z) (run : string) (id : EntryId) (m : EntryMetadata) (row : EntryRow) : Prop := {
  ea_row : d_entries d !! (run, show_entry_id id) = Some row;
  ea_id : entry_id_ok id /\ position_slot id <= i64_max;
  ea_first : er_first_sequence row = first_sequence id;
  ea_slot : er_position_slot row = position_slot id;
  ea_epoch : first_sequence id <= er_content_epoch row <= er_changed_sequence row;
  ea_changed : er_changed_sequence row <= n;
  ea_json : metadata_to_json m = Some (er_metadata_json row);
  ea_key : entry_key run (em_source m) = Ok (er_source_key row);
  ea_kind : er_kind row = Source.kind (em_source m);
  ea_valid : entry_valid run id m;
  ea_fields : generations d (run, show_entry_id id) (er_changed_sequence row);
  ea_tool : tool_places d (run, show_entry_id id) m
}.

Record block_at (n : Z) (row : BlockRow) (h : BlockHeader) : Prop := {
  ba_json : header_to_json h = Some (br_header_json row);
  ba_human : parse_entry_id (bh_human h) = Some (mkEntryId (br_accepted_sequence row) 0);
  ba_order : 0 < br_accepted_sequence row <= br_changed_sequence row;
  ba_changed : br_changed_sequence row <= n;
  ba_outcome o : bh_outcome h = Some o -> match o with Outcome.Failed code => safe_code code = code | _ => True end
}.

Record displayed (d : Rows) (n : Z) : Prop := {
  dp_stored : well_stored d;
  dp_entries run id row : d_entries d !! (run, id) = Some row -> exists eid m, id = show_entry_id eid /\ entry_at d n run eid m row;
  dp_sources run id id' row row' : d_entries d !! (run, id) = Some row -> d_entries d !! (run, id') = Some row' ->
    er_source_key row = er_source_key row' -> id = id';
  dp_blocks run row : d_blocks d !! run = Some row -> exists h, block_at n row h
}.

Lemma empty_displayed : displayed (mkRows ∅ ∅ ∅ ∅) 0.
Proof using Type. split; [split|..]; try done; intros *; by rewrite ?lookup_empty. Qed.

Lemma parse_shown id : entry_id_ok id -> parse_entry_id (show_entry_id id) = Some id.
Proof using Type. intros Hid. by apply parse_entry_id_Some. Qed.

Lemma entry_row_ok d n s run id m row : entry_at d n run id m row -> n <= s -> s <= i64_max ->
  entry_row run s (show_entry_id id) row = Ok (mkEntry id (er_content_epoch row) (er_changed_sequence row) m).
Proof.
  intros [Hr [Hid Hslot] Hf Hs He Hc Hj Hk Hki (Hw & Hfail & Href) _ _] Hn Hmax. unfold entry_row. rewrite parse_shown by done. cbn [ok_or].
  destruct Hid as [? ?]. rewrite Hf, Hs, !unsigned_ok by lia.
  unfold decode_metadata. destruct (metadata_round _ _ Hj) as [-> ->]. cbn [negb ok_or]. rewrite Hk, !Z.eqb_refl.
  rewrite (proj2 (Z.ltb_ge _ _)), (proj2 (Z.ltb_ge _ _)), (proj2 (Z.ltb_ge _ _)) by lia. rewrite !bool_decide_eq_true_2 by done. cbn [negb orb].
  assert (is_some_and (em_failure m) (fun code => negb (bool_decide (safe_code code = code))) = false) as ->.
  { destruct (em_failure m) as [code|]; [|done]. cbn. by rewrite bool_decide_eq_true_2 by auto. }
  rewrite Hw. destruct (em_reference m) as [r|]; [|done]. destruct (Href r eq_refl) as (t & Hp & Hle). rewrite Hp. cbn [ok_or]. by rewrite Hle.
Qed.

Lemma find_source_found run key d ref row : find_source run key d = Some (ref, row) ->
  fst ref = run /\ d_entries d !! ref = Some row /\ er_source_key row = key.
Proof using Type.
  intros [Hin%list_elem_of_In Hp]%List.find_some. prop_bools. apply elem_of_map_to_list in Hin. done.
Qed.

Lemma find_source_none run key d : find_source run key d = None -> forall id row, d_entries d !! (run, id) = Some row -> er_source_key row <> key.
Proof using Type.
  intros Hn id row Hr Hk. pose proof (List.find_none _ _ Hn ((run, id), row)) as Hx. cbn in Hx.
  rewrite !bool_decide_eq_true_2 in Hx by done. discriminate Hx. apply list_elem_of_In. by apply elem_of_map_to_list.
Qed.

Lemma lookup_found d n s run source entry : displayed d n -> n <= s -> s <= i64_max ->
  lookup_entry run s source d = Ok (Some entry) ->
  exists row, entry_at d n run (e_id entry) (e_metadata entry) row /\ e_epoch entry = er_content_epoch row /\
    e_revision entry = er_changed_sequence row /\ em_source (e_metadata entry) = source.
Proof.
  intros Hd Hn Hmax. unfold lookup_entry. destruct (entry_key run source) as [key|]; [|done]. destruct (find_source run key d) as [[[run' id] row]|] eqn:E; [|done].
  apply find_source_found in E as (Hrun & Hr & _). cbn in Hrun. subst run'. destruct (dp_entries _ _ Hd _ _ _ Hr) as (eid & m & -> & Hat).
  cbn [snd]. rewrite (entry_row_ok _ _ _ _ _ _ _ Hat Hn Hmax). cbn [e_metadata]. destruct (bool_decide (em_source m = source)) eqn:Es; [|done]. prop_bools.
  intros [= <-]. by exists row.
Qed.

Lemma lookup_none run s source d : lookup_entry run s source d = Ok None ->
  exists key, entry_key run source = Ok key /\ forall id row, d_entries d !! (run, id) = Some row -> er_source_key row <> key.
Proof using Type.
  unfold lookup_entry. destruct (entry_key run source) as [key|]; [|done]. destruct (find_source run key d) as [[ref row]|] eqn:E.
  - destruct (entry_row _ _ _ _); [|done]. by destruct (bool_decide _).
  - intros _. exists key. split; [done|]. by apply find_source_none.
Qed.

Lemma entry_at_ready d n run id m row : entry_at d n run id m row -> n <= i64_max -> em_source m <> Source.Human -> entry_ready d run id.
Proof.
  intros [Hr [Hid Hslot] Hf Hs He Hc _ _ Hk _ _ _] Hmax Hh. destruct Hid as [? ?]. exists row. split_and!; try done; try lia.
  rewrite Hk. destruct (em_source m); [done|set_solver..].
Qed.

(** ** What one event changes *)

(** The entries keep their places, their sources and their kinds; one that is not marked with
    the number of the event is as it was, one whose epoch is not the event's is stable, and
    a field whose generation is not the event's was there and has only grown. *)
Record advanced (s : Z) (d d' : Rows) : Prop := {
  ad_entries ref row : d_entries d !! ref = Some row -> exists row', d_entries d' !! ref = Some row' /\
    er_source_key row' = er_source_key row /\ er_first_sequence row' = er_first_sequence row /\
    er_position_slot row' = er_position_slot row /\ er_kind row' = er_kind row /\
    (er_content_epoch row' = s \/ (er_content_epoch row' = er_content_epoch row /\ stable ref (contents d) (contents d')));
  ad_changed ref row' : d_entries d' !! ref = Some row' -> er_changed_sequence row' = s \/
    (d_entries d !! ref = Some row' /\ forall o, contents d' !! (ref, o) = contents d !! (ref, o));
  ad_fields ref row' : d_fields d' !! ref = Some row' -> fr_generation row' = s \/
    exists row more, d_fields d !! ref = Some row /\ fr_generation row' = fr_generation row /\ fr_order_key row' = fr_order_key row /\
      fr_kind row' = fr_kind row /\ text_of (chunk_rows d' ref) = String.append (text_of (chunk_rows d ref)) more
}.

Lemma stable_refl e m : stable e m m.
Proof using Type. split; [by eauto|]. intros o o' Hn [kt Hs]. congruence. Qed.

Lemma stable_trans e m1 m2 m3 : stable e m1 m2 -> stable e m2 m3 -> stable e m1 m3.
Proof using Type.
  intros [A1 A2] [B1 B2]. split.
  - intros o k t Ho. destruct (A1 o k t Ho) as [t' Ht]. by apply (B1 o k t').
  - intros o o' Hn Hs [[k t] Ho']. destruct (m2 !! (e, o)) as [kt|] eqn:E2; [by apply (A2 o o'); eauto|].
    apply (B2 o o'); [done | done |]. destruct (A1 _ _ _ Ho') as [t' Ht]. by exists (k, t').
Qed.

Lemma stable_same e m m' : (forall o, m' !! (e, o) = m !! (e, o)) -> stable e m m'.
Proof using Type. intros Hs. split; [intros o k t Ho; exists t; by rewrite Hs|]. intros o o' Hn Hx. rewrite Hs, Hn in Hx. by destruct Hx. Qed.

#[export] Instance advanced_preorder s : PreOrder (advanced s).
Proof using Type.
  split.
  - intros d. split.
    + intros ref row Hr. exists row. split_and!; try done. right. split; [done | apply stable_refl].
    + intros ref row Hr. by right.
    + intros ref row Hr. right. exists row, EmptyString. by rewrite append_empty.
  - intros d1 d2 d3 [A1 A2 A3] [B1 B2 B3]. split.
    + intros ref row Hr. destruct (A1 ref row Hr) as (row2 & Hr2 & S2 & F2 & P2 & K2 & E2). destruct (B1 ref row2 Hr2) as (row3 & Hr3 & S3 & F3 & P3 & K3 & E3).
      exists row3. split_and!; try congruence. destruct E3 as [E3|[E3 St3]]; [by left|]. destruct E2 as [E2|[E2 St2]]; [left; congruence|].
      right. split; [congruence|]. by eapply stable_trans.
    + intros ref row Hr. destruct (B2 ref row Hr) as [E|[Hr2 Hc]]; [by left|]. destruct (A2 ref row Hr2) as [E|[Hr1 Hc']]; [by left|].
      right. split; [done|]. intros o. by rewrite Hc, Hc'.
    + intros ref row Hr. destruct (B3 ref row Hr) as [E|(row2 & more2 & Hr2 & G2 & O2 & K2 & T2)]; [by left|].
      destruct (A3 ref row2 Hr2) as [E|(row1 & more1 & Hr1 & G1 & O1 & K1 & T1)]; [left; congruence|].
      right. exists row1, (String.append more1 more2). split_and!; try congruence. by rewrite T2, T1, append_assoc.
Qed.

(** ** Writing an entry *)
Lemma well_stored_entries d v : well_stored d ->
  (forall ref row, d_entries d !! ref = Some row -> exists row', v !! ref = Some row' /\ er_first_sequence row' = er_first_sequence row /\
    er_position_slot row' = er_position_slot row /\ er_kind row' = er_kind row) ->
  well_stored (with_entries v d).
Proof.
  intros [W1 W2 W3] Hv. split; [|done|done]. intros ref row Hr. destruct (W1 ref row Hr) as (key & Hk & Href & Hst). exists key. split; [done|]. split; [done|].
  destruct Hst as [S1 S2 S3 S4 S5 S6 S7 S8 S9 S10 S11]. split; try done. clear -S1 Hv. unfold validate_entry in *. cbn [with_entries d_entries].
  destruct (d_entries d !! _) as [row0|] eqn:E; [|done]. destruct (Hv _ _ E) as (row1 & -> & Hf & Hp & Hki). cbn [ok_or] in *. by rewrite Hf, Hp, Hki.
Qed.

Lemma block_at_mono n s row h : block_at n row h -> n <= s -> block_at s row h.
Proof using Type. intros [? ? ? ? ?] Hn. split; try done. lia. Qed.

Lemma entry_at_frame d d' n s run id m row : entry_at d n run id m row -> n <= s -> d_entries d' !! (run, show_entry_id id) = Some row ->
  (forall fid, d_fields d' !! ((run, show_entry_id id), fid) = d_fields d !! ((run, show_entry_id id), fid)) -> entry_at d' s run id m row.
Proof using Type.
  intros [H1 H2 H3 H4 H5 H6 H7 H8 H9 H10 H11 H12] Hn Hr Hf. split; try done; [lia | |].
  - intros fid frow Hfr. rewrite Hf in Hfr. by apply (H11 fid).
  - unfold tool_places in *. destruct (em_source m); try done. intros fid frow Hfr. rewrite Hf in Hfr. by apply (H12 fid).
Qed.

Lemma displayed_mono d n s : displayed d n -> n <= s -> displayed d s.
Proof using Type.
  intros [D1 D2 D3 D4] Hn. split; [done| |done|].
  - intros run id row Hr. destruct (D2 run id row Hr) as (eid & m & -> & Hat). exists eid, m. split; [done|]. eapply entry_at_frame; [exact Hat | done | done | done].
  - intros run row Hr. destruct (D4 run row Hr) as (h & Hh). exists h. by eapply block_at_mono.
Qed.

Lemma contents_others e s d d1 e' : well_stored d -> well_stored d1 -> revised e s d d1 -> e' <> e ->
  forall o, contents d1 !! (e', o) = contents d !! (e', o).
Proof.
  intros Hws Hws1 Hrv Hne o. apply option_eq. intros kt. rewrite !contents_lookup by done.
  split; intros (id & row & Hr & Ho & ->); exists id, row; destruct (rv_others _ _ _ _ Hrv (e', id) Hne) as [Hf Hc]; rewrite Hc, Hf in *; done.
Qed.

(** The row an entry is saved in. *)
Definition saved (row : EntryRow) (s epoch : Z) (json : string) : EntryRow :=
  mkEntryRow (er_source_key row) (er_first_sequence row) (er_position_slot row) s epoch (er_kind row) json.

Lemma save_ok d run s entry row : d_entries d !! (run, show_entry_id (e_id entry)) = Some row ->
  entry_key run (em_source (e_metadata entry)) = Ok (er_source_key row) -> 0 <= s <= i64_max -> 0 <= e_epoch entry <= i64_max ->
  exists json, metadata_to_json (e_metadata entry) = Some json /\
    save run s entry d = (Ok tt, with_entries (<[(run, show_entry_id (e_id entry)) := saved row s (e_epoch entry) json]> (d_entries d)) d).
Proof.
  intros Hr Hk Hs He. destruct (metadata_total (e_metadata entry)) as [json Hj]. exists json. split; [done|]. unfold save.
  ok; [|by apply integer_ok]. ok; [|by apply integer_ok]. ok; [|by apply ok_or_some]. ok; [|exact Hk].
  unfold gets, bind. rewrite Hr. by rewrite bool_decide_eq_true_2.
Qed.

Lemma commit_entry d n s run id m row d1 entry :
  displayed d n -> n <= s -> 0 < s <= i64_max -> entry_at d n run id m row ->
  well_stored d1 -> revised (run, show_entry_id id) s d d1 ->
  e_id entry = id -> em_source (e_metadata entry) = em_source m -> entry_valid run id (e_metadata entry) ->
  tool_places d1 (run, show_entry_id id) m ->
  (e_epoch entry = s \/ (e_epoch entry = er_content_epoch row /\ stable (run, show_entry_id id) (contents d) (contents d1))) ->
  exists d2 row2, save run s entry d1 = (Ok tt, d2) /\ displayed d2 s /\ advanced s d d2 /\ contents d2 = contents d1 /\
    d_blocks d2 = d_blocks d /\ d_entries d2 = <[(run, show_entry_id id) := row2]> (d_entries d) /\
    entry_at d2 s run id (e_metadata entry) row2 /\ er_content_epoch row2 = e_epoch entry /\ er_changed_sequence row2 = s /\ d_fields d2 = d_fields d1.
Proof.
  intros Hd Hn Hs Hat Hws1 Hrv Hid Hsrc Hval Htool Hep. pose proof Hat as [A1 [A2 A2'] A3 A4 A5 A6 A7 A8 A9 A10 A11 _]. pose proof A2 as [Hfpos _].
  set (ref := (run, show_entry_id id)) in *. subst id.
  assert (first_sequence (e_id entry) <= e_epoch entry <= s) as Heb by (destruct Hep as [-> |[-> _]]; lia).
  destruct (save_ok d1 run s entry row) as (json & Hj & Hsave); [by rewrite (rv_entries _ _ _ _ Hrv) | by rewrite Hsrc | lia | lia |].
  rewrite (rv_entries _ _ _ _ Hrv) in Hsave. fold ref in Hsave. set (row2 := saved row s (e_epoch entry) json) in Hsave.
  set (d2 := with_entries (<[ref := row2]> (d_entries d)) d1) in Hsave.
  assert (well_stored d2) as Hws2.
  { apply well_stored_entries; [done|]. intros ref' row' Hr'. rewrite (rv_entries _ _ _ _ Hrv) in Hr'. destruct (decide (ref' = ref)) as [-> |Hne].
    - rewrite lookup_insert_eq. rewrite A1 in Hr'. injection Hr' as <-. by exists row2.
    - rewrite lookup_insert_ne by done. by exists row'. }
  assert (entry_at d2 s run (e_id entry) (e_metadata entry) row2) as Hat2.
  { split; cbn [row2 saved er_first_sequence er_position_slot er_content_epoch er_changed_sequence er_metadata_json er_source_key er_kind]; try done; rewrite ?Hsrc; try done.
    - apply lookup_insert_eq.
    - exact (revised_generations _ _ _ _ _ Hrv A11 ltac:(lia)).
    - unfold tool_places in *. by rewrite Hsrc. }
  exists d2, row2. split; [done|]. split; [|split; [|split; [done|]]].
  - destruct Hd as [D1 D2 D3 D4]. split; [done| | |].
    + intros run' id' row' Hr'. cbn [d2 with_entries d_entries] in Hr'. destruct (decide ((run', id') = ref)) as [Heq|Hne].
      * rewrite Heq, lookup_insert_eq in Hr'. injection Hr' as <-. injection Heq as -> ->. by exists (e_id entry), (e_metadata entry).
      * rewrite lookup_insert_ne in Hr' by done. destruct (D2 _ _ _ Hr') as (eid & m' & -> & Hat'). exists eid, m'. split; [done|].
        eapply entry_at_frame; [exact Hat' | done | cbn; by rewrite lookup_insert_ne|]. intros fid. by apply (rv_others _ _ _ _ Hrv).
    + intros run' ida idb rowa rowb Ha Hb. cbn [d2 with_entries d_entries] in Ha, Hb.
      assert (forall id0 row0, <[ref := row2]> (d_entries d) !! (run', id0) = Some row0 -> exists row1, d_entries d !! (run', id0) = Some row1 /\ er_source_key row1 = er_source_key row0) as Hx.
      { intros id0 row0 Hr0. destruct (decide ((run', id0) = ref)) as [Heq|Hne].
        - rewrite Heq, lookup_insert_eq in Hr0. injection Hr0 as <-. exists row. by rewrite Heq.
        - rewrite lookup_insert_ne in Hr0 by done. by exists row0. }
      destruct (Hx _ _ Ha) as (ra & Hra & <-), (Hx _ _ Hb) as (rb & Hrb & <-). by apply (D3 run' ida idb ra rb).
    + intros run' row' Hr'. cbn [d2 with_entries d_blocks] in Hr'. rewrite (rv_blocks _ _ _ _ Hrv) in Hr'. destruct (D4 _ _ Hr') as [h Hh]. exists h. by eapply block_at_mono.
  - split.
    + intros ref' row' Hr'. cbn [d2 with_entries d_entries]. destruct (decide (ref' = ref)) as [-> |Hne].
      * rewrite A1 in Hr'. injection Hr' as <-. exists row2. rewrite lookup_insert_eq. split_and!; try done.
      * exists row'. rewrite lookup_insert_ne by done. split_and!; try done. right. split; [done|]. apply stable_same. exact (contents_others _ _ _ _ _ (dp_stored _ _ Hd) Hws1 Hrv Hne).
    + intros ref' row' Hr'. cbn [d2 with_entries d_entries] in Hr'. destruct (decide (ref' = ref)) as [-> |Hne].
      * rewrite lookup_insert_eq in Hr'. injection Hr' as <-. by left.
      * rewrite lookup_insert_ne in Hr' by done. right. split; [done|]. exact (contents_others _ _ _ _ _ (dp_stored _ _ Hd) Hws1 Hrv Hne).
    + intros [e fid] row' Hr'. cbn [d2 with_entries d_fields] in Hr'. destruct (decide (e = ref)) as [-> |Hne].
      * by apply (rv_fields _ _ _ _ Hrv).
      * right. destruct (rv_others _ _ _ _ Hrv (e, fid) Hne) as [Hf Hc]. rewrite Hf in Hr'. exists row', EmptyString. rewrite append_empty.
        change (chunk_rows d2 (e, fid)) with (chunk_rows d1 (e, fid)). by rewrite Hc.
  - split; [exact (rv_blocks _ _ _ _ Hrv) | done].
Qed.

(** ** A new entry *)
Lemma fields_have_entries d n e fid row : displayed d n -> d_fields d !! (e, fid) = Some row -> is_Some (d_entries d !! e).
Proof using Type.
  intros Hd Hr. destruct (ws_field _ (dp_stored _ _ Hd) _ _ Hr) as (key & _ & Href & Hst). pose proof (sf_entry _ _ _ Hst) as Hv.
  assert (e = (fk_run key, show_entry_id (fk_entry key))) as -> by (apply (f_equal fst) in Href; done).
  unfold validate_entry in Hv. destruct (d_entries d !! _); [by eexists|done].
Qed.

(** Nothing in the rows is from the event yet. *)
Definition before (s : Z) (d : Rows) : Prop := forall ref row, d_entries d !! ref = Some row -> er_first_sequence row < s.

Lemma displayed_before d n s : displayed d n -> n < s -> before s d.
Proof using Type.
  intros Hd Hn [run id] row Hr. destruct (dp_entries _ _ Hd _ _ _ Hr) as (eid & m & -> & Hat).
  pose proof (ea_first _ _ _ _ _ _ Hat). pose proof (ea_epoch _ _ _ _ _ _ Hat). pose proof (ea_changed _ _ _ _ _ _ Hat). lia.
Qed.

Lemma create_entry d s run m :
  displayed d s -> before s d -> 0 < s <= i64_max -> lookup_entry run s (em_source m) d = Ok None -> entry_valid run (mkEntryId s 0) m ->
  exists d1 row, create run s m d = (Ok (mkEntry (mkEntryId s 0) s s m), d1) /\ displayed d1 s /\ advanced s d d1 /\ contents d1 = contents d /\
    d_blocks d1 = d_blocks d /\ d_entries d1 = <[(run, show_entry_id (mkEntryId s 0)) := row]> (d_entries d) /\
    d_entries d !! (run, show_entry_id (mkEntryId s 0)) = None /\
    entry_at d1 s run (mkEntryId s 0) m row /\ er_content_epoch row = s /\
    (forall fid, d_fields d1 !! ((run, show_entry_id (mkEntryId s 0)), fid) = None).
Proof.
  intros Hd Hn Hs Hl Hval. destruct (lookup_none _ _ _ _ Hl) as (key & Hkey & Hfree). destruct (metadata_total m) as [json Hj].
  set (id := mkEntryId s 0) in *. set (ref := (run, show_entry_id id)).
  assert (entry_id_ok id) as Hid by (split; simpl; [destruct Hs as [? Hs%i64_u64]; lia | unfold u64_max; lia]).
  assert (forall run' id' row', d_entries d !! (run', id') = Some row' -> er_first_sequence row' < s /\ id' <> show_entry_id id) as Hold.
  { intros run' id' row' Hr'. destruct (dp_entries _ _ Hd _ _ _ Hr') as (eid & m' & -> & Hat). pose proof (Hn _ _ Hr'). destruct Hat as [A1 [A2 A2'] A3 A4 A5 A6 _ _ _ _ _ _]. split; [lia|].
    intros Heq. apply (f_equal parse_entry_id) in Heq. rewrite !parse_shown in Heq by done. injection Heq as ->. cbn in *. lia. }
  assert (d_entries d !! ref = None) as Hnone.
  { destruct (d_entries d !! ref) as [row'|] eqn:E; [|done]. by destruct (Hold _ _ _ E) as [_ []]. }
  set (row := mkEntryRow key s 0 s s (Source.kind (em_source m)) json). set (d1 := with_entries (<[ref := row]> (d_entries d)) d).
  assert (insert_entry ref row d = (Ok tt, d1)) as Hins.
  { unfold insert_entry, bind, require_constraint. rewrite Hnone. cbn [row er_position_slot er_kind is_none is_some negb].
    assert (one_of (Source.kind (em_source m)) ["human"; "assistant"; "tool"; "reuse"; "notice"] = true) as -> by by destruct (em_source m).
    change (0 <=? 0) with true. cbn [andb]. rewrite bool_decide_eq_true_2; [done|]. intros [run' id'] row' Hr' Hrun. cbn in Hrun. subst run'.
    split; [by apply (Hfree id')|]. destruct (Hold _ _ _ Hr'). intros [= Hf _]. cbn in Hf. lia. }
  exists d1, row. split.
  { unfold create. ok; [|exact Hl]. cbn [is_some]. unfold new_entry_id. rewrite (proj2 (Z.eqb_neq s 0)) by lia. cbn [ok_or].
    ok; [|reflexivity]. ok; [|exact Hkey]. ok; [|apply integer_ok; lia]. ok; [|by apply ok_or_some]. fold id. fold ref. fold row. ok_by Hins. done. }
  assert (forall fid, d_fields d1 !! (ref, fid) = None) as Hnf.
  { intros fid. destruct (d_fields d1 !! (ref, fid)) as [fr|] eqn:E; [|done]. cbn in E. apply (fields_have_entries _ _ _ _ _ Hd) in E as [x Hx]. congruence. }
  assert (entry_at d1 s run id m row) as Hat.
  { split; cbn [row er_first_sequence er_position_slot er_content_epoch er_changed_sequence er_metadata_json er_source_key er_kind]; try done; try lia.
    - apply lookup_insert_eq.
    - intros fid fr Hfr. fold ref in Hfr. by rewrite Hnf in Hfr.
    - unfold tool_places. destruct (em_source m); try done. intros fid fr Hfr. fold ref in Hfr. by rewrite Hnf in Hfr. }
  split; [|split; [|split_and!; done]].
  - destruct Hd as [D1 D2 D3 D4]. split.
    + apply well_stored_entries; [done|]. intros ref' row' Hr'. exists row'. rewrite lookup_insert_ne by congruence. done.
    + intros run' id' row' Hr'. cbn in Hr'. destruct (decide ((run', id') = ref)) as [Heq|Hne].
      * rewrite Heq, lookup_insert_eq in Hr'. injection Hr' as <-. pose proof (f_equal fst Heq) as Hrun. pose proof (f_equal snd Heq) as Hide. cbn in Hrun, Hide. subst run'. by exists id, m.
      * rewrite lookup_insert_ne in Hr' by done. destruct (D2 _ _ _ Hr') as (eid & m' & -> & Hat'). exists eid, m'. split; [done|].
        eapply entry_at_frame; [exact Hat' | lia | cbn; by rewrite lookup_insert_ne | done].
    + assert (forall run' ida rowa, <[ref := row]> (d_entries d) !! (run', ida) = Some rowa ->
        (run' = run /\ ida = show_entry_id id /\ rowa = row) \/ d_entries d !! (run', ida) = Some rowa) as Hcase.
      { intros run' ida rowa Ha. destruct (decide ((run', ida) = ref)) as [Heq|Hne]; [left|right; by rewrite lookup_insert_ne in Ha].
        rewrite Heq, lookup_insert_eq in Ha. injection Ha as <-. pose proof (f_equal fst Heq). by pose proof (f_equal snd Heq). }
      intros run' ida idb rowa rowb Ha Hb Hsame. cbn in Ha, Hb.
      apply Hcase in Ha as [(-> & -> & ->)|Ha], Hb as [(Hrun & -> & ->)|Hb]; [done| | |by eapply D3].
      * by destruct (Hfree _ _ Hb).
      * rewrite Hrun in Ha. by destruct (Hfree _ _ Ha).
    + intros run' row' Hr'. destruct (D4 _ _ Hr') as [h Hh]. exists h. eapply block_at_mono; [done | lia].
  - split.
    + intros ref' row' Hr'. exists row'. cbn. rewrite lookup_insert_ne by congruence. split_and!; try done. right. split; [done | apply stable_refl].
    + intros ref' row' Hr'. cbn in Hr'. destruct (decide (ref' = ref)) as [-> |Hne].
      * rewrite lookup_insert_eq in Hr'. injection Hr' as <-. by left.
      * rewrite lookup_insert_ne in Hr' by done. by right.
    + intros [e fid] row' Hr'. right. exists row', EmptyString. by rewrite append_empty.
Qed.

(** ** An entry taken up by an event *)
Record opened (s : Z) (run : string) (d d1 : Rows) (entry : Entry) : Prop := {
  op_displayed : displayed d1 s;
  op_advanced : advanced s d d1;
  op_blocks : d_blocks d1 = d_blocks d;
  op_contents : contents d1 = contents d;
  op_row : exists row, entry_at d1 s run (e_id entry) (e_metadata entry) row /\
    e_epoch entry = er_content_epoch row /\ e_revision entry = er_changed_sequence row;
  op_old : generations d1 (run, show_entry_id (e_id entry)) (s - 1)
}.

Lemma lookup_opened d n s run source entry : displayed d n -> n < s -> s <= i64_max ->
  lookup_entry run s source d = Ok (Some entry) -> opened s run d d entry /\ em_source (e_metadata entry) = source.
Proof.
  intros Hd Hn Hs Hl. destruct (lookup_found d n s run source entry Hd) as (row & Hat & He & Hr & Hsrc); [lia | done | done |]. split; [|done].
  split; try done; [apply (displayed_mono d n); [done | lia] | |].
  - exists row. split; [|done]. eapply entry_at_frame; [exact Hat | lia | exact (ea_row _ _ _ _ _ _ Hat) | done].
  - intros fid fr Hfr. pose proof (ea_fields _ _ _ _ _ _ Hat fid fr Hfr). pose proof (ea_changed _ _ _ _ _ _ Hat). lia.
Qed.

Lemma create_opened d n s run m entry d1 : displayed d n -> n < s -> 0 < s <= i64_max -> entry_valid run (mkEntryId s 0) m ->
  create run s m d = (Ok entry, d1) -> opened s run d d1 entry /\ entry = mkEntry (mkEntryId s 0) s s m.
Proof.
  intros Hd Hn Hs Hval Hc. assert (lookup_entry run s (em_source m) d = Ok None) as Hl.
  { unfold create, bind at 1, reads in Hc. destruct (lookup_entry run s (em_source m) d) as [[?|]|]; done. }
  destruct (create_entry d s run m (displayed_mono d n s Hd ltac:(lia)) (displayed_before d n s Hd Hn) Hs Hl Hval) as (d2 & row & E & Hd1 & Had & Hcon & Hbl & _ & _ & Hat & Hep & Hnf).
  rewrite E in Hc. injection Hc as <- <-. split; [|done]. split; try done.
  - exists row. split; [done|]. cbn. split; [done|]. pose proof (ea_epoch _ _ _ _ _ _ Hat). pose proof (ea_changed _ _ _ _ _ _ Hat). lia.
  - intros fid fr Hfr. cbn in Hfr. by rewrite Hnf in Hfr.
Qed.

(** The entry, with its content and its metadata changed, is saved. *)
Lemma close_entry s run d d1 d2 entry entry2 : opened s run d d1 entry -> 0 < s <= i64_max ->
  well_stored d2 -> revised (run, show_entry_id (e_id entry)) s d1 d2 ->
  e_id entry2 = e_id entry -> em_source (e_metadata entry2) = em_source (e_metadata entry) -> entry_valid run (e_id entry) (e_metadata entry2) ->
  tool_places d2 (run, show_entry_id (e_id entry)) (e_metadata entry) ->
  (e_epoch entry2 = s \/ (e_epoch entry2 = e_epoch entry /\ stable (run, show_entry_id (e_id entry)) (contents d1) (contents d2))) ->
  exists d3 row, save run s entry2 d2 = (Ok tt, d3) /\ displayed d3 s /\ advanced s d d3 /\ contents d3 = contents d2 /\ d_blocks d3 = d_blocks d /\
    entry_at d3 s run (e_id entry) (e_metadata entry2) row /\ er_content_epoch row = e_epoch entry2 /\ er_changed_sequence row = s.
Proof.
  intros [O1 O2 O3 O4 (row & Hat & He & Hr) O6] Hs Hws Hrv Hid Hsrc Hval Htool Hep.
  destruct (commit_entry d1 s s run (e_id entry) (e_metadata entry) row d2 entry2 O1) as (d3 & row3 & E & Hd3 & Had & Hc & Hb & _ & Hat3 & He3 & Hc3 & _); try done.
  { rewrite <- He. done. }
  exists d3, row3. split_and!; try done; [by etransitivity | by rewrite Hb].
Qed.

(** The contents of an entry of this event change before any save. *)
Lemma touch_new s run d d1 d2 entry : opened s run d d1 entry -> e_epoch entry = s -> well_stored d2 ->
  revised (run, show_entry_id (e_id entry)) s d1 d2 -> tool_places d2 (run, show_entry_id (e_id entry)) (e_metadata entry) -> displayed d2 s /\ advanced s d d2.
Proof.
  intros [[D1 D2 D3 D4] O2 _ _ (row & Hat & He & Hr) _] Hep Hws Hrv Htool. pose proof (rv_entries _ _ _ _ Hrv) as Hen.
  set (ref := (run, show_entry_id (e_id entry))) in *.
  pose proof (ea_row _ _ _ _ _ _ Hat) as Hrow. fold ref in Hrow. pose proof (ea_epoch _ _ _ _ _ _ Hat). pose proof (ea_changed _ _ _ _ _ _ Hat).
  split.
  - split; [done| |by rewrite Hen|by rewrite (rv_blocks _ _ _ _ Hrv)]. intros run' id' row' Hr'. rewrite Hen in Hr'.
    destruct (D2 _ _ _ Hr') as (eid & m & -> & Hat'). exists eid, m. split; [done|]. destruct (decide ((run', show_entry_id eid) = ref)) as [Heq|Hne].
    + pose proof Hat' as [A1 A2 A3 A4 A5 A6 A7 A8 A9 A10 A11 A12]. rewrite Heq in *. rewrite Hrow in Hr'. injection Hr' as <-.
      assert (m = e_metadata entry) as -> by (pose proof (proj1 (metadata_round _ _ A7)) as J; rewrite (proj1 (metadata_round _ _ (ea_json _ _ _ _ _ _ Hat))) in J; congruence).
      split; try done; [by rewrite Hen, Heq | | by rewrite Heq]. rewrite Heq. intros fid fr Hfr.
      destruct (rv_fields _ _ _ _ Hrv fid fr Hfr) as [Hg|(fr0 & _ & Hfr0 & Hg & _)]; [lia|]. specialize (A11 fid fr0 Hfr0). lia.
    + eapply entry_at_frame; [exact Hat' | lia | by rewrite Hen |]. intros fid. by apply (rv_others _ _ _ _ Hrv).
  - etransitivity; [exact O2|]. split.
    + intros ref' row' Hr'. exists row'. rewrite Hen. split_and!; try done. destruct (decide (ref' = ref)) as [-> |Hne].
      * rewrite Hrow in Hr'. injection Hr' as <-. left. lia.
      * right. split; [done|]. apply stable_same. exact (contents_others _ _ _ _ _ D1 Hws Hrv Hne).
    + intros ref' row' Hr'. rewrite Hen in Hr'. destruct (decide (ref' = ref)) as [-> |Hne].
      * rewrite Hrow in Hr'. injection Hr' as <-. left. lia.
      * right. split; [done|]. exact (contents_others _ _ _ _ _ D1 Hws Hrv Hne).
    + intros [e fid] row' Hr'. destruct (decide (e = ref)) as [-> |Hne]; [by apply (rv_fields _ _ _ _ Hrv)|].
      right. destruct (rv_others _ _ _ _ Hrv (e, fid) Hne) as [Hf Hc]. rewrite Hf in Hr'. exists row', EmptyString. by rewrite append_empty, Hc.
Qed.

(** ** Content on an opened entry *)

(** There is room for [k] more bytes everywhere. *)
Definition room (d : Rows) (k : Z) : Prop :=
  0 <= k <= i64_max /\ forall place kind t, contents d !! place = Some (kind, t) -> len t + k <= i64_max.

Lemma room_le d k k' : room d k -> 0 <= k' <= k -> room d k'.
Proof using Type. intros [Hk Hr] Hle. split; [lia|]. intros place kind t Hp. specialize (Hr place kind t Hp). lia. Qed.

Lemma opened_ready s run d d1 entry : opened s run d d1 entry -> s <= i64_max -> em_source (e_metadata entry) <> Source.Human -> entry_ready d1 run (e_id entry).
Proof. intros [_ _ _ _ (row & Hat & _) _] Hs Hh. by eapply entry_at_ready. Qed.

Lemma opened_first s run d d1 entry : opened s run d d1 entry -> first_sequence (e_id entry) <= s.
Proof using Type. intros [_ _ _ _ (row & Hat & _) _]. pose proof (ea_epoch _ _ _ _ _ _ Hat). pose proof (ea_changed _ _ _ _ _ _ Hat). lia. Qed.

Lemma delta_opened s run d d1 entry entry1 part : opened s run d d1 entry -> s <= i64_max -> em_source (e_metadata entry) <> Source.Human ->
  e_id entry1 = e_id entry -> e_revision entry1 = e_revision entry ->
  u64_key (pt_order part) -> ok_rank (pt_order part) <> Fallback -> from_utf8 (pt_text part) = true -> room d (len (pt_text part)) ->
  let e := (run, show_entry_id (e_id entry)) in
  exists d2 entry2, delta run entry1 s part d1 = (Ok entry2, d2) /\ well_stored d2 /\ revised e s d1 d2 /\
    contents d2 = shown_delta (e, show_key (pt_order part)) part (contents d) /\
    (entry2 = with_epoch s entry1 \/ (entry2 = entry1 /\ stable e (contents d1) (contents d2))).
Proof.
  intros Ho Hs Hh Hid Hrev Hk Hf Hu [Hr1 Hr2] e. pose proof (opened_ready _ _ _ _ _ Ho Hs Hh) as Hre. pose proof (opened_first _ _ _ _ _ Ho).
  destruct Ho as [O1 O2 O3 O4 (row & Hat & He & Hrv) O6]. pose proof (dp_stored _ _ O1) as Hws.
  destruct (delta_step d1 run entry1 s part) as (d2 & entry2 & E & Hws2 & Hrev2 & Hc & Hst); rewrite ?Hid; try done; try lia.
  - intros fid fr Hfr. rewrite Hrev, Hrv. exact (ea_fields _ _ _ _ _ _ Hat fid fr Hfr).
  - by apply apart_ok.
  - rewrite O4. destruct (contents d !! _) as [[kind t]|] eqn:Ec; [by apply (Hr2 _ _ _ Ec)|]. change (len EmptyString) with 0. lia.
  - rewrite Hid in *. rewrite O4 in Hc. exists d2, entry2. done.
Qed.

Lemma snapshot_opened s run d d1 entry entry1 output parts : opened s run d d1 entry -> s <= i64_max -> em_source (e_metadata entry) <> Source.Human ->
  e_id entry1 = e_id entry -> e_revision entry1 = e_revision entry ->
  Forall part_ok parts -> NoDup (pt_order <$> parts) ->
  (forall p q, p ∈ parts -> q ∈ parts -> ok_rank (pt_order p) = Fallback -> ok_rank (pt_order q) = Fallback -> pt_order p = pt_order q) ->
  (forall i p, output = Some i -> p ∈ parts -> ok_output (pt_order p) = Some i) ->
  let e := (run, show_entry_id (e_id entry)) in
  exists d2 entry2, snapshot run entry1 s output parts d1 = (Ok entry2, d2) /\ well_stored d2 /\ revised e s d1 d2 /\
    contents d2 = shown_snapshot e output parts (contents d) /\
    (entry2 = with_epoch s entry1 \/ (entry2 = entry1 /\ stable e (contents d1) (contents d2))).
Proof.
  intros Ho Hs Hh Hid Hrev Hok Hnd Hfall Hout e. pose proof (opened_ready _ _ _ _ _ Ho Hs Hh) as Hre. pose proof (opened_first _ _ _ _ _ Ho).
  destruct Ho as [O1 O2 O3 O4 (row & Hat & He & Hrv) O6]. pose proof (dp_stored _ _ O1) as Hws.
  destruct (snapshot_step d1 run entry1 s output parts) as (d2 & entry2 & E & Hws2 & Hrev2 & Hc & Hst); rewrite ?Hid; try done; try lia.
  - intros fid fr Hfr. rewrite Hrev, Hrv. exact (ea_fields _ _ _ _ _ _ Hat fid fr Hfr).
  - by apply parts_fit.
  - rewrite Hid in *. rewrite O4 in Hc. exists d2, entry2. done.
Qed.
End shown.

(** * One event at a time

    Every event keeps the invariant of the display rows, and changes what is shown
    only in the ways a reader is told of. *)

(** ** The parts of a projection *)
Definition display_part (f : ResponseField) : Part := mkDisplay (field_order f) (dp_kind (rf_part f)) (dp_text (rf_part f)).

Lemma part_order_key o s k : 0 <= o <= u64_max -> part_order o s = Some k -> k = part_key o s /\ u64_key k.
Proof.
  intros Ho. assert (u64_option (Some o)) as Hout by (intros n [= <-]; done). assert (u64_option None) as Hnone by (intros n [=]).
  assert (forall i, u64_try_from i <> None -> u64_option (Some i)) as Hi.
  { intros i. unfold u64_try_from. destruct (in_u64 i) eqn:E; [|done]. intros _ n [= <-]. by apply in_u64_spec. }
  destruct s as [[i|]|[i|]| | |[i|]|]; cbn [part_order]; try (intros [= <-]; split; [done | unfold u64_key; cbn; split_and!; done]);
    (destruct (u64_try_from i) eqn:E; [|done]); intros [= <-]; (split; [done|]); unfold u64_key; cbn; split_and!; try done; apply Hi; congruence.
Qed.

Lemma ordered_parts_ok fields parts : ordered_parts fields = Ok parts ->
  parts = display_part <$> fields /\ Forall (fun p => u64_key (pt_order p)) parts.
Proof.
  revert parts. induction fields as [|f fields IH]; intros parts; cbn [ordered_parts]; [by intros [= <-]|].
  unfold u64_try_from. destruct (in_u64 (rf_output_index f)) eqn:Eo; [|done]. apply in_u64_spec in Eo. cbn [ok_or].
  destruct (part_order _ _) as [k|] eqn:Ek; [|done]. cbn [ok_or]. apply part_order_key in Ek as [-> Hk]; [|done].
  destruct (ordered_parts fields) as [rest|]; [|done]. intros [= <-]. destruct (IH rest eq_refl) as [-> HF]. split; [done | by constructor].
Qed.

Lemma sorted_nodup l : StronglySorted key_lt l -> NoDup l.
Proof.
  induction 1 as [|k l Hs IH HF]; constructor; [|done]. intros Hin. rewrite Forall_forall in HF. by apply (key_lt_irrefl k), HF.
Qed.

Lemma fallback_source f : ok_rank (field_order f) = Fallback -> exists i, dp_source (rf_part f) = PFallback i.
Proof. unfold field_order. destruct (dp_source (rf_part f)); try done. by eexists. Qed.

Lemma plain_not_fallback i items f : f ∈ fields_from i items -> ok_rank (field_order f) <> Fallback.
Proof. intros [_ [Hf _]]%fields_from_in [j Hj]%fallback_source. by apply (Hf j). Qed.

Lemma response_fallback r f g : f ∈ project_response r -> g ∈ project_response r ->
  ok_rank (field_order f) = Fallback -> ok_rank (field_order g) = Fallback -> field_order f = field_order g.
Proof.
  assert (exists b, forall h, h ∈ project_response r -> ok_rank (field_order h) = Fallback -> h = b) as [b Hb].
  { destruct (project_response_cases r) as [[_ ->]|[(_ & _ & ->)|(_ & before & a & after & j & Hsplit & _ & _ & _ & ->)]].
    - exists (fallback_at r 0 None). intros h Hh Hf. by destruct (plain_not_fallback _ _ _ Hh).
    - eexists. intros h [Hh| ->%list_elem_of_singleton]%elem_of_app Hf; [by destruct (plain_not_fallback _ _ _ Hh) | done].
    - eexists. intros h Hh Hf. apply elem_of_app in Hh as [Hh|[-> |Hh]%elem_of_cons]; [exfalso|done|exfalso];
        (eapply (plain_not_fallback 0 (output r) h); [|done]); fold (plain_fields r); rewrite Hsplit; apply elem_of_app.
      + by left.
      + right. apply list_elem_of_In, List.filter_In in Hh as [Hh _]. by apply list_elem_of_In. }
  intros Hf Hg Ff Fg. by rewrite (Hb f Hf Ff), (Hb g Hg Fg).
Qed.

Lemma parts_fmap f parts (fields : list ResponseField) : parts = display_part <$> fields -> f ∈ parts -> exists g, g ∈ fields /\ f = display_part g.
Proof. intros -> (g & -> & Hg)%list_elem_of_fmap. by exists g. Qed.

Lemma response_parts r parts : ordered_parts (project_response r) = Ok parts ->
  parts = display_part <$> project_response r /\ NoDup (pt_order <$> parts) /\
  (forall p q, p ∈ parts -> q ∈ parts -> ok_rank (pt_order p) = Fallback -> ok_rank (pt_order q) = Fallback -> pt_order p = pt_order q).
Proof.
  intros [Hp _]%ordered_parts_ok. split; [done|]. split.
  - rewrite Hp, <- list_fmap_compose. exact (sorted_nodup _ (project_response_order r)).
  - intros p q (f & Hf & ->)%(parts_fmap _ _ _ Hp) (g & Hg & ->)%(parts_fmap _ _ _ Hp). by apply (response_fallback r).
Qed.

Lemma item_parts o item parts : ordered_parts (mkField o <$> project_item item) = Ok parts ->
  parts = display_part <$> (mkField o <$> project_item item) /\ NoDup (pt_order <$> parts) /\
  (forall p, p ∈ parts -> ok_rank (pt_order p) <> Fallback /\ ok_output (pt_order p) = Some o).
Proof.
  intros [Hp _]%ordered_parts_ok. split; [done|]. split.
  - rewrite Hp, <- !list_fmap_compose. exact (sorted_nodup _ (project_item_order o item)).
  - intros p (f & (part & -> & Hpart)%list_elem_of_fmap & ->)%(parts_fmap _ _ _ Hp). split; [|apply part_output].
    intros [i Hi]%fallback_source. cbn in Hi. pose proof (project_item_field item) as HF. rewrite Forall_forall in HF. by destruct (HF part Hpart) as [Hn _]; apply (Hn i).
Qed.

(** ** What an event brings *)
Definition event_texts (event : ProviderEvent) : list string :=
  match event with
  | POutputItemUpdated _ _ _ _ _ _ text => [text]
  | POutputItemStarted _ _ item | POutputItemFinished _ _ item => dp_text <$> project_item item
  | PResponseFinished response => (fun f => dp_text (rf_part f)) <$> project_response response
  | _ => []
  end.
Definition event_indices (event : ProviderEvent) : Prop :=
  match event with
  | POutputItemUpdated _ _ output content summary _ _ => u64_option (Some output) /\ u64_option content /\ u64_option summary
  | _ => True
  end.
Definition run_event_texts (event : RunEvent) : list string :=
  match event with
  | EProviderEvent provider => event_texts (env_event provider)
  | EToolEvent (ToolExecutionStarted _ name) | EToolEvent (ToolExecutionFinished _ name _) | EToolEvent (ToolResultReused _ name) => [name]
  | _ => []
  end.
Definition input_texts (input : Input.t) : list string :=
  match input with
  | Input.Accepted input => [user_text input]
  | Input.Runtime event => run_event_texts (ev_event event)
  | Input.ToolResult _ _ output _ => [output]
  | _ => []
  end.
(** Texts are valid and indices are [u64]; this is what the types of an input say. *)
Definition input_typed (input : Input.t) : Prop :=
  Forall (fun t => from_utf8 t = true) (input_texts input) /\
  match input with
  | Input.Runtime event => match ev_event event with EProviderEvent provider => event_indices (env_event provider) | _ => True end
  | _ => True
  end.
Definition marks : list string := ["Unsupported content"; "Response closed"; "Request failed"].
Definition fits (d : Rows) (input : Input.t) : Prop := Forall (fun t => room d (len t)) (marks ++ input_texts input).

Section steps.
Context `{DisplaySerde} {laws : DisplayLaws} {digests : DigestLaws}.
#[local] Set Default Proof Using "All".

(** ** Blocks *)
Lemma well_stored_blocks d v : well_stored d -> well_stored (with_blocks v d).
Proof using Type.
  intros [W1 W2 W3]. split; [|done|done]. intros ref row Hr. destruct (W1 ref row Hr) as (key & Hk & Href & Hst). exists key. split; [done|]. split; [done|].
  by apply (stored_field_frame d).
Qed.

Lemma block_ok d n s run h : displayed d n -> s <= i64_max -> block run s d = Ok h ->
  exists row, d_blocks d !! run = Some row /\ block_at n row h.
Proof.
  intros Hd Hs. unfold block. destruct (d_blocks d !! run) as [row|] eqn:Er; [|done]. destruct (dp_blocks _ _ Hd _ _ Er) as [h' Hh']. cbn [ok_or].
  destruct (unsigned (br_accepted_sequence row)) as [a|]; [|done]. destruct (unsigned (br_changed_sequence row)) as [c|]; [|done].
  unfold decode_header. destruct (header_round _ _ (ba_json _ _ _ Hh')) as [-> ->]. cbn [negb ok_or]. rewrite (ba_human _ _ _ Hh'). cbn [ok_or].
  destruct (_ || _); [done|]. intros [= <-]. by exists row.
Qed.

Lemma save_block_ok d s run h h0 row : displayed d s -> 0 < s <= i64_max -> d_blocks d !! run = Some row -> block_at s row h0 -> bh_human h = bh_human h0 ->
  (forall o, bh_outcome h = Some o -> match o with Outcome.Failed code => safe_code code = code | _ => True end) ->
  exists d' json, save_block run s h d = (Ok tt, d') /\ displayed d' s /\ advanced s d d' /\ contents d' = contents d /\ d_entries d' = d_entries d /\
    header_to_json h = Some json /\ d_blocks d' = <[run := mkBlockRow (br_accepted_sequence row) s json]> (d_blocks d).
Proof.
  intros Hd Hs Hr Hb Hhu Hout. destruct (header_total h) as [json Hj]. unfold save_block.
  eexists _, json. split.
  { ok; [|apply integer_ok; lia]. ok; [|by apply ok_or_some]. unfold gets, bind. rewrite Hr. reflexivity. }
  split; [|split; [|done]].
  - destruct Hd as [D1 D2 D3 D4]. split; [by apply well_stored_blocks | |done|].
    + intros run' id' row' Hr'. destruct (D2 _ _ _ Hr') as (eid & m & -> & Hat). exists eid, m. split; [done|]. by eapply entry_at_frame; [exact Hat|..].
    + intros run' row' Hr'. cbn in Hr'. destruct (decide (run' = run)) as [-> |Hn].
      * rewrite lookup_insert_eq in Hr'. injection Hr' as <-. exists h. destruct Hb as [B1 B2 B3 B4 B5]. split; cbn; try done; [by rewrite Hhu | lia].
      * rewrite lookup_insert_ne in Hr' by done. by apply (D4 run').
  - split.
    + intros ref row' Hr'. exists row'. split_and!; try done. right. split; [done | apply stable_refl].
    + intros ref row' Hr'. by right.
    + intros ref row' Hr'. right. exists row', EmptyString. by rewrite append_empty.
Qed.

(** ** Metadata *)
Lemma entry_valid_same run id m m' : entry_valid run id m -> em_source m' = em_source m ->
  em_result_recorded m' = em_result_recorded m -> em_finish_recorded m' = em_finish_recorded m -> em_is_error m' = em_is_error m ->
  em_finish_is_error m' = em_finish_is_error m -> em_reference m' = em_reference m ->
  (forall code, em_failure m' = Some code -> safe_code code = code) -> entry_valid run id m'.
Proof using Type.
  intros (Hw & Hf & Hr) H1 H2 H3 H4 H5 H6 Hf'. split; [|split; [done | by rewrite H6]]. unfold metadata_wrong in *. by rewrite H1, H2, H3, H4, H5, H6.
Qed.

Lemma safe_code_safe code : safe_code (safe_code code) = safe_code code.
Proof using Type.
  unfold safe_code. destruct (bool_decide (code ∈ SAFE_CODES)) eqn:E; [by rewrite E|]. by destruct (bool_decide ("upstream_error" ∈ SAFE_CODES)).
Qed.

Lemma new_valid run s source state provisional : (source = Source.Human \/ (exists t, source = Source.Assistant t) \/ source = Source.Notice s 0) ->
  entry_valid run (mkEntryId s 0) (new_metadata source state provisional).
Proof using Type.
  intros Hs. split; [|split; done]. unfold metadata_wrong. destruct Hs as [-> |[[t ->]| ->]]; [done | done |]. cbn. by rewrite Z.eqb_refl.
Qed.

Lemma opened_valid s run d d1 entry : opened s run d d1 entry -> entry_valid run (e_id entry) (e_metadata entry).
Proof using Type. intros [_ _ _ _ (row & Hat & _) _]. exact (ea_valid _ _ _ _ _ _ Hat). Qed.

Definition failure_safe (m : EntryMetadata) : Prop := forall code, em_failure m = Some code -> safe_code code = code.

(** Metadata that keeps what the checks of an entry look at. *)
Definition same_checks (m m' : EntryMetadata) : Prop :=
  em_source m' = em_source m /\ em_result_recorded m' = em_result_recorded m /\ em_finish_recorded m' = em_finish_recorded m /\
  em_is_error m' = em_is_error m /\ em_finish_is_error m' = em_finish_is_error m /\ em_reference m' = em_reference m /\
  (failure_safe m -> failure_safe m').

Lemma same_checks_refl m : same_checks m m.
Proof using Type. by split_and!. Qed.

Lemma same_checks_valid run id m m' : same_checks m m' -> entry_valid run id m -> entry_valid run id m'.
Proof using Type. intros (H1 & H2 & H3 & H4 & H5 & H6 & H7) Hv. eapply entry_valid_same; try done. apply H7. by destruct Hv as (_ & ? & _). Qed.

Lemma observed_checks failure closed m : (forall code u, failure = Some (code, u) -> safe_code code = code) ->
  same_checks m (observed_metadata failure closed m).
Proof using Type.
  intros Hs. unfold observed_metadata. assert (same_checks m (failed_metadata failure m)) as Hf.
  { unfold failed_metadata. destruct failure as [[code u]|]; [|apply same_checks_refl]. cbv zeta.
    destruct (_ || _); split_and!; try done; intros _ c [= <-]; by apply (Hs code u). }
  revert Hf. generalize (failed_metadata failure m). intros m1 Hm1. destruct closed; [|exact Hm1]. unfold closed_metadata. cbv zeta. destruct (_ && _); exact Hm1.
Qed.

(** ** The events of a run *)
Lemma with_metadata_fields f e : e_id (with_metadata f e) = e_id e /\ e_epoch (with_metadata f e) = e_epoch e /\ e_revision (with_metadata f e) = e_revision e.
Proof using Type. done. Qed.

Lemma no_tool d e m : is_tool (em_source m) = false -> tool_places d e m.
Proof using Type. unfold tool_places. by destruct (em_source m). Qed.

Lemma tool_places_contents d1 d2 e m : well_stored d1 -> well_stored d2 -> tool_places d1 e m ->
  (forall o, o <> show_key (tool_order ToolName) -> o <> show_key (tool_order ToolOutput) -> contents d2 !! (e, o) = contents d1 !! (e, o)) ->
  tool_places d2 e m.
Proof.
  intros Hws1 Hws2 Ht Hc. unfold tool_places in *. destruct (em_source m); try done. intros fid row Hr.
  destruct (decide (fr_order_key row = show_key (tool_order ToolName))) as [|H1]; [by left|].
  destruct (decide (fr_order_key row = show_key (tool_order ToolOutput))) as [|H2]; [by right|]. exfalso.
  assert (contents d2 !! (e, fr_order_key row) = Some (fr_kind row, text_of (chunk_rows d2 (e, fid)))) as Hx by (apply contents_lookup; eauto).
  rewrite (Hc _ H1 H2) in Hx. apply contents_lookup in Hx as (fid' & row' & Hr' & Ho' & _); [|done]. destruct (Ht _ _ Hr'); congruence.
Qed.

Lemma shown_delta_ne place part m p : p <> place -> shown_delta place part m !! p = m !! p.
Proof using Type.
  intros Hn. unfold shown_delta. destruct (m !! place) as [[k t]|]; [destruct (bool_decide _)|]; by rewrite lookup_insert_ne.
Qed.

(** An entry that is opened, given content and saved. *)
Lemma opened_saved s run d d1 entry d2 entry2 f : opened s run d d1 entry -> 0 < s <= i64_max -> well_stored d2 ->
  revised (run, show_entry_id (e_id entry)) s d1 d2 -> e_id entry2 = e_id entry ->
  same_checks (e_metadata entry) (f (e_metadata entry2)) -> tool_places d2 (run, show_entry_id (e_id entry)) (e_metadata entry) ->
  (e_epoch entry2 = s \/ (e_epoch entry2 = e_epoch entry /\ stable (run, show_entry_id (e_id entry)) (contents d1) (contents d2))) ->
  exists d3 row, save run s (with_metadata f entry2) d2 = (Ok tt, d3) /\ displayed d3 s /\ advanced s d d3 /\ contents d3 = contents d2 /\
    d_blocks d3 = d_blocks d /\ entry_at d3 s run (e_id entry) (f (e_metadata entry2)) row /\ er_content_epoch row = e_epoch entry2.
Proof.
  intros Ho Hs Hws Hrv Hid Hsc Htool Hep.
  destruct (close_entry s run d d1 d2 entry (with_metadata f entry2) Ho Hs Hws Hrv Hid) as (d3 & row & E & Hd & Ha & Hc & Hb & Hat & He & _); try done.
  { by destruct Hsc as (? & _). } { eapply same_checks_valid; [exact Hsc | by eapply opened_valid]. }
  exists d3, row. done.
Qed.

Lemma epoch_cases (s epoch : Z) (e : EntryRef) (m m' : gmap FieldRef (string * string)) (entry1 entry2 : Entry) : e_epoch entry1 = epoch ->
  (entry2 = with_epoch s entry1 \/ (entry2 = entry1 /\ stable e m m')) ->
  e_id entry2 = e_id entry1 /\ e_metadata entry2 = e_metadata entry1 /\ (e_epoch entry2 = s \/ (e_epoch entry2 = epoch /\ stable e m m')).
Proof using Type. intros He [-> |[-> Hs]]; split_and!; try done; [by left | by right]. Qed.

Lemma observation_step d n s run h ev failure closed d' : displayed d n -> n < s -> 0 < s <= i64_max ->
  (forall code u, failure = Some (code, u) -> safe_code code = code) -> Forall (fun t => room d (len t)) marks ->
  observation run s h ev failure closed d = (Ok tt, d') -> displayed d' s /\ advanced s d d' /\ d_blocks d' = d_blocks d.
Proof.
  intros Hd Hn Hs Hfail Hroom Hobs. unfold observation in Hobs.
  apply bind_Ok in Hobs as (current & d0 & Hcur & Hobs).
  assert (d0 = d /\ forall entry, current = Some entry -> exists turn, lookup_entry run s (Source.Assistant turn) d = Ok (Some entry)) as [-> Hlook].
  { destruct (current_turn h ev) as [turn|]; [|injection Hcur as <- <-; by split]. unfold bind, reads in Hcur.
    destruct (lookup_entry run s (Source.Assistant turn) d) as [found|] eqn:El; [|done]. destruct (negb _); [done|]. injection Hcur as <- <-.
    split; [done|]. intros entry ->. by exists turn. }
  apply bind_Ok in Hobs as (entry & d1 & Hent & Hobs).
  assert (opened s run d d1 entry /\ em_source (e_metadata entry) <> Source.Human /\ is_tool (em_source (e_metadata entry)) = false) as (Hop & Hsrc & Hnt).
  { destruct current as [e|].
    - injection Hent as <- <-. destruct (Hlook e eq_refl) as [turn Hl]. destruct (lookup_opened d n s run _ e Hd Hn (proj2 Hs) Hl) as [Ho He]. by rewrite He.
    - apply (create_opened d n) in Hent as [Ho ->]; try done. apply new_valid. by right; right. }
  destruct (delta_opened s run d d1 entry (with_metadata (observed_metadata failure closed) entry)
    (mkDisplay (mkOrderKey None Notice None (Some s)) FieldKind.Notice (if closed then "Response closed" else "Request failed")) Hop) as (d2 & entry2 & E & Hws & Hrv & _ & Hep); try done; try lia.
  { unfold u64_key; cbn; split_and!; [by intros ? [=] | by intros ? [=] | intros ? [= <-]; destruct Hs as [? Hs%i64_u64]; lia]. }
  { by destruct closed. } { unfold marks in Hroom. rewrite !Forall_cons in Hroom. by destruct closed; destruct Hroom as (_ & ? & ? & _). }
  unfold bind in Hobs. rewrite E in Hobs.
  destruct (epoch_cases _ _ _ _ _ _ _ eq_refl Hep) as (Hid2 & Hm2 & Hep2).
  destruct (opened_saved s run d d1 entry d2 entry2 (fun m => m) Hop Hs Hws Hrv) as (d3 & row & E3 & Hd3 & Ha3 & _ & Hb3 & _); [done | | by apply no_tool | done |].
  { rewrite Hm2. by apply observed_checks. }
  assert (with_metadata (fun m => m) entry2 = entry2) as Heq by by destruct entry2. rewrite Heq in E3. rewrite E3 in Hobs. injection Hobs as <-. done.
Qed.

Lemma assistant_opened d n s run turn rid expected entry d1 : displayed d n -> n < s -> 0 < s <= i64_max ->
  assistant run s turn rid expected d = (Ok entry, d1) -> opened s run d d1 entry /\ em_source (e_metadata entry) = Source.Assistant turn.
Proof.
  intros Hd Hn Hs Ha. unfold assistant, bind, reads in Ha. destruct (lookup_entry run s (Source.Assistant turn) d) as [[e|]|] eqn:El; [| |done].
  - destruct (negb _); [done|]. injection Ha as <- <-. apply (lookup_opened d n); [done | done | lia | done].
  - destruct (is_some expected); [done|]. apply (create_opened d n) in Ha as [Ho ->]; try done.
Qed.

(** What is left of an entry between its opening and its saving. *)
Record worked (s : Z) (run : string) (d1 d2 : Rows) (entry entry2 : Entry) : Prop := {
  wk_stored : well_stored d2;
  wk_revised : revised (run, show_entry_id (e_id entry)) s d1 d2;
  wk_id : e_id entry2 = e_id entry;
  wk_checks : same_checks (e_metadata entry) (e_metadata entry2);
  wk_tool : tool_places d2 (run, show_entry_id (e_id entry)) (e_metadata entry);
  wk_epoch : e_epoch entry2 = s \/ (e_epoch entry2 = e_epoch entry /\ stable (run, show_entry_id (e_id entry)) (contents d1) (contents d2))
}.

Lemma worked_save s run d d1 d2 entry entry2 : opened s run d d1 entry -> 0 < s <= i64_max -> worked s run d1 d2 entry entry2 ->
  exists d3 row, save run s entry2 d2 = (Ok tt, d3) /\ displayed d3 s /\ advanced s d d3 /\ contents d3 = contents d2 /\
    d_blocks d3 = d_blocks d /\ entry_at d3 s run (e_id entry) (e_metadata entry2) row /\ er_content_epoch row = e_epoch entry2.
Proof.
  intros Ho Hs [W1 W2 W3 W4 W5 W6]. destruct (opened_saved s run d d1 entry d2 entry2 (fun m => m) Ho Hs W1 W2 W3 W4 W5 W6) as (d3 & row & E & Hx).
  assert (with_metadata (fun m => m) entry2 = entry2) as Heq by by destruct entry2. rewrite Heq in E. by exists d3, row.
Qed.

Lemma worked_metadata s run d1 d2 entry entry2 f : worked s run d1 d2 entry entry2 -> same_checks (e_metadata entry2) (f (e_metadata entry2)) ->
  worked s run d1 d2 entry (with_metadata f entry2).
Proof using Type.
  intros [W1 W2 W3 W4 W5 W6] Hf. split; try done. cbn. destruct W4 as (? & ? & ? & ? & ? & ? & ?), Hf as (? & ? & ? & ? & ? & ? & ?).
  split_and!; try congruence. auto.
Qed.

Lemma idle_worked s run d d1 entry : opened s run d d1 entry -> worked s run d1 d1 entry entry.
Proof using Type.
  intros Ho. split; try done; [exact (dp_stored _ _ (op_displayed _ _ _ _ _ Ho)) | destruct Ho as [_ _ _ _ (row & Hat & _) _]; exact (ea_tool _ _ _ _ _ _ Hat) |]. right. split; [done | apply stable_refl].
Qed.

Lemma room_parts d (fields : list ResponseField) parts : ordered_parts fields = Ok parts -> Forall (fun t => from_utf8 t = true) ((fun f => dp_text (rf_part f)) <$> fields) ->
  Forall (fun t => room d (len t)) ((fun f => dp_text (rf_part f)) <$> fields) -> Forall part_ok parts.
Proof using Type.
  intros [-> Hk]%ordered_parts_ok Hu Hr. apply Forall_forall. intros p Hp. pose proof Hp as (f & -> & Hf)%list_elem_of_fmap.
  rewrite Forall_forall in Hk. split; [by apply Hk|]. rewrite Forall_fmap_in in Hu, Hr. split; [by apply Hu|]. apply (Hr f Hf).
Qed.

Lemma response_event_step s run d d1 entry entry1 event entry2 d2 : opened s run d d1 entry -> 0 < s <= i64_max -> em_source (e_metadata entry) <> Source.Human ->
  is_tool (em_source (e_metadata entry)) = false ->
  e_id entry1 = e_id entry -> e_revision entry1 = e_revision entry -> e_epoch entry1 = e_epoch entry -> same_checks (e_metadata entry) (e_metadata entry1) ->
  Forall (fun t => from_utf8 t = true) (event_texts event) -> event_indices event -> Forall (fun t => room d (len t)) (marks ++ event_texts event) ->
  response_event run s entry1 event d1 = (Ok entry2, d2) -> worked s run d1 d2 entry entry2.
Proof.
  intros Ho Hs Hh Hnt Hid Hrev Hep Hsc Hu Hi Hroom Hev. apply Forall_app in Hroom as [Hmarks Hroom]. pose proof (idle_worked _ _ _ _ _ Ho) as [I1 I2 _ _ _ I5].
  assert (worked s run d1 d1 entry entry1) as Hw1 by (split; try done; [by apply no_tool | rewrite Hep; exact I5]).
  assert (forall d3 e3, well_stored d3 -> revised (run, show_entry_id (e_id entry)) s d1 d3 ->
    (e3 = with_epoch s entry1 \/ (e3 = entry1 /\ stable (run, show_entry_id (e_id entry)) (contents d1) (contents d3))) -> worked s run d1 d3 entry e3) as Hdone.
  { intros d3 e3 W1 W2 W3. destruct (epoch_cases _ _ _ _ _ _ _ Hep W3) as (E1 & E2 & E3). split; try done; [congruence | by rewrite E2 | by apply no_tool]. }
  assert (forall output item, Forall (fun t => from_utf8 t = true) (dp_text <$> project_item item) -> Forall (fun t => room d (len t)) (dp_text <$> project_item item) ->
    bind (lift (ordered_parts (mkField output <$> project_item item))) (fun parts => snapshot run entry1 s (Some output) parts) d1 = (Ok entry2, d2) ->
    worked s run d1 d2 entry entry2) as Hitem.
  { intros output item Hiu Hir E. unfold bind, lift in E. destruct (ordered_parts _) as [parts|] eqn:Ep; [|done].
    assert (((fun f => dp_text (rf_part f)) <$> (mkField output <$> project_item item)) = dp_text <$> project_item item) as Htx by by rewrite <- list_fmap_compose.
    pose proof (room_parts d _ _ Ep) as Hok. rewrite Htx in Hok. specialize (Hok Hiu Hir). destruct (item_parts _ _ _ Ep) as (_ & Hnd & Hp).
    destruct (snapshot_opened s run d d1 entry entry1 (Some output) parts Ho (proj2 Hs) Hh Hid Hrev Hok Hnd) as (d3 & e3 & E3 & W1 & W2 & _ & W3).
    { intros p q Hpp _ Hf _. by destruct (Hp p Hpp). } { intros i p [= <-] Hpp. by apply Hp. }
    rewrite E3 in E. injection E as <- <-. by apply Hdone. }
  destruct event as [reason|id|id status|id output item|id iid output ci si kind text|id output item|response|code msg up|ty payload]; cbn [response_event event_texts event_indices] in *; try done.
  - injection Hev as <- <-. exact Hw1.
  - injection Hev as <- <-. apply worked_metadata; [exact Hw1 | by split_and!].
  - by apply (Hitem output item).
  - destruct (delta_field output si ci kind) as [order fk] eqn:Edf. destruct Hi as (Hio & Hic & Hisum).
    assert (order = mkOrderKey (Some output) (ok_rank order) si ci /\ ok_rank order <> Fallback) as [Hord Hrank] by (unfold delta_field in Edf; destruct kind; injection Edf as <- <-; by split).
    destruct (delta_opened s run d d1 entry entry1 (mkDisplay order fk (if bool_decide (fk = FieldKind.Unsupported) then "Unsupported content" else text)) Ho (proj2 Hs) Hh Hid Hrev)
      as (d3 & e3 & E3 & W1 & W2 & _ & W3); cbn [pt_order pt_text]; try done.
    { rewrite Hord. by unfold u64_key. } { apply Forall_cons in Hu as [Hu _]. by destruct (bool_decide _). }
    { apply Forall_cons in Hroom as [Hroom _]. apply Forall_cons in Hmarks as [Hm _]. by destruct (bool_decide _). }
    rewrite E3 in Hev. injection Hev as <- <-. by apply Hdone.
  - by apply (Hitem output item).
  - unfold bind at 1, lift in Hev. destruct (ordered_parts _) as [parts|] eqn:Ep; [|done]. destruct (response_parts _ _ Ep) as (_ & Hnd & Hp).
    destruct (snapshot_opened s run d d1 entry entry1 None parts Ho (proj2 Hs) Hh Hid Hrev (room_parts d _ _ Ep Hu Hroom) Hnd Hp) as (d3 & e3 & E3 & W1 & W2 & _ & W3); [done|].
    unfold bind in Hev. rewrite E3 in Hev. injection Hev as <- <-. apply worked_metadata; [by apply Hdone | by split_and!].
Qed.

(** The header keeps what its reader checks. *)
Definition header_kept (h h' : BlockHeader) : Prop := bh_human h' = bh_human h /\ bh_outcome h' = bh_outcome h.

Lemma provider_event_step d n s run h ev event h' d' : displayed d n -> n < s -> 0 < s <= i64_max ->
  Forall (fun t => from_utf8 t = true) (event_texts event) -> event_indices event -> Forall (fun t => room d (len t)) (marks ++ event_texts event) ->
  provider_event run s h ev event d = (Ok h', d') -> displayed d' s /\ advanced s d d' /\ d_blocks d' = d_blocks d /\ header_kept h h'.
Proof.
  intros Hd Hn Hs Hu Hi Hroom Hev. pose proof (proj1 (proj1 (Forall_app _ _ _) Hroom)) as Hmarks.
  assert (forall rid, bind (lift (current_turn h ev)) (fun turn => bind (assistant run s turn rid (bh_current_assistant h)) (fun entry =>
      bind (response_event run s (if changes_content event
        then with_metadata (fun m => em_set_state State.InProgress (em_set_provisional true m)) (with_metadata (em_set_response rid) entry)
        else with_metadata (em_set_response rid) entry) event) (fun entry' => bind (save run s entry') (fun _ =>
        ret (bh_set_turn (bh_current_turn h) (Some (show_entry_id (e_id entry))) h))))) d = (Ok h', d') ->
      displayed d' s /\ advanced s d d' /\ d_blocks d' = d_blocks d /\ header_kept h h') as Hresp.
  { intros rid E. unfold bind at 1, lift in E. destruct (current_turn h ev) as [turn|]; [|done].
    apply bind_Ok in E as (entry & d1 & Ha & E). apply (assistant_opened d n) in Ha as [Ho Hsrc]; try done.
    apply bind_Ok in E as (entry2 & d2 & Hr & E).
    apply (response_event_step s run d d1 entry) in Hr; try done; try (by rewrite Hsrc); try (by destruct (changes_content event)).
    destruct (worked_save s run d d1 d2 entry entry2 Ho Hs Hr) as (d3 & row & E3 & Hd3 & Ha3 & _ & Hb3 & _).
    unfold bind in E. rewrite E3 in E. injection E as <- <-. by split_and!. }
  destruct event as [reason|id|id status|id output item|id iid output ci si kind text|id output item|response|code msg up|ty payload];
    cbn [provider_event] in Hev; try (by apply (Hresp _ Hev)).
  - apply bind_Ok in Hev as ([] & d1 & Ho & E). injection E as <- <-. apply (observation_step d n) in Ho as (? & ? & ?); try done.
  - apply bind_Ok in Hev as ([] & d1 & Ho & E). injection E as <- <-. apply (observation_step d n) in Ho as (? & ? & ?); try done.
    intros c u [= <- _]. apply safe_code_safe.
  - apply bind_Ok in Hev as (entry & d1 & Hc & E). apply (create_opened d n) in Hc as [Ho He]; try done; [|apply new_valid; by right; right].
    apply bind_Ok in E as (entry2 & d2 & Hdel & E). injection E as <- <-.
    destruct (delta_opened s run d d1 entry entry (mkDisplay (mkOrderKey None Unsupported None None) FieldKind.Unsupported "Unsupported content") Ho)
      as (d3 & e3 & E3 & W1 & W2 & _ & W3); cbn [pt_order pt_text]; try done; try lia; try (by rewrite He).
    { by apply Forall_cons in Hmarks as [? _]. }
    rewrite E3 in Hdel. injection Hdel as <- <-. destruct (touch_new s run d d1 d3 entry Ho) as [? ?]; [by rewrite He | done | done | apply no_tool; by rewrite He |].
    split_and!; try done. rewrite (rv_blocks _ _ _ _ W2). exact (op_blocks _ _ _ _ _ Ho).
Qed.

Lemma tool_valid run s call m m' : em_source m = Source.Tool call -> entry_valid run s m -> em_source m' = em_source m -> em_failure m' = em_failure m -> em_reference m' = em_reference m ->
  is_some (em_result_recorded m') = true -> is_some (em_finish_recorded m') = true ->
  (em_result_recorded m' = Some true -> is_some (em_is_error m') = true) -> entry_valid run s m'.
Proof using Type.
  intros Hsrc (Hw & Hf & Hr) Hs' Hf' Hr' H1 H2 H3. split; [|split; [by rewrite Hf' | by rewrite Hr']].
  unfold metadata_wrong in *. rewrite Hs', Hr', Hsrc in *. cbn in Hw |- *. rewrite H1, H2. cbn.
  destruct (em_reference m); [cbn in Hw; rewrite ?orb_true_r in Hw; done|]. cbn.
  destruct (bool_decide (em_result_recorded m' = Some true)) eqn:E; [|done]. prop_bools. unfold is_none. by rewrite (H3 E).
Qed.

Lemma tool_recorded run s call m : em_source m = Source.Tool call -> entry_valid run s m ->
  is_some (em_result_recorded m) = true /\ is_some (em_finish_recorded m) = true /\ em_reference m = None /\ (em_result_recorded m = Some true -> is_some (em_is_error m) = true).
Proof using Type.
  intros Hsrc (Hw & _ & _). unfold metadata_wrong in Hw. rewrite Hsrc in Hw. cbn in Hw.
  destruct (em_result_recorded m) as [b|]; [|done]. destruct (em_finish_recorded m); [|done]. cbn in Hw.
  destruct (em_reference m); [cbn in Hw; rewrite ?orb_true_r in Hw; done|]. split_and!; try done. intros [= ->]. cbn in Hw. rewrite bool_decide_eq_true_2 in Hw by done. by destruct (em_is_error m).
Qed.

Lemma tool_event_step d n s run ev event d' : displayed d n -> n < s -> 0 < s <= i64_max ->
  Forall (fun t => from_utf8 t = true) (run_event_texts (EToolEvent event)) -> Forall (fun t => room d (len t)) (run_event_texts (EToolEvent event)) ->
  tool_event run s ev event d = (Ok tt, d') -> displayed d' s /\ advanced s d d' /\ d_blocks d' = d_blocks d.
Proof.
  intros Hd Hn Hs Hu Hroom Hev.
  assert (forall call name entry d0, bind (reads (lookup_entry run s (Source.Tool call))) (fun entry => bind (lift (ok_or entry integrity)) (fun entry =>
      bind (lift (new_key run (e_id entry) (FieldOrder.Indexed (tool_order ToolName)) FieldKind.ToolName)) (fun key =>
      bind (reads (same_text key entry name)) (fun same => if negb same then throw integrity else ret entry)))) d = (Ok entry, d0) ->
      d0 = d /\ first_sequence (e_id entry) <= n /\ opened s run d d entry /\ em_source (e_metadata entry) = Source.Tool call) as Hrec.
  { intros call name entry d0 E. unfold bind at 1, reads in E. destruct (lookup_entry run s (Source.Tool call) d) as [[e|]|] eqn:El; [|done|done].
    unfold bind, lift in E. cbn [ok_or] in E. destruct (new_key _ _ _ _) as [key|]; [|done]. destruct (same_text key e name d) as [[]|]; [|done|done]. injection E as <- <-.
    split; [done|]. split; [|apply (lookup_opened d n); [done | done | lia | done]].
    destruct (lookup_found d n s run (Source.Tool call) e Hd) as (row & Hat & _); [lia | lia | done |].
    pose proof (ea_epoch _ _ _ _ _ _ Hat). pose proof (ea_changed _ _ _ _ _ _ Hat). lia. }
  destruct event as [call name|call name is_error|call name]; cbn [tool_event run_event_texts] in *.
  - apply bind_Ok in Hev as (entry & d1 & Hc & E). apply (create_opened d n) in Hc as [Ho He]; try done.
    apply bind_Ok in E as (entry2 & d2 & Hdel & E). injection E as <-. apply Forall_cons in Hu as [Hu _], Hroom as [Hroom _].
    destruct (delta_opened s run d d1 entry entry (mkDisplay (tool_order ToolName) FieldKind.ToolName name) Ho)
      as (d3 & e3 & E3 & W1 & W2 & Hcon & W3); cbn [pt_order pt_text]; try done; try lia; try (by rewrite He).
    rewrite E3 in Hdel. injection Hdel as <- <-. destruct (touch_new s run d d1 d3 entry Ho) as [? ?]; [by rewrite He | done | done | |].
    { apply (tool_places_contents d1); [exact (dp_stored _ _ (op_displayed _ _ _ _ _ Ho)) | done | |].
      - destruct Ho as [_ _ _ _ (row & Hat & _) _]. exact (ea_tool _ _ _ _ _ _ Hat).
      - intros o Hno _. rewrite Hcon, (op_contents _ _ _ _ _ Ho). apply shown_delta_ne. by intros [= ->]. }
    split_and!; try done. rewrite (rv_blocks _ _ _ _ W2). exact (op_blocks _ _ _ _ _ Ho).
  - apply bind_Ok in Hev as (entry & d0 & Hc & E). apply Hrec in Hc as (-> & Hfirst & Ho & Hsrc). cbv zeta in E. destruct (_ || _); [done|].
    pose proof (opened_valid _ _ _ _ _ Ho) as Hval. destruct (tool_recorded _ _ _ _ Hsrc Hval) as (R1 & R2 & R3 & R4).
    match type of E with save _ _ ?e _ = _ => set (entry2 := e) in E end.
    destruct (close_entry s run d d d entry entry2 Ho Hs (dp_stored _ _ Hd)) as (d3 & row & E3 & Hd3 & Ha3 & _ & Hb3 & _); try done.
    { cbn. by destruct (bool_decide _). }
    { cbn. eapply (tool_valid _ _ call (e_metadata entry)); try done; destruct (bool_decide (em_result_recorded (e_metadata entry) = Some false)); done. }
    { by destruct Ho as [_ _ _ _ (row & Hat & _) _]; exact (ea_tool _ _ _ _ _ _ Hat). } { right. split; [done | apply stable_refl]. }
    rewrite E3 in E. injection E as <-. done.
  - apply bind_Ok in Hev as (entry & d0 & Hc & E). apply Hrec in Hc as (-> & Hfirst & Ho & Hsrc). cbv zeta in E. destruct (bool_decide (em_result_recorded (e_metadata entry) = Some true)) eqn:Er; [|done]. prop_bools. cbn [negb] in E.
    apply bind_Ok in E as (entry2 & d1 & Hc & E). injection E as <-.
    pose proof (opened_valid _ _ _ _ _ Ho) as Hval. destruct (tool_recorded _ _ _ _ Hsrc Hval) as (R1 & R2 & R3 & R4). specialize (R4 Er).
    apply (create_opened d n) in Hc as [Ho2 _]; try done; [by destruct Ho2|].
    split; [|split; [done|]].
    + unfold metadata_wrong. cbn. rewrite Z.eqb_refl, R1, R2, Er. cbn. unfold is_none. by rewrite R4.
    + intros r [= <-]. exists (e_id entry). destruct Ho as [_ _ _ _ (row & Hat & _) _]. split; [apply parse_shown; by apply (ea_id _ _ _ _ _ _ Hat)|].
      unfold entry_le. cbn. rewrite (proj2 (Z.ltb_ge _ _)), (proj2 (Z.eqb_neq _ _)) by lia. done.
Qed.

(** ** Settling *)
Definition touches (m : EntryMetadata) : bool :=
  match em_source m with Source.Assistant _ | Source.Tool _ => true | _ => false end && em_provisional m.
Definition candidate (run : string) (after : Z * Z) (kr : EntryRef * EntryRow) : bool :=
  bool_decide (fst (fst kr) = run) && is_after after (snd kr) && one_of (er_kind (snd kr)) ["assistant"; "tool"] && json_provisional (er_metadata_json (snd kr)).

Lemma candidate_touches d n run id m row after : entry_at d n run id m row ->
  candidate run after ((run, show_entry_id id), row) = is_after after row && touches m.
Proof.
  intros Hat. unfold candidate, touches. cbn [fst snd]. rewrite bool_decide_eq_true_2 by done. rewrite (provisional_round _ _ (ea_json _ _ _ _ _ _ Hat)), (ea_kind _ _ _ _ _ _ Hat).
  rewrite <- andb_assoc. cbn [andb]. f_equal. by destruct (em_source m).
Qed.

#[local] Instance entry_before_total : Total entry_before.
Proof using Type. intros a b. unfold entry_before. lia. Qed.
#[local] Instance entry_before_trans : Transitive entry_before.
Proof using Type. intros a b c. unfold entry_before. lia. Qed.

Lemma next_provisional_spec run after d :
  match next_provisional run after d with
  | Some (ref, row) => d_entries d !! ref = Some row /\ candidate run after (ref, row) = true /\
      forall ref' row', d_entries d !! ref' = Some row' -> candidate run after (ref', row') = true -> entry_before (ref, row) (ref', row')
  | None => forall ref row, d_entries d !! ref = Some row -> candidate run after (ref, row) = false
  end.
Proof using Type.
  unfold next_provisional. fold (candidate run after). set (l := List.filter (candidate run after) (map_to_list (d_entries d))).
  assert (forall ref row, (ref, row) ∈ l <-> d_entries d !! ref = Some row /\ candidate run after (ref, row) = true) as Hl.
  { intros ref row. unfold l. rewrite list_elem_of_In, List.filter_In, <- list_elem_of_In. by rewrite elem_of_map_to_list. }
  assert (forall x, x ∈ merge_sort entry_before l <-> x ∈ l) as Hm by (intros; by rewrite merge_sort_Permutation).
  assert (StronglySorted entry_before (merge_sort entry_before l)) as Hs by (apply Sorted_StronglySorted; [exact entry_before_trans | apply (Sorted_merge_sort entry_before)]). destruct (merge_sort entry_before l) as [|[ref row] rest] eqn:E; cbn [head].
  - intros ref row Hr. destruct (candidate run after (ref, row)) eqn:Ec; [|done]. assert ((ref, row) ∈ l) as Hin by by apply Hl. apply Hm in Hin. by apply not_elem_of_nil in Hin.
  - assert ((ref, row) ∈ l) as [Hr Hc]%Hl by (apply Hm; by left). split; [done|]. split; [done|]. intros ref' row' Hr' Hc'.
    assert ((ref', row') ∈ l) as Hin by by apply Hl. apply Hm, elem_of_cons in Hin as [[= -> ->]|Hin]; [right; lia|].
    apply StronglySorted_cons in Hs as [Hs _]. rewrite Forall_forall in Hs. by apply Hs.
Qed.

Lemma is_after_trans after row row' : is_after after row = true -> is_after (er_first_sequence row, er_position_slot row) row' = true -> is_after after row' = true.
Proof using Type. unfold is_after. cbn [fst snd]. rewrite !orb_true_iff, !andb_true_iff, !Z.ltb_lt, !Z.eqb_eq. lia. Qed.

Lemma is_after_self row row' : er_first_sequence row' = er_first_sequence row -> er_position_slot row' = er_position_slot row ->
  is_after (er_first_sequence row, er_position_slot row) row' = false.
Proof using Type. unfold is_after. intros -> ->. cbn [fst snd]. rewrite !Z.ltb_irrefl, andb_false_r. done. Qed.

(** The entries that are still to come. *)
Definition ahead (run : string) (after : Z * Z) (d : Rows) : gset EntryRef :=
  dom (filter (fun kr => fst (fst kr) = run /\ is_after after (snd kr) = true) (d_entries d)).

Lemma ahead_in run after d ref : ref ∈ ahead run after d <-> exists row, d_entries d !! ref = Some row /\ fst ref = run /\ is_after after row = true.
Proof using Type.
  unfold ahead. rewrite elem_of_dom. unfold is_Some. setoid_rewrite map_lookup_filter_Some. cbn. naive_solver.
Qed.

Lemma ahead_step run after d d2 ref row row2 : d_entries d !! ref = Some row -> fst ref = run -> is_after after row = true ->
  d_entries d2 = <[ref := row2]> (d_entries d) -> er_first_sequence row2 = er_first_sequence row -> er_position_slot row2 = er_position_slot row ->
  (size (ahead run (er_first_sequence row, er_position_slot row) d2) < size (ahead run after d))%nat.
Proof using Type.
  intros Hr Hrun Hafter He Hf Hp. apply subset_size. split.
  - intros ref'. rewrite !ahead_in, He. intros (row' & Hr' & Hrun' & Ha'). destruct (decide (ref' = ref)) as [-> |Hn]; [by exists row|].
    rewrite lookup_insert_ne in Hr' by done. exists row'. split_and!; try done. by eapply is_after_trans.
  - intros Hsub. assert (ref ∈ ahead run (er_first_sequence row, er_position_slot row) d2) as Hin by (apply Hsub, ahead_in; by exists row).
    apply ahead_in in Hin as (row' & Hr' & _ & Ha'). rewrite He, lookup_insert_eq in Hr'. injection Hr' as <-. by rewrite is_after_self in Ha'.
Qed.

Lemma settled_checks state m : same_checks m (settled_metadata state m).
Proof using Type. unfold settled_metadata. destruct (is_tool _); [by split_and!|]. destruct (unsettled _); by split_and!. Qed.

Lemma entry_at_unique d n run id m m' row row' : entry_at d n run id m row -> entry_at d n run id m' row' -> m' = m /\ row' = row.
Proof.
  intros A B. pose proof (ea_row _ _ _ _ _ _ A) as Ha. rewrite (ea_row _ _ _ _ _ _ B) in Ha. injection Ha as ->. split; [|done].
  pose proof (proj1 (metadata_round _ _ (ea_json _ _ _ _ _ _ A))) as Ja. rewrite (proj1 (metadata_round _ _ (ea_json _ _ _ _ _ _ B))) in Ja. congruence.
Qed.

Lemma settle_from_ok run s state fuel : forall d after, displayed d s -> 0 < s <= i64_max -> (size (ahead run after d) < fuel)%nat ->
  exists d', settle_from fuel run s state after d = (Ok tt, d') /\ displayed d' s /\ advanced s d d' /\ contents d' = contents d /\ d_blocks d' = d_blocks d /\
    forall run' id m row, entry_at d s run' id m row -> exists row',
      entry_at d' s run' id (if bool_decide (run' = run) && (is_after after row && touches m) then settled_metadata state m else m) row'.
Proof.
  induction fuel as [|fuel IH]; intros d after Hd Hs Hfuel; [lia|]. cbn [settle_from]. unfold gets, bind at 1.
  pose proof (next_provisional_spec run after d) as Hnext. destruct (next_provisional run after d) as [[[run0 ref] row]|].
  2:{ exists d. split; [done|]. split; [done|]. split; [done|]. split; [done|]. split; [done|]. intros run' id m row Hat. exists row.
      destruct (bool_decide (run' = run)) eqn:Er; [|done]. prop_bools. subst run'. cbn [andb]. rewrite <- (candidate_touches _ _ _ _ _ _ after Hat).
      by rewrite (Hnext _ _ (ea_row _ _ _ _ _ _ Hat)). }
  destruct Hnext as (Hr & Hc & Hmin). destruct (dp_entries _ _ Hd _ _ _ Hr) as (id & m & -> & Hat).
  assert (run0 = run) as -> by (unfold candidate in Hc; cbn in Hc; by prop_bools). cbn [snd].
  pose proof (candidate_touches _ _ _ _ _ _ after Hat) as Hct. rewrite Hc in Hct. symmetry in Hct. apply andb_true_iff in Hct as [Hafter Htouch].
  ok; [|apply (entry_row_ok d s s); [done | lia | lia]].
  destruct (commit_entry d s s run id m row d (with_metadata (settled_metadata state) (mkEntry id (er_content_epoch row) (er_changed_sequence row) m)) Hd)
    as (d2 & row2 & E2 & Hd2 & Ha2 & Hc2 & Hb2 & He2 & Hat2 & _ & _ & Hfd2); try done.
  { exact (dp_stored _ _ Hd). } { cbn. by destruct (settled_checks state m) as (? & _). }
  { cbn. eapply same_checks_valid; [apply settled_checks | exact (ea_valid _ _ _ _ _ _ Hat)]. } { exact (ea_tool _ _ _ _ _ _ Hat). } { right. split; [done | apply stable_refl]. }
  ok_by E2. cbn [e_id]. pose proof (ea_id _ _ _ _ _ _ Hat) as [[? ?] ?]. pose proof (ea_epoch _ _ _ _ _ _ Hat). pose proof (ea_changed _ _ _ _ _ _ Hat).
  ok; [|apply integer_ok; lia]. ok; [|apply integer_ok; lia]. rewrite <- (ea_first _ _ _ _ _ _ Hat), <- (ea_slot _ _ _ _ _ _ Hat).
  cbn [e_metadata with_metadata] in Hat2.
  assert (er_first_sequence row2 = er_first_sequence row /\ er_position_slot row2 = er_position_slot row) as [Hf2 Hp2].
  { rewrite (ea_first _ _ _ _ _ _ Hat2), (ea_slot _ _ _ _ _ _ Hat2), (ea_first _ _ _ _ _ _ Hat), (ea_slot _ _ _ _ _ _ Hat). done. }
  pose proof (ahead_step run after d d2 _ row row2 Hr eq_refl Hafter He2 Hf2 Hp2) as Hlt.
  destruct (IH d2 (er_first_sequence row, er_position_slot row) Hd2 Hs) as (d' & E' & Hd' & Ha' & Hc' & Hb' & Heff); [lia|].
  exists d'. split; [exact E'|]. split; [done|]. split; [by etransitivity|]. split; [congruence|]. split; [congruence|].
  intros run' id' m' row' Hat'. destruct (decide ((run', show_entry_id id') = (run, show_entry_id id))) as [Heq|Hne].
  - pose proof (f_equal fst Heq) as Hrun. pose proof (f_equal snd Heq) as Hide. cbn in Hrun, Hide. subst run'.
    apply (f_equal parse_entry_id) in Hide. rewrite !parse_shown in Hide by (apply (ea_id _ _ _ _ _ _ Hat') || apply (ea_id _ _ _ _ _ _ Hat)). injection Hide as ->.
    destruct (entry_at_unique _ _ _ _ _ _ _ _ Hat Hat') as [-> ->]. rewrite bool_decide_eq_true_2 by done. rewrite Hafter, Htouch. cbn [andb].
    destruct (Heff _ _ _ _ Hat2) as [row3 Hat3]. rewrite is_after_self in Hat3 by done. rewrite andb_false_r in Hat3. by exists row3.
  - assert (entry_at d2 s run' id' m' row') as Hat2'.
    { eapply entry_at_frame; [exact Hat' | lia | rewrite He2, lookup_insert_ne by done; exact (ea_row _ _ _ _ _ _ Hat') |].
      intros fid. by rewrite Hfd2. }
    destruct (Heff _ _ _ _ Hat2') as [row3 Hat3]. exists row3.
    assert (bool_decide (run' = run) && (is_after after row' && touches m') = bool_decide (run' = run) && (is_after (er_first_sequence row, er_position_slot row) row' && touches m')) as ->; [|done].
    destruct (bool_decide (run' = run)) eqn:Er; [|done]. prop_bools. subst run'. cbn [andb]. destruct (touches m') eqn:Et; [|by rewrite !andb_false_r]. rewrite !andb_true_r.
    destruct (is_after after row') eqn:Ea.
    + symmetry. assert (entry_before ((run, show_entry_id id), row) ((run, show_entry_id id'), row')) as Hb.
      { apply Hmin; [exact (ea_row _ _ _ _ _ _ Hat')|]. by rewrite (candidate_touches _ _ _ _ _ _ after Hat'), Ea, Et. }
      unfold entry_before in Hb. cbn [snd] in Hb. unfold is_after. cbn [fst snd]. rewrite orb_true_iff, andb_true_iff, !Z.ltb_lt, Z.eqb_eq.
      destruct Hb as [?|[Hfe Hpe]]; [by left|]. destruct (decide (er_position_slot row = er_position_slot row')) as [Hpp|]; [|right; lia].
      exfalso. apply Hne. f_equal. f_equal. rewrite (ea_first _ _ _ _ _ _ Hat), (ea_first _ _ _ _ _ _ Hat') in Hfe. rewrite (ea_slot _ _ _ _ _ _ Hat), (ea_slot _ _ _ _ _ _ Hat') in Hpp.
      destruct id, id'. cbn in *. congruence.
    + symmetry. apply not_true_is_false. intros Ha3. by rewrite (is_after_trans after row row' Hafter Ha3) in Ea.
Qed.

Lemma settle_ok run s state d : displayed d s -> 0 < s <= i64_max ->
  exists d', settle run s state d = (Ok tt, d') /\ displayed d' s /\ advanced s d d' /\ contents d' = contents d /\ d_blocks d' = d_blocks d /\
    forall run' id m row, entry_at d s run' id m row -> exists row',
      entry_at d' s run' id (if bool_decide (run' = run) && touches m then settled_metadata state m else m) row'.
Proof.
  intros Hd Hs. destruct (settle_from_ok run s state (S (size (d_entries d))) d (0, 0) Hd Hs) as (d' & E & Hd' & Ha & Hc & Hb & Heff).
  { unfold ahead. rewrite <- (size_dom (d_entries d)). apply Nat.lt_succ_r, subseteq_size. apply dom_filter_subseteq. }
  exists d'. split; [exact E|]. split_and!; try done. intros run' id m row Hat. destruct (Heff _ _ _ _ Hat) as [row' Hat']. exists row'.
  assert (is_after (0, 0) row = true) as Haf; [|by rewrite Haf in Hat'].
  pose proof (ea_id _ _ _ _ _ _ Hat) as [[? ?] _]. unfold is_after. cbn [fst]. rewrite (ea_first _ _ _ _ _ _ Hat), (proj2 (Z.ltb_lt _ _)) by lia. done.
Qed.

(** ** Every event *)
Definition header_safe (h h' : BlockHeader) : Prop := bh_human h' = bh_human h /\
  forall o, bh_outcome h' = Some o -> bh_outcome h = Some o \/ exists r, o = Outcome.new r.

Lemma outcome_safe r : match Outcome.new r with Outcome.Failed code => safe_code code = code | _ => True end.
Proof using Type. destruct r; try done. apply safe_code_safe. Qed.

Lemma kept_safe h h' : header_kept h h' -> header_safe h h'.
Proof using Type. intros [Hh Ho]. split; [done|]. rewrite Ho. by left. Qed.

Lemma finish_block d n s run h h' d1 d' row : displayed d n -> n < s -> 0 < s <= i64_max -> d_blocks d !! run = Some row -> block_at n row h ->
  displayed d1 s -> advanced s d d1 -> d_blocks d1 = d_blocks d -> header_safe h h' -> save_block run s h' d1 = (Ok tt, d') ->
  displayed d' s /\ advanced s d d'.
Proof.
  intros Hd Hn Hs Hr Hb Hd1 Ha1 Hb1 [Hhu Hout] E.
  destruct (save_block_ok d1 s run h' h row Hd1 Hs) as (d2 & json & E2 & Hd2 & Ha2 & _); try done.
  { by rewrite Hb1. } { eapply block_at_mono; [exact Hb | lia]. }
  { intros o Ho. destruct (Hout o Ho) as [Ho'|[r ->]]; [by apply (ba_outcome _ _ _ Hb)|]. apply outcome_safe. }
  rewrite E2 in E. injection E as <-. split; [done|]. by etransitivity.
Qed.

Lemma observe_step d n s run ev d' : displayed d n -> n < s -> 0 < s <= i64_max -> input_typed (Input.Runtime ev) -> fits d (Input.Runtime ev) ->
  observe run s ev d = (Ok tt, d') -> displayed d' s /\ advanced s d d'.
Proof.
  intros Hd Hn Hs [Hu Hi] Hfit Hev. unfold observe in Hev. destruct (_ || _); [done|]. unfold bind at 1, reads in Hev.
  destruct (block run s d) as [h|] eqn:Eb; [|done]. apply (block_ok d n) in Eb as (row & Hr & Hblock); [|done|lia]. destruct (negb (open_state _)); [done|].
  apply bind_Ok in Hev as (h' & d1 & Hh & Hsave). pose proof (displayed_mono d n s Hd ltac:(lia)) as Hds.
  assert (displayed d1 s /\ advanced s d d1 /\ d_blocks d1 = d_blocks d /\ header_safe h h') as (D1 & A1 & B1 & S1); [|exact (finish_block d n s run h h' d1 d' row Hd Hn Hs Hr Hblock D1 A1 B1 S1 Hsave)].
  unfold fits in Hfit. cbn [input_texts] in Hu, Hfit. destruct (ev_event ev) as [|number|provider|tool|number rid outcome up|outcome summary]; cbn [run_event_texts] in *.
  - destruct (negb _); [done|]. injection Hh as <- <-. split; [done|]. split; [done|]. split; [done|]. apply kept_safe; by split.
  - destruct (is_some _); [done|]. unfold bind, lift in Hh. destruct (ok_or _ _); [|done]. injection Hh as <- <-. split; [done|]. split; [done|]. split; [done|]. apply kept_safe; by split.
  - destruct (negb _); [done|]. apply (provider_event_step d n) in Hh as (? & ? & ? & ?%kept_safe); try done.
  - unfold bind at 1, lift in Hh. destruct (current_turn h ev); [|done]. apply bind_Ok in Hh as ([] & d2 & Ht & E). injection E as <- <-.
    apply Forall_app in Hfit as [_ Hfit]. apply (tool_event_step d n) in Ht as (? & ? & ?); try done. split; [done|]. split; [done|]. split; [done|]. apply kept_safe; by split.
  - unfold bind at 1, lift in Hh. destruct (current_turn h ev) as [turn|]; [|done]. unfold bind at 1, reads in Hh.
    destruct (lookup_entry run s (Source.Assistant turn) d) as [found|] eqn:El; [|done]. destruct (negb _); [done|].
    apply bind_Ok in Hh as ([] & d2 & Hsv & E). injection E as <- <-. assert (header_safe h (bh_set_turn None None h)) as Hsafe by (apply kept_safe; by split).
    destruct found as [entry|]; [|injection Hsv as <-; done]. destruct (em_provisional (e_metadata entry)); [|injection Hsv as <-; done].
    destruct (lookup_opened d n s run _ entry Hd Hn (proj2 Hs) El) as [Ho Hsrc].
    match type of Hsv with save _ _ ?e _ = _ => set (entry2 := e) in Hsv end.
    destruct (worked_save s run d d d entry entry2 Ho Hs) as (d3 & row3 & E3 & ? & ? & _ & ? & _).
    { apply (worked_metadata s run d d entry entry (fun _ => _)); [by eapply idle_worked|]. destruct outcome; try (by split_and!). destruct (unsettled _); by split_and!. }
    rewrite E3 in Hsv. injection Hsv as <-. done.
  - apply bind_Ok in Hh as ([] & d2 & Hst & E). injection E as <- <-. destruct (settle_ok run s (State.unfinished outcome) d Hds Hs) as (d3 & E3 & ? & ? & _ & ? & _).
    rewrite E3 in Hst. injection Hst as <-. split; [done|]. split; [done|]. split; [done|]. split; [done|]. intros o [= <-]. right. by exists outcome.
Qed.

Lemma tool_result_step d n s run request call output is_error d' : displayed d n -> n < s -> 0 < s <= i64_max ->
  input_typed (Input.ToolResult request call output is_error) -> fits d (Input.ToolResult request call output is_error) ->
  tool_result run s request call output is_error d = (Ok tt, d') -> displayed d' s /\ advanced s d d'.
Proof.
  intros Hd Hn Hs [Hu _] Hfit E. unfold tool_result in E. apply Forall_app in Hfit as [_ Hfit]. cbn [input_texts] in Hu, Hfit. apply Forall_cons in Hu as [Hu _], Hfit as [[[Hpos Hlen] _] _].
  unfold bind at 1, reads in E. destruct (block run s d) as [h|]; [|done]. destruct (negb _); [done|].
  unfold bind at 1 in E. destruct (lookup_entry run s (Source.Tool call) d) as [[entry|]|] eqn:El; [|done|done].
  destruct (lookup_opened d n s run _ entry Hd Hn (proj2 Hs) El) as [Ho Hsrc]. unfold bind at 1, lift in E. cbn [ok_or] in E. destruct (_ || _); [done|].
  pose proof (opened_ready _ _ _ _ _ Ho (proj2 Hs) ltac:(by rewrite Hsrc)) as Hre. assert (u64_key (tool_order ToolOutput)) as Hk by by (unfold u64_key; cbn; split_and!; intros ? [=]).
  destruct (ready_key d run (e_id entry) (tool_order ToolOutput) FieldKind.ToolResult Hre Hk) as (Hnew & Hak & Hv).
  unfold bind at 1 in E. rewrite Hnew in E. set (key := the_key _ _ _ _) in *. apply bind_Ok in E as (desc & d1 & Hins & E).
  assert (d_fields d !! fk_ref key = None) as Hnone.
  { unfold insert_field, insert_row in Hins. unfold bind, lift, reads, require_constraint in Hins.
    destruct (key_generation key s); [|done]. destruct (length_of output); [|done]. destruct (validate_entry key d); [|done]. destruct (integer _); [|done].
    cbv beta in Hins. destruct (d_fields d !! fk_ref key); [|done]. cbn [is_none is_some negb] in Hins. rewrite andb_false_r in Hins. done. }
  destruct (insert_step d key s output (dp_stored _ _ Hd) Hak Hv) as (d2 & E2 & Hws2 & Hrv2 & _ & _ & Hc2); try done.
  { pose proof (opened_first _ _ _ _ _ Ho). cbn. lia. }
  { exact (place_free d run (e_id entry) (tool_order ToolOutput) FieldKind.ToolResult (dp_stored _ _ Hd) Hre Hk Hnone). }
  rewrite E2 in Hins. injection Hins as <- <-.
  match type of E with save _ _ ?e _ = _ => set (entry2 := e) in E end.
  pose proof (opened_valid _ _ _ _ _ Ho) as Hval. destruct (tool_recorded _ _ _ _ Hsrc Hval) as (R1 & R2 & R3 & R4).
  assert (tool_places d (run, show_entry_id (e_id entry)) (e_metadata entry)) as Htool by (destruct Ho as [_ _ _ _ (row & Hat & _) _]; exact (ea_tool _ _ _ _ _ _ Hat)).
  destruct (close_entry s run d d d2 entry entry2 Ho Hs Hws2 Hrv2) as (d3 & row & E3 & Hd3 & Ha3 & _); try done.
  { by apply (tool_valid _ _ call (e_metadata entry)). }
  { apply (tool_places_contents d); [exact (dp_stored _ _ Hd) | done | done |]. intros o _ Hno. rewrite Hc2. apply lookup_insert_ne. intros Heq%(f_equal snd). by apply Hno. }
  { right. split; [done|]. rewrite Hc2. apply stable_insert.
    - intros k t Hx. change (contents d !! ((run, show_entry_id (e_id entry)), show_key (tool_order ToolOutput)) = Some (k, t)) in Hx.
      rewrite (place_free d run (e_id entry) (tool_order ToolOutput) FieldKind.ToolResult (dp_stored _ _ Hd) Hre Hk Hnone) in Hx. done.
    - intros _ o' [kt Hx]. apply contents_lookup in Hx as (fid & fr & Hfr & <- & _); [|exact (dp_stored _ _ Hd)].
      unfold tool_places in Htool. rewrite Hsrc in Htool. destruct (Htool fid fr Hfr) as [-> |Ho2]; [done|]. exfalso.
      by apply (contents_none _ _ _ (dp_stored _ _ Hd) (place_free d run (e_id entry) (tool_order ToolOutput) FieldKind.ToolResult (dp_stored _ _ Hd) Hre Hk Hnone) fid fr Hfr). }
  rewrite E3 in E. injection E as <-. done.
Qed.

Lemma accept_step d n s run input d' : displayed d n -> n < s -> 0 < s <= i64_max -> input_typed (Input.Accepted input) -> fits d (Input.Accepted input) ->
  accept run s input d = (Ok tt, d') -> displayed d' s /\ advanced s d d'.
Proof.
  intros Hd Hn Hs [Hu _] Hfit E. apply Forall_app in Hfit as [_ Hfit]. cbn [input_texts] in Hu, Hfit. apply Forall_cons in Hu as [Hu _], Hfit as [[[Hpos Hlen] _] _].
  unfold accept in E. unfold new_entry_id in E. rewrite (proj2 (Z.eqb_neq s 0)) in E by lia. cbn [ok_or] in E. unfold bind at 1, lift in E.
  set (id := mkEntryId s 0) in *. set (h := mkHeader _ _ _ _ _ _ _ _ _) in E. unfold bind at 1 in E. rewrite integer_ok in E by lia.
  destruct (header_total h) as [json Hj]. unfold encode_header in E. rewrite Hj in E. cbn [ok_or] in E. unfold bind at 1 in E.
  set (d0 := with_blocks (<[run := mkBlockRow s s json]> (d_blocks d)) d).
  apply bind_Ok in E as ([] & d0' & Hins & E). assert (d0' = d0) as ->.
  { unfold insert_block, bind, require_constraint in Hins. destruct (_ && _); [|done]. by injection Hins as <-. }
  assert (entry_id_ok id) as Hid by (split; simpl; [destruct Hs as [? Hs%i64_u64]; lia | unfold u64_max; lia]).
  assert (displayed d0 s) as Hd0.
  { pose proof (displayed_mono d n s Hd ltac:(lia)) as [D1 D2 D3 D4]. split; [by apply well_stored_blocks | |done|].
    - intros run' id' row' Hr'. destruct (D2 _ _ _ Hr') as (eid & m & -> & Hat). exists eid, m. split; [done|]. by eapply entry_at_frame; [exact Hat|..].
    - intros run' row' Hr'. cbn in Hr'. destruct (decide (run' = run)) as [-> |Hne]; [|rewrite lookup_insert_ne in Hr' by done; by apply (D4 run')].
      rewrite lookup_insert_eq in Hr'. injection Hr' as <-. exists h. split; cbn; try done; try lia. by apply parse_shown. }
  assert (advanced s d d0) as Had0.
  { split; [intros ref row Hr; exists row; split_and!; try done; right; split; [done | apply stable_refl] | intros ref row Hr; by right |].
    intros ref row Hr. right. exists row, EmptyString. by rewrite append_empty. }
  apply bind_Ok in E as (entry & d1 & Hc & E).
  assert (lookup_entry run s Source.Human d0 = Ok None) as Hl.
  { unfold create, bind at 1, reads in Hc. cbn [em_source new_metadata] in Hc. destruct (lookup_entry run s Source.Human d0) as [[?|]|]; done. }
  destruct (create_entry d0 s run (new_metadata Source.Human State.Accepted false) Hd0) as (d1' & row & E1 & Hd1 & Ha1 & Hcon & Hbl & _ & _ & Hat & Hep & Hnf); try done.
  { exact (displayed_before d n s Hd Hn). }
  rewrite E1 in Hc. injection Hc as <- <-. fold id in Hat, Hnf. set (key := mkFieldKey run id "text" FieldOrder.Human FieldKind.Text).
  assert (new_key run id FieldOrder.Human FieldKind.Text = Ok key) as Hkey.
  { unfold new_key. rewrite !integer_ok by (simpl; lia). by rewrite bool_decide_eq_true_2. }
  cbn [e_id] in E. fold id in E. unfold bind at 1, lift in E. rewrite Hkey in E. apply bind_Ok in E as (desc & d2 & Hf & E). injection E as <-.
  assert (validate_entry key d1' = Ok tt) as Hv.
  { unfold validate_entry. cbn [fk_run fk_entry key fk_order]. rewrite (ea_row _ _ _ _ _ _ Hat). cbn [ok_or].
    rewrite (ea_first _ _ _ _ _ _ Hat), (ea_slot _ _ _ _ _ _ Hat), !unsigned_ok, !Z.eqb_refl, (ea_kind _ _ _ _ _ _ Hat) by (simpl; lia). cbn. by rewrite bool_decide_eq_true_2. }
  destruct (insert_step d1' key s (user_text input) (dp_stored _ _ Hd1) (conj Hkey I) Hv) as (d2' & E2 & Hws2 & Hrv2 & _ & _ & _); try done; try (simpl; lia).
  { exact (Hnf "text"). }
  { destruct (contents d1' !! _) as [kt|] eqn:Ec; [|done]. apply contents_lookup in Ec as (fid & fr & Hfr & _); [|exact (dp_stored _ _ Hd1)].
    change (d_fields d1' !! ((run, show_entry_id id), fid) = Some fr) in Hfr. by rewrite Hnf in Hfr. }
  rewrite E2 in Hf. injection Hf as <- <-.
  destruct (touch_new s run d0 d1' d2' (mkEntry id s s (new_metadata Source.Human State.Accepted false))) as [Hd2 Ha2]; try done.
  { split; try done; [exists row; split; [done|]; cbn; split; [done|]; pose proof (ea_epoch _ _ _ _ _ _ Hat); pose proof (ea_changed _ _ _ _ _ _ Hat); lia|].
    intros fid fr Hfr. cbn in Hfr. by rewrite Hnf in Hfr. }
  split; [done|]. by etransitivity.
Qed.

(** Every event keeps the invariant, and advances the rows by its number. *)
Lemma project_step d n s run input d' : displayed d n -> n < s -> 0 < s <= i64_max -> input_typed input -> fits d input ->
  project run s input d = (Ok tt, d') -> displayed d' s /\ advanced s d d'.
Proof.
  intros Hd Hn Hs Hty Hfit E. pose proof (displayed_mono d n s Hd ltac:(lia)) as Hds. destruct input; cbn [project] in E; try done.
  - by apply (accept_step d n s run input).
  - unfold bind, reads in E. destruct (block run s d); [|done]. injection E as <-. by split.
  - unfold bind, reads in E. destruct (block run s d); [|done]. injection E as <-. by split.
  - by apply (observe_step d n s run event).
  - by apply (tool_result_step d n s run request_id call_id output is_error).
  - destruct (negb _); [done|]. unfold bind at 1, reads in E. destruct (block run s d) as [h|] eqn:Eb; [|done]. apply (block_ok d n) in Eb as (row & Hr & Hblock); [|done|lia].
    destruct (_ || _); [done|]. cbv zeta in E. destruct (_ || _); [done|]. destruct (settle_ok run s (State.unfinished (res_outcome result)) d Hds Hs) as (d1 & E1 & D1 & A1 & _ & B1 & _).
    unfold bind in E. rewrite E1 in E. refine (finish_block d n s run h _ d1 d' row Hd Hn Hs Hr Hblock D1 A1 B1 _ E).
    split; [done|]. intros o [= <-]. right. by eexists.
  - unfold bind at 1, reads in E. destruct (block run s d) as [h|] eqn:Eb; [|done]. apply (block_ok d n) in Eb as (row & Hr & Hblock); [|done|lia].
    destruct (negb _); [done|]. destruct (settle_ok run s State.Interrupted d Hds Hs) as (d1 & E1 & D1 & A1 & _ & B1 & _).
    unfold bind in E. rewrite E1 in E. refine (finish_block d n s run h _ d1 d' row Hd Hn Hs Hr Hblock D1 A1 B1 _ E). apply kept_safe. by split.
Qed.
End steps.
