(* ===== verification/Displays.v ===== *)
(** * The display of a session

    The contents an event of a response is meant to show, and that the projector shows
    them; what the end of a run settles; and what every event leaves of what a reader
    has seen. *)
From stdpp Require Import sorting.
From S2P Require Import Prelude Json Errors Identifiers Provider Tools Replay RunData Records Store History Session RunStore Text Positions Chunks Projection Fields Contents Projector Shown.

(** ** What an event of a response shows *)

(** The response an event is about. *)
Definition response_of (event : ProviderEvent) : option string :=
  match event with
  | PResponseStarted id | PResponseStatus id _ | POutputItemStarted id _ _ | POutputItemUpdated id _ _ _ _ _ _ | POutputItemFinished id _ _ => Some id
  | PResponseFinished response => Some (Provider.response_id response)
  | _ => None
  end.

(** The contents after it: a delta adds to one place, an item or a whole response takes
    the places it covers. *)
Definition delta_part (output : Z) (content summary : option Z) (kind : DeltaKind) (text : string) : Part :=
  let '(order, field_kind) := delta_field output summary content kind in
  mkDisplay order field_kind (if bool_decide (field_kind = FieldKind.Unsupported) then "Unsupported content" else text).
Definition shown_event (e : EntryRef) (event : ProviderEvent) (m : gmap FieldRef (string * string)) : gmap FieldRef (string * string) :=
  match event with
  | POutputItemUpdated _ _ output content summary kind text =>
      let part := delta_part output content summary kind text in shown_delta (e, show_key (pt_order part)) part m
  | POutputItemStarted _ output item | POutputItemFinished _ output item =>
      shown_snapshot e (Some output) (display_part <$> (mkField output <$> project_item item)) m
  | PResponseFinished response => shown_snapshot e None (display_part <$> project_response response) m
  | _ => m
  end.
(** The indices of its parts are [u64]. *)
Definition indexed (event : ProviderEvent) : bool :=
  match event with
  | POutputItemStarted _ output item | POutputItemFinished _ output item => is_ok (ordered_parts (mkField output <$> project_item item))
  | PResponseFinished response => is_ok (ordered_parts (project_response response))
  | _ => true
  end.
(** And the metadata of the entry. *)
Definition shown_metadata (event : ProviderEvent) (m : EntryMetadata) : EntryMetadata :=
  match event with
  | PResponseStatus id status => em_set_state (State.status status) (em_set_response id m)
  | POutputItemStarted id _ _ | POutputItemUpdated id _ _ _ _ _ _ | POutputItemFinished id _ _ =>
      em_set_state State.InProgress (em_set_provisional true (em_set_response id m))
  | PResponseFinished r => em_set_provenance (output_provenance r) (em_set_provisional false
      (em_set_state (State.response (outcome r)) (em_set_response (Provider.response_id r) m)))
  | PResponseStarted id => em_set_response id m
  | _ => m
  end.

(** ** What the end of a run settles *)

(** The state the unfinished entries of the run are given and the header it ends with, when
    the event ends a run that has this header. *)
Definition run_end (run : string) (input : Input.t) (h : BlockHeader) : option (State.t * BlockHeader) :=
  let closed view summary h := bh_set_turn None None (bh_set_outcome view summary (bh_set_state (Outcome.state view) h)) in
  match input with
  | Input.Interrupted =>
      if open_state (bh_state h) then Some (State.Interrupted, bh_set_turn None None (bh_set_state RecordedRunState.Interrupted h)) else None
  | Input.Runtime ev =>
      match ev_event ev with
      | RunFinished outcome summary =>
          if bool_decide (ev_run_id ev = run) && (ev_schema_version ev =? 2) && open_state (bh_state h)
          then Some (State.unfinished outcome, closed (Outcome.new outcome) summary h) else None
      | _ => None
      end
  | Input.Result result =>
      let view := Outcome.new (res_outcome result) in
      if bool_decide (res_run_id result = run) && negb (bh_result_recorded h) && negb (bool_decide (bh_state h = RecordedRunState.Interrupted))
         && match bh_outcome h with Some old => bool_decide (old = view) | None => negb (res_events_complete result) end
      then Some (State.unfinished (res_outcome result),
                 bh_set_turn None None (bh_set_result (res_events_complete result) (res_sink_error result)
                   (bh_set_outcome view (res_summary result) (bh_set_state (Outcome.state view) h))))
      else None
  | _ => None
  end.

(** The state an entry that was provisional is left in: a tool whose result is missing is
    unknown, an answer gets the state of the end unless it has one. *)
Definition final_state (state : State.t) (m : EntryMetadata) : State.t :=
  match em_source m, em_state m with
  | Source.Tool _, _ => State.Unknown
  | _, State.Accepted | _, State.InProgress | _, State.Unknown => state
  | _, settled => settled
  end.
Lemma settled_final state m : settled_metadata state m = em_set_state (final_state state m) m.
Proof. destruct m as [source st]. unfold settled_metadata, final_state. cbn. by destruct source, st. Qed.

Section displays.
Context `{DisplaySerde} {laws : DisplayLaws} {digests : DigestLaws}.
#[local] Set Default Proof Using "All".

Lemma response_event_ok s run d d1 entry entry1 event : opened s run d d1 entry -> 0 < s <= i64_max -> em_source (e_metadata entry) <> Source.Human ->
  e_id entry1 = e_id entry -> e_revision entry1 = e_revision entry ->
  Forall (fun t => from_utf8 t = true) (event_texts event) -> event_indices event -> Forall (fun t => room d (len t)) (marks ++ event_texts event) ->
  is_some (response_of event) = true -> indexed event = true ->
  exists entry2 d2, response_event run s entry1 event d1 = (Ok entry2, d2) /\
    contents d2 = shown_event (run, show_entry_id (e_id entry)) event (contents d) /\
    e_metadata entry2 = match event with
                        | PResponseStatus _ status => em_set_state (State.status status) (e_metadata entry1)
                        | PResponseFinished r => em_set_provenance (output_provenance r) (em_set_provisional false (em_set_state (State.response (outcome r)) (e_metadata entry1)))
                        | _ => e_metadata entry1
                        end.
Proof.
  intros Ho Hs Hh Hid Hrev Hu Hi Hroom Hresp Hidx. apply Forall_app in Hroom as [Hmarks Hroom]. pose proof (op_contents _ _ _ _ _ Ho) as Hcon.
  assert (forall (m m' : gmap FieldRef (string * string)) (e : EntryRef) e2, (e2 = with_epoch s entry1 \/ (e2 = entry1 /\ stable e m m')) -> e_metadata e2 = e_metadata entry1) as Hmeta by (intros m m' e e2 [-> |[-> _]]; done).
  assert (forall output item, Forall (fun t => from_utf8 t = true) (dp_text <$> project_item item) -> Forall (fun t => room d (len t)) (dp_text <$> project_item item) ->
    is_ok (ordered_parts (mkField output <$> project_item item)) = true ->
    exists entry2 d2, bind (lift (ordered_parts (mkField output <$> project_item item))) (fun parts => snapshot run entry1 s (Some output) parts) d1 = (Ok entry2, d2) /\
      contents d2 = shown_snapshot (run, show_entry_id (e_id entry)) (Some output) (display_part <$> (mkField output <$> project_item item)) (contents d) /\
      e_metadata entry2 = e_metadata entry1) as Hitem.
  { intros output item Hiu Hir Hok. unfold bind, lift. destruct (ordered_parts _) as [parts|] eqn:Ep; [|done].
    assert (((fun f => dp_text (rf_part f)) <$> (mkField output <$> project_item item)) = dp_text <$> project_item item) as Htx by by rewrite <- list_fmap_compose.
    pose proof (room_parts d _ _ Ep) as Hpok. rewrite Htx in Hpok. specialize (Hpok Hiu Hir). destruct (item_parts _ _ _ Ep) as (Hparts & Hnd & Hp).
    destruct (snapshot_opened s run d d1 entry entry1 (Some output) parts Ho (proj2 Hs) Hh Hid Hrev Hpok Hnd) as (d3 & e3 & E3 & _ & _ & Hc3 & Hm3).
    { intros p q Hpp _ Hf _. by destruct (Hp p Hpp). } { intros i p [= <-] Hpp. by apply Hp. }
    exists e3, d3. split; [done|]. split; [by rewrite <- Hparts | by eapply Hmeta]. }
  destruct event as [reason|id|id status|id output item|id iid output ci si kind text|id output item|response|code msg up|ty payload]; cbn [response_event event_texts event_indices shown_event indexed] in *; try done.
  - by exists entry1, d1.
  - by eexists _, d1.
  - by apply Hitem.
  - unfold delta_part. destruct (delta_field output si ci kind) as [order fk] eqn:Edf. destruct Hi as (Hio & Hic & Hisum). cbn [pt_order].
    assert (order = mkOrderKey (Some output) (ok_rank order) si ci /\ ok_rank order <> Fallback) as [Hord Hrank] by (unfold delta_field in Edf; destruct kind; injection Edf as <- <-; by split).
    destruct (delta_opened s run d d1 entry entry1 (mkDisplay order fk (if bool_decide (fk = FieldKind.Unsupported) then "Unsupported content" else text)) Ho (proj2 Hs) Hh Hid Hrev)
      as (d3 & e3 & E3 & _ & _ & Hc3 & Hm3); cbn [pt_order pt_text]; try done.
    { rewrite Hord. by unfold u64_key. } { apply Forall_cons in Hu as [Hu _]. by destruct (bool_decide _). }
    { apply Forall_cons in Hroom as [Hroom _]. apply Forall_cons in Hmarks as [Hm _]. by destruct (bool_decide _). }
    exists e3, d3. split; [done|]. split; [done | by eapply Hmeta].
  - by apply Hitem.
  - destruct (ordered_parts _) as [parts|] eqn:Ep; [|done]. destruct (response_parts _ _ Ep) as (Hparts & Hnd & Hp).
    destruct (snapshot_opened s run d d1 entry entry1 None parts Ho (proj2 Hs) Hh Hid Hrev (room_parts d _ _ Ep Hu Hroom) Hnd Hp) as (d3 & e3 & E3 & _ & _ & Hc3 & Hm3); [done|].
    eexists _, d3. split; [unfold bind, lift; rewrite E3; reflexivity|]. split; [by rewrite <- Hparts|]. cbn. by erewrite Hmeta.
Qed.

(** The entry of the answer of a turn: the one there is, or the one that is made for it. *)
Definition answer_entry (s : Z) (turn : string) (found : option Entry) : EntryId * EntryMetadata :=
  match found with
  | Some entry => (e_id entry, e_metadata entry)
  | None => (mkEntryId s 0, new_metadata (Source.Assistant turn) State.InProgress true)
  end.

Lemma assistant_ok d n s run turn rid found : displayed d n -> n < s -> 0 < s <= i64_max -> lookup_entry run s (Source.Assistant turn) d = Ok found ->
  exists entry d1, assistant run s turn rid ((fun e => show_entry_id (e_id e)) <$> found) d = (Ok entry, d1) /\ opened s run d d1 entry /\
    em_source (e_metadata entry) = Source.Assistant turn /\ e_id entry = fst (answer_entry s turn found) /\
    em_set_response rid (e_metadata entry) = em_set_response rid (snd (answer_entry s turn found)).
Proof.
  intros Hd Hn Hs El. unfold assistant. destruct found as [entry|]; cbn [fmap option_fmap option_map answer_entry fst snd].
  - destruct (lookup_opened d n s run _ entry Hd Hn (proj2 Hs) El) as [Ho Hsrc]. exists entry, d. split; [|done].
    unfold bind, reads. rewrite El. by rewrite bool_decide_eq_true_2.
  - set (m := em_set_response rid _).
    destruct (create_entry d s run m (displayed_mono d n s Hd ltac:(lia)) (displayed_before d n s Hd Hn) Hs El) as (d1 & row & E & _); [done|].
    assert (entry_valid run (mkEntryId s 0) m) as Hval by by split_and!.
    destruct (create_opened d n s run m _ d1 Hd Hn Hs Hval E) as [Ho _].
    eexists _, d1. split; [unfold bind, reads; rewrite El; exact E|]. by split.
Qed.

(** What an event of a response does, when the run and the turn are its own. *)
Lemma responds_ok d n s run h ev event turn found rid : displayed d n -> n < s -> 0 < s <= i64_max ->
  Forall (fun t => from_utf8 t = true) (event_texts event) -> event_indices event -> Forall (fun t => room d (len t)) (marks ++ event_texts event) ->
  response_of event = Some rid -> indexed event = true -> current_turn h ev = Ok turn ->
  lookup_entry run s (Source.Assistant turn) d = Ok found -> (fun e => show_entry_id (e_id e)) <$> found = bh_current_assistant h ->
  let '(id, m) := answer_entry s turn found in
  exists d' row, provider_event run s h ev event d = (Ok (bh_set_turn (bh_current_turn h) (Some (show_entry_id id)) h), d') /\
    contents d' = shown_event (run, show_entry_id id) event (contents d) /\ entry_at d' s run id (shown_metadata event m) row.
Proof.
  intros Hd Hn Hs Hu Hi Hroom Hrid Hidx Hturn El Hcur.
  destruct (assistant_ok d n s run turn rid found Hd Hn Hs El) as (entry & d1 & Ea & Ho & Hsrc & Hid & Hm). destruct (answer_entry s turn found) as [id m]. cbn [fst snd] in Hid, Hm. subst id.
  set (entry1 := if changes_content event then with_metadata (fun m => em_set_state State.InProgress (em_set_provisional true m)) (with_metadata (em_set_response rid) entry) else with_metadata (em_set_response rid) entry).
  destruct (response_event_ok s run d d1 entry entry1 event Ho Hs) as (entry2 & d2 & E2 & Hc2 & Hm2); try done; try (by rewrite Hsrc); try (by unfold entry1; destruct (changes_content event)); [by rewrite Hrid|].
  assert (worked s run d1 d2 entry entry2) as Hw.
  { apply (response_event_step s run d d1 entry entry1 event entry2 d2); try done; try (by rewrite Hsrc); try (by unfold entry1; destruct (changes_content event)). }
  destruct (worked_save s run d d1 d2 entry entry2 Ho Hs Hw) as (d3 & row & E3 & _ & _ & Hc3 & _ & Hat & _).
  exists d3, row. split; [|split; [by rewrite Hc3|]].
  - assert (provider_event run s h ev event d = bind (lift (current_turn h ev)) (fun turn => bind (assistant run s turn rid (bh_current_assistant h)) (fun entry =>
      bind (response_event run s (if changes_content event
        then with_metadata (fun m => em_set_state State.InProgress (em_set_provisional true m)) (with_metadata (em_set_response rid) entry)
        else with_metadata (em_set_response rid) entry) event) (fun entry' => bind (save run s entry') (fun _ =>
        ret (bh_set_turn (bh_current_turn h) (Some (show_entry_id (e_id entry))) h))))) d) as -> by (destruct event; cbn in Hrid; try done; by injection Hrid as <-).
    unfold bind at 1, lift. rewrite Hturn, <- Hcur. unfold bind. rewrite Ea. fold entry1. by rewrite E2, E3.
  - assert (e_metadata entry2 = shown_metadata event m) as <-; [|exact Hat]. rewrite Hm2. unfold entry1.
    destruct event; cbn [changes_content with_metadata e_metadata shown_metadata response_of] in *; try done; injection Hrid as ->; by rewrite ?Hm.
Qed.

(** The header that is stored for a run. *)
Definition header_at (d : Rows) (run : string) (h : BlockHeader) : Prop :=
  exists row, d_blocks d !! run = Some row /\ header_to_json h = Some (br_header_json row).

(** An event of a response at an open run, in the turn the run is in. *)
Record answering (d : Rows) (n s : Z) (run : string) (ev : RunEventEnvelope) (event : ProviderEvent) (turn : string) (found : option Entry) (h : BlockHeader) : Prop := {
  an_displayed : displayed d n;
  an_after : n < s;
  an_sequence : 0 < s <= i64_max;
  an_typed : input_typed (Input.Runtime ev);
  an_fits : fits d (Input.Runtime ev);
  an_run : ev_run_id ev = run;
  an_schema : ev_schema_version ev = 2;
  an_event : exists provider, ev_event ev = EProviderEvent provider /\ env_schema_version provider = 1 /\ env_event provider = event;
  an_response : is_some (response_of event) = true /\ indexed event = true;
  an_block : block run s d = Ok h;
  an_open : open_state (bh_state h) = true;
  an_turn : current_turn h ev = Ok turn;
  an_found : lookup_entry run s (Source.Assistant turn) d = Ok found;
  an_assistant : (fun e => show_entry_id (e_id e)) <$> found = bh_current_assistant h
}.

Lemma entry_at_same d d' n run id m row : d_entries d' = d_entries d -> d_fields d' = d_fields d -> entry_at d n run id m row -> entry_at d' n run id m row.
Proof using Type. intros He Hf Hat. eapply entry_at_frame; [exact Hat | lia | rewrite He; exact (ea_row _ _ _ _ _ _ Hat) | by rewrite Hf]. Qed.

Lemma save_block_fields run s h d d' : save_block run s h d = (Ok tt, d') -> d_fields d' = d_fields d.
Proof using Type.
  unfold save_block, bind, lift, gets. destruct (integer s); [|done]. destruct (encode_header h); [|done]. destruct (d_blocks d !! run); [|done]. by intros [= <-].
Qed.

Lemma answer_observed d n s run ev event turn found h : answering d n s run ev event turn found h ->
  let '(id, m) := answer_entry s turn found in
  exists d' row, display_step run s (Input.Runtime ev) d = Ok d' /\ displayed d' s /\
    contents d' = shown_event (run, show_entry_id id) event (contents d) /\ entry_at d' s run id (shown_metadata event m) row /\
    header_at d' run (bh_set_turn (bh_current_turn h) (Some (show_entry_id id)) h).
Proof.
  intros [Hd Hn Hs [Hu Hi] Hfit Hrun Hsch (provider & Hev & Hps & Hpe) [Hresp Hidx] Hb Hopen Hturn El Hcur].
  cbn [input_texts] in Hu. unfold fits in Hfit. cbn [input_texts] in Hfit. rewrite Hev in Hu, Hi, Hfit. cbn [run_event_texts] in Hu, Hfit. rewrite Hpe in Hu, Hi, Hfit.
  destruct (response_of event) as [rid|] eqn:Hrid; [|done].
  pose proof (responds_ok d n s run h ev event turn found rid Hd Hn Hs Hu Hi Hfit Hrid Hidx Hturn El Hcur) as Hok. destruct (answer_entry s turn found) as [id m].
  destruct Hok as (d1 & row & E1 & Hc1 & Hat1). destruct (provider_event_step d n s run h ev event _ d1 Hd Hn Hs Hu Hi Hfit E1) as (Hd1 & _ & Hb1 & _).
  destruct (block_ok d n s run h Hd (proj2 Hs) Hb) as (brow & Hbrow & Hblk).
  destruct (save_block_ok d1 s run (bh_set_turn (bh_current_turn h) (Some (show_entry_id id)) h) h brow Hd1 Hs) as (d' & json & E2 & Hd' & _ & Hc' & He' & Hj & Hbl'); try done.
  { by rewrite Hb1. } { apply (block_at_mono n); [done | lia]. } { exact (ba_outcome _ _ _ Hblk). }
  exists d', row. split; [|split; [done|split; [by rewrite Hc'|split]]].
  - cbn [display_step rows_display project]. unfold observe. rewrite Hrun, Hsch, bool_decide_eq_true_2 by done. change (2 =? 2) with true. cbn [negb orb].
    unfold bind at 1, reads. rewrite Hb, Hopen, Hev, Hps, Hpe. change (1 =? 1) with true. cbn [negb]. unfold bind. by rewrite E1, E2.
  - apply (entry_at_same d1); [done | by eapply save_block_fields | done].
  - eexists. rewrite Hbl', lookup_insert_eq. by split.
Qed.

(** C13. An event of a response, at an open run in the turn it is in, is shown as the contents
    say it should be: the text of a delta is added at its place, the parts of an item replace
    those of the same output, those of the whole response replace all; nothing else changes,
    in this entry or another; and the entry and the header of the run are those of the event. *)
Theorem content_refined d n s run ev event turn found h : answering d n s run ev event turn found h ->
  let '(id, m) := answer_entry s turn found in
  exists d', display_step run s (Input.Runtime ev) d = Ok d' /\
    contents d' = shown_event (run, show_entry_id id) event (contents d) /\
    (exists row, entry_at d' s run id (shown_metadata event m) row) /\
    header_at d' run (bh_set_turn (bh_current_turn h) (Some (show_entry_id id)) h).
Proof.
  intros Ha%answer_observed. destruct (answer_entry s turn found) as [id m]. destruct Ha as (d' & row & E & _ & Hc & Hat & Hh). exists d'. by eauto.
Qed.

(** ** What a reader of an entry sees *)

(** The places of an entry in the order they are read in, each with its kind and its text. *)
Definition entry_list (d : Rows) (e : EntryRef) : list (string * string * string) :=
  (fun fr => (fr_order_key (snd fr), fr_kind (snd fr), text_of (chunk_rows d (e, fst fr)))) <$> rows_between e EmptyString "~" d.
Definition place_le (a b : string * string * string) : Prop := String.compare (fst (fst a)) (fst (fst b)) <> Gt.

Lemma compare_le_trans a b c : String.compare a b <> Gt -> String.compare b c <> Gt -> String.compare a c <> Gt.
Proof using Type.
  destruct (String.compare a b) eqn:E1; [|intros _|done].
  - by apply String.compare_eq_iff in E1 as ->.
  - destruct (String.compare b c) eqn:E2; [|intros _|done].
    + by apply String.compare_eq_iff in E2 as <-; rewrite E1.
    + by rewrite (string_compare_trans a b c E1 E2).
Qed.

#[local] Instance order_le_total : Total order_le.
Proof using Type. intros a b. unfold order_le. rewrite String.compare_antisym. destruct (String.compare (fr_order_key (snd b)) (fr_order_key (snd a))); cbn; [left|right|left]; done. Qed.
#[local] Instance order_le_trans : Transitive order_le.
Proof using Type. intros a b c. apply compare_le_trans. Qed.

Lemma entry_list_sorted d e : StronglySorted place_le (entry_list d e).
Proof using Type.
  assert (StronglySorted order_le (rows_between e EmptyString "~" d)) as Hs by (apply (sorting.Sorted_StronglySorted order_le), (Sorted_merge_sort order_le)).
  unfold entry_list. induction Hs as [|a l Hs IH HF]; [constructor|]. rewrite fmap_cons. constructor; [done|].
  apply Forall_fmap. eapply Forall_impl; [exact HF|]. done.
Qed.

Lemma entry_list_in d n run id m row : displayed d n -> n <= i64_max -> entry_at d n run id m row -> em_source m <> Source.Human ->
  NoDup (entry_list d (run, show_entry_id id)) /\
  forall o k t, (o, k, t) ∈ entry_list d (run, show_entry_id id) <-> contents d !! ((run, show_entry_id id), o) = Some (k, t).
Proof.
  intros Hd Hn Hat Hh. set (e := (run, show_entry_id id)). pose proof (dp_stored _ _ Hd) as Hws. split.
  - unfold entry_list. apply NoDup_fmap_2_strong; [|exact (NoDup_fmap_1 _ _ (rows_between_nodup e EmptyString "~" d))].
    intros [fid fr] [fid' fr'] [Hf _]%rows_between_in [Hf' _]%rows_between_in E. cbn in E. injection E as Eo _ _.
    assert ((e, fid) = (e, fid')) as [= ->] by by apply (ws_order _ Hws _ _ fr fr'). congruence.
  - intros o k t. rewrite contents_lookup by done. unfold entry_list. rewrite list_elem_of_fmap. split.
    + intros ([fid fr] & E & [Hf _]%rows_between_in). cbn in E. injection E as -> -> ->. by exists fid, fr.
    + intros (fid & fr & Hf & <- & E). exists (fid, fr). injection E as -> ->. split; [done|]. apply rows_between_in. split; [done|].
      destruct (row_key d run id fid fr Hws (entry_at_ready _ _ _ _ _ _ Hat Hn Hh) Hf) as (o & _ & Ho & -> & _). by apply all_between.
Qed.

(** The parts in the order of their places. *)
Lemma parts_sorted (fields : list ResponseField) : StronglySorted key_lt (field_order <$> fields) -> Forall (fun f => u64_key (field_order f)) fields ->
  StronglySorted place_le ((fun f => (show_key (field_order f), field_code (dp_kind (rf_part f)), dp_text (rf_part f))) <$> fields).
Proof using Type.
  induction fields as [|f fields IH]; [constructor|]. rewrite !fmap_cons, Forall_cons. intros Hs [Hf HF]. apply StronglySorted_inv in Hs as [Hs Hl]. constructor; [by apply IH|].
  apply Forall_forall. intros x (g & -> & Hg)%list_elem_of_fmap. unfold place_le. cbn [fst]. rewrite Forall_forall in HF. rewrite order_text_exact by auto.
  pose proof (proj1 (Forall_forall _ _) Hl _ (list_elem_of_fmap_2 field_order _ _ Hg)) as Hlt. unfold key_lt in Hlt. by rewrite Hlt.
Qed.

Lemma entry_list_shown d n run id m row fields parts old : displayed d n -> n <= i64_max -> entry_at d n run id m row -> em_source m <> Source.Human ->
  ordered_parts fields = Ok parts -> StronglySorted key_lt (field_order <$> fields) -> Forall part_ok parts ->
  contents d = shown_snapshot (run, show_entry_id id) None (display_part <$> fields) old ->
  entry_list d (run, show_entry_id id) = (fun f => (show_key (field_order f), field_code (dp_kind (rf_part f)), dp_text (rf_part f))) <$> fields.
Proof.
  intros Hd Hn Hat Hh Hp Hs Hok Hc. set (e := (run, show_entry_id id)) in *. destruct (entry_list_in d n run id m row Hd Hn Hat Hh) as [Hnd Hin]. fold e in Hnd, Hin.
  apply ordered_parts_ok in Hp as [-> Hk]. rewrite Forall_fmap in Hk. pose proof (sorted_nodup _ Hs) as Hno.
  assert (NoDup (pt_order <$> (display_part <$> fields))) as Hno' by by rewrite <- list_fmap_compose.
  assert (forall f, f ∈ fields -> contents d !! (e, show_key (field_order f)) = Some (field_code (dp_kind (rf_part f)), dp_text (rf_part f))) as Hin2.
  { intros f Hf. rewrite Hc. unfold shown_snapshot. apply lookup_union_Some_l. exact (part_places_lookup e (display_part <$> fields) (display_part f) Hok Hno' (list_elem_of_fmap_2 _ _ _ Hf)). }
  assert (forall x, x ∈ entry_list d e <-> x ∈ ((fun f => (show_key (field_order f), field_code (dp_kind (rf_part f)), dp_text (rf_part f))) <$> fields)) as Hsame.
  { intros [[o k] t]. rewrite Hin, list_elem_of_fmap. split; [|intros (f & E & Hf); injection E as -> -> ->; by apply Hin2]. intros Ho.
    destruct (decide (Exists (fun f => show_key (field_order f) = o) fields)) as [(f & Hf & <-)%Exists_exists|Hno2].
    - exists f. split; [|done]. rewrite (Hin2 f Hf) in Ho. by injection Ho as -> ->.
    - exfalso. pose proof Ho as Hb%Hin. rewrite Hc in Ho. unfold shown_snapshot in Ho. rewrite lookup_union_r in Ho.
      + apply map_lookup_filter_Some in Ho as [_ Hx]. apply Hx. split; [done|]. cbn [snd fst covers].
        apply list_elem_of_fmap in Hb as ([fid fr] & E & [_ Hb]%rows_between_in). by injection E as -> _ _.
      + apply part_places_none. intros p (f & -> & Hf)%list_elem_of_fmap [= ->]. apply Hno2, Exists_exists. by exists f. }
  apply (StronglySorted_unique_strong place_le).
  - intros [[o k] t] [[o' k'] t'] H1 H2%Hsame H3 H4. apply Hin in H1, H2. unfold place_le in H3, H4. cbn [fst] in H3, H4. rewrite String.compare_antisym in H4.
    assert (o = o') as -> by (apply String.compare_eq_iff; destruct (String.compare o o'); done). congruence.
  - apply entry_list_sorted.
  - by apply parts_sorted.
  - apply NoDup_Permutation; [done| |done]. apply (NoDup_fmap_1 (fun x => fst (fst x))). rewrite <- list_fmap_compose.
    change (NoDup ((fun f => show_key (field_order f)) <$> fields)). rewrite (list_fmap_compose field_order show_key). apply NoDup_fmap_2_strong; [|done].
    rewrite Forall_forall in Hk. intros a b (f & -> & Hf)%list_elem_of_fmap (g & -> & Hg)%list_elem_of_fmap. apply show_key_inj; [by apply (Hk f) | by apply (Hk g)].
Qed.

(** C14. When a response has finished, what a reader of the entry of its turn sees, in the order
    it is read in, is the projection of the response and nothing else, whatever the deltas and
    the items before had shown; and the entry is no longer provisional. *)
Theorem response_shown d n s run ev r turn found h : answering d n s run ev (PResponseFinished r) turn found h ->
  let '(id, m) := answer_entry s turn found in
  exists d' row m', display_step run s (Input.Runtime ev) d = Ok d' /\
    entry_list d' (run, show_entry_id id) =
      (fun f => (show_key (field_order f), field_code (dp_kind (rf_part f)), dp_text (rf_part f))) <$> project_response r /\
    entry_at d' s run id m' row /\ em_state m' = State.response (outcome r) /\ em_provisional m' = false /\
    em_response_id m' = Some (Provider.response_id r) /\ em_provenance m' = Some (output_provenance r).
Proof.
  intros Ha. pose proof (answer_observed _ _ _ _ _ _ _ _ _ Ha) as Hok.
  assert (em_source (snd (answer_entry s turn found)) = Source.Assistant turn) as Hsrc.
  { destruct found as [entry|]; [|done]. exact (proj2 (lookup_opened d n s run _ entry (an_displayed _ _ _ _ _ _ _ _ _ Ha) (an_after _ _ _ _ _ _ _ _ _ Ha) (proj2 (an_sequence _ _ _ _ _ _ _ _ _ Ha)) (an_found _ _ _ _ _ _ _ _ _ Ha))). }
  destruct (answer_entry s turn found) as [id m]. cbn [snd] in Hsrc. destruct Hok as (d' & row & E & Hd' & Hc & Hat & _).
  exists d', row, (shown_metadata (PResponseFinished r) m). split; [done|]. split; [|by split_and!].
  destruct Ha as [_ _ [_ Hs] [Hu _] Hfit _ _ (provider & Hev & _ & Hpe) [_ Hidx] _ _ _ _ _]. cbn [indexed] in Hidx.
  destruct (ordered_parts (project_response r)) as [parts|] eqn:Ep; [|done].
  unfold fits in Hfit. apply Forall_app in Hfit as [_ Hfit]. cbn [input_texts] in Hu, Hfit. rewrite Hev in Hu, Hfit. cbn [run_event_texts] in Hu, Hfit. rewrite Hpe in Hu, Hfit.
  eapply (entry_list_shown d' s run id _ row _ parts _ Hd' Hs Hat); [by cbn; rewrite Hsrc | done | apply project_response_order | exact (room_parts d _ _ Ep Hu Hfit) | exact Hc].
Qed.

Lemma end_header run input h state h' : run_end run input h = Some (state, h') -> header_safe h h' /\ open_state (bh_state h') = false /\ bh_current_turn h' = None /\ bh_current_assistant h' = None.
Proof using Type.
  unfold run_end. destruct input as [| | | | |ev| |result|]; try done.
  - destruct (ev_event ev) as [| | | | |outcome summary]; try done. destruct (_ && _); [|done]. intros [= <- <-]. split; [|by destruct outcome]. split; [done|]. intros o [= <-]. right. by eexists.
  - cbv zeta. destruct (_ && _); [|done]. intros [= <- <-]. split; [|by destruct (res_outcome result)]. split; [done|]. intros o [= <-]. right. by eexists.
  - destruct (open_state _); [|done]. intros [= <- <-]. split; [|done]. split; [done|]. by left.
Qed.

Lemma end_steps run s d input h state h' : block run s d = Ok h -> run_end run input h = Some (state, h') ->
  project run s input d = bind (settle run s state) (fun _ => save_block run s h') d.
Proof using Type.
  intros Hb. unfold run_end. destruct input as [| | | | |ev| |result|]; try done.
  - destruct (ev_event ev) as [| | | | |outcome summary] eqn:Hev; try done. destruct (_ && _) eqn:Eg; [|done]. intros E. injection E as <- <-.
    apply andb_true_iff in Eg as [[Hr Hsc]%andb_true_iff Ho].
    cbn [project]. unfold observe. rewrite Hr, Hsc. cbn [negb orb]. unfold bind, reads. rewrite Hb, Ho, Hev. cbn [negb].
    by destruct (settle run s (State.unfinished outcome) d) as [[]].
  - cbv zeta. destruct (_ && _) eqn:Eg; [|done]. intros E. injection E as <- <-. apply andb_true_iff in Eg as [[[Hr Hrec]%andb_true_iff Hst]%andb_true_iff Hout].
    cbn [project]. rewrite Hr. cbn [negb]. unfold bind at 1, reads. rewrite Hb. apply negb_true_iff in Hrec, Hst. rewrite Hrec, Hst. cbn [orb].
    destruct (bh_outcome h) as [old|]; cbn [is_some_and is_none is_some negb andb orb]; [by rewrite Hout|]. apply negb_true_iff in Hout. by rewrite Hout.
  - destruct (open_state _) eqn:Ho; [|done]. intros [= <- <-]. cbn [project]. unfold bind at 1, reads. by rewrite Hb, Ho.
Qed.

(** C16. The end of a run, by its last event, its result or its interruption, is always shown
    when the run can end: every assistant and tool entry of it that was provisional gets its
    final state, the rest of the entries and all that is shown stay as they are, and the run
    is in no turn and not open any more. *)
Theorem run_settled d n s run input h state h' : displayed d n -> n < s -> 0 < s <= i64_max ->
  block run s d = Ok h -> run_end run input h = Some (state, h') ->
  exists d', display_step run s input d = Ok d' /\ contents d' = contents d /\
    header_at d' run h' /\ open_state (bh_state h') = false /\ bh_current_turn h' = None /\
    forall run' id m row, entry_at d n run' id m row -> exists row',
      entry_at d' s run' id (if bool_decide (run' = run) && touches m then em_set_state (final_state state m) m else m) row'.
Proof.
  intros Hd Hn Hs Hb Hend. destruct (end_header _ _ _ _ _ Hend) as ([Hhu Hout] & Hopen & Hturn & _).
  destruct (settle_ok run s state d (displayed_mono d n s Hd ltac:(lia)) Hs) as (d1 & E1 & Hd1 & _ & Hc1 & Hb1 & Heff).
  destruct (block_ok d n s run h Hd (proj2 Hs) Hb) as (brow & Hbrow & Hblk).
  destruct (save_block_ok d1 s run h' h brow Hd1 Hs) as (d' & json & E2 & _ & _ & Hc2 & He2 & Hj & Hb2); try done.
  { by rewrite Hb1. } { apply (block_at_mono n); [done | lia]. }
  { intros o Ho. destruct (Hout o Ho) as [Ho'|[r ->]]; [exact (ba_outcome _ _ _ Hblk _ Ho')|apply outcome_safe]. }
  exists d'. split; [cbn [display_step rows_display]; rewrite (end_steps _ _ _ _ _ _ _ Hb Hend); unfold bind; by rewrite E1, E2|]. split; [by rewrite Hc2|].
  split; [eexists; rewrite Hb2, lookup_insert_eq; by split|]. split; [done|]. split; [done|]. intros run' id m row Hat.
  destruct (Heff run' id m row) as [row' Hat']; [eapply entry_at_frame; [exact Hat | lia | exact (ea_row _ _ _ _ _ _ Hat) | done]|].
  exists row'. rewrite <- settled_final. apply (entry_at_same d1); [done | by eapply save_block_fields | done].
Qed.

(** ** Every event *)

(** The rows of a session up to an event, each of whose events was shown. *)
Inductive reached : Z -> Rows -> Prop :=
| reached_empty : reached 0 empty_display
| reached_step n s run input d d' : reached n d -> n < s <= i64_max -> input_typed input -> fits d input ->
    display_step run s input d = Ok d' -> reached s d'.

Lemma step_ok d n s run input d' : displayed d n -> n < s -> 0 < s <= i64_max -> input_typed input -> fits d input ->
  display_step run s input d = Ok d' -> displayed d' s /\ advanced s d d'.
Proof.
  intros Hd Hn Hs Hty Hfit E. cbn [display_step rows_display] in E. destruct (project run s input d) as [[[]|] d1] eqn:Ep; [|done]. injection E as <-.
  by apply (project_step d n s run input).
Qed.

Lemma reached_displayed n d : reached n d -> 0 <= n /\ displayed d n.
Proof.
  induction 1 as [|n s run input d d' _ [Hn IH] Hs Hty Hfit E]; [split; [done | apply empty_displayed]|]. split; [lia|].
  by destruct (step_ok d n s run input d' IH) as [? _]; [lia | lia | done..].
Qed.

(** C17. After any events the rows are what the reader of them accepts, and every further event
    keeps to what a reader has been told: entries keep their places and their kinds; an entry
    that is not marked with the event is as it was; while its epoch stays, no place of it goes
    and none appears before another; and a field whose generation stays has only grown. *)
Theorem reader_kept n s run input d d' : reached n d -> n < s <= i64_max -> input_typed input -> fits d input ->
  display_step run s input d = Ok d' -> displayed d' s /\ advanced s d d'.
Proof. intros [Hn Hd]%reached_displayed Hs Hty Hfit E. apply (step_ok d n s run input); [done | lia | lia | done..]. Qed.
End displays.
