(* ===== verification/DisplayExamples.v ===== *)
(** * The display, as an example

    A codec of the headers and the metadata that keeps its laws, and a session: a message,
    an answer that comes in deltas, a tool call, a run that is cancelled. *)
From stdpp Require Import sorting countable.
From S2P Require Import Prelude Json Errors Identifiers Provider Tools Replay RunData Records Store History Session RunStore Text Positions Chunks Projection Fields Contents Projector Shown Displays.

(** ** A codec *)
#[local] Instance state_countable : Countable State.t.
Proof.
  apply (inj_countable (fun s => match s with State.Accepted => 1 | State.InProgress => 2 | State.Completed => 3 | State.Incomplete => 4 | State.Failed => 5 | State.Cancelled => 6 | State.Interrupted => 7 | State.Unknown => 8 end%positive)
    (fun p => match p with 1 => Some State.Accepted | 2 => Some State.InProgress | 3 => Some State.Completed | 4 => Some State.Incomplete | 5 => Some State.Failed | 6 => Some State.Cancelled | 7 => Some State.Interrupted | _ => Some State.Unknown end%positive)).
  by intros [].
Defined.
#[local] Instance run_state_countable : Countable RunState.
Proof.
  apply (inj_countable (fun s => match s with RecordedRunState.Accepted => 1 | RecordedRunState.Running => 2 | RecordedRunState.Completed => 3 | RecordedRunState.Failed => 4 | RecordedRunState.CancelledLocally => 5 | RecordedRunState.Interrupted => 6 end%positive)
    (fun p => match p with 1 => Some RecordedRunState.Accepted | 2 => Some RecordedRunState.Running | 3 => Some RecordedRunState.Completed | 4 => Some RecordedRunState.Failed | 5 => Some RecordedRunState.CancelledLocally | _ => Some RecordedRunState.Interrupted end%positive)).
  by intros [].
Defined.
#[local] Instance provenance_eq_dec : EqDecision OutputProvenance.
Proof. solve_decision. Defined.
#[local] Instance provenance_countable : Countable OutputProvenance.
Proof. apply (inj_countable' (fun p => match p with NativeTerminal => true | ValidatedOutputItemDone => false end) (fun b : bool => if b then NativeTerminal else ValidatedOutputItemDone)). by intros []. Defined.
#[local] Instance upstream_countable : Countable UpstreamOutcome.
Proof.
  apply (inj_countable (fun s => match s with NotSubmitted => 1 | UpstreamUnknown => 2 | TerminalReceived => 3 end%positive)
    (fun p => match p with 1 => Some NotSubmitted | 2 => Some UpstreamUnknown | _ => Some TerminalReceived end%positive)).
  by intros [].
Defined.
#[local] Instance sink_countable : Countable RunSinkError.
Proof.
  apply (inj_countable (fun s => match s with SinkFull => 1 | SinkClosed => 2 | SinkFailed => 3 end%positive)
    (fun p => match p with 1 => Some SinkFull | 2 => Some SinkClosed | _ => Some SinkFailed end%positive)).
  by intros [].
Defined.
#[local] Instance outcome_countable : Countable Outcome.t.
Proof.
  apply (inj_countable' (fun o => match o with Outcome.Completed => inl true | Outcome.CancelledLocally => inl false | Outcome.Failed code => inr code end)
    (fun x => match x with inl true => Outcome.Completed | inl false => Outcome.CancelledLocally | inr code => Outcome.Failed code end)).
  by intros [].
Defined.
#[local] Instance source_countable : Countable Source.t.
Proof.
  apply (inj_countable (fun s => match s with
      | Source.Human => [1]
      | Source.Assistant t => [2; encode t]
      | Source.Tool t => [3; encode t]
      | Source.Reuse a b => [4; encode a; encode b]
      | Source.Notice a b => [5; encode a; encode b]
      end%positive)
    (fun l => match l with
      | [2; t] => Source.Assistant <$> decode t
      | [3; t] => Source.Tool <$> decode t
      | [4; a; b] => a ← decode a; b ← decode b; Some (Source.Reuse a b)
      | [5; a; b] => a ← decode a; b ← decode b; Some (Source.Notice a b)
      | _ => Some Source.Human
      end%positive)).
  intros []; cbv beta iota; by rewrite ?decode_encode; cbn [mbind option_bind]; rewrite ?decode_encode.
Defined.

(** A record is the list of its fields. *)
Definition summary_fields (v : RunSummary) : list BinNums.positive :=
  [encode (turns_started v); encode (turns_finished v); encode (model_requests_attempted v); encode (model_requests_admitted v);
   encode (new_tool_dispatches v); encode (tool_results_prepared v); encode (reused_results v); encode (last_request_id v); encode (last_upstream_outcome v)].
Definition summary_of (l : list BinNums.positive) : option RunSummary :=
  match l with
  | [a; b; c; d; e; f; g; h; i] =>
      a ← decode a; b ← decode b; c ← decode c; d ← decode d; e ← decode e; f ← decode f; g ← decode g; h ← decode h; i ← decode i;
      Some {| turns_started := a; turns_finished := b; model_requests_attempted := c; model_requests_admitted := d; new_tool_dispatches := e;
              tool_results_prepared := f; reused_results := g; last_request_id := h; last_upstream_outcome := i |}
  | _ => None
  end.
Definition header_fields (v : BlockHeader) : list BinNums.positive :=
  [encode (bh_human v); encode (bh_state v); encode (bh_result_recorded v); encode (bh_outcome v); encode (summary_fields <$> bh_summary v);
   encode (bh_events_complete v); encode (bh_sink_error v); encode (bh_current_turn v); encode (bh_current_assistant v)].
Definition header_of (l : list BinNums.positive) : option BlockHeader :=
  match l with
  | [a; b; c; d; e; f; g; h; i] =>
      a ← decode a; b ← decode b; c ← decode c; d ← decode d; e ← decode e; f ← decode f; g ← decode g; h ← decode h; i ← decode i;
      e ← match e with Some l => Some <$> summary_of l | None => Some None end;
      Some (mkHeader a b c d e f g h i)
  | _ => None
  end.
Definition metadata_fields (v : EntryMetadata) : list BinNums.positive :=
  [encode (em_source v); encode (em_state v); encode (em_provisional v); encode (em_response_id v); encode (em_provenance v); encode (em_turn_id v);
   encode (em_request_id v); encode (em_reference v); encode (em_result_recorded v); encode (em_finish_recorded v); encode (em_is_error v);
   encode (em_finish_is_error v); encode (em_failure v); encode (em_upstream_outcome v); encode (em_closed v)].
Definition metadata_of (l : list BinNums.positive) : option EntryMetadata :=
  match l with
  | [a; b; c; d; e; f; g; h; i; j; k; l; m; n; o] =>
      a ← decode a; b ← decode b; c ← decode c; d ← decode d; e ← decode e; f ← decode f; g ← decode g; h ← decode h; i ← decode i;
      j ← decode j; k ← decode k; l ← decode l; m ← decode m; n ← decode n; o ← decode o;
      Some (mkMetadata a b c d e f g h i j k l m n o)
  | _ => None
  end.
Ltac decoded := repeat (rewrite decode_encode; cbn [mbind option_bind]).
Lemma summary_decoded v : summary_of (summary_fields v) = Some v.
Proof. unfold summary_of, summary_fields. decoded. by destruct v. Qed.
Lemma header_decoded v : header_of (header_fields v) = Some v.
Proof.
  unfold header_of, header_fields. decoded. destruct v as [a b c d e f g h i]. cbn [bh_summary]. destruct e as [e|]; cbn [fmap option_fmap option_map]; [|done].
  by rewrite summary_decoded.
Qed.
Lemma metadata_decoded v : metadata_of (metadata_fields v) = Some v.
Proof. unfold metadata_of, metadata_fields. decoded. by destruct v. Qed.

Definition object (l : list BinNums.positive) : string := String "{"%char (bits (encode l)).
Definition object_fields (text : string) : option (list BinNums.positive) := match text with String _ text => decode (unbits text) | EmptyString => None end.
Lemma object_decoded l : object_fields (object l) = Some l.
Proof. unfold object_fields, object. by rewrite unbits_bits, decode_encode. Qed.
Lemma object_starts l : starts_object (object l) = true.
Proof. unfold object, starts_object. by destruct (bits (encode l)) as [|b [|c rest]]. Qed.

#[export] Instance example_display : DisplaySerde := {|
  hash_tuple := fun t => Some (match t with FieldTuple _ _ _ _ order => order | EntryTuple _ _ _ source => bits (encode source) end);
  header_to_json := fun h => Some (object (header_fields h));
  header_from_json := fun t => l ← object_fields t; header_of l;
  metadata_to_json := fun m => Some (object (metadata_fields m));
  metadata_from_json := fun t => l ← object_fields t; metadata_of l;
  field_metadata := fun t => bool_decide (t = "{}");
  json_provisional := fun t => default false (em_provisional <$> (l ← object_fields t; metadata_of l))
|}.
#[export] Instance example_laws : DisplayLaws.
Proof.
  split; try done; try (intros; by eexists).
  - intros h t E. injection E as <-. cbn [header_from_json metadata_from_json json_provisional example_display]. by rewrite object_decoded, object_starts; cbn [mbind option_bind]; rewrite header_decoded.
  - intros m t E. injection E as <-. cbn [header_from_json metadata_from_json json_provisional example_display]. by rewrite object_decoded, object_starts; cbn [mbind option_bind]; rewrite metadata_decoded.
  - intros m t E. injection E as <-. cbn [header_from_json metadata_from_json json_provisional example_display]. by rewrite object_decoded; cbn [mbind option_bind]; rewrite metadata_decoded.
Qed.
#[export] Instance example_digests : DigestLaws.
Proof. split. intros run e o o' h E E'. cbn in E, E'. congruence. Qed.

(** ** Playing a session *)

(** Whether an event is typed and fits. *)
Definition roomb (d : Rows) (k : Z) : bool :=
  (0 <=? k) && (k <=? i64_max) && forallb (fun kv => len (snd (snd kv)) + k <=? i64_max) (map_to_list (contents d)).
Definition indexb (v : option Z) : bool := match v with Some n => in_u64 n | None => true end.
Definition typedb (input : Input.t) : bool :=
  forallb from_utf8 (input_texts input) &&
  match input with
  | Input.Runtime event =>
      match ev_event event with
      | EProviderEvent provider =>
          match env_event provider with
          | POutputItemUpdated _ _ output content summary _ _ => in_u64 output && indexb content && indexb summary
          | _ => true
          end
      | _ => true
      end
  | _ => true
  end.
Definition fitsb (d : Rows) (input : Input.t) : bool := forallb (fun t => roomb d (len t)) (marks ++ input_texts input).

Lemma roomb_ok d k : roomb d k = true -> room d k.
Proof.
  unfold roomb. intros [[Hk1%Z.leb_le Hk2%Z.leb_le]%andb_true_iff Hall]%andb_true_iff. split; [done|]. intros place kind t Hp.
  rewrite forallb_forall in Hall. apply Z.leb_le. apply (Hall (place, (kind, t))). by apply list_elem_of_In, elem_of_map_to_list.
Qed.
Lemma indexb_ok v : indexb v = true -> u64_option v.
Proof. destruct v as [n|]; [|by intros _ n [=]]. intros Hn%in_u64_spec m [= <-]. done. Qed.
Lemma typedb_ok input : typedb input = true -> input_typed input.
Proof.
  unfold typedb, input_typed. intros [Ht Hi]%andb_true_iff. split; [apply Forall_forall; intros t Hin; rewrite forallb_forall in Ht; by apply Ht, list_elem_of_In|].
  destruct input as [| | | | |ev| | |]; try done. destruct (ev_event ev) as [| |provider| | |]; try done. unfold event_indices. destruct (env_event provider); try done.
  apply andb_true_iff in Hi as [[H1 H2]%andb_true_iff H3]. split_and!; by apply indexb_ok.
Qed.
Lemma fitsb_ok d input : fitsb d input = true -> fits d input.
Proof. unfold fitsb, fits. rewrite forallb_forall. intros Hall. apply Forall_forall. intros t Ht. by apply roomb_ok, Hall, list_elem_of_In. Qed.

(** The rows after events that are all shown, each with the number that follows. *)
Fixpoint play (run : string) (inputs : list Input.t) (n : Z) (d : Rows) : option Rows :=
  match inputs with
  | [] => Some d
  | input :: inputs =>
      if (n <? i64_max) && typedb input && fitsb d input
      then match display_step run (n + 1) input d with Ok d' => play run inputs (n + 1) d' | Err _ => None end
      else None
  end.
Lemma play_reached run inputs n d d' : reached n d -> play run inputs n d = Some d' -> reached (n + Z.of_nat (length inputs)) d'.
Proof.
  revert n d. induction inputs as [|input inputs IH]; intros n d Hr; cbn [play]; [intros [= <-]; by rewrite Z.add_0_r|].
  destruct (_ && _) eqn:Ec; [|done]. apply andb_true_iff in Ec as [[Hn%Z.ltb_lt Ht%typedb_ok]%andb_true_iff Hf%fitsb_ok].
  destruct (display_step run (n + 1) input d) as [d1|] eqn:E; [|done]. intros Hp.
  replace (n + Z.of_nat (length (input :: inputs))) with (n + 1 + Z.of_nat (length inputs)) by (cbn [length]; lia).
  apply (IH _ d1); [|done]. apply (reached_step n (n + 1) run input d); try done. lia.
Qed.

(** ** A session *)
Definition run1 : string := "01234567-89ab-1cde-8fab-000000000001".
Definition turn_one : string := "01234567-89ab-1cde-8fab-000000000401".
Definition asked : RecordedRunInput := {|
  user_text := "2+3?"; prepared_request := {| rq_provider_id := "fixture"; rq_options := new_options "m"; rq_prompt := "2+3?" |};
  tool_definitions := []; available_skills := []; active_skills := []; project_instructions_source := None |}.
Definition in_run (turn : option string) (e : RunEvent) : RunEventEnvelope := {|
  ev_schema_version := 2; ev_sequence := 1; ev_event_id := "e"; ev_run_id := run1; ev_turn_id := turn; ev_session_id := None; ev_request_id := Some "r"; ev_event := e |}.
Definition heard (e : ProviderEvent) : RunEventEnvelope := in_run (Some turn_one) (EProviderEvent {|
  env_schema_version := 1; env_sequence := 1; env_event_id := "e"; env_session_id := "s"; env_request_id := Some "r"; env_provider := "fixture";
  env_provider_sequence := None; env_event := e |}).
Definition reasoned : OutputItem := {|
  item_id := Some "i0"; kind := KReasoning; native_type := "reasoning"; function_call := None;
  native := VObject [("summary", VArray [VObject [("text", VString "adding"); ("type", VString "summary_text")]])] |}.
Definition spoken : OutputItem := {|
  item_id := Some "i1"; kind := KMessage; native_type := "message"; function_call := None;
  native := VObject [("content", VArray [VObject [("text", VString "The sum is 5"); ("type", VString "output_text")]])] |}.
Definition responded : ModelResponse := {|
  output_provenance := NativeTerminal; response_id := "resp"; response_model := None; outcome := RCompleted; output := [reasoned; spoken];
  text := "The sum is 5"; usage := None; response_native := Null |}.
Definition opening : list Input.t :=
  [Input.Accepted asked; Input.ProviderBound; Input.Runtime (in_run None RunStarted); Input.Runtime (in_run (Some turn_one) (TurnStarted 1));
   Input.Runtime (heard (PResponseStarted "resp"));
   Input.Runtime (heard (POutputItemUpdated "resp" "i1" 1 (Some 0) None DText "The "))].
Definition opened_rows : Rows := default empty_display (play run1 opening 0 empty_display).

Definition got {A E} (a : A) (r : result A E) : A := match r with Ok x => x | Err _ => a end.
Lemma got_ok {A E} (a : A) (r : result A E) : is_ok r = true -> r = Ok (got a r).
Proof. by destruct r. Qed.
Lemma got_some {A} (a : A) (r : option A) : is_some r = true -> r = Some (default a r).
Proof. by destruct r. Qed.

Definition no_header : BlockHeader := mkHeader EmptyString RecordedRunState.Failed false None None None None None None.
Definition found_at (n : Z) (d : Rows) : option Entry := got None (lookup_entry run1 n (Source.Assistant turn_one) d).
Definition header_of_run (n : Z) (d : Rows) : BlockHeader := got no_header (block run1 n d).

Lemma opened_reached : reached 6 opened_rows.
Proof. apply (play_reached run1 opening 0 empty_display); [constructor|]. apply got_some. vm_compute. reflexivity. Qed.
Lemma opened_displayed : displayed opened_rows 6.
Proof. exact (proj2 (reached_displayed _ _ opened_reached)). Qed.

(** What has to be checked of an event of a response. *)
Definition answersb (d : Rows) (s : Z) (event : ProviderEvent) : bool :=
  typedb (Input.Runtime (heard event)) && fitsb d (Input.Runtime (heard event)) && is_some (response_of event) && indexed event
  && is_ok (block run1 s d) && open_state (bh_state (header_of_run s d))
  && is_ok (lookup_entry run1 s (Source.Assistant turn_one) d)
  && match current_turn (header_of_run s d) (heard event) with Ok turn => bool_decide (turn = turn_one) | Err _ => false end
  && bool_decide ((fun e => show_entry_id (e_id e)) <$> found_at s d = bh_current_assistant (header_of_run s d)).
Lemma answersb_ok d n s event : displayed d n -> n < s -> 0 < s <= i64_max -> answersb d s event = true ->
  answering d n s run1 (heard event) event turn_one (found_at s d) (header_of_run s d).
Proof.
  intros Hd Hn Hs Hb. unfold answersb in Hb. rewrite !andb_true_iff in Hb.
  destruct Hb as ((((((((H1 & H2) & H3) & H4) & H5) & H6) & H7) & H8) & H9%bool_decide_eq_true).
  assert (current_turn (header_of_run s d) (heard event) = Ok turn_one) by (destruct (current_turn _ _); [by apply bool_decide_eq_true in H8 as -> | done]).
  split; try done; [by apply typedb_ok | by apply fitsb_ok | by eexists | by apply got_ok | by apply got_ok].
Qed.

Definition more : ProviderEvent := POutputItemUpdated "resp" "i1" 1 (Some 0) None DText "sum".
Definition answer_ref : EntryRef := (run1, show_entry_id (mkEntryId 5 0)).
Definition answer_place : FieldRef := (answer_ref, show_key (mkOrderKey (Some 1) Content None (Some 0))).

Lemma content_refined_witness :
  answering opened_rows 6 7 run1 (heard more) more turn_one (found_at 7 opened_rows) (header_of_run 7 opened_rows) /\
  exists d', display_step run1 7 (Input.Runtime (heard more)) opened_rows = Ok d' /\ contents d' !! answer_place = Some ("text", "The sum").
Proof.
  assert (answering opened_rows 6 7 run1 (heard more) more turn_one (found_at 7 opened_rows) (header_of_run 7 opened_rows)) as Ha.
  { apply answersb_ok; [apply opened_displayed | done | done | vm_compute; reflexivity]. }
  split; [done|]. pose proof (content_refined _ _ _ _ _ _ _ _ _ Ha) as Hr.
  assert (fst (answer_entry 7 turn_one (found_at 7 opened_rows)) = mkEntryId 5 0) as Hid by (vm_compute; reflexivity).
  destruct (answer_entry 7 turn_one (found_at 7 opened_rows)) as [id m]. cbn [fst] in Hid. subst id.
  destruct Hr as (d' & E & Hc & _). exists d'. split; [done|]. rewrite Hc. vm_compute. reflexivity.
Defined.

Lemma response_shown_witness :
  answering opened_rows 6 7 run1 (heard (PResponseFinished responded)) (PResponseFinished responded) turn_one (found_at 7 opened_rows) (header_of_run 7 opened_rows) /\
  exists d', display_step run1 7 (Input.Runtime (heard (PResponseFinished responded))) opened_rows = Ok d' /\
    snd <$> entry_list d' answer_ref = ["adding"; "The sum is 5"].
Proof.
  assert (answering opened_rows 6 7 run1 (heard (PResponseFinished responded)) (PResponseFinished responded) turn_one (found_at 7 opened_rows) (header_of_run 7 opened_rows)) as Ha.
  { apply answersb_ok; [apply opened_displayed | done | done | vm_compute; reflexivity]. }
  split; [done|]. pose proof (response_shown _ _ _ _ _ _ _ _ _ Ha) as Hr.
  assert (fst (answer_entry 7 turn_one (found_at 7 opened_rows)) = mkEntryId 5 0) as Hid by (vm_compute; reflexivity).
  destruct (answer_entry 7 turn_one (found_at 7 opened_rows)) as [id m]. cbn [fst] in Hid. subst id.
  destruct Hr as (d' & row & m' & E & Hl & _). exists d'. split; [done|]. unfold answer_ref. rewrite Hl. vm_compute. reflexivity.
Defined.

(** A run that is cancelled in the middle of an answer. *)
Definition cancel : Input.t := Input.Runtime (in_run None (RunFinished CancelledLocally default_summary)).
Definition cancelled_header : BlockHeader :=
  bh_set_turn None None (bh_set_outcome Outcome.CancelledLocally default_summary (bh_set_state RecordedRunState.CancelledLocally (header_of_run 7 opened_rows))).
Lemma run_settled_witness :
  displayed opened_rows 6 /\ block run1 7 opened_rows = Ok (header_of_run 7 opened_rows) /\
  run_end run1 cancel (header_of_run 7 opened_rows) = Some (State.Cancelled, cancelled_header) /\
  exists d', display_step run1 7 cancel opened_rows = Ok d' /\ contents d' !! answer_place = Some ("text", "The ") /\ header_at d' run1 cancelled_header.
Proof.
  assert (6 < 7 /\ 0 < 7 <= i64_max) as [H67 H7] by done.
  assert (block run1 7 opened_rows = Ok (header_of_run 7 opened_rows)) as Hb by (apply got_ok; vm_compute; reflexivity).
  assert (run_end run1 cancel (header_of_run 7 opened_rows) = Some (State.Cancelled, cancelled_header)) as He.
  { unfold run_end, cancel. cbn [ev_event in_run ev_run_id ev_schema_version]. rewrite bool_decide_eq_true_2 by done.
    assert (open_state (bh_state (header_of_run 7 opened_rows)) = true) as -> by (vm_compute; reflexivity). reflexivity. }
  split; [apply opened_displayed|]. split; [exact Hb|]. split; [exact He|].
  pose proof (run_settled opened_rows 6 7 run1 cancel (header_of_run 7 opened_rows) State.Cancelled cancelled_header opened_displayed H67 H7 Hb He) as (d' & E & Hc & Hh & _).
  exists d'. split; [exact E|]. split; [|exact Hh]. rewrite Hc. vm_compute. reflexivity.
Defined.

Lemma reader_kept_witness :
  reached 6 opened_rows /\ input_typed cancel /\ fits opened_rows cancel /\
  exists d', display_step run1 7 cancel opened_rows = Ok d' /\ advanced 7 opened_rows d'.
Proof.
  assert (input_typed cancel) as Ht by (apply typedb_ok; vm_compute; reflexivity). assert (fits opened_rows cancel) as Hf by (apply fitsb_ok; vm_compute; reflexivity).
  assert (6 < 7 <= i64_max) as H67 by done. split; [apply opened_reached|]. split; [exact Ht|]. split; [exact Hf|].
  assert (display_step run1 7 cancel opened_rows = Ok (got empty_display (display_step run1 7 cancel opened_rows))) as E by (apply got_ok; vm_compute; reflexivity).
  revert E. generalize (got empty_display (display_step run1 7 cancel opened_rows)). intros d' E. exists d'. split; [exact E|]. exact (proj2 (reader_kept 6 7 run1 cancel opened_rows d' opened_reached H67 Ht Hf E)).
Defined.
