(* ===== verification/RunAudit.v ===== *)
(** * The audit of a recorded run (src/src/storage/run_store/repair.rs)

    Catalog repair re-validates every run: it replays the stored events of the run
    through the rules of the writer and compares what comes out with the mutable
    tables.  Here is the audit, and that it leaves no freedom: two sessions with the
    same log that pass it have the same state of the run. *)
From stdpp Require Import sorting.
From S2P Require Import Prelude Json Errors Identifiers Provider Tools Replay RunData Hoare Records Store History Session RunStore StoreSafety StoreContents.

(** The locals of [validate_run]. *)
Record Audit : Type := mkAudit {
  au_replay : RecordedRun;
  au_selection_seen : bool;
  au_binding_seen : bool;
  au_correlation : Correlation;
  au_after : Z
}.

Definition with_provider (provider : option string) (r : RecordedRun) : RecordedRun :=
  with_runtime (rr_last_runtime_sequence r) provider r.

Definition with_session (session : option string) (c : Correlation) : Correlation :=
  {| co_session := session; co_turn := co_turn c; co_request := co_request c;
     co_provider_sequence := co_provider_sequence c |}.

(** What the replay of a run starts from. *)
Definition fresh_run (p : RecordedRun) : RecordedRun :=
  {| rr_run_id := rr_run_id p; rr_accepted_sequence := rr_accepted_sequence p; rr_input := rr_input p;
     rr_state := RecordedRunState.Accepted; rr_last_runtime_sequence := 0;
     rr_owner_instance_id := rr_owner_instance_id p; rr_provider_session_id := None;
     rr_terminal := None; rr_result_sequence := None; rr_result := None |}.

(** The errors of a writer's rule are a broken history here. *)
Definition audit_error (e : StorageError) : StorageError :=
  match se_kind e with
  | StorageErrorKind.InvalidInput | StorageErrorKind.InvalidTransition | StorageErrorKind.CommandConflict =>
      integrity
  | _ => e
  end.

Section audit.
Context {D : Type} `{UuidLib} `{StorageSerde}.
Implicit Types db : Db D.

(** [require_outputs_before]. *)
Definition late_output (run : string) (sequence : Z) db : bool :=
  match filter (fun kt : string * string * ToolRow =>
                  (bool_decide (kt.1.1 = run)
                   && is_none_or (tool_result_sequence kt.2) (fun n => as_i64 sequence <=? n)) = true)
          (map_to_list (tool_results db)) with
  | [] => false
  | _ :: _ => true
  end.

Definition require_outputs_before (run : string) (outcome : RunOutcome) (sequence : Z) db : SResult unit :=
  if bool_decide (outcome = Completed) && late_output run sequence db then Err integrity else Ok tt.

(** [validate_tool_event]. *)
Definition validate_tool_event (id run : string) (sequence : Z) (envelope : RunEventEnvelope)
    (event : ToolExecutionEvent) db : SResult unit :=
  let? saved := read_tool id run (tool_call_id event) db in
  let? saved := ok_or saved integrity in
  match event with
  | ToolExecutionStarted _ _ => expect (rt_started_sequence saved =? sequence)
  | ToolExecutionFinished _ _ _ =>
      check? expect (bool_decide (rt_finished_sequence saved = Some sequence)) in
      let? started := read_event id (rt_started_sequence saved) db in
      match st_payload started with
      | RuntimeObserved started => expect (bool_decide (ev_turn_id started = ev_turn_id envelope))
      | _ => Err integrity
      end
  | ToolResultReused _ tool_name =>
      expect (bool_decide (rt_tool_name saved = tool_name) && is_some (rt_request_id saved)
              && is_some_and (rt_result_sequence saved) (fun result => result <? sequence))
  end.

(** The arm of a runtime event. *)
Definition audit_runtime (id : string) (a : Audit) (stored : StoredEvent) (event : RunEventEnvelope) db
  : SResult Audit :=
  let replay := au_replay a in
  let run := rr_run_id replay in
  let sequence := st_sequence stored in
  check? (if au_selection_seen a && negb (au_binding_seen a)
          then map_err (validate_unbound_runtime event) (fun _ => integrity) else Ok tt) in
  let? c := map_err (observe_correlation replay event (as_i64 sequence) (au_correlation a) db) audit_error in
  let? replay :=
    match ev_event event with
    | RunStarted => Ok (with_state RecordedRunState.Running replay)
    | RunFinished outcome _ =>
        check? require_outputs_before run outcome sequence db in
        Ok (with_terminal_event stored (with_state (outcome_state outcome) replay))
    | EToolEvent tool =>
        check? validate_tool_event id run sequence event tool db in
        Ok replay
    | _ => Ok replay
    end in
  Ok (mkAudit (with_runtime (ev_sequence event) (ev_session_id event) replay)
        (au_selection_seen a) (au_binding_seen a) c (as_i64 sequence)).

(** The arm of a recorded result. *)
Definition audit_result (a : Audit) (stored : StoredEvent) (result : RunResult) db : SResult Audit :=
  let replay := au_replay a in
  let sequence := st_sequence stored in
  check? (if au_selection_seen a && negb (au_binding_seen a)
          then map_err (validate_unbound_result result) (fun _ => integrity) else Ok tt) in
  check? expect (negb (bool_decide (rr_state replay = RecordedRunState.Interrupted))
                 && is_none (rr_result_sequence replay)) in
  let? replay :=
    if active (rr_state replay) then
      check? expect (negb (res_events_complete result)
                     && (is_none (rr_provider_session_id replay)
                         || bool_decide (rr_provider_session_id replay = res_session_id result))) in
      check? require_outputs_before (rr_run_id replay) (res_outcome result) sequence db in
      Ok (with_terminal_event stored
            (with_provider (res_session_id result) (with_state (outcome_state (res_outcome result)) replay)))
    else
      let? terminal := ok_or (rr_terminal replay) integrity in
      let? op := ok_or (terminal_outcome terminal) integrity in
      check? expect (bool_decide (fst op = res_outcome result) && bool_decide (snd op = res_session_id result)) in
      Ok replay in
  Ok (mkAudit (with_result_sequence sequence replay) (au_selection_seen a) (au_binding_seen a)
        (au_correlation a) (as_i64 sequence)).

(** The body of the event loop. *)
Definition audit_event (id : string) (a : Audit) (stored : StoredEvent) db : SResult Audit :=
  let replay := au_replay a in
  let run := rr_run_id replay in
  let sequence := st_sequence stored in
  check? expect (negb (au_after a =? 0) || match st_payload stored with RunAccepted _ => true | _ => false end) in
  match st_payload stored with
  | RunAccepted _ =>
      check? expect ((au_after a =? 0) && (sequence =? rr_accepted_sequence replay)) in
      Ok (mkAudit replay (au_selection_seen a) (au_binding_seen a) (au_correlation a) (as_i64 sequence))
  | RunHistorySelected _ =>
      check? expect (negb (au_selection_seen a) && (as_u64 (au_after a) =? rr_accepted_sequence replay)) in
      let? selection := history_selection id run db in
      check? ok_or selection integrity in
      Ok (mkAudit replay true (au_binding_seen a) (au_correlation a) (as_i64 sequence))
  | RunProviderBound binding =>
      check? expect (au_selection_seen a && negb (au_binding_seen a)
                     && bool_decide (rr_state replay = RecordedRunState.Running)) in
      let? known := provider_binding id run db in
      check? ok_or known integrity in
      let session := Some (pb_provider_session_id binding) in
      Ok (mkAudit (with_provider session replay) (au_selection_seen a) true
            (with_session session (au_correlation a)) (as_i64 sequence))
  | RuntimeObserved event => audit_runtime id a stored event db
  | ToolResultRecorded payload =>
      check? expect (bool_decide (rr_state replay = RecordedRunState.Running)
                     && negb (au_selection_seen a && negb (au_binding_seen a))) in
      let? saved := read_tool id run (tr_call_id payload) db in
      let? saved := ok_or saved integrity in
      check? expect (bool_decide (rt_result_sequence saved = Some sequence)) in
      Ok (mkAudit replay (au_selection_seen a) (au_binding_seen a) (au_correlation a) (as_i64 sequence))
  | RunResultRecorded result => audit_result a stored result db
  | RunInterrupted _ =>
      check? expect (active (rr_state replay)) in
      Ok (mkAudit (with_terminal_event stored (with_state RecordedRunState.Interrupted replay))
            (au_selection_seen a) (au_binding_seen a) (au_correlation a) (as_i64 sequence))
  | SessionCreated _ | SessionRenamed _ => Err integrity
  end.

(** The query of the event loop: the next row of the run. *)
Definition next_row (run : string) (after : Z) db : option EventRow :=
  find (fun r => bool_decide (row_run_id r = Some run) && (after <? row_sequence r)) (events db).

(** The event loop; every row is visited once, so one unit of fuel per row and one
    for the end are enough. *)
Fixpoint audit_loop (fuel : nat) (id : string) (a : Audit) db : option (SResult Audit) :=
  match fuel with
  | O => None
  | S fuel =>
      match next_row (rr_run_id (au_replay a)) (au_after a) db with
      | None => Some (Ok a)
      | Some row =>
          match (let? stored := decode_event id row in audit_event id a stored db) with
          | Ok a => audit_loop fuel id a db
          | Err e => Some (Err e)
          end
      end
  end.

(** The reverse pass, over the tool rows of the run in the order of their calls. *)
Definition tool_rows (run : string) db : list string :=
  merge_sort String.le
    ((fun kt : string * string * ToolRow => kt.1.2)
       <$> filter (fun kt : string * string * ToolRow => kt.1.1 = run) (map_to_list (tool_results db))).

Fixpoint audit_tools (id run : string) (calls : list string) db : SResult unit :=
  match calls with
  | [] => Ok tt
  | call :: calls =>
      let? saved := read_tool id run call db in
      check? ok_or saved integrity in
      audit_tools id run calls db
  end.

(** Whether the replayed state is the one of the tables. *)
Definition same_progress (r p : RecordedRun) : bool :=
  bool_decide (rr_state r = rr_state p)
  && (rr_last_runtime_sequence r =? rr_last_runtime_sequence p)
  && bool_decide (rr_provider_session_id r = rr_provider_session_id p)
  && bool_decide (terminal_sequence r = terminal_sequence p)
  && bool_decide (rr_result_sequence r = rr_result_sequence p).

(** [validate_run]. *)
Definition validate_run (id run : string) db : option (SResult unit) :=
  match (let? p := run_record id run db in ok_or p integrity) with
  | Err e => Some (Err e)
  | Ok projection =>
      match audit_loop (S (length (events db))) id
              (mkAudit (fresh_run projection) false false default_correlation 0) db with
      | None => None
      | Some (Err e) => Some (Err e)
      | Some (Ok a) =>
          Some (check? expect (same_progress (au_replay a) projection) in
                audit_tools id run (tool_rows run db) db)
      end
  end.

(** ** The loop visits the rows of the run in order *)

(** The event loop over a list of rows. *)
Fixpoint audit_rows (id : string) (a : Audit) (rows : list EventRow) db : SResult Audit :=
  match rows with
  | [] => Ok a
  | row :: rows =>
      match (let? stored := decode_event id row in audit_event id a stored db) with
      | Ok a => audit_rows id a rows db
      | Err e => Err e
      end
  end.

Definition of_run (run : string) (r : EventRow) : bool := bool_decide (row_run_id r = Some run).
Definition run_rows (run : string) db : list EventRow := List.filter (of_run run) (events db).

(** What a decoded row says of its columns. *)
Lemma decode_event_Ok id r e :
  decode_event id r = Ok e ->
  1 <= row_sequence r <= i64_max /\ st_sequence e = row_sequence r /\ st_run_id e = row_run_id r /\
  payload_from_json (row_event_type r) (row_payload_json r) = Some (st_payload e) /\
  payload_fits id (st_sequence e) (st_event_id e) (st_created_at_ms e) (st_run_id e) (st_payload e) = Ok tt.
Proof.
  intros Hd. pose proof (decode_event_sequence _ _ _ Hd) as Hs. unfold decode_event, u64_try_from in Hd.
  destruct (in_u64 (row_sequence r)) eqn:Hu; [|done]. cbn [ok_or] in Hd. apply in_u64_spec in Hu.
  destruct (map_err (parse_id (row_event_id r)) _) as [eid|]; [|done].
  assert (exists run, match row_run_id r with
    | Some r0 => match map_err (parse_id r0) (fun _ => integrity) with Ok r1 => Ok (Some r1) | Err e0 => Err e0 end
    | None => Ok None end = Ok run /\ run = row_run_id r) as (run & Hrun & ->).
  { destruct (row_run_id r) as [k|]; [|by exists None]. destruct (map_err (parse_id k) _) as [k'|] eqn:Hk; [|done].
    apply map_err_Ok in Hk. unfold parse_id in Hk. destruct (parse_str k); [|done]. cbn [ok_or] in Hk.
    destruct (_ || _) in Hk; [done|]. injection Hk as <-. by exists (Some k). }
  rewrite Hrun in Hd. destruct (_ || _) eqn:Hc in Hd; [done|]. prop_bools.
  destruct (payload_from_json _ _) as [p|] eqn:Hp; [|done]. cbn [ok_or] in Hd.
  destruct (payload_fits _ _ _ _ _ _) as [[]|] eqn:Hf; [|done]. destruct (negb _); [done|].
  injection Hd as <-. simpl in *. split_and!; try done; lia.
Qed.

Lemma expect_Ok b (u : unit) : expect b = Ok u <-> b = true.
Proof. unfold expect. destruct u, b; naive_solver. Qed.

(** A passed event leaves the run it is about and moves the cursor to its row. *)
Lemma audit_event_moves id a e db a' :
  audit_event id a e db = Ok a' ->
  rr_run_id (au_replay a') = rr_run_id (au_replay a) /\ au_after a' = as_i64 (st_sequence e).
Proof.
  unfold audit_event, audit_runtime, audit_result. intros Ha.
  repeat match type of Ha with
         | match ?x with _ => _ end = _ => destruct x eqn:?; try done
         | Ok _ = Ok _ => injection Ha as <-
         end; simpl;
  repeat match goal with
         | Hq : match ?x with _ => _ end = _ |- _ => destruct x eqn:?; try done
         | Hq : Ok _ = Ok _ |- _ => injection Hq as <-
         end; done.
Qed.

Lemma find_filter {A} (p : A -> bool) l : find p l = head (List.filter p l).
Proof. induction l as [|x l IH]; simpl; [done|]. by destruct (p x). Qed.

Lemma filter_both {A} (p q : A -> bool) l : List.filter q (List.filter p l) = List.filter (fun x => p x && q x) l.
Proof. induction l as [|x l IH]; simpl; [done|]. destruct (p x); simpl; [|done]. destruct (q x); simpl; by rewrite IH. Qed.

Lemma filter_sorted (p : EventRow -> bool) l :
  StronglySorted (fun r q => row_sequence r < row_sequence q) l ->
  StronglySorted (fun r q => row_sequence r < row_sequence q) (List.filter p l).
Proof.
  induction 1 as [|r l _ IH Hr]; simpl; [constructor|]. destruct (p r); [|done]. constructor; [done|].
  apply Forall_forall. intros x [Hx _]%list_elem_of_In%filter_In. rewrite Forall_forall in Hr. by apply Hr, list_elem_of_In.
Qed.

Lemma log_sorted db : log_ok db -> StronglySorted (fun r q => row_sequence r < row_sequence q) (events db).
Proof.
  unfold log_ok. generalize 1. induction (events db) as [|r l IH]; intros m Hl; [constructor|].
  simpl length in Hl. rewrite Nat2Z.inj_succ, seqZ_cons in Hl by lia. simpl in Hl. rewrite Z.pred_succ in Hl.
  injection Hl as Hr Hl. constructor; [by eapply IH|]. apply Forall_forall. intros q Hq.
  apply (list_elem_of_fmap_2 row_sequence) in Hq. unfold fmap in Hq. rewrite Hl in Hq. apply elem_of_seqZ in Hq. lia.
Qed.

Lemma audit_loop_rows id db : log_ok db -> forall rows a fuel,
  List.filter (fun r => of_run (rr_run_id (au_replay a)) r && (au_after a <? row_sequence r)) (events db) = rows ->
  (length rows < fuel)%nat -> audit_loop fuel id a db = Some (audit_rows id a rows db).
Proof.
  intros Hl rows. induction rows as [|row rows IH]; intros a fuel Hr Hf; (destruct fuel as [|fuel]; [simpl in Hf; lia|]);
    cbn [audit_loop]; unfold next_row; rewrite find_filter; unfold of_run in Hr; rewrite Hr; [done|]. cbn [head audit_rows].
  destruct (decode_event id row) as [e|] eqn:Hd; [|done]. destruct (audit_event id a e db) as [a'|] eqn:Ha; [|done].
  apply audit_event_moves in Ha as [Hrun Haft]. apply decode_event_Ok in Hd as (Hb & Hs & _).
  rewrite Hs, as_i64_small in Haft by lia. apply IH; [|simpl in Hf; lia]. rewrite Hrun, Haft.
  pose proof (filter_sorted (fun r => bool_decide (row_run_id r = Some (rr_run_id (au_replay a))) && (au_after a <? row_sequence r))
    _ (log_sorted db Hl)) as Hsort. rewrite Hr in Hsort. apply StronglySorted_inv in Hsort as [_ Hall].
  assert (au_after a < row_sequence row) as Hlt.
  { assert (row ∈ row :: rows) as Hin by left. rewrite <- Hr in Hin. apply list_elem_of_In, filter_In in Hin as [_ Hin]. by prop_bools. }
  transitivity (List.filter (fun r => row_sequence row <? row_sequence r) (row :: rows)).
  - rewrite <- Hr, filter_both. apply List.filter_ext. intros q. unfold of_run.
    destruct (bool_decide _), (Z.ltb_spec (row_sequence row) (row_sequence q)), (Z.ltb_spec (au_after a) (row_sequence q)); done || lia.
  - cbn [List.filter]. rewrite Z.ltb_irrefl. apply filter_all. eapply Forall_impl; [exact Hall|]. intros q Hq. by apply Z.ltb_lt.
Qed.

(** The audit as one pass over the rows; in particular it always ends. *)
Lemma validate_run_rows id run db :
  log_ok db ->
  validate_run id run db =
    Some (let? p := run_record id run db in
          let? p := ok_or p integrity in
          let? a := audit_rows id (mkAudit (fresh_run p) false false default_correlation 0) (run_rows run db) db in
          check? expect (same_progress (au_replay a) p) in
          audit_tools id run (tool_rows run db) db).
Proof.
  intros Hl. unfold validate_run. destruct (run_record id run db) as [[p|]|e] eqn:Hp; [|done|done]. cbn [ok_or].
  assert (rr_run_id p = run) as Hid.
  { unfold run_record in Hp. destruct (runs db !! run) as [row|]; [|done]. step_in Hp; done. }
  rewrite (audit_loop_rows id db Hl (run_rows run db)).
  - by destruct (audit_rows _ _ _ _).
  - simpl. rewrite Hid. unfold run_rows. apply List.filter_ext_in. intros r Hr%list_elem_of_In.
    pose proof (log_ok_bound db r Hl Hr). destruct (Z.ltb_spec 0 (row_sequence r)); [apply andb_true_r | lia].
  - unfold run_rows. pose proof (filter_length_le (of_run run) (events db)). lia.
Qed.

(** ** Typed reads of rows

    Columns of type INTEGER hold 64-bit numbers. *)
Definition tool_typed (t : ToolRow) : Prop :=
  tool_started_sequence t <= i64_max /\
  (forall n, tool_finished_sequence t = Some n -> n <= i64_max) /\
  (forall n, tool_result_sequence t = Some n -> n <= i64_max).

Definition run_typed (r : RunRow) : Prop :=
  run_accepted_sequence r <= i64_max /\ run_last_runtime_sequence r <= i64_max /\
  (forall n, run_terminal_sequence r = Some n -> n <= i64_max) /\
  (forall n, run_result_sequence r = Some n -> n <= i64_max).

Definition typed db : Prop :=
  (forall k r, runs db !! k = Some r -> run_typed r) /\ (forall k t, tool_results db !! k = Some t -> tool_typed t).

Lemma positive_Ok v w : v <= i64_max -> positive v = Ok w <-> 0 < v /\ w = v.
Proof.
  intros Hv. unfold positive. destruct (Z.leb_spec v 0); [split; [done|lia]|].
  rewrite as_u64_small by (unfold u64_max, i64_max in *; lia). split; [intros [= <-]; lia | by intros [_ ->]].
Qed.

Lemma positive_opt_Ok v w : (forall n, v = Some n -> n <= i64_max) ->
  positive_opt v = Ok w <-> (forall n, v = Some n -> 0 < n) /\ w = v.
Proof.
  intros Hv. destruct v as [v|]; simpl; [|naive_solver].
  pose proof (fun w => positive_Ok v w (Hv v eq_refl)) as Hp. destruct (positive v) as [u|].
  - destruct (proj1 (Hp u) eq_refl) as [Hpos ->]. split; [intros [= <-]; naive_solver | by intros [_ ->]].
  - split; [done|]. intros [Hpos _]. specialize (proj2 (Hp v) (conj (Hpos v eq_refl) eq_refl)). done.
Qed.

Definition started_by (call : string) (t : ToolRow) (e : ToolExecutionEvent) : bool :=
  match e with
  | ToolExecutionStarted c n => bool_decide (c = call) && bool_decide (n = tool_tool_name t)
  | _ => false
  end.
Definition finished_by (call : string) (t : ToolRow) (e : ToolExecutionEvent) : bool :=
  match e with
  | ToolExecutionFinished c n err =>
      bool_decide (c = call) && bool_decide (n = tool_tool_name t) && bool_decide (Some err = tool_is_error t)
  | _ => false
  end.

(** The event at [n] records the result of the row. *)
Definition resulted_by (id run call : string) (t : ToolRow) (n : Z) db : Prop :=
  exists e payload, read_event id n db = Ok e /\ st_payload e = ToolResultRecorded payload /\ st_run_id e = Some run /\
    tr_call_id payload = call /\ tr_request_id payload = tool_request_id t /\
    tool_output t = Some (tr_output payload) /\ tool_is_error t = Some (tr_is_error payload).

(** A tool row agrees with the events it refers to. *)
Record tool_fits (id run call : string) (t : ToolRow) db : Prop := {
  tf_started : 0 < tool_started_sequence t;
  tf_output : is_some (tool_result_sequence t) = is_some (tool_output t);
  tf_error : is_some (tool_result_sequence t) || is_some (tool_finished_sequence t) = is_some (tool_is_error t);
  tf_start_link : tool_link id run (tool_request_id t) (tool_started_sequence t) (started_by call t) db = Ok tt;
  tf_finish_link n : tool_finished_sequence t = Some n ->
    tool_started_sequence t < n /\ tool_link id run (tool_request_id t) n (finished_by call t) db = Ok tt;
  tf_result_link n : tool_result_sequence t = Some n -> tool_started_sequence t < n /\ resulted_by id run call t n db
}.

Definition saved_of (t : ToolRow) : RecordedToolResult :=
  {| rt_tool_name := tool_tool_name t; rt_request_id := tool_request_id t;
     rt_started_sequence := tool_started_sequence t; rt_finished_sequence := tool_finished_sequence t;
     rt_result_sequence := tool_result_sequence t; rt_is_error := tool_is_error t; rt_output := tool_output t |}.

Lemma read_tool_fits id run call db t saved :
  tool_results db !! (run, call) = Some t -> tool_typed t ->
  read_tool id run call db = Ok (Some saved) -> tool_fits id run call t db /\ saved = saved_of t.
Proof.
  intros Ht (T1 & T2 & T3) Hr. unfold read_tool in Hr. rewrite Ht in Hr.
  destruct (positive _) as [started|] eqn:Hs in Hr; [|done]. apply (positive_Ok _ _ T1) in Hs as [Hs ->].
  destruct (positive_opt _) as [f|] eqn:Hf in Hr; [|done]. apply (positive_opt_Ok _ _ T2) in Hf as [Hf ->].
  destruct (positive_opt _) as [n|] eqn:Hn in Hr; [|done]. apply (positive_opt_Ok _ _ T3) in Hn as [Hn ->].
  destruct (expect _) as [[]|] eqn:He in Hr; [|done]. apply expect_Ok, andb_prop in He as [Ho%eqb_prop Herr%eqb_prop].
  destruct (tool_link _ _ _ _ _ _) as [[]|] eqn:Hl in Hr; [|done].
  destruct (match tool_finished_sequence t with Some _ => _ | None => _ end) as [[]|] eqn:Hfl in Hr; [|done].
  destruct (match tool_result_sequence t with Some _ => _ | None => _ end) as [[]|] eqn:Hrl in Hr; [|done].
  injection Hr as <-. split; [|done]. split; try done.
  - intros m Hm. rewrite Hm in Hfl. destruct (expect _) as [[]|] eqn:Hlt in Hfl; [|done].
    apply expect_Ok in Hlt. prop_bools. done.
  - intros m Hm. rewrite Hm in Hrl. destruct (read_event id m db) as [e|] eqn:Hev; [|done].
    destruct (st_payload e) as [| | | | | |payload| |] eqn:Hp; try done. apply expect_Ok in Hrl. prop_bools.
    split; [done|]. exists e, payload. split_and!; congruence.
Qed.

Lemma fits_read_tool id run call db t :
  tool_results db !! (run, call) = Some t -> tool_typed t -> tool_fits id run call t db ->
  read_tool id run call db = Ok (Some (saved_of t)).
Proof.
  intros Ht (T1 & T2 & T3) [Hs Ho He Hsl Hfl Hrl]. unfold read_tool, saved_of. rewrite Ht.
  rewrite (proj2 (positive_Ok _ _ T1) (conj Hs eq_refl)).
  rewrite (proj2 (positive_opt_Ok _ (tool_finished_sequence t) T2)); [|split; [|done]; intros n Hn; specialize (Hfl n Hn); lia].
  rewrite (proj2 (positive_opt_Ok _ (tool_result_sequence t) T3)); [|split; [|done]; intros n Hn; specialize (Hrl n Hn); lia].
  rewrite Ho, Bool.eqb_reflx. rewrite <- Ho, He, Bool.eqb_reflx. cbn [expect andb].
  match goal with |- context [tool_link id run ?q ?n ?p db] => change (tool_link id run q n p db) with
    (tool_link id run (tool_request_id t) (tool_started_sequence t) (started_by call t) db) end.
  rewrite Hsl.
  assert (forall m, tool_finished_sequence t = Some m -> (tool_started_sequence t <? m) = true) as Hlt.
  { intros m Hm. apply Z.ltb_lt. by apply Hfl. }
  destruct (tool_finished_sequence t) as [m|] eqn:Hm.
  - rewrite (Hlt m eq_refl). cbn [expect]. destruct (Hfl m eq_refl) as [_ Hlink].
    match goal with |- context [tool_link id run ?q m ?p db] => change (tool_link id run q m p db) with
      (tool_link id run (tool_request_id t) m (finished_by call t) db) end. rewrite Hlink.
    destruct (tool_result_sequence t) as [n|] eqn:Hn; [|done].
    destruct (Hrl n eq_refl) as (Hn1 & e & payload & -> & -> & -> & -> & -> & -> & ->).
    rewrite !bool_decide_eq_true_2 by done. by rewrite (proj2 (Z.ltb_lt _ _) Hn1).
  - destruct (tool_result_sequence t) as [n|] eqn:Hn; [|done].
    destruct (Hrl n eq_refl) as (Hn1 & e & payload & -> & -> & -> & -> & -> & -> & ->).
    rewrite !bool_decide_eq_true_2 by done. by rewrite (proj2 (Z.ltb_lt _ _) Hn1).
Qed.

(** ** One event: what is asked of it and what it does *)

(** What an accepted event makes of the state, [c] being what it was correlated to. *)
Definition audit_advance (a : Audit) (e : StoredEvent) (c : Correlation) : Audit :=
  let r := au_replay a in
  let after := as_i64 (st_sequence e) in
  let keep r := mkAudit r (au_selection_seen a) (au_binding_seen a) (au_correlation a) after in
  match st_payload e with
  | RunHistorySelected _ => mkAudit r true (au_binding_seen a) (au_correlation a) after
  | RunProviderBound binding =>
      let session := Some (pb_provider_session_id binding) in
      mkAudit (with_provider session r) (au_selection_seen a) true (with_session session (au_correlation a)) after
  | RuntimeObserved event =>
      let r := match ev_event event with
               | RunStarted => with_state RecordedRunState.Running r
               | RunFinished outcome _ => with_terminal_event e (with_state (outcome_state outcome) r)
               | _ => r
               end in
      mkAudit (with_runtime (ev_sequence event) (ev_session_id event) r) (au_selection_seen a) (au_binding_seen a) c after
  | RunResultRecorded result =>
      keep (with_result_sequence (st_sequence e)
        (if active (rr_state r)
         then with_terminal_event e
                (with_provider (res_session_id result) (with_state (outcome_state (res_outcome result)) r))
         else r))
  | RunInterrupted _ => keep (with_terminal_event e (with_state RecordedRunState.Interrupted r))
  | _ => keep r
  end.

Definition unbound_audit (a : Audit) : bool := au_selection_seen a && negb (au_binding_seen a).

(** What is asked of an event. *)
Definition audit_checks (id : string) (a : Audit) (e : StoredEvent) (c : Correlation) db : Prop :=
  let r := au_replay a in
  let run := rr_run_id r in
  let sequence := st_sequence e in
  match st_payload e with
  | RunAccepted _ => au_after a = 0 /\ sequence = rr_accepted_sequence r
  | payload => au_after a <> 0 /\
    match payload with
    | RunHistorySelected _ => au_selection_seen a = false /\ as_u64 (au_after a) = rr_accepted_sequence r /\
        exists s, history_selection id run db = Ok (Some s)
    | RunProviderBound _ => unbound_audit a = true /\ rr_state r = RecordedRunState.Running /\
        exists b, provider_binding id run db = Ok (Some b)
    | RuntimeObserved event =>
        (unbound_audit a = true -> validate_unbound_runtime event = Ok tt) /\
        observe_correlation r event (as_i64 sequence) (au_correlation a) db = Ok c /\
        match ev_event event with
        | RunFinished outcome _ => outcome = Completed -> late_output run sequence db = false
        | EToolEvent tool => validate_tool_event id run sequence event tool db = Ok tt
        | _ => True
        end
    | ToolResultRecorded payload =>
        rr_state r = RecordedRunState.Running /\ unbound_audit a = false /\
        exists saved, read_tool id run (tr_call_id payload) db = Ok (Some saved) /\
          rt_result_sequence saved = Some sequence
    | RunResultRecorded result =>
        (unbound_audit a = true -> validate_unbound_result result = Ok tt) /\
        rr_state r <> RecordedRunState.Interrupted /\ rr_result_sequence r = None /\
        if active (rr_state r)
        then res_events_complete result = false /\
             (rr_provider_session_id r = None \/ rr_provider_session_id r = res_session_id result) /\
             (res_outcome result = Completed -> late_output run sequence db = false)
        else exists t, rr_terminal r = Some t /\ terminal_outcome t = Some (res_outcome result, res_session_id result)
    | RunInterrupted _ => active (rr_state r) = true
    | _ => False
    end
  end.

Lemma require_outputs_before_Ok run o n db :
  require_outputs_before run o n db = Ok tt <-> (o = Completed -> late_output run n db = false).
Proof.
  unfold require_outputs_before. destruct (bool_decide_reflect (o = Completed)); [|naive_solver].
  destruct (late_output run n db); naive_solver.
Qed.

Lemma when_Ok (b : bool) (r : SResult unit) :
  (if b then map_err r (fun _ => integrity) else Ok tt) = Ok tt <-> (b = true -> r = Ok tt).
Proof. destruct b; [|naive_solver]. rewrite map_err_Ok. naive_solver. Qed.

Lemma audit_runtime_spec id a e event db a' :
  st_payload e = RuntimeObserved event -> au_after a <> 0 ->
  audit_runtime id a e event db = Ok a' -> exists c, audit_checks id a e c db /\ a' = audit_advance a e c.
Proof.
  intros Hp Ha Hr. unfold audit_runtime in Hr. fold (unbound_audit a) in Hr.
  destruct (if unbound_audit a then _ else _) as [[]|] eqn:Hu; [|done]. rewrite when_Ok in Hu.
  destruct (map_err _ _) as [c|] eqn:Ho in Hr; [|done]. apply map_err_Ok in Ho. exists c.
  unfold audit_checks, audit_advance. rewrite Hp. destruct (ev_event event) as [|num|pe|tool|num rid out up|o sm] eqn:Hev;
    try (injection Hr as <-; by split_and!).
  - destruct (validate_tool_event _ _ _ _ _ _) as [[]|] eqn:Ht in Hr; [|done]. injection Hr as <-. by split_and!.
  - destruct (require_outputs_before _ _ _ _) as [[]|] eqn:Ht in Hr; [|done]. rewrite require_outputs_before_Ok in Ht.
    injection Hr as <-. by split_and!.
Qed.

Lemma audit_result_spec id a e result db a' :
  st_payload e = RunResultRecorded result -> au_after a <> 0 ->
  audit_result a e result db = Ok a' -> audit_checks id a e (au_correlation a) db /\ a' = audit_advance a e (au_correlation a).
Proof.
  intros Hp Ha Hr. unfold audit_result in Hr. fold (unbound_audit a) in Hr.
  destruct (if unbound_audit a then _ else _) as [[]|] eqn:Hu; [|done]. rewrite when_Ok in Hu.
  destruct (expect _) as [[]|] eqn:Hx in Hr; [|done]. apply expect_Ok in Hx. unfold is_none in Hx. prop_bools. simp_checks.
  unfold audit_checks, audit_advance. rewrite Hp. destruct (active _).
  - destruct (expect _) as [[]|] eqn:Hx in Hr; [|done]. apply expect_Ok in Hx. prop_bools.
    destruct (require_outputs_before _ _ _ _) as [[]|] eqn:Ht in Hr; [|done]. rewrite require_outputs_before_Ok in Ht.
    injection Hr as <-. split; [|done]. split_and!; try done.
    destruct (rr_provider_session_id (au_replay a)); [right | by left]. simpl in *. by prop_bools.
  - destruct (rr_terminal _) as [t|] eqn:Ht; [|done]. cbn [ok_or] in Hr.
    destruct (terminal_outcome t) as [[o sess]|] eqn:Hto; [|done]. cbn [ok_or] in Hr.
    destruct (expect _) as [[]|] eqn:Hx in Hr; [|done]. apply expect_Ok in Hx. prop_bools. simpl in *. subst.
    injection Hr as <-. split; [|done]. split_and!; try done. by exists t.
Qed.

Lemma audit_event_spec id a e db a' :
  audit_event id a e db = Ok a' -> exists c, audit_checks id a e c db /\ a' = audit_advance a e c.
Proof.
  intros Hr. unfold audit_event in Hr. destruct (expect _) as [[]|] eqn:Hx in Hr; [|done]. apply expect_Ok in Hx.
  destruct (st_payload e) as [|title|acc|sel|binding|event|payload|result|intr] eqn:Hp; try done;
    simpl in Hx; rewrite ?orb_false_r, ?orb_true_r in Hx; prop_bools;
    [| | |by eapply audit_runtime_spec| |eexists; by eapply audit_result_spec|];
    exists (au_correlation a); unfold audit_checks, audit_advance; rewrite Hp;
    destruct (expect _) as [[]|] eqn:Hx' in Hr; try done; apply expect_Ok in Hx'; prop_bools.
  - injection Hr as <-. done.
  - destruct (history_selection _ _ _) as [[s|]|]; try done. injection Hr as <-. split_and!; eauto.
  - destruct (provider_binding _ _ _) as [[s|]|]; try done. injection Hr as <-. unfold unbound_audit.
    split_and!; try done; [|eauto]. by apply andb_true_iff; split; [|apply negb_true_iff].
  - destruct (read_tool _ _ _ _) as [[s|]|] eqn:Ht; try done. cbn [ok_or] in Hr.
    destruct (expect _) as [[]|] eqn:Hx2 in Hr; [|done]. apply expect_Ok in Hx2. prop_bools. injection Hr as <-.
    unfold unbound_audit. split_and!; try done; eauto.
  - injection Hr as <-. done.
Qed.

(** A point read finds a row of the log. *)
Lemma read_event_row id n db e :
  read_event id n db = Ok e ->
  exists row, row ∈ events db /\ row_sequence row = n /\ decode_event id row = Ok e /\ st_sequence e = n.
Proof.
  unfold read_event. destruct (i64_try_from n) as [m|] eqn:Hn; [|done]. cbn [ok_or].
  unfold i64_try_from in Hn. destruct (in_i64 n); [|done]. injection Hn as <-.
  destruct (find _ _) as [row|] eqn:Hf; [|done]. cbn [ok_or]. intros Hd. apply find_some in Hf as [Hin Heq%Z.eqb_eq].
  exists row. apply list_elem_of_In in Hin. split_and!; try done. by rewrite (decode_event_sequence _ _ _ Hd).
Qed.

Lemma read_event_same id n db1 db2 : events db1 = events db2 -> read_event id n db1 = read_event id n db2.
Proof. intros He. unfold read_event. by rewrite He. Qed.

(** A run row agrees with the events it refers to; [p] is what is read of it. *)
Record run_fits (id run : string) (row : RunRow) (p : RecordedRun) db : Prop := {
  rf_row : runs db !! run = Some row;
  rf_id : rr_run_id p = run;
  rf_accepted : 0 < rr_accepted_sequence p /\ rr_accepted_sequence p = run_accepted_sequence row;
  rf_event : exists e, read_event id (rr_accepted_sequence p) db = Ok e /\
    st_payload e = RunAccepted {| ac_run_id := run; ac_input := rr_input p;
                                  ac_owner_instance_id := rr_owner_instance_id p |};
  rf_owner : rr_owner_instance_id p = run_owner_instance_id row;
  rf_state : run_state row = state_name (rr_state p);
  rf_last : 0 <= rr_last_runtime_sequence p /\ rr_last_runtime_sequence p = run_last_runtime_sequence row;
  rf_provider : rr_provider_session_id p = run_provider_session_id row;
  rf_terminal : is_some (run_terminal_sequence row) = is_some (run_terminal_json row) /\
    active (rr_state p) = negb (is_some (run_terminal_sequence row)) /\
    (forall n, run_terminal_sequence row = Some n -> 0 < n) /\
    read_terminal id run (rr_accepted_sequence p) (rr_state p) (rr_provider_session_id p)
      (run_terminal_sequence row) (run_terminal_json row) db = Ok (rr_terminal p);
  rf_result : (forall n, run_result_sequence row = Some n -> 0 < n) /\
    rr_result_sequence p = run_result_sequence row /\
    read_result id run (rr_terminal p) (run_result_sequence row) db = Ok (rr_result p)
}.

Lemma state_of_name_name s : state_of_name (state_name s) = Some s.
Proof. by destruct s. Qed.

Lemma run_record_fits id run db p :
  typed db -> run_record id run db = Ok (Some p) -> exists row, run_fits id run row p db.
Proof.
  intros [Hty _] Hp. unfold run_record in Hp. destruct (runs db !! run) as [row|] eqn:Hrow; [|done].
  destruct (Hty run row Hrow) as (T1 & T2 & T3 & T4).
  destruct (positive _) as [acc|] eqn:Hacc in Hp; [|done]. apply (positive_Ok _ _ T1) in Hacc as [Hpos ->].
  destruct (read_event _ _ _) as [e|] eqn:He in Hp; [|done].
  destruct (st_payload e) as [| |[arun ainput aowner]| | | | | |] eqn:Hpay; try done. simpl in Hp.
  destruct (expect _) as [[]|] eqn:Hx in Hp; [|done]. apply expect_Ok in Hx. prop_bools. subst arun aowner.
  destruct (state_of_name _) as [st|] eqn:Hst; [|done]. cbn [ok_or] in Hp. apply state_of_name_Some in Hst.
  destruct (expect _) as [[]|] eqn:Hx in Hp; [|done]. apply expect_Ok in Hx. prop_bools.
  destruct (positive_opt _) as [ts|] eqn:Hts in Hp; [|done]. apply (positive_opt_Ok _ _ T3) in Hts as [Hts ->].
  destruct (expect _) as [[]|] eqn:Hx2 in Hp; [|done]. apply expect_Ok in Hx2. prop_bools.
  destruct (read_terminal _ _ _ _ _ _ _ _) as [terminal|] eqn:Hterm in Hp; [|done].
  destruct (positive_opt _) as [rs|] eqn:Hrs in Hp; [|done]. apply (positive_opt_Ok _ _ T4) in Hrs as [Hrs ->].
  destruct (read_result _ _ _ _ _) as [result|] eqn:Hres in Hp; [|done]. injection Hp as <-.
  exists row. split; simpl; try done.
  - by exists e.
  - rewrite as_u64_small by (unfold u64_max, i64_max in *; lia). done.
  - split_and!; try done; [by apply eqb_prop|]. match goal with Hq : Bool.eqb (active _) _ = false |- _ =>
      apply eqb_false_iff in Hq; destruct (active st), (is_some (run_terminal_sequence row)); done end.
Qed.

Lemma fits_run_record id run row p db : typed db -> run_fits id run row p db -> run_record id run db = Ok (Some p).
Proof.
  intros [Hty _] [Hrow Hid [Hpos Hacc] (e & He & Hpay) How Hst [Hlast Hlr] Hprov (Ht1 & Ht2 & Ht3 & Ht4) (Hr1 & Hr2 & Hr3)].
  destruct (Hty run row Hrow) as (T1 & T2 & T3 & T4). unfold run_record. rewrite Hrow.
  rewrite (proj2 (positive_Ok _ (rr_accepted_sequence p) T1)) by lia. rewrite He, Hpay. simpl.
  rewrite !bool_decide_eq_true_2 by done. cbn [andb expect]. rewrite Hst, state_of_name_name. cbn [ok_or].
  rewrite <- Hlr, (proj2 (Z.ltb_ge _ _) Hlast). cbn [negb expect].
  rewrite (proj2 (positive_opt_Ok _ (run_terminal_sequence row) T3)) by done.
  rewrite Ht1, Bool.eqb_reflx. rewrite Ht2, <- Ht1.
  replace (Bool.eqb (negb (is_some (run_terminal_sequence row))) (is_some (run_terminal_sequence row))) with false
    by (by destruct (is_some (run_terminal_sequence row))). cbn [negb andb expect].
  rewrite <- Hprov, Ht4. rewrite (proj2 (positive_opt_Ok _ (run_result_sequence row) T4)) by done. rewrite Hr3.
  rewrite as_u64_small by (unfold u64_max, i64_max in *; lia). rewrite <- Hr2. destruct p; simpl in *; by subst.
Qed.

(** The terminal event of a record is the one its row names. *)
Lemma fits_terminal_sequence id run row p db : run_fits id run row p db -> terminal_sequence p = run_terminal_sequence row.
Proof.
  intros [_ _ _ _ _ _ _ _ (_ & _ & _ & Ht) _]. unfold terminal_sequence, read_terminal in *.
  destruct (run_terminal_sequence row) as [n|]; [|by injection Ht as <-].
  destruct (read_event id n db) as [e|] eqn:He; [|done]. apply read_event_row in He as (_ & _ & _ & _ & Hs).
  destruct (expect _) as [[]|]; [|done].
  match type of Ht with match ?x with _ => _ end = _ => destruct x as [[]|]; [|done] end.
  destruct (run_terminal_json row); [|done]. cbn [ok_or] in Ht. destruct (expect _) as [[]|]; [|done].
  injection Ht as <-. simpl. by rewrite Hs.
Qed.

(** ** The log decides *)

(** A passed audit, taken apart. *)
Lemma validate_run_Ok id run db :
  log_ok db -> validate_run id run db = Some (Ok tt) ->
  exists p a, run_record id run db = Ok (Some p) /\
    audit_rows id (mkAudit (fresh_run p) false false default_correlation 0) (run_rows run db) db = Ok a /\
    same_progress (au_replay a) p = true /\ audit_tools id run (tool_rows run db) db = Ok tt.
Proof.
  intros Hl Hv. rewrite validate_run_rows in Hv by done. injection Hv as Hv.
  destruct (run_record id run db) as [[p|]|]; try done. cbn [ok_or] in Hv.
  destruct (audit_rows _ _ _ _) as [a|] eqn:Ha; [|done]. destruct (expect _) as [[]|] eqn:Hx; [|done].
  apply expect_Ok in Hx. by exists p, a.
Qed.

Lemma observe_same run event before c db1 db2 :
  events db1 = events db2 -> observe_correlation run event before c db1 = observe_correlation run event before c db2.
Proof. intros He. unfold observe_correlation, observe_turn, seen_source, seen_turn. by rewrite He. Qed.

Lemma audit_rows_det id db1 db2 rows a a1 a2 :
  events db1 = events db2 -> audit_rows id a rows db1 = Ok a1 -> audit_rows id a rows db2 = Ok a2 -> a1 = a2.
Proof.
  intros He. revert a. induction rows as [|row rows IH]; intros a H1 H2; simpl in *; [congruence|].
  destruct (decode_event id row) as [e|]; [|done].
  destruct (audit_event id a e db1) as [b1|] eqn:E1; [|done]. destruct (audit_event id a e db2) as [b2|] eqn:E2; [|done].
  apply audit_event_spec in E1 as (c1 & C1 & ->). apply audit_event_spec in E2 as (c2 & C2 & ->).
  assert (audit_advance a e c1 = audit_advance a e c2) as Heq; [|rewrite Heq in H1; by eapply IH].
  unfold audit_checks, audit_advance in *. destruct (st_payload e); try done.
  destruct C1 as (_ & _ & C1 & _), C2 as (_ & _ & C2 & _). rewrite (observe_same _ _ _ _ _ _ He) in C1.
  assert (c1 = c2) as -> by congruence. done.
Qed.

(** Every row was looked at. *)
Lemma audit_rows_visits id db rows a a' row :
  audit_rows id a rows db = Ok a' -> row ∈ rows ->
  exists a1 e c, decode_event id row = Ok e /\ audit_checks id a1 e c db /\ rr_run_id (au_replay a1) = rr_run_id (au_replay a).
Proof.
  revert a. induction rows as [|r rows IH]; intros a Ha Hin; simpl in Ha; [by apply not_elem_of_nil in Hin|].
  destruct (decode_event id r) as [e|] eqn:Hd; [|done]. destruct (audit_event id a e db) as [b|] eqn:Hb; [|done].
  pose proof (audit_event_moves _ _ _ _ _ Hb) as [Hid _]. apply audit_event_spec in Hb as (c & Hc & ->).
  apply elem_of_cons in Hin as [->|Hin]; [by exists a, e, c|].
  destruct (IH _ Ha Hin) as (a1 & e1 & c1 & ? & ? & ?). exists a1, e1, c1. split_and!; congruence || done.
Qed.

Lemma run_rows_In run db row e id :
  row ∈ events db -> decode_event id row = Ok e -> st_run_id e = Some run -> row ∈ run_rows run db.
Proof.
  intros Hin Hd Hr. apply decode_event_Ok in Hd as (_ & _ & Hrun & _). apply list_elem_of_In, filter_In.
  split; [by apply list_elem_of_In|]. apply bool_decide_eq_true. congruence.
Qed.

(** An event of the run that can be read was checked. *)
Lemma audited_event id run p a db n e :
  audit_rows id (mkAudit (fresh_run p) false false default_correlation 0) (run_rows run db) db = Ok a ->
  rr_run_id p = run -> read_event id n db = Ok e -> st_run_id e = Some run ->
  exists a1 c, audit_checks id a1 e c db /\ rr_run_id (au_replay a1) = run.
Proof.
  intros Ha Hp He Hr. apply read_event_row in He as (row & Hin & _ & Hd & _).
  destruct (audit_rows_visits _ _ _ _ _ row Ha) as (a1 & e1 & c & Hd1 & Hc & Hid); [by eapply run_rows_In|].
  rewrite Hd in Hd1. injection Hd1 as <-. exists a1, c. simpl in Hid. split; congruence.
Qed.

(** An audited row is what its started event makes of it; [late] events fill it in. *)
Lemma tool_link_Ok id run request n p db :
  tool_link id run request n p db = Ok tt ->
  exists e envelope tool, read_event id n db = Ok e /\ st_sequence e = n /\ st_run_id e = Some run /\
    st_payload e = RuntimeObserved envelope /\ ev_event envelope = EToolEvent tool /\ p tool = true /\
    ev_request_id envelope = request.
Proof.
  unfold tool_link. destruct (read_event id n db) as [e|] eqn:He; [|done].
  destruct (st_payload e) as [| | | | |envelope| | |] eqn:Hp; try done. intros Hx%expect_Ok. prop_bools.
  unfold is_tool_event in *. destruct (ev_event envelope) as [| | |tool| |] eqn:Hev; try done.
  exists e, envelope, tool. split_and!; try done. by apply read_event_row in He as (_ & _ & _ & _ & Hs).
Qed.

(** The tool row of a call that some event of the run is about. *)
Lemma audited_tool id run p a db n e envelope tool :
  audit_rows id (mkAudit (fresh_run p) false false default_correlation 0) (run_rows run db) db = Ok a ->
  rr_run_id p = run -> typed db -> read_event id n db = Ok e -> st_run_id e = Some run ->
  st_payload e = RuntimeObserved envelope -> ev_event envelope = EToolEvent tool ->
  exists t, tool_results db !! (run, tool_call_id tool) = Some t /\ tool_fits id run (tool_call_id tool) t db /\
    match tool with
    | ToolExecutionStarted _ _ => tool_started_sequence t = st_sequence e
    | ToolExecutionFinished _ _ _ => tool_finished_sequence t = Some (st_sequence e)
    | ToolResultReused _ _ => True
    end.
Proof.
  intros Ha Hp [_ Hty] He Hr Hpay Htool. destruct (audited_event _ _ _ _ _ _ _ Ha Hp He Hr) as (a1 & c & Hc & Hid).
  unfold audit_checks in Hc. rewrite Hpay, Htool, Hid in Hc. destruct Hc as (_ & _ & _ & Hc).
  unfold validate_tool_event in Hc. destruct (read_tool _ _ _ _) as [[saved|]|] eqn:Hrt; try done. cbn [ok_or] in Hc.
  destruct (tool_results db !! (run, tool_call_id tool)) as [t|] eqn:Ht; [|unfold read_tool in Hrt; by rewrite Ht in Hrt].
  destruct (read_tool_fits _ _ _ _ _ _ Ht (Hty _ _ Ht) Hrt) as [Hfit ->]. exists t. split_and!; try done.
  destruct tool; simpl in *.
  - apply expect_Ok in Hc. by prop_bools.
  - destruct (expect _) as [[]|] eqn:Hx in Hc; [|done]. apply expect_Ok in Hx. by prop_bools.
  - done.
Qed.

Lemma audit_tools_In id run db calls call :
  audit_tools id run calls db = Ok tt -> call ∈ calls -> exists saved, read_tool id run call db = Ok (Some saved).
Proof.
  induction calls as [|c calls IH]; simpl; intros Ha Hin; [by apply not_elem_of_nil in Hin|].
  destruct (read_tool id run c db) as [[saved|]|] eqn:Hr; try done. cbn [ok_or] in Ha.
  apply elem_of_cons in Hin as [->|Hin]; eauto.
Qed.

Lemma tool_rows_In run call t db : tool_results db !! (run, call) = Some t -> call ∈ tool_rows run db.
Proof.
  intros Ht. unfold tool_rows. rewrite merge_sort_Permutation. apply list_elem_of_fmap. exists (run, call, t). split; [done|].
  apply list_elem_of_filter. split; [done|]. by apply elem_of_map_to_list.
Qed.

Lemma audited_row_fits id run db call t :
  typed db -> audit_tools id run (tool_rows run db) db = Ok tt -> tool_results db !! (run, call) = Some t ->
  tool_fits id run call t db.
Proof.
  intros [_ Hty] Hb Ht. destruct (audit_tools_In _ _ _ _ _ Hb (tool_rows_In _ _ _ _ Ht)) as [saved Hs].
  by apply (read_tool_fits _ _ _ _ _ _ Ht (Hty _ _ Ht)) in Hs as [Hs _].
Qed.

(** Two tables that pass the audit of one log: the second has what the first has. *)
Lemma audited_tools_match id run db1 db2 p2 a2 call t1 :
  events db1 = events db2 -> typed db2 ->
  tool_results db1 !! (run, call) = Some t1 -> tool_fits id run call t1 db1 ->
  audit_rows id (mkAudit (fresh_run p2) false false default_correlation 0) (run_rows run db2) db2 = Ok a2 ->
  rr_run_id p2 = run ->
  exists t2, tool_results db2 !! (run, call) = Some t2 /\ tool_fits id run call t2 db2 /\
    tool_tool_name t2 = tool_tool_name t1 /\ tool_request_id t2 = tool_request_id t1 /\
    tool_started_sequence t2 = tool_started_sequence t1 /\
    (forall n, tool_finished_sequence t1 = Some n -> tool_finished_sequence t2 = Some n) /\
    (forall n, tool_result_sequence t1 = Some n -> tool_result_sequence t2 = Some n).
Proof.
  intros He Hty Ht1 [_ _ _ Hsl Hfl Hrl] Ha Hp.
  apply tool_link_Ok in Hsl as (e & env & tool & Hre & Hs & Hr & Hpay & Htool & Hby & Hreq).
  rewrite (read_event_same _ _ _ _ He) in Hre.
  destruct (audited_tool _ _ _ _ _ _ _ _ _ Ha Hp Hty Hre Hr Hpay Htool) as (t2 & Ht2 & Hfit & Hst).
  destruct tool as [c nm| |]; try done. simpl in *. prop_bools. subst c nm. exists t2.
  pose proof (tf_start_link _ _ _ _ _ Hfit) as Hsl2.
  apply tool_link_Ok in Hsl2 as (e' & env' & tool' & Hre' & _ & _ & Hpay' & Htool' & Hby' & Hreq').
  rewrite Hst, Hs in Hre'. rewrite Hre in Hre'. injection Hre' as <-. rewrite Hpay in Hpay'. injection Hpay' as <-.
  rewrite Htool in Htool'. injection Htool' as <-. simpl in Hby'. prop_bools.
  split_and!; try done; try congruence.
  - intros n Hn. destruct (Hfl n Hn) as [_ Hl]. apply tool_link_Ok in Hl as (f & fenv & ft & Hrf & Hsf & Hrr & Hpf & Htf & Hbf & _).
    rewrite (read_event_same _ _ _ _ He) in Hrf.
    destruct (audited_tool _ _ _ _ _ _ _ _ _ Ha Hp Hty Hrf Hrr Hpf Htf) as (t3 & Ht3 & _ & Hff).
    destruct ft as [|c nm er|]; try done. simpl in *. prop_bools. subst c. congruence.
  - intros n Hn. destruct (Hrl n Hn) as (_ & f & payload & Hrf & Hpf & Hrr & Hcall & _).
    rewrite (read_event_same _ _ _ _ He) in Hrf. pose proof (read_event_row _ _ _ _ Hrf) as (_ & _ & _ & _ & Hsf).
    destruct (audited_event _ _ _ _ _ _ _ Ha Hp Hrf Hrr) as (a1 & c & Hc & Hid).
    unfold audit_checks in Hc. rewrite Hpf, Hid, Hcall in Hc. destruct Hc as (_ & _ & _ & saved & Hrt & Hseq).
    destruct (read_tool_fits _ _ _ _ _ _ Ht2 (proj2 Hty _ _ Ht2) Hrt) as [_ ->]. simpl in Hseq. congruence.
Qed.

Lemma option_between {A} (x y : option A) : (forall a, x = Some a -> y = Some a) -> (forall a, y = Some a -> x = Some a) -> x = y.
Proof. intros H1 H2. destruct x as [a|]; [by rewrite (H1 a eq_refl)|]. destruct y as [b|]; [by rewrite (H2 b eq_refl) | done]. Qed.

(** Rows that refer to the same events of one log are equal. *)
Lemma tool_fits_eq id run call t1 t2 db1 db2 :
  events db1 = events db2 -> tool_fits id run call t1 db1 -> tool_fits id run call t2 db2 ->
  tool_tool_name t2 = tool_tool_name t1 -> tool_request_id t2 = tool_request_id t1 ->
  tool_started_sequence t2 = tool_started_sequence t1 -> tool_finished_sequence t2 = tool_finished_sequence t1 ->
  tool_result_sequence t2 = tool_result_sequence t1 -> t1 = t2.
Proof.
  intros He F1 F2 Hn Hq Hs Hf Hr.
  assert (tool_output t1 = tool_output t2 /\ tool_is_error t1 = tool_is_error t2) as [Ho Herr];
    [|destruct t1, t2; simpl in *; congruence].
  pose proof (tf_output _ _ _ _ _ F1) as O1. pose proof (tf_output _ _ _ _ _ F2) as O2.
  pose proof (tf_error _ _ _ _ _ F1) as E1. pose proof (tf_error _ _ _ _ _ F2) as E2. rewrite Hr in O2. rewrite Hr, Hf in E2.
  destruct (tool_result_sequence t1) as [n|] eqn:Hn1.
  - destruct (tf_result_link _ _ _ _ _ F1 n Hn1) as (_ & e1 & p1 & R1 & P1 & _ & _ & _ & -> & ->).
    destruct (tf_result_link _ _ _ _ _ F2 n Hr) as (_ & e2 & p2 & R2 & P2 & _ & _ & _ & -> & ->).
    rewrite (read_event_same _ _ _ _ He) in R1. rewrite R1 in R2. injection R2 as <-. rewrite P1 in P2. injection P2 as <-. done.
  - symmetry in O1, O2. apply is_some_false in O1 as ->. apply is_some_false in O2 as ->. split; [done|].
    destruct (tool_finished_sequence t1) as [m|] eqn:Hm.
    + destruct (tf_finish_link _ _ _ _ _ F1 m Hm) as [_ L1]. destruct (tf_finish_link _ _ _ _ _ F2 m Hf) as [_ L2].
      apply tool_link_Ok in L1 as (e1 & v1 & x1 & R1 & _ & _ & P1 & X1 & B1 & _).
      apply tool_link_Ok in L2 as (e2 & v2 & x2 & R2 & _ & _ & P2 & X2 & B2 & _).
      rewrite (read_event_same _ _ _ _ He) in R1. rewrite R1 in R2. injection R2 as <-.
      rewrite P1 in P2. injection P2 as <-. rewrite X1 in X2. injection X2 as <-.
      destruct x1; try done. simpl in *. prop_bools. congruence.
    + symmetry in E1, E2. apply is_some_false in E1 as ->. by apply is_some_false in E2 as ->.
Qed.

(** What the audit pins down of a run row. *)
Definition run_columns (r : RunRow) :=
  (run_accepted_sequence r, run_state r, run_last_runtime_sequence r, run_owner_instance_id r,
   run_provider_session_id r, run_terminal_sequence r, run_result_sequence r).

Lemma same_progress_true r p :
  same_progress r p = true ->
  rr_state r = rr_state p /\ rr_last_runtime_sequence r = rr_last_runtime_sequence p /\
  rr_provider_session_id r = rr_provider_session_id p /\ terminal_sequence r = terminal_sequence p /\
  rr_result_sequence r = rr_result_sequence p.
Proof. unfold same_progress. intros Hs. by prop_bools. Qed.

(** Both audits start from the acceptance the log records. *)
Lemma fresh_run_same id run row1 row2 p1 p2 a1 a2 db1 db2 :
  events db1 = events db2 -> run_fits id run row1 p1 db1 -> run_fits id run row2 p2 db2 ->
  audit_rows id (mkAudit (fresh_run p1) false false default_correlation 0) (run_rows run db1) db1 = Ok a1 ->
  audit_rows id (mkAudit (fresh_run p2) false false default_correlation 0) (run_rows run db2) db2 = Ok a2 ->
  fresh_run p1 = fresh_run p2.
Proof.
  intros He F1 F2 A1 A2. destruct (rf_event _ _ _ _ _ F1) as (e1 & R1 & P1). destruct (rf_event _ _ _ _ _ F2) as (e2 & R2 & P2).
  assert (st_run_id e1 = Some run) as Hr1.
  { apply read_event_row in R1 as (row & _ & _ & Hd & _). apply decode_event_Ok in Hd as (_ & _ & _ & _ & Hf).
    rewrite P1 in Hf. simpl in Hf. by destruct (bool_decide_reflect (st_run_id e1 = Some run)). }
  apply read_event_row in R1 as (q1 & Q1 & _ & D1 & _).
  pose proof (run_rows_In _ _ _ _ _ Q1 D1 Hr1) as Hin.
  assert (run_rows run db2 = run_rows run db1) as Hrows by (unfold run_rows; by rewrite He). rewrite Hrows in A2.
  destruct (run_rows run db1) as [|row rows]; [by apply not_elem_of_nil in Hin|]. simpl in A1, A2.
  destruct (decode_event id row) as [e|] eqn:Hd; [|done].
  destruct (audit_event _ _ e db1) as [b1|] eqn:B1 in A1; [|done]. destruct (audit_event _ _ e db2) as [b2|] eqn:B2 in A2; [|done].
  apply audit_event_spec in B1 as (c1 & C1 & _). apply audit_event_spec in B2 as (c2 & C2 & _).
  unfold audit_checks in C1, C2. destruct (st_payload e); simpl in C1, C2; try by destruct C1 as [[] _].
  assert (rr_accepted_sequence p1 = rr_accepted_sequence p2) as Hacc by (destruct C1, C2; congruence).
  destruct (rf_event _ _ _ _ _ F1) as (e1' & R1 & P1'). rewrite Hacc, (read_event_same _ _ _ _ He) in R1.
  rewrite R2 in R1. injection R1 as <-. rewrite P2 in P1'. injection P1' as Hi Ho.
  unfold fresh_run. rewrite (rf_id _ _ _ _ _ F1), (rf_id _ _ _ _ _ F2). congruence.
Qed.

(** The audit leaves the mutable tables no freedom.  It ends on every session
    whose log is consecutive; and when two sessions with the same log both pass it
    for a run, they have the same acceptance, owner, state, progress, provider
    session, terminal event and result of the run, and exactly the same rows of its
    tool calls: whatever a passing session shows of a run is what its log implies. *)
Lemma audit_determines id run db1 db2 :
  log_ok db1 -> typed db1 -> typed db2 -> events db1 = events db2 ->
  validate_run id run db1 <> None /\
  (validate_run id run db1 = Some (Ok tt) -> validate_run id run db2 = Some (Ok tt) ->
   (exists r1 r2, runs db1 !! run = Some r1 /\ runs db2 !! run = Some r2 /\ run_columns r1 = run_columns r2) /\
   forall call, tool_results db1 !! (run, call) = tool_results db2 !! (run, call)).
Proof.
  intros Hl T1 T2 He. split; [by rewrite validate_run_rows|]. intros V1 V2.
  assert (log_ok db2) as Hl2 by (unfold log_ok; by rewrite <- He).
  apply validate_run_Ok in V1 as (p1 & a1 & R1 & A1 & S1 & B1); [|done].
  apply validate_run_Ok in V2 as (p2 & a2 & R2 & A2 & S2 & B2); [|done].
  apply run_record_fits in R1 as (row1 & F1); [|done]. apply run_record_fits in R2 as (row2 & F2); [|done].
  pose proof (fresh_run_same _ _ _ _ _ _ _ _ _ _ He F1 F2 A1 A2) as Hfresh.
  pose proof A2 as A2'. assert (run_rows run db2 = run_rows run db1) as Hrows by (unfold run_rows; by rewrite He).
  rewrite <- Hfresh, Hrows in A2'. pose proof (audit_rows_det _ _ _ _ _ _ _ He A1 A2') as <-. split.
  - exists row1, row2. split; [apply F1|]. split; [apply F2|].
    apply same_progress_true in S1 as (? & ? & ? & ? & ?). apply same_progress_true in S2 as (? & ? & ? & ? & ?).
    pose proof (fits_terminal_sequence _ _ _ _ _ F1). pose proof (fits_terminal_sequence _ _ _ _ _ F2).
    injection Hfresh as _ Hacc _ Hown. destruct F1 as [_ _ [_ ?] _ ? ? [_ ?] ? _ [_ [? _]]], F2 as [_ _ [_ ?] _ ? ? [_ ?] ? _ [_ [? _]]].
    unfold run_columns. congruence.
  - pose proof (rf_id _ _ _ _ _ F1) as I1. pose proof (rf_id _ _ _ _ _ F2) as I2.
    intros call. destruct (tool_results db1 !! (run, call)) as [t1|] eqn:X1.
    + pose proof (audited_row_fits _ _ _ _ _ T1 B1 X1) as G1.
      destruct (audited_tools_match _ _ _ _ _ _ _ _ He T2 X1 G1 A2 I2) as (t2 & X2 & G2 & M1 & M2 & M3 & M4 & M5). rewrite X2.
      destruct (audited_tools_match _ _ _ _ _ _ _ _ (eq_sym He) T1 X2 G2 A1 I1) as (t3 & X3 & _ & _ & _ & _ & N4 & N5).
      assert (t3 = t1) as -> by congruence. f_equal. eapply tool_fits_eq; try done; by apply option_between.
    + destruct (tool_results db2 !! (run, call)) as [t2|] eqn:X2; [|done].
      pose proof (audited_row_fits _ _ _ _ _ T2 B2 X2) as G2.
      destruct (audited_tools_match _ _ _ _ _ _ _ _ (eq_sym He) T1 X2 G2 A1 I1) as (t3 & X3 & _). congruence.
Qed.
End audit.
