(* ===== verification/AuditWrites.v ===== *)
(** * One record at a time

    What appending a record does to the tables, exactly, and that the audit accepts
    the run again with the record as the last thing it saw. *)
From stdpp Require Import sorting.
From S2P Require Import Prelude Json Errors Identifiers Provider Tools Replay RunData Hoare Records Store History Session RunStore StoreSafety StoreCommands StoreContents RunAudit.

(** * What an audit has accepted stays accepted

    The events of a run that passed the audit pass it again when the session has
    grown: rows are only added at the end of the log, and what the tables say of the
    run only moves forward.  [grows] is what is needed of the growth. *)

Section growth.
Context {D : Type} `{UuidLib} `{StorageSerde}.
Implicit Types db : Db D.

(** ** Checks that pass *)
Lemma audit_runtime_intro id a e event c db :
  st_payload e = RuntimeObserved event -> audit_checks id a e c db ->
  audit_runtime id a e event db = Ok (audit_advance a e c).
Proof.
  intros Hp Hc. unfold audit_checks in Hc. rewrite Hp in Hc. destruct Hc as (_ & Hu & Ho & Hc).
  unfold audit_runtime. fold (unbound_audit a). rewrite (proj2 (when_Ok _ _) Hu), Ho. cbn [map_err].
  unfold audit_advance. rewrite Hp. destruct (ev_event event); try done.
  - by rewrite Hc.
  - by rewrite (proj2 (require_outputs_before_Ok _ _ _ _) Hc).
Qed.

Lemma audit_result_intro id a e result c db :
  st_payload e = RunResultRecorded result -> audit_checks id a e c db ->
  audit_result a e result db = Ok (audit_advance a e c).
Proof.
  intros Hp Hc. unfold audit_checks in Hc. rewrite Hp in Hc. destruct Hc as (_ & Hu & Hi & Hr & Hc).
  unfold audit_result. fold (unbound_audit a). rewrite (proj2 (when_Ok _ _) Hu).
  rewrite (bool_decide_eq_false_2 _ Hi), Hr. cbn [negb is_none is_some andb expect].
  unfold audit_advance. rewrite Hp. destruct (active _).
  - destruct Hc as (-> & Hs & Ho).
    assert (is_none (rr_provider_session_id (au_replay a)) || bool_decide (rr_provider_session_id (au_replay a) = res_session_id result) = true) as ->.
    { destruct Hs as [->|Hs]; [done|]. rewrite (bool_decide_eq_true_2 _ Hs). apply orb_true_r. }
    cbn [negb andb expect]. by rewrite (proj2 (require_outputs_before_Ok _ _ _ _) Ho).
  - destruct Hc as (t & -> & Ht). cbn [ok_or]. rewrite Ht. cbn [ok_or fst snd].
    rewrite !bool_decide_eq_true_2 by done. done.
Qed.

Lemma audit_event_intro id a e c db : audit_checks id a e c db -> audit_event id a e db = Ok (audit_advance a e c).
Proof.
  intros Hc. pose proof Hc as Hall. unfold audit_event. unfold audit_checks in Hc.
  destruct (st_payload e) as [|title|acc|sel|binding|event|payload|result|intr] eqn:Hp; try (by destruct Hc as [_ []]);
    [destruct Hc as [-> Hc]|destruct Hc as [Ha Hc]; rewrite (proj2 (Z.eqb_neq _ _) Ha)..];
    cbn [Z.eqb negb orb expect]; try by (apply audit_runtime_intro || eapply audit_result_intro).
  - rewrite Hc, Z.eqb_refl. cbn. unfold audit_advance. by rewrite Hp, Hc.
  - destruct Hc as (-> & Hc & s & ->). rewrite Hc, Z.eqb_refl. cbn. unfold audit_advance. by rewrite Hp.
  - destruct Hc as (Hu & Hst & b & ->). unfold unbound_audit in Hu. rewrite Hu, (bool_decide_eq_true_2 _ Hst). cbn.
    unfold audit_advance. by rewrite Hp.
  - destruct Hc as (Hst & Hu & saved & -> & Hs). fold (unbound_audit a). rewrite Hu, (bool_decide_eq_true_2 _ Hst). cbn.
    rewrite (bool_decide_eq_true_2 _ Hs). unfold audit_advance. by rewrite Hp.
  - rewrite Hc. unfold audit_advance. by rewrite Hp.
Qed.

Lemma audit_rows_app id a rows1 rows2 db :
  audit_rows id a (rows1 ++ rows2) db = let? a := audit_rows id a rows1 db in audit_rows id a rows2 db.
Proof.
  revert a. induction rows1 as [|r rows1 IH]; intros a; simpl; [done|].
  destruct (decode_event id r) as [e|]; [|done]. by destruct (audit_event id a e db).
Qed.

(** One more row. *)
Lemma audit_rows_snoc id a rows row db a1 e c :
  audit_rows id a rows db = Ok a1 -> decode_event id row = Ok e -> audit_checks id a1 e c db ->
  audit_rows id a (rows ++ [row]) db = Ok (audit_advance a1 e c).
Proof. intros Ha Hd Hc. rewrite audit_rows_app, Ha. simpl. by rewrite Hd, (audit_event_intro _ _ _ c). Qed.

(** ** Reads of a log that has grown *)
Definition longer db db' : Prop := exists rows, events db' = events db ++ rows.

Lemma find_app_l {A} (p : A -> bool) l1 l2 x : find p l1 = Some x -> find p (l1 ++ l2) = Some x.
Proof. induction l1 as [|y l1 IH]; simpl; [done|]. by destruct (p y). Qed.

Lemma read_event_longer id n e db db' : longer db db' -> read_event id n db = Ok e -> read_event id n db' = Ok e.
Proof.
  intros [rows Hr] He. unfold read_event in *. destruct (i64_try_from n); [|done]. cbn [ok_or] in *.
  destruct (find _ (events db)) as [row|] eqn:Hf; [|done]. rewrite Hr, (find_app_l _ _ _ _ Hf). done.
Qed.

Lemma tool_link_longer id run q n p db db' : longer db db' ->
  tool_link id run q n p db = Ok tt -> tool_link id run q n p db' = Ok tt.
Proof.
  intros Hl Ht. unfold tool_link in *. destruct (read_event id n db) as [e|] eqn:He; [|done].
  by rewrite (read_event_longer _ _ _ _ _ Hl He).
Qed.

Lemma tool_fits_longer id run call t db db' : longer db db' -> tool_fits id run call t db -> tool_fits id run call t db'.
Proof.
  intros Hl [H1 H2 H3 H4 H5 H6]. split; try done.
  - by eapply tool_link_longer.
  - intros n Hn. destruct (H5 n Hn). split; [done|]. by eapply tool_link_longer.
  - intros n Hn. destruct (H6 n Hn) as (Hlt & e & payload & He & Hrest). split; [done|].
    exists e, payload. split; [by eapply read_event_longer | done].
Qed.

Lemma run_fits_longer id run row p db db' :
  longer db db' -> runs db' !! run = Some row -> run_fits id run row p db -> run_fits id run row p db'.
Proof.
  intros Hl Hrow [_ Hid Hacc (e & He & Hpay) How Hst Hlast Hprov (Ht1 & Ht2 & Ht3 & Ht4) (Hr1 & Hr2 & Hr3)].
  split; try done.
  - exists e. split; [by eapply read_event_longer | done].
  - split_and!; try done. unfold read_terminal in *. destruct (run_terminal_sequence row) as [n|]; [|done].
    destruct (read_event id n db) as [t|] eqn:Ht; [|done]. by rewrite (read_event_longer _ _ _ _ _ Hl Ht).
  - split_and!; try done. unfold read_result in *. destruct (run_result_sequence row) as [n|]; [|done].
    destruct (read_event id n db) as [t|] eqn:Ht; [|done]. by rewrite (read_event_longer _ _ _ _ _ Hl Ht).
Qed.

(** The rows added come after those that were there. *)
Lemma longer_after db db' rows r :
  log_ok db' -> events db' = events db ++ rows -> r ∈ rows -> size db < row_sequence r.
Proof.
  intros Hl He Hr. apply list_elem_of_lookup in Hr as [i Hi].
  assert (events db' !! (length (events db) + i)%nat = Some r) as Hlk.
  { rewrite He, lookup_app_r by lia. by replace (length (events db) + i - length (events db))%nat with i by lia. }
  apply log_lookup in Hlk; [|done]. unfold size. lia.
Qed.

Lemma log_ok_longer db db' rows : log_ok db' -> events db' = events db ++ rows -> log_ok db.
Proof.
  unfold log_ok. intros Hl He. rewrite He, fmap_app, length_app, Nat2Z.inj_add, seqZ_app in Hl by lia.
  apply app_inj_1 in Hl as [Hl _]; [done|]. rewrite length_fmap, length_seqZ. lia.
Qed.

Lemma existsb_app_false {A} (p : A -> bool) l1 l2 :
  (forall x, x ∈ l2 -> p x = false) -> existsb p (l1 ++ l2) = existsb p l1.
Proof.
  intros Hp. rewrite existsb_app. destruct (existsb p l2) eqn:He; [|by rewrite orb_false_r].
  apply existsb_exists in He as (x & Hx & Hpx). rewrite (Hp x) in Hpx; [done|]. by apply list_elem_of_In.
Qed.

Lemma filter_app_false {A} (p : A -> bool) l1 l2 :
  (forall x, x ∈ l2 -> p x = false) -> List.filter p (l1 ++ l2) = List.filter p l1.
Proof.
  intros Hp. rewrite List.filter_app, (filter_nothing p l2); [apply app_nil_r|]. by apply Forall_forall.
Qed.

Lemma observe_longer run event before c db db' rows :
  log_ok db' -> events db' = events db ++ rows -> before <= size db + 1 ->
  observe_correlation run event before c db' = observe_correlation run event before c db.
Proof.
  intros Hl He Hb. unfold observe_correlation, observe_turn, seen_source, seen_turn. rewrite He.
  assert (forall x, x ∈ rows -> (row_sequence x <? before) = false) as Hlt.
  { intros x Hx. apply Z.ltb_ge. pose proof (longer_after _ _ _ _ Hl He Hx). lia. }
  rewrite !existsb_app_false; [done|intros x Hx; rewrite (Hlt x Hx)..]; [|by rewrite andb_false_r].
  by rewrite andb_false_r.
Qed.

(** ** The metadata of a run *)

(** What commands and the manifest may do: the new commands are about events after [b]. *)
Record registers (b : Z) db db' : Prop := {
  rg_commands : exists cs, commands db' = commands db ++ cs /\ Forall (fun c => b < cmd_first_sequence c) cs;
  rg_manifest m : manifest db = Some m -> exists m', manifest db' = Some m' /\ mf_head_sequence m <= mf_head_sequence m'
}.

(** The history of the run was selected by event [b], if it was. *)
Definition selected_by (b : Z) (run : string) db : Prop :=
  forall q, q ∈ events db -> row_run_id q = Some run -> row_event_type q = "run.history.selected" -> row_sequence q <= b.

Lemma selected_by_size run db : log_ok db -> selected_by (size db) run db.
Proof. intros Hl q Hq _ _. apply (log_ok_bound db q Hl Hq). Qed.

Lemma find_command_grows b id operation c db db' :
  registers b db db' -> find_command id operation db = Ok (Some c) -> find_command id operation db' = Ok (Some c).
Proof.
  intros [(cs & Hcs & _) Hm] Hf. unfold find_command in *. rewrite Hcs.
  destruct (find _ (commands db)) as [row|] eqn:Hrow; [|done]. rewrite (find_app_l _ _ _ _ Hrow).
  destruct (decode_receipt _) as [receipt|]; [|done]. destruct (manifest db) as [m|]; [|done]. cbn [ok_or] in *.
  destruct (Hm m eq_refl) as (m' & -> & Hle). cbn [ok_or]. destruct (_ || _) eqn:Hor in Hf; [done|].
  apply orb_false_iff in Hor as [Hor Hlt]. apply Z.ltb_ge in Hlt. rewrite Hor, (proj2 (Z.ltb_ge _ _)) by lia. done.
Qed.

Definition no_rows (run kind : string) (rows : list EventRow) : Prop :=
  forall r, r ∈ rows -> row_run_id r = Some run -> row_event_type r <> kind.

Lemma metadata_event_grows id run kind db db' rows :
  events db' = events db ++ rows -> no_rows run kind rows -> metadata_event id run kind db' = metadata_event id run kind db.
Proof.
  intros He Hn. unfold metadata_event. rewrite He, filter_app_false; [done|]. intros r Hr.
  destruct (bool_decide_reflect (row_run_id r = Some run)); [|done]. simpl. apply bool_decide_eq_false. by apply Hn.
Qed.

(** A metadata event is a row of the run and its kind. *)
Lemma metadata_event_row id run kind db e :
  metadata_event id run kind db = Ok (Some e) ->
  exists row, row ∈ events db /\ row_run_id row = Some run /\ row_event_type row = kind /\ decode_event id row = Ok e.
Proof.
  unfold metadata_event. destruct (List.filter _ _) as [|row [|]] eqn:Hf; try done.
  destruct (decode_event id row) as [e'|] eqn:Hd; [|done]. intros [= <-]. exists row.
  assert (row ∈ [row]) as Hin by left. rewrite <- Hf in Hin. apply list_elem_of_In, filter_In in Hin as [Hin Hp].
  prop_bools. split_and!; try done. by apply list_elem_of_In.
Qed.

Lemma history_selection_grows b id run s p p' db db' rows :
  log_ok db' -> events db' = events db ++ rows -> registers b db db' -> selected_by b run db -> no_rows run "run.history.selected" rows ->
  run_record id run db = Ok (Some p) -> run_record id run db' = Ok (Some p') ->
  rr_accepted_sequence p' = rr_accepted_sequence p -> rr_input p' = rr_input p ->
  history_selection id run db = Ok (Some s) -> history_selection id run db' = Ok (Some s).
Proof.
  intros Hl He Hreg Hsb Hn Hp Hp' Ha Hi Hs. unfold history_selection in *. rewrite (metadata_event_grows _ _ _ _ _ _ He Hn).
  destruct (metadata_event _ _ _ _) as [[e|]|] eqn:Hm; try done.
  destruct (st_payload e) as [| | |payload| | | | |]; try done. rewrite Hp in Hs. rewrite Hp'. cbn [ok_or] in *. rewrite Ha, Hi.
  destruct (expect _) as [[]|] eqn:Hx; [|done]. pose proof (rg_commands _ _ _ Hreg) as (cs & Hcs & Hfirst).
  rewrite Hcs, filter_app_false.
  - destruct (List.filter _ _) as [|c [|]]; try done. destruct (map_err _ _) as [operation|]; [|done].
    destruct (find_command _ _ db) as [[command|]|] eqn:Hf; try done. by rewrite (find_command_grows _ _ _ _ _ _ Hreg Hf).
  - intros c Hc. rewrite Forall_forall in Hfirst. specialize (Hfirst c Hc). apply andb_false_iff. left.
    apply Z.leb_gt. apply metadata_event_row in Hm as (row & Hrow & Hr & Hk & Hd). rewrite (decode_event_sequence _ _ _ Hd).
    specialize (Hsb row Hrow Hr Hk). lia.
Qed.

Lemma validate_binding_grows id p p' binding n db db' rows :
  log_ok db' -> events db' = events db ++ rows -> n <= size db + 1 -> 0 <= n <= i64_max ->
  rr_run_id p' = rr_run_id p -> rr_accepted_sequence p' = rr_accepted_sequence p -> rr_input p' = rr_input p ->
  (forall s, history_selection id (rr_run_id p) db = Ok (Some s) -> history_selection id (rr_run_id p) db' = Ok (Some s)) ->
  validate_binding id p binding n db = Ok tt -> validate_binding id p' binding n db' = Ok tt.
Proof.
  intros Hl He Hn Hn64 Hid Ha Hi Hs Hv. unfold validate_binding in *. rewrite Hid, Ha, Hi. destruct (_ || _); [done|].
  destruct (history_selection id (rr_run_id p) db) as [[s|]|]; try done. rewrite (Hs s eq_refl). cbn [is_none is_some negb] in *.
  rewrite He, filter_app_false; [done|]. intros r Hr. pose proof (longer_after _ _ _ _ Hl He Hr).
  apply andb_false_iff. right. apply Z.ltb_ge. rewrite as_i64_small by lia. lia.
Qed.

Lemma provider_binding_grows id run b p p' db db' rows :
  log_ok db' -> events db' = events db ++ rows -> no_rows run "run.provider.bound" rows ->
  run_record id run db = Ok (Some p) -> run_record id run db' = Ok (Some p') ->
  rr_run_id p = run -> rr_run_id p' = run ->
  rr_accepted_sequence p' = rr_accepted_sequence p -> rr_input p' = rr_input p ->
  rr_provider_session_id p' = rr_provider_session_id p ->
  (forall s, history_selection id run db = Ok (Some s) -> history_selection id run db' = Ok (Some s)) ->
  provider_binding id run db = Ok (Some b) -> provider_binding id run db' = Ok (Some b).
Proof.
  intros Hl He Hn Hp Hp' Hid Hid' Ha Hi Hprov Hs Hb. unfold provider_binding in *. rewrite (metadata_event_grows _ _ _ _ _ _ He Hn).
  destruct (metadata_event _ _ _ _) as [[e|]|] eqn:Hm; try done.
  destruct (st_payload e) as [| | | |binding| | | |]; try done. rewrite Hp in Hb. rewrite Hp'. cbn [ok_or] in *. rewrite Hprov.
  destruct (map_err _ _) as [[]|] eqn:Hv in Hb; [|done]. apply map_err_Ok in Hv.
  apply metadata_event_row in Hm as (row & Hrow & _ & _ & Hd). apply decode_event_Ok in Hd as (Hb64 & Hseq & _).
  pose proof (log_ok_bound db row (log_ok_longer _ _ _ Hl He) Hrow).
  assert (validate_binding id p' binding (st_sequence e) db' = Ok tt) as ->; [|done].
  eapply (validate_binding_grows id p p'); try done; [unfold size; lia|lia|congruence|by rewrite Hid].
Qed.

(** ** Growth *)
Lemma late_output_false run n db :
  late_output run n db = false <->
  forall call t, tool_results db !! (run, call) = Some t -> exists m, tool_result_sequence t = Some m /\ m < as_i64 n.
Proof.
  unfold late_output. split.
  - intros Hf call t Ht. destruct (filter _ _) as [|x l] eqn:Hx in Hf; [|done].
    assert (((run, call), t) ∉ filter (fun kt : string * string * ToolRow => (bool_decide (kt.1.1 = run)
      && is_none_or (tool_result_sequence kt.2) (fun m => as_i64 n <=? m)) = true) (map_to_list (tool_results db))) as Hni
      by (rewrite Hx; apply not_elem_of_nil).
    rewrite list_elem_of_filter, elem_of_map_to_list in Hni. simpl in Hni. rewrite bool_decide_eq_true_2 in Hni by done.
    destruct (tool_result_sequence t) as [m|] eqn:Hm; simpl in Hni; [|by destruct Hni]. exists m. split; [done|].
    destruct (Z.leb_spec (as_i64 n) m); [by destruct Hni | done].
  - intros Hall. destruct (filter _ _) as [|[[k call] t] l] eqn:Hx; [done|]. exfalso.
    assert ((k, call, t) ∈ (k, call, t) :: l) as Hin by left. rewrite <- Hx in Hin.
    apply list_elem_of_filter in Hin as [Hp Hin]. apply elem_of_map_to_list in Hin. simpl in Hp. prop_bools. subst k.
    destruct (Hall call t Hin) as (m & Hm & Hlt). rewrite Hm in *. simpl in *. prop_bools. lia.
Qed.

(** The session grew around a run whose state was [st]. *)
Record grows (id run : string) (st : RunState) db db' : Prop := {
  gr_log : log_ok db';
  gr_rows : longer db db';
  gr_typed : typed db /\ typed db';
  gr_selection s : history_selection id run db = Ok (Some s) -> history_selection id run db' = Ok (Some s);
  gr_binding b : provider_binding id run db = Ok (Some b) -> provider_binding id run db' = Ok (Some b);
  gr_tools call t : tool_results db !! (run, call) = Some t ->
    exists t', tool_results db' !! (run, call) = Some t' /\ tool_moves t t' /\ tool_fits id run call t' db';
  gr_finished : active st = false -> forall call, tool_results db' !! (run, call) = tool_results db !! (run, call)
}.

Lemma read_tool_grows id run st call saved db db' :
  grows id run st db db' -> read_tool id run call db = Ok (Some saved) ->
  exists saved', read_tool id run call db' = Ok (Some saved') /\ rt_tool_name saved' = rt_tool_name saved /\
    rt_request_id saved' = rt_request_id saved /\ rt_started_sequence saved' = rt_started_sequence saved /\
    (forall n, rt_finished_sequence saved = Some n -> rt_finished_sequence saved' = Some n) /\
    (forall n, rt_result_sequence saved = Some n -> rt_result_sequence saved' = Some n).
Proof.
  intros Hg Hr. destruct (gr_typed _ _ _ _ _ Hg) as [[_ T] [_ T']].
  destruct (tool_results db !! (run, call)) as [t|] eqn:Ht; [|unfold read_tool in Hr; by rewrite Ht in Hr].
  apply (read_tool_fits _ _ _ _ _ _ Ht (T _ _ Ht)) in Hr as [_ ->].
  destruct (gr_tools _ _ _ _ _ Hg _ _ Ht) as (t' & Ht' & [M1 M2 M3 M4 M5 _] & Hfit). exists (saved_of t').
  split; [by apply fits_read_tool; [|apply (T' _ _ Ht')|]|]. simpl. split_and!; try done. intros n Hn. by apply M5.
Qed.

Lemma validate_tool_event_grows id run st n envelope tool db db' :
  grows id run st db db' -> validate_tool_event id run n envelope tool db = Ok tt ->
  validate_tool_event id run n envelope tool db' = Ok tt.
Proof.
  intros Hg Hv. unfold validate_tool_event in *. destruct (read_tool id run _ db) as [[saved|]|] eqn:Hr; try done.
  destruct (read_tool_grows _ _ _ _ _ _ _ Hg Hr) as (saved' & -> & Hn & Hq & Hs & Hf & Hres). cbn [ok_or] in *. rewrite Hn, Hq, Hs.
  destruct tool as [call nm|call nm er|call nm]; [done|..].
  - destruct (expect _) as [[]|] eqn:Hx in Hv; [|done]. apply expect_Ok in Hx. prop_bools. rewrite (Hf n) by done.
    rewrite bool_decide_eq_true_2 by done. cbn [expect]. destruct (read_event id _ db) as [e|] eqn:He; [|done].
    by rewrite (read_event_longer _ _ _ _ _ (gr_rows _ _ _ _ _ Hg) He).
  - apply expect_Ok in Hv. apply expect_Ok. apply andb_prop in Hv as [Hv Hlt]. rewrite Hv. simpl.
    destruct (rt_result_sequence saved) as [m|]; [|done]. by rewrite (Hres m).
Qed.

Lemma late_output_grows id run st n db db' :
  grows id run st db db' -> active st = false -> late_output run n db = false -> late_output run n db' = false.
Proof.
  intros Hg Hst. rewrite !late_output_false. intros Hall call t Ht. rewrite (gr_finished _ _ _ _ _ Hg Hst) in Ht. by eapply Hall.
Qed.

Lemma audit_checks_grows id run st a e c db db' :
  grows id run st db db' -> rr_run_id (au_replay a) = run -> 1 <= st_sequence e <= size db -> st_sequence e <= i64_max ->
  (active (rr_state (au_replay (audit_advance a e c))) = false -> active st = false) ->
  audit_checks id a e c db -> audit_checks id a e c db'.
Proof.
  intros Hg Hid Hseq H64 Hst Hc. unfold audit_checks, audit_advance in *.
  destruct (st_payload e) as [|title|acc|sel|binding|event|payload|result|intr]; try done; rewrite ?Hid in *.
  - destruct Hc as (? & ? & ? & s & Hs). split_and!; try done. exists s. by eapply gr_selection.
  - destruct Hc as (? & ? & ? & b & Hb). split_and!; try done. exists b. by eapply gr_binding.
  - destruct Hc as (? & ? & Ho & Hc). destruct (gr_rows _ _ _ _ _ Hg) as [rows Hrows]. split_and!; try done.
    + rewrite (observe_longer _ _ _ _ _ _ _ (gr_log _ _ _ _ _ Hg) Hrows); [done|]. rewrite as_i64_small by lia. lia.
    + destruct (ev_event event); try done; [by eapply validate_tool_event_grows|]. intros Hcomp. subst.
      eapply late_output_grows; [done| |by apply Hc]. by apply Hst.
  - destruct Hc as (? & ? & ? & saved & Hr & Hs). split_and!; try done.
    destruct (read_tool_grows _ _ _ _ _ _ _ Hg Hr) as (saved' & Hr' & _ & _ & _ & _ & Hres). exists saved'. split; [done | by apply Hres].
  - destruct Hc as (? & ? & ? & ? & Hc). split_and!; try done. destruct (active (rr_state (au_replay a))); [|done].
    destruct Hc as (? & ? & Ho). split_and!; try done. intros Hcomp. eapply late_output_grows; [done| |by apply Ho].
    apply Hst. simpl. by destruct (res_outcome result).
Qed.

(** A run that is over stays over. *)
Lemma audit_advance_over id a e c db :
  audit_checks id a e c db -> active (rr_state (au_replay a)) = false ->
  active (rr_state (au_replay (audit_advance a e c))) = false.
Proof.
  unfold audit_checks, audit_advance. intros Hc Ha. destruct (st_payload e) as [|title|acc|sel|binding|event|payload|result|intr]; try done.
  - destruct Hc as (_ & _ & Ho & _). apply observe_expected in Ho. simpl in Ho.
    destruct (ev_event event); rewrite Ho in Ha; done.
  - destruct Hc as (_ & _ & _ & _ & Hc). rewrite Ha in Hc |- *. done.
Qed.

Lemma audit_rows_over id a rows db a' :
  audit_rows id a rows db = Ok a' -> active (rr_state (au_replay a)) = false -> active (rr_state (au_replay a')) = false.
Proof.
  revert a. induction rows as [|row rows IH]; intros a Ha Hact; simpl in Ha; [by injection Ha as <-|].
  destruct (decode_event id row) as [e|]; [|done]. destruct (audit_event id a e db) as [b|] eqn:Hb; [|done].
  apply audit_event_spec in Hb as (c & Hc & ->). eapply IH; [exact Ha|]. by eapply audit_advance_over.
Qed.

(** What was accepted is accepted again. *)
Lemma audit_rows_grows id run a rows db db' a' :
  grows id run (rr_state (au_replay a')) db db' -> rr_run_id (au_replay a) = run ->
  Forall (fun r => row_sequence r <= size db) rows ->
  audit_rows id a rows db = Ok a' -> audit_rows id a rows db' = Ok a'.
Proof.
  intros Hg. revert a. induction rows as [|row rows IH]; intros a Hid Hall Ha; [done|]. simpl in *.
  apply Forall_cons in Hall as [Hrow Hall]. destruct (decode_event id row) as [e|] eqn:Hd; [|done].
  apply decode_event_Ok in Hd as (H64 & Hs & _).
  destruct (audit_event id a e db) as [b|] eqn:Hb; [|done]. pose proof (audit_event_moves _ _ _ _ _ Hb) as [Hid' _].
  apply audit_event_spec in Hb as (c & Hc & ->).
  rewrite (audit_event_intro _ _ _ c); [apply IH; congruence || done|].
  eapply audit_checks_grows; [exact Hg|done|lia|lia| |done]. intros Hact. by eapply audit_rows_over.
Qed.
End growth.

(** A run without its result, which the audit does not carry. *)
Definition unresulted (r : RecordedRun) : RecordedRun :=
  {| rr_run_id := rr_run_id r; rr_accepted_sequence := rr_accepted_sequence r; rr_input := rr_input r;
     rr_state := rr_state r; rr_last_runtime_sequence := rr_last_runtime_sequence r;
     rr_owner_instance_id := rr_owner_instance_id r; rr_provider_session_id := rr_provider_session_id r;
     rr_terminal := rr_terminal r; rr_result_sequence := rr_result_sequence r; rr_result := None |}.

Definition audit_start (r : RecordedRun) : Audit := mkAudit (fresh_run r) false false default_correlation 0.

Section writes.
Context {D : Type} `{Display D} `{UuidLib} `{StorageSerde} {laws : StorageSerdeLaws}.
Implicit Types db : Db D.

(** ** Accepted runs *)

(** The audit of [run] ends in [a], which is what the tables say. *)
Record audited (id run : string) (a : Audit) db : Prop := {
  au_record : exists p, run_record id run db = Ok (Some p) /\ unresulted p = au_replay a;
  au_passes : audit_rows id (audit_start (au_replay a)) (run_rows run db) db = Ok a;
  au_tools call t : tool_results db !! (run, call) = Some t -> tool_fits id run call t db
}.

(** What holds of the whole session besides. *)
Record ledger (id : string) db : Prop := {
  ld_log : log_ok db;
  ld_length : size db <= i64_max;
  ld_typed : typed db;
  ld_canonical r : r ∈ events db ->
    exists e, decode_event id r = Ok e /\ payload_to_json (st_payload e) = Some (row_payload_json r);
  ld_logged r k : r ∈ events db -> row_run_id r = Some k -> is_some (runs db !! k) = true;
  ld_commands c : c ∈ commands db -> cmd_last_sequence c <= size db
}.

Lemma audit_tools_fit id run db calls :
  typed db -> (forall call t, tool_results db !! (run, call) = Some t -> tool_fits id run call t db) ->
  (forall call, call ∈ calls -> is_some (tool_results db !! (run, call)) = true) -> audit_tools id run calls db = Ok tt.
Proof.
  intros [_ Hty] Hfit. induction calls as [|call calls IH]; intros Hin; simpl; [done|].
  pose proof (Hin call ltac:(left)) as Hs. apply is_some_true in Hs as [t Ht].
  rewrite (fits_read_tool _ _ _ _ _ Ht (Hty _ _ Ht) (Hfit _ _ Ht)). cbn [ok_or]. apply IH. intros c Hc. apply Hin. by right.
Qed.

Lemma audited_validates id run a db : log_ok db -> typed db -> audited id run a db -> validate_run id run db = Some (Ok tt).
Proof.
  intros Hl Hty [(p & Hp & Heq) Ha Ht]. rewrite validate_run_rows by done. rewrite Hp. cbn [ok_or].
  assert (fresh_run p = fresh_run (au_replay a)) as -> by (by rewrite <- Heq). unfold audit_start in Ha. rewrite Ha.
  assert (same_progress (au_replay a) p = true) as ->.
  { rewrite <- Heq. unfold same_progress, terminal_sequence. simpl. rewrite !bool_decide_eq_true_2, Z.eqb_refl by done. done. }
  cbn [expect]. rewrite (audit_tools_fit _ _ _ _ Hty Ht); [done|]. intros call Hc. unfold tool_rows in Hc. rewrite merge_sort_Permutation in Hc.
  apply list_elem_of_fmap in Hc as ([[k c] t] & -> & Hc). apply list_elem_of_filter in Hc as [Hk Hc].
  apply elem_of_map_to_list in Hc. simpl in *. subst k. by rewrite Hc.
Qed.

(** The rows of the run are not empty, so the audit has moved on. *)
Lemma audit_rows_after id a rows db a' :
  rows <> [] -> audit_rows id a rows db = Ok a' -> 1 <= au_after a'.
Proof.
  intros Hne Ha. destruct (exists_last Hne) as (l & row & ->). rewrite audit_rows_app in Ha.
  destruct (audit_rows id a l db) as [b|]; [|done]. simpl in Ha. destruct (decode_event id row) as [e|] eqn:Hd; [|done].
  destruct (audit_event id b e db) as [b'|] eqn:Hb; [|done]. injection Ha as <-.
  apply audit_event_moves in Hb as [_ ->]. apply decode_event_Ok in Hd as (Hr & -> & _). rewrite as_i64_small; lia.
Qed.

Lemma audited_after id run a db : typed db -> audited id run a db -> au_after a <> 0 /\ rr_run_id (au_replay a) = run.
Proof.
  intros Hty [(p & Hp & Heq) Ha _]. apply run_record_fits in Hp as (row & Hf); [|done].
  assert (rr_run_id (au_replay a) = run) as Hid by (rewrite <- Heq; apply Hf). split; [|done].
  destruct (rf_event _ _ _ _ _ Hf) as (e & He & Hpay). apply read_event_row in He as (q & Hq & _ & Hd & _).
  assert (st_run_id e = Some run) as Hr.
  { apply decode_event_Ok in Hd as (_ & _ & _ & _ & Hfit). rewrite Hpay in Hfit. simpl in Hfit.
    by destruct (bool_decide_reflect (st_run_id e = Some run)). }
  pose proof (run_rows_In _ _ _ _ _ Hq Hd Hr) as Hin.
  assert (run_rows run db <> []) as Hne by (intros Hn; rewrite Hn in Hin; by apply not_elem_of_nil in Hin).
  pose proof (audit_rows_after _ _ _ _ _ Hne Ha). lia.
Qed.

(** ** Growth around a run *)

Lemma run_rows_app run db db' rows :
  events db' = events db ++ rows -> run_rows run db' = run_rows run db ++ List.filter (of_run run) rows.
Proof. intros He. unfold run_rows. by rewrite He, List.filter_app. Qed.

Lemma run_rows_bound run db : log_ok db -> Forall (fun r => row_sequence r <= size db) (run_rows run db).
Proof.
  intros Hl. apply Forall_forall. intros r [Hr _]%list_elem_of_In%filter_In. apply list_elem_of_In in Hr.
  apply (log_ok_bound db r Hl Hr).
Qed.

Lemma registers_refl b db db' : commands db' = commands db -> manifest db' = manifest db -> registers b db db'.
Proof.
  intros Hc Hm. split; [exists []; by rewrite app_nil_r|]. intros m Hm'. exists m. by rewrite Hm.
Qed.

(** The commands and events of others leave an accepted run accepted. *)
Lemma audited_beside b id run a db db' rows :
  log_ok db' -> typed db -> typed db' -> events db' = events db ++ rows -> registers b db db' -> selected_by b run db ->
  Forall (fun r => row_run_id r <> Some run) rows -> runs db' !! run = runs db !! run ->
  (forall call, tool_results db' !! (run, call) = tool_results db !! (run, call)) ->
  audited id run a db -> audited id run a db'.
Proof.
  intros Hl Hty Hty' He Hreg Hsb Hrows Hrun Htool Hau. pose proof Hau as [(p & Hp & Heq) Ha Hfit].
  assert (longer db db') as Hlong by by exists rows.
  pose proof (run_record_fits _ _ _ _ Hty Hp) as (row & Hf).
  assert (run_record id run db' = Ok (Some p)) as Hp'.
  { apply fits_run_record with row; [done|]. eapply run_fits_longer; [done| |done]. rewrite Hrun. apply Hf. }
  assert (forall kind, no_rows run kind rows) as Hno.
  { intros kind r Hr Hk. rewrite Forall_forall in Hrows. by destruct (Hrows r Hr). }
  assert (forall s, history_selection id run db = Ok (Some s) -> history_selection id run db' = Ok (Some s)) as Hsel.
  { intros s. by eapply history_selection_grows. }
  assert (forall call t, tool_results db' !! (run, call) = Some t -> tool_fits id run call t db') as Hfit'.
  { intros call t Ht. rewrite Htool in Ht. eapply tool_fits_longer; eauto. }
  split; [by exists p| |done]. rewrite (run_rows_app _ _ _ _ He), (filter_nothing _ rows), app_nil_r.
  - eapply audit_rows_grows; [|by apply (audited_after id run a db)|apply run_rows_bound; by eapply log_ok_longer|done].
    split; try done.
    + intros x. pose proof (rf_id _ _ _ _ _ Hf). by eapply provider_binding_grows.
    + intros call t Ht. exists t. rewrite <- Htool in Ht. split_and!; try done. by apply Hfit'.
  - eapply Forall_impl; [exact Hrows|]. intros r Hr. by apply bool_decide_eq_false.
Qed.

(** ** What appending a record does *)

Definition compatible (observed : option bool) (e : bool) : Prop := forall b, observed = Some b -> b = e.

Lemma compatible_iff o e : is_some_and o (fun x => negb (Bool.eqb x e)) = false -> compatible o e.
Proof. intros Hc b ->. simpl in Hc. by apply negb_false_iff, eqb_prop in Hc. Qed.

Definition started_tool (request name : string) (n : Z) : ToolRow :=
  {| tool_tool_name := name; tool_request_id := Some request; tool_started_sequence := n;
     tool_finished_sequence := None; tool_result_sequence := None; tool_is_error := None; tool_output := None |}.

(** The effect of a record on run [r], read in [db] after its event [n] is inserted:
    the run it makes, the tool rows, and whether it is the terminal event. *)
Inductive effect (id : string) (r : RecordedRun) (n : Z) db
  : AppendRunRecord -> RecordedRun -> gmap (string * string) ToolRow -> bool -> Prop :=
| Eff_binding b :
    effect id r n db (RProviderBinding b) (with_provider (Some (pb_provider_session_id b)) r) (tool_results db) false
| Eff_started ev : ev_event ev = RunStarted ->
    effect id r n db (RRuntime ev)
      (with_runtime (ev_sequence ev) (ev_session_id ev) (with_state RecordedRunState.Running r)) (tool_results db) false
| Eff_finished ev o sm : ev_event ev = RunFinished o sm ->
    (o = Completed -> missing_output (rr_run_id r) db = false) ->
    effect id r n db (RRuntime ev)
      (with_runtime (ev_sequence ev) (ev_session_id ev) (with_state (outcome_state o) r)) (tool_results db) true
| Eff_turn ev : match ev_event ev with TurnStarted _ | EProviderEvent _ | TurnFinished _ _ _ _ => True | _ => False end ->
    effect id r n db (RRuntime ev) (with_runtime (ev_sequence ev) (ev_session_id ev) r) (tool_results db) false
| Eff_tool_started ev call name request :
    ev_event ev = EToolEvent (ToolExecutionStarted call name) -> ev_request_id ev = Some request ->
    tool_results db !! (rr_run_id r, call) = None ->
    effect id r n db (RRuntime ev) (with_runtime (ev_sequence ev) (ev_session_id ev) r)
      (<[(rr_run_id r, call) := started_tool request name n]> (tool_results db)) false
| Eff_tool_finished ev call name err request t e started :
    ev_event ev = EToolEvent (ToolExecutionFinished call name err) -> ev_request_id ev = Some request ->
    tool_results db !! (rr_run_id r, call) = Some t ->
    tool_tool_name t = name -> tool_request_id t = Some request -> tool_finished_sequence t = None ->
    compatible (tool_is_error t) err ->
    read_event id (tool_started_sequence t) db = Ok e -> st_payload e = RuntimeObserved started ->
    ev_turn_id started = ev_turn_id ev ->
    effect id r n db (RRuntime ev) (with_runtime (ev_sequence ev) (ev_session_id ev) r)
      (<[(rr_run_id r, call) := finished_tool n err t]> (tool_results db)) false
| Eff_tool_reused ev call name t :
    ev_event ev = EToolEvent (ToolResultReused call name) ->
    tool_results db !! (rr_run_id r, call) = Some t ->
    tool_tool_name t = name -> is_some (tool_request_id t) = true -> is_some (tool_result_sequence t) = true ->
    effect id r n db (RRuntime ev) (with_runtime (ev_sequence ev) (ev_session_id ev) r) (tool_results db) false
| Eff_output request call output err t :
    rr_state r = RecordedRunState.Running -> tool_results db !! (rr_run_id r, call) = Some t ->
    tool_request_id t = request -> tool_result_sequence t = None -> compatible (tool_is_error t) err ->
    effect id r n db (RToolResult request call output err) r
      (<[(rr_run_id r, call) := resulted_tool n output err t]> (tool_results db)) false
| Eff_result result :
    active (rr_state r) = true -> rr_result_sequence r = None -> res_run_id result = rr_run_id r ->
    res_events_complete result = false ->
    (rr_provider_session_id r = None \/ rr_provider_session_id r = res_session_id result) ->
    (res_outcome result = Completed -> missing_output (rr_run_id r) db = false) ->
    effect id r n db (RResult result)
      (with_result_sequence n (with_provider (res_session_id result) (with_state (outcome_state (res_outcome result)) r)))
      (tool_results db) true
| Eff_late result m t :
    active (rr_state r) = false -> rr_result_sequence r = None -> res_run_id result = rr_run_id r ->
    terminal_sequence r = Some m -> read_event id m db = Ok t ->
    terminal_outcome t = Some (res_outcome result, res_session_id result) ->
    effect id r n db (RResult result) (with_result_sequence n r) (tool_results db) false.

(** The saved row of a typed read. *)
Lemma read_tool_row id run call db saved :
  typed db -> read_tool id run call db = Ok (Some saved) ->
  exists t, tool_results db !! (run, call) = Some t /\ saved = saved_of t.
Proof.
  intros [_ Hty] Hr. destruct (tool_results db !! (run, call)) as [t|] eqn:Ht; [|unfold read_tool in Hr; by rewrite Ht in Hr].
  exists t. split; [done|]. apply (read_tool_fits _ _ _ _ _ _ Ht (Hty _ _ Ht) Hr).
Qed.

(** Nothing but tool rows and, at the end of a run, its row, is touched. *)
Definition touched (run : string) (fin : bool) (n : Z) (json : string) (tools : gmap (string * string) ToolRow) db db' : Prop :=
  exists row, runs db !! run = Some row /\
    db' = set_tool_results tools (if fin then set_runs (<[run := with_terminal n json row]> (runs db)) db else db).

Lemma touched_none run n json db row : runs db !! run = Some row -> touched run false n json (tool_results db) db db.
Proof. intros Hr. exists row. split; [done|]. by destruct db. Qed.

Lemma tool_event_effect id r n ev tool db db' a :
  typed db -> ev_event ev = EToolEvent tool -> record_tool_event id r n ev tool db = (Ok a, db') ->
  exists tools, effect id r n db (RRuntime ev) (with_runtime (ev_sequence ev) (ev_session_id ev) r) tools false /\
    db' = set_tool_results tools db.
Proof.
  intros Hty Hev Hr. unfold record_tool_event in Hr. unbind Hr. injection Hc as Hreq <-. apply ok_or_Ok in Hreq.
  destruct tool as [call nm|call nm er|call nm]; unbind Hr; injection Hc as Hk <-.
  - destruct (is_some a1) eqn:Hs; [done|]. apply is_some_false in Hs as ->. apply read_tool_None in Hk.
    unfold insert_tool in Hr. unbind Hr. apply require_constraint_Ok in Hc as [_ ->]. injection Hr as _ <-.
    eexists. split; [by eapply Eff_tool_started | done].
  - unbind Hr. injection Hc as Hs <-. apply ok_or_Ok in Hs as ->. destruct (_ || _) eqn:Hcond in Hr; [done|]. prop_bools.
    apply read_tool_row in Hk as (t & Ht & ->); [|done]. simpl in *. unbind Hr. injection Hc as He <-.
    destruct (st_payload a1) as [| | | | |started| | |] eqn:Hp; try done. destruct (negb _) eqn:Hturn in Hr; [done|]. prop_bools.
    apply update_tool_Ok in Hr as [[Hn _]|(t' & Ht' & ->)]; [congruence|]. rewrite Ht in Ht'. injection Ht' as <-.
    simp_checks. eexists. split; [|done].
    eapply Eff_tool_finished; try done. by apply compatible_iff.
  - unbind Hr. injection Hc as Hs <-. apply ok_or_Ok in Hs as ->. destruct (_ || _) eqn:Hcond in Hr; [done|]. unfold is_none in Hcond.
    apply read_tool_row in Hk as (t & Ht & ->); [|done]. simpl in *. injection Hr as _ <-. prop_bools.
    exists (tool_results db). split; [|by destruct db]. by eapply Eff_tool_reused.
Qed.

Lemma terminalize_touched r n o json row db r' db' :
  runs db !! rr_run_id r = Some row -> terminalize r n o json db = (Ok r', db') ->
  r' = with_state (outcome_state o) r /\ touched (rr_run_id r) true n json (tool_results db) db db'.
Proof.
  intros Hrow Ht. unfold terminalize in Ht. unbind Ht. injection Ht as <- <-. split; [done|]. exists row. split; [done|].
  apply update_run_Ok in Hc as [[Hn _]|(q & Hq & _ & ->)]; [congruence|]. rewrite Hrow in Hq. by injection Hq as <-.
Qed.

Lemma append_effect_effect id r n json record row db r' db' :
  typed db -> runs db !! rr_run_id r = Some row -> 1 <= n <= i64_max ->
  append_effect id r n json record db = (Ok r', db') ->
  exists tools fin, effect id r n db record r' tools fin /\ touched (rr_run_id r) fin n json tools db db'.
Proof.
  intros Hty Hrow Hn Ha. pose proof (touched_none _ n json _ _ Hrow) as Hnone. unfold append_effect in Ha.
  destruct record as [binding|event|request call output err|result].
  - injection Ha as <- <-. exists (tool_results db), false. split; [constructor | done].
  - unbind Ha. injection Ha as <- <-. destruct (ev_event event) as [|num|pe|tool|num rid out up|o sm] eqn:Hev.
    2,3,5: injection Hc as <- <-; exists (tool_results db), false; split; [apply Eff_turn; by rewrite Hev | done].
    + injection Hc as <- <-. exists (tool_results db), false. split; [by apply Eff_started | done].
    + unbind Hc. injection Hc as <- <-. apply tool_event_effect in Hc0 as (tools & Heff & ->); [|done|done].
      exists tools, false. split; [done|]. by exists row.
    + unbind Hc. apply require_outputs_Ok in Hc0 as [-> Ho]. apply (terminalize_touched _ _ _ _ row) in Hc as [-> Ht]; [|done].
      exists (tool_results db), true. split; [by eapply Eff_finished | done].
  - destruct (bool_decide_reflect (rr_state r = RecordedRunState.Running)) as [Hst|]; [|done]. simpl in Ha.
    unbind Ha. injection Hc as Hk <-. unbind Ha. injection Hc as Hs <-. apply ok_or_Ok in Hs as ->.
    destruct (_ || _) eqn:Hcond in Ha; [done|]. prop_bools. unbind Ha. injection Ha as <- <-.
    apply read_tool_row in Hk as (t & Ht & ->); [|done]. simpl in *. simp_checks.
    apply update_tool_Ok in Hc as [[Hnt _]|(t' & Ht' & ->)]; [congruence|]. rewrite Ht in Ht'. injection Ht' as <-.
    eexists _, false. split; [eapply Eff_output; try done; by apply compatible_iff | by exists row].
  - destruct (_ || _) eqn:Hcond in Ha; [done|]. prop_bools. simp_checks. unbind Ha. injection Ha as <- <-.
    assert (as_u64 n = n) as -> by (apply as_u64_small; unfold u64_max, i64_max in *; lia).
    destruct (active (rr_state r)) eqn:Hact.
    + destruct (_ || _) eqn:Hcond in Hc; [done|]. prop_bools. unbind Hc. apply require_outputs_Ok in Hc0 as [-> Ho].
      unbind Hc. injection Hc as <- <-. apply (terminalize_touched _ _ _ _ row) in Hc0 as [-> Ht]; [|done].
      exists (tool_results db), true. split; [|done]. apply Eff_result; try done.
      destruct (rr_provider_session_id r); [right | by left]. simpl in *. by prop_bools.
    + unbind Hc. injection Hc0 as Hts <-. apply ok_or_Ok in Hts. unbind Hc. injection Hc0 as Hre <-. unbind Hc.
      injection Hc0 as Hop <-. apply ok_or_Ok in Hop. destruct (_ || _) eqn:Hcond in Hc; [done|]. prop_bools.
      injection Hc as <- <-. exists (tool_results db), false. split; [|done].
      eapply Eff_late; try done. destruct a2 as [o sess]; simpl in *. by subst.
Qed.

(** The row a record is stored in. *)
Definition record_row (clock : Clock) (n ts : Z) (run : string) (record : AppendRunRecord) (json : string) : EventRow :=
  {| row_sequence := n; row_event_id := fresh_event_id clock n; row_event_type := event_type (record_payload record);
     row_event_version := 1; row_created_at_ms := ts; row_run_id := Some run;
     row_source_event_id := ev_event_id <$> record_source record;
     row_source_sequence := (fun e => as_i64 (ev_sequence e)) <$> record_source record; row_payload_json := json |}.

(** What one append leaves: [erow] is the new event, [r1] the run after its effect. *)
Record appended (id : string) (r : RecordedRun) (n : Z) (record : AppendRunRecord) (row : RunRow) (json : string)
    (erow : EventRow) (r1 : RecordedRun) (fin : bool) (r' : RecordedRun) db db' : Prop := {
  ap_json : payload_to_json (record_payload record) = Some json;
  ap_binding b : record = RProviderBinding b -> rr_state r = RecordedRunState.Running /\ validate_binding id r b n db = Ok tt;
  ap_open : rr_state r <> RecordedRunState.Interrupted /\
    (active (rr_state r) = false -> exists result, record = RResult result);
  ap_result result : record = RResult result -> res_run_id result = rr_run_id r;
  ap_events : events db' = events db ++ [erow];
  ap_effect : effect id r n (set_events (events db ++ [erow]) db) record r1 (tool_results db') fin;
  ap_commands : commands db' = commands db;
  ap_manifest : manifest db' = manifest db;
  ap_runs : runs db' = <[rr_run_id r := with_progress (rr_state r1) (as_i64 (rr_last_runtime_sequence r1))
      (rr_provider_session_id r1) (as_i64 <$> rr_result_sequence r1) (if fin then with_terminal n json row else row)]> (runs db);
  ap_run : if negb (active (rr_state r1)) && is_none (rr_terminal r1)
           then exists e, read_event id n db' = Ok e /\ r' = with_terminal_event e r1 else r' = r1
}.

Lemma effect_run id r n db record r1 tools fin : effect id r n db record r1 tools fin -> rr_run_id r1 = rr_run_id r.
Proof. by destruct 1. Qed.

Lemma append_appended clock id r n ts record row db r' db' :
  next n db -> 1 <= n <= i64_max -> typed db -> runs db !! rr_run_id r = Some row ->
  append clock id r n ts record db = (Ok r', db') ->
  exists json r1 fin, appended id r n record row json (record_row clock n ts (rr_run_id r) record json) r1 fin r' db db'.
Proof.
  intros Hnext Hn Hty Hrow Ha. unfold append in Ha. unbind Ha.
  assert (s = db /\ forall b, record = RProviderBinding b ->
    rr_state r = RecordedRunState.Running /\ validate_binding id r b n db = Ok tt) as [-> Hb].
  { destruct record as [b| | |]; try by injection Hc as _ <-.
    destruct (bool_decide_reflect (rr_state r = RecordedRunState.Running)); [|done]. simpl in Hc. injection Hc as Hv <-.
    split; [done|]. intros ? [= <-]. rewrite as_u64_small in Hv by (unfold u64_max, i64_max in *; lia). by destruct a. }
  unbind Ha. injection Hc0 as Hj <-. apply ok_or_Ok in Hj. destruct (_ || _) eqn:Hopen; [done|]. prop_bools.
  unbind Ha. unfold insert_event in Hc0. apply insert_event_row_Ok in Hc0 as [_ ->].
  destruct (next_insert db (record_row clock n ts (rr_run_id r) record a0) n Hnext eq_refl) as [Hins _].
  unfold record_row in Hins at 1. rewrite Hins in Ha. fold (record_row clock n ts (rr_run_id r) record a0) in Ha.
  set (db1 := set_events (events db ++ [_]) db) in Ha. unbind Ha.
  pose proof (append_effect_run _ _ _ _ _ _ _ _ Hc0) as [_ Hres].
  apply (append_effect_effect id r n a0 record row db1) in Hc0 as (tools & fin & Heff & q & Hq & ->); [|done|done|done].
  simpl in Hq. rewrite Hrow in Hq. injection Hq as <-. pose proof (effect_run _ _ _ _ _ _ _ _ Heff) as Hid.
  unbind Ha. rewrite Hid in Hc0. apply update_run_Ok in Hc0 as [[Hnone _]|(q & Hq & _ & ->)].
  { exfalso. destruct fin; simpl in Hnone; [by rewrite lookup_insert_eq in Hnone | congruence]. }
  unbind Ha. unbind Ha. injection Hc1 as _ <-. unbind Ha. injection Ha as <- <-.
  apply apply_same in Hc1 as (Hev & Hcm & Hru & Hto & Hma).
  exists a0, a2, fin.
  assert (q = if fin then with_terminal n a0 row else row) as ->.
  { destruct fin; simpl in Hq; [rewrite lookup_insert_eq in Hq|]; congruence. }
  set (s2 := set_runs _ _) in Hc0.
  assert (s = s2 /\ if negb (active (rr_state a2)) && is_none (rr_terminal a2)
                    then exists e, read_event id n s2 = Ok e /\ a4 = with_terminal_event e a2 else a4 = a2) as [-> Hrun].
  { destruct (negb _ && is_none _); [|by injection Hc0 as <- <-]. unbind Hc0. injection Hc0 as <- <-. injection Hc1 as He <-.
    split; [done|]. exists a7. rewrite as_u64_small in He by (unfold u64_max, i64_max in *; lia). done. }
  assert (events s2 = events db ++ [record_row clock n ts (rr_run_id r) record a0]) as He2 by (unfold s2; by destruct fin).
  split; try done.
  - split; [done|]. intros Hact. rewrite Hact in *. destruct record; simpl in *; try done. eauto.
  - congruence.
  - by rewrite Hto.
  - rewrite Hcm. unfold s2. by destruct fin.
  - rewrite Hma. unfold s2. by destruct fin.
  - rewrite Hru. unfold s2. simpl. destruct fin; simpl; [by rewrite insert_insert_eq | done].
  - destruct (negb _ && is_none _); [|done]. destruct Hrun as (e & He & ->). exists e. split; [|done].
    by rewrite (read_event_same _ _ _ s2).
Qed.

(** ** Flags of the audit against the reads of the writer *)
Lemma audit_rows_selection id run a rows db a' :
  audit_rows id a rows db = Ok a' -> rr_run_id (au_replay a) = run ->
  (au_selection_seen a' = true -> au_selection_seen a = true \/ exists s, history_selection id run db = Ok (Some s)) /\
  (au_binding_seen a' = true -> au_binding_seen a = true \/ exists b, provider_binding id run db = Ok (Some b)) /\
  (au_selection_seen a = true -> au_selection_seen a' = true) /\ (au_binding_seen a = true -> au_binding_seen a' = true).
Proof.
  revert a. induction rows as [|row rows IH]; intros a Ha Hid; simpl in Ha; [injection Ha as <-; naive_solver|].
  destruct (decode_event id row) as [e|]; [|done]. destruct (audit_event id a e db) as [b|] eqn:Hb; [|done].
  pose proof (audit_event_moves _ _ _ _ _ Hb) as [Hid' _]. apply audit_event_spec in Hb as (c & Hc & ->).
  destruct (IH _ Ha ltac:(congruence)) as (I1 & I2 & I3 & I4).
  unfold audit_checks in Hc. unfold audit_advance in I1, I2, I3, I4. rewrite Hid in Hc.
  destruct (st_payload e); simpl in *; try (by destruct Hc as [_ []]); split_and!; eauto.
  - intros _. right. by destruct Hc as (_ & _ & _ & ?).
  - intros _. right. by destruct Hc as (_ & _ & _ & ?).
Qed.

Lemma audit_rows_marks id a rows db a' row e :
  audit_rows id a rows db = Ok a' -> row ∈ rows -> decode_event id row = Ok e ->
  (event_type (st_payload e) = "run.history.selected" -> au_selection_seen a' = true) /\
  (event_type (st_payload e) = "run.provider.bound" -> au_binding_seen a' = true).
Proof.
  revert a. induction rows as [|q rows IH]; intros a Ha Hin Hd; [by apply not_elem_of_nil in Hin|]. simpl in Ha.
  destruct (decode_event id q) as [e'|] eqn:Hq; [|done]. destruct (audit_event id a e' db) as [b|] eqn:Hb; [|done].
  apply elem_of_cons in Hin as [->|Hin]; [|by eapply IH]. rewrite Hd in Hq. injection Hq as <-.
  apply audit_event_spec in Hb as (c & _ & ->).
  destruct (audit_rows_selection _ _ _ _ _ _ Ha eq_refl) as (_ & _ & I3 & I4). unfold audit_advance in I3, I4.
  destruct (st_payload e); simpl in *; split; intros Hk; try done; auto.
Qed.

Lemma metadata_seen id run kind db e a a' :
  metadata_event id run kind db = Ok (Some e) -> audit_rows id a (run_rows run db) db = Ok a' ->
  exists row, row ∈ run_rows run db /\ decode_event id row = Ok e /\ event_type (st_payload e) = kind.
Proof using laws.
  intros Hm _. apply metadata_event_row in Hm as (row & Hin & Hrun & Hk & Hd). exists row.
  pose proof (decode_event_Ok _ _ _ Hd) as (_ & _ & Hr & Hp & _). split_and!; [|done|].
  - eapply run_rows_In; [done|done|congruence].
  - rewrite <- Hk. by eapply payload_kind.
Qed.

Lemma audited_flags id run a db :
  typed db -> audited id run a db ->
  (au_selection_seen a = true <-> exists s, history_selection id run db = Ok (Some s)) /\
  (au_binding_seen a = true <-> exists b, provider_binding id run db = Ok (Some b)).
Proof using laws.
  intros Hty Hau. destruct (audited_after _ _ _ _ Hty Hau) as [_ Hid]. destruct Hau as [_ Ha _].
  destruct (audit_rows_selection _ run _ _ _ _ Ha Hid) as (I1 & I2 & _). split; split.
  - intros Hs. by destruct (I1 Hs).
  - intros [s Hs]. unfold history_selection in Hs. destruct (metadata_event _ _ _ _) as [[e|]|] eqn:Hm; try done.
    destruct (metadata_seen _ _ _ _ _ _ _ Hm Ha) as (row & Hin & Hd & Hk). by eapply audit_rows_marks.
  - intros Hs. by destruct (I2 Hs).
  - intros [s Hs]. unfold provider_binding in Hs. destruct (metadata_event _ _ _ _) as [[e|]|] eqn:Hm; try done.
    destruct (metadata_seen _ _ _ _ _ _ _ Hm Ha) as (row & Hin & Hd & Hk). by eapply audit_rows_marks.
Qed.

(** ** The new event *)
Lemma record_row_decodes clock id n ts run record json :
  clock_ok clock -> 0 <= ts -> 1 < n <= i64_max -> parse_id run = Ok run -> validate_record record = Ok tt ->
  record_run run record -> payload_to_json (record_payload record) = Some json ->
  exists e, decode_event id (record_row clock n ts run record json) = Ok e /\ st_payload e = record_payload record /\
    st_run_id e = Some run /\ st_sequence e = n.
Proof using laws.
  intros [_ Hids] Hts Hn Hp Hv Hrr Hj. destruct (record_fits id n (fresh_event_id clock n) ts run record Hrr Hv) as (Hf & Hs & Hne).
  destruct (row_shows id (Some run) n _ ts _ _ (record_source record) Hn Hts (Hids n) ltac:(by intros ? [= <-]) Hj Hf Hs Hne)
    as (e & Hd & Hpay & Hrun).
  exists e. split_and!; try done. by apply decode_event_sequence in Hd.
Qed.

Lemma log_ok_snoc db db' row :
  log_ok db -> events db' = events db ++ [row] -> row_sequence row = size db + 1 -> log_ok db' /\ size db' = size db + 1.
Proof.
  intros Hl He Hr. unfold log_ok, size in *. rewrite He, fmap_app, length_app, Hl. simpl.
  rewrite Nat2Z.inj_add. simpl. split; [|done]. rewrite seqZ_snoc by lia. rewrite Hr. do 2 f_equal. lia.
Qed.

Lemma read_event_last id db db' row e :
  log_ok db' -> events db' = events db ++ [row] -> size db + 1 <= i64_max -> decode_event id row = Ok e ->
  read_event id (size db + 1) db' = Ok e.
Proof.
  intros Hl He Hn Hd. unfold read_event, i64_try_from.
  rewrite (proj2 (in_i64_spec (size db + 1))) by (unfold size, i64_min, i64_max in *; lia). cbn [ok_or].
  pose proof (log_find db' (length (events db)) row Hl) as Hf. unfold size. rewrite Hf; [done|].
  rewrite He, lookup_app_r by lia. by rewrite Nat.sub_diag.
Qed.

(** ** Run rows *)
Lemma fits_active id run row p db :
  run_fits id run row p db -> active (rr_state p) = true ->
  run_terminal_sequence row = None /\ run_terminal_json row = None /\ rr_terminal p = None /\
  run_result_sequence row = None /\ rr_result_sequence p = None /\ rr_result p = None.
Proof.
  intros [_ _ _ _ _ _ _ _ (Ht1 & Ht2 & _ & Ht4) (_ & Hr2 & Hr3)] Ha. rewrite Ha in Ht2.
  destruct (run_terminal_sequence row); [done|]. destruct (run_terminal_json row); [done|]. injection Ht4 as Ht4. rewrite <- Ht4 in *.
  unfold read_result in Hr3. destruct (run_result_sequence row) as [m|].
  - destruct (read_event id m db) as [t|]; [|done]. by destruct (st_payload t).
  - injection Hr3 as <-. by split_and!.
Qed.

(** A run that goes on. *)
Lemma run_fits_open id run row p st last prov db db' :
  run_fits id run row p db -> longer db db' -> active (rr_state p) = true -> active st = true -> 0 <= last ->
  runs db' !! run = Some (with_progress st last prov None row) ->
  run_fits id run (with_progress st last prov None row) (with_runtime last prov (with_state st p)) db'.
Proof.
  intros Hf Hl Ha Hst Hlast Hrow. destruct (fits_active _ _ _ _ _ Hf Ha) as (Ht & Hj & Hpt & Hrs & Hprs & Hpr).
  destruct Hf as [_ Hid Hacc (e & He & Hpay) How _ _ _ _ _]. split; simpl; try done.
  - exists e. split; [by eapply read_event_longer | done].
  - rewrite Ht, Hj, Hpt. by split_and!.
  - rewrite Hprs, Hpr. by split_and!.
Qed.

(** A run that ends with the event [e]. *)
Lemma run_fits_close id run row p o last prov n json e rs db db' :
  run_fits id run row p db -> longer db db' -> active (rr_state p) = true -> 0 <= last ->
  read_event id n db' = Ok e -> rr_accepted_sequence p < n -> st_run_id e = Some run ->
  terminal_outcome e = Some (o, prov) -> json_is_payload json (st_payload e) = true ->
  (forall m, rs = Some m -> m = n /\ exists res, st_payload e = RunResultRecorded res) ->
  runs db' !! run = Some (with_progress (outcome_state o) last prov rs (with_terminal n json row)) ->
  exists p', run_fits id run (with_progress (outcome_state o) last prov rs (with_terminal n json row)) p' db' /\
    unresulted p' = {| rr_run_id := rr_run_id p; rr_accepted_sequence := rr_accepted_sequence p; rr_input := rr_input p;
      rr_state := outcome_state o; rr_last_runtime_sequence := last; rr_owner_instance_id := rr_owner_instance_id p;
      rr_provider_session_id := prov; rr_terminal := Some e; rr_result_sequence := rs; rr_result := None |}.
Proof.
  intros Hf Hl Ha Hlast He Hlt Hrun Hto Hjp Hrs Hrow. destruct Hf as [_ Hid Hacc (q & Hq & Hpay) How _ _ _ _ _].
  assert (st_sequence e = n) as Hsn by (by apply read_event_row in He as (_ & _ & _ & _ & ?)).
  exists {| rr_run_id := rr_run_id p; rr_accepted_sequence := rr_accepted_sequence p; rr_input := rr_input p;
      rr_state := outcome_state o; rr_last_runtime_sequence := last; rr_owner_instance_id := rr_owner_instance_id p;
      rr_provider_session_id := prov; rr_terminal := Some e; rr_result_sequence := rs;
      rr_result := match rs with None => None | Some _ => match st_payload e with RunResultRecorded res => Some res | _ => None end end |}.
  split; [|done]. split; simpl; try done.
  - exists q. split; [by eapply read_event_longer | done].
  - split_and!; try done; [by destruct o|intros m [= <-]; lia|]. rewrite He.
    rewrite (proj2 (Z.leb_gt _ _) Hlt), (bool_decide_eq_true_2 _ Hrun). cbn [negb andb expect].
    rewrite bool_decide_eq_false_2 by by destruct o. rewrite Hto. cbn [ok_or fst snd].
    rewrite !bool_decide_eq_true_2 by done. cbn [andb expect]. by rewrite Hjp.
  - split_and!; [intros m Hm; destruct (Hrs m Hm) as [-> _]; lia|done|].
    destruct rs as [m|]; [|done]. destruct (Hrs m eq_refl) as [-> [res Hp]]. unfold read_result. rewrite He, Hp. cbn [ok_or].
    rewrite Hto. cbn [ok_or fst snd]. unfold terminal_outcome in Hto. rewrite Hp in Hto. injection Hto as <- <-.
    rewrite Hrun, !bool_decide_eq_true_2 by done. rewrite Hsn, Z.ltb_irrefl. done.
Qed.

(** The result of a run that has ended. *)
Lemma run_fits_late id run row p n e res db db' :
  run_fits id run row p db -> longer db db' -> active (rr_state p) = false -> rr_state p <> RecordedRunState.Interrupted ->
  read_event id n db' = Ok e -> (forall m, run_terminal_sequence row = Some m -> m <= n) -> 0 < n ->
  st_run_id e = Some run -> st_payload e = RunResultRecorded res ->
  (exists t, rr_terminal p = Some t /\ terminal_outcome t = Some (res_outcome res, res_session_id res)) ->
  let row' := with_progress (rr_state p) (rr_last_runtime_sequence p) (rr_provider_session_id p) (Some n) row in
  runs db' !! run = Some row' ->
  exists p', run_fits id run row' p' db' /\ unresulted p' = unresulted (with_result_sequence n p).
Proof.
  intros Hf Hl Ha Hni He Hle Hpos Hrun Hp (t & Ht & Hto) row' Hrow.  subst row'.
  pose proof (fits_terminal_sequence _ _ _ _ _ Hf) as Hts. unfold terminal_sequence in Hts. rewrite Ht in Hts. simpl in Hts.
  destruct Hf as [Hr0 Hid Hacc (q & Hq & Hpay) How Hst Hlast Hprov (Ht1 & Ht2 & Ht3 & Ht4) Hres].
  exists {| rr_run_id := rr_run_id p; rr_accepted_sequence := rr_accepted_sequence p; rr_input := rr_input p;
      rr_state := rr_state p; rr_last_runtime_sequence := rr_last_runtime_sequence p;
      rr_owner_instance_id := rr_owner_instance_id p; rr_provider_session_id := rr_provider_session_id p;
      rr_terminal := rr_terminal p; rr_result_sequence := Some n; rr_result := Some res |}.
  split; [|done]. split; simpl; try done.
  - exists q. split; [by eapply read_event_longer | done].
  - by destruct Hlast.
  - split_and!; try done. unfold read_terminal in *. destruct (run_terminal_sequence row) as [m|]; [|done].
    destruct (read_event id m db) as [x|] eqn:Hx; [|done]. by rewrite (read_event_longer _ _ _ _ _ Hl Hx).
  - split_and!; try done; [by intros m [= <-]|]. rewrite He, Hp, Ht. cbn [ok_or]. rewrite Hto. cbn [ok_or fst snd].
    rewrite !bool_decide_eq_true_2 by done. rewrite (proj2 (Z.ltb_ge _ _)); [done|]. by apply Hle.
Qed.
End writes.
