(* ===== verification/AuditKeeps.v ===== *)
(** * The audit accepts what the commands write

    Appending a record to an accepted run leaves it accepted, with the record as the
    last thing the audit saw; so do acceptance, rename and interruption.  Hence every
    session that was created and worked on through the store passes its audit. *)
From S2P Require Import Prelude Json Errors Identifiers Provider Tools Replay RunData Hoare Records Store History Session RunStore StoreSafety StoreCommands StoreGuarantees StoreContents RunAudit AuditWrites.

Lemma as_i64_max z : as_i64 z <= i64_max.
Proof.
  unfold as_i64. pose proof (Z.mod_pos_bound z (2 ^ 64) ltac:(lia)).
  destruct (Z.ltb_spec i64_max (z mod 2 ^ 64)); unfold i64_max in *; lia.
Qed.

Section keeps.
Context {D : Type} `{Display D} `{UuidLib} `{StorageSerde} {laws : StorageSerdeLaws}.
Implicit Types db : Db D.

(** ** Small facts *)
Lemma take_two {A} (l : list A) x : take 2 l = [x] -> l = [x].
Proof. destruct l as [|y [|z l]]; simpl; try done. Qed.

(** The event that may come between acceptance and binding. *)
Lemma validate_binding_row id r b n db :
  validate_binding id r b n db = Ok tt ->
  pb_run_id b = rr_run_id r /\ (exists s, history_selection id (rr_run_id r) db = Ok (Some s)) /\
  exists row e, List.filter (fun q => bool_decide (row_run_id q = Some (rr_run_id r))
      && (as_i64 (rr_accepted_sequence r + 1) <? row_sequence q) && (row_sequence q <? as_i64 n)) (events db) = [row] /\
    decode_event id row = Ok e /\ exists ev, st_payload e = RuntimeObserved ev /\ ev_event ev = RunStarted.
Proof.
  unfold validate_binding. destruct (_ || _) eqn:Hor; [done|]. prop_bools.
  destruct (history_selection _ _ _) as [[s|]|]; try done. cbn [is_none is_some negb].
  destruct (take 2 _) as [|row [|]] eqn:Ht; try done. apply take_two in Ht.
  destruct (decode_event id row) as [x|] eqn:Hd; [|done]. destruct (st_payload x) as [| | | | |ev| | |] eqn:Hp; try done.
  destruct (ev_event ev) eqn:Hev; try done. intros _. split_and!; [done|eauto|]. exists row, x. eauto.
Qed.

(** A second binding is refused. *)
Lemma bound_refuses id r b b' p db n :
  log_ok db -> n = size db + 1 -> n <= i64_max ->
  provider_binding id (rr_run_id r) db = Ok (Some b') -> run_record id (rr_run_id r) db = Ok (Some p) ->
  rr_run_id p = rr_run_id r -> rr_accepted_sequence p = rr_accepted_sequence r ->
  validate_binding id r b n db = Ok tt -> False.
Proof.
  intros Hl Hn Hmax Hb Hp Hid Hacc Hv. unfold provider_binding in Hb.
  destruct (metadata_event _ _ _ _) as [[e|]|] eqn:Hm; try done.
  destruct (st_payload e) as [| | | |binding| | | |] eqn:Hpay; try done. rewrite Hp in Hb. cbn [ok_or] in Hb.
  destruct (map_err _ _) as [[]|] eqn:Hv' in Hb; [|done]. apply map_err_Ok in Hv'.
  apply validate_binding_row in Hv as (_ & _ & row & x & Hf & Hd & ev & Hx & _).
  apply validate_binding_row in Hv' as (_ & _ & row' & x' & Hf' & _). rewrite Hid, Hacc in Hf'.
  apply metadata_event_row in Hm as (q & Hq & Hqr & _ & Hqd). pose proof (decode_event_Ok _ _ _ Hqd) as (Hq64 & Hqs & _).
  pose proof (log_ok_bound db q Hl Hq) as Hqb. rewrite Hqs in Hf'.
  rewrite (as_i64_small n) in Hf by (unfold size in *; lia).
  rewrite (as_i64_small (row_sequence q)) in Hf' by lia.
  assert (row' ∈ [row']) as Hin by left. rewrite <- Hf' in Hin. apply list_elem_of_In, filter_In in Hin as [Hin Hcond]. prop_bools.
  pose proof (log_ok_bound db row' Hl) as Hb'. rewrite list_elem_of_In in Hb'. specialize (Hb' Hin).
  assert (forall y, y ∈ events db -> row_run_id y = Some (rr_run_id r) -> as_i64 (rr_accepted_sequence r + 1) < row_sequence y -> y = row) as Hone.
  { intros y Hy Hyr Hlt. assert (y ∈ [row]) as Hy1; [|by apply list_elem_of_singleton in Hy1].
    rewrite <- Hf. apply list_elem_of_In, filter_In. split; [by apply list_elem_of_In|].
    pose proof (log_ok_bound db y Hl Hy). rewrite (bool_decide_eq_true_2 _ Hyr), (proj2 (Z.ltb_lt _ _) Hlt), (proj2 (Z.ltb_lt _ _)); [done|].
    unfold size in *. lia. }
  assert (row' = row) as <- by (apply Hone; [by apply list_elem_of_In|done|done]).
  assert (q = row') as -> by (apply Hone; [done|done|lia]). lia.
Qed.

Lemma advance_same a e c :
  rr_run_id (au_replay (audit_advance a e c)) = rr_run_id (au_replay a) /\
  rr_accepted_sequence (au_replay (audit_advance a e c)) = rr_accepted_sequence (au_replay a) /\
  rr_input (au_replay (audit_advance a e c)) = rr_input (au_replay a) /\
  rr_owner_instance_id (au_replay (audit_advance a e c)) = rr_owner_instance_id (au_replay a).
Proof.
  unfold audit_advance. destruct (st_payload e) as [|title|acc|sel|binding|event|payload|result|intr]; try done.
  - by destruct (ev_event event).
  - simpl. by destruct (active _).
Qed.

(** The session of an open run is the one its correlation expects. *)
Definition session_known (a : Audit) : Prop :=
  active (rr_state (au_replay a)) = true -> co_session (au_correlation a) = rr_provider_session_id (au_replay a).

Lemma observe_session r ev n c db c' : observe_correlation r ev n c db = Ok c' ->
  co_session c' = ev_session_id ev /\ (is_some (co_session c) = true -> co_session c = ev_session_id ev).
Proof.
  unfold observe_correlation. destruct (negb _); [done|]. destruct (_ || _); [done|].
  destruct (match ev_event ev with RunStarted => _ | _ => _ end) as [[]|]; [|done].
  destruct (_ && _) eqn:Hs; [done|]. destruct (observe_turn _ _ _ _ _); [|done]. intros [= <-]. split; [done|].
  intros Hsome. rewrite Hsome in Hs. simpl in Hs. by prop_bools.
Qed.

Lemma advance_session id a e c db : audit_checks id a e c db -> session_known a -> session_known (audit_advance a e c).
Proof.
  unfold session_known, audit_checks, audit_advance. intros Hc Hs.
  destruct (st_payload e) as [|title|acc|sel|binding|event|payload|result|intr]; simpl; try done.
  - intros _. destruct Hc as (_ & _ & Ho & _). by apply observe_session in Ho as [-> _]. 
  - destruct (active (rr_state (au_replay a))) eqn:Ha; simpl; [by destruct (res_outcome result) | by rewrite Ha].
Qed.

Lemma audited_session id run a db : audited id run a db -> session_known a.
Proof.
  intros [_ Ha _]. assert (forall rows a0, audit_rows id a0 rows db = Ok a -> session_known a0 -> session_known a) as Hind.
  { induction rows as [|row rows IH]; intros a0 Hr Hs; simpl in Hr; [by injection Hr as <-|].
    destruct (decode_event id row) as [e|]; [|done]. destruct (audit_event id a0 e db) as [b|] eqn:Hb; [|done].
    apply audit_event_spec in Hb as (c & Hc & ->). eapply IH; [done|]. by eapply advance_session. }
  by eapply Hind.
Qed.

(** ** One record

    The record is stored as event [e], number [n], of the run [r], whose audit so far
    ended in [a]. *)
Section step.
Context (id : string) (r : RecordedRun) (n : Z) (record : AppendRunRecord) (row : RunRow) (json : string)
  (erow : EventRow) (r1 : RecordedRun) (fin : bool) (r' : RecordedRun) (db db' : Db D) (a : Audit) (e : StoredEvent).
Context (Hled : ledger id db) (Hn : n = size db + 1) (Hmax : n <= i64_max)
  (Hau : audited id (rr_run_id r) a db) (Hagree : unresulted r = au_replay a)
  (Hrow : runs db !! rr_run_id r = Some row)
  (Hap : appended id r n record row json erow r1 fin r' db db')
  (He : decode_event id erow = Ok e) (Hpay : st_payload e = record_payload record)
  (Hrun : st_run_id e = Some (rr_run_id r)) (Hseq : st_sequence e = n) (Herow : row_sequence erow = n)
  (Hvalid : validate_record record = Ok tt).

Let run := rr_run_id r.
#[local] Set Default Proof Using "All".

Lemma step_log : log_ok db' /\ size db' = n.
Proof. rewrite Hn. eapply log_ok_snoc; [apply Hled|apply Hap|congruence]. Qed.

Lemma step_longer : longer db db'.
Proof. exists [erow]. apply Hap. Qed.

Lemma step_read : read_event id n db' = Ok e.
Proof. rewrite Hn. eapply read_event_last; [apply step_log|apply Hap|lia|done]. Qed.

Lemma step_reads m : read_event id m (set_events (events db ++ [erow]) db) = read_event id m db'.
Proof. apply read_event_same. simpl. symmetry. apply Hap. Qed.

Lemma step_size : 1 <= n.
Proof. unfold size in *. lia. Qed.

Lemma step_typed_row : run_typed row.
Proof. by apply (ld_typed _ _ Hled) in Hrow. Qed.

Lemma step_typed_tools k t : tool_results db' !! k = Some t -> tool_typed t.
Proof.
  pose proof (proj2 (ld_typed _ _ Hled)) as T. intros Ht.
  destruct (ap_effect _ _ _ _ _ _ _ _ _ _ _ _ Hap) as
    [| | | |ev call name rq _ _ _|ev call name err rq t0 e0 st0 _ _ Ht0| |q call output err t0 _ Ht0| |];
    simpl in *; try (by eapply T);
    apply lookup_insert_Some in Ht as [[_ <-]|[_ Ht]]; try (by eapply T).
  - split; [done|]. split; intros m Hm; discriminate Hm.
  - destruct (T _ _ Ht0) as (T1 & T2 & T3). split_and!; simpl; try done. by intros m [= <-].
  - destruct (T _ _ Ht0) as (T1 & T2 & T3). split_and!; simpl; try done. by intros m [= <-].
Qed.

Lemma step_typed : typed db'.
Proof.
  split; [|exact step_typed_tools]. intros k q Hq. rewrite (ap_runs _ _ _ _ _ _ _ _ _ _ _ _ Hap) in Hq.
  apply lookup_insert_Some in Hq as [[_ <-]|[_ Hq]]; [|by apply (ld_typed _ _ Hled) in Hq].
  destruct step_typed_row as (T1 & T2 & T3 & T4). split_and!; simpl.
  - by destruct fin.
  - apply as_i64_max.
  - destruct fin; simpl; [by intros m [= <-] | done].
  - intros m Hm. destruct (rr_result_sequence r1); [|done]. injection Hm as <-. apply as_i64_max.
Qed.

(** The event is a tool event. *)
Lemma step_link ev tool request p :
  record = RRuntime ev -> ev_event ev = EToolEvent tool -> ev_request_id ev = request -> p tool = true ->
  tool_link id run request n p db' = Ok tt.
Proof.
  intros Hr Htool Hq Hp. unfold tool_link. rewrite step_read, Hpay, Hr. simpl.
  unfold is_tool_event. rewrite Htool, Hrun, Hq, Hp. by rewrite !bool_decide_eq_true_2.
Qed.

Lemma step_tool_before call t :
  tool_results db !! (run, call) = Some t -> tool_fits id run call t db' /\ 0 < tool_started_sequence t < n.
Proof.
  intros Ht. pose proof (au_tools _ _ _ _ Hau call t Ht) as Hf. split; [by eapply tool_fits_longer; [apply step_longer|]|].
  split; [apply Hf|]. pose proof (tf_start_link _ _ _ _ _ Hf) as Hl. apply tool_link_Ok in Hl as (x & _ & _ & Hx & _).
  apply read_event_row in Hx as (q & Hq & <- & _). pose proof (log_ok_bound db q (ld_log _ _ Hled) Hq). unfold size in *. lia.
Qed.

(** Every tool row fits, and moved forward. *)
Lemma step_tools call t' : tool_results db' !! (run, call) = Some t' -> tool_fits id run call t' db'.
Proof.
  intros Ht. pose proof step_tool_before as Hold. pose proof (ap_effect _ _ _ _ _ _ _ _ _ _ _ _ Hap) as Heff.
  remember record as rec eqn:Hrec in Heff. remember r1 as s1 eqn:Hs1 in Heff. remember fin as f eqn:Hf in Heff.
  remember (tool_results db') as tools eqn:Htools in Heff, Ht. destruct Heff as
    [| | | |ev c name rq Hev Hq _|ev c name err rq t0 e0 st0 Hev Hq Ht0 Hnm Hrq Hnone Hcomp Hst Hps Hturn| |q c output err t0 Hst Ht0 Hq Hnone Hcomp| |];
    simpl in *; try (by apply Hold);
    apply lookup_insert_Some in Ht as [[Heq <-]|[_ Ht]]; try (by apply Hold); injection Heq as <-.
  - pose proof step_size. split; simpl; try done; [lia|]. eapply step_link; try done. simpl. by rewrite !bool_decide_eq_true_2.
  - destruct (Hold _ _ Ht0) as [[F1 F2 F3 F4 F5 F6] Hlt]. split; simpl; try done; [by rewrite orb_true_r|..].
    + intros m [= <-]. split; [lia|]. rewrite Hrq. eapply step_link; try done. simpl. by rewrite !bool_decide_eq_true_2.
    + intros m Hm. destruct (F6 m Hm) as (Hlt2 & x & pl & X1 & X2 & X3 & X4 & X5 & X6 & X7). split; [done|].
      exists x, pl. split_and!; try done. simpl. by rewrite (Hcomp _ X7).
  - destruct (Hold _ _ Ht0) as [[F1 F2 F3 F4 F5 F6] Hlt]. split; simpl; try done.
    + intros m Hm. destruct (F5 m Hm) as [Hlt2 Hlink]. split; [done|].
      apply tool_link_Ok in Hlink as (x & env & tl & X1 & X2 & X3 & X4 & X5 & X6 & X7).
      unfold tool_link. rewrite X1, X4, X3, X7. unfold is_tool_event. rewrite X5, !bool_decide_eq_true_2 by done.
      destruct tl; try done. simpl in X6 |- *. prop_bools.
      rewrite !bool_decide_eq_true_2; try done. f_equal. by apply Hcomp.
    + intros m [= <-]. split; [lia|]. eexists e, _. rewrite Hpay, <- Hrec. split_and!; [apply step_read|done..].
Qed.

Lemma step_tools_move call t :
  tool_results db !! (run, call) = Some t -> exists t', tool_results db' !! (run, call) = Some t' /\ tool_moves t t'.
Proof.
  intros Ht.
  destruct (ap_effect _ _ _ _ _ _ _ _ _ _ _ _ Hap) as
    [| | | |ev c name rq _ _ Hnone|ev c name err rq t0 e0 st0 _ _ Ht0 _ _ Hnone Hcomp| |q c output err t0 _ Ht0 _ Hnone Hcomp| |]; simpl in *;
    try (by exists t); destruct (decide (c = call)) as [->|Hne];
    try (exists t; rewrite lookup_insert_ne; [done|]; congruence).
  - eexists. rewrite lookup_insert_eq. split; [done|]. unfold run in Ht. rewrite Ht in Ht0. injection Ht0 as <-.
    split; simpl; try done; [by rewrite Hnone|]. intros b Hb. f_equal. symmetry. by apply Hcomp.
  - eexists. rewrite lookup_insert_eq. split; [done|]. unfold run in Ht. rewrite Ht in Ht0. injection Ht0 as <-.
    split; simpl; try done; [by rewrite Hnone|]. intros b Hb. f_equal. symmetry. by apply Hcomp.
Qed.

(** *** The run row *)
Lemma step_before : exists p, run_record id run db = Ok (Some p) /\ run_fits id run row p db /\ unresulted p = unresulted r /\
  rr_accepted_sequence p < n.
Proof.
  destruct (au_record _ _ _ _ Hau) as (p & Hp & Heq). exists p.
  pose proof (run_record_fits _ _ _ _ (ld_typed _ _ Hled) Hp) as (row0 & Hf).
  assert (row0 = row) as -> by (pose proof (rf_row _ _ _ _ _ Hf) as Hr0; unfold run in Hr0; congruence).
  split_and!; try done; [congruence|]. destruct (rf_event _ _ _ _ _ Hf) as (x & Hx & _).
  apply read_event_row in Hx as (q & Hq & <- & _). pose proof (log_ok_bound db q (ld_log _ _ Hled) Hq). unfold size in *. lia.
Qed.

(** The record left the run open. *)
Lemma step_open :
  active (rr_state r) = true -> active (rr_state r1) = true -> fin = false ->
  0 <= rr_last_runtime_sequence r1 <= i64_max ->
  r1 = with_runtime (rr_last_runtime_sequence r1) (rr_provider_session_id r1) (with_state (rr_state r1) r) ->
  exists p', run_record id run db' = Ok (Some p') /\ unresulted p' = unresulted r'.
Proof.
  intros Ha Ha1 Hfin Hlast Hr1. destruct step_before as (p & _ & Hf & Heq & _).
  assert (rr_state p = rr_state r) as Hst by (by injection Heq).
  destruct (fits_active _ _ _ _ _ Hf) as (_ & _ & Hpt & _ & Hprs & _); [congruence|].
  assert (rr_result_sequence r1 = None) as Hrs.
  { rewrite Hr1. simpl. transitivity (rr_result_sequence p); [|done]. by injection Heq. }
  pose proof (ap_runs _ _ _ _ _ _ _ _ _ _ _ _ Hap) as Hruns. rewrite Hfin, Hrs in Hruns. simpl in Hruns.
  rewrite as_i64_small in Hruns by lia.
  eexists. split.
  - eapply fits_run_record; [apply step_typed|]. eapply run_fits_open; [exact Hf|apply step_longer|congruence|exact Ha1| |].
    + instantiate (1 := rr_last_runtime_sequence r1). lia.
    + rewrite Hruns. by rewrite lookup_insert_eq.
  - pose proof (ap_run _ _ _ _ _ _ _ _ _ _ _ _ Hap) as Hr'. rewrite Ha1 in Hr'. simpl in Hr'. rewrite Hr'.
    rewrite Hr1. unfold unresulted in *. simpl. injection Heq as -> -> -> _ _ -> _ -> ->. done.
Qed.

(** The record ended the run. *)
Lemma step_close o :
  active (rr_state r) = true -> fin = true -> rr_state r1 = outcome_state o ->
  0 <= rr_last_runtime_sequence r1 <= i64_max ->
  terminal_outcome e = Some (o, rr_provider_session_id r1) ->
  (rr_result_sequence r1 = None \/ rr_result_sequence r1 = Some n /\ exists res, st_payload e = RunResultRecorded res) ->
  rr_run_id r1 = rr_run_id r -> rr_accepted_sequence r1 = rr_accepted_sequence r -> rr_input r1 = rr_input r ->
  rr_owner_instance_id r1 = rr_owner_instance_id r -> rr_terminal r1 = rr_terminal r ->
  (exists p', run_record id run db' = Ok (Some p') /\ unresulted p' = unresulted r') /\ r' = with_terminal_event e r1.
Proof.
  intros Ha Hfin Hst1 Hlast Hto Hrs Hid Hacc Hin Hown Hterm. destruct step_before as (p & _ & Hf & Heq & Hlt).
  assert (rr_state p = rr_state r) as Hst by (by injection Heq).
  destruct (fits_active _ _ _ _ _ Hf) as (_ & _ & Hpt & _ & Hprs & _); [congruence|].
  assert (rr_terminal r1 = None) as Ht1 by (rewrite Hterm; transitivity (rr_terminal p); [by injection Heq | done]).
  assert (r' = with_terminal_event e r1) as Hr'.
  { pose proof (ap_run _ _ _ _ _ _ _ _ _ _ _ _ Hap) as Hr'. rewrite Hst1, Ht1 in Hr'.
    replace (active (outcome_state o)) with false in Hr' by by destruct o. destruct Hr' as (x & Hx & Hx').
    rewrite step_read in Hx. injection Hx as Hx. congruence. }
  split; [|done].
  pose proof (ap_runs _ _ _ _ _ _ _ _ _ _ _ _ Hap) as Hruns. rewrite Hfin, Hst1, as_i64_small in Hruns by lia.
  assert (as_i64 <$> rr_result_sequence r1 = rr_result_sequence r1) as Hmap.
  { destruct Hrs as [->|[-> _]]; [done|]. simpl. rewrite as_i64_small; [done|]. pose proof step_size. lia. }
  rewrite Hmap in Hruns.
  destruct (run_fits_close id run row p o (rr_last_runtime_sequence r1) (rr_provider_session_id r1) n json e
    (rr_result_sequence r1) db db') as (p' & Hf' & Hp'); try done.
  - apply step_longer.
  - congruence.
  - lia.
  - apply step_read.
  - rewrite Hpay. apply payload_value, Hap.
  - intros m Hm. destruct Hrs as [Hrs|[Hrs Hres]]; [congruence|]. split; [congruence|done].
  - rewrite Hruns. by rewrite lookup_insert_eq.
  - exists p'. split; [by eapply fits_run_record; [apply step_typed|]|]. rewrite Hp', Hr'. unfold unresulted. simpl.
    injection Heq as -> -> -> _ _ -> _ _ _. congruence.
Qed.

(** *** The record against the audit *)
Context (c0 c : Correlation) (Hobs : forall ev, record = RRuntime ev -> observe_correlation r ev n c0 db = Ok c)
  (Hc0 : active (rr_state r) = true -> c0 = au_correlation a)
  (Hunb : unbound_audit a = true -> validate_unbound record = Ok tt).

Lemma step_active : (forall result, record <> RResult result) -> active (rr_state r) = true.
Proof.
  intros Hne. destruct (active (rr_state r)) eqn:Ha; [done|]. destruct (ap_open _ _ _ _ _ _ _ _ _ _ _ _ Hap) as [_ Hopen].
  destruct (Hopen Ha) as [res Hres]. by destruct (Hne res).
Qed.

Lemma step_sequence ev : record = RRuntime ev -> 0 <= ev_sequence ev <= i64_max.
Proof.
  intros Hr. pose proof (Hobs ev Hr) as Ho. unfold observe_correlation in Ho. destruct (negb _); [done|].
  destruct (_ || _) eqn:Hor in Ho; [done|]. prop_bools. clear Ho.
  destruct step_before as (p & _ & Hf & Heq & _). destruct (rf_last _ _ _ _ _ Hf) as [Hl _].
  assert (rr_last_runtime_sequence p = rr_last_runtime_sequence r) as Hlr by (by injection Heq).
  rewrite Hr in Hvalid. unfold validate_record, validate_runtime in Hvalid. destruct (_ || _) in Hvalid; [done|].
  destruct (parse_id _); [|done]. destruct (_ || _) eqn:Hor in Hvalid; [done|]. prop_bools. lia.
Qed.

Lemma step_last : 0 <= rr_last_runtime_sequence r <= i64_max.
Proof.
  destruct step_before as (p & _ & Hf & Heq & _). destruct (rf_last _ _ _ _ _ Hf) as [Hl Hlr].
  assert (rr_last_runtime_sequence p = rr_last_runtime_sequence r) as <- by (by injection Heq).
  destruct step_typed_row as (_ & T & _). lia.
Qed.

(** The recorded result of a run that is over. *)
Lemma step_late result m t :
  active (rr_state r) = false -> fin = false -> r1 = with_result_sequence n r -> record = RResult result ->
  terminal_sequence r = Some m -> read_event id m db' = Ok t ->
  terminal_outcome t = Some (res_outcome result, res_session_id result) ->
  (exists p', run_record id run db' = Ok (Some p') /\ unresulted p' = unresulted r') /\ r' = with_result_sequence n r /\
  rr_terminal r = Some t.
Proof.
  intros Ha Hfin Hr1 Hrec Hm Ht Hto. destruct step_before as (p & _ & Hf & Heq & _).
  assert (rr_state p = rr_state r /\ rr_terminal p = rr_terminal r) as [Hst Hterm] by (by injection Heq).
  pose proof (fits_terminal_sequence _ _ _ _ _ Hf) as Hts.
  assert (rr_terminal r = Some t /\ run_terminal_sequence row = Some m /\ m < n) as (Hrt & Hrow_t & Hmn).
  { unfold terminal_sequence in Hm, Hts. rewrite Hterm in Hts. rewrite Hm in Hts.
    destruct (rf_terminal _ _ _ _ _ Hf) as (_ & _ & _ & Hrd). rewrite <- Hts in Hrd. unfold read_terminal in Hrd.
    destruct (read_event id m db) as [x|] eqn:Hx; [|done]. pose proof (read_event_longer _ _ _ _ _ step_longer Hx) as Hx'.
    rewrite Ht in Hx'. injection Hx' as <-. destruct (expect _) as [[]|]; [|done].
    match type of Hrd with match ?y with _ => _ end = _ => destruct y as [[]|]; [|done] end.
    destruct (run_terminal_json row); [|done]. cbn [ok_or] in Hrd. destruct (expect _) as [[]|]; [|done]. injection Hrd as Hrd.
    apply read_event_row in Hx as (q & Hq & <- & _). pose proof (log_ok_bound db q (ld_log _ _ Hled) Hq).
    split; [congruence|]. split; [done|]. unfold size in *. lia. }
  assert (r' = with_result_sequence n r) as Hr'.
  { pose proof (ap_run _ _ _ _ _ _ _ _ _ _ _ _ Hap) as Hr'. rewrite Hr1 in Hr'. simpl in Hr'. rewrite Hrt in Hr'. simpl in Hr'.
    rewrite andb_false_r in Hr'. done. }
  split_and!; try done. pose proof (ap_runs _ _ _ _ _ _ _ _ _ _ _ _ Hap) as Hruns. pose proof step_last. pose proof step_size.
  rewrite Hfin, Hr1 in Hruns. simpl in Hruns. rewrite !as_i64_small in Hruns by lia.
  destruct (run_fits_late id run row p n e result db db') as (p' & Hf' & Hp'); try done.
  - apply step_longer.
  - congruence.
  - rewrite Hst. apply Hap.
  - apply step_read.
  - intros m' Hm'. rewrite Hrow_t in Hm'. injection Hm' as <-. lia.
  - lia.
  - by rewrite Hpay, Hrec.
  - exists t. split; [congruence | done].
  - rewrite Hruns. unfold run. rewrite lookup_insert_eq. injection Heq as _ _ _ -> -> _ -> _ _. done.
  - exists p'. split; [by eapply fits_run_record; [apply step_typed|]|]. rewrite Hp', Hr'. unfold unresulted in *. simpl.
    injection Heq as -> -> -> -> -> -> -> -> _. done.
Qed.

(** The open cases of [step_record]. *)
Lemma step_record_open :
  active (rr_state r) = true -> active (rr_state r1) = true -> fin = false ->
  0 <= rr_last_runtime_sequence r1 <= i64_max ->
  r1 = with_runtime (rr_last_runtime_sequence r1) (rr_provider_session_id r1) (with_state (rr_state r1) r) ->
  unresulted r1 = au_replay (audit_advance a e c) ->
  exists p', run_record id run db' = Ok (Some p') /\ unresulted p' = unresulted r' /\ unresulted r' = au_replay (audit_advance a e c).
Proof.
  intros Ha Ha1 Hfin Hlast Hr1 Hadv. destruct (step_open Ha Ha1 Hfin Hlast Hr1) as (p' & Hp' & Heq).
  exists p'. split_and!; try done. pose proof (ap_run _ _ _ _ _ _ _ _ _ _ _ _ Hap) as Hr'. rewrite Ha1 in Hr'. simpl in Hr'. by rewrite Hr'.
Qed.

(** What is read of the run afterwards is what the audit has replayed. *)
Lemma step_record :
  exists p', run_record id run db' = Ok (Some p') /\ unresulted p' = unresulted r' /\ unresulted r' = au_replay (audit_advance a e c).
Proof.
  pose proof (ap_effect _ _ _ _ _ _ _ _ _ _ _ _ Hap) as Heff.
  remember record as rec eqn:Hrec in Heff. remember r1 as s1 eqn:Hs1 in Heff. remember fin as f eqn:Hf in Heff.
  remember (tool_results db') as tools eqn:Htools in Heff.
  pose proof step_last as Hlast. pose proof step_sequence as Hsq.
  assert (forall ev, RRuntime ev = record -> active (rr_state r) = true) as Hact.
  { intros ev Hev. apply step_active. intros res. congruence. }
  destruct Heff as
    [b|ev Hev|ev o sm Hev Hmiss|ev Hev|ev call name rq Hev Hq Hnone|ev call name err rq t0 e0 st0 Hev Hq Ht0 Hnm Hrq Hnone Hcomp Hst Hps Hturn
    |ev call name t0 Hev Ht0 Hnm Hrq Hres|q call output err t0 Hst Ht0 Hq Hnone Hcomp|res Ha Hrs Hid Hec Hprov Hmiss|res m t Ha Hrs Hid Hts Hre Hto].
  - destruct (ap_binding _ _ _ _ _ _ _ _ _ _ _ _ Hap b) as [Hst _]; [done|].
    apply step_record_open; rewrite <- ?Hs1; simpl; try done; rewrite ?Hst; try done.
    unfold audit_advance. rewrite Hpay, <- Hrec. simpl. by rewrite <- Hagree.
  - apply step_record_open; rewrite <- ?Hs1; simpl; try done; try (by eapply Hact); try (by apply Hsq).
    unfold audit_advance. rewrite Hpay, <- Hrec. simpl. by rewrite Hev, <- Hagree.
  - destruct (step_close o) as [(p' & Hp' & Heq) Hr']; rewrite <- ?Hs1; simpl; try done; try (by eapply Hact); try (by apply Hsq).
    + unfold terminal_outcome. rewrite Hpay, <- Hrec. simpl. by rewrite Hev.
    + left. destruct step_before as (p & _ & Hfit & Heq & _).
      destruct (fits_active _ _ _ _ _ Hfit) as (_ & _ & _ & _ & Hprs & _); [|by injection Heq as _ _ _ _ _ _ _ _ <-].
      assert (rr_state p = rr_state r) as -> by (by injection Heq). by eapply Hact.
    + exists p'. split_and!; try done. rewrite Hr', <- Hs1. unfold audit_advance. rewrite Hpay, <- Hrec. simpl. by rewrite Hev, <- Hagree.
  - apply step_record_open; rewrite <- ?Hs1; simpl; try done; try (by eapply Hact); try (by apply Hsq).
    unfold audit_advance. rewrite Hpay, <- Hrec. simpl. rewrite <- Hagree. by destruct (ev_event ev).
  - apply step_record_open; rewrite <- ?Hs1; simpl; try done; try (by eapply Hact); try (by apply Hsq).
    unfold audit_advance. rewrite Hpay, <- Hrec. simpl. by rewrite Hev, <- Hagree.
  - apply step_record_open; rewrite <- ?Hs1; simpl; try done; try (by eapply Hact); try (by apply Hsq).
    unfold audit_advance. rewrite Hpay, <- Hrec. simpl. by rewrite Hev, <- Hagree.
  - apply step_record_open; rewrite <- ?Hs1; simpl; try done; try (by eapply Hact); try (by apply Hsq).
    unfold audit_advance. rewrite Hpay, <- Hrec. simpl. by rewrite Hev, <- Hagree.
  - apply step_record_open; rewrite <- ?Hs1; simpl; try done; rewrite ?Hst; try done.
    { rewrite <- Hst. by destruct r. }
    unfold audit_advance. rewrite Hpay, <- Hrec. simpl. by rewrite <- Hagree.
  - destruct (step_close (res_outcome res)) as [(p' & Hp' & Heq) Hr']; rewrite <- ?Hs1; simpl; try done.
    + unfold terminal_outcome. by rewrite Hpay, <- Hrec.
    + right. split; [done|]. exists res. by rewrite Hpay, <- Hrec.
    + exists p'. split_and!; try done. rewrite Hr', <- Hs1. unfold audit_advance. rewrite Hpay, <- Hrec. simpl.
      rewrite <- Hagree. simpl. rewrite Ha. by rewrite Hseq.
  - rewrite step_reads in Hre.
    destruct (step_late res m t) as ((p' & Hp' & Heq) & Hr' & _); try done.
    exists p'. split_and!; try done. rewrite Hr'. unfold audit_advance. rewrite Hpay, <- Hrec. simpl.
    rewrite <- Hagree. simpl. rewrite Ha. by rewrite Hseq.
Qed.

(** *** Growth *)
Lemma step_kind : row_event_type erow = event_type (record_payload record).
Proof. apply decode_event_Ok in He as (_ & _ & _ & Hp & _). apply payload_kind in Hp. by rewrite <- Hp, Hpay. Qed.

Lemma step_no_rows kind : event_type (record_payload record) <> kind -> no_rows run kind [erow].
Proof. intros Hk q Hq _. apply list_elem_of_singleton in Hq as ->. by rewrite step_kind. Qed.

(** A bound run keeps its session. *)
Lemma step_provider b :
  provider_binding id run db = Ok (Some b) ->
  (forall b', record <> RProviderBinding b') /\
  rr_provider_session_id (au_replay (audit_advance a e c)) = rr_provider_session_id (au_replay a).
Proof.
  intros Hb. destruct step_before as (p & Hp & Hfit & Heq & _).
  assert (forall b', record <> RProviderBinding b') as Hnb.
  { intros b' Hrec. destruct (ap_binding _ _ _ _ _ _ _ _ _ _ _ _ Hap b' Hrec) as [_ Hv].
    eapply (bound_refuses id r b' b p db n); try done; [apply Hled|by injection Heq|by injection Heq]. }
  split; [done|].
  assert (exists s, rr_provider_session_id r = Some s) as [s Hs].
  { unfold provider_binding in Hb. destruct (metadata_event _ _ _ _) as [[x|]|]; try done.
    destruct (st_payload x) as [| | | |binding| | | |]; try done. rewrite Hp in Hb. cbn [ok_or] in Hb.
    destruct (map_err _ _) as [[]|]; [|done]. destruct (expect _) as [[]|] eqn:Hx; [|done]. apply expect_Ok in Hx. prop_bools.
    assert (rr_provider_session_id r = rr_provider_session_id p) as -> by (by injection Heq). eauto. }
  unfold audit_advance. rewrite Hpay. remember record as rec eqn:Hrec in |- *. destruct rec as [b'|ev|q call output err|res]; simpl.
  - by destruct (Hnb b').
  - rewrite <- Hagree. simpl. rewrite Hs. symmetry.
    assert (active (rr_state r) = true) as Hact by (apply step_active; intros res; congruence).
    pose proof (audited_session _ _ _ _ Hau) as Hk. unfold session_known in Hk. rewrite <- Hagree, <- Hc0 in Hk by done.
    simpl in Hk. rewrite Hs in Hk. destruct (observe_session _ _ _ _ _ _ (Hobs ev (eq_sym Hrec))) as [_ Ho].
    rewrite (Hk Hact) in Ho. by apply Ho.
  - done.
  - rewrite <- Hagree. simpl. destruct (active (rr_state r)) eqn:Hact; [|done]. simpl.
    pose proof (ap_effect _ _ _ _ _ _ _ _ _ _ _ _ Hap) as Heff. rewrite <- Hrec in Heff.
    inversion Heff as [| | | | | | | |x X1 X2 X3 X4 X5 X6|x m t X1]; [|congruence].
    destruct X5 as [X5|X5]; congruence.
Qed.

Lemma step_grows : grows id run (rr_state (au_replay a)) db db'.
Proof.
  destruct step_before as (p & Hp & Hfit & Heq & _). destruct step_record as (p' & Hp' & Heq' & Hadv).
  destruct (advance_same a e c) as (Hid & Hacc & Hin & _). rewrite <- Hadv, <- Hagree in Hid, Hacc, Hin.
  assert (rr_run_id p' = rr_run_id p /\ rr_accepted_sequence p' = rr_accepted_sequence p /\ rr_input p' = rr_input p) as (I1 & I2 & I3).
  { injection Heq as E1 E2 E3 _ _ _ _ _ _. injection Heq' as F1 F2 F3 _ _ _ _ _ _. simpl in *. split_and!; congruence. }
  pose proof (ap_events _ _ _ _ _ _ _ _ _ _ _ _ Hap) as Hev.
  assert (forall s, history_selection id run db = Ok (Some s) -> history_selection id run db' = Ok (Some s)) as Hsel.
  { intros s. eapply (history_selection_grows (size db)); try done;
      [apply step_log|apply registers_refl; apply Hap|apply selected_by_size, Hled|].
    apply step_no_rows. by destruct record. }
  split; try done.
  - apply step_log.
  - apply step_longer.
  - split; [apply Hled | apply step_typed].
  - intros b Hb. destruct (step_provider b Hb) as [Hnb Hsame].
    eapply provider_binding_grows; try done; [apply step_log| |apply Hfit| |].
    + apply step_no_rows. destruct record; try done. by destruct (Hnb binding).
    + rewrite I1. apply Hfit.
    + transitivity (rr_provider_session_id (au_replay (audit_advance a e c))).
      * rewrite <- Hadv, <- Heq'. done.
      * rewrite Hsame, <- Hagree, <- Heq. done.
  - intros call t Ht. destruct (step_tools_move call t Ht) as (t' & Ht' & Hm). exists t'. split_and!; try done. by apply step_tools.
  - intros Hact call. rewrite <- Hagree in Hact. simpl in Hact.
    destruct (ap_open _ _ _ _ _ _ _ _ _ _ _ _ Hap) as [_ Hopen]. destruct (Hopen Hact) as [res Hres].
    pose proof (ap_effect _ _ _ _ _ _ _ _ _ _ _ _ Hap) as Heff. rewrite Hres in Heff.
    by inversion Heff as [| | | | | | | |x X1|x m t X1].
Qed.

(** *** The checks of the audit *)
Lemma step_unbound b : record = RProviderBinding b -> au_selection_seen a = true /\ au_binding_seen a = false.
Proof.
  intros Hrec. destruct (ap_binding _ _ _ _ _ _ _ _ _ _ _ _ Hap b Hrec) as [_ Hv].
  apply validate_binding_row in Hv as (_ & Hs & _). destruct (audited_flags _ _ _ _ (ld_typed _ _ Hled) Hau) as [F1 F2].
  split; [by apply F1|]. destruct (au_binding_seen a) eqn:Hb; [|done]. exfalso.
  destruct (proj1 F2 eq_refl) as [b' Hb']. destruct (step_provider b' Hb') as [Hnb _]. by apply (Hnb b).
Qed.

Lemma step_bound b : record = RProviderBinding b -> provider_binding id run db' = Ok (Some b).
Proof.
  intros Hrec. pose proof (ap_events _ _ _ _ _ _ _ _ _ _ _ _ Hap) as Hev.
  assert (row_run_id erow = Some run) as Her by (apply decode_event_Ok in He as (_ & _ & Hr & _); by rewrite <- Hr).
  assert (metadata_event id run "run.provider.bound" db' = Ok (Some e)) as Hm.
  { unfold metadata_event. rewrite Hev, List.filter_app, (filter_nothing _ (events db)).
    - simpl. rewrite step_kind, Hrec, (bool_decide_eq_true_2 _ Her). simpl. by rewrite He.
    - apply Forall_forall. intros q Hq. destruct (_ && _) eqn:Hcond; [|done]. exfalso. prop_bools.
      destruct (ld_canonical _ _ Hled q Hq) as (x & Hx & _). pose proof (decode_event_Ok _ _ _ Hx) as (_ & _ & Hxr & Hxp & _).
      destruct (step_unbound b Hrec) as [_ Hub]. pose proof (au_passes _ _ _ _ Hau) as Hpass.
      destruct (audit_rows_marks _ _ _ _ _ q x Hpass) as [_ Hmark].
      + eapply run_rows_In; [done|exact Hx|by rewrite Hxr].
      + done.
      + rewrite Hmark in Hub; [done|]. apply payload_kind in Hxp. congruence. }
  destruct step_before as (p & Hp & Hfit & Heq & _). destruct step_record as (p' & Hp' & Heq' & Hadv).
  destruct (advance_same a e c) as (Hid & Hacc & Hin & _). rewrite <- Hadv, <- Hagree in Hid, Hacc, Hin.
  assert (rr_run_id p' = rr_run_id r /\ rr_accepted_sequence p' = rr_accepted_sequence r /\ rr_input p' = rr_input r) as (I1 & I2 & I3).
  { injection Heq' as F1 F2 F3 _ _ _ _ _ _. simpl in *. split_and!; congruence. }
  destruct (ap_binding _ _ _ _ _ _ _ _ _ _ _ _ Hap b Hrec) as [_ Hv].
  unfold provider_binding. rewrite Hm, Hpay, Hrec, Hp'. simpl. rewrite Hseq.
  rewrite (validate_binding_grows id r p' b n db db' [erow]); try done.
  - cbn [map_err]. rewrite bool_decide_eq_true_2; [done|].
    transitivity (rr_provider_session_id (au_replay (audit_advance a e c))).
    + rewrite <- Hadv, <- Heq'. done.
    + unfold audit_advance. by rewrite Hpay, Hrec.
  - apply step_log.
  - lia.
  - pose proof step_size. lia.
  - intros s. apply (gr_selection _ _ _ _ _ step_grows).
Qed.

(** Every output of the run is there, and from before. *)
Lemma step_outputs :
  tool_results db' = tool_results db -> missing_output run db = false -> late_output run n db' = false.
Proof.
  intros Htools Hmiss. apply late_output_false. intros call t Ht. rewrite Htools in Ht.
  pose proof (missing_output_false _ _ _ _ Hmiss Ht) as Hs. apply is_some_true in Hs as [m Hm]. exists m. split; [done|].
  destruct (tf_result_link _ _ _ _ _ (au_tools _ _ _ _ Hau call t Ht) m Hm) as (_ & x & _ & Hx & _).
  apply read_event_row in Hx as (q & Hq & <- & _). pose proof (log_ok_bound db q (ld_log _ _ Hled) Hq). pose proof step_size.
  rewrite as_i64_small by lia. unfold size in *. lia.
Qed.

Lemma step_read_tool call t : tool_results db' !! (run, call) = Some t -> read_tool id run call db' = Ok (Some (saved_of t)).
Proof. intros Ht. apply fits_read_tool; [done|by eapply step_typed_tools|by apply step_tools]. Qed.

Lemma step_tool_event ev tool :
  record = RRuntime ev -> ev_event ev = EToolEvent tool -> validate_tool_event id run n ev tool db' = Ok tt.
Proof.
  intros Hrec Htool. pose proof (ap_effect _ _ _ _ _ _ _ _ _ _ _ _ Hap) as Heff. rewrite Hrec in Heff.
  pose proof step_read_tool as Hread. unfold validate_tool_event.
  inversion Heff as [|x X1|x o sm X1 X2|x X1|x call nm rq X1 X2 X3 X4 X5 X6
    |x call nm err rq t x0 st X1 X2 X3 X4 X5 X6 X7 X8 X9 X10 X11 X12 X13|x call nm t X1 X2 X3 X4 X5 X6 X7 X8| | |];
    try congruence; try (rewrite Htool in X1; done).
  - rewrite Htool in X1. injection X1 as ->. simpl. erewrite Hread; [|match goal with Hx : _ = tool_results db' |- _ => rewrite <- Hx end; by rewrite lookup_insert_eq].
    simpl. by rewrite Z.eqb_refl.
  - rewrite Htool in X1. injection X1 as ->. simpl. erewrite Hread; [|match goal with Hx : _ = tool_results db' |- _ => rewrite <- Hx end; by rewrite lookup_insert_eq].
    simpl. rewrite bool_decide_eq_true_2 by done. simpl. rewrite step_reads in X8. rewrite X8, X9, X10.
    by rewrite bool_decide_eq_true_2.
  - rewrite Htool in X1. injection X1 as ->. simpl. erewrite Hread; [|match goal with Hx : _ = tool_results db' |- _ => rewrite <- Hx end; done].
    simpl. rewrite bool_decide_eq_true_2 by done. rewrite X4. simpl.
    apply is_some_true in X5 as [m Hm]. rewrite Hm. simpl.
    destruct (tf_result_link _ _ _ _ _ (au_tools _ _ _ _ Hau call t X2) m Hm) as (_ & y & _ & Hy & _).
    apply read_event_row in Hy as (q & Hq & <- & _). pose proof (log_ok_bound db q (ld_log _ _ Hled) Hq).
    rewrite (proj2 (Z.ltb_lt _ _)); [done|]. unfold size in *. lia.
Qed.

Lemma step_checks : audit_checks id a e c db'.
Proof.
  destruct (audited_after _ _ _ _ (ld_typed _ _ Hled) Hau) as [Hafter Hid].
  pose proof (ap_effect _ _ _ _ _ _ _ _ _ _ _ _ Hap) as Heff. unfold audit_checks. rewrite Hpay, Hid. fold run.
  remember record as rec eqn:Hrec in Heff |- *. destruct rec as [b|ev|q call output err|res]; simpl; (split; [done|]).
  - destruct (step_unbound b (eq_sym Hrec)) as [Hs Hb]. unfold unbound_audit. rewrite Hs, Hb, <- Hagree.
    split_and!; [done| |eexists; by apply step_bound]. by destruct (ap_binding _ _ _ _ _ _ _ _ _ _ _ _ Hap b (eq_sym Hrec)).
  - split_and!.
    + intros Hu. specialize (Hunb Hu). by rewrite <- Hrec in Hunb.
    + assert (active (rr_state r) = true) as Hact by (apply step_active; intros res; congruence).
      rewrite Hseq, as_i64_small by (pose proof step_size; lia). rewrite <- (Hc0 Hact), <- Hagree.
      rewrite (observe_longer _ _ _ _ db db' [erow] (proj1 step_log)); [|apply Hap|lia]. by apply Hobs.
    + rewrite Hseq. destruct (ev_event ev) as [|num|pe|tool|num rid out up|o sm] eqn:Hev; try done.
      * by apply step_tool_event.
      * intros ->. inversion Heff as [|x X1|x o sm' X1 X2 X3 X4 X5|x X1|x cl nm rq X1|x cl nm err rq t x0 st X1|x cl nm t X1| | |]; 
          try congruence; [|by rewrite Hev in X1]. rewrite Hev in X1. injection X1 as <- <-. apply step_outputs; [done|]. by apply X2.
  - inversion Heff as [| | | | | | |q0 cl out er t X1 X2 X3 X4 X5 X6 X7 X8| |]. rewrite <- Hagree. simpl. split_and!; [congruence| |].
    + destruct (unbound_audit a) eqn:Hu; [|done]. specialize (Hunb eq_refl). by rewrite <- Hrec in Hunb.
    + eexists. rewrite Hseq. split; [apply step_read_tool; rewrite <- X8, <- X7; by rewrite lookup_insert_eq | done].
  - rewrite <- Hagree. simpl. split_and!.
    + intros Hu. specialize (Hunb Hu). by rewrite <- Hrec in Hunb.
    + apply Hap.
    + by inversion Heff.
    + inversion Heff as [| | | | | | | |x X1 X2 X3 X4 X5 X6 X7 X8|x m t X1 X2 X3 X4 X5 X6 X7 X8]; rewrite X1.
      * split_and!; try done. rewrite Hseq. intros Hcomp. apply step_outputs; [done|]. by apply X6.
      * exists t. split; [|done]. rewrite step_reads in X5.
        eapply (step_late res m t); try done; congruence.
Qed.

(** The run is accepted again. *)
Lemma step_audited :
  audited id run (audit_advance a e c) db' /\ unresulted r' = au_replay (audit_advance a e c).
Proof.
  destruct step_record as (p' & Hp' & Heq' & Hadv). split; [|done]. split; [exists p'; split; congruence| |exact step_tools].
  pose proof (ap_events _ _ _ _ _ _ _ _ _ _ _ _ Hap) as Hev. rewrite (run_rows_app _ _ _ _ Hev).
  assert (List.filter (of_run run) [erow] = [erow]) as ->.
  { simpl. unfold of_run. apply decode_event_Ok in He as (_ & _ & Hr & _). rewrite <- Hr, Hrun.
    by rewrite bool_decide_eq_true_2. }
  assert (audit_start (au_replay (audit_advance a e c)) = audit_start (au_replay a)) as ->.
  { unfold audit_start, fresh_run. destruct (advance_same a e c) as (-> & -> & -> & ->). done. }
  eapply audit_rows_snoc; [|done|apply step_checks].
  eapply audit_rows_grows; [apply step_grows| |apply run_rows_bound, Hled|apply Hau].
  by apply (audited_after _ _ _ _ (ld_typed _ _ Hled) Hau).
Qed.
End step.
End keeps.

(** * The correlation a command loads is the one the audit has replayed

    [Correlation::load] reads the last runtime event, the last start of a turn and the
    last provider event of a run; the audit folds the rule of the writer over all of
    them.  While a run is open both give the same. *)

Section tracks.
Context {D : Type} `{Display D} `{UuidLib} `{StorageSerde} {laws : StorageSerdeLaws}.
Implicit Types db : Db D.

Definition runtime_kind (kind : option string) (r : EventRow) : bool :=
  bool_decide (row_event_type r = "runtime.observed")
  && is_none_or kind (fun k => bool_decide (json_type (row_payload_json r) = Some k)).

Definition latest (kind : option string) (rows : list EventRow) : option EventRow :=
  last (List.filter (runtime_kind kind) rows).

Lemma latest_runtime_rows id run kind db :
  latest_runtime id run kind db =
  match latest kind (run_rows run db) with
  | None => Ok None
  | Some row => let? stored := decode_event id row in
                match st_payload stored with RuntimeObserved event => Ok (Some event) | _ => Err integrity end
  end.
Proof.
  unfold latest_runtime, latest, run_rows. rewrite filter_both.
  replace (List.filter _ (events db)) with (List.filter (fun r => of_run run r && runtime_kind kind r) (events db)); [done|].
  apply List.filter_ext. intros r. unfold of_run, runtime_kind. by rewrite andb_assoc.
Qed.

(** The row holds the runtime event [env]. *)
Definition holds_event (id : string) (row : EventRow) (env : RunEventEnvelope) : Prop :=
  exists e, decode_event id row = Ok e /\ st_payload e = RuntimeObserved env.

(** The rows of a run, as far as the audit has seen them. *)
Record tracks (id : string) (rows : list EventRow) (a : Audit) : Prop := {
  tk_last : 0 <= rr_last_runtime_sequence (au_replay a);
  tk_accepted : rr_state (au_replay a) = RecordedRunState.Accepted -> latest None rows = None;
  tk_latest : match latest None rows with
    | None => rr_last_runtime_sequence (au_replay a) = 0 /\ co_turn (au_correlation a) = None /\ co_request (au_correlation a) = None
    | Some row => exists env, holds_event id row env /\ 0 < ev_sequence env /\
        ev_sequence env = rr_last_runtime_sequence (au_replay a) /\ co_request (au_correlation a) = ev_request_id env /\
        if between_turns (ev_event env) then co_turn (au_correlation a) = None
        else exists start senv turn number, latest (Some "turn_started") rows = Some start /\ holds_event id start senv /\
          ev_event senv = TurnStarted number /\ ev_turn_id senv = Some turn /\ ev_turn_id env = Some turn /\
          co_turn (au_correlation a) = Some (turn, number)
    end;
  tk_provider : match latest (Some "provider_event") rows with
    | None => co_provider_sequence (au_correlation a) = None
    | Some row => exists env p, holds_event id row env /\ ev_event env = EProviderEvent p /\
        co_provider_sequence (au_correlation a) = Some (env_sequence p)
    end
}.

Lemma latest_snoc kind rows row :
  latest kind (rows ++ [row]) = if runtime_kind kind row then Some row else latest kind rows.
Proof.
  unfold latest. rewrite List.filter_app. simpl. destruct (runtime_kind kind row); [by rewrite last_snoc | by rewrite app_nil_r].
Qed.

(** Rows that are not runtime events change nothing. *)
Lemma tracks_other id rows row a a' :
  tracks id rows a -> row_event_type row <> "runtime.observed" ->
  rr_last_runtime_sequence (au_replay a') = rr_last_runtime_sequence (au_replay a) ->
  (rr_state (au_replay a') = RecordedRunState.Accepted -> rr_state (au_replay a) = RecordedRunState.Accepted) ->
  co_turn (au_correlation a') = co_turn (au_correlation a) -> co_request (au_correlation a') = co_request (au_correlation a) ->
  co_provider_sequence (au_correlation a') = co_provider_sequence (au_correlation a) -> tracks id (rows ++ [row]) a'.
Proof.
  intros [T1 T2 T3 T4] Hk Hl Hs Ht Hq Hp.
  assert (forall kind, latest kind (rows ++ [row]) = latest kind rows) as Hlat.
  { intros kind. rewrite latest_snoc. unfold runtime_kind. by rewrite bool_decide_eq_false_2. }
  split; rewrite ?Hlat, ?Hl, ?Ht, ?Hq, ?Hp; auto.
Qed.

(** What a runtime event does to the correlation. *)
Lemma observe_turn_Ok run ev before c db c' :
  observe_turn run ev before c db = Ok c' ->
  match ev_event ev with
  | RunStarted => c' = c
  | TurnStarted number => co_turn c = None /\ exists turn, ev_turn_id ev = Some turn /\ co_turn c' = Some (turn, number) /\
      co_request c' = None /\ co_provider_sequence c' = co_provider_sequence c
  | EProviderEvent p => exists o, co_turn c = Some o /\ ev_turn_id ev = Some (fst o) /\ co_turn c' = Some o /\
      co_request c' = ev_request_id ev /\ co_provider_sequence c' = Some (env_sequence p)
  | EToolEvent _ => exists o, co_turn c = Some o /\ ev_turn_id ev = Some (fst o) /\ co_turn c' = Some o /\
      co_request c' = ev_request_id ev /\ co_provider_sequence c' = co_provider_sequence c
  | TurnFinished _ _ _ _ => co_turn c' = None /\ co_request c' = ev_request_id ev /\ co_provider_sequence c' = co_provider_sequence c
  | RunFinished _ _ => c' = c /\ co_turn c = None /\ co_request c = ev_request_id ev
  end.
Proof.
  unfold observe_turn. destruct (ev_event ev) as [|num|pe|tool|num rid out up|o sm]; intros Ho; simpl in Ho.
  - by injection Ho as <-.
  - destruct (_ || _) eqn:Hor in Ho; [done|]. prop_bools. simp_checks. destruct (ev_turn_id ev) as [turn|]; [|done].
    injection Ho as <-. split; [done|]. by exists turn.
  - destruct (co_turn c) as [open|]; [|done]. simpl in Ho. destruct (_ || _) eqn:Hor in Ho; [done|]. prop_bools.
    destruct (_ || _) in Ho; [done|]. injection Ho as <-. by exists open.
  - destruct (co_turn c) as [open|]; [|done]. simpl in Ho. destruct (_ || _) eqn:Hor in Ho; [done|]. prop_bools.
    injection Ho as <-. by exists open.
  - destruct (co_turn c) as [open|]; [|done]. simpl in Ho. destruct (_ || _) eqn:Hor in Ho; [done|].
    destruct (negb _) in Ho; [done|]. by injection Ho as <-.
  - destruct (_ || _) eqn:Hor in Ho; [done|]. prop_bools. simp_checks. by injection Ho as <-.
Qed.

Lemma observe_accepted run ev before c db c' :
  observe_correlation run ev before c db = Ok c' ->
  rr_last_runtime_sequence run < ev_sequence ev /\
  exists c1, observe_turn run ev before c db = Ok c1 /\ co_turn c' = co_turn c1 /\ co_request c' = co_request c1 /\
    co_provider_sequence c' = co_provider_sequence c1.
Proof.
  unfold observe_correlation. destruct (negb _); [done|]. destruct (_ || _) eqn:Hor; [done|].
  destruct (match ev_event ev with RunStarted => _ | _ => _ end) as [[]|]; [|done].
  destruct (_ && _); [done|]. destruct (observe_turn _ _ _ _ _) as [c1|]; [|done]. intros [= <-]. prop_bools.
  split; [done|]. by exists c1.
Qed.

(** The identities of a decoded runtime event. *)
Lemma decoded_identities id row e ev :
  decode_event id row = Ok e -> st_payload e = RuntimeObserved ev -> identities_valid ev = true.
Proof.
  intros Hd Hp. apply decode_event_Ok in Hd as (_ & _ & _ & _ & Hf). rewrite Hp in Hf. simpl in Hf.
  destruct (validate_runtime ev) as [[]|] eqn:Hv; [|done]. unfold validate_runtime in Hv.
  destruct (_ || _) in Hv; [done|]. destruct (parse_id _); [|done]. destruct (_ || _) in Hv; [done|].
  by destruct (identities_valid ev).
Qed.

Lemma tracks_runtime id rows row a e ev db c :
  tracks id rows a -> decode_event id row = Ok e -> st_payload e = RuntimeObserved ev ->
  payload_to_json (st_payload e) = Some (row_payload_json row) ->
  audit_checks id a e c db -> tracks id (rows ++ [row]) (audit_advance a e c).
Proof using laws.
  intros [T1 T2 T3 T4] Hd Hp Hj Hc. pose proof (decoded_identities _ _ _ _ Hd Hp) as Hi.
  assert (row_event_type row = "runtime.observed") as Hk.
  { apply decode_event_Ok in Hd as (_ & _ & _ & Hpl & _). apply payload_kind in Hpl. by rewrite Hp in Hpl. }
  rewrite Hp in Hj. pose proof (runtime_type _ _ Hj) as Htag.
  unfold audit_checks in Hc. rewrite Hp in Hc. destruct Hc as (_ & _ & Ho & _).
  pose proof (observe_expected _ _ _ _ _ _ Ho) as Hst. simpl in Hst.
  apply observe_accepted in Ho as (Hlt & c1 & Hturn & C1 & C2 & C3). apply observe_turn_Ok in Hturn.
  assert (holds_event id row ev) as Hrow by by exists e.
  assert (forall k, latest (Some k) (rows ++ [row]) = if bool_decide (event_tag (ev_event ev) = k) then Some row else latest (Some k) rows) as Hlat.
  { intros k. rewrite latest_snoc. unfold runtime_kind. rewrite (bool_decide_eq_true_2 _ Hk). simpl. rewrite Htag.
    destruct (bool_decide_reflect (event_tag (ev_event ev) = k)) as [->|Hne]; [by rewrite bool_decide_eq_true_2|].
    rewrite bool_decide_eq_false_2; [done|]. by intros [= ?]. }
  assert (latest None (rows ++ [row]) = Some row) as Hnone.
  { rewrite latest_snoc. unfold runtime_kind. by rewrite (bool_decide_eq_true_2 _ Hk). }
  unfold audit_advance. rewrite Hp. unfold identities_valid in Hi.
  assert (forall o, co_turn (au_correlation a) = Some o -> exists start senv, latest (Some "turn_started") rows = Some start /\
    holds_event id start senv /\ ev_event senv = TurnStarted (snd o) /\ ev_turn_id senv = Some (fst o)) as Hopen.
  { intros o Hco. destruct (latest None rows) as [q|]; [|destruct T3 as (_ & Hct & _); congruence].
    destruct T3 as (env & _ & _ & _ & _ & Hbt). destruct (between_turns _); [congruence|].
    destruct Hbt as (start & senv & turn & number & L1 & L2 & L3 & L4 & _ & L5). rewrite Hco in L5. injection L5 as ->.
    by exists start, senv. }
  assert (rr_state (au_replay a) = RecordedRunState.Running -> rr_state (au_replay a) <> RecordedRunState.Accepted) as Hrun by congruence.
  destruct (ev_event ev) as [|num|pe|tool|num rid out up|o sm] eqn:Hev; simpl in Hlat; prop_bools;
    (split; simpl; [lia|try (by intros Hs; (discriminate Hs || destruct (Hrun Hst)))| |]); rewrite ?Hnone, ?Hlat; simpl;
    try (exists ev; split; [done|]; split; [lia|]; split; [done|]; rewrite Hev, C1, C2; simpl).
  - rewrite (T2 Hst) in T3. destruct T3 as (_ & Hct & Hcr). rewrite Hturn. split; [|done].
    rewrite Hcr. unfold is_none in *. simp_checks. congruence.
  - by rewrite C3, Hturn.
  - destruct Hturn as (_ & turn & X1 & X2 & X3 & X4). split; [unfold is_none in *; simp_checks; congruence|].
    exists row, ev, turn, num. by split_and!.
  - destruct Hturn as (_ & turn & X1 & X2 & X3 & X4). by rewrite C3, X4.
  - destruct Hturn as (open & X1 & X2 & X3 & X4 & X5). split; [done|]. destruct (Hopen _ X1) as (start & senv & S1 & S2 & S3 & S4).
    exists start, senv, (fst open), (snd open). split_and!; try done. rewrite X3. by destruct open.
  - destruct Hturn as (open & X1 & X2 & X3 & X4 & X5). exists ev, pe. rewrite C3. by split_and!.
  - destruct Hturn as (open & X1 & X2 & X3 & X4 & X5). split; [done|]. destruct (Hopen _ X1) as (start & senv & S1 & S2 & S3 & S4).
    exists start, senv, (fst open), (snd open). split_and!; try done. rewrite X3. by destruct open.
  - destruct Hturn as (open & X1 & X2 & X3 & X4 & X5). by rewrite C3, X5.
  - destruct Hturn as (X1 & X2 & X3). by split.
  - destruct Hturn as (X1 & X2 & X3). by rewrite C3, X3.
  - intros Hs. by destruct o.
  - destruct Hturn as (-> & X2 & X3). by split.
  - destruct Hturn as (X1 & X2 & X3). by rewrite C3, X1.
Qed.

Lemma tracks_rows id db rows0 rows a a' :
  (forall r, r ∈ rows -> exists e, decode_event id r = Ok e /\ payload_to_json (st_payload e) = Some (row_payload_json r)) ->
  tracks id rows0 a -> audit_rows id a rows db = Ok a' -> tracks id (rows0 ++ rows) a'.
Proof using laws.
  revert rows0 a. induction rows as [|row rows IH]; intros rows0 a Hcan Ht Ha; simpl in Ha.
  { injection Ha as <-. by rewrite app_nil_r. }
  destruct (Hcan row ltac:(left)) as (e & Hd & Hj). rewrite Hd in Ha.
  destruct (audit_event id a e db) as [b|] eqn:Hb; [|done]. apply audit_event_spec in Hb as (c & Hc & ->).
  replace (rows0 ++ row :: rows) with ((rows0 ++ [row]) ++ rows) by by rewrite <- app_assoc.
  eapply IH; [intros r Hr; apply Hcan; by right| |exact Ha].
  destruct (st_payload e) as [|title|acc|sel|binding|ev|payload|result|intr] eqn:Hp;
    [..|eapply tracks_runtime; try done; by rewrite Hp| | |];
    (eapply tracks_other; [exact Ht|pose proof (decode_event_Ok _ _ _ Hd) as (_ & _ & _ & Hk & _);
       apply payload_kind in Hk; rewrite Hp in Hk; by rewrite <- Hk|..]); unfold audit_advance; rewrite Hp; simpl; try done.
  - by destruct (active _).
  - destruct (active _) eqn:Hact; simpl; [by destruct (res_outcome result)|done].
Qed.

Lemma audited_tracks id run a db : ledger id db -> audited id run a db -> tracks id (run_rows run db) a.
Proof using laws.
  intros Hled Hau. change (run_rows run db) with ([] ++ run_rows run db). eapply tracks_rows; [| |apply Hau].
  - intros r [Hr _]%list_elem_of_In%filter_In. apply list_elem_of_In in Hr. by apply (ld_canonical _ _ Hled).
  - by split.
Qed.

(** Loading gives what the audit has. *)
Lemma load_correlation_audited id run r a db c :
  ledger id db -> audited id run a db -> unresulted r = au_replay a -> active (rr_state r) = true ->
  load_correlation id r db = Ok c -> c = au_correlation a.
Proof using laws.
  intros Hled Hau Hag Hact Hl. pose proof (audited_tracks _ _ _ _ Hled Hau) as [T1 _ T3 T4].
  pose proof (audited_session _ _ _ _ Hau) as Hs. unfold session_known in Hs.
  destruct (audited_after _ _ _ _ (ld_typed _ _ Hled) Hau) as [_ Hid]. rewrite <- Hag in *. simpl in *.
  specialize (Hs Hact). unfold load_correlation in Hl. rewrite !latest_runtime_rows, Hid in Hl.
  destruct (Z.eqb_spec (rr_last_runtime_sequence r) 0) as [Hz|Hz].
  - destruct (latest None _) as [row|] eqn:Hlat; [destruct T3 as (env & _ & Hpos & Hseq & _); lia|].
    assert (latest (Some "provider_event") (run_rows run db) = None) as Hnp.
    { unfold latest in *. apply last_None in Hlat. apply last_None. rewrite <- Hlat.
      replace (List.filter (runtime_kind (Some "provider_event")) (run_rows run db)) with
        (List.filter (runtime_kind (Some "provider_event")) (List.filter (runtime_kind None) (run_rows run db))).
      - by rewrite Hlat.
      - rewrite filter_both. apply List.filter_ext. intros q. unfold runtime_kind. simpl. by destruct (bool_decide _). }
    rewrite Hnp in T4. destruct T3 as (_ & X1 & X2). injection Hl as <-. destruct (au_correlation a); simpl in *. congruence.
  - destruct (latest None _) as [row|] eqn:Hlat; [|by destruct T3].
    destruct T3 as (env & (e & Hd & Hp) & Hpos & Hseq & Hreq & Hturn). rewrite Hd, Hp in Hl. cbn [ok_or] in Hl.
    destruct (expect _) as [[]|]; [|done].
    assert (exists turn, (if between_turns (ev_event env) then Ok None else
      let? started := match latest (Some "turn_started") (run_rows run db) with
        | None => Ok None
        | Some row => let? stored := decode_event id row in
            match st_payload stored with RuntimeObserved event => Ok (Some event) | _ => Err integrity end end in
      let? started := ok_or started integrity in
      match ev_event started with
      | TurnStarted number =>
          check? expect (bool_decide (ev_turn_id env = ev_turn_id started)) in
          let? turn := ok_or (ev_turn_id started) integrity in Ok (Some (turn, number))
      | _ => Err integrity
      end) = Ok turn /\ turn = co_turn (au_correlation a)) as (turn & Hres & ->).
    { destruct (between_turns _); [by exists None|].
      destruct Hturn as (start & senv & t & number & -> & (e2 & Hd2 & Hp2) & Hev & Ht1 & Ht2 & ->).
      exists (Some (t, number)). rewrite Hd2, Hp2. cbn [ok_or]. rewrite Hev, Ht1, Ht2, bool_decide_eq_true_2 by done. done. }
    rewrite Hres in Hl. destruct (latest (Some "provider_event") _) as [q|].
    + destruct T4 as (env3 & p & (e3 & Hd3 & Hp3) & Hev3 & Hps). rewrite Hd3, Hp3 in Hl. cbn [ok_or] in Hl. rewrite Hev3 in Hl.
      injection Hl as <-. destruct (au_correlation a); simpl in *. congruence.
    + injection Hl as <-. destruct (au_correlation a); simpl in *. congruence.
Qed.
End tracks.
