(* ===== verification/AuditSessions.v ===== *)
(** * Every session passes its audit

    Interruption keeps every run accepted too, a session just created has no run to
    refuse, and so the audit accepts whatever any sequence of attempts has written. *)
From S2P Require Import Prelude Json Errors Identifiers Provider Tools Replay RunData Hoare Records Store History Session RunStore StoreSafety StoreCommands StoreGuarantees StoreContents RunAudit AuditWrites AuditKeeps.

(** * Whole commands keep every run accepted

    Batches of records, acceptance, rename and interruption, and so any sequence of
    attempts at them on a session the store has created. *)

Section commands.
Context {D : Type} `{Display D} `{UuidLib} `{StorageSerde} {laws : StorageSerdeLaws}.
Implicit Types db : Db D.

(** The runs other than [run] that were accepted still are. *)
Definition others (id run : string) db db' : Prop :=
  forall k a, k <> run -> audited id k a db -> audited id k a db'.

(** The ledger after one more row. *)
Lemma ledger_snoc id db db' row e :
  ledger id db -> typed db' -> events db' = events db ++ [row] -> row_sequence row = size db + 1 -> size db + 1 <= i64_max ->
  decode_event id row = Ok e -> payload_to_json (st_payload e) = Some (row_payload_json row) ->
  (forall k, row_run_id row = Some k -> is_some (runs db' !! k) = true) ->
  (forall k, is_some (runs db !! k) = true -> is_some (runs db' !! k) = true) ->
  (forall c, c ∈ commands db' -> cmd_last_sequence c <= size db + 1) -> ledger id db'.
Proof.
  intros Hled Hty He Hr Hmax Hd Hj Hrun Hruns Hcm. destruct (log_ok_snoc _ _ _ (ld_log _ _ Hled) He Hr) as [Hl Hsz].
  split; try done.
  - lia.
  - intros q Hq. rewrite He in Hq. apply elem_of_app in Hq as [Hq|Hq]; [by apply (ld_canonical _ _ Hled)|].
    apply list_elem_of_singleton in Hq as ->. by exists e.
  - intros q k Hq Hk. rewrite He in Hq. apply elem_of_app in Hq as [Hq|Hq].
    + apply Hruns. by eapply (ld_logged _ _ Hled).
    + apply list_elem_of_singleton in Hq as ->. by apply Hrun.
  - intros c Hc. rewrite Hsz. by apply Hcm.
Qed.

(** ** Batches *)

(** What a command holds of its run while it appends. *)
Record in_step (id : string) (r : RecordedRun) (c : Correlation) (unbound : bool) (a : Audit) : Prop := {
  is_run : unresulted r = au_replay a;
  is_correlated : active (rr_state r) = true -> c = au_correlation a;
  is_unbound : unbound = unbound_audit a
}.

(** What appending leaves untouched. *)
Record appends (db db' : Db D) : Prop := {
  an_events : exists rows, events db' = events db ++ rows /\ Forall (fun q => row_event_type q <> "run.history.selected") rows;
  an_commands : commands db' = commands db;
  an_manifest : manifest db' = manifest db;
  an_runs k : is_some (runs db' !! k) = is_some (runs db !! k)
}.

Lemma appends_trans db1 db2 db3 : appends db1 db2 -> appends db2 db3 -> appends db1 db3.
Proof.
  intros [(r1 & E1 & F1) C1 M1 R1] [(r2 & E2 & F2) C2 M2 R2]. split; try congruence.
  exists (r1 ++ r2). split; [by rewrite E2, E1, app_assoc|]. by apply Forall_app.
Qed.

Lemma appended_others id r n record row json erow r1 fin r' db db' :
  appended id r n record row json erow r1 fin r' db db' -> row_run_id erow = Some (rr_run_id r) -> log_ok db -> log_ok db' ->
  typed db -> typed db' -> others id (rr_run_id r) db db'.
Proof.
  intros Hap Hr Hl Hl' Hty Hty' k a Hk. apply (audited_beside (size db) _ _ _ _ _ [erow]); try done.
  - apply Hap.
  - apply registers_refl; apply Hap.
  - by apply selected_by_size.
  - constructor; [|done]. rewrite Hr. congruence.
  - rewrite (ap_runs _ _ _ _ _ _ _ _ _ _ _ _ Hap). by rewrite lookup_insert_ne.
  - intros call. destruct (ap_effect _ _ _ _ _ _ _ _ _ _ _ _ Hap); try done; simpl; rewrite lookup_insert_ne; try done; congruence.
Qed.

Lemma append_audited clock id run n ts record db r r' db' c0 c unbound a :
  clock_ok clock -> 0 <= ts -> parse_id run = Ok run -> validate_record record = Ok tt ->
  n = size db + 1 -> 1 < n <= i64_max -> ledger id db -> audited id run a db -> in_step id r c0 unbound a ->
  (unbound = true -> validate_unbound record = Ok tt) ->
  (match record with RRuntime ev => observe_correlation r ev n c0 db = Ok c | _ => c = c0 end) ->
  append clock id r n ts record db = (Ok r', db') ->
  let c' := match record with RProviderBinding b => with_session (Some (pb_provider_session_id b)) c | _ => c end in
  let unbound' := match record with RProviderBinding _ => false | _ => unbound end in
  exists a', ledger id db' /\ audited id run a' db' /\ in_step id r' c' unbound' a' /\ others id run db db' /\ appends db db' /\
    size db' = n.
Proof using laws.
  intros Hclock Hts Hid Hv Hn Hmax Hled Hau [Hr Hc Hu] Hub Hobs Ha c' unbound'.
  assert (rr_run_id r = run) as Hrun.
  { destruct (audited_after _ _ _ _ (ld_typed _ _ Hled) Hau) as [_ <-]. by rewrite <- Hr. }
  destruct (au_record _ _ _ _ Hau) as (p & Hp & _). apply run_record_fits in Hp as (row & Hf); [|apply Hled].
  pose proof (rf_row _ _ _ _ _ Hf) as Hrow. rewrite <- Hrun in Hrow, Hau, Hid.
  destruct (append_appended clock id r n ts record row db r' db') as (json & r1 & fin & Hap); try done; [|lia|apply Hled|].
  { split; [apply Hled | done]. }
  assert (record_run (rr_run_id r) record) as Hrr.
  { destruct record as [b|ev|q call output err|res]; simpl; try done.
    - destruct (ap_binding _ _ _ _ _ _ _ _ _ _ _ _ Hap b eq_refl) as [_ Hvb]. by apply validate_binding_row in Hvb as (? & _).
    - by eapply observe_run.
    - by eapply (ap_result _ _ _ _ _ _ _ _ _ _ _ _ Hap). }
  pose proof (ap_json _ _ _ _ _ _ _ _ _ _ _ _ Hap) as Hj.
  destruct (record_row_decodes clock id n ts (rr_run_id r) record json) as (e & He & Hpay & Hre & Hse); try done.
  assert (forall ev, record = RRuntime ev -> observe_correlation r ev n c0 db = Ok c) as Hobs' by (intros ev ->; done).
  assert (unbound_audit a = true -> validate_unbound record = Ok tt) as Hub' by (rewrite <- Hu; done).
  destruct (step_audited id r n record row json _ r1 fin r' db db' a e Hled Hn (proj2 Hmax) Hau Hr Hrow Hap He Hpay Hre Hse eq_refl Hv
    c0 c Hobs' Hc Hub') as [Hau' Hr'].
  pose proof (step_typed id r n record row json _ r1 fin r' db db' a e Hled Hn (proj2 Hmax) Hau Hr Hrow Hap He Hpay Hre Hse eq_refl Hv) as Hty.
  pose proof (ap_events _ _ _ _ _ _ _ _ _ _ _ _ Hap) as Hev.
  destruct (log_ok_snoc _ _ _ (ld_log _ _ Hled) Hev) as [Hl' Hsz]; [simpl; lia|].
  assert (forall k, is_some (runs db' !! k) = is_some (runs db !! k)) as Hruns.
  { intros k. rewrite (ap_runs _ _ _ _ _ _ _ _ _ _ _ _ Hap). destruct (decide (k = rr_run_id r)) as [->|Hk].
    - by rewrite lookup_insert_eq, Hrow.
    - by rewrite lookup_insert_ne. }
  exists (audit_advance a e c). rewrite <- Hrun. split_and!; try done.
  - eapply (ledger_snoc id db db' _ e); try done; simpl; try lia.
    + by rewrite Hpay.
    + intros k [= <-]. by rewrite Hruns, Hrow.
    + intros k. by rewrite Hruns.
    + intros x. rewrite (ap_commands _ _ _ _ _ _ _ _ _ _ _ _ Hap). intros Hx. pose proof (ld_commands _ _ Hled x Hx). lia.
  - split; try done.
    + intros Hact. unfold audit_advance, c'. rewrite Hpay.
      destruct record as [b|ev|q call output err|res]; simpl; try done.
      * rewrite Hobs, Hc; [done|]. destruct (ap_binding _ _ _ _ _ _ _ _ _ _ _ _ Hap b eq_refl) as [-> _]. done.
      * rewrite Hobs, Hc; [done|]. pose proof (ap_effect _ _ _ _ _ _ _ _ _ _ _ _ Hap) as Heff.
        inversion Heff as [| | | | | | |q0 cl out er t X1| |]. subst. by rewrite X1.
      * exfalso. assert (rr_state r' = rr_state (au_replay (audit_advance a e c))) as Hs by (by rewrite <- Hr').
        rewrite Hs in Hact. unfold audit_advance in Hact. rewrite Hpay in Hact. simpl in Hact.
        destruct (active (rr_state (au_replay a))) eqn:Hact'; simpl in Hact; [by destruct (res_outcome res) | congruence].
    + unfold unbound', unbound_audit, audit_advance. rewrite Hpay, Hu. destruct record; simpl; try done. by rewrite andb_false_r.
  - eapply appended_others; try done; apply Hled.
  - split; try apply Hap; [|done]. eexists. split; [exact Hev|]. constructor; [|done]. simpl. by destruct record.
  - lia.
Qed.

Lemma append_all_audited clock id run ts records :
  clock_ok clock -> 0 <= ts -> parse_id run = Ok run -> Forall (fun r => validate_record r = Ok tt) records ->
  forall n r c unbound a db x db', n = size db + 1 -> 1 < n -> n + Z.of_nat (length records) - 1 <= i64_max ->
  ledger id db -> audited id run a db -> in_step id r c unbound a ->
  append_all clock id ts r c unbound n records db = (Ok x, db') ->
  exists a', ledger id db' /\ audited id run a' db' /\ others id run db db' /\ appends db db' /\
    size db' = size db + Z.of_nat (length records).
Proof using laws.
  intros Hclock Hts Hid Hall. induction Hall as [|record records Hv _ IH]; intros n r c unbound a db x db' Hn Hn1 Hmax Hled Hau Hin Ha.
  { injection Ha as _ <-. exists a. split; [done|]. split; [done|]. split; [by intros k|]. split; [|simpl; lia].
    split; try done. exists []. by rewrite app_nil_r. }
  simpl in Ha, Hmax. unbind Ha. injection Hc as Hub <-.
  assert (unbound = true -> validate_unbound record = Ok tt) as Hub' by (intros Hu; rewrite Hu in Hub; by destruct a0).
  unbind Ha.
  assert (s = db /\ match record with RRuntime ev => observe_correlation r ev n c db = Ok a1 | _ => a1 = c end) as [-> Hobs].
  { destruct record; injection Hc as Hobs <-; done. }
  unbind Ha.
  destruct (append_audited clock id run n ts record db r a2 s c a1 unbound a) as (a' & Hled' & Hau' & Hin' & Hoth & Han & Hsz); try done; [lia|].
  match type of Ha with ?f s = _ => assert (exists c' u', in_step id a2 c' u' a' /\
    append_all clock id ts a2 c' u' (n + 1) records s = (Ok x, db')) as (c' & u' & Hin2 & Ha2) end.
  { destruct record; by eexists _, _. }
  destruct (IH (n + 1) a2 c' u' a' s x db') as (a'' & Hled'' & Hau'' & Hoth' & Han' & Hsz'); try done; try lia.
  exists a''. split_and!; try done.
  - intros k ak Hk Hka. apply Hoth'; [done|]. by apply Hoth.
  - by eapply appends_trans.
  - simpl. lia.
Qed.

(** ** The end of a command *)

(** The tables but for the manifest, the commands and the display are the same. *)
Definition same_tables db db' : Prop :=
  events db' = events db /\ runs db' = runs db /\ tool_results db' = tool_results db.

Lemma same_ledger id db db' :
  same_tables db db' -> (forall c, c ∈ commands db' -> cmd_last_sequence c <= size db) -> ledger id db -> ledger id db'.
Proof.
  intros (He & Hr & Ht) Hc [L1 L2 L3 L4 L5 L6]. unfold log_ok, size, typed in *. split; unfold log_ok, size, typed in *; rewrite ?He, ?Hr, ?Ht; try done.
Qed.

Lemma same_audited b id k a db db' :
  same_tables db db' -> ledger id db -> registers b db db' -> selected_by b k db -> audited id k a db -> audited id k a db'.
Proof.
  intros (He & Hr & Ht) Hled Hreg Hsb. apply (audited_beside b _ _ _ _ _ []); try done.
  - unfold log_ok. rewrite He. apply Hled.
  - apply Hled.
  - unfold typed. rewrite Hr, Ht. apply Hled.
  - by rewrite app_nil_r.
  - by rewrite Hr.
  - intros call. by rewrite Ht.
Qed.

(** The last statements of a command that appended the events [first] to [last]. *)
Lemma command_end db1 m f c x db2 y db3 :
  manifest db1 = Some m -> mf_head_sequence m <= mf_head_sequence (f m) ->
  update_manifest f db1 = (Ok x, db2) -> insert_command c db2 = (Ok y, db3) ->
  same_tables db1 db3 /\ (forall b, b < cmd_first_sequence c -> registers b db1 db3) /\ commands db3 = commands db1 ++ [c].
Proof.
  intros Hm Hle Hu Hi. apply (update_manifest_Ok _ _ m) in Hu as ->; [|done]. apply insert_command_Ok in Hi as [-> _].
  split; [done|]. split; [|done]. intros b Hb. split.
  - exists [c]. split; [done|]. by constructor.
  - intros m' Hm'. rewrite Hm in Hm'. injection Hm' as <-. by exists (f m).
Qed.

(** Everything the audit needs of a session. *)
Record auditable (id : string) db : Prop := {
  ab_sound : sound db;
  ab_ledger : ledger id db;
  ab_runs k : is_some (runs db !! k) = true -> exists a, audited id k a db
}.

Lemma selected_by_appends k db db' : log_ok db -> appends db db' -> selected_by (size db) k db'.
Proof.
  intros Hl [(rows & He & Hf) _ _ _] q Hq Hk Hty. rewrite He in Hq. apply elem_of_app in Hq as [Hq|Hq].
  - by eapply selected_by_size.
  - rewrite Forall_forall in Hf. by destruct (Hf q Hq).
Qed.

(** The part of a novel append before its last statements. *)
Lemma append_part_audited clock id run ts first records db x db1 :
  auditable id db -> clock_ok clock -> 0 <= ts -> parse_id run = Ok run -> Forall (fun r => validate_record r = Ok tt) records ->
  first = size db + 1 -> 1 < first -> first + Z.of_nat (length records) - 1 <= i64_max ->
  (let! r := reads (run_record id run) in
   let! r := lift (ok_or r transition) in
   let! c := reads (load_correlation id r) in
   let! selected := reads (history_selection id run) in
   let! unbound := (if is_some selected
                    then let! b := reads (provider_binding id run) in ret (is_none b)
                    else ret false) in
   append_all clock id ts r c unbound first records) db = (Ok x, db1) ->
  ledger id db1 /\ appends db db1 /\ size db1 = size db + Z.of_nat (length records) /\
  forall k, is_some (runs db !! k) = true -> exists a, audited id k a db1.
Proof using laws.
  intros [Hs Hled Hruns] Hclock Hts Hid Hall Hfirst Hone Hmax Hb.
  unbind Hb. injection Hc as Hr <-. unbind Hb. injection Hc as Hsome <-. apply ok_or_Ok in Hsome as ->.
  unbind Hb. injection Hc as Hload <-. unbind Hb. injection Hc as Hsel <-. unbind Hb.
  destruct (runs db !! run) as [row|] eqn:Hrow; [|unfold run_record in Hr; by rewrite Hrow in Hr].
  destruct (Hruns run ltac:(by rewrite Hrow)) as [au Hau].
  assert (unresulted a0 = au_replay au) as Hag.
  { destruct (au_record _ _ _ _ Hau) as (p & Hp & Heq). congruence. }
  assert (s = db /\ a2 = unbound_audit au) as [-> Hu].
  { destruct (audited_flags _ _ _ _ (ld_typed _ _ Hled) Hau) as [F1 F2]. unfold unbound_audit.
    destruct a1 as [sel|]; simpl in Hc.
    - unbind Hc. injection Hc as <- <-. injection Hc0 as Hbind <-. split; [done|].
      rewrite (proj2 F1) by eauto. simpl. unfold is_none. f_equal. destruct a1 as [b|]; simpl.
      + symmetry. apply F2. eauto.
      + destruct (au_binding_seen au); [|done]. destruct (proj1 F2 eq_refl) as [b Hb']. congruence.
    - injection Hc as <- <-. split; [done|]. destruct (au_selection_seen au); [|done]. destruct (proj1 F1 eq_refl) as [b Hb']. congruence. }
  destruct (append_all_audited clock id run ts records Hclock Hts Hid Hall first a0 a a2 au db x db1) as (a' & Hled' & Hau' & Hoth & Han & Hsz);
    try done.
  { split; [done| |done]. intros Hact. by eapply load_correlation_audited. }
  split_and!; try done. intros k Hk. destruct (decide (k = run)) as [->|Hne]; [by exists a'|].
  destruct (Hruns k Hk) as [ak Hak]. exists ak. by apply Hoth.
Qed.

(** ** Acceptance *)

(** A row that was not observed from a run. *)
Definition plain_row (clock : Clock) (n ts : Z) (run : string) (p : StoredEventPayload) (json : string) : EventRow :=
  {| row_sequence := n; row_event_id := fresh_event_id clock n; row_event_type := event_type p; row_event_version := 1;
     row_created_at_ms := ts; row_run_id := Some run; row_source_event_id := None; row_source_sequence := None;
     row_payload_json := json |}.

Lemma plain_row_decodes clock id n ts run p json :
  clock_ok clock -> 0 <= ts -> 1 < n <= i64_max -> parse_id run = Ok run -> payload_to_json p = Some json ->
  (forall event_id, payload_fits id n event_id ts (Some run) p = Ok tt) -> source_fits p None None = true ->
  event_type p <> "session.created" ->
  exists e, decode_event id (plain_row clock n ts run p json) = Ok e /\ st_payload e = p /\ st_run_id e = Some run /\ st_sequence e = n.
Proof using laws.
  intros [_ Hids] Hts Hn Hp Hj Hf Hs Hne.
  destruct (row_shows id (Some run) n (fresh_event_id clock n) ts p json None Hn Hts (Hids n) ltac:(by intros ? [= <-]) Hj (Hf _) Hs Hne)
    as (e & Hd & Hpay & Hrun).
  exists e. split_and!; try done. by apply decode_event_sequence in Hd.
Qed.

Definition acceptance (owner run : string) (input : RecordedRunInput) : StoredEventPayload :=
  RunAccepted {| ac_run_id := run; ac_input := input; ac_owner_instance_id := owner |}.
Definition selecting (run : string) (s : StoredHistorySelection) : StoredEventPayload :=
  RunHistorySelected {| sel_run_id := run; sel_selection := s |}.
Definition accepted_row (owner : string) (n : Z) : RunRow :=
  {| run_accepted_sequence := n; run_state := "accepted"; run_last_runtime_sequence := 0; run_owner_instance_id := owner;
     run_provider_session_id := None; run_terminal_sequence := None; run_terminal_json := None; run_result_sequence := None |}.

(** The rows an acceptance inserts. *)
Definition accept_rows (clock : Clock) (owner run : string) (first ts : Z) (input : RecordedRunInput)
    (selection : option StoredHistorySelection) (rows : list EventRow) : Prop :=
  exists json, payload_to_json (acceptance owner run input) = Some json /\
    match selection with
    | None => rows = [plain_row clock first ts run (acceptance owner run input) json]
    | Some s => exists json', payload_to_json (selecting run s) = Some json' /\
        rows = [plain_row clock first ts run (acceptance owner run input) json; plain_row clock (first + 1) ts run (selecting run s) json']
    end.

Lemma accept_tables clock owner run first last ts input selection db x db' :
  next first db -> (forall s, selection = Some s -> last = first + 1) ->
  accept clock owner run first last ts input selection db = (Ok x, db') ->
  runs db !! run = None /\ commands db' = commands db /\ manifest db' = manifest db /\ tool_results db' = tool_results db /\
  runs db' = <[run := accepted_row owner first]> (runs db) /\
  exists rows, accept_rows clock owner run first ts input selection rows /\ events db' = events db ++ rows.
Proof.
  intros Hn Hlast Ha. unfold accept in Ha. unbind Ha. injection Hc as Hnone <-. unbind Ha. injection Hc as _ <-.
  assert (runs db !! run = None) as Hrun by (by destruct (runs db !! run)).
  unbind Ha. injection Hc as Hj <-. apply ok_or_Ok in Hj. unbind Ha. unfold insert_event in Hc. apply insert_event_row_Ok in Hc as [_ ->].
  destruct (next_insert db (plain_row clock first ts run (acceptance owner run input) a1) first Hn eq_refl) as [Hins Hn1].
  change (insert_row _ (events db)) with (insert_row (plain_row clock first ts run (acceptance owner run input) a1) (events db)) in Ha.
  rewrite Hins in Ha, Hn1.
  unbind Ha. unfold insert_run in Hc. unbind Hc. apply require_constraint_Ok in Hc0 as [_ ->]. injection Hc as _ <-.
  unbind Ha. apply apply_same in Hc as (E1 & C1 & R1 & T1 & M1). simpl in *.
  destruct selection as [sel|].
  - unbind Ha. injection Hc as Hj2 <-. apply ok_or_Ok in Hj2. unbind Ha. unfold insert_event in Hc. apply insert_event_row_Ok in Hc as [_ ->].
    rewrite (Hlast sel eq_refl) in Ha. apply apply_same in Ha as (E2 & C2 & R2 & T2 & M2). simpl in *.
    assert (next (first + 1) s) as Hn2 by (eapply next_same; [|exact Hn1]; done).
    destruct (next_insert s (plain_row clock (first + 1) ts run (selecting run sel) a6) (first + 1) Hn2 eq_refl) as [Hins2 _].
    change (insert_row _ (events s)) with (insert_row (plain_row clock (first + 1) ts run (selecting run sel) a6) (events s)) in E2.
    rewrite Hins2, E1, <- app_assoc in E2. split_and!; try congruence; [by rewrite R2, R1|].
    eexists. split; [|exact E2]. exists a1. split; [done|]. by exists a6.
  - injection Ha as _ <-. split_and!; try congruence; [by rewrite R1|]. eexists. split; [|exact E1]. by exists a1.
Qed.

Lemma read_event_nth id db i row e :
  log_ok db -> events db !! i = Some row -> Z.of_nat i + 1 <= i64_max -> decode_event id row = Ok e ->
  read_event id (Z.of_nat i + 1) db = Ok e.
Proof.
  intros Hl Hi Hn Hd. unfold read_event, i64_try_from.
  rewrite (proj2 (in_i64_spec (Z.of_nat i + 1))) by (unfold i64_min, i64_max in *; lia). cbn [ok_or].
  by rewrite (log_find db i row Hl Hi).
Qed.

(** A run that was just accepted. *)
Definition new_run (owner run : string) (n : Z) (input : RecordedRunInput) : RecordedRun :=
  {| rr_run_id := run; rr_accepted_sequence := n; rr_input := input; rr_state := RecordedRunState.Accepted;
     rr_last_runtime_sequence := 0; rr_owner_instance_id := owner; rr_provider_session_id := None; rr_terminal := None;
     rr_result_sequence := None; rr_result := None |}.

Section acceptance.
Context (clock : Clock) (id owner run : string) (first ts : Z) (input : RecordedRunInput)
  (selection : option StoredHistorySelection) (rows : list EventRow) (db db' : Db D).
Context (Hab : auditable id db) (Hclock : clock_ok clock) (Hts : 0 <= ts) (Hid : parse_id run = Ok run)
  (Hfirst : first = size db + 1) (Hone : 1 < first) (Hmax : first + Z.of_nat (length rows) - 1 <= i64_max)
  (Hnew : runs db !! run = None) (Hrows : accept_rows clock owner run first ts input selection rows)
  (Hev : events db' = events db ++ rows) (Hruns : runs db' = <[run := accepted_row owner first]> (runs db))
  (Htools : tool_results db' = tool_results db) (Hlog : log_ok db')
  (Hthrough : forall s, selection = Some s -> hs_through_sequence s = first - 1).
#[local] Set Default Proof Using "All".

Lemma acceptance_typed : typed db'.
Proof.
  destruct (ld_typed _ _ (ab_ledger _ _ Hab)) as [T1 T2]. split; [|by rewrite Htools].
  intros k q Hq. rewrite Hruns in Hq. apply lookup_insert_Some in Hq as [[_ <-]|[_ Hq]]; [|by eapply T1].
  assert (first <= i64_max).
  { destruct Hrows as (json & _ & Hr). destruct selection; [destruct Hr as (j & _ & Hr)|]; rewrite Hr in Hmax; simpl in Hmax; lia. }
  split_and!; simpl; try done.
Qed.

Lemma acceptance_fresh q : q ∈ events db -> row_run_id q <> Some run.
Proof.
  intros Hq Hr. pose proof (ld_logged _ _ (ab_ledger _ _ Hab) q run Hq Hr) as Hs. by rewrite Hnew in Hs.
Qed.

(** The rows, decoded. *)
Lemma acceptance_rows :
  exists arow ae rest, rows = arow :: rest /\ decode_event id arow = Ok ae /\ st_payload ae = acceptance owner run input /\
    payload_to_json (st_payload ae) = Some (row_payload_json arow) /\
    st_run_id ae = Some run /\ st_sequence ae = first /\ row_run_id arow = Some run /\ row_event_type arow = "run.accepted" /\
    match selection with
    | None => rest = []
    | Some s => exists srow se, rest = [srow] /\ decode_event id srow = Ok se /\ st_payload se = selecting run s /\
        payload_to_json (st_payload se) = Some (row_payload_json srow) /\
        st_run_id se = Some run /\ st_sequence se = first + 1 /\ row_run_id srow = Some run /\
        row_event_type srow = "run.history.selected"
    end.
Proof.
  destruct Hrows as (json & Hj & Hr).
  assert (first <= i64_max /\ (is_some selection = true -> first + 1 <= i64_max)) as [Hm1 Hm2].
  { destruct selection; [destruct Hr as (j & _ & Hr)|]; rewrite Hr in Hmax; simpl in Hmax; split; intros; simpl in *; try done; lia. }
  destruct (plain_row_decodes clock id first ts run (acceptance owner run input) json Hclock Hts ltac:(lia) Hid Hj)
    as (ae & Hd & Hp & Hra & Hsa); [intros ?; simpl; by rewrite bool_decide_eq_true_2|done|done|].
  exists (plain_row clock first ts run (acceptance owner run input) json), ae.
  remember selection as sel eqn:Hsel in Hr, Hm2 |- *. destruct sel as [s|].
  - destruct Hr as (json' & Hj' & Hr). exists [plain_row clock (first + 1) ts run (selecting run s) json'].
    split_and!; try done; [by rewrite Hp|].
    destruct (plain_row_decodes clock id (first + 1) ts run (selecting run s) json' Hclock Hts ltac:(split; [lia|by apply Hm2]) Hid Hj')
      as (se & Hds & Hps & Hrs & Hss); [|done|done|].
    + intros ?. simpl. specialize (Hm2 eq_refl). rewrite (Hthrough s) by done.
      rewrite (proj2 (checked_add_u64_Some (first - 1) 2 (first + 1))) by (unfold u64_max, i64_max in *; lia).
      by rewrite !bool_decide_eq_true_2.
    + eexists _, se. split_and!; try done. by rewrite Hps.
  - exists []. split_and!; try done. by rewrite Hp.
Qed.

Lemma acceptance_record : run_record id run db' = Ok (Some (new_run owner run first input)).
Proof.
  destruct acceptance_rows as (arow & ae & rest & Hr & Hd & Hp & _ & Hra & Hsa & _).
  apply fits_run_record with (accepted_row owner first); [apply acceptance_typed|].
  split; simpl; try done; [by rewrite Hruns, lookup_insert_eq|lia|..].
  exists ae. split; [|done]. rewrite Hfirst. unfold size. eapply read_event_nth; [done| | |exact Hd].
  - rewrite Hev, Hr, lookup_app_r by lia. by rewrite Nat.sub_diag.
  - rewrite Hr in Hmax. simpl in Hmax. unfold size in *. lia.
Qed.

(** The new run is accepted, given that its selection can be read back. *)
Lemma acceptance_audited :
  (forall s, selection = Some s -> history_selection id run db' = Ok (Some s)) -> exists a, audited id run a db'.
Proof.
  intros Hsel. destruct acceptance_rows as (arow & ae & rest & Hr & Hd & Hp & _ & Hra & Hsa & Har & _ & Hrest).
  pose proof acceptance_record as Hrec. pose proof (decode_event_Ok _ _ _ Hd) as (Hb & Hsq & _).
  assert (run_rows run db' = rows) as Hrr.
  { rewrite (run_rows_app _ _ _ _ Hev). unfold run_rows.
    rewrite (filter_nothing (of_run run) (events db)), filter_all; [done| |].
    - apply Forall_forall. intros q Hq. rewrite Hr in Hq. apply bool_decide_eq_true. apply elem_of_cons in Hq as [->|Hq]; [done|].
      destruct selection; [|rewrite Hrest in Hq; by apply not_elem_of_nil in Hq].
      destruct Hrest as (srow & se & Hre & _ & _ & _ & _ & _ & Hs & _). rewrite Hre in Hq. by apply list_elem_of_singleton in Hq as ->.
    - apply Forall_forall. intros q Hq. apply bool_decide_eq_false. by apply acceptance_fresh. }
  set (a1 := mkAudit (new_run owner run first input) false false default_correlation first).
  assert (forall l, audit_rows id (audit_start (new_run owner run first input)) (arow :: l) db' = audit_rows id a1 l db') as Hstep.
  { intros l. simpl. rewrite Hd.
    rewrite (audit_event_intro id _ ae default_correlation db'); [|unfold audit_checks; by rewrite Hp].
    unfold audit_advance. rewrite Hp. simpl. rewrite Hsa, as_i64_small by lia. done. }
  assert (forall call t, tool_results db' !! (run, call) = Some t -> tool_fits id run call t db') as Hfit.
  { intros call t Ht. rewrite Htools in Ht. pose proof (sound_tools _ (ab_sound _ _ Hab) _ _ _ Ht) as Hs. by rewrite Hnew in Hs. }
  remember selection as sel eqn:Hs in Hrest. destruct sel as [s|].
  - destruct Hrest as (srow & se & Hre & Hds & Hps & _ & Hrs & Hss & _).
    exists (mkAudit (new_run owner run first input) true false default_correlation (first + 1)).
    assert (first + 1 <= i64_max) by (rewrite Hr, Hre in Hmax; simpl in Hmax; lia).
    split; simpl; [by eexists| |done]. rewrite Hrr, Hr, Hstep, Hre. simpl. rewrite Hds.
    rewrite (audit_event_intro id a1 se default_correlation db').
    + unfold audit_advance. rewrite Hps. simpl. rewrite Hss, as_i64_small by lia. done.
    + unfold audit_checks. rewrite Hps. simpl. split; [lia|]. split; [done|].
      split; [apply as_u64_small; unfold u64_max, i64_max in *; lia|]. exists s. by apply Hsel.
  - exists a1. split; simpl; [by eexists| |done]. rewrite Hrr, Hr, Hstep, Hrest. done.
Qed.

(** The selection of an accepted history can be read back. *)
Lemma acceptance_selected s operation hash receipt :
  selection = Some s -> parse_id operation = Ok operation -> selection_matches s input = true ->
  command_hash id run (AcceptHistory input s) = Ok hash ->
  performed id operation (method (AcceptHistory input s)) hash (Some run) db 2 receipt db' ->
  history_selection id run db' = Ok (Some s).
Proof.
  intros Hs Hop Hmatch Hhash Hperf. destruct acceptance_rows as (arow & ae & rest & Hr & Hd & Hp & _ & Hra & Hsa & Har & Hak & Hrest).
  rewrite Hs in Hrest. destruct Hrest as (srow & se & Hre & Hds & Hps & _ & Hrs & Hss & Hsr & Hsk).
  assert (metadata_event id run "run.history.selected" db' = Ok (Some se)) as Hm.
  { unfold metadata_event. rewrite Hev, List.filter_app, (filter_nothing _ (events db)).
    - rewrite Hr, Hre. simpl. rewrite Hak, Hsk, (bool_decide_eq_true_2 _ Har), (bool_decide_eq_true_2 _ Hsr). simpl. by rewrite Hds.
    - apply Forall_forall. intros q Hq. rewrite bool_decide_eq_false_2; [done|]. by apply acceptance_fresh. }
  assert (size db' = first + 1) as Hsz.
  { unfold size in *. rewrite Hev, length_app, Hr, Hre. simpl. lia. }
  pose proof (performed_found _ _ _ _ _ _ _ _ _ db' Hperf (reflexivity db')) as Hfound.
  destruct (pf_command _ _ _ _ _ _ _ _ _ Hperf) as (json & _ & Hcmd).
  unfold history_selection. rewrite Hm, Hps. simpl. rewrite acceptance_record. cbn [ok_or]. simpl.
  rewrite Hss, (Hthrough s Hs), Hmatch, !Z.eqb_refl. cbn [andb expect].
  rewrite Hcmd, List.filter_app, (filter_nothing _ (commands db)).
  - simpl. rewrite (proj2 (Z.leb_le _ _)) by lia. rewrite (proj2 (Z.leb_le first (size db'))) by lia. simpl.
    rewrite Hop. cbn [map_err]. rewrite Hfound. cbn [ok_or]. simpl.
    rewrite (pf_run _ _ _ _ _ _ _ _ _ Hperf), (pf_first _ _ _ _ _ _ _ _ _ Hperf), (pf_last _ _ _ _ _ _ _ _ _ Hperf).
    rewrite !bool_decide_eq_true_2 by done. rewrite <- Hfirst, Hsz, !Z.eqb_refl. cbn [andb expect]. rewrite Hhash.
    by rewrite bool_decide_eq_true_2.
  - apply Forall_forall. intros c Hc. pose proof (ld_commands _ _ (ab_ledger _ _ Hab) c Hc). apply andb_false_iff. right.
    apply Z.leb_gt. lia.
Qed.

Lemma acceptance_ledger :
  size db' <= i64_max -> (forall c, c ∈ commands db' -> cmd_last_sequence c <= size db') -> ledger id db'.
Proof.
  intros Hsz Hcm. pose proof (ab_ledger _ _ Hab) as Hled.
  destruct acceptance_rows as (arow & ae & rest & Hr & Hd & _ & Hja & _ & _ & Har & _ & Hrest).
  assert (forall q, q ∈ rows -> row_run_id q = Some run /\
    exists e, decode_event id q = Ok e /\ payload_to_json (st_payload e) = Some (row_payload_json q)) as Hq.
  { intros q Hq. rewrite Hr in Hq. apply elem_of_cons in Hq as [->|Hq]; [eauto|].
    destruct selection; [|rewrite Hrest in Hq; by apply not_elem_of_nil in Hq].
    destruct Hrest as (srow & se & Hre & Hds & _ & Hjs & _ & _ & Hsr & _). rewrite Hre in Hq. apply list_elem_of_singleton in Hq as ->. eauto. }
  split; try done; [apply acceptance_typed| |].
  - intros q Hin. rewrite Hev in Hin. apply elem_of_app in Hin as [Hin|Hin]; [by apply (ld_canonical _ _ Hled) | by apply Hq].
  - intros q k Hin Hk. rewrite Hev in Hin. rewrite Hruns. destruct (decide (k = run)) as [->|Hne]; [by rewrite lookup_insert_eq|].
    rewrite lookup_insert_ne by done. apply elem_of_app in Hin as [Hin|Hin]; [by eapply (ld_logged _ _ Hled)|].
    destruct (Hq q Hin) as [Hqr _]. congruence.
Qed.

(** The others do not notice. *)
Lemma acceptance_others k a :
  k <> run -> registers (size db) db db' -> audited id k a db -> audited id k a db'.
Proof.
  intros Hk Hreg. pose proof (ab_ledger _ _ Hab) as Hled. apply (audited_beside (size db) _ _ _ _ _ rows); try done.
  - apply Hled.
  - apply acceptance_typed.
  - apply selected_by_size, Hled.
  - destruct acceptance_rows as (arow & ae & rest & Hr & _ & _ & _ & _ & _ & Har & _ & Hrest). rewrite Hr.
    constructor; [congruence|]. destruct selection; [|by rewrite Hrest].
    destruct Hrest as (srow & se & Hre & _ & _ & _ & _ & _ & Hsr & _). rewrite Hre. constructor; [congruence|done].
  - by rewrite Hruns, lookup_insert_ne.
  - intros call. by rewrite Htools.
Qed.
End acceptance.

(** The size of a log after an acceptance. *)
Lemma accept_rows_length clock owner run first ts input selection rows :
  accept_rows clock owner run first ts input selection rows -> Z.of_nat (length rows) = 1 + if is_some selection then 1 else 0.
Proof. intros (json & _ & Hr). destruct selection; [destruct Hr as (j & _ & ->) | subst rows]; done. Qed.

Lemma accept_command_auditable clock id owner operation run first ts input selection hash receipt m f c x db s y db2 z db' :
  let mutation := match selection with None => Accept input | Some s => AcceptHistory input s end in
  auditable id db -> clock_ok clock -> 0 <= ts -> parse_id run = Ok run -> parse_id operation = Ok operation ->
  command_hash id run mutation = Ok hash ->
  performed id operation (method mutation) hash (Some run) db (Z.of_nat (record_count mutation)) receipt db' ->
  first = size db + 1 ->
  (forall s, selection = Some s -> hs_through_sequence s = size db /\ selection_matches s input = true) ->
  accept clock owner run first (first + if is_some selection then 1 else 0) ts input selection db = (Ok x, s) ->
  manifest db = Some m -> mf_head_sequence m <= mf_head_sequence (f m) -> cmd_first_sequence c = first ->
  update_manifest f s = (Ok y, db2) -> insert_command c db2 = (Ok z, db') -> auditable id db'.
Proof using laws.
  intros mutation Hab Hclock Hts Hrun Hop Hhash Hperf Hfirst Hsel Ha Hm Hle Hcf Hu Hi.
  pose proof (ab_ledger _ _ Hab) as Hled. pose proof (pf_extended _ _ _ _ _ _ _ _ _ Hperf) as Hext. pose proof (pf_created _ _ _ _ _ _ _ _ _ Hperf) as Hone.
  apply accept_tables in Ha as (Hnew & C1 & M1 & T1 & R1 & rows & Hrows & E1);
    [|split; [apply Hled|done]|intros s0 ->; simpl; done].
  destruct (command_end s m f c y db2 z db') as ((E2 & R2 & T2) & _ & C2); [by rewrite M1|done|done|done|].
  pose proof (accept_rows_length _ _ _ _ _ _ _ _ Hrows) as Hlen.
  pose proof (ext_sound _ _ _ Hext) as Hs'. pose proof (ext_size _ _ _ Hext) as Hsz. pose proof (sound_length _ Hs') as Hmax.
  fold (size db') in Hmax.
  assert (events db' = events db ++ rows) as Hev by congruence.
  assert (size db' = size db + Z.of_nat (length rows)) as Hsz' by (unfold size; rewrite Hev, length_app; lia).
  assert (registers (size db) db db') as Hreg.
  { split.
    - exists [c]. split; [congruence|]. constructor; [lia|done].
    - intros m' Hm'. destruct (evolves_identity _ _ (ext_evolves _ _ _ Hext) m' Hm') as (m2 & ? & _ & _ & _ & ?). by exists m2. }
  assert (forall q, q ∈ commands db' -> cmd_last_sequence q <= size db') as Hcm.
  { destruct (pf_command _ _ _ _ _ _ _ _ _ Hperf) as (json & _ & Hcmd). intros q Hq. rewrite Hcmd in Hq.
    apply elem_of_app in Hq as [Hq|Hq]; [pose proof (ld_commands _ _ Hled q Hq); lia|].
    apply list_elem_of_singleton in Hq as ->. simpl. lia. }
  assert (forall s0, selection = Some s0 -> hs_through_sequence s0 = first - 1) as Hthr.
  { intros s0 Hs0. destruct (Hsel s0 Hs0). lia. }
  assert (first + Z.of_nat (length rows) - 1 <= i64_max) as Hmax1 by lia. assert (1 < first) as Hf1 by lia.
  split; [done|by eapply (acceptance_ledger clock id owner run first ts input selection rows db db'); try done; [congruence..|apply Hs']|].
  intros k Hk. destruct (decide (k = run)) as [->|Hne].
  - eapply (acceptance_audited clock id owner run first ts input selection rows db db'); try done; [congruence|congruence|apply Hs'|].
    intros s0 Hs0. destruct (Hsel s0 Hs0) as [_ Hmatch]. unfold mutation in *. rewrite Hs0 in Hperf, Hhash.
    eapply (acceptance_selected clock id owner run first ts input selection rows db db'); try done; [congruence|congruence|apply Hs'].
  - rewrite R2, R1, lookup_insert_ne in Hk by done. destruct (ab_runs _ _ Hab k Hk) as [a Hau]. exists a.
    eapply (acceptance_others clock id owner run first ts input selection rows db db'); try done; [congruence|congruence|apply Hs'].
Qed.

(** ** Whole commands *)
Lemma append_command_auditable clock id run ts first records m f c x db s y db2 z db' :
  auditable id db -> sound db' -> clock_ok clock -> 0 <= ts -> parse_id run = Ok run ->
  Forall (fun r => validate_record r = Ok tt) records -> first = size db + 1 -> 1 < first ->
  first + Z.of_nat (length records) - 1 <= i64_max ->
  (let! r := reads (run_record id run) in
   let! r := lift (ok_or r transition) in
   let! c := reads (load_correlation id r) in
   let! selected := reads (history_selection id run) in
   let! unbound := (if is_some selected
                    then let! b := reads (provider_binding id run) in ret (is_none b)
                    else ret false) in
   append_all clock id ts r c unbound first records) db = (Ok x, s) ->
  manifest db = Some m -> mf_head_sequence m <= mf_head_sequence (f m) ->
  cmd_first_sequence c = first -> cmd_last_sequence c <= size s ->
  update_manifest f s = (Ok y, db2) -> insert_command c db2 = (Ok z, db') -> auditable id db'.
Proof using laws.
  intros Hab Hs' Hclock Hts Hrun Hall Hfirst Hone Hmax Ha Hm Hle Hcf Hcl Hu Hi. pose proof (ab_ledger _ _ Hab) as Hled.
  destruct (append_part_audited _ _ _ _ _ _ _ _ _ Hab Hclock Hts Hrun Hall Hfirst Hone Hmax Ha) as (Hled1 & Han & Hsz & Hau).
  destruct (command_end s m f c y db2 z db') as (Hsame & Hreg & Hcm); [by rewrite (an_manifest _ _ Han)|done|done|done|].
  split; [done| |].
  - eapply same_ledger; [exact Hsame| |done]. intros q Hq. rewrite Hcm in Hq. apply elem_of_app in Hq as [Hq|Hq].
    + by apply (ld_commands _ _ Hled1).
    + by apply list_elem_of_singleton in Hq as ->.
  - intros k Hk. destruct Hsame as (E & R & T). rewrite R, (an_runs _ _ Han) in Hk. destruct (Hau k Hk) as [a Hak]. exists a.
    eapply (same_audited (size db)); [by split|done|apply Hreg; lia|apply selected_by_appends; [apply Hled|done]|done].
Qed.

Lemma mutate_body_auditable clock provenance owner operation run mutation db receipt db' :
  auditable (cp_session_id provenance) db -> clock_ok clock -> parse_id run = Ok run -> parse_id operation = Ok operation ->
  mutate_body clock provenance owner operation run mutation db = (Ok (receipt, false), db') ->
  auditable (cp_session_id provenance) db'.
Proof using laws.
  intros Hab Hclock Hrun Hop Hb. pose proof (ab_sound _ _ Hab) as Hs.
  destruct (mutate_body_spec _ _ _ _ _ _ _ _ _ _ Hs Hb) as (hash & Hhash & Hperf). simpl in Hperf.
  unfold mutate_body in Hb. set (id := cp_session_id provenance) in *.
  unbind Hb. injection Hc as _ <-. unbind Hb. injection Hc as Hf <-. destruct a0 as [c|].
  { by apply replay_command_Ok in Hb as (? & _). }
  unbind Hb. injection Hc as Hv <-. apply validate_session_head in Hv as (m & Hm & _ & Hhead & Hhd & Hsz); [|done].
  rewrite Hhd in Hb. unbind Hb. injection Hc as Hstale <-. unbind Hb.
  assert (s = db /\ forall records, mutation = Append records -> Forall (fun r => validate_record r = Ok tt) records) as [-> Hall].
  { destruct mutation as [| |records]; try by injection Hc as _ <-. unbind Hc. injection Hc0 as Hva <-.
    unbind Hc. injection Hc0 as _ <-. unbind Hc. injection Hc0 as _ <-. injection Hc as _ <-. split; [done|].
    intros ? [= <-]. destruct a3. apply validate_all_Forall in Hva. eapply Forall_impl; [exact Hva|]. apply admission_record. }
  unbind Hb. injection Hc0 as Hr <-. apply sequence_range_Ok in Hr as (Hf1 & Hl1 & Hpos & Hmax); [|lia].
  destruct a3 as [first last]. simpl in Hf1, Hl1, Hmax, Hb. unbind Hb. injection Hc0 as Hts <-.
  apply (proj1 Hclock) in Hts. unbind Hb. unbind Hb. injection Hc1 as _ <-. unbind Hb. unbind Hb. injection Hc2 as _ <-.
  unbind Hb. injection Hb as _ <-. clear Hc.
  assert (mf_head_sequence m <= mf_head_sequence (advance last a3 m)) as Hle by (simpl; lia).
  destruct mutation as [input|input selection|records]; simpl in *.
  - eapply (accept_command_auditable clock id owner operation run first a3 input None); try done; simpl; try lia.
  - assert (hs_through_sequence selection = size db /\ selection_matches selection input = true) as Hsel.
    { destruct (Z.eqb_spec (size db) (hs_through_sequence selection)); [|done]. simpl in Hstale.
      destruct (selection_matches selection input); [done|]. done. }
    eapply (accept_command_auditable clock id owner operation run first a3 input (Some selection)); try done; try lia.
    + by intros ? [= <-].
    + simpl. replace (first + 1) with last by lia. exact Hc0.
    + simpl. lia.
    + done.
  - eapply (append_command_auditable clock id run a3 first records m); try done; try lia; simpl.
    + apply (ext_sound _ _ _ (pf_extended _ _ _ _ _ _ _ _ _ Hperf)).
    + by apply Hall.
    + lia.
    + lia.
    + pose proof (under_start db Hs) as Hu. rewrite <- Hf1 in Hu.
      pose proof (append_body_under db clock id a3 run first records db _ _ Hu ltac:(lia) ltac:(lia) Hc0) as Hund.
      destruct (under_next _ _ _ Hund) as [_ Hnx]. unfold size in *. lia.
Qed.

Lemma rename_body_auditable clock provenance operation title db receipt db' :
  auditable (cp_session_id provenance) db -> clock_ok clock ->
  rename_body clock provenance operation title db = (Ok (receipt, false), db') -> auditable (cp_session_id provenance) db'.
Proof using laws.
  intros Hab Hclock Hb. pose proof (ab_sound _ _ Hab) as Hs. pose proof (ab_ledger _ _ Hab) as Hled.
  destruct (rename_body_spec _ _ _ _ _ _ _ _ Hs Hb) as (q & _ & Hperf).
  pose proof (pf_extended _ _ _ _ _ _ _ _ _ Hperf) as Hext. pose proof (ext_sound _ _ _ Hext) as Hs'.
  pose proof (ext_size _ _ _ Hext) as Hsz. destruct (pf_command _ _ _ _ _ _ _ _ _ Hperf) as (rjson & _ & Hcmd).
  unfold rename_body in Hb. set (id := cp_session_id provenance) in *.
  unbind Hb. injection Hc as _ <-. unbind Hb. injection Hc as Hf <-. destruct a0 as [c|].
  { destruct (_ || _) in Hb; [done|]. by destruct (_ || _) in Hb. }
  unbind Hb. injection Hc as Hv <-. apply validate_session_head in Hv as (m & Hm & _ & _ & Hhd & Hsz0); [|done].
  rewrite Hhd in Hb. unbind Hb. injection Hc as Hn <-. apply next_sequence_Ok in Hn as [-> Hn]; [|lia].
  unbind Hb. injection Hc as _ <-. unbind Hb. injection Hc as Hts <-. apply (proj1 Hclock) in Hts.
  unbind Hb. injection Hc as Hj <-. apply ok_or_Ok in Hj. unbind Hb. apply insert_event_row_Ok in Hc as [_ ->].
  match type of Hb with context [insert_row ?r (events db)] => set (row := r) in Hb end.
  destruct (next_insert db row (size db + 1) (conj (ld_log _ _ Hled) eq_refl) eq_refl) as [Hins _]. rewrite Hins in Hb.
  unbind Hb. apply (update_manifest_Ok _ _ m) in Hc as ->; [|done]. unbind Hb. apply apply_same in Hc as (E1 & C1 & R1 & T1 & M1).
  unbind Hb. injection Hc as _ <-. unbind Hb. apply insert_command_Ok in Hc as [Hdb _]. injection Hb as _ ->. simpl in *.
  assert (events db' = events db ++ [row] /\ runs db' = runs db /\ tool_results db' = tool_results db) as (Hev & Hru & Hto)
    by (rewrite Hdb; done).
  assert (payload_fits id (size db + 1) (fresh_event_id clock (size db + 1)) a2 None (SessionRenamed title) = Ok tt) as Hfit.
  { simpl. by destruct (Z.eqb_spec (size db + 1) 1); [lia|]. }
  destruct (row_shows id None (size db + 1) _ a2 _ _ None ltac:(lia) Hts (proj2 Hclock _) ltac:(done) Hj Hfit eq_refl ltac:(done))
    as (e & Hd & Hp & _).
  assert (typed db') as Hty by (unfold typed; rewrite Hru, Hto; apply Hled).
  split; [done| |].
  - eapply (ledger_snoc id db db' row e); try done; simpl; try lia; [by rewrite Hp|intros k; by rewrite Hru|].
    intros c Hin. rewrite Hcmd in Hin. apply elem_of_app in Hin as [Hin|Hin]; [pose proof (ld_commands _ _ Hled c Hin); lia|].
    apply list_elem_of_singleton in Hin as ->. simpl. lia.
  - intros k Hk. rewrite Hru in Hk. destruct (ab_runs _ _ Hab k Hk) as [au Hau]. exists au.
    eapply (audited_beside (size db) id k au db db' [row]); try done.
    + apply Hs'.
    + apply Hled.
    + split.
      * eexists. split; [exact Hcmd|]. constructor; [simpl; lia|done].
      * intros m' Hm'. destruct (evolves_identity _ _ (ext_evolves _ _ _ Hext) m' Hm') as (m2 & ? & _ & _ & _ & ?). by exists m2.
    + apply selected_by_size, Hled.
    + by constructor.
    + by rewrite Hru.
    + intros call. by rewrite Hto.
Qed.
End commands.

Section sessions.
Context {D : Type} `{Display D} `{UuidLib} `{StorageSerde} {laws : StorageSerdeLaws}.
Implicit Types db : Db D.

(** ** Interruption *)

(** A run that is interrupted by the event [e]. *)
Lemma run_fits_interrupted id run row p n json e db db' :
  run_fits id run row p db -> longer db db' -> active (rr_state p) = true ->
  read_event id n db' = Ok e -> rr_accepted_sequence p < n -> st_run_id e = Some run ->
  st_payload e = RunInterrupted {| in_run_id := run |} -> json_is_payload json (st_payload e) = true ->
  runs db' !! run = Some (with_interrupted n json row) ->
  run_fits id run (with_interrupted n json row)
    (with_terminal_event e (with_state RecordedRunState.Interrupted p)) db'.
Proof.
  intros Hf Hl Ha He Hlt Hrun Hp Hj Hrow. destruct (fits_active _ _ _ _ _ Hf Ha) as (_ & _ & _ & Hrs & Hprs & Hpr).
  destruct Hf as [_ Hid Hacc (q & Hq & Hpay) How _ Hlast Hprov _ _]. split; simpl; try done.
  - exists q. split; [by eapply read_event_longer | done].
  - split_and!; try done; [intros m [= <-]; lia|]. rewrite He, (proj2 (Z.leb_gt _ _) Hlt), (bool_decide_eq_true_2 _ Hrun).
    rewrite Hp in Hj |- *. cbn. by rewrite Hj.
  - rewrite Hrs, Hprs, Hpr. by split_and!.
Qed.

(** The tables after an interruption. *)
Record closes (clock : Clock) (id run : string) (n ts : Z) (row : RunRow) (json : string) db db' : Prop := {
  cs_json : payload_to_json (RunInterrupted {| in_run_id := run |}) = Some json;
  cs_id : parse_id run = Ok run;
  cs_time : 0 <= ts;
  cs_row : runs db !! run = Some row;
  cs_open : unfinished (run_state row) = true;
  cs_sequence : n = size db + 1 /\ 1 < n <= i64_max;
  cs_events : events db' = events db ++ [plain_row clock n ts run (RunInterrupted {| in_run_id := run |}) json];
  cs_runs : runs db' = <[run := with_interrupted n json row]> (runs db);
  cs_tools : tool_results db' = tool_results db;
  cs_registers : registers (size db) db db' /\ commands db' = commands db
}.

Lemma reconcile_body_closes clock provenance owner db a db' :
  sound db -> log_ok db -> clock_ok clock -> reconcile_body clock provenance owner db = (Ok a, db') ->
  db' = db \/ exists run n ts row json, closes clock (cp_session_id provenance) run n ts row json db db'.
Proof.
  intros Hs Hl Hclock Hb. unfold reconcile_body in Hb. set (id := cp_session_id provenance) in *.
  unbind Hb. injection Hc as Hv <-. apply validate_session_head in Hv as (m & Hm & _ & Hh & Hhd & Hsz); [|done].
  unbind Hb. injection Hc as <- <-. destruct (select_runs _ db) as [|[k r] l] eqn:Hsel;
    [left; by injection Hb as _ <-|right]. apply stale_head in Hsel as (Hrk & Hun & _).
  unbind Hb. injection Hc as Hp <-. apply map_err_Ok in Hp.
  assert (parse_id k = Ok k /\ a1 = k) as [Hpk ->].
  { unfold parse_id in *. destruct (parse_str k); [|done]. cbn [ok_or] in *. destruct (_ || _) in *; [done|]. by injection Hp. }
  do 2 (unbind Hb; injection Hc as _ <-). unbind Hb. injection Hc as Hn <-. rewrite Hhd in Hn.
  apply next_sequence_Ok in Hn as [-> Hn]; [|lia]. unbind Hb. injection Hc as Hts <-. apply (proj1 Hclock) in Hts.
  unbind Hb. injection Hc as Hj <-. apply ok_or_Ok in Hj. unbind Hb. apply insert_event_row_Ok in Hc as [_ ->].
  set (row := plain_row clock (size db + 1) a3 k (RunInterrupted {| in_run_id := k |}) a4).
  destruct (next_insert db row (size db + 1) (conj Hl eq_refl) eq_refl) as [Hins _].
  change (insert_row _ (events db)) with (insert_row row (events db)) in Hb. rewrite Hins in Hb.
  unbind Hb. apply update_run_Ok in Hc as [[Hnone _]|(q & Hq & _ & ->)]; [simpl in Hnone; congruence|].
  simpl in Hq. assert (q = r) as -> by congruence.
  unbind Hb. apply (update_manifest_Ok _ _ m) in Hc as ->; [|done]. apply apply_same in Hb as (E & C & R & T & M). simpl in *.
  exists k, (size db + 1), a3, r, a4. split; try done; [lia|]. split; [|done]. split; [exists []; by rewrite app_nil_r|].
  intros m' Hm'. rewrite Hm in Hm'. injection Hm' as <-. rewrite M. eexists. split; [done|]. simpl. lia.
Qed.

Section closing.
Context (clock : Clock) (id run : string) (n ts : Z) (row : RunRow) (json : string) (db db' : Db D).
Context (Hclock : clock_ok clock) (Hab : auditable id db) (Hs' : sound db') (Hcl : closes clock id run n ts row json db db').
#[local] Set Default Proof Using "All".
#[local] Notation erow := (plain_row clock n ts run (RunInterrupted {| in_run_id := run |}) json).

Lemma closing_log : log_ok db' /\ size db' = n.
Proof.
  destruct (cs_sequence _ _ _ _ _ _ _ _ _ Hcl) as [Hn _]. rewrite Hn.
  eapply log_ok_snoc; [apply (ab_ledger _ _ Hab)|apply Hcl|done].
Qed.

Lemma closing_typed : typed db'.
Proof.
  destruct (ld_typed _ _ (ab_ledger _ _ Hab)) as [Tr Tt]. split; [|rewrite (cs_tools _ _ _ _ _ _ _ _ _ Hcl); exact Tt].
  intros k q Hq. rewrite (cs_runs _ _ _ _ _ _ _ _ _ Hcl) in Hq. apply lookup_insert_Some in Hq as [[_ <-]|[_ Hq]]; [|by eapply Tr].
  destruct (Tr _ _ (cs_row _ _ _ _ _ _ _ _ _ Hcl)) as (T1 & T2 & T3 & T4).
  destruct (cs_sequence _ _ _ _ _ _ _ _ _ Hcl) as [_ Hmax]. split_and!; simpl; try done. intros m [= <-]. lia.
Qed.

Lemma closing_event :
  exists e, decode_event id erow = Ok e /\ st_payload e = RunInterrupted {| in_run_id := run |} /\
    st_run_id e = Some run /\ st_sequence e = n.
Proof.
  destruct (cs_sequence _ _ _ _ _ _ _ _ _ Hcl) as [_ Hmax].
  apply plain_row_decodes; try done; try apply Hcl. intros event_id. simpl. by rewrite bool_decide_eq_true_2.
Qed.

Lemma closing_ledger : ledger id db'.
Proof.
  pose proof (ab_ledger _ _ Hab) as Hled. destruct closing_event as (e & Hd & Hp & Hr & Hn).
  destruct (cs_sequence _ _ _ _ _ _ _ _ _ Hcl) as [Hseq Hmax]. destruct (cs_registers _ _ _ _ _ _ _ _ _ Hcl) as [_ Hcm].
  apply (ledger_snoc id db db' erow e); try done; try apply closing_typed; try apply Hcl; try lia.
  - rewrite Hp. apply Hcl.
  - intros k [= <-]. by rewrite (cs_runs _ _ _ _ _ _ _ _ _ Hcl), lookup_insert_eq.
  - intros k Hk. rewrite (cs_runs _ _ _ _ _ _ _ _ _ Hcl). destruct (decide (k = run)) as [->|];
      [by rewrite lookup_insert_eq | by rewrite lookup_insert_ne].
  - intros q Hq. rewrite Hcm in Hq. pose proof (ld_commands _ _ Hled q Hq). lia.
Qed.

Lemma closing_others k a : k <> run -> audited id k a db -> audited id k a db'.
Proof.
  intros Hk. pose proof (ab_ledger _ _ Hab) as Hled. apply (audited_beside (size db) _ _ _ _ _ [erow]).
  - apply closing_log.
  - apply Hled.
  - apply closing_typed.
  - apply Hcl.
  - apply Hcl.
  - apply selected_by_size, Hled.
  - constructor; [simpl; congruence|done].
  - by rewrite (cs_runs _ _ _ _ _ _ _ _ _ Hcl), lookup_insert_ne.
  - intros call. by rewrite (cs_tools _ _ _ _ _ _ _ _ _ Hcl).
Qed.

(** The run that is closed. *)
Lemma closing_record a :
  audited id run a db -> exists p e, run_record id run db = Ok (Some p) /\ unresulted p = au_replay a /\ rr_run_id p = run /\
    active (rr_state p) = true /\ decode_event id erow = Ok e /\ st_payload e = RunInterrupted {| in_run_id := run |} /\
    run_record id run db' = Ok (Some (with_terminal_event e (with_state RecordedRunState.Interrupted p))).
Proof.
  intros Hau. pose proof (ab_ledger _ _ Hab) as Hled. destruct (au_record _ _ _ _ Hau) as (p & Hp & Heq).
  destruct closing_event as (e & Hd & Hpay & Hr & Hn). exists p, e.
  destruct (run_record_fits _ _ _ _ (ld_typed _ _ Hled) Hp) as (row0 & Hf).
  assert (row0 = row) as -> by (pose proof (rf_row _ _ _ _ _ Hf); pose proof (cs_row _ _ _ _ _ _ _ _ _ Hcl); congruence).
  assert (active (rr_state p) = true) as Hact.
  { rewrite <- unfinished_active, <- (rf_state _ _ _ _ _ Hf). apply Hcl. }
  split_and!; try done; [apply Hf|]. apply fits_run_record with (with_interrupted n json row); [apply closing_typed|].
  destruct (cs_sequence _ _ _ _ _ _ _ _ _ Hcl) as [Hseq Hmax].
  apply (run_fits_interrupted _ _ _ _ _ _ _ db); try done.
  - exists [erow]. apply Hcl.
  - rewrite Hseq. eapply read_event_last; [apply closing_log|apply Hcl|lia|done].
  - destruct (rf_event _ _ _ _ _ Hf) as (q & Hq & _). apply read_event_row in Hq as (x & Hx & Hxs & _).
    pose proof (log_ok_bound db x (ld_log _ _ Hled) Hx). unfold size in *. lia.
  - rewrite Hpay. apply payload_value, Hcl.
  - rewrite (cs_runs _ _ _ _ _ _ _ _ _ Hcl). by rewrite lookup_insert_eq.
Qed.

Lemma closing_grows a : audited id run a db -> grows id run (rr_state (au_replay a)) db db'.
Proof.
  intros Hau. pose proof (ab_ledger _ _ Hab) as Hled.
  destruct (closing_record a Hau) as (p & e & Hp & Heq & Hid & Hact & Hd & Hpay & Hp').
  pose proof (cs_events _ _ _ _ _ _ _ _ _ Hcl) as Hev.
  assert (forall kind, kind <> "run.interrupted" -> no_rows run kind [erow]) as Hno.
  { intros kind Hk q Hq _. apply list_elem_of_singleton in Hq as ->. simpl. congruence. }
  assert (forall s, history_selection id run db = Ok (Some s) -> history_selection id run db' = Ok (Some s)) as Hsel.
  { intros s. eapply (history_selection_grows (size db)); try done; try apply Hcl; [apply closing_log|apply selected_by_size, Hled|by apply Hno]. }
  split.
  - apply closing_log.
  - by exists [erow].
  - split; [apply Hled|apply closing_typed].
  - done.
  - intros b. eapply provider_binding_grows; try done; [apply closing_log|by apply Hno].
  - intros call t Ht. exists t. rewrite <- (cs_tools _ _ _ _ _ _ _ _ _ Hcl) in Ht. split_and!; try done.
    eapply tool_fits_longer; [by exists [erow]|]. rewrite (cs_tools _ _ _ _ _ _ _ _ _ Hcl) in Ht. by apply (au_tools _ _ _ _ Hau).
  - intros Hover. rewrite <- Heq in Hover. simpl in Hover. congruence.
Qed.

Lemma closing_audited a : audited id run a db -> exists a', audited id run a' db'.
Proof.
  intros Hau. pose proof (ab_ledger _ _ Hab) as Hled. pose proof (closing_grows a Hau) as Hg.
  destruct (closing_record a Hau) as (p & e & Hp & Heq & Hid & Hact & Hd & Hpay & Hp').
  destruct (audited_after _ _ _ _ (ld_typed _ _ Hled) Hau) as [Hafter Hrun].
  exists (audit_advance a e default_correlation). split.
  - eexists. split; [exact Hp'|]. unfold audit_advance. rewrite Hpay. simpl. by rewrite <- Heq.
  - rewrite (run_rows_app _ _ _ _ (cs_events _ _ _ _ _ _ _ _ _ Hcl)).
    assert (List.filter (of_run run) [erow] = [erow]) as -> by (simpl; unfold of_run; by rewrite bool_decide_eq_true_2).
    assert (audit_start (au_replay (audit_advance a e default_correlation)) = audit_start (au_replay a)) as ->.
    { unfold audit_start, fresh_run. destruct (advance_same a e default_correlation) as (-> & -> & -> & ->). done. }
    eapply audit_rows_snoc; [|done|].
    + eapply audit_rows_grows; [exact Hg|done|apply run_rows_bound, Hled|apply Hau].
    + unfold audit_checks. rewrite Hpay. split; [done|]. rewrite <- Heq. done.
  - intros call t Ht. rewrite (cs_tools _ _ _ _ _ _ _ _ _ Hcl) in Ht.
    eapply tool_fits_longer; [|by apply (au_tools _ _ _ _ Hau)]. exists [erow]. apply Hcl.
Qed.

Lemma closing_auditable : auditable id db'.
Proof.
  split; [done|apply closing_ledger|]. intros k Hk. destruct (decide (k = run)) as [->|Hne].
  - destruct (ab_runs _ _ Hab run) as [a Hau]; [by rewrite (cs_row _ _ _ _ _ _ _ _ _ Hcl)|]. by eapply closing_audited.
  - rewrite (cs_runs _ _ _ _ _ _ _ _ _ Hcl), lookup_insert_ne in Hk by done.
    destruct (ab_runs _ _ Hab k Hk) as [a Hau]. exists a. by apply closing_others.
Qed.
End closing.

(** ** Attempts *)

(** What the surroundings give an attempt: besides [attempt_ok], a canonical operation. *)
Definition attempt_typed (a : Attempt) : Prop :=
  attempt_ok a /\ match at_request a with Mutate operation _ _ => parse_id operation = Ok operation | _ => True end.

Lemma attempt_auditable provenance a db :
  attempt_typed a -> auditable (cp_session_id provenance) db -> auditable (cp_session_id provenance) (attempt provenance a db).
Proof using laws.
  intros [[Hclock Hrun] Hop] Hab. pose proof (ab_sound _ _ Hab) as Hs. unfold attempt.
  destruct (at_request a) as [operation title|operation run mutation|];
    apply (transaction_keeps _ _ _ (auditable (cp_session_id provenance))); try done.
  - intros [receipt dup] db1 Hb. destruct dup.
    + by apply rename_body_spec in Hb as (q & _ & -> & _).
    + by eapply rename_body_auditable.
  - intros [receipt dup] db1 Hb. destruct dup.
    + by apply mutate_body_spec in Hb as (q & _ & -> & _).
    + by eapply mutate_body_auditable; [..|exact Hb].
  - intros x db1 Hb. pose proof Hb as Hspec. apply reconcile_body_spec in Hspec as [_ [[_ ->]|(k & Hi)]]; [done| |done].
    apply reconcile_body_closes in Hb as [->|(run & n & ts & row & json & Hcl)]; [done| |done|apply Hab|done].
    eapply closing_auditable; try done. apply (ext_sound _ _ _ (ip_extended _ _ _ Hi)).
Qed.

Lemma attempts_auditable provenance l db :
  Forall attempt_typed l -> auditable (cp_session_id provenance) db ->
  auditable (cp_session_id provenance) (attempts provenance l db).
Proof using laws.
  intros Hl. revert db. induction Hl as [|a l Ha _ IH]; intros db Hab; simpl; [done|]. apply IH. by apply attempt_auditable.
Qed.

(** ** Creation *)
Lemma initialize_tables fate provenance db s db' :
  initialize fate provenance db = (Ok s, db') ->
  exists input workspace provenance_json json, db' = created_db provenance input workspace provenance_json json /\
    provenance_request provenance = Ok input /\
    payload_to_json (SessionCreated {| cd_title := cs_title input; cd_workspace := cs_workspace input;
                                       cd_creation_provenance := provenance |}) = Some json.
Proof.
  intros Hi. apply transaction_inv in Hi as [(e & ? & _)|(a & db1 & Hb & [[_ ->]|[? _]])]; try done.
  apply initialize_body_tables in Hb as (input & w & pj & json & ? & ? & ? & _). by exists input, w, pj, json.
Qed.

Lemma created_auditable provenance input workspace provenance_json json :
  parse_id (cp_creation_event_id provenance) = Ok (cp_creation_event_id provenance) ->
  provenance_request provenance = Ok input ->
  payload_to_json (SessionCreated {| cd_title := cs_title input; cd_workspace := cs_workspace input;
                                     cd_creation_provenance := provenance |}) = Some json ->
  auditable (cp_session_id provenance) (created_db provenance input workspace provenance_json json).
Proof using laws.
  intros Hid Hr Hj. pose proof (created_sound provenance input workspace provenance_json json) as [Hs _].
  destruct (provenance_request_inv _ _ Hr) as [Ht _].
  split; [done| |intros k; simpl; by rewrite lookup_empty]. split; try done.
  - intros r Hin. apply list_elem_of_singleton in Hin as ->. unfold decode_event. simpl. rewrite Hid. cbn [map_err].
    rewrite (proj2 (Z.ltb_ge _ _) Ht). cbn [negb orb Z.eqb].
    rewrite (payload_round _ _ Hj : payload_from_json "session.created" _ = _). simpl. rewrite Hr.
    rewrite !bool_decide_eq_true_2, Z.eqb_refl by done. simpl. by eexists.
  - intros r k Hin. by apply list_elem_of_singleton in Hin as ->.
  - intros c Hc. by apply not_elem_of_nil in Hc.
Qed.

(** C37. Every session passes its audit.  Create a session and attempt any commands
    on it - renames, acceptances with or without a selected history, batches of
    provider bindings, runtime events, tool outputs and results, interruptions - each
    by any process and with any fate, provided clocks are past the epoch and
    identifiers canonical.  Every run in it is accepted by [validate_run]: replaying
    its stored events through the rules of the writer meets no integrity error,
    arrives at the state in the tables, and finds every tool row sound. *)
Theorem commands_audited fate provenance l db0 s db run :
  initialize fate provenance db0 = (Ok s, db) ->
  parse_id (cp_creation_event_id provenance) = Ok (cp_creation_event_id provenance) ->
  Forall attempt_typed l -> is_some (runs (attempts provenance l db) !! run) = true ->
  validate_run (cp_session_id provenance) run (attempts provenance l db) = Some (Ok tt).
Proof using laws.
  intros Hi Hid Hl Hrun. apply initialize_tables in Hi as (input & workspace & pj & json & -> & Hr & Hj).
  destruct (attempts_auditable provenance l _ Hl (created_auditable provenance input workspace pj json Hid Hr Hj)) as [_ Hled Hall].
  destruct (Hall run Hrun) as [a Ha]. eapply audited_validates; [apply Hled..|done].
Qed.
(** ** Retries *)

(** A selection in the log is the one that is read back. *)
Lemma selection_reads id run db r e x :
  auditable id db -> r ∈ events db -> decode_event id r = Ok e -> row_run_id r = Some run -> st_payload e = RunHistorySelected x ->
  history_selection id run db = Ok (Some (sel_selection x)).
Proof using laws.
  intros Hab Hin Hd Hrun Hpay. pose proof (ab_ledger _ _ Hab) as Hled. destruct (ab_runs _ _ Hab run (ld_logged _ _ Hled _ _ Hin Hrun)) as (a & Ha).
  destruct (audited_flags _ _ _ _ (ld_typed _ _ Hled) Ha) as [[Hsel _] _]. pose proof (decode_event_Ok _ _ _ Hd) as (_ & _ & Hrid & Hfrom & _).
  assert (r ∈ run_rows run db) as Hrr by (eapply run_rows_In; [done|done|congruence]).
  destruct (audit_rows_marks _ _ _ _ _ _ _ (au_passes _ _ _ _ Ha) Hrr Hd) as [Hmark _]. rewrite Hpay in Hmark.
  destruct (Hsel (Hmark eq_refl)) as [s Hs]. rewrite Hs. unfold history_selection, metadata_event in Hs.
  assert (In r (List.filter (fun q => bool_decide (row_run_id q = Some run) && bool_decide (row_event_type q = "run.history.selected")) (events db))) as Hf.
  { apply filter_In. split; [by apply list_elem_of_In|]. rewrite (bool_decide_eq_true_2 _ Hrun). apply bool_decide_eq_true_2.
    apply payload_kind in Hfrom. by rewrite Hpay in Hfrom. }
  destruct (List.filter _ (events db)) as [|row [|? ?]]; [done| |done]. destruct Hf as [->|[]]. rewrite Hd, Hpay in Hs.
  repeat match type of Hs with
         | match ?y with Ok _ => _ | Err _ => _ end = Ok _ => destruct y as [?|]; [|done]
         | match ?l with [] => _ | _ :: _ => _ end = Ok _ => destruct l as [|? ?]; try done
         end. done.
Qed.

(** An acceptance that was written leaves its selection to every later state. *)
Lemma acceptance_reads clock provenance owner operation run input selection db receipt db1 db2 :
  sound db -> clock_ok clock -> parse_id run = Ok run ->
  mutate_body clock provenance owner operation run (AcceptHistory input selection) db = (Ok (receipt, false), db1) ->
  evolves db1 db2 -> auditable (cp_session_id provenance) db2 ->
  history_selection (cp_session_id provenance) run db2 = Ok (Some selection).
Proof using laws.
  intros Hs Hclock Hrun Hb Hev Hab. destruct (mutate_body_wrote _ _ _ _ _ _ _ _ _ Hs Hclock Hrun Hb) as (rows & Hrows & Hps).
  destruct (Forall2_lookup_r _ _ _ 1%nat _ Hps eq_refl) as (row & Hrow & e & Hd & Hpay & Hst).
  eapply (selection_reads _ run db2 row e {| sel_run_id := run; sel_selection := selection |}); try done.
  - destruct (evolves_events _ _ Hev) as [more ->]. rewrite Hrows. apply elem_of_app. left. apply elem_of_app. right. by eapply list_elem_of_lookup_2.
  - pose proof (decode_event_Ok _ _ _ Hd) as (_ & _ & Hrid & _). congruence.
Qed.

(** C24. Retrying is safe.  Take a session that the store made and on which it made any
    attempts, and an attempt at a rename, an acceptance with or without a selected
    history, or an append that changed it - also one whose commit was reported unknown.
    The same command, by any process at any later time and after any other attempts,
    writes nothing and returns the receipt of that execution, marked as duplicate: it
    names the events that the attempt wrote, and is the receipt that the attempt
    returned unless its commit was reported unknown. *)
Theorem retry_returns_receipt fate provenance l db0 s made a later a' :
  initialize fate provenance db0 = (Ok s, made) ->
  parse_id (cp_creation_event_id provenance) = Ok (cp_creation_event_id provenance) ->
  Forall attempt_typed (l ++ a :: later) -> at_request a <> Reconcile ->
  at_request a' = at_request a -> at_fate a' = Committed ->
  let db := attempts provenance l made in
  let db1 := attempt provenance a db in
  let db2 := attempts provenance later db1 in
  db1 <> db ->
  attempt provenance a' db2 = db2 /\
  exists receipt, attempt_answer provenance a' db2 = Some (Ok (receipt, true)) /\
    rc_first_sequence receipt = size db + 1 /\ rc_last_sequence receipt = size db1 /\
    (attempt_answer provenance a db = Some (Ok (receipt, false)) \/
     attempt_answer provenance a db = Some (Err (storage_error StorageErrorKind.CommitUnknown))).
Proof using laws.
  intros Hi Hid Hall Hrec Hsame Hfate db db1 db2 Hne. apply Forall_app in Hall as [Hl [Ha Hlater]%Forall_cons].
  apply initialize_tables in Hi as (input & workspace & pj & json & Hmade & Hr & Hj).
  assert (auditable (cp_session_id provenance) db) as Hab.
  { apply attempts_auditable; [done|]. rewrite Hmade. by apply created_auditable. }
  assert (auditable (cp_session_id provenance) db2) as Hab2 by (by apply attempts_auditable, attempt_auditable).
  pose proof (ab_sound _ _ Hab) as Hs. pose proof (attempts_keep provenance later db1 ltac:(by eapply ab_sound, attempt_auditable)) as (Hev & _). fold db2 in Hev.
  unfold attempt_answer, attempt. rewrite Hsame, Hfate. unfold db1, attempt in Hne. destruct (at_request a) as [operation title|operation run mutation|] eqn:Hq; [..|done].
  - destruct (rename_session (at_fate a) _ _ _ _ db) as [r db1'] eqn:Ht. assert (db1' = db1) as -> by (unfold db1, attempt; by rewrite Hq, Ht).
    destruct (rename_changed _ _ _ _ _ _ _ _ later Hs Ht Hne) as (request & receipt & Hj' & Hres & (Hrun & Hfst & Hlst & Hf) & Hone). fold db2 in Hf.
    unfold rename_session, transaction, rename_body, bind, lift, reads. rewrite Hj'. cbn [ok_or]. rewrite Hf. cbn [c_method c_payload_hash c_receipt].
    rewrite !bool_decide_eq_true_2 by done. rewrite Hrun, Hfst, Hlst, Hone, Z.eqb_refl. split; [done|]. exists receipt. split_and!; try done; [lia|].
    destruct Hres as [-> | ->]; auto.
  - destruct (mutate (at_fate a) _ _ _ _ _ _ db) as [r db1'] eqn:Ht. assert (db1' = db1) as -> by (unfold db1, attempt; by rewrite Hq, Ht).
    destruct (mutate_changed _ _ _ _ _ _ _ _ _ _ later Hs Ht Hne) as (hash & receipt & Hh & Hres & Hb & Hrun & Hfst & Hlst & Hf). fold db2 in Hf.
    assert (forall input selection, mutation = AcceptHistory input selection ->
      history_selection (cp_session_id provenance) run db2 = Ok (Some selection)) as Hsel.
    { intros input' selection ->. destruct Ha as [[Hclock Hrunid] _]. rewrite Hq in Hrunid. by eapply acceptance_reads. }
    unfold mutate, transaction, mutate_body, bind, lift, reads. rewrite Hh, Hf. unfold replay_command. simpl. rewrite Hrun, !bool_decide_eq_true_2 by done.
    simpl. unfold bind, reads, ret. assert (forall q, (r = Ok (receipt, false) \/ r = Err (storage_error StorageErrorKind.CommitUnknown)) ->
      Some r = q -> q = Some (Ok (receipt, false)) \/ q = Some (Err (storage_error StorageErrorKind.CommitUnknown))) as Hans.
    { intros q [-> | ->] <-; auto. }
    destruct mutation as [input'|input' selection|records]; simpl; [|rewrite (Hsel _ _ eq_refl), bool_decide_eq_true_2 by done|];
      (split; [done|]; exists receipt; split_and!; [done|done|done|by apply Hans]).
Qed.
End sessions.
