(* ===== verification/Valid.v ===== *)
(** * Sessions stay valid

    Every command first runs the whole validation of session_schema.rs and refuses
    to work on a session that does not pass it.  Here is that no command ever leaves
    a session its successors would refuse: what passes the validation passes it
    again after any sequence of attempts. *)
From S2P Require Import Prelude Json Errors Identifiers Provider Tools Replay RunData Hoare Records Store History Session RunStore StoreSafety StoreCommands StoreGuarantees StoreContents.

Section steps.
Context {D : Type} `{Display D} `{UuidLib} `{StorageSerde}.
Implicit Types db : Db D.

(** ** What the statements between two commands of a run leave alone *)

(** A row written at [ts] for some run. *)
Definition run_row_at (ts : Z) (r : EventRow) : Prop :=
  row_created_at_ms r = ts /\ row_event_version r = 1 /\ is_some (row_run_id r) = true /\
  row_event_type r <> "session.renamed".

Definition same_metadata (p p' : option ProjectionRow) : Prop :=
  match p, p' with
  | Some h, Some h' => pr_metadata_sequence h' = pr_metadata_sequence h /\ (pr_format_version h = 1 -> pr_format_version h' = 1)
  | None, None => True
  | _, _ => False
  end.

Record steps (ts : Z) db db' : Prop := {
  sp_application : application_id db' = application_id db;
  sp_version : user_version db' = user_version db;
  sp_schema : schema db' = schema db;
  sp_manifest : manifest db' = manifest db;
  sp_rows r : r ∈ events db' -> r ∈ events db \/ run_row_at ts r;
  sp_metadata : same_metadata (projection db) (projection db')
}.

#[global] Instance steps_preorder ts : PreOrder (steps ts).
Proof.
  split.
  - intros db. split; try done; [by left|]. by destruct (projection db).
  - intros db1 db2 db3 [A1 V1 S1 M1 R1 P1] [A2 V2 S2 M2 R2 P2]. split; try congruence.
    + intros r Hr. destruct (R2 r Hr); eauto.
    + destruct (projection db1), (projection db2), (projection db3); simpl in *; try done. destruct P1, P2. split; [congruence|auto].
Qed.

(** A computation that only takes such steps. *)
Definition stepping {A} (ts : Z) (c : SM (Db D) StorageError A) : Prop :=
  forall db a db', c db = (Ok a, db') -> steps ts db db'.

Lemma stepping_bind {A B} ts (c : SM (Db D) StorageError A) (k : A -> SM (Db D) StorageError B) :
  stepping ts c -> (forall a, stepping ts (k a)) -> stepping ts (bind c k).
Proof. intros Hc Hk db b db' Hb. unbind Hb. transitivity s; [by eapply Hc | by eapply Hk]. Qed.

Lemma stepping_ret {A} ts (a : A) : stepping ts (ret a).
Proof. by intros db x db' [= _ <-]. Qed.
Lemma stepping_throw {A} ts e : stepping ts (@throw (Db D) StorageError A e).
Proof. by intros db x db' Ht. Qed.
Lemma stepping_lift {A} ts (r : SResult A) : stepping ts (lift r).
Proof. intros db x db' Hl. by injection Hl as _ <-. Qed.
Lemma stepping_reads {A} ts (f : Db D -> SResult A) : stepping ts (reads f).
Proof. intros db x db' Hl. by injection Hl as _ <-. Qed.

(** Writing other tables. *)
Lemma steps_runs ts rs db : steps ts db (set_runs rs db).
Proof. split; try done; [by left|]. simpl. by destruct (projection db). Qed.
Lemma steps_tools ts rs db : steps ts db (set_tool_results rs db).
Proof. split; try done; [by left|]. simpl. by destruct (projection db). Qed.

Lemma stepping_update_run ts k f : stepping ts (update_run k f).
Proof. intros db x db' Hu. apply update_run_Ok in Hu as [[_ ->]|(r & _ & _ & ->)]; [done|apply steps_runs]. Qed.
Lemma stepping_update_tool ts k f : stepping ts (update_tool k f).
Proof. intros db x db' Hu. apply update_tool_Ok in Hu as [[_ ->]|(r & _ & ->)]; [done|apply steps_tools]. Qed.
Lemma stepping_insert_tool ts k t : stepping ts (insert_tool k t).
Proof.
  intros db x db' Hi. unfold insert_tool in Hi. unbind Hi. apply require_constraint_Ok in Hc as [_ ->]. injection Hi as _ <-.
  apply steps_tools.
Qed.
Lemma stepping_insert_run ts k t : stepping ts (insert_run k t).
Proof.
  intros db x db' Hi. unfold insert_run in Hi. unbind Hi. apply require_constraint_Ok in Hc as [_ ->]. injection Hi as _ <-.
  apply steps_runs.
Qed.

Lemma insert_row_In row l r : r ∈ insert_row row l -> r = row \/ r ∈ l.
Proof.
  induction l as [|q l IH]; simpl; intros Hr.
  - left. by apply list_elem_of_singleton in Hr.
  - destruct (_ <? _); [by apply elem_of_cons in Hr|]. apply elem_of_cons in Hr as [->|Hr]; [right; left|].
    destruct (IH Hr); [by left|right; by right].
Qed.

Lemma stepping_insert_event clock n ts run kind json source :
  kind <> "session.renamed" -> stepping ts (insert_event clock n ts run kind json source).
Proof.
  intros Hk db x db' Hi. apply insert_event_row_Ok in Hi as [_ ->]. split; try done; [|simpl; by destruct (projection db)].
  intros r Hr. apply insert_row_In in Hr as [->|Hr]; [by right|by left].
Qed.

(** The inputs that belong to a run. *)
Definition of_a_run (input : Input.t) : Prop := input <> Input.Created /\ input <> Input.Renamed.

Lemma apply_run n run input db a db' :
  of_a_run input -> apply n run input db = (Ok a, db') ->
  exists h, projection db = Some h /\ pr_format_version h = 1 /\
    projection db' = Some {| pr_format_version := pr_format_version h; pr_applied_sequence := n;
                             pr_metadata_sequence := pr_metadata_sequence h |} /\
    application_id db' = application_id db /\ user_version db' = user_version db /\ schema db' = schema db.
Proof.
  intros [Hc1 Hr1] Ha. unfold apply in Ha. unbind Ha. injection Hc as _ <-. unbind Ha. injection Hc as <- <-.
  destruct input; try done; clear Hc1 Hr1;
    (unbind Ha; injection Hc as Hh <-; apply ok_or_Ok in Hh; unbind Ha; injection Hc as Happ <-; unbind Ha; injection Hc as Hmd <-;
     apply ok_or_Ok in Hmd; destruct (_ || _) eqn:Hor; [done|]; prop_bools; unbind Ha;
     do 3 (unbind Hc; injection Hc0 as _ <-); unbind Hc; injection Hc0 as _ <-; injection Hc as <- <-; injection Ha as _ <-;
     unfold u64_try_from in Hmd; destruct (in_u64 _); [|done]; injection Hmd as <-; by eexists).
Qed.

Lemma stepping_apply ts n run input : of_a_run input -> stepping ts (apply n run input).
Proof.
  intros Hi db x db' Ha. pose proof (apply_same _ _ _ _ _ _ Ha) as (E & _ & _ & _ & M).
  destruct (apply_run _ _ _ _ _ _ Hi Ha) as (h & Hh & Hf & Hh' & A & V & S). split; try done.
  - intros r Hr. left. by rewrite <- E.
  - by rewrite Hh, Hh'.
Qed.

(** Where the projection stands afterwards. *)
Definition applied (n : Z) db : Prop := exists h, projection db = Some h /\ pr_format_version h = 1 /\ pr_applied_sequence h = n.

Lemma run_applied n run input db a db' : of_a_run input -> apply n run input db = (Ok a, db') -> applied n db'.
Proof. intros Hi Ha. destruct (apply_run _ _ _ _ _ _ Hi Ha) as (h & _ & Hf & Hh' & _). by eexists. Qed.
End steps.

Create HintDb stepping.
#[export] Hint Resolve stepping_ret stepping_throw stepping_lift stepping_reads stepping_update_run stepping_update_tool
  stepping_insert_tool stepping_insert_run stepping_insert_event stepping_apply : stepping.

(** Split a program along its structure. *)
Ltac stepping_auto :=
  repeat first
    [ solve [eauto with stepping]
    | match goal with |- stepping _ (bind _ _) => apply stepping_bind; [|intros ?] end
    | match goal with |- stepping _ (match ?x with _ => _ end) => destruct x end
    | match goal with |- stepping _ (if ?x then _ else _) => destruct x end ].

Section bodies.
Context {D : Type} `{Display D} `{UuidLib} `{StorageSerde} {laws : StorageSerdeLaws}.
Implicit Types db : Db D.

Lemma stepping_append_effect ts id run n json record : stepping (D := D) ts (append_effect id run n json record).
Proof. unfold append_effect, record_tool_event, require_outputs, terminalize. stepping_auto. Qed.
Hint Resolve stepping_append_effect : stepping.

Lemma record_kind r : event_type (record_payload r) <> "session.renamed".
Proof. by destruct r. Qed.
Hint Resolve record_kind : stepping.

Lemma record_input_run run r input : record_input run r = Ok input -> of_a_run input.
Proof. destruct r; simpl; [destruct (bool_decide _)|..]; by intros [= <-]. Qed.

Lemma append_applied clock id run n ts record db r db' :
  append clock id run n ts record db = (Ok r, db') -> steps ts db db' /\ applied (as_u64 n) db'.
Proof.
  unfold append. intros Ha. unbind Ha. assert (steps ts db s) as S1.
  { destruct record; try by injection Hc as _ <-. destruct (negb _); [done|]. by injection Hc as _ <-. }
  unbind Ha. injection Hc0 as _ <-. destruct (_ || _); [done|]. unbind Ha. apply (stepping_insert_event _ _ ts) in Hc0; [|apply record_kind].
  unbind Ha. apply (stepping_append_effect ts) in Hc1. unbind Ha. apply (stepping_update_run ts) in Hc2. unbind Ha.
  assert (steps ts s2 s3) as S2.
  { destruct (negb _ && _); [|by injection Hc3 as _ <-]. unbind Hc3. injection Hc3 as _ <-. by injection Hc4 as _ <-. }
  unbind Ha. injection Hc4 as Hin <-. apply record_input_run in Hin. unbind Ha. injection Ha as _ <-.
  split; [|by eapply run_applied]. apply (stepping_apply ts) in Hc4; [|done].
  by repeat (etransitivity; [eassumption|]).
Qed.

Lemma append_all_applied clock id ts records : forall run c u n db x db',
  append_all clock id ts run c u n records db = (Ok x, db') ->
  steps ts db db' /\ (records <> [] -> applied (as_u64 (n + Z.of_nat (length records) - 1)) db').
Proof.
  induction records as [|record records IH]; intros run c u n db x db' Ha; simpl in Ha.
  { injection Ha as _ <-. by split. }
  unbind Ha. injection Hc as _ <-. unbind Ha.
  assert (s = db) as -> by (destruct record; by injection Hc as _ <-). unbind Ha.
  apply append_applied in Hc0 as [S1 A1].
  match type of Ha with ?f s = _ => assert (exists c' u', append_all clock id ts a1 c' u' (n + 1) records s = (Ok x, db')) as (c' & u' & Ha2)
    by (destruct record; by eexists _, _) end.
  destruct (IH _ _ _ _ _ _ _ Ha2) as [S2 A2]. split; [by transitivity s|]. intros _.
  destruct records as [|q records].
  - simpl in Ha2. injection Ha2 as _ <-. simpl length. by replace (n + Z.of_nat 1 - 1) with n by lia.
  - replace (n + Z.of_nat (length (record :: q :: records)) - 1) with (n + 1 + Z.of_nat (length (q :: records)) - 1) by (simpl; lia).
    by apply A2.
Qed.

Lemma accept_applied clock owner run first last ts input selection db x db' :
  accept clock owner run first last ts input selection db = (Ok x, db') ->
  steps ts db db' /\ applied (as_u64 (if is_some selection then last else first)) db'.
Proof.
  unfold accept. intros Ha. do 2 (unbind Ha; injection Hc as _ <-). unbind Ha. injection Hc as _ <-.
  unbind Ha. apply (stepping_insert_event _ _ ts) in Hc; [|done]. unbind Ha. apply (stepping_insert_run ts) in Hc0.
  unbind Ha. pose proof Hc1 as A1. apply run_applied in A1; [|done]. apply (stepping_apply ts) in Hc1; [|done].
  destruct selection as [sel|]; simpl.
  - unbind Ha. injection Hc2 as _ <-. unbind Ha. apply (stepping_insert_event _ _ ts) in Hc2; [|done].
    pose proof Ha as A2. apply run_applied in A2; [|done]. apply (stepping_apply ts) in Ha; [|done]. split; [|done].
    by repeat (etransitivity; [eassumption|]).
  - injection Ha as _ <-. split; [|done]. by repeat (etransitivity; [eassumption|]).
Qed.

(** ** The validation of a session that has grown *)

(** The columns of the manifest no command writes. *)
Definition fixed_columns (m : ManifestRow) : string * Z * Z * option string * Z * string :=
  (mf_session_id m, mf_schema_version m, mf_format_version m, mf_workspace_json m, mf_created_at_ms m,
   mf_creation_provenance_json m).

Lemma validate_grown id expected db db' m row row' latest :
  validate_session id expected db = Ok m -> manifest db = Some row -> manifest db' = Some row' ->
  application_id db' = application_id db -> user_version db' = user_version db -> schema db' = schema db ->
  fixed_columns row' = fixed_columns row -> 1 < mf_head_sequence row' ->
  max_sequence (events db') = Some (mf_head_sequence row') ->
  find (fun r => row_sequence r =? 1) (events db') = find (fun r => row_sequence r =? 1) (events db) ->
  find (fun r => row_sequence r =? mf_head_sequence row') (events db') = Some latest ->
  row_created_at_ms latest = mf_updated_at_ms row' -> row_event_version latest = 1 -> 0 <= mf_updated_at_ms row' ->
  (row_event_type latest = "session.renamed" -> is_renamed_to (row_payload_json latest) (mf_title row') = Ok true) ->
  (user_version db = 3 -> validate_projection (mf_head_sequence row') db' = Ok tt) ->
  validate_session id expected db' =
    Ok {| sm_session_id := id; sm_title := mf_title row'; sm_workspace := sm_workspace m;
          sm_created_at_ms := sm_created_at_ms m; sm_updated_at_ms := mf_updated_at_ms row';
          sm_head_sequence := as_u64 (mf_head_sequence row') |}.
Proof.
  intros Hv Hm Hm' Ha Hu Hs Hf Hh Hmax Hone Hlast Hts Hver Hpos Htitle Hproj.
  injection Hf as F1 F2 F3 F4 F5 F6. unfold validate_session in Hv |- *. rewrite Ha, Hu, Hs.
  do 3 (destruct (negb _); [done|]). rewrite Hm in Hv. rewrite Hm'. cbn [ok_or] in Hv |- *. rewrite F1, F2, F3, F4, F5, F6.
  destruct (_ || _ || _); [done|].
  rewrite (proj2 (Z.ltb_ge _ _)) by lia. rewrite Hmax, bool_decide_eq_true_2 by done. cbn [negb orb].
  destruct (_ || _) in Hv; [done|]. destruct (ok_or (provenance_from_json _) _) as [prov|]; [|done].
  destruct (provenance_request prov) as [input|]; [|done]. destruct (decode_workspace _) as [w|]; [|done].
  cbn [sm_created_at_ms sm_workspace sm_updated_at_ms sm_title] in *. rewrite (proj2 (Z.ltb_ge _ _) Hpos).
  destruct (_ || is_some_and _ _) eqn:Hc in Hv; [done|]. apply orb_false_iff in Hc as [Hc ->].
  apply orb_false_iff in Hc as [-> _]. cbn [orb]. rewrite Hone. destruct (ok_or (find _ _) _) as [created|]; [|done].
  destruct (match payload_from_json _ _ with Some _ => _ | None => _ end) as [payload|]; [|done]. destruct (_ || _) in Hv |- *; [done|].
  rewrite Hlast. cbn [ok_or]. rewrite Hts, Hver, Z.eqb_refl. cbn [negb orb Z.eqb Pos.eqb].
  rewrite (proj2 (Z.eqb_neq _ _)) by lia. cbn [andb].
  destruct (ok_or (find _ _) _) as [old|] in Hv; [|done]. destruct (_ || _) in Hv; [done|]. destruct (_ && _) in Hv; [done|].
  destruct (if bool_decide _ then _ else _) as [ok|] in Hv; [|done]. destruct (negb ok) in Hv; [done|].
  assert ((if bool_decide (row_event_type latest = "session.renamed")
           then is_renamed_to (row_payload_json latest) (mf_title row') else Ok true) = Ok true) as ->.
  { destruct (bool_decide_reflect (row_event_type latest = "session.renamed")); auto. }
  cbn [negb]. destruct (if user_version db =? 3 then validate_projection _ db else _) as [[]|] in Hv; [|done]. injection Hv as <-.
  destruct (Z.eqb_spec (user_version db) 3); [|done]. rewrite Hproj by done. done.
Qed.

Lemma log_max db : log_ok db -> 1 <= size db -> max_sequence (events db) = Some (size db).
Proof.
  intros Hl Hs. destruct (max_sequence (events db)) as [n|] eqn:Hm; [by rewrite (max_sequence_log db n)|].
  unfold size in Hs. destruct (events db); [simpl in Hs; lia | done].
Qed.

Lemma find_one db rows : log_ok db -> 1 <= size db ->
  find (fun r => row_sequence r =? 1) (events db ++ rows) = find (fun r => row_sequence r =? 1) (events db).
Proof.
  intros Hl Hs. destruct (events db !! 0%nat) as [r|] eqn:Hr.
  - pose proof (log_find db 0 r Hl Hr) as Hf. change (Z.of_nat 0 + 1) with 1 in Hf. rewrite Hf.
    destruct (events db) as [|q l]; [done|]. injection Hr as ->. simpl in Hf |- *. destruct (row_sequence r =? 1) eqn:E; [done|].
    apply find_some in Hf as [_ Hf]. congruence.
  - apply lookup_ge_None in Hr. unfold size in Hs. lia.
Qed.

Lemma log_last db r : log_ok db -> last (events db) = Some r -> find (fun q => row_sequence q =? size db) (events db) = Some r.
Proof.
  intros Hl Hr. pose proof Hr as Hlk. rewrite last_lookup in Hlk. unfold size.
  assert (0 < length (events db))%nat as Hlen by (destruct (events db); [done|simpl; lia]).
  pose proof (log_find db (pred (length (events db))) r Hl Hlk) as Hf.
  replace (Z.of_nat (pred (length (events db))) + 1) with (Z.of_nat (length (events db))) in Hf by lia. exact Hf.
Qed.

(** The events outside every run. *)
Lemma outside_runs db : log_ok db ->
  List.filter (fun r => is_none (row_run_id r) && (row_sequence r <=? size db)) (events db)
  = List.filter (fun r => is_none (row_run_id r)) (events db).
Proof.
  intros Hl. apply filter_ext_in. intros r Hr%list_elem_of_In. pose proof (log_ok_bound db r Hl Hr).
  rewrite (proj2 (Z.leb_le _ _)) by (unfold size; lia). by rewrite andb_true_r.
Qed.

Lemma projection_run db db' rows :
  log_ok db -> log_ok db' -> events db' = events db ++ rows -> Forall (fun r => is_some (row_run_id r) = true) rows ->
  same_metadata (projection db) (projection db') -> applied (size db') db' ->
  validate_projection (size db) db = Ok tt -> validate_projection (size db') db' = Ok tt.
Proof.
  intros Hl Hl' He Hrows Hmd (h' & Hh' & Hf & Happ) Hv. unfold validate_projection in *.
  rewrite outside_runs in Hv |- * by done. rewrite Hh'. cbn [ok_or]. rewrite Hf, Happ, Z.eqb_refl. cbn [negb orb Z.eqb Pos.eqb].
  destruct (projection db) as [h|] eqn:Hh; [|done]. cbn [ok_or] in Hv. destruct (_ || _) eqn:Hor in Hv; [done|]. prop_bools.
  rewrite Hh' in Hmd. simpl in Hmd. destruct Hmd as [-> _]. 
  assert (size db <= size db') by (unfold size; rewrite He, length_app; lia).
  rewrite (proj2 (Z.ltb_ge _ _)) by lia. rewrite (proj2 (Z.ltb_ge (size db') _)) by lia. rewrite Z.eqb_refl. cbn [negb orb].
  rewrite He, List.filter_app, (filter_nothing _ rows), app_nil_r; [done|].
  eapply Forall_impl; [exact Hrows|]. intros r Hr. unfold is_none. by rewrite Hr.
Qed.

Lemma projection_renamed db db' row :
  log_ok db' -> 1 < size db' -> events db' = events db ++ [row] -> row_run_id row = None -> row_event_type row = "session.renamed" ->
  row_sequence row = size db' ->
  projection db' = Some {| pr_format_version := 1; pr_applied_sequence := size db'; pr_metadata_sequence := size db' |} ->
  validate_projection (size db') db' = Ok tt.
Proof.
  intros Hl' Hs He Hr Ht Hq Hp. unfold validate_projection. rewrite outside_runs by done. rewrite Hp. cbn -[size].
  rewrite Z.eqb_refl, Z.ltb_irrefl, (proj2 (Z.ltb_ge _ _)) by lia. cbn -[size].
  rewrite He, List.filter_app. cbn -[size]. rewrite Hr. cbn -[size]. rewrite last_snoc. cbn -[size bool_decide]. rewrite Hq, Z.eqb_refl, Hr, Ht.
  rewrite (proj2 (Z.eqb_neq (size db') 1)) by lia. rewrite (bool_decide_eq_true_2 ("session.renamed" = "session.renamed")) by done.
  cbn [negb andb orb is_some]. by rewrite andb_false_r.
Qed.

Lemma validate_session_projection id expected db m row :
  validate_session id expected db = Ok m -> manifest db = Some row -> user_version db = 3 ->
  validate_projection (mf_head_sequence row) db = Ok tt.
Proof.
  intros Hv Hm Hu. unfold validate_session in Hv. rewrite Hm, Hu in Hv. cbn [ok_or] in Hv.
  destruct (negb (application_id db =? _)); [done|]. destruct (negb (_ && _)); [done|]. destruct (negb (bool_decide (schema db = _))); [done|].
  repeat match type of Hv with
         | (if ?b then Err _ else _) = _ => destruct b; [done|]
         | match ?x with Ok _ => _ | Err _ => _ end = Ok _ => destruct x as [?|] eqn:?; [|done]
         end.
  match goal with Hx : _ = Ok ?u |- validate_projection _ _ = _ => by destruct u end.
Qed.

(** ** Commands *)

(** How the manifest of a session changes over time. *)
Record manifest_moves (m m' : SessionManifest) : Prop := {
  mm_session : sm_session_id m' = sm_session_id m;
  mm_workspace : sm_workspace m' = sm_workspace m;
  mm_created : sm_created_at_ms m' = sm_created_at_ms m;
  mm_head : sm_head_sequence m <= sm_head_sequence m';
  mm_same : sm_head_sequence m = sm_head_sequence m' -> m' = m
}.

#[global] Instance manifest_moves_preorder : PreOrder manifest_moves.
Proof.
  split; [by intros m; split|]. intros m1 m2 m3 [A1 B1 C1 D1 E1] [A2 B2 C2 D2 E2]. split; try congruence; [lia|].
  intros Heq. rewrite E2 by lia. apply E1. lia.
Qed.

Lemma validate_session_id id expected db m : validate_session id expected db = Ok m -> sm_session_id m = id.
Proof.
  intros Hv. unfold validate_session in Hv.
  repeat match type of Hv with
         | (if ?b then Err _ else _) = _ => destruct b; [done|]
         | match ?x with Ok _ => _ | Err _ => _ end = Ok _ => destruct x as [?|] eqn:?; [|done]
         end. by injection Hv as <-.
Qed.

Lemma grown_moves id expected db m m' n n' :
  validate_session id expected db = Ok m -> sm_head_sequence m = n -> n < n' -> sm_session_id m' = id ->
  sm_workspace m' = sm_workspace m -> sm_created_at_ms m' = sm_created_at_ms m -> sm_head_sequence m' = n' -> manifest_moves m m'.
Proof. intros Hv Hn Hlt Hi Hw Hc Hh. apply validate_session_id in Hv. split; try congruence; lia. Qed.

(** A command of a run that appended the rows of time [ts] and advanced the manifest. *)
Lemma run_command_valid id expected db db1 db' m row ts :
  sound db -> sound db' -> validate_session id expected db = Ok m -> manifest db = Some row -> 1 <= size db -> size db < size db' ->
  mf_head_sequence row = size db -> 0 <= ts -> events db `prefix_of` events db' ->
  steps ts db db1 -> events db' = events db1 -> projection db' = projection db1 -> applied (size db') db1 ->
  application_id db' = application_id db1 -> user_version db' = user_version db1 -> schema db' = schema db1 ->
  manifest db' = Some (advance (size db') ts row) ->
  exists m', validate_session id expected db' = Ok m' /\ manifest_moves m m'.
Proof.
  intros Hs Hs' Hv Hm Hone Hlt Hh Hts [rows Hrows] [A V S M R P] He Hpr Happ Ha' Hv' Hsch' Hm'.
  pose proof (sound_log _ Hs) as Hl. pose proof (sound_log _ Hs') as Hl'.
  assert (Forall (run_row_at ts) rows) as Hat.
  { apply Forall_forall. intros r Hr. destruct (R r) as [Hold|]; [rewrite <- He, Hrows; apply elem_of_app; by right| |done].
    pose proof (log_ok_bound db r Hl Hold). assert (size db < row_sequence r) as Hgt.
    { apply list_elem_of_lookup in Hr as [i Hi].
      assert (events db' !! (length (events db) + i)%nat = Some r) as Hlk.
      { rewrite Hrows, lookup_app_r by lia. by replace (length (events db) + i - length (events db))%nat with i by lia. }
      apply log_lookup in Hlk; [|done]. unfold size. lia. }
    unfold size in *. lia. }
  destruct (last rows) as [latest|] eqn:Hlast.
  2: { apply last_None in Hlast. subst rows. rewrite app_nil_r in Hrows. unfold size in Hlt. rewrite Hrows in Hlt. lia. }
  assert (run_row_at ts latest) as (L1 & L2 & L3 & L4).
  { rewrite Forall_forall in Hat. apply Hat. by apply last_Some_elem_of. }
  pose proof Hv as Hhead. apply validate_session_head in Hhead as (_ & _ & _ & _ & Hhead & _); [|done].
  pose proof (sound_length _ Hs') as Hmax.
  eexists. split; [eapply (validate_grown id expected db db' m row (advance (size db') ts row) latest)
    |apply (grown_moves id expected db _ _ (size db) (size db'))]; try done; simpl; try congruence; try lia.
  - apply log_max; [done|lia].
  - rewrite Hrows. by apply find_one.
  - apply log_last; [done|]. rewrite Hrows. by rewrite last_app, Hlast.
  - intros Hu3. apply (projection_run db db' rows); try done.
    + eapply Forall_impl; [exact Hat|]. by intros r (_ & _ & ? & _).
    + by rewrite Hpr.
    + destruct Happ as (h & ? & ? & ?). exists h. by rewrite Hpr.
    + rewrite <- Hh. by eapply validate_session_projection.
  - rewrite as_u64_small; unfold size, u64_max, i64_max in *; lia.
Qed.

(** The session passes the validation, with a manifest that moved on from [m]. *)
Definition validates (provenance : CreationProvenance) (m : SessionManifest) db : Prop :=
  exists m', validate_session (cp_session_id provenance) (Some provenance) db = Ok m' /\ manifest_moves m m'.

Lemma mutate_body_valid clock provenance owner operation run mutation db receipt db' :
  sound db -> clock_ok clock ->
  mutate_body clock provenance owner operation run mutation db = (Ok (receipt, false), db') ->
  exists m, validate_session (cp_session_id provenance) (Some provenance) db = Ok m /\ validates provenance m db'.
Proof.
  intros Hs Hclock Hb. destruct (mutate_body_spec _ _ _ _ _ _ _ _ _ _ Hs Hb) as (hash & _ & Hperf). simpl in Hperf.
  pose proof (pf_extended _ _ _ _ _ _ _ _ _ Hperf) as Hext. pose proof (ext_sound _ _ _ Hext) as Hs'.
  pose proof (ext_size _ _ _ Hext) as Hsz'. pose proof (pf_count _ _ _ _ _ _ _ _ _ Hperf) as Hcount.
  unfold mutate_body in Hb. set (id := cp_session_id provenance) in *.
  unbind Hb. injection Hc as _ <-. unbind Hb. injection Hc as Hf <-. destruct a0 as [c|].
  { by apply replay_command_Ok in Hb as (? & _). }
  unbind Hb. injection Hc as Hv <-. pose proof Hv as Hhead.
  apply validate_session_head in Hhead as (row & Hm & _ & Hh & Hhd & Hsz); [|done].
  exists a0. split; [done|]. rewrite Hhd in Hb. unbind Hb. injection Hc as _ <-. unbind Hb.
  assert (s = db) as ->.
  { destruct mutation; try by injection Hc as _ <-. unbind Hc. injection Hc0 as _ <-. unbind Hc. injection Hc0 as _ <-.
    unbind Hc. injection Hc0 as _ <-. by injection Hc as _ <-. }
  unbind Hb. injection Hc0 as Hr <-. apply sequence_range_Ok in Hr as (Hf1 & Hl1 & Hpos & Hmax); [|lia].
  destruct a3 as [first last]. simpl in Hf1, Hl1, Hmax, Hb. unbind Hb. injection Hc0 as Hts <-.
  apply (proj1 Hclock) in Hts. unbind Hb.
  assert (steps a3 db s /\ applied (as_u64 last) s) as [Hst Happ].
  { destruct mutation as [input|input selection|records]; simpl in Hl1.
    - apply accept_applied in Hc0 as [? Ha]. simpl in Ha. split; [done|]. by replace last with first by lia.
    - by apply accept_applied in Hc0.
    - do 4 (unbind Hc0; injection Hc1 as _ <-). unbind Hc0.
      assert (s0 = db) as ->.
      { destruct (is_some _) in Hc1; [unbind Hc1; injection Hc1 as _ <-; by injection Hc2 as _ <- | by injection Hc1 as _ <-]. }
      apply append_all_applied in Hc0 as [? Ha]. split; [done|]. replace last with (first + Z.of_nat (length records) - 1) by lia.
      apply Ha. intros ->. simpl in Hpos. lia. }
  unbind Hb. injection Hc1 as _ <-. unbind Hb. apply (update_manifest_Ok _ _ row) in Hc1 as ->; [|by rewrite (sp_manifest _ _ _ Hst)].
  unbind Hb. injection Hc1 as _ <-. unbind Hb. apply insert_command_Ok in Hc1 as [Hdb _]. injection Hb as _ <-.
  assert (last = size s0) as Hlast by lia.
  eapply (run_command_valid id (Some provenance) db s _ a0 row a3); try done; try lia.
  - apply (evolves_events _ _ (ext_evolves _ _ _ Hext)).
  - by rewrite Hdb.
  - by rewrite Hdb.
  - rewrite <- Hlast. rewrite as_u64_small in Happ; [done|]. unfold u64_max, i64_max in *. lia.
  - by rewrite Hdb.
  - by rewrite Hdb.
  - by rewrite Hdb.
  - rewrite <- Hlast, Hdb. done.
Qed.

Lemma reconcile_body_valid clock provenance owner db a db' :
  sound db -> clock_ok clock -> reconcile_body clock provenance owner db = (Ok a, db') ->
  exists m, validate_session (cp_session_id provenance) (Some provenance) db = Ok m /\ validates provenance m db'.
Proof.
  intros Hs Hclock Hb. pose proof Hb as Hspec. apply reconcile_body_spec in Hspec as [_ Hcase]; [|done].
  unfold reconcile_body in Hb. set (id := cp_session_id provenance) in *.
  unbind Hb. injection Hc as Hv <-. pose proof Hv as Hhead.
  apply validate_session_head in Hhead as (row & Hm & _ & Hh & Hhd & Hsz); [|done].
  exists a0. split; [done|]. destruct Hcase as [[_ ->]|(k & Hi)]; [by exists a0|].
  pose proof (ip_extended _ _ _ Hi) as Hext. pose proof (ext_size _ _ _ Hext) as Hsz'.
  unbind Hb. injection Hc as <- <-. destruct (select_runs _ db) as [|[k' r] l] eqn:Hsel.
  { injection Hb as _ ->. lia. }
  unbind Hb. injection Hc as _ <-. do 2 (unbind Hb; injection Hc as _ <-). unbind Hb. injection Hc as Hn <-. rewrite Hhd in Hn.
  apply next_sequence_Ok in Hn as [-> Hn]; [|lia]. unbind Hb. injection Hc as Hts <-. apply (proj1 Hclock) in Hts.
  unbind Hb. injection Hc as _ <-. unbind Hb. apply (stepping_insert_event _ _ a4) in Hc; [|done].
  unbind Hb. apply (stepping_update_run a4) in Hc0. assert (steps a4 db s0) as Hst by (by transitivity s).
  unbind Hb. apply (update_manifest_Ok _ _ row) in Hc1 as ->; [|by rewrite (sp_manifest _ _ _ Hst)].
  pose proof Hb as Happ. apply run_applied in Happ; [|done]. pose proof (apply_same _ _ _ _ _ _ Hb) as (_ & _ & _ & _ & Hma).
  apply (stepping_apply a4) in Hb; [|done].
  assert (steps a4 db (set_manifest (manifest db) db')) as Hst'.
  { transitivity s0; [done|]. destruct Hb as [B1 B2 B3 _ B5 B6]. split; try done. simpl. by rewrite (sp_manifest _ _ _ Hst). }
  assert (size db + 1 = size db') as Hlast by lia.
  eapply (run_command_valid id (Some provenance) db _ _ a0 row a4); [done|apply (ext_sound _ _ _ Hext)|done|done|lia|lia|done|done|
    apply (evolves_events _ _ (ext_evolves _ _ _ Hext))|exact Hst'|done|done| |done|done|done|].
  - rewrite <- Hlast. rewrite as_u64_small in Happ; [done|]. unfold u64_max, i64_max in *. lia.
  - by rewrite Hma, <- Hlast.
Qed.

Lemma rename_body_valid clock provenance operation title db receipt db' :
  sound db -> clock_ok clock ->
  rename_body clock provenance operation title db = (Ok (receipt, false), db') ->
  exists m, validate_session (cp_session_id provenance) (Some provenance) db = Ok m /\ validates provenance m db'.
Proof using laws.
  intros Hs Hclock Hb. destruct (rename_body_spec _ _ _ _ _ _ _ _ Hs Hb) as (q & _ & Hperf).
  pose proof (pf_extended _ _ _ _ _ _ _ _ _ Hperf) as Hext. pose proof (ext_sound _ _ _ Hext) as Hs'.
  pose proof (ext_size _ _ _ Hext) as Hsz'. pose proof (sound_length _ Hs') as Hmax'.
  unfold rename_body in Hb. set (id := cp_session_id provenance) in *.
  unbind Hb. injection Hc as _ <-. unbind Hb. injection Hc as Hf <-. destruct a0 as [c|].
  { destruct (_ || _) in Hb; [done|]. by destruct (_ || _) in Hb. }
  unbind Hb. injection Hc as Hv <-. pose proof Hv as Hhead.
  apply validate_session_head in Hhead as (row & Hm & _ & Hh & Hhd & Hsz); [|done].
  exists a0. split; [done|]. rewrite Hhd in Hb.
  unbind Hb. injection Hc as Hn <-. apply next_sequence_Ok in Hn as [-> Hn]; [|lia].
  unbind Hb. injection Hc as _ <-. unbind Hb. injection Hc as Hts <-. apply (proj1 Hclock) in Hts.
  unbind Hb. injection Hc as Hj <-. apply ok_or_Ok in Hj. unbind Hb. apply insert_event_row_Ok in Hc as [_ ->].
  match type of Hb with context [insert_row ?r (events db)] => set (erow := r) in Hb end.
  destruct (next_insert db erow (size db + 1) (conj (sound_log _ Hs) eq_refl) eq_refl) as [Hins _]. rewrite Hins in Hb.
  unbind Hb. apply (update_manifest_Ok _ _ row) in Hc as ->; [|done]. unbind Hb.
  pose proof (apply_same _ _ _ _ _ _ Hc) as (E1 & C1 & R1 & T1 & M1).
  assert (application_id s = application_id db /\ user_version s = user_version db /\ schema s = schema db /\
    projection s = Some {| pr_format_version := 1; pr_applied_sequence := as_u64 (size db + 1); pr_metadata_sequence := as_u64 (size db + 1) |})
    as (A1 & V1 & S1 & P1).
  { unfold apply in Hc. unbind Hc. injection Hc0 as _ <-. unbind Hc. injection Hc0 as <- <-.
    do 3 (unbind Hc; injection Hc0 as _ <-). destruct (_ || _) eqn:Hor in Hc; [done|]. prop_bools. unbind Hc.
    injection Hc0 as <- <-. injection Hc as _ <-. simpl. split_and!; try done. congruence. }
  unbind Hb. injection Hc0 as _ <-. unbind Hb. apply insert_command_Ok in Hc0 as [Hdb _]. injection Hb as _ ->. simpl in *.
  assert (size db' = size db + 1) as Hlast by lia.
  assert (events db' = events db ++ [erow]) as Hev by (rewrite Hdb; done).
  rewrite as_u64_small, <- Hlast in P1 by (unfold u64_max, i64_max, size in *; lia).
  eexists. split; [eapply (validate_grown id (Some provenance) db db' a0 row
      (advance (size db + 1) a2 (retitle title row)) erow)|apply (grown_moves id (Some provenance) db _ _ (size db) (size db'))];
    try done; simpl; try lia; try (rewrite Hdb; done).
  - rewrite <- Hlast. apply log_max; [apply Hs'|lia].
  - rewrite Hev. apply find_one; [apply Hs|lia].
  - rewrite <- Hlast. apply log_last; [apply Hs'|]. by rewrite Hev, last_snoc.
  - intros _. unfold is_renamed_to. rewrite (payload_round _ _ Hj : payload_from_json "session.renamed" _ = _).
    by rewrite bool_decide_eq_true_2.
  - intros _. rewrite <- Hlast. apply (projection_renamed db db' erow); try done; try apply Hs'; try (simpl; lia). transitivity (projection s); [by rewrite Hdb | exact P1].
  - rewrite as_u64_small; unfold size, u64_max, i64_max in *; lia.
Qed.

(** ** Attempts *)
Lemma attempt_valid provenance a m db :
  sound db -> clock_ok (at_clock a) -> validates provenance m db -> validates provenance m (attempt provenance a db).
Proof using laws.
  intros Hs Hclock Hv. assert (forall db', (exists m', validate_session (cp_session_id provenance) (Some provenance) db = Ok m' /\
    validates provenance m' db') -> validates provenance m db') as Hgo.
  { intros db' (m1 & Hm1 & m2 & Hm2 & Hmv). destruct Hv as (m0 & Hm0 & Hmv0). exists m2. split; [done|].
    assert (m0 = m1) as -> by congruence. by transitivity m1. }
  unfold attempt. destruct (at_request a) as [operation title|operation run mutation|];
    apply (transaction_keeps _ _ _ (validates provenance m)); try done.
  - intros [receipt dup] db1 Hb. destruct dup; [by apply rename_body_spec in Hb as (q & _ & -> & _)|].
    apply Hgo. by eapply rename_body_valid.
  - intros [receipt dup] db1 Hb. destruct dup; [by apply mutate_body_spec in Hb as (q & _ & -> & _)|].
    apply Hgo. by eapply mutate_body_valid.
  - intros x db1 Hb. apply Hgo. by eapply reconcile_body_valid.
Qed.

Lemma attempts_valid provenance l m db :
  sound db -> Forall (fun a => clock_ok (at_clock a)) l -> validates provenance m db ->
  validates provenance m (attempts provenance l db).
Proof using laws.
  intros Hs Hl. revert db Hs. induction Hl as [|a l Ha _ IH]; intros db Hs Hv; simpl; [done|].
  apply IH; [by apply attempt_keeps | by apply attempt_valid].
Qed.
End bodies.

(** ** What a command leaves alone

    A register is something of the database that the tables of a run, the log, the
    receipts and the projection do not show. *)
Class Register {D X : Type} (f : Db D -> X) : Prop := {
  reg_steps ts db db' : steps ts db db' -> f db' = f db;
  reg_events l db : f (set_events l db) = f db;
  reg_commands l db : f (set_commands l db) = f db;
  reg_projection h db : f (set_projection h db) = f db;
  reg_display d db : f (set_display d db) = f db
}.

Section registers.
Context {D : Type} `{Display D} `{UuidLib} `{StorageSerde} {X : Type} (f : Db D -> X).
Implicit Types db : Db D.

Definition leaves {A} (c : SM (Db D) StorageError A) : Prop :=
  forall db a db', c db = (Ok a, db') -> f db' = f db.

Lemma leaves_bind {A B} (c : SM (Db D) StorageError A) (k : A -> SM (Db D) StorageError B) :
  leaves c -> (forall a, leaves (k a)) -> leaves (bind c k).
Proof. intros Hc Hk db b db' Hb. unbind Hb. apply Hk in Hb. by rewrite Hb, (Hc _ _ _ Hc0). Qed.
Lemma leaves_ret {A} (a : A) : leaves (ret a).
Proof. by intros db x db' [= _ <-]. Qed.
Lemma leaves_throw {A} e : leaves (@throw (Db D) StorageError A e).
Proof. by intros db x db' Ht. Qed.
Lemma leaves_lift {A} (r : SResult A) : leaves (lift r).
Proof. intros db x db' Hl. by injection Hl as _ <-. Qed.
Lemma leaves_reads {A} (g : Db D -> SResult A) : leaves (reads g).
Proof. intros db x db' Hl. by injection Hl as _ <-. Qed.
Lemma leaves_gets {A} (g : Db D -> A) : leaves (gets g).
Proof. intros db x db' Hl. by injection Hl as _ <-. Qed.
Lemma leaves_update_manifest g :
  (forall m db, manifest db = Some m -> f (set_manifest (Some (g m)) db) = f db) -> leaves (update_manifest g).
Proof.
  intros Hg db x db' Hu. unfold update_manifest in Hu. destruct (manifest db) as [m|] eqn:Hm; [|by injection Hu as _ <-].
  unbind Hu. apply require_constraint_Ok in Hc as [_ ->]. injection Hu as _ <-. by apply Hg.
Qed.

Context {reg : Register f}.
#[local] Set Default Proof Using "Type reg".
Lemma leaves_insert_event_row row : leaves (insert_event_row row).
Proof. intros db x db' Hi. apply insert_event_row_Ok in Hi as [_ ->]. apply reg_events. Qed.
Lemma leaves_apply n run input : leaves (apply n run input).
Proof.
  intros db x db' Ha. unfold apply in Ha. unbind Ha. injection Hc as _ <-. unbind Ha. injection Hc as <- <-.
  destruct input; [destruct (_ || _); [done|]; injection Ha as _ <-; apply reg_projection|..];
    (do 3 (unbind Ha; injection Hc as _ <-); destruct (_ || _); [done|]; unbind Ha; injection Ha as _ <-; rewrite reg_projection).
  1: destruct (is_some run); [done|]; by injection Hc as _ <-.
  all: do 3 (unbind Hc; injection Hc0 as _ <-); unbind Hc; injection Hc0 as _ <-; injection Hc as _ <-; apply reg_display.
Qed.
Lemma leaves_insert_command c : leaves (insert_command c).
Proof. intros db x db' Hi. apply insert_command_Ok in Hi as [-> _]. apply reg_commands. Qed.
Lemma leaves_update_run k g : leaves (update_run k g).
Proof. intros db x db' Hu. by apply (stepping_update_run 0), reg_steps in Hu. Qed.
Lemma leaves_append_all clock id ts records run c u n : leaves (append_all clock id ts run c u n records).
Proof. intros db x db' Ha. apply append_all_applied in Ha as [Hs _]. by eapply reg_steps. Qed.
Lemma leaves_accept clock owner run first last ts input selection :
  leaves (accept clock owner run first last ts input selection).
Proof. intros db x db' Ha. apply accept_applied in Ha as [Hs _]. by eapply reg_steps. Qed.
End registers.

Create HintDb leaves.
#[export] Hint Resolve leaves_ret leaves_throw leaves_lift leaves_reads leaves_gets leaves_update_manifest
  leaves_insert_event_row leaves_apply leaves_insert_command leaves_update_run leaves_append_all leaves_accept : leaves.

Ltac leaves_auto :=
  repeat first
    [ solve [eauto with leaves typeclass_instances]
    | match goal with |- leaves _ (bind _ _) => apply leaves_bind; [|intros ?] end
    | match goal with |- leaves _ (match ?x with _ => _ end) => destruct x end
    | match goal with |- leaves _ (if ?x then _ else _) => destruct x end ].

#[global] Instance version_register {D} : Register (user_version (D := D)).
Proof. split; try done. intros ts db db' Hs. apply Hs. Qed.

(** The title, as the manifest has it. *)
Definition titled {D} (db : Db D) : option string := mf_title <$> manifest db.
#[global] Instance title_register {D} : Register (titled (D := D)).
Proof. split; try done. intros ts db db' Hs. unfold titled. by rewrite (sp_manifest _ _ _ Hs). Qed.

Section claims.
Context {D : Type} `{Display D} `{UuidLib} `{StorageSerde} {laws : StorageSerdeLaws}.
Implicit Types db : Db D.

Lemma attempt_version provenance a db : user_version (attempt provenance a db) = user_version db.
Proof.
  unfold attempt. destruct (at_request a) as [operation title|operation run mutation|];
    apply (transaction_keeps _ _ _ (fun db1 => user_version db1 = user_version db)); try done; intros x db1 Hb.
  - eassert (leaves (D := D) user_version (rename_body _ _ _ _)) as Hk; [|by eapply Hk]. unfold rename_body. leaves_auto.
  - eassert (leaves (D := D) user_version (mutate_body _ _ _ _ _ _)) as Hk; [|by eapply Hk]. unfold mutate_body, replay_command. leaves_auto.
  - eassert (leaves (D := D) user_version (reconcile_body _ _ _)) as Hk; [|by eapply Hk]. unfold reconcile_body, insert_event. leaves_auto.
Qed.

(** C36. A session never locks itself out.  A session that passes the validation
    every command starts with passes it again after any sequence of attempts, with
    any fates: with the same identity, workspace and time of creation, and a head
    that only grows; and while the head is the same nothing in the manifest changed. *)
Theorem commands_keep_valid provenance l db m :
  sound db -> Forall (fun a => clock_ok (at_clock a)) l ->
  validate_session (cp_session_id provenance) (Some provenance) db = Ok m ->
  exists m', validate_session (cp_session_id provenance) (Some provenance) (attempts provenance l db) = Ok m' /\
    manifest_moves m m'.
Proof using laws. intros Hs Hl Hv. apply attempts_valid; [done|done|]. by exists m. Qed.
End claims.
