(* ===== verification/Catalog.v ===== *)
(** * The catalog of sessions (src/src/storage/catalog.rs, catalog_ops.rs, catalog_sync.rs)

    The catalog database lists the sessions of a store and remembers which operation
    created which session.  Here are its tables with the constraints of the
    migration, the inspection every connection starts with, the typed rows, and the
    operations: reserve, complete and fail a creation, list, observe and publish. *)
From stdpp Require Import sorting.
From S2P Require Import Prelude Json Errors Identifiers Provider Tools Replay RunData Records Store History Session RunStore.

(** ** Tables *)
Record SessionRow : Type := {
  ses_relative_path : string;
  ses_title : string;
  ses_workspace_json : option string;
  ses_created_at_ms : Z;
  ses_updated_at_ms : Z;
  ses_head_sequence : Z;
  ses_schema_version : Z;
  ses_availability : string;
  ses_fault_code : option string;
  ses_last_run_id : option string;
  ses_last_run_state : option string;
  ses_seen_repair_id : option string
}.

Record CreationRow : Type := {
  cre_payload_hash : string;
  cre_request_json : string;
  cre_session_id : string;
  cre_creation_event_id : string;
  cre_created_at_ms : Z;
  cre_state : string;
  cre_receipt_json : option string;
  cre_failure_code : option string
}.

Record MetaRow : Type := {
  meta_singleton : Z;
  meta_format_version : Z;
  meta_repair_required : Z
}.

(** What the schema pragmas tell of a table. *)
Record ColumnInfo : Type := {
  ci_name : string;
  ci_type : string;
  ci_notnull : Z;
  ci_pk : Z;
  ci_hidden : Z
}.

Record IndexInfo : Type := {
  ix_unique : Z;
  ix_partial : Z;
  ix_keys : list (option string * Z * string)
}.

Record TableInfo : Type := {
  ti_type : string;
  ti_ncol : Z;
  ti_wr : Z;
  ti_strict : Z;
  ti_columns : list ColumnInfo;
  ti_indexes : list IndexInfo
}.

(** The catalog file; sessions and creations by their primary keys. *)
Record Catalog : Type := mkCatalog {
  cat_application_id : Z;
  cat_user_version : Z;
  cat_schema : gmap string TableInfo;
  cat_meta : list MetaRow;
  cat_sessions : gmap string SessionRow;
  cat_creations : gmap string CreationRow
}.

Definition set_meta (m : list MetaRow) (c : Catalog) : Catalog :=
  mkCatalog (cat_application_id c) (cat_user_version c) (cat_schema c) m (cat_sessions c) (cat_creations c).
Definition set_sessions (m : gmap string SessionRow) (c : Catalog) : Catalog :=
  mkCatalog (cat_application_id c) (cat_user_version c) (cat_schema c) (cat_meta c) m (cat_creations c).
Definition set_creations (m : gmap string CreationRow) (c : Catalog) : Catalog :=
  mkCatalog (cat_application_id c) (cat_user_version c) (cat_schema c) (cat_meta c) (cat_sessions c) m.

Notation Cat := (SM Catalog StorageError).

(** The CHECK and UNIQUE constraints of [sessions]. *)
Definition session_check (k : string) (r : SessionRow) (c : Catalog) : bool :=
  (0 <=? ses_head_sequence r)
  && existsb (fun n => bool_decide (n = ses_availability r)) ["creating"; "ready"; "missing"; "unavailable"]
  && forallb (fun kr => bool_decide (kr.1 = k) || negb (bool_decide (ses_relative_path kr.2 = ses_relative_path r)))
       (map_to_list (cat_sessions c)).

(** The CHECK and UNIQUE constraints of [creation_commands]. *)
Definition creation_check (k : string) (r : CreationRow) (c : Catalog) : bool :=
  (len (cre_payload_hash r) =? 32)
  && existsb (fun n => bool_decide (n = cre_state r)) ["creating"; "accepted"; "failed"]
  && forallb (fun kr => bool_decide (kr.1 = k) || negb (bool_decide (cre_session_id kr.2 = cre_session_id r)))
       (map_to_list (cat_creations c)).

(** INSERT and UPDATE of one row; writing a row that is there is UPDATE. *)
Definition insert_session (k : string) (r : SessionRow) : Cat unit :=
  do! require_constraint (fun c => is_none (cat_sessions c !! k) && session_check k r c) in
  modify (fun c => set_sessions (<[k := r]> (cat_sessions c)) c).

Definition insert_creation (k : string) (r : CreationRow) : Cat unit :=
  do! require_constraint (fun c => is_none (cat_creations c !! k) && creation_check k r c) in
  modify (fun c => set_creations (<[k := r]> (cat_creations c)) c).

Definition update_session (k : string) (f : SessionRow -> SessionRow) : Cat unit :=
  fun c => match cat_sessions c !! k with
           | None => (Ok tt, c)
           | Some r => (do! require_constraint (session_check k (f r)) in
                        modify (fun c => set_sessions (<[k := f r]> (cat_sessions c)) c)) c
           end.

Definition update_creation (k : string) (f : CreationRow -> CreationRow) : Cat unit :=
  fun c => match cat_creations c !! k with
           | None => (Ok tt, c)
           | Some r => (do! require_constraint (creation_check k (f r)) in
                        modify (fun c => set_creations (<[k := f r]> (cat_creations c)) c)) c
           end.

(** ** The inspection of a catalog file (catalog.rs) *)

(** [validate_table], [columns] with their name, type, NOT NULL and key flags. *)
Definition column_matches (c : ColumnInfo) (e : string * string * Z * Z) : bool :=
  let '(name, kind, not_null, pk) := e in
  bool_decide (ci_name c = name) && bool_decide (ci_type c = kind) && (ci_notnull c =? not_null)
  && (ci_pk c =? pk) && (ci_hidden c =? 0).

Fixpoint columns_match (actual : list ColumnInfo) (columns : list (string * string * Z * Z)) : bool :=
  match actual, columns with
  | a :: actual, e :: columns => column_matches a e && columns_match actual columns
  | _, _ => true
  end.

Definition validate_table (table : string) (columns : list (string * string * Z * Z)) (c : Catalog) : SResult unit :=
  let? t := ok_or (cat_schema c !! table) integrity in
  if negb (bool_decide (ti_type t = "table")) || negb (ti_ncol t =? Z.of_nat (length columns))
     || negb (ti_wr t =? 0) || negb (ti_strict t =? 1)
  then Err integrity
  else if negb (Nat.eqb (length (ti_columns t)) (length columns)) then Err integrity
  else if columns_match (ti_columns t) columns then Ok tt else Err integrity.

(** [require_index]. *)
Fixpoint keys_match (keys : list (option string * Z * string)) (columns : list string) : bool :=
  match keys, columns with
  | (name, desc, coll) :: keys, e :: columns =>
      bool_decide (name = Some e) && (desc =? 0) && bool_decide (coll = "BINARY") && keys_match keys columns
  | _, _ => true
  end.

Definition require_index (table : string) (columns : list string) (unique : bool) (c : Catalog) : SResult unit :=
  let indexes := List.filter (fun i => (ix_unique i =? (if unique then 1 else 0)) && (ix_partial i =? 0))
                   (default [] (ti_indexes <$> cat_schema c !! table)) in
  if existsb (fun i => Nat.eqb (length (ix_keys i)) (length columns) && keys_match (ix_keys i) columns) indexes
  then Ok tt else Err integrity.

Definition catalog_application_id : Z := 1464419137.
Definition catalog_version : Z := 1.

(** The columns [validate] expects. *)
Definition meta_columns : list (string * string * Z * Z) :=
  [("singleton", "INTEGER", 0, 1); ("format_version", "INTEGER", 1, 0); ("repair_required", "INTEGER", 1, 0)].
Definition sessions_columns : list (string * string * Z * Z) :=
  [("session_id", "TEXT", 1, 1); ("relative_path", "TEXT", 1, 0); ("title", "TEXT", 1, 0);
   ("workspace_json", "TEXT", 0, 0); ("created_at_ms", "INTEGER", 1, 0); ("updated_at_ms", "INTEGER", 1, 0);
   ("head_sequence", "INTEGER", 1, 0); ("schema_version", "INTEGER", 1, 0); ("availability", "TEXT", 1, 0);
   ("fault_code", "TEXT", 0, 0); ("last_run_id", "TEXT", 0, 0); ("last_run_state", "TEXT", 0, 0);
   ("seen_repair_id", "TEXT", 0, 0)].
Definition creation_columns : list (string * string * Z * Z) :=
  [("command_id", "TEXT", 1, 1); ("payload_hash", "BLOB", 1, 0); ("request_json", "TEXT", 1, 0);
   ("session_id", "TEXT", 1, 0); ("creation_event_id", "TEXT", 1, 0); ("created_at_ms", "INTEGER", 1, 0);
   ("state", "TEXT", 1, 0); ("receipt_json", "TEXT", 0, 0); ("failure_code", "TEXT", 0, 0)].

(** [validate]. *)
Definition validate_catalog (c : Catalog) : SResult unit :=
  if negb (cat_application_id c =? catalog_application_id) then Err integrity
  else if negb (cat_user_version c =? catalog_version)
  then Err (storage_error StorageErrorKind.UnsupportedVersion)
  else
    check? validate_table "catalog_meta" meta_columns c in
    check? validate_table "sessions" sessions_columns c in
    check? validate_table "creation_commands" creation_columns c in
    check? require_index "sessions" ["session_id"] true c in
    check? require_index "sessions" ["relative_path"] true c in
    check? require_index "sessions" ["availability"; "session_id"] false c in
    check? require_index "creation_commands" ["command_id"] true c in
    check? require_index "creation_commands" ["session_id"] true c in
    match take 2 (cat_meta c) with
    | [m] => if negb (meta_singleton m =? 1) || negb (meta_format_version m =? catalog_version)
                || negb ((meta_repair_required m =? 0) || (meta_repair_required m =? 1))
             then Err integrity else Ok tt
    | _ => Err integrity
    end.

(** The table the migration creates from its columns and keys. *)
Definition strict_table (columns : list (string * string * Z * Z)) (indexes : list IndexInfo) : TableInfo := {|
  ti_type := "table"; ti_ncol := Z.of_nat (length columns); ti_wr := 0; ti_strict := 1;
  ti_columns := (fun '(name, kind, not_null, pk) =>
      {| ci_name := name; ci_type := kind; ci_notnull := not_null; ci_pk := pk; ci_hidden := 0 |}) <$> columns;
  ti_indexes := indexes |}.

Definition plain_index (unique : Z) (columns : list string) : IndexInfo :=
  {| ix_unique := unique; ix_partial := 0; ix_keys := (fun n => (Some n, 0, "BINARY")) <$> columns |}.

Definition migrated_schema : gmap string TableInfo :=
  <["catalog_meta" := strict_table meta_columns []]>
  (<["sessions" := strict_table sessions_columns
       [plain_index 1 ["session_id"]; plain_index 1 ["relative_path"]; plain_index 0 ["availability"; "session_id"]]]>
  (<["creation_commands" := strict_table creation_columns
       [plain_index 1 ["command_id"]; plain_index 1 ["session_id"]]]> ∅)).

(** [MIGRATIONS]: creating a table that is there is an error. *)
Definition migrate : Cat unit :=
  do! require_constraint (fun c => is_none (cat_schema c !! "catalog_meta") && is_none (cat_schema c !! "sessions")
                                   && is_none (cat_schema c !! "creation_commands")) in
  modify (fun c => mkCatalog catalog_application_id catalog_version (migrated_schema ∪ cat_schema c) [] ∅ ∅).

(** [initialize]. *)
Definition initialize_catalog (fate : Fate) (repair_required : bool) : Catalog -> SResult unit * Catalog :=
  transaction fate
    (do! migrate in
     do! modify (fun c => set_meta (cat_meta c ++ [{| meta_singleton := 1; meta_format_version := 1;
            meta_repair_required := if repair_required then 1 else 0 |}]) c) in
     reads validate_catalog).

(** A new file, and that the migration makes a catalog of it that passes the inspection. *)
Definition blank_catalog : Catalog := mkCatalog 0 0 ∅ [] ∅ ∅.

Lemma migration_validates repair : exists c,
  initialize_catalog Committed repair blank_catalog = (Ok tt, c) /\ validate_catalog c = Ok tt.
Proof. exists (snd (initialize_catalog Committed repair blank_catalog)). destruct repair; vm_compute; by split. Qed.

(** ** Typed rows (catalog_ops.rs, dto.rs) *)
Module SessionAvailability.
Inductive t : Type := Creating | Ready | Missing | Unavailable.
#[global] Instance eq_dec : EqDecision t.
Proof. solve_decision. Defined.
End SessionAvailability.

#[export] Instance SessionManifest_eq_dec : EqDecision SessionManifest.
Proof. solve_decision. Defined.

Record SessionSummary : Type := {
  su_manifest : SessionManifest;
  su_schema_version : Z;
  su_availability : SessionAvailability.t;
  su_fault_code : option string;
  su_last_run_id : option string;
  su_last_run_state : option RecordedRunState.t
}.

#[export] Instance SessionSummary_eq_dec : EqDecision SessionSummary.
Proof. solve_decision. Defined.

#[export] Instance CommitCertainty_eq_dec : EqDecision CommitCertainty.t.
Proof. solve_decision. Defined.
#[export] Instance StorageError_eq_dec : EqDecision StorageError.
Proof. solve_decision. Defined.

Module CreationState.
Inductive t : Type := Creating | Accepted | Failed (error : StorageError).
#[global] Instance eq_dec : EqDecision t.
Proof. solve_decision. Defined.
End CreationState.

Record Reservation : Type := {
  rs_provenance : CreationProvenance;
  rs_state : CreationState.t
}.

Record Entry : Type := {
  en_summary : SessionSummary;
  en_reservation : Reservation
}.

Record SessionPage : Type := {
  pg_sessions : list SessionSummary;
  pg_next_after : option string;
  pg_has_more : bool
}.

(** [session_relative_path] (filesystem.rs). *)
Definition session_relative_path (id : string) : string :=
  String.append "sessions/" (String.append (String.substring 0 2 id)
    (String.append "/" (String.append id "/session.sqlite3"))).

Section catalog.
Context `{UuidLib} `{StorageSerde}.

(** [reservation]. *)
Definition reservation (command_id : string) (row : CreationRow) : SResult Reservation :=
  let? operation := map_err (parse_id command_id) (fun _ => integrity) in
  let? session := map_err (parse_id (cre_session_id row)) (fun _ => integrity) in
  let? receipt := receipt_single operation session 1 in
  let? hash := (if len (cre_payload_hash row) =? 32 then Ok (cre_payload_hash row) else Err integrity) in
  let? event := map_err (parse_id (cre_creation_event_id row)) (fun _ => integrity) in
  let provenance := {| cp_operation_id := operation; cp_method := "create_session";
                       cp_request_json := cre_request_json row; cp_payload_hash := hash;
                       cp_session_id := session; cp_creation_event_id := event;
                       cp_created_at_ms := cre_created_at_ms row; cp_receipt := receipt |} in
  check? provenance_request provenance in
  let? state :=
    if bool_decide (cre_state row = "creating") && is_none (cre_receipt_json row) && is_none (cre_failure_code row)
    then Ok CreationState.Creating
    else if bool_decide (cre_state row = "accepted") && is_none (cre_failure_code row) then
      let? json := ok_or (cre_receipt_json row) integrity in
      let? r := decode_receipt json in
      if bool_decide (r = receipt) then Ok CreationState.Accepted else Err integrity
    else if bool_decide (cre_state row = "failed") && is_none (cre_receipt_json row) then
      let? e := ok_or (code ← cre_failure_code row; from_code code) integrity in
      match se_kind e with
      | StorageErrorKind.Integrity | StorageErrorKind.Unavailable | StorageErrorKind.UnsupportedVersion
      | StorageErrorKind.CommandConflict => Ok (CreationState.Failed (not_committed e))
      | _ => Err integrity
      end
    else Err integrity in
  Ok {| rs_provenance := provenance; rs_state := state |}.

Definition availability_of_name (name : string) : option SessionAvailability.t :=
  if bool_decide (name = "creating") then Some SessionAvailability.Creating
  else if bool_decide (name = "ready") then Some SessionAvailability.Ready
  else if bool_decide (name = "missing") then Some SessionAvailability.Missing
  else if bool_decide (name = "unavailable") then Some SessionAvailability.Unavailable
  else None.

(** [summary]. *)
Definition summary (session_id : string) (row : SessionRow) : SResult SessionSummary :=
  let? id := map_err (parse_id session_id) (fun _ => integrity) in
  if negb (bool_decide (ses_relative_path row = session_relative_path id)) then Err integrity
  else
    let? availability := ok_or (availability_of_name (ses_availability row)) integrity in
    let head := ses_head_sequence row in
    let version := ses_schema_version row in
    if (head <? 0) || (version <? 1) || (ses_created_at_ms row <? 0) || (ses_updated_at_ms row <? 0)
       || (bool_decide (availability = SessionAvailability.Ready)
           && ((head =? 0) || negb ((1 <=? version) && (version <=? 3))))
    then Err integrity
    else
      let? fault := match ses_fault_code row with
                    | None => Ok None
                    | Some code => let? e := ok_or (from_code code) integrity in Ok (Some (kind_code (se_kind e)))
                    end in
      if match availability with
         | SessionAvailability.Ready | SessionAvailability.Creating => is_some fault
         | _ => false
         end
      then Err integrity
      else
        let? run := match ses_last_run_id row with
                    | None => Ok None
                    | Some r => let? r := map_err (parse_id r) (fun _ => integrity) in Ok (Some r)
                    end in
        let? state := match ses_last_run_state row with
                      | None => Ok None
                      | Some n => let? s := ok_or (state_of_name n) integrity in Ok (Some s)
                      end in
        if negb (Bool.eqb (is_some run) (is_some state)) then Err integrity
        else
          let? workspace := decode_workspace (ses_workspace_json row) in
          Ok {| su_manifest := {| sm_session_id := id; sm_title := ses_title row; sm_workspace := workspace;
                                  sm_created_at_ms := ses_created_at_ms row;
                                  sm_updated_at_ms := ses_updated_at_ms row; sm_head_sequence := as_u64 head |};
                su_schema_version := as_u64 version; su_availability := availability;
                su_fault_code := fault; su_last_run_id := run; su_last_run_state := state |}.

(** The creation row of a session; the column is unique. *)
Definition creation_of (session_id : string) (c : Catalog) : option (string * CreationRow) :=
  head (filter (fun kr => cre_session_id kr.2 = session_id) (map_to_list (cat_creations c))).

(** [entry_rows]. *)
Definition entry_rows (id : string) (c : Catalog) : SResult Entry :=
  let? row := ok_or (cat_sessions c !! id) (storage_error StorageErrorKind.NotFound) in
  let? s := summary id row in
  if bool_decide (su_availability s = SessionAvailability.Missing)
  then Err (storage_error StorageErrorKind.NotFound)
  else if bool_decide (su_availability s = SessionAvailability.Unavailable) && is_none (su_fault_code s)
  then Err (storage_error StorageErrorKind.Unavailable)
  else
    let? row := ok_or (creation_of id c)
                  (if bool_decide (su_availability s = SessionAvailability.Unavailable)
                   then storage_error StorageErrorKind.Unavailable else integrity) in
    let? r := reservation row.1 row.2 in
    let? input := provenance_request (rs_provenance r) in
    let m := su_manifest s in
    if negb (sm_created_at_ms m =? cp_created_at_ms (rs_provenance r))
       || negb (bool_decide (sm_workspace m = cs_workspace input))
       || (bool_decide (su_availability s = SessionAvailability.Ready)
           && negb (bool_decide (rs_state r = CreationState.Accepted)))
       || (bool_decide (su_availability s = SessionAvailability.Creating)
           && (negb (bool_decide (rs_state r = CreationState.Creating))
               || negb (sm_head_sequence m =? 0)
               || negb (bool_decide (sm_title m = cs_title input))
               || negb (sm_updated_at_ms m =? cp_created_at_ms (rs_provenance r))
               || negb (su_schema_version s =? 1)
               || is_some (su_last_run_id s) || is_some (su_last_run_state s)))
    then Err integrity
    else Ok {| en_summary := s; en_reservation := r |}.

(** ** Connections *)

(** What the surroundings do to one operation on the catalog: a refusal of the first
    connection, of the second one for writing, of the transaction, the fate of the
    transaction, and a failure to close the connection at the end. *)
Record Access : Type := {
  ac_open : option StorageError;
  ac_reopen : option StorageError;
  ac_begin : option StorageError;
  ac_fate : Fate;
  ac_close_failed : bool
}.

Definition refuse (e : option StorageError) : SResult unit :=
  match e with Some e => Err e | None => Ok tt end.

(** [connect_checked]. *)
Definition connect_checked (a : Access) (writable repairing : bool) (c : Catalog) : SResult unit :=
  check? refuse (ac_open a) in
  check? validate_catalog c in
  let? m := ok_or (find (fun m => meta_singleton m =? 1) (cat_meta c)) (storage_error StorageErrorKind.NotFound) in
  if negb (meta_repair_required m =? 0) && negb repairing
  then Err (storage_error StorageErrorKind.CatalogRepairRequired)
  else if writable then refuse (ac_reopen a) else Ok tt.

(** [finish_read] after a result. *)
Definition finish_read {A} (a : Access) (r : SResult A) : SResult A :=
  let? v := r in
  if ac_close_failed a then Err (storage_error StorageErrorKind.Io) else Ok v.

(** [finish_write]. *)
Definition finish_write {A} (a : Access) (r : SResult A) : SResult (A * option CleanupWarning) :=
  let? v := r in
  Ok (v, if ac_close_failed a then Some ConnectionCloseFailed else None).

(** A transaction of the catalog; [early] is what becomes of a refused BEGIN. *)
Definition catalog_transaction {A} (a : Access) (early : StorageError -> StorageError) (body : Cat A) (c : Catalog)
  : SResult A * Catalog :=
  match ac_begin a with
  | Some e => (Err (early e), c)
  | None => transaction (ac_fate a) body c
  end.

(** [entry]. *)
Definition entry (a : Access) (id : string) (c : Catalog) : SResult Entry :=
  check? connect_checked a false false c in
  finish_read a (entry_rows id c).

(** ** Creations *)

(** The identifiers and the time a new provenance takes. *)
Record Fresh : Type := {
  fr_session : string;
  fr_event : string;
  fr_now : SResult Z
}.

(** The body of [reserve]. *)
Definition reserve_body (fresh : Fresh) (input : CreateSession) : Cat (Reservation * bool) :=
  let! request := lift (ok_or (request_to_json (create_request input)) invalid) in
  let! known := gets (fun c => cat_creations c !! cs_operation_id input) in
  match known with
  | Some row =>
      let! reserved := lift (reservation (cs_operation_id input) row) in
      if negb (bool_decide (cp_payload_hash (rs_provenance reserved) = sha256 request))
         || negb (bool_decide (cp_request_json (rs_provenance reserved) = request))
      then throw conflict
      else if bool_decide (rs_state reserved = CreationState.Accepted) then ret (reserved, true)
      else
        let! entry := reads (entry_rows (cp_session_id (rs_provenance reserved))) in
        match rs_state (en_reservation entry) with
        | CreationState.Failed e => throw e
        | _ =>
            match su_availability (en_summary entry) with
            | SessionAvailability.Missing | SessionAvailability.Unavailable =>
                throw (storage_error StorageErrorKind.Unavailable)
            | _ => ret (reserved, true)
            end
        end
  | None =>
      let! provenance := lift (new_provenance (fr_session fresh) (fr_event fresh) (fr_now fresh) input) in
      do! insert_creation (cp_operation_id provenance)
            {| cre_payload_hash := cp_payload_hash provenance; cre_request_json := cp_request_json provenance;
               cre_session_id := cp_session_id provenance;
               cre_creation_event_id := cp_creation_event_id provenance;
               cre_created_at_ms := cp_created_at_ms provenance; cre_state := "creating";
               cre_receipt_json := None; cre_failure_code := None |} in
      let! workspace := lift (workspace_to_json (cs_workspace input)) in
      do! insert_session (cp_session_id provenance)
            {| ses_relative_path := session_relative_path (cp_session_id provenance); ses_title := cs_title input;
               ses_workspace_json := workspace; ses_created_at_ms := cp_created_at_ms provenance;
               ses_updated_at_ms := cp_created_at_ms provenance; ses_head_sequence := 0; ses_schema_version := 1;
               ses_availability := "creating"; ses_fault_code := None; ses_last_run_id := None;
               ses_last_run_state := None; ses_seen_repair_id := None |} in
      ret ({| rs_provenance := provenance; rs_state := CreationState.Creating |}, false)
  end.

(** [StorageError::unknown]. *)
Definition unknown (e : StorageError) : StorageError :=
  {| se_kind := se_kind e; se_certainty := CommitCertainty.Unknown |}.

(** [reserve]. *)
Definition reserve (a : Access) (fresh : Fresh) (input : CreateSession) (c : Catalog)
  : SResult (Reservation * bool) * Catalog :=
  match map_err (connect_checked a true false c) not_committed with
  | Err e => (Err e, c)
  | Ok _ =>
      let '(r, c') := catalog_transaction a not_committed (reserve_body fresh input) c in
      (let? rw := finish_write a r in
       if is_some (snd rw) then Err (unknown (storage_error StorageErrorKind.CreationIncomplete)) else Ok (fst rw), c')
  end.

Definition completed_session (m : SessionManifest) (version : Z) (r : SessionRow) : SessionRow := {|
  ses_relative_path := ses_relative_path r; ses_title := sm_title m; ses_workspace_json := ses_workspace_json r;
  ses_created_at_ms := ses_created_at_ms r; ses_updated_at_ms := sm_updated_at_ms m;
  ses_head_sequence := as_i64 (sm_head_sequence m); ses_schema_version := as_i64 version;
  ses_availability := "ready"; ses_fault_code := None; ses_last_run_id := ses_last_run_id r;
  ses_last_run_state := ses_last_run_state r; ses_seen_repair_id := ses_seen_repair_id r |}.

Definition creation_settled (state : string) (receipt failure : option string) (r : CreationRow) : CreationRow := {|
  cre_payload_hash := cre_payload_hash r; cre_request_json := cre_request_json r;
  cre_session_id := cre_session_id r; cre_creation_event_id := cre_creation_event_id r;
  cre_created_at_ms := cre_created_at_ms r; cre_state := state; cre_receipt_json := receipt;
  cre_failure_code := failure |}.

(** The body of [complete]. *)
Definition complete_body (provenance : CreationProvenance) (m : SessionManifest) (version : Z) : Cat unit :=
  let! entry := reads (entry_rows (cp_session_id provenance)) in
  let reserved := en_reservation entry in
  if negb (bool_decide (rs_provenance reserved = provenance)) then throw integrity
  else if bool_decide (rs_state reserved = CreationState.Accepted) then ret tt
  else if negb (bool_decide (rs_state reserved = CreationState.Creating))
          || negb (bool_decide (su_availability (en_summary entry) = SessionAvailability.Creating))
  then throw integrity
  else
    do! update_session (cp_session_id provenance) (completed_session m version) in
    let! receipt := lift (ok_or (receipt_to_json (cp_receipt provenance)) invalid) in
    update_creation (cp_operation_id provenance)
      (fun r => creation_settled "accepted" (Some receipt) (cre_failure_code r) r).

(** [complete]. *)
Definition complete (a : Access) (provenance : CreationProvenance) (m : SessionManifest) (version : Z) (c : Catalog)
  : SResult (option CleanupWarning) * Catalog :=
  match connect_checked a true false c with
  | Err e => (Err e, c)
  | Ok _ =>
      let '(r, c') := catalog_transaction a (fun e => e) (complete_body provenance m version) c in
      (let? rw := finish_write a r in Ok (snd rw), c')
  end.

Definition faulted_session (code : string) (r : SessionRow) : SessionRow := {|
  ses_relative_path := ses_relative_path r; ses_title := ses_title r; ses_workspace_json := ses_workspace_json r;
  ses_created_at_ms := ses_created_at_ms r; ses_updated_at_ms := ses_updated_at_ms r;
  ses_head_sequence := ses_head_sequence r; ses_schema_version := ses_schema_version r;
  ses_availability := "unavailable"; ses_fault_code := Some code; ses_last_run_id := ses_last_run_id r;
  ses_last_run_state := ses_last_run_state r; ses_seen_repair_id := ses_seen_repair_id r |}.

(** The body of [fail]. *)
Definition fail_body (provenance : CreationProvenance) (error : StorageError) : Cat unit :=
  let! entry := reads (entry_rows (cp_session_id provenance)) in
  if negb (bool_decide (rs_provenance (en_reservation entry) = provenance))
     || negb (bool_decide (rs_state (en_reservation entry) = CreationState.Creating))
  then throw integrity
  else
    do! update_creation (cp_operation_id provenance)
          (fun r => creation_settled "failed" (cre_receipt_json r) (Some (kind_code (se_kind error))) r) in
    update_session (cp_session_id provenance) (faulted_session (kind_code (se_kind error))).

(** [fail]. *)
Definition fail (a : Access) (provenance : CreationProvenance) (error : StorageError) (c : Catalog)
  : SResult unit * Catalog :=
  match connect_checked a true false c with
  | Err e => (Err e, c)
  | Ok _ =>
      let '(r, c') := catalog_transaction a (fun e => e) (fail_body provenance error) c in
      (finish_read a r, c')
  end.

(** ** Lists *)
Definition session_ids (c : Catalog) : list string := merge_sort String.le (map_to_list (cat_sessions c)).*1.

Fixpoint summaries (ids : list string) (c : Catalog) : SResult (list SessionSummary) :=
  match ids with
  | [] => Ok []
  | id :: ids =>
      let? row := ok_or (cat_sessions c !! id) integrity in
      let? s := summary id row in
      let? rest := summaries ids c in
      Ok (s :: rest)
  end.

(** [list]. *)
Definition list_rows (after : option string) (limit : Z) (c : Catalog) : SResult SessionPage :=
  let ids := take (Z.to_nat limit)
               (List.filter (fun id => negb (String.leb id (default "" after))) (session_ids c)) in
  let? sessions := summaries ids c in
  let has_more := Z.of_nat (length sessions) =? as_u64 limit in
  let sessions := if has_more then removelast sessions else sessions in
  Ok {| pg_sessions := sessions;
        pg_next_after := match last sessions with
                         | Some s => Some (sm_session_id (su_manifest s))
                         | None => after
                         end;
        pg_has_more := has_more |}.

Definition list_sessions (a : Access) (after : option string) (page_size : Z) (c : Catalog) : SResult SessionPage :=
  let? limit := page_limit page_size in
  check? connect_checked a false false c in
  finish_read a (list_rows after limit c).
End catalog.

(** ** Keeping the catalog up to date (catalog_sync.rs) *)
Module RefreshResult.
Inductive t : Type := Updated | Unchanged.
End RefreshResult.

Section sync.
Context {D : Type} `{UuidLib} `{StorageSerde}.
Implicit Types db : Db D.

(** The run accepted last. *)
Fixpoint latest_run (l : list (string * RunRow)) : option (string * RunRow) :=
  match l with
  | [] => None
  | x :: l =>
      match latest_run l with
      | Some y => if run_accepted_sequence x.2 <? run_accepted_sequence y.2 then Some y else Some x
      | None => Some x
      end
  end.

(** [version] (session_schema.rs). *)
Definition session_version db : SResult Z :=
  if (1 <=? user_version db) && (user_version db <=? 3) then Ok (as_u64 (user_version db))
  else Err (storage_error StorageErrorKind.UnsupportedVersion).

(** [observe]. *)
Definition observe (id : string) db : SResult SessionSummary :=
  let? m := validate_session id None db in
  let? run := match latest_run (map_to_list (runs db)) with
              | None => Ok None
              | Some (key, _) =>
                  let? run := map_err (parse_id key) (fun _ => integrity) in
                  let? r := run_record id run db in
                  let? r := ok_or r integrity in
                  Ok (Some (run, rr_state r))
              end in
  let? version := session_version db in
  Ok {| su_manifest := m; su_schema_version := version; su_availability := SessionAvailability.Ready;
        su_fault_code := None; su_last_run_id := fst <$> run; su_last_run_state := snd <$> run |}.

Definition at_version (version : Z) (s : SessionSummary) : SessionSummary := {|
  su_manifest := su_manifest s; su_schema_version := version; su_availability := su_availability s;
  su_fault_code := su_fault_code s; su_last_run_id := su_last_run_id s; su_last_run_state := su_last_run_state s |}.

Definition published_session (o : SessionSummary) (workspace : option string) (r : SessionRow) : SessionRow := {|
  ses_relative_path := ses_relative_path r; ses_title := sm_title (su_manifest o); ses_workspace_json := workspace;
  ses_created_at_ms := sm_created_at_ms (su_manifest o); ses_updated_at_ms := sm_updated_at_ms (su_manifest o);
  ses_head_sequence := as_i64 (sm_head_sequence (su_manifest o)); ses_schema_version := as_i64 (su_schema_version o);
  ses_availability := ses_availability r; ses_fault_code := ses_fault_code r;
  ses_last_run_id := su_last_run_id o; ses_last_run_state := state_name <$> su_last_run_state o;
  ses_seen_repair_id := ses_seen_repair_id r |}.

(** The body of [publish]. *)
Definition publish_body (o : SessionSummary) : Cat RefreshResult.t :=
  let id := sm_session_id (su_manifest o) in
  let head s := sm_head_sequence (su_manifest s) in
  let! row := reads (fun c => ok_or (cat_sessions c !! id) (storage_error StorageErrorKind.NotFound)) in
  let! current := lift (summary id row) in
  do! lift match su_availability current with
           | SessionAvailability.Ready => Ok tt
           | SessionAvailability.Creating => Err (storage_error StorageErrorKind.CreationIncomplete)
           | SessionAvailability.Missing => Err (storage_error StorageErrorKind.NotFound)
           | SessionAvailability.Unavailable => Err (storage_error StorageErrorKind.Unavailable)
           end in
  if negb (bool_decide (su_availability o = SessionAvailability.Ready)) || is_some (su_fault_code o)
     || negb ((1 <=? su_schema_version o) && (su_schema_version o <=? 3))
     || (su_schema_version o <? su_schema_version current)
  then throw integrity
  else if head o <? head current then throw integrity
  else if (head current =? head o) && bool_decide (current = o) then ret RefreshResult.Unchanged
  else if (head current =? head o)
          && ((su_schema_version o <=? su_schema_version current)
              || negb (bool_decide (at_version (su_schema_version o) current = o)))
  then throw integrity
  else
    let! workspace := lift (workspace_to_json (sm_workspace (su_manifest o))) in
    do! (fun c => match cat_sessions c !! id with
                  | Some r => if bool_decide (ses_availability r = "ready") && (ses_head_sequence r <=? as_i64 (head o))
                              then update_session id (published_session o workspace) c else (Ok tt, c)
                  | None => (Ok tt, c)
                  end) in
    ret RefreshResult.Updated.

(** [publish]. *)
Definition publish (a : Access) (o : SessionSummary) (c : Catalog) : SResult RefreshResult.t * Catalog :=
  match connect_checked a true false c with
  | Err e => (Err e, c)
  | Ok _ =>
      let '(r, c') := catalog_transaction a (fun e => e) (publish_body o) c in
      (let? rw := finish_write a r in
       if is_some (snd rw) then Err (unknown (storage_error StorageErrorKind.Io)) else Ok (fst rw), c')
  end.
End sync.
