(* ===== verification/Creation.v ===== *)
(** * Creating and opening sessions (src/src/storage/creation.rs, session.rs, catalog_sync.rs)

    A store is the catalog and one file per session.  A creation is a sequence of
    steps - reserve the operation in the catalog, take the lock of the session, look
    at the reservation again, materialize the file, complete the reservation - between
    which other operations of the store run; every step meets whatever the file
    system and SQLite do to it. *)
From S2P Require Import Prelude Json Errors Identifiers Provider Tools Replay RunData Records Store History Session RunStore StoreGuarantees StoreContents Catalog.

(** The files of a store. *)
Record Disk (D : Type) : Type := mkDisk {
  dk_catalog : Catalog;
  dk_files : gmap string (Db D)
}.
Arguments mkDisk {D}.
Arguments dk_catalog {D} _.
Arguments dk_files {D} _.

(** What the surroundings do to the work on a session file: a refusal of its path,
    of creating or opening it (possibly leaving a blank file), a failed close after
    looking at it, a refusal of opening it for writing, the fate of the transaction
    and a failed close at the end. *)
Record FileAccess : Type := {
  fa_path : option StorageError;
  fa_open : option StorageError;
  fa_left : bool;
  fa_read_close : bool;
  fa_reopen : option StorageError;
  fa_fate : Fate;
  fa_close_failed : bool
}.

Record CreateResult : Type := {
  ct_session_id : string;
  ct_commit : CommitResult
}.

(** [CreateResult::new]. *)
Definition new_create_result (c : CommitResult) : CreateResult :=
  {| ct_session_id := rc_session_id (cm_receipt c); ct_commit := c |}.

(** [incomplete]. *)
Definition incomplete (e : StorageError) : StorageError :=
  match se_kind e with
  | StorageErrorKind.CommitUnknown => e
  | _ => unknown (storage_error StorageErrorKind.CreationIncomplete)
  end.

Section creation.
Context {D : Type} `{Display D} `{UuidLib} `{StorageSerde}.
Implicit Types files : gmap string (Db D).
Implicit Types disk : Disk D.

(** A file just created. *)
Definition blank_file : Db D := mkDb 0 0 No_objects None [] [] ∅ ∅ None empty_display.

(** The second half of [materialize]: the tables of a file without any. *)
Definition materialize_blank (fa : FileAccess) (provenance : CreationProvenance) (db : Db D) files
  : SResult ((SessionManifest * Z) * option CleanupWarning) * gmap string (Db D) :=
  let id := cp_session_id provenance in
  let files := <[id := db]> files in
  match fa_reopen fa with
  | Some e => (Err e, files)
  | None =>
      let '(r, db') := initialize (fa_fate fa) provenance db in
      (let? m := r in Ok ((m, 3), if fa_close_failed fa then Some ConnectionCloseFailed else None),
       <[id := db']> files)
  end.

(** [materialize]. *)
Definition materialize (fa : FileAccess) (provenance : CreationProvenance) files
  : SResult ((SessionManifest * Z) * option CleanupWarning) * gmap string (Db D) :=
  let id := cp_session_id provenance in
  match fa_path fa with
  | Some e => (Err e, files)
  | None =>
      match files !! id with
      | None =>
          match fa_open fa with
          | Some e => (Err e, if fa_left fa then <[id := blank_file]> files else files)
          | None => materialize_blank fa provenance blank_file files
          end
      | Some db =>
          match (check? refuse (fa_open fa) in
                 let? r := (if empty db then Ok None
                            else let? m := validate_session id (Some provenance) db in
                                 let? version := session_version db in
                                 Ok (Some (m, version))) in
                 if fa_read_close fa then Err (storage_error StorageErrorKind.Io) else Ok r) with
          | Err e => (Err e, files)
          | Ok (Some r) => (Ok (r, None), files)
          | Ok None => materialize_blank fa provenance db files
          end
      end
  end.

(** What the surroundings do to one step. *)
Record Weather : Type := {
  we_access : Access;
  we_fresh : Fresh;
  we_file : FileAccess
}.

(** Where a creation is. *)
Inductive Phase : Type :=
| Reserving
| Waiting (provenance : CreationProvenance) (duplicate : bool)
| Inspecting (provenance : CreationProvenance) (duplicate : bool)
| Materializing (provenance : CreationProvenance) (duplicate : bool)
| Completing (provenance : CreationProvenance) (duplicate : bool) (manifest : SessionManifest) (version : Z)
    (warning : option CleanupWarning)
| Failing (provenance : CreationProvenance) (error : StorageError)
| Returned (r : SResult CreateResult).

Definition committed (provenance : CreationProvenance) (duplicate : bool) (warning : option CleanupWarning) : Phase :=
  Returned (Ok (new_create_result {| cm_receipt := cp_receipt provenance; cm_duplicate := duplicate;
                                     cm_cleanup_warning := warning |})).

Definition on_catalog (c : Catalog) disk : Disk D := mkDisk c (dk_files disk).
Definition on_files files disk : Disk D := mkDisk (dk_catalog disk) files.

(** The errors of [materialize] that are the fault of the file. *)
Definition broken_file (e : StorageError) : bool :=
  match se_kind e with
  | StorageErrorKind.Integrity | StorageErrorKind.UnsupportedVersion | StorageErrorKind.Unavailable => true
  | _ => false
  end.

(** [create], one step at a time. *)
Definition create_step (w : Weather) (input : CreateSession) (p : Phase) disk : Phase * Disk D :=
  match p with
  | Reserving =>
      let '(r, c) := reserve (we_access w) (we_fresh w) input (dk_catalog disk) in
      (match r with
       | Err e => Returned (Err e)
       | Ok (reserved, duplicate) =>
           if bool_decide (rs_state reserved = CreationState.Accepted)
           then committed (rs_provenance reserved) true None
           else Waiting (rs_provenance reserved) duplicate
       end, on_catalog c disk)
  | Waiting provenance duplicate => (Inspecting provenance duplicate, disk)
  | Inspecting provenance duplicate =>
      (match map_err (entry (we_access w) (cp_session_id provenance) (dk_catalog disk)) incomplete with
       | Err e => Returned (Err e)
       | Ok entry =>
           if negb (bool_decide (rs_provenance (en_reservation entry) = provenance))
           then Returned (Err (incomplete integrity))
           else match rs_state (en_reservation entry) with
                | CreationState.Accepted => committed provenance duplicate None
                | CreationState.Failed e => Returned (Err e)
                | CreationState.Creating => Materializing provenance duplicate
                end
       end, disk)
  | Materializing provenance duplicate =>
      let '(r, files) := materialize (we_file w) provenance (dk_files disk) in
      (match r with
       | Ok ((m, version), warning) => Completing provenance duplicate m version warning
       | Err e => if broken_file e then Failing provenance e else Returned (Err (incomplete e))
       end, on_files files disk)
  | Completing provenance duplicate m version warning =>
      let '(r, c) := complete (we_access w) provenance m version (dk_catalog disk) in
      (match map_err r incomplete with
       | Err e => Returned (Err e)
       | Ok w => committed provenance duplicate (match warning with Some x => Some x | None => w end)
       end, on_catalog c disk)
  | Failing provenance e =>
      let '(r, c) := fail (we_access w) provenance e (dk_catalog disk) in
      (match map_err r incomplete with
       | Err e => Returned (Err e)
       | Ok _ => Returned (Err (not_committed e))
       end, on_catalog c disk)
  | Returned r => (Returned r, disk)
  end.

(** [create] when nothing comes between its steps. *)
Fixpoint create_steps (n : nat) (w : Weather) (input : CreateSession) (p : Phase) disk : Phase * Disk D :=
  match n with
  | O => (p, disk)
  | S n => let '(p', disk') := create_step w input p disk in create_steps n w input p' disk'
  end.

(** [connection] (session.rs): the checks before a session is worked on. *)
Definition connection (w : Weather) (id : string) (writable : bool) disk : SResult CreationProvenance :=
  let? entry := entry (we_access w) id (dk_catalog disk) in
  let s := en_summary entry in
  check? match su_availability s with
         | SessionAvailability.Ready => Ok tt
         | SessionAvailability.Creating => Err (unknown (storage_error StorageErrorKind.CreationIncomplete))
         | SessionAvailability.Missing => Err (storage_error StorageErrorKind.NotFound)
         | SessionAvailability.Unavailable => Err (storage_error StorageErrorKind.Unavailable)
         end in
  if negb (bool_decide (rs_state (en_reservation entry) = CreationState.Accepted)) then Err integrity
  else
    let provenance := rs_provenance (en_reservation entry) in
    check? refuse (fa_path (we_file w)) in
    let? db := ok_or (dk_files disk !! id) (storage_error StorageErrorKind.NotFound) in
    check? refuse (fa_open (we_file w)) in
    let? m := validate_session id (Some provenance) db in
    let? version := session_version db in
    let observed := su_manifest s in
    if (version <? su_schema_version s) || (sm_head_sequence m <? sm_head_sequence observed)
       || ((sm_head_sequence observed =? sm_head_sequence m) && negb (bool_decide (observed = m)))
    then Err integrity
    else if writable
    then if fa_read_close (we_file w) then Err (storage_error StorageErrorKind.Io)
         else check? refuse (fa_reopen (we_file w)) in Ok provenance
    else Ok provenance.

(** The first half of [refresh]: what the session is like now.  Here [fa_reopen] is
    a refusal of the reading transaction. *)
Definition refresh_observe (w : Weather) (id : string) disk : SResult SessionSummary :=
  check? connection w id false disk in
  check? refuse (fa_reopen (we_file w)) in
  let? db := ok_or (dk_files disk !! id) (storage_error StorageErrorKind.NotFound) in
  let? o := observe id db in
  if fa_close_failed (we_file w) then Err (storage_error StorageErrorKind.Io) else Ok o.

(** ** The store at work *)

(** The creations under way with their requests, the summaries on their way to the
    catalog, and the files. *)
Record Store : Type := mkStore {
  sto_disk : Disk D;
  sto_creating : gmap nat (CreateSession * Phase);
  sto_publishing : gmap nat SessionSummary
}.

(** The session whose lock a creation holds. *)
Definition locks (p : Phase) : option string :=
  match p with
  | Inspecting q _ | Materializing q _ | Completing q _ _ _ _ | Failing q _ => Some (cp_session_id q)
  | _ => None
  end.

Definition unlocked (id : string) (s : Store) : Prop :=
  forall k i p, sto_creating s !! k = Some (i, p) -> locks p <> Some id.

(** What identifiers and clocks give. *)
Definition fresh_ok (f : Fresh) : Prop :=
  parse_id (fr_session f) = Ok (fr_session f) /\ parse_id (fr_event f) = Ok (fr_event f) /\
  forall t, fr_now f = Ok t -> 0 <= t.

(** A request [CreateSession::new] has admitted. *)
Definition admitted (input : CreateSession) : Prop :=
  parse_id (cs_operation_id input) = Ok (cs_operation_id input) /\ validate_workspace (cs_workspace input) = Ok tt.

Inductive store_step (s : Store) : Store -> Prop :=
| step_begin k input :
    sto_creating s !! k = None -> admitted input ->
    store_step s (mkStore (sto_disk s) (<[k := (input, Reserving)]> (sto_creating s)) (sto_publishing s))
| step_advance k input p w p' disk' :
    sto_creating s !! k = Some (input, p) -> fresh_ok (we_fresh w) ->
    (forall q duplicate, p = Waiting q duplicate -> unlocked (cp_session_id q) s) ->
    create_step w input p (sto_disk s) = (p', disk') ->
    store_step s (mkStore disk' (<[k := (input, p')]> (sto_creating s)) (sto_publishing s))
| step_forget k :
    store_step s (mkStore (sto_disk s) (delete k (sto_creating s)) (sto_publishing s))
| step_command w id provenance db a :
    unlocked id s -> connection w id true (sto_disk s) = Ok provenance ->
    dk_files (sto_disk s) !! id = Some db -> clock_ok (at_clock a) ->
    store_step s (mkStore (on_files (<[id := attempt provenance a db]> (dk_files (sto_disk s))) (sto_disk s))
                    (sto_creating s) (sto_publishing s))
| step_observe k w id o :
    unlocked id s -> sto_publishing s !! k = None -> refresh_observe w id (sto_disk s) = Ok o ->
    store_step s (mkStore (sto_disk s) (sto_creating s) (<[k := o]> (sto_publishing s)))
| step_publish k w o r c :
    sto_publishing s !! k = Some o -> publish (we_access w) o (dk_catalog (sto_disk s)) = (r, c) ->
    store_step s (mkStore (on_catalog c (sto_disk s)) (sto_creating s) (delete k (sto_publishing s)))
| step_drop k :
    store_step s (mkStore (sto_disk s) (sto_creating s) (delete k (sto_publishing s))).

(** A store opened on an empty directory. *)
Definition opened (s : Store) : Prop :=
  initialize_catalog Committed false blank_catalog = (Ok tt, dk_catalog (sto_disk s)) /\
  dk_files (sto_disk s) = ∅ /\ sto_creating s = ∅ /\ sto_publishing s = ∅.

Inductive reachable : Store -> Prop :=
| reachable_opened s : opened s -> reachable s
| reachable_step s s' : reachable s -> store_step s s' -> reachable s'.
End creation.
