(* ===== verification/CatalogFacts.v ===== *)
(** * Rows of the catalog

    What the typed rows say, which rows the operations write, and that an entry of
    the catalog depends on its own two rows only. *)
From S2P Require Import Prelude Json Errors Identifiers Provider Tools Replay RunData Hoare Records Store History Session RunStore StoreSafety StoreCommands StoreGuarantees StoreContents Valid Catalog.

(** Decide comparisons of literals. *)
Ltac literals :=
  repeat match goal with
         | |- context [bool_decide (String ?a ?s = String ?b ?t)] =>
             let v := eval vm_compute in (bool_decide (String a s = String b t)) in
             change (bool_decide (String a s = String b t)) with v
         end.

Section rows.
Context `{UuidLib} `{StorageSerde} {laws : StorageSerdeLaws}.
Implicit Types c : Catalog.

Lemma stored_id_same value id : parse_id value = Ok id -> id = value.
Proof. unfold parse_id. destruct (parse_str value); [|done]. cbn [ok_or]. destruct (_ || _); [done|]. congruence. Qed.

Lemma parse_stored_id value id : map_err (parse_id value) (fun _ => integrity) = Ok id -> parse_id value = Ok value /\ id = value.
Proof. intros Hp. apply map_err_Ok in Hp. pose proof (stored_id_same _ _ Hp) as ->. done. Qed.

Lemma receipt_first operation session :
  receipt_single operation session 1 = Ok {| rc_operation_id := operation; rc_session_id := session; rc_run_id := None;
    rc_first_sequence := 1; rc_last_sequence := 1 |}.
Proof. done. Qed.

(** ** Reservations *)

(** The provenance of a creation row. *)
Definition row_provenance (operation : string) (row : CreationRow) : CreationProvenance :=
  {| cp_operation_id := operation; cp_method := "create_session"; cp_request_json := cre_request_json row;
     cp_payload_hash := cre_payload_hash row; cp_session_id := cre_session_id row;
     cp_creation_event_id := cre_creation_event_id row; cp_created_at_ms := cre_created_at_ms row;
     cp_receipt := {| rc_operation_id := operation; rc_session_id := cre_session_id row; rc_run_id := None;
                      rc_first_sequence := 1; rc_last_sequence := 1 |} |}.

(** The state of a creation row. *)
Definition row_state (operation : string) (row : CreationRow) (st : CreationState.t) : Prop :=
  match st with
  | CreationState.Creating =>
      cre_state row = "creating" /\ cre_receipt_json row = None /\ cre_failure_code row = None
  | CreationState.Accepted =>
      cre_state row = "accepted" /\ cre_failure_code row = None /\
      exists json, cre_receipt_json row = Some json /\ decode_receipt json = Ok (cp_receipt (row_provenance operation row))
  | CreationState.Failed e =>
      cre_state row = "failed" /\ cre_receipt_json row = None /\
      exists code e', cre_failure_code row = Some code /\ from_code code = Some e' /\ e = not_committed e' /\
        match se_kind e' with
        | StorageErrorKind.Integrity | StorageErrorKind.Unavailable | StorageErrorKind.UnsupportedVersion
        | StorageErrorKind.CommandConflict => True
        | _ => False
        end
  end.

Record reserved (operation : string) (row : CreationRow) (input : CreateSession) (st : CreationState.t) : Prop := {
  rv_operation : parse_id operation = Ok operation;
  rv_session : parse_id (cre_session_id row) = Ok (cre_session_id row);
  rv_event : parse_id (cre_creation_event_id row) = Ok (cre_creation_event_id row);
  rv_hash : len (cre_payload_hash row) = 32;
  rv_request : provenance_request (row_provenance operation row) = Ok input;
  rv_state : row_state operation row st
}.

Lemma reservation_intro operation row input st :
  reserved operation row input st ->
  reservation operation row = Ok {| rs_provenance := row_provenance operation row; rs_state := st |}.
Proof.
  intros [Ho Hs He Hh Hr Hst]. unfold reservation. rewrite Ho, Hs, He, Hh. cbn [map_err Z.eqb Pos.eqb]. rewrite receipt_first.
  fold (row_provenance operation row). rewrite Hr. destruct st as [| |e]; simpl in Hst.
  - destruct Hst as (-> & -> & ->). done.
  - destruct Hst as (-> & -> & json & -> & Hj). literals. cbn -[bool_decide]. rewrite Hj. cbn -[bool_decide].
    by rewrite bool_decide_eq_true_2.
  - destruct Hst as (-> & -> & code & e' & -> & Hc & -> & Hk). literals. cbn [andb is_none is_some negb mbind option_bind]. rewrite Hc. cbn [ok_or]. by destruct (se_kind e').
Qed.

Lemma reservation_elim operation row r :
  reservation operation row = Ok r ->
  exists input, reserved operation row input (rs_state r) /\ rs_provenance r = row_provenance operation row.
Proof.
  intros Hr. unfold reservation in Hr. destruct (map_err (parse_id operation) _) as [o|] eqn:Ho; [|done].
  apply parse_stored_id in Ho as [Ho ->]. destruct (map_err _ _) as [s|] eqn:Hs in Hr; [|done].
  apply parse_stored_id in Hs as [Hs ->]. rewrite receipt_first in Hr. destruct (Z.eqb_spec (len (cre_payload_hash row)) 32) as [Hh|]; [|done].
  destruct (map_err _ _) as [ev|] eqn:He in Hr; [|done]. apply parse_stored_id in He as [He ->].
  fold (row_provenance operation row) in Hr. destruct (provenance_request _) as [input|] eqn:Hq; [|done].
  destruct (if _ && _ && _ then Ok _ else _) as [st|] eqn:Hst in Hr; [|done]. injection Hr as <-. simpl. exists input. split; [|done].
  split; try done. destruct (_ && _ && _) eqn:Hc in Hst.
  { injection Hst as <-. prop_bools. simpl. unfold is_none in *. destruct (cre_receipt_json row), (cre_failure_code row); done. }
  clear Hc. destruct (_ && _) eqn:Ha in Hst.
  { prop_bools. destruct (cre_receipt_json row) as [json|] eqn:Hj; [|done]. cbn [ok_or] in Hst.
    destruct (decode_receipt json) as [r|] eqn:Hd; [|done]. destruct (bool_decide_reflect (r = cp_receipt (row_provenance operation row))) as [->|Hne].
    - cbn in Hst. unfold row_provenance in Hst. simpl in Hst. rewrite bool_decide_eq_true_2 in Hst by done. injection Hst as <-. simpl.
      unfold is_none in *. destruct (cre_failure_code row); [done|]. split_and!; try done. by exists json.
    - simpl in Hst. unfold row_provenance in Hne. simpl in Hne. by rewrite bool_decide_eq_false_2 in Hst. }
  clear Ha. destruct (_ && _) eqn:Hf in Hst; [|done]. prop_bools.
  destruct (cre_failure_code row) as [code|] eqn:Hcode; [|done]. cbn [mbind option_bind] in Hst. destruct (from_code code) as [e|] eqn:Hcd; [|done]. cbn [ok_or] in Hst.
  unfold is_none in *. destruct (cre_receipt_json row) eqn:Hrj; [done|].
  destruct (se_kind e) eqn:Hk; try done; injection Hst as <-; simpl; (split_and!; [done..|]; exists code, e; by rewrite Hk).
Qed.

(** ** Summaries *)
Record summarized (id : string) (row : SessionRow) (s : SessionSummary) : Prop := {
  sz_id : parse_id id = Ok id;
  sz_path : ses_relative_path row = session_relative_path id;
  sz_availability : availability_of_name (ses_availability row) = Some (su_availability s);
  sz_bounds : 0 <= ses_head_sequence row /\ 1 <= ses_schema_version row /\ 0 <= ses_created_at_ms row /\
    0 <= ses_updated_at_ms row;
  sz_ready : su_availability s = SessionAvailability.Ready -> 0 < ses_head_sequence row /\ ses_schema_version row <= 3;
  sz_fault : match ses_fault_code row with
             | None => su_fault_code s = None
             | Some code => exists e, from_code code = Some e /\ su_fault_code s = Some (kind_code (se_kind e))
             end;
  sz_healthy : su_availability s = SessionAvailability.Ready \/ su_availability s = SessionAvailability.Creating ->
    su_fault_code s = None;
  sz_run : su_last_run_id s = ses_last_run_id row /\ (forall r, su_last_run_id s = Some r -> parse_id r = Ok r);
  sz_state : ses_last_run_state row = state_name <$> su_last_run_state s;
  sz_paired : is_some (su_last_run_id s) = is_some (su_last_run_state s);
  sz_workspace : decode_workspace (ses_workspace_json row) = Ok (sm_workspace (su_manifest s));
  sz_manifest : su_manifest s = {| sm_session_id := id; sm_title := ses_title row; sm_workspace := sm_workspace (su_manifest s);
    sm_created_at_ms := ses_created_at_ms row; sm_updated_at_ms := ses_updated_at_ms row;
    sm_head_sequence := as_u64 (ses_head_sequence row) |};
  sz_version : su_schema_version s = as_u64 (ses_schema_version row)
}.

Lemma summary_elim id row s : summary id row = Ok s -> summarized id row s.
Proof.
  unfold summary. intros Hs. destruct (map_err _ _) as [i|] eqn:Hi; [|done]. apply parse_stored_id in Hi as [Hi ->].
  destruct (bool_decide_reflect (ses_relative_path row = session_relative_path id)); [|done]. cbn [negb] in Hs.
  destruct (availability_of_name _) as [a|] eqn:Ha; [|done]. cbn [ok_or] in Hs. destruct (_ || _) eqn:Hb in Hs; [done|].
  apply orb_false_iff in Hb as [Hb Hready]. prop_bools.
  destruct (match ses_fault_code row with Some _ => _ | None => _ end) as [fault|] eqn:Hf; [|done].
  destruct (match a with SessionAvailability.Ready => _ | _ => _ end) eqn:Hh in Hs; [done|].
  destruct (match ses_last_run_id row with Some _ => _ | None => _ end) as [run|] eqn:Hr; [|done].
  destruct (match ses_last_run_state row with Some _ => _ | None => _ end) as [st|] eqn:Hst; [|done].
  destruct (Bool.eqb (is_some run) (is_some st)) eqn:Hp; [|done]. cbn [negb] in Hs.
  destruct (decode_workspace _) as [w|] eqn:Hw; [|done]. injection Hs as <-. split; simpl; try done.
  - intros ->. rewrite bool_decide_eq_true_2 in Hready by done. cbn [andb] in Hready. apply orb_false_iff in Hready as [Hz Hv].
    apply Z.eqb_neq in Hz. apply negb_false_iff, andb_true_iff in Hv as [_ Hv%Z.leb_le]. lia.
  - destruct (ses_fault_code row) as [code|]; [|by injection Hf as <-]. destruct (from_code code) as [err|]; [|done].
    injection Hf as <-. by exists err.
  - intros [->| ->]; by destruct fault.
  - destruct (ses_last_run_id row) as [r|]; [|by injection Hr as <-]. destruct (map_err _ _) as [r'|] eqn:Hr'; [|done].
    apply parse_stored_id in Hr' as [? ->]. injection Hr as <-. split; [done|]. by intros ? [= <-].
  - destruct (ses_last_run_state row) as [n|]; [|by injection Hst as <-]. destruct (state_of_name n) as [x|] eqn:Hn; [|done].
    injection Hst as <-. apply state_of_name_Some in Hn. simpl. by f_equal.
  - by apply eqb_prop.
Qed.

Lemma summary_intro id row s : summarized id row s -> summary id row = Ok s.
Proof.
  intros [Hi Hp Ha (B1 & B2 & B3 & B4) Hr Hf Hh [Hrun Hid] Hst Hpair Hw Hm Hv]. unfold summary. rewrite Hi. cbn [map_err].
  rewrite (bool_decide_eq_true_2 _ Hp), Ha. cbn [negb ok_or].
  rewrite (proj2 (Z.ltb_ge _ _) B1), (proj2 (Z.ltb_ge _ _) B2), (proj2 (Z.ltb_ge _ _) B3), (proj2 (Z.ltb_ge _ _) B4). cbn [orb].
  assert ((bool_decide (su_availability s = SessionAvailability.Ready)
    && ((ses_head_sequence row =? 0) || negb ((1 <=? ses_schema_version row) && (ses_schema_version row <=? 3)))) = false) as ->.
  { destruct (bool_decide_reflect (su_availability s = SessionAvailability.Ready)) as [Hready|]; [|done]. destruct (Hr Hready).
    rewrite (proj2 (Z.eqb_neq _ _)), (proj2 (Z.leb_le 1 _)), (proj2 (Z.leb_le _ 3)) by lia. done. }
  assert (match ses_fault_code row with
          | None => Ok None
          | Some code => let? e := ok_or (from_code code) integrity in Ok (Some (kind_code (se_kind e)))
          end = (Ok (su_fault_code s) : SResult (option string))) as ->.
  { destruct (ses_fault_code row) as [code|]; [|by rewrite Hf]. destruct Hf as (e & -> & ->). done. }
  assert (match su_availability s with
          | SessionAvailability.Ready | SessionAvailability.Creating => is_some (su_fault_code s)
          | _ => false end = false) as -> by (destruct (su_availability s); try done; rewrite Hh by auto; done).
  assert (match ses_last_run_id row with
          | None => Ok None
          | Some r => let? r := map_err (parse_id r) (fun _ => integrity) in Ok (Some r)
          end = (Ok (su_last_run_id s) : SResult (option string))) as ->.
  { rewrite <- Hrun. destruct (su_last_run_id s) as [r|]; [|done]. by rewrite (Hid r eq_refl). }
  assert (match ses_last_run_state row with
          | None => Ok None
          | Some n => let? st := ok_or (state_of_name n) integrity in Ok (Some st)
          end = (Ok (su_last_run_state s) : SResult (option RecordedRunState.t))) as ->.
  { rewrite Hst. destruct (su_last_run_state s) as [st|]; [|done]. simpl. by destruct st. }
  rewrite Hpair, Bool.eqb_reflx. cbn [negb]. rewrite Hw. f_equal. destruct s as [m v av f r st]. simpl in *. rewrite Hm, Hv. done.
Qed.

(** ** Entries *)

(** No two creations are of the same session; the rows are where they are looked for. *)
Definition sessions_unique c : Prop :=
  forall o1 o2 r1 r2, cat_creations c !! o1 = Some r1 -> cat_creations c !! o2 = Some r2 ->
    cre_session_id r1 = cre_session_id r2 -> o1 = o2.

(** The only creation of its session. *)
Definition only_claim operation (row : CreationRow) c : Prop :=
  forall o r, cat_creations c !! o = Some r -> cre_session_id r = cre_session_id row -> o = operation.

Lemma unique_only c operation row : sessions_unique c -> cat_creations c !! operation = Some row -> only_claim operation row c.
Proof. intros Hu Hr o r Ho Hs. by apply (Hu o operation r row). Qed.

Lemma creation_of_only c operation row :
  only_claim operation row c -> cat_creations c !! operation = Some row -> creation_of (cre_session_id row) c = Some (operation, row).
Proof.
  intros Hu Hr. unfold creation_of. destruct (filter _ _) as [|[o r] l] eqn:Hf.
  - exfalso. assert ((operation, row) ∈ filter (fun kr : string * CreationRow => cre_session_id kr.2 = cre_session_id row)
      (map_to_list (cat_creations c))) as Hin.
    { apply list_elem_of_filter. split; [done|]. by apply elem_of_map_to_list. }
    rewrite Hf in Hin. by apply not_elem_of_nil in Hin.
  - simpl. assert ((o, r) ∈ filter (fun kr : string * CreationRow => cre_session_id kr.2 = cre_session_id row)
      (map_to_list (cat_creations c))) as Hin by (rewrite Hf; left).
    apply list_elem_of_filter in Hin as [Hs Hin]. apply elem_of_map_to_list in Hin. simpl in Hs.
    pose proof (Hu _ _ Hin Hs) as ->. congruence.
Qed.

Lemma creation_of_Some c id operation row :
  creation_of id c = Some (operation, row) -> cat_creations c !! operation = Some row /\ cre_session_id row = id.
Proof.
  unfold creation_of. destruct (filter _ _) as [|[o r] l] eqn:Hf; [done|]. intros [= -> ->].
  assert ((operation, row) ∈ filter (fun kr : string * CreationRow => cre_session_id kr.2 = id) (map_to_list (cat_creations c))) as Hin
    by (rewrite Hf; left).
  apply list_elem_of_filter in Hin as [Hs Hin]. apply elem_of_map_to_list in Hin. done.
Qed.

(** An entry depends on its rows only. *)
Lemma entry_rows_same c c' operation row :
  sessions_unique c -> sessions_unique c' -> cat_creations c !! operation = Some row -> cat_creations c' !! operation = Some row ->
  cat_sessions c' !! cre_session_id row = cat_sessions c !! cre_session_id row ->
  entry_rows (cre_session_id row) c' = entry_rows (cre_session_id row) c.
Proof.
  intros Hu Hu' Hr Hr' Hs. unfold entry_rows. rewrite Hs, (creation_of_only c operation row), (creation_of_only c' operation row) by (done || by apply unique_only). done.
Qed.

(** The entry of a creation: its row, its session row and what they say. *)
Definition state_availability (st : CreationState.t) : SessionAvailability.t :=
  match st with
  | CreationState.Creating => SessionAvailability.Creating
  | CreationState.Accepted => SessionAvailability.Ready
  | CreationState.Failed _ => SessionAvailability.Unavailable
  end.

Record known (operation : string) (row : CreationRow) (input : CreateSession) (st : CreationState.t)
    (s : SessionSummary) c : Prop := {
  kn_row : cat_creations c !! operation = Some row;
  kn_reserved : reserved operation row input st;
  kn_session : exists srow, cat_sessions c !! cre_session_id row = Some srow /\ summarized (cre_session_id row) srow s;
  kn_availability : su_availability s = state_availability st;
  kn_fault : su_availability s = SessionAvailability.Unavailable -> is_some (su_fault_code s) = true;
  kn_created : sm_created_at_ms (su_manifest s) = cre_created_at_ms row;
  kn_workspace : sm_workspace (su_manifest s) = cs_workspace input;
  kn_untouched : st = CreationState.Creating ->
    sm_head_sequence (su_manifest s) = 0 /\ sm_title (su_manifest s) = cs_title input /\
    sm_updated_at_ms (su_manifest s) = cre_created_at_ms row /\ su_schema_version s = 1 /\
    su_last_run_id s = None /\ su_last_run_state s = None
}.

Lemma known_entry_only operation row input st s c :
  only_claim operation row c -> known operation row input st s c ->
  entry_rows (cre_session_id row) c = Ok {| en_summary := s;
    en_reservation := {| rs_provenance := row_provenance operation row; rs_state := st |} |}.
Proof.
  intros Hu [Hrow Hres (srow & Hs & Hsum) Hav Hf Hc Hw Hun]. unfold entry_rows. rewrite Hs. cbn [ok_or].
  rewrite (summary_intro _ _ _ Hsum). rewrite (creation_of_only c operation row) by done.
  rewrite bool_decide_eq_false_2 by (rewrite Hav; by destruct st).
  assert ((bool_decide (su_availability s = SessionAvailability.Unavailable) && is_none (su_fault_code s)) = false) as ->.
  { destruct (bool_decide_reflect (su_availability s = SessionAvailability.Unavailable)) as [Ha|]; [|done]. unfold is_none. by rewrite Hf. }
  cbn [ok_or fst snd]. rewrite (reservation_intro _ _ _ _ Hres). cbn [rs_provenance rs_state]. rewrite (rv_request _ _ _ _ Hres).
  cbn [cp_created_at_ms row_provenance]. rewrite Hc, Z.eqb_refl, Hw, (bool_decide_eq_true_2 (cs_workspace input = _)) by done. cbn [negb orb].
  rewrite Hav. destruct st as [| |e]; simpl; [|done|done].
  destruct (Hun eq_refl) as (-> & -> & -> & -> & -> & ->). by rewrite !bool_decide_eq_true_2, !Z.eqb_refl by done.
Qed.

Lemma known_entry operation row input st s c :
  sessions_unique c -> known operation row input st s c ->
  entry_rows (cre_session_id row) c = Ok {| en_summary := s;
    en_reservation := {| rs_provenance := row_provenance operation row; rs_state := st |} |}.
Proof. intros Hu Hk. eapply known_entry_only; [|done]. apply unique_only; [done|apply Hk]. Qed.

Lemma known_same operation row input st s c c' :
  known operation row input st s c -> cat_creations c' !! operation = Some row ->
  cat_sessions c' !! cre_session_id row = cat_sessions c !! cre_session_id row -> known operation row input st s c'.
Proof. intros [Hrow Hres (srow & Hs & Hsum) Hav Hf Hc Hw Hun] Hr' Hs'. split; try done. exists srow. by rewrite Hs'. Qed.

(** ** Statements *)
Lemma creation_check_unique k r c :
  creation_check k r c = true -> len (cre_payload_hash r) = 32 /\
  forall o q, cat_creations c !! o = Some q -> o <> k -> cre_session_id q <> cre_session_id r.
Proof.
  unfold creation_check. intros Hc. apply andb_true_iff in Hc as [Hc Hall]. apply andb_true_iff in Hc as [Hl _].
  split; [by apply Z.eqb_eq|]. intros o q Hq Hne. rewrite forallb_forall in Hall.
  specialize (Hall (o, q)). rewrite <- list_elem_of_In in Hall. specialize (Hall (proj2 (elem_of_map_to_list _ _ _) Hq)). simpl in Hall.
  rewrite (bool_decide_eq_false_2 (o = k)) in Hall by done. simpl in Hall. by destruct (bool_decide_reflect (cre_session_id q = cre_session_id r)).
Qed.

Lemma insert_creation_Ok k r c a c' :
  insert_creation k r c = (Ok a, c') ->
  cat_creations c !! k = None /\ creation_check k r c = true /\ c' = set_creations (<[k := r]> (cat_creations c)) c.
Proof.
  unfold insert_creation. intros Hi. unbind Hi. apply require_constraint_Ok in Hc as [Hc ->]. injection Hi as _ <-.
  apply andb_true_iff in Hc as [Hn Hc]. unfold is_none in Hn. by destruct (cat_creations c !! k).
Qed.

Lemma insert_session_Ok k r c a c' :
  insert_session k r c = (Ok a, c') -> cat_sessions c !! k = None /\ c' = set_sessions (<[k := r]> (cat_sessions c)) c.
Proof.
  unfold insert_session. intros Hi. unbind Hi. apply require_constraint_Ok in Hc as [Hc ->]. injection Hi as _ <-.
  apply andb_true_iff in Hc as [Hn _]. unfold is_none in Hn. by destruct (cat_sessions c !! k).
Qed.

Lemma update_session_Ok k f r c a c' :
  cat_sessions c !! k = Some r -> update_session k f c = (Ok a, c') -> c' = set_sessions (<[k := f r]> (cat_sessions c)) c.
Proof.
  unfold update_session. intros -> Hu. unbind Hu. apply require_constraint_Ok in Hc as [_ ->]. by injection Hu as _ <-.
Qed.

Lemma update_creation_Ok k f r c a c' :
  cat_creations c !! k = Some r -> update_creation k f c = (Ok a, c') -> c' = set_creations (<[k := f r]> (cat_creations c)) c.
Proof.
  unfold update_creation. intros -> Hu. unbind Hu. apply require_constraint_Ok in Hc as [_ ->]. by injection Hu as _ <-.
Qed.

(** ** Connections *)

(** The inspection only looks at the schema and the meta row. *)
Lemma validate_catalog_same c c' :
  cat_application_id c' = cat_application_id c -> cat_user_version c' = cat_user_version c -> cat_schema c' = cat_schema c ->
  cat_meta c' = cat_meta c -> validate_catalog c' = validate_catalog c.
Proof.
  intros H1 H2 H3 H4. unfold validate_catalog, validate_table, require_index. by rewrite H1, H2, H3, H4.
Qed.

(** What a transaction of the catalog leaves, and an operation made of one. *)
Lemma catalog_transaction_inv {A} a early (body : Cat A) c r c' :
  catalog_transaction a early body c = (r, c') ->
  (exists e, r = Err e /\ c' = c) \/
  (exists v c1, body c = (Ok v, c1) /\ ((r = Ok v /\ c' = c1) \/ ((exists e, r = Err e) /\ (c' = c1 \/ c' = c)))).
Proof.
  unfold catalog_transaction. destruct (ac_begin a) as [e|]; [intros [= <- <-]; left; by eexists|]. intros Ht.
  apply transaction_inv in Ht as [(e & -> & ->)|(v & c1 & Hb & [[-> ->]|[-> Hc]])]; [left; by eexists|right; exists v, c1..].
  - split; [done|]. by left.
  - split; [done|]. right. split; [by eexists|done].
Qed.
End rows.
