(* ===== verification/CreationSafety.v ===== *)
(** * Creations happen once

    The invariant of a store under any interleaving of creations, commands and
    refreshes with whatever the surroundings do to them: every reservation has its
    session row and its state, every file belongs to a reservation and is blank or
    its valid session, and what the catalog says of a ready session is a past of it. *)
From S2P Require Import Prelude Json Errors Identifiers Provider Tools Replay RunData Hoare Records Store History Session RunStore StoreSafety StoreCommands StoreGuarantees StoreContents Valid Catalog Creation CatalogFacts.

Section safety.
Context {D : Type} `{Display D} `{UuidLib} `{StorageSerde} {laws : StorageSerdeLaws}.
Implicit Types c : Catalog.
Implicit Types files : gmap string (Db D).
Implicit Types disk : Disk D.

(** ** The invariant *)

(** A session file in use: valid for its provenance, and [m] a past of its manifest. *)
Definition healthy (p : CreationProvenance) (m : SessionManifest) (db : Db D) : Prop :=
  sound db /\ user_version db = 3 /\ validates p m db.

Definition file_ok (p : CreationProvenance) (st : CreationState.t) (s : SessionSummary) files : Prop :=
  match st with
  | CreationState.Accepted =>
      su_schema_version s <= 3 /\ exists db, files !! cp_session_id p = Some db /\ healthy p (su_manifest s) db
  | _ => forall db, files !! cp_session_id p = Some db -> db = blank_file \/ exists m, healthy p m db
  end.

Record catalog_ok c files : Prop := {
  co_unique : sessions_unique c;
  co_creations o row : cat_creations c !! o = Some row ->
    exists input st s, known o row input st s c /\ file_ok (row_provenance o row) st s files;
  co_sessions id srow : cat_sessions c !! id = Some srow ->
    exists o row, cat_creations c !! o = Some row /\ cre_session_id row = id;
  co_files id db : files !! id = Some db -> is_some (cat_sessions c !! id) = true
}.

(** The reservation of [input] in state [st]. *)
Definition has c (input : CreateSession) (p : CreationProvenance) (st : CreationState.t) : Prop :=
  exists row, cat_creations c !! cp_operation_id p = Some row /\ reserved (cp_operation_id p) row input st /\
    p = row_provenance (cp_operation_id p) row.

(** Reservations stay, and accepted ones stay accepted. *)
Definition later c c' : Prop :=
  forall input p st, has c input p st -> exists st', has c' input p st' /\ (st = CreationState.Accepted -> st' = CreationState.Accepted).

#[global] Instance later_preorder : PreOrder later.
Proof.
  split; [by intros c input p st Hh; exists st|]. intros c1 c2 c3 H12 H23 input p st Hh.
  destruct (H12 _ _ _ Hh) as (st2 & Hh2 & Ha2). destruct (H23 _ _ _ Hh2) as (st3 & Hh3 & Ha3). exists st3. eauto.
Qed.

(** Files stay valid. *)
Definition files_later files files' : Prop :=
  forall p m db, files !! cp_session_id p = Some db -> healthy p m db ->
    exists db', files' !! cp_session_id p = Some db' /\ healthy p m db'.

Lemma has_request c input p st : has c input p st -> provenance_request p = Ok input.
Proof. intros (row & _ & Hr & ->). apply Hr. Qed.

Lemma has_same c input input' p st st' : has c input p st -> has c input' p st' -> input' = input /\ st' = st.
Proof.
  intros (row & Hrow & Hr & Hp) (row' & Hrow' & Hr' & Hp'). assert (row' = row) as -> by congruence.
  pose proof (reservation_intro _ _ _ _ Hr) as R. rewrite (reservation_intro _ _ _ _ Hr') in R. injection R as ->.
  split; [|done]. pose proof (rv_request _ _ _ _ Hr). pose proof (rv_request _ _ _ _ Hr'). congruence.
Qed.

Lemma known_has o row input st s c : known o row input st s c -> has c input (row_provenance o row) st.
Proof. intros Hk. exists row. split; [apply Hk|]. split; [apply Hk|done]. Qed.

(** What the invariant says of a reservation. *)
Lemma has_known c files input p st :
  catalog_ok c files -> has c input p st ->
  exists row s, p = row_provenance (cp_operation_id p) row /\ known (cp_operation_id p) row input st s c /\ file_ok p st s files.
Proof.
  intros Hok Hh. pose proof Hh as (row & Hrow & Hr & Hp). destruct (co_creations _ _ Hok _ _ Hrow) as (input' & st' & s & Hk & Hf).
  destruct (has_same c input input' p st st') as [-> ->]; [done|rewrite Hp; by eapply known_has|].
  exists row, s. split; [done|]. split; [done|]. by rewrite Hp.
Qed.

(** ** Reserving *)
Lemma request_same p input input0 t :
  provenance_request p = Ok input0 -> request_to_json (create_request input) = Some t -> cp_request_json p = t ->
  cp_operation_id p = cs_operation_id input -> input0 = input.
Proof using laws.
  intros Hr Ht Hj Ho. unfold provenance_request in Hr. rewrite Hj, (request_round _ _ Ht) in Hr. cbn [ok_or] in Hr.
  destruct (receipt_single _ _ _); [|done]. destruct (_ || _) in Hr; [done|]. rewrite Ht in Hr. cbn [ok_or] in Hr.
  destruct (_ || _) in Hr; [done|]. apply map_err_Ok in Hr. unfold new_create_session in Hr.
  destruct (validate_workspace _); [|done]. injection Hr as <-. rewrite Ho. by destruct input.
Qed.

Lemma workspace_round w json : validate_workspace w = Ok tt -> workspace_to_json w = Ok json -> decode_workspace json = Ok w.
Proof using laws.
  intros Hv Hw. unfold workspace_to_json in Hw. unfold decode_workspace. destruct w as [w|].
  - destruct (string_to_json w) as [t|] eqn:Ht; [|done]. injection Hw as <-. rewrite (string_round _ _ Ht). cbn [ok_or]. by rewrite Hv.
  - injection Hw as <-. done.
Qed.

(** The rows of a new reservation. *)
Definition new_creation (p : CreationProvenance) : CreationRow :=
  {| cre_payload_hash := cp_payload_hash p; cre_request_json := cp_request_json p; cre_session_id := cp_session_id p;
     cre_creation_event_id := cp_creation_event_id p; cre_created_at_ms := cp_created_at_ms p; cre_state := "creating";
     cre_receipt_json := None; cre_failure_code := None |}.

Definition new_session (p : CreationProvenance) (input : CreateSession) (workspace : option string) : SessionRow :=
  {| ses_relative_path := session_relative_path (cp_session_id p); ses_title := cs_title input;
     ses_workspace_json := workspace; ses_created_at_ms := cp_created_at_ms p; ses_updated_at_ms := cp_created_at_ms p;
     ses_head_sequence := 0; ses_schema_version := 1; ses_availability := "creating"; ses_fault_code := None;
     ses_last_run_id := None; ses_last_run_state := None; ses_seen_repair_id := None |}.

Definition new_summary (p : CreationProvenance) (input : CreateSession) : SessionSummary :=
  {| su_manifest := {| sm_session_id := cp_session_id p; sm_title := cs_title input; sm_workspace := cs_workspace input;
       sm_created_at_ms := cp_created_at_ms p; sm_updated_at_ms := cp_created_at_ms p; sm_head_sequence := 0 |};
     su_schema_version := 1; su_availability := SessionAvailability.Creating; su_fault_code := None;
     su_last_run_id := None; su_last_run_state := None |}.

Lemma new_known fresh input p workspace c :
  fresh_ok fresh -> admitted input -> new_provenance (fr_session fresh) (fr_event fresh) (fr_now fresh) input = Ok p ->
  workspace_to_json (cs_workspace input) = Ok workspace -> len (cp_payload_hash p) = 32 ->
  cat_creations c !! cp_operation_id p = Some (new_creation p) ->
  cat_sessions c !! cp_session_id p = Some (new_session p input workspace) ->
  p = row_provenance (cp_operation_id p) (new_creation p) /\ cp_operation_id p = cs_operation_id input /\
  known (cp_operation_id p) (new_creation p) input CreationState.Creating (new_summary p input) c.
Proof using laws.
  intros (F1 & F2 & F3) [A1 A2] Hp Hw Hl Hc Hs.
  assert (new_create_session (cs_operation_id input) (cs_title input) (cs_workspace input) = Ok input) as Hi.
  { unfold new_create_session. rewrite A2. by destruct input. }
  pose proof (provenance_request_round _ _ _ _ _ _ _ _ Hi F3 Hp) as Hr.
  unfold new_provenance in Hp. destruct (request_to_json _) as [t|] eqn:Ht; [|done]. cbn [ok_or] in Hp. rewrite receipt_first in Hp.
  destruct (fr_now fresh) as [now|]; [|done]. specialize (F3 _ eq_refl). injection Hp as Hp.
  assert (p = row_provenance (cp_operation_id p) (new_creation p)) as Hpp by (rewrite <- Hp; done).
  split; [done|]. split; [by rewrite <- Hp|]. assert (parse_id (cp_session_id p) = Ok (cp_session_id p)) as Hsid by (by rewrite <- Hp).
  assert (0 <= cp_created_at_ms p) as Hpos by (by rewrite <- Hp). split; try done.
  - split; try done; try (by rewrite <- Hp). by rewrite <- Hpp.
  - eexists. split; [exact Hs|]. split; simpl; try done. by eapply workspace_round.
Qed.

Lemma reserve_body_ok fresh input c files r dup c' :
  catalog_ok c files -> fresh_ok fresh -> admitted input -> reserve_body fresh input c = (Ok (r, dup), c') ->
  catalog_ok c' files /\ later c c' /\ has c' input (rs_provenance r) (rs_state r).
Proof using laws.
  intros Hok Hfr Hin Hb. unfold reserve_body in Hb. unbind Hb. injection Hc as Hj <-. apply ok_or_Ok in Hj.
  unbind Hb. injection Hc as <- <-. destruct (cat_creations c !! cs_operation_id input) as [row|] eqn:Hrow.
  - unbind Hb. injection Hc as Hr <-. apply reservation_elim in Hr as (input0 & Hres & Hp).
    destruct (_ || _) eqn:Hor in Hb; [done|]. prop_bools.
    assert (input0 = input) as -> by (eapply request_same; [apply Hres|exact Hj| |done]; by rewrite <- Hp).
    assert ((r, dup, c') = (a0, true, c)) as [= -> -> ->].
    { destruct (bool_decide _) in Hb; [by injection Hb as <- <- <-|]. unbind Hb. injection Hc as _ <-.
      destruct (rs_state (en_reservation a1)); try done; (destruct (su_availability (en_summary a1)); try done; by injection Hb as <- <- <-). }
    split; [done|]. split; [done|]. rewrite Hp. exists row. simpl. by split_and!.
  - unbind Hb. injection Hc as Hp <-. unbind Hb. apply insert_creation_Ok in Hc as (Hnone & Hchk & ->).
    apply creation_check_unique in Hchk as [Hlen Huniq]. simpl in Hlen, Huniq. unbind Hb. injection Hc as Hw <-.
    unbind Hb. apply insert_session_Ok in Hc as [Hnew ->]. simpl in Hnew. injection Hb as <- _ <-. simpl.
    fold (new_creation a0). fold (new_session a0 input a2).
    set (c1 := set_sessions _ _).
    destruct (new_known fresh input a0 a2 c1) as (Hpp & Hop & Hk); try done; [simpl; by rewrite lookup_insert_eq..|].
    assert (forall o q, cat_creations c !! o = Some q -> o <> cp_operation_id a0 /\ cre_session_id q <> cp_session_id a0) as Hold.
    { intros o q Hq. assert (o <> cp_operation_id a0) as Hne by (intros ->; congruence). split; [done|]. by apply (Huniq o). }
    split; [|split].
    + split.
      * intros o1 o2 r1 r2. simpl. intros [[<- <-]|[N1 L1]]%lookup_insert_Some [[<- <-]|[N2 L2]]%lookup_insert_Some Heq; try done.
        -- by destruct (Hold _ _ L2).
        -- by destruct (Hold _ _ L1).
        -- by apply (co_unique _ _ Hok o1 o2 r1 r2).
      * intros o row. simpl. intros [[<- <-]|[N1 L1]]%lookup_insert_Some.
        -- eexists _, _, _. split; [exact Hk|]. simpl. rewrite <- Hpp. intros db Hdb. apply (co_files _ _ Hok) in Hdb.
           change (cre_session_id (new_creation a0)) with (cp_session_id a0) in Hdb. by rewrite Hnew in Hdb.
        -- destruct (co_creations _ _ Hok _ _ L1) as (i & st & s & Hk1 & Hf1). exists i, st, s. split; [|done].
           destruct (Hold _ _ L1). eapply known_same; [exact Hk1|simpl; by rewrite lookup_insert_ne|simpl; by rewrite lookup_insert_ne].
      * intros id srow. simpl. intros [[<- <-]|[N1 L1]]%lookup_insert_Some.
        -- exists (cp_operation_id a0), (new_creation a0). by rewrite lookup_insert_eq.
        -- destruct (co_sessions _ _ Hok _ _ L1) as (o & row & Hr & Hid). destruct (Hold _ _ Hr). exists o, row. by rewrite lookup_insert_ne.
      * intros id db Hdb. simpl. apply (co_files _ _ Hok) in Hdb. destruct (decide (id = cp_session_id a0)) as [->|];
          [by rewrite lookup_insert_eq | by rewrite lookup_insert_ne].
    + intros i q st (row & Hr & Hres & Hq). exists st. split; [|done]. destruct (Hold _ _ Hr). exists row. simpl. by rewrite lookup_insert_ne.
    + rewrite Hpp at 1. exact (known_has _ _ _ _ _ _ Hk).
Qed.

(** ** Changing the rows of one creation *)
Definition rewritten (o : string) (row' : CreationRow) (srow' : SessionRow) c : Catalog :=
  set_creations (<[o := row']> (cat_creations c)) (set_sessions (<[cre_session_id row' := srow']> (cat_sessions c)) c).

Lemma rewritten_ok o row row' srow' input st st' s' c files :
  catalog_ok c files -> cat_creations c !! o = Some row -> reserved o row input st ->
  row_provenance o row' = row_provenance o row -> (st = CreationState.Accepted -> st' = CreationState.Accepted) ->
  reserved o row' input st' -> known o row' input st' s' (rewritten o row' srow' c) ->
  file_ok (row_provenance o row') st' s' files ->
  catalog_ok (rewritten o row' srow' c) files /\ later c (rewritten o row' srow' c).
Proof.
  intros Hok Hrow Hres Hp Hacc Hres' Hk Hf. assert (cre_session_id row' = cre_session_id row) as Hid by (by injection Hp).
  pose proof (co_unique _ _ Hok) as Hu.
  assert (forall o2 r2, cat_creations c !! o2 = Some r2 -> o2 <> o -> cre_session_id r2 <> cre_session_id row') as Hne.
  { intros o2 r2 L2 Hn Heq. apply Hn. rewrite Hid in Heq. by apply (Hu o2 o r2 row). }
  split.
  - split.
    + intros o1 o2 r1 r2. simpl. intros [[<- <-]|[N1 L1]]%lookup_insert_Some [[<- <-]|[N2 L2]]%lookup_insert_Some Heq; try done.
      * exfalso. by apply (Hne _ _ L2).
      * exfalso. by apply (Hne _ _ L1).
      * by apply (Hu o1 o2 r1 r2).
    + intros o1 r1. simpl. intros [[<- <-]|[N1 L1]]%lookup_insert_Some; [by eexists _, _, _|].
      destruct (co_creations _ _ Hok _ _ L1) as (i & st1 & s1 & Hk1 & Hf1). exists i, st1, s1. split; [|done].
      eapply known_same; [exact Hk1|simpl; by rewrite lookup_insert_ne|simpl]. rewrite lookup_insert_ne; [done|].
      intros Heq. by apply (Hne _ _ L1).
    + intros id srow. simpl. intros [[<- <-]|[N1 L1]]%lookup_insert_Some; [exists o, row'; by rewrite lookup_insert_eq|].
      destruct (co_sessions _ _ Hok _ _ L1) as (o1 & r1 & Hr1 & Hid1). destruct (decide (o1 = o)) as [->|].
      * exists o, row'. rewrite lookup_insert_eq. split; [done|]. congruence.
      * exists o1, r1. by rewrite lookup_insert_ne.
    + intros id db Hdb. simpl. apply (co_files _ _ Hok) in Hdb. destruct (decide (id = cre_session_id row')) as [->|];
        [by rewrite lookup_insert_eq | by rewrite lookup_insert_ne].
  - intros i q st1 (r1 & L1 & Hr1 & Hq). destruct (decide (cp_operation_id q = o)) as [Ho|Ho].
    + subst o. assert (r1 = row) as -> by congruence. exists st'. pose proof (reservation_intro _ _ _ _ Hr1) as R.
      rewrite (reservation_intro _ _ _ _ Hres) in R. injection R as ->.
      assert (i = input) as -> by (pose proof (rv_request _ _ _ _ Hr1); pose proof (rv_request _ _ _ _ Hres); congruence).
      split; [|done]. exists row'. simpl. rewrite lookup_insert_eq. split_and!; [done|done|congruence].
    + exists st1. split; [|done]. exists r1. simpl. by rewrite lookup_insert_ne.
Qed.

Lemma entry_has c files id en :
  catalog_ok c files -> entry_rows id c = Ok en ->
  exists input row s, id = cre_session_id row /\ rs_provenance (en_reservation en) = row_provenance (cp_operation_id (rs_provenance (en_reservation en))) row /\
    known (cp_operation_id (rs_provenance (en_reservation en))) row input (rs_state (en_reservation en)) s c /\
    en_summary en = s /\ file_ok (rs_provenance (en_reservation en)) (rs_state (en_reservation en)) s files.
Proof.
  intros Hok He. assert (exists o row, creation_of id c = Some (o, row)) as (o & row & Ho).
  { unfold entry_rows in He. destruct (cat_sessions c !! id); [|done]. cbn [ok_or] in He. destruct (summary id s); [|done].
    destruct (bool_decide _) in He; [done|]. destruct (_ && _) in He; [done|]. destruct (creation_of id c) as [[o row]|]; [by exists o, row|done]. }
  apply creation_of_Some in Ho as [Hrow <-]. destruct (co_creations _ _ Hok _ _ Hrow) as (input & st & s & Hk & Hf).
  rewrite (known_entry _ _ _ _ _ _ (co_unique _ _ Hok) Hk) in He. injection He as <-. simpl. by exists input, row, s.
Qed.

(** ** Completing *)
Definition ready_summary (m : SessionManifest) (s : SessionSummary) : SessionSummary :=
  {| su_manifest := m; su_schema_version := 3; su_availability := SessionAvailability.Ready; su_fault_code := None;
     su_last_run_id := su_last_run_id s; su_last_run_state := su_last_run_state s |}.

(** What the manifest of a valid session is like. *)
Lemma healthy_manifest p m db input :
  healthy p m db -> provenance_request p = Ok input -> 1 <= sm_head_sequence m -> 0 <= sm_updated_at_ms m ->
  sm_session_id m = cp_session_id p /\ sm_created_at_ms m = cp_created_at_ms p /\ sm_workspace m = cs_workspace input /\
  sm_head_sequence m <= i64_max.
Proof.
  intros (Hs & Hv & m' & Hval & Hmv) Hr Hh Hu. destruct Hmv as [M1 M2 M3 M4 _].
  pose proof (validate_session_id _ _ _ _ Hval) as Hid. pose proof Hval as Hhd. apply validate_session_head in Hhd as (row & _ & _ & _ & Hhd & Hsz); [|done].
  assert (sm_created_at_ms m' = cp_created_at_ms p /\ sm_workspace m' = cs_workspace input) as [Hc Hw].
  { unfold validate_session in Hval. do 3 (destruct (negb _); [done|]). destruct (ok_or (Store.manifest db) _) as [mr|]; [|done].
    destruct (_ || _) in Hval; [done|]. destruct (_ || _) in Hval; [done|]. destruct (ok_or (provenance_from_json _) _) as [q|]; [|done].
    destruct (provenance_request q) as [input'|] eqn:Hq; [|done]. destruct (decode_workspace _) as [w|]; [|done].
    destruct (_ || is_some_and _ _) eqn:Hor in Hval; [done|]. simpl in Hor. prop_bools. subst q. rewrite Hr in Hq. injection Hq as <-.
    repeat match type of Hval with
           | (if ?b then Err _ else _) = _ => destruct b; [done|]
           | match ?x with Ok _ => _ | Err _ => _ end = Ok _ => destruct x as [?|]; [|done]
           end. injection Hval as <-. simpl. done. }
  split_and!; try congruence. lia.
Qed.

(** A reservation in two catalogs with the same rows. *)
Lemma settled_reserved o row input st st' state receipt failure :
  reserved o row input st -> row_state o (creation_settled state receipt failure row) st' ->
  reserved o (creation_settled state receipt failure row) input st'.
Proof. intros [R1 R2 R3 R4 R5 _] Hst. by split. Qed.

Lemma complete_body_ok p m c files input st x c' db :
  catalog_ok c files -> has c input p st -> files !! cp_session_id p = Some db -> healthy p m db ->
  1 <= sm_head_sequence m -> 0 <= sm_updated_at_ms m -> complete_body p m 3 c = (Ok x, c') ->
  catalog_ok c' files /\ later c c' /\ has c' input p CreationState.Accepted.
Proof using laws.
  intros Hok Hh Hdb Hm H1m H0m Hb. destruct (has_known _ _ _ _ _ Hok Hh) as (row & s & Hp & Hk & Hf).
  assert (cre_session_id row = cp_session_id p) as Hid by (by rewrite Hp).
  pose proof (known_entry _ _ _ _ _ _ (co_unique _ _ Hok) Hk) as Hen. rewrite Hid in Hen.
  unfold complete_body in Hb. unbind Hb. injection Hc as Ha <-. rewrite Hen in Ha. injection Ha as <-. simpl in Hb. rewrite <- Hp in Hb.
  rewrite (bool_decide_eq_true_2 (p = p)) in Hb by done. cbn [negb] in Hb.
  destruct (bool_decide_reflect (st = CreationState.Accepted)) as [->|Hna]; [by injection Hb as _ <-|].
  destruct (_ || _) eqn:Hor in Hb; [done|]. prop_bools. subst st.
  destruct (kn_session _ _ _ _ _ _ Hk) as (srow & Hsrow & Hsum). rewrite Hid in Hsrow.
  unbind Hb. apply (update_session_Ok _ _ srow) in Hc as ->; [|done]. unbind Hb. injection Hc as Hj <-. apply ok_or_Ok in Hj.
  apply (update_creation_Ok _ _ row) in Hb as ->; [|apply Hk]. cbv beta.
  set (row' := creation_settled "accepted" (Some a0) (cre_failure_code row) row).
  destruct (healthy_manifest p m db input Hm (has_request _ _ _ _ Hh) H1m H0m) as (M1 & M2 & M3 & M4).
  rewrite <- Hid. change (cre_session_id row) with (cre_session_id row'). fold (rewritten (cp_operation_id p) row' (completed_session m 3 srow) c).
  pose proof (kn_reserved _ _ _ _ _ _ Hk) as Hres. destruct (rv_state _ _ _ _ Hres) as (S1 & S2 & S3).
  assert (reserved (cp_operation_id p) row' input CreationState.Accepted) as Hres'.
  { eapply settled_reserved; [exact Hres|]. simpl. split_and!; [done|done|]. exists a0. split; [done|].
    unfold decode_receipt. rewrite (receipt_round _ _ Hj). cbn [ok_or]. rewrite Hp. done. }
  assert (known (cp_operation_id p) row' input CreationState.Accepted (ready_summary m s)
    (rewritten (cp_operation_id p) row' (completed_session m 3 srow) c)) as Hk'.
  { destruct Hsum as [Z1 Z2 Z3 (B1 & B2 & B3 & B4) Z5 Z6 Z7 Z8 Z9 Z10 Z11 Z12 Z13].
    destruct (kn_untouched _ _ _ _ _ _ Hk eq_refl) as (_ & _ & _ & _ & U5 & U6).
    split; simpl; try done.
    - by rewrite lookup_insert_eq.
    - eexists. rewrite lookup_insert_eq. split; [done|]. split; simpl; try done.
      + change (as_i64 3) with 3. rewrite as_i64_small; lia.
      + change (as_i64 3) with 3. rewrite as_i64_small; lia.
      + by rewrite Z11, (kn_workspace _ _ _ _ _ _ Hk), M3.
      + pose proof (kn_created _ _ _ _ _ _ Hk) as Hcr. rewrite Z12 in Hcr. simpl in Hcr.
        rewrite as_i64_small, as_u64_small, Hcr, Hid by (unfold u64_max, i64_max in *; lia). destruct m. simpl in *. f_equal; try done.
        rewrite M2, Hp. done.
    - rewrite M2, Hp. done. }
  destruct (rewritten_ok (cp_operation_id p) row row' (completed_session m 3 srow) input CreationState.Creating CreationState.Accepted
    (ready_summary m s) c files) as [Hok' Hlat]; try done; [apply Hk| |].
  - simpl. split; [lia|]. exists db. rewrite Hid. split; [done|]. change (row_provenance (cp_operation_id p) row') with (row_provenance (cp_operation_id p) row). by rewrite <- Hp.
  - split; [done|]. split; [done|]. exists row'. split; [apply Hk'|]. split; [done|]. exact Hp.
Qed.

(** ** Failing *)
Definition faulty_summary (e : StorageError) (s : SessionSummary) : SessionSummary :=
  {| su_manifest := su_manifest s; su_schema_version := su_schema_version s; su_availability := SessionAvailability.Unavailable;
     su_fault_code := Some (kind_code (se_kind e)); su_last_run_id := su_last_run_id s; su_last_run_state := su_last_run_state s |}.

Lemma fail_body_ok p e c files input st x c' :
  catalog_ok c files -> has c input p st -> broken_file e = true -> fail_body p e c = (Ok x, c') ->
  catalog_ok c' files /\ later c c'.
Proof.
  intros Hok Hh Hbr Hb. destruct (has_known _ _ _ _ _ Hok Hh) as (row & s & Hp & Hk & Hf).
  assert (cre_session_id row = cp_session_id p) as Hid by (by rewrite Hp).
  pose proof (known_entry _ _ _ _ _ _ (co_unique _ _ Hok) Hk) as Hen. rewrite Hid in Hen.
  unfold fail_body in Hb. unbind Hb. injection Hc as Ha <-. rewrite Hen in Ha. injection Ha as <-. simpl in Hb. rewrite <- Hp in Hb.
  destruct (_ || _) eqn:Hor in Hb; [done|]. prop_bools. subst st.
  destruct (kn_session _ _ _ _ _ _ Hk) as (srow & Hsrow & Hsum). rewrite Hid in Hsrow.
  unbind Hb. apply (update_creation_Ok _ _ row) in Hc as ->; [|apply Hk]. cbv beta in Hb.
  apply (update_session_Ok _ _ srow) in Hb as ->; [|done].
  set (code := kind_code (se_kind e)). set (row' := creation_settled "failed" (cre_receipt_json row) (Some code) row).
  set (srow' := faulted_session code srow).
  change (set_sessions (<[cp_session_id p := srow']> (cat_sessions (set_creations (<[cp_operation_id p := row']> (cat_creations c)) c)))
    (set_creations (<[cp_operation_id p := row']> (cat_creations c)) c))
    with (set_creations (<[cp_operation_id p := row']> (cat_creations c)) (set_sessions (<[cp_session_id p := srow']> (cat_sessions c)) c)).
  rewrite <- Hid. change (cre_session_id row) with (cre_session_id row'). fold (rewritten (cp_operation_id p) row' srow' c).
  pose proof (kn_reserved _ _ _ _ _ _ Hk) as Hres. destruct (rv_state _ _ _ _ Hres) as (S1 & S2 & S3).
  assert (from_code code = Some (storage_error (se_kind e))) as Hcode by apply storage_code_round.
  assert (reserved (cp_operation_id p) row' input (CreationState.Failed (not_committed (storage_error (se_kind e))))) as Hres'.
  { eapply settled_reserved; [exact Hres|]. simpl. split_and!; [done|done|]. exists code, (storage_error (se_kind e)).
    split_and!; try done. simpl. unfold broken_file in Hbr. by destruct (se_kind e). }
  eapply (rewritten_ok _ row row' srow' input CreationState.Creating
    (CreationState.Failed (not_committed (storage_error (se_kind e)))) (faulty_summary e s)); try done; [apply Hk| |].
  - destruct Hsum as [Z1 Z2 Z3 Z4 Z5 Z6 Z7 Z8 Z9 Z10 Z11 Z12 Z13]. split; simpl; try done.
    + by rewrite lookup_insert_eq.
    + eexists. rewrite lookup_insert_eq. split; [done|]. split; simpl; try done.
      * by exists (storage_error (se_kind e)).
      * by intros [?|?].
    + apply Hk.
    + apply Hk.
  - simpl in Hf |- *. change (cp_session_id (row_provenance (cp_operation_id p) row')) with (cre_session_id row).
    change (row_provenance (cp_operation_id p) row') with (row_provenance (cp_operation_id p) row). rewrite <- Hp, Hid. exact Hf.
Qed.

(** ** Publishing *)

(** A summary that was observed of a session in use. *)
Record observed (p : CreationProvenance) (o : SessionSummary) files : Prop := {
  ob_file : exists db, files !! cp_session_id p = Some db /\ healthy p (su_manifest o) db;
  ob_version : su_schema_version o = 3;
  ob_head : 1 <= sm_head_sequence (su_manifest o);
  ob_updated : 0 <= sm_updated_at_ms (su_manifest o);
  ob_run r : su_last_run_id o = Some r -> parse_id r = Ok r;
  ob_paired : is_some (su_last_run_id o) = is_some (su_last_run_state o)
}.

Lemma publish_body_ok p o c files input x c' :
  catalog_ok c files -> has c input p CreationState.Accepted -> observed p o files ->
  publish_body o c = (Ok x, c') -> catalog_ok c' files /\ later c c'.
Proof using laws.
  intros Hok Hh [(db & Hdb & Hm) Hver H1o H0u Hrun Hpair] Hb.
  destruct (has_known _ _ _ _ _ Hok Hh) as (row & s & Hp & Hk & Hf).
  assert (cre_session_id row = cp_session_id p) as Hid by (by rewrite Hp).
  pose proof (has_request _ _ _ _ Hh) as Hreq.
  destruct (healthy_manifest p (su_manifest o) db input Hm Hreq H1o H0u) as (M1 & M2 & M3 & M4).
  destruct (kn_session _ _ _ _ _ _ Hk) as (srow & Hsrow & Hsum). rewrite Hid in Hsrow, Hsum.
  unfold publish_body in Hb. rewrite M1 in Hb. unbind Hb. injection Hc as Ha <-. rewrite Hsrow in Ha. injection Ha as <-.
  unbind Hb. injection Hc as Ha <-. rewrite (summary_intro _ _ _ Hsum) in Ha. injection Ha as <-.
  unbind Hb. injection Hc as _ <-. destruct (_ || _) eqn:Hor in Hb; [done|].
  destruct (_ <? _) eqn:Hlt in Hb; [done|]. destruct (_ && _) in Hb; [by injection Hb as _ <-|]. destruct (_ && _) in Hb; [done|].
  unbind Hb. injection Hc as Hw <-. unbind Hb. injection Hb as _ <-. rewrite Hsrow in Hc.
  destruct (_ && _) in Hc; [|by injection Hc as _ <-]. apply (update_session_Ok _ _ srow) in Hc as ->; [|done].
  set (srow' := published_session o a0 srow).
  assert (set_sessions (<[cp_session_id p := srow']> (cat_sessions c)) c = rewritten (cp_operation_id p) row srow' c) as ->.
  { unfold rewritten, set_creations, set_sessions. simpl. rewrite Hid, (insert_id (cat_creations c)); [done|]. apply Hk. }
  assert (validate_workspace (cs_workspace input) = Ok tt) as Hvw by (by destruct (provenance_request_inv _ _ Hreq)).
  eapply (rewritten_ok _ row row srow' input CreationState.Accepted CreationState.Accepted
    {| su_manifest := su_manifest o; su_schema_version := 3; su_availability := SessionAvailability.Ready; su_fault_code := None;
       su_last_run_id := su_last_run_id o; su_last_run_state := su_last_run_state o |}); try done; try apply Hk.
  - pose proof (kn_availability _ _ _ _ _ _ Hk) as Hav. simpl in Hav.
    destruct Hsum as [Z1 Z2 Z3 (B1 & B2 & B3 & B4) Z5 Z6 Z7 Z8 Z9 Z10 Z11 Z12 Z13]. split; simpl; try done.
    + by rewrite lookup_insert_eq.
    + apply Hk.
    + eexists. rewrite Hid, lookup_insert_eq. split; [done|]. split; simpl; try done.
      * by rewrite Z3, Hav.
      * rewrite Hver. change (as_i64 3) with 3. rewrite as_i64_small by lia. split_and!; try lia. rewrite M2.
        apply provenance_request_inv in Hreq. lia.
      * rewrite Hver. change (as_i64 3) with 3. rewrite as_i64_small by lia. lia.
      * rewrite Z7 in Z6 by auto. destruct (ses_fault_code srow); [|done]. by destruct Z6 as (? & _ & ?).
      * rewrite M3. rewrite M3 in Hw. by eapply workspace_round.
      * rewrite as_i64_small, as_u64_small by (unfold u64_max, i64_max in *; lia). destruct (su_manifest o); simpl in *. by rewrite M1.
      * rewrite Hver. done.
    + rewrite M2, Hp. done.
  - simpl. split; [lia|]. exists db. rewrite Hid. split; [done|]. by rewrite <- Hp.
Qed.

(** ** Files *)
Lemma valid_not_empty id expected (db : Db D) m : validate_session id expected db = Ok m -> empty db = false.
Proof.
  unfold validate_session, empty. destruct (Z.eqb_spec (application_id db) 1464423233) as [->|]; [|done]. done.
Qed.

Lemma blank_unhealthy p m : ~ healthy p m blank_file.
Proof. intros (_ & _ & m' & Hv & _). apply valid_not_empty in Hv. done. Qed.

Lemma healthy_moves p m m' db : manifest_moves m m' -> healthy p m' db -> healthy p m db.
Proof. intros Hm (Hs & Hu & m2 & Hv & Hm2). split; [done|]. split; [done|]. exists m2. split; [done|]. by transitivity m'. Qed.

(** Any file of a reservation is blank or its session. *)
Lemma file_cases p st s files db :
  file_ok p st s files -> files !! cp_session_id p = Some db -> db = blank_file \/ exists m, healthy p m db.
Proof. destruct st; simpl; try (by auto). intros (_ & db' & Hdb' & Hh) Hdb. rewrite Hdb' in Hdb. injection Hdb as <-. right. by eexists. Qed.

Lemma catalog_ok_files c files files' p :
  catalog_ok c files -> files_later files files' ->
  (forall id, id <> cp_session_id p -> files' !! id = files !! id) ->
  (forall db, files' !! cp_session_id p = Some db -> db = blank_file \/ exists m, healthy p m db) ->
  (exists input st, has c input p st) -> catalog_ok c files'.
Proof.
  intros Hok Hlat Hother Hhere (input & st & Hh). destruct (has_known _ _ _ _ _ Hok Hh) as (row & s & Hp & Hk & Hf).
  assert (cre_session_id row = cp_session_id p) as Hid by (by rewrite Hp).
  split; [apply Hok| |apply Hok|].
  - intros o r Hr. destruct (co_creations _ _ Hok _ _ Hr) as (i & st1 & s1 & Hk1 & Hf1). exists i, st1, s1. split; [done|].
    assert (file_ok (row_provenance o r) st1 s1 files') as Hgo; [|done].
    destruct (decide (cre_session_id r = cp_session_id p)) as [Heq|Hne].
    + assert (o = cp_operation_id p) as -> by (apply (co_unique _ _ Hok o (cp_operation_id p) r row Hr (kn_row _ _ _ _ _ _ Hk)); congruence).
      assert (r = row) as -> by (pose proof (kn_row _ _ _ _ _ _ Hk); congruence). rewrite <- Hp in Hf1 |- *.
      destruct st1; simpl in *; try exact Hhere. destruct Hf1 as (Hv & db & Hdb & Hhe). split; [done|]. by eapply Hlat.
    + destruct st1; simpl in *; rewrite ?Hother by done; done.
  - intros id db Hdb. destruct (decide (id = cp_session_id p)) as [->|Hne].
    + destruct (kn_session _ _ _ _ _ _ Hk) as (srow & Hs & _). by rewrite <- Hid, Hs.
    + rewrite Hother in Hdb by done. by apply (co_files _ _ Hok) in Hdb.
Qed.

Lemma file_written c files p db' :
  catalog_ok c files -> (exists input st, has c input p st) ->
  (forall db, files !! cp_session_id p = Some db -> db = blank_file) ->
  (db' = blank_file \/ exists m, healthy p m db') ->
  catalog_ok c (<[cp_session_id p := db']> files) /\ files_later files (<[cp_session_id p := db']> files).
Proof.
  intros Hok Hh Hb Hdb'.
  assert (files_later files (<[cp_session_id p := db']> files)) as Hlat.
  { intros q m db Hdb Hq. destruct (decide (cp_session_id q = cp_session_id p)) as [Heq|Hne].
    - rewrite Heq in Hdb. rewrite (Hb _ Hdb) in Hq. by apply blank_unhealthy in Hq.
    - exists db. by rewrite lookup_insert_ne. }
  split; [|done]. eapply (catalog_ok_files c files _ p); try done.
  - intros id Hne. by rewrite lookup_insert_ne.
  - intros db. rewrite lookup_insert_eq. by intros [= <-].
Qed.

(** What a materialization that succeeded found or made. *)
Definition materialized (p : CreationProvenance) (m : SessionManifest) files : Prop :=
  1 <= sm_head_sequence m /\ 0 <= sm_updated_at_ms m /\
  exists db, files !! cp_session_id p = Some db /\ healthy p m db.

Lemma validate_session_updated id expected (db : Db D) m : validate_session id expected db = Ok m -> 0 <= sm_updated_at_ms m.
Proof.
  intros Hv. unfold validate_session in Hv. do 3 (destruct (negb _); [done|]). destruct (ok_or (Store.manifest db) _) as [mr|]; [|done].
  destruct (_ || _) in Hv; [done|]. destruct (_ || _) in Hv; [done|]. destruct (ok_or (provenance_from_json _) _) as [q|]; [|done].
  destruct (provenance_request q) as [input'|]; [|done]. destruct (decode_workspace _) as [w|]; [|done].
  destruct (_ || is_some_and _ _) eqn:Hor in Hv; [done|]. simpl in Hor. prop_bools.
  repeat match type of Hv with
         | (if ?b then Err _ else _) = _ => destruct b; [done|]
         | match ?x with Ok _ => _ | Err _ => _ end = Ok _ => destruct x as [?|]; [|done]
         end. injection Hv as <-. simpl. done.
Qed.

Lemma healthy_now p (db : Db D) m :
  sound db -> user_version db = 3 -> validate_session (cp_session_id p) (Some p) db = Ok m ->
  healthy p m db /\ 1 <= sm_head_sequence m /\ 0 <= sm_updated_at_ms m.
Proof.
  intros Hs Hu Hv. split; [split_and!; [done|done|by exists m]|]. split; [|by eapply validate_session_updated].
  apply validate_session_head in Hv as (_ & _ & _ & _ & -> & Hsz); [lia|done].
Qed.

Lemma materialize_blank_ok fa p files c r files' db :
  catalog_ok c files -> (exists input st, has c input p st) -> db = blank_file ->
  (forall x, files !! cp_session_id p = Some x -> x = blank_file) ->
  materialize_blank fa p db files = (r, files') ->
  catalog_ok c files' /\ files_later files files' /\
  forall m v w, r = Ok ((m, v), w) -> v = 3 /\ materialized p m files'.
Proof.
  intros Hok Hh -> Hb Hm. unfold materialize_blank in Hm. destruct (fa_reopen fa) as [e|].
  { injection Hm as <- <-. destruct (file_written c files p blank_file Hok Hh Hb) as [? ?]; [by left|]. by split_and!. }
  destruct (initialize (fa_fate fa) p blank_file) as [r0 db'] eqn:Hi. injection Hm as <- <-. rewrite insert_insert_eq.
  assert (forall s db1, initialize_body p blank_file = (Ok s, db1) -> healthy p s db1 /\ 1 <= sm_head_sequence s /\ 0 <= sm_updated_at_ms s) as Hbody.
  { intros s db1 Hbo. apply initialize_body_tables in Hbo as (i & ws & pj & json & Hdb1 & _ & _ & Hv & _).
    apply healthy_now; [rewrite Hdb1; apply created_sound|by rewrite Hdb1|done]. }
  apply transaction_inv in Hi as [(e & -> & ->)|(s & db1 & Hbo & Hres)].
  { destruct (file_written c files p blank_file Hok Hh Hb) as [? ?]; [by left|]. by split_and!. }
  destruct (Hbody _ _ Hbo) as (Hhe & Hh1 & Hh2).
  destruct (file_written c files p db' Hok Hh Hb) as [? Hl].
  { destruct Hres as [[_ ->]|[_ [->| ->]]]; [right; by eexists|right; by eexists|by left]. }
  split; [done|]. split; [done|]. intros m v w Heq.
  destruct Hres as [[-> ->]|[-> _]]; [|done]. injection Heq as <- <- _. split; [done|]. split_and!; try done.
  exists db1. by rewrite lookup_insert_eq.
Qed.

Lemma materialize_ok fa p files c r files' :
  catalog_ok c files -> (exists input st, has c input p st) -> materialize fa p files = (r, files') ->
  catalog_ok c files' /\ files_later files files' /\
  forall m v w, r = Ok ((m, v), w) -> v = 3 /\ materialized p m files'.
Proof.
  intros Hok Hh Hm. assert (files_later files files) as Hrefl by (intros q m db Hdb Hq; by exists db).
  unfold materialize in Hm. destruct (fa_path fa) as [e|]; [injection Hm as <- <-; by split_and!|].
  destruct (files !! cp_session_id p) as [db|] eqn:Hdb.
  - pose proof Hh as (input & st & Hhas). destruct (has_known _ _ _ _ _ Hok Hhas) as (row & s & Hp & Hk & Hf).
    pose proof (file_cases _ _ _ _ _ Hf Hdb) as Hcase.
    destruct (refuse (fa_open fa)) as [[]|e]; [|injection Hm as <- <-; by split_and!].
    destruct (empty db) eqn:Hemp.
    + destruct Hcase as [->|(m & Hhe)]; [|destruct Hhe as (_ & _ & m' & Hv & _); apply valid_not_empty in Hv; congruence].
      destruct (fa_read_close fa); [injection Hm as <- <-; by split_and!|].
      eapply materialize_blank_ok; try done. intros x Hx. congruence.
    + destruct Hcase as [->|(m & Hs & Hu & _)]; [done|].
      destruct (validate_session _ _ db) as [m1|e] eqn:Hv; [|injection Hm as <- <-; by split_and!].
      unfold session_version in Hm. rewrite Hu in Hm. cbn [Z.leb Z.compare Pos.compare Pos.compare_cont andb] in Hm.
      destruct (fa_read_close fa); [injection Hm as <- <-; by split_and!|]. injection Hm as <- <-. split_and!; try done.
      intros m2 v w [= <- <- _]. split; [done|]. destruct (healthy_now p db m1 Hs Hu Hv) as (? & ? & ?). split_and!; try done. by exists db.
  - destruct (fa_open fa) as [e|].
    + injection Hm as <- <-. destruct (fa_left fa); [|by split_and!].
      destruct (file_written c files p blank_file Hok Hh) as [? ?]; [congruence|by left|]. by split_and!.
    + eapply materialize_blank_ok; try done. congruence.
Qed.
End safety.
