(* ===== verification/Stores.v ===== *)
(** * Creations happen once, and what they made can be opened

    The invariant of a store over every sequence of steps of Creation.v, and what
    follows from it for its callers. *)
From S2P Require Import Prelude Json Errors Identifiers Provider Tools Replay RunData Hoare Records Store History Session RunStore StoreSafety StoreCommands StoreGuarantees StoreContents Valid Catalog Creation CatalogFacts CreationSafety.

(** * The store at work keeps its catalog

    Every step of the machine of Creation.v keeps the invariant of CreationSafety.v,
    and what follows from it: creations happen once, and what the catalog lists as
    ready can be opened. *)

Section machine.
Context {D : Type} `{Display D} `{UuidLib} `{StorageSerde} {laws : StorageSerdeLaws}.
Implicit Types c : Catalog.
Implicit Types files : gmap string (Db D).
Implicit Types disk : Disk D.

(** What a creation knows in each phase. *)
Definition phase_ok c files (input : CreateSession) (p : Phase) : Prop :=
  match p with
  | Reserving => admitted input
  | Waiting q _ | Inspecting q _ | Materializing q _ => exists st, has c input q st
  | Failing q e => broken_file e = true /\ exists st, has c input q st
  | Completing q _ m v _ => v = 3 /\ materialized q m files /\ exists st, has c input q st
  | Returned (Ok r) => exists q, has c input q CreationState.Accepted /\
      cm_receipt (ct_commit r) = cp_receipt q /\ ct_session_id r = cp_session_id q
  | Returned (Err _) => True
  end.

(** What is known of a summary on its way to the catalog. *)
Definition publishing_ok c files (o : SessionSummary) : Prop :=
  exists input p, has c input p CreationState.Accepted /\ sm_session_id (su_manifest o) = cp_session_id p /\ observed p o files.

Lemma materialized_later p m files files' : files_later files files' -> materialized p m files -> materialized p m files'.
Proof. intros Hl (A1 & A2 & db & Hdb & Hh). split_and!; try done. by eapply Hl. Qed.

Lemma observed_later p o files files' : files_later files files' -> observed p o files -> observed p o files'.
Proof. intros Hl [(db & Hdb & Hh) A2 A3 A4 A5 A6]. split; try done. by eapply Hl. Qed.

Lemma phase_later c c' files files' input p :
  later c c' -> files_later files files' -> phase_ok c files input p -> phase_ok c' files' input p.
Proof.
  intros Hc Hf. assert (forall q, (exists st, has c input q st) -> exists st, has c' input q st) as Hhas.
  { intros q (st & Hh). destruct (Hc _ _ _ Hh) as (st' & ? & _). by exists st'. }
  destruct p as [|q d|q d|q d|q d m v w|q e|[r|e]]; simpl; eauto.
  - intros (? & ? & ?). split_and!; [done|by eapply materialized_later|eauto].
  - intros (? & ?). eauto.
  - intros (q & Hh & Hr). exists q. split; [|done]. destruct (Hc _ _ _ Hh) as (st' & Hh' & Ha). by rewrite Ha in Hh'.
Qed.

Lemma publishing_later c c' files files' o :
  later c c' -> files_later files files' -> publishing_ok c files o -> publishing_ok c' files' o.
Proof.
  intros Hc Hf (input & p & Hh & Hid & Ho). exists input, p. destruct (Hc _ _ _ Hh) as (st' & Hh' & Ha). rewrite Ha in Hh' by done.
  split_and!; [done|done|by eapply observed_later].
Qed.

Lemma files_later_refl files : files_later files files.
Proof. intros q m db Hdb Hq. by exists db. Qed.

(** ** The steps of a creation *)

(** An operation of the catalog whose body keeps [P] keeps it, whatever the surroundings do. *)
Lemma operation_keeps {A} a early (body : Cat A) c r c' (P : Catalog -> Prop) :
  catalog_transaction a early body c = (r, c') -> P c -> (forall v c1, body c = (Ok v, c1) -> P c1) -> P c'.
Proof.
  intros Ht Hc Hb. apply catalog_transaction_inv in Ht as [(e & _ & ->)|(v & c1 & Hbo & [[_ ->]|[_ [->| ->]]])]; eauto.
Qed.

Lemma operation_Ok {A} a early (body : Cat A) c v c' :
  catalog_transaction a early body c = (Ok v, c') -> body c = (Ok v, c').
Proof.
  intros Ht. apply catalog_transaction_inv in Ht as [(e & ? & _)|(v1 & c1 & Hbo & [[Hv ->]|[[e ?] _]])]; try done. by injection Hv as <-.
Qed.

Lemma create_step_ok w input p disk p' disk' :
  catalog_ok (dk_catalog disk) (dk_files disk) -> fresh_ok (we_fresh w) ->
  phase_ok (dk_catalog disk) (dk_files disk) input p -> create_step w input p disk = (p', disk') ->
  catalog_ok (dk_catalog disk') (dk_files disk') /\ later (dk_catalog disk) (dk_catalog disk') /\
  files_later (dk_files disk) (dk_files disk') /\ phase_ok (dk_catalog disk') (dk_files disk') input p'.
Proof using laws.
  destruct disk as [c files]. intros Hok Hfr Hp Hs. pose proof (files_later_refl files) as Hrefl.
  destruct p as [|q d|q d|q d|q d m v wn|q e|r]; simpl in Hok, Hp, Hs |- *.
  - unfold reserve in Hs. destruct (map_err _ _) as [[]|e]; [|injection Hs as <- <-; by split_and!].
    destruct (catalog_transaction _ _ _ c) as [r c'] eqn:Ht. injection Hs as <- <-. simpl.
    destruct (operation_keeps _ _ _ _ _ _ (fun c' => catalog_ok c' files /\ later c c') Ht (conj Hok (reflexivity c))) as [Hok' Hlat].
    { intros [r1 d] c1 Hb. by destruct (reserve_body_ok _ _ _ _ _ _ _ Hok Hfr Hp Hb) as (? & ? & _). }
    split_and!; try done. unfold finish_write. destruct r as [[reserved dup]|e]; [|done]. simpl.
    apply operation_Ok in Ht. destruct (reserve_body_ok _ _ _ _ _ _ _ Hok Hfr Hp Ht) as (_ & _ & Hh).
    destruct (is_some _); [done|]. destruct (bool_decide_reflect (rs_state reserved = CreationState.Accepted)) as [Hacc|]; simpl; [|by eexists].
    exists (rs_provenance reserved). rewrite Hacc in Hh. split_and!; try done. destruct Hh as (row & _ & _ & ->). done.
  - injection Hs as <- <-. by split_and!.
  - injection Hs as <- <-. simpl. split_and!; try done. destruct (map_err _ _) as [en|e] eqn:Hen; [|done]. apply map_err_Ok in Hen.
    destruct (bool_decide_reflect (rs_provenance (en_reservation en) = q)) as [Hq|]; [|done]. simpl.
    unfold entry in Hen. destruct (connect_checked _ _ _ _); [|done]. unfold finish_read in Hen.
    destruct (entry_rows _ c) as [en'|] eqn:He; [|done]. destruct (ac_close_failed _); [done|]. injection Hen as ->.
    destruct (entry_has _ _ _ _ Hok He) as (i & row & s & _ & Hpr & Hk & _). destruct Hp as (st & Hh).
    destruct (rs_state (en_reservation en)) eqn:Hst; simpl; [by eexists| |done]. exists q.
    assert (has c i q CreationState.Accepted) as Hh2 by (rewrite <- Hq, Hpr; by eapply known_has).
    destruct (has_same _ _ _ _ _ _ Hh Hh2) as [<- <-]. split_and!; try done. destruct Hh as (row' & _ & _ & ->). done.
  - destruct (materialize (we_file w) q files) as [r files'] eqn:Hm. injection Hs as <- <-. simpl.
    assert (exists input st, has c input q st) as Hh by (destruct Hp as (st & ?); by exists input, st).
    destruct (materialize_ok _ _ _ _ _ _ Hok Hh Hm) as (Hok' & Hl & Hr). split_and!; try done.
    destruct r as [[[m v] wn]|e]; simpl.
    + destruct (Hr _ _ _ eq_refl). by split_and!.
    + by destruct (broken_file e) eqn:Hbr.
  - destruct Hp as (-> & Hma & st & Hh). pose proof Hma as (H1m & H0m & db & Hdb & Hhe).
    unfold complete in Hs. destruct (connect_checked _ _ _ _) as [[]|e]; [|injection Hs as <- <-; by split_and!].
    destruct (catalog_transaction _ _ _ c) as [r c'] eqn:Ht. injection Hs as <- <-. simpl.
    destruct (operation_keeps _ _ _ _ _ _ (fun c' => catalog_ok c' files /\ later c c') Ht (conj Hok (reflexivity c))) as [Hok' Hlat].
    { intros x c1 Hb. by destruct (complete_body_ok _ _ _ _ _ _ _ _ _ Hok Hh Hdb Hhe H1m H0m Hb) as (? & ? & _). }
    split_and!; try done. unfold finish_write. destruct r as [x|e]; [|done]. simpl.
    apply operation_Ok in Ht. destruct (complete_body_ok _ _ _ _ _ _ _ _ _ Hok Hh Hdb Hhe H1m H0m Ht) as (_ & _ & Hh').
    exists q. split_and!; try done. destruct Hh as (row' & _ & _ & ->). done.
  - destruct Hp as (Hbr & st & Hh). unfold fail in Hs. destruct (connect_checked _ _ _ _) as [[]|e']; [|injection Hs as <- <-; by split_and!].
    destruct (catalog_transaction _ _ _ c) as [r c'] eqn:Ht. injection Hs as <- <-. simpl.
    destruct (operation_keeps _ _ _ _ _ _ (fun c' => catalog_ok c' files /\ later c c') Ht (conj Hok (reflexivity c))) as [Hok' Hlat].
    { intros x c1 Hb. by eapply fail_body_ok. }
    split_and!; try done. by destruct (map_err _ _).
  - injection Hs as <- <-. by split_and!.
Qed.

(** ** Commands and refreshes *)
Lemma validate_session_expected id p (db : Db D) m :
  validate_session id (Some p) db = Ok m ->
  validate_session id None db = Ok m /\
  exists row, Store.manifest db = Some row /\ provenance_from_json (mf_creation_provenance_json row) = Some p.
Proof.
  intros Hv. unfold validate_session in Hv |- *. do 3 (destruct (negb _); [done|]).
  destruct (Store.manifest db) as [mr|]; [|done]. cbn [ok_or] in *. do 2 (destruct (_ || _) in Hv |- *; [done|]).
  destruct (provenance_from_json _) as [q|] eqn:Hq; [|done]. cbn [ok_or] in *.
  destruct (provenance_request q); [|done]. destruct (decode_workspace _); [|done].
  destruct (_ || is_some_and (Some p) _) eqn:Hor in Hv; [done|]. apply orb_false_iff in Hor as [Hor Hexp]. simpl in Hexp. apply negb_false_iff, bool_decide_eq_true in Hexp as <-.
  change (is_some_and None _) with false. rewrite Hor. split; [done|by exists mr].
Qed.

Lemma healthy_same p q m m' (db : Db D) : healthy p m db -> healthy q m' db -> p = q.
Proof.
  intros (_ & _ & m1 & V1 & _) (_ & _ & m2 & V2 & _). apply validate_session_expected in V1 as (_ & r1 & R1 & P1).
  apply validate_session_expected in V2 as (_ & r2 & R2 & P2). congruence.
Qed.

(** What passing the checks before a session is worked on says. *)
Lemma connection_has w id writable disk p :
  catalog_ok (dk_catalog disk) (dk_files disk) -> connection w id writable disk = Ok p ->
  cp_session_id p = id /\ (exists input, has (dk_catalog disk) input p CreationState.Accepted) /\
  exists m db, dk_files disk !! id = Some db /\ healthy p m db.
Proof.
  intros Hok Hc. unfold connection in Hc. destruct (Catalog.entry _ _ _) as [en|] eqn:He; [|done].
  unfold Catalog.entry in He. destruct (connect_checked _ _ _ _); [|done]. unfold finish_read in He.
  destruct (entry_rows id _) as [en'|] eqn:Hr; [|done]. destruct (ac_close_failed _); [done|]. injection He as ->.
  destruct (entry_has _ _ _ _ Hok Hr) as (input & row & s & Hid & Hp & Hk & _ & Hf).
  destruct (match su_availability _ with SessionAvailability.Ready => _ | _ => _ end); [|done].
  destruct (bool_decide_reflect (rs_state (en_reservation en) = CreationState.Accepted)) as [Ha|]; [|done]. cbn [negb] in Hc.
  rewrite Ha in Hf, Hk. destruct Hf as (_ & db & Hdb & Hh).
  assert (p = rs_provenance (en_reservation en)) as ->.
  { repeat match type of Hc with
           | (if ?b then _ else _) = _ => destruct b
           | match ?x with Ok _ => _ | Err _ => _ end = Ok _ => destruct x as [?|]
           end; congruence. }
  assert (cp_session_id (rs_provenance (en_reservation en)) = id) as Hcid by (rewrite Hp, Hid; done).
  split; [done|]. split; [exists input; rewrite Hp; by eapply known_has|]. rewrite Hcid in Hdb. by eexists _, db.
Qed.

Lemma attempt_healthy p m a (db : Db D) : clock_ok (at_clock a) -> healthy p m db -> healthy p m (attempt p a db).
Proof using laws.
  intros Hcl (Hs & Hu & Hv). split; [by apply attempt_keeps|]. split; [by rewrite attempt_version|]. by apply attempt_valid.
Qed.

Lemma command_ok c files p a db m :
  catalog_ok c files -> (exists input, has c input p CreationState.Accepted) -> clock_ok (at_clock a) ->
  files !! cp_session_id p = Some db -> healthy p m db ->
  let files' := <[cp_session_id p := attempt p a db]> files in catalog_ok c files' /\ files_later files files'.
Proof using laws.
  intros Hok (input & Hh) Hcl Hdb Hhe files'. assert (files_later files files') as Hl.
  { intros q m1 db1 Hdb1 Hh1. destruct (decide (cp_session_id q = cp_session_id p)) as [Heq|Hne].
    - assert (db1 = db) as -> by congruence. assert (q = p) as -> by (by eapply healthy_same).
      exists (attempt p a db). unfold files'. rewrite lookup_insert_eq. split; [done|]. by apply attempt_healthy.
    - exists db1. unfold files'. by rewrite lookup_insert_ne. }
  split; [|done]. eapply (catalog_ok_files c files _ p); try done.
  - intros id Hne. unfold files'. by rewrite lookup_insert_ne.
  - intros db'. unfold files'. rewrite lookup_insert_eq. intros [= <-]. right. exists m. by apply attempt_healthy.
  - by exists input, CreationState.Accepted.
Qed.

Lemma refresh_observe_ok w id disk o :
  catalog_ok (dk_catalog disk) (dk_files disk) -> refresh_observe w id disk = Ok o ->
  publishing_ok (dk_catalog disk) (dk_files disk) o.
Proof.
  intros Hok Hr. unfold refresh_observe in Hr. destruct (connection _ _ _ _) as [p|] eqn:Hc; [|done].
  apply connection_has in Hc as (<- & (input & Hh) & m & db & Hdb & Hhe); [|done]. destruct (refuse _); [|done]. rewrite Hdb in Hr. cbn [ok_or] in Hr.
  destruct (observe _ db) as [o'|] eqn:Ho; [|done]. destruct (fa_close_failed _); [done|]. injection Hr as ->.
  pose proof Hhe as (Hs & Hu & m' & Hv & Hmv). destruct (validate_session_expected _ _ _ _ Hv) as [Hv0 _].
  unfold observe in Ho. rewrite Hv0 in Ho. destruct (match latest_run _ with Some _ => _ | None => _ end) as [run|] eqn:Hrun; [|done].
  unfold session_version in Ho. rewrite Hu in Ho. cbn [Z.leb Z.compare Pos.compare Pos.compare_cont andb] in Ho. injection Ho as <-.
  exists input, p. split; [done|]. split; [by apply validate_session_id in Hv|].
  destruct (healthy_now p db m' Hs Hu Hv) as (Hnow & H1m & H0m). split; simpl; try done.
  - by exists db.
  - intros r Hr. destruct (latest_run _) as [[key row]|]; [|by injection Hrun as <-]. destruct (map_err _ _) as [k|] eqn:Hk; [|done].
    apply parse_stored_id in Hk as [Hk ->]. destruct (run_record _ _ _) as [rr|]; [|done]. destruct (ok_or rr _) as [rr'|]; [|done].
    injection Hrun as <-. by injection Hr as <-.
  - by destruct run.
Qed.
End machine.

(** ** The operations leave the schema alone *)
Record same_schema (c c' : Catalog) : Prop := {
  ss_application : cat_application_id c' = cat_application_id c;
  ss_version : cat_user_version c' = cat_user_version c;
  ss_schema : cat_schema c' = cat_schema c;
  ss_meta : cat_meta c' = cat_meta c
}.

#[global] Instance same_schema_preorder : PreOrder same_schema.
Proof. split; [by split|]. intros c1 c2 c3 [? ? ? ?] [? ? ? ?]. split; congruence. Qed.

Definition keeps_schema {A} (body : Cat A) : Prop := forall c a c', body c = (Ok a, c') -> same_schema c c'.

Lemma keeps_schema_bind {A B} (b : Cat A) (k : A -> Cat B) :
  keeps_schema b -> (forall a, keeps_schema (k a)) -> keeps_schema (bind b k).
Proof. intros Hb Hk c x c' H. unbind H. transitivity s; [by eapply Hb|by eapply Hk]. Qed.
Lemma keeps_schema_ret {A} (a : A) : keeps_schema (ret a).
Proof. intros c x c' [= _ <-]. done. Qed.
Lemma keeps_schema_throw {A} e : keeps_schema (@throw Catalog StorageError A e).
Proof. by intros c x c' H. Qed.
Lemma keeps_schema_lift {A} (r : SResult A) : keeps_schema (lift r).
Proof. intros c x c' H. by injection H as _ <-. Qed.
Lemma keeps_schema_reads {A} (f : Catalog -> SResult A) : keeps_schema (reads f).
Proof. intros c x c' H. by injection H as _ <-. Qed.
Lemma keeps_schema_gets {A} (f : Catalog -> A) : keeps_schema (gets f).
Proof. intros c x c' H. by injection H as _ <-. Qed.
Lemma keeps_schema_insert_creation k r : keeps_schema (insert_creation k r).
Proof. intros c x c' H. by apply insert_creation_Ok in H as (_ & _ & ->). Qed.
Lemma keeps_schema_insert_session k r : keeps_schema (insert_session k r).
Proof. intros c x c' H. by apply insert_session_Ok in H as [_ ->]. Qed.
Lemma keeps_schema_update_creation k f : keeps_schema (update_creation k f).
Proof.
  intros c x c' H. destruct (cat_creations c !! k) as [r|] eqn:Hr; [by apply (update_creation_Ok _ _ _ _ _ _ Hr) in H as ->|].
  unfold update_creation in H. rewrite Hr in H. by injection H as _ <-.
Qed.
Lemma keeps_schema_update_session k f : keeps_schema (update_session k f).
Proof.
  intros c x c' H. destruct (cat_sessions c !! k) as [r|] eqn:Hr; [by apply (update_session_Ok _ _ _ _ _ _ Hr) in H as ->|].
  unfold update_session in H. rewrite Hr in H. by injection H as _ <-.
Qed.

Create HintDb keeps_schema.
#[export] Hint Resolve keeps_schema_ret keeps_schema_throw keeps_schema_lift keeps_schema_reads keeps_schema_gets
  keeps_schema_insert_creation keeps_schema_insert_session keeps_schema_update_creation keeps_schema_update_session : keeps_schema.

Ltac keeps_schema_auto :=
  repeat first
    [ solve [eauto with keeps_schema]
    | match goal with |- keeps_schema (bind _ _) => apply keeps_schema_bind; [|intros ?] end
    | match goal with |- keeps_schema (match ?x with _ => _ end) => destruct x end
    | match goal with |- keeps_schema (if ?x then _ else _) => destruct x end ].

Section stores.
Context {D : Type} `{Display D} `{UuidLib} `{StorageSerde} {laws : StorageSerdeLaws}.
Implicit Types c : Catalog.
Implicit Types s : Store (D := D).

Lemma reserve_body_schema fresh input : keeps_schema (reserve_body fresh input).
Proof. unfold reserve_body. keeps_schema_auto. Qed.
Lemma complete_body_schema p m v : keeps_schema (complete_body p m v).
Proof. unfold complete_body. keeps_schema_auto. Qed.
Lemma fail_body_schema p e : keeps_schema (fail_body p e).
Proof. unfold fail_body. keeps_schema_auto. Qed.
Lemma publish_body_schema o : keeps_schema (publish_body o).
Proof.
  unfold publish_body. keeps_schema_auto. intros c x c' Hc. destruct (cat_sessions c !! _); [|by injection Hc as _ <-].
  destruct (_ && _) in Hc; [by eapply keeps_schema_update_session|by injection Hc as _ <-].
Qed.

Lemma operation_schema {A} a early (body : Cat A) c r c' :
  keeps_schema body -> catalog_transaction a early body c = (r, c') -> same_schema c c'.
Proof. intros Hk Ht. eapply operation_keeps; [exact Ht|done|]. intros v c1 Hb. by eapply Hk. Qed.

Lemma create_step_schema w input p (disk : Disk D) p' disk' :
  create_step w input p disk = (p', disk') -> same_schema (dk_catalog disk) (dk_catalog disk').
Proof.
  destruct disk as [c files]. destruct p as [|q d|q d|q d|q d m v wn|q e|r]; simpl; intros Hs; try (injection Hs as _ <-; done).
  - unfold reserve in Hs. destruct (map_err _ _) as [[]|e]; [|by injection Hs as _ <-].
    destruct (catalog_transaction _ _ _ c) as [r c'] eqn:Ht. injection Hs as _ <-. eapply operation_schema, Ht. apply reserve_body_schema.
  - destruct (materialize _ _ _) as [r files']. by injection Hs as _ <-.
  - unfold complete in Hs. destruct (connect_checked _ _ _ _) as [[]|e]; [|by injection Hs as _ <-].
    destruct (catalog_transaction _ _ _ c) as [r c'] eqn:Ht. injection Hs as _ <-. eapply operation_schema, Ht. apply complete_body_schema.
  - unfold fail in Hs. destruct (connect_checked _ _ _ _) as [[]|e']; [|by injection Hs as _ <-].
    destruct (catalog_transaction _ _ _ c) as [r c'] eqn:Ht. injection Hs as _ <-. eapply operation_schema, Ht. apply fail_body_schema.
Qed.

(** ** The invariant *)

(** The catalog passes its inspection and is not to be repaired. *)
Definition usable c : Prop :=
  validate_catalog c = Ok tt /\ exists m, cat_meta c = [m] /\ meta_singleton m = 1 /\ meta_repair_required m = 0.

Record store_ok s : Prop := {
  so_catalog : catalog_ok (dk_catalog (sto_disk s)) (dk_files (sto_disk s));
  so_usable : usable (dk_catalog (sto_disk s));
  so_creating k input p : sto_creating s !! k = Some (input, p) ->
    phase_ok (dk_catalog (sto_disk s)) (dk_files (sto_disk s)) input p;
  so_publishing k o : sto_publishing s !! k = Some o -> publishing_ok (dk_catalog (sto_disk s)) (dk_files (sto_disk s)) o
}.

Lemma usable_same c c' : same_schema c c' -> usable c -> usable c'.
Proof. intros [? ? ? Hm] (Hv & m & Hc & Hmeta). split; [by rewrite (validate_catalog_same c c')|]. exists m. by rewrite Hm. Qed.

Lemma opened_ok s : opened s -> store_ok s.
Proof.
  destruct s as [[c files] creating publishing]. intros (Hi & Hf & Hcr & Hpu). cbn [sto_disk dk_catalog dk_files sto_creating sto_publishing] in *. subst files creating publishing.
  assert (c = snd (initialize_catalog Committed false blank_catalog)) as -> by (exact (f_equal snd (eq_sym Hi))). clear Hi.
  split; simpl; [|vm_compute; split; [done|by eexists]|done|done].
  split; [by intros o1 o2 r1 r2 L1|by intros o row L|by intros id srow L|by intros id db L].
Qed.

(** A step that only moves the disk forward keeps what the others know. *)
Lemma store_ok_later s disk' creating publishing :
  store_ok s -> catalog_ok (dk_catalog disk') (dk_files disk') -> same_schema (dk_catalog (sto_disk s)) (dk_catalog disk') ->
  later (dk_catalog (sto_disk s)) (dk_catalog disk') -> files_later (dk_files (sto_disk s)) (dk_files disk') ->
  (forall k input p, creating !! k = Some (input, p) -> sto_creating s !! k = Some (input, p) \/
    phase_ok (dk_catalog disk') (dk_files disk') input p) ->
  (forall k o, publishing !! k = Some o -> sto_publishing s !! k = Some o \/ publishing_ok (dk_catalog disk') (dk_files disk') o) ->
  store_ok (mkStore disk' creating publishing).
Proof.
  intros [Hc Hu Hcr Hpu] Hok Hsc Hl Hf Hcr' Hpu'. split; simpl; [done|by eapply usable_same| |].
  - intros k input p Hk. destruct (Hcr' _ _ _ Hk) as [Hold|]; [|done]. eapply phase_later; [done|done|by eapply Hcr].
  - intros k o Hk. destruct (Hpu' _ _ Hk) as [Hold|]; [|done]. eapply publishing_later; [done|done|by eapply Hpu].
Qed.

Lemma store_step_ok s s' : store_ok s -> store_step s s' -> store_ok s'.
Proof using laws.
  intros Hok Hst. pose proof Hok as [Hc Hu Hcr Hpu]. pose proof (files_later_refl (dk_files (sto_disk s))) as Hrefl.
  destruct Hst as [k input Hk Hin|k input p w p' disk' Hk Hfr _ Hs|k|w id p db a _ Hcon Hdb Hcl|k w id o _ Hk Ho|k w o r c Hk Hp|k];
    try (apply (store_ok_later s); try done; intros; auto; fail).
  - apply (store_ok_later s); try done; [|by auto]. intros k' i p [[<- [= <- <-]]|[_ L]]%lookup_insert_Some; auto.
  - pose proof (create_step_schema _ _ _ _ _ _ Hs) as Hsc. apply create_step_ok in Hs as (Hok' & Hl & Hf & Hp'); [|done|done|by eapply Hcr].
    apply (store_ok_later s); try done; [|by auto]. intros k' i q [[<- [= <- <-]]|[_ L]]%lookup_insert_Some; auto.
  - apply (store_ok_later s); try done; [|by auto]. intros k' i q [_ L]%lookup_delete_Some. auto.
  - apply connection_has in Hcon as (<- & Hh & m & db' & Hdb' & Hhe); [|done]. assert (db' = db) as -> by congruence.
    destruct (command_ok _ _ _ _ _ _ Hc Hh Hcl Hdb Hhe) as [Hok' Hl]. apply (store_ok_later s); try done; by auto.
  - apply refresh_observe_ok in Ho; [|done]. apply (store_ok_later s); try done; [by auto|].
    intros k' o' [[<- <-]|[_ L]]%lookup_insert_Some; auto.
  - unfold publish in Hp. destruct (connect_checked _ _ _ _) as [[]|e].
    + destruct (catalog_transaction _ _ _ _) as [r' c'] eqn:Ht. injection Hp as _ <-. pose proof (operation_schema _ _ _ _ _ _ (publish_body_schema o) Ht) as Hsc.
      destruct (Hpu _ _ Hk) as (input & p & Hh & Hid & Hob).
      destruct (operation_keeps _ _ _ _ _ _ (fun c' => catalog_ok c' (dk_files (sto_disk s)) /\ later (dk_catalog (sto_disk s)) c') Ht
        (conj Hc (reflexivity _))) as [Hok' Hl]; [intros x c1 Hb; by eapply publish_body_ok|].
      apply (store_ok_later s); try done; [by auto|]. intros k' o' [_ L]%lookup_delete_Some. auto.
    + injection Hp as _ <-. apply (store_ok_later s); try done; [by auto|]. intros k' o' [_ L]%lookup_delete_Some. auto.
  - apply (store_ok_later s); try done; [by auto|]. intros k' o' [_ L]%lookup_delete_Some. auto.
Qed.

Lemma reachable_ok s : reachable s -> store_ok s.
Proof using laws. induction 1; [by apply opened_ok|by eapply store_step_ok]. Qed.

(** ** Opening what is ready *)

(** Surroundings that refuse nothing. *)
Record calm (w : Weather) : Prop := {
  cl_open : ac_open (we_access w) = None;
  cl_reopen : ac_reopen (we_access w) = None;
  cl_begin : ac_begin (we_access w) = None;
  cl_fate : ac_fate (we_access w) = Committed;
  cl_close : ac_close_failed (we_access w) = false;
  cl_path : fa_path (we_file w) = None;
  cl_file_open : fa_open (we_file w) = None;
  cl_read_close : fa_read_close (we_file w) = false;
  cl_file_reopen : fa_reopen (we_file w) = None;
  cl_file_fate : fa_fate (we_file w) = Committed;
  cl_file_close : fa_close_failed (we_file w) = false
}.

Lemma calm_connects w writable repairing c : calm w -> usable c -> connect_checked (we_access w) writable repairing c = Ok tt.
Proof.
  intros Hw (Hv & m & Hm & H1m & Hr). unfold connect_checked. rewrite (cl_open _ Hw), Hv, Hm. cbn [refuse find]. rewrite H1m. cbn [ok_or Z.eqb Pos.eqb].
  rewrite Hr. cbn [Z.eqb negb andb]. destruct writable; [by rewrite (cl_reopen _ Hw)|done].
Qed.

Lemma calm_entry w id c en : calm w -> usable c -> entry_rows id c = Ok en -> Catalog.entry (we_access w) id c = Ok en.
Proof. intros Hw Hu He. unfold Catalog.entry. rewrite calm_connects, He by done. unfold finish_read. by rewrite (cl_close _ Hw). Qed.

Lemma entry_connects w id writable (disk : Disk D) (s : SessionSummary) p db m v :
  usable (dk_catalog disk) -> calm w ->
  entry_rows id (dk_catalog disk) = Ok {| en_summary := s; en_reservation := {| rs_provenance := p; rs_state := CreationState.Accepted |} |} ->
  su_availability s = SessionAvailability.Ready -> dk_files disk !! id = Some db -> validate_session id (Some p) db = Ok m ->
  session_version db = Ok v -> su_schema_version s <= v -> manifest_moves (su_manifest s) m ->
  connection w id writable disk = Ok p.
Proof.
  intros Hu Hw Hen Hav Hdb Hval Hver Hle Hmv. unfold connection. rewrite (calm_entry _ _ _ _ Hw Hu Hen). cbn [en_summary en_reservation rs_state rs_provenance].
  rewrite Hav, (bool_decide_eq_true_2 (CreationState.Accepted = _)) by done. cbn [negb].
  rewrite (cl_path _ Hw), Hdb, (cl_file_open _ Hw). cbn [refuse ok_or]. rewrite Hval, Hver.
  assert ((v <? su_schema_version s) = false) as -> by (apply Z.ltb_ge; lia).
  assert ((sm_head_sequence m <? sm_head_sequence (su_manifest s)) = false) as -> by (apply Z.ltb_ge, (mm_head _ _ Hmv)). cbn [orb].
  assert ((sm_head_sequence (su_manifest s) =? sm_head_sequence m) && negb (bool_decide (su_manifest s = m)) = false) as ->.
  { destruct (Z.eqb_spec (sm_head_sequence (su_manifest s)) (sm_head_sequence m)) as [Heq|]; [|done].
    rewrite bool_decide_eq_true_2; [done|]. symmetry. by apply (mm_same _ _ Hmv). }
  destruct writable; [|done]. by rewrite (cl_read_close _ Hw), (cl_file_reopen _ Hw).
Qed.

Lemma calm_connection w writable (disk : Disk D) input p :
  catalog_ok (dk_catalog disk) (dk_files disk) -> usable (dk_catalog disk) -> calm w ->
  has (dk_catalog disk) input p CreationState.Accepted -> connection w (cp_session_id p) writable disk = Ok p.
Proof.
  intros Hok Hu Hw Hh. destruct (has_known _ _ _ _ _ Hok Hh) as (row & s & Hp & Hk & Hv & db & Hdb & Hs & Hver & m & Hval & Hmv).
  assert (cre_session_id row = cp_session_id p) as Hid by (by rewrite Hp).
  pose proof (known_entry _ _ _ _ _ _ (co_unique _ _ Hok) Hk) as Hen. rewrite Hid, <- Hp in Hen.
  eapply (entry_connects w _ writable disk s p db m 3); try done; [apply (kn_availability _ _ _ _ _ _ Hk)|].
  unfold session_version. by rewrite Hver.
Qed.

(** C19. What the catalog calls ready can be opened.  Whatever creations, commands,
    refreshes, failures and losses came before, in any order: a session whose row
    says ready passes all the checks of a connection, for reading and for writing,
    when the surroundings refuse nothing; its file is valid, and what the row says
    of it is a past of what the file says. *)
Theorem ready_opens s w id row su writable :
  reachable s -> calm w -> cat_sessions (dk_catalog (sto_disk s)) !! id = Some row -> summary id row = Ok su ->
  su_availability su = SessionAvailability.Ready ->
  exists p db m, connection w id writable (sto_disk s) = Ok p /\ cp_session_id p = id /\
    dk_files (sto_disk s) !! id = Some db /\ validate_session id (Some p) db = Ok m /\ manifest_moves (su_manifest su) m.
Proof using laws.
  intros Hr Hw Hrow Hsu Hav. apply reachable_ok in Hr as [Hok Hu _ _].
  destruct (co_sessions _ _ Hok _ _ Hrow) as (o & cr & Hcr & <-). destruct (co_creations _ _ Hok _ _ Hcr) as (input & st & s' & Hk & Hf).
  destruct (kn_session _ _ _ _ _ _ Hk) as (row' & Hrow' & Hsum). assert (row' = row) as -> by congruence.
  apply summary_intro in Hsum. assert (s' = su) as -> by congruence. pose proof (kn_availability _ _ _ _ _ _ Hk) as Hst. rewrite Hav in Hst.
  destruct st; try done. pose proof (known_has _ _ _ _ _ _ Hk) as Hh. destruct Hf as (_ & db & Hdb & _ & _ & m & Hval & Hmv).
  exists (row_provenance o cr), db, m. split; [|done]. by apply (calm_connection w writable _ input (row_provenance o cr)).
Qed.

(** A creation that returned has happened and stays.  If a creation returned a
    result, then in every later state of the store the session of the result opens
    in calm surroundings, it was created by exactly the request the result answers,
    and its receipt is the one that was returned. *)
Lemma created_opens s k input r w writable :
  reachable s -> calm w -> sto_creating s !! k = Some (input, Returned (Ok r)) ->
  exists p, connection w (ct_session_id r) writable (sto_disk s) = Ok p /\ provenance_request p = Ok input /\
    cp_receipt p = cm_receipt (ct_commit r).
Proof using laws.
  intros Hr Hw Hk. apply reachable_ok in Hr as [Hok Hu Hcr _]. destruct (Hcr _ _ _ Hk) as (p & Hh & Hre & ->). exists p.
  split; [by eapply calm_connection|]. split; [by eapply has_request|done].
Qed.

Lemma provenance_request_operation p input : provenance_request p = Ok input -> cs_operation_id input = cp_operation_id p.
Proof.
  unfold provenance_request. intros Hr. destruct (ok_or (request_from_json _) _); [|done]. destruct (receipt_single _ _ _); [|done].
  destruct (_ || _) in Hr; [done|]. destruct (ok_or (request_to_json _) _); [|done]. destruct (_ || _) in Hr; [done|].
  apply map_err_Ok in Hr. unfold new_create_session in Hr. destruct (validate_workspace _); [|done]. by injection Hr as <-.
Qed.

(** C18. Creations happen once.  Two creations that returned results, at any time
    and under any interleaving: with the same operation they had the same request
    and their results carry the same receipt, of the same session; with different
    operations their sessions differ. *)
Theorem creations_once s k1 k2 input1 input2 r1 r2 :
  reachable s -> sto_creating s !! k1 = Some (input1, Returned (Ok r1)) ->
  sto_creating s !! k2 = Some (input2, Returned (Ok r2)) ->
  (cs_operation_id input1 = cs_operation_id input2 <-> ct_session_id r1 = ct_session_id r2) /\
  (cs_operation_id input1 = cs_operation_id input2 -> input1 = input2 /\ cm_receipt (ct_commit r1) = cm_receipt (ct_commit r2)).
Proof using laws.
  intros Hr H1k H2k. apply reachable_ok in Hr as [Hok _ Hcr _].
  destruct (Hcr _ _ _ H1k) as (p1 & Hh1 & -> & ->). destruct (Hcr _ _ _ H2k) as (p2 & Hh2 & -> & ->).
  assert (cp_operation_id p1 = cp_operation_id p2 <-> cp_session_id p1 = cp_session_id p2) as Hiff.
  { destruct Hh1 as (w1 & L1 & _ & E1), Hh2 as (w2 & L2 & _ & E2). split; intros Heq.
    - rewrite E1, E2. assert (w1 = w2) as -> by congruence. done.
    - apply (co_unique _ _ Hok _ _ w1 w2 L1 L2). rewrite E1, E2 in Heq. exact Heq. }
  assert (cs_operation_id input1 = cp_operation_id p1 /\ cs_operation_id input2 = cp_operation_id p2) as [-> ->].
  { pose proof (has_request _ _ _ _ Hh1) as Q1. pose proof (has_request _ _ _ _ Hh2) as Q2. split; by apply provenance_request_operation. }
  split; [done|]. intros Heq.
  assert (p1 = p2) as ->. { destruct Hh1 as (w1 & L1 & _ & E1), Hh2 as (w2 & L2 & _ & E2). rewrite E1, E2, Heq. congruence. }
  by destruct (has_same _ _ _ _ _ _ Hh1 Hh2) as [-> _].
Qed.
End stores.
