(* ===== verification/Recovery.v ===== *)
(** * Creations complete

    Whatever state interrupted creations left a store in, a creation that meets no
    refusal returns after at most five steps, with a session unless an earlier
    attempt had settled the operation otherwise. *)
From S2P Require Import Prelude Json Errors Identifiers Provider Tools Replay RunData Hoare Records Store History Session RunStore StoreSafety StoreCommands StoreGuarantees StoreContents Valid Prefix Catalog Creation CatalogFacts CreationSafety Stores.

(** ** The paths of sessions *)
Lemma append_cancel_l (a b b' : string) : String.append a b = String.append a b' -> b = b'.
Proof. induction a; simpl; [done|]. intros [= Heq]. auto. Qed.

Lemma length_append (a b : string) : String.length (String.append a b) = (String.length a + String.length b)%nat.
Proof. induction a; simpl; [done|]. by f_equal. Qed.

Lemma append_cancel_long (a a' b b' : string) :
  String.length a = String.length a' -> String.append a b = String.append a' b' -> a = a' /\ b = b'.
Proof.
  revert a'. induction a as [|x a IH]; intros [|x' a']; simpl; try done. intros [= Hl] [= -> Heq].
  by destruct (IH _ Hl Heq) as [-> ->].
Qed.

Lemma length_substring_2 (s : string) : String.length (String.substring 0 2 s) = Nat.min 2 (String.length s).
Proof. destruct s as [|a [|b s]]; simpl; [done|done|]. by destruct s. Qed.

(** Different sessions have different paths. *)
Lemma session_relative_path_inj id id' : session_relative_path id = session_relative_path id' -> id = id'.
Proof.
  unfold session_relative_path. intros Heq. apply append_cancel_l in Heq.
  assert (String.length id = String.length id') as Hl.
  { apply (f_equal String.length) in Heq. rewrite !length_append, !length_substring_2 in Heq. lia. }
  apply append_cancel_long in Heq as [_ Heq]; [|by rewrite !length_substring_2, Hl].
  apply append_cancel_l in Heq. by apply append_cancel_long in Heq as [? _].
Qed.

#[export] Instance CreateSession_eq_dec : EqDecision CreateSession.
Proof. solve_decision. Defined.

Section recovery.
Context {D : Type} `{Display D} `{UuidLib} `{StorageSerde} {laws : StorageSerdeLaws} {digest : DigestLength}.
Implicit Types c : Catalog.
Implicit Types files : gmap string (Db D).
Implicit Types disk : Disk D.

(** ** Statements that succeed *)
Lemma session_check_ok c files k r :
  catalog_ok c files -> 0 <= ses_head_sequence r -> ses_relative_path r = session_relative_path k ->
  is_some (availability_of_name (ses_availability r)) = true -> session_check k r c = true.
Proof.
  intros Hok Hh Hp Ha. unfold session_check. apply andb_true_iff. split; [apply andb_true_iff; split; [by apply Z.leb_le|]|].
  - unfold availability_of_name in Ha. simpl. destruct (bool_decide_reflect (ses_availability r = "creating")) as [->|]; [done|].
    destruct (bool_decide_reflect (ses_availability r = "ready")) as [->|]; [done|].
    destruct (bool_decide_reflect (ses_availability r = "missing")) as [->|]; [done|].
    by destruct (bool_decide_reflect (ses_availability r = "unavailable")) as [->|].
  - apply forallb_forall. intros [k' r'] Hin. apply list_elem_of_In, elem_of_map_to_list in Hin. simpl.
    destruct (co_sessions _ _ Hok _ _ Hin) as (o & row & Ho & <-). destruct (co_creations _ _ Hok _ _ Ho) as (input & st & s & Hk & _).
    destruct (kn_session _ _ _ _ _ _ Hk) as (srow & Hs & Hsum). assert (srow = r') as -> by congruence.
    rewrite (sz_path _ _ _ Hsum), Hp. destruct (bool_decide_reflect (cre_session_id row = k)) as [|Hne]; [done|].
    rewrite bool_decide_eq_false_2; [done|]. intros Heq. by apply session_relative_path_inj in Heq.
Qed.

Lemma creation_check_ok c k r :
  len (cre_payload_hash r) = 32 -> cre_state r = "creating" \/ cre_state r = "accepted" ->
  (forall o q, cat_creations c !! o = Some q -> cre_session_id q = cre_session_id r -> o = k) -> creation_check k r c = true.
Proof.
  intros Hl Hs Hu. unfold creation_check. rewrite Hl. apply andb_true_iff. split; [by destruct Hs as [->| ->]|].
  apply forallb_forall. intros [o q] Hin. apply list_elem_of_In, elem_of_map_to_list in Hin. simpl.
  destruct (bool_decide_reflect (cre_session_id q = cre_session_id r)) as [Heq|]; [|by destruct (bool_decide (o = k))].
  by rewrite bool_decide_eq_true_2 by (by apply (Hu o q)).
Qed.

Lemma update_session_intro k f r c :
  cat_sessions c !! k = Some r -> session_check k (f r) c = true ->
  update_session k f c = (Ok tt, set_sessions (<[k := f r]> (cat_sessions c)) c).
Proof. intros Hr Hc. unfold update_session, bind, require_constraint, modify. by rewrite Hr, Hc. Qed.

Lemma update_creation_intro k f r c :
  cat_creations c !! k = Some r -> creation_check k (f r) c = true ->
  update_creation k f c = (Ok tt, set_creations (<[k := f r]> (cat_creations c)) c).
Proof. intros Hr Hc. unfold update_creation, bind, require_constraint, modify. by rewrite Hr, Hc. Qed.

Lemma insert_session_intro k r c :
  cat_sessions c !! k = None -> session_check k r c = true ->
  insert_session k r c = (Ok tt, set_sessions (<[k := r]> (cat_sessions c)) c).
Proof. intros Hr Hc. unfold insert_session, bind, require_constraint, modify. by rewrite Hr, Hc. Qed.

Lemma insert_creation_intro k r c :
  cat_creations c !! k = None -> creation_check k r c = true ->
  insert_creation k r c = (Ok tt, set_creations (<[k := r]> (cat_creations c)) c).
Proof. intros Hr Hc. unfold insert_creation, bind, require_constraint, modify. by rewrite Hr, Hc. Qed.

Lemma calm_transaction {A} w early (body : Cat A) c :
  calm w -> catalog_transaction (we_access w) early body c =
    match body c with (Ok a, c') => (Ok a, c') | (Err e, _) => (Err (not_committed e), c) end.
Proof.
  intros Hw. unfold catalog_transaction, transaction. rewrite (cl_begin _ Hw), (cl_fate _ Hw). by destruct (body c) as [[a|e] c'].
Qed.

(** ** The steps of a creation in calm surroundings *)

(** That the values of a creation can be written as JSON. *)
Record serializes (p : CreationProvenance) (input : CreateSession) : Prop := {
  sr_workspace : is_ok (workspace_to_json (cs_workspace input)) = true;
  sr_provenance : is_some (provenance_to_json p) = true;
  sr_payload : is_some (payload_to_json (SessionCreated {| cd_title := cs_title input; cd_workspace := cs_workspace input;
                 cd_creation_provenance := p |})) = true;
  sr_receipt : is_some (receipt_to_json (cp_receipt p)) = true
}.

Lemma calm_inspect w disk input p d :
  catalog_ok (dk_catalog disk) (dk_files disk) -> usable (dk_catalog disk) -> calm w ->
  has (dk_catalog disk) input p CreationState.Creating ->
  create_step w input (Inspecting p d) disk = (Materializing p d, disk).
Proof.
  intros Hok Hu Hw Hh. destruct (has_known _ _ _ _ _ Hok Hh) as (row & s & Hp & Hk & _).
  assert (cre_session_id row = cp_session_id p) as Hid by (by rewrite Hp).
  pose proof (known_entry _ _ _ _ _ _ (co_unique _ _ Hok) Hk) as Hen. rewrite Hid, <- Hp in Hen.
  unfold create_step. rewrite (calm_entry _ _ _ _ Hw Hu Hen). cbn [map_err en_reservation rs_provenance rs_state].
  by rewrite (bool_decide_eq_true_2 (p = p)) by done.
Qed.

Lemma calm_materialize_blank w p input files db :
  calm w -> provenance_request p = Ok input -> serializes p input -> empty db = true ->
  exists m files', materialize_blank (we_file w) p db files = (Ok ((m, 3), None), files').
Proof using laws.
  intros Hw Hr [Sw Sp Sj _] He. destruct (workspace_to_json _) as [ws|] eqn:Hws; [|done].
  destruct (provenance_to_json p) as [pj|] eqn:Hpj; [|done]. destruct (payload_to_json _) as [j|] eqn:Hj; [|done].
  destruct (initialize_creates p input ws pj j db He Hr Hws Hpj Hj) as (db' & Hi & _).
  unfold materialize_blank. rewrite (cl_file_reopen _ Hw), (cl_file_fate _ Hw), Hi, (cl_file_close _ Hw). by eexists _, _.
Qed.

Lemma calm_materialize w disk input p st d :
  catalog_ok (dk_catalog disk) (dk_files disk) -> calm w -> has (dk_catalog disk) input p st -> serializes p input ->
  exists m files', create_step w input (Materializing p d) disk = (Completing p d m 3 None, on_files files' disk).
Proof using laws.
  intros Hok Hw Hh Hse. destruct (has_known _ _ _ _ _ Hok Hh) as (row & s & Hp & Hk & Hf). pose proof (has_request _ _ _ _ Hh) as Hreq.
  assert (exists m files', materialize (we_file w) p (dk_files disk) = (Ok ((m, 3), None), files')) as (m & files' & Hm).
  { unfold materialize. rewrite (cl_path _ Hw), (cl_file_open _ Hw). cbn [refuse].
    destruct (dk_files disk !! cp_session_id p) as [db|] eqn:Hdb; [|by eapply calm_materialize_blank].
    destruct (file_cases _ _ _ _ _ Hf Hdb) as [->|(m & _ & Hu & m' & Hv & _)].
    - rewrite (cl_read_close _ Hw). by eapply calm_materialize_blank.
    - rewrite (valid_not_empty _ _ _ _ Hv), Hv. unfold session_version. rewrite Hu, (cl_read_close _ Hw). by eexists _, _. }
  exists m, files'. unfold create_step. by rewrite Hm.
Qed.

Lemma calm_complete w disk input p d m :
  catalog_ok (dk_catalog disk) (dk_files disk) -> usable (dk_catalog disk) -> calm w ->
  has (dk_catalog disk) input p CreationState.Creating -> materialized p m (dk_files disk) -> serializes p input ->
  exists disk', create_step w input (Completing p d m 3 None) disk = (committed p d None, disk').
Proof.
  intros Hok Hu Hw Hh (H1m & H0m & db & Hdb & Hhe) Hse. destruct (has_known _ _ _ _ _ Hok Hh) as (row & s & Hp & Hk & _).
  assert (cre_session_id row = cp_session_id p) as Hid by (by rewrite Hp).
  pose proof (known_entry _ _ _ _ _ _ (co_unique _ _ Hok) Hk) as Hen. rewrite Hid, <- Hp in Hen.
  destruct (kn_session _ _ _ _ _ _ Hk) as (srow & Hsrow & Hsum). rewrite Hid in Hsrow, Hsum.
  destruct (healthy_manifest p m db input Hhe (has_request _ _ _ _ Hh) H1m H0m) as (_ & _ & _ & Hmax).
  destruct (receipt_to_json (cp_receipt p)) as [rj|] eqn:Hrj; [|by destruct Hse as [_ _ _ Hr]; rewrite Hrj in Hr].
  assert (exists c', complete_body p m 3 (dk_catalog disk) = (Ok tt, c')) as (c' & Hb).
  { unfold complete_body, bind at 1, reads. rewrite Hen. cbn [en_reservation rs_provenance rs_state en_summary].
    rewrite (bool_decide_eq_true_2 (p = p)), (kn_availability _ _ _ _ _ _ Hk) by done. cbn [negb state_availability].
    rewrite bool_decide_eq_false_2, !bool_decide_eq_true_2 by done. cbn [negb orb]. unfold bind at 1.
    rewrite (update_session_intro _ _ srow).
    2: done.
    2: { apply (session_check_ok _ (dk_files disk)); simpl; try done; [rewrite as_i64_small; lia|apply Hsum]. }
    unfold bind, lift. rewrite Hrj. cbn [ok_or]. rewrite (update_creation_intro _ _ row); [by eexists|apply Hk|].
    apply creation_check_ok; simpl; [apply (kn_reserved _ _ _ _ _ _ Hk)|by right|].
    intros o q Hq Heq. eapply (co_unique _ _ Hok); [done|apply Hk|done]. }
  exists (on_catalog c' disk). unfold create_step, complete. rewrite calm_connects by done.
  rewrite calm_transaction, Hb by done. unfold finish_write. rewrite (cl_close _ Hw). done.
Qed.

Lemma provenance_request_json p input :
  provenance_request p = Ok input ->
  request_to_json (create_request input) = Some (cp_request_json p) /\ cp_payload_hash p = sha256 (cp_request_json p).
Proof.
  unfold provenance_request. intros Hr. destruct (request_from_json _) as [q|]; [|done]. cbn [ok_or] in Hr. destruct (receipt_single _ _ _); [|done].
  destruct (_ || _) eqn:Ho1 in Hr; [done|]. destruct (request_to_json q) as [t|] eqn:Ht; [|done]. cbn [ok_or] in Hr.
  destruct (_ || _) eqn:Ho2 in Hr; [done|]. prop_bools. apply map_err_Ok in Hr. unfold new_create_session in Hr.
  destruct (validate_workspace _); [|done]. injection Hr as <-. split; [|done].
  unfold create_request. simpl. destruct q as [method title ws]. simpl in *. congruence.
Qed.

(** What a creation of a known operation is told. *)
Definition retold (input known : CreateSession) (p : CreationProvenance) (st : CreationState.t) : SResult (Reservation * bool) :=
  if bool_decide (known = input)
  then match st with CreationState.Failed e => Err e | _ => Ok ({| rs_provenance := p; rs_state := st |}, true) end
  else Err (not_committed conflict).

Lemma calm_reserve w input c :
  calm w -> usable c ->
  reserve (we_access w) (we_fresh w) input c =
    match reserve_body (we_fresh w) input c with (Ok r, c') => (Ok r, c') | (Err e, _) => (Err (not_committed e), c) end.
Proof.
  intros Hw Hu. unfold reserve. rewrite calm_connects, calm_transaction by done. cbn [map_err]. unfold finish_write. rewrite (cl_close _ Hw).
  by destruct (reserve_body _ _ _) as [[r|e] c'].
Qed.

Lemma calm_reserve_known w input c files p known st :
  catalog_ok c files -> usable c -> calm w -> is_some (request_to_json (create_request input)) = true ->
  has c known p st -> cp_operation_id p = cs_operation_id input ->
  reserve (we_access w) (we_fresh w) input c = (retold input known p st, c).
Proof using laws.
  intros Hok Hu Hw Hj Hh Hop. destruct (request_to_json (create_request input)) as [t|] eqn:Ht; [|done].
  destruct (has_known _ _ _ _ _ Hok Hh) as (row & s & Hp & Hk & _).
  assert (cre_session_id row = cp_session_id p) as Hid by (by rewrite Hp).
  pose proof (known_entry _ _ _ _ _ _ (co_unique _ _ Hok) Hk) as Hen. rewrite Hid, <- Hp in Hen.
  pose proof (has_request _ _ _ _ Hh) as Hreq. destruct (provenance_request_json _ _ Hreq) as [Hkj Hkh].
  pose proof (reservation_intro _ _ _ _ (kn_reserved _ _ _ _ _ _ Hk)) as Hres. rewrite <- Hp, Hop in Hres.
  pose proof (kn_row _ _ _ _ _ _ Hk) as Hrow. rewrite Hop in Hrow.
  rewrite calm_reserve by done. unfold reserve_body, bind at 1, lift. rewrite Ht. cbn [ok_or]. unfold bind at 1, gets. rewrite Hrow.
  unfold bind at 1. rewrite Hres. cbn [rs_provenance rs_state]. rewrite Hkh. unfold retold.
  destruct (bool_decide_reflect (cp_request_json p = t)) as [Heq|Hne].
  - assert (known = input) as -> by exact (request_same _ _ _ _ Hreq Ht Heq Hop). rewrite Heq, !(bool_decide_eq_true_2 (_ = _) eq_refl). cbn [negb orb].
    destruct st as [| |e]; [|done|].
    + rewrite bool_decide_eq_false_2 by done. unfold bind, reads. rewrite Hen. cbn [en_reservation rs_state en_summary].
      by rewrite (kn_availability _ _ _ _ _ _ Hk).
    + rewrite bool_decide_eq_false_2 by done. unfold bind, reads. rewrite Hen. cbn [en_reservation rs_state throw].
      destruct (rv_state _ _ _ _ (kn_reserved _ _ _ _ _ _ Hk)) as (_ & _ & code & e' & _ & _ & -> & _). done.
  - rewrite orb_true_r. rewrite bool_decide_eq_false_2; [done|]. intros ->. congruence.
Qed.

Lemma calm_reserve_new w input c files t now :
  catalog_ok c files -> usable c -> calm w -> request_to_json (create_request input) = Some t -> fr_now (we_fresh w) = Ok now ->
  is_ok (workspace_to_json (cs_workspace input)) = true ->
  cat_creations c !! cs_operation_id input = None -> cat_sessions c !! fr_session (we_fresh w) = None ->
  exists p c', new_provenance (fr_session (we_fresh w)) (fr_event (we_fresh w)) (fr_now (we_fresh w)) input = Ok p /\
    reserve (we_access w) (we_fresh w) input c = (Ok ({| rs_provenance := p; rs_state := CreationState.Creating |}, false), c').
Proof using digest.
  intros Hok Hu Hw Ht Hnow Hws Hnone Hfree. destruct (workspace_to_json _) as [ws|] eqn:Hwj; [|done].
  assert (exists p, new_provenance (fr_session (we_fresh w)) (fr_event (we_fresh w)) (fr_now (we_fresh w)) input = Ok p /\
    cp_operation_id p = cs_operation_id input /\ cp_session_id p = fr_session (we_fresh w) /\ cp_payload_hash p = sha256 t) as (p & Hp & Hop & Hsp & Hhp).
  { unfold new_provenance. rewrite Ht, Hnow. cbn [ok_or]. rewrite receipt_first. by eexists. }
  exists p. rewrite calm_reserve by done. unfold reserve_body, bind at 1, lift. rewrite Ht. cbn [ok_or]. unfold bind at 1, gets. rewrite Hnone.
  unfold bind at 1. rewrite Hp. unfold bind at 1. rewrite insert_creation_intro.
  2: by rewrite Hop.
  2: { apply creation_check_ok; simpl; [|by left|].
       - rewrite Hhp. unfold len. by rewrite sha256_length.
       - intros o q Hq Heq. destruct (co_creations _ _ Hok _ _ Hq) as (i & st & s & Hk & _).
         destruct (kn_session _ _ _ _ _ _ Hk) as (srow & Hs & _). rewrite Heq, Hsp in Hs. congruence. }
  unfold bind. rewrite Hwj. rewrite insert_session_intro; [by eexists|simpl; by rewrite Hsp|].
  apply (session_check_ok c files); done.
Qed.

(** ** The whole creation *)
Lemma calm_finish w disk input p d :
  catalog_ok (dk_catalog disk) (dk_files disk) -> usable (dk_catalog disk) -> calm w -> fresh_ok (we_fresh w) ->
  has (dk_catalog disk) input p CreationState.Creating -> serializes p input ->
  exists disk', create_steps 4 w input (Waiting p d) disk = (committed p d None, disk').
Proof using laws.
  intros Hok Hu Hw Hfr Hh Hse. destruct (calm_materialize w disk input p _ d Hok Hw Hh Hse) as (m & files' & Hm).
  destruct (create_step_ok w input (Materializing p d) disk _ _ Hok Hfr (ex_intro _ _ Hh) Hm) as (Hok' & _ & _ & _ & Hma & _).
  destruct (calm_complete w (on_files files' disk) input p d m Hok' Hu Hw Hh Hma Hse) as (disk' & Hc). exists disk'.
  change (create_steps 4 w input (Waiting p d) disk) with (create_steps 3 w input (Inspecting p d) disk).
  cbn [create_steps]. rewrite (calm_inspect w disk input p d Hok Hu Hw Hh), Hm, Hc. done.
Qed.

Lemma returned_steps n w input r disk : create_steps n w input (Returned r) disk = (Returned r, disk).
Proof. by induction n. Qed.

(** What a completed creation returns. *)
Definition created (p : CreationProvenance) (duplicate : bool) : CreateResult :=
  new_create_result {| cm_receipt := cp_receipt p; cm_duplicate := duplicate; cm_cleanup_warning := None |}.

(** What a creation of an operation with a reservation is answered. *)
Definition answer (input known : CreateSession) (r : Reservation) : SResult CreateResult :=
  if bool_decide (known = input)
  then match rs_state r with
       | CreationState.Failed e => Err e
       | _ => Ok (created (rs_provenance r) true)
       end
  else Err (not_committed conflict).

Lemma five_steps w input disk :
  create_steps 5 w input Reserving disk = let '(p, disk1) := create_step w input Reserving disk in create_steps 4 w input p disk1.
Proof. done. Qed.

Lemma calm_again w input disk known p st :
  catalog_ok (dk_catalog disk) (dk_files disk) -> usable (dk_catalog disk) -> calm w -> fresh_ok (we_fresh w) ->
  is_some (request_to_json (create_request input)) = true ->
  has (dk_catalog disk) known p st -> cp_operation_id p = cs_operation_id input ->
  (has (dk_catalog disk) input p CreationState.Creating -> serializes p input) ->
  exists disk', create_steps 5 w input Reserving disk =
    (Returned (answer input known {| rs_provenance := p; rs_state := st |}), disk').
Proof using laws.
  intros Hok Hu Hw Hfr Hj Hh Hop Hse. rewrite five_steps. unfold create_step.
  rewrite (calm_reserve_known w input _ _ p known st Hok Hu Hw Hj Hh Hop). unfold retold, answer.
  destruct (bool_decide_reflect (known = input)) as [->|Hne]; [|eexists; by rewrite returned_steps].
  destruct st as [| |e]; cbn [rs_state rs_provenance].
  - rewrite bool_decide_eq_false_2 by done. replace (on_catalog (dk_catalog disk) disk) with disk by (by destruct disk).
    by apply calm_finish; auto.
  - rewrite bool_decide_eq_true_2 by done. eexists. unfold committed. by rewrite returned_steps.
  - eexists. by rewrite returned_steps.
Qed.

Lemma calm_first w input disk now p :
  catalog_ok (dk_catalog disk) (dk_files disk) -> usable (dk_catalog disk) -> calm w -> fresh_ok (we_fresh w) -> admitted input ->
  fr_now (we_fresh w) = Ok now -> cat_creations (dk_catalog disk) !! cs_operation_id input = None ->
  cat_sessions (dk_catalog disk) !! fr_session (we_fresh w) = None ->
  new_provenance (fr_session (we_fresh w)) (fr_event (we_fresh w)) (Ok now) input = Ok p -> serializes p input ->
  exists disk', create_steps 5 w input Reserving disk = (Returned (Ok (created p false)), disk').
Proof using laws digest.
  intros Hok Hu Hw Hfr Hin Hnow Hrow Hfree Hp Hser. destruct (request_to_json (create_request input)) as [t|] eqn:Ht.
  2: { unfold new_provenance in Hp. by rewrite Ht in Hp. }
  destruct (calm_reserve_new w input _ _ t now Hok Hu Hw Ht Hnow (sr_workspace _ _ Hser) Hrow Hfree) as (p0 & c' & Hp0 & Hre).
  rewrite Hnow in Hp0. assert (p0 = p) as -> by congruence.
  pose proof (calm_reserve w input _ Hw Hu) as Hcr. rewrite Hre in Hcr. destruct (reserve_body _ _ _) as [[r1|] c1] eqn:Hb; [|done]. injection Hcr as <- <-.
  destruct (reserve_body_ok _ _ _ _ _ _ _ Hok Hfr Hin Hb) as (Hok' & _ & Hh'). cbn [rs_provenance rs_state] in Hh'.
  assert (usable c') as Hu' by (eapply usable_same, Hu; by eapply reserve_body_schema).
  rewrite five_steps. unfold create_step. rewrite Hre. cbn [rs_state rs_provenance]. rewrite bool_decide_eq_false_2 by done.
  by apply (calm_finish w (on_catalog c' disk)).
Qed.

(** C20. Creations recover.  In every state creations, commands, refreshes and their
    failures can leave a store in - reservations without files, blank files, files
    whose completion was lost - a creation that nothing refuses returns within five
    steps: a new operation gets its session; one that had been interrupted is
    finished with the session it had reserved; an accepted one gets its receipt
    again; a failed one its failure, and another request under a used operation a
    conflict. *)
Theorem create_recovers (s : Store (D := D)) w input now :
  reachable s -> calm w -> fresh_ok (we_fresh w) -> fr_now (we_fresh w) = Ok now -> admitted input ->
  cat_sessions (dk_catalog (sto_disk s)) !! fr_session (we_fresh w) = None ->
  is_some (request_to_json (create_request input)) = true ->
  (forall p, has (dk_catalog (sto_disk s)) input p CreationState.Creating \/
     (cat_creations (dk_catalog (sto_disk s)) !! cs_operation_id input = None /\
      new_provenance (fr_session (we_fresh w)) (fr_event (we_fresh w)) (Ok now) input = Ok p) -> serializes p input) ->
  exists r disk', create_steps 5 w input Reserving (sto_disk s) = (Returned r, disk') /\
    match cat_creations (dk_catalog (sto_disk s)) !! cs_operation_id input with
    | None => exists p, new_provenance (fr_session (we_fresh w)) (fr_event (we_fresh w)) (Ok now) input = Ok p /\ r = Ok (created p false)
    | Some row => exists reserved known, reservation (cs_operation_id input) row = Ok reserved /\
        provenance_request (rs_provenance reserved) = Ok known /\
        r = answer input known reserved
    end.
Proof using laws digest.
  intros Hr Hw Hfr Hnow Hin Hfree Hj Hse. apply reachable_ok in Hr as [Hok Hu _ _]. destruct s as [disk cr pu]. cbn [sto_disk] in *.
  destruct (cat_creations (dk_catalog disk) !! cs_operation_id input) as [row|] eqn:Hrow.
  - destruct (co_creations _ _ Hok _ _ Hrow) as (known & st & su & Hk & _). pose proof (known_has _ _ _ _ _ _ Hk) as Hh.
    destruct (calm_again w input disk known _ st Hok Hu Hw Hfr Hj Hh eq_refl) as (disk' & Hs); [by auto|].
    eexists _, disk'. split; [exact Hs|]. eexists _, known. split; [by eapply reservation_intro, Hk|]. split; [by eapply has_request|done].
  - assert (exists p, new_provenance (fr_session (we_fresh w)) (fr_event (we_fresh w)) (Ok now) input = Ok p) as (p & Hp).
    { unfold new_provenance. destruct (request_to_json _); [|done]. by eexists. }
    destruct (calm_first w input disk now p Hok Hu Hw Hfr Hin Hnow Hrow Hfree Hp) as (disk' & Hs); [by auto|].
    eexists _, disk'. split; [exact Hs|]. by exists p.
Qed.
End recovery.
