(* ===== verification/CatalogExamples.v ===== *)
(** * A store at work

    A creation whose file was written but whose commit was reported unknown, the two
    calls that repeat it, and the hypotheses of the claims about the catalog there. *)
From S2P Require Import Prelude Json Errors Identifiers Provider Tools Replay RunData Hoare Records Store History Session RunStore StoreSafety StoreCommands StoreGuarantees StoreContents Prefix StoreExamples Valid Catalog Creation CatalogFacts CreationSafety Stores Recovery.

#[local] Existing Instance example_uuid.

Lemma commands_keep_valid_witness :
  exists m m', validate_session sid (Some provenance) db1 = Ok m /\
    validate_session sid (Some provenance) (attempts provenance story db1) = Ok m' /\ manifest_moves m m' /\
    size (attempts provenance story db1) = 5.
Proof.
  destruct (validate_session sid (Some provenance) db1) as [m|e] eqn:Hv; [|exfalso; revert Hv; vm_compute; discriminate].
  destruct (commands_keep_valid provenance story db1 m) as (m' & Hv' & Hm).
  - apply db1_sound.
  - repeat (apply Forall_cons; split; [apply clock_is_ok|]). constructor.
  - exact Hv.
  - exists m, m'. split; [reflexivity|]. split; [exact Hv'|]. split; [exact Hm|]. vm_compute. reflexivity.
Defined.

(** ** A serialization that also has the receipt of the creation *)
Definition catalog_receipts : list (string * CommitReceipt) := ("r0", receipt op3 None 1 1) :: receipt_table.
#[local] Instance catalog_serde : StorageSerde := table_serde payload_table catalog_receipts.
#[local] Instance catalog_laws : @StorageSerdeLaws catalog_serde.
Proof. apply table_serde_laws; apply (bool_decide_unpack _); vm_compute; reflexivity. Qed.
#[local] Instance catalog_digest : @DigestLength catalog_serde.
Proof. split. intros t. apply pad_length. Qed.

(** ** Steps that can be computed *)
Definition unlocked_now (id : string) (s : Store (D := unit)) : bool :=
  forallb (fun kp : nat * (CreateSession * Phase) => negb (bool_decide (locks kp.2.2 = Some id))) (map_to_list (sto_creating s)).

Lemma unlocked_now_ok id s : unlocked_now id s = true -> unlocked id s.
Proof.
  intros Hu k i p Hk Hl. unfold unlocked_now in Hu. rewrite forallb_forall in Hu.
  specialize (Hu (k, (i, p))). rewrite <- list_elem_of_In in Hu. specialize (Hu (proj2 (elem_of_map_to_list _ _ _) Hk)).
  simpl in Hu. by rewrite bool_decide_eq_true_2 in Hu.
Qed.

Definition begin (k : nat) (input : CreateSession) (s : Store (D := unit)) : Store :=
  mkStore (sto_disk s) (<[k := (input, Reserving)]> (sto_creating s)) (sto_publishing s).

Definition advance_creation (k : nat) (w : Weather) (s : Store (D := unit)) : Store :=
  match sto_creating s !! k with
  | Some (input, p) =>
      let r := create_step w input p (sto_disk s) in
      mkStore (snd r) (<[k := (input, fst r)]> (sto_creating s)) (sto_publishing s)
  | None => s
  end.

Definition may_advance (k : nat) (s : Store (D := unit)) : bool :=
  match sto_creating s !! k with
  | Some (_, Waiting q _) => unlocked_now (cp_session_id q) s
  | _ => true
  end.

Lemma advance_reachable k w s :
  fresh_ok (we_fresh w) -> reachable s -> may_advance k s = true -> reachable (advance_creation k w s).
Proof.
  intros Hf Hr Hm. unfold advance_creation. unfold may_advance in Hm. destruct (sto_creating s !! k) as [[input p]|] eqn:Hk; [|done].
  eapply reachable_step; [exact Hr|]. eapply step_advance; [exact Hk|exact Hf| |by rewrite <- pair_eta].
  intros q d ->. by apply unlocked_now_ok.
Qed.

(** ** The store *)
Definition creation_input : CreateSession := {| cs_operation_id := op3; cs_title := "first"; cs_workspace := Some "/w" |}.

Definition ids : Fresh :=
  {| fr_session := sid; fr_event := "01234567-89ab-1cde-8fab-000000000101"; fr_now := Ok 900 |}.
Definition other_ids : Fresh :=
  {| fr_session := rid; fr_event := "01234567-89ab-1cde-8fab-000000000102"; fr_now := Ok 950 |}.

Definition fair (fate : Fate) (fresh : Fresh) : Weather := {|
  we_access := {| ac_open := None; ac_reopen := None; ac_begin := None; ac_fate := Committed; ac_close_failed := false |};
  we_fresh := fresh;
  we_file := {| fa_path := None; fa_open := None; fa_left := false; fa_read_close := false; fa_reopen := None;
                fa_fate := fate; fa_close_failed := false |} |}.

Lemma fair_calm fresh : calm (fair Committed fresh).
Proof. done. Qed.

Lemma ids_ok : fresh_ok ids.
Proof. split; [vm_compute; reflexivity|]. split; [vm_compute; reflexivity|]. by intros t [= <-]. Qed.
Lemma other_ids_ok : fresh_ok other_ids.
Proof. split; [vm_compute; reflexivity|]. split; [vm_compute; reflexivity|]. by intros t [= <-]. Qed.
Lemma creation_admitted : admitted creation_input.
Proof. split; vm_compute; reflexivity. Qed.

Definition fresh_store : Store (D := unit) :=
  mkStore (mkDisk (snd (initialize_catalog Committed false blank_catalog)) ∅) ∅ ∅.
Lemma fresh_reachable : reachable fresh_store.
Proof.
  apply reachable_opened. split; [|done]. unfold fresh_store. cbn [sto_disk dk_catalog].
  destruct (migration_validates false) as (c & Hc & _). by rewrite Hc.
Qed.

(** Four steps; the last one writes the file and is told that it may not have. *)
Definition stuck : Store (D := unit) :=
  advance_creation 0 (fair Unknown_kept ids) (advance_creation 0 (fair Committed ids)
    (advance_creation 0 (fair Committed ids) (advance_creation 0 (fair Committed ids) (begin 0 creation_input fresh_store)))).

(** A creation from its beginning to its end. *)
Definition whole (k : nat) (s : Store (D := unit)) : Store :=
  Nat.iter 5 (advance_creation k (fair Committed other_ids)) (begin k creation_input s).

Lemma begin_reachable k s : reachable s -> sto_creating s !! k = None -> reachable (begin k creation_input s).
Proof. intros Hr Hk. eapply reachable_step; [exact Hr|]. apply step_begin; [exact Hk|apply creation_admitted]. Qed.

Lemma stuck_reachable : reachable stuck.
Proof.
  unfold stuck. repeat (apply advance_reachable; [apply ids_ok| |vm_compute; reflexivity]).
  apply begin_reachable; [apply fresh_reachable|vm_compute; reflexivity].
Qed.

Definition twice : Store (D := unit) := whole 2 (whole 1 stuck).

Lemma twice_reachable : reachable twice.
Proof.
  unfold twice, whole. do 2 (cbn [Nat.iter nat_rect]; do 5 (apply advance_reachable; [apply other_ids_ok| |vm_compute; reflexivity]);
    apply begin_reachable; [|vm_compute; reflexivity]). apply stuck_reachable.
Qed.

Definition repeated : CreateResult := created provenance true.

Lemma stuck_lost : sto_creating stuck !! 0%nat =
  Some (creation_input, Returned (Err (storage_error StorageErrorKind.CommitUnknown))).
Proof. vm_compute. reflexivity. Qed.
Lemma twice_first : sto_creating twice !! 1%nat = Some (creation_input, Returned (Ok repeated)).
Proof. vm_compute. reflexivity. Qed.
Lemma twice_second : sto_creating twice !! 2%nat = Some (creation_input, Returned (Ok repeated)).
Proof. vm_compute. reflexivity. Qed.

(** ** The claims there *)
Lemma creations_once_witness :
  (op3 = op3 <-> sid = sid) /\ (op3 = op3 -> creation_input = creation_input /\ cp_receipt provenance = cp_receipt provenance).
Proof.
  exact (creations_once twice 1%nat 2%nat creation_input creation_input repeated repeated twice_reachable twice_first twice_second).
Defined.

Lemma created_opens_witness :
  exists p, connection (fair Committed ids) sid true (sto_disk twice) = Ok p /\ provenance_request p = Ok creation_input /\
    cp_receipt p = cp_receipt provenance.
Proof.
  exact (created_opens twice 1%nat creation_input repeated (fair Committed ids) true twice_reachable (fair_calm ids) twice_first).
Defined.

Definition no_row : SessionRow := {|
  ses_relative_path := ""; ses_title := ""; ses_workspace_json := None; ses_created_at_ms := 0; ses_updated_at_ms := 0;
  ses_head_sequence := 0; ses_schema_version := 0; ses_availability := ""; ses_fault_code := None;
  ses_last_run_id := None; ses_last_run_state := None; ses_seen_repair_id := None |}.

Definition twice_row : SessionRow := default no_row (cat_sessions (dk_catalog (sto_disk twice)) !! sid).
Definition twice_summary : SessionSummary :=
  {| su_manifest := {| sm_session_id := sid; sm_title := "first"; sm_workspace := Some "/w"; sm_created_at_ms := 900;
       sm_updated_at_ms := 900; sm_head_sequence := 1 |};
     su_schema_version := 3; su_availability := SessionAvailability.Ready; su_fault_code := None;
     su_last_run_id := None; su_last_run_state := None |}.

Lemma ready_opens_witness :
  exists p db m, connection (fair Committed ids) sid true (sto_disk twice) = Ok p /\ cp_session_id p = sid /\
    dk_files (sto_disk twice) !! sid = Some db /\ validate_session sid (Some p) db = Ok m /\ manifest_moves (su_manifest twice_summary) m.
Proof.
  apply (ready_opens twice (fair Committed ids) sid twice_row twice_summary true twice_reachable (fair_calm ids));
    vm_compute; reflexivity.
Defined.

Definition stuck_row : CreationRow := new_creation provenance.

Lemma stuck_serializes p :
  has (dk_catalog (sto_disk stuck)) creation_input p CreationState.Creating \/
  (cat_creations (dk_catalog (sto_disk stuck)) !! cs_operation_id creation_input = None /\
   new_provenance (fr_session other_ids) (fr_event other_ids) (Ok 950) creation_input = Ok p) ->
  serializes p creation_input.
Proof.
  intros [Hh|[Hn _]]; [|exfalso; revert Hn; vm_compute; discriminate].
  assert (p = provenance) as ->; [|split; vm_compute; reflexivity].
  pose proof (provenance_request_operation _ _ (has_request _ _ _ _ Hh)) as Hop. destruct Hh as (row & Hrow & _ & Hp).
  rewrite <- Hop in Hrow, Hp. assert (cat_creations (dk_catalog (sto_disk stuck)) !! cs_operation_id creation_input = Some stuck_row) as Hs
    by (vm_compute; reflexivity).
  rewrite Hs in Hrow. injection Hrow as <-. rewrite Hp. vm_compute. reflexivity.
Qed.

(** The creation that was lost is finished by the next call, which reports it as a duplicate. *)
Lemma create_recovers_witness :
  exists r disk', create_steps 5 (fair Committed other_ids) creation_input Reserving (sto_disk stuck) = (Returned r, disk') /\
    match cat_creations (dk_catalog (sto_disk stuck)) !! op3 with
    | None => exists p, new_provenance rid (fr_event other_ids) (Ok 950) creation_input = Ok p /\ r = Ok (created p false)
    | Some row => exists reserved known, reservation op3 row = Ok reserved /\
        provenance_request (rs_provenance reserved) = Ok known /\ r = answer creation_input known reserved
    end.
Proof.
  apply (create_recovers stuck (fair Committed other_ids) creation_input 950 stuck_reachable (fair_calm other_ids) other_ids_ok eq_refl
    creation_admitted); [vm_compute; reflexivity|vm_compute; reflexivity|exact stuck_serializes].
Defined.
