(* ===== verification/Repair.v ===== *)
(** * Repairing the catalog (src/src/storage/catalog_repair.rs)

    Repair rebuilds the catalog from the session files.  It raises a mark that makes
    every other operation refuse, looks at each file it finds, records what it saw
    under the identifier of this scan, and in one last transaction declares missing
    what it did not see and takes the mark down. *)
From S2P Require Import Prelude Json Errors Identifiers Provider Tools Replay RunData Records Store History Session RunStore StoreGuarantees StoreContents Prefix RunAudit Catalog Creation.

(** * Loops over the rows of a table by their key

    Repair reads a table one row at a time: each statement asks for the least row
    above the last key.  [visit] is that loop; it ends, and it visits every row. *)

Section pages.
Context {A K : Type} (key : A -> K) (below : K -> K -> bool).

(** ORDER BY key LIMIT 1. *)
Fixpoint least (l : list A) : option A :=
  match l with
  | [] => None
  | x :: l =>
      match least l with
      | Some y => if below (key y) (key x) then Some y else Some x
      | None => Some x
      end
  end.

(** WHERE key > after; the first statement may have no bound. *)
Definition above (after : option K) (x : A) : bool := is_none_or after (fun k => below k (key x)).

(** One unit of fuel per statement. *)
Fixpoint visit (fuel : nat) (f : A -> option (SResult unit)) (after : option K) (l : list A) : option (SResult unit) :=
  match fuel with
  | O => None
  | S fuel =>
      match least (List.filter (above after) l) with
      | None => Some (Ok tt)
      | Some x => match f x with
                  | Some (Ok _) => visit fuel f (Some (key x)) l
                  | r => r
                  end
      end
  end.

Lemma least_In l x : least l = Some x -> In x l.
Proof.
  revert x. induction l as [|y l IH]; simpl; [done|]. intros x. destruct (least l) as [z|].
  - destruct (below (key z) (key y)); intros [= <-]; auto.
  - intros [= <-]. auto.
Qed.

Lemma least_None l : least l = None -> l = [].
Proof. destruct l as [|x l]; simpl; [done|]. destruct (least l) as [y|]; [by destruct (below _ _)|done]. Qed.

Context (below_irreflexive : forall k, below k k = false).
Context (below_transitive : forall k1 k2 k3, below k1 k2 = true -> below k2 k3 = true -> below k1 k3 = true).

(** A visited row is not visited again. *)
Lemma above_shrinks after l x :
  least (List.filter (above after) l) = Some x ->
  (length (List.filter (above (Some (key x))) l) < length (List.filter (above after) l))%nat.
Proof using below_irreflexive below_transitive.
  intros Hl. apply least_In, filter_In in Hl as [Hin Ha].
  assert (forall y, above (Some (key x)) y = true -> above after y = true) as Hsub.
  { intros y. destruct after as [k|]; [|done]. simpl in *. by apply below_transitive. }
  assert (forall l, (length (List.filter (above (Some (key x))) l) <= length (List.filter (above after) l))%nat) as Hle.
  { intros m. induction m as [|y m IH]; cbn [List.filter]; [lia|]. destruct (above (Some (key x)) y) eqn:Hy.
    - rewrite (Hsub _ Hy). simpl. lia.
    - destruct (above after y); simpl; lia. }
  apply in_split in Hin as (l1 & l2 & ->). rewrite !List.filter_app, !length_app. cbn [List.filter]. rewrite Ha.
  replace (above (Some (key x)) x) with false by (symmetry; apply below_irreflexive).
  pose proof (Hle l1). pose proof (Hle l2). simpl. lia.
Qed.

Lemma visit_ends_from fuel f after l :
  (forall x, In x l -> f x <> None) -> (length (List.filter (above after) l) < fuel)%nat -> visit fuel f after l <> None.
Proof using below_irreflexive below_transitive.
  intros Hf. revert after. induction fuel as [|fuel IH]; intros after Hl; [lia|]. simpl.
  destruct (least _) as [x|] eqn:Hx; [|done]. pose proof Hx as Hin. apply least_In, filter_In in Hin as [Hin _]. specialize (Hf x Hin).
  destruct (f x) as [[[]|]|]; [|done|done]. apply IH. apply above_shrinks in Hx. lia.
Qed.

(** As many statements as rows, and one to find the end, are enough. *)
Lemma visit_ends f after l : (forall x, In x l -> f x <> None) -> visit (S (length l)) f after l <> None.
Proof using below_irreflexive below_transitive.
  intros Hf. apply visit_ends_from; [done|]. pose proof (filter_length_le (above after) l). lia.
Qed.

(** A loop that meets no error succeeds. *)
Lemma visit_Ok f after l : (forall x, In x l -> f x = Some (Ok tt)) -> visit (S (length l)) f after l = Some (Ok tt).
Proof using below_irreflexive below_transitive.
  intros Hf. assert (forall fuel after', visit fuel f after' l = Some (Ok tt) \/ visit fuel f after' l = None) as Hgo.
  { induction fuel as [|fuel IH]; intros after'; [by right|]. simpl. destruct (least _) as [x|] eqn:Hx; [|by left].
    apply least_In, filter_In in Hx as [Hin Ha]. by rewrite (Hf x Hin). }
  destruct (Hgo (S (length l)) after) as [|Hn]; [done|]. apply visit_ends in Hn; [done|]. intros x Hin. by rewrite Hf.
Qed.
End pages.

(** Texts in the order of their bytes. *)
Lemma ltb_irreflexive s : String.ltb s s = false.
Proof. unfold String.ltb. pose proof (String.compare_antisym s s) as Hc. by destruct (String.compare s s). Qed.

Lemma ascii_compare_spec a b : Ascii.compare a b = (Ascii.N_of_ascii a ?= Ascii.N_of_ascii b)%N.
Proof. done. Qed.

Lemma ltb_transitive s1 s2 s3 : String.ltb s1 s2 = true -> String.ltb s2 s3 = true -> String.ltb s1 s3 = true.
Proof.
  unfold String.ltb. revert s2 s3. induction s1 as [|a s1 IH]; intros [|b s2] [|c s3]; cbn [String.compare]; try done.
  rewrite !ascii_compare_spec. specialize (IH s2 s3).
  destruct (N.compare_spec (Ascii.N_of_ascii a) (Ascii.N_of_ascii b)), (N.compare_spec (Ascii.N_of_ascii b) (Ascii.N_of_ascii c)),
    (N.compare_spec (Ascii.N_of_ascii a) (Ascii.N_of_ascii c)); try done; lia.
Qed.

Lemma Zltb_transitive n1 n2 n3 : (n1 <? n2) = true -> (n2 <? n3) = true -> (n1 <? n3) = true.
Proof. lia. Qed.

Record RepairReport : Type := {
  rp_scanned_sessions : Z;
  rp_ready_sessions : Z;
  rp_missing_sessions : Z;
  rp_unavailable_sessions : Z;
  rp_ignored_entries : Z;
  rp_conflicting_commands : Z
}.

(** [increment]. *)
Definition increment_count (n : Z) : SResult Z := ok_or (checked_add_u64 n 1) invalid.

(** ** The history of a session file *)
Section history.
Context {D : Type} `{UuidLib} `{StorageSerde} `{RowSerde}.
Implicit Types db : Db D.

(** [PRAGMA foreign_key_check]: the references of session_v2.sql. *)
Definition foreign_keys db : bool :=
  forallb (fun c => has_event (cmd_first_sequence c) db && has_event (cmd_last_sequence c) db) (commands db)
  && forallb (fun kr : string * RunRow => has_event (run_accepted_sequence kr.2) db
                && optional_event (run_terminal_sequence kr.2) db && optional_event (run_result_sequence kr.2) db)
       (map_to_list (runs db))
  && forallb (fun kt : (string * string) * ToolRow => is_some (runs db !! kt.1.1) && has_event (tool_started_sequence kt.2) db
                && optional_event (tool_finished_sequence kt.2) db && optional_event (tool_result_sequence kt.2) db)
       (map_to_list (tool_results db)).

(** What the pass over the events has seen. *)
Record Pass : Type := {
  ps_head : Z;
  ps_title : option string;
  ps_checkpoints : list (Z * string)
}.

Definition pass_event (version : Z) (p : Pass) (event : StoredEvent) : SResult Pass :=
  let? head := increment_count (ps_head p) in
  if negb (st_sequence event =? head) then Err integrity
  else
    match st_payload event with
    | SessionCreated created =>
        if head =? 1
        then Ok {| ps_head := head; ps_title := Some (cd_title created); ps_checkpoints := ps_checkpoints p |}
        else Err integrity
    | SessionRenamed renamed =>
        Ok {| ps_head := head; ps_title := Some renamed; ps_checkpoints := ps_checkpoints p |}
    | RunHistorySelected payload =>
        if version <? 2 then Err integrity
        else Ok {| ps_head := head; ps_title := ps_title p;
                   ps_checkpoints := ps_checkpoints p ++ [(hs_through_sequence (sel_selection payload),
                                                           hs_history_digest (sel_selection payload))] |}
    | RunProviderBound _ =>
        if version <? 2 then Err integrity
        else Ok {| ps_head := head; ps_title := ps_title p; ps_checkpoints := ps_checkpoints p |}
    | _ => Ok {| ps_head := head; ps_title := ps_title p; ps_checkpoints := ps_checkpoints p |}
    end.

Fixpoint pass_rows (id : string) (version : Z) (p : Pass) (rows : list EventRow) : SResult Pass :=
  match rows with
  | [] => Ok p
  | row :: rows =>
      let? event := decode_event id row in
      let? p := pass_event version p event in
      pass_rows id version p rows
  end.

(** A receipt of accept_history_run needs its selection. *)
Definition check_selected (id : string) db (c : CommandRow) : option (SResult unit) :=
  Some (
  let? operation := map_err (parse_id (cmd_operation_id c)) (fun _ => integrity) in
  let? command := find_command id operation db in
  let? command := ok_or command integrity in
  let? run := ok_or (rc_run_id (c_receipt command)) integrity in
  let? selection := history_selection id run db in
  check? ok_or selection integrity in Ok tt).

Definition selecting db : list CommandRow :=
  List.filter (fun c => bool_decide (cmd_method c = "accept_history_run")) (commands db).

(** Every event of a run has its row, and its acceptance is where the row says. *)
Definition projected db : bool :=
  forallb (fun r => is_none_or (row_run_id r) (fun run => is_some_and (runs db !! run) (fun row =>
             negb (bool_decide (row_event_type r = "run.accepted")) || (run_accepted_sequence row =? row_sequence r))))
    (events db).

Definition check_run (id : string) db (kr : string * RunRow) : option (SResult unit) :=
  match map_err (parse_id kr.1) (fun _ => integrity) with
  | Err e => Some (Err e)
  | Ok run => validate_run id run db
  end.

(** [validate_history]; [quick] is the answer of [PRAGMA quick_check]. *)
Definition validate_history (quick : SResult string) (s : SessionSummary) db : option (SResult unit) :=
  let id := sm_session_id (su_manifest s) in
  match (let? q := quick in
         if negb (bool_decide (q = "ok")) then Err integrity
         else if negb (foreign_keys db) then Err integrity
         else
           let? p := pass_rows id (su_schema_version s) {| ps_head := 0; ps_title := None; ps_checkpoints := [] |} (events db) in
           if negb (ps_head p =? sm_head_sequence (su_manifest s))
              || negb (bool_decide (ps_title p = Some (sm_title (su_manifest s))))
           then Err integrity
           else prefix_digest (ps_head p) (ps_checkpoints p) db) with
  | Err e => Some (Err e)
  | Ok _ =>
      match visit cmd_operation_id String.ltb (S (length (selecting db))) (check_selected id db) (Some "") (selecting db) with
      | Some (Ok _) =>
          if negb (projected db) then Some (Err integrity)
          else visit (fun kr : string * RunRow => run_accepted_sequence kr.2) Z.ltb
                 (S (length (map_to_list (runs db)))) (check_run id db) (Some 0) (map_to_list (runs db))
      | r => r
      end
  end.
End history.

(** ** The catalog during a repair *)

(** What the surroundings do to looking at one file: as for a connection, and the
    answer of the quick check. *)
Record Inspection : Type := {
  ip_file : FileAccess;
  ip_quick : SResult string
}.

(** A statement outside of a transaction; whatever goes wrong, it may have happened. *)
Definition statement (fate : Fate) (body : Cat unit) (c : Catalog) : SResult unit * Catalog :=
  let unknown := Err (storage_error StorageErrorKind.CommitUnknown) in
  match fate, body c with
  | Failed_statement _, _ => (unknown, c)
  | _, (Err _, _) => (unknown, c)
  | Committed, (Ok _, c') => (Ok tt, c')
  | Unknown_kept, (Ok _, c') => (unknown, c')
  | Unknown_lost, (Ok _, _) => (unknown, c)
  end.

(** INSERT with ON CONFLICT DO UPDATE of every column. *)
Definition upsert_session (k : string) (r : SessionRow) : Cat unit :=
  do! require_constraint (session_check k r) in
  modify (fun c => set_sessions (<[k := r]> (cat_sessions c)) c).
Definition upsert_creation (k : string) (r : CreationRow) : Cat unit :=
  do! require_constraint (creation_check k r) in
  modify (fun c => set_creations (<[k := r]> (cat_creations c)) c).

(** UPDATE of the rows a condition selects; only columns without constraints of
    uniqueness change. *)
Definition update_sessions (p : string -> SessionRow -> bool) (f : SessionRow -> SessionRow) : Cat unit :=
  modify (fun c => set_sessions (map_imap (fun k r => Some (if p k r then f r else r)) (cat_sessions c)) c).

Section repair.
Context {D : Type} `{UuidLib} `{StorageSerde} `{RowSerde}.
Implicit Types files : gmap string (Db D).

(** [set_intent]. *)
Definition marked (required : Z) (m : MetaRow) : MetaRow :=
  if meta_singleton m =? 1
  then {| meta_singleton := meta_singleton m; meta_format_version := meta_format_version m; meta_repair_required := required |}
  else m.

Definition set_mark (required : Z) : Cat unit := modify (fun c => set_meta (marked required <$> cat_meta c) c).

(** A transaction of the repair, from its connection to its close. *)
Definition maintain {A} (a : Access) (body : Cat A) (c : Catalog) : SResult A * Catalog :=
  match connect_checked a true true c with
  | Err e => (Err e, c)
  | Ok _ => let '(r, c') := catalog_transaction a (fun e => e) body c in (finish_read a r, c')
  end.

Definition set_intent (a : Access) : Catalog -> SResult unit * Catalog := maintain a (set_mark 1).

(** [inspect]. *)
Definition inspect (i : Inspection) (id : string) files : option (SResult (SessionSummary * CreationProvenance)) :=
  let fa := ip_file i in
  match (check? refuse (fa_path fa) in
         let? db := ok_or (files !! id) (storage_error StorageErrorKind.NotFound) in
         check? refuse (fa_open fa) in
         check? refuse (fa_reopen fa) in
         let? s := observe id db in
         let? m := ok_or (manifest db) (storage_error StorageErrorKind.NotFound) in
         let? p := ok_or (provenance_from_json (mf_creation_provenance_json m)) integrity in
         Ok (db, s, p)) with
  | Err e => Some (Err e)
  | Ok (db, s, p) =>
      match validate_history (ip_quick i) s db with
      | None => None
      | Some (Err e) => Some (Err e)
      | Some (Ok _) => Some (if fa_read_close fa then Err (storage_error StorageErrorKind.Io) else Ok (s, p))
      end
  end.

(** The columns [register] writes. *)
Definition registered_session (repair_id : string) (s : SessionSummary) (workspace : option string) : SessionRow :=
  let m := su_manifest s in {|
  ses_relative_path := session_relative_path (sm_session_id m); ses_title := sm_title m; ses_workspace_json := workspace;
  ses_created_at_ms := sm_created_at_ms m; ses_updated_at_ms := sm_updated_at_ms m;
  ses_head_sequence := as_i64 (sm_head_sequence m); ses_schema_version := as_i64 (su_schema_version s);
  ses_availability := "ready"; ses_fault_code := None; ses_last_run_id := su_last_run_id s;
  ses_last_run_state := state_name <$> su_last_run_state s; ses_seen_repair_id := Some repair_id |}.

Definition registered_creation (p : CreationProvenance) (receipt : string) : CreationRow := {|
  cre_payload_hash := cp_payload_hash p; cre_request_json := cp_request_json p; cre_session_id := cp_session_id p;
  cre_creation_event_id := cp_creation_event_id p; cre_created_at_ms := cp_created_at_ms p; cre_state := "accepted";
  cre_receipt_json := Some receipt; cre_failure_code := None |}.

(** The other session that claims the operation of [p] and was seen by this scan. *)
Definition rival (repair_id : string) (p : CreationProvenance) (c : Catalog) : option string :=
  row ← cat_creations c !! cp_operation_id p;
  let id := cre_session_id row in
  s ← cat_sessions c !! id;
  let validated := bool_decide (ses_availability s = "ready") || bool_decide (ses_fault_code s = Some "storage.command_conflict") in
  if negb (bool_decide (id = cp_session_id p)) && bool_decide (ses_seen_repair_id s = Some repair_id) && validated
  then Some id else None.

(** The body of [register]. *)
Definition register_body (repair_id : string) (s : SessionSummary) (p : CreationProvenance) : Cat unit :=
  let! conflict := gets (rival repair_id p) in
  let! workspace := lift (workspace_to_json (sm_workspace (su_manifest s))) in
  do! upsert_session (sm_session_id (su_manifest s)) (registered_session repair_id s workspace) in
  match conflict with
  | Some first =>
      do! update_sessions (fun k _ => bool_decide (k = first) || bool_decide (k = cp_session_id p))
            (faulted_session "storage.command_conflict") in
      update_creation (cp_operation_id p) (creation_settled "failed" None (Some "storage.command_conflict"))
  | None =>
      do! modify (fun c => set_creations (filter (fun kr : string * CreationRow =>
            negb (bool_decide (cre_session_id kr.2 = cp_session_id p)) || bool_decide (kr.1 = cp_operation_id p)) (cat_creations c)) c) in
      let! receipt := lift (ok_or (receipt_to_json (cp_receipt p)) invalid) in
      upsert_creation (cp_operation_id p) (registered_creation p receipt)
  end.

Definition register (a : Access) (repair_id : string) (s : SessionSummary) (p : CreationProvenance)
  : Catalog -> SResult unit * Catalog := maintain a (register_body repair_id s p).

(** A session repair knows nothing of. *)
Definition unknown_session (id availability code : string) (seen : option string) : SessionRow := {|
  ses_relative_path := session_relative_path id; ses_title := ""; ses_workspace_json := None; ses_created_at_ms := 0;
  ses_updated_at_ms := 0; ses_head_sequence := 0; ses_schema_version := 1; ses_availability := availability;
  ses_fault_code := Some code; ses_last_run_id := None; ses_last_run_state := None; ses_seen_repair_id := seen |}.

(** A known session with a fault. *)
Definition rejected_session (path code : string) (repair_id : string) (r : SessionRow) : SessionRow := {|
  ses_relative_path := path; ses_title := ses_title r; ses_workspace_json := ses_workspace_json r;
  ses_created_at_ms := ses_created_at_ms r; ses_updated_at_ms := ses_updated_at_ms r;
  ses_head_sequence := ses_head_sequence r; ses_schema_version := ses_schema_version r;
  ses_availability := "unavailable"; ses_fault_code := Some code; ses_last_run_id := ses_last_run_id r;
  ses_last_run_state := ses_last_run_state r; ses_seen_repair_id := Some repair_id |}.

(** The statement of [record_fault]. *)
Definition fault_body (repair_id id : string) (e : StorageError) : Cat unit :=
  let! known := gets (fun c => cat_sessions c !! id) in
  if bool_decide (se_kind e = StorageErrorKind.NotFound)
  then match known with
       | Some _ => ret tt
       | None => insert_session id (unknown_session id "missing" "storage.not_found" None)
       end
  else upsert_session id (match known with
                          | Some r => rejected_session (session_relative_path id) (kind_code (se_kind e)) repair_id r
                          | None => unknown_session id "unavailable" (kind_code (se_kind e)) (Some repair_id)
                          end).

(** A single statement of the repair, from its connection to its close. *)
Definition maintain_statement (a : Access) (body : Cat unit) (c : Catalog) : SResult unit * Catalog :=
  match connect_checked a true true c with
  | Err e => (Err e, c)
  | Ok _ => let '(r, c') := statement (ac_fate a) body c in (finish_read a r, c')
  end.

(** [record_fault]. *)
Definition record_fault (a : Access) (repair_id id : string) (e : StorageError) : Catalog -> SResult unit * Catalog :=
  maintain_statement a (fault_body repair_id id e).

(** [reject_bucket]. *)
Definition reject_bucket (a : Access) (prefix repair_id : string) : Catalog -> SResult unit * Catalog :=
  maintain_statement a
    (update_sessions (fun k _ => bool_decide (String.substring 0 2 k = prefix))
       (fun r => rejected_session (ses_relative_path r) "storage.unavailable" repair_id r)).

(** ** The end of a scan *)
Definition being_created (c : Catalog) (id : string) (r : SessionRow) : bool :=
  bool_decide (ses_availability r = "creating")
  && existsb (fun kr : string * CreationRow => bool_decide (cre_session_id kr.2 = id) && bool_decide (cre_state kr.2 = "creating"))
       (map_to_list (cat_creations c)).

(** [validate_creating_reservations] (catalog_ops.rs). *)
Definition check_creating (c : Catalog) (kr : string * SessionRow) : option (SResult unit) :=
  Some (
  let? id := map_err (parse_id kr.1) (fun _ => integrity) in
  check? (match ses_seen_repair_id kr.2 with
          | Some seen => map_err (parse_id seen) (fun _ => integrity)
          | None => Ok EmptyString
          end) in
  check? entry_rows id c in Ok tt).

Definition validate_creating_reservations (c : Catalog) : option (SResult unit) :=
  let rows := List.filter (fun kr : string * SessionRow => being_created c kr.1 kr.2) (map_to_list (cat_sessions c)) in
  visit fst String.ltb (S (length rows)) (check_creating c) None rows.

Definition lost_session (r : SessionRow) : SessionRow := {|
  ses_relative_path := ses_relative_path r; ses_title := ses_title r; ses_workspace_json := ses_workspace_json r;
  ses_created_at_ms := ses_created_at_ms r; ses_updated_at_ms := ses_updated_at_ms r;
  ses_head_sequence := ses_head_sequence r; ses_schema_version := ses_schema_version r;
  ses_availability := "missing"; ses_fault_code := Some "storage.not_found"; ses_last_run_id := ses_last_run_id r;
  ses_last_run_state := ses_last_run_state r; ses_seen_repair_id := ses_seen_repair_id r |}.

Definition count_sessions (availability : string) (c : Catalog) : Z :=
  Z.of_nat (length (List.filter (fun kr : string * SessionRow => bool_decide (ses_availability kr.2 = availability))
                      (map_to_list (cat_sessions c)))).

(** The body of [finish]. *)
Definition finish_body (repair_id : string) (scanned ignored : Z) : Cat RepairReport :=
  do! reads (fun c => match validate_creating_reservations c with Some r => r | None => Err integrity end) in
  do! (fun c => update_sessions (fun k r => negb (bool_decide (ses_seen_repair_id r = Some repair_id))
                                            && negb (being_created c k r)) lost_session c) in
  let! report := gets (fun c => {|
    rp_scanned_sessions := scanned; rp_ready_sessions := count_sessions "ready" c;
    rp_missing_sessions := count_sessions "missing" c; rp_unavailable_sessions := count_sessions "unavailable" c;
    rp_ignored_entries := ignored;
    rp_conflicting_commands := Z.of_nat (length (List.filter (fun kr : string * CreationRow =>
        bool_decide (cre_state kr.2 = "failed") && bool_decide (cre_failure_code kr.2 = Some "storage.command_conflict"))
      (map_to_list (cat_creations c)))) |}) in
  do! set_mark 0 in
  ret report.

Definition finish_repair (a : Access) (repair_id : string) (scanned ignored : Z) : Catalog -> SResult RepairReport * Catalog :=
  maintain a (finish_body repair_id scanned ignored).

(** ** The scan *)

(** What a directory listing yields, with what happens to the work on each entry. *)
Inductive Child : Type :=
| Child_unreadable
| Child_entry (name : option string) (inspection : Inspection) (access : Access).

Inductive Bucket : Type :=
| Bucket_unreadable
| Bucket_entry (name : option string) (check : option StorageError) (reject : Access) (children : option (list Child)).

Record Scan : Type := {
  sn_intent : Access;
  sn_directories : option StorageError;
  sn_buckets : option (list Bucket);
  sn_finish : Access
}.

Definition io_error : StorageError := storage_error StorageErrorKind.Io.

(** What an inspection that failed says about the session. *)
Definition evidence (e : StorageError) : bool :=
  match se_kind e with
  | StorageErrorKind.NotFound | StorageErrorKind.Integrity | StorageErrorKind.UnsupportedVersion
  | StorageErrorKind.Unavailable => true
  | _ => false
  end.

Fixpoint scan_children (repair_id prefix : string) files (scanned ignored : Z) (l : list Child) : Cat (Z * Z) :=
  match l with
  | [] => ret (scanned, ignored)
  | Child_unreadable :: _ => throw io_error
  | Child_entry name inspection access :: l =>
      match name ≫= (fun n => match parse_id n with Ok id => Some id | Err _ => None end) with
      | None => let! ignored := lift (increment_count ignored) in scan_children repair_id prefix files scanned ignored l
      | Some id =>
          if negb (String.prefix prefix id)
          then let! ignored := lift (increment_count ignored) in scan_children repair_id prefix files scanned ignored l
          else
            do! match inspect inspection id files with
                | Some (Ok (s, p)) => register access repair_id s p
                | Some (Err e) => if evidence e then record_fault access repair_id id e else throw e
                | None => throw integrity
                end in
            let! scanned := lift (increment_count scanned) in
            scan_children repair_id prefix files scanned ignored l
      end
  end.

(** Two lower-case hexadecimal digits. *)
Definition is_hex_byte (a : Ascii.ascii) : bool :=
  let n := Z.of_nat (Ascii.nat_of_ascii a) in ((48 <=? n) && (n <=? 57)) || ((97 <=? n) && (n <=? 102)).
Definition bucket_name (prefix : string) : bool :=
  (len prefix =? 2) && forallb is_hex_byte (String.list_ascii_of_string prefix).

Fixpoint scan_buckets (repair_id : string) files (scanned ignored : Z) (l : list Bucket) : Cat (Z * Z) :=
  match l with
  | [] => ret (scanned, ignored)
  | Bucket_unreadable :: _ => throw io_error
  | Bucket_entry name check reject children :: l =>
      let prefix := default "" name in
      if negb (bucket_name prefix)
      then let! ignored := lift (increment_count ignored) in scan_buckets repair_id files scanned ignored l
      else
        match check with
        | Some e =>
            if bool_decide (se_kind e = StorageErrorKind.Unavailable)
            then let! ignored := lift (increment_count ignored) in
                 do! reject_bucket reject prefix repair_id in
                 scan_buckets repair_id files scanned ignored l
            else throw e
        | None =>
            match children with
            | None => throw io_error
            | Some children =>
                let! counts := scan_children repair_id prefix files scanned ignored children in
                scan_buckets repair_id files (fst counts) (snd counts) l
            end
        end
  end.

(** [repair]. *)
Definition repair (scan : Scan) (repair_id : string) files : Cat RepairReport :=
  do! set_intent (sn_intent scan) in
  do! lift (refuse (sn_directories scan)) in
  match sn_buckets scan with
  | None => throw io_error
  | Some buckets =>
      let! counts := scan_buckets repair_id files 0 0 buckets in
      finish_repair (sn_finish scan) repair_id (fst counts) (snd counts)
  end.
End repair.
