(* ===== verification/RepairFacts.v ===== *)
(** * What a repair leaves

    A repair that ends has registered every session file it found in order: what the
    scan found, as a list, and the state of the catalog after it. *)
From S2P Require Import Prelude Json Errors Identifiers Provider Tools Replay RunData Hoare Records Store History Session RunStore StoreSafety StoreCommands StoreGuarantees StoreContents Prefix RunAudit Valid Catalog Creation CatalogFacts CreationSafety Stores Recovery Repair.

(** What was found, in order. *)
Inductive Finding : Type :=
| Found (s : SessionSummary) (p : CreationProvenance)
| Fault (id : string) (e : StorageError)
| Refused (prefix : string).

Section findings.
Context {D : Type} `{UuidLib} `{StorageSerde} `{RowSerde}.
Implicit Types files : gmap string (Db D).

Fixpoint child_findings (prefix : string) files (l : list Child) : list Finding :=
  match l with
  | [] => []
  | Child_unreadable :: _ => []
  | Child_entry name inspection _ :: l =>
      match name ≫= (fun n => match parse_id n with Ok id => Some id | Err _ => None end) with
      | None => child_findings prefix files l
      | Some id =>
          if negb (String.prefix prefix id) then child_findings prefix files l
          else match inspect inspection id files with
               | Some (Ok (s, p)) => [Found s p]
               | Some (Err e) => [Fault id e]
               | None => []
               end ++ child_findings prefix files l
      end
  end.

Fixpoint bucket_findings files (l : list Bucket) : list Finding :=
  match l with
  | [] => []
  | Bucket_unreadable :: _ => []
  | Bucket_entry name check _ children :: l =>
      let prefix := default "" name in
      if negb (bucket_name prefix) then bucket_findings files l
      else match check with
           | Some _ => [Refused prefix]
           | None => match children with
                     | None => []
                     | Some children => child_findings prefix files children
                     end
           end ++ bucket_findings files l
  end.

Definition findings (scan : Scan) files : list Finding := bucket_findings files (default [] (sn_buckets scan)).

(** The writes of the repair for one finding. *)
Definition finding_body (repair_id : string) (f : Finding) : Cat unit :=
  match f with
  | Found s p => register_body repair_id s p
  | Fault id e => fault_body repair_id id e
  | Refused prefix =>
      update_sessions (fun k _ => bool_decide (String.substring 0 2 k = prefix))
        (fun r => rejected_session (ses_relative_path r) "storage.unavailable" repair_id r)
  end.

Fixpoint record_findings (repair_id : string) (l : list Finding) : Cat unit :=
  match l with
  | [] => ret tt
  | f :: l => do! finding_body repair_id f in record_findings repair_id l
  end.

Lemma record_app repair_id l1 l2 c1 c2 c3 :
  record_findings repair_id l1 c1 = (Ok tt, c2) -> record_findings repair_id l2 c2 = (Ok tt, c3) ->
  record_findings repair_id (l1 ++ l2) c1 = (Ok tt, c3).
Proof.
  revert c1. induction l1 as [|f l1 IH]; intros c1 H1r H2r; simpl in *; [injection H1r as <-; done|].
  unbind H1r. unfold bind. rewrite Hc. by apply IH.
Qed.

Lemma record_one repair_id f c u c' : finding_body repair_id f c = (Ok u, c') -> record_findings repair_id [f] c = (Ok tt, c').
Proof. intros Hf. simpl. unfold bind. by rewrite Hf. Qed.

Lemma connect_checked_valid a writable repairing c u : connect_checked a writable repairing c = Ok u -> validate_catalog c = Ok tt.
Proof. unfold connect_checked. destruct (refuse _); [|done]. by destruct (validate_catalog c) as [[]|]. Qed.

Lemma maintain_Ok {A} a (body : Cat A) c v c' : maintain a body c = (Ok v, c') -> validate_catalog c = Ok tt /\ body c = (Ok v, c').
Proof.
  unfold maintain. destruct (connect_checked _ _ _ _) eqn:Hc; [|done]. apply connect_checked_valid in Hc. destruct (catalog_transaction _ _ _ _) as [r c1] eqn:Ht. intros [= Hf <-].
  unfold finish_read in Hf. destruct r as [v'|]; [|done]. destruct (ac_close_failed a); [done|]. injection Hf as ->. split; [done|]. by apply operation_Ok in Ht.
Qed.

Lemma maintain_statement_Ok a (body : Cat unit) c v c' : maintain_statement a body c = (Ok v, c') -> exists u, body c = (Ok u, c').
Proof.
  unfold maintain_statement. destruct (connect_checked _ _ _ _); [|done]. unfold statement.
  destruct (ac_fate a), (body c) as [[u|err] c1]; simpl; try done; (destruct (ac_close_failed a); [done|]; intros [= _ <-]; by exists u).
Qed.

Lemma scan_children_Ok repair_id prefix files l : forall scanned ignored c counts c',
  scan_children repair_id prefix files scanned ignored l c = (Ok counts, c') ->
  record_findings repair_id (child_findings prefix files l) c = (Ok tt, c').
Proof.
  induction l as [|[|name i a] l IH]; intros scanned ignored c counts c' Hs; simpl in *; [by injection Hs as _ <-|done|].
  destruct (_ ≫= _) as [id|]; [|unbind Hs; injection Hc as _ <-; by eapply IH].
  destruct (negb _); [unbind Hs; injection Hc as _ <-; by eapply IH|].
  unbind Hs. unbind Hs. injection Hc0 as _ <-. eapply record_app; [|by eapply IH].
  destruct (inspect i id files) as [[[su p]|e]|]; [| |done].
  - eapply record_one. apply maintain_Ok in Hc as [_ Hc]. exact Hc.
  - destruct (evidence e); [|done]. apply maintain_statement_Ok in Hc as (u & Hc). by eapply record_one.
Qed.

Lemma scan_buckets_Ok repair_id files l : forall scanned ignored c counts c',
  scan_buckets repair_id files scanned ignored l c = (Ok counts, c') ->
  record_findings repair_id (bucket_findings files l) c = (Ok tt, c').
Proof.
  induction l as [|[|name check reject children] l IH]; intros scanned ignored c counts c' Hs; cbn [scan_buckets bucket_findings] in *;
    [by injection Hs as _ <-|done|].
  destruct (negb _); [unbind Hs; injection Hc as _ <-; by eapply IH|]. destruct check as [e|].
  - destruct (bool_decide _); [|done]. unbind Hs. injection Hc as _ <-. unbind Hs. apply maintain_statement_Ok in Hc as (u & Hc).
    eapply record_app; [by eapply record_one|by eapply IH].
  - destruct children as [children|]; [|done]. unbind Hs. eapply record_app; [by eapply scan_children_Ok|by eapply IH].
Qed.

(** A repair that ends has raised the mark, recorded its findings and finished. *)
Lemma repair_Ok scan repair_id files c report c' :
  repair scan repair_id files c = (Ok report, c') ->
  exists c1 c2 scanned ignored, set_mark 1 c = (Ok tt, c1) /\ record_findings repair_id (findings scan files) c1 = (Ok tt, c2) /\
    validate_catalog c2 = Ok tt /\ finish_body repair_id scanned ignored c2 = (Ok report, c').
Proof.
  intros Hr. unfold repair in Hr. unbind Hr. apply maintain_Ok in Hc as [_ Hc]. unbind Hr. injection Hc0 as _ <-. unfold findings.
  destruct (sn_buckets scan) as [buckets|]; [|done]. unbind Hr. apply scan_buckets_Ok in Hc0. apply maintain_Ok in Hr as [Hv Hr].
  eexists _, _, _, _. destruct a. by split_and!.
Qed.

(** ** The evidence *)

(** What a validation says of the provenance in the manifest. *)
Lemma validate_session_known id (db : Db D) m row p :
  validate_session id None db = Ok m -> manifest db = Some row -> provenance_from_json (mf_creation_provenance_json row) = Some p ->
  validate_session id (Some p) db = Ok m /\ cp_session_id p = id /\
  exists input, provenance_request p = Ok input /\ sm_created_at_ms m = cp_created_at_ms p /\ sm_workspace m = cs_workspace input /\
    1 <= mf_head_sequence row /\ sm_head_sequence m = as_u64 (mf_head_sequence row).
Proof.
  intros Hv Hm Hp. unfold validate_session in Hv |- *. do 3 (destruct (negb _); [done|]). rewrite Hm in *. cbn [ok_or] in *.
  destruct (_ || _) in Hv |- *; [done|]. destruct (_ || _) eqn:Hh in Hv |- *; [done|]. rewrite Hp in *. cbn [ok_or] in *.
  destruct (provenance_request p) as [input|] eqn:Hr; [|done]. destruct (decode_workspace _) as [ws|]; [|done].
  destruct (_ || is_some_and None _) eqn:Hor in Hv; [done|]. apply orb_false_iff in Hor as [Hor _].
  rewrite Hor. cbn [is_some_and]. rewrite (bool_decide_eq_true_2 (p = p)) by done. cbn [negb orb].
  split; [done|]. prop_bools. split; [done|]. exists input. split; [done|].
  repeat match type of Hv with
         | (if ?b then Err _ else _) = _ => destruct b; [done|]
         | match ?x with Ok _ => _ | Err _ => _ end = Ok _ => destruct x as [?|]; [|done]
         end. injection Hv as <-. by split_and!.
Qed.

Lemma inspect_Found i id files s p :
  inspect i id files = Some (Ok (s, p)) ->
  exists db row, files !! id = Some db /\ observe id db = Ok s /\ manifest db = Some row /\
    provenance_from_json (mf_creation_provenance_json row) = Some p.
Proof.
  unfold inspect. destruct (refuse _); [|done]. destruct (files !! id) as [db|]; [|done]. cbn [ok_or].
  do 2 (destruct (refuse _); [|done]). destruct (observe id db) as [s'|] eqn:Ho; [|done]. destruct (manifest db) as [row|] eqn:Hm; [|done]. cbn [ok_or].
  destruct (provenance_from_json _) as [p'|] eqn:Hp; [|done]. cbn [ok_or]. destruct (validate_history _ _ _) as [[[]|]|]; [|done|done].
  destruct (fa_read_close _); [done|]. intros [= <- <-]. by exists db, row.
Qed.

Lemma observe_manifest id (db : Db D) s : observe id db = Ok s -> validate_session id None db = Ok (su_manifest s).
Proof.
  unfold observe. destruct (validate_session id None db) as [m|]; [|done]. destruct (match latest_run _ with Some _ => _ | None => _ end); [|done].
  destruct (session_version db); [|done]. by intros [= <-].
Qed.

(** ** The loops end *)

(** A log that the pass accepts is consecutive. *)
Lemma pass_rows_sequence id version rows : forall p q,
  pass_rows id version p rows = Ok q -> row_sequence <$> rows = seqZ (ps_head p + 1) (Z.of_nat (length rows)).
Proof.
  induction rows as [|r rows IH]; intros p q Hp; [done|]. simpl in Hp. destruct (decode_event id r) as [e|] eqn:Hd; [|done].
  destruct (pass_event version p e) as [p'|] eqn:He; [|done]. pose proof (decode_event_sequence _ _ _ Hd) as Hs. apply IH in Hp.
  unfold pass_event, increment_count, checked_add_u64 in He. destruct (in_u64 _); [|done]. cbn [ok_or] in He.
  destruct (Z.eqb_spec (st_sequence e) (ps_head p + 1)) as [Heq|]; [|done]. cbn [negb] in He.
  assert (ps_head p' = ps_head p + 1) as Hh.
  { destruct (st_payload e); repeat match type of He with (if ?b then _ else _) = _ => destruct b end; try done; by injection He as <-. }
  rewrite Hh in Hp. simpl length. rewrite Nat2Z.inj_succ, fmap_cons, seqZ_cons by lia. f_equal; [congruence|]. rewrite Hp. f_equal. lia.
Qed.

(** The inspection of a history always gives an answer. *)
Lemma validate_history_ends quick s (db : Db D) : validate_history quick s db <> None.
Proof.
  unfold validate_history. destruct quick as [q|]; [|done]. do 2 (destruct (negb _); [done|]).
  destruct (pass_rows _ _ _ _) as [p|] eqn:Hp; [|done]. destruct (_ || _); [done|]. destruct (prefix_digest _ _ _); [|done].
  destruct (visit _ _ _ _ _ (selecting db)) as [[[]|]|] eqn:Hv; [|done|].
  - destruct (negb _); [done|]. apply visit_ends; [apply Z.ltb_irrefl|apply Zltb_transitive|]. intros [k row] _. unfold check_run. simpl.
    destruct (map_err _ _); [|done]. rewrite validate_run_rows; [done|]. by apply pass_rows_sequence in Hp.
  - apply visit_ends in Hv; [done|apply ltb_irreflexive|apply ltb_transitive|]. intros c _. unfold check_selected. done.
Qed.

Lemma inspect_ends i id files : inspect i id files <> None.
Proof.
  unfold inspect. destruct (let? _ := _ in _) as [[[db s] p]|]; [|done].
  destruct (validate_history _ _ _) as [[[]|]|] eqn:Hv; [done|done|]. by apply validate_history_ends in Hv.
Qed.

Lemma validate_creating_ends c : validate_creating_reservations c <> None.
Proof.
  unfold validate_creating_reservations. apply visit_ends; [apply ltb_irreflexive|apply ltb_transitive|]. intros kr _. unfold check_creating. done.
Qed.
End findings.

(** * Repair rebuilds the catalog

    The state of the catalog while the findings of a scan are recorded: a session
    found is claimed by its own creation alone, or contested by another one; and
    what follows for a repair that ends. *)

Definition conflict_code : string := "storage.command_conflict".

Section invariant.
Context `{UuidLib} `{StorageSerde} (repair_id : string) (creations : gmap string CreationRow).
Implicit Types c : Catalog.
Implicit Types F : list Finding.

(** What the evidence of a scan is like. *)
Definition proper (f : Finding) : Prop :=
  match f with
  | Found s p => sm_session_id (su_manifest s) = cp_session_id p
  | Fault _ e => evidence e = true
  | Refused _ => True
  end.

(** The session a finding is about. *)
Definition found_id (f : Finding) : option string :=
  match f with Found _ p => Some (cp_session_id p) | Fault id _ => Some id | Refused _ => None end.

Definition operation_of (f : Finding) : option string :=
  match f with Found _ p => Some (cp_operation_id p) | _ => None end.

(** A file is drawn into a contest if another file claims the same creation, or if the
    catalog that the scan started from ([creations]) gave its creation to another file
    that is drawn into one. *)
Inductive drawn F : CreationProvenance -> Prop :=
| drawn_files s p p' : Found s p' ∈ F -> cp_operation_id p' = cp_operation_id p -> cp_session_id p' <> cp_session_id p ->
    drawn F p
| drawn_row row s p p' : creations !! cp_operation_id p = Some row -> Found s p' ∈ F -> cre_session_id row = cp_session_id p' ->
    cp_session_id p' <> cp_session_id p -> drawn F p' -> drawn F p.

Lemma drawn_mono F G p : (forall f, f ∈ F -> f ∈ G) -> drawn F p -> drawn G p.
Proof. intros Hsub. induction 1; [eapply drawn_files|eapply drawn_row]; eauto. Qed.

(** If every file claims a creation of its own there is no contest at all. *)
Lemma drawn_nobody F p :
  (forall s p s' p', Found s p ∈ F -> Found s' p' ∈ F -> cp_operation_id p' = cp_operation_id p -> cp_session_id p' = cp_session_id p) ->
  drawn F p -> forall s, Found s p ∉ F.
Proof. intros Hno. induction 1 as [s0 p p' Hin Hop Hne|row s0 p p' Hrow Hin Hid Hne Hd IH]; intros s1 Hs; [by apply Hne, (Hno s1 p s0 p')|by apply (IH s0)]. Qed.

(** No session is found twice, nor in a bucket that was refused. *)
Definition orderly F : Prop :=
  NoDup (omap found_id F) /\
  forall prefix s p, Refused prefix ∈ F -> Found s p ∈ F -> String.substring 0 2 (cp_session_id p) <> prefix.

Definition conflicting (r : SessionRow) : Prop :=
  ses_availability r = "unavailable" /\ ses_fault_code r = Some conflict_code /\ ses_seen_repair_id r = Some repair_id.

Definition validated (r : SessionRow) : bool :=
  bool_decide (ses_availability r = "ready") || bool_decide (ses_fault_code r = Some conflict_code).

Record claimed (s : SessionSummary) (p : CreationProvenance) c : Prop := {
  cm_session : exists w, workspace_to_json (sm_workspace (su_manifest s)) = Ok w /\
    cat_sessions c !! cp_session_id p = Some (registered_session repair_id s w);
  cm_creation : exists receipt, receipt_to_json (cp_receipt p) = Some receipt /\
    cat_creations c !! cp_operation_id p = Some (registered_creation p receipt);
  cm_only o row : cat_creations c !! o = Some row -> cre_session_id row = cp_session_id p -> o = cp_operation_id p
}.

Record contested (p : CreationProvenance) F c : Prop := {
  ct_session : exists r, cat_sessions c !! cp_session_id p = Some r /\ conflicting r;
  ct_creation : exists row s' p' r', cat_creations c !! cp_operation_id p = Some row /\ Found s' p' ∈ F /\
    cre_session_id row = cp_session_id p' /\ cat_sessions c !! cp_session_id p' = Some r' /\ conflicting r';
  ct_drawn : drawn F p
}.

Record recorded F c : Prop := {
  rc_rows o row : cat_creations c !! o = Some row ->
    (exists row0, creations !! o = Some row0 /\ cre_session_id row = cre_session_id row0) \/
    (exists s p, Found s p ∈ F /\ cp_operation_id p = o /\ cre_session_id row = cp_session_id p);
  rc_seen k r : cat_sessions c !! k = Some r -> ses_seen_repair_id r = Some repair_id -> validated r = true ->
    exists s p, Found s p ∈ F /\ cp_session_id p = k;
  rc_each s p : Found s p ∈ F -> claimed s p c \/ contested p F c
}.

(** ** Statements *)
Lemma upsert_session_Ok k r c a c' :
  upsert_session k r c = (Ok a, c') -> c' = set_sessions (<[k := r]> (cat_sessions c)) c.
Proof. intros Hu. unfold upsert_session in Hu. unbind Hu. apply require_constraint_Ok in Hc as [_ ->]. by injection Hu as _ <-. Qed.

Lemma upsert_creation_Ok k r c a c' :
  upsert_creation k r c = (Ok a, c') -> c' = set_creations (<[k := r]> (cat_creations c)) c.
Proof. intros Hu. unfold upsert_creation in Hu. unbind Hu. apply require_constraint_Ok in Hc as [_ ->]. by injection Hu as _ <-. Qed.

Lemma rival_Some p c first :
  rival repair_id p c = Some first <->
  first <> cp_session_id p /\ exists row r, cat_creations c !! cp_operation_id p = Some row /\ cre_session_id row = first /\
    cat_sessions c !! first = Some r /\ ses_seen_repair_id r = Some repair_id /\ validated r = true.
Proof.
  unfold rival. split.
  - destruct (cat_creations c !! cp_operation_id p) as [row|] eqn:Hrow; [|done]. cbn [mbind option_bind].
    destruct (cat_sessions c !! cre_session_id row) as [r|] eqn:Hr; [|done]. cbn [mbind option_bind].
    destruct (_ && _) eqn:Hb; [|done]. intros [= <-]. fold conflict_code in Hb. fold (validated r) in Hb. prop_bools.
    split; [done|]. by exists row, r.
  - intros (Hne & row & r & -> & Hid & Hr & Hs & Hv). cbn [mbind option_bind]. rewrite Hid, Hr. cbn [mbind option_bind].
    fold conflict_code. fold (validated r). by rewrite Hs, Hv, bool_decide_eq_false_2, bool_decide_eq_true_2 by done.
Qed.

(** The catalog after a registration. *)
Lemma register_body_Ok s p c u c' :
  sm_session_id (su_manifest s) = cp_session_id p -> register_body repair_id s p c = (Ok u, c') ->
  exists w, workspace_to_json (sm_workspace (su_manifest s)) = Ok w /\
  let sessions := <[cp_session_id p := registered_session repair_id s w]> (cat_sessions c) in
  match rival repair_id p c with
  | Some first =>
      cat_sessions c' = map_imap (fun k r => Some (if bool_decide (k = first) || bool_decide (k = cp_session_id p)
                                                   then faulted_session conflict_code r else r)) sessions /\
      exists row, cat_creations c !! cp_operation_id p = Some row /\
        cat_creations c' = <[cp_operation_id p := creation_settled "failed" None (Some conflict_code) row]> (cat_creations c)
  | None =>
      cat_sessions c' = sessions /\
      exists receipt, receipt_to_json (cp_receipt p) = Some receipt /\
        cat_creations c' = <[cp_operation_id p := registered_creation p receipt]>
          (filter (fun kr : string * CreationRow => negb (bool_decide (cre_session_id kr.2 = cp_session_id p))
             || bool_decide (kr.1 = cp_operation_id p)) (cat_creations c))
  end.
Proof.
  intros Hid Hr. unfold register_body in Hr. rewrite Hid in Hr. unbind Hr. injection Hc as <- <-. unbind Hr. injection Hc as Hw <-.
  unbind Hr. apply upsert_session_Ok in Hc as ->. exists a. split; [done|]. destruct (rival repair_id p c) as [first|] eqn:Hri.
  - unbind Hr. injection Hc as _ <-. apply rival_Some in Hri as (_ & row & r & Hrow & _).
    apply (update_creation_Ok _ _ row) in Hr as ->; [|done]. split; [done|]. by exists row.
  - unbind Hr. injection Hc as _ <-. unbind Hr. injection Hc as Hj <-. apply ok_or_Ok in Hj. apply upsert_creation_Ok in Hr as ->.
    split; [done|]. by exists a2.
Qed.

(** ** What others do *)
Lemma in_snoc f F g : g ∈ F ++ [f] <-> g ∈ F \/ g = f.
Proof. rewrite elem_of_app, list_elem_of_singleton. done. Qed.

Lemma drawn_snoc F f p : drawn F p -> drawn (F ++ [f]) p.
Proof. apply drawn_mono. intros g Hg. apply in_snoc. by left. Qed.

Lemma rows_snoc F f o row :
  (exists row0, creations !! o = Some row0 /\ cre_session_id row = cre_session_id row0) \/
    (exists s p, Found s p ∈ F /\ cp_operation_id p = o /\ cre_session_id row = cp_session_id p) ->
  (exists row0, creations !! o = Some row0 /\ cre_session_id row = cre_session_id row0) \/
    (exists s p, Found s p ∈ F ++ [f] /\ cp_operation_id p = o /\ cre_session_id row = cp_session_id p).
Proof. intros [?|(s & p & ? & ?)]; [by left|]. right. exists s, p. rewrite in_snoc. auto. Qed.

Lemma recorded_other F f c c' :
  recorded F c -> (forall s p, f <> Found s p) -> cat_creations c' = cat_creations c ->
  (forall s p, Found s p ∈ F -> cat_sessions c' !! cp_session_id p = cat_sessions c !! cp_session_id p) ->
  (forall k r, cat_sessions c' !! k = Some r -> ses_seen_repair_id r = Some repair_id -> validated r = true -> cat_sessions c !! k = Some r) ->
  recorded (F ++ [f]) c'.
Proof.
  intros [Hrows Hseen Heach] Hf Hcr Hse Hback.
  assert (forall s p, Found s p ∈ F -> claimed s p c -> claimed s p c') as Hcl.
  { intros s p Hin [Hs Hc Ho]. split; rewrite ?Hcr, ?(Hse _ _ Hin); done. }
  assert (forall s p, Found s p ∈ F ++ [f] -> Found s p ∈ F) as Hin.
  { intros s p [?|Heq]%in_snoc; [done|]. symmetry in Heq. by apply Hf in Heq. }
  split.
  - rewrite Hcr. intros o row Hrow. by apply rows_snoc, Hrows.
  - intros k r Hr Hs Hv. destruct (Hseen k r (Hback _ _ Hr Hs Hv) Hs Hv) as (s & p & ? & ?). exists s, p. by rewrite in_snoc; auto.
  - intros s p Hi%Hin. destruct (Heach _ _ Hi) as [|[(r & Hr & Hrc) (row & s' & p' & r' & Hrow & Hi' & Hid & Hr' & Hrc') Hd]]; [left; by apply Hcl|].
    right. split; [exists r; by rewrite (Hse _ _ Hi)| |by apply drawn_snoc]. exists row, s', p', r'. rewrite Hcr, (Hse _ _ Hi'), in_snoc. by auto.
Qed.

(** A session with a fault is new, so it is none of those found. *)
Lemma fresh_id F f id : NoDup (omap found_id (F ++ [f])) -> found_id f = Some id -> forall g, g ∈ F -> found_id g <> Some id.
Proof.
  intros Hnd Hf g Hg Hid. rewrite omap_app in Hnd. simpl in Hnd. rewrite Hf in Hnd. apply NoDup_app in Hnd as (_ & Hd & _).
  apply (Hd id); [|by left]. apply list_elem_of_omap. by exists g.
Qed.

Lemma evidence_code e : evidence e = true -> kind_code (se_kind e) <> conflict_code.
Proof. unfold evidence. by destruct (se_kind e). Qed.

Lemma fault_recorded F id e c u c' :
  recorded F c -> orderly (F ++ [Fault id e]) -> evidence e = true -> fault_body repair_id id e c = (Ok u, c') ->
  recorded (F ++ [Fault id e]) c'.
Proof.
  intros Hr [Hnd _] Hev Hb. pose proof (fresh_id _ _ id Hnd eq_refl) as Hfresh.
  assert (c' = c \/ exists r, c' = set_sessions (<[id := r]> (cat_sessions c)) c /\
    (ses_seen_repair_id r <> Some repair_id \/ validated r = false)) as Hc'.
  { unfold fault_body in Hb. unbind Hb. injection Hc as <- <-. destruct (bool_decide _).
    - destruct (cat_sessions c !! id) as [r|]; [left; by injection Hb as _ <-|]. apply insert_session_Ok in Hb as [_ ->].
      right. eexists. split; [done|]. by left.
    - apply upsert_session_Ok in Hb as ->. right. eexists. split; [done|]. right. pose proof (evidence_code _ Hev) as Hne.
      destruct (cat_sessions c !! id); unfold validated; simpl; rewrite !bool_decide_eq_false_2; try done; congruence. }
  destruct Hc' as [->|(r & -> & Hv)]; apply (recorded_other F _ c); try done.
  - intros s p Hi. simpl. apply lookup_insert_ne. intros ->. by apply (Hfresh _ Hi).
  - intros k r' Hk Hs Hval. simpl in Hk. apply lookup_insert_Some in Hk as [[<- <-]|[_ Hk]]; [|done]. destruct Hv; congruence.
Qed.

Lemma refused_recorded F prefix c u c' :
  recorded F c -> orderly (F ++ [Refused prefix]) -> finding_body repair_id (Refused prefix) c = (Ok u, c') ->
  recorded (F ++ [Refused prefix]) c'.
Proof.
  intros Hr [_ Hpre] Hb. injection Hb as _ <-. apply (recorded_other F _ c); try done.
  - intros s p Hi. simpl. rewrite map_lookup_imap. assert (String.substring 0 2 (cp_session_id p) <> prefix) as Hne.
    { apply (Hpre prefix s p); rewrite in_snoc; auto. }
    destruct (cat_sessions c !! cp_session_id p); [|done]. cbn [mbind option_bind]. by rewrite bool_decide_eq_false_2.
  - intros k r. simpl. rewrite map_lookup_imap. destruct (cat_sessions c !! k) as [r0|]; [|done]. cbn [mbind option_bind].
    destruct (bool_decide _); [|by intros [= ->]]. intros [= <-] _ Hv. by unfold validated in Hv.
Qed.

(** ** Registering a session *)

(** Without a rival the new session is claimed, and the others stay as they are. *)
Lemma found_alone F s p c w receipt c' :
  recorded F c -> (forall g, g ∈ F -> found_id g <> Some (cp_session_id p)) -> rival repair_id p c = None ->
  workspace_to_json (sm_workspace (su_manifest s)) = Ok w -> receipt_to_json (cp_receipt p) = Some receipt ->
  cat_sessions c' = <[cp_session_id p := registered_session repair_id s w]> (cat_sessions c) ->
  cat_creations c' = <[cp_operation_id p := registered_creation p receipt]>
    (filter (fun kr : string * CreationRow => negb (bool_decide (cre_session_id kr.2 = cp_session_id p))
       || bool_decide (kr.1 = cp_operation_id p)) (cat_creations c)) ->
  recorded (F ++ [Found s p]) c'.
Proof.
  intros [Hrows Hseen Heach] Hfresh Hri Hw Hj Hs' Hc'.
  assert (claimed s p c') as Hnew.
  { split.
    - exists w. by rewrite Hs', lookup_insert_eq.
    - exists receipt. by rewrite Hc', lookup_insert_eq.
    - intros o row. rewrite Hc'. intros [[<- _]|[_ L]]%lookup_insert_Some Hid; [done|]. apply map_lookup_filter_Some in L as [_ L]. simpl in L.
      rewrite Hid, (bool_decide_eq_true_2 (cp_session_id p = _)) in L by done. simpl in L. by destruct (bool_decide_reflect (o = cp_operation_id p)). }
  assert (forall s0 p0, Found s0 p0 ∈ F -> cp_session_id p0 <> cp_session_id p) as Hne.
  { intros s0 p0 Hin Heq. by apply (Hfresh _ Hin); simpl; f_equal. }
  assert (forall s0 p0, Found s0 p0 ∈ F -> cat_sessions c' !! cp_session_id p0 = cat_sessions c !! cp_session_id p0) as Hsame.
  { intros s0 p0 Hin. rewrite Hs'. apply lookup_insert_ne. symmetry. by eapply Hne. }
  (* the operation is not that of a session found before: it would be the rival *)
  assert (forall s0 p0, Found s0 p0 ∈ F -> cp_operation_id p0 <> cp_operation_id p) as Hop.
  { intros s0 p0 Hin Heq. destruct (Heach _ _ Hin) as [[(w0 & _ & Hr0) (j & _ & Hcr) _]|[_ (row & s1 & p1 & r1 & Hrow & Hin1 & Hid1 & Hr1 & Hv1) _]].
    - assert (rival repair_id p c = Some (cp_session_id p0)) as Hx; [|congruence]. apply rival_Some. split; [by eapply Hne|].
      rewrite Heq in Hcr. by eexists _, _.
    - assert (rival repair_id p c = Some (cp_session_id p1)) as Hx; [|congruence]. apply rival_Some. split; [by eapply Hne|].
      rewrite Heq in Hrow. exists row, r1. split_and!; try done; [apply Hv1|]. destruct Hv1 as (_ & Hf & _). unfold validated. rewrite Hf. apply orb_true_r. }
  assert (forall o row, cat_creations c' !! o = Some row -> o <> cp_operation_id p -> cat_creations c !! o = Some row /\ cre_session_id row <> cp_session_id p) as Hback.
  { intros o row. rewrite Hc'. intros [[<- _]|[_ L]]%lookup_insert_Some Hno; [done|]. apply map_lookup_filter_Some in L as [L Hk]. split; [done|].
    simpl in Hk. rewrite (bool_decide_eq_false_2 (o = _)), orb_false_r in Hk by done. by destruct (bool_decide_reflect (cre_session_id row = cp_session_id p)). }
  assert (forall o row, cat_creations c !! o = Some row -> o <> cp_operation_id p -> cre_session_id row <> cp_session_id p -> cat_creations c' !! o = Some row) as Hforth.
  { intros o row L Hno Hid. rewrite Hc', lookup_insert_ne by done. apply map_lookup_filter_Some. split; [done|]. simpl. by rewrite bool_decide_eq_false_2. }
  assert (forall s0 p0, Found s0 p0 ∈ F -> claimed s0 p0 c -> claimed s0 p0 c') as Hcl.
  { intros s0 p0 Hin [(w0 & Hw0 & Hr0) (j & Hj0 & Hcr) Ho]. split.
    - exists w0. by rewrite (Hsame _ _ Hin).
    - exists j. split; [done|]. apply Hforth; [done|by eapply Hop|by eapply Hne].
    - intros o row L Hid. destruct (decide (o = cp_operation_id p)) as [->|Hno].
      + rewrite Hc', lookup_insert_eq in L. injection L as <-. simpl in Hid. exfalso. by eapply (Hne s0 p0).
      + destruct (Hback _ _ L Hno). by apply (Ho o row). }
  split.
  - intros o row. destruct (decide (o = cp_operation_id p)) as [->|Hno].
    + rewrite Hc', lookup_insert_eq. intros [= <-]. right. exists s, p. rewrite in_snoc. auto.
    + intros L. destruct (Hback _ _ L Hno) as [Lc _]. by apply rows_snoc, Hrows.
  - intros k r Hr Hs Hv. rewrite Hs' in Hr. apply lookup_insert_Some in Hr as [[<- _]|[_ Hr]].
    + exists s, p. rewrite in_snoc. auto.
    + destruct (Hseen k r Hr Hs Hv) as (s0 & p0 & Hin & Hk). exists s0, p0. rewrite in_snoc. auto.
  - intros s0 p0 [Hin|[= -> ->]]%in_snoc; [|by left]. destruct (Heach _ _ Hin) as [Hc0|[(r & Hr & Hrc) (row & s1 & p1 & r1 & Hrow & Hin1 & Hid1 & Hr1 & Hv1) Hd]];
      [left; by apply Hcl|]. right. split; [exists r; by rewrite (Hsame _ _ Hin)| |by apply drawn_snoc]. exists row, s1, p1, r1.
    rewrite (Hsame _ _ Hin1), in_snoc. split_and!; try done; [|by auto]. apply Hforth; [done|by eapply Hop|]. rewrite Hid1. by eapply Hne.
Qed.

(** With a rival both sessions are contested. *)
Lemma found_contested F s p c w first row c' :
  recorded F c -> (forall g, g ∈ F -> found_id g <> Some (cp_session_id p)) -> rival repair_id p c = Some first ->
  cat_sessions c' = map_imap (fun k r => Some (if bool_decide (k = first) || bool_decide (k = cp_session_id p)
                                               then faulted_session conflict_code r else r))
    (<[cp_session_id p := registered_session repair_id s w]> (cat_sessions c)) ->
  cat_creations c !! cp_operation_id p = Some row ->
  cat_creations c' = <[cp_operation_id p := creation_settled "failed" None (Some conflict_code) row]> (cat_creations c) ->
  recorded (F ++ [Found s p]) c'.
Proof.
  intros [Hrows Hseen Heach] Hfresh Hri Hs' Hrow Hc'. apply rival_Some in Hri as (Hne1 & row' & r1 & Hrow' & Hfirst & Hr1 & Hsn & Hv).
  assert (row' = row) as -> by congruence. clear Hrow'. destruct (Hseen _ _ Hr1 Hsn Hv) as (s1 & p1 & Hin1 & Hid1).
  assert (forall s0 p0, Found s0 p0 ∈ F -> cp_session_id p0 <> cp_session_id p) as Hne.
  { intros s0 p0 Hin Heq. by apply (Hfresh _ Hin); simpl; f_equal. }
  assert (forall k, k <> cp_session_id p -> cat_sessions c' !! k = (fun r => if bool_decide (k = first) then faulted_session conflict_code r else r) <$> cat_sessions c !! k) as Hlook.
  { intros k Hk. rewrite Hs', map_lookup_imap, lookup_insert_ne by done. destruct (cat_sessions c !! k); [|done]. simpl.
    by rewrite (bool_decide_eq_false_2 (k = cp_session_id p)), orb_false_r by done. }
  assert (exists r, cat_sessions c' !! first = Some r /\ conflicting r) as (rf & Hrf & Hcf).
  { eexists. rewrite Hlook, Hr1 by done. simpl. rewrite bool_decide_eq_true_2 by done. by split. }
  assert (forall k r, k <> cp_session_id p -> cat_sessions c !! k = Some r -> conflicting r -> exists r', cat_sessions c' !! k = Some r' /\ conflicting r') as Hkeep.
  { intros k r Hk Hr Hcr. eexists. rewrite Hlook, Hr by done. split; [done|]. destruct (bool_decide _); [|done]. by destruct Hcr as (_ & _ & ?). }
  assert (forall o x, cat_creations c !! o = Some x -> exists x', cat_creations c' !! o = Some x' /\ cre_session_id x' = cre_session_id x) as Hcre.
  { intros o x Hx. rewrite Hc'. destruct (decide (o = cp_operation_id p)) as [->|]; [|exists x; by rewrite lookup_insert_ne].
    rewrite lookup_insert_eq. eexists. split; [done|]. simpl. congruence. }
  assert (forall o x', cat_creations c' !! o = Some x' -> exists x, cat_creations c !! o = Some x /\ cre_session_id x' = cre_session_id x) as Hcre'.
  { intros o x'. rewrite Hc'. intros [[<- <-]|[_ L]]%lookup_insert_Some; [by exists row|by exists x']. }
  assert (forall s0 p0, Found s0 p0 ∈ F -> claimed s0 p0 c -> cp_session_id p0 = first -> cp_operation_id p0 = cp_operation_id p) as Hsame.
  { intros s0 p0 Hin [_ _ Ho] Heq. symmetry. apply (Ho _ row); [done|congruence]. }
  assert (drawn (F ++ [Found s p]) p) as Hdrawn.
  { destruct (Heach _ _ Hin1) as [Hcl|[_ _ Hd]].
    - apply (drawn_files _ s1 p p1); [rewrite in_snoc; auto|by apply (Hsame s1)|congruence].
    - destruct (Hrows _ _ Hrow) as [(row0 & Hrow0 & Hid0)|(s2 & p2 & Hin2 & Hop2 & Hid2)].
      + apply (drawn_row _ row0 s1 p p1); [done|rewrite in_snoc; auto|congruence|congruence|by apply drawn_snoc].
      + apply (drawn_files _ s2 p p2); [rewrite in_snoc; auto|done|congruence]. }
  assert (contested p (F ++ [Found s p]) c') as Hnew.
  { split; [| |done].
    - rewrite Hs', map_lookup_imap, lookup_insert_eq. cbn [mbind option_bind]. rewrite (bool_decide_eq_true_2 (cp_session_id p = cp_session_id p)), orb_true_r by done.
      eexists. split; [done|]. by split.
    - destruct (Hcre _ _ Hrow) as (x & Hx & Hxs). exists x, s1, p1, rf. rewrite in_snoc. split_and!; try done; [by auto|congruence|congruence]. }
  split.
  - intros o x' L. destruct (Hcre' _ _ L) as (x & Lx & Hxs). apply rows_snoc. destruct (Hrows _ _ Lx) as [(row0 & ? & ?)|(s2 & p2 & ? & ? & ?)].
    + left. exists row0. split; congruence.
    + right. exists s2, p2. split_and!; congruence.
  - intros k r Hr Hs Hval. destruct (decide (k = cp_session_id p)) as [->|Hk]; [exists s, p; rewrite in_snoc; by auto|].
    rewrite Hlook in Hr by done. destruct (cat_sessions c !! k) as [r0|] eqn:Hr0; [|done]. simpl in Hr. injection Hr as <-.
    destruct (bool_decide_reflect (k = first)) as [->|].
    + exists s1, p1. rewrite in_snoc. auto.
    + destruct (Hseen _ _ Hr0 Hs Hval) as (s0 & p0 & Hin & Hid). exists s0, p0. rewrite in_snoc. auto.
  - intros s0 p0 [Hin|[= -> ->]]%in_snoc; [|by right]. pose proof (Hne _ _ Hin) as Hn0. destruct (Heach _ _ Hin) as [Hcl|[(r & Hr & Hrc) (x & s2 & p2 & r2 & Hx & Hin2 & Hid2 & Hr2 & Hv2) Hd]].
    + destruct (decide (cp_session_id p0 = first)) as [Heq|Hnf].
      * right. split; [exists rf; by rewrite Heq| |].
        2: { apply (drawn_files _ s p0 p); [rewrite in_snoc; auto|by rewrite (Hsame _ _ Hin Hcl Heq)|congruence]. }
        destruct (Hcre _ _ Hrow) as (x & Hx & Hxs). exists x, s1, p1, rf.
        rewrite in_snoc, (Hsame _ _ Hin Hcl Heq). split_and!; try done; [by auto|congruence|congruence].
      * left. destruct Hcl as [(w0 & Hw0 & Hr0) (j & Hj0 & Hcr) Ho]. split.
        -- exists w0. rewrite Hlook, Hr0 by done. simpl. by rewrite bool_decide_eq_false_2.
        -- exists j. split; [done|]. rewrite Hc', lookup_insert_ne; [done|]. intros Heq. rewrite <- Heq, Hrow in Hcr. injection Hcr as ->. by simpl in Hfirst.
        -- intros o x' L Hid. destruct (Hcre' _ _ L) as (x & Lx & Hxs). apply (Ho o x); [done|congruence].
    + right. split; [by eapply Hkeep| |by apply drawn_snoc]. destruct (Hcre _ _ Hx) as (x' & Hx' & Hxs). destruct (Hkeep _ _ (Hne _ _ Hin2) Hr2 Hv2) as (r2' & Hr2' & Hv2').
      exists x', s2, p2, r2'. rewrite in_snoc. split_and!; try done; [by auto|congruence].
Qed.

Lemma finding_recorded F f c u c' :
  recorded F c -> orderly (F ++ [f]) -> proper f -> finding_body repair_id f c = (Ok u, c') -> recorded (F ++ [f]) c'.
Proof.
  intros Hr Ho Hp Hb. destruct f as [s p|id e|prefix]; [|by eapply fault_recorded|by eapply refused_recorded].
  pose proof (fresh_id _ _ (cp_session_id p) (proj1 Ho) eq_refl) as Hfresh. simpl in Hb.
  apply register_body_Ok in Hb as (w & Hw & Hres); [|done]. destruct (rival repair_id p c) as [first|] eqn:Hri.
  - destruct Hres as (Hs' & row & Hrow & Hc'). by eapply found_contested.
  - destruct Hres as (Hs' & receipt & Hj & Hc'). by eapply found_alone.
Qed.

Lemma orderly_prefix F G : orderly (F ++ G) -> orderly F.
Proof.
  intros [Hnd Hpre]. split; [rewrite omap_app in Hnd; by apply NoDup_app in Hnd as [? _]|].
  intros prefix s p H1p H2p. apply (Hpre prefix s p); apply elem_of_app; auto.
Qed.

Lemma findings_recorded G : forall F c c',
  recorded F c -> orderly (F ++ G) -> Forall proper G -> record_findings repair_id G c = (Ok tt, c') -> recorded (F ++ G) c'.
Proof.
  induction G as [|f G IH]; intros F c c' Hr Ho Hp Hg; simpl in Hg; [injection Hg as <-; by rewrite app_nil_r|].
  unbind Hg. apply Forall_cons in Hp as [Hpf Hp]. rewrite cons_middle, app_assoc in Ho |- *.
  eapply IH; [|done|done|exact Hg]. eapply finding_recorded; [done|by eapply orderly_prefix|done|done].
Qed.

(** A catalog no scan of this identifier has touched. *)
Definition untouched c : Prop := forall k r, cat_sessions c !! k = Some r -> ses_seen_repair_id r <> Some repair_id.

Lemma untouched_recorded c : untouched c -> cat_creations c = creations -> recorded [] c.
Proof.
  intros Hu Hc. split; [|intros k r Hr Hs; by destruct (Hu k r)|by intros s p Hin%not_elem_of_nil].
  rewrite Hc. intros o row Hrow. left. by exists row.
Qed.
End invariant.
