(* ===== verification/Repairs.v ===== *)
(** * A repaired catalog

    What a repair that ended leaves: every session it found opens, unless it is drawn
    into a contest; of two files that claim the same creation neither does. *)
From S2P Require Import Prelude Json Errors Identifiers Provider Tools Replay RunData Hoare Records Store History Session RunStore StoreSafety StoreCommands StoreGuarantees StoreContents Prefix RunAudit Valid Catalog Creation CatalogFacts CreationSafety Stores Recovery Repair RepairFacts.

(** What the types of a stored provenance promise: its identifiers are canonical and
    its digest has 32 bytes. *)
Class ProvenanceTyped `{UuidLib} `{StorageSerde} : Prop := {
  provenance_typed t p : provenance_from_json t = Some p ->
    parse_id (cp_operation_id p) = Ok (cp_operation_id p) /\ parse_id (cp_session_id p) = Ok (cp_session_id p) /\
    parse_id (cp_creation_event_id p) = Ok (cp_creation_event_id p) /\ len (cp_payload_hash p) = 32
}.

(** The integers of SQLite have 64 bits. *)
Definition stored_integers {D} (files : gmap string (Db D)) : Prop :=
  forall id db row, files !! id = Some db -> manifest db = Some row -> mf_head_sequence row <= i64_max.

Section repairs.
Context {D : Type} `{UuidLib} `{StorageSerde} {laws : StorageSerdeLaws} `{RowSerde} {typed_provenance : ProvenanceTyped}.
Implicit Types files : gmap string (Db D).
Implicit Types c : Catalog.

(** ** What was found *)
Lemma inspect_proper i id files s p : inspect i id files = Some (Ok (s, p)) -> proper (Found s p) /\ cp_session_id p = id.
Proof.
  intros Hi. apply inspect_Found in Hi as (db & row & _ & Ho & Hm & Hp). apply observe_manifest in Ho.
  destruct (validate_session_known _ _ _ _ _ Ho Hm Hp) as (_ & Hid & _). split; [|done]. simpl. rewrite Hid. by apply validate_session_id in Ho.
Qed.

Lemma child_findings_proper repair_id prefix files l : forall scanned ignored c counts c',
  scan_children repair_id prefix files scanned ignored l c = (Ok counts, c') -> Forall proper (child_findings prefix files l).
Proof.
  induction l as [|[|name i a] l IH]; intros scanned ignored c counts c' Hs; simpl in *; [constructor|done|].
  destruct (_ ≫= _) as [id|]; [|unbind Hs; by eapply IH]. destruct (negb _); [unbind Hs; by eapply IH|].
  unbind Hs. unbind Hs. apply Forall_app. split; [|by eapply IH].
  destruct (inspect i id files) as [[[su p]|e]|] eqn:Hi; [| |done].
  - apply Forall_singleton. by eapply inspect_proper.
  - destruct (evidence e) eqn:He; [|done]. by apply Forall_singleton.
Qed.

Lemma bucket_findings_proper repair_id files l : forall scanned ignored c counts c',
  scan_buckets repair_id files scanned ignored l c = (Ok counts, c') -> Forall proper (bucket_findings files l).
Proof.
  induction l as [|[|name check reject children] l IH]; intros scanned ignored c counts c' Hs; cbn [scan_buckets bucket_findings] in *;
    [constructor|done|]. destruct (negb _); [unbind Hs; by eapply IH|]. destruct check as [e|].
  - destruct (bool_decide _); [|done]. unbind Hs. unbind Hs. apply Forall_app. split; [by apply Forall_singleton|by eapply IH].
  - destruct children as [children|]; [|done]. unbind Hs. apply Forall_app. split; [by eapply child_findings_proper|by eapply IH].
Qed.

Lemma findings_proper scan repair_id files c report c' :
  repair scan repair_id files c = (Ok report, c') -> Forall proper (findings scan files).
Proof.
  intros Hr. unfold repair in Hr. unbind Hr. unbind Hr. unfold findings. destruct (sn_buckets scan) as [buckets|]; [|done].
  unbind Hr. by eapply bucket_findings_proper.
Qed.

Lemma child_findings_Found prefix files l s p :
  Found s p ∈ child_findings prefix files l -> exists i id, inspect i id files = Some (Ok (s, p)).
Proof.
  induction l as [|[|name i a] l IH]; simpl; [by intros ?%not_elem_of_nil|by intros ?%not_elem_of_nil|].
  destruct (_ ≫= _) as [id|]; [|done]. destruct (negb _); [done|]. intros [Hin|Hin]%elem_of_app; [|by apply IH].
  destruct (inspect i id files) as [[[su q]|e]|] eqn:Hi; [| |by apply not_elem_of_nil in Hin]; apply list_elem_of_singleton in Hin; [|done].
  injection Hin as -> ->. by exists i, id.
Qed.

Lemma findings_Found scan files s p :
  Found s p ∈ findings scan files -> exists i id, inspect i id files = Some (Ok (s, p)).
Proof.
  unfold findings. generalize (default [] (sn_buckets scan)). intros l.
  induction l as [|[|name check reject children] l IH]; cbn [bucket_findings]; [by intros ?%not_elem_of_nil|by intros ?%not_elem_of_nil|].
  destruct (negb _); [done|]. intros [Hin|Hin]%elem_of_app; [|by apply IH]. destruct check as [e|]; [by apply list_elem_of_singleton in Hin|].
  destruct children as [children|]; [by eapply child_findings_Found|by apply not_elem_of_nil in Hin].
Qed.

(** ** The catalog at the end *)
Lemma finish_body_Ok repair_id scanned ignored c report c' :
  finish_body repair_id scanned ignored c = (Ok report, c') ->
  cat_creations c' = cat_creations c /\ cat_meta c' = marked 0 <$> cat_meta c /\
  cat_application_id c' = cat_application_id c /\ cat_user_version c' = cat_user_version c /\ cat_schema c' = cat_schema c /\
  forall k r, cat_sessions c !! k = Some r -> ses_seen_repair_id r = Some repair_id -> cat_sessions c' !! k = Some r.
Proof.
  intros Hf. unfold finish_body in Hf. unbind Hf. injection Hc as _ <-. unbind Hf. injection Hc as _ <-. unbind Hf. injection Hc as _ <-.
  unbind Hf. injection Hc as _ <-. injection Hf as _ <-. split_and!; try done.
  intros k r Hk Hs. simpl. rewrite map_lookup_imap, Hk. cbn [mbind option_bind]. by rewrite (bool_decide_eq_true_2 _ Hs).
Qed.

(** The one row of the meta table. *)
Lemma validated_meta c :
  validate_catalog c = Ok tt -> exists m, cat_meta c = [m] /\ meta_singleton m = 1 /\ meta_format_version m = catalog_version.
Proof.
  intros Hv. unfold validate_catalog in Hv.
  repeat match type of Hv with
         | (if ?b then Err _ else _) = _ => destruct b; [done|]
         | match validate_table ?a ?b ?c with Ok _ => _ | Err _ => _ end = Ok _ => destruct (validate_table a b c) as [?|]; [|done]
         | match require_index ?a ?b ?c ?d with Ok _ => _ | Err _ => _ end = Ok _ => destruct (require_index a b c d) as [?|]; [|done]
         end.
  destruct (cat_meta c) as [|m [|m' l]]; try done. simpl in Hv. destruct (_ || _) eqn:Hb in Hv; [done|]. prop_bools. by exists m.
Qed.

Lemma marked_valid n c : n = 0 \/ n = 1 -> validate_catalog c = Ok tt -> validate_catalog (set_meta (marked n <$> cat_meta c) c) = Ok tt.
Proof.
  intros Hn Hv. destruct (validated_meta c Hv) as (m & Hmeta & H1m & Hfm).
  unfold validate_catalog, validate_table, require_index in Hv |- *. simpl. rewrite Hmeta in *. simpl in Hv |- *. unfold marked. rewrite H1m in *. simpl in Hv |- *.
  rewrite Hfm in *. simpl in Hv |- *.
  repeat match goal with
         | |- (if negb ((n =? 0) || _) then _ else _) = _ => idtac; fail 1
         | |- (if ?b then Err _ else _) = _ => destruct b; [done|]
         | |- match ?x with Ok _ => _ | Err _ => _ end = Ok _ => destruct x as [?|]; [|done]
         end. by destruct Hn as [-> | ->].
Qed.

Lemma finished_usable c c' :
  validate_catalog c = Ok tt -> cat_meta c' = marked 0 <$> cat_meta c -> cat_application_id c' = cat_application_id c ->
  cat_user_version c' = cat_user_version c -> cat_schema c' = cat_schema c -> usable c'.
Proof.
  intros Hv Hm Ha Hu Hs. destruct (validated_meta c Hv) as (m & Hmeta & H1m & Hfm).
  split; [|rewrite Hm, Hmeta; simpl; unfold marked; rewrite H1m; by eexists].
  transitivity (validate_catalog (set_meta (marked 0 <$> cat_meta c) c)); [by apply validate_catalog_same|]. by apply marked_valid; [left|].
Qed.

(** ** Sessions that were found *)
Lemma observe_shape id (db : Db D) s :
  observe id db = Ok s ->
  su_availability s = SessionAvailability.Ready /\ su_fault_code s = None /\ 1 <= su_schema_version s <= 3 /\
  session_version db = Ok (su_schema_version s) /\
  (forall r, su_last_run_id s = Some r -> parse_id r = Ok r) /\ is_some (su_last_run_id s) = is_some (su_last_run_state s).
Proof.
  unfold observe. destruct (validate_session id None db) as [m|]; [|done].
  destruct (match latest_run _ with Some _ => _ | None => _ end) as [run|] eqn:Hrun; [|done].
  destruct (session_version db) as [v|] eqn:Hv; [|done]. intros [= <-]. simpl. split_and!; try done.
  - unfold session_version in Hv. destruct (_ && _) eqn:Hb in Hv; [|done]. prop_bools. injection Hv as <-. rewrite as_u64_small by (unfold u64_max; lia). lia.
  - unfold session_version in Hv. destruct (_ && _) eqn:Hb in Hv; [|done]. prop_bools. injection Hv as <-. rewrite as_u64_small by (unfold u64_max; lia). lia.
  - intros r Hr. destruct (latest_run _) as [[key row]|]; [|by injection Hrun as <-]. destruct (map_err _ _) as [k|] eqn:Hk; [|done].
    apply parse_stored_id in Hk as [Hk ->]. destruct (run_record _ _ _) as [rr|]; [|done]. destruct (ok_or rr _); [|done].
    injection Hrun as <-. by injection Hr as <-.
  - by destruct run.
Qed.

Lemma provenance_request_shape p input :
  provenance_request p = Ok input ->
  cp_method p = "create_session" /\
  cp_receipt p = {| rc_operation_id := cp_operation_id p; rc_session_id := cp_session_id p; rc_run_id := None;
                    rc_first_sequence := 1; rc_last_sequence := 1 |}.
Proof.
  unfold provenance_request. intros Hr. destruct (ok_or (request_from_json _) _); [|done]. rewrite receipt_first in Hr.
  destruct (_ || _) eqn:Ho1 in Hr; [done|]. destruct (ok_or (request_to_json _) _); [|done]. destruct (_ || _) eqn:Ho2 in Hr; [done|].
  prop_bools. done.
Qed.

(** The entry of a session that is claimed. *)
Lemma claimed_entry repair_id files c i id s p :
  inspect i id files = Some (Ok (s, p)) -> stored_integers files -> claimed repair_id s p c ->
  entry_rows id c = Ok {| en_summary := s; en_reservation := {| rs_provenance := p; rs_state := CreationState.Accepted |} |}.
Proof using laws typed_provenance.
  intros Hi Hint [(w & Hw & Hs) (receipt & Hj & Hc) Ho]. destruct (inspect_proper _ _ _ _ _ Hi) as [Hid Hid']. simpl in Hid. subst id.
  apply inspect_Found in Hi as (db & row & Hdb & Hobs & Hm & Hp). pose proof (observe_manifest _ _ _ Hobs) as Hval.
  destruct (validate_session_known _ _ _ _ _ Hval Hm Hp) as (_ & _ & input & Hreq & Hcr & Hws & Hh & Hhd).
  pose proof (validate_session_updated _ _ _ _ Hval) as Hup. pose proof (Hint _ _ _ Hdb Hm) as Hmax.
  destruct (observe_shape _ _ _ Hobs) as (Hav & Hfc & Hver & _ & Hrun & Hpair). destruct (provenance_typed _ _ Hp) as (P1 & P2 & P3 & P4).
  destruct (provenance_request_inv _ _ Hreq) as [Hpos Hvw]. destruct (provenance_request_shape _ _ Hreq) as [Hmeth Hrec].
  assert (sm_head_sequence (su_manifest s) = mf_head_sequence row) as Hhd' by (rewrite Hhd; apply as_u64_small; unfold u64_max, i64_max in *; lia).
  assert (row_provenance (cp_operation_id p) (registered_creation p receipt) = p) as Hpr.
  { destruct p. unfold row_provenance, registered_creation. simpl in *. by rewrite Hmeth, Hrec. }
  assert (known (cp_operation_id p) (registered_creation p receipt) input CreationState.Accepted s c) as Hk.
  { split; simpl; try done.
    - split; simpl; try done; [by rewrite Hpr|]. split_and!; try done. exists receipt. split; [done|].
      unfold decode_receipt. rewrite (receipt_round _ _ Hj). cbn [ok_or]. rewrite Hrec. done.
    - exists (registered_session repair_id s w). split; [done|]. split; simpl; try done.
      + by rewrite Hid.
      + by rewrite Hav.
      + rewrite !as_i64_small by (unfold i64_max in *; lia). lia.
      + rewrite !as_i64_small by (unfold i64_max in *; lia). lia.
      + rewrite Hws in Hw |- *. by eapply workspace_round.
      + rewrite as_i64_small, as_u64_small by (unfold u64_max, i64_max in *; lia). destruct (su_manifest s). simpl in *. by rewrite Hid.
      + rewrite as_i64_small, as_u64_small by (unfold u64_max, i64_max in *; lia). done.
    - by rewrite Hav. }
  assert (only_claim (cp_operation_id p) (registered_creation p receipt) c) as Honly by exact Ho.
  pose proof (known_entry_only _ _ _ _ _ _ Honly Hk) as He. rewrite Hpr in He. exact He.
Qed.

(** What a repair that ended leaves of a session it found. *)
Lemma repaired_opens scan repair_id files c report c' s p w writable :
  repair scan repair_id files c = (Ok report, c') -> untouched repair_id c -> orderly (findings scan files) ->
  stored_integers files -> Found s p ∈ findings scan files -> ~ drawn (cat_creations c) (findings scan files) p -> calm w ->
  connection w (cp_session_id p) writable (mkDisk c' files) = Ok p /\
  entry_rows (cp_session_id p) c' =
    Ok {| en_summary := s; en_reservation := {| rs_provenance := p; rs_state := CreationState.Accepted |} |}.
Proof using laws typed_provenance.
  intros Hr Hu Ho Hint Hin Hno Hw. pose proof (findings_proper _ _ _ _ _ _ Hr) as Hpr. destruct (findings_Found _ _ _ _ Hin) as (i & id & Hi).
  destruct (repair_Ok _ _ _ _ _ _ Hr) as (c1 & c2 & n & k & Hmark & Hrec & Hv & Hfin). injection Hmark as <-.
  assert (recorded repair_id (cat_creations c) (findings scan files) c2) as Hc2.
  { apply (findings_recorded repair_id (cat_creations c) (findings scan files) [] _ _) in Hrec; try done. by apply untouched_recorded. }
  apply finish_body_Ok in Hfin as (Hcr & Hme & Hap & Huv & Hsc & Hse).
  assert (claimed repair_id s p c') as Hcl.
  { destruct (rc_each _ _ _ _ Hc2 s p Hin) as [[(ws & Hws & Hs) Hcreate Honly]|[_ _ Hd]]; [|done]. split; rewrite ?Hcr; try done.
    exists ws. split; [done|]. by apply Hse. }
  pose proof (claimed_entry _ _ _ _ _ _ _ Hi Hint Hcl) as Hen. destruct (inspect_proper _ _ _ _ _ Hi) as [_ Hid]. rewrite Hid in *.
  split; [|done]. apply inspect_Found in Hi as (db & row & Hdb & Hobs & Hm & Hp). pose proof (observe_manifest _ _ _ Hobs) as Hval.
  destruct (observe_shape _ _ _ Hobs) as (Hav & _ & _ & Hver & _). destruct (validate_session_known _ _ _ _ _ Hval Hm Hp) as (Hval' & _).
  eapply (entry_connects w id writable (mkDisk c' files) s p db _ _); try done. by eapply (finished_usable c2).
Qed.

(** C22. Repair restores.  Whatever the catalog said before - if a repair ends, every
    session file that its scan found whole and that is not drawn into a contest can be
    opened, for reading and for writing: the catalog lists it with exactly what the
    file says, under the creation the file itself records.  A file is drawn into a
    contest if another file found claims the same creation, or if the catalog before
    gave its creation to another file found that is drawn into one.  Contests between
    other files do not matter. *)
Theorem repair_restores scan repair_id files c report c' s p w writable :
  repair scan repair_id files c = (Ok report, c') -> untouched repair_id c -> orderly (findings scan files) ->
  stored_integers files -> Found s p ∈ findings scan files -> ~ drawn (cat_creations c) (findings scan files) p -> calm w ->
  connection w (cp_session_id p) writable (mkDisk c' files) = Ok p /\
  entry_rows (cp_session_id p) c' =
    Ok {| en_summary := s; en_reservation := {| rs_provenance := p; rs_state := CreationState.Accepted |} |}.
Proof using laws typed_provenance. apply repaired_opens. Qed.

(** ** Sessions that contest a creation *)
Lemma both_contested repair_id creations F c s p s' p' :
  recorded repair_id creations F c -> Found s p ∈ F -> Found s' p' ∈ F -> cp_operation_id p = cp_operation_id p' ->
  cp_session_id p <> cp_session_id p' -> contested repair_id creations p F c.
Proof.
  intros Hr Hin Hin' Hop Hne. destruct (rc_each _ _ _ _ Hr _ _ Hin) as [[(w & _ & Hs) (j & _ & Hc) _]|]; [|done]. exfalso.
  destruct (rc_each _ _ _ _ Hr _ _ Hin') as [[_ (j' & _ & Hc') _]|[_ (row & s2 & p2 & r2 & Hrow & _ & Hid2 & Hr2 & Hv2) _]].
  - rewrite <- Hop, Hc in Hc'. injection Hc' as Hx. congruence.
  - rewrite <- Hop, Hc in Hrow. injection Hrow as <-. simpl in Hid2. rewrite <- Hid2, Hs in Hr2. injection Hr2 as <-. by destruct Hv2.
Qed.

(** A session whose row has a fault does not open. *)
Lemma unavailable_closed w id writable (disk : Disk D) r q :
  cat_sessions (dk_catalog disk) !! id = Some r -> ses_availability r = "unavailable" -> connection w id writable disk <> Ok q.
Proof.
  intros Hr Ha Hc. unfold connection in Hc. destruct (Catalog.entry _ _ _) as [en|] eqn:He; [|done].
  unfold Catalog.entry in He. destruct (connect_checked _ _ _ _); [|done]. unfold finish_read in He.
  destruct (entry_rows id _) as [en'|] eqn:Hen; [|done]. destruct (ac_close_failed _); [done|]. injection He as ->.
  unfold entry_rows in Hen. rewrite Hr in Hen. cbn [ok_or] in Hen. destruct (summary id r) as [su|] eqn:Hs; [|done].
  apply summary_elim in Hs. pose proof (sz_availability _ _ _ Hs) as Hav. rewrite Ha in Hav.
  change (Some SessionAvailability.Unavailable = Some (su_availability su)) in Hav. injection Hav as Hav.
  assert (en_summary en = su) as Hsu.
  { repeat match type of Hen with
           | (if ?b then _ else _) = _ => destruct b
           | match ?x with Ok _ => _ | Err _ => _ end = Ok _ => destruct x as [?|]
           end; try done. by injection Hen as <-. }
  rewrite Hsu, <- Hav in Hc. done.
Qed.

(** Repair does not choose.  If the scan of a repair that ended found two whole
    session files that claim the same creation, neither opens afterwards, whatever
    the surroundings: each is listed as unavailable because of the conflict. *)
Lemma repair_contested scan repair_id files c report c' s p s' p' w writable :
  repair scan repair_id files c = (Ok report, c') -> untouched repair_id c -> orderly (findings scan files) ->
  Found s p ∈ findings scan files -> Found s' p' ∈ findings scan files ->
  cp_operation_id p = cp_operation_id p' -> cp_session_id p <> cp_session_id p' ->
  (forall q, connection w (cp_session_id p) writable (mkDisk c' files) <> Ok q) /\
  exists r, cat_sessions c' !! cp_session_id p = Some r /\ ses_availability r = "unavailable" /\
    ses_fault_code r = Some "storage.command_conflict".
Proof.
  intros Hr Hu Ho Hin Hin' Hop Hne. pose proof (findings_proper _ _ _ _ _ _ Hr) as Hpr.
  destruct (repair_Ok _ _ _ _ _ _ Hr) as (c1 & c2 & n & k & Hmark & Hrec & Hv & Hfin). injection Hmark as <-.
  assert (recorded repair_id (cat_creations c) (findings scan files) c2) as Hc2.
  { apply (findings_recorded repair_id (cat_creations c) (findings scan files) [] _ _) in Hrec; try done. by apply untouched_recorded. }
  apply finish_body_Ok in Hfin as (_ & _ & _ & _ & _ & Hse).
  destruct (both_contested _ _ _ _ _ _ _ _ Hc2 Hin Hin' Hop Hne) as [(r & Hrow & Hr1 & Hr2 & Hr3) _ _].
  pose proof (Hse _ _ Hrow Hr3) as Hrow'. split; [|by exists r]. intros q. by eapply unavailable_closed.
Qed.

(** ** The mark *)

(** No operation but repair gets to work on the catalog. *)
Definition shut c : Prop := forall a writable u, connect_checked a writable false c <> Ok u.

Definition marked_up c : Prop := forall m, m ∈ cat_meta c -> meta_singleton m = 1 -> meta_repair_required m = 1.

Lemma marked_shut c : marked_up c -> shut c.
Proof.
  intros Hm a writable u Hc. unfold connect_checked in Hc. destruct (refuse _); [|done]. destruct (validate_catalog c); [|done].
  destruct (find _ (cat_meta c)) as [m|] eqn:Hf; [|done]. cbn [ok_or] in Hc. apply find_some in Hf as [Hin Hs]. apply list_elem_of_In in Hin.
  apply Z.eqb_eq in Hs. by rewrite (Hm m Hin Hs) in Hc.
Qed.

Lemma set_mark_up c u c' : set_mark 1 c = (Ok u, c') -> marked_up c'.
Proof.
  intros Hs. injection Hs as _ <-. intros m. simpl. intros (m0 & -> & _)%list_elem_of_fmap. unfold marked.
  by destruct (Z.eqb_spec (meta_singleton m0) 1).
Qed.

Lemma maintain_keeps {A} a (body : Cat A) : keeps_schema body -> keeps marked_up (maintain a body).
Proof.
  intros Hk c Hc. unfold maintain. destruct (connect_checked _ _ _ _); [|done]. destruct (catalog_transaction _ _ _ c) as [r c'] eqn:Ht.
  apply operation_schema in Ht; [|done]. assert (marked_up c') by (unfold marked_up; by rewrite (ss_meta _ _ Ht)). by destruct (finish_read a r).
Qed.

Lemma maintain_statement_keeps a (body : Cat unit) : keeps_schema body -> keeps marked_up (maintain_statement a body).
Proof.
  intros Hk c Hc. unfold maintain_statement. destruct (connect_checked _ _ _ _); [|done]. destruct (statement _ _ _) as [r c'] eqn:Ht.
  assert (c' = c \/ exists u, body c = (Ok u, c')) as [->|(u & Hb)].
  { unfold statement in Ht. destruct (ac_fate a), (body c) as [[u|err] c1]; injection Ht as _ <-; eauto. }
  - by destruct (finish_read a r).
  - apply Hk in Hb. assert (marked_up c') by (unfold marked_up; by rewrite (ss_meta _ _ Hb)). by destruct (finish_read a r).
Qed.

Lemma keeps_schema_sessions p f : keeps_schema (update_sessions p f).
Proof. intros c u c' Hu. by injection Hu as _ <-. Qed.
Lemma register_body_schema repair_id s p : keeps_schema (register_body repair_id s p).
Proof.
  unfold register_body, upsert_session, upsert_creation. keeps_schema_auto; try apply keeps_schema_sessions;
    intros c u c' Hu; try (by injection Hu as _ <-); by apply require_constraint_Ok in Hu as [_ ->].
Qed.
Lemma fault_body_schema repair_id id e : keeps_schema (fault_body repair_id id e).
Proof.
  unfold fault_body, upsert_session. keeps_schema_auto;
    intros c u c' Hu; try (by injection Hu as _ <-); by apply require_constraint_Ok in Hu as [_ ->].
Qed.

Lemma scan_children_keeps repair_id prefix files l : forall scanned ignored,
  keeps marked_up (scan_children repair_id prefix files scanned ignored l).
Proof.
  induction l as [|[|name i a] l IH]; intros scanned ignored; simpl; guard_auto; try apply maintain_keeps, register_body_schema;
    try apply maintain_statement_keeps, fault_body_schema.
Qed.

Lemma scan_buckets_keeps repair_id files l : forall scanned ignored, keeps marked_up (scan_buckets repair_id files scanned ignored l).
Proof.
  induction l as [|[|name check reject children] l IH]; intros scanned ignored; cbn [scan_buckets]; guard_auto;
    try apply scan_children_keeps; try apply maintain_statement_keeps, keeps_schema_sessions.
Qed.

(** C23. An interrupted repair keeps the store shut.  If a repair fails, then nothing
    was written; or the catalog is one on which every operation but another repair is
    refused; or the last transaction of the repair was made and only its end was not
    confirmed. *)
Theorem repair_gate scan repair_id files c e c' :
  repair scan repair_id files c = (Err e, c') ->
  c' = c \/ shut c' \/ exists c2 scanned ignored report, shut c2 /\ finish_body repair_id scanned ignored c2 = (Ok report, c').
Proof.
  intros Hr. unfold repair in Hr. apply bind_inv in Hr as [(u & c1 & Hi & Hr)|(e' & Hi & _)]; swap 1 2.
  - unfold set_intent, maintain in Hi. destruct (connect_checked _ _ _ _); [|injection Hi as _ <-; by left].
    destruct (catalog_transaction _ _ _ _) as [r c1] eqn:Ht. injection Hi as _ <-.
    apply catalog_transaction_inv in Ht as [(e0 & _ & ->)|(v & c0 & Hb & [[_ ->]|[_ [->| ->]]])]; [by left| | |by left];
      right; left; by eapply marked_shut, set_mark_up.
  - apply maintain_Ok in Hi as [_ Hm%set_mark_up]. apply bind_inv in Hr as [(u' & c1' & Hd & Hr)|(e' & Hd & _)]; swap 1 2.
    + injection Hd as _ <-. right. left. by apply marked_shut.
    + injection Hd as _ <-. destruct (sn_buckets scan) as [buckets|]; [|injection Hr as _ <-; right; left; by apply marked_shut].
      pose proof (scan_buckets_keeps repair_id files buckets 0 0 c1 Hm) as Hk.
      apply bind_inv in Hr as [(counts & c2 & Hd2 & Hr)|(e' & Hd2 & _)]; rewrite Hd2 in Hk; [|right; left; by apply marked_shut].
      unfold finish_repair, maintain in Hr. destruct (connect_checked _ _ _ _); [|injection Hr as _ <-; right; left; by apply marked_shut].
      destruct (catalog_transaction _ _ _ _) as [r c3] eqn:Ht. injection Hr as _ <-.
      apply catalog_transaction_inv in Ht as [(e0 & _ & ->)|(v & c0 & Hb & [[_ ->]|[_ [->| ->]]])];
        try (right; left; by apply marked_shut); right; right; exists c2, (fst counts), (snd counts), v; (split; [by apply marked_shut|done]).
Qed.
End repairs.
