(* ===== verification/Inspected.v ===== *)
(** * Sessions pass the inspection of repair

    The inspection of a session file reads its whole history: references, numbering,
    titles, the digests of selected histories, receipts and runs.  A session that was
    made and worked on through the store passes it. *)
From S2P Require Import Prelude Json Errors Identifiers Provider Tools Replay RunData Hoare Records Store History Session RunStore StoreSafety StoreCommands StoreGuarantees StoreContents Prefix RunAudit AuditWrites AuditKeeps AuditSessions Valid Catalog Creation CatalogFacts CreationSafety Stores Recovery Repair RepairFacts.

Section inspected.
Context {D : Type} `{Display D} `{UuidLib} `{StorageSerde} {laws : StorageSerdeLaws}.
Implicit Types db : Db D.

(** ** Commands *)

(** A receipt of an accepted history has its selection in the log. *)
Definition selected_at (id run : string) (r : EventRow) : Prop :=
  exists e s, decode_event id r = Ok e /\ row_run_id r = Some run /\ st_payload e = RunHistorySelected s.

Record command_fits (id : string) db (c : CommandRow) : Prop := {
  cf_first : 1 <= cmd_first_sequence c <= size db;
  cf_last : 1 <= cmd_last_sequence c <= size db;
  cf_selected : cmd_method c = "accept_history_run" -> parse_id (cmd_operation_id c) = Ok (cmd_operation_id c) /\
    exists command run r, find_command id (cmd_operation_id c) db = Ok (Some command) /\
      rc_run_id (c_receipt command) = Some run /\ r ∈ events db /\ selected_at id run r
}.

Definition commanded (id : string) db : Prop := forall c, c ∈ commands db -> command_fits id db c.

Lemma find_command_evolves id operation c db db' :
  evolves db db' -> find_command id operation db = Ok (Some c) -> find_command id operation db' = Ok (Some c).
Proof.
  intros Hev Hf. unfold find_command in *. destruct (evolves_commands _ _ Hev) as [l ->].
  destruct (find _ (commands db)) as [row|] eqn:Hr; [|done]. rewrite (find_app_l _ _ _ _ Hr).
  destruct (decode_receipt _) as [receipt|]; [|done]. destruct (manifest db) as [m|] eqn:Hm; [|done]. cbn [ok_or] in *.
  destruct (evolves_identity _ _ Hev m Hm) as (m' & -> & _ & _ & _ & Hle). cbn [ok_or].
  destruct (_ || _) eqn:Hb in Hf; [done|]. apply orb_false_iff in Hb as [Hb Hlt]. rewrite Hb.
  apply Z.ltb_ge in Hlt. assert ((mf_head_sequence m' <? cmd_last_sequence row) = false) as -> by (apply Z.ltb_ge; lia). done.
Qed.

Lemma command_fits_evolves id db db' c : evolves db db' -> command_fits id db c -> command_fits id db' c.
Proof.
  intros Hev [[F1 F2] [L1 L2] Hs]. destruct (evolves_events _ _ Hev) as [rows He].
  assert (size db <= size db') as Hsz by (unfold size; rewrite He, length_app; lia). split; [lia|lia|].
  intros Hm. destruct (Hs Hm) as (Hop & command & run & r & Hf & Hr & Hin & Hse). split; [done|]. exists command, run, r.
  split_and!; [by eapply find_command_evolves|done| |done]. rewrite He. apply elem_of_app. by left.
Qed.

Lemma performed_commanded id operation kind hash run db count receipt db' :
  performed id operation kind hash run db count receipt db' -> commanded id db ->
  (kind = "accept_history_run" -> parse_id operation = Ok operation /\
     exists k r, run = Some k /\ r ∈ events db' /\ selected_at id k r) ->
  commanded id db'.
Proof using laws.
  intros Hp Hc Hk c Hin. pose proof (pf_extended _ _ _ _ _ _ _ _ _ Hp) as Hext. pose proof (ext_evolves _ _ _ Hext) as Hev.
  pose proof (ext_size _ _ _ Hext) as Hsz. pose proof (pf_count _ _ _ _ _ _ _ _ _ Hp) as Hcount. pose proof (pf_created _ _ _ _ _ _ _ _ _ Hp) as Hcr.
  destruct (pf_command _ _ _ _ _ _ _ _ _ Hp) as (json & _ & Hcs). rewrite Hcs in Hin. apply elem_of_app in Hin as [Hin|Hin].
  - by eapply command_fits_evolves, Hc.
  - apply list_elem_of_singleton in Hin as ->. split; simpl; [lia|lia|]. intros ->. destruct (Hk eq_refl) as (Hop & k & r & -> & Hr & Hse).
    split; [done|]. eexists _, k, r. split_and!; [eapply performed_found; [exact Hp|reflexivity]|simpl; by apply (pf_run _ _ _ _ _ _ _ _ _ Hp)|done|done].
Qed.

(** ** References *)
Lemma has_event_in n db : log_ok db -> 1 <= n <= size db -> has_event n db = true.
Proof.
  intros Hl Hn. unfold has_event. apply existsb_exists.
  assert (n ∈ row_sequence <$> events db) as Hin by (rewrite Hl; apply elem_of_seqZ; unfold size in *; lia).
  apply list_elem_of_fmap in Hin as (r & -> & Hr). exists r. split; [by apply list_elem_of_In|apply Z.eqb_refl].
Qed.

Lemma read_event_has id n e db : read_event id n db = Ok e -> has_event n db = true.
Proof.
  intros Hr. apply read_event_row in Hr as (r & Hin & <- & _). unfold has_event. apply existsb_exists. exists r.
  split; [by apply list_elem_of_In|apply Z.eqb_refl].
Qed.

Lemma audited_fits id db k row :
  auditable id db -> runs db !! k = Some row -> exists p a, run_record id k db = Ok (Some p) /\ run_fits id k row p db /\ audited id k a db.
Proof.
  intros Hab Hk. destruct (ab_runs _ _ Hab k) as (a & Ha); [by rewrite Hk|]. destruct (au_record _ _ _ _ Ha) as (p & Hp & _).
  pose proof Hp as Hf. apply run_record_fits in Hf as (row' & Hf); [|apply Hab]. assert (row' = row) as -> by (pose proof (rf_row _ _ _ _ _ Hf); congruence).
  by exists p, a.
Qed.

Lemma foreign_keys_hold id db : auditable id db -> commanded id db -> foreign_keys db = true.
Proof.
  intros Hab Hc. pose proof (ld_log _ _ (ab_ledger _ _ Hab)) as Hl. unfold foreign_keys. rewrite !andb_true_iff. split_and!; apply forallb_forall.
  - intros c Hin. apply list_elem_of_In in Hin. destruct (Hc c Hin) as [Hf Hla _]. by rewrite !has_event_in.
  - intros [k row] Hin. apply list_elem_of_In, elem_of_map_to_list in Hin. simpl. destruct (audited_fits _ _ _ _ Hab Hin) as (p & a & _ & Hf & _).
    destruct (rf_event _ _ _ _ _ Hf) as (e & He & _). destruct (rf_accepted _ _ _ _ _ Hf) as [_ Heq]. rewrite Heq in He. rewrite (read_event_has _ _ _ _ He).
    destruct (rf_terminal _ _ _ _ _ Hf) as (_ & _ & _ & Ht). destruct (rf_result _ _ _ _ _ Hf) as (_ & _ & Hr).
    unfold read_terminal in Ht. unfold read_result in Hr. apply andb_true_iff. split.
    + destruct (run_terminal_sequence row) as [n|]; [|done]. destruct (read_event id n db) eqn:Hn; [|done]. simpl. by eapply read_event_has.
    + destruct (run_result_sequence row) as [n|]; [|done]. destruct (read_event id n db) eqn:Hn; [|done]. simpl. by eapply read_event_has.
  - intros [[k call] t] Hin. apply list_elem_of_In, elem_of_map_to_list in Hin. simpl.
    pose proof (sound_tools _ (ab_sound _ _ Hab) _ _ _ Hin) as Hrun. rewrite Hrun. destruct (ab_runs _ _ Hab k Hrun) as (a & Ha).
    pose proof (au_tools _ _ _ _ Ha _ _ Hin) as [_ _ _ Hst Hfi Hre].
    assert (forall r n q, tool_link id k r n q db = Ok tt -> has_event n db = true) as Hlink.
    { intros r n q Hq. unfold tool_link in Hq. destruct (read_event id n db) eqn:Hn; [|done]. by eapply read_event_has. }
    rewrite (Hlink _ _ _ Hst). destruct (tool_finished_sequence t) as [n|]; simpl.
    + destruct (Hfi n eq_refl) as [_ Hq]. rewrite (Hlink _ _ _ Hq). destruct (tool_result_sequence t) as [n2|]; [|done]. simpl.
      destruct (Hre n2 eq_refl) as (_ & e & pl & Hn2 & _). by eapply read_event_has.
    + destruct (tool_result_sequence t) as [n2|]; [|done]. simpl. destruct (Hre n2 eq_refl) as (_ & e & pl & Hn2 & _). by eapply read_event_has.
Qed.

(** ** Runs *)
Lemma audit_advance_accepted a e c : rr_accepted_sequence (au_replay (audit_advance a e c)) = rr_accepted_sequence (au_replay a).
Proof. unfold audit_advance. destruct (st_payload e); try done; simpl; [by destruct (ev_event _)|by destruct (active _)]. Qed.

Lemma audit_accepted id db rows a a' row e acc :
  audit_rows id a rows db = Ok a' -> row ∈ rows -> decode_event id row = Ok e -> st_payload e = RunAccepted acc ->
  st_sequence e = rr_accepted_sequence (au_replay a).
Proof.
  revert a. induction rows as [|r rows IH]; intros a Ha Hin Hd Hp; [by apply not_elem_of_nil in Hin|]. simpl in Ha.
  destruct (decode_event id r) as [e'|] eqn:Hr; [|done]. destruct (audit_event id a e' db) as [b|] eqn:Hb; [|done].
  apply elem_of_cons in Hin as [->|Hin].
  - rewrite Hd in Hr. injection Hr as <-. unfold audit_event in Hb. rewrite Hp in Hb. destruct (expect _); [|done].
    destruct (expect ((au_after a =? 0) && _)) as [[]|] eqn:Hx in Hb; [|done]. apply expect_Ok in Hx. by prop_bools.
  - pose proof Hb as Hadv. apply audit_event_spec in Hadv as (c & _ & ->). rewrite (IH _ Ha Hin Hd Hp). apply audit_advance_accepted.
Qed.

Lemma projected_holds id db : auditable id db -> projected db = true.
Proof using laws.
  intros Hab. pose proof (ab_ledger _ _ Hab) as Hled. unfold projected. apply forallb_forall. intros r Hin. apply list_elem_of_In in Hin.
  destruct (row_run_id r) as [k|] eqn:Hk; [|done]. simpl. pose proof (ld_logged _ _ Hled _ _ Hin Hk) as Hrun. apply is_some_true in Hrun as [row Hrow].
  rewrite Hrow. simpl. destruct (bool_decide_reflect (row_event_type r = "run.accepted")) as [Ht|]; [|done]. simpl.
  destruct (ld_canonical _ _ Hled _ Hin) as (e & Hd & _). destruct (audited_fits _ _ _ _ Hab Hrow) as (p & a & Hp & Hf & Ha).
  pose proof (decode_event_Ok _ _ _ Hd) as (_ & Hsq & Hrid & Hpay & _). rewrite Ht in Hpay. apply payload_kind in Hpay as Hkind.
  destruct (st_payload e) as [| |acc| | | | | |] eqn:Hpl; try done. destruct (au_record _ _ _ _ Ha) as (p' & Hp' & Heq). assert (p' = p) as -> by congruence.
  assert (r ∈ run_rows k db) as Hrr by (eapply run_rows_In; [done|done|congruence]).
  pose proof (audit_accepted _ _ _ _ _ _ _ _ (au_passes _ _ _ _ Ha) Hrr Hd Hpl) as Hacc. simpl in Hacc. rewrite <- Heq in Hacc. simpl in Hacc.
  destruct (rf_accepted _ _ _ _ _ Hf) as [_ Hra]. apply Z.eqb_eq. congruence.
Qed.

Lemma run_key id db k row : auditable id db -> runs db !! k = Some row -> parse_id k = Ok k.
Proof.
  intros Hab Hk. destruct (audited_fits _ _ _ _ Hab Hk) as (p & a & _ & Hf & _). destruct (rf_event _ _ _ _ _ Hf) as (e & He & Hpay).
  apply read_event_row in He as (r & _ & _ & Hd & _). pose proof (decode_event_Ok _ _ _ Hd) as (_ & _ & Hrun & _ & Hfit). rewrite Hpay in Hfit. simpl in Hfit.
  destruct (bool_decide_reflect (st_run_id e = Some k)) as [Hr|]; [|done]. rewrite Hrun in Hr.
  unfold decode_event in Hd. destruct (ok_or (u64_try_from _) _); [|done]. destruct (map_err (parse_id (row_event_id r)) _); [|done].
  rewrite Hr in Hd. destruct (map_err (parse_id k) _) as [k'|] eqn:Hkk; [|done]. by apply parse_stored_id in Hkk as [? _].
Qed.

Lemma check_run_holds id db k row : auditable id db -> runs db !! k = Some row -> check_run id db (k, row) = Some (Ok tt).
Proof.
  intros Hab Hk. unfold check_run. simpl. rewrite (run_key _ _ _ _ Hab Hk). cbn [map_err].
  destruct (audited_fits _ _ _ _ Hab Hk) as (p & a & _ & _ & Ha). pose proof (ab_ledger _ _ Hab) as Hled. by eapply audited_validates; [apply Hled..|].
Qed.

Lemma check_selected_holds id db c :
  auditable id db -> commanded id db -> c ∈ selecting db -> check_selected id db c = Some (Ok tt).
Proof using laws.
  intros Hab Hc Hin. unfold selecting in Hin. apply list_elem_of_In, filter_In in Hin as [Hin Hm]. apply bool_decide_eq_true in Hm. apply list_elem_of_In in Hin.
  destruct (cf_selected _ _ _ (Hc c Hin) Hm) as (Hop & command & run & r & Hf & Hr & Hir & e & s & Hd & Hrun & Hpay).
  unfold check_selected. rewrite Hop. cbn [map_err]. rewrite Hf. cbn [ok_or]. rewrite Hr. cbn [ok_or].
  pose proof (ab_ledger _ _ Hab) as Hled. destruct (ab_runs _ _ Hab run (ld_logged _ _ Hled _ _ Hir Hrun)) as (a & Ha).
  destruct (audited_flags _ _ _ _ (ld_typed _ _ Hled) Ha) as [[Hsel _] _].
  assert (r ∈ run_rows run db) as Hrr.
  { pose proof (decode_event_Ok _ _ _ Hd) as (_ & _ & Hrid & _). eapply run_rows_In; [done|done|congruence]. }
  destruct (audit_rows_marks _ _ _ _ _ _ _ (au_passes _ _ _ _ Ha) Hrr Hd) as [Hmark _]. rewrite Hpay in Hmark.
  destruct (Hsel (Hmark eq_refl)) as [x ->]. done.
Qed.
End inspected.

(** ** The pass over the log *)

(** Every row that decodes has a canonical form. *)
Class RowSerdeLaws `{UuidLib} `{StorageSerde} `{RowSerde} : Prop := {
  canonical_total id r e : decode_event id r = Ok e -> is_some (canonical_row r) = true
}.

Section passing.
Context {D : Type} `{Display D} `{UuidLib} `{StorageSerde} {laws : StorageSerdeLaws} `{RowSerde}.
Implicit Types db : Db D.

Definition start : Pass := {| ps_head := 0; ps_title := None; ps_checkpoints := [] |}.

(** What a payload does to a pass. *)
Definition pass_payload (p : Pass) (x : StoredEventPayload) : Pass := {|
  ps_head := ps_head p + 1;
  ps_title := match x with SessionCreated c => Some (cd_title c) | SessionRenamed t => Some t | _ => ps_title p end;
  ps_checkpoints := match x with
                    | RunHistorySelected y => ps_checkpoints p ++ [(hs_through_sequence (sel_selection y), hs_history_digest (sel_selection y))]
                    | _ => ps_checkpoints p
                    end |}.

Lemma pass_rows_app id v p rows rows' :
  pass_rows id v p (rows ++ rows') = match pass_rows id v p rows with Ok q => pass_rows id v q rows' | Err e => Err e end.
Proof.
  revert p. induction rows as [|r rows IH]; intros p; [done|]. simpl. destruct (decode_event id r) as [e|]; [|done].
  by destruct (pass_event v p e).
Qed.

Lemma pass_event_payload p e :
  0 <= ps_head p < u64_max -> st_sequence e = ps_head p + 1 -> (event_type (st_payload e) = "session.created" -> ps_head p = 0) ->
  pass_event 3 p e = Ok (pass_payload p (st_payload e)).
Proof.
  intros Hh Hs Hc. unfold pass_event, increment_count, checked_add_u64. rewrite (proj2 (in_u64_spec _)) by lia. cbn [ok_or].
  rewrite Hs, Z.eqb_refl. cbn [negb]. unfold pass_payload. destruct (st_payload e) eqn:Hp; try done. by rewrite (Hc eq_refl).
Qed.

Lemma pass_shows id run rows ps p :
  Forall2 (shows id run) rows ps -> 0 <= ps_head p -> ps_head p + Z.of_nat (length rows) <= i64_max ->
  row_sequence <$> rows = seqZ (ps_head p + 1) (Z.of_nat (length rows)) -> Forall (fun x => event_type x <> "session.created") ps ->
  pass_rows id 3 p rows = Ok (foldl pass_payload p ps).
Proof.
  intros Hs. revert p. induction Hs as [|r x rows ps (e & Hd & Hx & _) _ IH]; intros p H0p Hmax Hseq Hne; [done|].
  simpl length in *. rewrite Nat2Z.inj_succ in *. rewrite fmap_cons, seqZ_cons in Hseq by lia. injection Hseq as Hr Hseq.
  apply Forall_cons in Hne as [Hne1 Hne]. simpl. rewrite Hd. pose proof (decode_event_Ok _ _ _ Hd) as (_ & Hsq & _).
  rewrite pass_event_payload; [|unfold u64_max, i64_max in *; lia|congruence|by rewrite Hx]. rewrite Hx. apply IH; simpl; [lia|lia| |done].
  rewrite Hseq. f_equal; lia.
Qed.

Lemma pass_head p ps : ps_head (foldl pass_payload p ps) = ps_head p + Z.of_nat (length ps).
Proof. revert p. induction ps as [|x ps IH]; intros p; simpl foldl; [simpl; lia|]. rewrite IH. simpl. lia. Qed.

(** A digest of a selected history is that of a prefix of the log. *)
Definition vouched (rows : list EventRow) (c : Z * string) : Prop :=
  1 <= c.1 <= Z.of_nat (length rows) /\
  exists bytes, row_bytes (take (Z.to_nat c.1) rows) = Some bytes /\ c.2 = hex (sha256 (String.append prefix_start bytes)).

Lemma vouched_app rows rows' c : vouched rows c -> vouched (rows ++ rows') c.
Proof.
  intros [Hb (bytes & Hr & Hd)]. split; [rewrite length_app; lia|]. exists bytes. split; [|done].
  rewrite take_app_le by lia. done.
Qed.

(** What the pass over the log of a session finds. *)
Record passing (id : string) db : Prop := {
  pg_pass : exists p, pass_rows id 3 start (events db) = Ok p /\ ps_head p = size db /\ ps_title p = titled db /\
    Forall (vouched (events db)) (ps_checkpoints p)
}.

Lemma wrote_passing id run db ps db' :
  wrote id run db ps db' -> sound db' -> passing id db -> Forall (fun x => event_type x <> "session.created") ps ->
  (forall p, ps_title p = titled db -> ps_title (foldl pass_payload p ps) = titled db') ->
  (forall p, Forall (vouched (events db)) (ps_checkpoints p) -> Forall (vouched (events db)) (ps_checkpoints (foldl pass_payload p ps))) ->
  passing id db'.
Proof.
  intros (rows & He & Hs) Hsd [(p & Hp & Hh & Ht & Hc)] Hne Htitle Hcheck. split. exists (foldl pass_payload p ps).
  pose proof (sound_length _ Hsd) as Hmax. pose proof (sound_log _ Hsd) as Hlog. pose proof (Forall2_length _ _ _ Hs) as Hlen.
  rewrite He, length_app in Hmax. unfold size in *. split_and!.
  - rewrite He, pass_rows_app, Hp. eapply pass_shows; [done|lia|lia| |done]. unfold log_ok in Hlog. rewrite He, fmap_app, length_app in Hlog.
    rewrite Nat2Z.inj_add, seqZ_app in Hlog by lia. apply app_inj_1 in Hlog as [_ ->]; [|by rewrite length_fmap, length_seqZ; lia].
    f_equal. lia.
  - rewrite pass_head, He, length_app. lia.
  - by apply Htitle.
  - rewrite He. eapply Forall_impl; [by apply Hcheck|]. intros c. apply vouched_app.
Qed.

Lemma row_bytes_total rows : Forall (fun r => is_some (canonical_row r) = true) rows -> exists bytes, row_bytes rows = Some bytes.
Proof.
  induction 1 as [|r rows Hr _ [bytes IH]]; [by exists EmptyString|]. apply is_some_true in Hr as [json Hr]. simpl. rewrite Hr, IH. by eexists.
Qed.

(** Checkpoints that are vouched for are accepted. *)
Lemma expected_vouched `{!DigestLength} rows through known cs :
  Z.of_nat (length rows) <= through -> (forall n d, known !! n = Some d -> vouched rows (n, d)) -> Forall (vouched rows) cs ->
  exists expected, expected_digests through known cs = Ok expected /\ forall n d, expected !! n = Some d -> vouched rows (n, d).
Proof.
  intros Hle Hk Hcs. revert known Hk. induction Hcs as [|[n d] cs Hc _ IH]; intros known Hk; [by exists known|]. cbn [expected_digests].
  pose proof Hc as [Hb (bytes & Hr & Hd)]. simpl in Hb, Hr, Hd. rewrite Hd, digest_valid.
  destruct (Z.eqb_spec n 0), (Z.ltb_spec through n); try lia. cbn [orb negb].
  assert (is_some_and (known !! n) (fun old => negb (bool_decide (old = hex (sha256 (String.append prefix_start bytes))))) = false) as ->.
  { destruct (known !! n) as [old|] eqn:Ho; [|done]. destruct (Hk _ _ Ho) as [_ (bytes' & Hr' & Hd')]. simpl in Hr', Hd'.
    simpl. rewrite bool_decide_eq_true_2; [done|]. congruence. }
  apply IH. intros n' d' Hl. apply lookup_insert_Some in Hl as [[<- <-]|[_ Hl]]; [by rewrite <- Hd|by apply Hk].
Qed.

Lemma prefix_digest_vouched `{!DigestLength} cs db :
  sound db -> headed db -> 1 <= size db -> Forall (fun r => is_some (canonical_row r) = true) (events db) -> Forall (vouched (events db)) cs ->
  exists d, prefix_digest (size db) cs db = Ok d /\ vouched (events db) (size db, d).
Proof.
  intros Hs Hh Hone Hall Hcs. destruct (expected_vouched (events db) (size db) ∅ cs) as (expected & He & Hex); [done|done|done|].
  pose proof (prefix_digest_spec (size db) cs expected db Hs Hh ltac:(lia) He) as Hsp. cbv zeta in Hsp.
  assert (take (Z.to_nat (size db)) (events db) = events db) as Hall' by (unfold size; rewrite Nat2Z.id; apply firstn_all).
  rewrite Hall' in Hsp. destruct (prefix_digest _ _ _) as [d|e].
  - destruct Hsp as (bytes & Hb & _ & ->). exists (hex (sha256 (String.append prefix_start bytes))). split; [done|].
    split; [simpl; unfold size in *; lia|]. simpl. rewrite Hall'. by exists bytes.
  - destruct Hsp as [_ []]. destruct (row_bytes_total _ Hall) as [bytes Hb]. rewrite Hb. split; [done|].
    intros n d bs Hn Hd Hbs. rewrite Z.add_0_l in Hd. destruct (Hex _ _ Hd) as [_ (bs' & Hbs' & Hd')]. simpl in Hbs', Hd'.
    rewrite Nat2Z.id in Hbs'. congruence.
Qed.
End passing.

(** ** Attempts *)
Section attempted.
Context {D : Type} `{Display D} `{UuidLib} `{StorageSerde} {laws : StorageSerdeLaws} `{RowSerde} {digest : DigestLength} {rows : RowSerdeLaws}.
Implicit Types db : Db D.

(** A selected history comes with the digest that the log has. *)
Definition honest_attempt (a : Attempt) db : Prop :=
  match at_request a with
  | Mutate _ _ (AcceptHistory _ selection) =>
      forall d, prefix_digest (hs_through_sequence selection) [] db = Ok d -> hs_history_digest selection = d
  | _ => True
  end.

Fixpoint honest (provenance : CreationProvenance) (l : list Attempt) db : Prop :=
  match l with
  | [] => True
  | a :: l => honest_attempt a db /\ honest provenance l (attempt provenance a db)
  end.

Lemma canonical_rows id db : ledger id db -> Forall (fun r => is_some (canonical_row r) = true) (events db).
Proof using rows. intros Hl. apply Forall_forall. intros r Hr. destruct (ld_canonical _ _ Hl r Hr) as (e & Hd & _). by eapply canonical_total. Qed.

(** A history is selected only at the head. *)
Lemma mutate_body_through clock provenance owner operation run input selection db receipt db' :
  sound db -> mutate_body clock provenance owner operation run (AcceptHistory input selection) db = (Ok (receipt, false), db') ->
  headed db /\ 1 <= size db /\ hs_through_sequence selection = size db.
Proof.
  intros Hs Hb. unfold mutate_body in Hb. unbind Hb. injection Hc as _ <-. unbind Hb. injection Hc as _ <-. destruct a0 as [c|].
  { by apply replay_command_Ok in Hb as (? & _). }
  unbind Hb. injection Hc as Hv <-. apply validate_session_head in Hv as (row & Hm & _ & Hh & Hhd & Hsz); [|done].
  unbind Hb. injection Hc as Hc _. rewrite Hhd in Hc. destruct (Z.eqb_spec (size db) (hs_through_sequence selection)); [|done].
  split; [|split; [lia|done]]. unfold headed. by rewrite Hm; simpl; rewrite Hh.
Qed.

(** What a rename leaves as title. *)
Lemma rename_body_title clock provenance operation title db receipt db' :
  sound db -> rename_body clock provenance operation title db = (Ok (receipt, false), db') -> titled db' = Some title.
Proof.
  intros Hs Hb. unfold rename_body in Hb. unbind Hb. injection Hc as _ <-. unbind Hb. injection Hc as _ <-. destruct a0 as [c|].
  { destruct (_ || _) in Hb; [done|]. by destruct (_ || _) in Hb. }
  unbind Hb. injection Hc as Hv <-. apply validate_session_head in Hv as (row & Hm & _); [|done].
  do 4 (unbind Hb; injection Hc as _ <-). unbind Hb. apply insert_event_row_Ok in Hc as [_ ->].
  unbind Hb. apply (update_manifest_Ok _ _ row) in Hc as ->; [|done]. unbind Hb. apply apply_same in Hc as (_ & _ & _ & _ & M).
  unbind Hb. injection Hc as _ <-. unbind Hb. apply insert_command_Ok in Hc as [-> _]. injection Hb as _ <-. unfold titled. simpl. by rewrite M.
Qed.

Lemma mutate_body_title clock provenance owner operation run mutation : leaves (titled (D := D)) (mutate_body clock provenance owner operation run mutation).
Proof.
  unfold mutate_body, replay_command. leaves_auto; apply leaves_update_manifest; intros m db Hm; unfold titled; simpl; by rewrite Hm.
Qed.
Lemma reconcile_body_title clock provenance owner : leaves (titled (D := D)) (reconcile_body clock provenance owner).
Proof.
  unfold reconcile_body, insert_event. leaves_auto; apply leaves_update_manifest; intros m db Hm; unfold titled; simpl; by rewrite Hm.
Qed.

Lemma mutation_plain owner run m : Forall (fun x => event_type x <> "session.created") (payloads owner run m).
Proof.
  destruct m as [input|input selection|records]; simpl; repeat constructor; try done. apply Forall_fmap, Forall_true. by intros [].
Qed.

Lemma records_pass p records :
  ps_title (foldl pass_payload p (record_payload <$> records)) = ps_title p /\
  ps_checkpoints (foldl pass_payload p (record_payload <$> records)) = ps_checkpoints p.
Proof.
  revert p. induction records as [|r records IH]; intros p; [done|]. rewrite fmap_cons. cbn [foldl]. destruct (IH (pass_payload p (record_payload r))) as [-> ->].
  by destruct r.
Qed.

Lemma mutate_body_passing clock provenance owner operation run mutation db receipt db' :
  clock_ok clock -> parse_id run = Ok run -> auditable (cp_session_id provenance) db -> sound db' ->
  (forall input selection d, mutation = AcceptHistory input selection ->
     prefix_digest (hs_through_sequence selection) [] db = Ok d -> hs_history_digest selection = d) ->
  mutate_body clock provenance owner operation run mutation db = (Ok (receipt, false), db') ->
  passing (cp_session_id provenance) db -> passing (cp_session_id provenance) db'.
Proof using laws digest rows.
  intros Hclock Hrun Hab Hs' Hhon Hb Hp. pose proof (ab_sound _ _ Hab) as Hs. pose proof (mutate_body_title _ _ _ _ _ _ _ _ _ Hb) as Ht.
  eapply wrote_passing; [by eapply mutate_body_wrote|done|done|apply mutation_plain|..]; intros p Hold.
  - rewrite Ht. destruct mutation; [done|done|]. simpl. by rewrite (proj1 (records_pass _ _)).
  - destruct mutation as [input|input selection|records]; [done| |simpl; by rewrite (proj2 (records_pass _ _))].
    simpl. apply Forall_app. split; [done|]. apply Forall_singleton.
    destruct (mutate_body_through _ _ _ _ _ _ _ _ _ _ Hs Hb) as (Hh & Hone & Hth).
    destruct (prefix_digest_vouched [] db Hs Hh Hone) as (d & Hd & Hv); [by eapply canonical_rows, Hab|done|].
    specialize (Hhon _ _ d eq_refl). rewrite Hth in *. by rewrite (Hhon Hd).
Qed.

(** What an inspection will look at. *)
Record inspectable (id : string) db : Prop := {
  is_auditable : auditable id db;
  is_commanded : commanded id db;
  is_passing : passing id db
}.

Lemma evolves_commanded id db db' : evolves db db' -> commands db' = commands db -> commanded id db -> commanded id db'.
Proof. intros Hev Hc Hold c Hin. rewrite Hc in Hin. by eapply command_fits_evolves, Hold. Qed.

Lemma wrote_selected id run db ps db' x :
  wrote id (Some run) db ps db' -> RunHistorySelected x ∈ ps -> exists r, r ∈ events db' /\ selected_at id run r.
Proof.
  intros (rows0 & He & Hs) Hx. apply list_elem_of_lookup in Hx as [i Hi]. destruct (Forall2_lookup_r _ _ _ _ _ Hs Hi) as (r & Hr & e & Hd & Hp & Hrun).
  exists r. split; [rewrite He; apply elem_of_app; right; by eapply list_elem_of_lookup_2|]. exists e, x. split; [done|]. split; [|done].
  pose proof (decode_event_Ok _ _ _ Hd) as (_ & _ & Hrid & _). congruence.
Qed.

Lemma attempt_inspectable provenance a db :
  attempt_typed a -> honest_attempt a db -> inspectable (cp_session_id provenance) db ->
  inspectable (cp_session_id provenance) (attempt provenance a db).
Proof using laws digest rows.
  intros Hty Hhon [Hab Hcm Hpa]. pose proof Hty as [[Hclock Hrun] Hop]. pose proof (ab_sound _ _ Hab) as Hs. split; [by apply attempt_auditable|..].
  - unfold attempt. destruct (at_request a) as [operation title|operation run mutation|];
      apply (transaction_keeps _ _ _ (commanded (cp_session_id provenance))); try done.
    + intros [receipt dup] db1 Hb. apply rename_body_spec in Hb as (q & _ & Hb); [|done]. destruct dup; [by destruct Hb as [-> _]|].
      by eapply performed_commanded.
    + intros [receipt dup] db1 Hb. pose proof Hb as Hspec. apply mutate_body_spec in Hspec as (q & _ & Hperf); [|done].
      destruct dup; [by destruct Hperf as [-> _]|]. eapply performed_commanded; [done|done|]. intros Hm. destruct mutation; [done| |done].
      split; [done|]. destruct (wrote_selected _ _ _ _ _ {| sel_run_id := run; sel_selection := selection |}
        (mutate_body_wrote _ _ _ _ _ _ _ _ _ Hs Hclock Hrun Hb)) as (r & Hr & Hsel); [right; by left|]. by exists run, r.
    + intros x db1 Hb. apply reconcile_body_spec in Hb as [_ [[_ ->]|(k & Hi)]]; [done| |done].
      eapply evolves_commanded; [apply (ext_evolves _ _ _ (ip_extended _ _ _ Hi))|apply Hi|done].
  - unfold attempt. unfold honest_attempt in Hhon. destruct (at_request a) as [operation title|operation run mutation|];
      apply (transaction_keeps _ _ _ (passing (cp_session_id provenance))); try done.
    + intros [receipt dup] db1 Hb. pose proof Hb as Hspec. apply rename_body_spec in Hspec as (q & _ & Hperf); [|done].
      destruct dup; [by destruct Hperf as [-> _]|]. eapply wrote_passing; [by eapply rename_body_wrote|apply (ext_sound _ _ _ (pf_extended _ _ _ _ _ _ _ _ _ Hperf))|done|by repeat constructor| |done].
      intros p _. by rewrite (rename_body_title _ _ _ _ _ _ _ Hs Hb).
    + intros [receipt dup] db1 Hb. pose proof Hb as Hspec. apply mutate_body_spec in Hspec as (q & _ & Hperf); [|done].
      destruct dup; [by destruct Hperf as [-> _]|].
      refine (mutate_body_passing _ _ _ _ _ _ _ _ _ Hclock Hrun Hab _ _ Hb Hpa).
      * apply (ext_sound _ _ _ (pf_extended _ _ _ _ _ _ _ _ _ Hperf)).
      * intros input selection d Heq. rewrite Heq in Hhon. by apply Hhon.
    + intros x db1 Hb. pose proof (reconcile_body_title _ _ _ _ _ _ Hb) as Ht. pose proof Hb as Hspec.
      apply reconcile_body_spec in Hspec as [_ [[_ ->]|(k & Hi)]]; [done| |done].
      apply reconcile_body_wrote in Hb as [->|(k' & q & _ & _ & Hw)]; [done| |done|done].
      eapply wrote_passing; [exact Hw|apply (ext_sound _ _ _ (ip_extended _ _ _ Hi))|done|by repeat constructor| |done]. intros p Hp. by rewrite Ht.
Qed.

Lemma attempts_inspectable provenance l db :
  Forall attempt_typed l -> honest provenance l db -> inspectable (cp_session_id provenance) db ->
  inspectable (cp_session_id provenance) (attempts provenance l db).
Proof using laws digest rows.
  intros Hl. revert db. induction Hl as [|a l Ha _ IH]; intros db Hh Hi; [done|]. destruct Hh as [Hh Hhs]. simpl. apply IH; [done|].
  by apply attempt_inspectable.
Qed.

Lemma created_inspectable provenance input workspace provenance_json json :
  parse_id (cp_creation_event_id provenance) = Ok (cp_creation_event_id provenance) ->
  provenance_request provenance = Ok input ->
  payload_to_json (SessionCreated {| cd_title := cs_title input; cd_workspace := cs_workspace input;
                                     cd_creation_provenance := provenance |}) = Some json ->
  inspectable (cp_session_id provenance) (created_db provenance input workspace provenance_json json).
Proof using laws.
  intros Hid Hr Hj. pose proof (created_auditable provenance input workspace provenance_json json Hid Hr Hj) as Hab. split; [done|..].
  - intros c Hc. by apply not_elem_of_nil in Hc.
  - set (db := created_db _ _ _ _ _) in *. assert (exists r, events db = [r]) as [r Hev] by (by eexists).
    destruct (ld_canonical _ _ (ab_ledger _ _ Hab) r) as (e & Hd & _); [rewrite Hev; by left|].
    pose proof (decode_event_Ok _ _ _ Hd) as (_ & Hsq & _ & Hpay & _). injection Hev as <-. simpl in Hsq, Hpay.
    rewrite (payload_round _ _ Hj : payload_from_json "session.created" _ = _) in Hpay. injection Hpay as Hpay.
    split. exists (pass_payload start (st_payload e)). subst db. simpl. rewrite Hd. rewrite pass_event_payload; [|done|done|done].
    rewrite <- Hpay. by split_and!.
Qed.

(** ** The inspection *)
Lemma latest_run_In l kr : latest_run l = Some kr -> In kr l.
Proof.
  revert kr. induction l as [|x l IH]; intros kr; simpl; [done|]. destruct (latest_run l) as [y|]; [|intros [= <-]; by left].
  destruct (_ <? _); intros [= <-]; [|by left]. right. by apply IH.
Qed.

Lemma inspectable_observed id db m :
  auditable id db -> user_version db = 3 -> validate_session id None db = Ok m ->
  exists s, observe id db = Ok s /\ su_manifest s = m /\ su_schema_version s = 3.
Proof.
  intros Hab Hu Hv. unfold observe. rewrite Hv. unfold session_version. rewrite Hu. cbn -[latest_run run_record parse_id map_to_list].
  destruct (latest_run _) as [[k row]|] eqn:Hl; [|by eexists].
  apply latest_run_In, list_elem_of_In, elem_of_map_to_list in Hl. rewrite (run_key _ _ _ _ Hab Hl). cbn [map_err].
  destruct (audited_fits _ _ _ _ Hab Hl) as (p & a & Hp & _). rewrite Hp. by eexists.
Qed.

Lemma validate_session_title id expected db m : validate_session id expected db = Ok m -> titled db = Some (sm_title m).
Proof.
  intros Hv. unfold validate_session in Hv. unfold titled. do 3 (destruct (negb _); [done|]). destruct (manifest db) as [row|]; [|done]. cbn [ok_or] in Hv.
  repeat match type of Hv with
         | (if ?b then Err _ else _) = _ => destruct b; [done|]
         | match ?x with Ok _ => _ | Err _ => _ end = Ok _ => destruct x as [?|]; [|done]
         end. by injection Hv as <-.
Qed.

Lemma inspectable_validates id db m s :
  inspectable id db -> validate_session id None db = Ok m -> su_manifest s = m -> su_schema_version s = 3 ->
  validate_history (Ok "ok") s db = Some (Ok tt).
Proof using laws digest rows.
  intros [Hab Hcm [(p & Hp & Hh & Ht & Hcs)]] Hv Hm Hver. pose proof (ab_sound _ _ Hab) as Hs.
  destruct (validate_session_head _ _ _ _ Hs Hv) as (row & Hrow & _ & Hhead & Hmhead & Hsz).
  pose proof (validate_session_id _ _ _ _ Hv) as Hid. pose proof (validate_session_title _ _ _ _ Hv) as Htm.
  unfold validate_history. rewrite Hm, Hid, Hver. cbv zeta. rewrite bool_decide_eq_true_2 by done. cbn [negb].
  rewrite (foreign_keys_hold _ _ Hab Hcm). cbn [negb]. fold start. rewrite Hp, Hh, Hmhead, Z.eqb_refl, Ht, Htm.
  rewrite bool_decide_eq_true_2 by done. cbn [negb orb].
  destruct (prefix_digest_vouched (ps_checkpoints p) db Hs) as (d & -> & _); [unfold headed; rewrite Hrow; simpl; by rewrite Hhead|lia|by eapply canonical_rows, Hab|done|].
  rewrite (visit_Ok _ _ ltb_irreflexive ltb_transitive).
  2: { intros c Hc. apply check_selected_holds; [done|done|]. by apply list_elem_of_In. }
  rewrite (projected_holds _ _ Hab). cbn [negb]. apply visit_Ok; [apply Z.ltb_irrefl|apply Zltb_transitive|].
  intros [k r] Hk. apply list_elem_of_In, elem_of_map_to_list in Hk. by apply check_run_holds.
Qed.
End attempted.
