(* ===== verification/Rebuilt.v ===== *)
(** * A lost catalog is rebuilt

    Every session that was made and worked on through the store, its selected histories
    named by their digests, passes the inspection of repair, so a repair that nothing
    refuses makes a lost catalog anew: it ends, and every session opens again. *)
From S2P Require Import Prelude Json Errors Identifiers Provider Tools Replay RunData Hoare Records Store History Session RunStore StoreSafety StoreCommands StoreGuarantees StoreContents Prefix RunAudit AuditWrites AuditKeeps AuditSessions Valid Catalog Creation CatalogFacts CreationSafety Stores Recovery Repair RepairFacts Repairs Inspected.

Section rebuild.
Context {D : Type} `{Display D} `{UuidLib} `{StorageSerde} {laws : StorageSerdeLaws} `{RowSerde} {digest : DigestLength}
  {rows : RowSerdeLaws} {typed_provenance : ProvenanceTyped}.
Implicit Types db : Db D.
Implicit Types files : gmap string (Db D).
Implicit Types c : Catalog.

(** A session that the store made as [made] and on which it made the attempts [l]. *)
Record worked (p : CreationProvenance) (made : Db D) (l : list Attempt) db : Prop := {
  wk_receipt : is_some (receipt_to_json (cp_receipt p)) = true;
  wk_event : parse_id (cp_creation_event_id p) = Ok (cp_creation_event_id p);
  wk_made : exists fate s db0, initialize fate p db0 = (Ok s, made);
  wk_typed : Forall attempt_typed l;
  wk_left : db = attempts p l made
}.

(** Nothing keeps repair from looking at a file. *)
Definition unhindered (i : Inspection) : Prop :=
  fa_path (ip_file i) = None /\ fa_open (ip_file i) = None /\ fa_reopen (ip_file i) = None /\ fa_read_close (ip_file i) = false /\
  ip_quick i = Ok "ok".

(** What looking at a whole file shows. *)
Record shown files (p : CreationProvenance) (s : SessionSummary) : Prop := {
  sw_inspect i : unhindered i -> inspect i (cp_session_id p) files = Some (Ok (s, p));
  sw_id : sm_session_id (su_manifest s) = cp_session_id p;
  sw_workspace : is_ok (workspace_to_json (sm_workspace (su_manifest s))) = true;
  sw_receipt : is_some (receipt_to_json (cp_receipt p)) = true;
  sw_hash : len (cp_payload_hash p) = 32;
  sw_head : 1 <= sm_head_sequence (su_manifest s) <= i64_max;
  sw_integer db row : files !! cp_session_id p = Some db -> manifest db = Some row -> mf_head_sequence row <= i64_max
}.

Lemma initialize_workspace fate provenance db s db' input :
  initialize fate provenance db = (Ok s, db') -> provenance_request provenance = Ok input ->
  validate_session (cp_session_id provenance) (Some provenance) db' = Ok s /\ is_ok (workspace_to_json (cs_workspace input)) = true.
Proof.
  intros Hi Hr. apply transaction_inv in Hi as [(e & ? & _)|(a & db1 & Hb & [[Ha ->]|[? _]])]; try done. injection Ha as ->.
  pose proof Hb as Ht. apply initialize_body_tables in Ht as (input' & w & pj & json & _ & _ & _ & Hv & _). split; [done|].
  unfold initialize_body in Hb. do 2 unbind Hb. unbind Hb. injection Hc1 as Hr' <-. assert (a2 = input) as -> by congruence.
  unbind Hb. injection Hc1 as Hw <-. by rewrite Hw.
Qed.

Lemma attempts_version provenance l db : user_version (attempts provenance l db) = user_version db.
Proof. revert db. induction l as [|a l IH]; intros db; simpl; [done|]. by rewrite IH, attempt_version. Qed.

Lemma worked_shown files p db1 l db : worked p db1 l db -> honest p l db1 -> files !! cp_session_id p = Some db -> exists s, shown files p s.
Proof using laws digest rows typed_provenance.
  intros [Hrec Hev (fate & s0 & db0 & Hi) Hl ->] Hh Hf.
  pose proof Hi as Ht. apply initialize_tables in Ht as (input & w & pj & json & Hdb & Hr & Hj).
  destruct (initialize_workspace _ _ _ _ _ _ Hi Hr) as [Hv Hws]. set (db := attempts p l db1) in *.
  assert (inspectable (cp_session_id p) db) as Hin.
  { apply attempts_inspectable; [done|done|]. rewrite Hdb. by apply created_inspectable. }
  assert (sound db1) as Hs1 by (rewrite Hdb; apply created_sound).
  assert (user_version db = 3) as Hu by (unfold db; rewrite attempts_version, Hdb; done).
  destruct (attempts_valid p l s0 db1 Hs1) as (m & Hm & Hmv); [|by exists s0|].
  { eapply Forall_impl; [exact Hl|]. by intros a [[Hc _] _]. }
  fold db in Hm. destruct (validate_session_expected _ _ _ _ Hm) as (Hm0 & row & Hrow & Hp).
  destruct (inspectable_observed _ _ _ (is_auditable _ _ Hin) Hu Hm0) as (s & Ho & Hsm & Hsv).
  destruct (validate_session_known _ _ _ _ _ Hm0 Hrow Hp) as (_ & _ & input' & Hr' & _ & Hw' & _).
  assert (input' = input) as -> by congruence. exists s. split.
  - intros i (I1 & I2 & I3 & I4 & I5). unfold inspect. rewrite I1, I2, I3, Hf. cbn [refuse ok_or]. rewrite Ho, Hrow. cbn [ok_or]. rewrite Hp. cbn [ok_or].
    rewrite I5, (inspectable_validates _ _ _ _ Hin Hm0 Hsm Hsv), I4. done.
  - rewrite Hsm. by apply validate_session_id in Hm0.
  - by rewrite Hsm, Hw'.
  - done.
  - by destruct (provenance_typed _ _ Hp) as (_ & _ & _ & ?).
  - rewrite Hsm. destruct (validate_session_head _ _ _ _ (ab_sound _ _ (is_auditable _ _ Hin)) Hm0) as (row' & _ & _ & _ & -> & Hsz). done.
  - intros db' row0 Hdb' Hrow0. rewrite Hf in Hdb'. injection Hdb' as <-.
    destruct (validate_session_head _ _ _ _ (ab_sound _ _ (is_auditable _ _ Hin)) Hm0) as (row' & Hrow' & _ & Hh' & _ & Hsz). assert (row0 = row') as -> by congruence. lia.
Qed.

(** ** The catalog while it is rebuilt *)
Section scan.
Context (repair_id : string).
Implicit Types F : list Finding.

(** The rows are those of what was found. *)
Record building F c : Prop := {
  bd_valid : validate_catalog c = Ok tt;
  bd_sessions k r : cat_sessions c !! k = Some r ->
    Some k ∈ found_id <$> F /\ ses_relative_path r = session_relative_path k /\ ses_availability r = "ready";
  bd_creations o r : cat_creations c !! o = Some r -> exists s p, Found s p ∈ F /\ cp_operation_id p = o /\ cre_session_id r = cp_session_id p
}.

Lemma session_fits F k r c :
  building F c -> Some k ∉ found_id <$> F -> 0 <= ses_head_sequence r -> ses_availability r = "ready" ->
  ses_relative_path r = session_relative_path k -> session_check k r c = true.
Proof.
  intros [_ Hs _] Hk Hh Ha Hp. unfold session_check. rewrite Ha, (proj2 (Z.leb_le _ _) Hh). simpl. apply forallb_forall.
  intros [k' r'] Hin. apply list_elem_of_In, elem_of_map_to_list in Hin. destruct (Hs _ _ Hin) as (Hk' & Hp' & _). simpl.
  rewrite Hp', Hp. destruct (bool_decide_reflect (k' = k)); [done|]. rewrite bool_decide_eq_false_2; [done|].
  intros Heq. by apply session_relative_path_inj in Heq.
Qed.

Lemma creation_fits o r c :
  len (cre_payload_hash r) = 32 -> cre_state r = "accepted" ->
  (forall o' r', cat_creations c !! o' = Some r' -> cre_session_id r' <> cre_session_id r) -> creation_check o r c = true.
Proof.
  intros Hh Hs Hu. unfold creation_check. rewrite Hh, Hs. simpl. apply forallb_forall. intros [o' r'] Hin.
  apply list_elem_of_In, elem_of_map_to_list in Hin. simpl. rewrite (bool_decide_eq_false_2 (cre_session_id r' = _)) by (by eapply Hu).
  by rewrite orb_true_r.
Qed.

(** Registering what was not there. *)
Lemma register_builds files F s p c :
  building F c -> shown files p s -> Some (cp_session_id p) ∉ found_id <$> F -> Some (cp_operation_id p) ∉ operation_of <$> F ->
  exists c', register_body repair_id s p c = (Ok tt, c') /\ building (F ++ [Found s p]) c'.
Proof.
  intros Hb [_ Hid Hws Hrec Hhash Hhead _] Hk Ho. pose proof Hb as [Hv Hs Hc].
  assert (cat_creations c !! cp_operation_id p = None) as Hnone.
  { destruct (cat_creations c !! cp_operation_id p) as [row|] eqn:Hrow; [|done]. destruct (Hc _ _ Hrow) as (s' & p' & Hin & Hop & _).
    destruct Ho. apply list_elem_of_fmap. exists (Found s' p'). by rewrite <- Hop. }
  destruct (workspace_to_json _) as [w|] eqn:Hw; [|done]. apply is_some_true in Hrec as [receipt Hrec].
  set (c1 := set_sessions (<[cp_session_id p := registered_session repair_id s w]> (cat_sessions c)) c).
  assert (forall o' r', cat_creations c !! o' = Some r' -> cre_session_id r' <> cp_session_id p) as Hother.
  { intros o' r' Hr'. destruct (Hc _ _ Hr') as (s' & p' & Hin & _ & ->). intros Heq. destruct Hk. apply list_elem_of_fmap.
    exists (Found s' p'). simpl. by rewrite Heq. }
  set (kept := filter (fun kr : string * CreationRow => negb (bool_decide (cre_session_id kr.2 = cp_session_id p))
                 || bool_decide (kr.1 = cp_operation_id p)) (cat_creations c)).
  exists (set_creations (<[cp_operation_id p := registered_creation p receipt]> kept) (set_creations kept c1)).
  split.
  - unfold register_body. unfold bind at 1. cbn [gets]. assert (rival repair_id p c = None) as -> by (unfold rival; by rewrite Hnone).
    unfold bind at 1. cbn [lift]. rewrite Hw. unfold bind at 1, upsert_session. unfold bind at 1, require_constraint. rewrite Hid.
    rewrite (session_fits F); [|done|done| |done|simpl; by rewrite Hid]; [|simpl; rewrite as_i64_small by lia; lia].
    cbn [modify]. fold c1. unfold bind at 1. cbn [modify]. unfold bind at 1. cbn [lift]. rewrite Hrec. cbn [ok_or].
    unfold upsert_creation, bind, require_constraint. rewrite creation_fits; [done|done|done|].
    intros o' r' Hr'. simpl in Hr'. apply map_lookup_filter_Some in Hr' as [Hr' _]. by eapply Hother.
  - split; [by rewrite <- Hv; apply validate_catalog_same|..].
    + intros k r Hr. simpl in Hr. rewrite fmap_app. apply lookup_insert_Some in Hr as [[<- <-]|[_ Hr]].
      * split_and!; [apply elem_of_app; right; by left|simpl; by rewrite Hid|done].
      * destruct (Hs _ _ Hr) as (? & ? & ?). split_and!; [apply elem_of_app; by left|done|done].
    + intros o r Hr. simpl in Hr. apply lookup_insert_Some in Hr as [[<- <-]|[_ Hr]].
      * exists s, p. split; [apply elem_of_app; right; by left|done].
      * apply map_lookup_filter_Some in Hr as [Hr _]. destruct (Hc _ _ Hr) as (s' & p' & Hin & ? & ?). exists s', p'.
        split; [apply elem_of_app; by left|done].
Qed.

(** ** A scan that nothing refuses *)
Definition calm_access (a : Access) : Prop :=
  ac_open a = None /\ ac_reopen a = None /\ ac_begin a = None /\ ac_fate a = Committed /\ ac_close_failed a = false.

Definition calm_child (ch : Child) : Prop :=
  match ch with Child_entry _ i a => unhindered i /\ calm_access a | Child_unreadable => False end.

Definition calm_bucket (b : Bucket) : Prop :=
  match b with
  | Bucket_entry name check _ children =>
      bucket_name (default "" name) = true -> check = None /\ exists l, children = Some l /\ Forall calm_child l
  | Bucket_unreadable => False
  end.

(** The sessions a scan lists, and how many entries it has. *)
Definition listed_child (prefix : string) (ch : Child) : option string :=
  match ch with
  | Child_entry name _ _ =>
      id ← name ≫= (fun n => match parse_id n with Ok id => Some id | Err _ => None end);
      if String.prefix prefix id then Some id else None
  | Child_unreadable => None
  end.

Definition listed_bucket (b : Bucket) : list string :=
  match b with
  | Bucket_entry name _ _ (Some l) => if bucket_name (default "" name) then omap (listed_child (default "" name)) l else []
  | _ => []
  end.

Definition bucket_entries (b : Bucket) : nat :=
  match b with
  | Bucket_entry name _ _ (Some l) => if bucket_name (default "" name) then length l else 1
  | _ => 1
  end.

Lemma calm_maintain {A} a (body : Cat A) c v c' :
  calm_access a -> validate_catalog c = Ok tt -> body c = (Ok v, c') -> maintain a body c = (Ok v, c').
Proof.
  intros (A1 & A2 & A3 & A4 & A5) Hv Hb. unfold maintain, connect_checked. rewrite A1, Hv. cbn [refuse].
  destruct (validated_meta c Hv) as (m & -> & H1m & _). simpl. rewrite H1m. simpl. rewrite andb_false_r, A2. cbn [refuse].
  unfold catalog_transaction, transaction. rewrite A3, A4, Hb. unfold finish_read. by rewrite A5.
Qed.

Lemma increment_small n : 0 <= n < u64_max -> increment_count n = Ok (n + 1).
Proof. intros Hn. unfold increment_count, checked_add_u64. by rewrite (proj2 (in_u64_spec _)) by lia. Qed.

Section listing.
Context (files : gmap string (Db D)) (prov : string -> CreationProvenance) (made : string -> Db D) (work : string -> list Attempt).
Hypothesis files_worked : forall id db, files !! id = Some db -> worked (prov id) (made id) (work id) db /\ cp_session_id (prov id) = id.
Hypothesis work_honest : forall id, is_some (files !! id) = true -> honest (prov id) (work id) (made id).
Hypothesis operations_distinct : forall id id', is_some (files !! id) = true -> is_some (files !! id') = true ->
  cp_operation_id (prov id) = cp_operation_id (prov id') -> id = id'.
#[local] Set Default Proof Using "Type laws digest rows typed_provenance files_worked work_honest operations_distinct".

(** After the sessions [ids]. *)
Record gathered (ids : list string) F c : Prop := {
  ga_building : building F c;
  ga_found : found_id <$> F = Some <$> ids;
  ga_operations : operation_of <$> F = (fun id => Some (cp_operation_id (prov id))) <$> ids;
  ga_files : Forall (fun id => is_some (files !! id) = true) ids;
  ga_shown : Forall (fun f => exists s p, f = Found s p /\ p = prov (cp_session_id p)) F
}.

Lemma register_gathers ids F c id i a :
  gathered ids F c -> is_some (files !! id) = true -> id ∉ ids -> unhindered i -> calm_access a ->
  exists s c', inspect i id files = Some (Ok (s, prov id)) /\ register a repair_id s (prov id) c = (Ok tt, c') /\
    gathered (ids ++ [id]) (F ++ [Found s (prov id)]) c'.
Proof.
  intros [Hb Hf Ho Hfi Hsh] Hid Hnew Hi Ha. pose proof (work_honest _ Hid) as Hh. apply is_some_true in Hid as [db Hdb]. destruct (files_worked _ _ Hdb) as [Hw Hse].
  destruct (worked_shown files (prov id) _ _ db Hw Hh) as [s Hs]; [by rewrite Hse|].
  destruct (register_builds files F s (prov id) c Hb Hs) as (c' & Hr & Hb').
  - rewrite Hse, Hf. intros Hin. apply list_elem_of_fmap in Hin as (x & [= <-] & Hin). done.
  - rewrite Ho. intros Hin. apply list_elem_of_fmap in Hin as (x & [= Hx] & Hin). rewrite Forall_forall in Hfi.
    assert (id = x) as ->; [|done]. apply operations_distinct; [by rewrite Hdb|by apply Hfi|done].
  - exists s, c'. split; [rewrite <- Hse; rewrite Hse; pose proof (sw_inspect _ _ _ Hs i Hi) as Hx; by rewrite Hse in Hx|].
    split; [apply calm_maintain; [done|apply Hb|done]|]. split; [done|..].
    + rewrite !fmap_app, Hf. simpl. by rewrite Hse.
    + by rewrite !fmap_app, Ho.
    + apply Forall_app. split; [done|]. apply Forall_singleton. by rewrite Hdb.
    + apply Forall_app. split; [done|]. apply Forall_singleton. exists s, (prov id). by rewrite Hse.
Qed.

Lemma scan_children_gathers prefix l : forall ids F n k c,
  gathered ids F c -> Forall calm_child l -> NoDup (ids ++ omap (listed_child prefix) l) ->
  (forall id, id ∈ omap (listed_child prefix) l -> is_some (files !! id) = true) ->
  0 <= n -> 0 <= k -> n + k + Z.of_nat (length l) <= u64_max ->
  exists k' c', let n' := n + Z.of_nat (length (omap (listed_child prefix) l)) in
    scan_children repair_id prefix files n k l c = (Ok (n', k'), c') /\
    gathered (ids ++ omap (listed_child prefix) l) (F ++ child_findings prefix files l) c' /\
    0 <= k' /\ n' + k' = n + k + Z.of_nat (length l).
Proof.
  induction l as [|ch l IH]; intros ids F n k c Hg Hcalm Hnd Hin Hn Hk Hmax.
  { exists k, c. simpl. rewrite !app_nil_r, !Z.add_0_r. by split_and!. }
  apply Forall_cons in Hcalm as [Hch Hcalm]. destruct ch as [|name i a]; [done|]. destruct Hch as [Hi Ha]. simpl length in Hmax. rewrite Nat2Z.inj_succ in Hmax.
  cbn [scan_children child_findings omap list_omap listed_child] in *. destruct (name ≫= _) as [id|]; cbn [mbind option_bind] in *; swap 1 2.
  { unfold bind at 1. cbn [lift]. rewrite increment_small by lia. destruct (IH ids F n (k + 1) c) as (k' & c' & Hr); [done..|lia|lia|lia|].
    exists k', c'. cbv zeta in Hr |- *. simpl length. rewrite Nat2Z.inj_succ. destruct Hr as (-> & ? & ? & ?). split_and!; try done. lia. }
  destruct (String.prefix prefix id) eqn:Hp; cbn [negb] in *; swap 1 2.
  { unfold bind at 1. cbn [lift]. rewrite increment_small by lia. destruct (IH ids F n (k + 1) c) as (k' & c' & Hr); [done..|lia|lia|lia|].
    exists k', c'. cbv zeta in Hr |- *. simpl length. rewrite Nat2Z.inj_succ. destruct Hr as (-> & ? & ? & ?). split_and!; try done. lia. }
  destruct (register_gathers ids F c id i a) as (s & c1 & Hlook & Hreg & Hg1); [done|apply Hin; by left| |done|done|].
  { intros Hold. apply NoDup_app in Hnd as (_ & Hnd & _). apply (Hnd id Hold). by left. }
  rewrite Hlook. unfold bind at 1. rewrite Hreg. unfold bind at 1. cbn [lift]. rewrite increment_small by lia.
  destruct (IH (ids ++ [id]) (F ++ [Found s (prov id)]) (n + 1) k c1) as (k' & c' & Hr); [done|done|by rewrite <- app_assoc| |lia|lia|lia|].
  { intros id' Hid'. apply Hin. by right. }
  exists k', c'. cbv zeta in Hr |- *. destruct Hr as (Hsc & Hg' & Hk' & Hsum). rewrite <- !app_assoc in Hg'. simpl length in *. rewrite !Nat2Z.inj_succ.
  split_and!; [|exact Hg'|done|lia]. rewrite Hsc.
  assert (n + 1 + Z.of_nat (length (omap (listed_child prefix) l)) = n + Z.succ (Z.of_nat (length (omap (listed_child prefix) l)))) as -> by lia. done.
Qed.

Lemma scan_buckets_gathers l : forall ids F n k c,
  gathered ids F c -> Forall calm_bucket l -> NoDup (ids ++ (l ≫= listed_bucket)) ->
  (forall id, id ∈ l ≫= listed_bucket -> is_some (files !! id) = true) ->
  0 <= n -> 0 <= k -> n + k + Z.of_nat (sum_list_with bucket_entries l) <= u64_max ->
  exists k' c', let n' := n + Z.of_nat (length (l ≫= listed_bucket)) in
    scan_buckets repair_id files n k l c = (Ok (n', k'), c') /\
    gathered (ids ++ (l ≫= listed_bucket)) (F ++ bucket_findings files l) c'.
Proof.
  induction l as [|b l IH]; intros ids F n k c Hg Hcalm Hnd Hin Hn Hk Hmax.
  { exists k, c. simpl. rewrite !app_nil_r, !Z.add_0_r. by split_and!. }
  apply Forall_cons in Hcalm as [Hb Hcalm]. destruct b as [|name check reject children]; [done|]. rewrite bind_cons in *.
  cbn [sum_list_with] in Hmax. cbn [scan_buckets bucket_findings listed_bucket] in *. simpl in Hb.
  destruct (bucket_name (default "" name)) eqn:Hname; cbn [negb] in *; swap 1 2.
  { assert (match children with Some _ => [] | None => [] end = [] :> list string) as Hnil by (by destruct children). rewrite Hnil in *.
    unfold bind at 1. cbn [lift]. simpl in Hmax. rewrite Hname in Hmax. rewrite increment_small by (destruct children; lia).
    destruct (IH ids F n (k + 1) c) as (k' & c' & Hr); [done|done|done|done|done|lia|destruct children; lia|]. by exists k', c'. }
  destruct (Hb eq_refl) as (-> & children' & -> & Hch). simpl in Hmax. rewrite Hname in Hmax. unfold bind at 1.
  rewrite app_assoc in Hnd. pose proof Hnd as Hnd1. apply NoDup_app in Hnd1 as (Hnd1 & _ & _).
  destruct (scan_children_gathers (default "" name) children' ids F n k c) as (k1 & c1 & Hr); [done|done|done| |done|done|lia|].
  { intros id Hid. apply Hin, elem_of_app. by left. }
  cbv zeta in Hr. destruct Hr as (-> & Hg1 & Hk1 & Hsum). cbn [fst snd].
  destruct (IH _ _ (n + Z.of_nat (length (omap (listed_child (default "" name)) children'))) k1 c1 Hg1) as (k' & c' & Hr); [done|done| |lia|done|lia|].
  { intros id Hid. apply Hin, elem_of_app. by right. }
  exists k', c'. cbv zeta in Hr |- *. destruct Hr as (Hsc & Hg'). rewrite Hsc, length_app, Nat2Z.inj_add, Z.add_assoc. split; [done|].
  by rewrite <- !app_assoc in Hg'.
Qed.

(** The end of the scan. *)
Lemma finish_gathered ids F c n k :
  gathered ids F c -> exists report c', finish_body repair_id n k c = (Ok report, c') /\ rp_scanned_sessions report = n.
Proof.
  intros Hg. assert (validate_creating_reservations c = Some (Ok tt)) as Hv.
  { unfold validate_creating_reservations. assert (List.filter (fun kr : string * SessionRow => being_created c kr.1 kr.2) (map_to_list (cat_sessions c)) = []) as ->; [|done].
    assert (forall l, (forall kr, kr ∈ l -> ses_availability kr.2 = "ready") ->
      List.filter (fun kr : string * SessionRow => being_created c kr.1 kr.2) l = []) as Hnil.
    { induction l as [|[k0 r] l IH]; intros Hl; [done|]. cbn [List.filter]. unfold being_created at 1. pose proof (Hl (k0, r) ltac:(by left)) as Hr. simpl in Hr |- *. rewrite Hr.
      simpl. apply IH. intros kr Hkr. apply Hl. by right. }
    apply Hnil. intros [k0 r] Hkr. apply elem_of_map_to_list in Hkr. by apply (bd_sessions _ _ (ga_building _ _ _ Hg)) in Hkr as (_ & _ & ?). }
  unfold finish_body. unfold bind at 1, reads. rewrite Hv. unfold bind at 1. cbn [update_sessions modify]. unfold bind at 1. cbn [gets].
  unfold bind at 1. cbn [set_mark modify]. by eexists _, _.
Qed.
End listing.
End scan.

Lemma omap_some {A B} (f : A -> option B) (l : list A) (ids : list B) : f <$> l = Some <$> ids -> omap f l = ids.
Proof.
  revert ids. induction l as [|x l IH]; intros [|y ids] He; try done. injection He as Hx He. simpl. rewrite Hx. f_equal. by apply IH.
Qed.

Lemma gathered_orderly files prov ids F c : gathered files prov ids F c -> NoDup ids -> orderly F.
Proof.
  intros Hg Hnd. split; [by rewrite (omap_some _ _ _ (ga_found _ _ _ _ _ Hg))|]. intros prefix s p Hin _ _.
  apply (list_elem_of_fmap_2 found_id) in Hin. rewrite (ga_found _ _ _ _ _ Hg) in Hin. apply list_elem_of_fmap in Hin as (x & Hx & _). done.
Qed.

Lemma gathered_uncontested files prov ids F c creations s p :
  gathered files prov ids F c ->
  (forall id id', is_some (files !! id) = true -> is_some (files !! id') = true ->
     cp_operation_id (prov id) = cp_operation_id (prov id') -> id = id') -> Found s p ∈ F -> ~ drawn creations F p.
Proof.
  intros Hg Hdi Hin Hd.
  assert (forall s0 p0, Found s0 p0 ∈ F -> is_some (files !! cp_session_id p0) = true /\ p0 = prov (cp_session_id p0)) as Hof.
  { intros s0 p0 Hi0. pose proof (ga_shown _ _ _ _ _ Hg) as Hsh. rewrite Forall_forall in Hsh. destruct (Hsh _ Hi0) as (? & ? & [= <- <-] & Hp).
    split; [|done]. pose proof (ga_files _ _ _ _ _ Hg) as Hf. rewrite Forall_forall in Hf. apply Hf.
    apply (list_elem_of_fmap_2 found_id) in Hi0. rewrite (ga_found _ _ _ _ _ Hg) in Hi0. by apply list_elem_of_fmap in Hi0 as (x & [= <-] & ?). }
  refine (drawn_nobody creations F p _ Hd s Hin). intros s1 p1 s2 p2 Hi1 Hi2 Hop.
  destruct (Hof _ _ Hi1) as [Hf1 Hp1], (Hof _ _ Hi2) as [Hf2 Hp2]. apply Hdi; [done|done|]. by rewrite <- Hp1, <- Hp2.
Qed.

Lemma worked_integers files prov made work :
  (forall id db, files !! id = Some db -> worked (prov id) (made id) (work id) db /\ cp_session_id (prov id) = id) ->
  (forall id, is_some (files !! id) = true -> honest (prov id) (work id) (made id)) -> stored_integers files.
Proof using laws digest rows typed_provenance.
  intros Hf Hh id db row Hdb Hrow. destruct (Hf _ _ Hdb) as [Hw Hid].
  destruct (worked_shown files (prov id) _ _ db Hw) as [s Hs]; [apply Hh; by rewrite Hdb|by rewrite Hid|].
  eapply (sw_integer _ _ _ Hs); [by rewrite Hid|done].
Qed.

(** A scan that nothing refuses. *)
Record calm_scan (scan : Scan) (l : list Bucket) : Prop := {
  cn_intent : calm_access (sn_intent scan);
  cn_directories : sn_directories scan = None;
  cn_buckets : sn_buckets scan = Some l;
  cn_each : Forall calm_bucket l;
  cn_finish : calm_access (sn_finish scan);
  cn_entries : Z.of_nat (sum_list_with bucket_entries l) <= u64_max
}.

(** C21. A lost catalog is rebuilt.  Take an empty catalog and any session files that
    the store made and worked on, with any fates of any commands, in which every run
    accepted with a selected history named the digest that the log had then.  A repair
    that nothing refuses, over a scan that lists every file once, ends; it reports as
    many sessions as there are files; and every session opens again, for reading and
    for writing, under the creation that made it. *)
Theorem catalog_rebuilt scan l repair_id files prov made work c w writable :
  calm_scan scan l -> validate_catalog c = Ok tt -> cat_sessions c = ∅ -> cat_creations c = ∅ ->
  (forall id db, files !! id = Some db -> worked (prov id) (made id) (work id) db /\ cp_session_id (prov id) = id) ->
  (forall id, is_some (files !! id) = true -> honest (prov id) (work id) (made id)) ->
  (forall id id', is_some (files !! id) = true -> is_some (files !! id') = true ->
     cp_operation_id (prov id) = cp_operation_id (prov id') -> id = id') ->
  NoDup (l ≫= listed_bucket) -> (forall id, id ∈ l ≫= listed_bucket <-> is_some (files !! id) = true) -> calm w ->
  exists report c', repair scan repair_id files c = (Ok report, c') /\
    rp_scanned_sessions report = Z.of_nat (length (l ≫= listed_bucket)) /\
    forall id, is_some (files !! id) = true -> connection w id writable (mkDisk c' files) = Ok (prov id).
Proof using laws digest rows typed_provenance.
  intros [C1 C2 C3 C4 C5 C6] Hv Hse Hcr Hf Hh Hdi Hnd Hli Hw. set (c0 := set_meta (marked 1 <$> cat_meta c) c).
  assert (gathered files prov [] [] c0) as Hg0.
  { split; [|done|done|constructor|constructor]. split; [by apply marked_valid; [right|]|..].
    - intros k r Hr. simpl in Hr. by rewrite Hse, lookup_empty in Hr.
    - intros k r Hr. simpl in Hr. by rewrite Hcr, lookup_empty in Hr. }
  destruct (scan_buckets_gathers repair_id files prov made work Hf Hh Hdi l [] [] 0 0 c0) as (k & c1 & Hsc & Hg); [done|done|done|by apply Hli|lia|lia|lia|].
  simpl in Hg. rewrite Z.add_0_l in Hsc. set (ids := l ≫= listed_bucket) in *. set (n := Z.of_nat (length ids)) in *.
  destruct (finish_gathered repair_id files prov made work Hf Hh Hdi ids _ c1 n k Hg) as (report & c2 & Hfin & Hrep). exists report, c2.
  assert (repair scan repair_id files c = (Ok report, c2)) as Hr.
  { unfold repair. unfold bind at 1. unfold set_intent. rewrite (calm_maintain _ (set_mark 1) c tt c0); [|done|done|done].
    unfold bind at 1. cbn [lift]. rewrite C2, C3. cbn [refuse]. unfold bind at 1. rewrite Hsc. cbn [fst snd].
    apply calm_maintain; [done|apply Hg|done]. }
  split; [done|]. split; [done|]. intros id Hid. pose proof Hid as Hin. rewrite <- Hli in Hin.
  assert (findings scan files = bucket_findings files l) as Hfi by (unfold findings; by rewrite C3).
  assert (exists s, Found s (prov id) ∈ findings scan files) as (s & Hfound).
  { apply (list_elem_of_fmap_2 Some) in Hin. rewrite <- (ga_found _ _ _ _ _ Hg) in Hin. apply list_elem_of_fmap in Hin as (f & Hx & Hin).
    pose proof (ga_shown _ _ _ _ _ Hg) as Hsh. rewrite Forall_forall in Hsh. destruct (Hsh f Hin) as (s & p & -> & Hp). injection Hx as Hx.
    exists s. rewrite Hfi, Hx, <- Hp. done. }
  assert (cp_session_id (prov id) = id) as Heq by (apply is_some_true in Hid as [db Hdb]; by apply (Hf _ _ Hdb)).
  rewrite <- Heq at 1. eapply (repaired_opens scan repair_id files c report c2 s (prov id)); [exact Hr|..|exact Hfound| |done].
  - intros k' r Hk'. by rewrite Hse, lookup_empty in Hk'.
  - rewrite Hfi. by eapply gathered_orderly.
  - by eapply worked_integers.
  - rewrite Hfi in Hfound |- *. by eapply gathered_uncontested.
Qed.
End rebuild.
