(* ===== verification/RepairExamples.v ===== *)
(** * Repairs of a lost catalog

    A store whose catalog was lost, with one whole session file; one in which two files
    claim the same creation, beside a third that they do not concern; the third under a
    stale row that draws it in; and a file whose selected history has a digest that its
    log has not. *)
From S2P Require Import Prelude Json Errors Identifiers Provider Tools Replay RunData Hoare Records Store History Session RunStore StoreSafety StoreCommands StoreGuarantees StoreContents Prefix StoreExamples RunAudit AuditWrites AuditKeeps AuditSessions Valid Catalog Creation CatalogFacts CreationSafety Stores Recovery Repair RepairFacts Repairs Inspected Rebuilt.

(** * The audit on a concrete session

    The session of StoreExamples after its story: what the audit says of it, and the
    hypotheses of the audit's claims there. *)

#[local] Existing Instance example_uuid.

Lemma story_typed : Forall attempt_typed story.
Proof.
  repeat (apply Forall_cons; split;
    [split; [split; [apply clock_is_ok | try exact I; vm_compute; reflexivity] | try exact I; vm_compute; reflexivity]|]).
  constructor.
Qed.

Definition final : Db unit := attempts provenance story db1.

Lemma db1_initialized : exists s, initialize Committed provenance blank = (Ok s, db1).
Proof.
  assert (is_ok (fst (initialize Committed provenance blank)) = true) as Hok by (vm_compute; reflexivity).
  unfold db1. destruct (initialize Committed provenance blank) as [[s|] db]; [|done]. by exists s.
Qed.

Lemma final_auditable : auditable (cp_session_id provenance) final.
Proof.
  apply (attempts_auditable provenance); [apply story_typed|]. rewrite db1_created.
  apply created_auditable; vm_compute; reflexivity.
Qed.

(** The same log and runs, but every receipt lost. *)
Definition lost (db : Db unit) : Db unit := set_commands [] db.
Definition bare : Db unit := lost final.

Lemma lost_same db : (typed db -> typed (lost db)) /\ events db = events (lost db).
Proof. done. Qed.

Lemma audit_determines_witness :
  validate_run sid rid final <> None /\
  (exists r1 r2, runs final !! rid = Some r1 /\ runs bare !! rid = Some r2 /\ run_columns r1 = run_columns r2).
Proof.
  pose proof (ab_ledger _ _ final_auditable) as Hled.
  destruct (audit_determines sid rid final bare (ld_log _ _ Hled) (ld_typed _ _ Hled)
    (proj1 (lost_same final) (ld_typed _ _ Hled)) (proj2 (lost_same final))) as [Hend Hsame].
  split; [exact Hend|]. apply Hsame; vm_compute; reflexivity.
Defined.

Lemma commands_audited_witness : validate_run sid rid (attempts provenance story db1) = Some (Ok tt).
Proof.
  destruct db1_initialized as [s Hs].
  apply (commands_audited Committed provenance story blank s db1 rid Hs);
    [vm_compute; reflexivity | apply story_typed | vm_compute; reflexivity].
Defined.

(** An acceptance with a selected history whose commit is reported unknown, a take-over
    by the other process and a rename; then the other process tries the acceptance
    again. *)
Definition tried (fate : Fate) (owner : string) : Attempt := run_attempt (Mutate op1 rid (AcceptHistory input selection)) owner fate.
Definition after_tried : list Attempt := [run_attempt Reconcile owner2 Committed; run_attempt (Rename op3 "second") owner2 Committed].

Lemma tried_typed : Forall attempt_typed (tried Unknown_kept owner1 :: after_tried).
Proof.
  repeat (apply Forall_cons; split;
    [split; [split; [apply clock_is_ok | try exact I; vm_compute; reflexivity] | try exact I; vm_compute; reflexivity]|]).
  constructor.
Qed.

Lemma tried_changes : attempt provenance (tried Unknown_kept owner1) db1 <> db1.
Proof. apply size_differs. vm_compute. reflexivity. Qed.

Lemma creation_event_canonical : parse_id (cp_creation_event_id provenance) = Ok (cp_creation_event_id provenance).
Proof. vm_compute. reflexivity. Qed.

Lemma tried_command : at_request (tried Unknown_kept owner1) <> Reconcile.
Proof. discriminate. Qed.

Lemma retry_returns_receipt_witness :
  let db := attempt provenance (tried Unknown_kept owner1) db1 in
  let later := attempts provenance after_tried db in
  attempt provenance (tried Committed owner2) later = later /\
  exists r, attempt_answer provenance (tried Committed owner2) later = Some (Ok (r, true)) /\ rc_first_sequence r = 2 /\ rc_last_sequence r = 3 /\ size later = 5.
Proof.
  destruct db1_initialized as [s Hs].
  destruct (retry_returns_receipt Committed provenance [] blank s db1 (tried Unknown_kept owner1) after_tried (tried Committed owner2) Hs
    creation_event_canonical tried_typed tried_command eq_refl eq_refl tried_changes) as (Hd & r & Hr & Hfst & Hlst & _).
  split; [exact Hd|]. exists r. split; [exact Hr|]. split; [exact Hfst|]. split; [rewrite Hlst|]; vm_compute; reflexivity.
Defined.

(** The audit refuses a run whose state was turned back. *)
Definition turned (r : RunRow) : RunRow := {|
  run_accepted_sequence := run_accepted_sequence r; run_state := "running";
  run_last_runtime_sequence := run_last_runtime_sequence r; run_owner_instance_id := run_owner_instance_id r;
  run_provider_session_id := run_provider_session_id r; run_terminal_sequence := None;
  run_terminal_json := None; run_result_sequence := None |}.

Example turned_back : validate_run sid rid (set_runs (turned <$> runs final) final) = Some (Err integrity).
Proof. vm_compute. reflexivity. Qed.

#[local] Existing Instance example_uuid.

(** A second creation that claims the same operation. *)
Definition sid2 : string := "01234567-89ab-1cde-8fab-000000000003".
Definition provenance2 : CreationProvenance := {|
  cp_operation_id := op3; cp_method := "create_session"; cp_request_json := "request";
  cp_payload_hash := digest32 "request"; cp_session_id := sid2;
  cp_creation_event_id := "01234567-89ab-1cde-8fab-000000000301"; cp_created_at_ms := 950;
  cp_receipt := {| rc_operation_id := op3; rc_session_id := sid2; rc_run_id := None;
                   rc_first_sequence := 1; rc_last_sequence := 1 |}
|}.

(** A third, with an operation of its own. *)
Definition sid3 : string := "01234567-89ab-1cde-8fab-000000000004".
Definition op4 : string := "01234567-89ab-1cde-8fab-000000000014".
Definition provenance3 : CreationProvenance := {|
  cp_operation_id := op4; cp_method := "create_session"; cp_request_json := "request";
  cp_payload_hash := digest32 "request"; cp_session_id := sid3;
  cp_creation_event_id := "01234567-89ab-1cde-8fab-000000000401"; cp_created_at_ms := 960;
  cp_receipt := {| rc_operation_id := op4; rc_session_id := sid3; rc_run_id := None;
                   rc_first_sequence := 1; rc_last_sequence := 1 |}
|}.

(** A selection with the digest of nothing. *)
Definition forged : StoredHistorySelection := {|
  hs_policy := hs_policy selection; hs_through_sequence := hs_through_sequence selection;
  hs_history_digest := hex (digest32 "");
  hs_provider_id := hs_provider_id selection; hs_requested_model := hs_requested_model selection;
  hs_expected_identity := hs_expected_identity selection |}.

Definition repair_provenances : list (string * CreationProvenance) :=
  [("provenance", provenance); ("provenance2", provenance2); ("provenance3", provenance3)].
Definition repair_payloads : list (string * StoredEventPayload) :=
  ("created2", SessionCreated {| cd_title := "first"; cd_workspace := Some "/w"; cd_creation_provenance := provenance2 |}) ::
  ("created3", SessionCreated {| cd_title := "first"; cd_workspace := Some "/w"; cd_creation_provenance := provenance3 |}) ::
  ("forged", RunHistorySelected {| sel_run_id := rid; sel_selection := forged |}) :: payload_table.
Definition repair_receipts : list (string * CommitReceipt) := 
  [("c1", cp_receipt provenance); ("c2", cp_receipt provenance2); ("c3", cp_receipt provenance3)] ++ receipt_table.

#[local] Instance repair_serde : StorageSerde := table_serde_of repair_provenances repair_payloads repair_receipts.
#[local] Instance repair_laws : @StorageSerdeLaws repair_serde.
Proof. apply table_serde_of_laws; apply (bool_decide_unpack _); vm_compute; reflexivity. Qed.
#[local] Instance repair_typed : @ProvenanceTyped example_uuid repair_serde.
Proof.
  split. intros t p Hp. cbn [provenance_from_json repair_serde table_serde_of] in Hp. unfold decode in Hp.
  destruct (find _ repair_provenances) as [[u q]|] eqn:Hf; [|done]. injection Hp as <-. apply find_some in Hf as [Hin _].
  destruct Hin as [[= <- <-]|[[= <- <-]|[[= <- <-]|[]]]]; vm_compute; done.
Qed.

Definition session_file (p : CreationProvenance) : Db unit := snd (initialize Committed p blank).

(** The catalog that is made when one was lost. *)
Definition lost_catalog : Catalog := snd (initialize_catalog Committed true blank_catalog).

Definition quiet : Access := {| ac_open := None; ac_reopen := None; ac_begin := None; ac_fate := Committed; ac_close_failed := false |}.
Definition unrefused : FileAccess :=
  {| fa_path := None; fa_open := None; fa_left := false; fa_read_close := false; fa_reopen := None; fa_fate := Committed;
     fa_close_failed := false |}.
Definition looked : Inspection := {| ip_file := unrefused; ip_quick := Ok "ok" |}.
Definition child (id : string) : Child := Child_entry (Some id) looked quiet.

(** A scan of the bucket of both sessions, with an entry that is none. *)
Definition scan_of (ids : list string) (finish : Access) : Scan := {|
  sn_intent := quiet; sn_directories := None;
  sn_buckets := Some [Bucket_entry (Some "tmp") None quiet None;
                      Bucket_entry (Some "01") None quiet (Some (Child_entry (Some "lost+found") looked quiet :: map child ids))];
  sn_finish := finish |}.

Definition scan_id : string := "01234567-89ab-1cde-8fab-000000000901".

Definition one_file : gmap string (Db unit) := {[ sid := session_file provenance ]}.
Definition two_files : gmap string (Db unit) := <[sid2 := session_file provenance2]> one_file.
Definition three_files : gmap string (Db unit) := <[sid3 := session_file provenance3]> two_files.

Definition fair : Weather :=
  {| we_access := quiet; we_fresh := {| fr_session := sid; fr_event := sid; fr_now := Ok 0 |}; we_file := unrefused |}.
Lemma fair_is_calm : calm fair.
Proof. done. Qed.

Definition found_summary (p : CreationProvenance) : SessionSummary :=
  {| su_manifest := {| sm_session_id := cp_session_id p; sm_title := "first"; sm_workspace := Some "/w";
       sm_created_at_ms := cp_created_at_ms p; sm_updated_at_ms := cp_created_at_ms p; sm_head_sequence := 1 |};
     su_schema_version := 3; su_availability := SessionAvailability.Ready; su_fault_code := None;
     su_last_run_id := None; su_last_run_state := None |}.

Lemma one_found : findings (scan_of [sid] quiet) one_file = [Found (found_summary provenance) provenance].
Proof. vm_compute. reflexivity. Qed.
Lemma two_found : findings (scan_of [sid; sid2] quiet) two_files =
  [Found (found_summary provenance) provenance; Found (found_summary provenance2) provenance2].
Proof. vm_compute. reflexivity. Qed.
Lemma three_found : findings (scan_of [sid; sid2; sid3] quiet) three_files =
  [Found (found_summary provenance) provenance; Found (found_summary provenance2) provenance2;
   Found (found_summary provenance3) provenance3].
Proof. vm_compute. reflexivity. Qed.

Lemma three_orderly : orderly (findings (scan_of [sid; sid2; sid3] quiet) three_files).
Proof.
  rewrite three_found. split; [apply (bool_decide_unpack _); vm_compute; reflexivity|].
  intros prefix s p Hr. do 2 (apply elem_of_cons in Hr as [?|Hr]; [done|]). by apply list_elem_of_singleton in Hr.
Qed.

(** No other file claims the creation of the third. *)
Lemma three_apart s p : Found s p ∈ findings (scan_of [sid; sid2; sid3] quiet) three_files -> cp_operation_id p = op4 -> cp_session_id p = sid3.
Proof.
  rewrite three_found. intros Hin Hop. apply elem_of_cons in Hin as [[= -> ->]|Hin]; [done|].
  apply elem_of_cons in Hin as [[= -> ->]|Hin]; [done|]. by apply list_elem_of_singleton in Hin as [= -> ->].
Qed.

Lemma three_undrawn : ~ drawn ∅ (findings (scan_of [sid; sid2; sid3] quiet) three_files) provenance3.
Proof. inversion 1 as [s p p' Hin Hop Hne|row s p p' Hrow]; [by apply Hne, (three_apart s p')|done]. Qed.

Lemma three_integers : stored_integers three_files.
Proof.
  intros id db row Hdb Hrow. unfold three_files, two_files, one_file in Hdb. apply lookup_insert_Some in Hdb as [[<- <-]|[_ Hdb]].
  { vm_compute in Hrow. by injection Hrow as <-. }
  apply lookup_insert_Some in Hdb as [[<- <-]|[_ Hdb]]; [|apply lookup_singleton_Some in Hdb as [<- <-]];
    vm_compute in Hrow; by injection Hrow as <-.
Qed.

(** A catalog in which a row gives the creation of the third file to the second. *)
Definition stale_row : CreationRow := {|
  cre_payload_hash := cp_payload_hash provenance3; cre_request_json := cp_request_json provenance3; cre_session_id := sid2;
  cre_creation_event_id := cp_creation_event_id provenance3; cre_created_at_ms := cp_created_at_ms provenance3;
  cre_state := "accepted"; cre_receipt_json := Some "c3"; cre_failure_code := None |}.
Definition stale_catalog : Catalog := set_creations {[ op4 := stale_row ]} lost_catalog.

Definition three_repaired := repair (scan_of [sid; sid2; sid3] quiet) scan_id three_files lost_catalog.
Definition stale_repaired := repair (scan_of [sid; sid2; sid3] quiet) scan_id three_files stale_catalog.

(** The conflict of two files leaves the stale row of the second in place, so a repair
    that ends keeps the third shut, although no other file claims its creation. *)
Example stale_row_draws :
  is_ok (fst stale_repaired) = true /\
  (forall s p, Found s p ∈ findings (scan_of [sid; sid2; sid3] quiet) three_files -> cp_operation_id p = op4 -> cp_session_id p = sid3) /\
  ses_fault_code <$> cat_sessions (snd stale_repaired) !! sid3 = Some (Some "storage.command_conflict") /\
  is_ok (connection fair sid3 false (mkDisk (snd stale_repaired) three_files)) = false.
Proof. split; [vm_compute; reflexivity|]. split; [exact three_apart|]. split; vm_compute; reflexivity. Qed.

Definition one_repaired := repair (scan_of [sid] quiet) scan_id one_file lost_catalog.
Definition two_repaired := repair (scan_of [sid; sid2] quiet) scan_id two_files lost_catalog.

Definition one_report : RepairReport :=
  {| rp_scanned_sessions := 1; rp_ready_sessions := 1; rp_missing_sessions := 0; rp_unavailable_sessions := 0;
     rp_ignored_entries := 2; rp_conflicting_commands := 0 |}.
Definition two_report : RepairReport :=
  {| rp_scanned_sessions := 2; rp_ready_sessions := 0; rp_missing_sessions := 0; rp_unavailable_sessions := 2;
     rp_ignored_entries := 2; rp_conflicting_commands := 1 |}.

Lemma one_repaired_ok : repair (scan_of [sid] quiet) scan_id one_file lost_catalog = (Ok one_report, snd one_repaired).
Proof.
  assert (fst one_repaired = Ok one_report) as Hf by (vm_compute; reflexivity).
  fold one_repaired. rewrite (pair_eta one_repaired) at 1. by rewrite Hf.
Qed.
Lemma two_repaired_ok : repair (scan_of [sid; sid2] quiet) scan_id two_files lost_catalog = (Ok two_report, snd two_repaired).
Proof.
  assert (fst two_repaired = Ok two_report) as Hf by (vm_compute; reflexivity).
  fold two_repaired. rewrite (pair_eta two_repaired) at 1. by rewrite Hf.
Qed.

Definition three_report : RepairReport :=
  {| rp_scanned_sessions := 3; rp_ready_sessions := 1; rp_missing_sessions := 0; rp_unavailable_sessions := 2;
     rp_ignored_entries := 2; rp_conflicting_commands := 1 |}.
Lemma three_repaired_ok : repair (scan_of [sid; sid2; sid3] quiet) scan_id three_files lost_catalog = (Ok three_report, snd three_repaired).
Proof.
  assert (fst three_repaired = Ok three_report) as Hf by (vm_compute; reflexivity).
  fold three_repaired. rewrite (pair_eta three_repaired) at 1. by rewrite Hf.
Qed.

Lemma lost_untouched : untouched scan_id lost_catalog.
Proof. intros k r Hr. change (cat_sessions lost_catalog) with (∅ : gmap string SessionRow) in Hr. by rewrite lookup_empty in Hr. Qed.

Lemma two_different : sid <> sid2.
Proof. done. Qed.

Lemma repair_restores_witness :
  connection fair sid3 true (mkDisk (snd three_repaired) three_files) = Ok provenance3 /\
  entry_rows sid3 (snd three_repaired) = Ok {| en_summary := found_summary provenance3;
    en_reservation := {| rs_provenance := provenance3; rs_state := CreationState.Accepted |} |}.
Proof.
  apply (repair_restores (scan_of [sid; sid2; sid3] quiet) scan_id three_files lost_catalog three_report (snd three_repaired)
    (found_summary provenance3) provenance3 fair true three_repaired_ok lost_untouched three_orderly three_integers).
  - rewrite three_found. right. right. by left.
  - exact three_undrawn.
  - apply fair_is_calm.
Defined.

Lemma repair_contested_witness :
  (forall q, connection fair sid true (mkDisk (snd two_repaired) two_files) <> Ok q) /\
  exists r, cat_sessions (snd two_repaired) !! sid = Some r /\ ses_availability r = "unavailable" /\
    ses_fault_code r = Some "storage.command_conflict".
Proof.
  apply (repair_contested (scan_of [sid; sid2] quiet) scan_id two_files lost_catalog two_report (snd two_repaired)
    (found_summary provenance) provenance (found_summary provenance2) provenance2 fair true two_repaired_ok lost_untouched).
  - rewrite two_found. split; [apply (bool_decide_unpack _); vm_compute; reflexivity|].
    intros prefix s p Hr. apply elem_of_cons in Hr as [?|Hr]; [done|]. by apply list_elem_of_singleton in Hr.
  - rewrite two_found. by left.
  - rewrite two_found. right. by left.
  - reflexivity.
  - exact two_different.
Defined.

(** A repair whose last transaction fails. *)
Definition failing : Access :=
  {| ac_open := None; ac_reopen := None; ac_begin := None; ac_fate := Failed_statement integrity; ac_close_failed := false |}.
Definition failed_repair := repair (scan_of [sid] failing) scan_id one_file lost_catalog.

Lemma failed_repair_err : repair (scan_of [sid] failing) scan_id one_file lost_catalog = (Err (not_committed integrity), snd failed_repair).
Proof.
  assert (fst failed_repair = Err (not_committed integrity)) as Hf by (vm_compute; reflexivity).
  fold failed_repair. rewrite (pair_eta failed_repair) at 1. by rewrite Hf.
Qed.

Lemma repair_gate_witness :
  snd failed_repair = lost_catalog \/ shut (snd failed_repair) \/ exists c2 scanned ignored report,
    shut c2 /\ finish_body scan_id scanned ignored c2 = (Ok report, snd failed_repair).
Proof. exact (repair_gate (scan_of [sid] failing) scan_id one_file lost_catalog _ _ failed_repair_err). Defined.

(** A session with a whole story behind it, and a catalog that was lost. *)
#[local] Instance repair_digest : @DigestLength repair_serde.
Proof. split. intros t. apply pad_length. Qed.
#[local] Instance repair_rows : RowSerdeLaws.
Proof. split. done. Qed.

(** A run is accepted with a selected history, then the process is gone and another
    takes over. *)
Definition tale (selection : StoredHistorySelection) : list Attempt :=
  [run_attempt (Mutate op1 rid (AcceptHistory input selection)) owner1 Committed; run_attempt Reconcile owner2 Committed].
Definition told (selection : StoredHistorySelection) : Db unit := attempts provenance (tale selection) (session_file provenance).
Definition told_files : gmap string (Db unit) := {[ sid := told selection ]}.

Lemma told_initialized : exists s, initialize Committed provenance blank = (Ok s, session_file provenance).
Proof.
  assert (is_ok (fst (initialize Committed provenance blank)) = true) as Hok by (vm_compute; reflexivity).
  unfold session_file. destruct (initialize Committed provenance blank) as [[s|] db]; [|done]. by exists s.
Qed.

Lemma tale_typed : Forall attempt_typed (tale selection).
Proof.
  repeat (apply Forall_cons; split;
    [split; [split; [apply clock_is_ok | try exact I; vm_compute; reflexivity] | try exact I; vm_compute; reflexivity]|]).
  constructor.
Qed.

Lemma told_worked : worked provenance (session_file provenance) (tale selection) (told selection).
Proof.
  split; [vm_compute; reflexivity|vm_compute; reflexivity| |apply tale_typed|done]. destruct told_initialized as [s Hs]. by exists Committed, s, blank.
Qed.

Lemma tale_honest : honest provenance (tale selection) (session_file provenance).
Proof. split; [|done]. intros d. vm_compute. by intros [= <-]. Qed.

(** The store takes a selection with a digest that its log has not, and the inspection of
    repair then refuses the file. *)
Example forged_selection_refused :
  length (events (told forged)) = 4%nat /\ inspect looked sid ({[ sid := told forged ]} : gmap string (Db unit)) = Some (Err integrity).
Proof. split; vm_compute; reflexivity. Qed.

Lemma told_only id db : told_files !! id = Some db -> id = sid /\ db = told selection.
Proof. unfold told_files. intros Hdb. apply lookup_singleton_Some in Hdb as [<- <-]. done. Qed.

Definition lost_buckets : list Bucket := default [] (sn_buckets (scan_of [sid] quiet)).

Lemma lost_scan : calm_scan (scan_of [sid] quiet) lost_buckets.
Proof. split; try done. repeat (apply Forall_cons; split); [done| |constructor]. intros _. split; [done|]. eexists. split; [done|]. repeat constructor. Qed.

Lemma catalog_rebuilt_witness :
  exists report c', repair (scan_of [sid] quiet) scan_id told_files lost_catalog = (Ok report, c') /\
    rp_scanned_sessions report = 1 /\ connection fair sid true (mkDisk c' told_files) = Ok provenance.
Proof.
  assert (lost_buckets ≫= listed_bucket = [sid]) as Hl by (vm_compute; reflexivity).
  destruct (catalog_rebuilt (scan_of [sid] quiet) lost_buckets scan_id told_files (fun _ => provenance)
    (fun _ => session_file provenance) (fun _ => tale selection) lost_catalog fair true) as (report & c' & Hr & Hn & Ho).
  - exact lost_scan.
  - vm_compute. reflexivity.
  - reflexivity.
  - reflexivity.
  - intros id db Hdb. destruct (told_only _ _ Hdb) as [-> ->]. split; [exact told_worked|reflexivity].
  - intros id _. exact tale_honest.
  - intros id id' Hid Hid' _. apply is_some_true in Hid as [db Hdb]. apply is_some_true in Hid' as [db' Hdb'].
    destruct (told_only _ _ Hdb) as [-> _], (told_only _ _ Hdb') as [-> _]. reflexivity.
  - rewrite Hl. apply NoDup_singleton.
  - intros id. rewrite Hl, list_elem_of_singleton. unfold told_files. split; [intros ->; by rewrite lookup_singleton_eq|].
    intros Hid. apply is_some_true in Hid as [db Hdb]. by destruct (told_only _ _ Hdb).
  - exact fair_is_calm.
  - exists report, c'. rewrite Hl in Hn. split; [exact Hr|]. split; [exact Hn|]. apply Ho. unfold told_files. by rewrite lookup_singleton_eq.
Defined.
