(* ===== verification/Frontmatter.v ===== *)
(** * The head of a skill file (src/src/context/frontmatter.rs)

    A skill file starts with YAML between two delimiter lines.  [read] takes exactly
    those lines off a bounded reader, and [parse] builds a JSON value from the events
    of the YAML parser, refusing everything JSON has no word for.  Here is what both
    accept, exactly. *)
From S2P Require Import Prelude Json Errors Provider Records Text Positions.

(** ** Errors (context.rs) *)
Module ContextErrorKind.
Inductive t : Type :=
| InvalidRoot | ReadFailed | InvalidFrontmatter | DuplicateSkill | InvalidSkillId
| UnknownSkill | ContextChanged | InvalidBody | InvalidRequest | InputTooLarge.
#[global] Instance eq_dec : EqDecision t.
Proof. solve_decision. Defined.
End ContextErrorKind.
Notation KResult A := (result A ContextErrorKind.t).

(** [ContextErrorKind::category]. *)
Definition category (k : ContextErrorKind.t) : string :=
  match k with
  | ContextErrorKind.InvalidRoot => "invalid_root"
  | ContextErrorKind.ReadFailed => "read_failed"
  | ContextErrorKind.InvalidFrontmatter => "invalid_frontmatter"
  | ContextErrorKind.DuplicateSkill => "duplicate_skill"
  | ContextErrorKind.InvalidSkillId => "invalid_skill_id"
  | ContextErrorKind.UnknownSkill => "unknown_skill"
  | ContextErrorKind.ContextChanged => "context_changed"
  | ContextErrorKind.InvalidBody => "invalid_body"
  | ContextErrorKind.InvalidRequest => "invalid_request"
  | ContextErrorKind.InputTooLarge => "input_too_large"
  end.

(** [ContextErrorKind::message]. *)
Definition context_message (k : ContextErrorKind.t) : string :=
  match k with
  | ContextErrorKind.InvalidRoot => "expected an explicit absolute directory root"
  | ContextErrorKind.ReadFailed => "source is unreadable or is not a safe regular file or directory"
  | ContextErrorKind.InvalidFrontmatter => "skill frontmatter is invalid or unsupported"
  | ContextErrorKind.DuplicateSkill => "multiple skill files have the same validated name in this scope"
  | ContextErrorKind.InvalidSkillId => "expected a qualified global or project skill name"
  | ContextErrorKind.UnknownSkill => "selected skill is not in the catalog"
  | ContextErrorKind.ContextChanged => "skill frontmatter changed; discover a fresh catalog"
  | ContextErrorKind.InvalidBody => "selected skill requires a nonblank Markdown body"
  | ContextErrorKind.InvalidRequest => "effective run input or session configuration is invalid"
  | ContextErrorKind.InputTooLarge => "context exceeds the input byte limit"
  end.

(** ** The YAML library *)
Inductive ScalarStyle : Type := Plain | SingleQuoted | DoubleQuoted | Literal | Folded.
#[export] Instance ScalarStyle_eq_dec : EqDecision ScalarStyle.
Proof. solve_decision. Defined.

(** [yaml_rust2::parser::Event]; an anchor is a number, 0 for none. *)
Inductive Event : Type :=
| Nothing | StreamStart | StreamEnd | DocumentStart | DocumentEnd
| Alias (anchor : Z)
| Scalar (text : string) (style : ScalarStyle) (anchor : Z) (tag : option (string * string))
| SequenceStart (anchor : Z) (tag : option (string * string))
| SequenceEnd
| MappingStart (anchor : Z) (tag : option (string * string))
| MappingEnd.
#[export] Instance Event_eq_dec : EqDecision Event.
Proof. solve_decision. Defined.

(** What [Yaml::from_str] makes of a plain scalar. *)
Inductive Yaml : Type :=
| YReal (text : string) | YInteger (n : Z) | YString (text : string) | YBoolean (b : bool) | YNull | YOther.

(** [yaml_events] is what the parser yields before it fails, everything if it does
    not; [parse_f64] gives the bits of the number a text spells. *)
Class YamlLib := {
  yaml_events : string -> list Event;
  yaml_from_str : string -> Yaml;
  parse_f64 : string -> option Z
}.

(** [Number::from_f64] of finite numbers: the exponent has a zero. *)
Definition from_f64 (bits : Z) : option Number :=
  if Z.land (Z.shiftr bits 52) 2047 =? 2047 then None else Some (Float bits).

(** [str::parse::<u64>], which allows a plus sign. *)
Definition parse_u64 (text : string) : option Z :=
  let digits := match text with
                | String c rest => if Ascii.eqb c "+"%char then rest else text
                | EmptyString => text
                end in
  if str_is_empty digits || negb (bytes_all is_ascii_digit digits) then None
  else let n := digits_value 10 0 digits in if n <=? u64_max then Some n else None.

(** [Number::from] of an [i64]. *)
Definition number_of_integer (n : Z) : Number := if n <? 0 then NegInt n else PosInt n.

(** ** Parsing *)
Inductive Frame : Type :=
| FSequence (values : list Value)
| FMapping (values : list (string * Value)) (key : option string).

Section parse.
Context `{YamlLib}.

(** [scalar]. *)
Definition scalar (text : string) (style : ScalarStyle) : KResult Value :=
  if negb (bool_decide (style = Plain)) then Ok (VString text)
  else if bool_decide (text = "Null") || bool_decide (text = "NULL") then Ok Null
  else match parse_u64 text with
       | Some n => Ok (VNumber (PosInt n))
       | None =>
           match yaml_from_str text with
           | YString value => Ok (VString value)
           | YInteger n => Ok (VNumber (number_of_integer n))
           | YReal value =>
               let? number := ok_or (parse_f64 value ≫= from_f64) ContextErrorKind.InvalidFrontmatter in
               Ok (VNumber number)
           | YBoolean b => Ok (VBool b)
           | YNull => Ok Null
           | YOther => Err ContextErrorKind.InvalidFrontmatter
           end
       end.

(** The end of the loop body: a finished value goes to the innermost open
    collection, or is the root. *)
Definition place (value : Value) (stack : list Frame) (root : option Value) : KResult (list Frame * option Value) :=
  match stack with
  | FSequence values :: rest => Ok (FSequence (values ++ [value]) :: rest, root)
  | FMapping values (Some key) :: rest =>
      if is_some (assoc key values) then Err ContextErrorKind.InvalidFrontmatter
      else Ok (FMapping (insert_field key value values) None :: rest, root)
  | FMapping values None :: rest =>
      match value with
      | VString text => Ok (FMapping values (Some text) :: rest, root)
      | _ => Err ContextErrorKind.InvalidFrontmatter
      end
  | [] => if is_some root then Err ContextErrorKind.InvalidFrontmatter else Ok ([], Some value)
  end.

(** Whether the innermost open collection waits for a key. *)
Definition at_key (stack : list Frame) : bool :=
  match stack with FMapping _ None :: _ => true | _ => false end.

Definition merge_key (text : string) (style : ScalarStyle) : bool :=
  bool_decide (style = Plain) && bool_decide (text = "<<").

(** The loop. *)
Fixpoint parse_events (events : list Event) (stack : list Frame) (root : option Value) (documents : Z) : KResult Value :=
  match events with
  | [] => Err ContextErrorKind.InvalidFrontmatter
  | event :: events =>
      match event with
      | StreamStart | DocumentEnd => parse_events events stack root documents
      | DocumentStart =>
          if negb (documents + 1 =? 1) then Err ContextErrorKind.InvalidFrontmatter
          else parse_events events stack root (documents + 1)
      | StreamEnd =>
          if negb (documents =? 1) || match stack with [] => false | _ => true end
          then Err ContextErrorKind.InvalidFrontmatter
          else match root with
               | Some value => if is_object value then Ok value else Err ContextErrorKind.InvalidFrontmatter
               | None => Err ContextErrorKind.InvalidFrontmatter
               end
      | Scalar text style 0 None =>
          if merge_key text style && at_key stack then Err ContextErrorKind.InvalidFrontmatter
          else
            let? value := scalar text style in
            let? sr := place value stack root in
            parse_events events (fst sr) (snd sr) documents
      | SequenceStart 0 None => parse_events events (FSequence [] :: stack) root documents
      | MappingStart 0 None => parse_events events (FMapping [] None :: stack) root documents
      | SequenceEnd =>
          match stack with
          | FSequence values :: stack =>
              let? sr := place (VArray values) stack root in
              parse_events events (fst sr) (snd sr) documents
          | _ => Err ContextErrorKind.InvalidFrontmatter
          end
      | MappingEnd =>
          match stack with
          | FMapping values None :: stack =>
              let? sr := place (VObject values) stack root in
              parse_events events (fst sr) (snd sr) documents
          | _ => Err ContextErrorKind.InvalidFrontmatter
          end
      | _ => Err ContextErrorKind.InvalidFrontmatter
      end
  end.

(** [parse]. *)
Definition parse (yaml : string) : KResult Value := parse_events (yaml_events yaml) [] None 0.
End parse.

(** ** Validation *)

(** [text.chars().count()] of valid text: every byte that starts a character. *)
Fixpoint chars_count (s : string) : Z :=
  match s with
  | EmptyString => 0
  | String a rest => (if continuation a then 0 else 1) + chars_count rest
  end.

Definition is_string (v : Value) : bool := match v with VString _ => true | _ => false end.

(** A text that is there, not blank and of bounded length. *)
Definition bounded_text (limit : Z) (text : string) : bool := negb (trim_is_empty text || (limit <? chars_count text)).

(** [validate]. *)
Definition validate_frontmatter (value : Value) : KResult unit :=
  let invalid : KResult unit := Err ContextErrorKind.InvalidFrontmatter in
  if negb (is_some_and (get value "name" ≫= as_str) valid_name) then invalid
  else
    let? description := ok_or (get value "description" ≫= as_str) ContextErrorKind.InvalidFrontmatter in
    if negb (bounded_text 1024 description) then invalid
    else if existsb (fun key => is_some_and (get value key) (fun v => negb (is_string v))) ["license"; "allowed-tools"] then invalid
    else
      check? match get value "compatibility" with
             | None => Ok tt
             | Some compatibility =>
                 let? text := ok_or (as_str compatibility) ContextErrorKind.InvalidFrontmatter in
                 if negb (bounded_text 500 text) then invalid else Ok tt
             end in
      match get value "metadata" with
      | None => Ok tt
      | Some (VObject fields) => if forallb (fun kv : string * Value => is_string kv.2) fields then Ok tt else invalid
      | Some _ => invalid
      end.

(** ** Reading *)

(** A reader: the bytes it will give, and whether it then fails. *)
Record Reader : Type := mkReader { rd_bytes : string; rd_fails : bool }.

(** The bytes up to and including a newline, within [limit]; what is left; and
    whether the end of the bytes came first. *)
Fixpoint read_until (limit : nat) (s : string) : string * string * bool :=
  match limit with
  | O => (EmptyString, s, false)
  | S limit =>
      match s with
      | EmptyString => (EmptyString, EmptyString, true)
      | String c s =>
          if Ascii.eqb c "010"%char then (String c EmptyString, s, false)
          else let '(line, rest, ended) := read_until limit s in (String c line, rest, ended)
      end
  end.

(** [line]. *)
Definition line (r : Reader) (consumed : Z) : KResult (string * Reader * Z) :=
  let remaining := MAX_INPUT_BYTES - consumed in
  let '(bytes, rest, ended) := read_until (Z.to_nat (remaining + 1)) (rd_bytes r) in
  if ended && rd_fails r then Err ContextErrorKind.ReadFailed
  else if remaining <? len bytes then Err ContextErrorKind.InputTooLarge
  else Ok (bytes, mkReader rest (rd_fails r), consumed + len bytes).

(** [slice::strip_suffix] of one byte. *)
Fixpoint strip_last (c : Ascii.ascii) (s : string) : option string :=
  match s with
  | EmptyString => None
  | String a EmptyString => if Ascii.eqb a c then Some EmptyString else None
  | String a s => match strip_last c s with Some t => Some (String a t) | None => None end
  end.

(** [without_eol]. *)
Definition without_eol (line : string) : string :=
  match strip_last "010"%char line with
  | Some line => default line (strip_last "013"%char line)
  | None => line
  end.

Definition delimiter : string := "---".
Definition byte_order_mark : string := String (byte 239) (String (byte 187) (String (byte 191) EmptyString)).

(** The loop: the lines before the closing delimiter. *)
Fixpoint yaml_lines (fuel : nat) (r : Reader) (consumed : Z) (yaml : string) : option (KResult (string * Reader)) :=
  match fuel with
  | O => None
  | S fuel =>
      match line r consumed with
      | Err e => Some (Err e)
      | Ok (next, r, consumed) =>
          if str_is_empty next then Some (Err ContextErrorKind.InvalidFrontmatter)
          else if bool_decide (without_eol next = delimiter) then Some (Ok (yaml, r))
          else yaml_lines fuel r consumed (String.append yaml next)
      end
  end.

(** [read]: the value, and where the reader is. *)
Definition read_frontmatter `{YamlLib} (r : Reader) : option (KResult (Value * Reader)) :=
  match line r 0 with
  | Err e => Some (Err e)
  | Ok (opening, r, consumed) =>
      let opening := default opening (strip_prefix byte_order_mark opening) in
      if negb (bool_decide (without_eol opening = delimiter)) then Some (Err ContextErrorKind.InvalidFrontmatter)
      else
        match yaml_lines (S (String.length (rd_bytes r))) r consumed EmptyString with
        | None => None
        | Some (Err e) => Some (Err e)
        | Some (Ok (yaml, r)) =>
            Some (
            check? (if from_utf8 yaml then Ok tt else Err ContextErrorKind.InvalidFrontmatter) in
            let? value := parse yaml in
            check? validate_frontmatter value in
            Ok (value, r))
        end
  end.

(** ** What the parser accepts

    The events of a value, read off the value. *)
Section grammar.
Context `{YamlLib}.

Inductive writes : Value -> list Event -> Prop :=
| writes_scalar text style v :
    scalar text style = Ok v -> writes v [Scalar text style 0 None]
| writes_sequence vs es :
    writes_all vs es -> writes (VArray vs) (SequenceStart 0 None :: es ++ [SequenceEnd])
| writes_mapping fs es :
    writes_fields fs es -> writes (VObject fs) (MappingStart 0 None :: es ++ [MappingEnd])
with writes_all : list Value -> list Event -> Prop :=
| writes_none : writes_all [] []
| writes_more vs es v e : writes_all vs es -> writes v e -> writes_all (vs ++ [v]) (es ++ e)
with writes_fields : list (string * Value) -> list Event -> Prop :=
| writes_no_field : writes_fields [] []
| writes_field fs es text style k v e :
    writes_fields fs es -> merge_key text style = false -> scalar text style = Ok (VString k) -> assoc k fs = None ->
    writes v e -> writes_fields (insert_field k v fs) (es ++ Scalar text style 0 None :: e).

Scheme writes_mut := Minimality for writes Sort Prop
  with writes_all_mut := Minimality for writes_all Sort Prop
  with writes_fields_mut := Minimality for writes_fields Sort Prop.

(** One event that is not about the stream or its documents. *)
Definition feed_one (e : Event) (st : list Frame * option Value) : KResult (list Frame * option Value) :=
  let '(stack, root) := st in
  match e with
  | Scalar text style 0 None =>
      if merge_key text style && at_key stack then Err ContextErrorKind.InvalidFrontmatter
      else let? value := scalar text style in place value stack root
  | SequenceStart 0 None => Ok (FSequence [] :: stack, root)
  | MappingStart 0 None => Ok (FMapping [] None :: stack, root)
  | SequenceEnd =>
      match stack with
      | FSequence values :: stack => place (VArray values) stack root
      | _ => Err ContextErrorKind.InvalidFrontmatter
      end
  | MappingEnd =>
      match stack with
      | FMapping values None :: stack => place (VObject values) stack root
      | _ => Err ContextErrorKind.InvalidFrontmatter
      end
  | _ => Err ContextErrorKind.InvalidFrontmatter
  end.

Fixpoint feed_all (es : list Event) (st : list Frame * option Value) : KResult (list Frame * option Value) :=
  match es with
  | [] => Ok st
  | e :: es => let? st := feed_one e st in feed_all es st
  end.

Lemma feed_app es es' st : feed_all (es ++ es') st = let? st := feed_all es st in feed_all es' st.
Proof. revert st. induction es as [|e es IH]; intros st; simpl; [done|]. by destruct (feed_one e st). Qed.

(** Events of a value bring the value to its place. *)
Lemma writes_feed v es :
  writes v es -> forall stack root st, at_key stack = false -> place v stack root = Ok st -> feed_all es (stack, root) = Ok st.
Proof.
  revert v es. apply (writes_mut
    (fun v es => forall stack root st, at_key stack = false -> place v stack root = Ok st -> feed_all es (stack, root) = Ok st)
    (fun vs es => forall stack root, feed_all es (FSequence [] :: stack, root) = Ok (FSequence vs :: stack, root))
    (fun fs es => forall stack root, feed_all es (FMapping [] None :: stack, root) = Ok (FMapping fs None :: stack, root))).
  - intros text style v Hs stack root st Hk Hp. simpl. rewrite Hk, andb_false_r, Hs, Hp. done.
  - intros vs es _ IH stack root st Hk Hp. cbn [feed_all feed_one]. rewrite feed_app, IH. cbn [feed_all feed_one]. by rewrite Hp.
  - intros fs es _ IH stack root st Hk Hp. cbn [feed_all feed_one]. rewrite feed_app, IH. cbn [feed_all feed_one]. by rewrite Hp.
  - done.
  - intros vs es v e _ IHs _ IH stack root. rewrite feed_app, IHs. by apply IH.
  - done.
  - intros fs es text style k v e _ IHs Hm Hs Ha _ IH stack root. rewrite feed_app, IHs. cbn [feed_all feed_one]. rewrite Hm, Hs. simpl.
    apply IH; [done|]. simpl. by rewrite Ha.
Qed.

(** What was read when the collections in [stack] are open. *)
Inductive opened : list Frame -> list Event -> Prop :=
| opened_none : opened [] []
| opened_sequence stack es vs es' :
    opened stack es -> writes_all vs es' -> opened (FSequence vs :: stack) (es ++ SequenceStart 0 None :: es')
| opened_mapping stack es fs es' :
    opened stack es -> writes_fields fs es' -> opened (FMapping fs None :: stack) (es ++ MappingStart 0 None :: es')
| opened_key stack es fs es' text style k :
    opened stack es -> writes_fields fs es' -> merge_key text style = false -> scalar text style = Ok (VString k) ->
    opened (FMapping fs (Some k) :: stack) (es ++ MappingStart 0 None :: es' ++ [Scalar text style 0 None]).

Definition rooted (root : option Value) (es : list Event) : Prop :=
  match root with Some v => writes v es | None => es = [] end.

Definition fed (st : list Frame * option Value) (es : list Event) : Prop :=
  exists es0 es1, es = es0 ++ es1 /\ rooted (snd st) es0 /\ opened (fst st) es1.

(** A value that comes to its place was written there. *)
Lemma place_fed v e stack root st es :
  place v stack root = Ok st -> fed (stack, root) es -> writes v e ->
  (at_key stack = true -> is_string v = true -> exists text style, e = [Scalar text style 0 None] /\ merge_key text style = false /\ scalar text style = Ok v) ->
  fed st (es ++ e).
Proof.
  intros Hp (es0 & es1 & -> & Hr & Ho) Hw Hk. destruct stack as [|[values|values [key|]] stack]; simpl in Hp.
  - destruct root; [done|]. injection Hp as <-. simpl in Hr. subst es0. inversion Ho; subst. exists e, []. split; [simpl; by rewrite app_nil_r|]. split; [exact Hw|]. constructor.
  - injection Hp as <-. inversion Ho as [|? es2 ? es3 Ho' Hv| |]; subst. exists es0, (es2 ++ SequenceStart 0 None :: (es3 ++ e)).
    split; [by rewrite <- !app_assoc|]. split; [done|]. constructor; [done|by constructor].
  - destruct (is_some (assoc key values)) eqn:Ha; [done|]. apply is_some_false in Ha. injection Hp as <-.
    inversion Ho as [| | |? es2 ? es3 text style ? Ho' Hf Hm Hs]; subst.
    exists es0, (es2 ++ MappingStart 0 None :: (es3 ++ Scalar text style 0 None :: e)).
    split; [by rewrite <- !app_assoc; simpl; rewrite <- app_assoc|]. split; [done|]. constructor; [done|by econstructor].
  - destruct v as [| | |text| |]; try done. injection Hp as <-. destruct (Hk eq_refl eq_refl) as (t & style & -> & Hm & Hs).
    inversion Ho as [| |? es2 ? es3 Ho' Hf|]; subst. exists es0, (es2 ++ MappingStart 0 None :: es3 ++ [Scalar t style 0 None]).
    split; [rewrite <- !app_assoc; simpl; done|]. split; [done|]. by econstructor.
Qed.

Lemma feed_one_fed e st st' es : feed_one e st = Ok st' -> fed st es -> fed st' (es ++ [e]).
Proof.
  destruct st as [stack root]. intros Hf Hfed. unfold feed_one in Hf.
  destruct e as [| | | | | |text style a t|a t| |a t|]; try done.
  - destruct a as [|a|a], t; try done. destruct (merge_key text style && at_key stack) eqn:Hm; [done|].
    destruct (scalar text style) as [v|] eqn:Hs; [|done]. eapply place_fed; [done|done|by constructor|].
    intros Hk _. exists text, style. rewrite Hk, andb_true_r in Hm. done.
  - destruct a, t; try done. injection Hf as <-. destruct Hfed as (es0 & es1 & -> & Hr & Ho). exists es0, (es1 ++ [SequenceStart 0 None]).
    rewrite <- app_assoc. split; [done|]. split; [done|]. constructor; [done|constructor].
  - destruct stack as [|[values|values [key|]] stack]; try done. destruct Hfed as (es0 & es1 & -> & Hr & Ho).
    inversion Ho as [|? es2 ? es3 Ho' Hv| |]; subst. replace ((es0 ++ es2 ++ SequenceStart 0 None :: es3) ++ [SequenceEnd])
      with ((es0 ++ es2) ++ SequenceStart 0 None :: es3 ++ [SequenceEnd]) by (by rewrite <- !app_assoc).
    eapply place_fed; [done|by exists es0, es2|by constructor|done].
  - destruct a, t; try done. injection Hf as <-. destruct Hfed as (es0 & es1 & -> & Hr & Ho). exists es0, (es1 ++ [MappingStart 0 None]).
    rewrite <- app_assoc. split; [done|]. split; [done|]. constructor; [done|constructor].
  - destruct stack as [|[values|values [key|]] stack]; try done. destruct Hfed as (es0 & es1 & -> & Hr & Ho).
    inversion Ho as [| |? es2 ? es3 Ho' Hv|]; subst. replace ((es0 ++ es2 ++ MappingStart 0 None :: es3) ++ [MappingEnd])
      with ((es0 ++ es2) ++ MappingStart 0 None :: es3 ++ [MappingEnd]) by (by rewrite <- !app_assoc).
    eapply place_fed; [done|by exists es0, es2|by constructor|done].
Qed.

Lemma feed_all_fed es : forall st st' es0, feed_all es st = Ok st' -> fed st es0 -> fed st' (es0 ++ es).
Proof.
  induction es as [|e es IH]; intros st st' es0 Hf Hfed; simpl in Hf; [injection Hf as <-; by rewrite app_nil_r|].
  destruct (feed_one e st) as [st1|] eqn:H1; [|done]. replace (es0 ++ e :: es) with ((es0 ++ [e]) ++ es) by (by rewrite <- app_assoc).
  by eapply IH, feed_one_fed.
Qed.

Lemma feed_exact v es : feed_all es ([], None) = Ok ([], Some v) <-> writes v es.
Proof.
  split.
  - intros Hf. apply (feed_all_fed _ _ _ []) in Hf as (es0 & es1 & Heq & Hr & Ho); [|exists [], []; split_and!; by constructor].
    simpl in *. inversion Ho; subst. by rewrite app_nil_r.
  - intros Hw. by eapply (writes_feed v es Hw).
Qed.

(** Events that only structure the stream. *)
Definition structural (e : Event) : bool := match e with StreamStart | DocumentStart | DocumentEnd => true | _ => false end.
Definition is_document (e : Event) : bool := match e with DocumentStart => true | _ => false end.

Lemma parse_events_step e es stack root d :
  structural e = false -> e <> StreamEnd ->
  parse_events (e :: es) stack root d = let? st := feed_one e (stack, root) in parse_events es (fst st) (snd st) d.
Proof.
  intros Hs He. destruct e as [| | | | | |text style a t|a t| |a t|]; try done; cbn [parse_events feed_one].
  - destruct a, t; try done. destruct (_ && _); [done|]. by destruct (scalar text style).
  - by destruct a, t.
  - by destruct stack as [|[values|values [key|]] stack].
  - by destruct a, t.
  - by destruct stack as [|[values|values [key|]] stack].
Qed.

(** What is left of a stream once its structure is taken away. *)
Definition contents (l : list Event) : list Event := List.filter (fun e => negb (structural e)) l.
Definition documents_in (l : list Event) : Z := Z.of_nat (length (List.filter is_document l)).

(** A stream with the one document that a feed turns into [v]. *)
Definition streamed (es : list Event) (st : list Frame * option Value) (d : Z) (v : Value) : Prop :=
  exists l rest, es = l ++ StreamEnd :: rest /\ StreamEnd ∉ l /\ d + documents_in l = 1 /\
    feed_all (contents l) st = Ok ([], Some v) /\ is_object v = true.

Lemma streamed_cons e es st d v :
  e <> StreamEnd ->
  streamed (e :: es) st d v <->
  if structural e then streamed es st (d + if is_document e then 1 else 0) v
  else exists st', feed_one e st = Ok st' /\ streamed es st' d v.
Proof.
  intros Hne. assert (forall l rest, e :: es = l ++ StreamEnd :: rest -> exists l', l = e :: l' /\ es = l' ++ StreamEnd :: rest) as Hsplit.
  { intros [|e' l] rest He; [by injection He|]. injection He as <- ->. by exists l. }
  assert (forall l, documents_in (e :: l) = (if is_document e then 1 else 0) + documents_in l) as Hdoc.
  { intros l. unfold documents_in. cbn [List.filter]. destruct (is_document e); simpl length; lia. }
  destruct (structural e) eqn:Hs.
  - assert (forall l, contents (e :: l) = contents l) as Hcon by (intros l; unfold contents; cbn [List.filter]; by rewrite Hs).
    split; intros (l & rest & He & Hn & Hc & Hf & Ho).
    + destruct (Hsplit _ _ He) as (l' & -> & ->). rewrite Hdoc, Hcon in *. apply not_elem_of_cons in Hn as [_ Hn]. exists l', rest. split_and!; try done. lia.
    + exists (e :: l), rest. rewrite Hdoc, Hcon, He. split_and!; try done; [by apply not_elem_of_cons|lia].
  - assert (is_document e = false) as Hnd by (by destruct e). rewrite Hnd in Hdoc.
    assert (forall l, contents (e :: l) = e :: contents l) as Hcon by (intros l; unfold contents; cbn [List.filter]; by rewrite Hs).
    split.
    + intros (l & rest & He & Hn & Hc & Hf & Ho). destruct (Hsplit _ _ He) as (l' & -> & ->). rewrite Hdoc, Hcon in *.
      simpl in Hf. destruct (feed_one e st) as [st'|]; [|done]. exists st'. split; [done|]. apply not_elem_of_cons in Hn as [_ Hn]. by exists l', rest.
    + intros (st' & Hf1 & l & rest & He & Hn & Hc & Hf & Ho). exists (e :: l), rest. rewrite Hdoc, Hcon, He.
      split_and!; try done; [by apply not_elem_of_cons|]. simpl. by rewrite Hf1.
Qed.

Lemma streamed_end es st d v : streamed (StreamEnd :: es) st d v <-> d = 1 /\ st = ([], Some v) /\ is_object v = true.
Proof.
  split.
  - intros (l & rest & He & Hn & Hc & Hf & Ho). destruct l as [|e l].
    + simpl in Hf. injection Hf as ->. unfold documents_in in Hc. simpl in Hc. split_and!; try done. lia.
    + injection He as <- _. destruct Hn. by left.
  - intros (-> & -> & Ho). exists [], es. split_and!; try done. by apply not_elem_of_nil.
Qed.

Lemma streamed_late es st d v : streamed es st d v -> d <= 1.
Proof. intros (l & rest & _ & _ & Hc & _). unfold documents_in in Hc. lia. Qed.

Lemma parse_events_exact es : forall stack root d v,
  0 <= d <= 1 -> parse_events es stack root d = Ok v <-> streamed es (stack, root) d v.
Proof.
  induction es as [|e es IH]; intros stack root d v Hd.
  { split; [done|]. intros (l & rest & He & _). by destruct l. }
  destruct (structural e) eqn:Hs.
  - rewrite streamed_cons by (by destruct e). rewrite Hs. destruct e; try done; cbn [parse_events is_document]; rewrite ?Z.add_0_r; try by apply IH.
    destruct (Z.eqb_spec (d + 1) 1); cbn [negb]; [apply IH; lia|]. split; [done|]. intros Hl%streamed_late. lia.
  - destruct (decide (e = StreamEnd)) as [->|Hne].
    + rewrite streamed_end. cbn [parse_events]. destruct (Z.eqb_spec d 1) as [->|]; simpl.
      * destruct stack; [|split; [done|intros (_ & ? & _); done]]. destruct root as [w|]; [|split; [done|intros (_ & ? & _); done]].
        destruct (is_object w) eqn:Ho; split; try done; [by intros [= ->]|by intros (_ & [= ->] & _)|by intros (_ & [= ->] & ?); congruence].
      * split; [done|]. by intros [? _].
    + rewrite parse_events_step by done. rewrite streamed_cons by done. rewrite Hs. destruct (feed_one e (stack, root)) as [[stack' root']|] eqn:Hf.
      * rewrite IH by done. split; [by intros ?; eexists|]. by intros (st' & [= <-] & ?).
      * split; [done|]. by intros (st' & ? & _).
Qed.

(** C32. The parser of a skill's head accepts exactly the documents JSON can say.  It
    returns [v] if and only if the stream has one document, whose events are those of
    the object [v]: no anchor, alias or tag anywhere, every key a string, no key
    twice in a mapping, no merge key, and one value and no more. *)
Theorem frontmatter_exact yaml v :
  parse yaml = Ok v <->
  exists l rest, yaml_events yaml = l ++ StreamEnd :: rest /\ StreamEnd ∉ l /\ documents_in l = 1 /\
    writes v (contents l) /\ is_object v = true.
Proof.
  unfold parse. rewrite parse_events_exact by lia. unfold streamed. setoid_rewrite feed_exact. setoid_rewrite Z.add_0_l. done.
Qed.
End grammar.

(** ** What is read *)
Definition newline : Ascii.ascii := "010"%char.
Definition no_newline (s : string) : bool := bytes_all (fun c => negb (Ascii.eqb c newline)) s.

(** A line with its end, and a line at the front of what is left. *)
Definition full_line (l : string) : Prop := exists body, l = snoc body newline /\ no_newline body = true.
Definition line_of (l rest : string) (fails : bool) : Prop :=
  full_line l \/ (no_newline l = true /\ rest = EmptyString /\ fails = false).

Lemma read_until_spec limit s :
  let '(l, rest, ended) := read_until limit s in
  s = String.append l rest /\ (String.length l <= limit)%nat /\
  if ended : bool then rest = EmptyString /\ no_newline l = true /\ (String.length l < limit)%nat
  else full_line l \/ (no_newline l = true /\ String.length l = limit).
Proof.
  revert s. induction limit as [|limit IH]; intros s; simpl; [split_and!; [done|lia|by right]|].
  destruct s as [|c s]; [split_and!; [done|simpl; lia|done|done|simpl; lia]|]. destruct (Ascii.eqb_spec c "010"%char) as [->|Hc].
  - split_and!; [done|simpl; lia|]. left. by exists EmptyString.
  - specialize (IH s). destruct (read_until limit s) as [[l rest] ended]. destruct IH as (-> & Hl & Hcase).
    assert (forall t, no_newline t = true -> no_newline (String c t) = true) as Hno.
    { intros t Ht. unfold no_newline in *. cbn [bytes_all]. rewrite Ht. destruct (Ascii.eqb_spec c newline); done. }
    split_and!; [done|simpl; lia|]. destruct ended.
    + destruct Hcase as (-> & Hn & Hlt). split_and!; [done|by apply Hno|simpl; lia].
    + destruct Hcase as [(body & -> & Hb)|[Hn Hlt]]; [left; exists (String c body); split; [done|by apply Hno]|right; split; [by apply Hno|simpl; lia]].
Qed.

(** The first line of a text is the only one. *)
Lemma full_line_first body rest body' rest' :
  no_newline body = true -> no_newline body' = true ->
  String.append (snoc body newline) rest = String.append (snoc body' newline) rest' -> body = body' /\ rest = rest'.
Proof.
  revert body'. induction body as [|c body IH]; intros [|c' body'] Hb Hb' Heq; cbn [snoc] in *.
  - by injection Heq.
  - injection Heq as <- _. done.
  - injection Heq as -> _. done.
  - injection Heq as <- Heq. unfold no_newline in *. cbn [bytes_all] in *. apply andb_true_iff in Hb as [_ Hb], Hb' as [_ Hb'].
    destruct (IH body' Hb Hb') as [-> ->]; done.
Qed.

Lemma no_newline_line body rest l : no_newline l = true -> String.append (snoc body newline) rest <> l.
Proof.
  revert l. induction body as [|c body IH]; intros [|a l] Hl Heq; try done; unfold no_newline in *; cbn [bytes_all] in Hl; apply andb_true_iff in Hl as [Ha Hl].
  - injection Heq as <- _. done.
  - injection Heq as _ Heq. by apply (IH l Hl).
Qed.

Lemma no_newline_app a b : no_newline (String.append a b) = no_newline a && no_newline b.
Proof. unfold no_newline. induction a as [|c a IH]; [done|]. change (String.append (String c a) b) with (String c (String.append a b)). cbn [bytes_all]. by rewrite IH, andb_assoc. Qed.

Lemma line_exact r consumed l r' c' :
  0 <= consumed <= MAX_INPUT_BYTES ->
  line r consumed = Ok (l, r', c') <->
  rd_bytes r = String.append l (rd_bytes r') /\ rd_fails r' = rd_fails r /\ line_of l (rd_bytes r') (rd_fails r) /\
  c' = consumed + len l /\ c' <= MAX_INPUT_BYTES.
Proof.
  intros Hc. unfold line. pose proof (read_until_spec (Z.to_nat (MAX_INPUT_BYTES - consumed + 1)) (rd_bytes r)) as Hs.
  destruct (read_until _ _) as [[b rest] ended]. destruct Hs as (Hb & Hlen & Hcase). split.
  - destruct (ended && rd_fails r) eqn:Hf; [done|]. destruct (Z.ltb_spec (MAX_INPUT_BYTES - consumed) (len b)) as [|Hle]; [done|]. intros [= <- <- <-]. simpl.
    split_and!; try done; [|lia]. unfold len in Hle. destruct ended.
    + right. destruct Hcase as (-> & Hn & _). by rewrite andb_true_l in Hf.
    + destruct Hcase as [|[_ Heq]]; [by left|]. lia.
  - intros (Hb' & Hfl & Hl & -> & Hmax). destruct r' as [rest' fails']. simpl in *. subst fails'.
    assert (b = l /\ rest = rest' /\ (ended && rd_fails r) = false) as (-> & -> & ->).
    { rewrite Hb in Hb'. unfold len in Hmax. destruct Hl as [(body & -> & Hn)|(Hn & -> & Hf)].
      - destruct ended; [destruct Hcase as (-> & Hnb & _); rewrite append_empty in Hb'; symmetry in Hb'; by apply no_newline_line in Hb'|].
        destruct Hcase as [(body' & -> & Hn')|[Hnb Heq]]; [by destruct (full_line_first _ _ _ _ Hn' Hn Hb') as [-> ->]|].
        exfalso. assert (String.length (snoc body newline) < String.length b)%nat as Hlt by lia.
        assert (exists t, b = String.append (snoc body newline) t) as [t ->].
        { clear -Hb' Hlt. revert Hb' Hlt. generalize (snoc body newline). intros p. revert b. induction p as [|c p IH]; intros b Hb Hl; [by exists b|].
          destruct b as [|a b]; [simpl in Hl; lia|]. injection Hb as <- Hb. simpl in Hl. destruct (IH b Hb) as [t ->]; [lia|]. by exists t. }
        by eapply no_newline_line in Hnb.
      - rewrite append_empty in Hb'. rewrite Hf, andb_false_r. destruct ended; [destruct Hcase as (-> & _ & _); rewrite append_empty in Hb'; done|].
        destruct Hcase as [(body' & -> & Hn')|[Hnb Heq]]; [by apply no_newline_line in Hb'|].
        exfalso. rewrite <- Hb', string_length_app in Hmax. lia. }
    destruct (Z.ltb_spec (MAX_INPUT_BYTES - consumed) (len l)); [lia|done].
Qed.

(** The texts in a row. *)
Definition joined (ls : list string) : string := foldr String.append EmptyString ls.

Lemma joined_app a b : joined (a ++ b) = String.append (joined a) (joined b).
Proof. induction a as [|x a IH]; [done|]. simpl. by rewrite IH, append_assoc. Qed.

(** Lines, none of them the delimiter, and then the delimiter. *)
Record delimited (r : Reader) (ls : list string) (closing : string) (r' : Reader) : Prop := {
  dl_bytes : rd_bytes r = String.append (joined ls) (String.append closing (rd_bytes r'));
  dl_fails : rd_fails r' = rd_fails r;
  dl_lines : Forall (fun l => full_line l /\ without_eol l <> delimiter) ls;
  dl_closing : line_of closing (rd_bytes r') (rd_fails r) /\ without_eol closing = delimiter
}.

Lemma line_nonempty r consumed l r' c' :
  line r consumed = Ok (l, r', c') -> l <> EmptyString -> (String.length (rd_bytes r') < String.length (rd_bytes r))%nat.
Proof.
  unfold line. pose proof (read_until_spec (Z.to_nat (MAX_INPUT_BYTES - consumed + 1)) (rd_bytes r)) as Hs.
  destruct (read_until _ _) as [[b rest] ended]. destruct Hs as (Hb & _). destruct (_ && _); [done|]. destruct (_ <? _); [done|].
  intros [= -> <- _] Hne. simpl. rewrite Hb, string_length_app. destruct l; [done|simpl; lia].
Qed.

Lemma yaml_lines_ends fuel : forall r consumed yaml, (String.length (rd_bytes r) < fuel)%nat -> yaml_lines fuel r consumed yaml <> None.
Proof.
  induction fuel as [|fuel IH]; intros r consumed yaml Hf; [lia|]. simpl. destruct (line r consumed) as [[[l r'] c']|] eqn:Hl; [|done].
  destruct l as [|a l]; [done|]. cbn [str_is_empty]. destruct (bool_decide _); [done|]. apply IH. apply line_nonempty in Hl; [|done]. lia.
Qed.

Lemma closing_nonempty l : without_eol l = delimiter -> l <> EmptyString.
Proof. by intros Hl ->. Qed.

Lemma full_line_nonempty l : full_line l -> l <> EmptyString.
Proof. intros (body & -> & _). by destruct body. Qed.

Lemma yaml_lines_exact fuel : forall r consumed acc yaml r',
  0 <= consumed <= MAX_INPUT_BYTES -> (String.length (rd_bytes r) < fuel)%nat ->
  yaml_lines fuel r consumed acc = Some (Ok (yaml, r')) <->
  exists ls closing, delimited r ls closing r' /\ yaml = String.append acc (joined ls) /\
    consumed + len (joined ls) + len closing <= MAX_INPUT_BYTES.
Proof.
  induction fuel as [|fuel IH]; intros r consumed acc yaml r' Hc Hf; [lia|]. simpl. split.
  - destruct (line r consumed) as [[[l r1] c1]|] eqn:Hl; [|done]. pose proof Hl as Hx. apply line_exact in Hx as (Hb & Hfl & Hli & -> & Hmax); [|done].
    destruct (str_is_empty l) eqn:He; [done|]. assert (l <> EmptyString) as Hne by (by intros ->). destruct (bool_decide_reflect (without_eol l = delimiter)) as [Hd|Hd].
    + intros [= <- <-]. exists [], l. split; [by split; simpl|]. split; [simpl; by rewrite append_empty|]. unfold len at 1. simpl. lia.
    + pose proof (len_nonneg l). rewrite IH by (lia || (apply line_nonempty in Hl; [lia|done])). intros (ls & closing & [B F L C] & -> & Hm).
      exists (l :: ls), closing. assert (full_line l) as Hfull.
      { destruct Hli as [|(_ & Hr & _)]; [done|]. rewrite Hr in B. destruct C as [_ C]. apply closing_nonempty in C. destruct (joined ls), closing; done. }
      split; [split; simpl|split; [simpl; by rewrite append_assoc|simpl; rewrite len_app; lia]].
      * by rewrite Hb, B, append_assoc.
      * congruence.
      * by constructor.
      * by rewrite <- Hfl.
  - intros (ls & closing & [B F L [C1 C2]] & -> & Hm). pose proof (len_nonneg (joined ls)). pose proof (len_nonneg closing). destruct ls as [|l ls].
    + assert (line r consumed = Ok (closing, r', consumed + len closing)) as ->.
      { apply line_exact; [done|]. simpl in B. split_and!; try done; unfold len at 1 in Hm; simpl in Hm; lia. }
      destruct (str_is_empty closing) eqn:He; [by destruct closing|]. rewrite bool_decide_eq_true_2 by done. simpl. by rewrite append_empty.
    + apply Forall_cons in L as [[Hl Hd] L]. simpl in Hm. rewrite len_app in Hm. pose proof (len_nonneg l). pose proof (len_nonneg (joined ls)).
      set (r1 := mkReader (String.append (joined ls) (String.append closing (rd_bytes r'))) (rd_fails r)).
      assert (line r consumed = Ok (l, r1, consumed + len l)) as Hline.
      { apply line_exact; [done|]. split_and!; try done; [simpl; rewrite B; simpl; by rewrite append_assoc|by left|lia]. }
      rewrite Hline. pose proof (full_line_nonempty _ Hl) as Hne. destruct (str_is_empty l) eqn:He; [by destruct l|]. rewrite bool_decide_eq_false_2 by done.
      rewrite IH by (lia || (apply line_nonempty in Hline; [lia|done])). exists ls, closing. split; [by split|]. split; [simpl; by rewrite append_assoc|lia].
Qed.

(** A file with a head: the opening delimiter after an optional mark, the lines of
    the document and the closing delimiter, all within the limit. *)
Record headed_file (r : Reader) (ls : list string) (r' : Reader) : Prop := {
  hf_head : exists opening closing, 
    rd_bytes r = String.append opening (String.append (joined ls) (String.append closing (rd_bytes r'))) /\
    full_line opening /\ without_eol (default opening (strip_prefix byte_order_mark opening)) = delimiter /\
    line_of closing (rd_bytes r') (rd_fails r) /\ without_eol closing = delimiter /\
    len opening + len (joined ls) + len closing <= MAX_INPUT_BYTES;
  hf_fails : rd_fails r' = rd_fails r;
  hf_lines : Forall (fun l => full_line l /\ without_eol l <> delimiter) ls
}.

Section read.
Context `{YamlLib}.

Lemma read_frontmatter_ends r : read_frontmatter r <> None.
Proof.
  unfold read_frontmatter. destruct (line r 0) as [[[l r1] c1]|]; [|done]. destruct (negb _); [done|].
  destruct (yaml_lines _ _ _ _) as [[[yaml r2]|]|] eqn:Hy; [done|done|]. by apply yaml_lines_ends in Hy; [|lia].
Qed.

(** Exactly the files with a head that parses and is valid are read, and reading
    stops behind the closing delimiter. *)
Lemma read_frontmatter_exact r v r' :
  read_frontmatter r = Some (Ok (v, r')) <->
  exists ls, headed_file r ls r' /\ from_utf8 (joined ls) = true /\ parse (joined ls) = Ok v /\ validate_frontmatter v = Ok tt.
Proof.
  unfold read_frontmatter. split.
  - destruct (line r 0) as [[[opening r1] c1]|] eqn:Hl; [|done]. apply line_exact in Hl as (Hb & Hfl & Hli & -> & Hmax); [|unfold MAX_INPUT_BYTES; lia].
    destruct (bool_decide_reflect (without_eol (default opening (strip_prefix byte_order_mark opening)) = delimiter)) as [Hd|]; [|done]. cbn [negb].
    destruct (yaml_lines _ _ _ _) as [[[yaml r2]|]|] eqn:Hy; [|done|done]. pose proof (len_nonneg opening).
    apply yaml_lines_exact in Hy as (ls & closing & [B F L [C1 C2]] & -> & Hm); [|lia|lia]. change (String.append EmptyString (joined ls)) with (joined ls).
    destruct (from_utf8 (joined ls)) eqn:Hu; [|done]. destruct (parse (joined ls)) as [w|] eqn:Hp; [|done].
    destruct (validate_frontmatter w) as [[]|] eqn:Hv; [|done]. intros [= <- <-]. exists ls. split; [|done]. split; [|congruence|done].
    exists opening, closing. rewrite Hb, B. split_and!; try done.
    + destruct Hli as [|(_ & Hr & _)]; [done|]. rewrite Hr in B. apply closing_nonempty in C2. destruct (joined ls), closing; done.
    + by rewrite <- Hfl.
  - intros (ls & [(opening & closing & Hb & Ho & Hod & Hc & Hcd & Hm) Hfl Hls] & Hu & Hp & Hv).
    pose proof (len_nonneg opening). pose proof (len_nonneg closing). pose proof (len_nonneg (joined ls)).
    set (r1 := mkReader (String.append (joined ls) (String.append closing (rd_bytes r'))) (rd_fails r)).
    assert (line r 0 = Ok (opening, r1, 0 + len opening)) as ->.
    { apply line_exact; [unfold MAX_INPUT_BYTES; lia|]. split_and!; try done; [by left|lia]. }
    rewrite bool_decide_eq_true_2 by done. cbn [negb].
    assert (yaml_lines (S (String.length (rd_bytes r1))) r1 (0 + len opening) EmptyString = Some (Ok (joined ls, r'))) as ->.
    { apply yaml_lines_exact; [lia|lia|]. exists ls, closing. split; [|split; [done|lia]]. by split. }
    by rewrite Hu, Hp, Hv.
Qed.
End read.
