(* ===== verification/SkillFacts.v ===== *)
(** * What discovery and preparation promise

    A catalog lists exactly the skill files that can be reached without following a
    link, each under one identifier and in order; what was advertised can be looked up
    and loaded; and a prepared run is one the controller admits and the store records. *)
From S2P Require Import Prelude Json Errors Provider Tools Replay RunData Run Records Text Positions Frontmatter Skills.

(** ** Orders *)
Lemma skill_compare_eq a b : skill_compare a b = Eq <-> a = b.
Proof.
  unfold skill_compare. destruct a as [[] a], b as [[] b]; simpl; split; try done.
  - by intros ->%String.compare_eq_iff.
  - intros [= ->]. apply compare_refl.
  - by intros ->%String.compare_eq_iff.
  - intros [= ->]. apply compare_refl.
Qed.

Lemma skill_compare_antisym a b : skill_compare a b = CompOpp (skill_compare b a).
Proof. unfold skill_compare. destruct a as [[] a], b as [[] b]; simpl; try done; apply String.compare_antisym. Qed.

Lemma skill_compare_trans a b c : skill_compare a b = Lt -> skill_compare b c = Lt -> skill_compare a c = Lt.
Proof. unfold skill_compare. destruct a as [[] a], b as [[] b], c as [[] c]; simpl; try done; apply string_compare_trans. Qed.

(** Entries in the order of their identifiers, each once. *)
Definition ordered (l : list SkillMetadata) : Prop := StronglySorted (fun a b => skill_compare (sk_id a) (sk_id b) = Lt) l.

Lemma insert_skill_In s l e : e ∈ insert_skill s l <-> e = s \/ e ∈ l.
Proof.
  induction l as [|t l IH]; simpl; [by rewrite list_elem_of_singleton, elem_of_nil; naive_solver|].
  destruct (skill_compare _ _); rewrite !elem_of_cons; try done. rewrite IH. naive_solver.
Qed.

Lemma insert_skill_ordered s l :
  ordered l -> Forall (fun e => sk_id e <> sk_id s) l -> ordered (insert_skill s l).
Proof.
  intros Ho. induction Ho as [|t l Ho IH Ht]; intros Hn; simpl; [by repeat constructor|]. apply Forall_cons in Hn as [Hts Hn].
  destruct (skill_compare (sk_id s) (sk_id t)) eqn:Hc.
  - by apply skill_compare_eq in Hc.
  - constructor; [by constructor|]. constructor; [done|]. eapply Forall_impl; [exact Ht|]. intros e. by apply skill_compare_trans.
  - constructor; [by apply IH|]. apply Forall_forall. intros e He. apply insert_skill_In in He as [->|He].
    + rewrite skill_compare_antisym, Hc. done.
    + rewrite Forall_forall in Ht. by apply Ht.
Qed.

(** ** Looking up *)

(** Where two entries are tells how they compare. *)
Lemma ordered_lt l i j a b : ordered l -> l !! i = Some a -> l !! j = Some b -> (i < j)%nat -> skill_compare (sk_id a) (sk_id b) = Lt.
Proof.
  intros Ho. revert i j. induction Ho as [|t l _ IH Ht]; intros i j Hi Hj Hij; [done|]. destruct j as [|j]; [lia|]. destruct i as [|i].
  - injection Hi as ->. rewrite Forall_forall in Ht. apply Ht. by eapply list_elem_of_lookup_2.
  - eapply IH; [done|done|lia].
Qed.

Lemma search_finds fuel : forall l id base size k e,
  ordered l -> (size <= fuel)%nat -> (base + size <= length l)%nat -> l !! k = Some e -> sk_id e = id -> (base <= k < base + size)%nat ->
  search fuel l id base size = k.
Proof.
  induction fuel as [|fuel IH]; intros l id base size k e Ho Hf Hl Hk Hid Hr; cbn [search]; [lia|].
  destruct (Nat.leb_spec size 1); [lia|]. pose proof (Nat.div_lt size 2 ltac:(lia) ltac:(lia)) as Hhalf. pose proof (Nat.Div0.mul_div_le size 2) as Hdouble. set (half := Nat.div size 2) in *.
  assert (1 <= half)%nat as Hpos by (apply Nat.div_le_lower_bound; lia).
  destruct (lookup_lt_is_Some_2 l (base + half)) as [m Hm]; [lia|]. rewrite Hm. cbn [mbind option_bind].
  destruct (skill_compare (sk_id m) id) eqn:Hc.
  - apply skill_compare_eq in Hc. assert (k = (base + half)%nat) as ->.
    { destruct (Nat.lt_trichotomy k (base + half)) as [Hlt|[?|Hlt]]; [|done|].
      - pose proof (ordered_lt l _ _ _ _ Ho Hk Hm Hlt) as Hx. rewrite Hid, Hc, (proj2 (skill_compare_eq id id) eq_refl) in Hx. done.
      - pose proof (ordered_lt l _ _ _ _ Ho Hm Hk Hlt) as Hx. rewrite Hid, Hc, (proj2 (skill_compare_eq id id) eq_refl) in Hx. done. }
    eapply IH; try done; lia.
  - eapply IH; try done; try lia. destruct (Nat.lt_ge_cases k (base + half)) as [Hlt|]; [|lia].
    pose proof (ordered_lt l _ _ _ _ Ho Hk Hm Hlt) as Hx. rewrite Hid, skill_compare_antisym, Hc in Hx. done.
  - eapply IH; try done; try lia. destruct (Nat.lt_ge_cases k (base + half)) as [|Hge]; [lia|].
    destruct (decide (k = base + half)%nat) as [->|]; [rewrite Hm in Hk; injection Hk as ->; rewrite Hid, (proj2 (skill_compare_eq id id) eq_refl) in Hc; done|].
    pose proof (ordered_lt l _ _ _ _ Ho Hm Hk ltac:(lia)) as Hx. rewrite Hid, Hc in Hx. done.
Qed.

(** A search of an ordered list finds exactly what is in it. *)
Lemma binary_search_exact l id e : ordered l -> binary_search l id = Some e <-> e ∈ l /\ sk_id e = id.
Proof.
  intros Ho. unfold binary_search. split.
  - destruct (l !! _) as [x|] eqn:Hx; [|done]. cbn [mbind option_bind]. destruct (skill_compare (sk_id x) id) eqn:Hc; [|done|done]. intros [= <-].
    apply skill_compare_eq in Hc. split; [by eapply list_elem_of_lookup_2|done].
  - intros [Hin Hid]. apply list_elem_of_lookup in Hin as [k Hk]. pose proof (lookup_lt_Some _ _ _ Hk) as Hlt.
    rewrite (search_finds (length l) l id 0 (length l) k e Ho); [|lia|lia|done|done|lia]. rewrite Hk. cbn [mbind option_bind].
    by rewrite (proj2 (skill_compare_eq _ _) Hid).
Qed.

(** ** Spelling *)
(** A spelling is read as the identifier it spells, and nothing else is read. *)
Lemma parse_skill_exact s i : parse_skill s = Ok i <-> s = show_skill i /\ valid_name (id_name i) = true.
Proof.
  unfold parse_skill, show_skill. split.
  - destruct (split_colon s) as [[a b]|] eqn:Hs; [|done]. apply split_colon_Some in Hs as [-> _]. cbn [ok_or fst snd].
    destruct (bool_decide_reflect (a = "global")) as [->|]; [destruct (valid_name b) eqn:Hv; [|done]; by intros [= <-]|].
    destruct (bool_decide_reflect (a = "project")) as [->|]; [destruct (valid_name b) eqn:Hv; [|done]; by intros [= <-]|done].
  - intros [-> Hv]. destruct i as [scope name]. simpl in *. pose proof (split_colon_colon (scope_name scope) name) as Hsc. unfold colon in Hsc. rewrite Hsc by (by destruct scope). cbn [ok_or fst snd].
    destruct scope; simpl; by rewrite Hv.
Qed.

Lemma show_skill_inj a b : valid_name (id_name a) = true -> valid_name (id_name b) = true -> show_skill a = show_skill b -> a = b.
Proof.
  intros Ha Hb Heq. assert (parse_skill (show_skill a) = Ok a) as H1 by (by apply parse_skill_exact).
  assert (parse_skill (show_skill b) = Ok b) as H2 by (by apply parse_skill_exact). rewrite Heq in H1. congruence.
Qed.

(** ** Discovery *)
Section discovery.
Context `{PathText} `{YamlLib} (fs : Fs).
Implicit Types ed : list SkillMetadata * list ContextDiagnostic.

Lemma walk_path p rel q : walk fs p rel = Ok q -> q = p ++ rel.
Proof.
  revert p. induction rel as [|name rel IH]; intros p; simpl; [intros [= <-]; by rewrite app_nil_r|].
  destruct (bool_decide _); [done|]. destruct (fs_stat fs _) as [| |[]]; try done; intros ->%IH; by rewrite <- app_assoc.
Qed.

Lemma checked_path_path s d q : checked_path fs s d = Ok q -> q = src_root s ++ src_relative s.
Proof.
  unfold checked_path. destruct (walk _ _ _) as [p|] eqn:Hw; [|done]. apply walk_path in Hw as ->.
  destruct (fs_stat fs _); [done|done|]. destruct (negb _); [done|]. destruct (fs_canonical fs _); [|done]. cbn [ok_or]. destruct (_ || _); [done|]. by intros [= <-].
Qed.

(** What a skill file is read as. *)
Definition head_of (s : SkillSource) : KResult Value :=
  let? r := open_source fs s in let? v := read_head r in Ok (fst v).

(** The entry a skill file makes. *)
Definition entry_of (s : SkillSource) (v : Value) : SkillMetadata := mkSkill (mkSkillId (src_scope s) (skill_name v)) v s.

(** Nothing of what was known goes, and a diagnostic is never taken back. *)
Definition collected ed ed' : Prop := (forall e, e ∈ fst ed -> e ∈ fst ed') /\ (forall d, d ∈ snd ed -> d ∈ snd ed').
#[global] Instance collected_preorder : PreOrder collected.
Proof. split; [by split|]. intros x y z [A B] [C D]. split; auto. Qed.

Lemma push_diagnostic_Ok d ed a ed' : push_diagnostic d ed = (Ok a, ed') -> fst ed' = fst ed /\ snd ed' = snd ed ++ [d].
Proof. intros Hp. by injection Hp as _ <-. Qed.

Lemma diagnosed (b : bool) d ed a ed' :
  (if b then push_diagnostic d else ret tt) ed = (Ok a, ed') -> fst ed' = fst ed /\ collected ed ed'.
Proof.
  destruct b; intros Hp; [|injection Hp as _ <-; by split]. apply push_diagnostic_Ok in Hp as [E D]. split; [done|]. split; [by rewrite E|].
  intros x Hx. rewrite D. apply elem_of_app. by left.
Qed.

Lemma discover_skill_Ok s ed a ed' :
  discover_skill fs s ed = (Ok a, ed') -> ordered (fst ed) ->
  ordered (fst ed') /\ collected ed ed' /\
  match head_of s with
  | Ok v => forall e, e ∈ fst ed' <-> e ∈ fst ed \/ e = entry_of s v
  | Err k => fst ed' = fst ed /\ diagnostic s (Excluded k) ∈ snd ed'
  end.
Proof.
  intros Hd Ho. unfold discover_skill in Hd. unfold head_of. destruct (open_source fs s) as [r|k]; [destruct (read_head r) as [[v r']|k]|].
  - cbn [fst]. unbind Hd. injection Hc as <- <-. destruct (existsb _ _) eqn:Hx; [done|]. unbind Hd. apply diagnosed in Hc as [E1 C1].
    unbind Hd. apply diagnosed in Hc as [E2 C2]. injection Hd as _ <-. assert (fst s1 = fst ed) as E by congruence.
    assert (Forall (fun e => sk_id e <> sk_id (entry_of s v)) (fst ed)) as Hnew.
    { apply Forall_forall. intros e He Hid. apply not_true_iff_false in Hx. destruct Hx. apply existsb_exists. exists e.
      split; [by apply list_elem_of_In|]. rewrite Hid. by rewrite bool_decide_eq_true_2. }
    simpl. rewrite E. split; [by apply insert_skill_ordered|]. split.
    + transitivity s1; [by transitivity s0|]. split; [|done]. intros e He. simpl. apply insert_skill_In. rewrite <- E. by right.
    + intros e. rewrite insert_skill_In. unfold entry_of. naive_solver.
  - assert (push_diagnostic (diagnostic s (Excluded k)) ed = (Ok a, ed')) as Hp by (by destruct k). apply push_diagnostic_Ok in Hp as [E D]. rewrite E, D.
    split; [done|]. split; [split; [by rewrite E|]; intros d Hd'; rewrite D; apply elem_of_app; by left|]. split; [done|]. apply elem_of_app. right. by left.
  - assert (push_diagnostic (diagnostic s (Excluded k)) ed = (Ok a, ed')) as Hp by (by destruct k). apply push_diagnostic_Ok in Hp as [E D]. rewrite E, D.
    split; [done|]. split; [split; [by rewrite E|]; intros d Hd'; rewrite D; apply elem_of_app; by left|]. split; [done|]. apply elem_of_app. right. by left.
Qed.

Section scope.
Context (scope : Scope) (root : path).
Notation at_path rel := (mkSource scope root rel).

(** A directory that is no package is searched through its directories. *)
Definition child_of (child rel : path) : Prop :=
  exists children name, fs_list fs (root ++ rel) = Some children /\ fs_stat fs (root ++ rel ++ ["SKILL.md"]) = Missing /\
    Some (Some name) ∈ children /\ child = rel ++ [name] /\ fs_stat fs (root ++ child) = Present Directory.

Inductive below : path -> path -> Prop :=
| below_here rel : below rel rel
| below_child rel child rel' : child_of child rel -> below child rel' -> below rel rel'.

Lemma entry_names_In s l names : entry_names s l = Ok names -> forall n, n ∈ names <-> Some (Some n) ∈ l.
Proof.
  revert names. induction l as [|[[x|]|] l IH]; intros names Hn n; simpl in Hn; try done.
  - injection Hn as <-. by rewrite !elem_of_nil.
  - destruct (entry_names s l) as [names'|]; [|done]. injection Hn as <-. rewrite !elem_of_cons, (IH names' eq_refl). naive_solver.
Qed.

Lemma insert_sorted_perm {A} (cmp : A -> A -> comparison) x l : insert_sorted cmp x l ≡ₚ x :: l.
Proof.
  induction l as [|y l IH]; simpl; [done|]. destruct (cmp x y); [done|done|]. rewrite IH. by apply Permutation_swap.
Qed.
Lemma sort_by_perm {A} (cmp : A -> A -> comparison) l : sort_by cmp l ≡ₚ l.
Proof. induction l as [|x l IH]; simpl; [done|]. rewrite insert_sorted_perm. by rewrite IH. Qed.

Lemma child_directories_Ok s names : src_scope s = scope -> src_root s = root -> forall ed dirs ed',
  child_directories fs s names ed = (Ok dirs, ed') ->
  fst ed' = fst ed /\ collected ed ed' /\
  forall d, d ∈ dirs <-> exists name, name ∈ names /\ d = src_relative s ++ [name] /\ fs_stat fs (root ++ d) = Present Directory.
Proof.
  intros Hs Hr. induction names as [|name names IH]; intros ed dirs ed' Hc; simpl in Hc.
  { injection Hc as <- <-. split; [done|]. split; [done|]. intros d. rewrite elem_of_nil. split; [done|]. intros (n & Hn & _). by apply elem_of_nil in Hn. }
  rewrite Hs, Hr in Hc. destruct (fs_stat fs (root ++ src_relative s ++ [name])) as [| |[]] eqn:Hst; try done.
  - unbind Hc. apply push_diagnostic_Ok in Hc0 as [E D]. apply IH in Hc as (E' & C' & Hd). split; [congruence|]. split.
    { transitivity s0; [split; [by rewrite E|intros x Hx; rewrite D; apply elem_of_app; by left]|done]. }
    intros d. rewrite Hd. setoid_rewrite elem_of_cons. split; [naive_solver|]. intros (n & [->|Hn] & -> & Hdir); [congruence|by exists n].
  - unbind Hc. injection Hc as <- <-. apply IH in Hc0 as (E' & C' & Hd). split; [done|]. split; [done|]. intros d. rewrite elem_of_cons, Hd. setoid_rewrite elem_of_cons.
    split; [intros [->|(n & ? & ? & ?)]; [exists name; by split; [left|]|exists n; by split; [right|]]|]. intros (n & [->|Hn] & -> & Hdir); [by left|right; by exists n].
  - apply IH in Hc as (E' & C' & Hd). split; [done|]. split; [done|]. intros d. rewrite Hd. setoid_rewrite elem_of_cons.
    split; [naive_solver|]. intros (n & [->|Hn] & -> & Hdir); [congruence|by exists n].
  - apply IH in Hc as (E' & C' & Hd). split; [done|]. split; [done|]. intros d. rewrite Hd. setoid_rewrite elem_of_cons.
    split; [naive_solver|]. intros (n & [->|Hn] & -> & Hdir); [congruence|by exists n].
Qed.

(** The skill file of a directory. *)
Definition skill_file (rel : path) : SkillSource := at_path (rel ++ ["SKILL.md"]).
Definition package (rel : path) : Stat := fs_stat fs (root ++ rel ++ ["SKILL.md"]).

(** What a directory contributes. *)
Definition contributes (rel : path) (e : SkillMetadata) : Prop :=
  exists v k, package rel = Present k /\ k <> Link /\ head_of (skill_file rel) = Ok v /\ e = entry_of (skill_file rel) v.
Definition accounted (rel : path) (ds : list ContextDiagnostic) : Prop :=
  match package rel with
  | Present Link => diagnostic (skill_file rel) SkippedSymlink ∈ ds
  | Present _ => match head_of (skill_file rel) with Ok _ => True | Err k => diagnostic (skill_file rel) (Excluded k) ∈ ds end
  | _ => True
  end.

Lemma visit_directory_Ok rel ed dirs ed' :
  visit_directory fs (at_path rel) ed = (Ok dirs, ed') -> ordered (fst ed) ->
  ordered (fst ed') /\ collected ed ed' /\ accounted rel (snd ed') /\
  (forall e, e ∈ fst ed' <-> e ∈ fst ed \/ contributes rel e) /\ (forall d, d ∈ dirs <-> child_of d rel).
Proof.
  intros Hv Ho. unfold visit_directory in Hv. unbind Hv. injection Hc as Hp <-. apply map_err_Ok, checked_path_path in Hp as ->. simpl in Hv.
  unbind Hv. injection Hc as Hl <-. apply ok_or_Ok in Hl. rewrite <- app_assoc in Hv. fold (package rel) in Hv. fold (skill_file rel) in Hv.
  unfold accounted, contributes, child_of. fold (package rel).
  assert (package rel <> Missing -> forall d : path, d ∈ ([] : list path) <-> child_of d rel) as Hnil.
  { intros Hne d. split; [by intros ?%elem_of_nil|]. by intros (children & name & _ & Hm & _). }
  unfold child_of in Hnil. fold (package rel) in Hnil. destruct (package rel) as [| |k] eqn:Hpk; [|done|].
  - unbind Hv. injection Hc as Hn <-. apply (child_directories_Ok (at_path rel)) in Hv as (E & C & Hd); [|done|done]. rewrite E. split; [done|]. split; [done|]. split; [done|].
    split; [intros e; split; [by left|intros [?|(v & k & ? & _)]; done]|]. intros d. rewrite Hd. setoid_rewrite (sort_by_perm String.compare a0).
    setoid_rewrite (entry_names_In _ _ _ Hn). split.
    + intros (name & Hin & -> & Hdir). by exists a, name.
    + intros (children & name & Hch & _ & Hin & -> & Hdir). rewrite Hl in Hch. injection Hch as <-. by exists name.
  - assert (k = Link \/ k <> Link /\ exists s1, discover_skill fs (skill_file rel) ed = (Ok tt, s1) /\ dirs = [] /\ ed' = s1) as [->|(Hk & s1 & Hs & -> & ->)].
    { destruct k; [by left|..]; right; (split; [done|]); unbind Hv; injection Hv as <- <-; destruct a0; by eexists. }
    + unbind Hv. injection Hv as <- <-. apply push_diagnostic_Ok in Hc as [E D]. rewrite E, D. split; [done|].
      split; [split; [by rewrite E|intros x Hx; rewrite D; apply elem_of_app; by left]|]. split; [apply elem_of_app; right; by left|].
      split; [intros e; split; [by left|intros [?|(v & k & [= <-] & ? & _)]; done]|]. by apply Hnil.
    + apply discover_skill_Ok in Hs as (Ho' & C & Hs); [|done]. split; [done|]. split; [done|]. split; [|split; [|by apply Hnil]].
      * destruct k; [done|..]; by destruct (head_of (skill_file rel)); [|apply Hs].
      * intros e. destruct (head_of (skill_file rel)) as [v|kind].
        -- rewrite Hs. split; [intros [?| ->]; [by left|right; by exists v, k]|]. intros [?|(v' & k' & _ & _ & [= <-] & ->)]; [by left|by right].
        -- destruct Hs as [-> _]. split; [by left|]. intros [?|(v' & k' & _ & _ & ? & _)]; done.
Qed.

Lemma accounted_more rel ds ds' : accounted rel ds -> (forall d, d ∈ ds -> d ∈ ds') -> accounted rel ds'.
Proof.
  intros Ha Hsub. unfold accounted in *. destruct (package rel) as [| |[]]; try done; [by apply Hsub|..].
  all: destruct (head_of (skill_file rel)); [done|]; by apply Hsub.
Qed.

(** A scope: everything below the pending directories, and nothing else. *)
Lemma discover_scope_Ok fuel : forall pending ed ed',
  discover_scope fuel fs scope root pending ed = Some (Ok tt, ed') -> ordered (fst ed) ->
  ordered (fst ed') /\ collected ed ed' /\
  (forall e, e ∈ fst ed' <-> e ∈ fst ed \/ exists start rel, start ∈ pending /\ below start rel /\ contributes rel e) /\
  (forall start rel, start ∈ pending -> below start rel -> accounted rel (snd ed')).
Proof.
  induction fuel as [|fuel IH]; intros pending ed ed' Hd Ho; (destruct pending as [|rel pending];
    [injection Hd as <-; split; [done|]; split; [done|]; split; [intros e; split; [by left|intros [?|(st & ? & Hin & _)]; [done|by apply elem_of_nil in Hin]]
      |intros st ? Hin; by apply elem_of_nil in Hin]|]); [done|]. cbn [discover_scope] in Hd.
  destruct (visit_directory fs (at_path rel) ed) as [[dirs|e] ed1] eqn:Hv; [|done]. apply visit_directory_Ok in Hv as (Ho1 & C1 & A1 & E1 & D1); [|done].
  apply IH in Hd as (Ho' & C' & E' & A'); [|done]. split; [done|]. split; [by transitivity ed1|].
  assert (forall start rel', start ∈ rel :: pending -> below start rel' -> rel' = rel /\ start = rel \/ exists st, st ∈ dirs ++ pending /\ below st rel') as Hcase.
  { intros start rel' Hin Hb. apply elem_of_cons in Hin as [->|Hin]; [|right; exists start; split; [apply elem_of_app; by right|done]].
    inversion Hb as [|? child ? Hch Hb']; subst; [by left|]. right. exists child. split; [apply elem_of_app; left; by apply D1|done]. }
  split.
  - intros e. rewrite E', E1. split.
    + intros [[He|Hc]|(st & rel' & Hin & Hb & Hc)]; [by left|right; exists rel, rel; split; [by left|]; split; [constructor|done]|right].
      apply elem_of_app in Hin as [Hin|Hin]; [|exists st, rel'; split; [by right|done]]. exists rel, rel'. split; [by left|]. split; [|done].
      econstructor; [by apply D1|done].
    + intros [He|(st & rel' & Hin & Hb & Hc)]; [by left; left|]. destruct (Hcase _ _ Hin Hb) as [[-> _]|(st' & Hin' & Hb')]; [left; by right|right; by exists st', rel'].
  - intros st rel' Hin Hb. destruct (Hcase _ _ Hin Hb) as [[-> _]|(st' & Hin' & Hb')]; [|by eapply A']. eapply accounted_more; [exact A1|]. apply C'.
Qed.

(** *** The walk ends

    What is below is deeper, so it ends where no listing is deeper than some bound. *)
Lemma discover_scope_more fuel : forall pending ed answer m,
  discover_scope fuel fs scope root pending ed = Some answer -> (fuel <= m)%nat -> discover_scope m fs scope root pending ed = Some answer.
Proof.
  induction fuel as [|fuel IH]; intros pending ed answer m Hd Hm; (destruct pending as [|rel pending]; [by destruct m|]); [done|].
  destruct m as [|m]; [lia|]. cbn [discover_scope] in *. destruct (visit_directory fs _ ed) as [[dirs|e] ed1]; [|done]. apply IH; [done|lia].
Qed.

Lemma discover_scope_ends :
  (forall rel, Acc child_of rel) -> forall pending ed, ordered (fst ed) -> exists fuel, discover_scope fuel fs scope root pending ed <> None.
Proof.
  intros Hacc. assert (forall rel pending, (forall ed, ordered (fst ed) -> exists fuel, discover_scope fuel fs scope root pending ed <> None) ->
    forall ed, ordered (fst ed) -> exists fuel, discover_scope fuel fs scope root (rel :: pending) ed <> None) as Hstep.
  { intros rel. induction (Hacc rel) as [rel _ IH]. intros pending Hp ed Ho. destruct (visit_directory fs (at_path rel) ed) as [[dirs|e] ed1] eqn:Hv.
    - pose proof Hv as Hx. apply visit_directory_Ok in Hx as (Ho1 & _ & _ & _ & D1); [|done].
      assert (forall l ed, Forall (fun d => child_of d rel) l -> ordered (fst ed) -> exists fuel, discover_scope fuel fs scope root (l ++ pending) ed <> None) as Hall.
      { induction l as [|d l IHl]; intros ed2 Hl Ho2; [by apply Hp|]. apply Forall_cons in Hl as [Hd Hl]. simpl. apply IH; [done| |done]. intros ed3. by apply IHl. }
      destruct (Hall dirs ed1) as [fuel Hf]; [|done|exists (S fuel); cbn [discover_scope]; by rewrite Hv]. apply Forall_forall. intros d. apply D1.
    - exists 1%nat. cbn [discover_scope]. by rewrite Hv. }
  induction pending as [|rel pending IH]; intros ed Ho; [by exists O|]. by apply Hstep.
Qed.

Lemma bounded_accessible depth :
  (forall p, is_Some (fs_list fs p) -> (length p <= depth)%nat) -> forall rel, Acc child_of rel.
Proof.
  intros Hb rel. remember (S depth - length rel)%nat as n eqn:Hn. revert rel Hn. induction (lt_wf n) as [n _ IH]. intros rel ->.
  constructor. intros child (children & name & Hl & _ & _ & -> & _). eapply IH; [|done]. rewrite length_app. simpl.
  pose proof (Hb (root ++ rel) ltac:(by rewrite Hl)) as Hle. rewrite length_app in Hle. lia.
Qed.
End scope.

(** A scope ends the same way with more fuel. *)
Lemma scope_ends depth scope root pending ed :
  (forall p, is_Some (fs_list fs p) -> (length p <= depth)%nat) -> ordered (fst ed) ->
  exists enough answer, forall fuel, (enough <= fuel)%nat -> discover_scope fuel fs scope root pending ed = Some answer.
Proof.
  intros Hb Ho. destruct (discover_scope_ends scope root (bounded_accessible root depth Hb) pending ed Ho) as [n Hn].
  destruct (discover_scope n fs scope root pending ed) as [answer|] eqn:Hd; [|done]. exists n, answer. intros fuel. by apply discover_scope_more.
Qed.

Lemma project_directory_Ok ws rel ed b ed' :
  project_directory fs ws rel ed = (Ok b, ed') ->
  fst ed' = fst ed /\ collected ed ed' /\ (b = true <-> fs_stat fs (ws ++ rel) = Present Directory).
Proof.
  unfold project_directory. destruct (fs_stat fs (ws ++ rel)) as [| |[]]; intros Hp; try done.
  - by injection Hp as <- <-.
  - unbind Hp. apply push_diagnostic_Ok in Hc as [E D]. injection Hp as <- <-. split; [done|]. split; [|done]. split; [by rewrite E|].
    intros x Hx. rewrite D. apply elem_of_app. by left.
  - unbind Hp. injection Hc as _ <-. unbind Hp. injection Hc as _ <-. by injection Hp as <- <-.
Qed.

Lemma project_skills_Ok ws ed b ed' :
  project_skills fs ws ed = (Ok b, ed') ->
  fst ed' = fst ed /\ collected ed ed' /\
  (b = true <-> fs_stat fs (ws ++ [".agents"]) = Present Directory /\ fs_stat fs (ws ++ [".agents"; "skills"]) = Present Directory).
Proof.
  intros Hp. unfold project_skills in Hp. unbind Hp. apply project_directory_Ok in Hc as (E & C & Ha). destruct a; simpl in Hp.
  - apply project_directory_Ok in Hp as (E' & C' & Hb). split; [congruence|]. split; [by transitivity s|]. rewrite Hb. naive_solver.
  - injection Hp as <- <-. split; [done|]. split; [done|]. naive_solver.
Qed.

(** Where the skill files of a catalog are looked for. *)
Definition searched (c : SkillCatalog) (scope : Scope) (root rel : path) : Prop :=
  match scope with
  | Global => ct_global_skills c = Some root /\ below root [] rel
  | Project => ct_workspace c = root /\ fs_stat fs (root ++ [".agents"]) = Present Directory /\
      fs_stat fs (root ++ [".agents"; "skills"]) = Present Directory /\ below root [".agents"; "skills"] rel
  end.

Lemma discover_Ok fuel roots c :
  discover fuel fs roots = Some (Ok c) ->
  ordered (ct_entries c) /\
  (forall e, e ∈ ct_entries c <-> exists scope root rel, searched c scope root rel /\ contributes scope root rel e) /\
  (forall scope root rel, searched c scope root rel -> accounted scope root rel (ct_diagnostics c)).
Proof.
  unfold discover. destruct (resolve_root fs _ _ Project _) as [ws|]; [|done]. destruct (resolve_root fs _ _ Global _) as [gs|]; [|done].
  destruct ws as [ws|]; [|done]. cbn [ok_or]. destruct (fs_list fs ws); [|done]. cbn [ok_or].
  assert (ordered []) as Hnil by constructor.
  destruct (match gs with Some g => _ | None => _ end) as [[[[]|e] ed1]|] eqn:Hg; [|done|done].
  assert (ordered (fst ed1) /\
    (forall e, e ∈ fst ed1 <-> exists root rel, gs = Some root /\ below root [] rel /\ contributes Global root rel e) /\
    (forall root rel, gs = Some root -> below root [] rel -> accounted Global root rel (snd ed1))) as (Ho1 & E1 & A1).
  { destruct gs as [g|]; [|injection Hg as <-; split; [done|]; split; [|done]; intros e; split; [by intros ?%elem_of_nil|by intros (? & ? & ? & _)]].
    apply discover_scope_Ok in Hg as (Ho & _ & E & A); [|done]. split; [done|]. split; [|intros root rel [= <-]; apply A; by left].
    intros e. rewrite E. simpl. rewrite elem_of_nil. split; [intros [?|(st & rel & ->%list_elem_of_singleton & ? & ?)]; [done|by exists g, rel]|].
    intros (root & rel & [= <-] & ? & ?). right. exists [], rel. by split; [left|]. }
  destruct (project_skills fs ws ed1) as [[present|e] ed2] eqn:Hp; [|done]. apply project_skills_Ok in Hp as (E2 & C2 & Hp).
  destruct (if present then _ else _) as [[[[]|e] ed3]|] eqn:Hs; [|done|done]. intros [= <-]. unfold searched. simpl.
  assert (ordered (fst ed3) /\ collected ed2 ed3 /\
    (forall e, e ∈ fst ed3 <-> e ∈ fst ed2 \/ exists rel, present = true /\ below ws [".agents"; "skills"] rel /\ contributes Project ws rel e) /\
    (forall rel, present = true -> below ws [".agents"; "skills"] rel -> accounted Project ws rel (snd ed3))) as (Ho3 & C3 & E3 & A3).
  { destruct present; [|injection Hs as <-; rewrite E2; split; [done|]; split; [done|]; split; [naive_solver|done]].
    apply discover_scope_Ok in Hs as (Ho & C & E & A); [|by rewrite E2]. split; [done|]. split; [done|]. split; [|intros rel _; apply A; by left].
    intros e. rewrite E. split; [intros [?|(st & rel & ->%list_elem_of_singleton & ? & ?)]; [by left|right; by exists rel]|].
    intros [?|(rel & _ & ? & ?)]; [by left|]. right. exists [".agents"; "skills"], rel. by split; [left|]. }
  split; [done|]. split.
  - intros e. rewrite E3, E2, E1. split.
    + intros [(root & rel & ? & ? & ?)|(rel & Hpr & ? & ?)]; [by exists Global, root, rel|exists Project, ws, rel]. apply Hp in Hpr. naive_solver.
    + intros ([] & root & rel & Hsr & Hc); [left; exists root, rel; naive_solver|]. destruct Hsr as (<- & H1 & H2 & Hb). right. exists rel. split; [by apply Hp|done].
  - intros [] root rel Hsr; (eapply accounted_more; [|intros d Hd; rewrite (sort_by_perm diagnostic_compare (snd ed3)); exact Hd]).
    + destruct Hsr as [Hr Hb]. eapply accounted_more; [by apply A1|]. intros d Hd. by apply C3, C2.
    + destruct Hsr as (<- & H1 & H2 & Hb). apply A3; [by apply Hp|done].
Qed.
End discovery.

(** ** Catalogs, loading and preparation *)
Section claims.
Context `{PathText} `{YamlLib}.

(** Discovery ends.  On a snapshot whose directories are no deeper than some
    bound there is an amount of fuel with which [discover] answers, and more fuel does
    not change the answer: the model's bound on the loop is no bound on the program. *)
Lemma discover_ends fs roots depth :
  (forall p, is_Some (fs_list fs p) -> (length p <= depth)%nat) ->
  exists enough answer, forall fuel, (enough <= fuel)%nat -> discover fuel fs roots = Some answer.
Proof.
  intros Hb. unfold discover. assert (ordered []) as Hnil by constructor.
  destruct (let? ws := resolve_root fs _ _ Project _ in _) as [[ws gs]|e]; [|exists O; by eexists].
  assert (exists enough answer, forall fuel, (enough <= fuel)%nat ->
    match gs with Some g => discover_scope fuel fs Global g [[]] ([], []) | None => Some (Ok tt, ([], [])) end = Some answer) as (n1 & [r1 ed1] & H1).
  { destruct gs as [g|]; [by eapply scope_ends|exists O; by eexists]. }
  destruct r1 as [[]|e]; [|exists n1, (Err e); intros fuel Hf; by rewrite H1].
  assert (ordered (fst ed1)) as Ho1.
  { specialize (H1 n1 (Nat.le_refl _)). destruct gs as [g|]; [by eapply discover_scope_Ok|by injection H1 as <-]. }
  destruct (project_skills fs ws ed1) as [[present|e] ed2] eqn:Hp; [|exists n1, (Err e); intros fuel Hf; by rewrite H1, Hp].
  apply project_skills_Ok in Hp as Hp2. destruct Hp2 as (E2 & _).
  assert (exists enough answer, forall fuel, (enough <= fuel)%nat ->
    (if present : bool then discover_scope fuel fs Project ws [[".agents"; "skills"]] ed2 else Some (Ok tt, ed2)) = Some answer) as (n2 & [r2 ed3] & H2).
  { destruct present; [eapply scope_ends; [done|rewrite E2; exact Ho1]|exists O; by eexists]. }
  exists (Nat.max n1 n2). destruct r2; eexists; intros fuel Hf; rewrite H1 by lia; by rewrite Hp, H2 by lia.
Qed.

(** C30. The catalog is exact.  Its entries are the heads of the skill files found in
    the directories searched: those below the global root, and below
    [.agents/skills] where that is a directory, reached through directories that hold
    no skill file and never through a link; nothing else is an entry, entries are in
    the order of their identifiers and no identifier has two.  A skill file that makes
    no entry is named by a diagnostic with the reason. *)
Theorem discovered_exact fs fuel roots c :
  discover fuel fs roots = Some (Ok c) ->
  ordered (ct_entries c) /\
  (forall e, e ∈ ct_entries c <-> exists scope root rel, searched fs c scope root rel /\ contributes fs scope root rel e) /\
  (forall scope root rel, searched fs c scope root rel -> accounted fs scope root rel (ct_diagnostics c)).
Proof. apply discover_Ok. Qed.

(** ** Well-formed catalogs *)

(** An entry: a head that was validated, under the name it gives. *)
Record EntryOk (e : SkillMetadata) : Prop := {
  eo_head : validate_frontmatter (sk_frontmatter e) = Ok tt;
  eo_name : id_name (sk_id e) = skill_name (sk_frontmatter e);
  eo_scope : id_scope (sk_id e) = src_scope (sk_source e)
}.
Record CatalogOk (c : SkillCatalog) : Prop := {
  co_ordered : ordered (ct_entries c);
  co_entries : forall e, e ∈ ct_entries c -> EntryOk e
}.

Lemma validate_name v : validate_frontmatter v = Ok tt -> valid_name (skill_name v) = true.
Proof.
  unfold validate_frontmatter, skill_name. destruct (get v "name" ≫= as_str) as [n|]; [|done]. cbn [is_some_and default]. change (id n) with n. by destruct (valid_name n).
Qed.

Lemma entry_name_valid c e : CatalogOk c -> e ∈ ct_entries c -> valid_name (id_name (sk_id e)) = true.
Proof. intros Hc He. destruct (co_entries c Hc e He) as [Hv Hn _]. rewrite Hn. by apply validate_name. Qed.

Lemma read_head_exact r v r' :
  read_head r = Ok (v, r') <->
  exists ls, headed_file r ls r' /\ from_utf8 (joined ls) = true /\ parse (joined ls) = Ok v /\ validate_frontmatter v = Ok tt.
Proof.
  rewrite <- read_frontmatter_exact. unfold read_head. pose proof (read_frontmatter_ends r). destruct (read_frontmatter r); [|done]. split; congruence.
Qed.

Lemma head_of_valid fs s v : head_of fs s = Ok v -> validate_frontmatter v = Ok tt.
Proof.
  unfold head_of. destruct (open_source fs s) as [r|]; [|done]. destruct (read_head r) as [[w r']|] eqn:Hr; [|done]. intros [= <-].
  apply read_head_exact in Hr as (ls & _ & _ & _ & ?). done.
Qed.

Lemma discovered_ok fs fuel roots c : discover fuel fs roots = Some (Ok c) -> CatalogOk c.
Proof.
  intros (Ho & He & _)%discover_Ok. split; [done|]. intros e (scope & root & rel & _ & v & k & _ & _ & Hv & ->)%He. split; simpl; [by eapply head_of_valid|done|done].
Qed.

Lemma lookup_exact c id e : CatalogOk c -> lookup c id = Ok e <-> e ∈ ct_entries c /\ sk_id e = id.
Proof.
  intros Hc. unfold lookup. split.
  - destruct (valid_name _); [|done]. cbn [negb]. intros Hb%ok_or_Ok. by apply binary_search_exact in Hb; [|apply Hc].
  - intros [He <-]. rewrite (entry_name_valid c e Hc He). cbn [negb]. apply ok_or_Ok, binary_search_exact; [apply Hc|done].
Qed.

Lemma arguments_id_exact c v id :
  CatalogOk c -> arguments_id c v = Ok id <-> v = object [("id", VString (show_skill id))] /\ id ∈ sk_id <$> ct_entries c.
Proof.
  intros Hc. split.
  - destruct v as [| | | | |fields]; try done. unfold arguments_id. destruct fields as [|[k w] [|]]; try done. cbn [length Nat.eqb negb get assoc].
    destruct (bool_decide_reflect (k = "id")) as [->|]; [|done]. destruct w; try done. cbn [mbind option_bind as_str ok_or].
    destruct (parse_skill s) as [i|] eqn:Hp; [|done]. apply parse_skill_exact in Hp as [-> _]. cbn [map_err]. destruct (lookup c i) as [e|] eqn:Hl; [|done].
    intros [= <-]. apply lookup_exact in Hl as [He <-]; [|done]. split; [done|]. apply list_elem_of_fmap. by exists e.
  - intros [-> Hin]. apply list_elem_of_fmap in Hin as (e & -> & He). cbn -[show_skill lookup parse_skill]. rewrite bool_decide_eq_true_2 by done. cbn [mbind option_bind as_str ok_or].
    rewrite (proj2 (parse_skill_exact (show_skill (sk_id e)) (sk_id e))) by (split; [done|by eapply entry_name_valid]). cbn [map_err].
    by rewrite (proj2 (lookup_exact c (sk_id e) e Hc) (conj He eq_refl)).
Qed.

(** C29. What discovery returns is a well-typed catalog, and its clients can rely on it:
    every entry has a validated head and is listed under the valid name its head gives
    in the scope of its source; looking an identifier up gives exactly the entry that
    has it; and the loader tool accepts exactly the one-field objects that spell an
    advertised identifier. *)
Theorem discovered_typed fs fuel roots c :
  discover fuel fs roots = Some (Ok c) ->
  CatalogOk c /\
  (forall id e, lookup c id = Ok e <-> e ∈ ct_entries c /\ sk_id e = id) /\
  (forall v id, arguments_id c v = Ok id <-> v = object [("id", VString (show_skill id))] /\ id ∈ sk_id <$> ct_entries c).
Proof.
  intros Hc%discovered_ok. split; [done|]. split; intros; [by apply lookup_exact|by apply arguments_id_exact].
Qed.

(** ** Loading *)

Lemma read_bytes_exact fs s bytes :
  read_bytes fs s = Ok bytes <-> open_source fs s = Ok (mkReader bytes false) /\ len bytes <= MAX_INPUT_BYTES.
Proof.
  unfold read_bytes. destruct (open_source fs s) as [[b f]|]; cbn [map_err rd_bytes rd_fails]; [|naive_solver].
  destruct (Z.ltb_spec MAX_INPUT_BYTES (len b)) as [Hl|Hl]; [split; [done|]; intros [[= -> _] ?]; lia|]. destruct f; naive_solver.
Qed.

(** The text of a loaded skill in a file. *)
Record loads (r : Reader) (e : SkillMetadata) (l : LoadedSkill) : Prop := {
  lo_file : exists ls, headed_file r ls (mkReader (ld_body l) false) /\ from_utf8 (joined ls) = true /\ parse (joined ls) = Ok (ld_frontmatter l);
  lo_size : rd_fails r = false /\ len (rd_bytes r) <= MAX_INPUT_BYTES;
  lo_id : ld_id l = sk_id e;
  lo_head : value_eqb (ld_frontmatter l) (sk_frontmatter e) = true /\ validate_frontmatter (ld_frontmatter l) = Ok tt;
  lo_body : from_utf8 (ld_body l) = true /\ trim_is_empty (ld_body l) = false
}.

Lemma load_skill_exact fs c id l :
  CatalogOk c ->
  load_skill fs c id = Ok l <-> exists e r, e ∈ ct_entries c /\ sk_id e = id /\ open_source fs (sk_source e) = Ok r /\ loads r e l.
Proof.
  intros Hc. unfold load_skill. split.
  - destruct (lookup c id) as [e|] eqn:He; [|done]. apply lookup_exact in He as [He <-]; [|done]. cbv beta match.
    destruct (read_bytes fs (sk_source e)) as [bytes|] eqn:Hb; [|done]. apply read_bytes_exact in Hb as [Ho Hl].
    destruct (read_head (mkReader bytes false)) as [[v [body f]]|] eqn:Hh; [|done]. cbn [map_err fst snd rd_bytes].
    apply read_head_exact in Hh as (ls & Hf & Hu & Hp & Hv). pose proof (hf_fails _ _ _ Hf) as Hff. simpl in Hff. subst f.
    destruct (value_eqb v (sk_frontmatter e)) eqn:Hveq; [|done]. destruct (from_utf8 body) eqn:Hub; [|done]. destruct (trim_is_empty body) eqn:Ht; [done|].
    intros [= <-]. exists e, (mkReader bytes false). split_and!; try done. split; simpl; try done. by exists ls.
  - intros (e & [bytes f] & He & <- & Ho & [(ls & Hf & Hu & Hp) [Hff Hl] Hi [Hveq Hv] [Hub Ht]]). simpl in Hff, Hl. subst f.
    rewrite (proj2 (lookup_exact c _ e Hc) (conj He eq_refl)). cbv beta match.
    rewrite (proj2 (read_bytes_exact fs (sk_source e) bytes) (conj Ho Hl)). cbv beta match.
    rewrite (proj2 (read_head_exact (mkReader bytes false) (ld_frontmatter l) (mkReader (ld_body l) false))) by (by exists ls).
    cbn [map_err fst snd rd_bytes]. rewrite Hveq, Hub, Ht. cbn [negb]. rewrite <- Hi. by destruct l.
Qed.

(** Loading gives what was advertised.  From a discovered catalog [load_skill]
    returns a skill, in any later state of the file system, if and only if the file
    behind the entry can still be opened without a link, is within the limit, and
    starts with a head equal to the advertised one; what it returns is the entry's
    identifier, that head and the text behind the closing delimiter, byte for byte. *)
Lemma loaded_exact fs0 fuel roots c fs id l :
  discover fuel fs0 roots = Some (Ok c) ->
  load_skill fs c id = Ok l <-> exists e r, e ∈ ct_entries c /\ sk_id e = id /\ open_source fs (sk_source e) = Ok r /\ loads r e l.
Proof. intros Hc%discovered_ok. by apply load_skill_exact. Qed.

(** ** Preparation *)
Context `{ProviderSerde} `{SerdeJson}.

Lemma select_exact c seen sel ids :
  CatalogOk c -> select c seen sel = Ok ids ->
  NoDup ids /\ (forall id, id ∈ ids <-> id ∈ sel /\ id ∉ seen) /\ (forall id, id ∈ sel -> id ∈ sk_id <$> ct_entries c).
Proof.
  intros Hc. revert seen ids. induction sel as [|i sel IH]; intros seen ids Hs; simpl in Hs.
  { injection Hs as <-. split; [constructor|]. split; intros id; rewrite elem_of_nil; naive_solver. }
  destruct (lookup c i) as [e|] eqn:Hl; [|done]. apply lookup_exact in Hl as [He <-]; [|done].
  assert (sk_id e ∈ sk_id <$> ct_entries c) as Hin by (apply list_elem_of_fmap; by exists e).
  destruct (bool_decide_reflect (sk_id e ∈ seen)) as [Hseen|Hseen].
  - apply IH in Hs as (Hd & Hi & Ha). split; [done|]. split; intros id; [rewrite Hi|]; rewrite elem_of_cons; naive_solver.
  - destruct (select c (sk_id e :: seen) sel) as [rest|] eqn:Hr; [|done]. injection Hs as <-. apply IH in Hr as (Hd & Hi & Ha). split.
    + constructor; [|done]. rewrite Hi, elem_of_cons. naive_solver.
    + split; intros id; [rewrite elem_of_cons, Hi|]; rewrite !elem_of_cons; [|naive_solver]. destruct (decide (id = sk_id e)); naive_solver.
Qed.

Lemma load_all_ids fs c ids l : CatalogOk c -> load_all fs c ids = Ok l -> ld_id <$> l = ids.
Proof.
  intros Hc. revert l. induction ids as [|i ids IH]; intros l Hl; simpl in Hl; [by injection Hl as <-|].
  destruct (load_skill fs c i) as [x|] eqn:Hx; [|done]. apply load_skill_exact in Hx as (e & r & _ & <- & _ & [_ _ Hi _ _]); [|done].
  destruct (load_all fs c ids) as [rest|]; [|done]. injection Hl as <-. by rewrite fmap_cons, Hi, (IH rest eq_refl).
Qed.

(** The store's reading of identifiers is the one of this component. *)
Lemma is_skill_id_exact s : is_skill_id s = true <-> exists i, parse_skill s = Ok i.
Proof.
  unfold is_skill_id, parse_skill. destruct (split_colon s) as [[a b]|]; cbn [ok_or fst snd]; [|naive_solver].
  destruct (bool_decide_reflect (a = "global")), (bool_decide_reflect (a = "project")), (valid_name b); simpl; naive_solver.
Qed.

Lemma available_set_shown ids seen :
  (forall i, i ∈ ids -> valid_name (id_name i) = true) -> NoDup ids -> (forall i, i ∈ ids -> show_skill i ∉ seen) ->
  available_set seen (show_skill <$> ids) = Ok (list_to_set (show_skill <$> ids) ∪ seen).
Proof.
  revert seen. induction ids as [|i ids IH]; intros seen Hv Hd Hs; [simpl; f_equal; set_solver|]. rewrite fmap_cons. cbn [available_set list_to_set].
  apply NoDup_cons in Hd as [Hi Hd]. assert (is_skill_id (show_skill i) = true) as ->.
  { apply is_skill_id_exact. exists i. apply parse_skill_exact. split; [done|]. apply Hv. by left. }
  cbn [negb]. rewrite bool_decide_eq_false_2 by (apply Hs; by left). rewrite IH; [f_equal; set_solver|intros j Hj; apply Hv; by right|done|].
  intros j Hj. apply not_elem_of_union. split; [|apply Hs; by right]. intros Heq%elem_of_singleton. apply show_skill_inj in Heq; [by subst|apply Hv; by right|apply Hv; by left].
Qed.

Lemma active_ok_shown (known seen : gset string) ids :
  (forall i, i ∈ ids -> valid_name (id_name i) = true /\ show_skill i ∈ known) -> NoDup ids -> (forall i, i ∈ ids -> show_skill i ∉ seen) ->
  active_ok known seen (show_skill <$> ids) = Ok tt.
Proof.
  revert seen. induction ids as [|i ids IH]; intros seen Hv Hd Hs; [done|]. rewrite fmap_cons. cbn [active_ok]. apply NoDup_cons in Hd as [Hi Hd].
  rewrite (bool_decide_eq_true_2 (_ ∈ known)) by (apply Hv; by left). rewrite bool_decide_eq_false_2 by (apply Hs; by left). simpl.
  apply IH; [intros j Hj; apply Hv; by right|done|]. intros j Hj. apply not_elem_of_union. split; [|apply Hs; by right].
  intros Heq%elem_of_singleton. apply show_skill_inj in Heq; [by subst|apply Hv; by right|apply Hv; by left].
Qed.

Lemma ordered_ids_NoDup l : ordered l -> NoDup (sk_id <$> l).
Proof.
  induction 1 as [|e l _ IH He]; [constructor|]. constructor; [|done]. intros (x & Hx & Hin)%list_elem_of_fmap. rewrite Forall_forall in He.
  specialize (He x Hin). rewrite Hx, (proj2 (skill_compare_eq _ _) eq_refl) in He. done.
Qed.

(** What a prepared run went through. *)
Lemma prepare_context_Ok fs request c selected registry framing p :
  CatalogOk c -> prepare fs request c selected registry framing = Ok p ->
  Provider.tools (rq_options (pr_request p)) = [] /\ validate_request request registry = Ok tt /\ validate_request (pr_request p) registry = Ok tt /\
  cm_available_skills (pr_manifest p) = sk_id <$> ct_entries c /\ select c [] selected = Ok (cm_active_skills (pr_manifest p)) /\
  (cm_project_instructions_source (pr_manifest p) = None \/ cm_project_instructions_source (pr_manifest p) = Some PROJECT_SOURCE).
Proof.
  intros Hc. unfold prepare. destruct (Provider.tools (rq_options request)) eqn:Ht; [|done]. destruct (select c [] selected) as [ids|]; [|done].
  destruct (project_instructions fs c) as [project|]; [|done]. destruct (load_all fs c ids) as [active|] eqn:Hl; [|done]. apply load_all_ids in Hl; [|done].
  destruct (validate_request request registry) as [[]|] eqn:Hv; [|done]. cbv zeta.
  set (req := if _ || _ || _ then _ else _). assert (Provider.tools (rq_options req) = []) as Ht' by (subst req; by destruct (_ || _)).
  destruct (validate_request req registry) as [[]|] eqn:Hv'; [|done]. intros [= <-]. simpl. rewrite Hl. split_and!; try done. destruct project; [by right|by left].
Qed.

Lemma definitions_eqb_refl l : definitions_eqb l l = true.
Proof.
  induction l as [|d l IH]; [done|]. cbn [definitions_eqb]. rewrite IH, andb_true_r. unfold definition_eqb.
  rewrite !bool_decide_eq_true_2, value_eqb_refl by done. by destruct (td_strict d).
Qed.

Lemma require_refuses caps features e : require caps features = Err e -> exists what, e = UnsupportedFeature what.
Proof. induction features as [|f l IH]; simpl; [done|]. destruct (existsb _ _); [done|]. intros [= <-]. by eexists. Qed.

(** C31. A prepared run can be recorded and admitted.  When [prepare] returns a run for
    a discovered catalog, the store's constructor accepts its task, request and
    manifest as they are; the active skills are the selection with each taken once;
    and the controller, given the definitions that were recorded, refuses the run only
    for what the provider does not have or because it was cancelled. *)
Theorem prepared_recordable fs0 fuel roots c fs request selected registry framing p :
  discover fuel fs0 roots = Some (Ok c) -> prepare fs request c selected registry framing = Ok p ->
  let m := pr_manifest p in
  (exists input, new_run_input (rq_prompt request) (pr_request p) (definitions registry) (show_skill <$> cm_available_skills m)
     (show_skill <$> cm_active_skills m) (cm_project_instructions_source m) = Ok input) /\
  NoDup (cm_active_skills m) /\ (forall id, id ∈ cm_active_skills m <-> id ∈ selected) /\
  (forall g cancelled e, admit_with_snapshot g (pr_request p) registry cancelled (Some (definitions registry)) = Err e ->
     e = UnknownProvider \/ (exists what, e = UnsupportedFeature what) \/ cancelled = true).
Proof.
  intros Hc%discovered_ok Hp. apply prepare_context_Ok in Hp as (Ht & Hv & Hv' & Ha & Hs & Hsrc); [|done]. cbv zeta. apply select_exact in Hs as (Hd & Hi & Hk); [|done].
  unfold validate_request in Hv, Hv'. destruct (validate_input [User (rq_prompt request)]) as [[]|] eqn:Hin; [|done].
  destruct (validate_input [User (rq_prompt (pr_request p))]) as [[]|] eqn:Hin'; [|done]. cbn [map_err] in Hv, Hv'. apply map_err_Ok in Hv'.
  assert (forall i, i ∈ sk_id <$> ct_entries c -> valid_name (id_name i) = true) as Hval.
  { intros i (e & -> & He)%list_elem_of_fmap. by eapply entry_name_valid. }
  assert (forall i, i ∈ cm_active_skills (pr_manifest p) -> i ∈ sk_id <$> ct_entries c) as Hact by (intros i [? _]%Hi; by apply Hk).
  split; [|split; [done|split; [intros id; rewrite Hi, elem_of_nil; naive_solver|]]].
  - unfold new_run_input. rewrite Ht, Hin, Hin'. cbn [map_err]. unfold with_tools in Hv'. rewrite Hv'. cbn [map_err]. rewrite Ha.
    rewrite available_set_shown; [|done|apply ordered_ids_NoDup, Hc|intros; set_solver]. rewrite active_ok_shown; [|..|done|intros; set_solver].
    + destruct Hsrc as [-> | ->]; by eexists.
    + intros i Hx. apply Hact in Hx. split; [by apply Hval|]. apply elem_of_union_l, elem_of_list_to_set, list_elem_of_fmap. by exists i.
  - intros g cancelled e. unfold admit_with_snapshot. rewrite Ht, Hin'.
    change (tools (with_tools (definitions (fresh_scope registry)) (rq_options (pr_request p)))) with (definitions registry).
    change (definitions (fresh_scope registry)) with (definitions registry). cbn [is_some_and]. rewrite definitions_eqb_refl, Hv'. cbn [negb]. unfold gateway_capabilities.
    destruct (providers g !! _) as [pr|]; [|intros [= <-]; by left]. cbn [ok_or]. destruct (negb _); [intros [= <-]; right; left; by eexists|].
    destruct (_ && _); [intros [= <-]; right; left; by eexists|]. destruct (_ && _); [intros [= <-]; right; left; by eexists|].
    destruct (require _ _) as [|e'] eqn:Hr; [destruct cancelled; [by right; right|done]|]. intros [= <-]. right. left. by eapply require_refuses.
Qed.
End claims.

(** * A directory of skills, as an example

    Two skills in the global directory and one in the workspace, next to a link and a
    file whose head does not parse; the theorems about discovery, loading and
    preparation are applied to them. *)

(** ** The libraries

    A reading of documents with one [key: value] per line. *)
Fixpoint lines_of (s line : string) : list string :=
  match s with
  | EmptyString => if str_is_empty line then [] else [line]
  | String c rest => if Ascii.eqb c newline then line :: lines_of rest EmptyString else lines_of rest (snoc line c)
  end.
Definition pair_events (line : string) : list Event :=
  match split_colon line with
  | Some (k, String " " v) => [Scalar k Plain 0 None; Scalar v Plain 0 None]
  | Some (k, v) => [Scalar k Plain 0 None; Scalar v Plain 0 None]
  | None => [Nothing]
  end.
#[local] Instance pairs_yaml : YamlLib := {|
  yaml_events := fun s => [StreamStart; DocumentStart; MappingStart 0 None] ++ concat (pair_events <$> lines_of s EmptyString)
    ++ [MappingEnd; DocumentEnd; StreamEnd];
  yaml_from_str := YString;
  parse_f64 := fun _ => None |}.
#[local] Instance plain_text : PathText := {| escape_debug := fun s => s |}.
#[local] Instance some_json : SerdeJson := example_json.
#[local] Instance some_serde : ProviderSerde := example_serde.

(** ** The files *)
Definition text_of (ls : list string) : string := joined ((fun l => snoc l newline) <$> ls).
Definition skill_text (name description body : string) : string :=
  text_of ["---"; String.append "name: " name; String.append "description: " description; "---"; body].

Definition review_text : string := skill_text "review" "Review a change" "Read the diff first.".
Definition files : list (path * string) := [
  (["g"; "review"; "SKILL.md"], review_text);
  (["g"; "group"; "release"; "SKILL.md"], skill_text "release" "Cut a release" "Tag the commit.");
  (["g"; "broken"; "SKILL.md"], text_of ["name: broken"]);
  (["w"; ".agents"; "skills"; "build"; "SKILL.md"], skill_text "build" "Build the project" "Run make.");
  (["w"; "AGENTS.md"], text_of ["Be brief."])].
Definition folders : list (path * list string) := [
  (["g"], ["review"; "link"; "group"; "broken"]);
  (["g"; "review"], ["SKILL.md"]); (["g"; "group"], ["release"]); (["g"; "group"; "release"], ["SKILL.md"]);
  (["g"; "broken"], ["SKILL.md"]);
  (["w"], [".agents"; "AGENTS.md"]); (["w"; ".agents"], ["skills"]); (["w"; ".agents"; "skills"], ["build"]);
  (["w"; ".agents"; "skills"; "build"], ["SKILL.md"])].

Fixpoint find_path {A} (p : path) (l : list (path * A)) : option A :=
  match l with
  | [] => None
  | (q, a) :: l => if bool_decide (q = p) then Some a else find_path p l
  end.
Definition example_kind (p : path) : option FileKind :=
  if bool_decide (p = ["g"; "link"]) then Some Link
  else match find_path p folders with
       | Some _ => Some Directory
       | None => match find_path p files with Some _ => Some Regular | None => None end
       end.
Definition example_fs : Fs := {|
  fs_stat := fun p => match example_kind p with Some k => Present k | None => Missing end;
  fs_canonical := fun p => if is_some (example_kind p) then Some p else None;
  fs_is_dir := fun p => if is_some (example_kind p) then Some (bool_decide (example_kind p = Some Directory)) else None;
  fs_list := fun p => match find_path p folders with Some names => Some ((fun n => Some (Some n)) <$> names) | None => None end;
  fs_open := fun p => match find_path p files with Some text => Some (Some Regular, mkReader text false) | None => None end |}.
Definition example_roots : ContextRoots := {| workspace := (true, ["w"]); global_skills := (true, ["g"]) |}.

Definition example_catalog : SkillCatalog :=
  Eval vm_compute in match discover 20 example_fs example_roots with Some (Ok c) => c | _ => mkCatalog [] None [] [] end.

Lemma example_discovered : discover 20 example_fs example_roots = Some (Ok example_catalog).
Proof. vm_compute. reflexivity. Qed.

Example example_ids : show_skill <$> (sk_id <$> ct_entries example_catalog) = ["global:release"; "global:review"; "project:build"].
Proof. vm_compute. reflexivity. Qed.
Example example_diagnostics : (fun d => (dg_source d, dg_kind d)) <$> ct_diagnostics example_catalog =
  [("global:broken/SKILL.md", Excluded ContextErrorKind.InvalidFrontmatter); ("global:link", SkippedSymlink)].
Proof. vm_compute. reflexivity. Qed.

(** ** Witnesses *)
Lemma find_path_In {A} p (l : list (path * A)) a : find_path p l = Some a -> (p, a) ∈ l.
Proof.
  induction l as [|[q b] l IH]; [done|]. simpl. destruct (bool_decide_reflect (q = p)) as [->|]; [intros [= ->]; by left|]. intros Hf. right. by apply IH.
Qed.

Lemma example_depth p : is_Some (fs_list example_fs p) -> (length p <= 4)%nat.
Proof.
  intros [l Hl]. unfold example_fs in Hl. cbn [fs_list] in Hl. destruct (find_path p folders) as [names|] eqn:Hf; [|done]. apply find_path_In in Hf.
  assert (forallb (fun f : path * list string => Nat.leb (length (fst f)) 4) folders = true) as Hall by (vm_compute; reflexivity).
  rewrite forallb_forall in Hall. specialize (Hall (p, names) (proj1 (list_elem_of_In _ _) Hf)). by apply Nat.leb_le in Hall.
Qed.

Lemma discover_ends_witness :
  exists enough answer, forall fuel, (enough <= fuel)%nat -> discover fuel example_fs example_roots = Some answer.
Proof. exact (discover_ends example_fs example_roots 4 example_depth). Defined.

Definition review_entry : SkillMetadata :=
  Eval vm_compute in mkSkill (mkSkillId Global "review")
    (object [("name", VString "review"); ("description", VString "Review a change")])
    (mkSource Global ["g"] ["review"; "SKILL.md"]).

Lemma discovered_exact_witness :
  exists scope root rel, searched example_fs example_catalog scope root rel /\ contributes example_fs scope root rel review_entry.
Proof.
  apply (proj1 (proj2 (discovered_exact example_fs 20 example_roots example_catalog example_discovered))).
  right. left.
Defined.

Lemma discovered_typed_witness :
  lookup example_catalog (mkSkillId Global "review") = Ok review_entry /\
  arguments_id example_catalog (object [("id", VString "global:review")]) = Ok (mkSkillId Global "review").
Proof.
  destruct (discovered_typed example_fs 20 example_roots example_catalog example_discovered) as (_ & Hl & Ha). split.
  - apply Hl. split; [right; left|reflexivity].
  - apply Ha. split; [reflexivity|right; left].
Defined.

Definition review_loaded : LoadedSkill :=
  mkLoaded (mkSkillId Global "review") (sk_frontmatter review_entry) (text_of ["Read the diff first."]).

Lemma loaded_exact_witness :
  load_skill example_fs example_catalog (mkSkillId Global "review") = Ok review_loaded /\
  exists e r, e ∈ ct_entries example_catalog /\ sk_id e = mkSkillId Global "review" /\ open_source example_fs (sk_source e) = Ok r /\
    loads r e review_loaded.
Proof.
  assert (load_skill example_fs example_catalog (mkSkillId Global "review") = Ok review_loaded) as Hl by (vm_compute; reflexivity).
  split; [exact Hl|].
  apply (proj1 (loaded_exact example_fs 20 example_roots example_catalog example_fs (mkSkillId Global "review") review_loaded example_discovered) Hl).
Defined.

Definition example_request : RunRequest := {|
  rq_provider_id := "p";
  rq_options := {| model := "m"; instructions := "Help."; tools := []; transport := Sse; required_features := [] |};
  rq_prompt := "Review this." |}.
Definition example_selection : list SkillId := [mkSkillId Global "review"; mkSkillId Project "build"; mkSkillId Global "review"].
Definition example_prepared : PreparedRun :=
  Eval vm_compute in match prepare example_fs example_request example_catalog example_selection example_registry NoLoader with
                     | Ok p => p
                     | Err _ => mkPrepared example_request (mkManifest [] [] None)
                     end.

Lemma prepared_recordable_witness :
  NoDup (cm_active_skills (pr_manifest example_prepared)) /\
  (mkSkillId Project "build" ∈ cm_active_skills (pr_manifest example_prepared) <-> mkSkillId Project "build" ∈ example_selection).
Proof.
  assert (prepare example_fs example_request example_catalog example_selection example_registry NoLoader = Ok example_prepared) as Hp by (vm_compute; reflexivity).
  destruct (prepared_recordable example_fs 20 example_roots example_catalog example_fs example_request example_selection example_registry NoLoader
    example_prepared example_discovered Hp) as (_ & Hd & Hi & _).
  split; [exact Hd|apply Hi].
Defined.
