(* ===== verification/Profiles.v ===== *)
(** * Managed profiles (src/src/providers/openai_codex/managed_store.rs, managed_auth.rs, profile_selection.rs)

    The program keeps its own logins in one document and renews them.  A renewal
    presents a refresh token, which the other side may accept only once, so a durable
    guard is put down before the token leaves and taken away only after its successor
    is on the disk.

    The disk has two sides: what calls see ([au_visible]) and what a power failure
    leaves ([au_durable]).  A call may fail anywhere; which do is the list
    [au_faults].  A crash of the program is a failure of its next call, a crash of
    the machine is the relation [settled]. *)
From S2P Require Import Prelude Errors Identifiers Text Json Positions.

(** ** Profiles *)
Record Profile : Type := mkProfile {
  incarnation : string;
  account : string;
  access : string;
  refresh : string;
  expires : Z;
  enabled : bool;
  reauth : bool
}.

Record ProfileMetadata : Type := mkMetadata {
  pm_name : string;
  pm_enabled : bool;
  pm_logged_in : bool;
  pm_requires_reauthentication : bool;
  pm_expires_at_unix : Z
}.

(** [Profile::metadata]. *)
Definition metadata (name : string) (p : Profile) : ProfileMetadata :=
  mkMetadata name (enabled p) (negb (str_is_empty (access p)) && negb (str_is_empty (refresh p))) (reauth p) (expires p).

Notation AResult A := (result A GatewayError).

(** [validate_name]. *)
Definition validate_name (name : string) : AResult unit :=
  if str_is_empty name || (64 <? len name)
     || negb (bytes_all (fun b => is_ascii_alphanumeric b || Ascii.eqb b "-"%char || Ascii.eqb b "_"%char) name)
  then Err (InvalidAuth "invalid local profile name") else Ok tt.

Fixpoint validate_names (l : list ProfileMetadata) : AResult unit :=
  match l with
  | [] => Ok tt
  | p :: l => check? validate_name (pm_name p) in validate_names l
  end.

Definition eligible (p : ProfileMetadata) : bool := pm_enabled p && pm_logged_in p && negb (pm_requires_reauthentication p).

(** [count.wrapping_neg() % count]. *)
Definition threshold (count : Z) : Z := as_u64 (- count) mod count.

(** The loop of [select_profile] over the random words: one of [None] is a failure
    to get one.  The result is the index. *)
Fixpoint draw (count : Z) (words : list (option Z)) : option (AResult Z) :=
  match words with
  | [] => None
  | None :: _ => Some (Err (InvalidAuth "secure randomness unavailable"))
  | Some value :: words => if threshold count <=? value then Some (Ok (value mod count)) else draw count words
  end.

(** [select_profile]: [None] while the words so far were all rejected. *)
Definition select_profile (l : list ProfileMetadata) (explicit : option string) (words : list (option Z)) : option (AResult string) :=
  match validate_names l with
  | Err e => Some (Err e)
  | Ok _ =>
      match explicit with
      | Some name =>
          Some (check? validate_name name in
                let? p := ok_or (list_find (fun p => eligible p = true /\ pm_name p = name) l)
                  (InvalidAuth "selected profile is unavailable; login or select another profile") in
                Ok (pm_name (snd p)))
      | None =>
          let candidates := filter (fun p => eligible p = true) l in
          if match candidates with [] => true | _ => false end then Some (Err (InvalidAuth "no eligible Wi profiles; login first"))
          else
            match draw (Z.of_nat (length candidates)) words with
            | None => None
            | Some (Err e) => Some (Err e)
            | Some (Ok i) => Some (Ok (default EmptyString (pm_name <$> candidates !! Z.to_nat i)))
            end
      end
  end.

(** ** The document *)

(** [BTreeMap]: in the order of the keys. *)
Fixpoint bt_get {A} (k : string) (l : list (string * A)) : option A :=
  match l with
  | [] => None
  | (j, a) :: l => if bool_decide (j = k) then Some a else bt_get k l
  end.
Fixpoint bt_insert {A} (k : string) (a : A) (l : list (string * A)) : list (string * A) :=
  match l with
  | [] => [(k, a)]
  | (j, b) :: rest =>
      match String.compare k j with
      | Lt => (k, a) :: l
      | Eq => (k, a) :: rest
      | Gt => (j, b) :: bt_insert k a rest
      end
  end.
Definition bt_remove {A} (k : string) (l : list (string * A)) : list (string * A) :=
  filter (fun ka => fst ka <> k) l.

Record Document : Type := mkDocument { version : Z; profiles : list (string * Profile) }.
Definition empty_document : Document := mkDocument 1 [].
Definition with_profiles (l : list (string * Profile)) (d : Document) : Document := mkDocument (version d) l.

Definition storage_error : GatewayError := InvalidAuth "Wi auth store unavailable or unsafe".
Definition LIMIT : Z := 1024 * 1024.

(** The document's JSON, and [HeaderValue::from_str]. *)
Class ProfileSerde := {
  document_from_slice : string -> option Document;
  document_to_vec : Document -> option string;
  header_value : string -> bool
}.

(** ** The state *)
Inductive Fault : Type := Fine | Absent | Broken.

Record Directory : Type := mkDirectory {
  di_lock : bool;
  di_document : option string;
  di_guards : gset string
}.
Definition empty_directory : Directory := mkDirectory false None ∅.

(** What a renewal and a login leave for the record: which token was presented and
    what came back, and which token a login brought. *)
Inductive AuthEvent : Type :=
| Issued (name incarnation token : string)
| Asked (name incarnation token : string) (answer : AResult Profile).

Record Auth : Type := mkAuth {
  au_visible : Directory;
  au_durable : Directory;
  au_faults : list Fault;
  au_clock : list (option Z);
  au_answers : list (AResult Profile);
  au_trace : list AuthEvent
}.
Notation AuthM A := (SM Auth GatewayError A).

Definition set_visible (f : Directory -> Directory) (a : Auth) : Auth :=
  mkAuth (f (au_visible a)) (au_durable a) (au_faults a) (au_clock a) (au_answers a) (au_trace a).
Definition set_durable (a : Auth) : Auth :=
  mkAuth (au_visible a) (au_visible a) (au_faults a) (au_clock a) (au_answers a) (au_trace a).
Definition set_trace (e : AuthEvent) (a : Auth) : Auth :=
  mkAuth (au_visible a) (au_durable a) (au_faults a) (au_clock a) (au_answers a) (au_trace a ++ [e]).

(** What the next call does; nothing goes wrong where nothing is said. *)
Definition fault : AuthM Fault := fun a =>
  match au_faults a with
  | [] => (Ok Fine, a)
  | f :: rest => (Ok f, mkAuth (au_visible a) (au_durable a) rest (au_clock a) (au_answers a) (au_trace a))
  end.
(** A call whose failures all are [storage_error]. *)
Definition sys : AuthM unit := let! f := fault in match f with Fine => ret tt | _ => throw storage_error end.
(** [now]. *)
Definition now : AuthM Z := fun a =>
  match au_clock a with
  | Some t :: rest => (Ok t, mkAuth (au_visible a) (au_durable a) (au_faults a) rest (au_answers a) (au_trace a))
  | _ => (Err Clock, a)
  end.
(** [Instant::now() >= deadline]. *)
Definition late : AuthM bool := let! f := fault in ret (match f with Fine => false | _ => true end).

Section managed.
Context `{UuidLib} `{ProfileSerde}.

(** [Document::validate]. *)
Fixpoint validate_profiles (l : list (string * Profile)) : AResult unit :=
  match l with
  | [] => Ok tt
  | (name, p) :: l =>
      check? validate_name name in
      if negb (is_some (parse_str (incarnation p))) || trim_is_empty (account p) || str_is_empty (access p)
         || str_is_empty (refresh p) || (expires p =? 0)
      then Err storage_error
      else if negb (header_value (account p)) then Err storage_error
      else if negb (header_value (access p)) then Err storage_error
      else validate_profiles l
  end.
Definition document_validate (d : Document) : AResult unit :=
  if negb (version d =? 1) then Err storage_error else validate_profiles (profiles d).

(** [open_inner]: the directories and the lock.  [false] is absence; a lock that is
    held does not interleave with the others, and waiting for it in vain is a fault. *)
Definition open_inner (create absent_ok nonblocking : bool) : AuthM bool :=
  let! f := fault in
  match f with
  | Broken => throw storage_error
  | Absent => if absent_ok then ret false else throw storage_error
  | Fine =>
      let! d := gets au_visible in
      if nonblocking && negb (di_lock d) && is_some (di_document d) then throw storage_error
      else if di_lock d then do! sys in ret true
      else if create then
        do! sys in
        do! modify (set_visible (fun d => mkDirectory true (di_document d) (di_guards d))) in
        do! sys in ret true
      else if absent_ok then (if is_some (di_document d) then throw storage_error else ret false)
      else throw storage_error
  end.

(** [LockedStore::guard_name]. *)
Definition guard_name (name incarnation : string) : string :=
  String.append ".rotation-" (String.append name (String "-"%char incarnation)).

(** The loop over the guards in [LockedStore::read]. *)
Fixpoint mark_guarded (l : list (string * Profile)) : AuthM (list (string * Profile)) :=
  match l with
  | [] => ret []
  | (name, p) :: l =>
      do! sys in
      let! d := gets au_visible in
      let guarded := bool_decide (guard_name name (incarnation p) ∈ di_guards d) in
      let! rest := mark_guarded l in
      ret ((name, mkProfile (incarnation p) (account p) (access p) (refresh p) (expires p) (enabled p) (guarded || reauth p)) :: rest)
  end.

(** [LockedStore::read]. *)
Definition read : AuthM Document :=
  do! sys in
  let! d := gets au_visible in
  match di_document d with
  | None => ret empty_document
  | Some bytes =>
      do! sys in
      if LIMIT <? len bytes then throw storage_error
      else
        let! doc := lift (ok_or (document_from_slice bytes) storage_error) in
        do! lift (document_validate doc) in
        let! l := mark_guarded (profiles doc) in
        ret (with_profiles l doc)
  end.

(** [LockedStore::guard]. *)
Definition guard (name inc : string) : AuthM unit :=
  do! lift (validate_name name) in
  do! lift (ok_or (parse_str inc) storage_error) in
  do! sys in
  let! d := gets au_visible in
  if bool_decide (guard_name name inc ∈ di_guards d) then throw storage_error
  else
    do! modify (set_visible (fun d => mkDirectory (di_lock d) (di_document d) ({[guard_name name inc]} ∪ di_guards d))) in
    do! sys in
    do! sys in
    do! sys in
    modify set_durable.

(** [LockedStore::finish_guard]; it never fails. *)
Definition finish_guard (name inc : string) : AuthM unit :=
  let! f := fault in
  do! match f with
      | Fine => modify (set_visible (fun d => mkDirectory (di_lock d) (di_document d) (di_guards d ∖ {[guard_name name inc]})))
      | _ => ret tt
      end in
  let! f := fault in
  match f with Fine => modify set_durable | _ => ret tt end.

(** [LockedStore::write]; the temporary file goes in either case. *)
Definition write (doc : Document) : AuthM unit :=
  do! lift (document_validate doc) in
  do! read in
  let! bytes := lift (ok_or (document_to_vec doc) storage_error) in
  if LIMIT <? len bytes then throw storage_error
  else
    do! sys in
    do! sys in
    do! sys in
    do! modify (set_visible (fun d => mkDirectory (di_lock d) (Some bytes) (di_guards d))) in
    do! sys in
    modify set_durable.

(** ** The manager *)
(** [Store::read]. *)
Definition store_read : AuthM Document :=
  let! present := open_inner false true false in
  if present : bool then read else ret empty_document.

(** [AuthManager::list] and [AuthManager::status]. *)
Definition list_profiles : AuthM (list ProfileMetadata) :=
  let! doc := store_read in ret ((fun np => metadata (fst np) (snd np)) <$> profiles doc).
Definition no_profile : GatewayError := InvalidAuth "Wi profile does not exist".
Definition status (name : string) : AuthM ProfileMetadata :=
  do! lift (validate_name name) in
  let! l := list_profiles in
  lift (ok_or (snd <$> list_find (fun p => pm_name p = name) l) no_profile).

(** [AuthManager::logout]. *)
Definition logout (name : string) : AuthM unit :=
  do! lift (validate_name name) in
  let! present := open_inner false true false in
  if negb present then throw no_profile
  else
    let! doc := read in
    let! removed := lift (ok_or (bt_get name (profiles doc)) no_profile) in
    do! write (with_profiles (bt_remove name (profiles doc)) doc) in
    finish_guard name (incarnation removed).

Record ManagedCredentials : Type := mkCredentials { mc_name : string; mc_incarnation : string; mc_account : string }.

(** [AuthManager::select]: [None] while the random words were rejected. *)
Definition select (explicit : option string) (words : list (option Z)) : AuthM (option ManagedCredentials) :=
  do! lift (match explicit with Some name => validate_name name | None => Ok tt end) in
  let! doc := store_read in
  match select_profile ((fun np => metadata (fst np) (snd np)) <$> profiles doc) explicit words with
  | None => ret None
  | Some (Err e) => throw e
  | Some (Ok name) =>
      ret (p ← bt_get name (profiles doc); Some (mkCredentials name (incarnation p) (account p)))
  end.

Definition replacement_required : GatewayError := InvalidAuth "profile exists; explicit replacement required".
(** [AuthManager::preflight_login]. *)
Definition preflight_login (name : string) (replace : bool) : AuthM unit :=
  do! lift (validate_name name) in
  let! present := open_inner true false true in
  if negb present then throw storage_error
  else
    let! doc := read in
    if is_some (bt_get name (profiles doc)) && negb replace then throw replacement_required else ret tt.

Definition login_timed_out : GatewayError := InvalidAuth "experimental browser login timed out".
Definition renewed (inc : string) (p : Profile) : Profile :=
  mkProfile inc (account p) (access p) (refresh p) (expires p) (enabled p) (reauth p).

(** [AuthManager::login_before]; [inc] is the new identifier. *)
Definition login_before (name : string) (profile : Profile) (replace : bool) (inc : string) : AuthM bool :=
  do! lift (validate_name name) in
  let! present := open_inner true false true in
  if negb present then throw storage_error
  else
    let! expired := late in
    if expired : bool then throw login_timed_out
    else
      let! doc := read in
      if is_some (bt_get name (profiles doc)) && negb replace then throw replacement_required
      else
        do! guard name inc in
        do! modify (set_trace (Issued name inc (refresh profile))) in
        let previous := bt_get name (profiles doc) in
        let doc := with_profiles (bt_insert name (renewed inc profile) (profiles doc)) doc in
        let! expired := late in
        if expired : bool then throw login_timed_out
        else
          do! write doc in
          do! finish_guard name inc in
          do! match previous with Some p => finish_guard name (incarnation p) | None => ret tt end in
          fun a => match read a with
                   | (Ok doc, a) => (Ok (is_some_and (bt_get name (profiles doc)) (fun p => negb (reauth p))), a)
                   | (Err _, a) => (Ok false, a)
                   end.

(** [ManagedCredentials::bound]. *)
Definition bound (c : ManagedCredentials) (doc : Document) : AResult Profile :=
  let? p := ok_or (bt_get (mc_name c) (profiles doc)) AuthAccountChanged in
  if negb (bool_decide (incarnation p = mc_incarnation c)) || negb (bool_decide (account p = mc_account c)) then Err AuthAccountChanged
  else if negb (enabled p) || reauth p then Err (InvalidAuth "selected Wi profile requires login")
  else Ok p.

(** [expires > now.saturating_add(30)]. *)
Definition fresh (t expires : Z) : bool := Z.min (t + 30) u64_max <? expires.

(** [ManagedCredentials::prepare], before the lock: whether a renewal is due. *)
Definition renewal_due (c : ManagedCredentials) (force : bool) : AuthM bool :=
  let! doc := store_read in
  let! p := lift (bound c doc) in
  if force then ret true else let! t := now in ret (negb (fresh t (expires p))).

Definition ask (c : ManagedCredentials) (token : string) : AuthM Profile := fun a =>
  let answer := match au_answers a with r :: _ => r | [] => Err (InvalidAuth "renewal timed out; login required") end in
  (answer, set_trace (Asked (mc_name c) (mc_incarnation c) token answer)
    (mkAuth (au_visible a) (au_durable a) (au_faults a) (au_clock a) (tail (au_answers a)) (au_trace a))).

(** [ManagedCredentials::prepare], under the lock. *)
Definition renew (c : ManagedCredentials) (force : bool) : AuthM unit :=
  let! present := open_inner false false false in
  if negb present then throw storage_error
  else
    let! doc := read in
    let! p := lift (bound c doc) in
    let! due := (if force then ret true else let! t := now in ret (negb (fresh t (expires p)))) in
    if negb due then ret tt
    else
      do! guard (mc_name c) (mc_incarnation c) in
      let! rotated := ask c (refresh p) in
      let! t := (if negb (bool_decide (account rotated = mc_account c)) then ret 0 else now) in
      if negb (bool_decide (account rotated = mc_account c)) || negb (fresh t (expires rotated))
         || str_is_empty (refresh rotated) || str_is_empty (access rotated)
      then throw (InvalidAuth "renewal identity or token validation failed; login required")
      else
        let rotated := mkProfile (mc_incarnation c) (account rotated) (access rotated) (refresh rotated) (expires rotated) true false in
        do! write (with_profiles (bt_insert (mc_name c) rotated (profiles doc)) doc) in
        finish_guard (mc_name c) (mc_incarnation c).

(** [ManagedCredentials::prepare], with nothing in between; [configured] is what the
    exchange says of itself. *)
Definition prepare (configured : AResult unit) (c : ManagedCredentials) (force : bool) : AuthM unit :=
  let! due := renewal_due c force in
  if negb due then ret tt else do! lift configured in renew c force.
End managed.

(** ** Histories

    A history is any sequence of operations of any processes, each with its own
    faults, clock and answers, and of crashes.  A handle used for a renewal is any. *)
Definition with_oracle (faults : list Fault) (clock : list (option Z)) (answers : list (AResult Profile)) (a : Auth) : Auth :=
  mkAuth (au_visible a) (au_durable a) faults clock answers (au_trace a).

(** What the disk may hold after a crash, or may have made durable by itself: every
    entry as one side has it. *)
Definition settled (v d m : Directory) : Prop :=
  (di_document m = di_document v \/ di_document m = di_document d) /\
  di_guards v ∩ di_guards d ⊆ di_guards m /\ di_guards m ⊆ di_guards v ∪ di_guards d /\
  (di_lock m = di_lock v \/ di_lock m = di_lock d).

Definition event_incarnation (e : AuthEvent) : string := match e with Issued _ i _ => i | Asked _ i _ _ => i end.

(** [Uuid::new_v4]: a text of 36 bytes that was not made before. *)
Definition new_incarnation (inc : string) (a : Auth) : Prop :=
  len inc = 36 /\ Forall (fun e => event_incarnation e <> inc) (au_trace a).

Definition in_range (p : Profile) : Prop := 0 <= expires p <= u64_max.
Definition answer_in_range (r : AResult Profile) : Prop := match r with Ok p => in_range p | Err _ => True end.

Section histories.
Context `{UuidLib} `{ProfileSerde}.

Inductive auth_step (a : Auth) : Auth -> Prop :=
| step_login name p replace inc faults :
    new_incarnation inc a -> in_range p -> auth_step a (snd (login_before name p replace inc (with_oracle faults [] [] a)))
| step_preflight name replace faults : auth_step a (snd (preflight_login name replace (with_oracle faults [] [] a)))
| step_logout name faults : auth_step a (snd (logout name (with_oracle faults [] [] a)))
| step_due c force faults clock : auth_step a (snd (renewal_due c force (with_oracle faults clock [] a)))
| step_renew c force faults clock answers :
    Forall answer_in_range answers -> auth_step a (snd (renew c force (with_oracle faults clock answers a)))
| step_select explicit words faults : auth_step a (snd (select explicit words (with_oracle faults [] [] a)))
| step_crash m : settled (au_visible a) (au_durable a) m -> auth_step a (mkAuth m m [] [] [] (au_trace a))
| step_lost : auth_step a (mkAuth empty_directory empty_directory [] [] [] (au_trace a))
| step_flush m : settled (au_visible a) (au_durable a) m -> auth_step a (mkAuth (au_visible a) m [] [] [] (au_trace a)).

Definition new_auth : Auth := mkAuth empty_directory empty_directory [] [] [] [].
Definition reachable_auth : Auth -> Prop := rtc auth_step new_auth.

(** The token a renewal of a login may present: what the last renewal brought, or
    the login itself; none after a renewal that failed. *)
Definition current_after (name inc : string) (t : option string) (e : AuthEvent) : option string :=
  match e with
  | Issued n i token => if bool_decide (n = name /\ i = inc) then Some token else t
  | Asked n i _ answer =>
      if bool_decide (n = name /\ i = inc) then match answer with Ok p => Some (refresh p) | Err _ => None end else t
  end.
Definition current (trace : list AuthEvent) (name inc : string) : option string :=
  fold_left (current_after name inc) trace None.

(** ** The disk *)
Definition keys_sorted {A} (l : list (string * A)) : Prop := StronglySorted (fun x y => String.compare (fst x) (fst y) = Lt) l.
Definition document_ok (d : Document) : Prop := version d = 1 /\ keys_sorted (profiles d) /\ Forall (fun np => in_range (snd np)) (profiles d).

(** The codec: what is written is read back. *)
Class ProfileLaws : Prop := {
  from_slice_ok bytes d : document_from_slice bytes = Some d -> version d = 1 -> document_ok d;
  to_vec_from_slice d bytes : document_ok d -> document_to_vec d = Some bytes -> document_from_slice bytes = Some d
}.

(** The same but for the lock and what is to come. *)
Record same (a a' : Auth) : Prop := {
  sa_vdoc : di_document (au_visible a') = di_document (au_visible a);
  sa_vguards : di_guards (au_visible a') = di_guards (au_visible a);
  sa_ddoc : di_document (au_durable a') = di_document (au_durable a);
  sa_dguards : di_guards (au_durable a') = di_guards (au_durable a);
  sa_trace : au_trace a' = au_trace a;
  sa_answers : au_answers a' = au_answers a
}.
#[global] Instance same_preorder : PreOrder same.
Proof. split; [done|]. intros x y z [] []. split; congruence. Qed.

Definition quiet {A} (c : AuthM A) : Prop := forall a, same a (snd (c a)).

Lemma auth_quiet_bind {A B} (c : AuthM A) (k : A -> AuthM B) : quiet c -> (forall x, quiet (k x)) -> quiet (bind c k).
Proof.
  intros Hc Hk a. unfold bind. specialize (Hc a). destruct (c a) as [[x|e] a1]; [|done]. etransitivity; [exact Hc|apply Hk].
Qed.
Lemma auth_quiet_ret {A} (x : A) : quiet (ret x).
Proof. by intros a. Qed.
Lemma auth_quiet_throw {A} e : quiet (@throw _ _ A e).
Proof. by intros a. Qed.
Lemma auth_quiet_lift {A} (r : AResult A) : quiet (lift r).
Proof. by intros a. Qed.
Lemma quiet_gets {A} (f : Auth -> A) : quiet (gets f).
Proof. by intros a. Qed.
Lemma quiet_fault : quiet fault.
Proof. intros a. unfold fault. by destruct (au_faults a). Qed.
Lemma quiet_now : quiet now.
Proof. intros a. unfold now. by destruct (au_clock a) as [|[]]. Qed.
#[local] Hint Resolve auth_quiet_ret auth_quiet_throw auth_quiet_lift quiet_gets quiet_fault quiet_now : auth.
Ltac quiet := repeat first [solve [eauto with auth] | apply auth_quiet_bind; [|intros ?] | match goal with |- quiet (match ?x with _ => _ end) => destruct x end].

Lemma quiet_sys : quiet sys.
Proof. unfold sys. quiet. Qed.
Lemma quiet_late : quiet late.
Proof. unfold late. quiet. Qed.
#[local] Hint Resolve quiet_sys quiet_late : auth.
Lemma quiet_open c o n : quiet (open_inner c o n).
Proof. unfold open_inner. quiet. by intros a. Qed.
Lemma quiet_mark l : quiet (mark_guarded l).
Proof. induction l as [|[n p] l IH]; cbn [mark_guarded]; quiet. Qed.
#[local] Hint Resolve quiet_open quiet_mark : auth.
Lemma quiet_read : quiet read.
Proof. unfold read. quiet. Qed.
#[local] Hint Resolve quiet_read : auth.
Lemma quiet_store_read : quiet store_read.
Proof. unfold store_read. quiet. Qed.
#[local] Hint Resolve quiet_store_read : auth.
Lemma quiet_select e w : quiet (select e w).
Proof. unfold select. quiet. Qed.
Lemma quiet_due c f : quiet (renewal_due c f).
Proof. unfold renewal_due. quiet. Qed.
Lemma quiet_preflight n r : quiet (preflight_login n r).
Proof. unfold preflight_login. quiet. Qed.

(** *** Maps *)
Lemma bt_get_insert_eq {A} k (x : A) l : bt_get k (bt_insert k x l) = Some x.
Proof.
  induction l as [|[j y] l IH]; simpl; [by rewrite bool_decide_eq_true_2|]. destruct (String.compare k j) eqn:Hc; simpl; [by rewrite bool_decide_eq_true_2..|].
  rewrite bool_decide_eq_false_2; [done|]. intros ->. by rewrite compare_refl in Hc.
Qed.
Lemma bt_get_insert_ne {A} k j (x : A) l : k <> j -> bt_get j (bt_insert k x l) = bt_get j l.
Proof.
  intros Hn. induction l as [|[i y] l IH]; simpl; [by rewrite bool_decide_eq_false_2|]. destruct (String.compare k i) eqn:Hc; simpl.
  - apply String.compare_eq_iff in Hc as ->. by rewrite !bool_decide_eq_false_2.
  - by rewrite (bool_decide_eq_false_2 (k = j)).
  - by rewrite IH.
Qed.
Lemma bt_get_remove {A} k j (l : list (string * A)) : bt_get j (bt_remove k l) = if bool_decide (j = k) then None else bt_get j l.
Proof.
  induction l as [|[i y] l IH]; [by destruct (bool_decide _)|]. unfold bt_remove. rewrite filter_cons. cbn [fst]. fold (bt_remove k l).
  destruct (decide (i <> k)) as [Hi|Hi]; cbn [bt_get]; rewrite IH.
  - destruct (bool_decide_reflect (i = j)) as [->|]; [by rewrite bool_decide_eq_false_2|done].
  - apply dec_stable in Hi as ->. destruct (bool_decide_reflect (j = k)) as [->|]; [done|]. by rewrite bool_decide_eq_false_2.
Qed.

Lemma bt_insert_Forall {A} (P : string * A -> Prop) k x l : P (k, x) -> Forall P l -> Forall P (bt_insert k x l).
Proof.
  intros Hx. induction l as [|[j y] l IH]; intros Hl; simpl; [by constructor|]. inversion Hl; subst.
  destruct (String.compare k j); constructor; auto.
Qed.
Lemma bt_insert_sorted {A} k (x : A) l : keys_sorted l -> keys_sorted (bt_insert k x l).
Proof.
  intros Hs. induction Hs as [|[j y] l Hs IH Hj]; simpl; [by repeat constructor|]. simpl in Hj. destruct (String.compare k j) eqn:Hc.
  - apply String.compare_eq_iff in Hc as ->. by constructor.
  - constructor; [by constructor|]. constructor; [done|]. eapply Forall_impl; [exact Hj|]. intros z. by apply string_compare_trans.
  - constructor; [done|]. apply bt_insert_Forall; [|done]. simpl. by rewrite String.compare_antisym, Hc.
Qed.
Lemma bt_remove_sorted {A} k (l : list (string * A)) : keys_sorted l -> keys_sorted (bt_remove k l).
Proof.
  induction 1 as [|np l _ IH Hj]; [constructor|]. unfold bt_remove. rewrite filter_cons. destruct (decide _); [|done]. constructor; [done|].
  apply Forall_forall. intros z [_ Hz]%list_elem_of_filter. rewrite Forall_forall in Hj. by apply Hj.
Qed.

Definition with_reauth (b : bool) (p : Profile) : Profile :=
  mkProfile (incarnation p) (account p) (access p) (refresh p) (expires p) (enabled p) b.
(** What the guards make of a profile. *)
Definition marked (guards : gset string) (np : string * Profile) : string * Profile :=
  (fst np, with_reauth (bool_decide (guard_name (fst np) (incarnation (snd np)) ∈ guards) || reauth (snd np)) (snd np)).

Lemma bt_get_marked g l k p :
  bt_get k (marked g <$> l) = Some p ->
  exists p0, bt_get k l = Some p0 /\ p = with_reauth (bool_decide (guard_name k (incarnation p0) ∈ g) || reauth p0) p0.
Proof.
  induction l as [|[j q] l IH]; [done|]. rewrite fmap_cons. cbn [bt_get marked fst snd]. destruct (bool_decide_reflect (j = k)) as [->|]; [|done].
  intros [= <-]. by exists q.
Qed.
Lemma keys_sorted_marked g l : keys_sorted l -> keys_sorted (marked g <$> l).
Proof.
  induction 1 as [|np l _ IH Hj]; [constructor|]. rewrite fmap_cons. constructor; [done|]. apply Forall_fmap. eapply Forall_impl; [exact Hj|]. done.
Qed.

(** *** Reading *)
Definition seen (v : Directory) (doc : Document) : Prop :=
  match di_document v with
  | None => doc = empty_document
  | Some bytes => exists d, document_from_slice bytes = Some d /\ document_validate d = Ok tt /\ doc = with_profiles (marked (di_guards v) <$> profiles d) d
  end.

Lemma mark_guarded_Ok l : forall a l' a', mark_guarded l a = (Ok l', a') -> l' = marked (di_guards (au_visible a)) <$> l.
Proof.
  induction l as [|[n p] l IH]; intros a l' a' Hm; cbn [mark_guarded] in Hm; [by injection Hm as <- <-|]. unbind Hm. pose proof (quiet_sys a) as Q. rewrite Hc in Q.
  unbind Hm. injection Hc0 as <- <-. unbind Hm. injection Hm as <- <-. apply IH in Hc0 as ->. rewrite fmap_cons. simpl in Q. by rewrite (sa_vguards _ _ Q).
Qed.

Lemma read_Ok a doc a' : read a = (Ok doc, a') -> seen (au_visible a) doc.
Proof.
  intros Hr. unfold read in Hr. unbind Hr. pose proof (quiet_sys a) as Q. rewrite Hc in Q. simpl in Q. unbind Hr. injection Hc0 as <- <-.
  unfold seen. rewrite <- (sa_vdoc _ _ Q), <- (sa_vguards _ _ Q). destruct (di_document (au_visible s)) as [bytes|]; [|by injection Hr as <- <-].
  unbind Hr. pose proof (quiet_sys s) as Q2. rewrite Hc0 in Q2. simpl in Q2. destruct (_ <? _); [done|]. unbind Hr. injection Hc1 as Hd <-. apply ok_or_Ok in Hd.
  unbind Hr. injection Hc1 as Hv <-. unbind Hr. injection Hr as <- <-. apply mark_guarded_Ok in Hc1 as ->. rewrite (sa_vguards _ _ Q2).
  match goal with u : unit |- _ => destruct u end. by eexists.
Qed.

(** *** What the calls do *)

(** A quiet call first: it fails, or the rest goes on from the same disk. *)
Lemma quiet_then {A B} (c : AuthM A) (k : A -> AuthM B) a r a' :
  quiet c -> bind c k a = (r, a') -> (exists x a1, c a = (Ok x, a1) /\ same a a1 /\ k x a1 = (r, a')) \/ (exists e, r = Err e /\ same a a').
Proof.
  intros Hq. unfold bind. specialize (Hq a). destruct (c a) as [[x|e] a1]; simpl in Hq; [intros Hk; left; by exists x, a1|]. intros [= <- <-]. right. by exists e.
Qed.

(** The disk after something was added: every guard is still there, and the durable
    side is as it was or has everything. *)
Record grown (a a' : Auth) : Prop := {
  gr_vdoc : di_document (au_visible a') = di_document (au_visible a);
  gr_vguards : di_guards (au_visible a) ⊆ di_guards (au_visible a');
  gr_durable : (di_document (au_durable a') = di_document (au_durable a) /\ di_guards (au_durable a') = di_guards (au_durable a)) \/ au_durable a' = au_visible a';
  gr_trace : au_trace a' = au_trace a;
  gr_answers : au_answers a' = au_answers a
}.
Lemma same_grown a a' : same a a' -> grown a a'.
Proof. intros [A B C D E F]. split; [done|by rewrite B|by left|done|done]. Qed.

Lemma guard_spec name inc a r a' :
  guard name inc a = (r, a') ->
  grown a a' /\ (r = Ok tt -> guard_name name inc ∈ di_guards (au_visible a') /\ au_durable a' = au_visible a' /\
    di_guards (au_visible a') = {[guard_name name inc]} ∪ di_guards (au_visible a)).
Proof.
  unfold guard. intros Hg.
  apply quiet_then in Hg as [(? & a1 & _ & S1 & Hg)|(e & -> & S)]; [|split; [by apply same_grown|done]|apply auth_quiet_lift].
  apply quiet_then in Hg as [(? & a2 & _ & S2 & Hg)|(e & -> & S)]; [|split; [apply same_grown; by etransitivity|done]|apply auth_quiet_lift].
  apply quiet_then in Hg as [(? & a3 & _ & S3 & Hg)|(e & -> & S)]; [|split; [apply same_grown; by repeat (etransitivity; [done|])|done]|apply quiet_sys].
  assert (same a a3) as S by (by repeat (etransitivity; [done|])). clear S1 S2 S3 a1 a2. unfold bind at 1, gets in Hg.
  destruct (bool_decide _); [injection Hg as <- <-; split; [by apply same_grown|done]|]. unfold bind at 1, modify in Hg.
  set (a4 := set_visible _ a3) in Hg. assert (grown a a4 /\ di_guards (au_visible a4) = {[guard_name name inc]} ∪ di_guards (au_visible a)) as [G4 E4].
  { destruct S as [A B C D E F]. split; [split; simpl; [done|rewrite B; set_solver|by left|done|done]|simpl; by rewrite B]. }
  assert (forall a5, same a4 a5 -> grown a a5 /\ di_guards (au_visible a5) = {[guard_name name inc]} ∪ di_guards (au_visible a)) as Hs.
  { intros a5 [A B C D E F]. destruct G4 as [A4 B4 [[C4 D4]|C4] E4' F4']; (split; [split|congruence]); try congruence; [by rewrite B|by left; split; congruence|by rewrite B|].
    simpl in C4. left. rewrite C, D. by destruct S. }
  apply quiet_then in Hg as [(? & a5 & _ & S5 & Hg)|(e & -> & S5)]; [|split; [by apply Hs|done]|apply quiet_sys].
  apply quiet_then in Hg as [(? & a6 & _ & S6 & Hg)|(e & -> & S6)]; [|split; [apply Hs; by etransitivity|done]|apply quiet_sys].
  apply quiet_then in Hg as [(? & a7 & _ & S7 & Hg)|(e & -> & S7)]; [|split; [apply Hs; by repeat (etransitivity; [done|])|done]|apply quiet_sys].
  injection Hg as <- <-. destruct (Hs a7) as [[A7 B7 _ E7 F7] G7]; [by repeat (etransitivity; [done|])|]. split; [split; simpl; try done; by right|].
  intros _. simpl. rewrite G7. split_and!; [set_solver|done|done].
Qed.

(** Taking a guard away: the documents stay. *)
Record unguarded (g : string) (a a' : Auth) : Prop := {
  un_vdoc : di_document (au_visible a') = di_document (au_visible a);
  un_vguards : di_guards (au_visible a) ∖ {[g]} ⊆ di_guards (au_visible a');
  un_durable : (di_document (au_durable a') = di_document (au_durable a) /\ di_guards (au_durable a') = di_guards (au_durable a)) \/ au_durable a' = au_visible a';
  un_trace : au_trace a' = au_trace a
}.
Lemma finish_guard_spec name inc a r a' : finish_guard name inc a = (r, a') -> r = Ok tt /\ unguarded (guard_name name inc) a a'.
Proof.
  unfold finish_guard, bind at 1. intros Hf. pose proof (quiet_fault a) as [A B C D E F]. destruct (fault a) as [[f|e] a1] eqn:Hx; simpl in *;
    [|exfalso; unfold fault in Hx; by destruct (au_faults a)].
  unfold bind at 1 in Hf.
  assert (exists a2, (match f return AuthM unit with Fine => modify (set_visible (fun d => mkDirectory (di_lock d) (di_document d) (di_guards d ∖ {[guard_name name inc]}))) | _ => ret tt end) a1 = (Ok tt, a2) /\
    di_document (au_visible a2) = di_document (au_visible a) /\ di_guards (au_visible a) ∖ {[guard_name name inc]} ⊆ di_guards (au_visible a2) /\
    di_document (au_durable a2) = di_document (au_durable a) /\ di_guards (au_durable a2) = di_guards (au_durable a) /\ au_trace a2 = au_trace a) as (a2 & E2 & U1 & U2 & U3 & U3' & U4).
  { destruct f; (eexists; split; [reflexivity|]); simpl; rewrite ?B; (split_and!; [done|set_solver|done..]). }
  rewrite E2 in Hf. unfold bind in Hf. pose proof (quiet_fault a2) as [A2 B2 C2 D2 E2' F2].
  destruct (fault a2) as [[f2|e] a3] eqn:Hx2; simpl in *; [|exfalso; unfold fault in Hx2; by destruct (au_faults a2)].
  assert (unguarded (guard_name name inc) a a3) as [V1 V2 V3 V4].
  { split; [congruence|rewrite B2; done|left; split; congruence|congruence]. }
  destruct f2; injection Hf as <- <-; (split; [done|]); split; simpl; try done. by right.
Qed.

(** Putting a document in place. *)
Record written (doc : Document) (a a' : Auth) : Prop := {
  wr_vdoc : di_document (au_visible a') = di_document (au_visible a) \/
    exists bytes, document_to_vec doc = Some bytes /\ di_document (au_visible a') = Some bytes;
  wr_vguards : di_guards (au_visible a') = di_guards (au_visible a);
  wr_durable : (di_document (au_durable a') = di_document (au_durable a) /\ di_guards (au_durable a') = di_guards (au_durable a)) \/ au_durable a' = au_visible a';
  wr_trace : au_trace a' = au_trace a
}.
Lemma same_written doc a a' : same a a' -> written doc a a'.
Proof. intros [A B C D E F]. split; [by left|done|by left|done]. Qed.

Lemma write_spec doc a r a' :
  write doc a = (r, a') ->
  written doc a a' /\ (r = Ok tt -> document_validate doc = Ok tt /\ au_durable a' = au_visible a' /\
    exists bytes, document_to_vec doc = Some bytes /\ di_document (au_visible a') = Some bytes /\ len bytes <= LIMIT).
Proof.
  unfold write. intros Hw. unfold bind at 1, lift in Hw. destruct (document_validate doc) as [[]|e] eqn:Hv; [|injection Hw as <- <-; split; [by apply same_written|done]].
  apply quiet_then in Hw as [(? & a1 & _ & S1 & Hw)|(e & -> & S)]; [|split; [by apply same_written|done]|apply quiet_read].
  unfold bind at 1 in Hw. destruct (document_to_vec doc) as [bytes|] eqn:Hb; cbn [ok_or] in Hw; [|injection Hw as <- <-; split; [by apply same_written|done]].
  destruct (Z.ltb_spec LIMIT (len bytes)); [injection Hw as <- <-; split; [by apply same_written|done]|].
  apply quiet_then in Hw as [(? & a2 & _ & S2 & Hw)|(e & -> & S2)]; [|split; [apply same_written; by etransitivity|done]|apply quiet_sys].
  apply quiet_then in Hw as [(? & a3 & _ & S3 & Hw)|(e & -> & S3)]; [|split; [apply same_written; by repeat (etransitivity; [done|])|done]|apply quiet_sys].
  apply quiet_then in Hw as [(? & a4 & _ & S4 & Hw)|(e & -> & S4)]; [|split; [apply same_written; by repeat (etransitivity; [done|])|done]|apply quiet_sys].
  assert (same a a4) as [A B C D E F] by (by repeat (etransitivity; [done|])). clear S1 S2 S3 S4.
  unfold bind at 1, modify in Hw. set (a5 := set_visible _ a4) in Hw.
  assert (forall a6, same a5 a6 -> written doc a a6 /\ di_document (au_visible a6) = Some bytes) as Hs.
  { intros a6 [A6 B6 C6 D6 E6 F6]. simpl in *. split; [split|done]; [right; by exists bytes|congruence|left; split; congruence|congruence]. }
  apply quiet_then in Hw as [(? & a6 & _ & S6 & Hw)|(e & -> & S6)]; [|split; [by apply Hs|done]|apply quiet_sys].
  injection Hw as <- <-. destruct (Hs a6 S6) as [[W1 W2 _ W4] Wd]. split; [split; simpl; try done; by right|]. intros _. split_and!; [done|done|]. by exists bytes.
Qed.

(** *** The invariant *)
Definition known (trace : list AuthEvent) (name inc : string) : Prop :=
  Exists (fun e => match e with Issued n i _ => n = name /\ i = inc | Asked n i _ _ => n = name /\ i = inc end) trace.

(** A stored profile has the token that may be presented next, or is guarded on both
    sides. *)
Definition held (a : Auth) (name : string) (p : Profile) : Prop :=
  len (incarnation p) = 36 /\ known (au_trace a) name (incarnation p) /\
  (current (au_trace a) name (incarnation p) = Some (refresh p) \/
   guard_name name (incarnation p) ∈ di_guards (au_visible a) /\ guard_name name (incarnation p) ∈ di_guards (au_durable a)).

Definition stored (a : Auth) (doc : Document) : Prop :=
  exists bytes, (di_document (au_visible a) = Some bytes \/ di_document (au_durable a) = Some bytes) /\ document_from_slice bytes = Some doc.

Record auth_ok (a : Auth) : Prop := {
  ok_held doc name p : stored a doc -> bt_get name (profiles doc) = Some p -> held a name p;
  ok_trace pre n i t r post : au_trace a = pre ++ Asked n i t r :: post -> current pre n i = Some t;
  ok_issued pre n i t post : au_trace a = pre ++ Issued n i t :: post -> Forall (fun e => event_incarnation e <> i) pre
}.

Lemma append_inj_len a : forall b c d, String.append a b = String.append c d -> String.length b = String.length d -> a = c /\ b = d.
Proof.
  induction a as [|x a IH]; intros b [|y c] d Heq Hl.
  - done.
  - change (b = String y (String.append c d)) in Heq. subst b. simpl in Hl. rewrite string_length_app in Hl. lia.
  - change (String x (String.append a b) = d) in Heq. subst d. simpl in Hl. rewrite string_length_app in Hl. lia.
  - injection Heq as <- Heq. destruct (IH _ _ _ Heq Hl) as [-> ->]. done.
Qed.

Lemma guard_name_inj n i n' i' : len i = 36 -> len i' = 36 -> guard_name n i = guard_name n' i' -> n = n' /\ i = i'.
Proof.
  unfold guard_name. intros Hi Hi' Hg. pose proof (f_equal (strip_prefix ".rotation-") Hg) as Hs. rewrite !strip_prefix_app in Hs. injection Hs as Hs. apply append_inj_len in Hs as [-> [= ->]]; [done|]. simpl. unfold len in *. lia.
Qed.

Lemma current_app t e n i : current (t ++ [e]) n i = current_after n i (current t n i) e.
Proof. unfold current. by rewrite fold_left_app. Qed.
Lemma known_app t e n i : known t n i -> known (t ++ [e]) n i.
Proof. intros Hk. apply Exists_app. by left. Qed.

Lemma held_same a a' n p : same a a' -> held a n p -> held a' n p.
Proof. intros [A B C D E F] (L & K & Hc). unfold held. by rewrite E, B, D. Qed.

(** A stored document comes from a stored document, and what was held still is. *)
Lemma auth_ok_from a a' :
  auth_ok a -> au_trace a' = au_trace a ->
  (forall doc name p, stored a' doc -> bt_get name (profiles doc) = Some p -> held a' name p) -> auth_ok a'.
Proof. intros [_ Ht Hi] Htr Hh. split; [done|..]; by rewrite Htr. Qed.

Lemma stored_docs a a' doc :
  (di_document (au_visible a') = di_document (au_visible a) \/ di_document (au_visible a') = di_document (au_durable a)) ->
  (di_document (au_durable a') = di_document (au_visible a) \/ di_document (au_durable a') = di_document (au_durable a)) ->
  stored a' doc -> stored a doc.
Proof. intros Hv Hd (bytes & Hb & Hf). exists bytes. split; [|done]. destruct Hb as [Hb|Hb]; rewrite Hb in *; destruct Hv, Hd; auto. Qed.

Lemma auth_ok_same a a' : same a a' -> auth_ok a -> auth_ok a'.
Proof.
  intros S Hok. apply (auth_ok_from a); [done|apply S|]. intros doc n p Hs Hp. eapply held_same; [done|]. eapply ok_held; [done| |done].
  eapply stored_docs; [left; apply S|right; apply S|done].
Qed.

Lemma auth_ok_grown a a' : grown a a' -> auth_ok a -> auth_ok a'.
Proof.
  intros [A B C E F] Hok. apply (auth_ok_from a); [done|done|]. intros doc n p Hs Hp.
  assert (stored a doc) as Hs' by (eapply stored_docs; [by left| |done]; destruct C as [[C _]|C]; [by right|left; by rewrite C]).
  destruct (ok_held a Hok doc n p Hs' Hp) as (L & K & Hc). unfold held. rewrite E. split; [done|]. split; [done|]. destruct Hc as [Hc|[G1 G2]]; [by left|]. right.
  split; [by apply B|]. destruct C as [[_ C]|C]; [by rewrite C|rewrite C; by apply B].
Qed.

Lemma auth_ok_unguarded a a' name inc :
  unguarded (guard_name name inc) a a' -> auth_ok a -> len inc = 36 ->
  (forall doc p, stored a doc -> bt_get name (profiles doc) = Some p -> incarnation p = inc -> current (au_trace a) name inc = Some (refresh p)) ->
  auth_ok a'.
Proof.
  intros [A B C E] Hok Hl Hfree. apply (auth_ok_from a); [done|done|]. intros doc n p Hs Hp.
  assert (stored a doc) as Hs' by (eapply stored_docs; [by left| |done]; destruct C as [[C _]|C]; [by right|left; by rewrite C]).
  destruct (ok_held a Hok doc n p Hs' Hp) as (L & K & Hc). unfold held. rewrite E. split; [done|]. split; [done|].
  destruct (decide (guard_name n (incarnation p) = guard_name name inc)) as [Hg|Hg].
  - apply guard_name_inj in Hg as [-> Hi]; [|done|done]. left. rewrite Hi. by eapply Hfree.
  - destruct Hc as [Hc|[G1 G2]]; [by left|]. right. split; [set_solver|]. destruct C as [[_ C]|C]; [by rewrite C|rewrite C; set_solver].
Qed.

Context `{!ProfileLaws}.
#[local] Set Default Proof Using "All".

Lemma auth_ok_written a a' doc :
  written doc a a' -> auth_ok a -> document_ok doc ->
  (forall name p, bt_get name (profiles doc) = Some p -> held a name p) -> auth_ok a'.
Proof.
  intros [A B C E] Hok Hd Hall. apply (auth_ok_from a); [done|done|]. intros doc' n p Hs Hp. assert (held a n p) as (L & K & Hc).
  { destruct Hs as (bytes & Hb & Hf). assert (document_from_slice bytes = Some doc' -> (Some bytes = di_document (au_visible a) \/ Some bytes = di_document (au_durable a)) -> held a n p) as Hold.
    { intros _ Hx. eapply ok_held; [done| |done]. exists bytes. split; [|done]. destruct Hx; [by left|by right]. }
    assert (forall b, document_to_vec doc = Some b -> bytes = b -> held a n p) as Hnew.
    { intros b Hv ->. rewrite (to_vec_from_slice doc b Hd Hv) in Hf. injection Hf as <-. by apply Hall. }
    destruct A as [A|(b & Hv & A)], C as [[C _]|C]; rewrite ?A, ?C in Hb; rewrite ?A in Hb; destruct Hb as [Hb|Hb]; eauto; try (injection Hb as Hb; eauto). }
  unfold held. rewrite E. split; [done|]. split; [done|]. destruct Hc as [Hc|[G1 G2]]; [by left|]. right. rewrite B. split; [done|].
  destruct C as [[_ C]|C]; [by rewrite C|by rewrite C, B].
Qed.

Lemma auth_ok_settled a m m' f c r :
  auth_ok a -> settled (au_visible a) (au_durable a) m' -> m = m' \/ m = au_visible a -> auth_ok (mkAuth m m' f c r (au_trace a)).
Proof.
  intros Hok (Hd & G1 & G2 & _) Hm. apply (auth_ok_from a); [done|done|]. intros doc n p Hst Hp.
  assert (stored a doc) as Hs by (eapply stored_docs; [| |done]; [destruct Hm as [->| ->]; [done|by left]|done]).
  destruct (ok_held a Hok doc n p Hs Hp) as (L & K & Hc). unfold held. simpl. split; [done|]. split; [done|]. destruct Hc as [Hc|[B1 B2]]; [by left|]. right.
  split; [destruct Hm as [->| ->]; [set_solver|done]|set_solver].
Qed.

(** *** The operations *)

(** What was read is held, and is not marked only if its token may be presented. *)
Lemma seen_held a doc name p :
  auth_ok a -> seen (au_visible a) doc -> bt_get name (profiles doc) = Some p ->
  held a name p /\ (reauth p = false -> current (au_trace a) name (incarnation p) = Some (refresh p)).
Proof.
  intros Hok Hs Hp. unfold seen in Hs. destruct (di_document (au_visible a)) as [bytes|] eqn:Hb; [|by subst doc].
  destruct Hs as (d & Hf & _ & ->). simpl in Hp. apply bt_get_marked in Hp as (p0 & Hp & ->). simpl.
  assert (held a name p0) as (L & K & Hc) by (eapply ok_held; [done| |done]; exists bytes; auto). split; [by split|].
  destruct (bool_decide_reflect (guard_name name (incarnation p0) ∈ di_guards (au_visible a))); [done|]. intros _. destruct Hc as [Hc|[? _]]; done.
Qed.

Lemma seen_ok v doc : seen v doc -> document_ok doc.
Proof.
  unfold seen. destruct (di_document v) as [bytes|]; [|intros ->; repeat constructor]. intros (d & Hf & Hv & ->).
  assert (version d = 1) as H1' by (unfold document_validate in Hv; destruct (Z.eqb_spec (version d) 1); done).
  destruct (from_slice_ok bytes d Hf H1') as (_ & Hs & Hr). split; [done|]. split; simpl; [by apply keys_sorted_marked|].
  apply Forall_fmap. eapply Forall_impl; [exact Hr|]. done.
Qed.

Lemma seen_same a a' doc : same a a' -> seen (au_visible a') doc -> seen (au_visible a) doc.
Proof. intros [A B _ _ _ _]. unfold seen. by rewrite A, B. Qed.

(** After a document is in place on both sides it is what is stored. *)
Lemma stored_written a doc bytes d :
  au_durable a = au_visible a -> di_document (au_visible a) = Some bytes -> document_to_vec doc = Some bytes -> document_ok doc -> stored a d -> d = doc.
Proof.
  intros Hd Hb Hv Hok (b & Hx & Hf). assert (b = bytes) as -> by (rewrite Hd, Hb in Hx; naive_solver).
  rewrite (to_vec_from_slice doc bytes Hok Hv) in Hf. by injection Hf as <-.
Qed.

Lemma insert_ok doc name p : document_ok doc -> in_range p -> document_ok (with_profiles (bt_insert name p (profiles doc)) doc).
Proof. intros (Hv & Hs & Hr) Hp. split; [done|]. split; simpl; [by apply bt_insert_sorted|by apply bt_insert_Forall]. Qed.
Lemma remove_ok doc name : document_ok doc -> document_ok (with_profiles (bt_remove name (profiles doc)) doc).
Proof.
  intros (Hv & Hs & Hr). split; [done|]. split; simpl; [by apply bt_remove_sorted|]. apply Forall_forall. intros x [_ Hx]%list_elem_of_filter.
  rewrite Forall_forall in Hr. by apply Hr.
Qed.

(** A quiet call at the front of an operation. *)
Lemma quiet_keeps {A B} (c : AuthM A) (k : A -> AuthM B) a r a' :
  quiet c -> auth_ok a -> bind c k a = (r, a') ->
  (exists x a1, c a = (Ok x, a1) /\ same a a1 /\ auth_ok a1 /\ k x a1 = (r, a')) \/ auth_ok a'.
Proof.
  intros Hq Hok [(x & a1 & Hc & S & Hk)|(e & -> & S)]%quiet_then; [|right; by eapply auth_ok_same|done]. left. exists x, a1. split_and!; try done. by eapply auth_ok_same.
Qed.

Lemma read_keeps {B} (k : Document -> AuthM B) a r a' :
  auth_ok a -> bind read k a = (r, a') ->
  (exists doc a1, same a a1 /\ auth_ok a1 /\ seen (au_visible a1) doc /\ k doc a1 = (r, a')) \/ auth_ok a'.
Proof.
  intros Hok [(doc & a1 & Hr & S & Hok1 & Hk)|?]%quiet_keeps; [|by right|apply quiet_read|done]. left. exists doc, a1. split_and!; try done.
  apply read_Ok in Hr. eapply seen_same; [|exact Hr]. destruct S; split; congruence.
Qed.

Lemma logout_keeps name a : auth_ok a -> auth_ok (snd (logout name a)).
Proof.
  intros Hok. destruct (logout name a) as [r a'] eqn:Hl. simpl. unfold logout in Hl.
  apply quiet_keeps in Hl as [(? & a1 & _ & _ & Hok1 & Hl)|?]; [|done|apply auth_quiet_lift|done].
  apply quiet_keeps in Hl as [(present & a2 & _ & _ & Hok2 & Hl)|?]; [|done|apply quiet_open|done].
  destruct present; [|by injection Hl as <- <-]. simpl in Hl. apply read_keeps in Hl as [(doc & a3 & _ & Hok3 & Hr & Hl)|?]; [|done|done].
  unfold bind at 1, lift in Hl. destruct (bt_get name (profiles doc)) as [removed|] eqn:Hg; [|by injection Hl as <- <-]. cbn [ok_or] in Hl.
  pose proof (seen_ok _ _ Hr) as Hdoc. destruct (seen_held a3 doc name removed Hok3 Hr Hg) as ((L & K & _) & _).
  unfold bind in Hl. destruct (write _ a3) as [rw a4] eqn:Hw. apply write_spec in Hw as [W Hw].
  assert (auth_ok a4) as Hok4.
  { eapply auth_ok_written; [done|done|by apply remove_ok|]. intros n p. simpl. rewrite bt_get_remove. destruct (bool_decide _); [done|]. intros Hp. by eapply seen_held. }
  destruct rw as [[]|e]; [|by injection Hl as <- <-]. destruct Hw as (_ & Hd & bytes & Hv & Hb & _); [done|].
  apply finish_guard_spec in Hl as [_ U]. eapply auth_ok_unguarded; [done|done|done|]. intros d p Hs Hp _.
  assert (d = with_profiles (bt_remove name (profiles doc)) doc) as -> by (eapply stored_written; [done|done|done|by apply remove_ok|done]).
  simpl in Hp. by rewrite bt_get_remove, bool_decide_eq_true_2 in Hp.
Qed.

Lemma snoc_split {A} (l pre post : list A) x e :
  l ++ [e] = pre ++ x :: post -> (l = pre /\ e = x /\ post = []) \/ exists post', post = post' ++ [e] /\ l = pre ++ x :: post'.
Proof.
  destruct post as [|y post] using rev_ind; [intros [-> ->]%app_inj_tail; by left|]. clear IHpost.
  change (x :: post ++ [y]) with ((x :: post) ++ [y]). rewrite app_assoc. intros [-> ->]%app_inj_tail. right. by exists post.
Qed.

(** An event about a profile that is guarded wherever it is stored. *)
Lemma auth_ok_event a e name inc :
  auth_ok a ->
  match e with
  | Issued n i _ => n = name /\ i = inc /\ Forall (fun e => event_incarnation e <> i) (au_trace a)
  | Asked n i t _ => n = name /\ i = inc /\ current (au_trace a) n i = Some t
  end ->
  (forall doc p, stored a doc -> bt_get name (profiles doc) = Some p -> incarnation p = inc ->
     guard_name name inc ∈ di_guards (au_visible a) /\ guard_name name inc ∈ di_guards (au_durable a)) ->
  auth_ok (set_trace e a).
Proof.
  intros Hok He Hg. split.
  - intros doc n p Hs Hp. destruct (ok_held a Hok doc n p Hs Hp) as (L & K & Hc). split; [done|]. simpl. split; [by apply known_app|].
    destruct (decide (n = name /\ incarnation p = inc)) as [[-> Hi]|Hn]; [right; rewrite Hi; by eapply Hg|].
    destruct Hc as [Hc|?]; [left|by right]. rewrite current_app. destruct e as [n' i' t|n' i' t r]; cbn [current_after]; rewrite bool_decide_eq_false_2; try done; naive_solver.
  - intros pre n i t r post [(Hpre & -> & _)|(post' & _ & Htr)]%snoc_split; [|by eapply ok_trace]. destruct He as (_ & _ & He). by rewrite <- Hpre.
  - intros pre n i t post [(Hpre & -> & _)|(post' & _ & Htr)]%snoc_split; [|by eapply ok_issued]. destruct He as (_ & _ & He). by rewrite <- Hpre.
Qed.

Lemma seen_stored a doc d name p p' :
  au_durable a = au_visible a -> seen (au_visible a) doc -> stored a d -> bt_get name (profiles d) = Some p -> bt_get name (profiles doc) = Some p' -> incarnation p' = incarnation p.
Proof.
  intros Hd Hs (b & Hb & Hf) Hp Hp'. unfold seen in Hs. assert (di_document (au_visible a) = Some b) as Hv by (rewrite Hd in Hb; naive_solver).
  rewrite Hv in Hs. destruct Hs as (d0 & Hf0 & _ & ->). rewrite Hf in Hf0. injection Hf0 as <-. simpl in Hp'. apply bt_get_marked in Hp' as (p0 & Hp0 & ->). simpl. congruence.
Qed.

Lemma login_keeps name p replace inc a :
  new_incarnation inc a -> in_range p -> auth_ok a -> auth_ok (snd (login_before name p replace inc a)).
Proof.
  intros [Hlen Hnew] Hrange Hok. destruct (login_before name p replace inc a) as [r a'] eqn:Hl. simpl. unfold login_before in Hl.
  apply quiet_keeps in Hl as [(? & a1 & _ & S1 & Hok1 & Hl)|?]; [|done|apply auth_quiet_lift|done].
  apply quiet_keeps in Hl as [(present & a2 & _ & S2 & Hok2 & Hl)|?]; [|done|apply quiet_open|done].
  destruct present; [|by injection Hl as <- <-]. simpl in Hl.
  apply quiet_keeps in Hl as [(expired & a3 & _ & S3 & Hok3 & Hl)|?]; [|done|apply quiet_late|done].
  destruct expired; [by injection Hl as <- <-|]. apply read_keeps in Hl as [(doc & a4 & S4 & Hok4 & Hr & Hl)|?]; [|done|done].
  destruct (_ && _); [by injection Hl as <- <-|]. assert (au_trace a4 = au_trace a) as Ht4 by (destruct S1, S2, S3, S4; congruence). clear S1 S2 S3 S4.
  pose proof (seen_ok _ _ Hr) as Hdoc.
  unfold bind at 1 in Hl. destruct (guard name inc a4) as [rg a5] eqn:Hg. apply guard_spec in Hg as [G Hg]. pose proof (auth_ok_grown _ _ G Hok4) as Hok5.
  destruct rg as [[]|e]; [|by injection Hl as <- <-]. destruct Hg as (Gin & Gd & Gv); [done|].
  unfold bind at 1, modify in Hl. set (a6 := set_trace _ a5) in Hl.
  assert (forall n q, known (au_trace a4) n q -> q <> inc) as Hfresh.
  { intros n q Hk ->. rewrite Ht4 in Hk. apply Exists_exists in Hk as (ev & Hin & Hev). rewrite Forall_forall in Hnew. apply (Hnew ev Hin). by destruct ev as [? ? ?|? ? ? ?], Hev as [_ ->]. }
  assert (auth_ok a6) as Hok6.
  { apply (auth_ok_event a5 _ name inc); [done|by rewrite (gr_trace _ _ G), Ht4|]. intros d q _ _ _. by rewrite Gd. }
  set (doc' := with_profiles (bt_insert name (renewed inc p) (profiles doc)) doc) in Hl.
  apply quiet_keeps in Hl as [(expired & a7 & _ & S7 & Hok7 & Hl)|?]; [|done|apply quiet_late|done]. destruct expired; [by injection Hl as <- <-|].
  assert (document_ok doc') as Hdoc' by (by apply insert_ok). unfold bind at 1 in Hl. destruct (write doc' a7) as [rw a8] eqn:Hw. apply write_spec in Hw as [W Hw].
  assert (current (au_trace a6) name inc = Some (refresh p)) as Hcur.
  { simpl. rewrite current_app. cbn [current_after]. by rewrite bool_decide_eq_true_2. }
  assert (forall n q, bt_get n (profiles doc') = Some q -> held a7 n q) as Hheld.
  { intros n q Hq. apply (held_same a6); [done|]. unfold doc' in Hq. simpl in Hq. destruct (decide (n = name)) as [->|Hne].
    - rewrite bt_get_insert_eq in Hq. injection Hq as <-. split; [done|]. split; [simpl; apply Exists_app; right; by constructor|]. left. exact Hcur.
    - rewrite bt_get_insert_ne in Hq by done. destruct (seen_held a4 doc n q Hok4 Hr Hq) as ((L & K & Hc) & _). split; [done|]. simpl.
      rewrite (gr_trace _ _ G). split; [by apply known_app|]. destruct Hc as [Hc|[C1 C2]].
      + left. rewrite current_app. cbn [current_after]. rewrite bool_decide_eq_false_2; [done|]. intros [? _]. done.
      + right. rewrite Gd. assert (guard_name n (incarnation q) ∈ di_guards (au_visible a5)) by (by apply (gr_vguards _ _ G)). done. }
  pose proof (auth_ok_written _ _ _ W Hok7 Hdoc' Hheld) as Hok8. destruct rw as [[]|e]; [|by injection Hl as <- <-]. destruct Hw as (_ & Hd & bytes & Hv & Hb & _); [done|].
  assert (forall d, stored a8 d -> d = doc') as Hst by (intros d; by eapply stored_written).
  assert (au_trace a8 = au_trace a6) as Ht8 by (rewrite (wr_trace _ _ _ W); apply S7).
  unfold bind at 1 in Hl. destruct (finish_guard name inc a8) as [rf a9] eqn:Hf. apply finish_guard_spec in Hf as [-> U].
  assert (auth_ok a9) as Hok9.
  { eapply auth_ok_unguarded; [done|done|done|]. intros d q Hs Hq Hi. apply Hst in Hs as ->. unfold doc' in Hq. simpl in Hq. rewrite bt_get_insert_eq in Hq.
    injection Hq as <-. rewrite Ht8. exact Hcur. }
  unfold bind in Hl. assert (exists a10, (match bt_get name (profiles doc) with Some p => finish_guard name (incarnation p) | None => ret tt end) a9 = (Ok tt, a10) /\ auth_ok a10) as (a10 & Hx & Hok10).
  { destruct (bt_get name (profiles doc)) as [prev|] eqn:Hprev; [|by exists a9]. destruct (finish_guard name (incarnation prev) a9) as [rf a10] eqn:Hf.
    apply finish_guard_spec in Hf as [-> U']. exists a10. split; [done|]. destruct (seen_held a4 doc name prev Hok4 Hr Hprev) as ((L & K & _) & _).
    eapply auth_ok_unguarded; [done|done|done|]. intros d q Hs Hq Hi. exfalso.
    assert (stored a8 d) as Hs8 by (eapply stored_docs; [left; apply U| |exact Hs]; destruct (un_durable _ _ _ U) as [[E _]|E]; [by right|left; rewrite E; apply U]).
    apply Hst in Hs8 as ->. unfold doc' in Hq. simpl in Hq. rewrite bt_get_insert_eq in Hq. injection Hq as <-. simpl in Hi. apply (Hfresh _ _ K). done. }
  rewrite Hx in Hl. pose proof (quiet_read a10) as Q. destruct (read a10) as [[d|e] a11]; injection Hl as <- <-; by eapply auth_ok_same.
Qed.

Lemma bound_Ok c doc p :
  bound c doc = Ok p -> bt_get (mc_name c) (profiles doc) = Some p /\ incarnation p = mc_incarnation c /\ account p = mc_account c /\ enabled p = true /\ reauth p = false.
Proof.
  unfold bound. destruct (bt_get _ _) as [q|]; [|done]. cbn [ok_or]. destruct (bool_decide_reflect (incarnation q = mc_incarnation c)); [|done].
  destruct (bool_decide_reflect (account q = mc_account c)); [|done]. simpl. destruct (enabled q) eqn:?; [|done]. destruct (reauth q) eqn:?; [done|]. by intros [= <-].
Qed.

Lemma renew_keeps c force a : Forall answer_in_range (au_answers a) -> auth_ok a -> auth_ok (snd (renew c force a)).
Proof.
  intros Hrange Hok. destruct (renew c force a) as [r a'] eqn:Hl. simpl. unfold renew in Hl.
  apply quiet_keeps in Hl as [(present & a1 & Ho & S1 & Hok1 & Hl)|?]; [|done|apply quiet_open|done]. destruct present; [|by injection Hl as <- <-]. simpl in Hl.
  apply read_keeps in Hl as [(doc & a2 & S2 & Hok2 & Hr & Hl)|?]; [|done|done]. unfold bind at 1, lift in Hl. destruct (bound c doc) as [p|] eqn:Hb; [|by injection Hl as <- <-].
  apply bound_Ok in Hb as (Hp & Hi & Hacc & _ & Hre). destruct (seen_held a2 doc _ p Hok2 Hr Hp) as ((L & K & _) & Hcur). specialize (Hcur Hre). rewrite Hi in *.
  apply quiet_keeps in Hl as [(due & a3 & _ & S3 & Hok3 & Hl)|?]; [|done|destruct force; [apply auth_quiet_ret|apply auth_quiet_bind; [apply quiet_now|intros; apply auth_quiet_ret]]|done].
  destruct due; [|by injection Hl as <- <-]. simpl in Hl. pose proof (seen_ok _ _ Hr) as Hdoc. unfold bind at 1 in Hl.
  destruct (guard _ _ a3) as [rg a4] eqn:Hg. apply guard_spec in Hg as [G Hg]. pose proof (auth_ok_grown _ _ G Hok3) as Hok4. destruct rg as [[]|e]; [|by injection Hl as <- <-].
  destruct Hg as (Gin & Gd & Gv); [done|]. assert (au_trace a4 = au_trace a2) as Ht4 by (rewrite (gr_trace _ _ G); apply S3).
  assert (au_answers a4 = au_answers a) as Ha4 by (rewrite (gr_answers _ _ G); destruct S1, S2, S3; congruence). clear S1 S2.
  unfold bind at 1, ask in Hl. set (answer := match au_answers a4 with [] => _ | _ :: _ => _ end) in Hl.
  assert (answer_in_range answer) as Hans by (unfold answer; rewrite Ha4; by destruct Hrange).
  set (a5 := set_trace _ _) in Hl. assert (auth_ok a5) as Hok5.
  { unfold a5. apply (auth_ok_event _ _ (mc_name c) (mc_incarnation c)); [by apply (auth_ok_from a4); [..|apply Hok4]|by simpl; rewrite Ht4|]. intros d q _ _ _. simpl. by rewrite Gd. }
  destruct answer as [rotated|e]; [|by injection Hl as <- <-].
  apply quiet_keeps in Hl as [(t & a6 & _ & S6 & Hok6 & Hl)|?]; [|done|destruct (negb _); [apply auth_quiet_ret|apply quiet_now]|done].
  destruct (_ || _); [by injection Hl as <- <-|]. set (rot := mkProfile _ _ _ _ _ _ _) in Hl. set (doc' := with_profiles _ doc) in Hl.
  assert (current (au_trace a6) (mc_name c) (mc_incarnation c) = Some (refresh rotated)) as Hnext.
  { rewrite (sa_trace _ _ S6). simpl. rewrite current_app. cbn [current_after]. by rewrite bool_decide_eq_true_2. }
  assert (document_ok doc') as Hdoc' by (by apply insert_ok). unfold bind at 1 in Hl. destruct (write doc' a6) as [rw a7] eqn:Hw. apply write_spec in Hw as [W Hw].
  assert (forall n q, bt_get n (profiles doc') = Some q -> held a6 n q) as Hheld.
  { intros n q Hq. unfold doc' in Hq. simpl in Hq. destruct (decide (n = mc_name c)) as [->|Hne].
    - rewrite bt_get_insert_eq in Hq. injection Hq as <-. split; [done|]. split; [|left; exact Hnext]. rewrite (sa_trace _ _ S6). apply known_app. by rewrite Ht4.
    - rewrite bt_get_insert_ne in Hq by done. apply (held_same a5); [done|]. destruct (seen_held a2 doc n q Hok2 Hr Hq) as ((L' & K' & Hc) & _). split; [done|]. simpl.
      rewrite Ht4. split; [by apply known_app|]. destruct Hc as [Hc|[C1 C2]].
      + left. rewrite current_app. cbn [current_after]. rewrite bool_decide_eq_false_2; [done|]. intros [? _]. done.
      + right. rewrite Gd. assert (guard_name n (incarnation q) ∈ di_guards (au_visible a4)) by (apply (gr_vguards _ _ G); by rewrite (sa_vguards _ _ S3)). done. }
  pose proof (auth_ok_written _ _ _ W Hok6 Hdoc' Hheld) as Hok7. destruct rw as [[]|e]; [|by injection Hl as <- <-]. destruct Hw as (_ & Hd & bytes & Hv & Hb & _); [done|].
  apply finish_guard_spec in Hl as [_ U]. eapply auth_ok_unguarded; [done|done|done|]. intros d q Hs Hq _.
  assert (d = doc') as -> by (by eapply stored_written). unfold doc' in Hq. simpl in Hq. rewrite bt_get_insert_eq in Hq. injection Hq as <-. rewrite (wr_trace _ _ _ W). exact Hnext.
Qed.

Lemma step_keeps a a' : auth_step a a' -> auth_ok a -> auth_ok a'.
Proof.
  intros Hstep Hok. assert (forall f c r, auth_ok (with_oracle f c r a)) as Ho by (intros; by apply (auth_ok_from a); [..|apply Hok]).
  assert (forall A (c : AuthM A) f k r, quiet c -> auth_ok (snd (c (with_oracle f k r a)))) as Hq by (intros A c f k r Hc; eapply auth_ok_same; [apply Hc|apply Ho]).
  destruct Hstep.
  - by apply login_keeps.
  - apply Hq, quiet_preflight.
  - by apply logout_keeps.
  - apply Hq, quiet_due.
  - by apply renew_keeps.
  - apply Hq, quiet_select.
  - apply auth_ok_settled; [done|done|by left].
  - apply (auth_ok_from a); [done|done|]. intros doc n p (b & [Hb|Hb] & _); done.
  - apply auth_ok_settled; [done|done|by right].
Qed.

Lemma auth_reachable_ok a : reachable_auth a -> auth_ok a.
Proof.
  intros Hr. assert (forall x y, rtc auth_step x y -> auth_ok x -> auth_ok y) as Hi by (induction 1; eauto using step_keeps). apply (Hi _ _ Hr).
  split; [by intros doc n p (b & [Hb|Hb] & _)|by intros []..].
Qed.

Lemma current_apart l mid n i :
  Forall (fun e => match e with Issued n' i' _ | Asked n' i' _ _ => ~ (n' = n /\ i' = i) end) mid -> current (l ++ mid) n i = current l n i.
Proof.
  induction mid as [|x mid IH] using rev_ind; [by rewrite app_nil_r|]. rewrite Forall_app, Forall_singleton. intros [Hm Hx]. rewrite app_assoc, current_app, IH by done.
  destruct x; cbn [current_after]; by rewrite bool_decide_eq_false_2.
Qed.

(** C27. A refresh token is presented once.  In every history of logins, logouts and
    renewals by any number of processes, with any call failing, crashes at any point
    and only what was made durable surviving, a renewal presents the token that the
    last renewal of that login returned or, when there was none, the one the login
    brought.  So a token that was sent and not replaced is never sent again; the
    profile is unusable until a new login. *)
Theorem refresh_token_once a pre name inc token answer post :
  reachable_auth a -> au_trace a = pre ++ Asked name inc token answer :: post ->
  current pre name inc = Some token /\
  (forall e, answer = Err e -> Forall (fun ev => forall t r, ev <> Asked name inc t r) post).
Proof.
  intros Hr Ht. pose proof (auth_reachable_ok a Hr) as Hok. split; [by eapply ok_trace|]. intros e ->.
  assert (forall mid rest, post = mid ++ rest -> Forall (fun ev => forall t r, ev <> Asked name inc t r) mid) as Hall; [|apply (Hall post []); by rewrite app_nil_r].
  induction mid as [|x mid IH] using rev_ind; intros rest ->; [constructor|]. rewrite <- app_assoc in *. specialize (IH _ eq_refl). apply Forall_app. split; [done|]. constructor; [|constructor].
  intros t r ->. pose proof (ok_trace a Hok (pre ++ Asked name inc token (Err e) :: mid) name inc t r rest) as Hc. rewrite Ht, <- app_assoc in Hc. specialize (Hc eq_refl).
  change (Asked name inc token (Err e) :: mid) with ([Asked name inc token (Err e)] ++ mid) in Hc. rewrite app_assoc, current_apart, current_app in Hc.
  { cbn [current_after] in Hc. by rewrite bool_decide_eq_true_2 in Hc. }
  apply Forall_forall. intros ev Hin. rewrite Forall_forall in IH. destruct ev as [n i u|n i u w]; intros [-> ->]; [|by apply (IH _ Hin u w)].
  apply list_elem_of_split in Hin as (m1 & m2 & ->). pose proof (ok_issued a Hok (pre ++ Asked name inc token (Err e) :: m1) name inc u (m2 ++ Asked name inc t r :: rest)) as Hi.
  rewrite Ht, <- !app_assoc in Hi. specialize (Hi eq_refl). apply Forall_app in Hi as [_ Hi]. by inversion Hi.
Qed.
End histories.

(** ** Selection *)
Lemma threshold_spec count : 0 < count <= u64_max -> threshold count = 2 ^ 64 mod count.
Proof.
  intros Hc. unfold threshold, as_u64. rewrite Z.mod_opp_l_nz by (unfold u64_max in Hc; rewrite ?Z.mod_small; lia).
  rewrite (Z.mod_small count) by (unfold u64_max in Hc; lia). replace (2 ^ 64 - count) with (2 ^ 64 + (-1) * count) by lia. apply Z.mod_add. lia.
Qed.

Lemma draw_one count w i : 0 < count <= u64_max -> draw count [Some w] = Some (Ok i) <-> 2 ^ 64 mod count <= w /\ w mod count = i.
Proof.
  intros Hc. cbn [draw]. rewrite threshold_spec by done. destruct (Z.leb_spec (2 ^ 64 mod count) w) as [Hw|Hw]; split; try done.
  - intros [= <-]. done.
  - by intros [_ ->].
  - intros [? _]. lia.
Qed.

(** The words that lead to an index: evenly spaced from a first one. *)
Lemma draw_progression count i :
  0 < count <= u64_max -> 0 <= i < count ->
  exists start, forall w, 0 <= w <= u64_max ->
    draw count [Some w] = Some (Ok i) <-> exists k, 0 <= k < 2 ^ 64 / count /\ w = start + k * count.
Proof.
  intros Hc Hi. set (t := 2 ^ 64 mod count). set (q := 2 ^ 64 / count). pose proof (Z.div_mod (2 ^ 64) count ltac:(lia)) as Hdm. fold t q in Hdm.
  pose proof (Z.mod_pos_bound (2 ^ 64) count ltac:(lia)) as Ht. fold t in Ht. exists (t + (i - t) mod count). intros w Hw. rewrite draw_one by done. fold t.
  pose proof (Z.mod_pos_bound (i - t) count ltac:(lia)) as Hr. unfold u64_max in *. split.
  - intros [Htw Hm]. exists ((w - t - (i - t) mod count) / count).
    assert ((w - t - (i - t) mod count) mod count = 0) as Hz.
    { rewrite <- Hm, Zminus_mod_idemp_l. replace (w - t - (w - t) mod count) with ((w - t) / count * count) by (pose proof (Z.div_mod (w - t) count ltac:(lia)); lia). apply Z.mod_mul. lia. }
    apply Z.div_exact in Hz; [|lia]. rewrite Z.mul_comm in Hz. split; [|lia]. split; [apply Z.div_pos; [|lia]|apply Z.div_lt_upper_bound; [lia|nia]].
    destruct (Z.lt_ge_cases (w - t) ((i - t) mod count)) as [Hlt|]; [|lia]. exfalso.
    assert ((w - t) mod count = (i - t) mod count) as He by (rewrite <- Hm; by rewrite Zminus_mod_idemp_l). rewrite Z.mod_small in He by lia. lia.
  - intros (k & Hk & ->). split; [nia|]. rewrite Z.mod_add by lia. rewrite Z.add_mod_idemp_r by lia. replace (t + (i - t)) with i by lia. apply Z.mod_small. lia.
Qed.

Lemma draw_index count words i : 0 < count <= u64_max -> draw count words = Some (Ok i) -> 0 <= i < count.
Proof.
  intros Hc. induction words as [|[w|] words IH]; cbn [draw]; [done| |done]. destruct (_ <=? _); [|done]. intros [= <-]. apply Z.mod_pos_bound. lia.
Qed.

(** What [select_profile] does with a word: it takes a candidate or draws again. *)
Lemma select_word l words w : validate_names l = Ok tt -> Z.of_nat (length (filter (fun p => eligible p = true) l)) <= u64_max ->
  let candidates := filter (fun p => eligible p = true) l in
  let n := Z.of_nat (length candidates) in
  0 < n ->
  (w < 2 ^ 64 mod n /\ select_profile l None (Some w :: words) = select_profile l None words) \/
  (2 ^ 64 mod n <= w /\ exists p, candidates !! Z.to_nat (w mod n) = Some p /\ select_profile l None (Some w :: words) = Some (Ok (pm_name p))).
Proof.
  intros Hv Hn candidates n Hpos. unfold select_profile. rewrite Hv. fold candidates n. fold candidates n in Hn.
  assert ((match candidates with [] => true | _ => false end) = false) as -> by (unfold n in Hpos; destruct candidates; [simpl in Hpos; lia|done]).
  cbn [draw]. rewrite threshold_spec by lia. destruct (Z.leb_spec (2 ^ 64 mod n) w) as [Hw|Hw]; [right|by left]. split; [done|].
  pose proof (Z.mod_pos_bound w n Hpos). assert (exists p, candidates !! Z.to_nat (w mod n) = Some p) as [p Hp] by (apply lookup_lt_is_Some_2; unfold n in *; lia).
  exists p. by rewrite Hp.
Qed.

(** C40. Selection is fair.  Without a name given, [select_profile] returns eligible profiles
    only; each of them is the answer to exactly the same number of random words,
    [2^64 / n] of the [2^64], evenly spaced; and a word that is the answer to none, of which
    there are fewer than there are profiles, is dropped and the next one drawn. *)
Theorem selection_fair l :
  let candidates := filter (fun p => eligible p = true) l in
  let n := Z.of_nat (length candidates) in
  validate_names l = Ok tt -> NoDup (pm_name <$> l) -> 0 < n <= u64_max ->
  (forall words name, select_profile l None words = Some (Ok name) -> exists p, p ∈ l /\ eligible p = true /\ pm_name p = name) /\
  (forall p, p ∈ l -> eligible p = true -> exists start, forall w words, 0 <= w <= u64_max ->
     (2 ^ 64 mod n <= w /\ select_profile l None (Some w :: words) = Some (Ok (pm_name p))) <->
     exists k, 0 <= k < 2 ^ 64 / n /\ w = start + k * n) /\
  (forall w words, 0 <= w < 2 ^ 64 mod n -> select_profile l None (Some w :: words) = select_profile l None words).
Proof.
  intros candidates n Hv Hnd Hn. split; [|split].
  - intros words name. induction words as [|[w|] words IH].
    + unfold select_profile. rewrite Hv. fold candidates. by destruct candidates.
    + destruct (select_word l words w Hv (proj2 Hn) (proj1 Hn)) as [[_ ->]|(_ & p & Hp & ->)]; [done|]. intros [= <-].
      apply list_elem_of_lookup_2, list_elem_of_filter in Hp as [He Hin]. by exists p.
    + unfold select_profile. rewrite Hv. fold candidates. by destruct candidates.
  - intros p Hin He. assert (p ∈ candidates) as [i Hi]%list_elem_of_lookup by by apply list_elem_of_filter.
    pose proof (lookup_lt_Some _ _ _ Hi) as Hlt. destruct (draw_progression n (Z.of_nat i) Hn) as [start Hs]; [unfold n; lia|]. exists start. intros w words Hw.
    rewrite <- (Hs w Hw), draw_one by done. pose proof (select_word l words w Hv (proj2 Hn) (proj1 Hn)) as Hsw. cbv zeta in Hsw. fold candidates n in Hsw. destruct Hsw as [[Hlow _]|(Hhigh & q & Hq & Hsel)]; [lia|].
    rewrite Hsel. split; intros [_ E]; (split; [done|]).
    + assert (q = p) as ->.
      { injection E as E. assert (q ∈ l) as Hql by by apply list_elem_of_lookup_2, list_elem_of_filter in Hq as [_ ?].
        apply list_elem_of_lookup in Hql as [a Ha], Hin as [b Hb]. assert (a = b) as -> by (eapply (NoDup_lookup (pm_name <$> l)); rewrite ?list_lookup_fmap, ?Ha, ?Hb; simpl; try done; by rewrite E). congruence. }
      assert (NoDup candidates) as Hnc by (apply NoDup_filter; by eapply NoDup_fmap_1).
      pose proof (NoDup_lookup _ _ _ _ Hnc Hq Hi) as Heq. pose proof (Z.mod_pos_bound w n (proj1 Hn)). lia.
    + rewrite E, Nat2Z.id, Hi in Hq. by injection Hq as ->.
  - intros w words Hw. destruct (select_word l words w Hv (proj2 Hn) (proj1 Hn)) as [[_ E]|[Hh _]]; [done|]. fold candidates n in Hh. lia.
Qed.
