(* ===== verification/Credentials.v ===== *)
(** * Credentials (src/src/providers/openai_codex/auth.rs, browser_login.rs)

    What becomes credentials: an access token with its hints, the files of other
    programs, the answer of the token endpoint, and the request a browser makes to the
    local callback at the end of a login. *)
From stdpp Require Import countable.
From S2P Require Import Prelude Json Errors Identifiers Text Wire Positions Cursors Profiles.

(** ** Access tokens (auth.rs) *)
Record SubscriptionCredentials : Type := mkSubscription {
  sc_access_token : string;
  sc_account_id : string;
  sc_expires_at : option Z
}.

Record CodexTokens : Type := { ct_access_token : string; ct_account_id : option string }.
Record CodexFile : Type := { cf_auth_mode : option string; cf_api_key : bool; cf_tokens : option CodexTokens }.
Record PiTokens : Type := { pt_kind : string; pt_access : string; pt_expires : Z; pt_account_id : option string }.
Record PiFile : Type := { pf_codex : option PiTokens }.
Record Tokens : Type := { tk_access_token : string; tk_refresh_token : string; tk_token_type : string; tk_expires_in : Z }.
Inductive AuthSource : Type := FromCodex | FromPi.

(** What is read of JSON: the files, the claims of a token (as hints and as required
    of a login) and the answer of the token endpoint; and the padded alphabet. *)
Class AuthSerde := {
  codex_file : string -> option CodexFile;
  pi_file : string -> option PiFile;
  hint_claims : string -> option (option string * option Z);
  token_claims : string -> option (string * Z);
  tokens_from_slice : string -> option Tokens;
  b64_decode_padded : string -> option string
}.

(** [str::split] at a character. *)
Fixpoint split_on (d : Ascii.ascii) (s : string) : list string :=
  match s with
  | EmptyString => [EmptyString]
  | String c s =>
      if Ascii.eqb c d then EmptyString :: split_on d s
      else match split_on d s with [] => [String c EmptyString] | p :: ps => String c p :: ps end
  end.

Section credentials.
Context `{UuidLib} `{ProfileSerde} `{AuthSerde} `{Base64}.

(** [jwt_hints]. *)
Definition jwt_hints (token : string) : option string * option Z :=
  match split_on "."%char token with
  | [_; payload; _] =>
      match match b64_decode payload with Some d => Some d | None => b64_decode_padded payload end ≫= hint_claims with
      | Some hints => hints
      | None => (None, None)
      end
  | _ => (None, None)
  end.

(** [SubscriptionCredentials::headers] as a check. *)
Definition check_headers (c : SubscriptionCredentials) : AResult unit :=
  if negb (header_value (String.append "Bearer " (sc_access_token c))) then Err (InvalidAuth "access token is not a valid header value")
  else if negb (header_value (sc_account_id c)) then Err (InvalidAuth "account identifier is not a valid header value")
  else Ok tt.

(** [SubscriptionCredentials::ensure_fresh]; [t] is what the clock says. *)
Definition ensure_fresh (t : option Z) (c : SubscriptionCredentials) : AResult unit :=
  let? now := ok_or t Clock in
  if is_some_and (sc_expires_at c) (fun expiry => negb (fresh now expiry)) then Err AuthExpired else Ok tt.

(** [SubscriptionCredentials::from_access_token]. *)
Definition from_access_token (t : option Z) (token : string) (account_id : option string) (expires_at : option Z) : AResult SubscriptionCredentials :=
  if trim_is_empty token then Err (InvalidAuth "missing OAuth access token")
  else
    let hints := jwt_hints token in
    let given := a ← account_id; if trim_is_empty a then None else Some a in
    let? account_id := ok_or (match given with Some a => Some a | None => fst hints end) (InvalidAuth "missing ChatGPT account identifier") in
    let expires_at := match expires_at, snd hints with
                      | Some a, Some b => Some (Z.min a b)
                      | Some a, None => Some a
                      | None, b => b
                      end in
    let c := mkSubscription token account_id expires_at in
    check? check_headers c in
    check? ensure_fresh t c in
    Ok c.

(** [parse_credentials]. *)
Definition parse_credentials (t : option Z) (source : AuthSource) (bytes : string) : AResult SubscriptionCredentials :=
  match source with
  | FromCodex =>
      let? file := ok_or (codex_file bytes) (InvalidAuth "unrecognized Codex auth.json shape") in
      if is_some_and (cf_auth_mode file) (fun mode => negb (bool_decide (mode = "chatgpt"))) || cf_api_key file
      then Err (InvalidAuth "expected ChatGPT subscription login, not API-key or another auth mode")
      else
        let? tokens := ok_or (cf_tokens file) (InvalidAuth "Codex OAuth tokens are absent") in
        from_access_token t (ct_access_token tokens) (ct_account_id tokens) None
  | FromPi =>
      let? file := ok_or (pi_file bytes) (InvalidAuth "unrecognized Pi auth.json shape") in
      let? tokens := ok_or (pf_codex file) (InvalidAuth "Pi openai-codex credential is absent") in
      if negb (bool_decide (pt_kind tokens = "oauth")) then Err (InvalidAuth "Pi openai-codex credential must be OAuth")
      else from_access_token t (pt_access tokens) (pt_account_id tokens) (Some (pt_expires tokens / 1000))
  end.

(** [ManagedCredentials::load]. *)
Definition load (c : ManagedCredentials) (t : option Z) : AuthM SubscriptionCredentials :=
  let! doc := store_read in
  let! p := lift (bound c doc) in
  lift (from_access_token t (access p) (Some (account p)) (Some (expires p))).

(** [AuthManager::refresh]; with the name given no random word is drawn. *)
Definition refresh_profile (configured : AResult unit) (name : string) : AuthM unit :=
  do! lift configured in
  let! source := select (Some name) [] in
  match source with Some c => prepare configured c true | None => ret tt end.

(** ** Logging in (browser_login.rs) *)
Definition failed : GatewayError := InvalidAuth "experimental browser login failed; no retry was attempted".
Definition HOST : string := "localhost:1455".
Definition ISSUER : string := "https://auth.openai.com".
Definition crlf : string := String "013"%char (String "010"%char EmptyString).

(** [str::split] at the end of a line. *)
Fixpoint split_lines (s : string) : list string :=
  match s with
  | EmptyString => [EmptyString]
  | String c rest =>
      match rest with
      | String d rest' =>
          if Ascii.eqb c "013"%char && Ascii.eqb d "010"%char then EmptyString :: split_lines rest'
          else match split_lines rest with [] => [String c EmptyString] | p :: ps => String c p :: ps end
      | EmptyString => [String c EmptyString]
      end
  end.

(** [str::split_once]. *)
Fixpoint split_once (d : Ascii.ascii) (s : string) : option (string * string) :=
  match s with
  | EmptyString => None
  | String c s =>
      if Ascii.eqb c d then Some (EmptyString, s)
      else match split_once d s with Some (a, b) => Some (String c a, b) | None => None end
  end.

(** [char::to_digit(16)]. *)
Definition to_digit16 (c : Ascii.ascii) : option Z :=
  let n := Z.of_nat (Ascii.nat_of_ascii c) in
  if byte_in 48 57 c then Some (n - 48) else if byte_in 97 102 c then Some (n - 87) else if byte_in 65 70 c then Some (n - 55) else None.

(** The loop of [decode]. *)
Fixpoint decode_bytes (s : string) : option string :=
  match s with
  | EmptyString => Some EmptyString
  | String c rest =>
      if Ascii.eqb c "%"%char then
        match rest with
        | String x (String y rest) =>
            match to_digit16 x, to_digit16 y with
            | Some a, Some b => t ← decode_bytes rest; Some (String (Ascii.ascii_of_nat (Z.to_nat (a * 16 + b))) t)
            | _, _ => None
            end
        | _ => None
        end
      else t ← decode_bytes rest; Some (String (if Ascii.eqb c "+"%char then " "%char else c) t)
  end.

(** [decode]. *)
Definition has_tab (s : string) : bool := negb (bytes_all (fun c => negb (byte_in 9 9 c)) s).
Definition decode (value : string) : option string :=
  bytes ← decode_bytes value;
  if negb (from_utf8 bytes) || has_control bytes || has_tab bytes then None else Some bytes.

Definition lower (c : Ascii.ascii) : Ascii.ascii :=
  if byte_in 65 90 c then Ascii.ascii_of_nat (Ascii.nat_of_ascii c + 32) else c.
Fixpoint eq_ignore_ascii_case (a b : string) : bool :=
  match a, b with
  | EmptyString, EmptyString => true
  | String x a, String y b => Ascii.eqb (lower x) (lower y) && eq_ignore_ascii_case a b
  | _, _ => false
  end.

(** One header line: whether it is a host. *)
Definition header_line (line : string) : option bool :=
  nv ← split_once ":"%char line;
  let '(name, value) := nv in
  if str_is_empty name || negb (bytes_all (fun b => is_ascii_alphanumeric b || Ascii.eqb b "-"%char) name)
     || negb (bytes_all (fun b => negb (byte_in 0 31 b || byte_in 127 127 b) || byte_in 9 9 b) value) then None
  else
    let host := eq_ignore_ascii_case name "host" in
    if host && negb (trims_to HOST value) then None
    else if eq_ignore_ascii_case name "transfer-encoding"
            || (eq_ignore_ascii_case name "content-length" && negb (trims_to "0" value)) then None
    else Some host.

(** The loop over the headers: how many are hosts. *)
Fixpoint headers_hosts (lines : list string) : option Z :=
  match lines with
  | [] => Some 0
  | line :: lines =>
      host ← header_line line;
      hosts ← headers_hosts lines;
      Some ((if host : bool then 1 else 0) + hosts)
  end.

Record Answer : Type := mkAnswer {
  an_state : option string;
  an_code : option string;
  an_error : option string;
  an_issuer : option string;
  an_description : option string
}.
Definition no_answer : Answer := mkAnswer None None None None None.

(** The loop over the pairs of the query. *)
Definition put (key value : string) (a : Answer) : option Answer :=
  if bool_decide (key = "state") then if is_some (an_state a) then None else Some (mkAnswer (Some value) (an_code a) (an_error a) (an_issuer a) (an_description a))
  else if bool_decide (key = "code") then if is_some (an_code a) then None else Some (mkAnswer (an_state a) (Some value) (an_error a) (an_issuer a) (an_description a))
  else if bool_decide (key = "error") then if is_some (an_error a) then None else Some (mkAnswer (an_state a) (an_code a) (Some value) (an_issuer a) (an_description a))
  else if bool_decide (key = "iss") then if is_some (an_issuer a) then None else Some (mkAnswer (an_state a) (an_code a) (an_error a) (Some value) (an_description a))
  else if bool_decide (key = "error_description") then if is_some (an_description a) then None else Some (mkAnswer (an_state a) (an_code a) (an_error a) (an_issuer a) (Some value))
  else Some a.
Definition decode_pair (p : string) : option (string * string) :=
  kv ← split_once "="%char p;
  key ← decode (fst kv);
  value ← decode (snd kv);
  Some (key, value).
Fixpoint answers (pairs : list string) (a : Answer) : option Answer :=
  match pairs with
  | [] => Some a
  | p :: pairs => kv ← decode_pair p; a ← put (fst kv) (snd kv) a; answers pairs a
  end.

(** The last four bytes off, when they are two ends of lines. *)
Fixpoint strip_suffix (suffix s : string) : option string :=
  if bool_decide (s = suffix) then Some EmptyString
  else match s with
       | EmptyString => None
       | String c s => t ← strip_suffix suffix s; Some (String c t)
       end.

(** [callback]. *)
Definition callback (bytes expected_state : string) : AResult string :=
  if negb (from_utf8 bytes) || (8192 <? len bytes) then Err failed
  else
    let? request := ok_or (strip_suffix (String.append crlf crlf) bytes) failed in
    match split_lines request with
    | [] => Err failed
    | first :: lines =>
        match split_on " "%char first with
        | [method; target; protocol] =>
            if negb (bool_decide (method = "GET")) || negb (bool_decide (protocol = "HTTP/1.1"))
               || negb (bytes_all (fun b => negb (Ascii.eqb b "#"%char)) target) || negb (is_ascii target)
               || negb (bytes_all (fun b => negb (byte_in 0 31 b || byte_in 127 127 b)) target)
            then Err failed
            else
              let? query := ok_or (strip_prefix "/auth/callback?" target) failed in
              let? hosts := ok_or (headers_hosts lines) failed in
              if negb (hosts =? 1) then Err failed
              else
                let? a := ok_or (answers (split_on "&"%char query) no_answer) failed in
                if negb (bool_decide (an_state a = Some expected_state)) || is_some_and (an_issuer a) (fun s => negb (bool_decide (s = ISSUER)))
                then Err failed
                else if is_some (an_error a) then
                  (if is_some (an_code a) then Err failed
                   else Err (InvalidAuth "browser authorization was denied; no token exchange was attempted"))
                else if is_some (an_description a) then Err failed
                else ok_or (code ← an_code a; if trim_is_empty code then None else Some code) failed
        | _ => Err failed
        end
    end.

(** [token_profile]; [incarnation] is the identifier it is given. *)
Definition token_profile (t : option Z) (incarnation : string) (body : string) : AResult Profile :=
  if 65536 <? len body then Err failed
  else
    let? tokens := ok_or (tokens_from_slice body) failed in
    if trim_is_empty (tk_access_token tokens) || trim_is_empty (tk_refresh_token tokens)
       || negb (eq_ignore_ascii_case (tk_token_type tokens) "Bearer") || (tk_expires_in tokens =? 0)
    then Err failed
    else
      let pieces := split_on "."%char (tk_access_token tokens) in
      if negb (Nat.eqb (length pieces) 3) || existsb str_is_empty pieces then Err failed
      else
        let? decoded := ok_or (pieces !! 1%nat ≫= b64_decode) failed in
        let? claims := ok_or (token_claims decoded) failed in
        if trim_is_empty (fst claims) then Err failed
        else
          let? now := ok_or t failed in
          let? until := ok_or (checked_add_u64 now (tk_expires_in tokens)) failed in
          let expires := Z.min until (snd claims) in
          check? map_err (from_access_token t (tk_access_token tokens) (Some (fst claims)) (Some expires)) (fun _ => failed) in
          Ok (mkProfile incarnation (fst claims) (tk_access_token tokens) (tk_refresh_token tokens) expires true false).

(** ** The request of a browser *)

(** Texts joined with a separator between them. *)
Fixpoint join (sep : string) (l : list string) : string :=
  match l with
  | [] => EmptyString
  | [x] => x
  | x :: l => String.append x (String.append sep (join sep l))
  end.

Definition without (d : Ascii.ascii) (s : string) : bool := bytes_all (fun c => negb (Ascii.eqb c d)) s.
Fixpoint without_crlf (s : string) : bool :=
  match s with
  | String c ((String d _) as rest) => negb (Ascii.eqb c "013"%char && Ascii.eqb d "010"%char) && without_crlf rest
  | _ => true
  end.

Lemma split_on_nonempty d s : split_on d s <> [].
Proof. induction s as [|c s IH]; simpl; [done|]. destruct (Ascii.eqb c d); [done|]. by destruct (split_on d s). Qed.

Lemma join_cons sep x l : l <> [] -> join sep (x :: l) = String.append x (String.append sep (join sep l)).
Proof. by destruct l. Qed.

(** Splitting is the way back from joining. *)
Lemma split_on_exact d s l :
  split_on d s = l <-> l <> [] /\ Forall (fun x => without d x = true) l /\ join (String d EmptyString) l = s.
Proof.
  split.
  - intros <-. split; [apply split_on_nonempty|]. induction s as [|c s IH]; [by repeat constructor|]. cbn [split_on].
    pose proof (split_on_nonempty d s) as Hne. destruct IH as [Hf Hj]. destruct (Ascii.eqb_spec c d) as [->|Hc].
    + split; [by constructor|]. rewrite join_cons by done. by rewrite Hj.
    + destruct (split_on d s) as [|p ps]; [done|]. apply Forall_cons in Hf as [Hp Hps]. split.
      * constructor; [|done]. cbn [without bytes_all]. destruct (Ascii.eqb_spec c d); done.
      * destruct ps as [|q ps]; [by rewrite <- Hj|]. rewrite join_cons in Hj |- * by done. by rewrite <- Hj.
  - intros (Hne & Hf & <-). induction l as [|x l IH]; [done|]. apply Forall_cons in Hf as [Hx Hl]. destruct l as [|y l].
    + simpl. clear IH Hne Hl. induction x as [|c x IHx] in Hx |- *; [done|]. cbn [without bytes_all] in Hx. apply andb_true_iff in Hx as [Hc Hx]. cbn [split_on].
      destruct (Ascii.eqb c d); [done|]. fold (without d x) in Hx. by rewrite IHx.
    + rewrite join_cons by done. specialize (IH ltac:(done) Hl). revert Hx IH. generalize (join (String d EmptyString) (y :: l)). intros t Hx IH. clear Hl Hne.
      induction x as [|c x IHx].
      * change (split_on d (String d t) = EmptyString :: y :: l). cbn [split_on]. by rewrite Ascii.eqb_refl, IH.
      * cbn [without bytes_all] in Hx. apply andb_true_iff in Hx as [Hc Hx].
        change (split_on d (String c (String.append x (String d t))) = String c x :: y :: l). cbn [split_on]. destruct (Ascii.eqb c d); [done|].
        change (String.append x (String.append (String d EmptyString) t)) with (String.append x (String d t)) in IHx. by rewrite (IHx Hx).
Qed.

Lemma split_lines_step c d rest :
  split_lines (String c (String d rest)) =
  if Ascii.eqb c "013"%char && Ascii.eqb d "010"%char then EmptyString :: split_lines rest
  else match split_lines (String d rest) with [] => [String c EmptyString] | p :: ps => String c p :: ps end.
Proof. done. Qed.

Lemma without_crlf_step c d rest :
  without_crlf (String c (String d rest)) = negb (Ascii.eqb c "013"%char && Ascii.eqb d "010"%char) && without_crlf (String d rest).
Proof. done. Qed.

Lemma split_lines_sound n : forall s, (String.length s <= n)%nat ->
  split_lines s <> [] /\ Forall (fun x => without_crlf x = true) (split_lines s) /\ join crlf (split_lines s) = s.
Proof.
  induction n as [|n IH]; intros s Hs.
  { destruct s; [|simpl in Hs; lia]. by repeat constructor. }
  destruct s as [|c [|d rest]]; [by repeat constructor|by repeat constructor|]. rewrite split_lines_step. simpl in Hs.
  destruct (Ascii.eqb c "013"%char && Ascii.eqb d "010"%char) eqn:Hcd.
  - destruct (IH rest) as (Hne & Hf & Hj); [lia|]. split; [done|]. split; [by constructor|]. rewrite join_cons, Hj by done.
    apply andb_true_iff in Hcd as [->%Ascii.eqb_eq ->%Ascii.eqb_eq]. done.
  - destruct (IH (String d rest)) as (Hne & Hf & Hj); [simpl; lia|]. destruct (split_lines (String d rest)) as [|p ps]; [done|].
    apply Forall_cons in Hf as [Hp Hps]. split; [done|]. assert (join crlf (String c p :: ps) = String c (join crlf (p :: ps))) as Hjc by (by destruct ps).
    split; [|by rewrite Hjc, Hj]. constructor; [|done]. destruct p as [|e p]; [done|]. rewrite without_crlf_step, Hp, andb_true_r.
    assert (e = d) as -> by (destruct ps; [by injection Hj|]; rewrite join_cons in Hj by done; by injection Hj). by rewrite Hcd.
Qed.

Lemma split_lines_one x : without_crlf x = true -> split_lines x = [x].
Proof.
  induction x as [|c x IH]; intros Hx; [done|]. destruct x as [|d x]; [done|]. rewrite without_crlf_step in Hx. apply andb_true_iff in Hx as [Hc Hx].
  rewrite split_lines_step. destruct (_ && _); [done|]. by rewrite IH.
Qed.

Lemma split_lines_more x t : without_crlf x = true -> split_lines (String.append x (String.append crlf t)) = x :: split_lines t.
Proof.
  induction x as [|c x IH]; intros Hx; [done|]. destruct x as [|d x].
  - change (split_lines (String c (String "013" (String "010" t))) = String c EmptyString :: split_lines t). rewrite split_lines_step. cbn [Ascii.eqb].
    destruct (Ascii.eqb c "013"); done.
  - rewrite without_crlf_step in Hx. apply andb_true_iff in Hx as [Hc Hx]. specialize (IH Hx).
    change (split_lines (String c (String d (String.append x (String.append crlf t)))) = String c (String d x) :: split_lines t).
    rewrite split_lines_step. destruct (_ && _); [done|]. change (String d (String.append x (String.append crlf t))) with (String.append (String d x) (String.append crlf t)). by rewrite IH.
Qed.

Lemma split_lines_exact s l :
  split_lines s = l <-> l <> [] /\ Forall (fun x => without_crlf x = true) l /\ join crlf l = s.
Proof.
  split; [intros <-; by eapply split_lines_sound|]. intros (Hne & Hf & <-). induction l as [|x l IH]; [done|]. apply Forall_cons in Hf as [Hx Hl].
  destruct l as [|y l]; [by apply split_lines_one|]. rewrite join_cons by done. rewrite split_lines_more by done. by rewrite IH.
Qed.

Lemma strip_suffix_exact suffix s t : strip_suffix suffix s = Some t <-> s = String.append t suffix.
Proof.
  revert t. induction s as [|c s IH]; intros t; cbn [strip_suffix].
  - destruct (bool_decide_reflect (EmptyString = suffix)) as [<-|Hn]; [rewrite append_empty; naive_solver|]. split; [done|]. destruct t; [intros; naive_solver|done].
  - destruct (bool_decide_reflect (String c s = suffix)) as [<-|Hn].
    + split; [by intros [= <-]|]. intros Ht. destruct t as [|x t]; [done|]. exfalso. apply (f_equal String.length) in Ht. rewrite string_length_app in Ht. simpl in Ht. lia.
    + destruct (strip_suffix suffix s) as [u|] eqn:Hu; cbn [mbind option_bind].
      * pose proof (proj1 (IH u) eq_refl) as ->. split; [by intros [= <-]|]. intros Ht. destruct t as [|x t]; [by destruct Hn|]. injection Ht as <- Ht.
        apply IH in Ht. congruence.
      * split; [done|]. intros Ht. destruct t as [|x t]; [by destruct Hn|]. injection Ht as <- Ht. apply IH in Ht. done.
Qed.

(** What a query says of a key. *)
Definition picked (key : string) (kvs : list (string * string)) : list string := snd <$> filter (fun kv => fst kv = key) kvs.
Definition olist (o : option string) : list string := match o with Some v => [v] | None => [] end.

(** An answer has each of the five keys as often as the query. *)
Definition filled (a : Answer) (kvs : list (string * string)) : Prop :=
  olist (an_state a) = picked "state" kvs /\ olist (an_code a) = picked "code" kvs /\ olist (an_error a) = picked "error" kvs /\
  olist (an_issuer a) = picked "iss" kvs /\ olist (an_description a) = picked "error_description" kvs.

Lemma picked_app key k1 k2 : picked key (k1 ++ k2) = picked key k1 ++ picked key k2.
Proof. unfold picked. by rewrite filter_app, fmap_app. Qed.
Lemma picked_one key k v : picked key [(k, v)] = if bool_decide (k = key) then [v] else [].
Proof. unfold picked. rewrite filter_cons. cbn [fst]. case_decide; case_bool_decide; done. Qed.
Lemma olist_inj a b : olist a = olist b -> a = b.
Proof. destruct a, b; simpl; congruence. Qed.
Lemma olist_twice o x y l : olist o <> x :: y :: l.
Proof. by destruct o. Qed.

Lemma filled_inj a b kvs : filled a kvs -> filled b kvs -> a = b.
Proof.
  intros (A1 & A2 & A3 & A4 & A5) (B1 & B2 & B3 & B4 & B5). destruct a, b; simpl in *. f_equal; apply olist_inj; congruence.
Qed.

Lemma put_filled k v a kvs a' : put k v a = Some a' -> filled a kvs -> filled a' (kvs ++ [(k, v)]).
Proof.
  intros Hp (A1 & A2 & A3 & A4 & A5). unfold filled. rewrite !picked_app, !picked_one, <- A1, <- A2, <- A3, <- A4, <- A5. clear A1 A2 A3 A4 A5. revert Hp. unfold put.
  repeat (case_bool_decide; [subst k; match goal with |- (if is_some ?o then _ else _) = _ -> _ => destruct o eqn:?; [done|] end;
    intros [= <-]; simpl; repeat match goal with H : _ = None |- _ => rewrite H end; rewrite ?app_nil_r; done|]).
  intros [= <-]. by rewrite !app_nil_r.
Qed.

Lemma put_None k v a kvs more b : put k v a = None -> filled a kvs -> ~ filled b (kvs ++ (k, v) :: more).
Proof.
  intros Hp (A1 & A2 & A3 & A4 & A5) (B1 & B2 & B3 & B4 & B5). change ((k, v) :: more) with ([(k, v)] ++ more) in *. rewrite !picked_app, !picked_one in *.
  rewrite <- A1 in B1. rewrite <- A2 in B2. rewrite <- A3 in B3. rewrite <- A4 in B4. rewrite <- A5 in B5. revert Hp. unfold put.
  repeat (match goal with |- (if bool_decide ?P then _ else _) = _ -> _ => destruct (bool_decide_reflect P) end; [subst k; match goal with |- (if is_some ?o then _ else _) = _ -> _ => destruct o eqn:Ho; [|done] end;
    intros _; first [exact (olist_twice _ _ _ _ B1)|exact (olist_twice _ _ _ _ B2)|exact (olist_twice _ _ _ _ B3)|exact (olist_twice _ _ _ _ B4)|exact (olist_twice _ _ _ _ B5)]|]).
  done.
Qed.

Lemma answers_exact ps a :
  answers ps no_answer = Some a <-> exists kvs, mapM decode_pair ps = Some kvs /\ filled a kvs.
Proof.
  assert (forall a0 kvs0, filled a0 kvs0 -> answers ps a0 = Some a <-> exists kvs, mapM decode_pair ps = Some kvs /\ filled a (kvs0 ++ kvs)) as Hgen; [|by apply (Hgen no_answer [])].
  induction ps as [|p ps IH]; intros a0 kvs0 H0'.
  - cbn [answers]. split.
    + intros [= <-]. exists []. split; [done|]. by rewrite app_nil_r.
    + intros (kvs & [= <-] & Hf). rewrite app_nil_r in Hf. f_equal. by eapply filled_inj.
  - cbn [answers mapM]. destruct (decode_pair p) as [[k v]|]; cbn [mbind option_bind fst snd]; [|split; [done|by intros (kvs & ? & _)]].
    destruct (put k v a0) as [a1|] eqn:Hp; cbn [mbind option_bind].
    + pose proof (put_filled _ _ _ _ _ Hp H0') as H1'. rewrite (IH a1 _ H1'). setoid_rewrite <- app_assoc. split.
      * intros (kvs & -> & Hf). exists ((k, v) :: kvs). done.
      * intros (kvs & Hm & Hf). destruct (mapM decode_pair ps) as [kvs'|]; [|done]. injection Hm as <-. by exists kvs'.
    + split; [done|]. intros (kvs & Hm & Hf). destruct (mapM decode_pair ps) as [kvs'|]; [|done]. injection Hm as <-. exfalso. by eapply put_None.
Qed.

(** The text of a request. *)
Definition first_line (target : string) : string := join " " ["GET"; target; "HTTP/1.1"].
Definition request_text (target : string) (headers : list string) : string :=
  String.append (join crlf (first_line target :: headers)) (String.append crlf crlf).

(** A header the callback takes, and whether it names the host. *)
Definition header_ok (line : string) (host : bool) : Prop :=
  exists name value, line = String.append name (String ":"%char value) /\
    name <> EmptyString /\ bytes_all (fun b => is_ascii_alphanumeric b || Ascii.eqb b "-"%char) name = true /\
    bytes_all (fun b => negb (byte_in 0 31 b || byte_in 127 127 b) || byte_in 9 9 b) value = true /\
    host = eq_ignore_ascii_case name "host" /\ (host = true -> trims_to HOST value = true) /\
    eq_ignore_ascii_case name "transfer-encoding" = false /\
    (eq_ignore_ascii_case name "content-length" = true -> trims_to "0" value = true).

Lemma split_once_exact d s a b : split_once d s = Some (a, b) <-> s = String.append a (String d b) /\ without d a = true.
Proof.
  revert a b. induction s as [|c s IH]; intros a b; cbn [split_once]; [split; [done|]; by intros [? _]; destruct a|].
  destruct (Ascii.eqb_spec c d) as [->|Hn].
  - split; [by intros [= <- <-]|]. intros [Hs Hw]. destruct a as [|x a]; [by injection Hs as <-|]. injection Hs as <- Hs. cbn [without bytes_all] in Hw. by rewrite Ascii.eqb_refl in Hw.
  - destruct (split_once d s) as [[a' b']|] eqn:Hso.
    + pose proof (proj1 (IH a' b') eq_refl) as [-> Hw']. split.
      * intros [= <- <-]. split; [done|]. cbn [without bytes_all]. destruct (Ascii.eqb_spec c d); [done|]. exact Hw'.
      * intros [Hs Hw]. destruct a as [|x a]; [by injection Hs|]. injection Hs as <- Hs. cbn [without bytes_all] in Hw. apply andb_true_iff in Hw as [_ Hw].
        assert (Some (a', b') = Some (a, b)) as [= <- <-] by (apply IH; done). done.
    + split; [done|]. intros [Hs Hw]. destruct a as [|x a]; [by injection Hs|]. injection Hs as <- Hs. cbn [without bytes_all] in Hw. apply andb_true_iff in Hw as [_ Hw].
      assert (None = Some (a, b)) as ? by (apply IH; done). done.
Qed.

Lemma bytes_all_impl (P Q : Ascii.ascii -> bool) s : (forall c, P c = true -> Q c = true) -> bytes_all P s = true -> bytes_all Q s = true.
Proof. intros HPQ. induction s as [|c s IH]; simpl; [done|]. rewrite !andb_true_iff. intros [? ?]. auto. Qed.

Lemma header_line_exact line host : header_line line = Some host <-> header_ok line host.
Proof.
  unfold header_line, header_ok. split.
  - destruct (split_once ":" line) as [[name value]|] eqn:Hs; [|done]. apply split_once_exact in Hs as [-> _]. cbn [mbind option_bind].
    destruct (str_is_empty name) eqn:Hne; [done|]. destruct (bytes_all _ name) eqn:Hn; [|done]. destruct (bytes_all _ value) eqn:Hv; [|done]. simpl.
    destruct (eq_ignore_ascii_case name "host" && negb (trims_to HOST value)) eqn:Hh; [done|]. destruct (_ || _) eqn:Ht; [done|]. intros [= <-].
    apply orb_false_iff in Ht as [Ht Hc]. exists name, value. split_and!; try done; [by intros ->|intros He; by destruct (eq_ignore_ascii_case name "host"), (trims_to HOST value)|].
    intros He. rewrite He in Hc. by destruct (trims_to "0" value).
  - intros (name & value & -> & Hne & Hn & Hv & -> & Hh & Ht & Hc). assert (without ":"%char name = true) as Hw.
    { eapply bytes_all_impl; [|exact Hn]. intros c Hx. destruct (Ascii.eqb_spec c ":"%char) as [->|]; [|done]. vm_compute in Hx. done. }
    rewrite (proj2 (split_once_exact ":"%char _ name value) (conj eq_refl Hw)). cbn [mbind option_bind]. rewrite Hn, Hv, Ht. destruct name; [done|]. cbn [str_is_empty orb negb].
    destruct (eq_ignore_ascii_case _ "host"); [rewrite Hh by done|]; cbn [andb negb orb]; destruct (eq_ignore_ascii_case _ "content-length"); simpl; try rewrite Hc by done; done.
Qed.

(** Exactly one of the headers names the host. *)
Definition one_host (headers : list string) : Prop :=
  exists hosts, Forall2 header_ok headers hosts /\ length (filter (fun b => b = true) hosts) = 1%nat.
Lemma headers_hosts_exact lines n :
  headers_hosts lines = Some n <-> exists hosts, Forall2 header_ok lines hosts /\ n = Z.of_nat (length (filter (fun b => b = true) hosts)).
Proof.
  revert n. induction lines as [|l lines IH]; intros n; cbn [headers_hosts].
  - split; [intros [= <-]; exists []; by split; [constructor|]|]. intros (hosts & Hf & ->). by inversion Hf.
  - split.
    + destruct (header_line l) as [host|] eqn:Hh; [|done]. cbn [mbind option_bind]. destruct (headers_hosts lines) as [m|]; [|done]. cbn [mbind option_bind]. intros [= <-].
      destruct (proj1 (IH m) eq_refl) as (hosts & Hf & ->). exists (host :: hosts). split; [constructor; [by apply header_line_exact|done]|].
      rewrite filter_cons. destruct host; simpl; lia.
    + intros (hosts & Hf & ->). inversion Hf as [|? host ? hosts' Hh Hr]; subst. apply header_line_exact in Hh as ->. cbn [mbind option_bind].
      rewrite (proj2 (IH _) (ex_intro _ hosts' (conj Hr eq_refl))). cbn [mbind option_bind]. rewrite filter_cons. destruct host; simpl; f_equal; lia.
Qed.

Lemma without_crlf_bytes s : without "013"%char s = true -> without_crlf s = true.
Proof.
  induction s as [|c s IH]; intros Hs; [done|]. cbn [without bytes_all] in Hs. apply andb_true_iff in Hs as [Hc Hs]. destruct s as [|d s]; [done|].
  rewrite without_crlf_step. fold (without "013"%char (String d s)) in Hs. rewrite (IH Hs), andb_true_r. by destruct (Ascii.eqb c "013").
Qed.
Lemma without_app d a b : without d (String.append a b) = without d a && without d b.
Proof.
  induction a as [|c a IH]; [done|]. change (String.append (String c a) b) with (String c (String.append a b)). cbn [without bytes_all].
  fold (without d (String.append a b)). fold (without d a). by rewrite IH, andb_assoc.
Qed.

(** A target the callback takes. *)
Definition target_ok (target : string) : Prop :=
  without "#"%char target = true /\ without " "%char target = true /\ is_ascii target = true /\
  bytes_all (fun b => negb (byte_in 0 31 b || byte_in 127 127 b)) target = true.

Lemma header_ok_line line host : header_ok line host -> without_crlf line = true.
Proof.
  intros (name & value & -> & _ & Hn & Hv & _). apply without_crlf_bytes. rewrite without_app, andb_true_iff. split.
  - eapply bytes_all_impl; [|exact Hn]. intros c Hc. destruct (Ascii.eqb_spec c "013"%char) as [->|]; [|done]. vm_compute in Hc. done.
  - cbn [without bytes_all]. simpl. eapply bytes_all_impl; [|exact Hv]. intros c Hc. destruct (Ascii.eqb_spec c "013"%char) as [->|]; [|done]. vm_compute in Hc. done.
Qed.

(** The lines of a request. *)
Lemma request_lines target headers request :
  target_ok target -> one_host headers \/ headers = [] ->
  request_text target headers = String.append request (String.append crlf crlf) ->
  split_lines request = first_line target :: headers /\ split_on " "%char (first_line target) = ["GET"; target; "HTTP/1.1"].
Proof.
  intros (_ & Hs & _ & Hc) Hh Hr. apply append_inj_len in Hr as [<- _]; [|done]. split.
  - apply split_lines_exact. split; [done|]. split; [|done]. constructor.
    + apply without_crlf_bytes. unfold first_line. cbn [join]. rewrite !without_app. simpl. rewrite andb_true_r.
      eapply bytes_all_impl; [|exact Hc]. intros c Hx. destruct (Ascii.eqb_spec c "013"%char) as [->|]; [|done]. vm_compute in Hx. done.
    + destruct Hh as [(hosts & Hf & _)| ->]; [|constructor]. clear -Hf. induction Hf; constructor; [by eapply header_ok_line|done].
  - apply split_on_exact. split; [done|]. split; [|done]. repeat constructor. exact Hs.
Qed.

Lemma request_parsed request first lines target :
  split_lines request = first :: lines -> split_on " "%char first = ["GET"; target; "HTTP/1.1"] ->
  String.append request (String.append crlf crlf) = request_text target lines /\ without " "%char target = true.
Proof.
  intros Hl Hf. apply split_lines_exact in Hl as (_ & _ & <-). apply split_on_exact in Hf as (_ & Hw & <-). split; [done|]. by inversion Hw as [|? ? _ Hw2]; inversion Hw2.
Qed.

(** C28. The callback of a login is exact.  It gives a code if and only if the bytes are
    one request of at most 8192 of them, for the callback path of the expected host and
    with nothing in it that could frame a body, whose query says once the expected
    state, once a code that is not blank, at most once an issuer, which is the
    expected one, and neither an error nor a description; the code it gives is that one. *)
Theorem callback_exact bytes expected code :
  callback bytes expected = Ok code <->
  exists query headers kvs,
    bytes = request_text (String.append "/auth/callback?" query) headers /\ from_utf8 bytes = true /\ len bytes <= 8192 /\
    target_ok (String.append "/auth/callback?" query) /\ one_host headers /\
    mapM decode_pair (split_on "&"%char query) = Some kvs /\
    picked "state" kvs = [expected] /\ picked "code" kvs = [code] /\ (picked "iss" kvs = [] \/ picked "iss" kvs = [ISSUER]) /\
    picked "error" kvs = [] /\ picked "error_description" kvs = [] /\ trim_is_empty code = false.
Proof.
  unfold callback. split.
  - destruct (from_utf8 bytes) eqn:Hu; [|done]. destruct (Z.ltb_spec 8192 (len bytes)) as [|Hl]; [done|]. cbn [negb orb].
    destruct (strip_suffix _ bytes) as [request|] eqn:Hr; [|done]. apply strip_suffix_exact in Hr as ->. cbn [ok_or].
    destruct (split_lines request) as [|first lines] eqn:Hsl; [done|]. destruct (split_on " " first) as [|method [|target [|protocol [|]]]] eqn:Hso; try done.
    destruct (bool_decide_reflect (method = "GET")) as [->|]; [|done]. destruct (bool_decide_reflect (protocol = "HTTP/1.1")) as [->|]; [|done].
    destruct (bytes_all (fun b => negb (Ascii.eqb b "#"%char)) target) eqn:Hhash; [|done]. destruct (is_ascii target) eqn:Hasc; [|done]. destruct (bytes_all (fun b => negb (byte_in 0 31 b || byte_in 127 127 b)) target) eqn:Hctl; [|done]. cbn [negb orb].
    destruct (strip_prefix _ target) as [query|] eqn:Hq; [|done]. apply strip_prefix_Some in Hq as ->. cbn [ok_or].
    destruct (headers_hosts lines) as [hosts|] eqn:Hh; [|done]. cbn [ok_or]. destruct (Z.eqb_spec hosts 1) as [->|]; [|done]. cbn [negb].
    destruct (answers _ no_answer) as [a|] eqn:Ha; [|done]. apply answers_exact in Ha as (kvs & Hkv & F1 & F2 & F3 & F4 & F5). cbn [ok_or].
    destruct (bool_decide_reflect (an_state a = Some expected)) as [Hst|]; [|done]. cbn [negb orb]. destruct (is_some_and (an_issuer a) _) eqn:Hiss; [done|].
    destruct (an_error a) eqn:Herr; [by destruct (an_code a)|]. cbn [is_some]. destruct (an_description a) eqn:Hdesc; [done|]. cbn [is_some].
    intros Hc%ok_or_Ok. destruct (an_code a) as [v|] eqn:Hcode; [|done]. cbn [mbind option_bind] in Hc. destruct (trim_is_empty v) eqn:Htr; [done|]. injection Hc as ->.
    destruct (request_parsed _ _ _ _ Hsl Hso) as [Ht Hsp]. exists query, lines, kvs. apply headers_hosts_exact in Hh as (hs & Hhs & Hone).
    split_and!; try done; [exists hs; split; [done|lia]|by rewrite <- F1, Hst|].
    destruct (an_issuer a) as [i|]; [right|by left]. simpl in Hiss. destruct (bool_decide_reflect (i = ISSUER)) as [->|]; [by rewrite <- F4|done].
  - intros (query & headers & kvs & -> & Hu & Hl & Ht & Hh & Hkv & P1 & P2 & P3 & P4 & P5 & Htr). rewrite Hu. destruct (Z.ltb_spec 8192 (len (request_text (String.append "/auth/callback?" query) headers))); [lia|].
    cbn [negb orb]. assert (strip_suffix (String.append crlf crlf) (request_text (String.append "/auth/callback?" query) headers) = Some (join crlf (first_line (String.append "/auth/callback?" query) :: headers))) as -> by (by apply strip_suffix_exact). cbn [ok_or].
    destruct (request_lines _ headers (join crlf (first_line (String.append "/auth/callback?" query) :: headers)) Ht (or_introl Hh) eq_refl) as [-> ->].
    destruct Ht as (Hhash & _ & Hasc & Hctl). rewrite !(bool_decide_eq_true_2 (_ = _)) by done. unfold without in Hhash. rewrite Hhash, Hasc, Hctl. cbn [negb orb].
    rewrite strip_prefix_app. cbn [ok_or]. destruct Hh as (hosts & Hf & Hone).
    rewrite (proj2 (headers_hosts_exact headers 1)) by (exists hosts; split; [done|lia]). cbn [ok_or]. cbn [negb Z.eqb Pos.eqb].
    set (a := mkAnswer (Some expected) (Some code) None (match picked "iss" kvs with [] => None | x :: _ => Some x end) None).
    assert (answers (split_on "&" query) no_answer = Some a) as ->.
    { apply answers_exact. exists kvs. split; [done|]. unfold filled. simpl. rewrite P1, P2, P4, P5. split_and!; try done. by destruct P3 as [-> | ->]. }
    cbn [ok_or]. unfold a. cbn [an_state an_issuer an_error an_description an_code is_some]. rewrite bool_decide_eq_true_2 by done. cbn [negb orb].
    destruct P3 as [-> | ->]; simpl; by rewrite Htr.
Qed.
End credentials.

(** * Managed profiles, as an example

    A codec of documents that keeps its laws, and a history: a login, a renewal, a
    renewal that times out, and what the program does afterwards. *)

(** ** A codec *)
#[local] Instance Profile_eq_dec : EqDecision Profile.
Proof. solve_decision. Defined.
#[local] Instance Profile_countable : Countable Profile.
Proof.
  apply (inj_countable' (fun p => (incarnation p, account p, access p, refresh p, expires p, enabled p, reauth p))
    (fun t => let '(i, a, x, r, e, b, q) := t in mkProfile i a x r e b q)). by intros [].
Defined.
#[local] Instance Document_eq_dec : EqDecision Document.
Proof. solve_decision. Defined.
#[local] Instance Document_countable : Countable Document.
Proof. apply (inj_countable' (fun d => (version d, profiles d)) (fun t => mkDocument (fst t) (snd t))). by intros []. Defined.

Fixpoint sortedb {A} (l : list (string * A)) : bool :=
  match l with
  | [] => true
  | (k, _) :: l => forallb (fun ka => match String.compare k (fst ka) with Lt => true | _ => false end) l && sortedb l
  end.
Lemma sortedb_spec {A} (l : list (string * A)) : sortedb l = true <-> keys_sorted l.
Proof.
  induction l as [|[k x] l IH]; [split; [constructor|done]|]. simpl. rewrite andb_true_iff, IH, forallb_forall. split.
  - intros [Ha Hs]. constructor; [done|]. apply Forall_forall. intros z Hz%list_elem_of_In. specialize (Ha z Hz). simpl. by destruct (String.compare _ _).
  - intros Hs. inversion Hs as [|? ? Hs' Hf]; subst. split; [|done]. intros z Hz%list_elem_of_In. rewrite Forall_forall in Hf. specialize (Hf z Hz). simpl in Hf. by rewrite Hf.
Qed.
Definition document_okb (d : Document) : bool :=
  (version d =? 1) && sortedb (profiles d) && forallb (fun np => (0 <=? expires (snd np)) && (expires (snd np) <=? u64_max)) (profiles d).
Lemma document_okb_spec d : document_okb d = true <-> document_ok d.
Proof.
  unfold document_okb, document_ok. rewrite !andb_true_iff, Z.eqb_eq, sortedb_spec, forallb_forall, Forall_forall. unfold in_range.
  split; [intros [[? ?] Hf]|intros (? & ? & Hf)]; split_and!; try done; intros x Hx; [apply list_elem_of_In, Hf in Hx|apply list_elem_of_In, Hf in Hx]; lia.
Qed.

#[local] Instance bits_serde : ProfileSerde := {|
  document_from_slice := fun s => d ← countable.decode (unbits s); if document_okb d then Some d else None;
  document_to_vec := fun d => Some (bits (encode d));
  header_value := fun s => bytes_all (byte_in 32 126) s |}.
Lemma bits_laws : ProfileLaws.
Proof.
  split; simpl.
  - intros bytes d Hd _. destruct (countable.decode (unbits bytes)) as [d'|]; [|done]. cbn [mbind option_bind] in Hd. destruct (document_okb d') eqn:Ho; [|done].
    injection Hd as <-. by apply document_okb_spec.
  - intros d bytes Ho [= <-]. rewrite unbits_bits, decode_encode. cbn [mbind option_bind]. by rewrite (proj2 (document_okb_spec d) Ho).
Qed.

#[local] Instance some_uuid : UuidLib := example_uuid.

(** ** A history *)
Definition work_inc : string := "01234567-89ab-4cde-8fab-0123456789ab".
Definition brought (token : string) (expiry : Z) : Profile := mkProfile "" "acct" "access" token expiry true false.
Definition work : ManagedCredentials := mkCredentials "work" work_inc "acct".

Definition after_login : Auth := snd (login_before "work" (brought "first" 1000) false work_inc (with_oracle [] [] [] new_auth)).
Definition after_renewal : Auth :=
  snd (renew work false (with_oracle [] [Some 990; Some 991] [Ok (brought "second" 2000)] after_login)).
Definition timed_out : GatewayError := InvalidAuth "renewal timed out; login required".
Definition after_timeout : Auth := snd (renew work true (with_oracle [] [Some 1500] [Err timed_out] after_renewal)).
Definition after_retry : Auth := snd (renew work true (with_oracle [] [Some 1501] [Ok (brought "third" 3000)] after_timeout)).

Example history_trace : au_trace after_retry =
  [Issued "work" work_inc "first"; Asked "work" work_inc "first" (Ok (brought "second" 2000)); Asked "work" work_inc "second" (Err timed_out)].
Proof. vm_compute. reflexivity. Qed.

Lemma history_reachable : reachable_auth after_retry.
Proof.
  unfold reachable_auth. apply (rtc_l _ _ after_login).
  { apply step_login; [split; [reflexivity|constructor]|unfold in_range, u64_max; simpl; lia]. }
  apply (rtc_l _ _ after_renewal). { apply step_renew. repeat constructor; simpl; unfold u64_max; lia. }
  apply (rtc_l _ _ after_timeout). { apply step_renew. repeat constructor. }
  apply (rtc_l _ _ after_retry); [|apply rtc_refl]. apply step_renew. repeat constructor; simpl; unfold u64_max; lia.
Qed.

Lemma refresh_token_once_witness :
  current [Issued "work" work_inc "first"; Asked "work" work_inc "first" (Ok (brought "second" 2000))] "work" work_inc = Some "second".
Proof.
  refine (proj1 (@refresh_token_once some_uuid bits_serde bits_laws after_retry
    [Issued "work" work_inc "first"; Asked "work" work_inc "first" (Ok (brought "second" 2000))] "work" work_inc "second" (Err timed_out) [] history_reachable _)).
  exact history_trace.
Defined.

Definition three : list ProfileMetadata := [mkMetadata "a" true true false 1; mkMetadata "b" true true true 1; mkMetadata "c" true true false 1; mkMetadata "d" true true false 1].
Lemma selection_fair_witness :
  exists start, forall w words, 0 <= w <= u64_max ->
    (2 ^ 64 mod 3 <= w /\ select_profile three None (Some w :: words) = Some (Ok "c")) <-> exists k, 0 <= k < 2 ^ 64 / 3 /\ w = start + k * 3.
Proof.
  refine (proj1 (proj2 (selection_fair three _ _ _)) (mkMetadata "c" true true false 1) _ _).
  - vm_compute. reflexivity.
  - apply (bool_decide_eq_true_1 _). vm_compute. reflexivity.
  - split; vm_compute; congruence.
  - apply list_elem_of_lookup_2 with 2%nat. reflexivity.
  - reflexivity.
Defined.

(** The request of a browser that comes back from a login. *)
Definition example_request_text : string :=
  request_text "/auth/callback?code=c%2F1&state=s1" ["Host: localhost:1455"; "Accept: */*"].
Example example_callback : callback example_request_text "s1" = Ok "c/1".
Proof. vm_compute. reflexivity. Qed.
Example example_forged : callback example_request_text "s2" = Err failed.
Proof. vm_compute. reflexivity. Qed.
